(* ===== verification/_CoqProject ===== *)
-Q . S2P
Prelude.v
Text.v
Chars.v
Float32.v
Layout.v
Agents.v
Terminals.v
PublicIds.v
Workspaces.v
Panes.v
PaneApi.v
Sessions.v
Restored.v
Digest.v
Wire.v
Blit.v
RenderStream.v
Ports.v
Claims.v
RunState.v
Evidence.v
EvidencePack.v
Evaluator.v
Executor.v
Recipes.v
RecipeCopy.v
Lifecycle.v
Attention.v
Consent.v
Journal.v
Events.v
Projection.v
Store.v
Runtime.v
Processes.v
Services.v
Popups.v
Keys.v
