(* ===== verification/Prelude.v ===== *)
(** * A verification development of nagi

    nagi is a terminal multiplexer for coding agents.  A server keeps the
    panes and the missions of a session; clients attach to it over a socket
    and draw what it renders.  This library models five parts of it: the
    mission core ([src/src/mission]), which decides when the work of an agent
    may count as done and keeps the record of it; the workspaces with their
    tabs and panes, the requests that change them and the session they are
    saved in ([src/src/workspace.rs], [src/src/app], [src/src/persist]); what is known of the agent in a terminal
    ([src/src/terminal]); the path from the tiles of a tab to a client's
    screen ([src/src/layout.rs], [src/src/protocol],
    [src/src/server/render_stream.rs]) and of a key to a program
    ([src/src/input]); and what a project declares for its checkouts
    ([src/src/project_recipe], [src/src/resources]).

    ** How the mission core fits together

    A mission is drafted with acceptance criteria, given a closure plan of
    checks, and worked on in runs, each in a checkout that is claimed for it.
    Providers report the state of their sessions and ask for attention.  When
    the checks were run, their evidence is packed, an evaluator compares it
    with an authority snapshot, and a proof that verifies seals the mission
    with a receipt.  Every change is an event in a journal of hash-chained
    frames; a projection folds the events; a store commits them, recovers
    after a crash and hands the journal over to the next server process.

    - [Digest.v]: [CanonicalDigest] of [digest.rs], big-endian integers, and
      what it means for SHA-256 to collide.
    - [Claims.v]: [claims.rs], leases on checkouts and the lock files.
    - [RunState.v]: [run_state.rs], the observed state of a session.
    - [Evidence.v]: [evidence.rs], path contracts, checks, workspaces, command
      and manual evidence and their assessment; [ProofIdentity] of [proof.rs].
    - [EvidencePack.v]: [evidence_pack.rs], content-addressed packs.
    - [Evaluator.v]: [proof.rs], the closure plan and the evaluator.
    - [Executor.v]: [executor.rs], running the checks into a pack.
    - [Lifecycle.v]: [model.rs], the status graph and the two proofs.
    - [Attention.v]: [attention.rs], the inbox and the replies to providers.
    - [Journal.v]: [journal.rs], frames, replay, repair, scan.
    - [Events.v], [Projection.v], [Store.v]: [store.rs], the events and their
      validation, the fold, and the store on a directory that may fail.
    - [Runtime.v]: [runtime.rs], every method of [MissionRuntime] in a monad
      over the runtime and the world.
    - [Processes.v]: the server processes that share a session directory, as
      a step relation whose steps are the methods of [Runtime.v].
    - [Consent.v]: [server/consent.rs], what a client must confirm before a
      provider may write or is answered, as grants for one use.

    ** What a project declares

    A checkout may hold a contract: files that are copied into new checkouts,
    commands that set them up, check and clean them, and services that listen
    on leased ports.

    - [Recipes.v]: [project_recipe/validate.rs] and [model.rs], the contract
      and what is refused of it; [execute.rs], its commands; [mod.rs], the
      command that is proposed and the line that is typed.
    - [RecipeCopy.v]: [project_recipe/copy.rs], the copy of ignored files, on a
      file system with directories and symbolic links.
    - [Ports.v]: [resources/ports.rs] and [resources/cleanup.rs], the ports
      that are leased to the services of a mission, and their lock file.
    - [Services.v]: [resources/services.rs], starting the services of a
      checkout, waiting for their health and stopping them.

    ** Conventions

    A Rust method is a definition of the same name where Rocq allows it; a
    method that exists for several types carries a prefix ([pack_load],
    [rt_commit]).  A struct is a record with a prefix on its fields, an enum
    an inductive in a module of its name.  [&mut self] is the state taken and
    returned, [Result] is [result] of [Prelude.v], a [BTreeMap] a [gmap] that
    is sorted where the code iterates over it.

    ** How workspaces, tabs and panes are kept

    A request names workspaces, tabs and panes by public identifiers.  It is
    handled on the state of the application, which holds the workspaces and
    the terminals; a pane points to the terminal it shows, and a terminal
    knows the agent that runs in it.

    - [Agents.v]: [agent_resume.rs] and the names of agents of
      [detect/mod.rs], sessions and how they are resumed.
    - [Terminals.v]: [terminal/state.rs], [terminal/metadata.rs] and
      [metadata_tokens.rs], the reports of hooks against what is detected.
    - [PublicIds.v]: the identifiers of [workspace.rs] and [terminal/id.rs].
    - [Workspaces.v]: [workspace.rs] and [workspace/tab.rs].
    - [Panes.v]: [app/ids.rs] and the part of [app/actions.rs] about
      workspaces, tabs and panes, with the invariant of the application.
    - [PaneApi.v]: the handlers of [app/api/workspaces.rs], [app/api/tabs.rs]
      and [app/api/panes.rs] and what they use of [app/creation.rs].
    - [Sessions.v]: [persist/snapshot.rs] and [persist/restore.rs], capturing a
      session, reading it, and making panes and tabs from it.
    - [Restored.v]: the workspaces and the session that this gives.

    ** How a tab reaches the screen

    - [Float32.v]: the [f32] of the ratios, on the Standard Library's
      specification of IEEE 754.
    - [Layout.v]: [layout.rs], the tree of panes, its rectangles, resizing and
      moves between neighbours.
    - [Wire.v]: [protocol/wire.rs], messages, their frames on a stream, and
      the frame of a [ratatui] buffer.
    - [Blit.v]: [protocol/render_ansi.rs], from one frame to the next in escape
      sequences, and a terminal that gives them their meaning.
    - [RenderStream.v]: [server/render_stream.rs], what a client was sent.
    - [Popups.v]: [popup_size.rs] and [selection.rs], where a popup lies and
      which cells a drag of the mouse selects.
    - [Keys.v]: [input/model.rs], [input/parse.rs] and [input/encode.rs], from
      the sequences of a terminal to keys, and from keys and mouse events to
      the sequences a program is sent.

    [Prelude.v], [Text.v] and [Chars.v] hold what all files share: results,
    record updates, ordered iteration over maps, machine integers, Rust strings,
    characters and paths, the hint database [results] and the tactics [inv_ok] and [inv_err],
    which take a handler's result apart into the branch it came from.

    ** What the theorems show

    - The store: at every moment its memory is the fold of a sequence of valid
      events, the replay of the journal that its directory recovers to unless
      the store is poisoned ([store_is_its_history]); a commit survives
      any crash ([commit_survives_crash]); opening reads what was written
      ([open_reads_the_journal], [checkpoint_round_trip]); a handoff transfers
      the history ([handoff_transfers_the_history]).  Over all processes there
      is one writer and one history ([one_writer_one_history]).
    - The journal: append then replay, recovery of a torn frame, evidence of
      tampering.
    - Digests: nothing assumes that SHA-256 is injective.  Where a result rests
      on digests telling texts apart, the theorem names the texts that the run
      at hand did hash and concludes that the result holds or that two
      different ones among these have one digest ([clashes],
      [collision_among]; [record_clash], [snapshot_clash] in [Store.v]).  The
      invariants of the store and of the processes need neither, and only
      [Consent.v], which supposes nothing of the length of a digest, speaks of
      a [collision] of any two texts.
    - Proofs: the evaluator verifies exactly when its conditions hold
      ([evaluate_verified_iff]); nothing but a proof seals a mission
      ([sealed_event_names_the_head], [finalize_seals_verified]).
    - Invariants of the projection, the life cycle and the inbox over every
      sequence of operations, and that what the handlers hand out is accepted
      later ([outstanding_reply_settles]).
    - Claims and the runtime: two processes never hold one checkout; starting
      and continuing a run happen as a whole or not at all.
    - Ports: the registry stays well formed, one process holds its lock as
      long as none dies, and a cleanup removes only what was inspected.
    - Consent: in every order of issues and attempts a grant is good for one
      use, one subject and thirty seconds ([consent_is_for_one_use]).
    - Projects: a contract is loaded exactly when it is well formed, and then
      its commands run ([loaded_contracts_are_well_formed]); what is typed is
      what runs ([typed_commands_are_argv]); copying overwrites nothing, is
      bounded and stays below the new checkout ([copies_are_bounded],
      [copies_stay_below]).
    - Services: they start together or leave no lease
      ([services_start_together]), waiting for one ends
      ([waiting_for_health_ends]), a probe does not leave the machine
      ([health_probes_stay_local]).
    - Keys: what is encoded for a program is the key the program reads
      ([keys_pass_through]).  Popups fit ([popups_fit]), and a drag selects in
      the order of reading ([selections_are_reading_order]).
    - Workspaces: over every sequence of requests and ends of processes the
      state stays well formed and nothing panics
      ([requests_keep_the_application]); a move puts its pane where it was asked
      to and keeps every terminal ([pane_move_keeps_terminals]), a close
      stops exactly the processes it should, public identifiers lead back to
      what they name and are not used again.
    - Sessions: a session that is captured and restored is the same but for the
      identifiers of panes and terminals, directories that are gone and the
      command lines of panes, and each session of an agent is resumed by one
      terminal ([saved_session_is_restored]);
      whichever processes start, what is restored is well formed and resumes no
      agent twice ([restored_sessions_are_well_formed]).
    - Agents: the state of a terminal is what the arbitration rules give
      ([terminal_steps_report_changes]), a session that is over stays over,
      and a session that was reported is restored.
    - The screen: panes tile the area and moves reach neighbours; the layout
      refines the list of its panes; an incremental update shows what a full
      redraw shows and writes nothing but what it draws ([update_equals_redraw]), and a client's terminal shows the
      last frame it was sent ([client_shows_last_frame]); messages are read as
      they were written, however the bytes arrive.

    ** Parameters, bounds and fuel

    What is not under [src/] is a class, and what the code relies on a class of
    laws with an instance in the demonstrations: SHA-256 ([Sha256]), JSON
    ([SerdeJson], [PackJson], [PortJson]), base64 ([Base64]), bincode ([Bincode]), the host
    and Git ([GitHost]), [ratatui]'s rectangles ([RectNew]) and the widths of
    symbols ([SymbolWidth]), TOML ([Toml]), [package.json] ([PackageJson]),
    name resolution ([Resolver]) and the session file ([SnapshotJson]).  The order in which a [HashMap] is iterated is the
    class [HashOrder], any order of its entries; what the machine says of
    processes, sockets and directories is in the records [Host] and
    [LaunchHost].  Outcomes of writes and of starting a process, random bytes and what a check
    process does are arguments, and so is what [StartWorld], [StopWorld],
    [CopyWorld] and [RestoreWorld] say of processes, sockets, Git and writes.  Two loops have fuel.
    [replay_loop] gets one more than the bytes that are left; a frame takes at
    least one, and [replay_range] is proved never to run out.  [wait_loop] gets
    one more than twenty turns for each second of the timeout; a turn sleeps for
    50 milliseconds, and [waiting_for_health_ends] proves that it returns.  A path
    follows at most 40 symbolic links ([MAX_LINKS]), as Linux does.  Sequence numbers and lengths
    are checked where the code checks them ([checked_add], the limits of the
    journal); coordinates wrap at 16 bits.

    ** Not modelled

    Of what is modelled: changes that other programs make to the files while an
    operation runs, file permissions, and reads that fail half-way; symbolic
    links outside [RecipeCopy.v]; how processes are spawned and killed (that they
    are, and with which arguments and signals, is modelled); clocks, which are
    arguments.  Of the application modes, dialogs and drawing are left out, of the
    answers to requests what is not an identifier, a number, a focus or a change,
    and the events sent to subscribers.  Of selections the clipboard is left out,
    of sessions writing their file, of platforms Windows.

    Of the rest of the program: the documents of a handoff
    ([mission/handoff.rs]) and the front ends of missions are wording; the
    terminal emulator is a library behind C bindings; the providers
    ([managed_provider]) are clients of protocols over HTTP and JSON-RPC whose
    other side is not in the repository; plugins run in the sandbox of a library;
    the event loops of server and client are threads and channels around the
    modelled state; the user interface draws; configuration, integrations, updates
    and the platform are text and calls of the system. *)

From stdpp Require Export base tactics option list list_numbers numbers.
From stdpp Require Export gmap strings sorting.
From Stdlib Require Export Lia.


(** ** Results

    Rust's [Result<A, E>], with the error type first so that [result E] is a
    monad; the do-notation is the one of stdpp ([x ← m; k] and [m ;; k]). *)

Inductive result (E A : Type) : Type :=
| Ok (a : A)
| Err (e : E).
Arguments Ok {E A} a.
Arguments Err {E A} e.

#[export] Instance result_ret {E} : MRet (result E) := λ A a, Ok a.
#[export] Instance result_bind {E} : MBind (result E) := λ A B f m,
  match m with Ok a => f a | Err e => Err e end.
#[export] Instance result_fmap {E} : FMap (result E) := λ A B f m,
  match m with Ok a => Ok (f a) | Err e => Err e end.

#[export] Instance result_eq_dec {E A} `{EqDecision E, EqDecision A} :
  EqDecision (result E A).
Proof. solve_decision. Defined.

(** [if cond { return Err(e); }] *)
Definition reject_if {E} (cond : bool) (e : E) : result E unit :=
  if cond then Err e else Ok tt.

(** [opt.ok_or(e)?] *)
Definition ok_or {E A} (o : option A) (e : E) : result E A :=
  match o with Some a => Ok a | None => Err e end.

(** [res.map_err(f)] *)
Definition map_err {E F A} (f : E → F) (m : result E A) : result F A :=
  match m with Ok a => Ok a | Err e => Err (f e) end.

Definition is_ok {E A} (m : result E A) : bool :=
  match m with Ok _ => true | Err _ => false end.

(** [for x in xs { f(x)?; }] over a threaded state *)
Fixpoint try_fold {E S X} (f : S → X → result E S) (s : S) (xs : list X) : result E S :=
  match xs with
  | [] => Ok s
  | x :: xs => s' ← f s x; try_fold f s' xs
  end.

(** [for x in xs { f(x)?; }] without a state *)
Definition try_iter {E X} (f : X → result E unit) (xs : list X) : result E unit :=
  try_fold (λ _ x, f x) tt xs.

(** ** Writes

    What becomes of an atomic write or a rename: it takes effect, it fails
    and nothing changed, or it takes effect and the sync of the directory
    fails *)
Module WriteOutcome.
Inductive WriteOutcome := Written | Failed | Unsynced.
End WriteOutcome.
Abbreviation WriteOutcome := WriteOutcome.WriteOutcome.

(** ** Functional record update

    [r <| field := v |>] for Rust's [value.field = v].  A record declares one
    [Fields] instance, its expansion in terms of its own projections; the
    update of any field is found from it. *)

Class Fields (R : Type) := fields : R → R.

Class Update {R T : Type} (proj : R → T) := update : (T → T) → R → R.
Arguments update {R T} proj {Update} f r /.

Ltac derive_update :=
  match goal with
  | |- @Update ?R ?T ?p =>
      let i := constr:(_ : Fields R) in
      let i' := eval red in i in
      let f := fresh "f" in
      let r := fresh "r" in
      intros f r;
      let e := eval cbv beta in (i' r) in
      match eval pattern (p r) in e with
      | ?h _ => let t := eval cbv beta in (h (f (p r))) in exact t
      end
  end.
#[export] Hint Extern 1 (@Update _ _ _) => derive_update : typeclass_instances.

Notation "r <| p := v |>" := (update p (λ _, v) r)
  (at level 12, left associativity, format "r  <| p  :=  v |>").
Notation "r <| p ::= f |>" := (update p f r)
  (at level 12, left associativity, format "r  <| p  ::=  f |>").

(** ** Machine integers

    Unsigned machine integers are binary naturals; the places where the code
    depends on their width use the operations below. *)

Definition u16_max : N := 2 ^ 16 - 1.
Definition u32_max : N := 2 ^ 32 - 1.
Definition u64_max : N := 2 ^ 64 - 1.

(** [a.checked_add(b)] at a width whose greatest value is [top] *)
Definition checked_add (top a b : N) : option N :=
  if (a + b <=? top)%N then Some (a + b)%N else None.

Lemma checked_add_some top a b c : checked_add top a b = Some c ↔ c = (a + b)%N ∧ (a + b ≤ top)%N.
Proof. unfold checked_add. destruct (N.leb_spec (a + b) top); split; [intros [= <-]|..]; naive_solver lia. Qed.

(** [a.saturating_add(b)] *)
Definition saturating_add (top a b : N) : N := N.min top (a + b).

(** [a.saturating_sub(b)]: subtraction on [N] is truncated. *)
Definition saturating_sub (a b : N) : N := (a - b)%N.

(** [Vec::len], [BTreeMap::len] *)
Definition vec_len {A} (l : list A) : N := N.of_nat (length l).
Definition map_len {K A} `{Countable K} (m : gmap K A) : N := N.of_nat (size m).

(** ** Ordered iteration

    A [BTreeMap] is a [gmap]; its iteration order, ascending in the keys, is
    recovered by sorting the bindings.  Strings are ordered by their bytes. *)

Section ordered.
Context {K : Type} `{Countable K} (R : relation K) `{!RelDecision R}.

Definition key_order {A} : relation (K * A) := λ x y, R x.1 y.1.

#[global] Instance key_order_dec {A} : RelDecision (@key_order A).
Proof. unfold key_order. intros x y. apply _. Defined.

Definition btree_entries {A} (m : gmap K A) : list (K * A) :=
  merge_sort key_order (map_to_list m).
Definition btree_keys {A} (m : gmap K A) : list K := (btree_entries m).*1.
Definition btree_values {A} (m : gmap K A) : list A := (btree_entries m).*2.
Definition btree_set (s : gset K) : list K := merge_sort R (elements s).

Lemma btree_entries_perm {A} (m : gmap K A) : btree_entries m ≡ₚ map_to_list m.
Proof. apply merge_sort_Permutation. Qed.

Lemma elem_of_btree_entries {A} (m : gmap K A) k x :
  (k, x) ∈ btree_entries m ↔ m !! k = Some x.
Proof. by rewrite btree_entries_perm, elem_of_map_to_list. Qed.

Lemma elem_of_btree_values {A} (m : gmap K A) x :
  x ∈ btree_values m ↔ ∃ k, m !! k = Some x.
Proof.
  unfold btree_values. rewrite list_elem_of_fmap. split.
  - intros ([k y] & -> & Hin). exists k. by apply elem_of_btree_entries.
  - intros [k Hk]. exists (k, x). by rewrite elem_of_btree_entries.
Qed.

Lemma elem_of_btree_set (s : gset K) k : k ∈ btree_set s ↔ k ∈ s.
Proof. unfold btree_set. by rewrite merge_sort_Permutation, elem_of_elements. Qed.

Lemma btree_set_perm (s : gset K) : btree_set s ≡ₚ elements s.
Proof. apply merge_sort_Permutation. Qed.

Lemma NoDup_btree_set (s : gset K) : NoDup (btree_set s).
Proof. rewrite btree_set_perm. apply NoDup_elements. Qed.

Lemma NoDup_btree_keys {A} (m : gmap K A) : NoDup (btree_keys m).
Proof. unfold btree_keys. rewrite btree_entries_perm. apply NoDup_fst_map_to_list. Qed.

Lemma length_btree_entries {A} (m : gmap K A) : length (btree_entries m) = size m.
Proof. by rewrite btree_entries_perm, length_map_to_list. Qed.

Lemma btree_set_sorted `{!Total R, !Transitive R} (s : gset K) :
  StronglySorted R (btree_set s).
Proof. apply StronglySorted_merge_sort; apply _. Qed.

Lemma btree_keys_sorted `{!Total R, !Transitive R} {A} (m : gmap K A) :
  StronglySorted R (btree_keys m).
Proof.
  assert (Total (@key_order A)) by (intros x y; apply (total R)).
  assert (Transitive (@key_order A)) by (intros x y z; apply (Transitive0 x.1 y.1 z.1)).
  assert (Hs : StronglySorted key_order (btree_entries m)) by (by apply StronglySorted_merge_sort).
  unfold btree_keys. induction Hs as [|x l Hs IH Hx]; cbn; constructor; [done|].
  by apply Forall_fmap.
Qed.

Lemma btree_values_filter {A} (P : A → Prop) `{∀ a, Decision (P a)} (m : gmap K A) :
  length (filter P (btree_values m)) = size (filter (λ ka : K * A, P ka.2) m).
Proof.
  assert (Hperm : filter (λ ka : K * A, P ka.2) (btree_entries m)
                  ≡ₚ map_to_list (filter (λ ka : K * A, P ka.2) m)).
  { apply NoDup_Permutation.
    - apply NoDup_filter. rewrite btree_entries_perm. apply NoDup_map_to_list.
    - apply NoDup_map_to_list.
    - intros [k x]. rewrite list_elem_of_filter, elem_of_btree_entries, elem_of_map_to_list,
        map_lookup_filter_Some. tauto. }
  rewrite <- length_map_to_list, <- Hperm. clear Hperm. unfold btree_values.
  induction (btree_entries m) as [|[i a] l IH]; [done|]. cbn [fmap list_fmap].
  rewrite !filter_cons. cbn [snd]. destruct (decide (P a)); cbn [length]; by rewrite IH.
Qed.
End ordered.

Abbreviation str_entries := (btree_entries String.le).
Abbreviation str_keys := (btree_keys String.le).
Abbreviation str_values := (btree_values String.le).
Abbreviation str_set := (btree_set String.le).

(** [iter.collect::<BTreeMap<_, _>>()]: a later pair replaces an earlier one
    with the same key. *)
Definition collect_map {K A} `{Countable K} (l : list (K * A)) : gmap K A :=
  foldl (λ m x, <[x.1 := x.2]> m) ∅ l.

(** [vec.sort_unstable()] on strings *)
Definition sort_strings (l : list string) : list string := merge_sort String.le l.

(** [iter.any(p)] and [iter.all(p)] are [existsb] and [forallb]; [iter.find(p)]: *)
Definition find_first {A} (p : A → bool) (l : list A) : option A := List.find p l.

(** [iter.max()] and [iter.max_by_key(f)]: the latter returns the last of
    several maximal elements. *)
Definition max_option (l : list N) : option N :=
  match l with [] => None | x :: l => Some (foldr N.max x l) end.

Lemma max_option_spec l m : max_option l = Some m → m ∈ l ∧ ∀ x, x ∈ l → (x ≤ m)%N.
Proof.
  destruct l as [|y l]; [done|]. cbn. intros [= <-]. induction l as [|x l IH]; cbn.
  { split; [left|]. intros x ->%list_elem_of_singleton. done. }
  destruct IH as [Hin Hle]. split.
  - destruct (N.max_spec x (foldr N.max y l)) as [[_ ->]|[_ ->]]; [|set_solver].
    apply elem_of_cons in Hin as [->|?]; [left|right; right; done].
  - intros z Hz. rewrite !elem_of_cons in Hz. destruct Hz as [->|[->|Hz]]; [|lia|].
    + specialize (Hle y). assert (y ≤ foldr N.max y l)%N by (apply Hle; left). lia.
    + assert (z ≤ foldr N.max y l)%N by (apply Hle; by right). lia.
Qed.

Definition max_by_key {A} (f : A → N) (l : list A) : option A :=
  foldl (λ best x, match best with
                   | Some b => if (f b <=? f x)%N then Some x else Some b
                   | None => Some x
                   end) None l.

Lemma max_by_key_spec {A} (f : A → N) (l : list A) x :
  max_by_key f l = Some x → x ∈ l ∧ ∀ y, y ∈ l → (f y ≤ f x)%N.
Proof.
  revert x. unfold max_by_key. induction l as [|z l IH] using rev_ind; [done|]. intros x.
  rewrite foldl_app. cbn. destruct (foldl _ None l) as [b|] eqn:Hb.
  - destruct (IH b eq_refl) as [Hin Hle].
    destruct (N.leb_spec (f b) (f z)) as [Hlt|Hlt]; intros [= <-]; (split; [set_solver|]);
      intros y [Hy| ->%list_elem_of_singleton]%elem_of_app; try lia; specialize (Hle y Hy); lia.
  - intros [= <-]. split; [set_solver|]. destruct l as [|w l _] using rev_ind; [set_solver|].
    rewrite foldl_app in Hb. cbn in Hb. by destruct (foldl _ None l) as [c|]; [destruct (f c <=? f w)%N|].
Qed.

(** ** Lemmas on results *)

Section result_lemmas.
Context {E : Type}.

Lemma Ok_inj {A} (a b : A) : @Ok E A a = Ok b → a = b.
Proof. by intros [= ->]. Qed.

Lemma bind_ok {A B} (m : result E A) (f : A → result E B) b :
  m ≫= f = Ok b ↔ ∃ a, m = Ok a ∧ f a = Ok b.
Proof. destruct m; cbn; naive_solver. Qed.

Lemma bind_err {A B} (m : result E A) (f : A → result E B) e :
  m ≫= f = Err e ↔ m = Err e ∨ ∃ a, m = Ok a ∧ f a = Err e.
Proof. destruct m; cbn; naive_solver. Qed.

Lemma reject_if_ok c (e : E) u : reject_if c e = Ok u ↔ c = false.
Proof. destruct u. by destruct c. Qed.

Lemma reject_if_err c (e e' : E) : reject_if c e = Err e' ↔ c = true ∧ e = e'.
Proof. destruct c; cbn; split; [intros [= ->]| intros [_ ->] | |intros [? _]]; done. Qed.

Lemma ok_or_ok {A} (o : option A) (e : E) a : ok_or o e = Ok a ↔ o = Some a.
Proof. destruct o; cbn; naive_solver. Qed.

Lemma ok_or_err {A} (o : option A) (e e' : E) : ok_or o e = Err e' ↔ o = None ∧ e = e'.
Proof. destruct o; cbn; naive_solver. Qed.

Lemma map_err_ok {F A} (f : F → E) (m : result F A) a : map_err f m = Ok a ↔ m = Ok a.
Proof. destruct m; cbn; naive_solver. Qed.

Lemma try_fold_app {S X} (f : S → X → result E S) s xs ys :
  try_fold f s (xs ++ ys) = (s' ← try_fold f s xs; try_fold f s' ys).
Proof. revert s; induction xs as [|x xs IH]; intros s; cbn; [reflexivity|].
  destruct (f s x); cbn; [apply IH|reflexivity].
Qed.

Lemma try_fold_snoc_ok {S X} (f : S → X → result E S) s xs x s' :
  try_fold f s (xs ++ [x]) = Ok s' ↔ ∃ t, try_fold f s xs = Ok t ∧ f t x = Ok s'.
Proof.
  rewrite try_fold_app, bind_ok. setoid_rewrite bind_ok.
  split; [intros (t & ? & u & ? & [= ->]); eauto | intros (t & ? & ?); eauto].
Qed.

Lemma try_fold_ind {S X} (P : S → Prop) (f : S → X → result E S) s xs s' :
  P s → (∀ t x t', P t → f t x = Ok t' → P t') → try_fold f s xs = Ok s' → P s'.
Proof.
  intros Hs Hf. revert s Hs; induction xs as [|x xs IH]; intros s Hs; cbn; [by intros [= <-]|].
  destruct (f s x) as [t|] eqn:Hx; cbn; [|done]. eauto.
Qed.

Lemma try_iter_ok {X} (f : X → result E unit) xs :
  try_iter f xs = Ok tt ↔ Forall (λ x, f x = Ok tt) xs.
Proof.
  unfold try_iter. induction xs as [|x xs IH]; cbn; [by split|].
  rewrite Forall_cons, <- IH. destruct (f x) as [[]|]; cbn; naive_solver.
Qed.
End result_lemmas.

(** [autorewrite with results] turns what a statement returned into what its
    parts returned. *)
Create HintDb results.
#[export] Hint Rewrite @bind_ok @reject_if_ok @ok_or_ok @map_err_ok : results.

Lemma try_fold_ind_in {E S X} (P : S → Prop) (f : S → X → result E S) s xs s' :
  P s → (∀ t x t', x ∈ xs → P t → f t x = Ok t' → P t') → try_fold f s xs = Ok s' → P s'.
Proof.
  intros Hs Hf. revert s Hs. induction xs as [|x xs IH]; intros s Hs Hfold; cbn in Hfold.
  - by injection Hfold as <-.
  - apply bind_ok in Hfold as (t & Hx & Hfold).
    apply (IH (λ t y t' Hy, Hf t y t' (list_elem_of_further _ _ _ Hy)) t); [|exact Hfold].
    apply (Hf s x t); [by left|done..].
Qed.

(** ** Counting *)

Lemma existsb_none {A} (f : A → bool) l : (∀ x, x ∈ l → f x = false) → existsb f l = false.
Proof.
  intros Hf. apply not_true_iff_false. intros (x & Hin%list_elem_of_In & Hx)%existsb_exists.
  by rewrite (Hf x Hin) in Hx.
Qed.

Lemma size_list_to_set_le {A} `{Countable A} (l : list A) :
  size (list_to_set l : gset A) ≤ length l.
Proof.
  induction l as [|x l IH]; cbn; [by rewrite size_empty|].
  rewrite size_union_alt, size_singleton. etrans; [|apply le_n_S, IH]. apply le_n_S.
  apply subseteq_size. set_solver.
Qed.

(** ** Automation

    [inv_ok] decomposes a hypothesis saying that a handler returned a value
    (or an error) into the conditions of the branch it took. *)

Lemma bool_decide_true_iff (P : Prop) `{Decision P} : bool_decide P = true ↔ P.
Proof. apply bool_decide_eq_true. Qed.

Ltac inv_ok_step :=
  match goal with
  | H : Ok _ = Ok _ |- _ => apply Ok_inj in H;
      match type of H with
      | _ = ?x => is_var x; subst x
      | ?x = _ => is_var x; subst x
      | _ => simplify_eq H
      | _ => idtac
      end
  | H : Ok _ = Err _ |- _ => discriminate H
  | H : Err _ = Ok _ |- _ => discriminate H
  | H : mret _ = _ |- _ => unfold mret, result_ret in H
  | H : _ ≫= _ = Ok _ |- _ => apply bind_ok in H as (? & ? & ?)
  | H : reject_if _ _ = Ok _ |- _ => apply reject_if_ok in H
  | H : ok_or _ _ = Ok _ |- _ => apply ok_or_ok in H
  | H : map_err _ _ = Ok _ |- _ => apply map_err_ok in H
  | H : _ || _ = false |- _ => apply orb_false_iff in H as [? ?]
  | H : _ && _ = true |- _ => apply andb_true_iff in H as [? ?]
  | H : negb _ = false |- _ => apply negb_false_iff in H
  | H : negb _ = true |- _ => apply negb_true_iff in H
  | H : bool_decide _ = true |- _ => apply bool_decide_eq_true in H
  | H : bool_decide _ = false |- _ => apply bool_decide_eq_false in H
  | H : (_ <=? _)%N = true |- _ => apply N.leb_le in H
  | H : (_ <=? _)%N = false |- _ => apply N.leb_gt in H
  | H : (_ <? _)%N = true |- _ => apply N.ltb_lt in H
  | H : (_ <? _)%N = false |- _ => apply N.ltb_ge in H
  | H : (_ =? _)%N = true |- _ => apply N.eqb_eq in H
  | H : (_ =? _)%N = false |- _ => apply N.eqb_neq in H
  | x : unit |- _ => destruct x
  end.
Ltac inv_ok := repeat inv_ok_step.

(** [inv_err H] follows a handler that failed to the statement that failed. *)
Ltac inv_err H :=
  lazymatch type of H with
  | _ ≫= _ = Err _ => apply bind_err in H as [H|(? & ? & H)]; inv_err H
  | reject_if _ _ = Err _ =>
      let E := fresh "E" in apply reject_if_err in H as [E H]; try discriminate H
  | ok_or _ _ = Err _ =>
      let E := fresh "E" in apply ok_or_err in H as [E H]; try discriminate H
  | Ok _ = Err _ => discriminate H
  | _ => idtac
  end.

(** Split the innermost scrutinee of a match in a hypothesis. *)
Ltac split_match H :=
  match type of H with
  | context [match ?x with _ => _ end] =>
      lazymatch x with
      | context [match _ with _ => _ end] => fail
      | _ => let E := fresh "E" in destruct x eqn:E
      end
  end.
