(* ===== verification/Text.v ===== *)
(** * Rust strings, paths and byte strings

    A Rust [str] is modelled by the bytes of its UTF-8 encoding, a Rocq
    [string]; [str::len] counts bytes.  The functions that look at characters
    ([trim], [char::is_control]) decode the bytes first.  A Unix [Path] is
    also such a string.  This file models only the parts of the Rust standard
    library that the mission code uses; none of it comes from [src/]. *)

From S2P Require Export Prelude.
From Stdlib Require Export Ascii.

Abbreviation bytes := (list ascii).

Definition str_bytes (s : string) : bytes := String.list_ascii_of_string s.
Definition str_of_bytes (b : bytes) : string := String.string_of_list_ascii b.

(** The byte-string literal ["...\0"], or [update(s); update([0])] *)
Definition nul_terminated (s : string) : bytes := str_bytes s ++ ["000"%char].

(** [str::len] *)
Definition str_len (s : string) : N := N.of_nat (length (str_bytes s)).

(** [str::is_empty] *)
Definition str_is_empty (s : string) : bool := bool_decide (s = "").

(** [str::chars]: the code points of a UTF-8 encoded string.  Rust strings
    are valid UTF-8; the last branch of each match, an invalid byte, is not
    reached on them. *)
Fixpoint utf8_decode (bs : list N) : list N :=
  match bs with
  | [] => []
  | b0 :: r0 =>
      (if b0 <? 128 then b0 :: utf8_decode r0
       else if b0 <? 224 then
         match r0 with
         | b1 :: r1 => ((b0 - 192) * 64 + (b1 - 128)) :: utf8_decode r1
         | [] => [b0]
         end
       else if b0 <? 240 then
         match r0 with
         | b1 :: b2 :: r2 =>
             ((b0 - 224) * 4096 + (b1 - 128) * 64 + (b2 - 128)) :: utf8_decode r2
         | _ => [b0]
         end
       else
         match r0 with
         | b1 :: b2 :: b3 :: r3 =>
             ((b0 - 240) * 262144 + (b1 - 128) * 4096 + (b2 - 128) * 64 + (b3 - 128))
               :: utf8_decode r3
         | _ => [b0]
         end)%N
  end.

Definition chars (s : string) : list N := utf8_decode (N_of_ascii <$> str_bytes s).

(** [String::from_utf8_lossy]: each longest piece of bytes that could begin a
    character but does not go on as one, and each byte that could not, is
    replaced by U+FFFD. *)
Definition utf8_continues (b : N) : bool := ((128 <=? b) && (b <=? 191))%N.

(** Whether a second byte fits a first one *)
Definition utf8_second (b0 b1 : N) : bool :=
  ((194 <=? b0) && (b0 <=? 244)
   && if b0 =? 224 then (160 <=? b1) && (b1 <=? 191)
      else if b0 =? 237 then (128 <=? b1) && (b1 <=? 159)
      else if b0 =? 240 then (144 <=? b1) && (b1 <=? 191)
      else if b0 =? 244 then (128 <=? b1) && (b1 <=? 143)
      else utf8_continues b1)%N.

Definition REPLACEMENT_CHARACTER : list N := [239; 191; 189]%N.

Fixpoint utf8_lossy (bs : list N) : list N :=
  match bs with
  | [] => []
  | b0 :: r0 =>
      if (b0 <? 128)%N then b0 :: utf8_lossy r0
      else
        match r0 with
        | b1 :: r1 =>
            if negb (utf8_second b0 b1) then REPLACEMENT_CHARACTER ++ utf8_lossy r0
            else if (b0 <? 224)%N then b0 :: b1 :: utf8_lossy r1
            else
              match r1 with
              | b2 :: r2 =>
                  if negb (utf8_continues b2) then REPLACEMENT_CHARACTER ++ utf8_lossy r1
                  else if (b0 <? 240)%N then b0 :: b1 :: b2 :: utf8_lossy r2
                  else
                    match r2 with
                    | b3 :: r3 =>
                        if negb (utf8_continues b3) then REPLACEMENT_CHARACTER ++ utf8_lossy r2
                        else b0 :: b1 :: b2 :: b3 :: utf8_lossy r3
                    | [] => REPLACEMENT_CHARACTER
                    end
              | [] => REPLACEMENT_CHARACTER
              end
        | [] => REPLACEMENT_CHARACTER
        end
  end.

Definition from_utf8_lossy (bs : list ascii) : string :=
  str_of_bytes (ascii_of_N <$> utf8_lossy (N_of_ascii <$> bs)).

(** [Path::to_string_lossy] of a path that is its bytes *)
Definition to_string_lossy (path : string) : string := from_utf8_lossy (str_bytes path).

(** Two paths with one lossy text *)
Example lossy_is_not_injective :
  to_string_lossy (str_of_bytes ["/"; "255"])%char = to_string_lossy (str_of_bytes ["/"; "254"])%char
  ∧ to_string_lossy "/tmp/caf" = "/tmp/caf".
Proof. by split. Qed.

(** [char::len_utf8] *)
Definition len_utf8 (c : N) : N :=
  (if c <? 128 then 1 else if c <? 2048 then 2 else if c <? 65536 then 3 else 4)%N.

(** [char::is_whitespace]: the Unicode property White_Space. *)
Definition is_whitespace (c : N) : bool :=
  ((9 <=? c) && (c <=? 13) || (c =? 32) || (c =? 133) || (c =? 160) || (c =? 5760)
   || (8192 <=? c) && (c <=? 8202) || (c =? 8232) || (c =? 8233) || (c =? 8239)
   || (c =? 8287) || (c =? 12288))%N.

(** [char::is_control]: the Unicode general category Cc. *)
Definition is_control (c : N) : bool := ((c <=? 31) || (127 <=? c) && (c <=? 159))%N.

(** [matches!(c, '\n' | '\r' | '\t')] *)
Definition is_newline_or_tab (c : N) : bool := ((c =? 10) || (c =? 13) || (c =? 9))%N.

(** [str::trim] on the characters of a string *)
Fixpoint trim_start (cs : list N) : list N :=
  match cs with
  | [] => []
  | c :: cs' => if is_whitespace c then trim_start cs' else cs
  end.
Definition trim (cs : list N) : list N := reverse (trim_start (reverse (trim_start cs))).

(** [s.trim().len()] and [s.trim().is_empty()] *)
Definition trim_len (s : string) : N := foldr (λ c n, (len_utf8 c + n)%N) 0%N (trim (chars s)).
Definition trim_is_empty (s : string) : bool := bool_decide (trim (chars s) = []).

(** [u8::is_ascii_hexdigit], [u8::is_ascii_alphanumeric] *)
Definition is_digit (c : ascii) : bool :=
  let n := N_of_ascii c in ((48 <=? n) && (n <=? 57))%N.
Definition is_ascii_hexdigit (c : ascii) : bool :=
  let n := N_of_ascii c in
  is_digit c || ((65 <=? n) && (n <=? 70) || (97 <=? n) && (n <=? 102))%N.
Definition is_ascii_alphanumeric (c : ascii) : bool :=
  let n := N_of_ascii c in
  is_digit c || ((65 <=? n) && (n <=? 90) || (97 <=? n) && (n <=? 122))%N.

(** [str::is_ascii] *)
Definition is_ascii (s : string) : bool :=
  forallb (λ c, N_of_ascii c <? 128)%N (str_bytes s).

(** [s.contains(c)] for an ASCII character *)
Definition str_contains (c : ascii) (s : string) : bool :=
  existsb (λ d, bool_decide (c = d)) (str_bytes s).

(** [s.starts_with(c)] *)
Definition starts_with (c : ascii) (s : string) : bool :=
  match s with String d _ => bool_decide (c = d) | EmptyString => false end.

(** [s.strip_prefix(p)] *)
Fixpoint strip_prefix (p s : string) : option string :=
  match p, s with
  | EmptyString, _ => Some s
  | String c p', String d s' => if bool_decide (c = d) then strip_prefix p' s' else None
  | String _ _, EmptyString => None
  end.

(** [s.trim_end_matches(c)] *)
Fixpoint trim_end_matches (c : ascii) (s : string) : string :=
  match s with
  | EmptyString => EmptyString
  | String d s' =>
      match trim_end_matches c s' with
      | EmptyString => if bool_decide (c = d) then EmptyString else String d EmptyString
      | t => String d t
      end
  end.

(** [s.split(c)]: never empty, [""] splits into [[""]]. *)
Fixpoint str_split (c : ascii) (s : string) : list string :=
  match s with
  | EmptyString => [""]
  | String d s' =>
      if bool_decide (c = d) then "" :: str_split c s'
      else match str_split c s' with
           | w :: ws => String d w :: ws
           | [] => [String d ""]
           end
  end.

(** [parts.join(sep)] *)
Fixpoint str_join (sep : string) (ws : list string) : string :=
  match ws with
  | [] => ""
  | [w] => w
  | w :: ws => w +:+ sep +:+ str_join sep ws
  end.

(** [Path::is_absolute] on Unix *)
Definition path_is_absolute (p : string) : bool := starts_with "/" p.

(** [path.components().any(|c| matches!(c, ParentDir))]: on Unix a component
    is a nonempty segment between slashes. *)
Definition path_has_parent_dir (p : string) : bool :=
  existsb (λ c, bool_decide (c = "..")) (str_split "/" p).

(** The order of [Path]s is the order of their components. *)
Fixpoint components_leb (p q : list string) : bool :=
  match p, q with
  | [], _ => true
  | _ :: _, [] => false
  | c :: p, d :: q => if bool_decide (c = d) then components_leb p q else bool_decide (String.le c d)
  end.
Definition path_leb (p q : string) : bool :=
  components_leb (filter (λ c, c ≠ "") (str_split "/" p)) (filter (λ c, c ≠ "") (str_split "/" q)).

(** ** Lemmas *)

Lemma str_bytes_inj s t : str_bytes s = str_bytes t → s = t.
Proof.
  unfold str_bytes. intros Heq.
  by rewrite <- (String.string_of_list_ascii_of_string s), Heq,
    String.string_of_list_ascii_of_string.
Qed.

Lemma str_of_to_bytes b : str_bytes (str_of_bytes b) = b.
Proof. apply String.list_ascii_of_string_of_list_ascii. Qed.

Lemma str_app_cons c s t : String c s +:+ t = String c (s +:+ t).
Proof. reflexivity. Qed.

Lemma str_app_nil_r s : s +:+ "" = s.
Proof. induction s as [|c s IH]; [done|]. by rewrite str_app_cons, IH. Qed.

Lemma str_bytes_app s t : str_bytes (s +:+ t) = str_bytes s ++ str_bytes t.
Proof. induction s as [|c s IH]; [done|]. rewrite str_app_cons. cbn. by f_equal. Qed.

Lemma str_join_cons sep w w' ws :
  str_join sep (w :: w' :: ws) = w +:+ sep +:+ str_join sep (w' :: ws).
Proof. reflexivity. Qed.

Lemma str_split_ne c s : str_split c s ≠ [].
Proof.
  destruct s as [|d s]; cbn; [done|]. case_bool_decide; [done|].
  by destruct (str_split c s).
Qed.

Lemma str_join_split c s : str_join (String c "") (str_split c s) = s.
Proof.
  induction s as [|d s IH]; [done|]. cbn [str_split]. pose proof (str_split_ne c s).
  case_bool_decide; subst; destruct (str_split _ s) as [|w ws] eqn:Hs; try done.
  - rewrite str_join_cons, IH. reflexivity.
  - destruct ws as [|w' ws]; [cbn in *; by f_equal|].
    rewrite str_join_cons in *. by rewrite str_app_cons, IH.
Qed.

(** A segment of a split does not contain the separator. *)
Lemma str_split_no_sep c s : Forall (λ w, c ∉ str_bytes w) (str_split c s).
Proof.
  induction s as [|d s IH]; cbn [str_split].
  { constructor; [apply not_elem_of_nil|constructor]. }
  case_bool_decide as Hd; [constructor; [apply not_elem_of_nil|done]|].
  destruct (str_split c s) as [|w ws].
  { constructor; [|done]. cbn. set_solver. }
  apply Forall_cons in IH as [Hw Hws]. constructor; [|done]. cbn. set_solver.
Qed.

Lemma str_split_app c v rest :
  c ∉ str_bytes v →
  str_split c (v +:+ rest) =
    match str_split c rest with x :: xs => (v +:+ x) :: xs | [] => [v] end.
Proof.
  pose proof (str_split_ne c rest).
  induction v as [|d v IH]; intros Hv.
  - change ("" +:+ rest) with rest. destruct (str_split c rest); [done|reflexivity].
  - cbn in Hv. rewrite str_app_cons. cbn [str_split].
    rewrite bool_decide_eq_false_2 by (intros ->; set_solver).
    rewrite IH by set_solver. destruct (str_split c rest); [done|reflexivity].
Qed.

(** Splitting what was joined from separator-free segments gives them back. *)
Lemma str_split_join c ws :
  ws ≠ [] → Forall (λ w, c ∉ str_bytes w) ws → str_split c (str_join (String c "") ws) = ws.
Proof.
  intros Hne. induction ws as [|w ws IH]; [done|]. intros [Hw Hws]%Forall_cons.
  destruct ws as [|w' ws].
  - cbn [str_join]. rewrite <- (str_app_nil_r w) at 1. rewrite str_split_app by done.
    cbn [str_split]. by rewrite str_app_nil_r.
  - rewrite str_join_cons, str_split_app by done.
    change (String c "" +:+ ?t) with (String c t). cbn [str_split].
    rewrite bool_decide_eq_true_2 by done. rewrite IH by done. by rewrite str_app_nil_r.
Qed.

Lemma elem_of_str_contains c s : str_contains c s = true ↔ c ∈ str_bytes s.
Proof.
  unfold str_contains. rewrite existsb_exists. setoid_rewrite bool_decide_eq_true.
  setoid_rewrite <- list_elem_of_In. naive_solver.
Qed.

(** The length and the bytes of a joined string. *)
Fixpoint joined_len (ws : list string) : nat :=
  match ws with [] => 0 | w :: ws => S (length (str_bytes w)) + joined_len ws end.

Lemma length_str_join c ws :
  ws ≠ [] → S (length (str_bytes (str_join (String c "") ws))) = joined_len ws.
Proof.
  intros Hne. induction ws as [|w [|w' ws] IH]; [done|cbn [str_join joined_len]; lia|].
  rewrite str_join_cons, !str_bytes_app, !length_app. specialize (IH ltac:(done)).
  cbn [joined_len] in *. cbn [str_bytes String.list_ascii_of_string length] in *. lia.
Qed.

Lemma joined_len_filter P `{∀ w, Decision (P w)} ws : joined_len (filter P ws) ≤ joined_len ws.
Proof.
  induction ws as [|w ws IH]; [done|]. rewrite filter_cons. case_decide; cbn; lia.
Qed.

Lemma elem_of_str_join c d ws :
  d ∈ str_bytes (str_join (String c "") ws) →
  (d = c ∧ 2 ≤ length ws) ∨ ∃ w, w ∈ ws ∧ d ∈ str_bytes w.
Proof.
  induction ws as [|w [|w' ws] IH]; [set_solver|set_solver|].
  rewrite str_join_cons, !str_bytes_app, !elem_of_app. cbn [length].
  intros [Hd|[Hd|Hd]]; [right; set_solver|left|].
  - apply list_elem_of_singleton in Hd. split; [done|lia].
  - apply IH in Hd as [[-> ?]|(x & Hx & Hd)]; [left; cbn in *; split; [done|lia]|].
    right. exists x. set_solver.
Qed.

Lemma elem_of_segment c d s w : w ∈ str_split c s → d ∈ str_bytes w → d ∈ str_bytes s.
Proof.
  revert w. induction s as [|e s IH]; intros w; cbn [str_split].
  { rewrite list_elem_of_singleton. by intros ->. }
  case_bool_decide as He.
  - rewrite elem_of_cons. intros [->|Hw] Hd; [by apply not_elem_of_nil in Hd|].
    cbn. apply elem_of_cons. right. by apply (IH w).
  - destruct (str_split c s) as [|v vs]; rewrite elem_of_cons; intros [->|Hw] Hd; cbn in *.
    + set_solver.
    + set_solver.
    + apply elem_of_cons in Hd as [->|Hd]; [left|]. right. apply (IH v); [left|done].
    + right. apply (IH w); [by right|done].
Qed.

Lemma str_app_assoc s t u : (s +:+ t) +:+ u = s +:+ (t +:+ u).
Proof. induction s as [|c s IH]; [done|]. by rewrite !str_app_cons, IH. Qed.

Lemma str_split_app_sep c s t :
  str_split c (s +:+ String c t) = str_split c s ++ str_split c t.
Proof.
  induction s as [|d s IH].
  - change ("" +:+ String c t) with (String c t). cbn [str_split].
    by rewrite bool_decide_eq_true_2.
  - rewrite str_app_cons. cbn [str_split]. rewrite IH.
    case_bool_decide; [done|]. pose proof (str_split_ne c s). by destruct (str_split c s).
Qed.

Lemma str_join_app c ws vs :
  ws ≠ [] → vs ≠ [] →
  str_join (String c "") (ws ++ vs) = str_join (String c "") ws +:+ String c (str_join (String c "") vs).
Proof.
  intros Hws Hvs. induction ws as [|w [|w' ws] IH]; [done| |].
  - destruct vs as [|v vs]; [done|]. cbn [app]. by rewrite str_join_cons.
  - cbn [app] in *. rewrite !str_join_cons, IH by done. by rewrite !str_app_assoc.
Qed.

Lemma str_app_inj (a b1 b2 : string) : a +:+ b1 = a +:+ b2 → b1 = b2.
Proof. induction a as [|x a IH]; [done|]. cbn. intros [= Heq]. by apply IH. Qed.

Lemma strip_prefix_spec p s t : strip_prefix p s = Some t ↔ s = p +:+ t.
Proof.
  revert s. induction p as [|c p IH]; intros [|d s].
  - change ("" +:+ t) with t. cbn. split; congruence.
  - change ("" +:+ t) with t. cbn. split; congruence.
  - cbn. rewrite str_app_cons. by split.
  - cbn [strip_prefix]. rewrite str_app_cons. case_bool_decide.
    + subst. rewrite IH. split; [by intros ->|congruence].
    + split; [done|congruence].
Qed.

Lemma trim_end_matches_id c s :
  (∀ t, s ≠ t +:+ String c "") → trim_end_matches c s = s.
Proof.
  induction s as [|d s IH]; intros Hs; [done|]. cbn [trim_end_matches].
  rewrite IH; [|intros t ->; by apply (Hs (String d t))].
  destruct s; [|done]. rewrite bool_decide_eq_false_2; [done|]. intros ->. by apply (Hs "").
Qed.

Lemma starts_with_spec c s : starts_with c s = true ↔ ∃ t, s = String c t.
Proof.
  destruct s as [|d s]; cbn; [split; [done|by intros []]|].
  rewrite bool_decide_eq_true. split; [intros ->; eauto|by intros [t [= -> ->]]].
Qed.

(** Trimming leaves nothing exactly when there are only spaces. *)
Lemma trim_start_nil cs : trim_start cs = [] ↔ Forall (λ c, is_whitespace c = true) cs.
Proof.
  induction cs as [|c cs IH]; cbn; [done|]. rewrite Forall_cons.
  destruct (is_whitespace c); [tauto|]. split; [done|]. by intros [? _].
Qed.

Lemma trim_start_suffix cs : ∃ ps, cs = ps ++ trim_start cs ∧ Forall (λ c, is_whitespace c = true) ps.
Proof.
  induction cs as [|c cs (ps & Heq & Hps)]; [by exists []|]. cbn.
  destruct (is_whitespace c) eqn:Hc; [|by exists []].
  exists (c :: ps). split; [by rewrite Heq at 1|by constructor].
Qed.

Lemma trim_nil cs : trim cs = [] ↔ Forall (λ c, is_whitespace c = true) cs.
Proof.
  unfold trim. destruct (trim_start_suffix cs) as (ps & Heq & Hps).
  rewrite <- (reverse_nil (A := N)), (inj_iff reverse), trim_start_nil, Forall_reverse.
  rewrite Heq at 2. rewrite Forall_app. tauto.
Qed.

Lemma trim_len_zero s : trim (chars s) = [] → trim_len s = 0%N.
Proof. unfold trim_len. by intros ->. Qed.

(** A string that begins with an ASCII character other than a space *)
Lemma trim_not_empty c s :
  (N_of_ascii c < 128)%N → is_whitespace (N_of_ascii c) = false →
  trim_is_empty (String c s) = false.
Proof.
  intros Hc Hw. apply bool_decide_eq_false. intros Ht%trim_nil. unfold chars in Ht.
  cbn in Ht. apply N.ltb_lt in Hc. rewrite Hc, Forall_cons, Hw in Ht. by destruct Ht.
Qed.

Lemma nul_terminated_inj s t r r' :
  "000"%char ∉ str_bytes s → "000"%char ∉ str_bytes t →
  nul_terminated s ++ r = nul_terminated t ++ r' → s = t ∧ r = r'.
Proof.
  unfold nul_terminated. rewrite <- !app_assoc. cbn [app].
  revert t. induction s as [|c s IH]; intros [|d t] Hs Ht Heq; cbn in *.
  - by injection Heq as ->.
  - injection Heq as <- _. set_solver.
  - injection Heq as -> _. set_solver.
  - injection Heq as -> Heq. destruct (IH t) as [-> ->]; set_solver.
Qed.
