(* ===== verification/Chars.v ===== *)
(** * Characters and their encoding

    Rust's [char] is a Unicode scalar value and a [String] their UTF-8 encoding:
    writing characters, and that [chars] of [Text.v] reads them back. *)

From stdpp Require Import pretty.
From S2P Require Export Text.

(** [char::from_u32(c).is_some()] *)
Definition is_char (c : N) : bool := ((c <? 55296) || (57344 <=? c) && (c <? 1114112))%N.

(** [char::encode_utf8] *)
Definition encode_utf8 (c : N) : bytes :=
  ascii_of_N <$>
    (if c <? 128 then [c]
     else if c <? 2048 then [192 + c / 64; 128 + c mod 64]
     else if c <? 65536 then [224 + c / 4096; 128 + c / 64 mod 64; 128 + c mod 64]
     else [240 + c / 262144; 128 + c / 4096 mod 64; 128 + c / 64 mod 64; 128 + c mod 64])%N.

(** [chars.collect::<String>()] *)
Definition string_of_chars (cs : list N) : string := str_of_bytes (cs ≫= encode_utf8).

(** [char::to_ascii_lowercase], [char::to_ascii_uppercase] and their tests *)
Definition is_upper (c : N) : bool := ((65 <=? c) && (c <=? 90))%N.
Definition is_lower (c : N) : bool := ((97 <=? c) && (c <=? 122))%N.
Definition to_lower (c : N) : N := if is_upper c then (c + 32)%N else c.
Definition to_upper (c : N) : N := if is_lower c then (c - 32)%N else c.

(** [s.strip_suffix(c)], of an ASCII character *)
Definition strip_last (c : ascii) (s : string) : option string :=
  match reverse (str_bytes s) with
  | d :: rest => if (d =? c)%char then Some (str_of_bytes (reverse rest)) else None
  | [] => None
  end.

(** [s.split_once(c)] *)
Fixpoint str_split_once (c : ascii) (s : string) : option (string * string) :=
  match s with
  | EmptyString => None
  | String d rest =>
      if bool_decide (c = d) then Some ("", rest)
      else match str_split_once c rest with Some (a, b) => Some (String d a, b) | None => None end
  end.

Ltac euclid := zify; Z.to_euclidean_division_equations; lia.

Lemma byte_values bs : Forall (λ b, b < 256)%N bs → N_of_ascii <$> (ascii_of_N <$> bs) = bs.
Proof.
  intros Hbs. rewrite <- list_fmap_compose. rewrite <- (list_fmap_id bs) at 2. apply list_fmap_ext.
  intros i b Hb. cbn. apply N_ascii_embedding. by eapply Forall_lookup_1 in Hbs.
Qed.

Lemma decode_encode_utf8 c rest :
  is_char c = true → utf8_decode ((N_of_ascii <$> encode_utf8 c) ++ rest) = c :: utf8_decode rest.
Proof.
  unfold is_char, encode_utf8. intros Hc. assert (Htop : (c < 1114112)%N).
  { apply orb_true_iff in Hc as [Hc|[_ Hc]%andb_true_iff]; apply N.ltb_lt in Hc; lia. }
  destruct (N.ltb_spec c 128); [|destruct (N.ltb_spec c 2048); [|destruct (N.ltb_spec c 65536)]];
    rewrite byte_values by (repeat constructor; euclid); cbn [app utf8_decode].
  - by rewrite (proj2 (N.ltb_lt c 128)).
  - rewrite (proj2 (N.ltb_ge _ 128)), (proj2 (N.ltb_lt _ 224)) by euclid. f_equal. euclid.
  - rewrite (proj2 (N.ltb_ge _ 128)), (proj2 (N.ltb_ge _ 224)), (proj2 (N.ltb_lt _ 240)) by euclid. f_equal. euclid.
  - rewrite (proj2 (N.ltb_ge _ 128)), (proj2 (N.ltb_ge _ 224)), (proj2 (N.ltb_ge _ 240)) by euclid. f_equal. euclid.
Qed.

(** What was written is read back. *)
Lemma chars_string_of_chars cs : Forall (λ c, is_char c = true) cs → chars (string_of_chars cs) = cs.
Proof.
  intros Hcs. unfold chars, string_of_chars. rewrite str_of_to_bytes.
  induction Hcs as [|c cs Hc _ IH]; [done|]. cbn [mbind list_bind]. by rewrite fmap_app, decode_encode_utf8, IH.
Qed.

Lemma string_of_chars_inj cs ds :
  Forall (λ c, is_char c = true) cs → Forall (λ c, is_char c = true) ds →
  string_of_chars cs = string_of_chars ds → cs = ds.
Proof. intros Hcs Hds Heq. by rewrite <- (chars_string_of_chars cs), Heq, chars_string_of_chars. Qed.

Lemma string_of_chars_app cs ds : string_of_chars (cs ++ ds) = string_of_chars cs +:+ string_of_chars ds.
Proof. unfold string_of_chars. apply str_bytes_inj. by rewrite str_bytes_app, !str_of_to_bytes, bind_app. Qed.

Lemma ascii_string_chars (s : string) :
  Forall (λ c, N_of_ascii c < 128)%N (str_bytes s) → string_of_chars (N_of_ascii <$> str_bytes s) = s.
Proof.
  intros Hs. apply str_bytes_inj. unfold string_of_chars. rewrite str_of_to_bytes.
  induction Hs as [|c l Hc _ IH]; [done|]. cbn. rewrite IH. unfold encode_utf8.
  rewrite (proj2 (N.ltb_lt _ 128)) by done. cbn. by rewrite ascii_N_embedding.
Qed.

Lemma ascii_chars (s : string) :
  Forall (λ c, N_of_ascii c < 128)%N (str_bytes s) → chars s = N_of_ascii <$> str_bytes s.
Proof.
  intros Hs. unfold chars. induction Hs as [|c l Hc _ IH]; [done|]. cbn.
  rewrite (proj2 (N.ltb_lt _ 128)) by done. by rewrite IH.
Qed.

Lemma strip_last_app c s : strip_last c (s +:+ String c "") = Some s.
Proof.
  unfold strip_last. rewrite str_bytes_app. change (str_bytes (String c "")) with [c]. rewrite reverse_snoc.
  rewrite Ascii.eqb_refl, reverse_involutive. f_equal. apply str_bytes_inj, str_of_to_bytes.
Qed.

Lemma str_split_once_some c s a b : str_split_once c s = Some (a, b) → s = a +:+ String c b.
Proof.
  revert a b. induction s as [|d s IH]; intros a b; [done|]. cbn [str_split_once].
  case_bool_decide as Hc; [intros [= <- <-]; by subst|].
  destruct (str_split_once c s) as [[a' b']|]; [|done]. intros [= <- <-]. by rewrite str_app_cons, <- (IH a' b').
Qed.

Lemma str_split_once_first c a b : c ∉ str_bytes a → str_split_once c (a +:+ String c b) = Some (a, b).
Proof.
  induction a as [|d a IH]; intros Ha.
  - change ("" +:+ String c b) with (String c b). cbn. by rewrite bool_decide_eq_true_2.
  - change (str_bytes (String d a)) with (d :: str_bytes a) in Ha. apply not_elem_of_cons in Ha as [Hd Ha].
    rewrite str_app_cons. cbn [str_split_once]. by rewrite bool_decide_eq_false_2, IH.
Qed.

Lemma str_split_once_none c s : c ∉ str_bytes s → str_split_once c s = None.
Proof.
  induction s as [|d s IH]; intros Hs; [done|]. change (str_bytes (String d s)) with (d :: str_bytes s) in Hs.
  apply not_elem_of_cons in Hs as [Hd Hs]. cbn. by rewrite bool_decide_eq_false_2, IH.
Qed.

(** ** Decimal numbers *)

Lemma pretty_N_go_chars n (s : string) (P : ascii → Prop) :
  (∀ m, (m < 10)%N → P (pretty_N_char m)) → Forall P (str_bytes s) →
  Forall P (str_bytes (pretty_N_go n s)).
Proof.
  intros HP. revert s. induction (N.lt_wf_0 n) as [n _ IH]. intros s Hs.
  destruct (decide (0 < n)%N) as [Hn|Hn].
  - rewrite pretty_N_go_step by done. apply IH; [apply N.div_lt; lia|].
    unfold str_bytes in *. cbn. constructor; [|done]. apply HP. apply N.mod_lt. lia.
  - replace n with 0%N by lia. by rewrite pretty_N_go_0.
Qed.

Lemma pretty_digits n : Forall (λ c, is_digit c = true) (str_bytes (pretty (n : N))).
Proof.
  assert (Hdigit : ∀ m, (m < 10)%N → is_digit (pretty_N_char m) = true).
  { intros m Hm. destruct m as [|q]; [done|]. do 4 (destruct q as [q|q|]; try done; try lia). }
  unfold pretty, pretty_N. case_decide; [by repeat constructor|].
  apply pretty_N_go_chars; [done|constructor].
Qed.
