(* ===== verification/Float32.v ===== *)
(** * Single-precision floats

    Rust's [f32] is the Standard Library's specification of IEEE 754 at a
    precision of 24 bits and a greatest exponent of 128.  The lemmas bound
    what the layout computes: a width times a ratio, rounded, is no more than
    the width. *)

From S2P Require Export Prelude.
From Stdlib Require Import ZArith.
From Stdlib Require Export Floats.SpecFloat.

Abbreviation f32 := spec_float.

Definition f32_prec : Z := 24.
Definition f32_emax : Z := 128.

(** [w as f32] *)
Definition f32_of_u16 (w : N) : f32 := binary_normalize f32_prec f32_emax (Z.of_N w) 0 false.

Definition f32_mul : f32 → f32 → f32 := SFmul f32_prec f32_emax.
Definition f32_add : f32 → f32 → f32 := SFadd f32_prec f32_emax.
Definition f32_neg : f32 → f32 := SFopp.

(** [x.is_finite()] *)
Definition f32_is_finite (x : f32) : bool :=
  match x with S754_nan | S754_infinity _ => false | _ => true end.

(** [x.clamp(low, high)]: a NaN stays one. *)
Definition f32_clamp (x low high : f32) : f32 :=
  let x := if SFltb x low then low else x in
  if SFltb high x then high else x.

(** [x.round() as u16]: the nearest integer, halves away from zero, which is
    itself a float; the cast takes what is out of range to the bound, and a
    NaN to zero. *)
Definition f32_round_as_u16 (x : f32) : N :=
  match x with
  | S754_nan | S754_zero _ | S754_infinity true | S754_finite true _ _ => 0
  | S754_infinity false => u16_max
  | S754_finite false m e =>
      N.min u16_max
        (Z.to_N (if (0 <=? e)%Z then Z.shiftl (Zpos m) e
                 else Z.shiftr (Zpos m + Z.shiftl 1 (- e - 1)) (- e)))
  end.

(** The constants of the source: the floats next to 0.1, 0.5 and 0.9 *)
Definition f32_0_1 : f32 := S754_finite false 13421773 (-27).
Definition f32_0_5 : f32 := S754_finite false 8388608 (-24).
Definition f32_0_9 : f32 := S754_finite false 15099494 (-24).

Example f32_constants :
  SFdiv f32_prec f32_emax (f32_of_u16 1) (f32_of_u16 10) = f32_0_1
  ∧ SFdiv f32_prec f32_emax (f32_of_u16 1) (f32_of_u16 2) = f32_0_5
  ∧ SFdiv f32_prec f32_emax (f32_of_u16 9) (f32_of_u16 10) = f32_0_9.
Proof. by vm_compute. Qed.

(** ** Shifting a mantissa *)

Lemma iter_pos_iter {A} (f : A → A) p x : SpecFloat.iter_pos f p x = Nat.iter (Pos.to_nat p) f x.
Proof.
  revert x. induction p as [p IH|p IH|]; intros x; cbn [SpecFloat.iter_pos]; [..|done].
  - rewrite !IH, Pos2Nat.inj_xI, <- Nat.iter_add, Nat.iter_swap, <- Nat.iter_succ. f_equal. lia.
  - rewrite !IH, Pos2Nat.inj_xO, <- Nat.iter_add. f_equal. lia.
Qed.

(** What shifting [m] right by [n] leaves: the quotient, and no bit lost when
    [m] is divisible *)
Definition shifted (m : Z) (n : nat) (mrs : shr_record) : Prop :=
  shr_m mrs = (m / 2 ^ Z.of_nat n)%Z
  ∧ ((m mod 2 ^ Z.of_nat n = 0)%Z → shr_r mrs = false ∧ shr_s mrs = false).

Lemma shr_1_value m r s :
  (0 ≤ m)%Z → shr_m (shr_1 (Build_shr_record m r s)) = (m / 2)%Z
  ∧ shr_r (shr_1 (Build_shr_record m r s)) = Z.odd m
  ∧ shr_s (shr_1 (Build_shr_record m r s)) = r || s.
Proof.
  intros Hm. destruct m as [|[p|p|]|]; cbn; try done; split_and!; try done; try lia;
    rewrite <- Z.div2_div; done.
Qed.

Lemma shifted_iter m n :
  (0 ≤ m)%Z → shifted m n (Nat.iter n shr_1 (Build_shr_record m false false)).
Proof.
  intros Hm. induction n as [|n IH]; [split; cbn; [by rewrite Z.div_1_r|done]|].
  rewrite Nat.iter_succ.
  destruct (Nat.iter n shr_1 _) as [m' r' s']. destruct IH as [Hq Hx]. cbn in Hq, Hx.
  destruct (shr_1_value m' r' s') as (H1 & H2 & H3); [subst m'; apply Z.div_pos; lia|].
  assert (Hpow : (2 ^ Z.of_nat (S n) = 2 ^ Z.of_nat n * 2)%Z)
    by (rewrite Nat2Z.inj_succ, Z.pow_succ_r by lia; lia).
  unfold shifted. rewrite H1, H2, H3, Hpow, Hq. split.
  { rewrite Z.div_div by lia. done. }
  intros Hmod.
  assert (Hm' : (m mod (2 ^ Z.of_nat n * 2)
                = m mod 2 ^ Z.of_nat n + 2 ^ Z.of_nat n * ((m / 2 ^ Z.of_nat n) mod 2))%Z)
    by (apply Z.rem_mul_r; lia).
  pose proof (Z.mod_pos_bound m (2 ^ Z.of_nat n)).
  pose proof (Z.mod_pos_bound (m / 2 ^ Z.of_nat n) 2).
  assert (Hlow : (m mod 2 ^ Z.of_nat n = 0)%Z) by nia.
  destruct (Hx Hlow) as [-> ->]. split; [|done].
  rewrite <- Z.negb_even, Zeven_mod, negb_false_iff. apply Z.eqb_eq. nia.
Qed.

(** The same for [shr], which does nothing when [n] is not positive *)
Lemma shr_spec m e n mrs e' :
  (0 ≤ m)%Z → shr (Build_shr_record m false false) e n = (mrs, e') →
  shifted m (Z.to_nat n) mrs ∧ e' = (e + Z.max 0 n)%Z.
Proof.
  intros Hm. destruct n as [|n|n]; cbn [shr]; intros [= <- <-].
  - split; [apply (shifted_iter m 0); lia|lia].
  - rewrite iter_pos_iter, Z2Nat.inj_pos. split; [by apply shifted_iter|lia].
  - split; [apply (shifted_iter m 0); lia|lia].
Qed.

(** Rounding to nearest is at most rounding up. *)
Lemma round_shifted m n mrs :
  (0 ≤ m)%Z → shifted m n mrs →
  (m / 2 ^ Z.of_nat n ≤ round_nearest_even (shr_m mrs) (loc_of_shr_record mrs))%Z
  ∧ (∀ k, m ≤ k * 2 ^ Z.of_nat n →
     round_nearest_even (shr_m mrs) (loc_of_shr_record mrs) ≤ k)%Z.
Proof.
  intros Hm [Hq Hx]. pose proof (Z.pow_pos_nonneg 2 (Z.of_nat n)).
  pose proof (Z.div_mod m (2 ^ Z.of_nat n)). pose proof (Z.mod_pos_bound m (2 ^ Z.of_nat n)).
  assert (Hle : (shr_m mrs ≤ round_nearest_even (shr_m mrs) (loc_of_shr_record mrs) ≤ shr_m mrs + 1)%Z).
  { destruct mrs as [q [] []]; cbn; try lia. destruct (Z.even q); lia. }
  split; [lia|]. intros k Hk.
  destruct (decide (m mod 2 ^ Z.of_nat n = 0)%Z) as [Hz|Hz].
  - destruct (Hx Hz) as [Hr Hs]. destruct mrs as [q r s]. cbn in Hr, Hs, Hq. subst r s. cbn.
    subst q. apply Z.div_le_upper_bound; lia.
  - assert (m / 2 ^ Z.of_nat n < k)%Z; [|lia].
    apply Z.div_lt_upper_bound; [lia|].
    destruct (decide (m = k * 2 ^ Z.of_nat n)%Z) as [->|]; [by rewrite Z.mod_mul in Hz by lia|lia].
Qed.

Lemma digits2_pos_size p : digits2_pos p = Pos.size p.
Proof. induction p as [p IH|p IH|]; cbn; by rewrite ?IH. Qed.

Lemma digits_bounds p :
  (2 ^ (Zpos (digits2_pos p) - 1) ≤ Zpos p < 2 ^ Zpos (digits2_pos p))%Z.
Proof.
  rewrite digits2_pos_size. pose proof (Pos.size_gt p) as Hgt. pose proof (Pos.size_le p) as Hle.
  apply Pos2Z.pos_lt_pos in Hgt. apply Pos2Z.pos_le_pos in Hle. rewrite Pos2Z.inj_pow in Hgt, Hle.
  rewrite (Pos2Z.inj_xO p) in Hle. split; [|done].
  rewrite <- (Z.succ_pred (Zpos (Pos.size p))), Z.pow_succ_r in Hle by lia.
  rewrite <- Z.sub_1_r in Hle. lia.
Qed.

(** ** Results of operations *)

(** The mantissa of a result has at most 24 bits. *)
Definition f32_wf (x : f32) : Prop :=
  match x with S754_finite _ m _ => (Zpos m < 2 ^ f32_prec)%Z | _ => True end.

Abbreviation fexp32 := (fexp f32_prec f32_emax).

Lemma fexp32_le e k : (e - 24 ≤ k)%Z → (-149 ≤ k)%Z → (fexp32 e ≤ k)%Z.
Proof. unfold fexp, emin, f32_prec, f32_emax. lia. Qed.
Lemma fexp32_ge e : (e - 24 ≤ fexp32 e)%Z.
Proof. unfold fexp, emin, f32_prec, f32_emax. lia. Qed.

(** Zero, or a positive number that is at most [w] *)
Definition f32_at_most (x : f32) (w : Z) : Prop :=
  match x with
  | S754_zero _ => True
  | S754_finite false m e => (e ≤ 0)%Z ∧ (Zpos m ≤ w * 2 ^ (- e))%Z
  | _ => False
  end.

(** One shift to the precision: the bits that are left *)
Lemma shr_fexp_spec m e mrs e' :
  (0 ≤ m)%Z → shr_fexp f32_prec f32_emax m e loc_Exact = (mrs, e') →
  e' = Z.max e (fexp32 (Zdigits2 m + e)) ∧ shifted m (Z.to_nat (e' - e)) mrs
  ∧ (shr_m mrs < 2 ^ 24)%Z.
Proof.
  intros Hm Hshr. apply shr_spec in Hshr as [Hs ->]; [|done].
  set (d := (fexp32 (Zdigits2 m + e) - e)%Z) in *.
  replace (Z.to_nat d) with (Z.to_nat (e + Z.max 0 d - e)) in Hs by lia.
  split_and!; [lia|done|]. destruct Hs as [-> _].
  destruct m as [|p|p]; [rewrite Zdiv_0_l; lia| |lia].
  pose proof (digits_bounds p) as [_ Hlt]. cbn [Zdigits2] in d.
  pose proof (fexp32_ge (Zpos (digits2_pos p) + e)).
  apply Z.div_lt_upper_bound; [lia|]. rewrite <- Z.pow_add_r by lia.
  eapply Z.lt_le_trans; [exact Hlt|]. apply Z.pow_le_mono_r; lia.
Qed.

(** An exponent stays below zero when the value is below [2 ^ 16]. *)
Lemma digits_of_bounded m e w :
  (0 ≤ m)%Z → (e ≤ 0)%Z → (w < 2 ^ 16)%Z → (m ≤ w * 2 ^ (- e))%Z →
  (Z.max e (fexp32 (Zdigits2 m + e)) ≤ 0)%Z.
Proof.
  intros Hm He Hw Hle. apply Z.max_lub; [done|]. apply fexp32_le; [|lia].
  destruct m as [|p|p]; [cbn; lia| |lia]. cbn [Zdigits2].
  pose proof (digits_bounds p) as [Hlo _].
  assert (2 ^ (Zpos (digits2_pos p) - 1) < 2 ^ (16 - e))%Z as Hlt.
  { eapply Z.le_lt_trans; [exact Hlo|]. eapply Z.le_lt_trans; [exact Hle|].
    replace (16 - e)%Z with (16 + - e)%Z by lia. rewrite Z.pow_add_r by lia.
    apply Z.mul_lt_mono_pos_r; lia. }
  apply Z.pow_lt_mono_r_iff in Hlt; lia.
Qed.

Lemma scale_bound w e e' : (e ≤ e' ≤ 0)%Z →
  (w * 2 ^ (- e) = w * 2 ^ (- e') * 2 ^ Z.of_nat (Z.to_nat (e' - e)))%Z.
Proof.
  intros He. rewrite <- Z.mul_assoc, <- Z.pow_add_r by lia. do 2 f_equal. lia.
Qed.

Lemma round_aux_cases sx m e :
  (0 ≤ m)%Z →
  ∃ q e1 mrs e2,
    (0 ≤ q)%Z ∧ shr_fexp f32_prec f32_emax q e1 loc_Exact = (mrs, e2)
    ∧ (∀ w, (e ≤ 0)%Z → (0 ≤ w < 2 ^ 16)%Z → (m ≤ w * 2 ^ (- e))%Z →
         (e1 ≤ 0)%Z ∧ (q ≤ w * 2 ^ (- e1))%Z)
    ∧ binary_round_aux f32_prec f32_emax sx m e loc_Exact
      = match shr_m mrs with
        | Z0 => S754_zero sx
        | Zpos m => if (e2 <=? f32_emax - f32_prec)%Z then S754_finite sx m e2 else S754_infinity sx
        | _ => S754_nan
        end.
Proof.
  intros Hm. unfold binary_round_aux.
  destruct (shr_fexp f32_prec f32_emax m e loc_Exact) as [mrs1 e1] eqn:H1.
  pose proof (shr_fexp_spec _ _ _ _ Hm H1) as (He1 & Hs1 & _).
  destruct (round_shifted _ _ _ Hm Hs1) as [Hlo Hhi].
  set (q := round_nearest_even (shr_m mrs1) (loc_of_shr_record mrs1)) in *.
  destruct (shr_fexp f32_prec f32_emax q e1 loc_Exact) as [mrs2 e2] eqn:H2.
  exists q, e1, mrs2, e2. split_and!; [|done| |done].
  { eapply Z.le_trans; [|exact Hlo]. apply Z.div_pos; lia. }
  intros w He Hw Hle.
  pose proof (digits_of_bounded m e w Hm He (proj2 Hw) Hle). rewrite <- He1 in *.
  split; [lia|]. apply Hhi. rewrite <- scale_bound by lia. done.
Qed.

(** Rounding keeps the format, and keeps a bound by an integer. *)
Lemma round_aux_wf sx m e :
  (0 ≤ m)%Z → f32_wf (binary_round_aux f32_prec f32_emax sx m e loc_Exact).
Proof.
  intros Hm. destruct (round_aux_cases sx m e Hm) as (q & e1 & mrs & e2 & Hq & Hshr & _ & ->).
  apply shr_fexp_spec in Hshr as (_ & _ & Hlt); [|done].
  destruct (shr_m mrs) as [|p|p]; [done| |done]. by destruct (_ <=? _)%Z.
Qed.

Lemma round_aux_at_most m e w :
  (0 ≤ m)%Z → (e ≤ 0)%Z → (0 ≤ w < 2 ^ 16)%Z → (m ≤ w * 2 ^ (- e))%Z →
  f32_at_most (binary_round_aux f32_prec f32_emax false m e loc_Exact) w.
Proof.
  intros Hm He Hw Hle.
  destruct (round_aux_cases false m e Hm) as (q & e1 & mrs & e2 & Hq & Hshr & Hb & ->).
  destruct (Hb w He Hw Hle) as [He1 Hq1].
  apply shr_fexp_spec in Hshr as (He2 & [Hsm _] & _); [|done].
  pose proof (digits_of_bounded q e1 w Hq He1 (proj2 Hw) Hq1) as He2'. rewrite <- He2 in He2'.
  assert (Hle2 : (shr_m mrs ≤ w * 2 ^ (- e2))%Z).
  { rewrite Hsm. apply Z.div_le_upper_bound; [lia|]. rewrite Z.mul_comm, <- scale_bound by lia. done. }
  assert (0 ≤ shr_m mrs)%Z by (rewrite Hsm; apply Z.div_pos; lia).
  destruct (shr_m mrs) as [|p|p]; [done| |lia].
  unfold f32_emax, f32_prec. by rewrite (proj2 (Z.leb_le _ _)) by lia.
Qed.

Lemma shl_align_spec m e e' m' e'' :
  shl_align m e e' = (m', e'') → (e'' ≤ e)%Z ∧ (Zpos m' = Zpos m * 2 ^ (e - e''))%Z.
Proof.
  unfold shl_align. destruct (e' - e)%Z as [|d|d] eqn:Hd; intros [= <- <-];
    [split; [lia|rewrite Z.sub_diag; lia]..|].
  split; [lia|]. replace (e - e')%Z with (Zpos d) by lia.
  clear. induction d as [|d IH] using Pos.peano_ind; [cbn; lia|].
  rewrite Pos.iter_succ, Pos2Z.inj_xO, IH, Pos2Z.inj_succ, Z.pow_succ_r by lia. lia.
Qed.

Lemma normalize_wf m e s : f32_wf (binary_normalize f32_prec f32_emax m e s).
Proof.
  destruct m as [|m|m]; [done|..]; cbn [binary_normalize]; unfold binary_round;
    destruct (shl_align _ _ _) as [mz ez]; apply round_aux_wf; lia.
Qed.

Lemma f32_add_wf x y : f32_wf x → f32_wf y → f32_wf (f32_add x y).
Proof.
  intros Hx Hy. destruct x as [[]|[]| |sx mx ex], y as [[]|[]| |sy my ey]; try done.
  apply normalize_wf.
Qed.

Lemma f32_neg_wf x : f32_wf x → f32_wf (f32_neg x).
Proof. by destruct x. Qed.

Lemma f32_of_u16_at_most w : (w ≤ u16_max)%N → f32_at_most (f32_of_u16 w) (Z.of_N w).
Proof.
  unfold u16_max. intros Hw. unfold f32_of_u16. destruct w as [|p]; [done|].
  cbn [Z.of_N binary_normalize]. unfold binary_round.
  destruct (shl_align _ _ _) as [mz ez] eqn:Ha. apply shl_align_spec in Ha as [He Hm].
  apply round_aux_at_most; [lia..|]. rewrite Hm. by rewrite Z.sub_0_l.
Qed.

Lemma f32_mul_at_most x r w :
  (0 ≤ w < 2 ^ 16)%Z → f32_at_most x w → f32_at_most r 1 → f32_at_most (f32_mul x r) w.
Proof.
  intros Hw Hx Hr. destruct x as [sx|sx| |[] mx ex], r as [sr|sr| |[] mr er]; try done.
  destruct Hx as [Hex Hmx], Hr as [Her Hmr]. cbn [f32_mul SFmul xorb].
  apply round_aux_at_most; [lia..|]. rewrite Pos2Z.inj_mul.
  replace (- (ex + er))%Z with (- ex + - er)%Z by lia. rewrite Z.pow_add_r by lia.
  rewrite Z.mul_assoc. apply Z.mul_le_mono_nonneg; lia.
Qed.

Lemma f32_round_at_most x w :
  (w ≤ u16_max)%N → f32_at_most x (Z.of_N w) → (f32_round_as_u16 x ≤ w)%N.
Proof.
  intros Hw Hx. destruct x as [s|s| |[] m e]; try done; try (cbn; lia).
  destruct Hx as [He Hm]. unfold f32_round_as_u16.
  apply N.min_le_iff. right. apply N2Z.inj_le. rewrite Z2N.id.
  2:{ destruct (0 <=? e)%Z; [apply Z.shiftl_nonneg; lia|apply Z.shiftr_nonneg].
      assert (0 ≤ Z.shiftl 1 (- e - 1))%Z by (apply Z.shiftl_nonneg; lia). lia. }
  destruct (Z.leb_spec 0 e) as [He0|He0].
  - assert (e = 0)%Z as -> by lia. rewrite Z.shiftl_0_r. change (2 ^ (- 0))%Z with 1%Z in Hm. lia.
  - rewrite Z.shiftr_div_pow2, Z.shiftl_1_l by lia.
    assert (Hpow : (2 ^ (- e) = 2 * 2 ^ (- e - 1))%Z)
      by (rewrite <- Z.pow_succ_r by lia; f_equal; lia).
    assert (0 < 2 ^ (- e - 1))%Z by (apply Z.pow_pos_nonneg; lia).
    apply Z.lt_succ_r, Z.div_lt_upper_bound; nia.
Qed.

(** A ratio: a number between zero and one, or a NaN *)
Definition f32_ratio (x : f32) : Prop := f32_wf x ∧ (x = S754_nan ∨ f32_at_most x 1).

(** The share of a width that a ratio gives is at most the width. *)
Lemma f32_share_le w r :
  (w ≤ u16_max)%N → f32_ratio r → (f32_round_as_u16 (f32_mul (f32_of_u16 w) r) ≤ w)%N.
Proof.
  intros Hw [_ [->|Hr]].
  - pose proof (f32_of_u16_at_most w Hw). destruct (f32_of_u16 w) as [|[]| |[]]; try done; cbn; lia.
  - apply f32_round_at_most; [done|]. apply f32_mul_at_most; [unfold u16_max in Hw; lia| |done].
    by apply f32_of_u16_at_most.
Qed.

Lemma f32_clamp_ratio x : f32_wf x → f32_ratio (f32_clamp x f32_0_1 f32_0_9).
Proof.
  intros Hwf. unfold f32_clamp. destruct (SFltb x f32_0_1) eqn:Hlo; [by split; [|right]; vm_compute|].
  destruct (SFltb f32_0_9 x) eqn:Hhi; [by split; [|right]; vm_compute|]. split; [done|].
  destruct x as [s|[]| |[] m e]; try done; [by left|]. right. cbn in Hwf |- *.
  unfold SFltb in Hhi. cbn [SFcompare f32_0_9] in Hhi.
  assert (He : (e ≤ -24)%Z) by (destruct (Z.compare_spec (-24) e); [lia|done|lia]).
  split; [lia|]. etrans; [apply Z.lt_le_incl, Hwf|]. rewrite Z.mul_1_l.
  apply Z.pow_le_mono_r; unfold f32_prec; lia.
Qed.
