(* ===== verification/Layout.v ===== *)
(** * The tiles of a tab ([src/layout.rs])

    Panes are the leaves of a tree of splits; a split shares its area between
    its children by a ratio.  Identifiers come from a process-wide counter,
    which is threaded through the operations that take one.  The constructor
    of rectangles is [ratatui]'s: it is the class [RectNew]. *)

From S2P Require Export Float32.

(** ** Data *)

Abbreviation PaneId := N (only parsing).

(** [PaneId::alloc]: the counter wraps at 32 bits. *)
Definition PaneId_alloc (next : N) : PaneId * N := (next, (next + 1) mod 2 ^ 32)%N.

Module Direction.
Inductive Direction := Horizontal | Vertical.
#[export] Instance eq_dec : EqDecision Direction.
Proof. solve_decision. Defined.
End Direction.
Export (hints) Direction.
Abbreviation Direction := Direction.Direction.

Module NavDirection.
Inductive NavDirection := Left | Right | Up | Down.
#[export] Instance eq_dec : EqDecision NavDirection.
Proof. solve_decision. Defined.
End NavDirection.
Export (hints) NavDirection.
Abbreviation NavDirection := NavDirection.NavDirection.

Record Rect := mkRect { r_x : N; r_y : N; r_width : N; r_height : N }.
#[export] Instance Rect_eq_dec : EqDecision Rect.
Proof. solve_decision. Defined.

Class RectNew := rect_new : N → N → N → N → Rect.

Module Node.
Inductive Node :=
| Pane (id : PaneId)
| Split (direction : Direction) (ratio : f32) (first second : Node).
End Node.
Abbreviation Node := Node.Node.

(** [Borders::NONE] is no bit. *)
Record PaneInfo := mkPaneInfo {
  pi_id : PaneId;
  pi_rect : Rect;
  pi_inner_rect : Rect;
  pi_scrollbar_rect : option Rect;
  pi_borders : N;
  pi_is_focused : bool;
}.

Record SplitBorder := mkSplitBorder {
  sb_pos : N;
  sb_direction : Direction;
  sb_ratio : f32;
  sb_area : Rect;
  sb_path : list bool;
}.

Record TileLayout := mkTileLayout { tl_root : Node; tl_focus : PaneId }.
#[export] Instance TileLayout_fields : Fields TileLayout := λ l,
  mkTileLayout (tl_root l) (tl_focus l).

(** ** Arithmetic on [u16] *)

Definition u16_add (a b : N) : N := ((a + b) mod 2 ^ 16)%N.
Definition saturating_mul (top a b : N) : N := N.min top (a * b).
Definition abs_diff (a b : N) : N := (if b <=? a then a - b else b - a)%N.

(** [iter.min_by_key(..)]: the first of the least elements *)
Definition min_by {A} (less : A → A → bool) (l : list A) : option A :=
  foldl (λ best x, match best with
                   | Some b => if less x b then Some x else Some b
                   | None => Some x
                   end) None l.

(** ** Operations on trees *)

Fixpoint count_panes (node : Node) : nat :=
  match node with
  | Node.Pane _ => 1
  | Node.Split _ _ first second => count_panes first + count_panes second
  end.

Fixpoint collect_ids (node : Node) : list PaneId :=
  match node with
  | Node.Pane id => [id]
  | Node.Split _ _ first second => collect_ids first ++ collect_ids second
  end.

Fixpoint split_ratios (node : Node) (path : list bool) : list (list bool * f32) :=
  match node with
  | Node.Pane _ => []
  | Node.Split _ ratio first second =>
      (path, ratio) :: split_ratios first (path ++ [false]) ++ split_ratios second (path ++ [true])
  end.

Fixpoint swap_pane_ids (node : Node) (first second : PaneId) : Node :=
  match node with
  | Node.Pane id =>
      if (id =? first)%N then Node.Pane second
      else if (id =? second)%N then Node.Pane first
      else node
  | Node.Split d ratio first_child second_child =>
      Node.Split d ratio (swap_pane_ids first_child first second)
        (swap_pane_ids second_child first second)
  end.

Fixpoint split_at (node : Node) (target : PaneId) (direction : Direction) (new_id : PaneId)
    (split_ratio : f32) : Node :=
  match node with
  | Node.Pane id =>
      if (id =? target)%N
      then Node.Split direction split_ratio (Node.Pane id) (Node.Pane new_id)
      else node
  | Node.Split d ratio first second =>
      Node.Split d ratio (split_at first target direction new_id split_ratio)
        (split_at second target direction new_id split_ratio)
  end.

Definition valid_split_ratio (ratio : f32) : f32 :=
  if f32_is_finite ratio then f32_clamp ratio f32_0_1 f32_0_9 else f32_0_5.

Fixpoint remove_pane (node : Node) (target : PaneId) : option Node :=
  match node with
  | Node.Pane id => if (id =? target)%N then None else Some node
  | Node.Split direction ratio first second =>
      match remove_pane first target, remove_pane second target with
      | None, Some s => Some s
      | Some f, None => Some f
      | Some f, Some s => Some (Node.Split direction ratio f s)
      | None, None => None
      end
  end.

Fixpoint node_set_ratio_at (node : Node) (path : list bool) (new_ratio : f32) : Node * bool :=
  match node with
  | Node.Split d ratio first second =>
      match path with
      | [] => (Node.Split d new_ratio first second, true)
      | true :: path =>
          let '(second, changed) := node_set_ratio_at second path new_ratio in
          (Node.Split d ratio first second, changed)
      | false :: path =>
          let '(first, changed) := node_set_ratio_at first path new_ratio in
          (Node.Split d ratio first second, changed)
      end
  | Node.Pane _ => (node, false)
  end.

Fixpoint get_ratio_at (node : Node) (path : list bool) : option f32 :=
  match node with
  | Node.Split _ ratio first second =>
      match path with
      | [] => Some ratio
      | true :: path => get_ratio_at second path
      | false :: path => get_ratio_at first path
      end
  | Node.Pane _ => None
  end.

Section geometry.
Context `{HRect : RectNew}.

Definition split_rect (area : Rect) (direction : Direction) (ratio : f32) : Rect * Rect :=
  match direction with
  | Direction.Horizontal =>
      let first_w := f32_round_as_u16 (f32_mul (f32_of_u16 (r_width area)) ratio) in
      let second_w := saturating_sub (r_width area) first_w in
      (rect_new (r_x area) (r_y area) first_w (r_height area),
       rect_new (u16_add (r_x area) first_w) (r_y area) second_w (r_height area))
  | Direction.Vertical =>
      let first_h := f32_round_as_u16 (f32_mul (f32_of_u16 (r_height area)) ratio) in
      let second_h := saturating_sub (r_height area) first_h in
      (rect_new (r_x area) (r_y area) (r_width area) first_h,
       rect_new (r_x area) (u16_add (r_y area) first_h) (r_width area) second_h)
  end.

Fixpoint collect_panes (node : Node) (area : Rect) (focus : PaneId) : list PaneInfo :=
  match node with
  | Node.Pane id =>
      [{| pi_id := id;
          pi_rect := area;
          pi_inner_rect := area;
          pi_scrollbar_rect := None;
          pi_borders := 0;
          pi_is_focused := (id =? focus)%N |}]
  | Node.Split direction ratio first second =>
      let '(a, b) := split_rect area direction ratio in
      collect_panes first a focus ++ collect_panes second b focus
  end.

Fixpoint collect_splits (node : Node) (area : Rect) (path : list bool) : list SplitBorder :=
  match node with
  | Node.Pane _ => []
  | Node.Split direction ratio first second =>
      let '(a, b) := split_rect area direction ratio in
      let pos := match direction with
                 | Direction.Horizontal => u16_add (r_x a) (r_width a)
                 | Direction.Vertical => u16_add (r_y a) (r_height a)
                 end in
      {| sb_pos := pos; sb_direction := direction; sb_ratio := ratio; sb_area := area; sb_path := path |}
        :: collect_splits first a (path ++ [false]) ++ collect_splits second b (path ++ [true])
  end.
End geometry.

(** ** Operations on layouts *)

(** [TileLayout::new] takes an identifier from the counter. *)
Definition TileLayout_new (next : N) : TileLayout * PaneId * N :=
  let '(root_id, next) := PaneId_alloc next in
  ({| tl_root := Node.Pane root_id; tl_focus := root_id |}, root_id, next).

Definition pane_count (l : TileLayout) : nat := count_panes (tl_root l).
Definition pane_ids (l : TileLayout) : list PaneId := collect_ids (tl_root l).

(** [Vec::contains] *)
Definition contains (ids : list PaneId) (id : PaneId) : bool := bool_decide (id ∈ ids).

Definition split_focused_with_ratio (next : N) (l : TileLayout) (direction : Direction) (ratio : f32) :
    TileLayout * PaneId * N :=
  let '(new_id, next) := PaneId_alloc next in
  let root := split_at (tl_root l) (tl_focus l) direction new_id (valid_split_ratio ratio) in
  ({| tl_root := root; tl_focus := new_id |}, new_id, next).

Definition split_focused (next : N) (l : TileLayout) (direction : Direction) : TileLayout * PaneId * N :=
  split_focused_with_ratio next l direction f32_0_5.

Definition insert_pane_near (l : TileLayout) (target moved : PaneId) (direction : Direction)
    (ratio : f32) : TileLayout * bool :=
  if (target =? moved)%N then (l, false)
  else
    let ids := pane_ids l in
    if negb (contains ids target) || contains ids moved then (l, false)
    else
      let root := split_at (tl_root l) target direction moved (valid_split_ratio ratio) in
      ({| tl_root := root; tl_focus := moved |}, true).

(** [iter.position(|id| *id == target)] *)
Definition position (ids : list PaneId) (target : PaneId) : option nat :=
  fst <$> list_find (λ id, id = target) ids.

(** A focus outside the tree panics ([None]).  A tree of nothing but the
    focused pane's identifier is left as the placeholder. *)
Definition close_focused (l : TileLayout) : option (TileLayout * bool) :=
  if bool_decide (pane_count l ≤ 1) then Some (l, false)
  else
    let target := tl_focus l in
    let ids := pane_ids l in
    pos ← position ids target;
    new_focus ← (if bool_decide (pos + 1 < length ids) then ids !! (pos + 1) else ids !! (pos - 1));
    match remove_pane (tl_root l) target with
    | Some new_root => Some ({| tl_root := new_root; tl_focus := new_focus |}, true)
    | None => Some (l <| tl_root := Node.Pane 0 |>, false)
    end.

Definition focus_pane (l : TileLayout) (id : PaneId) : TileLayout :=
  if contains (pane_ids l) id then l <| tl_focus := id |> else l.

Definition swap_panes (l : TileLayout) (first second : PaneId) : TileLayout * bool :=
  if (first =? second)%N then (l, false)
  else
    let ids := pane_ids l in
    if negb (contains ids first) || negb (contains ids second) then (l, false)
    else (l <| tl_root := swap_pane_ids (tl_root l) first second |>, true).

Definition set_ratio_at (l : TileLayout) (path : list bool) (ratio : f32) : TileLayout * bool :=
  let '(root, changed) := node_set_ratio_at (tl_root l) path (f32_clamp ratio f32_0_1 f32_0_9) in
  (l <| tl_root := root |>, changed).

Definition ranges_overlap (a_start a_len b_start b_len : N) : bool :=
  (a_start <? u16_add b_start b_len)%N && (b_start <? u16_add a_start a_len)%N.

Definition opposite_direction (nav : NavDirection) : NavDirection :=
  match nav with
  | NavDirection.Left => NavDirection.Right
  | NavDirection.Right => NavDirection.Left
  | NavDirection.Up => NavDirection.Down
  | NavDirection.Down => NavDirection.Up
  end.

Definition split_edge_distance (split : SplitBorder) (focused : Rect) (nav : NavDirection) : N :=
  Z.to_N (Z.abs (Z.of_N (sb_pos split)
                 - Z.of_N (match nav with
                           | NavDirection.Left => r_x focused
                           | NavDirection.Right => u16_add (r_x focused) (r_width focused)
                           | NavDirection.Up => r_y focused
                           | NavDirection.Down => u16_add (r_y focused) (r_height focused)
                           end))).

Definition split_on_requested_edge (split : SplitBorder) (focused : Rect) (nav : NavDirection) : bool :=
  (split_edge_distance split focused nav <=? 1)%N.

Definition split_area_overlaps_focused_pane (split : SplitBorder) (focused : Rect)
    (nav : NavDirection) : bool :=
  match nav with
  | NavDirection.Left | NavDirection.Right =>
      ranges_overlap (r_y (sb_area split)) (r_height (sb_area split)) (r_y focused) (r_height focused)
  | NavDirection.Up | NavDirection.Down =>
      ranges_overlap (r_x (sb_area split)) (r_width (sb_area split)) (r_x focused) (r_width focused)
  end.

Definition nearest_resize_split (splits : list SplitBorder) (target_dir : Direction) (focused : Rect)
    (nav : NavDirection) : option SplitBorder :=
  min_by (λ s t, (split_edge_distance s focused nav <? split_edge_distance t focused nav)%N)
    (List.filter (λ s, split_on_requested_edge s focused nav)
      (List.filter (λ s, split_area_overlaps_focused_pane s focused nav)
        (List.filter (λ s, bool_decide (sb_direction s = target_dir)) splits))).

Definition nav_axis (nav : NavDirection) : Direction :=
  match nav with
  | NavDirection.Left | NavDirection.Right => Direction.Horizontal
  | NavDirection.Up | NavDirection.Down => Direction.Vertical
  end.

Definition nav_grows (nav : NavDirection) : bool :=
  match nav with NavDirection.Right | NavDirection.Down => true | _ => false end.

(** [Vec<(Vec<bool>, f32)>] compared with [!=] *)
Definition ratios_eqb (a b : list (list bool * f32)) : bool :=
  bool_decide (length a = length b)
  && forallb (λ xy, bool_decide (xy.1.1 = xy.2.1) && SFeqb xy.1.2 xy.2.2) (zip a b).

Section moves.
Context `{HRect : RectNew}.

Definition panes (l : TileLayout) (area : Rect) : list PaneInfo :=
  collect_panes (tl_root l) area (tl_focus l).
Definition splits (l : TileLayout) (area : Rect) : list SplitBorder :=
  collect_splits (tl_root l) area [].

Definition resize_focused (l : TileLayout) (nav : NavDirection) (delta : f32) (area : Rect) : TileLayout :=
  match find_first pi_is_focused (panes l area) with
  | None => l
  | Some focused =>
      let focused_rect := pi_rect focused in
      let splits := splits l area in
      let best :=
        match nearest_resize_split splits (nav_axis nav) focused_rect nav with
        | Some s => Some s
        | None => nearest_resize_split splits (nav_axis nav) focused_rect (opposite_direction nav)
        end in
      match best with
      | Some split =>
          let path := sb_path split in
          let current_ratio := default f32_0_5 (get_ratio_at (tl_root l) path) in
          let adj := if nav_grows nav then delta else f32_neg delta in
          (set_ratio_at l path (f32_add current_ratio adj)).1
      | None => l
      end
  end.

Definition resize_pane (l : TileLayout) (pane_id : PaneId) (nav : NavDirection) (delta : f32)
    (area : Rect) : TileLayout * bool :=
  if negb (contains (pane_ids l) pane_id) then (l, false)
  else
    let before := split_ratios (tl_root l) [] in
    let previous_focus := tl_focus l in
    let l := resize_focused (l <| tl_focus := pane_id |>) nav delta area in
    let l := l <| tl_focus := previous_focus |> in
    (l, negb (ratios_eqb (split_ratios (tl_root l) []) before)).
End moves.

(** ** Navigation *)

Definition range_overlap_amount (a_start a_len b_start b_len : N) : N :=
  let a_end := saturating_add u16_max a_start a_len in
  let b_end := saturating_add u16_max b_start b_len in
  saturating_sub (N.min a_end b_end) (N.max a_start b_start).

Definition range_center_distance (a_start a_len b_start b_len : N) : N :=
  let a_center := saturating_add u16_max (saturating_mul u16_max a_start 2) a_len in
  let b_center := saturating_add u16_max (saturating_mul u16_max b_start 2) b_len in
  abs_diff a_center b_center.

(** Whether a pane lies beyond the edge of the focused one and beside it *)
Definition is_beyond (fr : Rect) (direction : NavDirection) (r : Rect) : bool :=
  match direction with
  | NavDirection.Left =>
      (u16_add (r_x r) (r_width r) <=? r_x fr)%N
      && ranges_overlap (r_y r) (r_height r) (r_y fr) (r_height fr)
  | NavDirection.Right =>
      (u16_add (r_x fr) (r_width fr) <=? r_x r)%N
      && ranges_overlap (r_y r) (r_height r) (r_y fr) (r_height fr)
  | NavDirection.Up =>
      (u16_add (r_y r) (r_height r) <=? r_y fr)%N
      && ranges_overlap (r_x r) (r_width r) (r_x fr) (r_width fr)
  | NavDirection.Down =>
      (u16_add (r_y fr) (r_height fr) <=? r_y r)%N
      && ranges_overlap (r_x r) (r_width r) (r_x fr) (r_width fr)
  end.

Definition edge_distance (fr : Rect) (direction : NavDirection) (r : Rect) : N :=
  match direction with
  | NavDirection.Left => saturating_sub (r_x fr) (u16_add (r_x r) (r_width r))
  | NavDirection.Right => saturating_sub (r_x r) (u16_add (r_x fr) (r_width fr))
  | NavDirection.Up => saturating_sub (r_y fr) (u16_add (r_y r) (r_height r))
  | NavDirection.Down => saturating_sub (r_y r) (u16_add (r_y fr) (r_height fr))
  end.

Definition side_overlap (fr : Rect) (direction : NavDirection) (r : Rect) : N :=
  match nav_axis direction with
  | Direction.Horizontal => range_overlap_amount (r_y r) (r_height r) (r_y fr) (r_height fr)
  | Direction.Vertical => range_overlap_amount (r_x r) (r_width r) (r_x fr) (r_width fr)
  end.

Definition center_distance (fr : Rect) (direction : NavDirection) (r : Rect) : N :=
  match nav_axis direction with
  | Direction.Horizontal => range_center_distance (r_y r) (r_height r) (r_y fr) (r_height fr)
  | Direction.Vertical => range_center_distance (r_x r) (r_width r) (r_x fr) (r_width fr)
  end.

(** The key the candidates are compared by: the distance, then more overlap
    first, then the distance of the centres, then the order *)
Definition nav_key (fr : Rect) (direction : NavDirection) (x : nat * PaneInfo) : N * N * N * nat :=
  (edge_distance fr direction (pi_rect x.2), side_overlap fr direction (pi_rect x.2),
   center_distance fr direction (pi_rect x.2), x.1).

Definition nav_less (a b : N * N * N * nat) : bool :=
  let '(edge, overlap, center, index) := a in
  let '(edge', overlap', center', index') := b in
  (edge <? edge')%N
  || (edge =? edge')%N
     && ((overlap' <? overlap)%N
         || (overlap' =? overlap)%N
            && ((center <? center')%N
                || (center =? center')%N && bool_decide (index < index'))).

Definition find_in_direction (focused : PaneInfo) (direction : NavDirection) (panes : list PaneInfo) :
    option PaneId :=
  let fr := pi_rect focused in
  (λ x, pi_id x.2) <$>
    min_by (λ x y, nav_less (nav_key fr direction x) (nav_key fr direction y))
      (List.filter (λ x, is_beyond fr direction (pi_rect x.2))
        (List.filter (λ x, negb (pi_id x.2 =? pi_id focused)%N) (imap pair panes))).

(** ** The panes tile the area *)

(** [Rect::new] keeps what fits into [u16]. *)
Class RectNewSpec `{RectNew} : Prop :=
  rect_new_fits x y w h :
    (x + w ≤ u16_max)%N → (y + h ≤ u16_max)%N → rect_new x y w h = mkRect x y w h.

Definition fits (a : Rect) : Prop :=
  (r_x a + r_width a ≤ u16_max)%N ∧ (r_y a + r_height a ≤ u16_max)%N.
Definition inside (a : Rect) (x y : N) : bool :=
  (r_x a <=? x)%N && (x <? r_x a + r_width a)%N && ((r_y a <=? y)%N && (y <? r_y a + r_height a)%N).
Definition within (a b : Rect) : Prop :=
  (r_x b ≤ r_x a)%N ∧ (r_x a + r_width a ≤ r_x b + r_width b)%N
  ∧ (r_y b ≤ r_y a)%N ∧ (r_y a + r_height a ≤ r_y b + r_height b)%N.

(** Every ratio of a tree is one. *)
Fixpoint node_ok (node : Node) : Prop :=
  match node with
  | Node.Pane _ => True
  | Node.Split _ ratio first second => f32_ratio ratio ∧ node_ok first ∧ node_ok second
  end.

(** The panes, of [ps], that a position lies in *)
Definition covering (x y : N) (ps : list PaneInfo) : list PaneInfo :=
  List.filter (λ p, inside (pi_rect p) x y) ps.

#[export] Instance within_refl : Reflexive within.
Proof. intros a. unfold within. lia. Qed.
#[export] Instance within_trans : Transitive within.
Proof. intros a b c. unfold within. lia. Qed.

Lemma u16_add_fits a b : (a + b ≤ u16_max)%N → u16_add a b = (a + b)%N.
Proof. unfold u16_max, u16_add. intros. apply N.mod_small. lia. Qed.

Lemma within_fits a b : within a b → fits b → fits a.
Proof. unfold within, fits. lia. Qed.

Section tiling.
Context `{HSpec : RectNewSpec}.

(** A split shares the area between two rectangles that do not overlap. *)
Lemma split_rect_spec area d r a b :
  fits area → f32_ratio r → split_rect area d r = (a, b) →
  within a area ∧ within b area
  ∧ (∀ x y, inside a x y && inside b x y = false)
  ∧ (∀ x y, inside area x y = inside a x y || inside b x y).
Proof.
  unfold fits. intros [Hx Hy] Hr. unfold split_rect, saturating_sub.
  destruct d; set (k := f32_round_as_u16 _);
    [assert (k ≤ r_width area)%N by (apply f32_share_le; [lia|done])
    |assert (k ≤ r_height area)%N by (apply f32_share_le; [lia|done])];
    rewrite u16_add_fits by lia; rewrite !rect_new_fits by lia; intros [= <- <-];
    (split_and!; [unfold within; cbn; lia..| |]); intros x y; unfold inside; cbn;
    repeat match goal with |- context [(?a <=? ?b)%N] => destruct (N.leb_spec a b) end;
    repeat match goal with |- context [(?a <? ?b)%N] => destruct (N.ltb_spec a b) end;
    try lia; done.
Qed.

Lemma collect_panes_spec node area focus :
  fits area → node_ok node →
  pi_id <$> collect_panes node area focus = collect_ids node
  ∧ Forall (λ p, within (pi_rect p) area ∧ pi_is_focused p = (pi_id p =? focus)%N
                 ∧ pi_inner_rect p = pi_rect p ∧ pi_scrollbar_rect p = None ∧ pi_borders p = 0%N)
      (collect_panes node area focus)
  ∧ ∀ x y, length (covering x y (collect_panes node area focus)) = if inside area x y then 1 else 0.
Proof.
  revert area. induction node as [id|d r n1 IH1 n2 IH2]; intros area Hfit Hok.
  { cbn. split_and!; [done|by repeat constructor|]. intros x y. by destruct (inside area x y). }
  destruct Hok as (Hr & Hok1 & Hok2). cbn [collect_panes collect_ids].
  destruct (split_rect area d r) as [a b] eqn:Hsplit.
  destruct (split_rect_spec _ _ _ _ _ Hfit Hr Hsplit) as (Ha & Hb & Hdisj & Hunion).
  destruct (IH1 a) as (Hid1 & Hp1 & Hc1); [by eapply within_fits|done|].
  destruct (IH2 b) as (Hid2 & Hp2 & Hc2); [by eapply within_fits|done|].
  split_and!.
  - by rewrite fmap_app, Hid1, Hid2.
  - apply Forall_app. split; eapply Forall_impl; [exact Hp1| |exact Hp2|];
      intros p (Hw & ?); (split; [by etrans|done]).
  - intros x y. unfold covering in *. rewrite List.filter_app, length_app, Hc1, Hc2, Hunion.
    specialize (Hdisj x y). by destruct (inside a x y), (inside b x y).
Qed.
End tiling.

(** ** The order of the panes *)

(** What the operations do to the list of the panes *)
Definition insert_after (target new_id : PaneId) (ids : list PaneId) : list PaneId :=
  ids ≫= λ id, if (id =? target)%N then [id; new_id] else [id].
Definition swap_ids (first second : PaneId) (id : PaneId) : PaneId :=
  if (id =? first)%N then second else if (id =? second)%N then first else id.
Definition without (target : PaneId) (ids : list PaneId) : list PaneId :=
  List.filter (λ id, negb (id =? target)%N) ids.

Lemma count_panes_ids node : count_panes node = length (collect_ids node).
Proof. induction node; cbn; [done|]. rewrite length_app. lia. Qed.

Lemma collect_ids_nonempty node : collect_ids node ≠ [].
Proof. induction node as [|d r n1 IH1 n2 IH2]; cbn; [done|]. by intros [? ?]%app_eq_nil. Qed.

Lemma split_at_ids node target d new_id r :
  collect_ids (split_at node target d new_id r) = insert_after target new_id (collect_ids node).
Proof.
  unfold insert_after. induction node as [id|d' r' n1 IH1 n2 IH2]; cbn [split_at collect_ids].
  - cbn. by destruct (id =? target)%N.
  - by rewrite IH1, IH2, bind_app.
Qed.

Lemma swap_pane_ids_ids node first second :
  collect_ids (swap_pane_ids node first second) = swap_ids first second <$> collect_ids node.
Proof.
  induction node as [id|d' r' n1 IH1 n2 IH2]; cbn [swap_pane_ids collect_ids].
  - unfold swap_ids. cbn. by destruct (id =? first)%N, (id =? second)%N.
  - by rewrite IH1, IH2, fmap_app.
Qed.

Lemma remove_pane_ids node target :
  match remove_pane node target with
  | Some node' => collect_ids node' = without target (collect_ids node)
  | None => without target (collect_ids node) = []
  end.
Proof.
  unfold without. induction node as [id|d r n1 IH1 n2 IH2]; cbn [remove_pane collect_ids].
  - cbn. by destruct (id =? target)%N eqn:E; cbn; rewrite ?E.
  - rewrite List.filter_app. destruct (remove_pane n1 target), (remove_pane n2 target); cbn;
      rewrite ?IH1, ?IH2; by rewrite ?app_nil_r.
Qed.

Lemma set_ratio_ids node path r : collect_ids (node_set_ratio_at node path r).1 = collect_ids node.
Proof.
  revert path. induction node as [id|d r' n1 IH1 n2 IH2]; intros path; cbn; [done|].
  destruct path as [|[] path]; [done|..].
  - specialize (IH2 path). destruct (node_set_ratio_at n2 path r). cbn in *. by rewrite IH2.
  - specialize (IH1 path). destruct (node_set_ratio_at n1 path r). cbn in *. by rewrite IH1.
Qed.

Lemma insert_after_absent target new_id ids :
  target ∉ ids → insert_after target new_id ids = ids.
Proof.
  unfold insert_after. induction ids as [|id ids IH]; intros Hin; [done|]. cbn.
  destruct (N.eqb_spec id target); [set_solver|]. cbn. f_equal. apply IH. set_solver.
Qed.

Lemma insert_after_split target new_id pre post :
  target ∉ pre → target ∉ post →
  insert_after target new_id (pre ++ target :: post) = pre ++ target :: new_id :: post.
Proof.
  intros Hpre Hpost. unfold insert_after. rewrite bind_app. fold (insert_after target new_id pre).
  rewrite insert_after_absent by done. cbn. rewrite N.eqb_refl. cbn.
  fold (insert_after target new_id post). by rewrite insert_after_absent.
Qed.

Lemma without_absent target ids : target ∉ ids → without target ids = ids.
Proof.
  unfold without. induction ids as [|id ids IH]; intros Hin; [done|]. cbn.
  destruct (N.eqb_spec id target); [set_solver|]. cbn. f_equal. apply IH. set_solver.
Qed.

Lemma without_split target pre post :
  target ∉ pre → target ∉ post → without target (pre ++ target :: post) = pre ++ post.
Proof.
  intros Hpre Hpost. unfold without. rewrite List.filter_app. cbn. rewrite N.eqb_refl. cbn.
  fold (without target pre) (without target post). by rewrite !without_absent.
Qed.

Lemma NoDup_split_list (x : PaneId) ids :
  NoDup ids → x ∈ ids → ∃ pre post, ids = pre ++ x :: post ∧ x ∉ pre ∧ x ∉ post.
Proof.
  intros Hnd (pre & post & ->)%list_elem_of_split. exists pre, post.
  apply NoDup_app in Hnd as (_ & Hdisj & [Hx _]%NoDup_cons). split_and!; [done| |done].
  intros Hin. by apply (Hdisj x Hin); left.
Qed.

Lemma position_split x pre post : x ∉ pre → position (pre ++ x :: post) x = Some (length pre).
Proof.
  intros Hpre. unfold position. rewrite list_find_app_r.
  - cbn. by rewrite decide_True by done.
  - apply list_find_None, Forall_forall. intros y Hy ->. done.
Qed.

Lemma contains_true ids id : contains ids id = true ↔ id ∈ ids.
Proof. apply bool_decide_eq_true. Qed.

(** Closing: the pane after the closed one has the focus, or the one before
    it when it was the last. *)
Lemma close_focused_spec l pre post :
  pane_ids l = pre ++ tl_focus l :: post → tl_focus l ∉ pre → tl_focus l ∉ post →
  (pre ++ post = [] ∧ close_focused l = Some (l, false))
  ∨ ∃ root focus, close_focused l = Some ({| tl_root := root; tl_focus := focus |}, true)
      ∧ remove_pane (tl_root l) (tl_focus l) = Some root
      ∧ collect_ids root = pre ++ post ∧ Some focus = (match post with [] => last pre | x :: _ => Some x end).
Proof.
  intros Hids Hpre Hpost. unfold close_focused, pane_count. rewrite count_panes_ids.
  change (collect_ids (tl_root l)) with (pane_ids l). rewrite Hids.
  case_bool_decide as Hlen; rewrite length_app in Hlen; cbn [length] in Hlen.
  { left. split; [|done]. destruct pre, post; cbn in Hlen; [done|lia..]. }
  right. rewrite position_split by done. cbn [mbind option_bind].
  pose proof (remove_pane_ids (tl_root l) (tl_focus l)) as Hrem.
  change (collect_ids (tl_root l)) with (pane_ids l) in Hrem. rewrite Hids, without_split in Hrem by done.
  destruct (remove_pane (tl_root l) (tl_focus l)) as [root|].
  2:{ apply app_eq_nil in Hrem as [-> ->]. cbn in Hlen. lia. }
  rewrite length_app. cbn [length]. destruct post as [|x post].
  - rewrite bool_decide_false by (cbn; lia).
    destruct pre as [|y pre _] using rev_ind; [cbn in Hlen; lia|].
    rewrite length_app, last_snoc. cbn [length].
    rewrite <- app_assoc, lookup_app_r by lia. replace (_ + 1 - 1 - _) with 0 by lia.
    exists root, y. by split_and!.
  - rewrite bool_decide_true by (cbn; lia). rewrite lookup_app_r by lia.
    replace (length pre + 1 - length pre) with 1 by lia. by exists root, x.
Qed.

(** ** Well-formed layouts *)

(** Identifiers are distinct and taken, the focus is a pane, ratios are
    ratios. *)
Record layout_wf (next : N) (l : TileLayout) : Prop := mk_layout_wf {
  wf_ids : NoDup (pane_ids l);
  wf_focus : tl_focus l ∈ pane_ids l;
  wf_taken : Forall (λ id, (id < next)%N) (pane_ids l);
  wf_ratios : node_ok (tl_root l);
}.

(** The order of the panes and the focus, which is what a layout is to
    everything but drawing *)
Record PaneOrder := mkPaneOrder { po_ids : list PaneId; po_focus : PaneId }.
Definition order_of (l : TileLayout) : PaneOrder := mkPaneOrder (pane_ids l) (tl_focus l).

Module Order.
Definition insert (target id : PaneId) (o : PaneOrder) : PaneOrder :=
  mkPaneOrder (insert_after target id (po_ids o)) id.
Definition focus (id : PaneId) (o : PaneOrder) : PaneOrder :=
  if contains (po_ids o) id then mkPaneOrder (po_ids o) id else o.
Definition swap (first second : PaneId) (o : PaneOrder) : PaneOrder :=
  mkPaneOrder (swap_ids first second <$> po_ids o) (po_focus o).

(** The pane after [x], or the one before it *)
Fixpoint neighbour (before : option PaneId) (x : PaneId) (ids : list PaneId) : option PaneId :=
  match ids with
  | [] => None
  | y :: ids =>
      if (y =? x)%N then match ids with z :: _ => Some z | [] => before end
      else neighbour (Some y) x ids
  end.
Definition close (o : PaneOrder) : PaneOrder * bool :=
  match neighbour None (po_focus o) (po_ids o) with
  | Some f => (mkPaneOrder (without (po_focus o) (po_ids o)) f, true)
  | None => (o, false)
  end.
End Order.

Lemma neighbour_split before x pre post :
  x ∉ pre →
  Order.neighbour before x (pre ++ x :: post)
  = match post with
    | y :: _ => Some y
    | [] => match last pre with Some y => Some y | None => before end
    end.
Proof.
  revert before. induction pre as [|y pre IH]; intros before Hpre; cbn [app Order.neighbour].
  { rewrite N.eqb_refl. by destruct post. }
  destruct (N.eqb_spec y x); [set_solver|]. rewrite IH by set_solver.
  destruct post; [|done]. rewrite last_cons. by destruct (last pre).
Qed.

Lemma valid_split_ratio_ok r : f32_wf r → f32_ratio (valid_split_ratio r).
Proof.
  intros Hr. unfold valid_split_ratio. destruct (f32_is_finite r); [by apply f32_clamp_ratio|].
  by split; [|right]; vm_compute.
Qed.

Lemma split_at_ok node target d new_id r :
  node_ok node → f32_ratio r → node_ok (split_at node target d new_id r).
Proof.
  intros Hok Hr. induction node as [id|d' r' n1 IH1 n2 IH2]; cbn.
  - by destruct (id =? target)%N.
  - destruct Hok as (? & ? & ?). split_and!; auto.
Qed.

Lemma swap_pane_ids_ok node first second : node_ok node → node_ok (swap_pane_ids node first second).
Proof.
  induction node as [id|d' r' n1 IH1 n2 IH2]; cbn.
  - by destruct (id =? first)%N, (id =? second)%N.
  - intros (? & ? & ?). split_and!; auto.
Qed.

Lemma remove_pane_ok node target node' :
  node_ok node → remove_pane node target = Some node' → node_ok node'.
Proof.
  revert node'. induction node as [id|d r n1 IH1 n2 IH2]; intros node' Hok; cbn.
  - destruct (id =? target)%N; [done|]. by intros [= <-].
  - destruct Hok as (? & ? & ?).
    destruct (remove_pane n1 target), (remove_pane n2 target); intros [= <-]; cbn; auto.
Qed.

Lemma set_ratio_ok node path r :
  node_ok node → f32_ratio r → node_ok (node_set_ratio_at node path r).1.
Proof.
  revert path. induction node as [id|d r' n1 IH1 n2 IH2]; intros path Hok Hr; cbn; [done|].
  destruct Hok as (? & ? & ?). destruct path as [|[] path]; [done|..].
  - specialize (IH2 path). destruct (node_set_ratio_at n2 path r). cbn in *. auto.
  - specialize (IH1 path). destruct (node_set_ratio_at n1 path r). cbn in *. auto.
Qed.

Lemma NoDup_insert_after target id ids :
  NoDup ids → id ∉ ids → NoDup (insert_after target id ids).
Proof.
  intros Hnd Hid. destruct (decide (target ∈ ids)) as [Ht|Ht]; [|by rewrite insert_after_absent].
  destruct (NoDup_split_list target ids Hnd Ht) as (pre & post & -> & Hpre & Hpost).
  rewrite insert_after_split by done.
  apply (NoDup_Permutation_proper (id :: pre ++ target :: post)); [by solve_Permutation|].
  by constructor.
Qed.

Lemma elem_of_insert_after target id ids x :
  target ∈ ids → x ∈ insert_after target id ids ↔ x = id ∨ x ∈ ids.
Proof.
  intros Ht. unfold insert_after. rewrite list_elem_of_bind. split.
  - intros (y & Hx & Hy). destruct (N.eqb_spec y target); set_solver.
  - intros [->|Hx].
    + exists target. rewrite N.eqb_refl. set_solver.
    + exists x. destruct (x =? target)%N; set_solver.
Qed.

Lemma elem_of_without target ids x : x ∈ without target ids ↔ x ≠ target ∧ x ∈ ids.
Proof.
  unfold without. rewrite !list_elem_of_In, filter_In, negb_true_iff, N.eqb_neq. tauto.
Qed.

Lemma NoDup_without target ids : NoDup ids → NoDup (without target ids).
Proof. rewrite !NoDup_ListNoDup. apply List.NoDup_filter. Qed.

(** ** The layout refines the order of its panes *)

Lemma close_refines next l :
  layout_wf next l →
  ∃ l' closed, close_focused l = Some (l', closed)
    ∧ (order_of l', closed) = Order.close (order_of l)
    ∧ (closed = bool_decide (1 < length (pane_ids l))) ∧ layout_wf next l'.
Proof.
  intros [Hnd Hf Htaken Hok].
  destruct (NoDup_split_list _ _ Hnd Hf) as (pre & post & Hids & Hpre & Hpost).
  destruct (close_focused_spec l pre post Hids Hpre Hpost)
    as [[Hnil Hclose]|(root & focus & Hclose & Hrem & Hroot & Hfocus)].
  - apply app_eq_nil in Hnil as [-> ->]. exists l, false. rewrite Hclose, Hids.
    unfold Order.close, order_of. cbn [po_ids po_focus]. rewrite Hids. cbn. rewrite N.eqb_refl.
    split_and!; [done..|]. by constructor.
  - exists {| tl_root := root; tl_focus := focus |}, true. rewrite Hclose, Hids.
    unfold Order.close, order_of. cbn [po_ids po_focus]. rewrite Hids, neighbour_split by done.
    rewrite without_split by done. unfold pane_ids. cbn [tl_root tl_focus]. rewrite Hroot.
    assert (Hneigh : (match post with [] => match last pre with Some y => Some y | None => None end
                                    | x :: _ => Some x end) = Some focus).
    { rewrite Hfocus. destruct post; [by destruct (last pre)|done]. }
    assert (Hin : focus ∈ pre ++ post).
    { destruct post as [|x post]; [|injection Hfocus as ->; set_solver].
      symmetry in Hfocus. apply last_Some_elem_of in Hfocus. set_solver. }
    split_and!; [done| |rewrite bool_decide_true; [done|]|].
    + by rewrite Hneigh.
    + rewrite length_app. cbn. destruct pre, post; cbn; [set_solver|lia..].
    + rewrite Hids in Hnd, Htaken. constructor; unfold pane_ids; cbn [tl_root tl_focus]; try rewrite Hroot.
      * rewrite <- (without_split (tl_focus l)) by done. by apply NoDup_without.
      * done.
      * rewrite Forall_forall in Htaken |- *. intros x Hx. apply Htaken. set_solver.
      * by eapply remove_pane_ok.
Qed.

Lemma split_wf next l d r :
  layout_wf next l → f32_wf r → (next + 1 < 2 ^ 32)%N →
  let '(l', id, next') := split_focused_with_ratio next l d r in layout_wf next' l'.
Proof.
  intros [Hnd Hf Htaken Hok] Hr Hnext. cbn. rewrite N.mod_small by done.
  rewrite Forall_forall in Htaken.
  constructor; unfold pane_ids; cbn [tl_root tl_focus]; rewrite ?split_at_ids.
  - apply NoDup_insert_after; [done|]. intros Hin. specialize (Htaken _ Hin). lia.
  - apply elem_of_insert_after; [done|by left].
  - apply Forall_forall. intros x [->|Hx]%elem_of_insert_after; [lia| |done].
    specialize (Htaken x Hx). lia.
  - apply split_at_ok; [done|by apply valid_split_ratio_ok].
Qed.

Lemma insert_wf next l target moved d r :
  layout_wf next l → f32_wf r → (moved < next)%N →
  layout_wf next (insert_pane_near l target moved d r).1.
Proof.
  intros Hwf Hr Hmoved. unfold insert_pane_near. destruct (target =? moved)%N; [done|].
  destruct (negb _ || _) eqn:E; [done|]. inv_ok. destruct Hwf as [Hnd Hf Htaken Hok].
  rewrite contains_true in *. apply bool_decide_eq_false in H0. cbn [fst].
  constructor; unfold pane_ids; cbn [tl_root tl_focus]; rewrite ?split_at_ids.
  - by apply NoDup_insert_after.
  - apply elem_of_insert_after; [done|by left].
  - rewrite Forall_forall in Htaken |- *.
    intros x [->|Hx]%elem_of_insert_after; [done|by apply Htaken|done].
  - apply split_at_ok; [done|by apply valid_split_ratio_ok].
Qed.

Lemma swap_ids_inj first second : Inj (=) (=) (swap_ids first second).
Proof.
  intros x y. unfold swap_ids.
  destruct (N.eqb_spec x first), (N.eqb_spec x second), (N.eqb_spec y first), (N.eqb_spec y second);
    congruence.
Qed.

Lemma swap_ids_elem first second (ids : list PaneId) x :
  first ∈ ids → second ∈ ids → x ∈ swap_ids first second <$> ids ↔ x ∈ ids.
Proof.
  intros H1 H2. rewrite list_elem_of_fmap. unfold swap_ids. split.
  - intros (y & -> & Hy). by destruct (y =? first)%N, (y =? second)%N.
  - intros Hx. exists (swap_ids first second x). unfold swap_ids. split.
    + destruct (N.eqb_spec x first), (N.eqb_spec x second); subst; rewrite ?N.eqb_refl;
        repeat case_match; inv_ok; congruence.
    + by destruct (x =? first)%N, (x =? second)%N.
Qed.

Lemma swap_wf next l first second : layout_wf next l → layout_wf next (swap_panes l first second).1.
Proof.
  intros Hwf. unfold swap_panes. destruct (first =? second)%N; [done|].
  destruct (negb _ || _) eqn:E; [done|]. inv_ok. rewrite contains_true in *.
  destruct Hwf as [Hnd Hf Htaken Hok]. cbn [fst].
  constructor; unfold pane_ids; cbn; rewrite ?swap_pane_ids_ids.
  - pose proof (swap_ids_inj first second). by apply NoDup_fmap_2.
  - by apply swap_ids_elem.
  - rewrite Forall_forall in Htaken |- *. intros x Hx%swap_ids_elem; auto.
  - by apply swap_pane_ids_ok.
Qed.

Lemma set_ratio_wf next l path r :
  layout_wf next l → f32_wf r → layout_wf next (set_ratio_at l path r).1.
Proof.
  intros [Hnd Hf Htaken Hok] Hr. unfold set_ratio_at.
  pose proof (set_ratio_ids (tl_root l) path (f32_clamp r f32_0_1 f32_0_9)) as Hids.
  pose proof (set_ratio_ok (tl_root l) path _ Hok (f32_clamp_ratio r Hr)) as Hok'.
  destruct (node_set_ratio_at _ _ _) as [root changed]. cbn in *.
  by constructor; unfold pane_ids; cbn; rewrite ?Hids.
Qed.

Lemma set_ratio_order l path r : order_of (set_ratio_at l path r).1 = order_of l.
Proof.
  unfold set_ratio_at, order_of, pane_ids.
  pose proof (set_ratio_ids (tl_root l) path (f32_clamp r f32_0_1 f32_0_9)) as Hids.
  destruct (node_set_ratio_at _ _ _) as [root changed]. cbn in *. by rewrite Hids.
Qed.

Lemma focus_wf next l id : layout_wf next l → layout_wf next (focus_pane l id).
Proof.
  intros Hwf. unfold focus_pane. destruct (contains _ _) eqn:E; [|done].
  apply contains_true in E. by destruct Hwf.
Qed.

Lemma get_ratio_ok node path r : node_ok node → get_ratio_at node path = Some r → f32_ratio r.
Proof.
  revert path. induction node as [id|d r' n1 IH1 n2 IH2]; intros path Hok; cbn; [done|].
  destruct Hok as (? & ? & ?). destruct path as [|[] path]; [by intros [= <-]|eauto..].
Qed.

Section resizing.
Context `{HRect : RectNew}.

(** The split that resizing a pane moves *)
Definition resized_split (l : TileLayout) (nav : NavDirection) (area : Rect) : option SplitBorder :=
  focused ← find_first pi_is_focused (panes l area);
  match nearest_resize_split (splits l area) (nav_axis nav) (pi_rect focused) nav with
  | Some s => Some s
  | None =>
      nearest_resize_split (splits l area) (nav_axis nav) (pi_rect focused) (opposite_direction nav)
  end.

Definition resized_ratio (l : TileLayout) (nav : NavDirection) (delta : f32) (s : SplitBorder) : f32 :=
  f32_add (default f32_0_5 (get_ratio_at (tl_root l) (sb_path s)))
    (if nav_grows nav then delta else f32_neg delta).

Lemma resize_focused_eq l nav delta area :
  resize_focused l nav delta area
  = match resized_split l nav area with
    | Some s => (set_ratio_at l (sb_path s) (resized_ratio l nav delta s)).1
    | None => l
    end.
Proof.
  unfold resize_focused, resized_split. by destruct (find_first _ _).
Qed.

Lemma resize_focused_wf next l nav delta area :
  layout_wf next l → f32_wf delta → layout_wf next (resize_focused l nav delta area).
Proof.
  intros Hwf Hd. rewrite resize_focused_eq. destruct (resized_split l nav area) as [s|]; [|done].
  apply set_ratio_wf; [done|]. unfold resized_ratio. apply f32_add_wf.
  - destruct (get_ratio_at _ _) as [r|] eqn:Hr; cbn; [|by vm_compute].
    eapply get_ratio_ok; [apply Hwf|done].
  - destruct (nav_grows nav); [done|by apply f32_neg_wf].
Qed.

Lemma resize_focused_order l nav delta area :
  order_of (resize_focused l nav delta area) = order_of l.
Proof.
  rewrite resize_focused_eq. destruct (resized_split l nav area) as [s|]; [|done].
  apply set_ratio_order.
Qed.

Lemma resize_pane_wf next l id nav delta area :
  layout_wf next l → f32_wf delta → layout_wf next (resize_pane l id nav delta area).1.
Proof.
  intros Hwf Hd. unfold resize_pane. destruct (contains (pane_ids l) id) eqn:E; cbn [negb fst]; [|done].
  apply contains_true in E.
  assert (Hwf' : layout_wf next (l <| tl_focus := id |>)) by (destruct Hwf; by constructor).
  pose proof (resize_focused_order (l <| tl_focus := id |>) nav delta area) as Hord.
  apply (resize_focused_wf _ _ nav delta area) in Hwf'; [|done].
  destruct Hwf' as [H1 H2 H3 H4]. injection Hord as Hids _.
  constructor; cbn; [done| |done|done]. unfold pane_ids in *. cbn in *. rewrite Hids. apply Hwf.
Qed.

Lemma resize_pane_order l id nav delta area :
  order_of (resize_pane l id nav delta area).1 = order_of l.
Proof.
  unfold resize_pane. destruct (contains (pane_ids l) id) eqn:E; cbn [negb fst]; [|done].
  pose proof (resize_focused_order (l <| tl_focus := id |>) nav delta area) as Hord.
  injection Hord as Hids _. unfold order_of, pane_ids in *. cbn in *. by rewrite Hids.
Qed.
End resizing.

(** ** What a tab can become *)

(** A tab with the counter of identifiers; other tabs take some of them. *)
Inductive layout_step `{RectNew} : N * TileLayout → N * TileLayout → Prop :=
| step_elsewhere next l :
    (next + 1 < 2 ^ 32)%N → layout_step (next, l) (next + 1, l)%N
| step_split next l l' id next' direction ratio :
    f32_wf ratio → (next + 1 < 2 ^ 32)%N →
    split_focused_with_ratio next l direction ratio = (l', id, next') →
    layout_step (next, l) (next', l')
| step_insert next l target moved direction ratio :
    f32_wf ratio → (moved < next)%N →
    layout_step (next, l) (next, (insert_pane_near l target moved direction ratio).1)
| step_close next l l' closed :
    close_focused l = Some (l', closed) → layout_step (next, l) (next, l')
| step_focus next l id : layout_step (next, l) (next, focus_pane l id)
| step_swap next l first second : layout_step (next, l) (next, (swap_panes l first second).1)
| step_set_ratio next l path ratio :
    f32_wf ratio → layout_step (next, l) (next, (set_ratio_at l path ratio).1)
| step_resize next l id nav delta area :
    f32_wf delta → layout_step (next, l) (next, (resize_pane l id nav delta area).1).

Lemma layout_step_wf `{RectNew} s s' :
  layout_step s s' → layout_wf s.1 s.2 → layout_wf s'.1 s'.2.
Proof.
  intros Hstep Hwf. destruct Hstep as [next l Hn|next l l' id next' d r Hr Hn Hs|next l t m d r Hr Hm
    |next l l' closed Hc|next l id|next l f s|next l path r Hr|next l id nav delta area Hd];
    cbn [fst snd] in *.
  - destruct Hwf as [? ? Htaken ?]. constructor; [done..| |done].
    eapply Forall_impl; [exact Htaken|]. cbn. lia.
  - pose proof (split_wf next l d r Hwf Hr Hn) as Hwf'. by rewrite Hs in Hwf'.
  - by apply insert_wf.
  - destruct (close_refines next l Hwf) as (l1 & b & Hc1 & _ & _ & Hwf'). by simplify_eq.
  - by apply focus_wf.
  - by apply swap_wf.
  - by apply set_ratio_wf.
  - by apply resize_pane_wf.
Qed.

Lemma new_wf next : (next + 1 < 2 ^ 32)%N →
  layout_wf (TileLayout_new next).2 (TileLayout_new next).1.1.
Proof.
  intros Hn. cbn. rewrite N.mod_small by done. constructor; cbn.
  - apply NoDup_singleton.
  - by left.
  - repeat constructor. lia.
  - done.
Qed.

(** C9: Whatever is done to a tab, its panes have distinct identifiers, one of
    them has the focus, its ratios are ratios, closing the focused pane does
    not panic, and closes it exactly when it is not the last; and in an area
    that fits the screen every position belongs to exactly one pane. *)
Theorem layout_invariant `{HSpec : RectNewSpec} (next : N) (s : N * TileLayout)
    (Hnext : (next + 1 < 2 ^ 32)%N)
    (Hsteps : rtc layout_step ((TileLayout_new next).2, (TileLayout_new next).1.1) s) :
  layout_wf s.1 s.2
  ∧ (∃ l' closed, close_focused s.2 = Some (l', closed)
      ∧ closed = bool_decide (1 < length (pane_ids s.2)))
  ∧ ∀ area, fits area →
      pi_id <$> panes s.2 area = pane_ids s.2
      ∧ Forall (λ p, within (pi_rect p) area ∧ pi_is_focused p = (pi_id p =? tl_focus s.2)%N)
          (panes s.2 area)
      ∧ ∀ x y, length (covering x y (panes s.2 area)) = if inside area x y then 1 else 0.
Proof.
  assert (Hwf : layout_wf s.1 s.2).
  { assert (Hind : ∀ t u, rtc layout_step t u → layout_wf t.1 t.2 → layout_wf u.1 u.2).
    { induction 1; [done|]. eauto using layout_step_wf. }
    eapply Hind; [exact Hsteps|]. by apply new_wf. }
  split; [done|]. split.
  - destruct (close_refines s.1 s.2 Hwf) as (l' & closed & ? & _ & ? & _). by exists l', closed.
  - intros area Hfit.
    destruct (collect_panes_spec (tl_root s.2) area (tl_focus s.2) Hfit) as (Hid & Hp & Hc);
      [apply Hwf|]. split_and!; [done| |done].
    eapply Forall_impl; [exact Hp|]. by intros p (? & ? & _).
Qed.

(** C26: To everything but drawing a layout is the list of its panes and the one
    with the focus: splitting and inserting put the new pane after its
    target, closing moves the focus to the next pane or else to the one
    before, swapping exchanges two panes, and resizing changes nothing. *)
Theorem layout_refines_order `{RectNew} (next : N) (l : TileLayout) (Hwf : layout_wf next l) :
  (∀ direction ratio,
     order_of (split_focused_with_ratio next l direction ratio).1.1
     = Order.insert (tl_focus l) next (order_of l))
  ∧ (∀ target moved direction ratio,
     let '(l', ok) := insert_pane_near l target moved direction ratio in
     ok = (contains (pane_ids l) target && negb (contains (pane_ids l) moved))
     ∧ order_of l' = if ok then Order.insert target moved (order_of l) else order_of l)
  ∧ (∃ l' closed, close_focused l = Some (l', closed)
     ∧ (order_of l', closed) = Order.close (order_of l))
  ∧ (∀ id, order_of (focus_pane l id) = Order.focus id (order_of l))
  ∧ (∀ first second,
     let '(l', ok) := swap_panes l first second in
     ok = (negb (first =? second)%N && contains (pane_ids l) first && contains (pane_ids l) second)
     ∧ order_of l' = if ok then Order.swap first second (order_of l) else order_of l)
  ∧ (∀ path ratio, order_of (set_ratio_at l path ratio).1 = order_of l)
  ∧ (∀ id nav delta area, order_of (resize_pane l id nav delta area).1 = order_of l).
Proof.
  split_and!.
  - intros d r. unfold order_of, Order.insert, pane_ids. cbn. by rewrite split_at_ids.
  - intros target moved d r. unfold insert_pane_near.
    destruct (N.eqb_spec target moved) as [->|Hne]; [by destruct (contains _ _)|].
    destruct (contains (pane_ids l) target), (contains (pane_ids l) moved); cbn; try done.
    unfold order_of, Order.insert, pane_ids. cbn. by rewrite split_at_ids.
  - destruct (close_refines next l Hwf) as (l' & closed & ? & ? & _). by exists l', closed.
  - intros id. unfold focus_pane, Order.focus. cbn. by destruct (contains (pane_ids l) id).
  - intros first second. unfold swap_panes. destruct (first =? second)%N; [done|].
    destruct (contains (pane_ids l) first), (contains (pane_ids l) second); cbn; try done.
    unfold order_of, Order.swap, pane_ids. cbn. by rewrite swap_pane_ids_ids.
  - intros path r. apply set_ratio_order.
  - intros id nav delta area. apply resize_pane_order.
Qed.

(** ** Closing undoes splitting *)

Lemma remove_split_at node target d new_id r :
  new_id ∉ collect_ids node →
  remove_pane (split_at node target d new_id r) new_id = Some node.
Proof.
  induction node as [id|d' r' n1 IH1 n2 IH2]; intros Hnew; cbn [split_at collect_ids] in *.
  - assert (Hid : (id =? new_id)%N = false) by (apply N.eqb_neq; set_solver).
    destruct (id =? target)%N; cbn; by rewrite Hid, ?N.eqb_refl.
  - cbn. rewrite IH1, IH2 by set_solver. done.
Qed.

(** Closing a pane that was just split off gives back the tree with its
    ratios; the focus goes to the pane after the one that was split, if there
    is one, and back to it otherwise. *)
Theorem close_undoes_split (next : N) (l : TileLayout) (direction : Direction) (ratio : f32)
    (Hwf : layout_wf next l) :
  ∃ focus,
    close_focused (split_focused_with_ratio next l direction ratio).1.1
    = Some ({| tl_root := tl_root l; tl_focus := focus |}, true)
    ∧ ∃ pre post, pane_ids l = pre ++ tl_focus l :: post
        ∧ focus = match post with [] => tl_focus l | x :: _ => x end.
Proof.
  destruct Hwf as [Hnd Hf Htaken Hok].
  destruct (NoDup_split_list _ _ Hnd Hf) as (pre & post & Hids & Hpre & Hpost).
  assert (Hnew : next ∉ pane_ids l).
  { intros Hin. rewrite Forall_forall in Htaken. specialize (Htaken _ Hin). lia. }
  cbn [split_focused_with_ratio PaneId_alloc fst].
  set (l' := {| tl_root := split_at _ _ _ _ _; tl_focus := next |}).
  assert (Hids' : pane_ids l' = (pre ++ [tl_focus l]) ++ tl_focus l' :: post).
  { subst l'. unfold pane_ids in *. cbn. rewrite split_at_ids, Hids, insert_after_split by done.
    by rewrite <- app_assoc. }
  rewrite Hids in Hnew.
  destruct (close_focused_spec l' _ _ Hids') as [[Hnil _]|(root & focus & -> & Hrem & _ & Hfocus)];
    [cbn; set_solver..|by destruct pre|].
  cbn in Hrem. rewrite remove_split_at in Hrem by (unfold pane_ids in Hids; rewrite Hids; set_solver).
  injection Hrem as <-. exists focus. split; [done|]. exists pre, post. split; [done|].
  destruct post; [|by injection Hfocus]. rewrite last_snoc in Hfocus. by injection Hfocus.
Qed.

(** ** Moving to a neighbour *)

Lemma min_by_spec {A} (less : A → A → bool) (l : list A) x :
  (∀ a, less a a = false) → (∀ a b c, less a b = true → less b c = true → less a c = true) →
  min_by less l = Some x → x ∈ l ∧ ∀ y, y ∈ l → less y x = false.
Proof.
  intros Hirr Htrans. revert x. unfold min_by. induction l as [|z l IH] using rev_ind; [done|].
  intros x. rewrite foldl_app. cbn. destruct (foldl _ None l) as [b|] eqn:Hb.
  - destruct (IH b eq_refl) as [Hin Hleast]. destruct (less z b) eqn:Hz; intros [= <-].
    + split; [set_solver|]. intros y [Hy| ->%list_elem_of_singleton]%elem_of_app; [|apply Hirr].
      specialize (Hleast y Hy). destruct (less y z) eqn:Hyz; [|done]. by rewrite (Htrans y z b) in Hleast.
    + split; [set_solver|]. intros y [Hy| ->%list_elem_of_singleton]%elem_of_app; auto.
  - intros [= <-]. destruct l as [|w l _] using rev_ind; [cbn; set_solver|].
    rewrite foldl_app in Hb. cbn in Hb. destruct (foldl _ None l) as [c|]; [by destruct (less w c)|done].
Qed.

Lemma min_by_some {A} (less : A → A → bool) (l : list A) : l ≠ [] → is_Some (min_by less l).
Proof.
  intros Hl. destruct l as [|z l _] using rev_ind; [done|]. unfold min_by. rewrite foldl_app. cbn.
  destruct (foldl _ None l) as [b|]; [destruct (less z b)|]; eauto.
Qed.

Lemma nav_less_iff a b :
  nav_less a b = true ↔
  let '(e, o, c, i) := a in let '(e', o', c', i') := b in
  (e < e' ∨ e = e' ∧ (o' < o ∨ o' = o ∧ (c < c' ∨ c = c' ∧ (N.of_nat i < N.of_nat i'))))%N.
Proof.
  destruct a as [[[e o] c] i], b as [[[e' o'] c'] i']. unfold nav_less.
  repeat rewrite ?orb_true_iff, ?andb_true_iff.
  rewrite !N.ltb_lt, !N.eqb_eq, bool_decide_eq_true. lia.
Qed.

Lemma nav_less_irrefl a : nav_less a a = false.
Proof.
  destruct (nav_less a a) eqn:E; [|done]. apply nav_less_iff in E. destruct a as [[[e o] c] i]. lia.
Qed.

Lemma nav_less_trans a b c : nav_less a b = true → nav_less b c = true → nav_less a c = true.
Proof.
  rewrite !nav_less_iff. destruct a as [[[? ?] ?] ?], b as [[[? ?] ?] ?], c as [[[? ?] ?] ?]. lia.
Qed.

(** The candidates of a move *)
Definition candidate (f : PaneInfo) (direction : NavDirection) (ps : list PaneInfo) (p : PaneInfo) : Prop :=
  p ∈ ps ∧ pi_id p ≠ pi_id f ∧ is_beyond (pi_rect f) direction (pi_rect p) = true.

Lemma elem_of_candidates f direction ps (x : nat * PaneInfo) :
  x ∈ List.filter (λ x, is_beyond (pi_rect f) direction (pi_rect x.2))
        (List.filter (λ x, negb (pi_id x.2 =? pi_id f)%N) (imap pair ps))
  ↔ ps !! x.1 = Some x.2 ∧ pi_id x.2 ≠ pi_id f ∧ is_beyond (pi_rect f) direction (pi_rect x.2) = true.
Proof.
  rewrite list_elem_of_In, !filter_In, <- list_elem_of_In, negb_true_iff, N.eqb_neq.
  rewrite elem_of_lookup_imap. destruct x as [i p]. cbn. naive_solver.
Qed.

(** A move goes to a candidate no other is nearer than, and fails only when
    there is none. *)
Lemma find_in_direction_spec f direction ps :
  match find_in_direction f direction ps with
  | Some id => ∃ p, candidate f direction ps p ∧ pi_id p = id
      ∧ ∀ q, candidate f direction ps q →
          (edge_distance (pi_rect f) direction (pi_rect p) ≤ edge_distance (pi_rect f) direction (pi_rect q))%N
          ∧ (edge_distance (pi_rect f) direction (pi_rect p) = edge_distance (pi_rect f) direction (pi_rect q) →
             side_overlap (pi_rect f) direction (pi_rect q) ≤ side_overlap (pi_rect f) direction (pi_rect p))%N
  | None => ∀ q, ¬ candidate f direction ps q
  end.
Proof.
  unfold find_in_direction. cbv zeta. set (cs := List.filter _ _).
  destruct (min_by _ cs) as [x|] eqn:Hmin.
  - cbn. apply min_by_spec in Hmin as [Hin Hleast];
      [|intros; apply nav_less_irrefl|intros a b c; apply nav_less_trans].
    apply elem_of_candidates in Hin as (Hat & Hid & Hb).
    exists x.2. split_and!; [|done|].
    { split_and!; [by eapply list_elem_of_lookup_2|done|done]. }
    intros q (Hq & Hqid & Hqb). apply list_elem_of_lookup in Hq as [i Hi].
    specialize (Hleast (i, q)). cbv beta in Hleast.
    assert (Hnot : ¬ nav_less (nav_key (pi_rect f) direction (i, q)) (nav_key (pi_rect f) direction x) = true)
      by (rewrite Hleast; [done|by apply elem_of_candidates]).
    rewrite nav_less_iff in Hnot. unfold nav_key in Hnot. cbn [fst snd] in Hnot. lia.
  - cbn. intros q (Hq & Hqid & Hqb). apply list_elem_of_lookup in Hq as [i Hi].
    assert (Hin : (i, q) ∈ cs) by (by apply elem_of_candidates).
    destruct (min_by_some (λ x y, nav_less (nav_key (pi_rect f) direction x) (nav_key (pi_rect f) direction y)) cs)
      as [x Hx]; [by intros Hnil; rewrite Hnil in Hin; apply elem_of_nil in Hin|].
    by rewrite Hmin in Hx.
Qed.

(** Whether a pane reaches the border of the area on a side *)
Definition at_border (area fr : Rect) (direction : NavDirection) : bool :=
  match direction with
  | NavDirection.Left => (r_x fr =? r_x area)%N
  | NavDirection.Right => (r_x fr + r_width fr =? r_x area + r_width area)%N
  | NavDirection.Up => (r_y fr =? r_y area)%N
  | NavDirection.Down => (r_y fr + r_height fr =? r_y area + r_height area)%N
  end.

Definition nonempty_rect (r : Rect) : Prop := (0 < r_width r)%N ∧ (0 < r_height r)%N.

(** The position just beyond the corner of a pane *)
Definition beyond_corner (fr : Rect) (direction : NavDirection) : N * N :=
  match direction with
  | NavDirection.Left => (r_x fr - 1, r_y fr)
  | NavDirection.Right => (r_x fr + r_width fr, r_y fr)
  | NavDirection.Up => (r_x fr, r_y fr - 1)
  | NavDirection.Down => (r_x fr, r_y fr + r_height fr)
  end%N.

Lemma inside_iff a x y :
  inside a x y = true ↔
  (r_x a ≤ x < r_x a + r_width a ∧ r_y a ≤ y < r_y a + r_height a)%N.
Proof. unfold inside. rewrite !andb_true_iff, !N.leb_le, !N.ltb_lt. tauto. Qed.

(** A pane that covers the position beyond, and shares no position with the
    focused one, is a candidate that touches it. *)
Lemma covering_is_candidate area fr r direction :
  fits area → within fr area → within r area → nonempty_rect fr → at_border area fr direction = false →
  (∀ x y, inside fr x y && inside r x y = false) →
  inside r (beyond_corner fr direction).1 (beyond_corner fr direction).2 = true →
  is_beyond fr direction r = true ∧ edge_distance fr direction r = 0%N.
Proof.
  intros [Hx Hy] Hfr Hr [Hw Hh] Hborder Hdisj Hin. apply inside_iff in Hin.
  assert (Hno : ∀ x y,
    ¬ ((r_x fr ≤ x < r_x fr + r_width fr ∧ r_y fr ≤ y < r_y fr + r_height fr)
       ∧ (r_x r ≤ x < r_x r + r_width r ∧ r_y r ≤ y < r_y r + r_height r))%N).
  { intros x y [H1%inside_iff H2%inside_iff]. specialize (Hdisj x y). by rewrite H1, H2 in Hdisj. }
  unfold within in Hfr, Hr.
  assert (Hcorner := Hno (r_x fr) (r_y fr)).
  assert (Hright := Hno (r_x fr + r_width fr - 1)%N (r_y fr)).
  assert (Hbottom := Hno (r_x fr) (r_y fr + r_height fr - 1)%N). clear Hno Hdisj.
  unfold is_beyond, edge_distance, ranges_overlap, saturating_sub.
  rewrite !u16_add_fits by lia.
  destruct direction; cbn in Hborder, Hin; apply N.eqb_neq in Hborder;
    rewrite !andb_true_iff, !N.ltb_lt, !N.leb_le; lia.
Qed.

Section navigation.
Context `{HSpec : RectNewSpec}.

Lemma beyond_inside area fr direction :
  within fr area → nonempty_rect fr → at_border area fr direction = false →
  inside area (beyond_corner fr direction).1 (beyond_corner fr direction).2 = true
  ∧ inside fr (beyond_corner fr direction).1 (beyond_corner fr direction).2 = false.
Proof.
  intros Hfr [Hw Hh] Hborder. unfold within in Hfr. rewrite <- not_true_iff_false, !inside_iff.
  destruct direction; cbn in *; apply N.eqb_neq in Hborder; lia.
Qed.

Lemma length_one_unique {A} (P : A → bool) (l : list A) i j a b :
  length (List.filter P l) ≤ 1 → l !! i = Some a → l !! j = Some b → P a = true → P b = true → i = j.
Proof.
  revert i j. induction l as [|x l IH]; intros i j Hlen Hi Hj Ha Hb; [done|]. cbn in Hlen.
  assert (Hnone : ∀ k y, length (List.filter P l) = 0 → l !! k = Some y → P y = true → False).
  { intros k y H0 Hk Hy. apply nil_length_inv in H0.
    assert (Hin : In y (List.filter P l)) by (apply filter_In; split;
      [by eapply list_elem_of_In, list_elem_of_lookup_2|done]). by rewrite H0 in Hin. }
  destruct i as [|i], j as [|j]; cbn in Hi, Hj; [done| | |].
  - injection Hi as ->. rewrite Ha in Hlen. cbn in Hlen. exfalso. by eapply (Hnone j b); [lia|..].
  - injection Hj as ->. rewrite Hb in Hlen. cbn in Hlen. exfalso. by eapply (Hnone i a); [lia|..].
  - f_equal. apply IH; try done. destruct (P x); cbn in Hlen; lia.
Qed.

(** In a drawn tab a move from a pane fails exactly at the border of the
    area, and otherwise goes to a pane that touches it on that side, with as
    long a common edge as any. *)
Theorem move_reaches_neighbour (next : N) (l : TileLayout) (area : Rect) (f : PaneInfo)
    (direction : NavDirection) (Hwf : layout_wf next l) (Hfit : fits area)
    (Hf : f ∈ panes l area) (Hdrawn : ∀ p, p ∈ panes l area → nonempty_rect (pi_rect p)) :
  match find_in_direction f direction (panes l area) with
  | None => at_border area (pi_rect f) direction = true
  | Some id =>
      at_border area (pi_rect f) direction = false
      ∧ ∃ p, p ∈ panes l area ∧ pi_id p = id ∧ id ≠ pi_id f
          ∧ edge_distance (pi_rect f) direction (pi_rect p) = 0%N
          ∧ is_beyond (pi_rect f) direction (pi_rect p) = true
          ∧ ∀ q, q ∈ panes l area → pi_id q ≠ pi_id f → is_beyond (pi_rect f) direction (pi_rect q) = true →
              edge_distance (pi_rect f) direction (pi_rect q) = 0%N →
              (side_overlap (pi_rect f) direction (pi_rect q)
               ≤ side_overlap (pi_rect f) direction (pi_rect p))%N
  end.
Proof.
  destruct Hwf as [Hnd _ _ Hok].
  destruct (collect_panes_spec (tl_root l) area (tl_focus l) Hfit Hok) as (Hids & Hall & Hcover).
  fold (panes l area) in Hids, Hall, Hcover. fold (pane_ids l) in Hids.
  rewrite Forall_forall in Hall.
  assert (Hwithin : ∀ p, p ∈ panes l area → within (pi_rect p) area) by (intros p Hp; apply (Hall p Hp)).
  apply list_elem_of_lookup in Hf as Hfi. destruct Hfi as [i Hi].
  assert (Hdisj : ∀ j p x y, panes l area !! j = Some p → pi_id p ≠ pi_id f →
            inside (pi_rect f) x y && inside (pi_rect p) x y = false).
  { intros j p x y Hj Hne. destruct (inside (pi_rect f) x y) eqn:H1, (inside (pi_rect p) x y) eqn:H2; try done.
    assert (i = j) as <-; [|congruence].
    eapply (length_one_unique (λ p, inside (pi_rect p) x y)); [|done..].
    fold (covering x y (panes l area)). rewrite Hcover. destruct (inside area x y); lia. }
  assert (Hexists : at_border area (pi_rect f) direction = false →
            ∃ p, candidate f direction (panes l area) p ∧ edge_distance (pi_rect f) direction (pi_rect p) = 0%N).
  { intros Hb. destruct (beyond_inside area (pi_rect f) direction) as [Hin Hout]; [auto..|].
    set (x := (beyond_corner _ _).1) in *. set (y := (beyond_corner _ _).2) in *.
    specialize (Hcover x y). rewrite Hin in Hcover.
    destruct (covering x y (panes l area)) as [|p ps] eqn:Hc; [done|].
    assert (Hp : p ∈ covering x y (panes l area)) by (rewrite Hc; left).
    apply list_elem_of_In, filter_In in Hp as [Hp Hpin]. apply list_elem_of_In in Hp.
    apply list_elem_of_lookup in Hp as Hpj. destruct Hpj as [j Hj].
    assert (Hne : pi_id p ≠ pi_id f).
    { intros Heq. assert (j = i) as ->.
      { rewrite <- Hids in Hnd. eapply NoDup_lookup; [exact Hnd|..]; rewrite list_lookup_fmap.
        - by rewrite Hj.
        - by rewrite Hi, Heq. }
      assert (p = f) as -> by congruence. congruence. }
    destruct (covering_is_candidate area (pi_rect f) (pi_rect p) direction) as [Hbe Hd]; [by eauto..|].
    by exists p. }
  assert (Hborder : at_border area (pi_rect f) direction = true →
            ∀ p, ¬ candidate f direction (panes l area) p).
  { intros Hb p (Hp & _ & Hbe). pose proof (Hwithin p Hp) as Hwp. pose proof (Hwithin f Hf) as Hwf'.
    destruct (Hdrawn p Hp). destruct Hfit. unfold within in *.
    unfold is_beyond, at_border in *. rewrite !u16_add_fits in Hbe by lia.
    destruct direction; apply N.eqb_eq in Hb; apply andb_true_iff in Hbe as [Hbe%N.leb_le _]; lia. }
  pose proof (find_in_direction_spec f direction (panes l area)) as Hfind.
  destruct (find_in_direction f direction (panes l area)) as [id|].
  - destruct Hfind as (p & Hp & <- & Hleast).
    destruct (at_border area (pi_rect f) direction) eqn:Hb; [by exfalso; eapply Hborder|].
    split; [done|]. destruct (Hexists eq_refl) as (q & Hq & Hq0).
    destruct Hp as (Hp & Hpid & Hpb). exists p.
    assert (H0 : edge_distance (pi_rect f) direction (pi_rect p) = 0%N)
      by (destruct (Hleast q Hq) as [Hle _]; lia).
    split_and!; [done..|]. intros q' Hq' Hqid Hqb Hqd. apply (Hleast q'); [done|congruence].
  - destruct (at_border area (pi_rect f) direction) eqn:Hb; [done|].
    destruct (Hexists eq_refl) as (q & Hq & _). by exfalso; eapply Hfind.
Qed.
End navigation.

(** ** Resizing *)

Lemma get_set_ratio node path r q :
  get_ratio_at (node_set_ratio_at node path r).1 q
  = if bool_decide (q = path) then (λ _, r) <$> get_ratio_at node q else get_ratio_at node q.
Proof.
  revert path q. induction node as [id|d r' n1 IH1 n2 IH2]; intros path q.
  { cbn. by case_bool_decide. }
  destruct path as [|[] path]; cbn [node_set_ratio_at].
  - cbn. destruct q as [|[] q]; cbn; try done; by rewrite bool_decide_false.
  - specialize (IH2 path). destruct (node_set_ratio_at n2 path r) as [n2' c]. cbn [fst] in *.
    destruct q as [|[] q]; cbn [get_ratio_at]; [by rewrite bool_decide_false| |by rewrite bool_decide_false].
    rewrite IH2. do 2 case_bool_decide; congruence.
  - specialize (IH1 path). destruct (node_set_ratio_at n1 path r) as [n1' c]. cbn [fst] in *.
    destruct q as [|[] q]; cbn [get_ratio_at]; [by rewrite bool_decide_false|by rewrite bool_decide_false|].
    rewrite IH1. do 2 case_bool_decide; congruence.
Qed.

Section resize_spec.
Context `{HSpec : RectNewSpec}.

Lemma collect_splits_paths node area path s :
  s ∈ collect_splits node area path →
  ∃ p, sb_path s = path ++ p ∧ get_ratio_at node p = Some (sb_ratio s).
Proof.
  revert area path. induction node as [id|d r n1 IH1 n2 IH2]; intros area path; [set_solver|].
  cbn [collect_splits]. destruct (split_rect area d r) as [a b].
  intros [->|[Hin|Hin]%elem_of_app]%elem_of_cons.
  - exists []. by rewrite app_nil_r.
  - destruct (IH1 _ _ Hin) as (p & -> & Hp). exists (false :: p). by rewrite <- app_assoc.
  - destruct (IH2 _ _ Hin) as (p & -> & Hp). exists (true :: p). by rewrite <- app_assoc.
Qed.

(** The splits that resizing on a side can move: of the right direction,
    beside the pane, and at that edge of it *)
Definition resizable (area : Rect) (l : TileLayout) (r : Rect) (axis : Direction) (nav : NavDirection)
    (s : SplitBorder) : Prop :=
  s ∈ splits l area ∧ sb_direction s = axis ∧ split_area_overlaps_focused_pane s r nav = true
  ∧ (split_edge_distance s r nav ≤ 1)%N.

Lemma nearest_resize_split_spec l area axis r nav :
  match nearest_resize_split (splits l area) axis r nav with
  | Some s => resizable area l r axis nav s
      ∧ ∀ t, resizable area l r axis nav t →
          (split_edge_distance s r nav ≤ split_edge_distance t r nav)%N
  | None => ∀ t, ¬ resizable area l r axis nav t
  end.
Proof.
  unfold nearest_resize_split. set (cs := List.filter _ _).
  assert (Hcs : ∀ s, s ∈ cs ↔ resizable area l r axis nav s).
  { intros s. unfold cs, resizable. rewrite list_elem_of_In, !filter_In, <- list_elem_of_In.
    rewrite bool_decide_eq_true. unfold split_on_requested_edge. rewrite N.leb_le. tauto. }
  destruct (min_by _ cs) as [s|] eqn:Hmin.
  - apply min_by_spec in Hmin as [Hin Hleast].
    + split; [by apply Hcs|]. intros t Ht%Hcs. by apply N.ltb_ge, Hleast.
    + intros a. apply N.ltb_irrefl.
    + intros a b c. rewrite !N.ltb_lt. lia.
  - intros t Ht%Hcs.
    destruct (min_by_some (λ s t, (split_edge_distance s r nav <? split_edge_distance t r nav)%N) cs) as [x Hx];
      [by intros Hnil; rewrite Hnil in Ht; apply elem_of_nil in Ht|]. by rewrite Hmin in Hx.
Qed.

Lemma focused_pane next l area id :
  layout_wf next l → fits area → tl_focus l = id →
  ∃ p, find_first pi_is_focused (panes l area) = Some p ∧ p ∈ panes l area ∧ pi_id p = id.
Proof.
  intros [_ Hf _ Hok] Hfit <-.
  destruct (collect_panes_spec (tl_root l) area (tl_focus l) Hfit Hok) as (Hids & Hall & _).
  fold (panes l area) in Hids, Hall. rewrite Forall_forall in Hall. fold (pane_ids l) in Hids.
  unfold find_first. destruct (List.find pi_is_focused (panes l area)) as [p|] eqn:Hfind.
  - apply find_some in Hfind as [Hin%list_elem_of_In Hfoc]. exists p. split_and!; [done..|].
    destruct (Hall p Hin) as (_ & Heq & _). rewrite Hfoc in Heq. by apply N.eqb_eq.
  - rewrite <- Hids in Hf. apply list_elem_of_fmap in Hf as (p & Hid & Hin).
    pose proof (find_none _ _ Hfind p (proj1 (list_elem_of_In _ _) Hin)) as Hno.
    destruct (Hall p Hin) as (_ & Heq & _). rewrite Hno, <- Hid, N.eqb_refl in Heq. done.
Qed.

(** Resizing a pane moves the nearest split of the direction's axis at the
    pane's edge on that side, or else at its opposite edge, by adding the
    amount to its ratio or subtracting it, between a tenth and nine tenths;
    every other ratio, the shape and the focus stay, and when there is no such
    split nothing changes. *)
Theorem resize_moves_one_split (next : N) (l : TileLayout) (id : PaneId) (nav : NavDirection)
    (delta : f32) (area : Rect) (Hwf : layout_wf next l) (Hid : id ∈ pane_ids l) (Hfit : fits area) :
  let l' := (resize_pane l id nav delta area).1 in
  tl_focus l' = tl_focus l
  ∧ ∃ p, p ∈ panes (l <| tl_focus := id |>) area ∧ pi_id p = id ∧
    ((∃ s side, resizable area l (pi_rect p) (nav_axis nav) side s
        ∧ (side = nav ∨ side = opposite_direction nav
                       ∧ ∀ t, ¬ resizable area l (pi_rect p) (nav_axis nav) nav t)
        ∧ (∀ t, resizable area l (pi_rect p) (nav_axis nav) side t →
             (split_edge_distance s (pi_rect p) side ≤ split_edge_distance t (pi_rect p) side)%N)
        ∧ ∀ q, get_ratio_at (tl_root l') q
               = if bool_decide (q = sb_path s)
                 then Some (f32_clamp (f32_add (sb_ratio s) (if nav_grows nav then delta else f32_neg delta))
                              f32_0_1 f32_0_9)
                 else get_ratio_at (tl_root l) q)
     ∨ (l' = l ∧ ∀ t side, side = nav ∨ side = opposite_direction nav →
          ¬ resizable area l (pi_rect p) (nav_axis nav) side t)).
Proof.
  cbv zeta. unfold resize_pane. rewrite (proj2 (contains_true _ _) Hid). cbn [negb fst].
  set (l0 := l <| tl_focus := id |>).
  split; [done|].
  assert (Hwf0 : layout_wf next l0) by (destruct Hwf; by constructor).
  destruct (focused_pane next l0 area id Hwf0 Hfit eq_refl) as (p & Hfirst & Hin & Hpid).
  exists p. split_and!; [done..|]. rewrite resize_focused_eq. unfold resized_split. rewrite Hfirst.
  cbn [mbind option_bind].
  assert (Hmoved : ∀ s, s ∈ splits l area → ∀ q,
    get_ratio_at (tl_root ((set_ratio_at l0 (sb_path s) (resized_ratio l0 nav delta s)).1
                             <| tl_focus := tl_focus l |>)) q
    = if bool_decide (q = sb_path s)
      then Some (f32_clamp (f32_add (sb_ratio s) (if nav_grows nav then delta else f32_neg delta)) f32_0_1 f32_0_9)
      else get_ratio_at (tl_root l) q).
  { intros s (path & Hpath & Hr)%collect_splits_paths q. cbn in Hpath. unfold set_ratio_at, resized_ratio.
    change (tl_root l0) with (tl_root l). rewrite Hpath, Hr. cbn [default].
    pose proof (get_set_ratio (tl_root l) path) as Hgs.
    set (r' := f32_clamp _ _ _) in *. specialize (Hgs r' q).
    destruct (node_set_ratio_at (tl_root l) path r') as [root c]. cbn in Hgs |- *. rewrite Hgs.
    case_bool_decide as Hq; [|done]. subst q. by rewrite Hr. }
  pose proof (nearest_resize_split_spec l area (nav_axis nav) (pi_rect p) nav) as Hnear.
  pose proof (nearest_resize_split_spec l area (nav_axis nav) (pi_rect p) (opposite_direction nav)) as Hfar.
  change (splits l0 area) with (splits l area).
  destruct (nearest_resize_split (splits l area) (nav_axis nav) (pi_rect p) nav) as [s|].
  - left. exists s, nav. destruct Hnear as [Hs Hle]. split_and!; [done|by left|done|].
    apply Hmoved, Hs.
  - destruct (nearest_resize_split (splits l area) (nav_axis nav) (pi_rect p) (opposite_direction nav)) as [s|].
    + left. exists s, (opposite_direction nav). destruct Hfar as [Hs Hle].
      split_and!; [done|by right|done|]. apply Hmoved, Hs.
    + right. split; [by destruct l|]. by intros t side [->| ->].
Qed.
End resize_spec.

(** ** The theorems at work *)

Module LayoutDemo.

(** A constructor that cuts what does not fit *)
#[local] Instance cutting_rect : RectNew := λ x y w h,
  mkRect x y (N.min w (u16_max - x)) (N.min h (u16_max - y)).
#[local] Instance cutting_rect_spec : RectNewSpec.
Proof. intros x y w h Hx Hy. unfold rect_new, cutting_rect. f_equal; lia. Qed.

Definition f32_0_3 : f32 := S754_finite false 10066330 (-25).
Definition f32_0_4 : f32 := S754_finite false 13421773 (-25).
Definition f32_0_6 : f32 := S754_finite false 10066330 (-24).
Definition f32_0_05 : f32 := S754_finite false 13421773 (-28).
Definition screen : Rect := mkRect 0 0 100 40.

(** The layout of the unit tests *)
Definition sample_layout : TileLayout :=
  mkTileLayout
    (Node.Split Direction.Horizontal f32_0_3 (Node.Pane 1)
      (Node.Split Direction.Vertical f32_0_6 (Node.Pane 2)
        (Node.Split Direction.Horizontal f32_0_4 (Node.Pane 3) (Node.Pane 4)))) 2.

Example sample_rects :
  (λ p, (pi_id p, pi_rect p)) <$> panes sample_layout screen
  = [(1, mkRect 0 0 30 40); (2, mkRect 30 0 70 24); (3, mkRect 30 24 28 16); (4, mkRect 58 24 42 16)]%N.
Proof. vm_compute. reflexivity. Qed.

Example sample_resize :
  let '(l, changed) := resize_pane sample_layout 1 NavDirection.Right f32_0_05 screen in
  changed = true ∧ tl_focus l = 2%N
  ∧ (λ p, (pi_id p, pi_rect p)) <$> panes l screen
    = [(1, mkRect 0 0 35 40); (2, mkRect 35 0 65 24); (3, mkRect 35 24 26 16); (4, mkRect 61 24 39 16)]%N.
Proof. vm_compute. repeat split. Qed.

Lemma sample_wf : layout_wf 5 sample_layout.
Proof.
  constructor; cbn.
  - repeat constructor; set_solver.
  - set_solver.
  - repeat constructor.
  - repeat split; right; vm_compute; split; done.
Qed.

(** A saved ratio is used as it is: beyond one, a pane leaves the area. *)
Example saved_ratio_leaves_area :
  let l := mkTileLayout (Node.Split Direction.Horizontal (S754_finite false 8388608 (-22))
             (Node.Pane 1) (Node.Pane 2)) 1 in
  pi_rect <$> panes l screen = [mkRect 0 0 200 40; mkRect 200 0 0 40]%N.
Proof. vm_compute. reflexivity. Qed.

Definition two_panes : TileLayout :=
  mkTileLayout (Node.Split Direction.Vertical f32_0_3 (Node.Pane 1) (Node.Pane 2)) 2.

Example layout_invariant_witness :
  layout_wf 3 two_panes
  ∧ ∀ x y, length (covering x y (panes two_panes screen)) = if inside screen x y then 1 else 0.
Proof.
  assert (Hsteps : rtc layout_step ((TileLayout_new 1).2, (TileLayout_new 1).1.1) (3%N, two_panes)).
  { apply rtc_once. refine (step_split 2 _ _ 2 3 Direction.Vertical f32_0_3 _ _ _); reflexivity. }
  assert (Hnext : (1 + 1 < 2 ^ 32)%N) by reflexivity.
  assert (Hfit : fits screen) by (split; discriminate).
  split; [exact (proj1 (layout_invariant 1 (3%N, two_panes) Hnext Hsteps))|].
  exact (proj2 (proj2 (proj2 (proj2 (layout_invariant 1 (3%N, two_panes) Hnext Hsteps)) screen Hfit))).
Defined.

Example layout_refines_order_witness :
  order_of (swap_panes sample_layout 2 4).1 = mkPaneOrder [1; 4; 3; 2]%N 2
  ∧ ∃ l' closed, close_focused sample_layout = Some (l', closed)
      ∧ (order_of l', closed) = (mkPaneOrder [1; 3; 4]%N 3, true).
Proof.
  pose proof (layout_refines_order 5 sample_layout sample_wf) as (_ & _ & Hclose & _ & Hswap & _).
  split; [exact (proj2 (Hswap 2 4)%N)|exact Hclose].
Defined.

Example close_undoes_split_witness :
  ∃ focus,
    close_focused (split_focused_with_ratio 5 sample_layout Direction.Vertical f32_0_5).1.1
    = Some ({| tl_root := tl_root sample_layout; tl_focus := focus |}, true).
Proof.
  destruct (close_undoes_split 5 sample_layout Direction.Vertical f32_0_5 sample_wf) as (focus & Hc & _).
  exists focus. exact Hc.
Defined.

Definition pane_3 : PaneInfo := mkPaneInfo 3 (mkRect 30 24 28 16) (mkRect 30 24 28 16) None 0 false.

Example move_reaches_neighbour_witness :
  find_in_direction pane_3 NavDirection.Up (panes sample_layout screen) = Some 2%N
  ∧ at_border screen (pi_rect pane_3) NavDirection.Up = false.
Proof.
  assert (Hdrawn : ∀ p, p ∈ panes sample_layout screen → nonempty_rect (pi_rect p)).
  { apply Forall_forall. vm_compute. repeat constructor. }
  assert (Hf : pane_3 ∈ panes sample_layout screen) by (vm_compute; do 2 right; left).
  assert (Hfit : fits screen) by (split; discriminate).
  split; [vm_compute; reflexivity|].
  exact (proj1 (move_reaches_neighbour 5 sample_layout screen pane_3 NavDirection.Up sample_wf Hfit Hf Hdrawn)).
Defined.

Example resize_moves_one_split_witness :
  tl_focus (resize_pane sample_layout 1 NavDirection.Right f32_0_05 screen).1 = tl_focus sample_layout.
Proof.
  assert (Hid : 1%N ∈ pane_ids sample_layout) by (vm_compute; left).
  assert (Hfit : fits screen) by (split; discriminate).
  exact (proj1 (resize_moves_one_split 5 sample_layout 1 NavDirection.Right f32_0_05 screen sample_wf Hid Hfit)).
Defined.
End LayoutDemo.
