(* ===== verification/Agents.v ===== *)
(** * Agents and their sessions ([src/detect/mod.rs], [src/agent_resume.rs])

    The agents the program knows, their labels and how a label is read; which
    hooks report the whole life of an agent; and references to the sessions of
    agents: which are accepted, how they are restored and how an agent is
    started again on one. *)

From S2P Require Export Text.

(** ** Agents *)

Module AgentState.
Inductive AgentState := Idle | Working | Blocked | Unknown.
#[export] Instance eq_dec : EqDecision AgentState.
Proof. solve_decision. Defined.
End AgentState.
Export (hints) AgentState.
Abbreviation AgentState := AgentState.AgentState.

Module Agent.
Inductive Agent :=
| Pi | Claude | Codex | Gemini | Cursor | Devin | Antigravity | Cline | Omp | Mastracode | OpenCode
| GithubCopilot | Kimi | Kiro | Droid | Amp | Grok | Hermes | Kilo | Qodercli | Maki.
#[export] Instance eq_dec : EqDecision Agent.
Proof. solve_decision. Defined.
End Agent.
Export (hints) Agent.
Abbreviation Agent := Agent.Agent.

Definition agent_label (agent : Agent) : string :=
  match agent with
  | Agent.Pi => "pi"
  | Agent.Claude => "claude"
  | Agent.Codex => "codex"
  | Agent.Gemini => "gemini"
  | Agent.Cursor => "cursor"
  | Agent.Devin => "devin"
  | Agent.Antigravity => "agy"
  | Agent.Cline => "cline"
  | Agent.Omp => "omp"
  | Agent.Mastracode => "mastracode"
  | Agent.OpenCode => "opencode"
  | Agent.GithubCopilot => "copilot"
  | Agent.Kimi => "kimi"
  | Agent.Kiro => "kiro"
  | Agent.Droid => "droid"
  | Agent.Amp => "amp"
  | Agent.Grok => "grok"
  | Agent.Hermes => "hermes"
  | Agent.Kilo => "kilo"
  | Agent.Qodercli => "qodercli"
  | Agent.Maki => "maki"
  end.

(** The arms of [lookup_agent] *)
Definition agent_names : list (string * Agent) :=
  [("pi", Agent.Pi);
   ("claude", Agent.Claude); ("claude-code", Agent.Claude);
   ("codex", Agent.Codex);
   ("gemini", Agent.Gemini);
   ("cursor", Agent.Cursor); ("cursor-agent", Agent.Cursor);
   ("devin", Agent.Devin); ("devin-cli", Agent.Devin); ("devin cli", Agent.Devin);
   ("agy", Agent.Antigravity); ("antigravity", Agent.Antigravity); ("antigravity-cli", Agent.Antigravity);
   ("cline", Agent.Cline);
   ("omp", Agent.Omp);
   ("mastracode", Agent.Mastracode); ("mastra-code", Agent.Mastracode); ("mastra code", Agent.Mastracode);
   ("opencode", Agent.OpenCode); ("open-code", Agent.OpenCode);
   ("copilot", Agent.GithubCopilot); ("github-copilot", Agent.GithubCopilot); ("ghcs", Agent.GithubCopilot);
   ("kimi", Agent.Kimi); ("kimi-code", Agent.Kimi); ("kimi code", Agent.Kimi);
   ("kiro", Agent.Kiro); ("kiro-cli", Agent.Kiro);
   ("droid", Agent.Droid);
   ("amp", Agent.Amp); ("amp-local", Agent.Amp);
   ("grok", Agent.Grok); ("grok-build", Agent.Grok);
   ("hermes", Agent.Hermes); ("hermes-agent", Agent.Hermes);
   ("kilo", Agent.Kilo); ("kilo-code", Agent.Kilo); ("kilo code", Agent.Kilo);
   ("qodercli", Agent.Qodercli); ("qoderclicn", Agent.Qodercli); ("qoder", Agent.Qodercli);
   ("qodercn", Agent.Qodercli);
   ("maki", Agent.Maki)].

(** Names are compared as their characters. *)
Definition lookup_agent (name : list N) : option Agent :=
  snd <$> find_first (λ p, bool_decide (chars p.1 = name)) agent_names.

(** [char::to_lowercase], exactly for the characters whose lower case has an
    ASCII character: the Latin capitals, the Kelvin sign and the dotted
    capital I.  All others stay outside ASCII, where no name is. *)
Definition char_to_lowercase (c : N) : list N :=
  (if (65 <=? c) && (c <=? 90) then [c + 32]
   else if c =? 8490 then [107]
   else if c =? 304 then [105; 775]
   else [c])%N.

Definition chars_end_with (suffix cs : list N) : bool :=
  bool_decide (drop (length cs - length suffix) cs = suffix).

Definition executable_suffixes : list string := [".exe"; ".cmd"; ".bat"; ".ps1"; ".js"].

(** The first of the suffixes the name has is cut off. *)
Definition normalized_agent_lookup_name (name : string) : list N :=
  let name := trim (chars name) ≫= char_to_lowercase in
  match find_first (λ suffix, chars_end_with (chars suffix) name) executable_suffixes with
  | Some suffix => take (length name - length (chars suffix)) name
  | None => name
  end.

Definition parse_canonical_agent_label (label : list N) : option Agent :=
  agent ← lookup_agent label;
  if bool_decide (chars (agent_label agent) = label) then Some agent else None.

Definition parse_agent_label (agent : string) : option Agent :=
  let name := normalized_agent_lookup_name agent in
  match parse_canonical_agent_label name with
  | Some agent => Some agent
  | None => lookup_agent name
  end.

(** The hooks that report every state of their agent *)
Definition full_lifecycle_hooks : list (string * string) :=
  [("nagi:pi", "pi"); ("nagi:omp", "omp"); ("nagi:mastracode", "mastracode"); ("nagi:hermes", "hermes");
   ("nagi:opencode", "opencode"); ("nagi:kilo", "kilo"); ("nagi:kimi", "kimi")].

Definition full_lifecycle_hook_authority (source agent_label : string) : bool :=
  bool_decide ((source, agent_label) ∈ full_lifecycle_hooks).

(** ** Sessions *)

Definition MAX_SESSION_ID_LEN : N := 512.
Definition MAX_SESSION_PATH_LEN : N := 4096.

Module AgentSessionRefKind.
Inductive AgentSessionRefKind := Id | Path.
#[export] Instance eq_dec : EqDecision AgentSessionRefKind.
Proof. solve_decision. Defined.
End AgentSessionRefKind.
Export (hints) AgentSessionRefKind.
Abbreviation AgentSessionRefKind := AgentSessionRefKind.AgentSessionRefKind.

Record AgentSessionRef := mkAgentSessionRef { sr_kind : AgentSessionRefKind; sr_value : string }.
#[export] Instance AgentSessionRef_eq_dec : EqDecision AgentSessionRef.
Proof. solve_decision. Defined.

Record AgentResumePlan := mkAgentResumePlan {
  rp_agent : string;
  rp_argv : list string;
  rp_dedupe_key : string;
}.

Record PersistedAgentSession := mkPersistedAgentSession {
  ps_source : string;
  ps_agent : string;
  ps_session_ref : AgentSessionRef;
}.
#[export] Instance PersistedAgentSession_eq_dec : EqDecision PersistedAgentSession.
Proof. solve_decision. Defined.

Definition valid_session_id (value : string) : bool :=
  negb (str_is_empty value) && (str_len value <=? MAX_SESSION_ID_LEN)%N
  && negb (existsb is_control (chars value)).

Definition valid_session_path (value : string) : bool :=
  negb (str_is_empty value) && (str_len value <=? MAX_SESSION_PATH_LEN)%N
  && negb (existsb is_control (chars value)) && path_is_absolute value.

Definition AgentSessionRef_id (value : string) : option AgentSessionRef :=
  if valid_session_id value then Some (mkAgentSessionRef AgentSessionRefKind.Id value) else None.

Definition AgentSessionRef_path (value : string) : option AgentSessionRef :=
  if valid_session_path value then Some (mkAgentSessionRef AgentSessionRefKind.Path value) else None.

Definition official_sources : list (string * string) :=
  [("nagi:claude", "claude"); ("nagi:codex", "codex"); ("nagi:copilot", "copilot"); ("nagi:devin", "devin");
   ("nagi:droid", "droid"); ("nagi:kimi", "kimi"); ("nagi:omp", "omp"); ("nagi:mastracode", "mastracode");
   ("nagi:pi", "pi"); ("nagi:hermes", "hermes"); ("nagi:opencode", "opencode");
   ("nagi:qodercli", "qodercli"); ("nagi:kilo", "kilo"); ("nagi:cursor", "cursor")].

Definition is_official_agent_source (source agent : string) : bool :=
  bool_decide ((source, agent) ∈ official_sources).

(** The agents whose sessions may be files *)
Definition has_session_paths (agent : string) : bool :=
  bool_decide (agent = "pi") || bool_decide (agent = "omp").

Definition session_ref_from_report (source agent : string) (agent_session_id agent_session_path : option string) :
    option AgentSessionRef :=
  if negb (is_official_agent_source source agent) then None
  else if has_session_paths agent then
    match agent_session_path ≫= AgentSessionRef_path with
    | Some session_ref => Some session_ref
    | None => agent_session_id ≫= AgentSessionRef_id
    end
  else agent_session_id ≫= AgentSessionRef_id.

Definition session_start_sources : list string := ["startup"; "resume"; "clear"; "compact"; "new"; "fork"].

Definition normalize_session_start_source (value : option string) : option string :=
  value ← value;
  find_first (λ source, bool_decide (chars source = trim (chars value))) session_start_sources.

Definition is_reserved_native_state_source (source agent : string) : bool :=
  bool_decide ((source, agent) ∈
    [("nagi:claude", "claude"); ("nagi:codex", "codex"); ("nagi:copilot", "copilot"); ("nagi:devin", "devin");
     ("nagi:droid", "droid"); ("nagi:qodercli", "qodercli"); ("nagi:cursor", "cursor")]).

Definition session_ref_from_snapshot (source agent : string) (kind : AgentSessionRefKind) (value : string) :
    option PersistedAgentSession :=
  if negb (is_official_agent_source source agent) then None
  else
    session_ref ←
      match kind with
      | AgentSessionRefKind.Path => if has_session_paths agent then AgentSessionRef_path value else None
      | AgentSessionRefKind.Id => AgentSessionRef_id value
      end;
    Some (mkPersistedAgentSession source agent session_ref).

(** The format ["{source}\0{agent}\0{:?}\0{}"] *)
Definition dedupe_key (source agent : string) (session_ref : AgentSessionRef) : string :=
  let nul := String "000"%char "" in
  let kind :=
    match sr_kind session_ref with AgentSessionRefKind.Id => "Id" | AgentSessionRefKind.Path => "Path" end in
  source +:+ nul +:+ agent +:+ nul +:+ kind +:+ nul +:+ sr_value session_ref.

(** The command line of each agent, and whether it takes paths *)
Definition resume_commands (value : string) : list (string * string * bool * list string) :=
  [("nagi:claude", "claude", false, ["claude"; "--resume"; value]);
   ("nagi:codex", "codex", false, ["codex"; "resume"; value]);
   ("nagi:copilot", "copilot", false, ["copilot"; "--resume=" +:+ value]);
   ("nagi:devin", "devin", false, ["devin"; "--resume"; value]);
   ("nagi:droid", "droid", false, ["droid"; "--resume"; value]);
   ("nagi:kimi", "kimi", false, ["kimi"; "--session"; value]);
   ("nagi:mastracode", "mastracode", false, ["mastracode"; "--thread"; value]);
   ("nagi:pi", "pi", true, ["pi"; "--session"; value]);
   ("nagi:omp", "omp", true, ["omp"; "--resume=" +:+ value]);
   ("nagi:hermes", "hermes", false, ["hermes"; "--resume"; value]);
   ("nagi:opencode", "opencode", false, ["opencode"; "--session"; value]);
   ("nagi:qodercli", "qodercli", false, ["qodercli"; "--resume"; value]);
   ("nagi:kilo", "kilo", false, ["kilo"; "--session"; value]);
   ("nagi:cursor", "cursor", false, ["cursor-agent"; "--resume"; value])].

Definition resume_plan (source agent : string) (session_ref : AgentSessionRef) : option AgentResumePlan :=
  if negb (is_official_agent_source source agent) then None
  else
    command ← find_first (λ '(s, a, paths, _),
        bool_decide (source = s) && bool_decide (agent = a)
        && match sr_kind session_ref with AgentSessionRefKind.Id => true | AgentSessionRefKind.Path => paths end)
      (resume_commands (sr_value session_ref));
    Some (mkAgentResumePlan agent command.2 (dedupe_key source agent session_ref)).

(** ** Labels *)

(** Every label is read back, so the label of an agent determines it. *)
Lemma parse_agent_label_of agent : parse_agent_label (agent_label agent) = Some agent.
Proof. by destruct agent; vm_compute. Qed.

(** ** Sessions are restored *)

Lemma official_cases source agent (P : Prop) :
  is_official_agent_source source agent = true →
  Forall (λ sa, sa = (source, agent) → P) official_sources → P.
Proof.
  unfold is_official_agent_source. intros Hin%bool_decide_eq_true HP.
  by apply (proj1 (Forall_forall _ _) HP _ Hin).
Qed.

Lemma session_ref_from_report_valid source agent id path r :
  session_ref_from_report source agent id path = Some r →
  is_official_agent_source source agent = true
  ∧ match sr_kind r with
    | AgentSessionRefKind.Id => valid_session_id (sr_value r) = true
    | AgentSessionRefKind.Path => valid_session_path (sr_value r) = true ∧ has_session_paths agent = true
    end.
Proof.
  assert (Hid : ∀ id', id' ≫= AgentSessionRef_id = Some r →
                sr_kind r = AgentSessionRefKind.Id ∧ valid_session_id (sr_value r) = true).
  { intros id' (v & _ & Hv)%bind_Some. unfold AgentSessionRef_id in Hv.
    destruct (valid_session_id v) eqn:Hvalid; by simplify_eq. }
  unfold session_ref_from_report. destruct (is_official_agent_source source agent); [|done]. cbn [negb].
  destruct (has_session_paths agent).
  - destruct (path ≫= AgentSessionRef_path) as [r'|] eqn:Hpath.
    + intros [= ->]. split; [done|]. apply bind_Some in Hpath as (v & _ & Hv).
      unfold AgentSessionRef_path in Hv. destruct (valid_session_path v) eqn:Hvalid; by simplify_eq.
    + intros [Hk Hv]%Hid. by rewrite Hk.
  - intros [Hk Hv]%Hid. by rewrite Hk.
Qed.

(** A session an agent reports is restored from a snapshot as it was, and the
    agent can be started on it again. *)
Theorem reported_session_is_restored (source agent : string) (id path : option string) (r : AgentSessionRef) :
  session_ref_from_report source agent id path = Some r →
  session_ref_from_snapshot source agent (sr_kind r) (sr_value r) = Some (mkPersistedAgentSession source agent r)
  ∧ ∃ plan, resume_plan source agent r = Some plan ∧ rp_agent plan = agent
            ∧ last (rp_argv plan) ∈ [Some (sr_value r); Some ("--resume=" +:+ sr_value r)].
Proof.
  intros [Hoff Hr]%session_ref_from_report_valid. split.
  - unfold session_ref_from_snapshot. rewrite Hoff. cbn [negb].
    unfold AgentSessionRef_id, AgentSessionRef_path. destruct r as [[] v]; cbn in *.
    + by rewrite Hr.
    + destruct Hr as [Hv Hp]. by rewrite Hp, Hv.
  - unfold resume_plan. rewrite Hoff. cbn [negb].
    assert (Hpaths : sr_kind r = AgentSessionRefKind.Path → has_session_paths agent = true).
    { intros Hk. rewrite Hk in Hr. apply Hr. }
    clear Hr. revert Hpaths. apply (official_cases source agent); [done|].
    destruct r as [[] v]; cbn [sr_kind sr_value];
      repeat (constructor; [intros [= <- <-] Hpaths;
                            first [ specialize (Hpaths eq_refl); vm_compute in Hpaths; discriminate Hpaths
                                  | eexists; split_and!; [reflexivity|reflexivity|cbn; set_solver] ]|]);
      constructor.
Qed.

Lemma official_no_nul source agent :
  is_official_agent_source source agent = true →
  "000"%char ∉ str_bytes source ∧ "000"%char ∉ str_bytes agent.
Proof.
  intros Hoff. assert (Hno : ∀ s, str_contains "000" s = false → "000"%char ∉ str_bytes s).
  { intros s Hs Hin%elem_of_str_contains. congruence. }
  apply (official_cases source agent); [done|].
  repeat (constructor; [intros [= <- <-]; by split; apply Hno; vm_compute|]). constructor.
Qed.

(** The key of a session names its source, its agent and the session. *)
Theorem dedupe_key_injective (source source' agent agent' : string) (r r' : AgentSessionRef) :
  is_official_agent_source source agent = true → is_official_agent_source source' agent' = true →
  dedupe_key source agent r = dedupe_key source' agent' r' →
  source = source' ∧ agent = agent' ∧ r = r'.
Proof.
  intros Hs Hs' Heq.
  assert (Hkey : ∀ s a (k : AgentSessionRef), str_bytes (dedupe_key s a k)
    = nul_terminated s ++ nul_terminated a
      ++ nul_terminated (match sr_kind k with AgentSessionRefKind.Id => "Id" | AgentSessionRefKind.Path => "Path" end)
      ++ str_bytes (sr_value k)).
  { intros s a k. unfold dedupe_key, nul_terminated. rewrite !str_bytes_app. by rewrite <- !app_assoc. }
  apply (f_equal str_bytes) in Heq. rewrite !Hkey in Heq.
  destruct (official_no_nul _ _ Hs) as [Hn1 Hn2], (official_no_nul _ _ Hs') as [Hn1' Hn2'].
  apply nul_terminated_inj in Heq as [-> Heq]; [|done..].
  apply nul_terminated_inj in Heq as [-> Heq]; [|done..].
  split_and!; [done..|]. destruct r as [k v], r' as [k' v']; cbn [sr_kind sr_value] in Heq.
  apply nul_terminated_inj in Heq as [Hk Hv%str_bytes_inj]; [|by destruct k; vm_compute; set_solver..|
    by destruct k'; vm_compute; set_solver].
  subst v'. by destruct k, k'.
Qed.

Module AgentsDemo.
Definition session : AgentSessionRef := mkAgentSessionRef AgentSessionRefKind.Id "0b7e".

Lemma reported_session_is_restored_witness :
  session_ref_from_snapshot "nagi:codex" "codex" AgentSessionRefKind.Id "0b7e"
  = Some (mkPersistedAgentSession "nagi:codex" "codex" session).
Proof.
  refine (proj1 (reported_session_is_restored "nagi:codex" "codex" (Some "0b7e") None session _)).
  vm_compute. reflexivity.
Defined.

Lemma dedupe_key_injective_witness :
  "nagi:codex" = "nagi:codex" ∧ "codex" = "codex" ∧ session = mkAgentSessionRef AgentSessionRefKind.Id "0b7e".
Proof.
  apply (dedupe_key_injective "nagi:codex" "nagi:codex" "codex" "codex" session
           (mkAgentSessionRef AgentSessionRefKind.Id "0b7e")); vm_compute; reflexivity.
Defined.
End AgentsDemo.
