(* ===== verification/Terminals.v ===== *)
(** * What is known of the agent in a terminal ([src/terminal/state.rs],
    [src/terminal/metadata.rs], [src/terminal/title.rs], [src/metadata_tokens.rs])

    A terminal learns of its agent from what is on the screen (detection), from
    the hooks the agent calls (reports, with sequence numbers and sessions) and
    from metadata with a time to live; [TerminalState] decides what counts.
    Instants are nanoseconds; an operation that reads the clock takes what it
    reads, [now] first and [clock] where it reads it again.  The order in which
    a [HashMap] is iterated over is the class [HashOrder]. *)

From S2P Require Export Agents.

(** ** Time and iteration *)

(** [Instant] on Linux: seconds in 63 bits, and nanoseconds *)
Definition instant_max : N := 2 ^ 63 * 10 ^ 9 - 1.

(** [HashMap::iter]: some order of the entries *)
Class HashOrder := hash_entries : ∀ K `{Countable K} A, gmap K A → list (K * A).
Arguments hash_entries {_} {_ _ _ _} _ : assert.

(** The order depends on the keys. *)
Class HashOrderSpec {H : HashOrder} : Prop := {
  hash_entries_perm `{Countable K} A (m : gmap K A) : hash_entries m ≡ₚ map_to_list m;
  hash_entries_imap `{Countable K} A B (f : K → A → B) (m : gmap K A) :
    hash_entries (map_imap (λ k x, Some (f k x)) m) = (λ kx, (kx.1, f kx.1 kx.2)) <$> hash_entries m;
}.

Definition hash_values `{HashOrder} `{Countable K} {A} (m : gmap K A) : list A := (hash_entries m).*2.

(** ** Strings *)

Definition chars_len (cs : list N) : N := foldr (λ c n, (len_utf8 c + n)%N) 0%N cs.

(** [str::trim] as a string *)
Definition str_trim (s : string) : string :=
  let start := (str_len s - chars_len (trim_start (chars s)))%N in
  str_of_bytes (take (N.to_nat (trim_len s)) (drop (N.to_nat start) (str_bytes s))).

(** The activity glyphs of [title.rs], and the braille patterns *)
Definition CLAUDE_ACTIVITY_GLYPHS : list N := [183; 10018; 10035; 10038; 10043; 10045]%N.

Definition stripped_terminal_title (title : string) : option (list N) :=
  match trim (chars title) with
  | [] => None
  | first :: after_first =>
      let recognized := (10240 <=? first)%N && (first <=? 10495)%N
                        || bool_decide (first ∈ CLAUDE_ACTIVITY_GLYPHS) in
      let bounded := match after_first with [] => true | c :: _ => is_whitespace c end in
      let stripped := if recognized && bounded then trim after_first else first :: after_first in
      if bool_decide (stripped = []) then None else Some stripped
  end.

(** ** Metadata tokens *)

Definition MAX_SEQUENCE_SOURCES : nat := 32.

Record MetadataToken := mkMetadataToken { mt_value : string; mt_expires_at : option N }.
#[export] Instance MetadataToken_eq_dec : EqDecision MetadataToken.
Proof. solve_decision. Defined.

Definition MetadataTokens := gmap string MetadataToken.

Definition sequence_is_fresh (sequences : gmap string N) (source : string) (seq : option N) : bool :=
  match seq with
  | None => true
  | Some seq => match sequences !! source with Some last => (last <? seq)%N | None => true end
  end.

Definition accept_sequence (sequences : gmap string N) (source : string) (seq : option N) :
    gmap string N * result unit bool :=
  match seq with
  | None => (sequences, Ok true)
  | Some s =>
      if negb (sequence_is_fresh sequences source (Some s)) then (sequences, Ok false)
      else if negb (bool_decide (is_Some (sequences !! source))) && (MAX_SEQUENCE_SOURCES <=? size sequences)
      then (sequences, Err tt)
      else (<[source := s]> sequences, Ok true)
  end.

Definition instant_checked_add (t d : N) : option N := checked_add instant_max t d.

Definition patch_token (expires_at : option N) (acc : MetadataTokens * bool) (kv : string * option string) :
    MetadataTokens * bool :=
  let '(entries, changed) := acc in
  match kv.2 with
  | Some value =>
      let token := mkMetadataToken value expires_at in
      if bool_decide (entries !! kv.1 = Some token) then (entries, changed)
      else (<[kv.1 := token]> entries, true)
  | None => (delete kv.1 entries, changed || bool_decide (is_Some (entries !! kv.1)))
  end.

Definition patch_tokens `{HashOrder} (entries : MetadataTokens) (patch : gmap string (option string))
    (ttl : option N) (now : N) : MetadataTokens * bool :=
  let expires_at := ttl ≫= instant_checked_add now in
  foldl (patch_token expires_at) (entries, false) (hash_entries patch).

Definition token_values (entries : MetadataTokens) : gmap string string := mt_value <$> entries.

Definition key_count_after_patch `{HashOrder} (entries : MetadataTokens)
    (patch : gmap string (option string)) : nat :=
  size (foldl (λ (keys : gset string) (kv : string * option string),
                 match kv.2 with Some _ => {[kv.1]} ∪ keys | None => keys ∖ {[kv.1]} end)
          (dom (token_values entries)) (hash_entries patch)).

Definition next_token_expiry `{HashOrder} (entries : MetadataTokens) : option N :=
  match omap mt_expires_at (hash_values entries) with
  | [] => None
  | d :: ds => Some (foldr N.min d ds)
  end.

Definition token_live (now : N) (token : MetadataToken) : bool :=
  match mt_expires_at token with Some deadline => (now <? deadline)%N | None => true end.

Definition expire_tokens_at (entries : MetadataTokens) (now : N) : MetadataTokens * bool :=
  let kept := filter (λ kt, token_live now kt.2 = true) entries in
  (kept, negb (size kept =? size entries)).

(** ** State *)

Record HookAuthority := mkHookAuthority {
  ha_source : string;
  ha_agent_label : string;
  ha_state : AgentState;
  ha_message : option string;
  ha_reported_at : N;
  ha_session_ref : option AgentSessionRef;
}.

Module SuppressionReason.
Inductive FullLifecycleHookSuppressionReason := HookClear | ProcessExit.
#[export] Instance eq_dec : EqDecision FullLifecycleHookSuppressionReason.
Proof. solve_decision. Defined.
End SuppressionReason.
Export (hints) SuppressionReason.
Abbreviation FullLifecycleHookSuppressionReason := SuppressionReason.FullLifecycleHookSuppressionReason.

Record SuppressedFullLifecycleHookReport := mkSuppressed {
  su_agent_label : string;
  su_session_ref : option AgentSessionRef;
  su_observed_at : N;
  su_reason : FullLifecycleHookSuppressionReason;
}.

Record StaleFullLifecycleHookSession := mkStale {
  st_agent_label : string;
  st_session_ref : AgentSessionRef;
}.
#[export] Instance StaleFullLifecycleHookSession_eq_dec : EqDecision StaleFullLifecycleHookSession.
Proof. solve_decision. Defined.

Record AgentMetadata := mkAgentMetadata {
  am_source : string;
  am_agent_label : option string;
  am_applies_to_source : option string;
  am_title : option string;
  am_display_agent : option string;
  am_state_labels : gmap string string;
  am_reported_at : N;
  am_title_reported_at : option N;
  am_display_agent_reported_at : option N;
  am_state_label_reported_at : gmap string N;
  am_ttl : option N;
  am_expiry_event_pending : bool;
}.
#[export] Instance AgentMetadata_fields : Fields AgentMetadata := λ m,
  mkAgentMetadata (am_source m) (am_agent_label m) (am_applies_to_source m) (am_title m) (am_display_agent m)
    (am_state_labels m) (am_reported_at m) (am_title_reported_at m) (am_display_agent_reported_at m)
    (am_state_label_reported_at m) (am_ttl m) (am_expiry_event_pending m).

Record AgentMetadataReport := mkAgentMetadataReport {
  mr_source : string;
  mr_agent_label : option string;
  mr_applies_to_source : option string;
  mr_title : option string;
  mr_display_agent : option string;
  mr_state_labels : gmap string string;
  mr_clear_title : bool;
  mr_clear_display_agent : bool;
  mr_clear_state_labels : bool;
  mr_ttl : option N;
  mr_seq : option N;
}.

Record EffectivePresentation := mkEffectivePresentation {
  ep_title : option string;
  ep_display_agent : option string;
  ep_state_labels : gmap string string;
}.
#[export] Instance EffectivePresentation_eq_dec : EqDecision EffectivePresentation.
Proof. solve_decision. Defined.

Record EffectiveStateChange := mkEffectiveStateChange {
  ch_previous_agent_label : option string;
  ch_previous_known_agent : option Agent;
  ch_previous_state : AgentState;
  ch_previous_presentation : EffectivePresentation;
  ch_agent_label : option string;
  ch_known_agent : option Agent;
  ch_state : AgentState;
  ch_presentation : EffectivePresentation;
}.

Record TerminalStateMutation := mkTerminalStateMutation {
  mu_effective_state_change : option EffectiveStateChange;
  mu_session_ref_changed : bool;
}.

Record TerminalTitleChange := mkTerminalTitleChange { tc_raw_changed : bool; tc_stripped_changed : bool }.

Record TerminalState := mkTerminalState {
  tm_id : string;
  tm_cwd : string;
  tm_detected_agent : option Agent;
  tm_fallback_state : AgentState;
  tm_fallback_visible_blocker : bool;
  tm_fallback_observed_at : option N;
  tm_hook_authority : option HookAuthority;
  tm_agent_metadata : gmap string AgentMetadata;
  tm_metadata_tokens : MetadataTokens;
  tm_persisted_agent_session : option PersistedAgentSession;
  tm_terminal_title : option string;
  tm_manual_label : option string;
  tm_agent_name : option string;
  tm_hook_report_sequences : gmap string N;
  tm_suppressed : gmap string SuppressedFullLifecycleHookReport;
  tm_stale : gmap string (list StaleFullLifecycleHookSession);
  tm_metadata_report_sequences : gmap string N;
  tm_metadata_token_sequence_sources : gset string;
  tm_state : AgentState;
  tm_last_agent_state_change_seq : option N;
  tm_revision : N;
  tm_launch_argv : option (list string);
  tm_respawn_shell_on_exit : bool;
  tm_recent_agent_process_exit_at : option N;
  tm_pending_agent_resume_plan : option AgentResumePlan;
}.
#[export] Instance TerminalState_fields : Fields TerminalState := λ t,
  mkTerminalState (tm_id t) (tm_cwd t) (tm_detected_agent t) (tm_fallback_state t)
    (tm_fallback_visible_blocker t) (tm_fallback_observed_at t) (tm_hook_authority t) (tm_agent_metadata t)
    (tm_metadata_tokens t) (tm_persisted_agent_session t) (tm_terminal_title t) (tm_manual_label t)
    (tm_agent_name t) (tm_hook_report_sequences t) (tm_suppressed t) (tm_stale t)
    (tm_metadata_report_sequences t) (tm_metadata_token_sequence_sources t) (tm_state t)
    (tm_last_agent_state_change_seq t) (tm_revision t) (tm_launch_argv t) (tm_respawn_shell_on_exit t)
    (tm_recent_agent_process_exit_at t) (tm_pending_agent_resume_plan t).

Definition TerminalState_new (id cwd : string) : TerminalState :=
  mkTerminalState id cwd None AgentState.Unknown false None None ∅ ∅ None None None None ∅ ∅ ∅ ∅ ∅
    AgentState.Unknown None 0 None false None None.

(** ** What a terminal shows *)

Definition effective_agent_label (t : TerminalState) : option string :=
  match tm_hook_authority t with
  | Some authority => Some (ha_agent_label authority)
  | None => agent_label <$> tm_detected_agent t
  end.

Definition effective_known_agent (t : TerminalState) : option Agent :=
  match tm_hook_authority t with
  | Some authority => parse_agent_label (ha_agent_label authority)
  | None => tm_detected_agent t
  end.

Definition live_full_lifecycle_hook_authority (t : TerminalState) : bool :=
  match tm_hook_authority t with
  | Some authority => full_lifecycle_hook_authority (ha_source authority) (ha_agent_label authority)
  | None => false
  end.

Definition hook_authority_not_newer_than (t : TerminalState) (observed_at : N) : bool :=
  match tm_hook_authority t with
  | Some authority => (ha_reported_at authority <=? observed_at)%N
  | None => true
  end.

Definition fallback_not_older_than_hook (t : TerminalState) : bool :=
  match tm_hook_authority t with
  | Some authority =>
      match tm_fallback_observed_at t with
      | Some observed_at => (ha_reported_at authority <=? observed_at)%N
      | None => false
      end
  | None => true
  end.

Definition visible_blocker_overrides_hook (t : TerminalState) : bool :=
  if live_full_lifecycle_hook_authority t then false
  else
    tm_fallback_visible_blocker t && fallback_not_older_than_hook t
    && match tm_hook_authority t with
       | Some authority =>
           negb (bool_decide (ha_state authority = AgentState.Blocked))
           && bool_decide (parse_agent_label (ha_agent_label authority) = tm_detected_agent t)
       | None => false
       end.

(** *** Presentation ([metadata.rs]) *)

Section presentation.
Context `{HOrder : HashOrder}.

Definition metadata_guards_match (t : TerminalState) (agent_label applies_to_source : option string) : bool :=
  if match agent_label with
     | Some agent => negb (bool_decide (effective_agent_label t = Some agent))
     | None => false
     end
  then false
  else
    negb (match applies_to_source with
          | Some source =>
              match tm_hook_authority t with
              | Some authority => negb (bool_decide (ha_source authority = source))
              | None => true
              end
          | None => false
          end).

Definition agent_metadata_matches_guards (t : TerminalState) (metadata : AgentMetadata) : bool :=
  metadata_guards_match t (am_agent_label metadata) (am_applies_to_source metadata).

Definition agent_metadata_expiry (metadata : AgentMetadata) : option N :=
  (λ ttl, default (am_reported_at metadata) (instant_checked_add (am_reported_at metadata) ttl))
    <$> am_ttl metadata.

Definition agent_metadata_is_expired (metadata : AgentMetadata) (now : N) : bool :=
  match agent_metadata_expiry metadata with Some deadline => (deadline <=? now)%N | None => false end.

Definition has_content (metadata : AgentMetadata) : bool :=
  bool_decide (is_Some (am_title metadata)) || bool_decide (is_Some (am_display_agent metadata))
  || negb (bool_decide (am_state_labels metadata = ∅)).

Definition agent_metadata_is_valid (t : TerminalState) (metadata : AgentMetadata) (now : N)
    (enforce_ttl : bool) : bool :=
  if negb (has_content metadata) then false
  else if enforce_ttl && agent_metadata_is_expired metadata now then false
  else agent_metadata_matches_guards t metadata.

Definition agent_metadata_is_visible_ignoring_ttl (t : TerminalState) (metadata : AgentMetadata) : bool :=
  has_content metadata && agent_metadata_matches_guards t metadata.

Definition valid_agent_metadata (t : TerminalState) (now : N) (enforce_ttl : bool) : list AgentMetadata :=
  List.filter (λ metadata, agent_metadata_is_valid t metadata now enforce_ttl)
    (hash_values (tm_agent_metadata t)).

(** [Option<Instant>]: [None] is least. *)
Definition option_instant (i : option N) : N := match i with Some t => N.succ t | None => 0 end.

Definition newest_metadata_title (t : TerminalState) (now : N) (enforce_ttl : bool) : option string :=
  max_by_key (λ m, option_instant (am_title_reported_at m))
    (List.filter (λ m, bool_decide (is_Some (am_title m))) (valid_agent_metadata t now enforce_ttl))
  ≫= am_title.

Definition newest_metadata_display_agent (t : TerminalState) (now : N) (enforce_ttl : bool) : option string :=
  max_by_key (λ m, option_instant (am_display_agent_reported_at m))
    (List.filter (λ m, bool_decide (is_Some (am_display_agent m))) (valid_agent_metadata t now enforce_ttl))
  ≫= am_display_agent.

Definition reported_label : Type := N * (string * string).
Definition label_order : relation reported_label := λ a b, (a.1 ≤ b.1)%N.
#[export] Instance label_order_dec : RelDecision label_order.
Proof. intros a b. unfold label_order. apply _. Defined.

Definition metadata_labels (metadata : AgentMetadata) : list reported_label :=
  omap (λ '(state, label),
          (λ reported_at, (reported_at, (state, label))) <$> am_state_label_reported_at metadata !! state)
    (hash_entries (am_state_labels metadata)).

Definition effective_metadata_state_labels (t : TerminalState) (now : N) (enforce_ttl : bool) :
    gmap string string :=
  collect_map (snd <$> merge_sort label_order (valid_agent_metadata t now enforce_ttl ≫= metadata_labels)).

Definition effective_presentation_with_ttl (t : TerminalState) (now : N) (enforce_ttl : bool) :
    EffectivePresentation :=
  mkEffectivePresentation (newest_metadata_title t now enforce_ttl)
    (newest_metadata_display_agent t now enforce_ttl) (effective_metadata_state_labels t now enforce_ttl).

Definition effective_presentation (t : TerminalState) (now : N) : EffectivePresentation :=
  effective_presentation_with_ttl t now true.

Definition effective_title (t : TerminalState) (now : N) : option string :=
  ep_title (effective_presentation t now).
Definition effective_display_agent (t : TerminalState) (now : N) : option string :=
  ep_display_agent (effective_presentation t now).

Definition next_agent_metadata_expiry (t : TerminalState) (now : N) : option N :=
  let values := hash_values (tm_agent_metadata t) in
  let deadlines :=
    List.filter (λ deadline,
        (now <? deadline)%N
        || existsb (λ m, am_expiry_event_pending m && agent_metadata_matches_guards t m
                         && bool_decide (agent_metadata_expiry m = Some deadline)) values)
      (omap agent_metadata_expiry (List.filter (agent_metadata_matches_guards t) values)) in
  match deadlines with [] => None | d :: ds => Some (foldr N.min d ds) end.

Definition clear_expiry_pending (t : TerminalState) (source : string) : TerminalState :=
  t <| tm_agent_metadata ::= alter (λ m, m <| am_expiry_event_pending := false |>) source |>.

Definition clear_expiry_pending_for_hidden_metadata (t : TerminalState) : TerminalState :=
  let hidden_sources :=
    (List.filter (λ sm, am_expiry_event_pending sm.2 && negb (agent_metadata_is_visible_ignoring_ttl t sm.2))
       (hash_entries (tm_agent_metadata t))).*1 in
  foldl clear_expiry_pending t hidden_sources.

(** *** The effective state *)

(** What an operation looks at before it changes anything *)
Record Observed := mkObserved {
  ob_agent_label : option string;
  ob_known_agent : option Agent;
  ob_state : AgentState;
  ob_presentation : EffectivePresentation;
}.

#[export] Instance Observed_fields : Fields Observed := λ o,
  mkObserved (ob_agent_label o) (ob_known_agent o) (ob_state o) (ob_presentation o).

Definition observe_terminal (t : TerminalState) (now : N) : Observed :=
  mkObserved (effective_agent_label t) (effective_known_agent t) (tm_state t) (effective_presentation t now).

Definition arbitrated_state (t : TerminalState) : AgentState :=
  if visible_blocker_overrides_hook t then AgentState.Blocked
  else match tm_hook_authority t with
       | Some authority => ha_state authority
       | None => tm_fallback_state t
       end.

Definition recompute_effective_state (t : TerminalState) (previous : Observed) (now : N) :
    TerminalState * option EffectiveStateChange :=
  let state := arbitrated_state t in
  let agent_label := effective_agent_label t in
  let known_agent := effective_known_agent t in
  let presentation := effective_presentation t now in
  let t := clear_expiry_pending_for_hidden_metadata t in
  if bool_decide (ob_agent_label previous = agent_label) && bool_decide (ob_state previous = state)
     && bool_decide (ob_presentation previous = presentation)
  then (t, None)
  else
    (t <| tm_state := state |>,
     Some (mkEffectiveStateChange (ob_agent_label previous) (ob_known_agent previous) (ob_state previous)
             (ob_presentation previous) agent_label known_agent state presentation)).

(** *** Sessions *)

(** The session to keep, as its source, agent and reference *)
Definition current_session_identity_for_persistence (t : TerminalState) :
    option (string * string * AgentSessionRef) :=
  match tm_hook_authority t ≫= λ a, (λ r, (ha_source a, ha_agent_label a, r)) <$> ha_session_ref a with
  | Some session => Some session
  | None => (λ s, (ps_source s, ps_agent s, ps_session_ref s)) <$> tm_persisted_agent_session t
  end.

Definition current_session_owner_conflicts (t : TerminalState) (source agent_label : string) : bool :=
  match current_session_identity_for_persistence t with
  | Some (current_source, current_agent, _) =>
      negb (bool_decide (current_source = source)) || negb (bool_decide (current_agent = agent_label))
  | None => false
  end.

(** The end of an operation: what changed, and whether the session did *)
Definition finish_mutation (t : TerminalState) (previous : Observed)
    (previous_session : option (string * string * AgentSessionRef)) (now : N) :
    TerminalState * TerminalStateMutation :=
  let current_session := current_session_identity_for_persistence t in
  let '(t, change) := recompute_effective_state t previous now in
  (t, mkTerminalStateMutation change (negb (bool_decide (previous_session = current_session)))).

(** *** Hooks that report the whole life of an agent *)

(** A report for a source is looked up under that source. *)
Definition suppressed_by (t : TerminalState) (source : string)
    (p : SuppressedFullLifecycleHookReport → bool) : bool :=
  match tm_suppressed t !! source with Some suppressed => p suppressed | None => false end.

Definition stale_sessions_of (t : TerminalState) (source : string) : list StaleFullLifecycleHookSession :=
  default [] (tm_stale t !! source).

Definition full_lifecycle_hook_report_is_suppressed (t : TerminalState) (source agent_label : string)
    (session_ref : option AgentSessionRef) : bool :=
  if negb (full_lifecycle_hook_authority source agent_label) then false
  else
    suppressed_by t source (λ suppressed,
      if negb (bool_decide (su_agent_label suppressed = agent_label)) then false
      else if bool_decide (su_reason suppressed = SuppressionReason.ProcessExit) then true
      else
        match su_session_ref suppressed, session_ref with
        | Some suppressed_ref, Some incoming_ref => bool_decide (incoming_ref = suppressed_ref)
        | Some _, None => true
        | None, Some _ => false
        | None, None => true
        end).

Definition has_fresh_session_after_suppression (t : TerminalState) (source agent_label : string)
    (session_ref : option AgentSessionRef) : bool :=
  if negb (full_lifecycle_hook_authority source agent_label) then false
  else
    suppressed_by t source (λ suppressed,
      bool_decide (su_agent_label suppressed = agent_label)
      && negb (bool_decide (su_reason suppressed = SuppressionReason.ProcessExit))
      && match su_session_ref suppressed, session_ref with
         | Some suppressed_ref, Some incoming_ref => negb (bool_decide (incoming_ref = suppressed_ref))
         | _, _ => false
         end).

Definition report_matches_stale_session (t : TerminalState) (source agent_label : string)
    (session_ref : option AgentSessionRef) : bool :=
  if negb (full_lifecycle_hook_authority source agent_label) then false
  else
    match session_ref with
    | Some incoming_ref => bool_decide (mkStale agent_label incoming_ref ∈ stale_sessions_of t source)
    | None => false
    end.

Definition has_fresh_session_after_stale_session (t : TerminalState) (source agent_label : string)
    (session_ref : option AgentSessionRef) : bool :=
  if negb (full_lifecycle_hook_authority source agent_label) then false
  else
    existsb (λ stale, bool_decide (st_agent_label stale = agent_label)) (stale_sessions_of t source)
    && match session_ref with
       | Some incoming_ref =>
           forallb (λ stale, negb (bool_decide (st_agent_label stale = agent_label))
                             || negb (bool_decide (incoming_ref = st_session_ref stale)))
             (stale_sessions_of t source)
       | None => false
       end.

Definition live_authority_conflicts_with_session (t : TerminalState) (source agent_label : string)
    (session_ref : option AgentSessionRef) : bool :=
  match tm_hook_authority t with
  | None => false
  | Some authority =>
      if negb (full_lifecycle_hook_authority (ha_source authority) (ha_agent_label authority)) then false
      else if negb (bool_decide (ha_source authority = source))
              || negb (bool_decide (ha_agent_label authority = agent_label)) then false
      else
        match ha_session_ref authority, session_ref with
        | Some current, Some incoming => negb (bool_decide (current = incoming))
        | _, _ => false
        end
  end.

Definition same_owner_authority_session_ref (t : TerminalState) (source agent_label : string)
    (session_ref : AgentSessionRef) : option AgentSessionRef :=
  authority ← tm_hook_authority t;
  if negb (full_lifecycle_hook_authority (ha_source authority) (ha_agent_label authority))
     || negb (bool_decide (ha_source authority = source))
     || negb (bool_decide (ha_agent_label authority = agent_label))
  then None
  else
    current ← ha_session_ref authority;
    if bool_decide (current = session_ref) then None else Some current.

Definition remember_stale_session (t : TerminalState) (source : string)
    (stale_session : StaleFullLifecycleHookSession) : TerminalState :=
  let sessions := stale_sessions_of t source in
  t <| tm_stale ::= <[source := if bool_decide (stale_session ∈ sessions) then sessions
                               else sessions ++ [stale_session]]> |>.

Definition remember_stale_sessions (t : TerminalState)
    (stale_sessions : list (string * StaleFullLifecycleHookSession)) : TerminalState :=
  foldl (λ t ss, remember_stale_session t ss.1 ss.2) t stale_sessions.

Definition forget_stale_session (t : TerminalState) (source agent_label : string)
    (session_ref : AgentSessionRef) : TerminalState :=
  match tm_stale t !! source with
  | None => t
  | Some sessions =>
      let sessions := filter (λ stale, stale ≠ mkStale agent_label session_ref) sessions in
      if bool_decide (sessions = []) then t <| tm_stale ::= delete source |>
      else t <| tm_stale ::= <[source := sessions]> |>
  end.

(** [clock] is read when the report is suppressed. *)
Definition suppress_report_with_session_ref (t : TerminalState) (source agent_label : string)
    (session_ref : option AgentSessionRef) (reason : FullLifecycleHookSuppressionReason) (clock : N) :
    TerminalState :=
  t <| tm_suppressed ::= <[source := mkSuppressed agent_label session_ref clock reason]> |>.

Definition suppress_current_authority (t : TerminalState) (reason : FullLifecycleHookSuppressionReason)
    (clock : N) : TerminalState :=
  match tm_hook_authority t with
  | Some authority =>
      if full_lifecycle_hook_authority (ha_source authority) (ha_agent_label authority) then
        suppress_report_with_session_ref t (ha_source authority) (ha_agent_label authority)
          (ha_session_ref authority) reason clock
      else t
  | None => t
  end.

Definition suppress_full_lifecycle_hook_report (t : TerminalState) (source agent_label : string)
    (reason : FullLifecycleHookSuppressionReason) (clock : N) : TerminalState :=
  if full_lifecycle_hook_authority source agent_label then
    suppress_report_with_session_ref t source agent_label (tm_hook_authority t ≫= ha_session_ref) reason clock
  else t.

Definition suppresses_agent (agent : Agent) (suppressed : SuppressedFullLifecycleHookReport) : bool :=
  bool_decide (parse_agent_label (su_agent_label suppressed) = Some agent).

Definition clear_suppression_for_detected_agent (t : TerminalState)
    (previous_detected_agent detected_agent : option Agent) : TerminalState :=
  match detected_agent with
  | None => t
  | Some detected_agent =>
      if bool_decide (previous_detected_agent = Some detected_agent) then t
      else
        let stale_sessions :=
          omap (λ ss : string * SuppressedFullLifecycleHookReport,
                  if suppresses_agent detected_agent ss.2 then
                    (λ r, (ss.1, mkStale (su_agent_label ss.2) r)) <$> su_session_ref ss.2
                  else None)
            (hash_entries (tm_suppressed t)) in
        let t := t <| tm_suppressed ::= filter (λ ss, suppresses_agent detected_agent ss.2 = false) |> in
        let t := remember_stale_sessions t stale_sessions in
        t <| tm_hook_report_sequences ::=
               filter (λ sn, full_lifecycle_hook_authority sn.1 (agent_label detected_agent) = false) |>
  end.

Definition detected_state_observed_before_release_suppression (t : TerminalState)
    (detected_agent : option Agent) (observed_at : N) : bool :=
  match detected_agent with
  | None => false
  | Some detected_agent =>
      existsb (λ suppressed, suppresses_agent detected_agent suppressed
                             && (observed_at <=? su_observed_at suppressed)%N)
        (hash_values (tm_suppressed t))
  end.

Definition hook_authority_conflicts_with_detected_agent (t : TerminalState) (detected_agent : option Agent) :
    bool :=
  match detected_agent with
  | None => false
  | Some detected_agent =>
      match tm_hook_authority t with
      | Some authority =>
          match parse_agent_label (ha_agent_label authority) with
          | Some hook_agent => negb (bool_decide (hook_agent = detected_agent))
          | None => false
          end
      | None => false
      end
  end.

Definition should_ignore_detected_state (t : TerminalState) (detected_agent : option Agent)
    (process_exited : bool) : bool :=
  live_full_lifecycle_hook_authority t && negb process_exited
  && negb (hook_authority_conflicts_with_detected_agent t detected_agent).

Definition persisted_agent_session_matches (t : TerminalState) (source agent : string) : bool :=
  match tm_persisted_agent_session t with
  | Some session => bool_decide (ps_source session = source) && bool_decide (ps_agent session = agent)
  | None => false
  end.

Definition session_replacements : list (string * string * string) :=
  [("nagi:claude", "claude", "clear"); ("nagi:claude", "claude", "resume"); ("nagi:claude", "claude", "compact");
   ("nagi:codex", "codex", "startup"); ("nagi:codex", "codex", "clear"); ("nagi:codex", "codex", "resume");
   ("nagi:codex", "codex", "compact");
   ("nagi:opencode", "opencode", "new");
   ("nagi:pi", "pi", "new"); ("nagi:pi", "pi", "resume"); ("nagi:pi", "pi", "fork");
   ("nagi:omp", "omp", "startup"); ("nagi:omp", "omp", "new"); ("nagi:omp", "omp", "resume");
   ("nagi:omp", "omp", "fork")].

Definition session_start_source_allows_session_replacement (source agent_label : string)
    (session_start_source : option string) : bool :=
  match session_start_source with
  | Some start => bool_decide ((source, agent_label, start) ∈ session_replacements)
  | None => false
  end.

Definition session_start_source_is_recognized (session_start_source : option string) : bool :=
  match session_start_source with
  | Some start => bool_decide (start ∈ ["startup"; "clear"; "resume"; "compact"; "new"; "fork"])
  | None => false
  end.

Definition is_id (r : AgentSessionRef) : bool := bool_decide (sr_kind r = AgentSessionRefKind.Id).

Definition conflicting_same_owner_session_ref (t : TerminalState) (source agent_label : string)
    (session_ref : AgentSessionRef) (session_start_source : option string) : option AgentSessionRef :=
  '(current_source, current_agent, current) ← current_session_identity_for_persistence t;
  if bool_decide (current_source = source) && bool_decide (current_agent = agent_label)
     && is_id current && is_id session_ref && negb (bool_decide (sr_value current = sr_value session_ref))
     && negb (session_start_source_allows_session_replacement source agent_label session_start_source)
  then Some current else None.

Definition lifecycle_hook_report_replaces_persisted_session (t : TerminalState) (source agent_label : string)
    (session_ref : AgentSessionRef) : bool :=
  bool_decide (tm_hook_authority t = None)
  && bool_decide ((source, agent_label) = ("nagi:mastracode", "mastracode"))
  && match tm_persisted_agent_session t with
     | Some session =>
         bool_decide (ps_source session = source) && bool_decide (ps_agent session = agent_label)
         && is_id (ps_session_ref session) && is_id session_ref
         && negb (bool_decide (sr_value (ps_session_ref session) = sr_value session_ref))
     | None => false
     end.

Definition known_agent_label_conflicts_with_detected_agent (t : TerminalState) (agent_label : string) : bool :=
  match tm_detected_agent t with
  | None => false
  | Some detected_agent =>
      match parse_agent_label agent_label with
      | Some hook_agent => negb (bool_decide (hook_agent = detected_agent))
      | None => false
      end
  end.

Definition foreground_agent_confirms_session_owner (t : TerminalState) (source agent_label : string)
    (session_ref : AgentSessionRef) : bool :=
  match tm_detected_agent t with
  | None => false
  | Some detected_agent =>
      bool_decide (parse_agent_label agent_label = Some detected_agent)
      && bool_decide (is_Some (resume_plan source agent_label session_ref))
  end.

Definition foreground_agent_confirms_different_owner_takeover (t : TerminalState) (source agent_label : string)
    (session_ref : AgentSessionRef) (session_start_source : option string) : bool :=
  session_start_source_is_recognized session_start_source
  && foreground_agent_confirms_session_owner t source agent_label session_ref.

Definition foreground_agent_confirms_hook_authority_takeover (t : TerminalState) (source agent_label : string)
    (session_ref : option AgentSessionRef) : bool :=
  match session_ref with
  | Some session_ref => foreground_agent_confirms_session_owner t source agent_label session_ref
  | None => false
  end.

(** The sequence of a source only grows; a source that numbers its reports
    cannot stop. *)
Definition accept_hook_report (t : TerminalState) (source : string) (seq : option N) : TerminalState * bool :=
  match seq with
  | None => (t, bool_decide (tm_hook_report_sequences t !! source = None))
  | Some seq =>
      if match tm_hook_report_sequences t !! source with Some last_seq => (seq <=? last_seq)%N | None => false end
      then (t, false)
      else (t <| tm_hook_report_sequences ::= <[source := seq]> |>, true)
  end.

(** ** Operations *)

(** *** Detection *)

(** What detection saw is recorded. *)
Definition record_detection (t : TerminalState) (agent : option Agent) (fallback_state : AgentState)
    (visible_blocker process_exited : bool) (now : N) : TerminalState :=
  let previous_detected_agent := tm_detected_agent t in
  let t := t <| tm_detected_agent := agent |> in
  let t := if negb process_exited then clear_suppression_for_detected_agent t previous_detected_agent agent
           else t in
  let t := t <| tm_fallback_state := fallback_state |>
             <| tm_fallback_visible_blocker :=
                  visible_blocker && bool_decide (fallback_state = AgentState.Blocked) |>
             <| tm_fallback_observed_at := Some now |> in
  if process_exited && bool_decide (is_Some agent) then t <| tm_recent_agent_process_exit_at := Some now |>
  else if bool_decide (is_Some agent) then t <| tm_recent_agent_process_exit_at := None |>
  else t.

Definition authority_is_of (t : TerminalState) (agent : option Agent) : bool :=
  match tm_hook_authority t with
  | Some authority => bool_decide (parse_agent_label (ha_agent_label authority) = agent)
  | None => false
  end.

(** What the hook of a process that is gone said *)
Definition end_authority (t : TerminalState) (agent : option Agent) (now clock : N) : TerminalState :=
  if hook_authority_not_newer_than t now && authority_is_of t agent then
    let cleared_source := ha_source <$> tm_hook_authority t in
    let t := suppress_current_authority t SuppressionReason.ProcessExit clock in
    let t := match cleared_source with
             | Some source => t <| tm_hook_report_sequences ::= delete source |>
             | None => t
             end in
    t <| tm_hook_authority := None |>
  else t.

(** The process of the agent is gone: so are its hook and its session. *)
Definition end_process (t : TerminalState) (agent : option Agent) (now clock : N) : TerminalState :=
  let t := end_authority t agent now clock in
  if match tm_persisted_agent_session t with
     | Some session => bool_decide (parse_agent_label (ps_agent session) = agent)
     | None => false
     end
  then t <| tm_persisted_agent_session := None |> else t.

(** A hook of another agent than the one that is seen now *)
Definition drop_outdated_authority (t : TerminalState) (previous_detected_agent agent : option Agent)
    (now clock : N) : TerminalState :=
  if hook_authority_not_newer_than t now
     && (hook_authority_conflicts_with_detected_agent t agent
         || bool_decide (is_Some previous_detected_agent) && negb (bool_decide (agent = previous_detected_agent))
            && authority_is_of t previous_detected_agent)
  then
    let durable_session :=
      authority ← tm_hook_authority t;
      mkPersistedAgentSession (ha_source authority) (ha_agent_label authority) <$> ha_session_ref authority in
    suppress_current_authority t SuppressionReason.HookClear clock
      <| tm_hook_authority := None |> <| tm_persisted_agent_session := durable_session |>
  else t.

(** [set_detected_state_with_screen_signals_at]; the two signals it ignores
    are left out. *)
Definition set_detected_state (t : TerminalState) (agent : option Agent) (fallback_state : AgentState)
    (visible_blocker process_exited : bool) (now clock : N) : TerminalState * TerminalStateMutation :=
  let previous := observe_terminal t now in
  let previous_detected_agent := tm_detected_agent t in
  let previous_session := current_session_identity_for_persistence t in
  if should_ignore_detected_state t agent process_exited then
    let t := if bool_decide ((tm_hook_authority t ≫= λ a, parse_agent_label (ha_agent_label a)) = agent)
             then t <| tm_detected_agent := agent |> else t in
    finish_mutation t previous previous_session now
  else if negb process_exited && detected_state_observed_before_release_suppression t agent now then
    finish_mutation t previous previous_session now
  else
    let t := record_detection t agent fallback_state visible_blocker process_exited now in
    let t := if process_exited then end_process t agent now clock else t in
    let t := drop_outdated_authority t previous_detected_agent agent now clock in
    finish_mutation t previous previous_session now.

(** *** Reports of hooks *)

(** The session a report is taken to be of *)
Definition reported_session (t : TerminalState) (source agent_label : string)
    (session_ref : option AgentSessionRef) : option AgentSessionRef :=
  (λ session_ref,
     if lifecycle_hook_report_replaces_persisted_session t source agent_label session_ref then session_ref
     else default session_ref (conflicting_same_owner_session_ref t source agent_label session_ref None))
    <$> session_ref.

(** An accepted report with a session ends the suppression of its source; the
    suppressed session is stale from then on. *)
Definition end_suppression (t : TerminalState) (source : string) : TerminalState :=
  match tm_suppressed t !! source with
  | None => t
  | Some suppressed =>
      let t := t <| tm_suppressed ::= delete source |> in
      match su_session_ref suppressed with
      | Some suppressed_ref => remember_stale_session t source (mkStale (su_agent_label suppressed) suppressed_ref)
      | None => t
      end
  end.

(** The report replaces what was known. *)
Definition take_hook_report (t : TerminalState) (takeover : bool) (source agent_label : string)
    (state : AgentState) (message : option string) (session_ref : option AgentSessionRef) (now clock : N) :
    TerminalState :=
  let t := if takeover then suppress_current_authority t SuppressionReason.HookClear clock else t in
  let t := if bool_decide (is_Some session_ref) then end_suppression t source else t in
  t <| tm_persisted_agent_session := None |>
    <| tm_hook_authority := Some (mkHookAuthority source agent_label state message now session_ref) |>.

Definition set_hook_authority_at (t : TerminalState) (source agent_label : string) (state : AgentState)
    (message : option string) (session_ref : option AgentSessionRef) (seq : option N) (now clock : N) :
    TerminalState * option TerminalStateMutation :=
  if full_lifecycle_hook_report_is_suppressed t source agent_label session_ref then (t, None)
  else if report_matches_stale_session t source agent_label session_ref then (t, None)
  else
    let reanchor_sequence :=
      has_fresh_session_after_suppression t source agent_label session_ref
      || has_fresh_session_after_stale_session t source agent_label session_ref in
    if known_agent_label_conflicts_with_detected_agent t agent_label then (t, None)
    else
      let owner_conflicts := current_session_owner_conflicts t source agent_label in
      let foreground_takeover_allowed :=
        owner_conflicts && foreground_agent_confirms_hook_authority_takeover t source agent_label session_ref in
      if owner_conflicts && negb foreground_takeover_allowed then (t, None)
      else
        let session_ref := reported_session t source agent_label session_ref in
        if live_authority_conflicts_with_session t source agent_label session_ref then (t, None)
        else
          let t := if reanchor_sequence then t <| tm_hook_report_sequences ::= delete source |> else t in
          let '(t, accepted) := accept_hook_report t source seq in
          if negb accepted then (t, None)
          else
            let previous := observe_terminal t now in
            let previous_session := current_session_identity_for_persistence t in
            let t := take_hook_report t foreground_takeover_allowed source agent_label state message session_ref
                       now clock in
            let '(t, mutation) := finish_mutation t previous previous_session now in (t, Some mutation).

Definition set_agent_session_ref_for_session_start (t : TerminalState) (source agent_label : string)
    (session_ref : option AgentSessionRef) (seq : option N) (session_start_source : option string)
    (now clock : N) : TerminalState * option TerminalStateMutation :=
  match session_ref with
  | None => (t, None)
  | Some session_ref =>
      let '(t, accepted) := accept_hook_report t source seq in
      if negb accepted then (t, None)
      else if known_agent_label_conflicts_with_detected_agent t agent_label then (t, None)
      else
        let session_replacement_allowed :=
          session_start_source_allows_session_replacement source agent_label session_start_source in
        let owner_conflicts := current_session_owner_conflicts t source agent_label in
        let foreground_takeover_allowed :=
          owner_conflicts
          && foreground_agent_confirms_different_owner_takeover t source agent_label session_ref
               session_start_source in
        if owner_conflicts && negb foreground_takeover_allowed then (t, None)
        else if bool_decide (is_Some (conflicting_same_owner_session_ref t source agent_label session_ref
                                        session_start_source)) then (t, None)
        else
          let replaced_hook_session := same_owner_authority_session_ref t source agent_label session_ref in
          if bool_decide (is_Some replaced_hook_session) && negb session_replacement_allowed then (t, None)
          else
            let previous := observe_terminal t now in
            let previous_session := current_session_identity_for_persistence t in
            let t := if session_replacement_allowed || foreground_takeover_allowed
                     then forget_stale_session t source agent_label session_ref else t in
            let t :=
              match replaced_hook_session with
              | Some replaced =>
                  remember_stale_session t source (mkStale agent_label replaced) <| tm_hook_authority := None |>
              | None =>
                  if foreground_takeover_allowed then
                    suppress_current_authority t SuppressionReason.HookClear clock <| tm_hook_authority := None |>
                  else t
              end in
            let t := t <| tm_persisted_agent_session :=
                            Some (mkPersistedAgentSession source agent_label session_ref) |> in
            let '(t, mutation) := finish_mutation t previous previous_session now in (t, Some mutation)
  end.

Definition set_agent_session_ref (t : TerminalState) (source agent_label : string)
    (session_ref : option AgentSessionRef) (seq : option N) (now clock : N) :
    TerminalState * option TerminalStateMutation :=
  set_agent_session_ref_for_session_start t source agent_label session_ref seq None now clock.

Definition clear_hook_authority (t : TerminalState) (source : option string) (seq : option N) (now clock : N) :
    TerminalState * option TerminalStateMutation :=
  let sequence_source :=
    match source with Some source => Some source | None => ha_source <$> tm_hook_authority t end in
  let '(t, accepted) :=
    match sequence_source with Some source => accept_hook_report t source seq | None => (t, true) end in
  if negb accepted then (t, None)
  else
    let previous := observe_terminal t now in
    let previous_session := current_session_identity_for_persistence t in
    let should_clear :=
      match tm_hook_authority t with
      | Some authority => match source with Some source => bool_decide (ha_source authority = source) | None => true end
      | None => false
      end in
    if negb should_clear then (t, None)
    else
      let t := suppress_current_authority t SuppressionReason.HookClear clock
                 <| tm_hook_authority := None |> <| tm_persisted_agent_session := None |> in
      let '(t, mutation) := recompute_effective_state t previous now in
      (t, Some (mkTerminalStateMutation mutation (bool_decide (is_Some previous_session)))).

Definition release_agent (t : TerminalState) (source agent_label : string) (seq : option N) (now clock : N) :
    TerminalState * option TerminalStateMutation :=
  let '(t, accepted) := accept_hook_report t source seq in
  if negb accepted then (t, None)
  else if match tm_hook_authority t with
          | Some authority => negb (bool_decide (ha_agent_label authority = agent_label))
                              || negb (bool_decide (ha_source authority = source))
          | None => false
          end then (t, None)
  else if negb (bool_decide (effective_agent_label t = Some agent_label))
          && negb (persisted_agent_session_matches t source agent_label) then (t, None)
  else
    let preserve_foreign_persisted_session :=
      match tm_persisted_agent_session t with
      | Some session => negb (bool_decide (ps_source session = source))
                        || negb (bool_decide (ps_agent session = agent_label))
      | None => false
      end in
    let previous := observe_terminal t now in
    let previous_session := current_session_identity_for_persistence t in
    let t := suppress_full_lifecycle_hook_report t source agent_label SuppressionReason.HookClear clock
               <| tm_detected_agent := None |>
               <| tm_fallback_state := AgentState.Unknown |>
               <| tm_fallback_visible_blocker := false |>
               <| tm_fallback_observed_at := None |>
               <| tm_hook_authority := None |> in
    let t := if negb preserve_foreign_persisted_session then t <| tm_persisted_agent_session := None |> else t in
    let '(t, mutation) := finish_mutation t previous previous_session now in (t, Some mutation).

(** *** Metadata *)

Definition metadata_report_sequence_is_fresh (t : TerminalState) (source : string) (seq : option N) : bool :=
  sequence_is_fresh (tm_metadata_report_sequences t) source seq.

Definition accept_metadata_report (t : TerminalState) (source : string) (seq : option N)
    (includes_tokens : bool) : TerminalState * result unit bool :=
  match seq with
  | None => (t, Ok true)
  | Some s =>
      if negb (metadata_report_sequence_is_fresh t source (Some s)) then (t, Ok false)
      else if includes_tokens && negb (bool_decide (source ∈ tm_metadata_token_sequence_sources t))
              && (MAX_SEQUENCE_SOURCES <=? size (tm_metadata_token_sequence_sources t))
      then (t, Err tt)
      else
        let t := t <| tm_metadata_report_sequences ::= <[source := s]> |> in
        (if includes_tokens then t <| tm_metadata_token_sequence_sources ::= union {[source]} |> else t, Ok true)
  end.

(** The entry a report that clears fields starts from *)
Definition blank_metadata (report : AgentMetadataReport) (now : N) : AgentMetadata :=
  mkAgentMetadata (mr_source report) (mr_agent_label report) (mr_applies_to_source report) None None ∅ now None
    None ∅ (mr_ttl report) false.

Definition has_set_fields (report : AgentMetadataReport) : bool :=
  bool_decide (is_Some (mr_title report)) || bool_decide (is_Some (mr_display_agent report))
  || negb (bool_decide (mr_state_labels report = ∅)).

(** Fields are cleared, then set. *)
Definition update_metadata (report : AgentMetadataReport) (now : N) (m : AgentMetadata) : AgentMetadata :=
  let m := if mr_clear_title report then m <| am_title := None |> <| am_title_reported_at := None |> else m in
  let m := if mr_clear_display_agent report
           then m <| am_display_agent := None |> <| am_display_agent_reported_at := None |> else m in
  let m := if mr_clear_state_labels report
           then m <| am_state_labels := ∅ |> <| am_state_label_reported_at := ∅ |> else m in
  let m := match mr_agent_label report with Some l => m <| am_agent_label := Some l |> | None => m end in
  let m := match mr_applies_to_source report with
           | Some s => m <| am_applies_to_source := Some s |> | None => m end in
  let m := match mr_title report with
           | Some title => m <| am_title := Some title |> <| am_title_reported_at := Some now |>
           | None => m end in
  let m := match mr_display_agent report with
           | Some a => m <| am_display_agent := Some a |> <| am_display_agent_reported_at := Some now |>
           | None => m end in
  let m := foldl (λ m sl, m <| am_state_labels ::= <[sl.1 := sl.2]> |>
                            <| am_state_label_reported_at ::= <[sl.1 := now]> |>)
             m (hash_entries (mr_state_labels report)) in
  if has_set_fields report || bool_decide (is_Some (mr_ttl report))
  then m <| am_reported_at := now |> <| am_ttl := mr_ttl report |> <| am_expiry_event_pending := false |>
  else m.

Definition fresh_metadata (report : AgentMetadataReport) (now : N) : AgentMetadata :=
  mkAgentMetadata (mr_source report) (mr_agent_label report) (mr_applies_to_source report) (mr_title report)
    (mr_display_agent report) (mr_state_labels report) now
    ((λ _, now) <$> mr_title report) ((λ _, now) <$> mr_display_agent report)
    ((λ _, now) <$> mr_state_labels report) (mr_ttl report) false.

Definition clears_fields (report : AgentMetadataReport) : bool :=
  mr_clear_title report || mr_clear_display_agent report || mr_clear_state_labels report.

(** The entry of the report's source, as the report leaves it *)
Definition write_metadata (t : TerminalState) (report : AgentMetadataReport) (now : N) : TerminalState :=
  let source := mr_source report in
  let entry :=
    if clears_fields report
    then update_metadata report now (default (blank_metadata report now) (tm_agent_metadata t !! source))
    else fresh_metadata report now in
  t <| tm_agent_metadata ::= <[source := entry]> |>.

Definition set_agent_metadata (t : TerminalState) (report : AgentMetadataReport) (now : N) :
    TerminalState * option TerminalStateMutation :=
  let source := mr_source report in
  let '(t, accepted) := accept_metadata_report t source (mr_seq report) false in
  match accepted with
  | Ok true =>
      let t := if match tm_agent_metadata t !! source with
                  | Some metadata => agent_metadata_is_expired metadata now | None => false end
               then t <| tm_agent_metadata ::= delete source |> else t in
      let previous := observe_terminal t now in
      let t := write_metadata t report now in
      let t := if bool_decide (is_Some (mr_ttl report))
                  && match tm_agent_metadata t !! source with
                     | Some metadata => agent_metadata_is_visible_ignoring_ttl t metadata | None => false end
               then t <| tm_agent_metadata ::= alter (λ m, m <| am_expiry_event_pending := true |>) source |>
               else t in
      let '(t, change) := recompute_effective_state t previous now in
      let t := if bool_decide (is_Some change) then clear_expiry_pending_for_hidden_metadata t else t in
      (t, Some (mkTerminalStateMutation change false))
  | _ => (t, None)
  end.

Definition due_metadata (t : TerminalState) (now : N) : list (string * N) :=
  omap (λ sm : string * AgentMetadata,
          deadline ← agent_metadata_expiry sm.2;
          if (deadline <=? now)%N then Some (sm.1, deadline) else None)
    (hash_entries (tm_agent_metadata t)).

Definition remove_metadata (t : TerminalState) (sources : list string) : TerminalState :=
  foldl (λ t source, t <| tm_agent_metadata ::= delete source |>) t sources.

Definition expire_agent_metadata_at (t : TerminalState) (scheduled_deadline now : N) :
    TerminalState * option TerminalStateMutation :=
  let due := due_metadata t now in
  let expired_sources := (List.filter (λ sd, scheduled_deadline <=? sd.2)%N due).*1 in
  let stale_sources := (List.filter (λ sd, negb (scheduled_deadline <=? sd.2))%N due).*1 in
  let t := remove_metadata t stale_sources in
  if bool_decide (expired_sources = []) then (t, None)
  else
    let previous :=
      mkObserved (effective_agent_label t) (effective_known_agent t) (tm_state t)
        (effective_presentation_with_ttl t now false) in
    let t := remove_metadata t expired_sources in
    let '(t, change) := recompute_effective_state t previous now in
    (t, Some (mkTerminalStateMutation change false)).

(** *** Titles, names and the rest *)

Definition terminal_title_stripped (t : TerminalState) : option (list N) :=
  tm_terminal_title t ≫= stripped_terminal_title.

Definition set_terminal_title (t : TerminalState) (title : option string) :
    TerminalState * TerminalTitleChange :=
  if bool_decide (tm_terminal_title t = title) then (t, mkTerminalTitleChange false false)
  else
    let previous_stripped := terminal_title_stripped t in
    let t := t <| tm_terminal_title := title |> in
    let stripped_changed := negb (bool_decide (previous_stripped = terminal_title_stripped t)) in
    let t := if stripped_changed then t <| tm_revision ::= λ r, ((r + 1) mod 2 ^ 64)%N |> else t in
    (t, mkTerminalTitleChange true stripped_changed).

Definition nonempty_trimmed (s : string) : option string :=
  let s := str_trim s in if str_is_empty s then None else Some s.

Definition set_manual_label (t : TerminalState) (label : string) : TerminalState :=
  t <| tm_manual_label := nonempty_trimmed label |>.
Definition clear_manual_label (t : TerminalState) : TerminalState := t <| tm_manual_label := None |>.
Definition set_agent_name (t : TerminalState) (name : string) : TerminalState :=
  t <| tm_agent_name := nonempty_trimmed name |>.
Definition clear_agent_name (t : TerminalState) : TerminalState := t <| tm_agent_name := None |>.

Definition set_persisted_agent_session (t : TerminalState) (session : PersistedAgentSession) : TerminalState :=
  t <| tm_persisted_agent_session := Some session |>.

Definition with_launch_argv (t : TerminalState) (argv : list string) : TerminalState :=
  t <| tm_launch_argv := Some argv |>.
Definition with_respawn_shell_on_exit (t : TerminalState) : TerminalState :=
  t <| tm_respawn_shell_on_exit := true |>.
Definition with_pending_agent_resume_plan (t : TerminalState) (plan : AgentResumePlan) : TerminalState :=
  t <| tm_pending_agent_resume_plan := Some plan |>.

Definition clear_agent_runtime_identity_after_respawn (t : TerminalState) : TerminalState :=
  clear_agent_name
    (t <| tm_detected_agent := None |>
       <| tm_fallback_state := AgentState.Unknown |>
       <| tm_fallback_visible_blocker := false |>
       <| tm_fallback_observed_at := None |>
       <| tm_hook_authority := None |>
       <| tm_persisted_agent_session := None |>
       <| tm_agent_metadata := ∅ |>
       <| tm_suppressed := ∅ |>
       <| tm_stale := ∅ |>
       <| tm_state := AgentState.Unknown |>
       <| tm_last_agent_state_change_seq := None |>
       <| tm_launch_argv := None |>
       <| tm_respawn_shell_on_exit := false |>
       <| tm_recent_agent_process_exit_at := None |>
       <| tm_pending_agent_resume_plan := None |>).

(** [saturating_duration_since]: a later exit counts as now. *)
Definition agent_process_exited_within (t : TerminalState) (now max_age : N) : bool :=
  match tm_recent_agent_process_exit_at t with Some exited_at => (now - exited_at <=? max_age)%N | None => false end.

Definition full_lifecycle_hook_authority_active (t : TerminalState) : bool :=
  live_full_lifecycle_hook_authority t.

Definition is_agent_terminal (t : TerminalState) : bool :=
  bool_decide (is_Some (tm_agent_name t)) || bool_decide (is_Some (effective_agent_label t))
  || bool_decide (is_Some (tm_launch_argv t)).

Definition border_label (t : TerminalState) (show_agent_labels : bool) (now : N) : option string :=
  match effective_title t now with
  | Some title => Some title
  | None =>
      match tm_manual_label t with
      | Some label => Some label
      | None =>
          if show_agent_labels then
            match effective_display_agent t now with
            | Some display => Some display
            | None => effective_agent_label t
            end
          else None
      end
  end.

(** *** Operations as data *)

(** What detection and hooks do; each with the instants it reads *)
Inductive agent_op :=
  | Detect (agent : option Agent) (fallback_state : AgentState) (visible_blocker process_exited : bool)
  | Report (source agent_label : string) (state : AgentState) (message : option string)
      (session_ref : option AgentSessionRef) (seq : option N)
  | SessionStart (source agent_label : string) (session_ref : option AgentSessionRef) (seq : option N)
      (session_start_source : option string)
  | Clear (source : option string) (seq : option N)
  | Release (source agent_label : string) (seq : option N).

Definition agent_step (t : TerminalState) (op : agent_op) (now clock : N) :
    TerminalState * option TerminalStateMutation :=
  match op with
  | Detect agent fallback_state visible_blocker process_exited =>
      let '(t, m) := set_detected_state t agent fallback_state visible_blocker process_exited now clock in
      (t, Some m)
  | Report source agent_label state message session_ref seq =>
      set_hook_authority_at t source agent_label state message session_ref seq now clock
  | SessionStart source agent_label session_ref seq start =>
      set_agent_session_ref_for_session_start t source agent_label session_ref seq start now clock
  | Clear source seq => clear_hook_authority t source seq now clock
  | Release source agent_label seq => release_agent t source agent_label seq now clock
  end.

Inductive terminal_op :=
  | AgentOp (op : agent_op) (now clock : N)
  | SetMetadata (report : AgentMetadataReport) (now : N)
  | AcceptMetadata (source : string) (seq : option N) (includes_tokens : bool)
  | ExpireMetadata (scheduled_deadline now : N)
  | PatchTokens (patch : gmap string (option string)) (ttl : option N) (now : N)
  | ExpireTokens (now : N)
  | SetTitle (title : option string)
  | SetManualLabel (label : string)
  | ClearManualLabel
  | SetAgentName (name : string)
  | ClearAgentName
  | ClearAgentRuntimeIdentity.

Definition terminal_step (t : TerminalState) (op : terminal_op) : TerminalState :=
  match op with
  | AgentOp op now clock => (agent_step t op now clock).1
  | SetMetadata report now => (set_agent_metadata t report now).1
  | AcceptMetadata source seq includes_tokens => (accept_metadata_report t source seq includes_tokens).1
  | ExpireMetadata scheduled_deadline now => (expire_agent_metadata_at t scheduled_deadline now).1
  | PatchTokens patch ttl now => t <| tm_metadata_tokens ::= λ e, (patch_tokens e patch ttl now).1 |>
  | ExpireTokens now => t <| tm_metadata_tokens ::= λ e, (expire_tokens_at e now).1 |>
  | SetTitle title => (set_terminal_title t title).1
  | SetManualLabel label => set_manual_label t label
  | ClearManualLabel => clear_manual_label t
  | SetAgentName name => set_agent_name t name
  | ClearAgentName => clear_agent_name t
  | ClearAgentRuntimeIdentity => clear_agent_runtime_identity_after_respawn t
  end.
End presentation.

(** ** What operations leave alone *)

Section facts.
Context `{HOrder : HashOrder}.

(** Everything but the metadata and its bookkeeping *)
Definition same_agent (t t' : TerminalState) : Prop :=
  tm_detected_agent t' = tm_detected_agent t ∧ tm_fallback_state t' = tm_fallback_state t
  ∧ tm_fallback_visible_blocker t' = tm_fallback_visible_blocker t
  ∧ tm_fallback_observed_at t' = tm_fallback_observed_at t ∧ tm_hook_authority t' = tm_hook_authority t
  ∧ tm_persisted_agent_session t' = tm_persisted_agent_session t
  ∧ tm_hook_report_sequences t' = tm_hook_report_sequences t
  ∧ tm_suppressed t' = tm_suppressed t ∧ tm_stale t' = tm_stale t ∧ tm_state t' = tm_state t.

#[export] Instance same_agent_preorder : PreOrder same_agent.
Proof.
  split; [by repeat split|]. intros t1 t2 t3. unfold same_agent. naive_solver congruence.
Qed.

Lemma same_agent_foldl {A} (f : TerminalState → A → TerminalState) t xs :
  (∀ t x, same_agent t (f t x)) → same_agent t (foldl f t xs).
Proof.
  intros Hf. revert t. induction xs as [|x xs IH]; intros t; cbn; [done|]. etrans; [apply Hf|apply IH].
Qed.

Lemma clear_expiry_same t : same_agent t (clear_expiry_pending_for_hidden_metadata t).
Proof. apply same_agent_foldl. by repeat split. Qed.

Lemma remove_metadata_same t sources : same_agent t (remove_metadata t sources).
Proof. apply same_agent_foldl. by repeat split. Qed.

(** The effective agent and state depend on these fields only. *)
Lemma same_agent_effective t t' :
  same_agent t t' →
  effective_agent_label t' = effective_agent_label t ∧ effective_known_agent t' = effective_known_agent t
  ∧ arbitrated_state t' = arbitrated_state t
  ∧ current_session_identity_for_persistence t' = current_session_identity_for_persistence t.
Proof.
  intros (Hd & Hf & Hb & Ho & Ha & Hp & _ & _ & _ & _).
  unfold effective_agent_label, effective_known_agent, arbitrated_state, visible_blocker_overrides_hook,
    live_full_lifecycle_hook_authority, fallback_not_older_than_hook, current_session_identity_for_persistence.
  by rewrite Hd, Hf, Hb, Ho, Ha, Hp.
Qed.

(** The label of the effective agent determines the agent. *)
Lemma effective_known_agent_label t :
  effective_known_agent t = effective_agent_label t ≫= parse_agent_label.
Proof.
  unfold effective_known_agent, effective_agent_label. destruct (tm_hook_authority t); [done|].
  destruct (tm_detected_agent t) as [agent|]; [|done]. cbn. by rewrite parse_agent_label_of.
Qed.

(** *** Presentation does not depend on what is pending *)

(** Entries that are shown alike *)
Definition shown_alike (m m' : AgentMetadata) : Prop :=
  m' <| am_expiry_event_pending := am_expiry_event_pending m |> = m.

Lemma clear_expiry_metadata t :
  ∃ pending : gset string,
    tm_agent_metadata (clear_expiry_pending_for_hidden_metadata t)
    = map_imap (λ k m, Some (if bool_decide (k ∈ pending) then m <| am_expiry_event_pending := false |> else m))
        (tm_agent_metadata t).
Proof.
  unfold clear_expiry_pending_for_hidden_metadata.
  generalize (List.filter (λ sm, am_expiry_event_pending sm.2
    && negb (agent_metadata_is_visible_ignoring_ttl t sm.2)) (hash_entries (tm_agent_metadata t))).*1 as sources.
  intros sources. revert t. induction sources as [|source sources IH] using rev_ind; intros t.
  - exists ∅. cbn [foldl]. apply map_eq. intros k. rewrite map_lookup_imap. by destruct (tm_agent_metadata t !! k).
  - destruct (IH t) as [pending Hp]. exists ({[source]} ∪ pending). rewrite foldl_app. cbn [foldl].
    unfold clear_expiry_pending at 1. apply map_eq. intros k. cbn [tm_agent_metadata update TerminalState_fields].
    unfold update. cbn [tm_agent_metadata]. rewrite Hp, lookup_alter, map_lookup_imap.
    case_decide as Hk; rewrite ?map_lookup_imap.
    + subst k. rewrite (bool_decide_true (source ∈ {[source]} ∪ pending)) by set_solver.
      destruct (tm_agent_metadata t !! source); cbn; [|done]. by destruct (bool_decide _).
    + by rewrite (bool_decide_ext (k ∈ {[source]} ∪ pending) (k ∈ pending)) by set_solver.
Qed.

Lemma Forall2_filter {A} (R : A → A → Prop) (p q : A → bool) l l' :
  (∀ x y, R x y → p x = q y) → Forall2 R l l' → Forall2 R (List.filter p l) (List.filter q l').
Proof.
  intros Hpq Hl. induction Hl as [|x y l l' Hxy Hl IH]; cbn; [constructor|].
  rewrite (Hpq x y Hxy). destruct (q y); [by constructor|done].
Qed.

Lemma Forall2_max_by_key {A} (R : A → A → Prop) (f : A → N) l l' :
  (∀ x y, R x y → f x = f y) → Forall2 R l l' →
  option_Forall2 R (max_by_key f l) (max_by_key f l').
Proof.
  intros Hf Hl. unfold max_by_key.
  assert (Hgen : ∀ b b', option_Forall2 R b b' → option_Forall2 R
    (foldl (λ best x, match best with Some b => if (f b <=? f x)%N then Some x else Some b | None => Some x end) b l)
    (foldl (λ best x, match best with Some b => if (f b <=? f x)%N then Some x else Some b | None => Some x end) b' l')).
  { induction Hl as [|x y l l' Hxy Hl IH]; intros b b' Hb; cbn; [done|]. apply IH.
    destruct Hb as [c d Hcd|]; [|by constructor]. rewrite (Hf c d Hcd), (Hf x y Hxy).
    destruct (f d <=? f y)%N; by constructor. }
  apply Hgen. constructor.
Qed.

Lemma option_Forall2_bind_eq {A B} (R : A → A → Prop) (g : A → option B) o o' :
  (∀ x y, R x y → g x = g y) → option_Forall2 R o o' → o ≫= g = o' ≫= g.
Proof. intros Hg []; cbn; [by apply Hg|done]. Qed.

Lemma Forall2_bind_eq {A B} (R : A → A → Prop) (g : A → list B) l l' :
  (∀ x y, R x y → g x = g y) → Forall2 R l l' → l ≫= g = l' ≫= g.
Proof. intros Hg. induction 1 as [|x y l l' Hxy Hl IH]; cbn; [done|]. by rewrite (Hg x y Hxy), IH. Qed.

(** Terminals with the same agent whose entries are alike show the same. *)
Lemma presentation_alike t t' now enforce_ttl :
  effective_agent_label t' = effective_agent_label t → tm_hook_authority t' = tm_hook_authority t →
  Forall2 shown_alike (hash_values (tm_agent_metadata t)) (hash_values (tm_agent_metadata t')) →
  effective_presentation_with_ttl t' now enforce_ttl = effective_presentation_with_ttl t now enforce_ttl.
Proof.
  intros Hlabel Hauth Hall.
  assert (Hvalid : Forall2 shown_alike (valid_agent_metadata t now enforce_ttl)
                     (valid_agent_metadata t' now enforce_ttl)).
  { apply Forall2_filter; [|done]. intros m m' <-.
    unfold agent_metadata_is_valid, agent_metadata_matches_guards, metadata_guards_match. cbn.
    by rewrite Hlabel, Hauth. }
  unfold effective_presentation_with_ttl. f_equal.
  - symmetry. eapply option_Forall2_bind_eq; [|apply (Forall2_max_by_key shown_alike)];
      [by intros m m' <-|by intros m m' <-|]. apply Forall2_filter; [by intros m m' <-|exact Hvalid].
  - symmetry. eapply option_Forall2_bind_eq; [|apply (Forall2_max_by_key shown_alike)];
      [by intros m m' <-|by intros m m' <-|]. apply Forall2_filter; [by intros m m' <-|exact Hvalid].
  - unfold effective_metadata_state_labels. do 3 f_equal. symmetry.
    eapply Forall2_bind_eq; [|exact Hvalid]. by intros m m' <-.
Qed.

Context {HOrderSpec : HashOrderSpec}.

Lemma presentation_clear_expiry t now enforce_ttl :
  effective_presentation_with_ttl (clear_expiry_pending_for_hidden_metadata t) now enforce_ttl
  = effective_presentation_with_ttl t now enforce_ttl.
Proof.
  pose proof (clear_expiry_same t) as Hsame.
  apply presentation_alike; [by apply same_agent_effective|apply Hsame|].
  destruct (clear_expiry_metadata t) as [pending ->]. unfold hash_values. rewrite hash_entries_imap.
  induction (hash_entries (tm_agent_metadata t)) as [|[k m] l IH]; cbn; constructor; [|done].
  unfold shown_alike. by destruct (bool_decide _), m.
Qed.

(** ** The effective state is the arbitrated one *)

(** What a recomputation reports: the terminal before as it was observed, and
    the terminal after as it is now; or nothing, when nothing that shows has
    changed. *)
Record reported (previous : Observed) (t' : TerminalState) (now : N) (change : option EffectiveStateChange) :
    Prop := {
  re_state : tm_state t' = arbitrated_state t';
  re_change : match change with
              | Some c =>
                  mkObserved (ch_previous_agent_label c) (ch_previous_known_agent c) (ch_previous_state c)
                    (ch_previous_presentation c) = previous
                  ∧ mkObserved (ch_agent_label c) (ch_known_agent c) (ch_state c) (ch_presentation c)
                    = observe_terminal t' now
                  ∧ previous ≠ observe_terminal t' now
              | None => previous = observe_terminal t' now
              end;
}.

Lemma recompute_reports t previous now t' change :
  ob_state previous = tm_state t →
  ob_known_agent previous = ob_agent_label previous ≫= parse_agent_label →
  recompute_effective_state t previous now = (t', change) →
  reported previous t' now change.
Proof.
  destruct previous as [pl pk pst pp]. cbn [ob_state ob_known_agent ob_agent_label]. intros -> Hknown Hre.
  unfold recompute_effective_state in Hre. cbn [ob_state ob_known_agent ob_agent_label ob_presentation] in Hre.
  pose proof (clear_expiry_same t) as Hsame.
  pose proof (same_agent_effective _ _ Hsame) as (Hl & Hk & Har & _).
  assert (Hs1 : tm_state (clear_expiry_pending_for_hidden_metadata t) = tm_state t) by apply Hsame.
  assert (Hobs : observe_terminal (clear_expiry_pending_for_hidden_metadata t) now = observe_terminal t now).
  { unfold observe_terminal. rewrite Hl, Hk, Hs1. f_equal. apply presentation_clear_expiry. }
  set (t1 := clear_expiry_pending_for_hidden_metadata t) in *. clearbody t1. revert Hre. case_match eqn:Hsameobs.
  - intros [= <- <-]. rewrite !andb_true_iff, !bool_decide_eq_true in Hsameobs.
    destruct Hsameobs as [[-> Hst] ->]. split; [congruence|]. rewrite Hobs. unfold observe_terminal.
    by rewrite effective_known_agent_label, Hknown.
  - intros [= <- <-]. split; [exact (eq_sym Har)|].
    assert (Hobs' : ∀ t2, t2 = (t1 <| tm_state := arbitrated_state t |>) →
              observe_terminal t2 now = observe_terminal t now <| ob_state := arbitrated_state t |>).
    { intros t2 ->. by rewrite <- Hobs. }
    erewrite Hobs'; [|reflexivity]. split_and!; [done..|]. intros [= -> _ Hst ->].
    by rewrite Hst, !bool_decide_true in Hsameobs.
Qed.

Lemma recompute_session t previous now t' change :
  recompute_effective_state t previous now = (t', change) →
  current_session_identity_for_persistence t' = current_session_identity_for_persistence t.
Proof.
  unfold recompute_effective_state. pose proof (clear_expiry_same t) as (_ & _ & _ & _ & Ha & Hp & _).
  unfold current_session_identity_for_persistence. case_match; intros [= <- <-]; cbn; by rewrite Ha, Hp.
Qed.

Lemma finish_reports t previous previous_session now t' m :
  ob_state previous = tm_state t →
  ob_known_agent previous = ob_agent_label previous ≫= parse_agent_label →
  finish_mutation t previous previous_session now = (t', m) →
  reported previous t' now (mu_effective_state_change m)
  ∧ mu_session_ref_changed m = negb (bool_decide (previous_session = current_session_identity_for_persistence t')).
Proof.
  intros Hst Hknown Hf. unfold finish_mutation in Hf.
  destruct (recompute_effective_state t previous now) as [t2 change] eqn:Hre. simplify_eq/=.
  split; [by eapply recompute_reports|]. f_equal. apply bool_decide_ext.
  by rewrite (recompute_session _ _ _ _ _ Hre).
Qed.

Lemma observed_known t now :
  ob_known_agent (observe_terminal t now) = ob_agent_label (observe_terminal t now) ≫= parse_agent_label.
Proof. apply effective_known_agent_label. Qed.

(** *** The state is set at the end only *)

Lemma suppress_current_state t reason clock : tm_state (suppress_current_authority t reason clock) = tm_state t.
Proof. unfold suppress_current_authority. by repeat case_match. Qed.

Lemma suppress_report_state t source label reason clock :
  tm_state (suppress_full_lifecycle_hook_report t source label reason clock) = tm_state t.
Proof. unfold suppress_full_lifecycle_hook_report. by case_match. Qed.

Lemma forget_stale_state t source label r : tm_state (forget_stale_session t source label r) = tm_state t.
Proof. unfold forget_stale_session. by repeat case_match. Qed.

Lemma end_suppression_state t source : tm_state (end_suppression t source) = tm_state t.
Proof. unfold end_suppression. by repeat case_match. Qed.

Lemma take_hook_report_state t takeover source label state message r now clock :
  tm_state (take_hook_report t takeover source label state message r now clock) = tm_state t.
Proof.
  unfold take_hook_report. cbv zeta. cbn [tm_state]. unfold update; cbn.
  destruct takeover, (bool_decide _); by rewrite ?end_suppression_state, ?suppress_current_state.
Qed.

Lemma accept_hook_report_state t source seq : tm_state (accept_hook_report t source seq).1 = tm_state t.
Proof. unfold accept_hook_report. by repeat case_match. Qed.

Lemma remember_stale_sessions_state t l : tm_state (remember_stale_sessions t l) = tm_state t.
Proof.
  unfold remember_stale_sessions. revert t. induction l as [|ss l IH]; intros t; cbn [foldl]; [done|]. by rewrite IH.
Qed.

Lemma clear_suppression_state t previous agent :
  tm_state (clear_suppression_for_detected_agent t previous agent) = tm_state t.
Proof.
  unfold clear_suppression_for_detected_agent. destruct agent as [agent|]; [|done]. case_bool_decide; [done|].
  cbv zeta. unfold update; cbn. by rewrite remember_stale_sessions_state.
Qed.

Lemma record_detection_state t agent fallback visible exited now :
  tm_state (record_detection t agent fallback visible exited now) = tm_state t.
Proof.
  unfold record_detection. cbv zeta. set (t1 := if negb exited then _ else _).
  assert (Ht1 : tm_state t1 = tm_state t).
  { subst t1. destruct exited; [done|]. etrans; [apply clear_suppression_state|done]. }
  rewrite <- Ht1. clearbody t1. by destruct (exited && _), (bool_decide _).
Qed.

Lemma end_authority_state t agent now clock : tm_state (end_authority t agent now clock) = tm_state t.
Proof.
  unfold end_authority. case_match; [|done]. cbv zeta.
  rewrite <- (suppress_current_state t SuppressionReason.ProcessExit clock).
  generalize (suppress_current_authority t SuppressionReason.ProcessExit clock) as t1. intros t1.
  by destruct (tm_hook_authority t).
Qed.

Lemma end_process_state t agent now clock : tm_state (end_process t agent now clock) = tm_state t.
Proof.
  unfold end_process. cbv zeta. rewrite <- (end_authority_state t agent now clock).
  generalize (end_authority t agent now clock) as t1. intros t1. by case_match.
Qed.

Lemma drop_outdated_state t previous agent now clock :
  tm_state (drop_outdated_authority t previous agent now clock) = tm_state t.
Proof.
  unfold drop_outdated_authority. case_match; [|done]. unfold update; cbn. by rewrite suppress_current_state.
Qed.

(** *** Every operation *)

(** The state that is kept is the one the rules give. *)
Definition settled (t : TerminalState) : Prop := tm_state t = arbitrated_state t.

(** A step reports the difference it made, or made none that shows. *)
Definition step_reports (t t' : TerminalState) (now : N) (m : option TerminalStateMutation) : Prop :=
  match m with
  | Some m =>
      reported (observe_terminal t now) t' now (mu_effective_state_change m)
      ∧ mu_session_ref_changed m
        = negb (bool_decide (current_session_identity_for_persistence t
                             = current_session_identity_for_persistence t'))
  | None =>
      observe_terminal t' now = observe_terminal t now
      ∧ arbitrated_state t' = arbitrated_state t
      ∧ current_session_identity_for_persistence t' = current_session_identity_for_persistence t
  end.

Lemma rejected_reports t now : step_reports t t now None.
Proof. done. Qed.

Lemma accept_hook_report_shown t source seq t' accepted now :
  accept_hook_report t source seq = (t', accepted) → step_reports t t' now None.
Proof. unfold accept_hook_report. by repeat case_match; intros [= <- <-]. Qed.

(** A step that ends by reporting *)
Lemma finish_step t t1 t2 now t' m :
  step_reports t t1 now None → tm_state t2 = tm_state t1 →
  finish_mutation t2 (observe_terminal t1 now) (current_session_identity_for_persistence t1) now = (t', m) →
  step_reports t t' now (Some m).
Proof.
  intros (Hobs & _ & Hsess) Hst Hf. apply finish_reports in Hf as [Hr Hs]; [|by rewrite Hst|by apply observed_known].
  rewrite Hobs in Hr. by rewrite Hsess in Hs.
Qed.

Lemma detection_reports t agent fallback visible exited now clock t' m :
  set_detected_state t agent fallback visible exited now clock = (t', m) → step_reports t t' now (Some m).
Proof.
  unfold set_detected_state. cbv zeta. case_match; [|case_match]; intros Hf;
    (eapply finish_step in Hf; [exact Hf|apply rejected_reports|]); [by case_match|done|].
  rewrite drop_outdated_state. destruct exited; [rewrite end_process_state|]; apply record_detection_state.
Qed.

Lemma report_reports t source label state message r seq now clock t' m :
  set_hook_authority_at t source label state message r seq now clock = (t', m) → step_reports t t' now m.
Proof.
  unfold set_hook_authority_at. cbv zeta.
  set (reanchor := _ || _). set (takeover := _ && foreground_agent_confirms_hook_authority_takeover _ _ _ _).
  clearbody reanchor takeover. repeat (case_match; [by intros [= <- <-]|]).
  set (t0 := if reanchor then _ else t).
  assert (Hr0 : step_reports t t0 now None) by (subst t0; by destruct reanchor). clearbody t0.
  destruct (accept_hook_report t0 source seq) as [t1 accepted] eqn:Hacc.
  assert (Hr1 : step_reports t t1 now None).
  { apply (accept_hook_report_shown _ _ _ _ _ now) in Hacc as (Ho & Ha & Hs). destruct Hr0 as (Ho0 & Ha0 & Hs0).
    split_and!; congruence. }
  destruct accepted; cbn [negb]; [|by intros [= <- <-]].
  destruct (finish_mutation _ _ _ _) as [t2 mutation] eqn:Hf. intros [= <- <-].
  eapply finish_step; [exact Hr1| |exact Hf]. apply take_hook_report_state.
Qed.

Lemma session_start_reports t source label r seq start now clock t' m :
  set_agent_session_ref_for_session_start t source label r seq start now clock = (t', m) →
  step_reports t t' now m.
Proof.
  unfold set_agent_session_ref_for_session_start. destruct r as [r|]; [|by intros [= <- <-]].
  destruct (accept_hook_report t source seq) as [t1 accepted] eqn:Hacc.
  apply (accept_hook_report_shown _ _ _ _ _ now) in Hacc. cbv zeta.
  set (takeover := _ && foreground_agent_confirms_different_owner_takeover _ _ _ _ _). clearbody takeover.
  set (replaced := same_owner_authority_session_ref _ _ _ _). clearbody replaced.
  repeat (case_match; [by intros [= <- <-]|]).
  destruct (finish_mutation _ _ _ _) as [t2 mutation] eqn:Hf. intros [= <- <-].
  eapply finish_step; [exact Hacc| |exact Hf].
  set (t3 := if _ || takeover then _ else t1).
  assert (Hst3 : tm_state t3 = tm_state t1) by (subst t3; destruct (_ || takeover); [apply forget_stale_state|done]).
  rewrite <- Hst3. clearbody t3. destruct replaced; [done|].
  destruct takeover; [|done]. apply (suppress_current_state t3 SuppressionReason.HookClear clock).
Qed.

Lemma clear_reports t source seq now clock t' m :
  clear_hook_authority t source seq now clock = (t', m) → step_reports t t' now m.
Proof.
  unfold clear_hook_authority. cbv zeta.
  match goal with |- (match ?p with (_, _) => _ end) = _ → _ => destruct p as [t1 accepted] eqn:Hacc end.
  assert (Hr1 : step_reports t t1 now None).
  { revert Hacc. destruct source as [source|]; [apply accept_hook_report_shown|].
    destruct (ha_source <$> tm_hook_authority t); [apply accept_hook_report_shown|by intros [= <- <-]]. }
  destruct accepted; cbn [negb]; [|by intros [= <- <-]].
  match goal with |- (if negb ?b then _ else _) = _ → _ => destruct b end; cbn [negb]; [|by intros [= <- <-]].
  destruct (recompute_effective_state _ _ _) as [t2 mutation] eqn:Hre. intros [= <- <-].
  pose proof Hr1 as (Hobs & _ & Hsess). cbn [mu_effective_state_change mu_session_ref_changed].
  rewrite Hobs in Hre. split.
  - eapply recompute_reports; [|apply observed_known|exact Hre]. injection Hobs as _ _ Hst _.
    change (ob_state (observe_terminal t now)) with (tm_state t). rewrite <- Hst. symmetry.
    apply (suppress_current_state t1 SuppressionReason.HookClear clock).
  - assert (Hnone : current_session_identity_for_persistence t2 = None).
    { etrans; [exact (recompute_session _ _ _ _ _ Hre)|done]. }
    rewrite Hsess, Hnone. by destruct (current_session_identity_for_persistence t).
Qed.

Lemma release_reports t source label seq now clock t' m :
  release_agent t source label seq now clock = (t', m) → step_reports t t' now m.
Proof.
  unfold release_agent. destruct (accept_hook_report t source seq) as [t1 accepted] eqn:Hacc.
  apply (accept_hook_report_shown _ _ _ _ _ now) in Hacc.
  destruct accepted; cbn [negb]; [|by intros [= <- <-]].
  match goal with |- (if ?b then _ else _) = _ → _ => destruct b end; [by intros [= <- <-]|].
  match goal with |- (if ?b then _ else _) = _ → _ => destruct b end; [by intros [= <- <-]|].
  cbv zeta. destruct (finish_mutation _ _ _ _) as [t2 mutation] eqn:Hf. intros [= <- <-].
  eapply finish_step; [exact Hacc| |exact Hf].
  rewrite <- (suppress_report_state t1 source label SuppressionReason.HookClear clock).
  generalize (suppress_full_lifecycle_hook_report t1 source label SuppressionReason.HookClear clock) as t3.
  intros t3. by match goal with |- context [if negb ?b then _ else _] => destruct b end.
Qed.

Lemma agent_step_shown t op now clock t' m : agent_step t op now clock = (t', m) → step_reports t t' now m.
Proof.
  destruct op; cbn [agent_step]; intros Hstep.
  - destruct (set_detected_state _ _ _ _ _ _ _) as [t1 m1] eqn:Hd. simplify_eq. by eapply detection_reports.
  - by eapply report_reports.
  - by eapply session_start_reports.
  - by eapply clear_reports.
  - by eapply release_reports.
Qed.

(** *** Metadata and expiry *)

Lemma accept_metadata_same t source seq includes_tokens :
  same_agent t (accept_metadata_report t source seq includes_tokens).1.
Proof. unfold accept_metadata_report. repeat case_match; by repeat split. Qed.

Lemma same_agent_settled t t' : same_agent t t' → settled t → settled t'.
Proof.
  intros Hs Ht. pose proof (same_agent_effective _ _ Hs) as (_ & _ & Ha & _). unfold settled. rewrite Ha.
  etrans; [apply Hs|done].
Qed.

Lemma recompute_settled t t1 previous now :
  settled t → same_agent t t1 → ob_state previous = tm_state t →
  ob_known_agent previous = ob_agent_label previous ≫= parse_agent_label →
  settled (recompute_effective_state t1 previous now).1.
Proof.
  intros Ht Hs Hst Hk. destruct (recompute_effective_state t1 previous now) as [t2 change] eqn:Hre. cbn [fst].
  eapply re_state, recompute_reports; [|exact Hk|exact Hre]. rewrite Hst. symmetry. apply Hs.
Qed.

Lemma set_agent_metadata_settled t report now : settled t → settled (set_agent_metadata t report now).1.
Proof.
  intros Ht. unfold set_agent_metadata. cbv zeta.
  pose proof (accept_metadata_same t (mr_source report) (mr_seq report) false) as Hacc.
  destruct (accept_metadata_report _ _ _ _) as [t1 accepted]. cbn [fst] in Hacc.
  apply (same_agent_settled _ _ Hacc) in Ht. destruct accepted as [[]|]; [|done..].
  match goal with |- context [write_metadata ?x report now] => set (t2 := x) end.
  assert (H2 : same_agent t1 t2) by (subst t2; case_match; by repeat split). clearbody t2.
  set (t3 := if _ && _ then _ else write_metadata t2 report now).
  assert (H3 : same_agent t2 t3) by (subst t3; destruct (_ && _); by repeat split). clearbody t3.
  pose proof (recompute_settled t1 t3 (observe_terminal t2 now) now Ht) as Hre.
  destruct (recompute_effective_state t3 (observe_terminal t2 now) now) as [t4 change]. cbn [fst].
  assert (settled t4) by (apply Hre; [by transitivity t2|apply H2|apply observed_known]).
  case_bool_decide; [|done]. by eapply same_agent_settled; [apply clear_expiry_same|].
Qed.

Lemma expire_agent_metadata_settled t scheduled now : settled t → settled (expire_agent_metadata_at t scheduled now).1.
Proof.
  intros Ht. unfold expire_agent_metadata_at. cbv zeta.
  set (expired := (List.filter _ _).*1). set (stale := (List.filter _ _).*1). clearbody stale expired.
  pose proof (remove_metadata_same t stale) as H1. apply (same_agent_settled _ _ H1) in Ht.
  case_bool_decide; [done|].
  match goal with |- settled (let '(t, change) := recompute_effective_state ?t3 ?p now in _).1 =>
    pose proof (recompute_settled _ t3 p now Ht) as Hre;
    destruct (recompute_effective_state t3 p now) as [t4 change] end.
  apply Hre; [apply remove_metadata_same|done|apply effective_known_agent_label].
Qed.

Lemma terminal_step_settled t op : settled t → settled (terminal_step t op).
Proof.
  intros Ht. destruct op; cbn [terminal_step];
    try (apply (same_agent_settled t); [by repeat split|exact Ht]).
  - destruct (agent_step t op now clock) as [t' [m|]] eqn:Hstep; cbn [fst]; apply agent_step_shown in Hstep.
    + apply Hstep.
    + destruct Hstep as (Hobs & Ha & _). injection Hobs as _ _ Hst _. unfold settled. congruence.
  - by apply set_agent_metadata_settled.
  - eapply same_agent_settled; [apply accept_metadata_same|done].
  - by apply expire_agent_metadata_settled.
  - apply (same_agent_settled t); [|done]. unfold set_terminal_title. cbv zeta. repeat case_match; by repeat split.
  - done.
Qed.

(** *** Sessions that are over *)

Lemma full_lifecycle_label source label label' :
  full_lifecycle_hook_authority source label = true → full_lifecycle_hook_authority source label' = true →
  label = label'.
Proof.
  unfold full_lifecycle_hook_authority. rewrite !bool_decide_eq_true. unfold full_lifecycle_hooks.
  rewrite !elem_of_cons, !elem_of_nil. naive_solver.
Qed.

(** A session of a hook that reports everything is over when it was replaced,
    or when its reports are suppressed. *)
Definition retired (t : TerminalState) (source label : string) (r : AgentSessionRef) : Prop :=
  full_lifecycle_hook_authority source label = true
  ∧ (mkStale label r ∈ stale_sessions_of t source
     ∨ ∃ su, tm_suppressed t !! source = Some su ∧ su_agent_label su = label ∧ su_session_ref su = Some r).

(** Only hooks that report everything are suppressed, and not the one that owns
    the terminal. *)
Definition suppressions_full (t : TerminalState) : Prop :=
  ∀ s su, tm_suppressed t !! s = Some su → full_lifecycle_hook_authority s (su_agent_label su) = true.
Definition owner_unsuppressed (t : TerminalState) : Prop :=
  ∀ a, tm_hook_authority t = Some a →
       full_lifecycle_hook_authority (ha_source a) (ha_agent_label a) = true →
       tm_suppressed t !! ha_source a = None.

(** From [t] to [t'], what is over stays over. *)
Definition keeps_retired (t t' : TerminalState) : Prop :=
  suppressions_full t →
  suppressions_full t' ∧ ∀ source label r, retired t source label r → retired t' source label r.

#[export] Instance keeps_retired_preorder : PreOrder keeps_retired.
Proof.
  split; [by intros t ?|]. intros t1 t2 t3 H12 H23 Hok.
  destruct (H12 Hok) as [Hok2 Hr2]. destruct (H23 Hok2) as [Hok3 Hr3]. eauto.
Qed.

Lemma keeps_retired_fields t t' :
  tm_suppressed t' = tm_suppressed t → tm_stale t' = tm_stale t → keeps_retired t t'.
Proof.
  intros Hsu Hst Hok. unfold suppressions_full, retired, stale_sessions_of. rewrite Hsu, Hst. done.
Qed.

Lemma owner_mono t t' :
  tm_hook_authority t' = tm_hook_authority t ∨ tm_hook_authority t' = None →
  (∀ k, tm_suppressed t !! k = None → tm_suppressed t' !! k = None) →
  owner_unsuppressed t → owner_unsuppressed t'.
Proof. intros [Ha|Ha] Hsu Hok a; rewrite Ha; [|done]. intros Ha' Hf. by apply Hsu, Hok. Qed.

Lemma remember_stale_in t source stale s x :
  x ∈ stale_sessions_of t s → x ∈ stale_sessions_of (remember_stale_session t source stale) s.
Proof.
  unfold stale_sessions_of at 2. cbn [tm_stale remember_stale_session]. unfold remember_stale_session.
  change (tm_stale (update tm_stale ?f t)) with (f (tm_stale t)). cbv beta.
  destruct (decide (source = s)) as [->|Hne]; [|by rewrite lookup_insert_ne].
  rewrite lookup_insert_eq. cbn. case_bool_decide; [done|]. rewrite elem_of_app. tauto.
Qed.

Lemma remember_stale_new t source stale : stale ∈ stale_sessions_of (remember_stale_session t source stale) source.
Proof.
  unfold stale_sessions_of at 1, remember_stale_session.
  change (tm_stale (update tm_stale ?f t)) with (f (tm_stale t)). cbv beta. rewrite lookup_insert_eq. cbn.
  case_bool_decide; [done|]. rewrite elem_of_app. right. by apply list_elem_of_singleton.
Qed.

Lemma remember_stales_in t l s x :
  x ∈ stale_sessions_of t s ∨ (s, x) ∈ l → x ∈ stale_sessions_of (remember_stale_sessions t l) s.
Proof.
  unfold remember_stale_sessions. revert t. induction l as [|[s' y] l IH]; intros t; cbn [foldl].
  - rewrite elem_of_nil. tauto.
  - rewrite elem_of_cons. intros [Hx|[[= -> ->]|Hx]]; apply IH; [left; by apply remember_stale_in| |by right].
    left. apply remember_stale_new.
Qed.

Lemma remember_stales_suppressed t l :
  tm_suppressed (remember_stale_sessions t l) = tm_suppressed t
  ∧ tm_hook_authority (remember_stale_sessions t l) = tm_hook_authority t.
Proof.
  unfold remember_stale_sessions. revert t. induction l as [|ss l IH]; intros t; cbn [foldl]; [done|].
  by destruct (IH (remember_stale_session t ss.1 ss.2)) as [-> ->].
Qed.

Lemma remember_stale_keeps t source stale : keeps_retired t (remember_stale_session t source stale).
Proof.
  intros Hok. split; [exact Hok|]. intros s l r [Hf [Hx|Hsu]]; split; [done| |done|by right].
  left. by apply remember_stale_in.
Qed.

Lemma suppress_report_keeps t source label r reason clock :
  tm_suppressed t !! source = None → full_lifecycle_hook_authority source label = true →
  keeps_retired t (suppress_report_with_session_ref t source label r reason clock).
Proof.
  intros Hnone Hfull Hok.
  assert (Hsu : tm_suppressed (suppress_report_with_session_ref t source label r reason clock)
                = <[source := mkSuppressed label r clock reason]> (tm_suppressed t)) by done.
  split.
  - intros s su. rewrite Hsu, lookup_insert. case_decide as Hs; [|apply Hok]. subst s. by intros [= <-].
  - intros s l r' [Hf [Hx|(su & Hl & Hsr)]]; (split; [done|]); [by left|right].
    exists su. rewrite Hsu, lookup_insert_ne; [done|]. intros <-. congruence.
Qed.

(** What owns the terminal may be suppressed: it was not. *)
Lemma suppress_current_keeps t reason clock :
  owner_unsuppressed t → keeps_retired t (suppress_current_authority t reason clock).
Proof.
  intros Hown. unfold suppress_current_authority. destruct (tm_hook_authority t) as [a|] eqn:Ha; [|done].
  destruct (full_lifecycle_hook_authority _ _) eqn:Hf; [|done].
  apply suppress_report_keeps; [by apply Hown|done].
Qed.

Lemma end_suppression_keeps t source : keeps_retired t (end_suppression t source).
Proof.
  intros Hok. unfold end_suppression. destruct (tm_suppressed t !! source) as [su|] eqn:Hsu; [|done].
  set (t1 := t <| tm_suppressed ::= delete source |>).
  assert (Ht1 : tm_suppressed t1 = delete source (tm_suppressed t) ∧ tm_stale t1 = tm_stale t) by done.
  clearbody t1. destruct Ht1 as [Hsu1 Hst1].
  assert (Hok1 : suppressions_full t1).
  { intros s su'. rewrite Hsu1, lookup_delete_Some. intros [_ ?]. by apply Hok. }
  assert (Hkeep : ∀ s l r, retired t s l r → retired t1 s l r ∨ s = source ∧ l = su_agent_label su
                                                                ∧ su_session_ref su = Some r).
  { intros s l r [Hf [Hx|(su' & Hl & Hlab & Hr)]].
    - left. split; [done|]. left. unfold stale_sessions_of in *. by rewrite Hst1.
    - destruct (decide (s = source)) as [->|Hne]; [right; simplify_eq; done|].
      left. split; [done|]. right. exists su'. by rewrite Hsu1, lookup_delete_ne. }
  destruct (su_session_ref su) as [sr|].
  - destruct (remember_stale_keeps t1 source (mkStale (su_agent_label su) sr) Hok1) as [Hok2 Hk2].
    split; [done|]. intros s l r Hret. destruct (Hkeep _ _ _ Hret) as [?|(-> & -> & [= ->])]; [by apply Hk2|].
    split; [apply Hret|]. left. apply remember_stale_new.
  - split; [done|]. intros s l r Hret. by destruct (Hkeep _ _ _ Hret) as [?|(_ & _ & ?)].
Qed.

Lemma end_suppression_gone t source :
  tm_suppressed (end_suppression t source) !! source = None
  ∧ tm_hook_authority (end_suppression t source) = tm_hook_authority t.
Proof.
  unfold end_suppression. destruct (tm_suppressed t !! source) as [su|] eqn:Hsu; [|done].
  destruct (su_session_ref su); (split; [|done]); apply lookup_delete_eq.
Qed.

(** Detection of another agent: its suppressed sessions are stale from now on. *)
Lemma clear_suppression_keeps t previous agent :
  keeps_retired t (clear_suppression_for_detected_agent t previous agent).
Proof.
  unfold clear_suppression_for_detected_agent. destruct agent as [agent|]; [|done].
  case_bool_decide; [done|]. cbv zeta. set (stale := omap _ _).
  set (t1 := t <| tm_suppressed ::= _ |>).
  cut (keeps_retired t (remember_stale_sessions t1 stale)); [done|].
  assert (Ht1 : tm_suppressed t1 = filter (λ ss, suppresses_agent agent ss.2 = false) (tm_suppressed t)
                ∧ tm_stale t1 = tm_stale t) by done.
  clearbody t1. destruct Ht1 as [Hsu1 Hst1]. intros Hok. destruct (remember_stales_suppressed t1 stale) as [Hsu2 _].
  split.
  - intros s su. rewrite Hsu2, Hsu1, map_lookup_filter_Some. intros [? _]. by apply Hok.
  - intros s l r [Hf Hret]. split; [done|]. destruct Hret as [Hx|(su & Hsu & Hl & Hr)].
    + left. apply remember_stales_in. left. unfold stale_sessions_of in *. by rewrite Hst1.
    + destruct (suppresses_agent agent su) eqn:Hag.
      * left. apply remember_stales_in. right. apply list_elem_of_omap. exists (s, su). cbn [fst snd].
        rewrite Hag, Hr, Hl. split; [|done]. rewrite hash_entries_perm. by apply elem_of_map_to_list.
      * right. exists su. by rewrite Hsu2, Hsu1, map_lookup_filter_Some.
Qed.

Lemma clear_suppression_owner t previous agent :
  tm_hook_authority (clear_suppression_for_detected_agent t previous agent) = tm_hook_authority t
  ∧ ∀ k, tm_suppressed t !! k = None →
         tm_suppressed (clear_suppression_for_detected_agent t previous agent) !! k = None.
Proof.
  unfold clear_suppression_for_detected_agent. destruct agent as [agent|]; [|done].
  case_bool_decide; [done|]. cbv zeta. set (stale := omap _ _).
  set (t1 := t <| tm_suppressed ::= _ |>). destruct (remember_stales_suppressed t1 stale) as [Hsu Ha].
  split; [exact Ha|]. intros k Hk.
  change (tm_suppressed (remember_stale_sessions t1 stale) !! k = None). rewrite Hsu.
  change (filter (λ ss, suppresses_agent agent ss.2 = false) (tm_suppressed t) !! k = None).
  apply map_lookup_filter_None. by left.
Qed.

(** A step under the invariant of suppressions *)
Definition lifecycle_ok (t : TerminalState) : Prop := suppressions_full t ∧ owner_unsuppressed t.
Definition carries (t t' : TerminalState) : Prop :=
  lifecycle_ok t → lifecycle_ok t' ∧ keeps_retired t t'.

#[export] Instance carries_preorder : PreOrder carries.
Proof.
  split; [by intros t Hok; split|]. intros t1 t2 t3 H12 H23 Hok.
  destruct (H12 Hok) as [Hok2 Hk2]. destruct (H23 Hok2) as [Hok3 Hk3]. split; [done|by etrans].
Qed.

(** The parts of the terminal this is about *)
Definition same_lifecycle (t t' : TerminalState) : Prop :=
  tm_hook_authority t' = tm_hook_authority t ∧ tm_suppressed t' = tm_suppressed t ∧ tm_stale t' = tm_stale t.

Lemma same_lifecycle_carries t t' : same_lifecycle t t' → carries t t'.
Proof.
  intros (Ha & Hsu & Hst) [Hfull Hown].
  pose proof (keeps_retired_fields t t' Hsu Hst) as Hk. split; [|done]. split; [by apply Hk|].
  eapply owner_mono; [by left| |exact Hown]. by rewrite Hsu.
Qed.

Lemma recompute_lifecycle t previous now : same_lifecycle t (recompute_effective_state t previous now).1.
Proof.
  unfold recompute_effective_state.
  pose proof (clear_expiry_same t) as (_ & _ & _ & _ & Ha & _ & _ & Hsu & Hst & _). by case_match.
Qed.

Lemma finish_lifecycle t previous session now : same_lifecycle t (finish_mutation t previous session now).1.
Proof.
  pose proof (recompute_lifecycle t previous now) as H. unfold finish_mutation.
  by destruct (recompute_effective_state _ _ _).
Qed.

Lemma finish_carries t t1 previous session now :
  carries t t1 → carries t (finish_mutation t1 previous session now).1.
Proof. intros H. etrans; [exact H|]. apply same_lifecycle_carries, finish_lifecycle. Qed.

Lemma finish_some_carries t t1 previous session now :
  carries t t1 →
  carries t (let '(t, m) := finish_mutation t1 previous session now in (t, Some m)).1.
Proof.
  intros H. pose proof (finish_carries t t1 previous session now H) as Hc.
  by destruct (finish_mutation _ _ _ _).
Qed.

(** The authority is dropped, and suppressed before that *)
Lemma drop_authority_carries t t' reason clock :
  tm_hook_authority t' = None → tm_suppressed t' = tm_suppressed (suppress_current_authority t reason clock) →
  tm_stale t' = tm_stale t → carries t t'.
Proof.
  intros Ha Hsu Hst [Hfull Hown].
  assert (Hk : keeps_retired t t').
  { etrans; [by apply suppress_current_keeps|]. apply keeps_retired_fields; [exact Hsu|].
    rewrite Hst. unfold suppress_current_authority. by repeat case_match. }
  split; [|done]. split; [by apply Hk|]. intros a. by rewrite Ha.
Qed.

Lemma suppress_current_stale t reason clock : tm_stale (suppress_current_authority t reason clock) = tm_stale t.
Proof. unfold suppress_current_authority. by repeat case_match. Qed.

Lemma record_detection_carries t agent fallback visible exited now :
  carries t (record_detection t agent fallback visible exited now).
Proof.
  unfold record_detection. cbv zeta. set (t1 := if negb exited then _ else _).
  assert (Ht1 : carries t t1).
  { subst t1. destruct exited; [by apply same_lifecycle_carries|]. etrans.
    - by apply (same_lifecycle_carries t (t <| tm_detected_agent := agent |>)).
    - intros [Hfull Hown]. set (t0 := t <| tm_detected_agent := agent |>) in *.
      pose proof (clear_suppression_keeps t0 (tm_detected_agent t) agent) as Hk.
      destruct (clear_suppression_owner t0 (tm_detected_agent t) agent) as [Ha Hsu].
      split; [|done]. split; [by apply Hk|]. eapply owner_mono; [by left|exact Hsu|exact Hown]. }
  etrans; [exact Ht1|]. clearbody t1. apply same_lifecycle_carries. by destruct (exited && _), (bool_decide _).
Qed.

Lemma end_process_carries t agent now clock : carries t (end_process t agent now clock).
Proof.
  etrans; [|apply (same_lifecycle_carries (end_authority t agent now clock)); unfold end_process; by case_match].
  unfold end_authority. case_match; [|done]. cbv zeta.
  apply (drop_authority_carries _ _ SuppressionReason.ProcessExit clock); [done|..];
    (destruct (ha_source <$> tm_hook_authority t); [|try done]).
  - done.
  - apply suppress_current_stale.
  - apply suppress_current_stale.
Qed.

Lemma drop_outdated_carries t previous agent now clock : carries t (drop_outdated_authority t previous agent now clock).
Proof.
  unfold drop_outdated_authority. case_match; [|done].
  apply (drop_authority_carries _ _ SuppressionReason.HookClear clock); [done..|]. apply suppress_current_stale.
Qed.

Lemma detection_carries t agent fallback visible exited now clock :
  carries t (set_detected_state t agent fallback visible exited now clock).1.
Proof.
  unfold set_detected_state. cbv zeta. case_match; [|case_match]; apply finish_carries; [|done|].
  - apply same_lifecycle_carries. by case_bool_decide.
  - etrans; [|apply drop_outdated_carries]. etrans; [apply record_detection_carries|].
    destruct exited; [apply end_process_carries|done].
Qed.

Lemma accept_hook_report_lifecycle t source seq : same_lifecycle t (accept_hook_report t source seq).1.
Proof. unfold accept_hook_report. by repeat case_match. Qed.

(** A report without a session gets through when its source is not suppressed. *)
Lemma unsuppressed_report t source label :
  suppressions_full t → full_lifecycle_hook_authority source label = true →
  full_lifecycle_hook_report_is_suppressed t source label None = false → tm_suppressed t !! source = None.
Proof.
  intros Hfull Hf. unfold full_lifecycle_hook_report_is_suppressed, suppressed_by. rewrite Hf. cbn [negb].
  destruct (tm_suppressed t !! source) as [su|] eqn:Hsu; [|done].
  rewrite (full_lifecycle_label source label (su_agent_label su) Hf (Hfull _ _ Hsu)).
  rewrite bool_decide_true by done. cbn [negb]. case_bool_decide; [done|]. by destruct (su_session_ref su).
Qed.

Lemma take_hook_report_carries t takeover source label state message r now clock :
  (r = None → takeover = false) →
  (r = None → suppressions_full t → full_lifecycle_hook_authority source label = true →
   tm_suppressed t !! source = None) →
  carries t (take_hook_report t takeover source label state message r now clock).
Proof.
  intros Htake Hnone [Hfull Hown]. unfold take_hook_report. cbv zeta.
  set (t1 := if takeover then _ else t). set (t2 := if bool_decide _ then _ else t1).
  assert (Hk1 : keeps_retired t t1) by (subst t1; destruct takeover; [by apply suppress_current_keeps|done]).
  assert (Hk2 : keeps_retired t t2).
  { etrans; [exact Hk1|]. subst t2. case_bool_decide; [apply end_suppression_keeps|done]. }
  assert (Hsu2 : full_lifecycle_hook_authority source label = true → tm_suppressed t2 !! source = None).
  { intros Hf. subst t2. destruct r as [r|]; [apply end_suppression_gone|].
    subst t1. rewrite Htake by done. by apply Hnone. }
  clearbody t2. split.
  - split; [exact (proj1 (Hk2 Hfull))|]. intros a [= <-]. exact Hsu2.
  - exact Hk2.
Qed.

Lemma report_carries t source label state message r seq now clock :
  carries t (set_hook_authority_at t source label state message r seq now clock).1.
Proof.
  unfold set_hook_authority_at. cbv zeta.
  destruct (full_lifecycle_hook_report_is_suppressed t source label r) eqn:Hsupp; [done|].
  set (reanchor := _ || _). set (takeover := _ && foreground_agent_confirms_hook_authority_takeover _ _ _ _).
  assert (Htake : r = None → takeover = false) by (intros ->; apply andb_false_r). clearbody reanchor takeover.
  assert (Hr : reported_session t source label r = None ↔ r = None) by (by destruct r).
  set (r' := reported_session t source label r) in *. clearbody r'.
  repeat (case_match; [done|]).
  set (t0 := if reanchor then _ else t).
  assert (Ht0 : same_lifecycle t t0) by (subst t0; by destruct reanchor). clearbody t0.
  pose proof (accept_hook_report_lifecycle t0 source seq) as Ht1.
  destruct (accept_hook_report t0 source seq) as [t1 accepted]. cbn [fst] in Ht1.
  destruct Ht0 as (Ha0 & Hsu0 & Hst0). destruct Ht1 as (Ha1 & Hsu1 & Hst1).
  assert (Hcar : carries t t1) by (apply same_lifecycle_carries; split_and!; congruence).
  destruct accepted; cbn [negb]; [|done].
  apply finish_some_carries. etrans; [exact Hcar|].
  apply take_hook_report_carries; intros Hnone; apply Hr in Hnone; [by apply Htake|].
  subst r. rewrite Hsu1, Hsu0. intros Hfull Hf. eapply unsuppressed_report; [|exact Hf|exact Hsupp].
  intros s su. rewrite <- Hsu0, <- Hsu1. apply Hfull.
Qed.

Lemma clear_carries t source seq now clock : carries t (clear_hook_authority t source seq now clock).1.
Proof.
  unfold clear_hook_authority. cbv zeta.
  match goal with |- context [match ?p with (t, accepted) => if negb accepted then _ else _ end] =>
    assert (Hp : same_lifecycle t p.1); [|destruct p as [t1 accepted]] end.
  { destruct source as [source|]; [apply accept_hook_report_lifecycle|].
    destruct (ha_source <$> tm_hook_authority t); [apply accept_hook_report_lifecycle|done]. }
  apply same_lifecycle_carries in Hp. destruct accepted; cbn [negb]; [|done].
  match goal with |- context [if negb ?b then _ else _] => destruct b end; cbn [negb]; [|done].
  match goal with |- context [recompute_effective_state ?t3 ?previous ?now] =>
    pose proof (recompute_lifecycle t3 previous now) as Hre; etrans; [exact Hp|];
    etrans; [apply (drop_authority_carries t1 t3 SuppressionReason.HookClear clock);
             [done..|apply suppress_current_stale]|];
    destruct (recompute_effective_state t3 previous now) end.
  by apply same_lifecycle_carries.
Qed.

(** Two operations may begin a session again; the sessions [P] they spare stay
    over. *)
Definition carries_for (P : string → string → AgentSessionRef → Prop) (t t' : TerminalState) : Prop :=
  lifecycle_ok t → lifecycle_ok t' ∧ ∀ s l r, P s l r → retired t s l r → retired t' s l r.

#[export] Instance carries_for_preorder P : PreOrder (carries_for P).
Proof.
  split; [by intros t Hok; split|]. intros t1 t2 t3 H12 H23 Hok.
  destruct (H12 Hok) as [Hok2 Hk2]. destruct (H23 Hok2) as [Hok3 Hk3]. split; [done|]. eauto.
Qed.

Lemma carries_all P t t' : carries t t' → carries_for P t t'.
Proof. intros H Hok. destruct (H Hok) as [Hok' Hk]. split; [done|]. intros s l r _. by apply Hk, Hok. Qed.

Lemma finish_for P t t1 previous session now :
  carries_for P t t1 →
  carries_for P t (let '(t, m) := finish_mutation t1 previous session now in (t, Some m)).1.
Proof.
  intros H. etrans; [exact H|]. pose proof (finish_lifecycle t1 previous session now) as Hf.
  destruct (finish_mutation _ _ _ _). by apply carries_all, same_lifecycle_carries.
Qed.

Lemma forget_stale_for t source label r :
  carries_for (λ s l r', (s, l, r') ≠ (source, label, r)) t (forget_stale_session t source label r).
Proof.
  intros [Hfull Hown].
  assert (Hsu : tm_suppressed (forget_stale_session t source label r) = tm_suppressed t
                ∧ tm_hook_authority (forget_stale_session t source label r) = tm_hook_authority t)
    by (unfold forget_stale_session; by repeat case_match).
  destruct Hsu as [Hsu Ha]. split.
  - split; [intros s su; rewrite Hsu; apply Hfull|]. eapply owner_mono; [by left| |exact Hown]. by rewrite Hsu.
  - intros s l r' Hne [Hf Hret]. split; [done|]. destruct Hret as [Hx|Hret]; [left|right; by rewrite Hsu].
    revert Hx. unfold forget_stale_session, stale_sessions_of.
    destruct (tm_stale t !! source) as [sessions|] eqn:Hst; [|done].
    destruct (decide (s = source)) as [->|Hs].
    + rewrite Hst. cbn. intros Hx.
      assert (Hin : mkStale l r' ∈ filter (λ stale, stale ≠ mkStale label r) sessions).
      { apply list_elem_of_filter. split; [congruence|done]. }
      set (kept := filter (λ stale, stale ≠ mkStale label r) sessions) in *. clearbody kept.
      case_bool_decide as Hkept; [subst kept; by apply elem_of_nil in Hin|].
      change (mkStale l r' ∈ default [] (<[source := kept]> (tm_stale t) !! source)).
      by rewrite lookup_insert_eq.
    + intros Hx. set (kept := filter (λ stale, stale ≠ mkStale label r) sessions). clearbody kept.
      case_bool_decide; [change (mkStale l r' ∈ default [] (delete source (tm_stale t) !! s))
                        |change (mkStale l r' ∈ default [] (<[source := kept]> (tm_stale t) !! s))];
        by rewrite ?lookup_delete_ne, ?lookup_insert_ne.
Qed.

Lemma session_start_for t source label ref seq start now clock :
  carries_for (λ s l r', (s, l, Some r') ≠ (source, label, ref)) t
    (set_agent_session_ref_for_session_start t source label ref seq start now clock).1.
Proof.
  unfold set_agent_session_ref_for_session_start. destruct ref as [r|]; [|done].
  pose proof (accept_hook_report_lifecycle t source seq) as Ht1.
  destruct (accept_hook_report t source seq) as [t1 accepted]. cbn [fst] in Ht1. cbv zeta.
  set (takeover := _ && foreground_agent_confirms_different_owner_takeover _ _ _ _ _). clearbody takeover.
  set (replaced := same_owner_authority_session_ref _ _ _ _). clearbody replaced.
  etrans; [by apply carries_all, same_lifecycle_carries|].
  repeat (case_match; [done|]). apply finish_for.
  match goal with |- context [if ?b then forget_stale_session t1 source label r else t1] => generalize b end.
  intros forget. set (t2 := if forget then _ else t1).
  assert (Ht2 : carries_for (λ s l r', (s, l, Some r') ≠ (source, label, Some r)) t1 t2).
  { subst t2. destruct forget; [|done]. intros Hok. destruct (forget_stale_for t1 source label r Hok) as [Hok' Hk].
    split; [done|]. intros s l r' Hne. apply Hk. congruence. }
  clearbody t2. etrans; [exact Ht2|]. apply carries_all.
  set (t3 := match replaced with Some _ => _ | None => _ end). etrans; [|by apply (same_lifecycle_carries t3)].
  subst t3. destruct replaced as [old|].
  - intros [Hfull Hown]. pose proof (remember_stale_keeps t2 source (mkStale label old)) as Hk.
    split; [|done]. split; [by apply Hk|]. by intros a.
  - destruct takeover; [|done].
    apply (drop_authority_carries t2 _ SuppressionReason.HookClear clock); [done..|]. apply suppress_current_stale.
Qed.

(** A release with no hook in charge may overwrite what is suppressed. *)
Lemma release_for t source label seq now clock :
  carries_for (λ s _ _, s = source → tm_hook_authority t ≠ None) t (release_agent t source label seq now clock).1.
Proof.
  unfold release_agent. pose proof (accept_hook_report_lifecycle t source seq) as Ht1.
  destruct (accept_hook_report t source seq) as [t1 accepted]. cbn [fst] in Ht1.
  destruct accepted; cbn [negb]; [|by apply carries_all, same_lifecycle_carries].
  match goal with |- context [if ?b then (t1, None) else _] => destruct b eqn:Howner end;
    [by apply carries_all, same_lifecycle_carries|].
  match goal with |- context [if ?b then (t1, None) else _] => destruct b end;
    [by apply carries_all, same_lifecycle_carries|].
  apply finish_for.
  set (t2 := suppress_full_lifecycle_hook_report t1 source label SuppressionReason.HookClear clock).
  match goal with |- carries_for _ _ ?x => set (t3 := x) end.
  assert (Ht3 : tm_hook_authority t3 = None ∧ tm_suppressed t3 = tm_suppressed t2 ∧ tm_stale t3 = tm_stale t1).
  { assert (Hst2 : tm_stale t2 = tm_stale t1)
      by (subst t2; unfold suppress_full_lifecycle_hook_report; by destruct (full_lifecycle_hook_authority _ _)).
    subst t3. match goal with |- context [if negb ?b then _ else _] => destruct b end; done. }
  clearbody t3. destruct Ht3 as (Ha3 & Hsu3 & Hst3). destruct Ht1 as (Ha1 & Hsu1 & Hst1). intros [Hfull Hown].
  assert (Hfull1 : suppressions_full t1) by (intros s su; rewrite Hsu1; apply Hfull).
  assert (Hsu2 : full_lifecycle_hook_authority source label = false ∧ t2 = t1
                 ∨ full_lifecycle_hook_authority source label = true
                   ∧ t2 = suppress_report_with_session_ref t1 source label
                            (tm_hook_authority t1 ≫= ha_session_ref) SuppressionReason.HookClear clock).
  { subst t2. unfold suppress_full_lifecycle_hook_report. destruct (full_lifecycle_hook_authority _ _); tauto. }
  clearbody t2. destruct Hsu2 as [[_ ->]|[Hf ->]].
  - split; [split; [intros s su; rewrite Hsu3; apply Hfull1|intros a; by rewrite Ha3]|].
    intros s l r _. unfold retired, stale_sessions_of. by rewrite Hsu3, Hst3, Hsu1, Hst1.
  - change (tm_suppressed t3 = <[source := mkSuppressed label (tm_hook_authority t1 ≫= ha_session_ref) clock
      SuppressionReason.HookClear]> (tm_suppressed t1)) in Hsu3.
    split; [split; [|intros a; by rewrite Ha3]|].
    + intros s su. rewrite Hsu3, lookup_insert. case_decide as Hs; [|apply Hfull1]. subst s. by intros [= <-].
    + intros s l r Hspare [Hfs Hret]. split; [done|].
      destruct Hret as [Hx|(su & Hsu & Hl & Hr)]; [left; unfold stale_sessions_of in *; congruence|right].
      exists su. rewrite Hsu3, lookup_insert_ne, Hsu1; [done|]. intros <-.
      destruct (tm_hook_authority t) as [a|] eqn:Ha; [|by apply Hspare].
      rewrite Ha1 in Howner. apply orb_false_iff in Howner as [Hal Has].
      rewrite !negb_false_iff, !bool_decide_eq_true in Hal, Has.
      rewrite <- Has, <- Hal in *. by rewrite (Hown a Ha Hf) in Hsu.
Qed.

(** An operation that may begin a session again *)
Definition revives (t : TerminalState) (op : terminal_op) (source label : string) (r : AgentSessionRef) : Prop :=
  match op with
  | AgentOp (SessionStart source' label' r' _ _) _ _ => (source, label, Some r) = (source', label', r')
  | AgentOp (Release source' _ _) _ _ => source = source' ∧ tm_hook_authority t = None
  | ClearAgentRuntimeIdentity => True
  | _ => False
  end.

Lemma same_agent_carries P t t' : same_agent t t' → carries_for P t t'.
Proof. intros (_ & _ & _ & _ & Ha & _ & _ & Hsu & Hst & _). by apply carries_all, same_lifecycle_carries. Qed.

Lemma set_agent_metadata_lifecycle t report now : same_lifecycle t (set_agent_metadata t report now).1.
Proof.
  unfold set_agent_metadata. cbv zeta.
  pose proof (accept_metadata_same t (mr_source report) (mr_seq report) false) as Hacc.
  destruct (accept_metadata_report _ _ _ _) as [t1 accepted]. cbn [fst] in Hacc.
  destruct Hacc as (_ & _ & _ & _ & Ha & _ & _ & Hsu & Hst & _).
  destruct accepted as [[]|]; [|done..].
  match goal with |- context [recompute_effective_state ?x ?p now] => set (t3 := x); set (previous := p) end.
  assert (Ht3 : same_lifecycle t1 t3).
  { subst t3. match goal with |- context [write_metadata ?x report now] => set (t2 := x) end.
    assert (H2 : same_lifecycle t1 t2) by (subst t2; by case_match). clearbody t2.
    by destruct (bool_decide (is_Some (mr_ttl report)) && _). }
  clearbody t3 previous. destruct (recompute_lifecycle t3 previous now) as (Ha4 & Hsu4 & Hst4).
  destruct (recompute_effective_state t3 previous now) as [t4 change].
  destruct Ht3 as (Ha3 & Hsu3 & Hst3). cbn [fst] in *.
  case_bool_decide; cbn [fst]; [|split_and!; congruence].
  pose proof (clear_expiry_same t4) as (_ & _ & _ & _ & Ha5 & _ & _ & Hsu5 & Hst5 & _).
  split_and!; congruence.
Qed.

Lemma expire_metadata_lifecycle t scheduled now : same_lifecycle t (expire_agent_metadata_at t scheduled now).1.
Proof.
  unfold expire_agent_metadata_at. cbv zeta.
  set (expired := (List.filter _ _).*1). set (stale := (List.filter _ _).*1). clearbody stale expired.
  destruct (remove_metadata_same t stale) as (_ & _ & _ & _ & Ha1 & _ & _ & Hsu1 & Hst1 & _).
  case_bool_decide; [done|].
  destruct (remove_metadata_same (remove_metadata t stale) expired) as (_ & _ & _ & _ & Ha2 & _ & _ & Hsu2 & Hst2 & _).
  match goal with |- context [recompute_effective_state ?t3 ?previous ?now] =>
    destruct (recompute_lifecycle t3 previous now) as (Ha3 & Hsu3 & Hst3);
    destruct (recompute_effective_state t3 previous now) as [t4 change] end.
  cbn [fst] in *. split_and!; congruence.
Qed.

Lemma terminal_step_for t op : carries_for (λ s l r, ¬ revives t op s l r) t (terminal_step t op).
Proof.
  destruct op; cbn [terminal_step revives]; try (by apply carries_all, same_lifecycle_carries).
  - destruct op; cbn [agent_step].
    + pose proof (detection_carries t agent fallback_state visible_blocker process_exited now clock) as Hd.
      destruct (set_detected_state _ _ _ _ _ _ _). by apply carries_all.
    + apply carries_all, report_carries.
    + apply session_start_for.
    + apply carries_all, clear_carries.
    + intros Hok. destruct (release_for t source agent_label seq now clock Hok) as [Hok' Hk]. split; [done|].
      intros s l r Hspare. apply Hk. tauto.
  - apply carries_all, same_lifecycle_carries, set_agent_metadata_lifecycle.
  - apply same_agent_carries, accept_metadata_same.
  - apply carries_all, same_lifecycle_carries, expire_metadata_lifecycle.
  - apply carries_all, same_lifecycle_carries. unfold set_terminal_title. cbv zeta. by repeat case_match.
  - intros _. split; [|tauto]. split; [by intros s su|by intros a].
Qed.

Definition run_terminal : TerminalState → list terminal_op → TerminalState := foldl terminal_step.

Lemma run_settled id cwd ops : settled (run_terminal (TerminalState_new id cwd) ops).
Proof.
  unfold run_terminal. induction ops as [|op ops IH] using rev_ind; [done|].
  rewrite foldl_app. apply terminal_step_settled, IH.
Qed.

(** None of the operations may begin the session again. *)
Fixpoint never_revived (t : TerminalState) (ops : list terminal_op) (source label : string) (r : AgentSessionRef) :
    Prop :=
  match ops with
  | [] => True
  | op :: ops => ¬ revives t op source label r ∧ never_revived (terminal_step t op) ops source label r
  end.

Lemma run_lifecycle t ops : lifecycle_ok t → lifecycle_ok (run_terminal t ops).
Proof.
  revert t. induction ops as [|op ops IH]; intros t Hok; cbn [run_terminal foldl]; [done|].
  apply IH. by apply (terminal_step_for t op).
Qed.

Lemma run_retired t ops source label r :
  lifecycle_ok t → retired t source label r → never_revived t ops source label r →
  retired (run_terminal t ops) source label r.
Proof.
  revert t. induction ops as [|op ops IH]; intros t Hok Hret Hops; cbn [run_terminal foldl]; [done|].
  destruct Hops as [Hop Hops]. destruct (terminal_step_for t op Hok) as [Hok' Hk]. apply IH; [done| |done].
  by apply Hk.
Qed.

Lemma new_lifecycle id cwd : lifecycle_ok (TerminalState_new id cwd).
Proof. split; [by intros s su|by intros a]. Qed.

Lemma retired_report_rejected t source label state message r seq now clock :
  retired t source label r → set_hook_authority_at t source label state message (Some r) seq now clock = (t, None).
Proof.
  intros [Hf Hret]. unfold set_hook_authority_at. destruct (full_lifecycle_hook_report_is_suppressed _ _ _ _) eqn:Hs; [done|].
  destruct Hret as [Hx|(su & Hsu & Hl & Hr)].
  - unfold report_matches_stale_session. by rewrite Hf, bool_decide_true.
  - exfalso. revert Hs. unfold full_lifecycle_hook_report_is_suppressed, suppressed_by. rewrite Hf, Hsu, Hl. cbn [negb].
    rewrite bool_decide_true by done. cbn [negb]. case_bool_decide; [done|]. rewrite Hr. by case_bool_decide.
Qed.

(** C36: Whatever detection, hooks, metadata and respawns do to a terminal, the
    state it keeps is the one its arbitration rules give, and each step of
    detection or of a hook tells exactly what it changed: the change it returns
    goes from the agent, state and presentation before to those after and these
    differ, no change means that they are the same, and the flag of the session
    is set when the session to persist is another one.  A step that is rejected
    changes nothing that shows. *)
Theorem terminal_steps_report_changes (id cwd : string) (ops : list terminal_op) (op : agent_op) (now clock : N) :
  let t := run_terminal (TerminalState_new id cwd) ops in
  tm_state t = arbitrated_state t
  ∧ step_reports t (agent_step t op now clock).1 now (agent_step t op now clock).2.
Proof.
  intros t. split.
  - apply run_settled.
  - eapply agent_step_shown, surjective_pairing.
Qed.

(** C37: A session that is over stays over: once the session of a hook that
    reports everything was replaced or is suppressed, every report of it is
    rejected and leaves the terminal as it is, in whatever order detection,
    reports, metadata and titles arrive, as long as the session is not started
    again, its source is not released while no hook owns the terminal, and the
    terminal is not respawned. *)
Theorem retired_session_stays_over (id cwd : string) (ops later : list terminal_op) (source label : string)
    (r : AgentSessionRef) (state : AgentState) (message : option string) (seq : option N) (now clock : N) :
  let t := run_terminal (TerminalState_new id cwd) ops in
  retired t source label r → never_revived t later source label r →
  let t' := run_terminal t later in
  set_hook_authority_at t' source label state message (Some r) seq now clock = (t', None).
Proof.
  intros t Hret Hlater t'. apply retired_report_rejected. apply run_retired; [|done..].
  apply run_lifecycle, new_lifecycle.
Qed.

(** What is on the screen, as detection sees it *)
Record sight := mkSight { si_agent : option Agent; si_state : AgentState; si_blocker : bool; si_now : N; si_clock : N }.
Definition see (t : TerminalState) (s : sight) : TerminalState :=
  (set_detected_state t (si_agent s) (si_state s) (si_blocker s) false (si_now s) (si_clock s)).1.

Lemma see_authority t s :
  live_full_lifecycle_hook_authority t = true →
  hook_authority_conflicts_with_detected_agent t (si_agent s) = false →
  tm_hook_authority (see t s) = tm_hook_authority t.
Proof.
  intros Hlive Hok. unfold see, set_detected_state. cbv zeta. unfold should_ignore_detected_state.
  rewrite Hlive, Hok. cbn [negb andb]. etrans; [apply finish_lifecycle|]. by case_bool_decide.
Qed.

(** A hook that reports everything decides: as long as its agent runs and no
    other agent is seen, the terminal is in the state the hook reported last,
    whatever detection makes of the screen, blockers included. *)
Theorem full_lifecycle_hook_decides (id cwd : string) (ops : list terminal_op) (a : HookAuthority)
    (sights : list sight) :
  let t := run_terminal (TerminalState_new id cwd) ops in
  tm_hook_authority t = Some a →
  full_lifecycle_hook_authority (ha_source a) (ha_agent_label a) = true →
  Forall (λ s, match si_agent s, parse_agent_label (ha_agent_label a) with
               | Some seen, Some agent => seen = agent | _, _ => True end) sights →
  let t' := foldl see t sights in
  tm_hook_authority t' = Some a ∧ tm_state t' = ha_state a.
Proof.
  intros t Ha Hfull Hsights t'.
  assert (Hset : settled t) by apply run_settled.
  assert (Hrun : tm_hook_authority t' = Some a ∧ settled t').
  { subst t'. clearbody t. revert t Ha Hset. induction Hsights as [|s sights Hs Hsights IH]; intros t Ha Hset; [done|].
    cbn [foldl]. apply IH.
    - rewrite see_authority; [done|..].
      + unfold live_full_lifecycle_hook_authority. by rewrite Ha.
      + unfold hook_authority_conflicts_with_detected_agent. rewrite Ha. destruct (si_agent s); [|done].
        destruct (parse_agent_label _); [|done]. by rewrite Hs, bool_decide_true.
    - apply (terminal_step_settled t (AgentOp (Detect (si_agent s) (si_state s) (si_blocker s) false)
                                        (si_now s) (si_clock s))) in Hset.
      revert Hset. cbn [terminal_step agent_step]. unfold see. by destruct (set_detected_state _ _ _ _ _ _ _). }
  destruct Hrun as [Ha' Hst]. split; [done|]. rewrite Hst. unfold arbitrated_state, visible_blocker_overrides_hook,
    live_full_lifecycle_hook_authority. by rewrite Ha', Hfull.
Qed.
End facts.

(** ** A terminal with an agent *)

Module TerminalsDemo.
(** A map iterated over in the order of its keys' set *)
#[local] Instance by_key : HashOrder := λ K _ _ A m, omap (λ k, pair k <$> m !! k) (elements (dom m)).

#[local] Instance by_key_spec : HashOrderSpec.
Proof.
  split.
  - intros K ? ? A m. apply NoDup_Permutation; [|apply NoDup_map_to_list|].
    + unfold hash_entries, by_key. apply (NoDup_fmap_1 fst).
      assert (Hkeys : ∀ l : list K, (∀ k, k ∈ l → k ∈ dom m) → (omap (λ k, pair k <$> m !! k) l).*1 = l).
      { induction l as [|k l IH]; intros Hl; cbn; [done|].
        destruct (m !! k) as [x|] eqn:Hk; cbn; [f_equal; apply IH; set_solver|].
        apply not_elem_of_dom in Hk. set_solver. }
      rewrite Hkeys; [apply NoDup_elements|]. set_solver.
    + intros [k x]. rewrite elem_of_map_to_list. unfold hash_entries, by_key. rewrite list_elem_of_omap. split.
      * intros (k' & _ & Hk). destruct (m !! k') eqn:Hm; naive_solver.
      * intros Hk. exists k. rewrite Hk. split; [|done]. apply elem_of_elements, elem_of_dom. by exists x.
  - intros K ? ? A B f m. unfold hash_entries, by_key.
    assert (Hdom : dom (map_imap (λ k x, Some (f k x)) m) = dom m).
    { apply set_eq. intros k. rewrite !elem_of_dom, map_lookup_imap. destruct (m !! k); cbn; [|done].
      split; intros; by eexists. }
    rewrite Hdom. induction (elements (dom m)) as [|k ks IH]; cbn; [done|].
    rewrite map_lookup_imap. destruct (m !! k); cbn; by rewrite IH.
Qed.

Definition session_a : AgentSessionRef := mkAgentSessionRef AgentSessionRefKind.Id "a".
Definition session_b : AgentSessionRef := mkAgentSessionRef AgentSessionRefKind.Id "b".

Definition detect (agent : Agent) (state : AgentState) (exited : bool) (now : N) : terminal_op :=
  AgentOp (Detect (Some agent) state false exited) now now.
Definition report_a (state : AgentState) (seq now : N) : terminal_op :=
  AgentOp (Report "nagi:pi" "pi" state None (Some session_a) (Some seq)) now now.

(** A hook reports while the screen shows something else. *)
Definition working : list terminal_op :=
  [detect Agent.Pi AgentState.Idle false 10; report_a AgentState.Working 20 20].
(** Its process exits. *)
Definition exited : list terminal_op := working ++ [detect Agent.Pi AgentState.Unknown true 30].

Definition new : TerminalState := TerminalState_new "t1" "/work".

Example working_state : tm_state (run_terminal new working) = AgentState.Working.
Proof. vm_compute. reflexivity. Qed.

Lemma terminal_steps_report_changes_witness :
  tm_state (run_terminal new working) = arbitrated_state (run_terminal new working)
  ∧ step_reports (run_terminal new working)
      (agent_step (run_terminal new working) (Clear None None) 40 40).1 40
      (agent_step (run_terminal new working) (Clear None None) 40 40).2.
Proof. exact (terminal_steps_report_changes "t1" "/work" working (Clear None None) 40 40). Defined.

Lemma full_lifecycle_hook_decides_witness :
  tm_state (foldl see (run_terminal new working)
              [mkSight (Some Agent.Pi) AgentState.Blocked true 25 25; mkSight None AgentState.Idle false 26 26])
  = AgentState.Working.
Proof.
  refine (proj2 (full_lifecycle_hook_decides "t1" "/work" working
    (mkHookAuthority "nagi:pi" "pi" AgentState.Working None 20 (Some session_a))
    [mkSight (Some Agent.Pi) AgentState.Blocked true 25 25; mkSight None AgentState.Idle false 26 26] _ _ _)).
  - vm_compute. reflexivity.
  - vm_compute. reflexivity.
  - repeat constructor.
Defined.

Lemma retired_session_stays_over_witness :
  set_hook_authority_at (run_terminal (run_terminal new exited) [detect Agent.Claude AgentState.Idle false 40])
    "nagi:pi" "pi" AgentState.Working None (Some session_a) (Some 99%N) 50 50
  = (run_terminal (run_terminal new exited) [detect Agent.Claude AgentState.Idle false 40], None).
Proof.
  refine (retired_session_stays_over "t1" "/work" exited [detect Agent.Claude AgentState.Idle false 40]
            "nagi:pi" "pi" session_a AgentState.Working None (Some 99%N) 50 50 _ _).
  - split; [vm_compute; reflexivity|]. right.
    exists (mkSuppressed "pi" (Some session_a) 30 SuppressionReason.ProcessExit).
    split_and!; vm_compute; reflexivity.
  - split; [|done]. intros [].
Defined.

(** The release that follows the exit of the process overwrites what was
    suppressed: a report that comes later brings the agent back. *)
Example release_revives_session :
  let released := run_terminal new (exited ++ [AgentOp (Release "nagi:pi" "pi" (Some 21%N)) 40 40]) in
  tm_hook_authority (run_terminal new exited) = None
  ∧ (set_hook_authority_at (run_terminal new exited) "nagi:pi" "pi" AgentState.Working None (Some session_a)
       (Some 22%N) 50 50).2 = None
  ∧ ha_session_ref <$> tm_hook_authority (set_hook_authority_at released "nagi:pi" "pi" AgentState.Working None
       (Some session_a) (Some 22%N) 50 50).1 = Some (Some session_a).
Proof. vm_compute. split_and!; reflexivity. Qed.
End TerminalsDemo.
