(* ===== verification/PublicIds.v ===== *)
(** * Identifiers of workspaces, tabs, panes and terminals ([src/src/workspace.rs],
    [src/src/terminal/id.rs])

    Public numbers are written in a bijective base 32, whose digits are 1 to 32;
    the counters of the process give out panes, terminals and workspaces. *)

From S2P Require Export Text.

(** ** Public numbers *)

(** [PUBLIC_ID_ALPHABET] *)
Definition PUBLIC_ID_ALPHABET : list ascii := str_bytes "123456789ABCDEFGHJKMNPQRSTVWXYZ0".

Definition alphabet_at (digit : N) : ascii := nth (N.to_nat digit) PUBLIC_ID_ALPHABET "0"%char.

(** The digits in the order in which they are pushed.  A step makes a positive
    number smaller by more than half: the bits of a number are enough fuel. *)
Fixpoint encode_digits (fuel : nat) (value : N) : list ascii :=
  match fuel with
  | O => []
  | S fuel =>
      if (value =? 0)%N then []
      else alphabet_at ((value - 1) mod 32) :: encode_digits fuel ((value - 1) / 32)
  end.

Definition encode_public_number (value : N) : string :=
  if (value =? 0)%N then "0" else str_of_bytes (reverse (encode_digits (N.to_nat (N.size value)) value)).

(** A [char] is compared with a byte of the alphabet. *)
Definition alphabet_position (ch : N) : option N :=
  (λ p, N.of_nat p.1) <$> list_find (λ candidate, N_of_ascii candidate = ch) PUBLIC_ID_ALPHABET.

Fixpoint decode_digits (decoded : N) (cs : list N) : option N :=
  match cs with
  | [] => Some decoded
  | ch :: cs =>
      digit ← alphabet_position ch;
      scaled ← (if (decoded * 32 <=? u64_max)%N then Some (decoded * 32)%N else None);
      decoded ← checked_add u64_max scaled (digit + 1);
      decode_digits decoded cs
  end.

Definition decode_public_number (value : string) : option N := decode_digits 0 (chars value).

Definition public_workspace_number (id : string) : option N := strip_prefix "w" id ≫= decode_public_number.

Definition public_pane_id_for_number (workspace_id : string) (pane_number : N) : string :=
  workspace_id +:+ ":p" +:+ encode_public_number pane_number.
Definition public_tab_id_for_number (workspace_id : string) (tab_number : N) : string :=
  workspace_id +:+ ":t" +:+ encode_public_number tab_number.

(** ** Counters and terminals *)

(** [{:x}] *)
Fixpoint hex_digits (fuel : nat) (value : N) : list ascii :=
  match fuel with
  | O => []
  | S fuel =>
      if (value <? 16)%N then [nth (N.to_nat value) (str_bytes "0123456789abcdef") "0"%char]
      else nth (N.to_nat (value mod 16)) (str_bytes "0123456789abcdef") "0"%char :: hex_digits fuel (value / 16)
  end.
Definition lower_hex (value : N) : string :=
  str_of_bytes (reverse (hex_digits (S (N.to_nat (N.size value))) value)).

(** [NEXT_PANE_ID], [NEXT_TERMINAL_ID] and [NEXT_WORKSPACE_ID] *)
Record Counters := mkCounters { ct_pane : N; ct_terminal : N; ct_workspace : N }.
#[export] Instance Counters_fields : Fields Counters := λ c,
  mkCounters (ct_pane c) (ct_terminal c) (ct_workspace c).

Definition TerminalId_alloc (c : Counters) (micros : N) : Counters * string :=
  (c <| ct_terminal ::= λ n, ((n + 1) mod 2 ^ 64)%N |>,
   "term_" +:+ lower_hex micros +:+ lower_hex (ct_terminal c)).

Definition generate_workspace_id (c : Counters) : Counters * string :=
  (c <| ct_workspace ::= λ n, ((n + 1) mod 2 ^ 64)%N |>, "w" +:+ encode_public_number (ct_workspace c)).

(** ** Public numbers are read back *)

Lemma chars_ascii (l : list ascii) :
  Forall (λ c, N_of_ascii c < 128)%N l → chars (str_of_bytes l) = N_of_ascii <$> l.
Proof.
  intros Hl. unfold chars. rewrite str_of_to_bytes.
  induction Hl as [|c l Hc Hl IH]; [done|]. rewrite fmap_cons. cbn [utf8_decode].
  apply N.ltb_lt in Hc. by rewrite Hc, IH.
Qed.

Lemma alphabet_digits (d : N) :
  (d < 32)%N → alphabet_position (N_of_ascii (alphabet_at d)) = Some d ∧ (N_of_ascii (alphabet_at d) < 128)%N.
Proof.
  intros Hd. assert (Hall : forallb (λ n, bool_decide (alphabet_position (N_of_ascii (alphabet_at (N.of_nat n)))
      = Some (N.of_nat n)) && (N_of_ascii (alphabet_at (N.of_nat n)) <? 128)%N) (seq 0 32) = true)
    by (vm_compute; reflexivity).
  rewrite forallb_forall in Hall. specialize (Hall (N.to_nat d) ltac:(apply in_seq; lia)).
  rewrite N2Nat.id in Hall. apply andb_true_iff in Hall as [Hp%bool_decide_eq_true Hlt%N.ltb_lt]. done.
Qed.

Lemma encode_digits_ascii fuel v : Forall (λ c, N_of_ascii c < 128)%N (encode_digits fuel v).
Proof.
  revert v. induction fuel as [|fuel IH]; intros v; cbn; [done|]. destruct (v =? 0)%N; [done|].
  constructor; [|done]. apply alphabet_digits. apply N.mod_lt. lia.
Qed.

Lemma decode_digits_app acc l l' :
  decode_digits acc (l ++ l') = acc' ← decode_digits acc l; decode_digits acc' l'.
Proof.
  revert acc. induction l as [|c l IH]; intros acc; [done|]. cbn [app decode_digits].
  destruct (alphabet_position c) as [d|]; cbn [mbind option_bind]; [|done].
  destruct (acc * 32 <=? u64_max)%N; cbn [mbind option_bind]; [|done].
  destruct (checked_add u64_max (acc * 32) (d + 1)); cbn [mbind option_bind]; [apply IH|done].
Qed.

Lemma decode_encode_digits fuel v :
  (v < 2 ^ N.of_nat fuel)%N → (v ≤ u64_max)%N →
  decode_digits 0 (N_of_ascii <$> reverse (encode_digits fuel v)) = Some v.
Proof.
  revert v. induction fuel as [|fuel IH]; intros v Hfuel Hmax; [cbn in *; f_equal; lia|]. cbn [encode_digits].
  destruct (N.eqb_spec v 0) as [->|Hv]; [done|].
  assert (Hdiv : ((v - 1) = 32 * ((v - 1) / 32) + (v - 1) mod 32)%N) by (apply N.div_mod; lia).
  assert (Hmod : ((v - 1) mod 32 < 32)%N) by (apply N.mod_lt; lia).
  set (q := ((v - 1) / 32)%N) in *. set (d := ((v - 1) mod 32)%N) in *. clearbody q d.
  rewrite reverse_cons, fmap_app, decode_digits_app, IH.
  - cbn [fmap list_fmap mbind option_bind decode_digits].
    destruct (alphabet_digits d Hmod) as [-> _]. cbn [mbind option_bind].
    assert ((q * 32 <=? u64_max)%N = true) as -> by (apply N.leb_le; lia). cbn [mbind option_bind].
    unfold checked_add. assert ((q * 32 + (d + 1) <=? u64_max)%N = true) as -> by (apply N.leb_le; lia).
    cbn [mbind option_bind]. f_equal. lia.
  - rewrite Nat2N.inj_succ, N.pow_succ_r' in Hfuel. lia.
  - lia.
Qed.

Lemma decode_encode_number (n : N) :
  (0 < n ≤ u64_max)%N → decode_public_number (encode_public_number n) = Some n.
Proof.
  intros [Hpos Hmax]. unfold decode_public_number, encode_public_number.
  assert ((n =? 0)%N = false) as -> by (apply N.eqb_neq; lia).
  rewrite chars_ascii by (rewrite Forall_reverse; apply encode_digits_ascii).
  apply decode_encode_digits; [|done]. rewrite N2Nat.id. apply N.size_gt.
Qed.

Lemma encode_number_inj (n m : N) :
  (0 < n ≤ u64_max)%N → (0 < m ≤ u64_max)%N → encode_public_number n = encode_public_number m → n = m.
Proof. intros Hn Hm Heq%(f_equal decode_public_number). rewrite !decode_encode_number in Heq by done. congruence. Qed.

(** The characters of a public number *)
Lemma encode_digits_alphabet fuel v : Forall (.∈ PUBLIC_ID_ALPHABET) (encode_digits fuel v).
Proof.
  revert v. induction fuel as [|fuel IH]; intros v; cbn [encode_digits]; [done|]. destruct (v =? 0)%N; [done|].
  constructor; [|done].
  assert (Hlt : N.to_nat ((v - 1) mod 32) < length PUBLIC_ID_ALPHABET).
  { assert ((v - 1) mod 32 < 32)%N by (apply N.mod_lt; lia). change (length PUBLIC_ID_ALPHABET) with 32%nat. lia. }
  unfold alphabet_at. apply list_elem_of_In. by apply (nth_In PUBLIC_ID_ALPHABET).
Qed.

Lemma encode_number_alphabet (n : N) : Forall (.∈ PUBLIC_ID_ALPHABET) (str_bytes (encode_public_number n)).
Proof.
  unfold encode_public_number. destruct (n =? 0)%N.
  - constructor; [|done]. by apply (bool_decide_unpack _).
  - rewrite str_of_to_bytes, Forall_reverse. apply encode_digits_alphabet.
Qed.

(** Every public number from 1 on is read back from what is written for it,
    so no two numbers are written alike; 0, which no tab and no pane has, is
    written as 32 is. *)
Theorem public_number_round_trip (n : N) :
  (0 < n ≤ u64_max)%N → decode_public_number (encode_public_number n) = Some n.
Proof. apply decode_encode_number. Qed.

Lemma public_number_round_trip_witness :
  encode_public_number 0 = "0" ∧ encode_public_number 32 = "0" ∧ decode_public_number (encode_public_number 1000) = Some 1000%N.
Proof.
  split; [reflexivity|]. split; [reflexivity|]. apply (public_number_round_trip 1000). split; [lia|]. unfold u64_max. lia.
Defined.

(** ** Terminals have identifiers of their own *)

Definition hex_alphabet : list ascii := str_bytes "0123456789abcdef".
Definition hex_value (l : list ascii) : N :=
  foldr (λ c acc, (N.of_nat (default 0%nat (fst <$> list_find (eq c) hex_alphabet)) + 16 * acc)%N) 0%N l.

Lemma hex_digit_value d :
  (d < 16)%N → N.of_nat (default 0%nat (fst <$> list_find (eq (nth (N.to_nat d) hex_alphabet "0"%char)) hex_alphabet)) = d.
Proof.
  intros Hd. assert (Hall : forallb (λ n, bool_decide (default 0%nat (fst <$> list_find (eq (nth n hex_alphabet "0"%char))
      hex_alphabet) = n)) (seq 0 16) = true) by (vm_compute; reflexivity).
  rewrite forallb_forall in Hall. specialize (Hall (N.to_nat d) ltac:(apply in_seq; lia)).
  apply bool_decide_eq_true in Hall. rewrite Hall. lia.
Qed.

Lemma hex_value_digits fuel v : (v < 2 ^ N.of_nat fuel)%N → hex_value (hex_digits (S fuel) v) = v.
Proof.
  revert v. induction fuel as [|fuel IH]; intros v Hv.
  { cbn in Hv. assert (v = 0%N) as -> by lia. done. }
  remember (S fuel) as fuel' eqn:Hfuel'. cbn [hex_digits]. fold hex_alphabet.
  destruct (N.ltb_spec v 16) as [Hlt|Hge]; cbn [hex_value foldr].
  - rewrite hex_digit_value by done. lia.
  - assert (Hmod : (v mod 16 < 16)%N) by (apply N.mod_lt; lia). rewrite hex_digit_value by done.
    pose proof (N.div_mod v 16 ltac:(lia)) as Hdiv. subst fuel'.
    fold (hex_value (hex_digits (S fuel) (v / 16))). rewrite IH; [lia|].
    rewrite Nat2N.inj_succ, N.pow_succ_r' in Hv. apply N.Div0.div_lt_upper_bound. lia.
Qed.

Lemma hex_digits_length fuel v (k : N) :
  (v < 2 ^ N.of_nat fuel)%N → (16 ^ k ≤ v < 16 ^ (k + 1))%N → length (hex_digits (S fuel) v) = S (N.to_nat k).
Proof.
  revert v k. induction fuel as [|fuel IH]; intros v k Hv Hk.
  { cbn in Hv. assert (16 ^ k ≠ 0)%N by (apply N.pow_nonzero; lia). lia. }
  remember (S fuel) as fuel' eqn:Hfuel'. cbn [hex_digits]. subst fuel'.
  destruct (N.ltb_spec v 16) as [Hlt|Hge].
  - destruct (N.eq_dec k 0%N) as [->|Hne]; [done|].
    assert (16 ^ 1 ≤ 16 ^ k)%N by (apply N.pow_le_mono_r; lia). lia.
  - destruct (N.eq_dec k 0%N) as [->|Hne]; [cbn in Hk; lia|]. cbn [length]. rewrite (IH _ (k - 1)%N); [lia| |].
    + rewrite Nat2N.inj_succ, N.pow_succ_r' in Hv. apply N.Div0.div_lt_upper_bound. lia.
    + assert (Hp : (16 ^ k = 16 * 16 ^ (k - 1))%N) by (rewrite <- N.pow_succ_r'; f_equal; lia).
      rewrite N.pow_add_r, Hp in Hk. replace (k - 1 + 1)%N with k by lia. rewrite Hp. cbn in Hk. split.
      * apply N.div_le_lower_bound; lia.
      * apply N.Div0.div_lt_upper_bound. lia.
Qed.

Lemma lower_hex_value v : hex_value (reverse (str_bytes (lower_hex v))) = v.
Proof.
  unfold lower_hex. rewrite str_of_to_bytes, reverse_involutive. apply hex_value_digits.
  rewrite N2Nat.id. apply N.size_gt.
Qed.

Lemma lower_hex_length v (k : N) :
  (16 ^ k ≤ v < 16 ^ (k + 1))%N → length (str_bytes (lower_hex v)) = S (N.to_nat k).
Proof.
  intros Hk. unfold lower_hex. rewrite str_of_to_bytes, length_reverse. apply hex_digits_length; [|done].
  rewrite N2Nat.id. apply N.size_gt.
Qed.

(** The years in which microseconds since 1970 have thirteen digits: 1978 to
    2112 *)
Definition clock_ok (micros : N) : Prop := (16 ^ 12 ≤ micros < 16 ^ 13)%N.

Definition terminal_id_of (micros counter : N) : string := "term_" +:+ lower_hex micros +:+ lower_hex counter.

Lemma terminal_id_inj micros counter micros' counter' :
  clock_ok micros → clock_ok micros' → terminal_id_of micros counter = terminal_id_of micros' counter' →
  micros = micros' ∧ counter = counter'.
Proof.
  intros Hm Hm' Heq%(f_equal str_bytes). unfold terminal_id_of in Heq. rewrite !str_bytes_app in Heq.
  apply app_inv_head in Heq. apply app_inj_1 in Heq as [H1 H2].
  - split; [rewrite <- (lower_hex_value micros), <- (lower_hex_value micros'); by rewrite H1|].
    rewrite <- (lower_hex_value counter), <- (lower_hex_value counter'). by rewrite H2.
  - by rewrite (lower_hex_length _ 12 Hm), (lower_hex_length _ 12 Hm').
Qed.
