(* ===== verification/Workspaces.v ===== *)
(** * Workspaces, tabs and panes ([src/src/workspace.rs],
    [src/src/workspace/tab.rs], [src/src/pane/state.rs])

    A workspace has tabs, a tab a layout and the states of its panes, and a pane
    the terminal it shows.  Tabs and panes have public numbers, which count up and
    are not used again.  Starting a process is a [Spawn]: whether it starts and
    what the clock says; the counters of the process are [Counters].  The channels
    of a tab, the runtimes of its terminals and what is cached of Git are left out. *)

From stdpp Require Import pretty.
From S2P Require Export Layout Terminals PublicIds.

(** ** Starting processes *)

(** What starting a process gives: whether it runs, and the time *)
Record Spawn := mkSpawn { sp_started : bool; sp_micros : N }.

(** The environment a process is started in *)
Module PaneLaunchIdentity.
Inductive PaneLaunchIdentity :=
  | Inherit
  | Managed (workspace_id tab_id pane_id : string)
  | OmitPane.
End PaneLaunchIdentity.
Abbreviation PaneLaunchIdentity := PaneLaunchIdentity.PaneLaunchIdentity.

Record PaneLaunchEnv := mkPaneLaunchEnv {
  le_extra : list (string * string);
  le_identity : PaneLaunchIdentity;
  le_isolated : bool;
}.

Definition PLUGIN_ISOLATED_PANE_ENV_MARKER : string := "NAGI_INTERNAL_ISOLATED_PLUGIN_PANE".

Definition PaneLaunchEnv_from_extra (extra : list (string * string)) : PaneLaunchEnv :=
  let isolated := existsb (λ kv, bool_decide (kv.1 = PLUGIN_ISOLATED_PANE_ENV_MARKER)) extra in
  mkPaneLaunchEnv (filter (λ kv, kv.1 ≠ PLUGIN_ISOLATED_PANE_ENV_MARKER) extra)
    PaneLaunchIdentity.Inherit isolated.

Definition with_identity (env : PaneLaunchEnv) (workspace_id tab_id pane_id : string) : PaneLaunchEnv :=
  mkPaneLaunchEnv (le_extra env) (PaneLaunchIdentity.Managed workspace_id tab_id pane_id) (le_isolated env).

(** ** Tabs *)

Record PaneState := mkPaneState { pn_attached_terminal_id : string; pn_seen : bool }.
#[export] Instance PaneState_eq_dec : EqDecision PaneState.
Proof. solve_decision. Defined.
Definition PaneState_new (terminal : string) : PaneState := mkPaneState terminal true.

Record MovedPane := mkMovedPane { mv_pane_id : PaneId; mv_pane_state : PaneState }.

(** The pane, its terminal and the environment of its process *)
Record NewPane := mkNewPane { np_pane_id : PaneId; np_terminal : TerminalState; np_env : PaneLaunchEnv }.

Record Tab := mkTab {
  tb_custom_name : option string;
  tb_number : N;
  tb_root_pane : PaneId;
  tb_layout : TileLayout;
  tb_panes : gmap PaneId PaneState;
  tb_zoomed : bool;
}.
#[export] Instance Tab_fields : Fields Tab := λ t,
  mkTab (tb_custom_name t) (tb_number t) (tb_root_pane t) (tb_layout t) (tb_panes t) (tb_zoomed t).

(** A terminal for a new pane *)
Definition launched_terminal (c : Counters) (micros : N) (cwd : string) (argv : option (list string)) :
    Counters * TerminalState :=
  let '(c, terminal_id) := TerminalId_alloc c micros in
  let terminal := TerminalState_new terminal_id cwd in
  (c, match argv with Some argv => with_launch_argv terminal argv | None => terminal end).

Definition Tab_new_with_runtime (c : Counters) (number : N) (initial_cwd : string)
    (argv : option (list string)) (launch_env : PaneLaunchEnv) (spawn : Spawn) :
    Counters * option (Tab * NewPane) :=
  let '(layout, root_id, next) := TileLayout_new (ct_pane c) in
  let c := c <| ct_pane := next |> in
  if negb (sp_started spawn) then (c, None)
  else
    let '(c, terminal) := launched_terminal c (sp_micros spawn) initial_cwd argv in
    (c, Some (mkTab None number root_id layout {[root_id := PaneState_new (tm_id terminal)]} false,
              mkNewPane root_id terminal launch_env)).

Definition is_auto_named (t : Tab) : bool := bool_decide (tb_custom_name t = None).
Definition tab_set_custom_name (t : Tab) (name : string) : Tab := t <| tb_custom_name := Some name |>.

(** [None] is a panic, of [close_focused].  When the process does not start the
    split is undone. *)
Definition split_focused_with_runtime (c : Counters) (t : Tab) (direction : Direction) (ratio : option f32)
    (cwd : option string) (current_dir : string) (argv : option (list string)) (launch_env : PaneLaunchEnv)
    (spawn : Spawn) : option (Counters * Tab * option NewPane) :=
  let previous_focus := tl_focus (tb_layout t) in
  let '(layout, new_id, next) :=
    match ratio with
    | Some ratio => split_focused_with_ratio (ct_pane c) (tb_layout t) direction ratio
    | None => split_focused (ct_pane c) (tb_layout t) direction
    end in
  let c := c <| ct_pane := next |> in
  let actual_cwd := default current_dir cwd in
  if negb (sp_started spawn) then
    '(layout, _) ← close_focused layout;
    Some (c, t <| tb_layout := focus_pane layout previous_focus |>, None)
  else
    let '(c, terminal) := launched_terminal c (sp_micros spawn) actual_cwd argv in
    Some (c, t <| tb_layout := layout |>
               <| tb_panes ::= <[new_id := PaneState_new (tm_id terminal)]> |>
               <| tb_zoomed := false |>,
          Some (mkNewPane new_id terminal launch_env)).

Definition Tab_from_existing_pane (number : N) (custom_name : option string) (moved : MovedPane) : Tab :=
  mkTab custom_name number (mv_pane_id moved)
    (mkTileLayout (Node.Pane (mv_pane_id moved)) (mv_pane_id moved))
    {[mv_pane_id moved := mv_pane_state moved]} false.

Definition promoted_root_if_needed (t : Tab) (closing : PaneId) : option PaneId :=
  if negb (bool_decide (tb_root_pane t = closing)) then None
  else find_first (λ id, negb (bool_decide (id = closing))) (pane_ids (tb_layout t)).

(** Closes a pane, and gives the focus back to the one that had it. *)
Definition close_in_layout (l : TileLayout) (pane_id : PaneId) : option TileLayout :=
  if bool_decide (tl_focus l = pane_id) then fst <$> close_focused l
  else
    let prev_focus := tl_focus l in
    '(l, _) ← close_focused (focus_pane l pane_id);
    Some (focus_pane l prev_focus).

Definition tab_take_pane_for_move (t : Tab) (pane_id : PaneId) : option (Tab * option MovedPane) :=
  match tb_panes t !! pane_id with
  | None => Some (t, None)
  | Some pane_state =>
      t ← (if bool_decide (1 < pane_count (tb_layout t)) then
             let next_root := promoted_root_if_needed t pane_id in
             layout ← close_in_layout (tb_layout t) pane_id;
             Some (t <| tb_layout := layout |> <| tb_root_pane := default (tb_root_pane t) next_root |>)
           else Some t);
      Some (t <| tb_panes ::= delete pane_id |> <| tb_zoomed := false |>,
            Some (mkMovedPane pane_id pane_state))
  end.

(** The pane is given back when there is no place for it. *)
Definition insert_existing_pane (t : Tab) (target_pane_id : PaneId) (moved : MovedPane) (direction : Direction)
    (ratio : f32) : Tab * result MovedPane PaneId :=
  let '(layout, inserted) := insert_pane_near (tb_layout t) target_pane_id (mv_pane_id moved) direction ratio in
  if negb inserted then (t, Err moved)
  else
    (t <| tb_layout := layout |>
       <| tb_panes ::= <[mv_pane_id moved := mv_pane_state moved]> |>
       <| tb_zoomed := false |>,
     Ok (mv_pane_id moved)).

Definition detach_pane (t : Tab) (pane_id : PaneId) : option (Tab * option (PaneId * string)) :=
  if bool_decide (pane_count (tb_layout t) ≤ 1) then Some (t, None)
  else
    let next_root := promoted_root_if_needed t pane_id in
    layout ← close_in_layout (tb_layout t) pane_id;
    let t := t <| tb_layout := layout |> in
    match tb_panes t !! pane_id with
    | None => Some (t, None)
    | Some pane =>
        Some (t <| tb_panes ::= delete pane_id |>
                <| tb_zoomed := false |>
                <| tb_root_pane := default (tb_root_pane t) next_root |>,
              Some (pane_id, pn_attached_terminal_id pane))
    end.

Definition tab_terminal_id (t : Tab) (pane_id : PaneId) : option string :=
  pn_attached_terminal_id <$> tb_panes t !! pane_id.

(** What the process of a terminal says of its directories *)
Record RuntimeDirs := mkRuntimeDirs { rd_cwd : string → option string; rd_foreground_cwd : string → option string }.

Definition cwd_for_pane (t : Tab) (pane_id : PaneId) (terminals : gmap string TerminalState) (dirs : RuntimeDirs) :
    option string :=
  terminal_id ← tab_terminal_id t pane_id;
  match rd_cwd dirs terminal_id with
  | Some cwd => Some cwd
  | None => tm_cwd <$> terminals !! terminal_id
  end.

Definition foreground_cwd_for_pane (t : Tab) (pane_id : PaneId) (dirs : RuntimeDirs) : option string :=
  tab_terminal_id t pane_id ≫= rd_foreground_cwd dirs.

Definition follow_cwd_for_pane (t : Tab) (pane_id : PaneId) (terminals : gmap string TerminalState)
    (dirs : RuntimeDirs) : option string :=
  match foreground_cwd_for_pane t pane_id dirs with
  | Some cwd => Some cwd
  | None => cwd_for_pane t pane_id terminals dirs
  end.

(** ** Workspaces *)

Record WorktreeSpaceMembership := mkWorktreeSpaceMembership {
  sm_key : string;
  sm_label : string;
  sm_repo_root : string;
  sm_checkout_path : string;
  sm_is_linked_worktree : bool;
}.

Record Workspace := mkWorkspace {
  ws_id : string;
  ws_custom_name : option string;
  ws_identity_cwd : string;
  ws_worktree_space : option WorktreeSpaceMembership;
  ws_metadata_tokens : MetadataTokens;
  ws_metadata_token_sequences : gmap string N;
  ws_public_pane_numbers : gmap PaneId N;
  ws_next_public_pane_number : N;
  ws_next_public_tab_number : N;
  ws_tabs : list Tab;
  ws_active_tab : nat;
}.
#[export] Instance Workspace_fields : Fields Workspace := λ w,
  mkWorkspace (ws_id w) (ws_custom_name w) (ws_identity_cwd w) (ws_worktree_space w) (ws_metadata_tokens w)
    (ws_metadata_token_sequences w) (ws_public_pane_numbers w) (ws_next_public_pane_number w)
    (ws_next_public_tab_number w) (ws_tabs w) (ws_active_tab w).

Definition usize_add (a b : N) : N := ((a + b) mod 2 ^ 64)%N.

Definition adjust_active_tab_after_removal (w : Workspace) (removed_idx : nat) : Workspace :=
  if bool_decide (ws_tabs w = []) then w <| ws_active_tab := 0 |>
  else if bool_decide (length (ws_tabs w) ≤ ws_active_tab w) then w <| ws_active_tab := length (ws_tabs w) - 1 |>
  else if bool_decide (removed_idx ≤ ws_active_tab w) && bool_decide (0 < ws_active_tab w)
  then w <| ws_active_tab ::= pred |>
  else w.

Definition single_tab_workspace (id : string) (custom_name : option string) (identity_cwd : string) (tab : Tab) :
    Workspace :=
  mkWorkspace id custom_name identity_cwd None ∅ ∅ {[tb_root_pane tab := 1%N]} 2 2 [tab] 0.

Definition Workspace_from_existing_pane (c : Counters) (label tab_label : option string) (identity_cwd : string)
    (moved : MovedPane) : Counters * Workspace :=
  let '(c, id) := generate_workspace_id c in
  (c, single_tab_workspace id label identity_cwd (Tab_from_existing_pane 1 tab_label moved)).

Definition Workspace_new_with_tab (c : Counters) (initial_cwd : string) (argv : option (list string))
    (extra_env : list (string * string)) (spawn : Spawn) : Counters * option (Workspace * NewPane) :=
  let '(c, id) := generate_workspace_id c in
  let launch_env := with_identity (PaneLaunchEnv_from_extra extra_env) id
                      (public_tab_id_for_number id 1) (public_pane_id_for_number id 1) in
  let '(c, made) := Tab_new_with_runtime c 1 initial_cwd argv launch_env spawn in
  (c, (λ tp, (single_tab_workspace id None initial_cwd tp.1, tp.2)) <$> made).

Definition active_tab (w : Workspace) : option Tab := ws_tabs w !! ws_active_tab w.

Definition tab_display_name (w : Workspace) (tab_idx : nat) : option string :=
  (λ tab, default (pretty (N.of_nat tab_idx + 1)%N) (tb_custom_name tab)) <$> ws_tabs w !! tab_idx.

Definition active_tab_display_name (w : Workspace) : option string := tab_display_name w (ws_active_tab w).

Definition mark_seen (t : Tab) : Tab := t <| tb_panes ::= fmap (λ p, mkPaneState (pn_attached_terminal_id p) true) |>.

Definition switch_tab (w : Workspace) (idx : nat) : Workspace :=
  if bool_decide (idx < length (ws_tabs w))
  then w <| ws_active_tab := idx |> <| ws_tabs ::= alter mark_seen idx |>
  else w.

Definition find_tab_index_for_pane (w : Workspace) (pane_id : PaneId) : option nat :=
  fst <$> list_find (λ tab, is_Some (tb_panes tab !! pane_id)) (ws_tabs w).

Definition pane_state (w : Workspace) (pane_id : PaneId) : option PaneState :=
  head (omap (λ tab, tb_panes tab !! pane_id) (ws_tabs w)).

Definition ws_terminal_id (w : Workspace) (pane_id : PaneId) : option string :=
  head (omap (λ tab, tab_terminal_id tab pane_id) (ws_tabs w)).

Definition focused_pane_id (w : Workspace) : option PaneId := (λ tab, tl_focus (tb_layout tab)) <$> active_tab w.

Definition register_new_pane_with_number (w : Workspace) (pane_id : PaneId) (number : N) : Workspace :=
  w <| ws_public_pane_numbers ::= <[pane_id := number]> |>
    <| ws_next_public_pane_number ::= λ next, N.max next (usize_add number 1) |>.

Definition unregister_pane (w : Workspace) (pane_id : PaneId) : Workspace :=
  w <| ws_public_pane_numbers ::= delete pane_id |>.

Definition launch_env_for_new_pane (w : Workspace) (tab_number pane_number : N)
    (extra_env : list (string * string)) : PaneLaunchEnv :=
  with_identity (PaneLaunchEnv_from_extra extra_env) (ws_id w)
    (public_tab_id_for_number (ws_id w) tab_number) (public_pane_id_for_number (ws_id w) pane_number).

(** [None] is a panic: a workspace without tabs.  A number is taken even when
    the tab does not start. *)
Definition create_tab_with_runtime (c : Counters) (w : Workspace) (cwd : string) (argv : option (list string))
    (extra_env : list (string * string)) (spawn : Spawn) : option (Counters * Workspace * option (nat * NewPane)) :=
  let number := ws_next_public_tab_number w in
  let w := w <| ws_next_public_tab_number ::= λ n, usize_add n 1 |> in
  let pane_number := ws_next_public_pane_number w in
  let launch_env := launch_env_for_new_pane w number pane_number extra_env in
  _ ← active_tab w;
  let '(c, made) := Tab_new_with_runtime c number cwd argv launch_env spawn in
  match made with
  | None => Some (c, w, None)
  | Some (tab, new_pane) =>
      let w := register_new_pane_with_number w (tb_root_pane tab) pane_number <| ws_tabs ::= λ tabs, tabs ++ [tab] |> in
      Some (c, w, Some (length (ws_tabs w) - 1, new_pane))
  end.

(** The active tab after a tab was closed, which [close_tab], [remove_pane] and
    [close_pane] each work out *)
Definition active_after_close (w : Workspace) (idx : nat) : Workspace :=
  if bool_decide (length (ws_tabs w) ≤ ws_active_tab w) then w <| ws_active_tab := length (ws_tabs w) - 1 |>
  else if bool_decide (idx ≤ ws_active_tab w) && bool_decide (0 < ws_active_tab w)
  then w <| ws_active_tab ::= pred |>
  else w.

Definition close_tab (w : Workspace) (idx : nat) : Workspace * bool :=
  match ws_tabs w !! idx with
  | Some tab =>
      if bool_decide (length (ws_tabs w) ≤ 1) then (w, false)
      else
        let w := w <| ws_tabs ::= delete idx |>
                   <| ws_public_pane_numbers ::=
                        filter (λ pn, tb_panes tab !! pn.1 = None) |> in
        (active_after_close w idx, true)
  | None => (w, false)
  end.

(** [Vec::insert] *)
Definition insert_at {A} (i : nat) (x : A) (l : list A) : list A := take i l ++ x :: drop i l.

Definition move_tab (w : Workspace) (source_idx insert_idx : nat) : Workspace * bool :=
  match ws_tabs w !! source_idx with
  | Some tab =>
      if bool_decide (length (ws_tabs w) < insert_idx) then (w, false)
      else
        let target_idx :=
          min (if bool_decide (source_idx < insert_idx) then insert_idx - 1 else insert_idx)
            (length (ws_tabs w) - 1) in
        if bool_decide (source_idx = target_idx) then (w, false)
        else
          let active_root_pane := tb_root_pane <$> active_tab w in
          let w := w <| ws_tabs ::= λ tabs, insert_at target_idx tab (delete source_idx tabs) |> in
          (w <| ws_active_tab :=
                  default target_idx
                    (active_root_pane ≫= λ root_pane,
                       fst <$> list_find (λ tab, tb_root_pane tab = root_pane) (ws_tabs w)) |>, true)
  | None => (w, false)
  end.

Definition set_tab (w : Workspace) (idx : nat) (tab : Tab) : Workspace := w <| ws_tabs ::= <[idx := tab]> |>.

(** [None] is a panic; a workspace without the pane is left alone. *)
Definition split_pane_with_runtime (c : Counters) (w : Workspace) (pane_id : PaneId) (direction : Direction)
    (ratio : option f32) (cwd : option string) (current_dir : string) (argv : option (list string))
    (extra_env : list (string * string)) (focus_new_pane : bool) (spawn : Spawn) :
    option (Counters * Workspace * option (option (nat * NewPane))) :=
  match find_tab_index_for_pane w pane_id with
  | None => Some (c, w, None)
  | Some tab_idx =>
      tab ← ws_tabs w !! tab_idx;
      let pane_number := ws_next_public_pane_number w in
      let launch_env := launch_env_for_new_pane w (tb_number tab) pane_number extra_env in
      let previous_focus := tl_focus (tb_layout tab) in
      let tab := tab <| tb_layout ::= λ l, focus_pane l pane_id |> in
      '(c, tab, made) ← split_focused_with_runtime c tab direction ratio cwd current_dir argv launch_env spawn;
      match made with
      | None => Some (c, set_tab w tab_idx (tab <| tb_layout ::= λ l, focus_pane l previous_focus |>), Some None)
      | Some new_pane =>
          let tab := if negb focus_new_pane then tab <| tb_layout ::= λ l, focus_pane l previous_focus |> else tab in
          let w := register_new_pane_with_number (set_tab w tab_idx tab) (np_pane_id new_pane) pane_number in
          Some (c, w, Some (Some (tab_idx, new_pane)))
      end
  end.

(** [split_focused_command] *)
Definition ws_split_focused_command (c : Counters) (w : Workspace) (direction : Direction) (cwd : option string)
    (current_dir : string) (extra_env : list (string * string)) (spawn : Spawn) :
    option (Counters * Workspace * option NewPane) :=
  let pane_number := ws_next_public_pane_number w in
  tab ← active_tab w;
  let launch_env := launch_env_for_new_pane w (tb_number tab) pane_number extra_env in
  '(c, tab, made) ← split_focused_with_runtime c tab direction None cwd current_dir None launch_env spawn;
  let w := set_tab w (ws_active_tab w) tab in
  Some (c, match made with
           | Some new_pane => register_new_pane_with_number w (np_pane_id new_pane) pane_number
           | None => w
           end, made).

(** [remove_pane] and [close_pane], which are the same: whether the workspace
    should close *)
Definition ws_close_pane (w : Workspace) (pane_id : PaneId) : option (Workspace * bool) :=
  match find_tab_index_for_pane w pane_id with
  | None => Some (w, false)
  | Some tab_idx =>
      tab ← ws_tabs w !! tab_idx;
      if bool_decide (pane_count (tb_layout tab) ≤ 1) then
        if bool_decide (length (ws_tabs w) ≤ 1) then Some (w, true)
        else
          let w := unregister_pane (w <| ws_tabs ::= delete tab_idx |>) pane_id in
          Some (active_after_close w tab_idx, false)
      else
        '(tab, detached) ← detach_pane tab pane_id;
        let w := set_tab w tab_idx tab in
        Some (match detached with Some (removed, _) => unregister_pane w removed | None => w end, false)
  end.

Record TakenPane := mkTakenPane { tk_moved : MovedPane; tk_removed_tab_idx : option nat; tk_workspace_empty : bool }.

Definition ws_take_pane_for_move (w : Workspace) (pane_id : PaneId) : option (Workspace * option TakenPane) :=
  match find_tab_index_for_pane w pane_id with
  | None => Some (w, None)
  | Some tab_idx =>
      tab ← ws_tabs w !! tab_idx;
      '(tab', moved) ← tab_take_pane_for_move tab pane_id;
      if bool_decide (pane_count (tb_layout tab) ≤ 1) then
        let w := w <| ws_tabs ::= delete tab_idx |> in
        match moved with
        | None => Some (w, None)
        | Some moved =>
            let w := adjust_active_tab_after_removal w tab_idx in
            Some (w, Some (mkTakenPane moved (Some tab_idx) (bool_decide (ws_tabs w = []))))
        end
      else
        Some (set_tab w tab_idx tab', (λ moved, mkTakenPane moved None false) <$> moved)
  end.

Definition insert_moved_pane_into_tab (w : Workspace) (tab_idx : nat) (target_pane_id : PaneId)
    (moved : MovedPane) (direction : Direction) (ratio : f32) : Workspace * result MovedPane PaneId :=
  let pane_id := mv_pane_id moved in
  match ws_tabs w !! tab_idx with
  | None => (w, Err moved)
  | Some tab =>
      let '(tab, inserted) := insert_existing_pane tab target_pane_id moved direction ratio in
      let w := set_tab w tab_idx tab in
      match inserted with
      | Err moved => (w, Err moved)
      | Ok _ =>
          (if bool_decide (ws_public_pane_numbers w !! pane_id = None)
           then register_new_pane_with_number w pane_id (ws_next_public_pane_number w) else w, Ok pane_id)
      end
  end.

Definition create_tab_from_existing_pane (w : Workspace) (moved : MovedPane) (label : option string) :
    Workspace * nat :=
  let number := ws_next_public_tab_number w in
  let w := w <| ws_next_public_tab_number ::= λ n, usize_add n 1 |> in
  let pane_id := mv_pane_id moved in
  let tab := Tab_from_existing_pane number label moved in
  let w := if bool_decide (ws_public_pane_numbers w !! pane_id = None)
           then register_new_pane_with_number w pane_id (ws_next_public_pane_number w) else w in
  let w := w <| ws_tabs ::= λ tabs, tabs ++ [tab] |> in
  (w, length (ws_tabs w) - 1).

Definition unregister_moved_pane (w : Workspace) (pane_id : PaneId) : Workspace := unregister_pane w pane_id.

Definition public_pane_number (w : Workspace) (pane_id : PaneId) : option N := ws_public_pane_numbers w !! pane_id.
Definition public_tab_number (w : Workspace) (tab_idx : nat) : option N := tb_number <$> ws_tabs w !! tab_idx.
Definition ws_set_custom_name (w : Workspace) (name : string) : Workspace := w <| ws_custom_name := Some name |>.

Definition resolved_identity_cwd_from (w : Workspace) (terminals : gmap string TerminalState) (dirs : RuntimeDirs) :
    string :=
  default (ws_identity_cwd w)
    (head (ws_tabs w) ≫= λ tab, cwd_for_pane tab (tb_root_pane tab) terminals dirs).

(** [reserve_workspace_ids], without the race for the counter *)
Definition reserve_workspace_ids (c : Counters) (workspaces : list Workspace) : Counters :=
  match max_option (omap (λ w, public_workspace_number (ws_id w)) workspaces) ≫= λ top, checked_add u64_max top 1 with
  | None => c
  | Some next => if (ct_workspace c <? next)%N then c <| ct_workspace := next |> else c
  end.

(** ** Tabs that are well formed *)

(** The panes of some tabs and the terminals they show *)
Definition tab_attached (t : Tab) : list (PaneId * string) :=
  (λ ps, (ps.1, pn_attached_terminal_id ps.2)) <$> map_to_list (tb_panes t).
Definition attached (tabs : list Tab) : list (PaneId * string) := tabs ≫= tab_attached.

(** The states of panes are those of the layout; the root is a pane. *)
Record tab_wf (next : N) (t : Tab) : Prop := mk_tab_wf {
  tw_layout : layout_wf next (tb_layout t);
  tw_panes : ∀ p, is_Some (tb_panes t !! p) ↔ p ∈ pane_ids (tb_layout t);
  tw_root : tb_root_pane t ∈ pane_ids (tb_layout t);
}.

Lemma elem_of_tab_attached t p s :
  (p, s) ∈ tab_attached t ↔ ∃ st, tb_panes t !! p = Some st ∧ pn_attached_terminal_id st = s.
Proof.
  unfold tab_attached. rewrite list_elem_of_fmap. split.
  - intros ([p' st] & [= -> ->] & Hin%elem_of_map_to_list). by exists st.
  - intros (st & Hp & <-). exists (p, st). by rewrite elem_of_map_to_list.
Qed.

Lemma tab_attached_panes t p : p ∈ (tab_attached t).*1 ↔ is_Some (tb_panes t !! p).
Proof.
  rewrite list_elem_of_fmap. split.
  - intros ([p' s] & -> & (st & Hst & _)%elem_of_tab_attached). by exists st.
  - intros [st Hst]. exists (p, pn_attached_terminal_id st). split; [done|].
    apply elem_of_tab_attached. by exists st.
Qed.

Lemma tab_attached_keys t : (tab_attached t).*1 = (map_to_list (tb_panes t)).*1.
Proof. unfold tab_attached. by rewrite <- list_fmap_compose. Qed.

Lemma tab_attached_NoDup t : NoDup (tab_attached t).*1.
Proof. rewrite tab_attached_keys. apply NoDup_fst_map_to_list. Qed.

Lemma tab_attached_insert t t' p s :
  tb_panes t' = <[p := s]> (tb_panes t) → tb_panes t !! p = None →
  tab_attached t' ≡ₚ (p, pn_attached_terminal_id s) :: tab_attached t.
Proof. intros Ht Hp. unfold tab_attached. by rewrite Ht, map_to_list_insert. Qed.

Lemma tab_attached_delete t t' p s :
  tb_panes t' = delete p (tb_panes t) → tb_panes t !! p = Some s →
  tab_attached t ≡ₚ (p, pn_attached_terminal_id s) :: tab_attached t'.
Proof. intros Ht Hp. unfold tab_attached. by rewrite Ht, <- (map_to_list_delete _ _ _ Hp). Qed.

Lemma tab_wf_mono next next' t : (next ≤ next')%N → tab_wf next t → tab_wf next' t.
Proof.
  intros Hle [[Hnd Hf Htaken Hok] Hp Hr]. constructor; [|done..]. constructor; [done..| |done].
  eapply Forall_impl; [exact Htaken|]. cbn. lia.
Qed.

Lemma tab_wf_taken next t p : tab_wf next t → is_Some (tb_panes t !! p) → (p < next)%N.
Proof. intros [[_ _ Htaken _] Hp _] Hin%Hp. rewrite Forall_forall in Htaken. by apply Htaken. Qed.

(** A tab with a single pane *)
Lemma single_tab_wf next t p s :
  tb_layout t = mkTileLayout (Node.Pane p) p → tb_panes t = {[p := s]} → tb_root_pane t = p → (p < next)%N →
  tab_wf next t ∧ tab_attached t = [(p, pn_attached_terminal_id s)].
Proof.
  intros Hl Hp Hr Hlt. split.
  - constructor; rewrite ?Hl, ?Hr.
    + constructor; cbn; [apply NoDup_singleton|by left|by repeat constructor|done].
    + intros q. rewrite Hp, lookup_singleton_is_Some. cbn. set_solver.
    + cbn. by left.
  - unfold tab_attached. by rewrite Hp, map_to_list_singleton.
Qed.

(** *** Splitting *)

Lemma focus_back l focus :
  tl_focus l ∈ pane_ids l → focus_pane (mkTileLayout (tl_root l) focus) (tl_focus l) = l.
Proof.
  intros Hin. unfold focus_pane, pane_ids in *. cbn.
  rewrite (proj2 (contains_true _ _)) by done. by destruct l.
Qed.

Definition split_layout (next : N) (l : TileLayout) (direction : Direction) (ratio : option f32) :=
  match ratio with
  | Some ratio => split_focused_with_ratio next l direction ratio
  | None => split_focused next l direction
  end.

Lemma split_layout_ratio next l direction ratio :
  split_layout next l direction ratio = split_focused_with_ratio next l direction (default f32_0_5 ratio).
Proof. by destruct ratio. Qed.

Definition ratio_wf (ratio : option f32) : Prop := match ratio with Some r => f32_wf r | None => True end.

Lemma split_undone next l direction ratio l' id next' :
  layout_wf next l → split_layout next l direction ratio = (l', id, next') →
  ∃ focus, close_focused l' = Some (mkTileLayout (tl_root l) focus, true).
Proof.
  rewrite split_layout_ratio. intros Hwf Hs.
  destruct (close_undoes_split next l direction (default f32_0_5 ratio) Hwf) as (focus & Hc & _).
  rewrite Hs in Hc. by exists focus.
Qed.

Lemma split_layout_ids next l direction ratio l' id next' :
  layout_wf next l → ratio_wf ratio → (next + 1 < 2 ^ 32)%N →
  split_layout next l direction ratio = (l', id, next') →
  layout_wf next' l' ∧ id = next ∧ next' = (next + 1)%N ∧ tl_focus l' = next
  ∧ ∀ p, p ∈ pane_ids l' ↔ p = next ∨ p ∈ pane_ids l.
Proof.
  rewrite split_layout_ratio. intros Hwf Hr Hn Hs.
  assert (Hr' : f32_wf (default f32_0_5 ratio)) by (destruct ratio; [done|by vm_compute]).
  pose proof (split_wf next l direction (default f32_0_5 ratio) Hwf Hr' Hn) as Hwf'. rewrite Hs in Hwf'.
  cbn in Hs. rewrite N.mod_small in Hs by done. injection Hs as <- <- <-.
  split_and!; [done..|]. intros p. unfold pane_ids. cbn. rewrite split_at_ids.
  rewrite elem_of_insert_after; [tauto|]. apply Hwf.
Qed.

(** A split adds a pane with a terminal of its own, or, when its process does
    not start, changes nothing. *)
Lemma split_tab c t direction ratio cwd dir argv env spawn :
  tab_wf (ct_pane c) t → ratio_wf ratio → (ct_pane c + 1 < 2 ^ 32)%N →
  let id := ct_pane c in
  let c1 := c <| ct_pane ::= N.succ |> in
  ∃ c' t' made,
    split_focused_with_runtime c t direction ratio cwd dir argv env spawn = Some (c', t', made)
    ∧ if sp_started spawn then
        ∃ tid np,
          TerminalId_alloc c1 (sp_micros spawn) = (c', tid) ∧ made = Some np ∧ np_pane_id np = id
          ∧ tm_id (np_terminal np) = tid ∧ np_env np = env
          ∧ tab_wf (ct_pane c') t' ∧ tab_attached t' ≡ₚ (id, tid) :: tab_attached t
          ∧ tb_number t' = tb_number t ∧ tb_root_pane t' = tb_root_pane t ∧ tb_custom_name t' = tb_custom_name t
          ∧ tl_focus (tb_layout t') = id ∧ (∀ p, p ∈ pane_ids (tb_layout t) → p ∈ pane_ids (tb_layout t'))
      else c' = c1 ∧ t' = t ∧ made = None.
Proof.
  intros Hwf Hr Hn id c1. unfold split_focused_with_runtime. fold (split_layout (ct_pane c) (tb_layout t) direction ratio).
  destruct (split_layout _ _ _ _) as [[l' id'] next'] eqn:Hs. pose proof Hwf as [Hl Hp Hroot].
  destruct (split_layout_ids _ _ _ _ _ _ _ Hl Hr Hn Hs) as (Hl' & -> & -> & Hfocus & Hids).
  assert (Hc1 : c <| ct_pane := (ct_pane c + 1)%N |> = c1) by (subst c1; destruct c; cbn; unfold update; cbn; f_equal; lia).
  rewrite Hc1. destruct (sp_started spawn); cbn [negb].
  - unfold launched_terminal. destruct (TerminalId_alloc c1 (sp_micros spawn)) as [c' tid] eqn:Ht.
    assert (Hc' : ct_pane c' = (ct_pane c + 1)%N).
    { injection Ht as <- _. subst c1. cbn. lia. }
    set (terminal := match argv with Some argv => with_launch_argv _ argv | None => _ end).
    assert (Htid : tm_id terminal = tid) by (subst terminal; by destruct argv). clearbody terminal.
    eexists c', _, _. split; [reflexivity|]. exists tid, (mkNewPane id terminal env). rewrite Htid.
    assert (Hfresh : tb_panes t !! ct_pane c = None).
    { apply eq_None_not_Some. intros Hin%Hp. destruct Hl as [_ _ Htaken _]. rewrite Forall_forall in Htaken.
      specialize (Htaken _ Hin). lia. }
    split_and!; try done.
    + rewrite Hc'. constructor; [exact Hl'| |apply Hids; by right].
      intros p. cbn. rewrite lookup_insert, Hids. case_decide as Hpid; [subst p|].
      * split; [by left|done].
      * rewrite Hp. split; [by right|]. intros [->|?]; done.
    + by apply (tab_attached_insert t _ (ct_pane c) (PaneState_new tid)).
    + intros p Hin. apply Hids. by right.
  - destruct (split_undone _ _ _ _ _ _ _ Hl Hs) as [focus ->].
    eexists _, _, _. split; [reflexivity|]. split_and!; [done| |done].
    rewrite focus_back by apply Hl. by destruct t.
Qed.

(** *** Closing *)

Lemma close_in_layout_spec next l p :
  layout_wf next l → p ∈ pane_ids l → 1 < length (pane_ids l) →
  ∃ l', close_in_layout l p = Some l' ∧ layout_wf next l' ∧ pane_ids l' = without p (pane_ids l)
        ∧ (tl_focus l ≠ p → tl_focus l' = tl_focus l).
Proof.
  intros Hwf Hp Hlen.
  assert (Hclose : ∀ l0, layout_wf next l0 → pane_ids l0 = pane_ids l → tl_focus l0 = p →
            ∃ l', close_focused l0 = Some (l', true) ∧ layout_wf next l' ∧ pane_ids l' = without p (pane_ids l)).
  { intros l0 Hwf0 Hids Hfocus. destruct (close_refines next l0 Hwf0) as (l' & closed & Hc & Ho & Hcl & Hwf').
    rewrite Hids, bool_decide_true in Hcl by done. subst closed. exists l'. split_and!; [done..|].
    unfold Order.close, order_of in Ho. cbn [po_ids po_focus] in Ho. rewrite Hids, Hfocus in Ho.
    destruct (Order.neighbour _ _ _); [|congruence]. by injection Ho. }
  unfold close_in_layout. case_bool_decide as Hf.
  - destruct (Hclose l Hwf eq_refl Hf) as (l' & -> & Hwf' & Hids). exists l'. by split_and!.
  - destruct (Hclose (focus_pane l p)) as (l' & -> & Hwf' & Hids).
    + by apply focus_wf.
    + unfold focus_pane. by destruct (contains _ _).
    + unfold focus_pane. by rewrite (proj2 (contains_true _ _)).
    + exists (focus_pane l' (tl_focus l)). cbn.
      assert (Hin : tl_focus l ∈ pane_ids l').
      { rewrite Hids. apply elem_of_without. split; [done|]. apply Hwf. }
      split_and!; [done|by apply focus_wf| |].
      * unfold focus_pane. by destruct (contains _ _).
      * intros _. unfold focus_pane. by rewrite (proj2 (contains_true _ _)).
Qed.

Lemma promoted_root_spec next t p r :
  tab_wf next t → p ∈ pane_ids (tb_layout t) → 1 < length (pane_ids (tb_layout t)) →
  r = default (tb_root_pane t) (promoted_root_if_needed t p) →
  r ∈ without p (pane_ids (tb_layout t)) ∧ (tb_root_pane t ≠ p → r = tb_root_pane t).
Proof.
  intros [Hl Hp Hroot] Hin Hlen ->. unfold promoted_root_if_needed. case_bool_decide as Hr; cbn [negb].
  - unfold find_first. destruct (List.find _ _) as [r|] eqn:Hfind; cbn.
    + apply List.find_some in Hfind as [Hr' Hne]. rewrite negb_true_iff, bool_decide_eq_false in Hne.
      split; [|done]. apply elem_of_without. split; [done|]. by apply list_elem_of_In.
    + exfalso. pose proof (List.find_none _ _ Hfind) as Hnone.
      destruct (NoDup_split_list _ _ (wf_ids _ _ Hl) Hin) as (pre & post & Hids & Hpre & Hpost).
      assert (∃ q, q ∈ pre ++ post) as [q Hq].
      { destruct pre as [|q pre]; [destruct post as [|q post]|]; [|exists q; set_solver..].
        rewrite Hids in Hlen. cbn in Hlen. lia. }
      specialize (Hnone q). rewrite <- list_elem_of_In, Hids in Hnone. specialize (Hnone ltac:(set_solver)).
      rewrite negb_false_iff, bool_decide_eq_true in Hnone. subst q. set_solver.
  - cbn. split; [|done]. by apply elem_of_without.
Qed.

(** The pane is gone, with its state. *)
Definition tab_without (next : N) (t t' : Tab) (p : PaneId) : Prop :=
  tab_wf next t'
  ∧ (∃ s, tb_panes t !! p = Some s ∧ tab_attached t ≡ₚ (p, pn_attached_terminal_id s) :: tab_attached t')
  ∧ tb_number t' = tb_number t ∧ tb_custom_name t' = tb_custom_name t
  ∧ (tb_root_pane t ≠ p → tb_root_pane t' = tb_root_pane t)
  ∧ (tl_focus (tb_layout t) ≠ p → tl_focus (tb_layout t') = tl_focus (tb_layout t)).

Lemma tab_without_intro next t t' p s l :
  tab_wf next t → tb_panes t !! p = Some s → 1 < length (pane_ids (tb_layout t)) →
  close_in_layout (tb_layout t) p = Some l →
  tb_layout t' = l → tb_panes t' = delete p (tb_panes t) →
  tb_root_pane t' = default (tb_root_pane t) (promoted_root_if_needed t p) →
  tb_number t' = tb_number t → tb_custom_name t' = tb_custom_name t →
  tab_without next t t' p.
Proof.
  intros Hwf Hs Hlen Hc Hl Hp Hr Hn Hname. pose proof Hwf as [Hl0 Hp0 Hroot].
  assert (Hin : p ∈ pane_ids (tb_layout t)) by (apply Hp0; by exists s).
  destruct (close_in_layout_spec next (tb_layout t) p Hl0 Hin Hlen) as (l' & Hc' & Hl' & Hids & Hfocus).
  rewrite Hc in Hc'. injection Hc' as <-. destruct (promoted_root_spec next t p _ Hwf Hin Hlen Hr) as [Hr1 Hr2].
  subst l. split_and!; [|exists s; split; [done|by apply tab_attached_delete]|done..].
  constructor; [done| |by rewrite Hids].
  intros q. rewrite Hp, Hids, elem_of_without, <- Hp0, lookup_delete. case_decide as Hq; [subst q|].
  - split; [by intros []|by intros []].
  - naive_solver.
Qed.

Lemma pane_count_length t : pane_count (tb_layout t) = length (pane_ids (tb_layout t)).
Proof. apply count_panes_ids. Qed.

Lemma detach_pane_spec next t p :
  tab_wf next t → is_Some (tb_panes t !! p) → 1 < pane_count (tb_layout t) →
  ∃ t' s, tb_panes t !! p = Some s ∧ detach_pane t p = Some (t', Some (p, pn_attached_terminal_id s))
          ∧ tab_without next t t' p.
Proof.
  intros Hwf [s Hs] Hlen. pose proof Hwf as [Hl0 Hp0 Hroot]. rewrite pane_count_length in Hlen.
  destruct (close_in_layout_spec next (tb_layout t) p Hl0) as (l' & Hc & _); [apply Hp0; by exists s|done|].
  unfold detach_pane. rewrite bool_decide_false, Hc by (rewrite pane_count_length; lia). cbn.
  rewrite Hs. eexists _, s. split_and!; [done|reflexivity|]. by eapply tab_without_intro.
Qed.

Lemma tab_take_pane_spec next t p s :
  tab_wf next t → tb_panes t !! p = Some s →
  ∃ t', tab_take_pane_for_move t p = Some (t', Some (mkMovedPane p s))
        ∧ (1 < pane_count (tb_layout t) → tab_without next t t' p).
Proof.
  intros Hwf Hs. pose proof Hwf as [Hl0 Hp0 Hroot]. unfold tab_take_pane_for_move. rewrite Hs.
  case_bool_decide as Hlen.
  - rewrite pane_count_length in Hlen.
    destruct (close_in_layout_spec next (tb_layout t) p Hl0) as (l' & Hc & _); [apply Hp0; by exists s|done|].
    rewrite Hc. cbn. eexists. split; [reflexivity|]. intros _. by eapply tab_without_intro.
  - eexists. split; [reflexivity|]. done.
Qed.

(** *** Inserting *)

Lemma insert_existing_pane_spec next t target moved direction ratio :
  tab_wf next t → f32_wf ratio → (mv_pane_id moved < next)%N →
  target ∈ pane_ids (tb_layout t) → tb_panes t !! mv_pane_id moved = None →
  ∃ t', insert_existing_pane t target moved direction ratio = (t', Ok (mv_pane_id moved))
        ∧ tab_wf next t'
        ∧ tab_attached t' ≡ₚ (mv_pane_id moved, pn_attached_terminal_id (mv_pane_state moved)) :: tab_attached t
        ∧ tb_number t' = tb_number t ∧ tb_custom_name t' = tb_custom_name t
        ∧ tb_root_pane t' = tb_root_pane t
        ∧ tb_panes t' = <[mv_pane_id moved := mv_pane_state moved]> (tb_panes t)
        ∧ (∀ p, p ∈ pane_ids (tb_layout t') ↔ p = mv_pane_id moved ∨ p ∈ pane_ids (tb_layout t))
        ∧ tl_root (tb_layout t') = split_at (tl_root (tb_layout t)) target direction (mv_pane_id moved) (valid_split_ratio ratio).
Proof.
  intros Hwf Hr Hlt Htarget Hnone. pose proof Hwf as [Hl Hp Hroot].
  assert (Hnotin : mv_pane_id moved ∉ pane_ids (tb_layout t)).
  { rewrite <- Hp, Hnone. by intros []. }
  pose proof (insert_wf next (tb_layout t) target (mv_pane_id moved) direction ratio Hl Hr Hlt) as Hl'.
  unfold insert_existing_pane, insert_pane_near in *.
  assert ((target =? mv_pane_id moved)%N = false) as Hne by (apply N.eqb_neq; set_solver). rewrite Hne in *.
  rewrite (proj2 (contains_true _ _) Htarget) in *.
  destruct (contains (pane_ids (tb_layout t)) (mv_pane_id moved)) eqn:Hc; [by apply contains_true in Hc|].
  cbn [negb orb fst] in *. eexists. split; [reflexivity|].
  assert (Hids : ∀ p, p ∈ pane_ids (mkTileLayout (split_at (tl_root (tb_layout t)) target direction
                    (mv_pane_id moved) (valid_split_ratio ratio)) (mv_pane_id moved))
                  ↔ p = mv_pane_id moved ∨ p ∈ pane_ids (tb_layout t)).
  { intros p. unfold pane_ids. cbn. rewrite split_at_ids. by rewrite elem_of_insert_after. }
  split_and!; [|by apply tab_attached_insert|done..|exact Hids|done].
  constructor; [exact Hl'| |apply Hids; by right].
  intros p. cbn. rewrite lookup_insert. rewrite Hids. case_decide as Hpid; [subst p|].
  - split; [by left|done].
  - rewrite Hp. split; [by right|]. intros [->|?]; done.
Qed.

(** ** Lists of tabs *)

Lemma attached_lookup tabs i t :
  tabs !! i = Some t → attached tabs ≡ₚ tab_attached t ++ attached (delete i tabs).
Proof.
  intros Hi. unfold attached. rewrite (delete_Permutation tabs i t Hi) at 1. by rewrite bind_cons.
Qed.

Lemma attached_set tabs i t t' :
  tabs !! i = Some t → attached (<[i := t']> tabs) ≡ₚ tab_attached t' ++ attached (delete i tabs).
Proof.
  intros Hi. assert (Hlt : i < length tabs) by (by eapply lookup_lt_Some).
  rewrite (attached_lookup (<[i := t']> tabs) i t') by (by apply list_lookup_insert_eq).
  f_equiv. by rewrite !delete_take_drop, take_insert_ge, drop_insert_lt by lia.
Qed.

Lemma attached_app tabs tabs' : attached (tabs ++ tabs') = attached tabs ++ attached tabs'.
Proof. apply bind_app. Qed.

Lemma attached_single t : attached [t] = tab_attached t.
Proof. unfold attached. cbn. apply app_nil_r. Qed.

Lemma elem_of_attached tabs x : x ∈ attached tabs ↔ ∃ t, t ∈ tabs ∧ x ∈ tab_attached t.
Proof. unfold attached. rewrite list_elem_of_bind. naive_solver. Qed.

Lemma attached_pane tabs p : p ∈ (attached tabs).*1 ↔ ∃ t, t ∈ tabs ∧ is_Some (tb_panes t !! p).
Proof.
  rewrite list_elem_of_fmap. split.
  - intros (x & -> & (t & Ht & Hx)%elem_of_attached). exists t. split; [done|].
    apply tab_attached_panes, list_elem_of_fmap. by exists x.
  - intros (t & Ht & (x & -> & Hx)%tab_attached_panes%list_elem_of_fmap). exists x. split; [done|].
    apply elem_of_attached. by exists t.
Qed.

(** Tabs that are well formed, with panes and numbers of their own *)
Record tabs_ok (next next_tab : N) (tabs : list Tab) : Prop := mk_tabs_ok {
  to_tabs : Forall (tab_wf next) tabs;
  to_panes : NoDup (attached tabs).*1;
  to_numbers : NoDup (tb_number <$> tabs);
  to_bounds : Forall (λ t, 0 < tb_number t < next_tab)%N tabs;
}.

Lemma tabs_ok_mono next next' next_tab next_tab' tabs :
  (next ≤ next')%N → (next_tab ≤ next_tab')%N → tabs_ok next next_tab tabs → tabs_ok next' next_tab' tabs.
Proof.
  intros Hn Ht [H1 H2 H3 H4]. constructor; [|done|done|].
  - eapply Forall_impl; [exact H1|]. intros t. by apply tab_wf_mono.
  - eapply Forall_impl; [exact H4|]. cbn. lia.
Qed.

Lemma tabs_ok_lookup next next_tab tabs i t : tabs_ok next next_tab tabs → tabs !! i = Some t → tab_wf next t.
Proof. intros [Ht _ _ _] Hi. by eapply Forall_lookup_1. Qed.

Lemma tabs_ok_taken next next_tab tabs p : tabs_ok next next_tab tabs → p ∈ (attached tabs).*1 → (p < next)%N.
Proof.
  intros [Ht _ _ _] (t & Hin & Hp)%attached_pane. rewrite Forall_forall in Ht. by eapply tab_wf_taken; [apply Ht|].
Qed.

Lemma tabs_ok_delete next next_tab tabs i t :
  tabs !! i = Some t → tabs_ok next next_tab tabs → tabs_ok next next_tab (delete i tabs).
Proof.
  intros Hi [H1 H2 H3 H4].
  assert (Hsub : delete i tabs `sublist_of` tabs) by apply sublist_delete.
  constructor.
  - by apply Forall_delete.
  - rewrite (attached_lookup _ _ _ Hi), fmap_app in H2. by apply NoDup_app in H2 as (_ & _ & ?).
  - eapply sublist_NoDup; [exact H3|]. by apply (fmap_sublist _ _ _ Hsub).
  - by apply Forall_delete.
Qed.

Lemma tabs_ok_set next next_tab tabs i t t' :
  tabs !! i = Some t → tabs_ok next next_tab tabs → tab_wf next t' → tb_number t' = tb_number t →
  NoDup ((tab_attached t').*1 ++ (attached (delete i tabs)).*1) → tabs_ok next next_tab (<[i := t']> tabs).
Proof.
  intros Hi [H1 H2 H3 H4] Hwf Hn Hnd.
  assert (Hnum : tb_number <$> <[i := t']> tabs = tb_number <$> tabs).
  { rewrite list_fmap_insert. apply list_insert_id. by rewrite list_lookup_fmap, Hi, Hn. }
  constructor.
  - by apply Forall_insert.
  - by rewrite (attached_set _ _ _ _ Hi), fmap_app.
  - by rewrite Hnum.
  - apply Forall_insert; [done|]. rewrite Hn. by eapply (Forall_lookup_1 _ _ _ _ H4).
Qed.

Lemma tabs_ok_snoc next next_tab tabs t :
  tabs_ok next next_tab tabs → tab_wf next t → tb_number t = next_tab → (0 < next_tab)%N →
  (∀ p, p ∈ (tab_attached t).*1 → p ∉ (attached tabs).*1) → tabs_ok next (next_tab + 1) (tabs ++ [t]).
Proof.
  intros [H1 H2 H3 H4] Hwf Hn Hpos Hnew. constructor.
  - by apply Forall_app_2; [|constructor].
  - rewrite attached_app, attached_single, fmap_app. apply NoDup_app. split_and!; [done| |apply tab_attached_NoDup].
    intros p Hp Hp'. by apply (Hnew p).
  - rewrite fmap_app. apply NoDup_app. split_and!; [done| |apply NoDup_singleton].
    intros n (t0 & -> & Ht0)%list_elem_of_fmap. cbn. rewrite list_elem_of_singleton, Hn. intros Heq.
    rewrite Forall_forall in H4. specialize (H4 t0 Ht0). cbn in H4. lia.
  - apply Forall_app_2; [|constructor; [lia|done]]. eapply Forall_impl; [exact H4|]. cbn. lia.
Qed.

(** Numbers of panes, below the next one and distinct *)
Record numbers_ok (next : N) (numbers : gmap PaneId N) : Prop := mk_numbers_ok {
  no_bounds : ∀ p n, numbers !! p = Some n → (0 < n < next)%N;
  no_inj : ∀ p q n, numbers !! p = Some n → numbers !! q = Some n → p = q;
  no_pos : (0 < next)%N;
}.

Lemma numbers_ok_register next numbers p :
  numbers_ok next numbers → numbers_ok (next + 1) (<[p := next]> numbers).
Proof.
  intros [Hb Hi Hp]. constructor; [| |lia].
  - intros q n. rewrite lookup_insert. case_decide; [intros [= <-]; lia|]. intros Hq%Hb. lia.
  - intros q r n. rewrite !lookup_insert. repeat case_decide; subst; try done.
    + intros [= <-] Hr%Hb. lia.
    + intros Hq%Hb [= <-]. lia.
    + apply Hi.
Qed.

Lemma numbers_ok_sub next numbers numbers' :
  numbers' ⊆ numbers → numbers_ok next numbers → numbers_ok next numbers'.
Proof.
  intros Hsub [Hb Hi Hp]. constructor; [| |done].
  - intros p n H. eapply Hb, lookup_weaken; [exact H|done].
  - intros p q n H1 H2. eapply Hi; (eapply lookup_weaken; [|exact Hsub]); done.
Qed.

(** ** Workspaces that are well formed *)

Record ws_core (c : Counters) (w : Workspace) : Prop := mk_ws_core {
  wc_tabs : tabs_ok (ct_pane c) (ws_next_public_tab_number w) (ws_tabs w);
  wc_numbers : numbers_ok (ws_next_public_pane_number w) (ws_public_pane_numbers w);
  wc_next_tab : (0 < ws_next_public_tab_number w)%N;
}.

(** [assert_invariants_for_test], but for what it says of terminals *)
Record ws_wf (c : Counters) (w : Workspace) : Prop := mk_ws_wf {
  ww_core : ws_core c w;
  ww_active : ws_active_tab w < length (ws_tabs w);
  ww_numbered : ∀ p, is_Some (ws_public_pane_numbers w !! p) ↔ p ∈ (attached (ws_tabs w)).*1;
}.

Lemma ws_wf_mono c c' w : (ct_pane c ≤ ct_pane c')%N → ws_wf c w → ws_wf c' w.
Proof.
  intros Hle [[Ht Hn Hp] Ha Hx]. constructor; [|done..]. constructor; [|done..].
  eapply tabs_ok_mono; [exact Hle|done|exact Ht].
Qed.

Lemma find_tab_index_spec w p i :
  find_tab_index_for_pane w p = Some i ↔
  ∃ t, ws_tabs w !! i = Some t ∧ is_Some (tb_panes t !! p) ∧ ∀ j t', ws_tabs w !! j = Some t' → j < i → tb_panes t' !! p = None.
Proof.
  unfold find_tab_index_for_pane. split.
  - intros ([j t] & Hf & Hj)%fmap_Some. cbn in Hj. subst j. apply list_find_Some in Hf as (Hi & Hp & Hbefore).
    exists t. split_and!; [done..|]. intros j t' Hj Hlt. apply eq_None_not_Some. by eapply Hbefore.
  - intros (t & Hi & Hp & Hbefore). apply fmap_Some. exists (i, t). split; [|done].
    apply list_find_Some. split_and!; [done..|]. intros j t' Hj Hlt. rewrite (Hbefore _ _ Hj Hlt). by intros [].
Qed.

Lemma find_tab_index_none w p : find_tab_index_for_pane w p = None ↔ p ∉ (attached (ws_tabs w)).*1.
Proof.
  unfold find_tab_index_for_pane. rewrite fmap_None, list_find_None, Forall_forall, attached_pane. naive_solver.
Qed.

Lemma find_tab_index_some w p i t :
  find_tab_index_for_pane w p = Some i → ws_tabs w !! i = Some t → is_Some (tb_panes t !! p).
Proof. intros (t' & Hi & Hp & _)%find_tab_index_spec Ht. by simplify_eq. Qed.

(** *** What operations do to numbers *)

(** Panes keep their numbers, and numbers that are given out were not given out
    before. *)
Record numbers_kept (w w' : Workspace) : Prop := mk_numbers_kept {
  nk_id : ws_id w' = ws_id w;
  nk_next : (ws_next_public_pane_number w ≤ ws_next_public_pane_number w')%N;
  nk_next_tab : (ws_next_public_tab_number w ≤ ws_next_public_tab_number w')%N;
  nk_kept : ∀ p n, ws_public_pane_numbers w' !! p = Some n →
              ws_public_pane_numbers w !! p = Some n
              ∨ ws_public_pane_numbers w !! p = None ∧ (ws_next_public_pane_number w ≤ n)%N;
}.

#[export] Instance numbers_kept_refl : Reflexive numbers_kept.
Proof. intros w. constructor; [done|lia|lia|by left]. Qed.

Lemma numbers_kept_sub w w' :
  ws_id w' = ws_id w → ws_next_public_pane_number w' = ws_next_public_pane_number w →
  (ws_next_public_tab_number w ≤ ws_next_public_tab_number w')%N →
  ws_public_pane_numbers w' ⊆ ws_public_pane_numbers w → numbers_kept w w'.
Proof.
  intros Hid Hn Ht Hsub. constructor; [done|lia|done|]. intros p n Hp. left. by eapply lookup_weaken.
Qed.

(** Giving a number to a new pane *)
Lemma register_kept w w' p n :
  ws_id w' = ws_id w → ws_next_public_pane_number w' = (n + 1)%N → n = ws_next_public_pane_number w →
  (ws_next_public_tab_number w ≤ ws_next_public_tab_number w')%N →
  ws_public_pane_numbers w' = <[p := n]> (ws_public_pane_numbers w) → ws_public_pane_numbers w !! p = None →
  numbers_kept w w'.
Proof.
  intros Hid Hn Hnext Ht Hnum Hp. constructor; [done|lia|done|]. intros q m. rewrite Hnum, lookup_insert.
  case_decide; [subst; intros [= <-]; right; split; [done|lia]|by left].
Qed.

Lemma register_next w p :
  (0 < ws_next_public_pane_number w)%N → (ws_next_public_pane_number w + 1 < 2 ^ 64)%N →
  let w' := register_new_pane_with_number w p (ws_next_public_pane_number w) in
  ws_next_public_pane_number w' = (ws_next_public_pane_number w + 1)%N
  ∧ ws_public_pane_numbers w' = <[p := ws_next_public_pane_number w]> (ws_public_pane_numbers w).
Proof.
  intros Hpos Hlt w'. split; [|done]. subst w'. unfold register_new_pane_with_number, usize_add.
  change (N.max (ws_next_public_pane_number w) ((ws_next_public_pane_number w + 1) mod 2 ^ 64)
          = ws_next_public_pane_number w + 1)%N.
  rewrite N.mod_small by done. lia.
Qed.

Lemma unnumbered c w p : ws_wf c w → p ∉ (attached (ws_tabs w)).*1 → ws_public_pane_numbers w !! p = None.
Proof. intros Hwf Hp. apply eq_None_not_Some. by rewrite (ww_numbered _ _ Hwf). Qed.

Lemma ws_fresh c w : ws_wf c w → ct_pane c ∉ (attached (ws_tabs w)).*1.
Proof. intros [[Ht _ _] _ _] Hin. pose proof (tabs_ok_taken _ _ _ _ Ht Hin). lia. Qed.

(** *** Tabs come and go *)

Lemma create_tab_spec c w cwd argv env spawn :
  ws_wf c w → (ct_pane c + 1 < 2 ^ 32)%N → (ws_next_public_tab_number w + 1 < 2 ^ 64)%N →
  (ws_next_public_pane_number w + 1 < 2 ^ 64)%N →
  let id := ct_pane c in
  let c1 := c <| ct_pane ::= N.succ |> in
  ∃ c' w' made, create_tab_with_runtime c w cwd argv env spawn = Some (c', w', made)
    ∧ ws_wf c' w' ∧ numbers_kept w w' ∧ ws_active_tab w' = ws_active_tab w
    ∧ if sp_started spawn then
        ∃ tid np, TerminalId_alloc c1 (sp_micros spawn) = (c', tid) ∧ made = Some (length (ws_tabs w), np)
          ∧ np_pane_id np = id ∧ tm_id (np_terminal np) = tid
          ∧ np_env np = launch_env_for_new_pane w (ws_next_public_tab_number w) (ws_next_public_pane_number w) env
          ∧ ws_public_pane_numbers w' !! id = Some (ws_next_public_pane_number w)
          ∧ (∃ tab, ws_tabs w' = ws_tabs w ++ [tab] ∧ tb_number tab = ws_next_public_tab_number w
                    ∧ tab_attached tab = [(id, tid)])
      else c' = c1 ∧ made = None ∧ ws_tabs w' = ws_tabs w.
Proof.
  intros Hwf Hpane Htab Hnum id c1. pose proof Hwf as [[Ht Hn Hpos] Ha Hx].
  unfold create_tab_with_runtime. cbv zeta.
  assert (Hact : ∃ t, active_tab w = Some t) by (by apply lookup_lt_is_Some_2).
  destruct Hact as [t0 Hact]. change (active_tab (w <| ws_next_public_tab_number ::= λ n, usize_add n 1 |>)) with (active_tab w).
  rewrite Hact. cbn [mbind option_bind]. unfold Tab_new_with_runtime. cbn [TileLayout_new PaneId_alloc].
  rewrite N.mod_small by done.
  assert (Hc1 : c <| ct_pane := (ct_pane c + 1)%N |> = c1) by (subst c1; destruct c; unfold update; cbn; f_equal; lia).
  rewrite Hc1. assert (Htab' : usize_add (ws_next_public_tab_number w) 1 = (ws_next_public_tab_number w + 1)%N).
  { unfold usize_add. by rewrite N.mod_small. }
  destruct (sp_started spawn); cbn [negb].
  - unfold launched_terminal. destruct (TerminalId_alloc c1 (sp_micros spawn)) as [c' tid] eqn:Htid.
    assert (Hc' : ct_pane c' = (ct_pane c + 1)%N).
    { injection Htid as <- _. subst c1. cbn. lia. }
    set (terminal := match argv with Some argv => with_launch_argv _ argv | None => _ end).
    assert (Hterm : tm_id terminal = tid) by (subst terminal; by destruct argv). clearbody terminal.
    set (tab := mkTab _ _ _ _ _ _). set (np := mkNewPane _ _ _).
    eexists c', _, _. split; [reflexivity|].
    assert (Hsingle := single_tab_wf (ct_pane c') tab (ct_pane c) (PaneState_new (tm_id terminal)) eq_refl eq_refl
                         eq_refl ltac:(lia)). destruct Hsingle as [Htw Hta]. cbn in Hta. rewrite Hterm in Hta.
    destruct (register_next w (ct_pane c) (no_pos _ _ Hn) Hnum) as [Hrn Hrm].
    set (w' := register_new_pane_with_number _ _ _ <| ws_tabs ::= _ |>).
    assert (Hw' : ws_tabs w' = ws_tabs w ++ [tab] ∧ ws_active_tab w' = ws_active_tab w ∧ ws_id w' = ws_id w
                  ∧ ws_next_public_tab_number w' = (ws_next_public_tab_number w + 1)%N
                  ∧ ws_next_public_pane_number w' = (ws_next_public_pane_number w + 1)%N
                  ∧ ws_public_pane_numbers w' = <[ct_pane c := ws_next_public_pane_number w]> (ws_public_pane_numbers w)).
    { split_and!; [done..|exact Htab'|exact Hrn|done]. }
    assert (Hlen : length (ws_tabs w') - 1 = length (ws_tabs w)).
    { destruct Hw' as [-> _]. rewrite length_app. cbn. lia. }
    rewrite Hlen. clearbody w'. destruct Hw' as (Hts & Hac & Hid & Hnt & Hnp & Hnums).
    pose proof (ws_fresh _ _ Hwf) as Hfresh. pose proof (unnumbered _ _ _ Hwf Hfresh) as Hunn.
    split_and!; [|by eapply (register_kept w w' (ct_pane c)); try done; lia|done|].
    + constructor; [constructor| |].
      * rewrite Hnt, Hts. apply tabs_ok_snoc; [|done..|].
        -- eapply tabs_ok_mono; [|done|exact Ht]. lia.
        -- rewrite Hta. cbn. intros p ->%list_elem_of_singleton. exact Hfresh.
      * rewrite Hnp, Hnums. by apply numbers_ok_register.
      * lia.
      * rewrite Hac, Hts, length_app. cbn. lia.
      * intros p. rewrite Hnums, Hts, attached_app, attached_single, Hta, fmap_app. cbn.
        rewrite elem_of_app, list_elem_of_singleton, lookup_insert, <- Hx.
        case_decide; [subst; split; [by right|done]|]. split; [by left|by intros [?| ->]].
    + exists tid, np. split_and!; [done..| |exists tab; by split_and!]. by rewrite Hnums, lookup_insert_eq.
  - set (w' := w <| ws_next_public_tab_number ::= _ |>).
    assert (Hw' : ws_tabs w' = ws_tabs w ∧ ws_active_tab w' = ws_active_tab w ∧ ws_id w' = ws_id w
                  ∧ ws_next_public_tab_number w' = (ws_next_public_tab_number w + 1)%N
                  ∧ ws_next_public_pane_number w' = ws_next_public_pane_number w
                  ∧ ws_public_pane_numbers w' = ws_public_pane_numbers w) by done.
    clearbody w'. destruct Hw' as (Hts & Hac & Hid & Hnt & Hnp & Hnums).
    eexists c1, w', None. split; [done|]. split_and!; [|apply numbers_kept_sub; try done|done..].
    + constructor; [constructor| |]; rewrite ?Hts, ?Hac, ?Hnp, ?Hnums, ?Hnt; [|done|lia|done|done].
      eapply tabs_ok_mono; [| |exact Ht]; [subst c1; cbn|]; lia.
    + lia.
    + by rewrite Hnums.
Qed.

(** The tab of a pane *)
Lemma pane_tab c w p :
  ws_wf c w → p ∈ (attached (ws_tabs w)).*1 →
  ∃ i t, find_tab_index_for_pane w p = Some i ∧ ws_tabs w !! i = Some t ∧ is_Some (tb_panes t !! p)
         ∧ tab_wf (ct_pane c) t.
Proof.
  intros [[Ht _ _] _ _] Hp. destruct (find_tab_index_for_pane w p) as [i|] eqn:Hi;
    [|by apply find_tab_index_none in Hi].
  pose proof Hi as (t & Hti & Hpt & _)%find_tab_index_spec. exists i, t. split_and!; [done..|].
  by eapply tabs_ok_lookup.
Qed.

Lemma focus_tab_wf next t p : tab_wf next t → tab_wf next (t <| tb_layout ::= λ l, focus_pane l p |>).
Proof.
  intros [Hl Hp Hr]. assert (Hids : pane_ids (focus_pane (tb_layout t) p) = pane_ids (tb_layout t)).
  { unfold focus_pane. by destruct (contains _ _). }
  constructor; unfold update; cbn; rewrite ?Hids; [by apply focus_wf|done|done].
Qed.

(** A tab gets a pane that no tab has. *)
Lemma tabs_ok_gain next next' next_tab tabs i t t' p s :
  tabs !! i = Some t → (next ≤ next')%N → tabs_ok next next_tab tabs → tab_wf next' t' →
  tb_number t' = tb_number t → tab_attached t' ≡ₚ (p, s) :: tab_attached t → p ∉ (attached tabs).*1 →
  tabs_ok next' next_tab (<[i := t']> tabs) ∧ attached (<[i := t']> tabs) ≡ₚ (p, s) :: attached tabs.
Proof.
  intros Hi Hle Hok Hwf Hn Hatt Hp.
  assert (Hperm : attached (<[i := t']> tabs) ≡ₚ (p, s) :: attached tabs).
  { by rewrite (attached_set _ _ _ _ Hi), Hatt, (attached_lookup _ _ _ Hi). }
  split; [|done]. apply (tabs_ok_mono _ next' _ next_tab) in Hok; [|done|done].
  eapply tabs_ok_set; [done..|]. rewrite <- fmap_app, Hatt. cbn.
  rewrite <- (attached_lookup _ _ _ Hi). constructor; [done|apply Hok].
Qed.

(** A tab loses a pane. *)
Lemma tabs_ok_lose next next_tab tabs i t t' p s :
  tabs !! i = Some t → tabs_ok next next_tab tabs → tab_wf next t' →
  tb_number t' = tb_number t → tab_attached t ≡ₚ (p, s) :: tab_attached t' →
  tabs_ok next next_tab (<[i := t']> tabs) ∧ attached tabs ≡ₚ (p, s) :: attached (<[i := t']> tabs)
  ∧ p ∉ (attached (<[i := t']> tabs)).*1.
Proof.
  intros Hi Hok Hwf Hn Hatt.
  assert (Hperm : attached tabs ≡ₚ (p, s) :: attached (<[i := t']> tabs)).
  { by rewrite (attached_set _ _ _ _ Hi), (attached_lookup _ _ _ Hi), Hatt. }
  pose proof (to_panes _ _ _ Hok) as Hnd. rewrite Hperm in Hnd. cbn in Hnd. apply NoDup_cons in Hnd as [Hp Hnd].
  split_and!; [|done..]. eapply tabs_ok_set; [done..|]. rewrite <- fmap_app. by rewrite <- (attached_set _ _ _ _ Hi).
Qed.

Lemma tabs_ok_same next next' next_tab tabs i t t' :
  tabs !! i = Some t → (next ≤ next')%N → tabs_ok next next_tab tabs → tab_wf next' t' → tb_number t' = tb_number t →
  tab_attached t' = tab_attached t →
  tabs_ok next' next_tab (<[i := t']> tabs) ∧ attached (<[i := t']> tabs) = attached tabs.
Proof.
  intros Hi Hle Hok Hwf Hn Hatt.
  assert (Heq : attached (<[i := t']> tabs) = attached tabs).
  { unfold attached. rewrite <- (take_drop_middle _ _ _ Hi). assert (Hlt := lookup_lt_Some _ _ _ Hi).
    rewrite insert_app_r_alt by (rewrite length_take; lia). rewrite length_take, Nat.min_l by lia.
    rewrite Nat.sub_diag. cbn. by rewrite !bind_app, !bind_cons, Hatt. }
  split; [|done]. apply (tabs_ok_mono _ next' _ next_tab) in Hok; [|done|done].
  eapply tabs_ok_set; [done..|]. rewrite <- fmap_app, <- (attached_set _ _ _ _ Hi), Heq. apply Hok.
Qed.

Lemma split_pane_spec c w p direction ratio cwd dir argv env focus spawn :
  ws_wf c w → p ∈ (attached (ws_tabs w)).*1 → ratio_wf ratio → (ct_pane c + 1 < 2 ^ 32)%N →
  (ws_next_public_pane_number w + 1 < 2 ^ 64)%N →
  let id := ct_pane c in
  let c1 := c <| ct_pane ::= N.succ |> in
  ∃ i t, find_tab_index_for_pane w p = Some i ∧ ws_tabs w !! i = Some t
  ∧ ∃ c' w' made,
      split_pane_with_runtime c w p direction ratio cwd dir argv env focus spawn = Some (c', w', Some made)
      ∧ if sp_started spawn then
          ws_wf c' w' ∧ numbers_kept w w'
          ∧ ∃ tid np, TerminalId_alloc c1 (sp_micros spawn) = (c', tid) ∧ made = Some (i, np) ∧ np_pane_id np = id
              ∧ tm_id (np_terminal np) = tid
              ∧ np_env np = launch_env_for_new_pane w (tb_number t) (ws_next_public_pane_number w) env
              ∧ ws_public_pane_numbers w' !! id = Some (ws_next_public_pane_number w)
              ∧ attached (ws_tabs w') ≡ₚ (id, tid) :: attached (ws_tabs w)
        else c' = c1 ∧ w' = w ∧ made = None.
Proof.
  intros Hwf Hp Hr Hpane Hnum id c1. destruct (pane_tab _ _ _ Hwf Hp) as (i & t & Hi & Hti & Hpt & Htw).
  exists i, t. split_and!; [done..|]. unfold split_pane_with_runtime. rewrite Hi, Hti. cbn [mbind option_bind].
  set (t0 := t <| tb_layout ::= _ |>). set (env' := launch_env_for_new_pane _ _ _ _).
  pose proof (focus_tab_wf _ _ p Htw) as Htw0. fold t0 in Htw0.
  destruct (split_tab c t0 direction ratio cwd dir argv env' spawn Htw0 Hr Hpane) as (c' & t' & made & -> & Hmade).
  cbn [mbind option_bind]. fold c1 in Hmade. assert (Hlen := lookup_lt_Some _ _ _ Hti).
  destruct (sp_started spawn).
  - destruct Hmade as (tid & np & Htid & -> & Hnp & Hterm & Henv & Htw' & Hatt & Hnumber & _).
    set (t2 := if negb focus then _ else t').
    assert (Ht2 : tab_wf (ct_pane c') t2 ∧ tab_attached t2 = tab_attached t' ∧ tb_number t2 = tb_number t').
    { subst t2. destruct focus; cbn [negb]; [done|]. split; [by apply focus_tab_wf|done]. }
    clearbody t2. destruct Ht2 as (Htw2 & Hatt2 & Hnumber2).
    pose proof Hwf as [[Ht Hn Hpos] Ha Hx]. rewrite Hnp.
    destruct (register_next w id (no_pos _ _ Hn) Hnum) as [Hrn Hrm].
    set (w' := register_new_pane_with_number _ _ _).
    assert (Hw' : ws_tabs w' = <[i := t2]> (ws_tabs w) ∧ ws_active_tab w' = ws_active_tab w ∧ ws_id w' = ws_id w
                  ∧ ws_next_public_tab_number w' = ws_next_public_tab_number w
                  ∧ ws_next_public_pane_number w' = (ws_next_public_pane_number w + 1)%N
                  ∧ ws_public_pane_numbers w' = <[id := ws_next_public_pane_number w]> (ws_public_pane_numbers w)).
    { split_and!; [done..|exact Hrn|done]. }
    clearbody w'. destruct Hw' as (Hts & Hac & Hid & Hnt & Hnp' & Hnums).
    eexists c', w', _. split; [reflexivity|].
    pose proof (ws_fresh _ _ Hwf) as Hfresh. pose proof (unnumbered _ _ _ Hwf Hfresh) as Hunn.
    assert (Hc' : ct_pane c' = (ct_pane c + 1)%N) by (injection Htid as <- _; subst c1; cbn; lia).
    destruct (tabs_ok_gain (ct_pane c) (ct_pane c') (ws_next_public_tab_number w) (ws_tabs w) i t t2 id tid)
      as [Hok' Hperm]; [done|lia|done..|by rewrite Hnumber2, Hnumber|by rewrite Hatt2|done|].
    split_and!; [|eapply (register_kept w w' id); try done; lia|].
    + constructor; [constructor| |]; rewrite ?Hnt, ?Hts, ?Hac, ?length_insert; [done| |done|done|].
      * rewrite Hnp', Hnums. by apply numbers_ok_register.
      * intros q. rewrite Hnums, Hperm. cbn. rewrite elem_of_cons, lookup_insert, <- Hx.
        case_decide; [subst; split; [by left|done]|]. split; [by right|by intros [->|?]].
    + exists tid, np. rewrite Hts, Hnums, lookup_insert_eq. split_and!; done.
  - destruct Hmade as (-> & -> & ->). eexists c1, _, None. split; [reflexivity|]. split_and!; [done| |done].
    assert (Ht : t0 <| tb_layout ::= λ l, focus_pane l (tl_focus (tb_layout t)) |> = t).
    { subst t0. destruct t as [name number root [r f] ps z]. unfold update; cbn. f_equal.
      pose proof (wf_focus _ _ (tw_layout _ _ Htw)) as Hf. cbn in Hf. unfold focus_pane.
      destruct (contains (pane_ids (mkTileLayout r f)) p); cbn;
        [change (pane_ids (mkTileLayout r p)) with (pane_ids (mkTileLayout r f))|];
        by rewrite (proj2 (contains_true _ _) Hf). }
    rewrite Ht. unfold set_tab. destruct w. unfold update; cbn. f_equal. by apply list_insert_id.
Qed.

(** *** Closing *)

(** Closing a tab or a pane removes numbers only. *)
Lemma ws_wf_shrink c w w' :
  ws_wf c w → tabs_ok (ct_pane c) (ws_next_public_tab_number w) (ws_tabs w') →
  ws_next_public_tab_number w' = ws_next_public_tab_number w →
  ws_next_public_pane_number w' = ws_next_public_pane_number w →
  ws_public_pane_numbers w' ⊆ ws_public_pane_numbers w → ws_id w' = ws_id w →
  ws_active_tab w' < length (ws_tabs w') →
  (∀ p, is_Some (ws_public_pane_numbers w' !! p) ↔ p ∈ (attached (ws_tabs w')).*1) →
  ws_wf c w' ∧ numbers_kept w w'.
Proof.
  intros [[Ht Hn Hp] _ _] Hok Hnt Hnp Hsub Hid Hact Hnum. split.
  - constructor; [constructor|done|done]; rewrite ?Hnt, ?Hnp; [done| |done]. by eapply numbers_ok_sub.
  - by apply numbers_kept_sub; [| |rewrite Hnt|].
Qed.

(** The tab that is shown after a removal: the same one, unless it is the one
    that was removed *)
Definition after_removal (active removed remaining : nat) : nat :=
  if bool_decide (remaining ≤ active) then remaining - 1
  else if bool_decide (removed ≤ active) && bool_decide (0 < active) then pred active else active.

Lemma after_removal_spec {A} (l : list A) active removed :
  active < length l → removed < length l → 1 < length l →
  after_removal active removed (length l - 1) < length l - 1
  ∧ (active ≠ removed → delete removed l !! after_removal active removed (length l - 1) = l !! active).
Proof.
  intros Ha Hr Hl. unfold after_removal. repeat case_bool_decide; cbn [andb]; (split; [lia|]); intros Hne.
  - assert (active = length l - 1) by lia. rewrite list_lookup_delete_ge by lia. f_equal. lia.
  - rewrite list_lookup_delete_ge by lia. f_equal. lia.
  - lia.
  - rewrite list_lookup_delete_lt by lia. done.
  - rewrite list_lookup_delete_lt by lia. done.
Qed.

Lemma active_after_close_spec w i :
  let w' := active_after_close w i in
  ws_tabs w' = ws_tabs w ∧ ws_id w' = ws_id w ∧ ws_next_public_tab_number w' = ws_next_public_tab_number w
  ∧ ws_next_public_pane_number w' = ws_next_public_pane_number w
  ∧ ws_public_pane_numbers w' = ws_public_pane_numbers w
  ∧ ws_active_tab w' = after_removal (ws_active_tab w) i (length (ws_tabs w)).
Proof.
  intros w'. subst w'. unfold active_after_close, after_removal.
  case_bool_decide; [done|].
  by destruct (bool_decide (i ≤ ws_active_tab w) && bool_decide (0 < ws_active_tab w)).
Qed.

Lemma attached_other tabs i t p :
  NoDup (attached tabs).*1 → tabs !! i = Some t → is_Some (tb_panes t !! p) →
  p ∉ (attached (delete i tabs)).*1.
Proof.
  intros Hnd Hi Hp Hin. rewrite (attached_lookup _ _ _ Hi), fmap_app in Hnd.
  apply NoDup_app in Hnd as (_ & Hdis & _). apply (Hdis p); [|done]. by apply tab_attached_panes.
Qed.

Lemma single_pane next t p s :
  tab_wf next t → pane_count (tb_layout t) ≤ 1 → tb_panes t !! p = Some s →
  tab_attached t = [(p, pn_attached_terminal_id s)].
Proof.
  intros [Hl Hp Hr] Hlen Hs. rewrite pane_count_length in Hlen.
  assert (Hids : pane_ids (tb_layout t) = [p]).
  { assert (Hin : p ∈ pane_ids (tb_layout t)) by (apply Hp; by exists s).
    destruct (pane_ids (tb_layout t)) as [|q [|]]; cbn in Hlen; [set_solver| |lia].
    apply list_elem_of_singleton in Hin. by subst q. }
  assert (Hpanes : tb_panes t = {[p := s]}).
  { apply map_eq. intros q. rewrite lookup_singleton. case_decide as Hq; [by subst q|].
    apply eq_None_not_Some. rewrite Hp, Hids, list_elem_of_singleton. congruence. }
  unfold tab_attached. by rewrite Hpanes, map_to_list_singleton.
Qed.

Lemma close_tab_spec c w i :
  ws_wf c w →
  match ws_tabs w !! i with
  | Some t =>
      if bool_decide (length (ws_tabs w) ≤ 1) then close_tab w i = (w, false)
      else ∃ w', close_tab w i = (w', true) ∧ ws_wf c w' ∧ numbers_kept w w'
                 ∧ ws_tabs w' = delete i (ws_tabs w)
                 ∧ (ws_active_tab w ≠ i → active_tab w' = active_tab w)
  | None => close_tab w i = (w, false)
  end.
Proof.
  intros Hwf. unfold close_tab. destruct (ws_tabs w !! i) as [t|] eqn:Hi; [|done].
  case_bool_decide as Hlen; [done|]. pose proof Hwf as [[Ht Hn Hpos] Ha Hx].
  assert (Hilt := lookup_lt_Some _ _ _ Hi).
  set (w0 := w <| ws_tabs ::= _ |> <| ws_public_pane_numbers ::= _ |>).
  set (w' := active_after_close w0 i). exists w'. split; [done|].
  assert (Hlen' : length (delete i (ws_tabs w)) = length (ws_tabs w) - 1) by (apply length_delete; done).
  assert (Hw' : ws_tabs w' = delete i (ws_tabs w) ∧ ws_id w' = ws_id w
                ∧ ws_next_public_tab_number w' = ws_next_public_tab_number w
                ∧ ws_next_public_pane_number w' = ws_next_public_pane_number w
                ∧ ws_public_pane_numbers w' = filter (λ pn, tb_panes t !! pn.1 = None) (ws_public_pane_numbers w)
                ∧ ws_active_tab w' = after_removal (ws_active_tab w) i (length (ws_tabs w) - 1)).
  { destruct (active_after_close_spec w0 i) as (E1 & E2 & E3 & E4 & E5 & E6). fold w' in E1, E2, E3, E4, E5, E6.
    change (ws_tabs w0) with (delete i (ws_tabs w)) in *. rewrite Hlen' in E6. by split_and!. }
  clearbody w'. clear w0. destruct Hw' as (Hts & Hid & Hnt & Hnp & Hnums & Hac).
  destruct (after_removal_spec (ws_tabs w) (ws_active_tab w) i Ha Hilt ltac:(lia)) as [Hin Hsame].
  destruct (ws_wf_shrink c w w' Hwf) as [Hwf' Hkept].
  - rewrite Hts. by eapply tabs_ok_delete.
  - done.
  - done.
  - rewrite Hnums. apply map_filter_subseteq.
  - done.
  - rewrite Hac, Hts, Hlen'. done.
  - intros p. rewrite Hnums, Hts. split.
    + intros [n (Hpn & Hnone)%map_lookup_filter_Some]. cbn in Hnone.
      assert (Hp : p ∈ (attached (ws_tabs w)).*1) by (apply Hx; by exists n).
      rewrite (attached_lookup _ _ _ Hi), fmap_app, elem_of_app in Hp. destruct Hp as [Hp|Hp]; [|done].
      apply tab_attached_panes in Hp. rewrite Hnone in Hp. by destruct Hp.
    + intros Hp. assert (Hp' : p ∈ (attached (ws_tabs w)).*1).
      { rewrite (attached_lookup _ _ _ Hi), fmap_app, elem_of_app. by right. }
      apply Hx in Hp' as [n Hpn]. exists n. apply map_lookup_filter_Some. split; [done|]. cbn.
      apply eq_None_not_Some. intros Hsome. by eapply attached_other; [apply Ht| | |].
  - split_and!; [done..|]. intros Hne. unfold active_tab. rewrite Hts, Hac. by apply Hsame.
Qed.

Lemma ws_close_pane_spec c w p :
  ws_wf c w → p ∈ (attached (ws_tabs w)).*1 →
  ∃ i t, find_tab_index_for_pane w p = Some i ∧ ws_tabs w !! i = Some t
  ∧ if bool_decide (pane_count (tb_layout t) ≤ 1) && bool_decide (length (ws_tabs w) ≤ 1)
    then ws_close_pane w p = Some (w, true)
    else ∃ w' s, ws_close_pane w p = Some (w', false) ∧ ws_wf c w' ∧ numbers_kept w w'
                 ∧ attached (ws_tabs w) ≡ₚ (p, s) :: attached (ws_tabs w').
Proof.
  intros Hwf Hp. destruct (pane_tab _ _ _ Hwf Hp) as (i & t & Hi & Hti & Hpt & Htw).
  exists i, t. split_and!; [done..|]. unfold ws_close_pane. rewrite Hi, Hti. cbn [mbind option_bind].
  pose proof Hwf as [[Ht Hn Hpos] Ha Hx]. assert (Hilt := lookup_lt_Some _ _ _ Hti). destruct Hpt as [s Hs].
  case_bool_decide as Hcount; cbn [andb]; [case_bool_decide as Hlen; [done|]|].
  - set (w0 := unregister_pane _ p).
    set (w' := active_after_close w0 i). exists w', (pn_attached_terminal_id s). split; [done|].
    assert (Hlen' : length (delete i (ws_tabs w)) = length (ws_tabs w) - 1) by (apply length_delete; done).
    assert (Hw' : ws_tabs w' = delete i (ws_tabs w) ∧ ws_id w' = ws_id w
                  ∧ ws_next_public_tab_number w' = ws_next_public_tab_number w
                  ∧ ws_next_public_pane_number w' = ws_next_public_pane_number w
                  ∧ ws_public_pane_numbers w' = delete p (ws_public_pane_numbers w)
                  ∧ ws_active_tab w' = after_removal (ws_active_tab w) i (length (ws_tabs w) - 1)).
    { destruct (active_after_close_spec w0 i) as (E1 & E2 & E3 & E4 & E5 & E6). fold w' in E1, E2, E3, E4, E5, E6.
      change (ws_tabs w0) with (delete i (ws_tabs w)) in *. rewrite Hlen' in E6. by split_and!. }
    clearbody w'. clear w0. destruct Hw' as (Hts & Hid & Hnt & Hnp & Hnums & Hac).
    destruct (after_removal_spec (ws_tabs w) (ws_active_tab w) i Ha Hilt ltac:(lia)) as [Hin _].
    assert (Hperm : attached (ws_tabs w) ≡ₚ (p, pn_attached_terminal_id s) :: attached (ws_tabs w')).
    { by rewrite Hts, (attached_lookup _ _ _ Hti), (single_pane _ _ _ _ Htw Hcount Hs). }
    destruct (ws_wf_shrink c w w' Hwf) as [Hwf' Hkept]; [|done|done| |done| | |by split_and!].
    + rewrite Hts. by eapply tabs_ok_delete.
    + rewrite Hnums. apply delete_subseteq.
    + by rewrite Hac, Hts, Hlen'.
    + intros q. pose proof (to_panes _ _ _ Ht) as Hnd. rewrite Hperm in Hnd. cbn in Hnd.
      apply NoDup_cons in Hnd as [Hnotin _]. rewrite Hnums, lookup_delete.
      case_decide as Hq; [subst q; split; [by intros []|done]|]. rewrite Hx, Hperm. cbn. rewrite elem_of_cons. naive_solver.
  - destruct (detach_pane_spec (ct_pane c) t p Htw) as (t' & s' & Hs' & -> & Hwithout); [by exists s|lia|].
    simplify_eq. cbn [mbind option_bind]. destruct Hwithout as (Htw' & (s' & Hs' & Hatt) & Hnumber & _). simplify_eq.
    destruct (tabs_ok_lose (ct_pane c) (ws_next_public_tab_number w) (ws_tabs w) i t t' p (pn_attached_terminal_id s))
      as (Hok' & Hperm & Hnotin); [done..|].
    set (w' := unregister_pane (set_tab w i t') p). exists w', (pn_attached_terminal_id s). split; [done|].
    assert (Hw' : ws_tabs w' = <[i := t']> (ws_tabs w) ∧ ws_id w' = ws_id w ∧ ws_active_tab w' = ws_active_tab w
                  ∧ ws_next_public_tab_number w' = ws_next_public_tab_number w
                  ∧ ws_next_public_pane_number w' = ws_next_public_pane_number w
                  ∧ ws_public_pane_numbers w' = delete p (ws_public_pane_numbers w)) by done.
    clearbody w'. destruct Hw' as (Hts & Hid & Hac & Hnt & Hnp & Hnums). rewrite <- Hts in *.
    destruct (ws_wf_shrink c w w' Hwf) as [Hwf' Hkept]; [|done|done| |done| | |by split_and!].
    + done.
    + rewrite Hnums. apply delete_subseteq.
    + by rewrite Hac, Hts, length_insert.
    + intros q. rewrite Hnums, lookup_delete. case_decide as Hq; [subst q; split; [by intros []|done]|].
      rewrite Hx, Hperm. cbn. rewrite elem_of_cons. naive_solver.
Qed.

(** *** Moving and switching *)

Lemma pane_one_tab next next_tab tabs i j t t' p :
  tabs_ok next next_tab tabs → tabs !! i = Some t → tabs !! j = Some t' → is_Some (tb_panes t !! p) →
  is_Some (tb_panes t' !! p) → i = j.
Proof.
  intros Hok Hi Hj Hp Hp'. destruct (decide (i = j)) as [|Hne]; [done|]. exfalso.
  apply (attached_other tabs i t p (to_panes _ _ _ Hok) Hi Hp), attached_pane. exists t'. split; [|done].
  apply list_elem_of_lookup. destruct (decide (j < i)).
  - exists j. by rewrite list_lookup_delete_lt.
  - exists (j - 1). rewrite list_lookup_delete_ge by lia. by replace (S (j - 1)) with j by lia.
Qed.

Lemma attached_perm tabs tabs' : tabs ≡ₚ tabs' → attached tabs ≡ₚ attached tabs'.
Proof. intros H. unfold attached. by rewrite H. Qed.

Lemma tabs_ok_perm next next_tab tabs tabs' : tabs ≡ₚ tabs' → tabs_ok next next_tab tabs → tabs_ok next next_tab tabs'.
Proof.
  intros Hp [H1 H2 H3 H4]. constructor.
  - by rewrite <- Hp.
  - by rewrite <- (attached_perm _ _ Hp).
  - by rewrite <- Hp.
  - by rewrite <- Hp.
Qed.

Lemma insert_at_perm {A} i (x : A) l : insert_at i x l ≡ₚ x :: l.
Proof. unfold insert_at. by rewrite <- Permutation_middle, take_drop. Qed.

Lemma insert_at_length {A} i (x : A) l : length (insert_at i x l) = S (length l).
Proof. by rewrite insert_at_perm. Qed.

Lemma root_attached next t : tab_wf next t → is_Some (tb_panes t !! tb_root_pane t).
Proof. intros [_ Hp Hr]. by apply Hp. Qed.

Lemma find_root next next_tab tabs t :
  tabs_ok next next_tab tabs → t ∈ tabs →
  ∃ j, fst <$> list_find (λ tab, tb_root_pane tab = tb_root_pane t) tabs = Some j ∧ tabs !! j = Some t.
Proof.
  intros Hok (i & Hi)%list_elem_of_lookup.
  destruct (list_find (λ tab, tb_root_pane tab = tb_root_pane t) tabs) as [[j t']|] eqn:Hf.
  - apply list_find_Some in Hf as (Hj & Hroot & _). exists j. split; [done|].
    assert (Hwf := tabs_ok_lookup _ _ _ _ _ Hok Hi). assert (Hwf' := tabs_ok_lookup _ _ _ _ _ Hok Hj).
    pose proof (root_attached _ _ Hwf) as Hr. pose proof (root_attached _ _ Hwf') as Hr'. rewrite Hroot in Hr'.
    pose proof (pane_one_tab _ _ _ _ _ _ _ _ Hok Hi Hj Hr Hr'). by subst j.
  - rewrite list_find_None, Forall_forall in Hf. exfalso. apply (Hf t); [|done]. by eapply list_elem_of_lookup_2.
Qed.

Lemma move_tab_spec c w source insert :
  ws_wf c w →
  let '(w', moved) := move_tab w source insert in
  ws_wf c w' ∧ numbers_kept w w' ∧ ws_tabs w' ≡ₚ ws_tabs w ∧ active_tab w' = active_tab w.
Proof.
  intros Hwf. unfold move_tab. destruct (ws_tabs w !! source) as [t|] eqn:Hs; [|done].
  case_bool_decide; [done|]. cbv zeta. set (target := min _ _). case_bool_decide as Hne; [done|]. clearbody target.
  set (tabs' := insert_at target t (delete source (ws_tabs w))).
  assert (Hperm : tabs' ≡ₚ ws_tabs w).
  { subst tabs'. rewrite insert_at_perm. symmetry. by apply delete_Permutation. }
  pose proof Hwf as [[Ht Hn Hpos] Ha Hx]. apply lookup_lt_is_Some_2 in Ha as [a Hact].
  change (active_tab w) with (ws_tabs w !! ws_active_tab w). rewrite Hact. cbn [fmap option_fmap option_map mbind option_bind].
  assert (Hok' : tabs_ok (ct_pane c) (ws_next_public_tab_number w) tabs') by (by eapply tabs_ok_perm).
  assert (Hin : a ∈ tabs') by (rewrite Hperm; by eapply list_elem_of_lookup_2).
  destruct (find_root _ _ _ _ Hok' Hin) as (j & Hfind & Hj).
  change (ws_tabs (w <| ws_tabs ::= λ tabs, insert_at target t (delete source tabs) |>)) with tabs'. rewrite Hfind. cbn [default from_option id].
  set (w' := w <| ws_tabs ::= λ tabs, insert_at target t (delete source tabs) |> <| ws_active_tab := j |>).
  assert (Hw' : ws_tabs w' = tabs' ∧ ws_id w' = ws_id w ∧ ws_next_public_tab_number w' = ws_next_public_tab_number w
                ∧ ws_next_public_pane_number w' = ws_next_public_pane_number w
                ∧ ws_public_pane_numbers w' = ws_public_pane_numbers w ∧ ws_active_tab w' = j) by done.
  clearbody w'. destruct Hw' as (Hts & Hid & Hnt & Hnp & Hnums & Hac).
  destruct (ws_wf_shrink c w w' Hwf) as [Hwf' Hkept]; [by rewrite Hts|done|done|by rewrite Hnums|done| | |].
  - rewrite Hac, Hts. by eapply lookup_lt_Some.
  - intros p. by rewrite Hnums, Hts, (attached_perm _ _ Hperm).
  - split_and!; [done|done|by rewrite Hts|]. unfold active_tab. rewrite Hac, Hts. congruence.
Qed.

Lemma mark_seen_spec next t :
  tab_wf next t → tab_wf next (mark_seen t) ∧ tab_attached (mark_seen t) = tab_attached t.
Proof.
  intros [Hl Hp Hr]. split.
  - constructor; [done| |done]. intros p. unfold mark_seen, update; cbn. rewrite lookup_fmap, fmap_is_Some. apply Hp.
  - unfold tab_attached, mark_seen, update; cbn. rewrite map_to_list_fmap, <- list_fmap_compose. done.
Qed.

Lemma switch_tab_spec c w idx :
  ws_wf c w →
  ws_wf c (switch_tab w idx) ∧ numbers_kept w (switch_tab w idx)
  ∧ attached (ws_tabs (switch_tab w idx)) = attached (ws_tabs w)
  ∧ (ws_active_tab (switch_tab w idx) = if bool_decide (idx < length (ws_tabs w)) then idx else ws_active_tab w).
Proof.
  intros Hwf. unfold switch_tab. case_bool_decide as Hidx; [|done].
  pose proof Hwf as [[Ht Hn Hpos] Ha Hx]. destruct (lookup_lt_is_Some_2 _ _ Hidx) as [t Hti].
  assert (Htw := tabs_ok_lookup _ _ _ _ _ Ht Hti). destruct (mark_seen_spec _ _ Htw) as [Htw' Hatt].
  destruct (tabs_ok_same (ct_pane c) (ct_pane c) (ws_next_public_tab_number w) (ws_tabs w) idx t (mark_seen t))
    as [Hok' Heq]; [done..|].
  set (w' := w <| ws_active_tab := idx |> <| ws_tabs ::= alter mark_seen idx |>).
  assert (Hw' : ws_tabs w' = <[idx := mark_seen t]> (ws_tabs w) ∧ ws_id w' = ws_id w
                ∧ ws_next_public_tab_number w' = ws_next_public_tab_number w
                ∧ ws_next_public_pane_number w' = ws_next_public_pane_number w
                ∧ ws_public_pane_numbers w' = ws_public_pane_numbers w ∧ ws_active_tab w' = idx).
  { split_and!; try done. change (ws_tabs w') with (alter mark_seen idx (ws_tabs w)).
    apply list_eq. intros i. destruct (decide (i = idx)) as [->|Hne].
    - by rewrite list_lookup_alter_eq, Hti, list_lookup_insert_eq.
    - by rewrite list_lookup_alter_ne, list_lookup_insert_ne. }
  clearbody w'. destruct Hw' as (Hts & Hid & Hnt & Hnp & Hnums & Hac). rewrite <- Hts in *.
  destruct (ws_wf_shrink c w w' Hwf) as [Hwf' Hkept]; [done|done|done|by rewrite Hnums|done| | |by split_and!].
  - by rewrite Hac, Hts, length_insert.
  - intros p. by rewrite Hnums, Heq.
Qed.

(** *** Moving panes *)

(** A workspace that waits for a pane: one that had it, whose number it still
    has, or another one.  The former may have lost its last tab. *)
Record ws_ready (c : Counters) (w : Workspace) (p : PaneId) : Prop := mk_ws_ready {
  wr_core : ws_core c w;
  wr_active : ws_active_tab w < length (ws_tabs w) ∨ ws_tabs w = [] ∧ ws_active_tab w = 0;
  wr_absent : p ∉ (attached (ws_tabs w)).*1;
  wr_numbered : ∀ q, q ≠ p → is_Some (ws_public_pane_numbers w !! q) ↔ q ∈ (attached (ws_tabs w)).*1;
}.

Lemma ws_wf_ready c w p : ws_wf c w → p ∉ (attached (ws_tabs w)).*1 → ws_ready c w p.
Proof. intros [Hc Ha Hx] Hp. by constructor; [|left| |]. Qed.

Lemma unregister_spec c w p :
  ws_ready c w p → ws_tabs w ≠ [] → ws_wf c (unregister_moved_pane w p) ∧ numbers_kept w (unregister_moved_pane w p).
Proof.
  intros [[Ht Hn Hpos] Ha Habs Hx] Hne. split.
  - constructor; [constructor; [exact Ht| |exact Hpos]| |].
    + eapply numbers_ok_sub; [|exact Hn]. apply delete_subseteq.
    + destruct Ha as [Ha|[? _]]; [exact Ha|done].
    + intros q. change (is_Some (delete p (ws_public_pane_numbers w) !! q) ↔ q ∈ (attached (ws_tabs w)).*1).
      rewrite lookup_delete. case_decide as Hq; [subst q; split; [by intros []|done]|]. apply Hx. congruence.
  - apply numbers_kept_sub; [done|done|done|]. apply delete_subseteq.
Qed.

Lemma other_stays {A} (l : list A) i x y : l !! i = Some x → y ∈ l → y ≠ x → y ∈ delete i l.
Proof. intros Hi Hy Hne. rewrite (delete_Permutation l i x Hi) in Hy. by apply elem_of_cons in Hy as []. Qed.

Lemma other_stays_set {A} (l : list A) i x x' y : l !! i = Some x → y ∈ l → y ≠ x → y ∈ <[i := x']> l.
Proof.
  intros Hi (j & Hj)%list_elem_of_lookup Hne. apply list_elem_of_lookup. exists j.
  rewrite list_lookup_insert_ne; [done|]. intros ->. congruence.
Qed.

Lemma ws_take_pane_spec c w p :
  ws_wf c w → p ∈ (attached (ws_tabs w)).*1 →
  ∃ w' tk s, ws_take_pane_for_move w p = Some (w', Some tk)
    ∧ tk_moved tk = mkMovedPane p s ∧ tk_workspace_empty tk = bool_decide (ws_tabs w' = [])
    ∧ ws_ready c w' p ∧ ws_public_pane_numbers w' = ws_public_pane_numbers w ∧ numbers_kept w w'
    ∧ ws_next_public_pane_number w' = ws_next_public_pane_number w
    ∧ ws_next_public_tab_number w' = ws_next_public_tab_number w
    ∧ attached (ws_tabs w) ≡ₚ (p, pn_attached_terminal_id s) :: attached (ws_tabs w')
    ∧ ∀ t, t ∈ ws_tabs w → tb_panes t !! p = None → t ∈ ws_tabs w'.
Proof.
  intros Hwf Hp. destruct (pane_tab _ _ _ Hwf Hp) as (i & t & Hi & Hti & [s Hs] & Htw).
  unfold ws_take_pane_for_move. rewrite Hi, Hti. cbn [mbind option_bind].
  destruct (tab_take_pane_spec _ _ _ _ Htw Hs) as (t' & -> & Hwithout). cbn [mbind option_bind].
  pose proof Hwf as [[Ht Hn Hpos] Ha Hx]. assert (Hilt := lookup_lt_Some _ _ _ Hti).
  assert (Hready : ∀ w', tabs_ok (ct_pane c) (ws_next_public_tab_number w) (ws_tabs w') →
            ws_id w' = ws_id w → ws_next_public_tab_number w' = ws_next_public_tab_number w →
            ws_next_public_pane_number w' = ws_next_public_pane_number w →
            ws_public_pane_numbers w' = ws_public_pane_numbers w →
            (ws_active_tab w' < length (ws_tabs w') ∨ ws_tabs w' = [] ∧ ws_active_tab w' = 0) →
            attached (ws_tabs w) ≡ₚ (p, pn_attached_terminal_id s) :: attached (ws_tabs w') →
            ws_ready c w' p ∧ numbers_kept w w').
  { intros w' Hok Hid Hnt Hnp Hnums Hac Hperm. split.
    - pose proof (to_panes _ _ _ Ht) as Hnd. rewrite Hperm in Hnd. cbn in Hnd. apply NoDup_cons in Hnd as [Hnotin _].
      constructor; [constructor; by rewrite ?Hnt, ?Hnp, ?Hnums|done|done|].
      intros q Hq. rewrite Hnums, Hx, Hperm. cbn. rewrite elem_of_cons. naive_solver.
    - by apply numbers_kept_sub; [| |rewrite Hnt|rewrite Hnums]. }
  case_bool_decide as Hcount.
  - set (w0 := w <| ws_tabs ::= delete i |>).
    assert (Hlen' : length (delete i (ws_tabs w)) = length (ws_tabs w) - 1) by (apply length_delete; done).
    set (w' := adjust_active_tab_after_removal w0 i).
    assert (Hw' : ws_tabs w' = delete i (ws_tabs w) ∧ ws_id w' = ws_id w
                  ∧ ws_next_public_tab_number w' = ws_next_public_tab_number w
                  ∧ ws_next_public_pane_number w' = ws_next_public_pane_number w
                  ∧ ws_public_pane_numbers w' = ws_public_pane_numbers w
                  ∧ ws_active_tab w' = if bool_decide (delete i (ws_tabs w) = []) then 0
                                       else after_removal (ws_active_tab w) i (length (ws_tabs w) - 1)).
    { subst w'. unfold adjust_active_tab_after_removal. change (ws_tabs w0) with (delete i (ws_tabs w)).
      fold (active_after_close w0 i). case_bool_decide; [done|].
      destruct (active_after_close_spec w0 i) as (E1 & E2 & E3 & E4 & E5 & E6).
      change (ws_tabs w0) with (delete i (ws_tabs w)) in *. rewrite Hlen' in E6. unfold active_after_close in *. by split_and!. }
    clearbody w'. clear w0. destruct Hw' as (Hts & Hid & Hnt & Hnp & Hnums & Hac).
    assert (Hperm : attached (ws_tabs w) ≡ₚ (p, pn_attached_terminal_id s) :: attached (ws_tabs w')).
    { by rewrite Hts, (attached_lookup _ _ _ Hti), (single_pane _ _ _ _ Htw Hcount Hs). }
    eexists w', _, s. split; [reflexivity|]. cbn [tk_moved tk_workspace_empty].
    destruct (Hready w') as [Hr Hk]; [|done|done|done|done| |done|].
    3:{ split_and!; [done..|]. intros u Hu Hnone. rewrite Hts. eapply other_stays; [exact Hti|done|]. congruence. }
    + rewrite Hts. by eapply tabs_ok_delete.
    + rewrite Hts, Hac. case_bool_decide as Hnil; [by right|left]. rewrite Hlen'.
      apply (after_removal_spec (ws_tabs w) (ws_active_tab w) i Ha Hilt).
      destruct (delete i (ws_tabs w)); [done|]. cbn in Hlen'. lia.
  - destruct Hwithout as (Htw' & (s' & Hs' & Hatt) & Hnumber & _); [lia|]. simplify_eq.
    destruct (tabs_ok_lose (ct_pane c) (ws_next_public_tab_number w) (ws_tabs w) i t t' p (pn_attached_terminal_id s))
      as (Hok' & Hperm & Hnotin); [done..|].
    eexists (set_tab w i t'), _, s. split; [reflexivity|]. cbn [tk_moved tk_workspace_empty].
    destruct (Hready (set_tab w i t')) as [Hr Hk]; [done..| |done|].
    + left. change (ws_active_tab w < length (<[i := t']> (ws_tabs w))). by rewrite length_insert.
    + split_and!; try done.
      2:{ intros u Hu Hnone. change (u ∈ <[i := t']> (ws_tabs w)). eapply other_stays_set; [exact Hti|done|]. congruence. }
      rewrite bool_decide_false; [done|].
      change (<[i := t']> (ws_tabs w) ≠ []). intros Hnil%(f_equal length). rewrite length_insert in Hnil. cbn in Hnil. lia.
Qed.

(** A workspace gets a pane, with the number it has or with a new one. *)
Lemma ready_gains c w w' p s :
  ws_ready c w p → (ws_next_public_pane_number w + 1 < 2 ^ 64)%N →
  (ws_next_public_tab_number w ≤ ws_next_public_tab_number w')%N →
  tabs_ok (ct_pane c) (ws_next_public_tab_number w') (ws_tabs w') → ws_id w' = ws_id w →
  attached (ws_tabs w') ≡ₚ (p, s) :: attached (ws_tabs w) → ws_active_tab w' < length (ws_tabs w') →
  let registered := if bool_decide (ws_public_pane_numbers w !! p = None)
                    then register_new_pane_with_number w p (ws_next_public_pane_number w) else w in
  ws_next_public_pane_number w' = ws_next_public_pane_number registered →
  ws_public_pane_numbers w' = ws_public_pane_numbers registered →
  ws_wf c w' ∧ numbers_kept w w' ∧ is_Some (ws_public_pane_numbers w' !! p).
Proof.
  intros [[Ht Hn Hpos] Ha Habs Hx] Hnext Hntle Hok Hid Hperm Hact registered Hnp Hnums.
  assert (Hnumbered : ∀ m : gmap PaneId N, is_Some (m !! p) → (∀ q, q ≠ p → m !! q = ws_public_pane_numbers w !! q) →
            ∀ q, is_Some (m !! q) ↔ q ∈ (attached (ws_tabs w')).*1).
  { intros m Hp Hm q. rewrite Hperm. cbn. rewrite elem_of_cons. destruct (decide (q = p)) as [->|Hq]; [tauto|].
    rewrite (Hm _ Hq), (Hx _ Hq). naive_solver. }
  destruct (bool_decide (ws_public_pane_numbers w !! p = None)) eqn:Hdec; subst registered.
  - apply bool_decide_eq_true in Hdec. destruct (register_next w p (no_pos _ _ Hn) Hnext) as [Hrn Hrm].
    rewrite Hrn in Hnp. rewrite Hrm in Hnums.
    split_and!; [|by eapply (register_kept w w' p)|rewrite Hnums, lookup_insert_eq; by eexists].
    constructor; [constructor; [done| |lia]|done|].
    + rewrite Hnp, Hnums. by apply numbers_ok_register.
    + apply Hnumbered; rewrite Hnums; [by rewrite lookup_insert_eq|]. intros q Hq. by rewrite lookup_insert_ne.
  - apply bool_decide_eq_false in Hdec. assert (Hp : is_Some (ws_public_pane_numbers w !! p)) by (by apply not_eq_None_Some).
    split_and!; [|by apply numbers_kept_sub; [| | |rewrite Hnums]|by rewrite Hnums].
    constructor; [constructor; [done| |lia]|done|].
    + by rewrite Hnp, Hnums.
    + apply Hnumbered; by rewrite Hnums.
Qed.

Lemma insert_moved_pane_spec c w i t target moved direction ratio :
  ws_ready c w (mv_pane_id moved) → (ws_next_public_pane_number w + 1 < 2 ^ 64)%N →
  ws_tabs w !! i = Some t → target ∈ pane_ids (tb_layout t) → f32_wf ratio → (mv_pane_id moved < ct_pane c)%N →
  ∃ w', insert_moved_pane_into_tab w i target moved direction ratio = (w', Ok (mv_pane_id moved))
        ∧ ws_wf c w' ∧ numbers_kept w w' ∧ is_Some (ws_public_pane_numbers w' !! mv_pane_id moved)
        ∧ attached (ws_tabs w') ≡ₚ (mv_pane_id moved, pn_attached_terminal_id (mv_pane_state moved)) :: attached (ws_tabs w)
        ∧ ∃ t', ws_tabs w' !! i = Some t' ∧ tb_panes t' !! mv_pane_id moved = Some (mv_pane_state moved)
                ∧ tb_number t' = tb_number t
                ∧ tl_root (tb_layout t') = split_at (tl_root (tb_layout t)) target direction (mv_pane_id moved) (valid_split_ratio ratio).
Proof.
  intros Hready Hnext Hti Htarget Hr Hlt. unfold insert_moved_pane_into_tab. rewrite Hti.
  pose proof Hready as [[Ht Hn Hpos] Ha Habs Hx]. assert (Htw := tabs_ok_lookup _ _ _ _ _ Ht Hti).
  assert (Hnone : tb_panes t !! mv_pane_id moved = None).
  { apply eq_None_not_Some. intros Hsome. apply Habs, attached_pane. exists t. split; [|done]. by eapply list_elem_of_lookup_2. }
  destruct (insert_existing_pane_spec _ _ _ _ direction ratio Htw Hr Hlt Htarget Hnone)
    as (t' & -> & Htw' & Hatt & Hnumber & Hname & Hroot & Hpanes & _ & Hsplit).
  destruct (tabs_ok_gain (ct_pane c) (ct_pane c) (ws_next_public_tab_number w) (ws_tabs w) i t t' (mv_pane_id moved)
              (pn_attached_terminal_id (mv_pane_state moved))) as [Hok' Hperm]; [done..|].
  eexists. split; [reflexivity|]. assert (Hilt := lookup_lt_Some _ _ _ Hti).
  change (ws_public_pane_numbers (set_tab w i t')) with (ws_public_pane_numbers w).
  change (ws_next_public_pane_number (set_tab w i t')) with (ws_next_public_pane_number w).
  set (w' := if bool_decide _ then _ else set_tab w i t').
  assert (Hw' : ws_tabs w' = <[i := t']> (ws_tabs w) ∧ ws_id w' = ws_id w ∧ ws_active_tab w' = ws_active_tab w
                ∧ ws_next_public_tab_number w' = ws_next_public_tab_number w) by (subst w'; by case_bool_decide).
  destruct Hw' as (Hts & Hid & Hac & Hnt).
  destruct (ready_gains c w w' (mv_pane_id moved) (pn_attached_terminal_id (mv_pane_state moved)) Hready Hnext)
    as (Hwf' & Hkept & Hsome).
  - by rewrite Hnt.
  - by rewrite Hnt, Hts.
  - done.
  - by rewrite Hts.
  - rewrite Hac, Hts, length_insert. destruct Ha as [?|[Hnil _]]; [done|]. rewrite Hnil in Hti. done.
  - subst w'. by case_bool_decide.
  - subst w'. by case_bool_decide.
  - split_and!; [done..|by rewrite Hts|]. exists t'. rewrite Hts, list_lookup_insert_eq by done.
    split_and!; [done| |done|done]. by rewrite Hpanes, lookup_insert_eq.
Qed.

Lemma create_tab_from_existing_spec c w moved label :
  ws_ready c w (mv_pane_id moved) → (ws_next_public_pane_number w + 1 < 2 ^ 64)%N →
  (ws_next_public_tab_number w + 1 < 2 ^ 64)%N → (mv_pane_id moved < ct_pane c)%N →
  ∃ w', create_tab_from_existing_pane w moved label = (w', length (ws_tabs w))
        ∧ ws_wf c w' ∧ numbers_kept w w' ∧ is_Some (ws_public_pane_numbers w' !! mv_pane_id moved)
        ∧ attached (ws_tabs w') ≡ₚ (mv_pane_id moved, pn_attached_terminal_id (mv_pane_state moved)) :: attached (ws_tabs w)
        ∧ ws_tabs w' = ws_tabs w ++ [Tab_from_existing_pane (ws_next_public_tab_number w) label moved].
Proof.
  intros Hready Hnext Hnt Hlt. unfold create_tab_from_existing_pane. cbv zeta.
  pose proof Hready as [[Ht Hn Hpos] Ha Habs Hx].
  set (tab := Tab_from_existing_pane _ _ _).
  destruct (single_tab_wf (ct_pane c) tab (mv_pane_id moved) (mv_pane_state moved) eq_refl eq_refl eq_refl Hlt) as [Htw Hta].
  set (w0 := w <| ws_next_public_tab_number ::= _ |>).
  change (ws_public_pane_numbers w0) with (ws_public_pane_numbers w).
  set (w' := (if bool_decide _ then _ else w0) <| ws_tabs ::= _ |>).
  assert (Hw' : ws_tabs w' = ws_tabs w ++ [tab] ∧ ws_id w' = ws_id w ∧ ws_active_tab w' = ws_active_tab w
                ∧ ws_next_public_tab_number w' = (ws_next_public_tab_number w + 1)%N).
  { assert (Hadd : usize_add (ws_next_public_tab_number w) 1 = (ws_next_public_tab_number w + 1)%N).
    { unfold usize_add. by rewrite N.mod_small. }
    rewrite <- Hadd. subst w'. by case_bool_decide. }
  destruct Hw' as (Hts & Hid & Hac & Hnt'). exists w'.
  assert (Hlen : length (ws_tabs w') - 1 = length (ws_tabs w)) by (rewrite Hts, length_app; cbn; lia).
  rewrite Hlen. split; [done|].
  assert (Hperm : attached (ws_tabs w') ≡ₚ (mv_pane_id moved, pn_attached_terminal_id (mv_pane_state moved)) :: attached (ws_tabs w)).
  { rewrite Hts, attached_app, attached_single, Hta. symmetry. apply Permutation_cons_append. }
  destruct (ready_gains c w w' (mv_pane_id moved) (pn_attached_terminal_id (mv_pane_state moved)) Hready Hnext)
    as (Hwf' & Hkept & Hsome).
  - lia.
  - rewrite Hnt', Hts. apply tabs_ok_snoc; [done..|]. rewrite Hta. cbn. by intros p ->%list_elem_of_singleton.
  - done.
  - done.
  - rewrite Hac, Hts, length_app. cbn. destruct Ha as [?|[_ ->]]; lia.
  - subst w'. by case_bool_decide.
  - subst w'. by case_bool_decide.
  - by split_and!.
Qed.

(** *** New workspaces *)

Lemma single_tab_workspace_wf c id name cwd tab p s :
  tab_wf (ct_pane c) tab → tab_attached tab = [(p, s)] → tb_root_pane tab = p → tb_number tab = 1%N →
  ws_wf c (single_tab_workspace id name cwd tab).
Proof.
  intros Htw Hatt Hr Hn. constructor; [constructor; [|constructor|done]| |].
  - constructor; cbn; rewrite ?Hn, ?attached_single, ?Hatt; cbn.
    + constructor; [done|constructor].
    + apply NoDup_singleton.
    + apply NoDup_singleton.
    + constructor; [lia|constructor].
  - intros q n. cbn. rewrite lookup_singleton. case_decide; [intros [= <-]; lia|done].
  - intros q q' n. cbn. rewrite !lookup_singleton. repeat case_decide; congruence.
  - done.
  - cbn. lia.
  - intros q. change (is_Some (({[tb_root_pane tab := 1%N]} : gmap PaneId N) !! q) ↔ q ∈ (attached [tab]).*1).
    rewrite attached_single, Hatt, Hr, lookup_singleton_is_Some. cbn. rewrite list_elem_of_singleton. done.
Qed.
