(* ===== verification/Panes.v ===== *)
(** * Panes across workspaces ([src/src/app/ids.rs], and of
    [src/src/app/actions.rs], [src/src/app/state.rs] and [src/src/app/runtime.rs]
    what focuses, moves and closes workspaces, tabs and panes)

    The part of the application state that says which workspaces there are, which
    of them is shown, and which terminals run: modes, dialogs, selections, views
    and plugins are left out.  [None] is a panic of the server. *)

From stdpp Require Import pretty.
From S2P Require Export Workspaces.

(** ** State *)

Record PaneFocusTarget := mkPaneFocusTarget { ft_workspace_id : string; ft_pane_id : PaneId }.
#[export] Instance PaneFocusTarget_eq_dec : EqDecision PaneFocusTarget.
Proof. solve_decision. Defined.

Record AppState := mkAppState {
  as_workspaces : list Workspace;
  as_active : option nat;
  as_selected : nat;
  as_terminals : gmap string TerminalState;
  as_terminal_runtimes : gset string;
  as_terminal_runtime_shutdowns : list string;
  as_pane_id_aliases : gmap N PaneId;
  as_public_pane_id_aliases : gmap string PaneId;
  as_previous_pane_focus : option PaneFocusTarget;
  as_confirm_close : bool;
}.
#[export] Instance AppState_fields : Fields AppState := λ s,
  mkAppState (as_workspaces s) (as_active s) (as_selected s) (as_terminals s) (as_terminal_runtimes s) (as_terminal_runtime_shutdowns s)
    (as_pane_id_aliases s) (as_public_pane_id_aliases s) (as_previous_pane_focus s)
    (as_confirm_close s).

Definition no_workspaces (confirm_close : bool) : AppState := mkAppState [] None 0 ∅ ∅ [] ∅ ∅ None confirm_close.

(** ** Identifiers *)

(** [str::parse] to an unsigned integer of at most [top] *)
Definition digit_value (c : ascii) : option N :=
  if is_digit c then Some (N_of_ascii c - 48)%N else None.
Fixpoint parse_digits (top acc : N) (l : list ascii) : option N :=
  match l with
  | [] => Some acc
  | c :: l =>
      d ← digit_value c;
      if (acc * 10 + d <=? top)%N then parse_digits top (acc * 10 + d) l else None
  end.
Definition parse_unsigned (top : N) (s : string) : option N :=
  let digits := match str_bytes s with c :: l => if ascii_dec c "+" then l else c :: l | [] => [] end in
  match digits with [] => None | _ => parse_digits top 0 digits end.

(** [str::rsplit_once] *)
Fixpoint rsplit_once (pattern s : string) : option (string * string) :=
  match s with
  | EmptyString => None
  | String c rest =>
      match rsplit_once pattern rest with
      | Some (before, after) => Some (String c before, after)
      | None => pair "" <$> strip_prefix pattern s
      end
  end.

(** [checked_sub(1)] of an index *)
Definition index_of (n : N) : option nat := if (n =? 0)%N then None else Some (N.to_nat (n - 1)).

(** ** Answers to a zoom *)

Module PaneZoomCommand.
Inductive PaneZoomCommand := Toggle | On | Off.
End PaneZoomCommand.
Abbreviation PaneZoomCommand := PaneZoomCommand.PaneZoomCommand.
Module PaneZoomNoopReason.
Inductive PaneZoomNoopReason := SinglePane | AlreadyZoomed | AlreadyUnzoomed.
End PaneZoomNoopReason.
Abbreviation PaneZoomNoopReason := PaneZoomNoopReason.PaneZoomNoopReason.

Record PaneZoomOutcome := mkPaneZoomOutcome {
  zo_changed : bool;
  zo_focus_changed : bool;
  zo_reason : option PaneZoomNoopReason;
  zo_zoomed : bool;
}.

Section ids.
Context `{HOrder : HashOrder}.

Definition find_pane (s : AppState) (pane_id : PaneId) : option (nat * PaneState) :=
  head (omap (λ iw, (pair iw.1) <$> pane_state iw.2 pane_id) (imap pair (as_workspaces s))).

Definition public_workspace_id (s : AppState) (ws_idx : nat) : option string := ws_id <$> as_workspaces s !! ws_idx.

Definition public_tab_id (s : AppState) (ws_idx tab_idx : nat) : option string :=
  ws ← as_workspaces s !! ws_idx;
  public_tab_id_for_number (ws_id ws) <$> public_tab_number ws tab_idx.

Definition public_pane_id (s : AppState) (ws_idx : nat) (pane_id : PaneId) : option string :=
  ws ← as_workspaces s !! ws_idx;
  public_pane_id_for_number (ws_id ws) <$> public_pane_number ws pane_id.

(** A number is taken for the position of a workspace, which need not exist. *)
Definition parse_workspace_id (s : AppState) (id : string) : option nat :=
  match fst <$> list_find (λ ws, ws_id ws = id) (as_workspaces s) with
  | Some i => Some i
  | None =>
      match (n ← (rest ← strip_prefix "w_" id; parse_unsigned u64_max rest); index_of n) : option nat with
      | Some i => Some i
      | None => n ← parse_unsigned u64_max id; index_of n
      end
  end.

Definition parse_tab_id (s : AppState) (id : string) : option (nat * nat) :=
  match strip_prefix "t_" id with
  | Some rest =>
      '(ws_raw, tab_raw) ← rsplit_once "_" rest;
      ws_idx ← parse_workspace_id s ws_raw;
      tab_idx ← (n ← parse_unsigned u64_max tab_raw; index_of n);
      ws ← as_workspaces s !! ws_idx;
      _ ← ws_tabs ws !! tab_idx;
      Some (ws_idx, tab_idx)
  | None =>
      '(ws_raw, tab_raw) ← rsplit_once ":" id;
      ws_idx ← parse_workspace_id s ws_raw;
      tab_idx ← match strip_prefix "t" tab_raw with
                | Some encoded =>
                    tab_number ← decode_public_number encoded;
                    ws ← as_workspaces s !! ws_idx;
                    fst <$> list_find (λ tab, tb_number tab = tab_number) (ws_tabs ws)
                | None => n ← parse_unsigned u64_max tab_raw; index_of n
                end;
      ws ← as_workspaces s !! ws_idx;
      _ ← ws_tabs ws !! tab_idx;
      Some (ws_idx, tab_idx)
  end.

Definition resolve_raw_pane_id (s : AppState) (raw : N) : option PaneId :=
  match as_pane_id_aliases s !! raw with
  | Some alias => (λ _, alias) <$> find_pane s alias
  | None => (λ _, raw) <$> find_pane s raw
  end.

(** The pane with a public number *)
Definition pane_of_number (ws : Workspace) (number : N) : option PaneId :=
  fst <$> find_first (λ pn, (pn.2 =? number)%N) (hash_entries (ws_public_pane_numbers ws)).

Definition parse_pane_id (s : AppState) (id : string) : option (nat * PaneId) :=
  match as_public_pane_id_aliases s !! id with
  | Some alias => (λ ip, (ip.1, alias)) <$> find_pane s alias
  | None =>
      match strip_prefix "p_" id with
      | Some rest =>
          match rsplit_once "_" rest with
          | Some (ws_raw, pane_raw) =>
              ws_idx ← parse_workspace_id s ws_raw;
              pane_id ← (raw ← parse_unsigned u32_max pane_raw; resolve_raw_pane_id s raw);
              ws ← as_workspaces s !! ws_idx;
              _ ← pane_state ws pane_id;
              Some (ws_idx, pane_id)
          | None =>
              pane_id ← (raw ← parse_unsigned u32_max rest; resolve_raw_pane_id s raw);
              (λ ip, (ip.1, pane_id)) <$> find_pane s pane_id
          end
      | None =>
          match rsplit_once ":p" id with
          | Some (ws_raw, pane_number_raw) =>
              ws_idx ← parse_workspace_id s ws_raw;
              pane_number ← decode_public_number pane_number_raw;
              ws ← as_workspaces s !! ws_idx;
              pane_id ← pane_of_number ws pane_number;
              Some (ws_idx, pane_id)
          | None =>
              '(ws_raw, pane_number_raw) ← rsplit_once "-" id;
              ws_idx ← parse_workspace_id s ws_raw;
              pane_number ← parse_unsigned u64_max pane_number_raw;
              ws ← as_workspaces s !! ws_idx;
              pane_id ← pane_of_number ws pane_number;
              Some (ws_idx, pane_id)
          end
      end
  end.

(** ** Focus *)

Definition set_workspace (s : AppState) (ws_idx : nat) (ws : Workspace) : AppState :=
  s <| as_workspaces ::= <[ws_idx := ws]> |>.

Definition current_pane_focus_target (s : AppState) : option PaneFocusTarget :=
  ws_idx ← as_active s;
  ws ← as_workspaces s !! ws_idx;
  mkPaneFocusTarget (ws_id ws) <$> focused_pane_id ws.

Definition record_pane_focus_change (s : AppState) (previous : option PaneFocusTarget) (ws_idx : nat)
    (pane_id : PaneId) : AppState :=
  match as_workspaces s !! ws_idx with
  | None => s
  | Some ws =>
      if bool_decide (previous = Some (mkPaneFocusTarget (ws_id ws) pane_id)) then s
      else s <| as_previous_pane_focus := previous |>
  end.

Definition record_pane_focus_after_navigation (s : AppState) (previous : option PaneFocusTarget) : AppState :=
  if bool_decide (previous = current_pane_focus_target s) then s else s <| as_previous_pane_focus := previous |>.

Definition switch_workspace (s : AppState) (idx : nat) : AppState :=
  match as_workspaces s !! idx with
  | None => s
  | Some ws =>
      let previous_focus := current_pane_focus_target s in
      record_pane_focus_after_navigation
        (set_workspace (s <| as_active := Some idx |> <| as_selected := idx |>) idx (switch_tab ws (ws_active_tab ws)))
        previous_focus
  end.

Definition switch_workspace_tab (s : AppState) (ws_idx tab_idx : nat) : AppState * bool :=
  match as_workspaces s !! ws_idx with
  | None => (s, false)
  | Some ws =>
      if bool_decide (length (ws_tabs ws) ≤ tab_idx) then (s, false)
      else
        let previous_focus := current_pane_focus_target s in
        (record_pane_focus_after_navigation
           (set_workspace (s <| as_active := Some ws_idx |> <| as_selected := ws_idx |>) ws_idx (switch_tab ws tab_idx))
           previous_focus, true)
  end.

(** A tab of a workspace is changed in place. *)
Definition update_tab (s : AppState) (ws_idx tab_idx : nat) (f : Tab → Tab) : AppState :=
  s <| as_workspaces ::= alter (λ ws, ws <| ws_tabs ::= alter f tab_idx |>) ws_idx |>.

Definition focus_pane_in_workspace (s : AppState) (ws_idx : nat) (pane_id : PaneId) : AppState * bool :=
  match as_workspaces s !! ws_idx with
  | None => (s, false)
  | Some ws =>
      match find_tab_index_for_pane ws pane_id with
      | None => (s, false)
      | Some tab_idx =>
          let previous := current_pane_focus_target s in
          if bool_decide (previous = Some (mkPaneFocusTarget (ws_id ws) pane_id)) then (s, false)
          else
            let s := (switch_workspace_tab s ws_idx tab_idx).1 in
            (update_tab s ws_idx tab_idx (λ tab, tab <| tb_layout ::= λ l, focus_pane l pane_id |>)
               <| as_previous_pane_focus := previous |>, true)
      end
  end.

Definition apply_pane_zoom (s : AppState) (ws_idx : nat) (pane_id : PaneId) (command : PaneZoomCommand) :
    AppState * option PaneZoomOutcome :=
  match as_workspaces s !! ws_idx ≫= λ ws, find_tab_index_for_pane ws pane_id with
  | None => (s, None)
  | Some tab_idx =>
      let '(s, focus_changed) := focus_pane_in_workspace s ws_idx pane_id in
      match as_workspaces s !! ws_idx ≫= λ ws, ws_tabs ws !! tab_idx with
      | None => (s, None)
      | Some tab =>
          let noop reason := (s, Some (mkPaneZoomOutcome false focus_changed (Some reason) (tb_zoomed tab))) in
          if bool_decide (pane_count (tb_layout tab) ≤ 1) then noop PaneZoomNoopReason.SinglePane
          else
            match command, tb_zoomed tab with
            | PaneZoomCommand.On, true => noop PaneZoomNoopReason.AlreadyZoomed
            | PaneZoomCommand.Off, false => noop PaneZoomNoopReason.AlreadyUnzoomed
            | _, _ =>
                let desired := match command with
                               | PaneZoomCommand.Toggle => negb (tb_zoomed tab)
                               | PaneZoomCommand.On => true
                               | PaneZoomCommand.Off => false
                               end in
                (update_tab s ws_idx tab_idx (λ tab, tab <| tb_zoomed := desired |>),
                 Some (mkPaneZoomOutcome true focus_changed None desired))
            end
      end
  end.

Definition mark_active_tab_seen (s : AppState) : AppState * bool :=
  match as_active s with
  | None => (s, false)
  | Some ws_idx =>
      match as_workspaces s !! ws_idx ≫= active_tab with
      | None => (s, false)
      | Some tab =>
          (s <| as_workspaces ::= alter (λ ws, ws <| ws_tabs ::= alter mark_seen (ws_active_tab ws) |>) ws_idx |>,
           existsb (λ pane, negb (pn_seen pane)) (hash_values (tb_panes tab)))
      end
  end.

(** [None] is a panic, of an active workspace that does not exist. *)
Definition move_workspace (s : AppState) (source_idx insert_idx : nat) : option (AppState * bool) :=
  match as_workspaces s !! source_idx with
  | Some workspace =>
      if bool_decide (length (as_workspaces s) < insert_idx) then Some (s, false)
      else
        let target_idx := if bool_decide (source_idx < insert_idx) then insert_idx - 1 else insert_idx in
        if bool_decide (source_idx = target_idx) then Some (s, false)
        else
          active_id ← match as_active s with
                      | Some idx => (λ ws, Some (ws_id ws)) <$> as_workspaces s !! idx
                      | None => Some None
                      end;
          let selected_id := ws_id <$> as_workspaces s !! as_selected s in
          let workspaces := insert_at target_idx workspace (delete source_idx (as_workspaces s)) in
          let position id := fst <$> list_find (λ ws, ws_id ws = id) workspaces in
          Some (s <| as_workspaces := workspaces |>
                  <| as_active := active_id ≫= position |>
                  <| as_selected := default 0 (selected_id ≫= position) |>, true)
  | None => Some (s, false)
  end.

(** ** Closing *)

Definition tab_terminal_ids (t : Tab) : list string := pn_attached_terminal_id <$> hash_values (tb_panes t).

Definition terminal_ids_for_workspace (s : AppState) (ws_idx : nat) : list string :=
  match as_workspaces s !! ws_idx with Some ws => ws_tabs ws ≫= tab_terminal_ids | None => [] end.
Definition pane_ids_for_workspace (s : AppState) (ws_idx : nat) : list PaneId :=
  match as_workspaces s !! ws_idx with Some ws => ws_tabs ws ≫= (λ tab, pane_ids (tb_layout tab)) | None => [] end.
Definition terminal_ids_for_tab (s : AppState) (ws_idx tab_idx : nat) : list string :=
  match as_workspaces s !! ws_idx ≫= λ ws, ws_tabs ws !! tab_idx with Some tab => tab_terminal_ids tab | None => [] end.
Definition pane_ids_for_tab (s : AppState) (ws_idx tab_idx : nat) : list PaneId :=
  match as_workspaces s !! ws_idx ≫= λ ws, ws_tabs ws !! tab_idx with Some tab => pane_ids (tb_layout tab) | None => [] end.
Definition terminal_id_for_pane (s : AppState) (ws_idx : nat) (pane_id : PaneId) : option string :=
  ws ← as_workspaces s !! ws_idx;
  pn_attached_terminal_id <$> pane_state ws pane_id.

Definition still_attached (s : AppState) (terminal_id : string) : bool :=
  existsb (λ ws, existsb (λ tab, existsb (λ id, bool_decide (id = terminal_id)) (tab_terminal_ids tab)) (ws_tabs ws))
    (as_workspaces s).

Definition remove_unattached (s : AppState) (terminal_id : string) : AppState :=
  if still_attached s terminal_id then s
  else
    match as_terminals s !! terminal_id with
    | None => s
    | Some _ =>
        let s := s <| as_terminals ::= delete terminal_id |> in
        if bool_decide (terminal_id ∈ as_terminal_runtime_shutdowns s) then s
        else s <| as_terminal_runtime_shutdowns ::= λ ids, ids ++ [terminal_id] |>
    end.
Definition remove_unattached_terminal_ids (s : AppState) (terminal_ids : list string) : AppState :=
  foldl remove_unattached s terminal_ids.

Definition remove_plugin_pane_records (s : AppState) (pane_ids : list PaneId) : AppState :=
  match as_previous_pane_focus s with
  | Some focus => if bool_decide (ft_pane_id focus ∈ pane_ids) then s <| as_previous_pane_focus := None |> else s
  | None => s
  end.

(** The runtimes of the terminals are stopped. *)
Definition shutdown_detached_terminal_runtimes (s : AppState) : AppState :=
  s <| as_terminal_runtimes ::= λ runtimes, runtimes ∖ list_to_set (as_terminal_runtime_shutdowns s) |>
    <| as_terminal_runtime_shutdowns := [] |>.

(** [Vec::remove], which panics out of range *)
Definition vec_remove {A} (i : nat) (l : list A) : option (list A) :=
  if bool_decide (i < length l) then Some (delete i l) else None.

(** The positions of the workspaces of a worktree group *)
Definition group_members (s : AppState) (space : WorktreeSpaceMembership) : list nat :=
  omap (λ iw, if bool_decide (sm_key <$> ws_worktree_space iw.2 = Some (sm_key space)) then Some iw.1 else None)
    (imap pair (as_workspaces s)).

(** A workspace of the main checkout takes those of its linked worktrees with
    it. *)
Definition close_indices (s : AppState) : list nat :=
  match as_workspaces s !! as_selected s ≫= ws_worktree_space with
  | Some space =>
      let members := group_members s space in
      if negb (sm_is_linked_worktree space) && bool_decide (2 ≤ length members) then members else [as_selected s]
  | None => [as_selected s]
  end.

Definition close_selected_workspace (s : AppState) : option AppState :=
  if bool_decide (as_workspaces s = []) then Some s
  else
    let indices := close_indices s in
    let terminal_ids := indices ≫= terminal_ids_for_workspace s in
    let s := remove_plugin_pane_records s (indices ≫= pane_ids_for_workspace s) in
    workspaces ← foldr (λ idx workspaces, workspaces ≫= vec_remove idx) (Some (as_workspaces s)) indices;
    let s := remove_unattached_terminal_ids (s <| as_workspaces := workspaces |>) terminal_ids in
    if bool_decide (as_workspaces s = []) then Some (s <| as_active := None |> <| as_selected := 0 |>)
    else
      let s := if bool_decide (length (as_workspaces s) ≤ as_selected s)
               then s <| as_selected := length (as_workspaces s) - 1 |> else s in
      Some (s <| as_active := Some (as_selected s) |>).

Definition workspace_close_would_close_worktree_group (s : AppState) (ws_idx : nat) : bool :=
  match as_workspaces s !! ws_idx ≫= ws_worktree_space with
  | Some space => negb (sm_is_linked_worktree space) && bool_decide (2 ≤ length (group_members s space))
  | None => false
  end.

(** Whether the user is asked first *)
Definition confirm_implicit_worktree_group_close (s : AppState) (ws_idx : nat) : AppState * bool :=
  if as_confirm_close s && workspace_close_would_close_worktree_group s ws_idx
  then (s <| as_selected := ws_idx |>, true) else (s, false).

Definition close_pane_would_close_workspace (s : AppState) (ws_idx : nat) (pane_id : PaneId) : bool :=
  match as_workspaces s !! ws_idx with
  | Some ws =>
      match find_tab_index_for_pane ws pane_id ≫= λ tab_idx, ws_tabs ws !! tab_idx with
      | Some tab => bool_decide (pane_count (tb_layout tab) ≤ 1) && bool_decide (length (ws_tabs ws) ≤ 1)
      | None => false
      end
  | None => false
  end.

Definition drop_aliases (s : AppState) (pane_id : PaneId) : AppState :=
  s <| as_pane_id_aliases ::= filter (λ alias, alias.2 ≠ pane_id) |>
    <| as_public_pane_id_aliases ::= filter (λ alias, alias.2 ≠ pane_id) |>.

(** The process of a pane is over.  The positions of the active and of the
    selected workspace are only kept in range. *)
Definition handle_pane_died (s : AppState) (pane_id : PaneId) : option AppState :=
  let s := remove_plugin_pane_records s [pane_id] in
  match list_find (λ ws, is_Some (find_tab_index_for_pane ws pane_id)) (as_workspaces s) with
  | None => Some s
  | Some (ws_idx, ws) =>
      let pane_terminal_id := terminal_id_for_pane s ws_idx pane_id in
      let workspace_terminal_ids := terminal_ids_for_workspace s ws_idx in
      let s := drop_aliases s pane_id in
      '(ws, should_close_workspace) ← ws_close_pane ws pane_id;
      let s := set_workspace s ws_idx ws in
      if should_close_workspace : bool then
        let s := remove_unattached_terminal_ids (s <| as_workspaces ::= delete ws_idx |>) workspace_terminal_ids in
        let count := length (as_workspaces s) in
        if bool_decide (as_workspaces s = []) then Some (s <| as_active := None |> <| as_selected := 0 |>)
        else
          Some (s <| as_active ::= fmap (λ active, if bool_decide (count ≤ active) then count - 1 else active) |>
                  <| as_selected ::= λ selected, if bool_decide (count ≤ selected) then count - 1 else selected |>)
      else Some (remove_unattached_terminal_ids s (option_list pane_terminal_id))
  end.

Definition remove_alias_shadowed_by_new_pane (s : AppState) (pane_id : PaneId) : AppState :=
  s <| as_pane_id_aliases ::= delete pane_id |>.

End ids.

(** ** States that are well formed *)

Definition all_attached (workspaces : list Workspace) : list (PaneId * string) :=
  workspaces ≫= λ ws, attached (ws_tabs ws).

(** Identifiers that the counters have given out *)
Definition workspace_named (c : Counters) (id : string) : Prop :=
  ∃ n, (0 < n < ct_workspace c)%N ∧ id = "w" +:+ encode_public_number n.
Definition terminal_named (c : Counters) (id : string) : Prop :=
  ∃ micros n, clock_ok micros ∧ (n < ct_terminal c)%N ∧ id = terminal_id_of micros n.

Definition counters_le (c c' : Counters) : Prop :=
  (ct_pane c ≤ ct_pane c')%N ∧ (ct_terminal c ≤ ct_terminal c')%N ∧ (ct_workspace c ≤ ct_workspace c')%N.
#[export] Instance counters_le_po : PreOrder counters_le.
Proof. split; [intros c; unfold counters_le; lia|intros a b d; unfold counters_le; lia]. Qed.

(** Workspaces with identifiers, panes and terminals of their own *)
Record workspaces_ok (c : Counters) (workspaces : list Workspace) : Prop := mk_workspaces_ok {
  wo_wf : Forall (ws_wf c) workspaces;
  wo_ids : NoDup (ws_id <$> workspaces);
  wo_named : Forall (λ ws, workspace_named c (ws_id ws)) workspaces;
  wo_panes : NoDup (all_attached workspaces).*1;
  wo_terminals : NoDup (all_attached workspaces).*2;
  wo_terminals_named : Forall (terminal_named c) (all_attached workspaces).*2;
}.

(** There is an active and a selected workspace, when there is one. *)
Definition navigation_ok (count : nat) (active : option nat) (selected : nat) : Prop :=
  match count with
  | O => active = None ∧ selected = 0
  | _ => (∃ a, active = Some a ∧ a < count) ∧ selected < count
  end.

(** The terminals are those of the panes; they run, and nothing else does but
    what is about to be shut down. *)
Record terminals_ok (s : AppState) : Prop := mk_terminals_ok {
  to_known : ∀ t, is_Some (as_terminals s !! t) ↔ t ∈ (all_attached (as_workspaces s)).*2;
  to_runtimes : ∀ t, t ∈ as_terminal_runtimes s ↔
                  t ∈ (all_attached (as_workspaces s)).*2 ∨ t ∈ as_terminal_runtime_shutdowns s;
  to_shutdowns : ∀ t, t ∈ as_terminal_runtime_shutdowns s → t ∉ (all_attached (as_workspaces s)).*2;
}.

Record app_wf (c : Counters) (s : AppState) : Prop := mk_app_wf {
  aw_workspaces : workspaces_ok c (as_workspaces s);
  aw_navigation : navigation_ok (length (as_workspaces s)) (as_active s) (as_selected s);
  aw_terminals : terminals_ok s;
  aw_shutdowns : Forall (terminal_named c) (as_terminal_runtime_shutdowns s);
}.

Lemma no_workspaces_wf c confirm : app_wf c (no_workspaces confirm).
Proof.
  constructor; [|done| |done].
  - constructor; cbn; try constructor.
  - constructor; cbn; [|set_solver..]. intros t. rewrite lookup_empty. split; [by intros []|set_solver].
Qed.

(** *** Lists of workspaces *)

Lemma NoDup_part {A} (l l' : list A) : l' ⊆+ l → NoDup l → NoDup l'.
Proof. intros [k Hk]%submseteq_Permutation Hl. rewrite Hk in Hl. by apply NoDup_app in Hl as []. Qed.

Lemma all_attached_lookup L i w :
  L !! i = Some w → all_attached L ≡ₚ attached (ws_tabs w) ++ all_attached (delete i L).
Proof. intros Hi. unfold all_attached. rewrite (delete_Permutation L i w Hi) at 1. by rewrite bind_cons. Qed.

Lemma delete_insert_list {A} (L : list A) i w : delete i (<[i:=w]> L) = delete i L.
Proof. revert i. induction L as [|x L IH]; intros [|i]; cbn; [done..|]. by rewrite IH. Qed.

Lemma all_attached_set L i w w' :
  L !! i = Some w → all_attached (<[i := w']> L) ≡ₚ attached (ws_tabs w') ++ all_attached (delete i L).
Proof.
  intros Hi. rewrite (all_attached_lookup _ i w'); [by rewrite delete_insert_list|].
  rewrite list_lookup_insert. by rewrite decide_True by (split; [done|by eapply lookup_lt_Some]).
Qed.

Lemma all_attached_app L L' : all_attached (L ++ L') = all_attached L ++ all_attached L'.
Proof. apply bind_app. Qed.

Lemma elem_of_all_attached L x : x ∈ all_attached L ↔ ∃ w, w ∈ L ∧ x ∈ attached (ws_tabs w).
Proof. unfold all_attached. rewrite list_elem_of_bind. naive_solver. Qed.

Lemma all_attached_pane L p : p ∈ (all_attached L).*1 ↔ ∃ w, w ∈ L ∧ p ∈ (attached (ws_tabs w)).*1.
Proof.
  rewrite list_elem_of_fmap. setoid_rewrite elem_of_all_attached. setoid_rewrite list_elem_of_fmap. naive_solver.
Qed.

Lemma all_attached_perm L L' : L ≡ₚ L' → all_attached L ≡ₚ all_attached L'.
Proof. intros H. unfold all_attached. by rewrite H. Qed.

Lemma workspace_named_mono c c' id : counters_le c c' → workspace_named c id → workspace_named c' id.
Proof. intros Hle (n & Hn & ->). exists n. split; [unfold counters_le in Hle; lia|done]. Qed.
Lemma terminal_named_mono c c' id : counters_le c c' → terminal_named c id → terminal_named c' id.
Proof. intros Hle (m & n & Hm & Hn & ->). exists m, n. split_and!; [done|unfold counters_le in Hle; lia|done]. Qed.

Lemma workspaces_ok_mono c c' L : counters_le c c' → workspaces_ok c L → workspaces_ok c' L.
Proof.
  intros Hle [H1 H2 H3 H4 H5 H6]. constructor; [|done| |done..|].
  - eapply Forall_impl; [exact H1|]. intros w. apply ws_wf_mono. apply Hle.
  - eapply Forall_impl; [exact H3|]. intros w. by apply workspace_named_mono.
  - eapply Forall_impl; [exact H6|]. intros t. by apply terminal_named_mono.
Qed.

Lemma named_ids c L : Forall (λ ws, workspace_named c (ws_id ws)) L ↔ Forall (workspace_named c) (ws_id <$> L).
Proof. by rewrite Forall_fmap. Qed.

(** What is left of some workspaces *)
Lemma workspaces_ok_sub c L L' :
  workspaces_ok c L → Forall (ws_wf c) L' → (ws_id <$> L') ⊆+ (ws_id <$> L) → all_attached L' ⊆+ all_attached L →
  workspaces_ok c L'.
Proof.
  intros [H1 H2 H3 H4 H5 H6] Hwf Hids Hatt. constructor.
  - done.
  - by eapply NoDup_part.
  - rewrite named_ids in H3 |- *. rewrite Forall_forall in H3 |- *. intros x Hx. apply H3. by eapply elem_of_submseteq.
  - eapply NoDup_part; [|exact H4]. by apply fmap_submseteq.
  - eapply NoDup_part; [|exact H5]. by apply fmap_submseteq.
  - rewrite Forall_forall in H6 |- *. intros x Hx. apply H6. eapply elem_of_submseteq; [exact Hx|]. by apply fmap_submseteq.
Qed.

(** A workspace gets a new pane with a new terminal. *)
Lemma workspaces_ok_gain c L L' p t :
  workspaces_ok c L → Forall (ws_wf c) L' → (ws_id <$> L') ≡ₚ (ws_id <$> L) →
  all_attached L' ≡ₚ (p, t) :: all_attached L → p ∉ (all_attached L).*1 → t ∉ (all_attached L).*2 →
  terminal_named c t → workspaces_ok c L'.
Proof.
  intros [H1 H2 H3 H4 H5 H6] Hwf Hids Hatt Hp Ht Hn. constructor.
  - done.
  - by rewrite Hids.
  - rewrite named_ids, Hids. by rewrite <- named_ids.
  - rewrite Hatt. cbn. by constructor.
  - rewrite Hatt. cbn. by constructor.
  - rewrite Hatt. cbn. by constructor.
Qed.

Lemma set_ids (L : list Workspace) i w w' : L !! i = Some w → ws_id w' = ws_id w → ws_id <$> <[i := w']> L = ws_id <$> L.
Proof. intros Hi Hid. rewrite list_fmap_insert. apply list_insert_id. by rewrite list_lookup_fmap, Hi, Hid. Qed.

Lemma set_wf c (L : list Workspace) i w' : Forall (ws_wf c) L → ws_wf c w' → Forall (ws_wf c) (<[i := w']> L).
Proof. intros. by apply Forall_insert. Qed.

(** A workspace is changed but keeps its panes, or loses one. *)
Lemma workspaces_ok_set c L i w w' :
  L !! i = Some w → workspaces_ok c L → ws_wf c w' → ws_id w' = ws_id w →
  attached (ws_tabs w') ⊆+ attached (ws_tabs w) → workspaces_ok c (<[i := w']> L).
Proof.
  intros Hi Hok Hwf Hid Hatt. eapply workspaces_ok_sub; [exact Hok|apply set_wf; [apply Hok|done]| |].
  - by rewrite (set_ids _ _ _ _ Hi Hid).
  - rewrite (all_attached_set _ _ _ _ Hi), (all_attached_lookup _ _ _ Hi). by apply submseteq_skips_r.
Qed.

Lemma workspaces_ok_delete c L i : workspaces_ok c L → workspaces_ok c (delete i L).
Proof.
  intros Hok. destruct (L !! i) as [w|] eqn:Hi.
  - eapply workspaces_ok_sub; [exact Hok|apply Forall_delete, Hok| |].
    + apply fmap_submseteq, sublist_submseteq, sublist_delete.
    + rewrite (all_attached_lookup _ _ _ Hi). by apply submseteq_inserts_l.
  - apply lookup_ge_None in Hi. by rewrite delete_take_drop, take_ge, drop_ge, app_nil_r by lia.
Qed.

Lemma workspaces_ok_perm c L L' : L ≡ₚ L' → workspaces_ok c L → workspaces_ok c L'.
Proof.
  intros Hp Hok. eapply workspaces_ok_sub; [exact Hok| | |].
  - rewrite <- Hp. apply Hok.
  - by rewrite Hp.
  - by rewrite (all_attached_perm _ _ Hp).
Qed.

(** *** Terminals *)

Definition same_terminals (s s' : AppState) : Prop :=
  as_terminals s' = as_terminals s ∧ as_terminal_runtimes s' = as_terminal_runtimes s
  ∧ as_terminal_runtime_shutdowns s' = as_terminal_runtime_shutdowns s.
#[export] Instance same_terminals_po : PreOrder same_terminals.
Proof. split; [done|]. unfold same_terminals. intros s1 s2 s3 (? & ? & ?) (? & ? & ?). split_and!; congruence. Qed.

Lemma terminals_ok_same s s' :
  terminals_ok s → same_terminals s s' → all_attached (as_workspaces s') ≡ₚ all_attached (as_workspaces s) →
  terminals_ok s'.
Proof.
  intros [H1 H2 H3] (Ht & Hr & Hs) Hatt. constructor; intros t; rewrite ?Ht, ?Hr, ?Hs, Hatt; [apply H1|apply H2|apply H3].
Qed.

Section terminals.
Context `{HSpec : HashOrderSpec}.

Lemma elem_of_tab_terminal_ids t id : id ∈ tab_terminal_ids t ↔ id ∈ (tab_attached t).*2.
Proof.
  unfold tab_terminal_ids, hash_values, tab_attached. rewrite <- !list_fmap_compose, (hash_entries_perm _ (tb_panes t)).
  done.
Qed.

Lemma still_attached_spec s id : still_attached s id = true ↔ id ∈ (all_attached (as_workspaces s)).*2.
Proof.
  unfold still_attached. rewrite existsb_exists. split.
  - intros (ws & Hws%list_elem_of_In & (tab & Htab%list_elem_of_In & (x & Hx%list_elem_of_In & ->%bool_decide_true_iff)
      %existsb_exists)%existsb_exists).
    apply elem_of_tab_terminal_ids, list_elem_of_fmap in Hx as (pt & -> & Hpt). apply list_elem_of_fmap_2.
    apply elem_of_all_attached. exists ws. split; [done|]. apply elem_of_attached. by exists tab.
  - intros (pt & -> & (ws & Hws & (tab & Htab & Hpt)%elem_of_attached)%elem_of_all_attached)%list_elem_of_fmap.
    exists ws. split; [by apply list_elem_of_In|]. apply existsb_exists. exists tab. split; [by apply list_elem_of_In|].
    apply existsb_exists. exists pt.2. split; [|by apply bool_decide_true_iff]. apply list_elem_of_In.
    apply elem_of_tab_terminal_ids. by apply list_elem_of_fmap_2.
Qed.

(** What is taken away of the terminals *)
Definition dropped (s : AppState) (ids : list string) (t : string) : Prop :=
  t ∈ ids ∧ t ∉ (all_attached (as_workspaces s)).*2.

Lemma remove_unattached_frame s ids :
  let s' := remove_unattached_terminal_ids s ids in
  as_workspaces s' = as_workspaces s ∧ as_active s' = as_active s ∧ as_selected s' = as_selected s
  ∧ as_pane_id_aliases s' = as_pane_id_aliases s ∧ as_public_pane_id_aliases s' = as_public_pane_id_aliases s
  ∧ as_terminal_runtimes s' = as_terminal_runtimes s ∧ as_previous_pane_focus s' = as_previous_pane_focus s.
Proof.
  revert s. induction ids as [|t ids IH]; intros s; [done|]. cbn [remove_unattached_terminal_ids foldl].
  fold (remove_unattached_terminal_ids (remove_unattached s t) ids). cbv zeta in *.
  destruct (IH (remove_unattached s t)) as (H1 & H2 & H3 & H4 & H5 & H6 & H7).
  rewrite H1, H2, H3, H4, H5, H6, H7. unfold remove_unattached.
  destruct (still_attached s t); [done|]. destruct (as_terminals s !! t); [|done]. cbv zeta. by case_bool_decide.
Qed.

Lemma remove_one s t :
  let s' := remove_unattached s t in
  (∀ u, as_terminals s' !! u = if bool_decide (dropped s [t] u) then None else as_terminals s !! u)
  ∧ (∀ u, u ∈ as_terminal_runtime_shutdowns s' ↔
          u ∈ as_terminal_runtime_shutdowns s ∨ dropped s [t] u ∧ is_Some (as_terminals s !! u)).
Proof.
  cbv zeta. unfold remove_unattached, dropped. pose proof (still_attached_spec s t) as Hatt.
  destruct (still_attached s t) eqn:Hs.
  - assert (t ∈ (all_attached (as_workspaces s)).*2) by by apply Hatt. split; intros u.
    + by rewrite bool_decide_false by set_solver.
    + set_solver.
  - assert (Hno : t ∉ (all_attached (as_workspaces s)).*2) by (intros Hin%Hatt; done).
    assert (Hu : ∀ u, u ∈ [t] ∧ u ∉ (all_attached (as_workspaces s)).*2 ↔ u = t) by set_solver.
    destruct (as_terminals s !! t) as [T|] eqn:HT.
    + cbv zeta. case_bool_decide as Hin; split; intros u; rewrite ?(bool_decide_ext _ _ (Hu u)), ?(Hu u); cbn.
      * rewrite lookup_delete. by repeat case_decide || case_bool_decide.
      * naive_solver.
      * rewrite lookup_delete. by repeat case_decide || case_bool_decide.
      * rewrite elem_of_app, list_elem_of_singleton. naive_solver.
    + split; intros u; rewrite ?(bool_decide_ext _ _ (Hu u)), ?(Hu u).
      * case_bool_decide; naive_solver.
      * split; [by left|]. intros [?|[-> [? ?]]]; [done|congruence].
Qed.

Lemma remove_unattached_spec s ids :
  let s' := remove_unattached_terminal_ids s ids in
  (∀ t, as_terminals s' !! t = if bool_decide (dropped s ids t) then None else as_terminals s !! t)
  ∧ (∀ t, t ∈ as_terminal_runtime_shutdowns s' ↔
          t ∈ as_terminal_runtime_shutdowns s ∨ dropped s ids t ∧ is_Some (as_terminals s !! t)).
Proof.
  revert s. induction ids as [|t ids IH]; intros s; cbv zeta in *.
  - unfold dropped. split; intros u; [by rewrite bool_decide_false by set_solver|set_solver].
  - cbn [remove_unattached_terminal_ids foldl]. fold (remove_unattached_terminal_ids (remove_unattached s t) ids).
    destruct (IH (remove_unattached s t)) as [IH1 IH2], (remove_one s t) as [H1 H2].
    destruct (remove_unattached_frame s [t]) as (Hw & _). cbn [remove_unattached_terminal_ids foldl] in Hw.
    assert (Hdrop : ∀ u, dropped (remove_unattached s t) ids u ↔ u ∈ ids ∧ u ∉ (all_attached (as_workspaces s)).*2)
      by (intros u; unfold dropped; by rewrite Hw).
    split; intros u.
    + rewrite IH1, H1. rewrite (bool_decide_ext _ _ (Hdrop u)). unfold dropped.
      repeat case_bool_decide; rewrite ?elem_of_cons, ?elem_of_nil in *; tauto.
    + rewrite IH2, H1, H2, Hdrop. unfold dropped.
      assert (Hnone : @is_Some TerminalState None ↔ False) by (split; [by intros []|done]).
      case_bool_decide; rewrite ?Hnone, ?elem_of_cons, ?elem_of_nil in *; tauto.
Qed.

(** Panes went: their terminals go too. *)
Lemma terminals_ok_close s s' gone ids :
  terminals_ok s → same_terminals s s' → NoDup (all_attached (as_workspaces s)).*2 →
  all_attached (as_workspaces s) ≡ₚ gone ++ all_attached (as_workspaces s') →
  (∀ t, t ∈ ids ↔ t ∈ gone.*2) →
  terminals_ok (remove_unattached_terminal_ids s' ids).
Proof.
  intros [Hk Hr Hs] (Ht & Hrun & Hsh) Hnd Hatt Hids.
  rewrite Hatt, fmap_app in Hnd. apply NoDup_app in Hnd as (_ & Hdisj & _).
  setoid_rewrite Hatt in Hk. setoid_rewrite Hatt in Hr. setoid_rewrite Hatt in Hs.
  setoid_rewrite fmap_app in Hk. setoid_rewrite fmap_app in Hr. setoid_rewrite fmap_app in Hs.
  setoid_rewrite elem_of_app in Hk. setoid_rewrite elem_of_app in Hr. setoid_rewrite elem_of_app in Hs.
  destruct (remove_unattached_spec s' ids) as [H1 H2].
  destruct (remove_unattached_frame s' ids) as (Hw & _ & _ & _ & _ & Hrun' & _). cbv zeta in *.
  assert (Hd : ∀ t, dropped s' ids t ↔ t ∈ gone.*2) 
    by (intros t; unfold dropped; rewrite Hids; split; [by intros []|intros Hg; split; [done|by apply Hdisj]]).
  constructor; intros t; rewrite ?Hw.
  - rewrite H1, Ht. case_bool_decide as Hdt; rewrite Hd in Hdt.
    + split; [by intros []|]. intros Hin. by destruct (Hdisj t).
    + rewrite Hk. tauto.
  - rewrite Hrun', Hrun, Hr, H2, Hsh, Hd, Ht, Hk. tauto.
  - rewrite H2, Hsh, Hd. intros [Hin|[Hin _]] Hin'; [by apply (Hs t Hin); right|by apply (Hdisj t)].
Qed.

Lemma terminals_ok_shutdown s : terminals_ok s → terminals_ok (shutdown_detached_terminal_runtimes s).
Proof.
  intros [Hk Hr Hs]. constructor; intros t; cbn; [apply Hk| |by intros ?%elem_of_nil].
  rewrite elem_of_difference, elem_of_list_to_set, Hr, elem_of_nil. specialize (Hs t). tauto.
Qed.

(** A pane came with its terminal. *)
Lemma terminals_ok_open s s' p terminal :
  terminals_ok s → same_terminals s s' →
  all_attached (as_workspaces s') ≡ₚ (p, tm_id terminal) :: all_attached (as_workspaces s) →
  tm_id terminal ∉ as_terminal_runtime_shutdowns s →
  terminals_ok (s' <| as_terminal_runtimes ::= λ ids, {[tm_id terminal]} ∪ ids |>
                   <| as_terminals ::= <[tm_id terminal := terminal]> |>).
Proof.
  intros [Hk Hr Hs] (Ht & Hrun & Hsh) Hatt Hnew. constructor; intros t; cbn; rewrite Hatt; cbn; rewrite ?Ht, ?Hrun, ?Hsh.
  - rewrite lookup_insert_is_Some, Hk, elem_of_cons. destruct (decide (t = tm_id terminal)); naive_solver.
  - rewrite elem_of_union, elem_of_singleton, Hr, elem_of_cons. tauto.
  - rewrite not_elem_of_cons. intros Hin. split; [by intros ->|by apply Hs].
Qed.

End terminals.

(** ** What a request leaves as it was *)

(** A workspace later: a number that a pane has now, it had, or no pane had it. *)
Record ws_later (w w' : Workspace) : Prop := mk_ws_later {
  wl_id : ws_id w' = ws_id w;
  wl_next : (ws_next_public_pane_number w ≤ ws_next_public_pane_number w')%N;
  wl_numbers : ∀ p n, ws_public_pane_numbers w' !! p = Some n →
                 ws_public_pane_numbers w !! p = Some n ∨ (ws_next_public_pane_number w ≤ n)%N;
}.
#[export] Instance ws_later_po : PreOrder ws_later.
Proof.
  split; [intros w; constructor; [done|lia|by left]|]. intros w1 w2 w3 [H1 H2 H3] [G1 G2 G3].
  constructor; [congruence|lia|]. intros p n [Hp|Hn]%G3; [by apply H3|right; lia].
Qed.

Lemma numbers_kept_later w w' : numbers_kept w w' → ws_later w w'.
Proof. intros [H1 H2 H3 H4]. constructor; [done..|]. intros p n [?|[_ ?]]%H4; [by left|by right]. Qed.

(** Workspaces later: those that were there, and new ones. *)
Definition workspaces_later (c : Counters) (L L' : list Workspace) : Prop :=
  Forall (λ w', (∃ w, w ∈ L ∧ ws_later w w')
                ∨ ∃ n, (ct_workspace c ≤ n < u64_max)%N ∧ ws_id w' = "w" +:+ encode_public_number n) L'.

Lemma workspaces_later_refl c L : workspaces_later c L L.
Proof. apply Forall_forall. intros w Hw. left. by exists w. Qed.

Lemma workspaces_later_trans c c' L L' L'' :
  (ct_workspace c ≤ ct_workspace c')%N → workspaces_later c L L' → workspaces_later c' L' L'' →
  workspaces_later c L L''.
Proof.
  unfold workspaces_later. rewrite !Forall_forall. intros Hle H1 H2 w'' [(w' & Hw' & Hl)|(n & Hn & Hid)]%H2.
  - destruct (H1 _ Hw') as [(w & Hw & Hl')|(n & Hn & Hid)].
    + left. exists w. split; [done|]. by etrans.
    + right. exists n. split; [done|]. by rewrite (wl_id _ _ Hl).
  - right. exists n. split; [lia|done].
Qed.

Lemma workspaces_later_forall2 c L L' : Forall2 ws_later L L' → workspaces_later c L L'.
Proof.
  intros H. apply Forall_forall. intros w' (i & Hi)%list_elem_of_lookup.
  destruct (Forall2_lookup_r _ _ _ _ _ H Hi) as (w & Hw & Hl). left. exists w. split; [|done].
  by eapply list_elem_of_lookup_2.
Qed.

Lemma workspaces_later_part c L L' : (∀ w, w ∈ L' → w ∈ L) → workspaces_later c L L'.
Proof. intros H. apply Forall_forall. intros w Hw. left. exists w. by split; [apply H|]. Qed.

(** What a tab keeps: its number, its panes with their terminals, and how they
    share its room *)
Definition tab_shape (t : Tab) : N * list (PaneId * string) * Node :=
  (tb_number t, tab_attached t, tl_root (tb_layout t)).

Lemma alter_shape f (tabs : list Tab) (j : nat) t :
  tabs !! j = Some t → tab_shape (f t) = tab_shape t → tab_shape <$> alter f j tabs = tab_shape <$> tabs.
Proof.
  intros Hj Hf. apply list_eq. intros k. rewrite !list_lookup_fmap. destruct (decide (j = k)) as [<-|Hne].
  - by rewrite list_lookup_alter_eq, Hj; cbn; rewrite Hf.
  - by rewrite list_lookup_alter_ne.
Qed.

(** Only what is shown, or how things are called, changes. *)
Record ws_quiet (c : Counters) (w w' : Workspace) : Prop := mk_ws_quiet {
  wq_wf : ws_wf c w';
  wq_attached : attached (ws_tabs w') = attached (ws_tabs w);
  wq_shapes : tab_shape <$> ws_tabs w' = tab_shape <$> ws_tabs w;
  wq_later : ws_later w w';
}.

Record quiet (c : Counters) (s s' : AppState) : Prop := mk_quiet {
  qu_terminals : same_terminals s s';
  qu_workspaces : Forall2 (ws_quiet c) (as_workspaces s) (as_workspaces s');
  qu_navigation : navigation_ok (length (as_workspaces s)) (as_active s) (as_selected s) →
                  navigation_ok (length (as_workspaces s')) (as_active s') (as_selected s');
}.

Lemma wq_tabs c w w' : ws_quiet c w w' → length (ws_tabs w') = length (ws_tabs w).
Proof. intros H%wq_shapes%(f_equal length). by rewrite !length_fmap in H. Qed.

Lemma ws_quiet_refl c w : ws_wf c w → ws_quiet c w w.
Proof. by intros. Qed.

Lemma Forall2_quiet_refl c L : Forall (ws_wf c) L → Forall2 (ws_quiet c) L L.
Proof. induction 1; constructor; [by apply ws_quiet_refl|done]. Qed.

Lemma quiet_refl c s : Forall (ws_wf c) (as_workspaces s) → quiet c s s.
Proof. intros H. constructor; [done| |done]. by apply Forall2_quiet_refl. Qed.

Lemma quiet_trans c s1 s2 s3 : quiet c s1 s2 → quiet c s2 s3 → quiet c s1 s3.
Proof.
  intros [A1 B1 C1] [A2 B2 C2]. constructor; [by etrans| |by eauto].
  clear -B1 B2. revert B2. generalize (as_workspaces s3). induction B1 as [|w1 w2 L1 L2 H1 _ IH]; intros L3 B2.
  - by inversion B2.
  - inversion B2 as [|? w3 ? L3' H2 HB]; subst. constructor; [|by apply IH].
    destruct H1 as [? Ha Ht Hl], H2 as [? Ha' Ht' Hl']. constructor; [done|congruence|congruence|by etrans].
Qed.

Lemma quiet_attached c L L' : Forall2 (ws_quiet c) L L' → all_attached L' = all_attached L.
Proof. induction 1 as [|w w' L L' H _ IH]; [done|]. cbn. f_equal; [apply H|done]. Qed.

Lemma quiet_ids c L L' : Forall2 (ws_quiet c) L L' → ws_id <$> L' = ws_id <$> L.
Proof. induction 1 as [|w w' L L' H _ IH]; [done|]. cbn. f_equal; [apply H|done]. Qed.

Lemma quiet_wf c L L' : Forall2 (ws_quiet c) L L' → Forall (ws_wf c) L'.
Proof. induction 1 as [|w w' L L' H _ IH]; [done|]. constructor; [apply H|done]. Qed.

Lemma quiet_later c L L' : Forall2 (ws_quiet c) L L' → Forall2 ws_later L L'.
Proof. intros H. eapply Forall2_impl; [exact H|]. intros w w' Hw. apply Hw. Qed.

Lemma quiet_app_wf c s s' :
  app_wf c s → quiet c s s' → app_wf c s' ∧ workspaces_later c (as_workspaces s) (as_workspaces s')
                               ∧ all_attached (as_workspaces s') = all_attached (as_workspaces s).
Proof.
  intros [Hw Hn Ht Hs] [Hq Hq' Hnav]. pose proof (quiet_attached _ _ _ Hq') as Hatt. split_and!; [|by apply workspaces_later_forall2, (quiet_later c)|done].
  constructor; [|by apply Hnav| |by destruct Hq as (_ & _ & ->)].
  - eapply workspaces_ok_sub; [exact Hw|by eapply quiet_wf|by rewrite (quiet_ids _ _ _ Hq')|by rewrite Hatt].
  - eapply terminals_ok_same; [exact Ht|done|by rewrite Hatt].
Qed.

(** Changing one workspace *)
Lemma quiet_set c L i w w' :
  L !! i = Some w → Forall (ws_wf c) L → ws_quiet c w w' → Forall2 (ws_quiet c) L (<[i := w']> L).
Proof.
  intros Hi Hwf Hq. rewrite <- (list_insert_id L i w Hi) at 1. apply Forall2_insert; [|done].
  by apply Forall2_quiet_refl.
Qed.

Lemma alter_insert {A} (f : A → A) (L : list A) i x : L !! i = Some x → alter f i L = <[i := f x]> L.
Proof.
  intros Hi. apply list_eq. intros j. destruct (decide (i = j)) as [<-|Hne].
  - rewrite list_lookup_alter_eq, Hi, list_lookup_insert_eq; [done|]. by eapply lookup_lt_Some.
  - by rewrite list_lookup_alter_ne, list_lookup_insert_ne.
Qed.

Lemma alter_absent {A} (f : A → A) (L : list A) i : L !! i = None → alter f i L = L.
Proof.
  intros Hi. apply list_eq. intros j. destruct (decide (i = j)) as [<-|Hne].
  - by rewrite list_lookup_alter_eq, Hi.
  - by rewrite list_lookup_alter_ne.
Qed.

Lemma navigation_set {A} (L : list A) i x active selected :
  navigation_ok (length L) active selected → navigation_ok (length (<[i := x]> L)) active selected.
Proof. by rewrite length_insert. Qed.

Lemma navigation_at count i : i < count → navigation_ok count (Some i) i.
Proof. destruct count; [lia|]. intros Hi. split; [by exists i|done]. Qed.

(** Changing one tab of a workspace, but for its panes *)
Lemma ws_quiet_tab c w j t f :
  ws_wf c w → ws_tabs w !! j = Some t → tab_wf (ct_pane c) (f t) → tb_number (f t) = tb_number t →
  tab_attached (f t) = tab_attached t → tl_root (tb_layout (f t)) = tl_root (tb_layout t) →
  ws_quiet c w (w <| ws_tabs ::= alter f j |>).
Proof.
  intros Hwf Hj Ht Hn Ha Hroot. assert (Hshape : tab_shape (f t) = tab_shape t) by (unfold tab_shape; congruence). pose proof Hwf as [[Hto Hno Hp] Hact Hnum].
  destruct (tabs_ok_same (ct_pane c) (ct_pane c) (ws_next_public_tab_number w) (ws_tabs w) j t (f t)) as [Hok Hatt]; [done..|].
  unfold update; cbn. rewrite (alter_insert f _ _ _ Hj).
  set (w' := mkWorkspace _ _ _ _ _ _ _ _ _ _ _).
  assert (Hw' : ws_tabs w' = <[j := f t]> (ws_tabs w)) by done.
  destruct (ws_wf_shrink c w w' Hwf) as [Hwf' Hk]; [by rewrite Hw'|done|done|done|done| | |].
  - by rewrite Hw', length_insert.
  - intros p. by rewrite Hw', Hatt.
  - constructor; [done|by rewrite Hw'| |by apply numbers_kept_later].
    rewrite Hw', <- (alter_insert f _ _ _ Hj). by eapply alter_shape.
Qed.

Section quiet.
Context {HOrder : HashOrder}.

Lemma switch_tab_quiet c w idx : ws_wf c w → ws_quiet c w (switch_tab w idx).
Proof.
  intros Hwf. destruct (switch_tab_spec c w idx Hwf) as (? & ? & ? & _). constructor; [done..| |by apply numbers_kept_later].
  unfold switch_tab. case_bool_decide; [|done].
  change (tab_shape <$> alter mark_seen idx (ws_tabs w) = tab_shape <$> ws_tabs w).
  destruct (lookup_lt_is_Some_2 (ws_tabs w) idx) as [t Ht]; [done|]. eapply alter_shape; [exact Ht|].
  assert (Htw : tab_wf (ct_pane c) t) by (eapply tabs_ok_lookup; [apply Hwf|done]).
  destruct (mark_seen_spec _ _ Htw) as [_ Ha]. unfold tab_shape. by rewrite Ha.
Qed.

Lemma record_focus_quiet c s previous i p :
  Forall (ws_wf c) (as_workspaces s) → quiet c s (record_pane_focus_change s previous i p).
Proof.
  intros Hwf. unfold record_pane_focus_change. destruct (as_workspaces s !! i); [|by apply quiet_refl].
  case_bool_decide; [by apply quiet_refl|]. constructor; [done| |done]. by apply Forall2_quiet_refl.
Qed.

Lemma record_navigation_quiet c s previous :
  Forall (ws_wf c) (as_workspaces s) → quiet c s (record_pane_focus_after_navigation s previous).
Proof.
  intros Hwf. unfold record_pane_focus_after_navigation.
  case_bool_decide; [by apply quiet_refl|]. constructor; [done| |done]. by apply Forall2_quiet_refl.
Qed.

(** Going to a workspace *)
Lemma goto_quiet c s i w w' :
  as_workspaces s !! i = Some w → Forall (ws_wf c) (as_workspaces s) → ws_quiet c w w' →
  quiet c s (set_workspace (s <| as_active := Some i |> <| as_selected := i |>) i w').
Proof.
  intros Hi Hwf Hq. constructor; [done|by eapply quiet_set|]. intros _. apply navigation_set, navigation_at.
  by eapply lookup_lt_Some.
Qed.

Lemma switch_workspace_quiet c s i : Forall (ws_wf c) (as_workspaces s) → quiet c s (switch_workspace s i).
Proof.
  intros Hwf. unfold switch_workspace. destruct (as_workspaces s !! i) as [w|] eqn:Hi; [|by apply quiet_refl].
  assert (Hw : ws_wf c w) by by eapply Forall_lookup_1.
  pose proof (goto_quiet c s i w _ Hi Hwf (switch_tab_quiet c w (ws_active_tab w) Hw)) as Hq.
  eapply quiet_trans; [exact Hq|]. apply record_navigation_quiet. eapply quiet_wf, Hq.
Qed.

Lemma switch_workspace_tab_quiet c s i j :
  Forall (ws_wf c) (as_workspaces s) → quiet c s (switch_workspace_tab s i j).1.
Proof.
  intros Hwf. unfold switch_workspace_tab. destruct (as_workspaces s !! i) as [w|] eqn:Hi; [|by apply quiet_refl].
  case_bool_decide; [by apply quiet_refl|]. assert (Hw : ws_wf c w) by by eapply Forall_lookup_1. cbn [fst].
  pose proof (goto_quiet c s i w _ Hi Hwf (switch_tab_quiet c w j Hw)) as Hq.
  eapply quiet_trans; [exact Hq|]. apply record_navigation_quiet. eapply quiet_wf, Hq.
Qed.

Lemma update_tab_quiet c s i j f :
  Forall (ws_wf c) (as_workspaces s) →
  (∀ w t, as_workspaces s !! i = Some w → ws_tabs w !! j = Some t →
          tab_wf (ct_pane c) (f t) ∧ tb_number (f t) = tb_number t ∧ tab_attached (f t) = tab_attached t
          ∧ tl_root (tb_layout (f t)) = tl_root (tb_layout t)) →
  quiet c s (update_tab s i j f).
Proof.
  intros Hwf Hf. unfold update_tab. constructor; [done| |].
  - change (as_workspaces (s <| as_workspaces ::= alter (λ ws, ws <| ws_tabs ::= alter f j |>) i |>))
      with (alter (λ ws, ws <| ws_tabs ::= alter f j |>) i (as_workspaces s)).
    destruct (as_workspaces s !! i) as [w|] eqn:Hi.
    + rewrite (alter_insert _ _ _ _ Hi). assert (Hw : ws_wf c w) by by eapply Forall_lookup_1.
      eapply quiet_set; [done..|]. destruct (ws_tabs w !! j) as [t|] eqn:Hj.
      * destruct (Hf w t) as (? & ? & ? & ?); [done..|]. by eapply ws_quiet_tab.
      * assert (w <| ws_tabs ::= alter f j |> = w) as ->; [|by apply ws_quiet_refl].
        destruct w; unfold update; cbn in *. by rewrite alter_absent.
    + rewrite alter_absent by done. by apply Forall2_quiet_refl.
  - intros Hn. change (navigation_ok (length (alter (λ ws, ws <| ws_tabs ::= alter f j |>) i (as_workspaces s))) (as_active s) (as_selected s)).
    by rewrite length_alter.
Qed.


(** What concerns no workspace, no terminal and no navigation *)
Definition same_view (s s' : AppState) : Prop :=
  as_workspaces s' = as_workspaces s ∧ same_terminals s s' ∧ as_active s' = as_active s ∧ as_selected s' = as_selected s.

Lemma quiet_view c s s1 s2 : quiet c s s1 → same_view s1 s2 → quiet c s s2.
Proof.
  intros [A B C] (Hw & Ht & Ha & Hs). constructor; [by etrans|by rewrite Hw|by rewrite Hw, Ha, Hs].
Qed.

Lemma focus_tab_quiet c s i j p :
  Forall (ws_wf c) (as_workspaces s) → quiet c s (update_tab s i j (λ tab, tab <| tb_layout ::= λ l, focus_pane l p |>)).
Proof.
  intros Hwf. apply update_tab_quiet; [done|]. intros w t Hi Hj. split_and!; [|done|done|].
  2:{ unfold update; cbn. unfold focus_pane. by destruct (contains _ _). }
  apply focus_tab_wf. eapply tabs_ok_lookup; [|exact Hj].
  assert (Hw : ws_wf c w) by by eapply Forall_lookup_1. apply Hw.
Qed.

Lemma focus_pane_in_workspace_quiet c s i p :
  Forall (ws_wf c) (as_workspaces s) → quiet c s (focus_pane_in_workspace s i p).1.
Proof.
  intros Hwf. unfold focus_pane_in_workspace. destruct (as_workspaces s !! i) as [w|] eqn:Hi; [|by apply quiet_refl].
  destruct (find_tab_index_for_pane w p) as [j|]; [|by apply quiet_refl].
  case_bool_decide; [by apply quiet_refl|]. cbn [fst].
  pose proof (switch_workspace_tab_quiet c s i j Hwf) as Hq. assert (Hwf' := quiet_wf _ _ _ (qu_workspaces _ _ _ Hq)).
  eapply quiet_view; [eapply quiet_trans; [exact Hq|by apply (focus_tab_quiet c _ i j p)]|done].
Qed.

Lemma apply_pane_zoom_quiet c s i p command :
  Forall (ws_wf c) (as_workspaces s) → quiet c s (apply_pane_zoom s i p command).1.
Proof.
  intros Hwf. unfold apply_pane_zoom. destruct (as_workspaces s !! i ≫= _) as [j|]; [|by apply quiet_refl].
  pose proof (focus_pane_in_workspace_quiet c s i p Hwf) as Hq.
  destruct (focus_pane_in_workspace s i p) as [s1 changed]. cbn [fst] in Hq.
  assert (Hwf' := quiet_wf _ _ _ (qu_workspaces _ _ _ Hq)).
  assert (Hz : ∀ zoom, quiet c s (update_tab s1 i j (λ tab, tab <| tb_zoomed := zoom |>))).
  { intros zoom. eapply quiet_trans; [exact Hq|]. apply update_tab_quiet; [done|]. intros w t Hi Hj.
    split_and!; [|done..]. assert (Hw : ws_wf c w) by by eapply Forall_lookup_1.
    assert (Ht : tab_wf (ct_pane c) t) by (eapply tabs_ok_lookup; [apply Hw|done]). by destruct Ht. }
  destruct (as_workspaces s1 !! i ≫= _) as [tab|]; [|done]. cbv zeta.
  case_bool_decide; [done|]. destruct command, (tb_zoomed tab); solve [done|apply Hz].
Qed.

Lemma mark_active_tab_seen_quiet c s : Forall (ws_wf c) (as_workspaces s) → quiet c s (mark_active_tab_seen s).1.
Proof.
  intros Hwf. unfold mark_active_tab_seen. destruct (as_active s) as [i|] eqn:Ha; [|by apply quiet_refl].
  destruct (as_workspaces s !! i) as [w|] eqn:Hi; cbn [mbind option_bind]; [|by apply quiet_refl].
  destruct (active_tab w) as [t|] eqn:Ht; [|by apply quiet_refl]. cbn [fst].
  assert (Hw : ws_wf c w) by by eapply Forall_lookup_1.
  constructor; [done| |].
  - change (Forall2 (ws_quiet c) (as_workspaces s) (alter (λ ws, ws <| ws_tabs ::= alter mark_seen (ws_active_tab ws) |>) i (as_workspaces s))).
    rewrite (alter_insert _ _ _ _ Hi). eapply quiet_set; [done..|]. eapply (ws_quiet_tab c w (ws_active_tab w) t mark_seen); [done..| | | |].
    + apply mark_seen_spec. eapply tabs_ok_lookup; [apply Hw|done].
    + done.
    + eapply (mark_seen_spec (ct_pane c)). eapply tabs_ok_lookup; [apply Hw|done].
    + done.
  - intros Hn. change (navigation_ok (length (alter (λ ws, ws <| ws_tabs ::= alter mark_seen (ws_active_tab ws) |>) i (as_workspaces s))) (as_active s) (as_selected s)).
    by rewrite length_alter.
Qed.

Lemma set_quiet c s i w w' :
  as_workspaces s !! i = Some w → Forall (ws_wf c) (as_workspaces s) → ws_quiet c w w' → quiet c s (set_workspace s i w').
Proof.
  intros Hi Hwf Hq. constructor; [done|by eapply quiet_set|]. apply navigation_set.
Qed.

Lemma remove_plugin_view s ps : same_view s (remove_plugin_pane_records s ps).
Proof.
  unfold remove_plugin_pane_records. destruct (as_previous_pane_focus s); [|done]. by case_bool_decide.
Qed.

(** *** What identifiers name *)

Lemma pane_state_attached w p st :
  pane_state w p = Some st → (p, pn_attached_terminal_id st) ∈ attached (ws_tabs w).
Proof.
  intros (t & Ht & Hp)%head_Some_elem_of%list_elem_of_omap. apply elem_of_attached. exists t. split; [done|].
  apply elem_of_tab_attached. by exists st.
Qed.

Lemma pane_state_some w p : p ∈ (attached (ws_tabs w)).*1 → is_Some (pane_state w p).
Proof.
  intros (t & Ht & [st Hst])%attached_pane. unfold pane_state.
  assert (Hin : st ∈ omap (λ tab, tb_panes tab !! p) (ws_tabs w)) by (apply list_elem_of_omap; by exists t).
  destruct (omap _ _) as [|st' l]; [by apply elem_of_nil in Hin|by exists st'].
Qed.

Lemma pane_state_pane w p st : pane_state w p = Some st → p ∈ (attached (ws_tabs w)).*1.
Proof. intros H%pane_state_attached. apply list_elem_of_fmap. by exists (p, pn_attached_terminal_id st). Qed.

Lemma find_pane_some s p i st :
  find_pane s p = Some (i, st) → ∃ w, as_workspaces s !! i = Some w ∧ p ∈ (attached (ws_tabs w)).*1.
Proof.
  intros (iw & Hiw & Hp)%head_Some_elem_of%list_elem_of_omap.
  apply elem_of_lookup_imap in Hiw as (j & w & -> & Hj). cbn in Hp.
  apply fmap_Some in Hp as (st' & Hst & [= -> <-]). exists w. split; [done|]. by eapply pane_state_pane.
Qed.

Context {HSpec : HashOrderSpec}.

Lemma pane_of_number_some c w n p :
  ws_wf c w → pane_of_number w n = Some p → ws_public_pane_numbers w !! p = Some n ∧ p ∈ (attached (ws_tabs w)).*1.
Proof.
  intros Hwf ([p' n'] & Hfind & ->)%fmap_Some. unfold find_first in Hfind.
  apply List.find_some in Hfind as [Hin Hn]. cbn in Hn. apply N.eqb_eq in Hn. subst n'.
  apply list_elem_of_In in Hin. rewrite hash_entries_perm in Hin. apply elem_of_map_to_list in Hin.
  split; [done|]. apply (ww_numbered _ _ Hwf). by exists n.
Qed.

(** A pane that is named is there. *)
Lemma parse_pane_id_some c s id i p :
  Forall (ws_wf c) (as_workspaces s) → parse_pane_id s id = Some (i, p) →
  ∃ w, as_workspaces s !! i = Some w ∧ p ∈ (attached (ws_tabs w)).*1.
Proof.
  intros Hwf. unfold parse_pane_id.
  assert (Hnum : ∀ ws_raw n,
    (ws_idx ← parse_workspace_id s ws_raw; pane_number ← n; ws ← as_workspaces s !! ws_idx;
     pane_id ← pane_of_number ws pane_number; Some (ws_idx, pane_id)) = Some (i, p) →
    ∃ w, as_workspaces s !! i = Some w ∧ p ∈ (attached (ws_tabs w)).*1).
  { intros ws_raw n (k & _ & (m & _ & (w & Hk & (q & Hq & [= <- <-])%bind_Some)%bind_Some)%bind_Some)%bind_Some.
    exists w. split; [done|]. eapply pane_of_number_some; [|exact Hq]. by eapply Forall_lookup_1. }
  destruct (_ !! id) as [alias|].
  { intros ([j st] & Hf & [= -> ->])%fmap_Some. by eapply find_pane_some. }
  destruct (strip_prefix "p_" id) as [rest|].
  - destruct (rsplit_once "_" rest) as [[ws_raw pane_raw]|].
    + intros (k & _ & (q & _ & (w & Hk & (st & Hst & [= <- <-])%bind_Some)%bind_Some)%bind_Some)%bind_Some.
      exists w. split; [done|]. by eapply pane_state_pane.
    + intros (q & _ & ([j st] & Hf & [= -> ->])%fmap_Some)%bind_Some. by eapply find_pane_some.
  - destruct (rsplit_once ":p" id) as [[ws_raw n]|]; [by apply Hnum|].
    intros ([ws_raw n] & _ & H)%bind_Some. by eapply Hnum.
Qed.

Lemma parse_tab_id_some s id i j :
  parse_tab_id s id = Some (i, j) → ∃ w t, as_workspaces s !! i = Some w ∧ ws_tabs w !! j = Some t.
Proof.
  unfold parse_tab_id. destruct (strip_prefix "t_" id).
  - intros ([a b] & _ & (k & _ & (m & _ & (w & Hw & (t & Ht & [= <- <-])%bind_Some)%bind_Some)%bind_Some)%bind_Some)%bind_Some.
    by exists w, t.
  - intros ([a b] & _ & (k & _ & (m & _ & (w & Hw & (t & Ht & [= <- <-])%bind_Some)%bind_Some)%bind_Some)%bind_Some)%bind_Some.
    by exists w, t.
Qed.

End quiet.

(** ** Closing *)

Section closing.
Context `{HSpec : HashOrderSpec}.

(** All but what is active and selected *)
Record app_parts (c : Counters) (s : AppState) : Prop := mk_app_parts {
  ap_workspaces : workspaces_ok c (as_workspaces s);
  ap_terminals : terminals_ok s;
  ap_shutdowns : Forall (terminal_named c) (as_terminal_runtime_shutdowns s);
}.

Lemma app_wf_parts c s s' :
  app_parts c s → as_workspaces s' = as_workspaces s → same_terminals s s' →
  navigation_ok (length (as_workspaces s')) (as_active s') (as_selected s') → app_wf c s'.
Proof.
  intros [Hw Ht Hs] Hw' Hsame Hnav. constructor; [by rewrite Hw'|done| |by destruct Hsame as (_ & _ & ->)].
  eapply terminals_ok_same; [exact Ht|done|by rewrite Hw'].
Qed.

Lemma app_parts_close c s s' gone ids :
  app_wf c s → same_terminals s s' → workspaces_ok c (as_workspaces s') →
  all_attached (as_workspaces s) ≡ₚ gone ++ all_attached (as_workspaces s') → (∀ t, t ∈ ids ↔ t ∈ gone.*2) →
  app_parts c (remove_unattached_terminal_ids s' ids).
Proof.
  intros [Hw Hn Ht Hs] Hsame Hok Hatt Hids.
  destruct (remove_unattached_frame s' ids) as (Hfw & Hfa & Hfs & _). destruct (remove_unattached_spec s' ids) as [_ H2].
  cbv zeta in *. constructor; rewrite ?Hfw; [done| |].
  - eapply terminals_ok_close; [exact Ht|done|apply Hw|done..].
  - apply Forall_forall. intros t [Hin|[[Hin _] _]]%H2.
    + destruct Hsame as (_ & _ & Hsh). rewrite Hsh in Hin. rewrite Forall_forall in Hs. by apply Hs.
    + apply Hids in Hin. pose proof (wo_terminals_named _ _ Hw) as Hnamed. rewrite Forall_forall in Hnamed. apply Hnamed.
      rewrite Hatt, fmap_app. apply elem_of_app. by left.
Qed.

Lemma app_wf_shutdown c s : app_wf c s → app_wf c (shutdown_detached_terminal_runtimes s).
Proof. intros [Hw Hn Ht Hs]. constructor; [done|done|by apply terminals_ok_shutdown|done]. Qed.

Lemma app_wf_view c s s' : app_wf c s → same_view s s' → app_wf c s'.
Proof.
  intros [Hw Hn Ht Hs] (Hw' & Hsame & Ha & Hsel). constructor; rewrite ?Hw', ?Ha, ?Hsel; [done|done| |].
  - eapply terminals_ok_same; [exact Ht|done|by rewrite Hw'].
  - by destruct Hsame as (_ & _ & ->).
Qed.

Lemma tabs_terminal_ids tabs t : t ∈ tabs ≫= tab_terminal_ids ↔ t ∈ (attached tabs).*2.
Proof.
  rewrite list_elem_of_bind. split.
  - intros (tab & (pt & -> & Hpt)%elem_of_tab_terminal_ids%list_elem_of_fmap & Htab). apply list_elem_of_fmap_2.
    apply elem_of_attached. by exists tab.
  - intros (pt & -> & (tab & Htab & Hpt)%elem_of_attached)%list_elem_of_fmap. exists tab. split; [|done].
    apply elem_of_tab_terminal_ids. by apply list_elem_of_fmap_2.
Qed.

(** *** Workspaces *)

(** The panes of the workspaces at some positions *)
Definition attached_at (L : list Workspace) (i : nat) : list (PaneId * string) :=
  match L !! i with Some w => attached (ws_tabs w) | None => [] end.

Lemma terminal_ids_at s i t : t ∈ terminal_ids_for_workspace s i ↔ t ∈ (attached_at (as_workspaces s) i).*2.
Proof.
  unfold terminal_ids_for_workspace, attached_at. destruct (as_workspaces s !! i); [apply tabs_terminal_ids|done].
Qed.

Lemma terminal_ids_at_all s l t :
  t ∈ l ≫= terminal_ids_for_workspace s ↔ t ∈ (l ≫= attached_at (as_workspaces s)).*2.
Proof.
  rewrite list_elem_of_bind. split.
  - intros (i & (pt & -> & Hpt)%terminal_ids_at%list_elem_of_fmap & Hi). apply list_elem_of_fmap_2.
    apply list_elem_of_bind. by exists i.
  - intros (pt & -> & (i & Hpt & Hi)%list_elem_of_bind)%list_elem_of_fmap. exists i. split; [|done].
    apply terminal_ids_at. by apply list_elem_of_fmap_2.
Qed.

Lemma vec_remove_some {A} (L : list A) i : i < length L → vec_remove i L = Some (delete i L).
Proof. intros Hi. unfold vec_remove. by rewrite bool_decide_true. Qed.

Lemma workspaces_ok_sublist c L R : R `sublist_of` L → workspaces_ok c L → workspaces_ok c R.
Proof.
  intros Hsub Hok. eapply workspaces_ok_sub; [exact Hok| | |].
  - apply Forall_forall. intros w Hw. assert (Hall := wo_wf _ _ Hok). rewrite Forall_forall in Hall.
    apply Hall. by eapply elem_of_submseteq, sublist_submseteq.
  - by apply fmap_submseteq, sublist_submseteq.
  - unfold all_attached. by apply bind_submseteq, sublist_submseteq.
Qed.

(** Positions are removed from the last on. *)
Lemma remove_each_spec (L : list Workspace) l :
  StronglySorted lt l → Forall (λ i, i < length L) l →
  ∃ R, foldr (λ idx workspaces, workspaces ≫= vec_remove idx) (Some L) l = Some R ∧ R `sublist_of` L
       ∧ all_attached L ≡ₚ (l ≫= attached_at L) ++ all_attached R
       ∧ ∀ j, Forall (λ i, j < i) l → R !! j = L !! j.
Proof.
  induction 1 as [|i l Hs IH Hlt]; intros Hb.
  - exists L. by split_and!.
  - inversion_clear Hb as [|? ? Hi Hb']. destruct (IH Hb') as (R & HR & Hsub & Hatt & Hkeep). cbn [foldr]. rewrite HR.
    cbn [mbind option_bind]. destruct (lookup_lt_is_Some_2 _ _ Hi) as [w Hw].
    assert (HRi : R !! i = Some w) by by rewrite Hkeep. rewrite vec_remove_some by by eapply lookup_lt_Some.
    eexists. split_and!; [done| | |].
    + etrans; [apply sublist_delete|done].
    + rewrite Hatt, (all_attached_lookup R i w HRi). cbn. unfold attached_at at 2. rewrite Hw. solve_Permutation.
    + intros j Hj. inversion_clear Hj as [|? ? Hji Hj']. rewrite list_lookup_delete_lt by done. by apply Hkeep.
Qed.

Lemma members_sorted {A} (f : A → bool) (L : list A) k :
  let l := omap (λ iw, if f iw.2 then Some iw.1 else None) (imap (λ i w, (k + i, w)) L) in
  StronglySorted lt l ∧ Forall (λ i, k ≤ i < k + length L) l.
Proof.
  revert k. induction L as [|w L IH]; intros k; [by split; constructor|]. cbv zeta in *. rewrite imap_cons. cbn [omap list_omap].
  assert (Himap : imap ((λ i w, (k + i, w)) ∘ S) L = imap (λ i w, (S k + i, w)) L).
  { apply imap_ext. intros i x _. cbn. f_equal. lia. }
  rewrite Himap. destruct (IH (S k)) as [Hs Hb].
  assert (Hb' : Forall (λ i, k ≤ i < k + length (w :: L)) (omap (λ iw, if f iw.2 then Some iw.1 else None) (imap (λ i w, (S k + i, w)) L))).
  { eapply Forall_impl; [exact Hb|]. cbn. lia. }
  cbn [snd fst]. destruct (f w); [|by split].
  split; constructor; [done| |cbn; lia|done]. eapply Forall_impl; [exact Hb|]. cbn. lia.
Qed.

Lemma close_indices_spec s :
  as_selected s < length (as_workspaces s) →
  StronglySorted lt (close_indices s) ∧ Forall (λ i, i < length (as_workspaces s)) (close_indices s).
Proof.
  intros Hsel. unfold close_indices.
  assert (Hone : StronglySorted lt [as_selected s] ∧ Forall (λ i, i < length (as_workspaces s)) [as_selected s])
    by (split; by repeat constructor).
  destruct (as_workspaces s !! as_selected s ≫= ws_worktree_space) as [space|]; [|done].
  destruct (negb (sm_is_linked_worktree space) && _); [|done]. unfold group_members.
  destruct (members_sorted (λ w, bool_decide (sm_key <$> ws_worktree_space w = Some (sm_key space))) (as_workspaces s) 0)
    as [H1 H2]. split; [done|]. eapply Forall_impl; [exact H2|]. cbn. lia.
Qed.

Lemma close_indices_selected s : as_selected s < length (as_workspaces s) → as_selected s ∈ close_indices s.
Proof.
  intros [w Hw]%lookup_lt_is_Some_2. unfold close_indices. rewrite Hw. cbn [mbind option_bind].
  destruct (ws_worktree_space w) as [space|] eqn:Hspace; [|by left].
  destruct (negb (sm_is_linked_worktree space) && _); [|by left].
  apply list_elem_of_omap. exists (as_selected s, w). split; [apply elem_of_lookup_imap; by exists (as_selected s), w|].
  cbn. by rewrite Hspace, bool_decide_true.
Qed.

(** The selected workspace goes, with its worktree group. *)
Lemma close_selected_spec c s s0 :
  app_wf c s0 → same_terminals s0 s → as_workspaces s = as_workspaces s0 →
  as_selected s < length (as_workspaces s) →
  ∃ s', close_selected_workspace s = Some s' ∧ app_wf c s' ∧ as_workspaces s' `sublist_of` as_workspaces s
        ∧ all_attached (as_workspaces s)
            ≡ₚ (close_indices s ≫= attached_at (as_workspaces s)) ++ all_attached (as_workspaces s').
Proof.
  intros Hwf Hsame Hws Hsel. unfold close_selected_workspace.
  rewrite bool_decide_false by (intros Hnil; rewrite Hnil in Hsel; cbn in Hsel; lia).
  destruct (close_indices_spec s Hsel) as [Hs Hb]. set (l := close_indices s) in *. clearbody l.
  set (ids := l ≫= terminal_ids_for_workspace s). set (s1 := remove_plugin_pane_records s _).
  assert (Hview : same_view s s1) by apply remove_plugin_view. clearbody s1. destruct Hview as (Hw1 & Ht1 & _ & Hsel1).
  destruct (remove_each_spec (as_workspaces s) l Hs Hb) as (R & HR & Hsub & Hatt & _). rewrite Hw1, HR.
  cbn [mbind option_bind].
  set (s2 := s1 <| as_workspaces := R |>). destruct (remove_unattached_frame s2 ids) as (Hfw & Hfa & Hfs & _). cbv zeta in *.
  assert (Hw2 : as_workspaces s2 = R ∧ same_terminals s0 s2).
  { split; [done|]. etrans; [exact Hsame|]. by etrans. }
  destruct Hw2 as [Hw2 Hsame2]. rewrite Hfw, Hw2.
  assert (Hparts : app_parts c (remove_unattached_terminal_ids s2 ids)).
  { eapply (app_parts_close c s0 _ (l ≫= attached_at (as_workspaces s))); [done..| | |].
    - rewrite Hw2. rewrite Hws in Hsub. eapply workspaces_ok_sublist; [exact Hsub|apply (aw_workspaces _ _ Hwf)].
    - by rewrite <- Hws, Hw2.
    - intros t. apply terminal_ids_at_all. }
  rewrite <- Hw2, <- Hfw in Hsub, Hatt.
  set (s3 := remove_unattached_terminal_ids s2 ids) in *.
  assert (Hlen : length (as_workspaces s3) = length R) by by rewrite Hfw, Hw2. case_bool_decide as Hnil.
  - eexists. split; [reflexivity|]. split; [|split; [exact Hsub|exact Hatt]].
    eapply app_wf_parts; [exact Hparts|done|done|]. change (navigation_ok (length (as_workspaces s3)) None 0).
    by rewrite Hlen, Hnil.
  - assert (length R ≠ 0) by by destruct R.
    case_bool_decide as Hge; eexists; (split; [reflexivity|]); (split; [|split; [exact Hsub|exact Hatt]]);
      (eapply app_wf_parts; [exact Hparts|done|done|]).
    + change (navigation_ok (length (as_workspaces s3)) (Some (length R - 1)) (length R - 1)).
      rewrite Hlen. apply navigation_at. lia.
    + change (navigation_ok (length (as_workspaces s3)) (Some (as_selected s3)) (as_selected s3)).
      rewrite Hlen. apply navigation_at. lia.
Qed.


(** *** Panes *)

Lemma attached_terminal c L i w p t t' :
  workspaces_ok c L → L !! i = Some w → (p, t) ∈ attached (ws_tabs w) → (p, t') ∈ attached (ws_tabs w) → t = t'.
Proof.
  intros Hok Hi H1 H2. assert (Hw : ws_wf c w) by (eapply Forall_lookup_1; [apply Hok|done]).
  assert (Hnd := to_panes _ _ _ (wc_tabs _ _ (ww_core _ _ Hw))).
  apply list_elem_of_lookup in H1 as [a Ha], H2 as [b Hb].
  assert (a = b) as ->; [|congruence]. eapply (NoDup_lookup (attached (ws_tabs w)).*1); [done|..];
    rewrite list_lookup_fmap, ?Ha, ?Hb; done.
Qed.

Lemma terminal_id_of_pane c s i w p t :
  workspaces_ok c (as_workspaces s) → as_workspaces s !! i = Some w → (p, t) ∈ attached (ws_tabs w) →
  terminal_id_for_pane s i p = Some t.
Proof.
  intros Hok Hi Hp. unfold terminal_id_for_pane. rewrite Hi. cbn [mbind option_bind].
  destruct (pane_state_some w p) as [st Hst]; [apply list_elem_of_fmap; by exists (p, t)|].
  rewrite Hst. cbn. f_equal. eapply attached_terminal; [done..|by apply pane_state_attached|done].
Qed.

(** The only pane of a workspace *)
Lemma only_pane c w p i t :
  ws_wf c w → find_tab_index_for_pane w p = Some i → ws_tabs w !! i = Some t →
  pane_count (tb_layout t) ≤ 1 → length (ws_tabs w) ≤ 1 → ∃ id, attached (ws_tabs w) = [(p, id)].
Proof.
  intros Hw Hf Hi Hc Hl. assert (Ht : tab_wf (ct_pane c) t) by (eapply tabs_ok_lookup; [apply Hw|done]).
  destruct (find_tab_index_some _ _ _ _ Hf Hi) as [st Hst].
  destruct (ws_tabs w) as [|t0 [|]]; [done| |cbn in Hl; lia]. destruct i; [|done]. injection Hi as ->.
  exists (pn_attached_terminal_id st). cbn. rewrite app_nil_r. by eapply single_pane.
Qed.

Lemma workspaces_later_set c L i w w' :
  L !! i = Some w → ws_later w w' → workspaces_later c L (<[i := w']> L).
Proof.
  intros Hi Hl. apply workspaces_later_forall2. rewrite <- (list_insert_id L i w Hi) at 1.
  by apply Forall2_insert.
Qed.

Lemma workspaces_later_delete c L i : workspaces_later c L (delete i L).
Proof. apply workspaces_later_part. intros w Hw. eapply elem_of_submseteq; [done|]. apply sublist_submseteq, sublist_delete. Qed.

(** Panes of a workspace with other panes go, with their terminals. *)
Lemma lose_panes c s s' i w w' gone ids :
  app_wf c s → as_workspaces s !! i = Some w → ws_wf c w' → ws_later w w' →
  attached (ws_tabs w) ≡ₚ gone ++ attached (ws_tabs w') → (∀ t, t ∈ ids ↔ t ∈ gone.*2) →
  same_terminals s s' → as_workspaces s' = <[i := w']> (as_workspaces s) →
  as_active s' = as_active s → as_selected s' = as_selected s →
  let s2 := remove_unattached_terminal_ids s' ids in
  app_wf c s2 ∧ all_attached (as_workspaces s) ≡ₚ gone ++ all_attached (as_workspaces s2)
  ∧ workspaces_later c (as_workspaces s) (as_workspaces s2).
Proof.
  intros Hwf Hi Hw' Hlater Hatt Hids Hsame HL Ha Hs s2.
  assert (Hatt' : all_attached (as_workspaces s) ≡ₚ gone ++ all_attached (as_workspaces s')).
  { by rewrite HL, (all_attached_set _ _ _ _ Hi), (all_attached_lookup _ _ _ Hi), Hatt, (assoc app). }
  assert (Hok : workspaces_ok c (as_workspaces s')).
  { rewrite HL. eapply workspaces_ok_set; [exact Hi|apply Hwf|done|apply Hlater|]. rewrite Hatt. by apply submseteq_inserts_l. }
  destruct (remove_unattached_frame s' ids) as (Hfw & Hfa & Hfs & _). cbv zeta in *. fold s2 in Hfw, Hfa, Hfs.
  assert (Hparts : app_parts c s2) by (eapply app_parts_close; [exact Hwf|done|done|exact Hatt'|done]).
  split_and!.
  - eapply app_wf_parts; [exact Hparts|done|done|]. rewrite Hfw, Hfa, Hfs, HL, Ha, Hs. apply navigation_set, Hwf.
  - by rewrite Hfw.
  - rewrite Hfw, HL. by apply (workspaces_later_set c _ _ w).
Qed.

Lemma one_gone (p : PaneId) (t : string) u : u ∈ [t] ↔ u ∈ ([(p, t)] : list (PaneId * string)).*2.
Proof. done. Qed.

Lemma drop_aliases_view s p : same_view s (drop_aliases s p).
Proof. done. Qed.

Lemma clamped_navigation count a sel :
  count ≠ 0 → a < S count → sel < S count →
  navigation_ok count ((λ active, if bool_decide (count ≤ active) then count - 1 else active) <$> Some a)
    (if bool_decide (count ≤ sel) then count - 1 else sel).
Proof.
  intros Hc Ha Hs. destruct count as [|count]; [done|]. split.
  - eexists. split; [reflexivity|]. case_bool_decide; lia.
  - case_bool_decide; lia.
Qed.

(** The end of a process takes its pane and its terminal, and a workspace that
    has no other pane. *)
Lemma handle_pane_died_spec c s p :
  app_wf c s →
  ∃ s', handle_pane_died s p = Some s' ∧ app_wf c s' ∧ workspaces_later c (as_workspaces s) (as_workspaces s')
        ∧ if bool_decide (p ∈ (all_attached (as_workspaces s)).*1)
          then ∃ t, all_attached (as_workspaces s) ≡ₚ (p, t) :: all_attached (as_workspaces s')
          else as_workspaces s' = as_workspaces s.
Proof.
  intros Hwf0. unfold handle_pane_died. cbv zeta. set (s0 := remove_plugin_pane_records s [p]).
  assert (Hview : same_view s s0) by apply remove_plugin_view. clearbody s0.
  assert (Hwf : app_wf c s0) by by eapply app_wf_view. destruct Hview as (HL & _). rewrite <- HL. clear Hwf0 HL.
  destruct (list_find _ _) as [[i w]|] eqn:Hfind.
  2:{ exists s0. split_and!; [done..|apply workspaces_later_refl|]. rewrite bool_decide_false; [done|].
      intros (w & Hw & Hp)%all_attached_pane. rewrite list_find_None, Forall_forall in Hfind.
      apply (Hfind w Hw). destruct (find_tab_index_for_pane w p) eqn:Hf; [by eexists|].
      by apply find_tab_index_none in Hf. }
  apply list_find_Some in Hfind as (Hi & [j Hj] & _).
  assert (Hw : ws_wf c w) by (eapply Forall_lookup_1; [apply Hwf|done]).
  assert (Hp : p ∈ (attached (ws_tabs w)).*1).
  { apply dec_stable. intros Hp%find_tab_index_none. congruence. }
  rewrite bool_decide_true by (apply all_attached_pane; exists w; split; [by eapply list_elem_of_lookup_2|done]).
  destruct (ws_close_pane_spec c w p Hw Hp) as (j' & t & Hj' & Ht & Hclose).
  case_eq (bool_decide (pane_count (tb_layout t) ≤ 1) && bool_decide (length (ws_tabs w) ≤ 1)); intros Hone; rewrite Hone in Hclose.
  - rewrite Hclose. cbn [mbind option_bind].
    apply andb_true_iff in Hone as [H1%bool_decide_eq_true H2%bool_decide_eq_true].
    destruct (only_pane c w p j' t Hw Hj' Ht H1 H2) as [id Hatt].
    set (s1 := set_workspace (drop_aliases s0 p) i w <| as_workspaces ::= delete i |>).
    assert (Hs1 : as_workspaces s1 = delete i (as_workspaces s0) ∧ same_terminals s0 s1
                  ∧ as_active s1 = as_active s0 ∧ as_selected s1 = as_selected s0).
    { split_and!; [|done..]. change (delete i (<[i := w]> (as_workspaces s0)) = delete i (as_workspaces s0)).
      by rewrite list_insert_id. }
    set (ids := terminal_ids_for_workspace s0 i). clearbody s1. destruct Hs1 as (HL1 & Hsame1 & Ha1 & Hsel1).
    assert (Hatt' : all_attached (as_workspaces s0) ≡ₚ [(p, id)] ++ all_attached (as_workspaces s1)).
    { by rewrite HL1, (all_attached_lookup _ _ _ Hi), Hatt. }
    assert (Hparts : app_parts c (remove_unattached_terminal_ids s1 ids)).
    { eapply app_parts_close; [exact Hwf|done| |exact Hatt'|].
      - rewrite HL1. apply workspaces_ok_delete, Hwf.
      - intros u. subst ids. rewrite terminal_ids_at. unfold attached_at. rewrite Hi, Hatt. done. }
    destruct (remove_unattached_frame s1 ids) as (Hfw & Hfa & Hfs & _). cbv zeta in *. rewrite Hfw, HL1.
    set (s2 := remove_unattached_terminal_ids s1 ids) in *.
    pose proof (aw_navigation _ _ Hwf) as Hnav.
    assert (Hlen : S (length (delete i (as_workspaces s0))) = length (as_workspaces s0)).
    { rewrite length_delete by by eexists. apply lookup_lt_Some in Hi. lia. }
    rewrite <- Hlen in Hnav. destruct Hnav as [(a & Ha & Halt) Hsel].
    case_bool_decide as Hnil.
    + eexists. split; [reflexivity|]. split_and!.
      * eapply app_wf_parts; [exact Hparts|done|done|].
        change (navigation_ok (length (as_workspaces s2)) None 0). by rewrite Hfw, HL1, Hnil.
      * change (workspaces_later c (as_workspaces s0) (as_workspaces s2)). rewrite Hfw, HL1. apply workspaces_later_delete.
      * exists id. change (all_attached (as_workspaces s0) ≡ₚ (p, id) :: all_attached (as_workspaces s2)). by rewrite Hfw.
    + eexists. split; [reflexivity|]. split_and!.
      * eapply app_wf_parts; [exact Hparts|done|done|].
        match goal with |- navigation_ok _ (as_active ?s') _ =>
          change (navigation_ok (length (as_workspaces s2))
                    (fmap (λ active, if bool_decide (length (delete i (as_workspaces s0)) ≤ active)
                                     then length (delete i (as_workspaces s0)) - 1 else active) (as_active s2))
                    (if bool_decide (length (delete i (as_workspaces s0)) ≤ as_selected s2)
                     then length (delete i (as_workspaces s0)) - 1 else as_selected s2)) end.
        rewrite Hfw, HL1, Hfa, Ha1, Ha, Hfs, Hsel1. apply clamped_navigation; [|lia|lia].
        by destruct (delete i (as_workspaces s0)).
      * change (workspaces_later c (as_workspaces s0) (as_workspaces s2)). rewrite Hfw, HL1. apply workspaces_later_delete.
      * exists id. change (all_attached (as_workspaces s0) ≡ₚ (p, id) :: all_attached (as_workspaces s2)). by rewrite Hfw.
  - destruct Hclose as (w' & id & -> & Hw' & Hkept & Hatt). cbn [mbind option_bind].
    rewrite (terminal_id_of_pane c s0 i w p id); [|apply Hwf|done|rewrite Hatt; by left].
    destruct (lose_panes c s0 (set_workspace (drop_aliases s0 p) i w') i w w' [(p, id)] [id]) as (Hwf' & Hatt' & Hlater);
      [done|done|done|by apply numbers_kept_later|done|apply one_gone|done..|].
    eexists. split; [reflexivity|]. split_and!; [exact Hwf'|exact Hlater|by exists id].
Qed.

End closing.

(** ** Opening *)

(** The counters do not run over. *)
Record room (c : Counters) (s : AppState) : Prop := mk_room {
  rm_pane : (ct_pane c + 1 < 2 ^ 32)%N;
  rm_terminal : (ct_terminal c + 1 < 2 ^ 64)%N;
  rm_workspace : (0 < ct_workspace c)%N ∧ (ct_workspace c + 1 < 2 ^ 64)%N;
  rm_numbers : Forall (λ w, ws_next_public_tab_number w + 1 < 2 ^ 64 ∧ ws_next_public_pane_number w + 1 < 2 ^ 64)%N
                 (as_workspaces s);
}.

(** A terminal that the counters give out now *)
Lemma terminal_alloc c micros c' tid :
  clock_ok micros → (ct_terminal c + 1 < 2 ^ 64)%N → TerminalId_alloc c micros = (c', tid) →
  counters_le c c' ∧ ct_pane c' = ct_pane c ∧ ct_workspace c' = ct_workspace c
  ∧ terminal_named c' tid ∧ ¬ terminal_named c tid.
Proof.
  intros Hm Hc Ha. injection Ha as Hc' Htid. change (terminal_id_of micros (ct_terminal c) = tid) in Htid. subst tid.
  assert (Hfields : ct_terminal c' = (ct_terminal c + 1)%N ∧ ct_pane c' = ct_pane c ∧ ct_workspace c' = ct_workspace c).
  { subst c'. cbn. by rewrite N.mod_small. }
  clear Hc'. destruct Hfields as (Ht & Hp & Hw). unfold counters_le. split_and!; [lia|lia|lia|done|done| |].
  - exists micros, (ct_terminal c). split_and!; [done|lia|done].
  - intros (m & n & Hm' & Hn & Heq). apply (terminal_id_inj _ _ _ _ Hm Hm') in Heq. lia.
Qed.

Lemma all_attached_taken c L p : Forall (ws_wf c) L → p ∈ (all_attached L).*1 → (p < ct_pane c)%N.
Proof.
  intros Hwf (w & Hw & Hp)%all_attached_pane. rewrite Forall_forall in Hwf.
  eapply tabs_ok_taken; [apply Hwf|exact Hp]. done.
Qed.

(** A workspace has a new pane with a terminal that has just been started. *)
Lemma gain_pane c c' s s' i w w' tid terminal :
  app_wf c s → as_workspaces s !! i = Some w → ws_wf c' w' → ws_later w w' → counters_le c c' →
  tm_id terminal = tid → terminal_named c' tid → ¬ terminal_named c tid →
  attached (ws_tabs w') ≡ₚ (ct_pane c, tid) :: attached (ws_tabs w) →
  same_terminals s s' → as_workspaces s' = <[i := w']> (as_workspaces s) →
  navigation_ok (length (as_workspaces s')) (as_active s') (as_selected s') →
  let s2 := s' <| as_terminal_runtimes ::= λ ids, {[tm_id terminal]} ∪ ids |>
               <| as_terminals ::= <[tm_id terminal := terminal]> |> in
  app_wf c' s2 ∧ all_attached (as_workspaces s2) ≡ₚ (ct_pane c, tid) :: all_attached (as_workspaces s)
  ∧ workspaces_later c (as_workspaces s) (as_workspaces s2).
Proof.
  intros Hwf Hi Hw' Hlater Hle Hid Hnamed Hnew Hatt Hsame HL Hnav s2.
  pose proof Hwf as [Hok _ Hterms Hshut].
  assert (Hatt' : all_attached (as_workspaces s') ≡ₚ (ct_pane c, tid) :: all_attached (as_workspaces s)).
  { by rewrite HL, (all_attached_set _ _ _ _ Hi), (all_attached_lookup _ _ _ Hi), Hatt. }
  assert (Hok' : workspaces_ok c' (as_workspaces s')).
  { eapply workspaces_ok_gain; [by eapply workspaces_ok_mono| | |exact Hatt'| | |done].
    - rewrite HL. apply set_wf; [|done]. eapply Forall_impl; [apply Hok|]. intros v. apply ws_wf_mono, Hle.
    - by rewrite HL, (set_ids _ _ _ _ Hi (wl_id _ _ Hlater)).
    - intros Hp%(all_attached_taken c); [lia|apply Hok].
    - intros Ht. apply Hnew. pose proof (wo_terminals_named _ _ Hok) as Hall. rewrite Forall_forall in Hall. by apply Hall. }
  split_and!; [constructor|done|].
  - done.
  - done.
  - rewrite <- Hid in Hatt'. eapply terminals_ok_open; [exact Hterms|done|exact Hatt'|].
    rewrite Hid. intros Ht. rewrite Forall_forall in Hshut. by apply Hnew, Hshut.
  - destruct Hsame as (_ & _ & Hsh). change (Forall (terminal_named c') (as_terminal_runtime_shutdowns s')). rewrite Hsh.
    eapply Forall_impl; [exact Hshut|]. intros t. by apply terminal_named_mono.
  - change (workspaces_later c (as_workspaces s) (as_workspaces s')). rewrite HL. by apply (workspaces_later_set c _ _ w).
Qed.

(** *** The order of workspaces *)

Lemma position_of (L : list Workspace) w :
  NoDup (ws_id <$> L) → w ∈ L → ∃ j, fst <$> list_find (λ v, ws_id v = ws_id w) L = Some j ∧ L !! j = Some w.
Proof.
  intros Hnd (i & Hi)%list_elem_of_lookup. destruct (list_find (λ v, ws_id v = ws_id w) L) as [[j v]|] eqn:Hf.
  - apply list_find_Some in Hf as (Hj & Hid & _). exists j. split; [done|].
    assert (i = j) as <-; [|congruence]. 
    eapply (NoDup_lookup (ws_id <$> L) i j (ws_id w)); [done| |]; rewrite list_lookup_fmap; [by rewrite Hi|].
    rewrite Hj. cbn. by f_equal.
  - rewrite list_find_None, Forall_forall in Hf. exfalso. apply (Hf w); [|done]. by eapply list_elem_of_lookup_2.
Qed.

(** Workspaces change places; the same ones stay active and selected. *)
Lemma move_workspace_spec c s source insert :
  app_wf c s →
  ∃ s' moved, move_workspace s source insert = Some (s', moved) ∧ app_wf c s' ∧ as_workspaces s' ≡ₚ as_workspaces s
    ∧ (as_active s' ≫= λ i, as_workspaces s' !! i) = (as_active s ≫= λ i, as_workspaces s !! i)
    ∧ as_workspaces s' !! as_selected s' = as_workspaces s !! as_selected s.
Proof.
  intros Hwf. unfold move_workspace. destruct (as_workspaces s !! source) as [w|] eqn:Hi; [|by exists s, false].
  case_bool_decide; [by exists s, false|]. cbv zeta. set (target := if bool_decide (source < insert) then insert - 1 else insert).
  case_bool_decide; [by exists s, false|]. clearbody target.
  set (L := insert_at target w (delete source (as_workspaces s))).
  assert (Hperm : L ≡ₚ as_workspaces s).
  { subst L. rewrite insert_at_perm. symmetry. by apply delete_Permutation. }
  assert (Hok : workspaces_ok c L) by (eapply workspaces_ok_perm; [by symmetry|apply Hwf]).
  pose proof (aw_navigation _ _ Hwf) as Hnav. pose proof (lookup_lt_Some _ _ _ Hi) as Hlen.
  destruct (length (as_workspaces s)) as [|count] eqn:Hcount; [lia|]. destruct Hnav as [(a & Ha & Halt) Hsel].
  rewrite Ha. rewrite <- Hcount in Halt, Hsel.
  destruct (lookup_lt_is_Some_2 _ _ Halt) as [wa Hwa], (lookup_lt_is_Some_2 _ _ Hsel) as [wsel Hwsel].
  rewrite Hwa, Hwsel. cbn [fmap option_fmap option_map mbind option_bind].
  assert (Hin : ∀ i v, as_workspaces s !! i = Some v → v ∈ L).
  { intros i v Hv. rewrite Hperm. by eapply list_elem_of_lookup_2. }
  destruct (position_of L wa) as (ja & Hja & Hja'); [apply Hok|by eapply Hin|].
  destruct (position_of L wsel) as (js & Hjs & Hjs'); [apply Hok|by eapply Hin|].
  rewrite Hja, Hjs. cbn [default from_option id].
  eexists _, true. split; [reflexivity|]. split_and!; [|done|cbn; congruence|cbn; congruence].
  destruct Hwf as [_ _ Ht Hs]. constructor; [done| |eapply terminals_ok_same; [exact Ht|done|by apply all_attached_perm]|done].
  unfold update; cbn. apply Permutation_length in Hperm. rewrite Hperm, Hcount. split.
  - exists ja. split; [done|]. rewrite <- Hcount, <- Hperm. by eapply lookup_lt_Some.
  - rewrite <- Hcount, <- Hperm. by eapply lookup_lt_Some.
Qed.
