(* ===== verification/PaneApi.v ===== *)
(** * Requests for workspaces, tabs and panes ([src/src/app/api/panes.rs],
    [src/src/app/api/tabs.rs], [src/src/app/api/workspaces.rs],
    [src/src/app/api/env.rs], [src/src/app/creation.rs])

    A request answers with a result or with the code of an error; [None] is a panic
    of the server.  What is sent to subscribers, and of the answers all but
    identifiers, focus and changes, is left out. *)

From S2P Require Export Panes.

(** ** Where and how processes start *)

Module NewTerminalCwdConfig.
Inductive NewTerminalCwdConfig := Follow | Home | Current | Path (path : string).
End NewTerminalCwdConfig.
Abbreviation NewTerminalCwdConfig := NewTerminalCwdConfig.NewTerminalCwdConfig.

(** What a request is handled with: the home and the working directory of the
    server, the directories of running terminals, the configured policy, whether
    the interface is in its navigation mode, and how a start ends *)
Record LaunchHost := mkLaunchHost {
  lh_home : option string;
  lh_current_dir : option string;
  lh_dirs : RuntimeDirs;
  lh_new_cwd : NewTerminalCwdConfig;
  lh_navigating : bool;
  lh_spawn : Spawn;
}.

(** [PathBuf::join] *)
Definition path_join (base path : string) : string :=
  if path_is_absolute path || str_is_empty base then path
  else if bool_decide (last (str_bytes base) = Some "/"%char) then base +:+ path
  else base +:+ "/" +:+ path.

(** On Unix *)
Definition expand_tilde_path (home : option string) (path : string) : string :=
  if bool_decide (path = "~") then default path home
  else
    match strip_prefix "~/" path with
    | Some rest => match home with Some home => path_join home rest | None => path end
    | None => path
    end.

Definition first_of (os : list (option string)) (fallback : string) : string :=
  default fallback (head (omap id os)).

Definition resolve_new_terminal_cwd (host : LaunchHost) (follow_cwd : option string) : string :=
  match lh_new_cwd host with
  | NewTerminalCwdConfig.Follow => first_of [follow_cwd; lh_home host; lh_current_dir host] "/"
  | NewTerminalCwdConfig.Home => first_of [lh_home host; lh_current_dir host] "/"
  | NewTerminalCwdConfig.Current => default "/" (lh_current_dir host)
  | NewTerminalCwdConfig.Path path => expand_tilde_path (lh_home host) path
  end.

(** ** Answers *)

Record ApiPaneInfo := mkApiPaneInfo {
  ap_pane_id : string;
  ap_terminal_id : string;
  ap_workspace_id : string;
  ap_tab_id : string;
  ap_focused : bool;
}.

Record ApiTabInfo := mkApiTabInfo {
  at_tab_id : string;
  at_workspace_id : string;
  at_number : N;
  at_label : string;
  at_focused : bool;
  at_pane_count : nat;
}.

Record ApiWorkspaceInfo := mkApiWorkspaceInfo {
  aw_workspace_id : string;
  aw_number : nat;
  aw_focused : bool;
  aw_pane_count : nat;
  aw_tab_count : nat;
  aw_active_tab_id : string;
}.

Record PaneLayoutSnapshot := mkPaneLayoutSnapshot {
  pl_workspace_id : string;
  pl_tab_id : string;
  pl_zoomed : bool;
  pl_focused_pane_id : string;
}.

Module PaneMoveReason.
Inductive PaneMoveReason := ZoomedTab | SameTab.
End PaneMoveReason.
Abbreviation PaneMoveReason := PaneMoveReason.PaneMoveReason.

Record PaneMoveResult := mkPaneMoveResult {
  pm_changed : bool;
  pm_reason : option PaneMoveReason;
  pm_previous_pane_id : string;
  pm_previous_workspace_id : string;
  pm_previous_tab_id : string;
  pm_pane : ApiPaneInfo;
  pm_source_layout : option PaneLayoutSnapshot;
  pm_target_layout : PaneLayoutSnapshot;
  pm_created_workspace : option ApiWorkspaceInfo;
  pm_created_tab : option ApiTabInfo;
  pm_closed_workspace_id : option string;
  pm_closed_tab_id : option string;
}.

Module ResponseResult.
Inductive ResponseResult :=
  | Ok_
  | PaneInfo (pane : ApiPaneInfo)
  | PaneZoom (outcome : PaneZoomOutcome) (layout : PaneLayoutSnapshot)
  | PaneMove (move_result : PaneMoveResult)
  | TabInfo (tab : ApiTabInfo)
  | TabCreated (tab : ApiTabInfo) (root_pane : ApiPaneInfo)
  | TabList (tabs : list ApiTabInfo)
  | WorkspaceInfo (workspace : ApiWorkspaceInfo)
  | WorkspaceCreated (workspace : ApiWorkspaceInfo) (tab : ApiTabInfo) (root_pane : ApiPaneInfo)
  | WorkspaceList (workspaces : list ApiWorkspaceInfo).
End ResponseResult.
Abbreviation ResponseResult := ResponseResult.ResponseResult.

(** [encode_error], by its code, or [encode_success] *)
Abbreviation Answer := (result string ResponseResult).

(** ** Destinations of a move *)

Module PaneMoveDestination.
Inductive PaneMoveDestination :=
  | Tab (tab_id : string) (target_pane_id : option string) (split : Direction) (ratio : option f32)
  | NewTab (workspace_id : option string) (label : option string)
  | NewWorkspace (label tab_label : option string).
End PaneMoveDestination.
Abbreviation PaneMoveDestination := PaneMoveDestination.PaneMoveDestination.

Module ResolvedPaneMoveDestination.
Inductive ResolvedPaneMoveDestination :=
  | ExistingTab (tab_id : string) (target_pane_id : PaneId) (split : Direction) (ratio : f32) (cross_workspace : bool)
  | NewTab (workspace_id : string) (label : option string)
  | NewWorkspace (label tab_label : option string).
End ResolvedPaneMoveDestination.
Abbreviation ResolvedPaneMoveDestination := ResolvedPaneMoveDestination.ResolvedPaneMoveDestination.

Record PaneMoveRecoveryContext := mkPaneMoveRecoveryContext {
  rc_source_ws_idx : nat;
  rc_previous_workspace_id : string;
  rc_previous_workspace_label : option string;
  rc_previous_tab_label : option string;
  rc_previous_worktree_space : option WorktreeSpaceMembership;
  rc_identity_cwd : string;
}.

(** ** Requests *)

Module Request.
Inductive Request :=
  | WorkspaceCreate (cwd label : option string) (focus : bool) (env : gmap string string)
  | WorkspaceFocus (workspace_id : string)
  | WorkspaceRename (workspace_id label : string)
  | WorkspaceMove (workspace_id : string) (insert_index : nat)
  | WorkspaceClose (workspace_id : string)
  | TabCreate (workspace_id cwd label : option string) (focus : bool) (env : gmap string string)
  | TabFocus (tab_id : string)
  | TabRename (tab_id label : string)
  | TabMove (tab_id : string) (insert_index : nat)
  | TabClose (tab_id : string)
  | PaneSplit (target_pane_id workspace_id : option string) (direction : Direction) (ratio : option f32)
      (cwd : option string) (focus : bool) (env : gmap string string)
  | PaneFocus (pane_id : string)
  | PaneZoom (pane_id : option string) (command : PaneZoomCommand)
  | PaneMove (pane_id : string) (destination : PaneMoveDestination) (focus : bool)
  | PaneClose (pane_id : string).
End Request.
Abbreviation Request := Request.Request.

Section api.
Context `{HOrder : HashOrder}.

(** ** Environments *)

(** The first entry that is refused, in the order of the map, decides. *)
Definition valid_env_entry (kv : string * string) : bool :=
  negb (str_is_empty kv.1) && negb (str_contains "=" kv.1) && negb (str_contains "000" kv.1)
    && negb (str_contains "000" kv.2).

Definition normalize_launch_env (env : gmap string string) : result string (list (string * string)) :=
  if forallb valid_env_entry (hash_entries env) then Ok (merge_sort (key_order String.le) (hash_entries env))
  else Err "invalid_env".

(** ** Where a new process runs *)

Definition follow_cwd_for_pane_in_workspace (host : LaunchHost) (s : AppState) (ws_idx : nat) (pane_id : PaneId) :
    option string :=
  ws ← as_workspaces s !! ws_idx;
  tab_idx ← find_tab_index_for_pane ws pane_id;
  tab ← ws_tabs ws !! tab_idx;
  follow_cwd_for_pane tab pane_id (as_terminals s) (lh_dirs host).

Definition focused_pane_cwd_in_workspace (host : LaunchHost) (s : AppState) (ws_idx : nat) : option string :=
  ws ← as_workspaces s !! ws_idx;
  pane_id ← focused_pane_id ws;
  follow_cwd_for_pane_in_workspace host s ws_idx pane_id.

Definition seed_cwd_from_workspace (host : LaunchHost) (s : AppState) (ws_idx : nat) : option string :=
  (λ ws, resolved_identity_cwd_from ws (as_terminals s) (lh_dirs host)) <$> as_workspaces s !! ws_idx.

Definition workspace_creation_source (host : LaunchHost) (s : AppState) : option nat :=
  let selected := (λ _, as_selected s) <$> as_workspaces s !! as_selected s in
  match lh_navigating host, selected with
  | true, Some idx => Some idx
  | _, _ => match as_active s with Some idx => Some idx | None => selected end
  end.

(** ** What is said of panes and tabs *)

Definition pane_info (s : AppState) (ws_idx : nat) (pane_id : PaneId) : option ApiPaneInfo :=
  ws ← as_workspaces s !! ws_idx;
  pane ← pane_state ws pane_id;
  terminal ← as_terminals s !! pn_attached_terminal_id pane;
  tab_idx ← find_tab_index_for_pane ws pane_id;
  public ← public_pane_id s ws_idx pane_id;
  tab_id ← public_tab_id s ws_idx tab_idx;
  let focused := bool_decide (as_active s = Some ws_idx) && bool_decide (ws_active_tab ws = tab_idx)
                   && bool_decide (focused_pane_id ws = Some pane_id) in
  Some (mkApiPaneInfo public (tm_id terminal) (ws_id ws) tab_id focused).

Definition pane_layout_snapshot (s : AppState) (ws_idx tab_idx : nat) : option PaneLayoutSnapshot :=
  ws ← as_workspaces s !! ws_idx;
  tab ← ws_tabs ws !! tab_idx;
  focused_pane_id ← public_pane_id s ws_idx (tl_focus (tb_layout tab));
  tab_id ← public_tab_id s ws_idx tab_idx;
  Some (mkPaneLayoutSnapshot (ws_id ws) tab_id (tb_zoomed tab) focused_pane_id).

Definition root_pane_info (s : AppState) (ws_idx tab_idx : nat) : option ApiPaneInfo :=
  ws ← as_workspaces s !! ws_idx;
  tab ← ws_tabs ws !! tab_idx;
  pane_info s ws_idx (tb_root_pane tab).

Definition tab_info (s : AppState) (ws_idx tab_idx : nat) : option ApiTabInfo :=
  ws ← as_workspaces s !! ws_idx;
  tab ← ws_tabs ws !! tab_idx;
  tab_id ← public_tab_id s ws_idx tab_idx;
  label ← tab_display_name ws tab_idx;
  let focused := bool_decide (as_active s = Some ws_idx) && bool_decide (ws_active_tab ws = tab_idx) in
  Some (mkApiTabInfo tab_id (ws_id ws) (tb_number tab) label focused (size (tb_panes tab))).

Definition tab_list_info (s : AppState) (ws_idx : nat) : list ApiTabInfo :=
  match as_workspaces s !! ws_idx with
  | Some ws => omap (tab_info s ws_idx) (seq 0 (length (ws_tabs ws)))
  | None => []
  end.

Definition workspace_info (s : AppState) (index : nat) : option ApiWorkspaceInfo :=
  ws ← as_workspaces s !! index;
  Some (mkApiWorkspaceInfo (ws_id ws) (index + 1) (bool_decide (as_active s = Some index))
          (size (ws_public_pane_numbers ws)) (length (ws_tabs ws))
          (default (public_tab_id_for_number (ws_id ws) (N.of_nat (ws_active_tab ws) + 1))
             (public_tab_id s index (ws_active_tab ws)))).

Definition workspace_list_info (s : AppState) : list ApiWorkspaceInfo :=
  omap (workspace_info s) (seq 0 (length (as_workspaces s))).

Definition workspace_created_result (s : AppState) (ws_idx : nat) : option ResponseResult :=
  workspace ← workspace_info s ws_idx;
  tab ← tab_info s ws_idx 0;
  root_pane ← root_pane_info s ws_idx 0;
  Some (ResponseResult.WorkspaceCreated workspace tab root_pane).

Definition tab_created_result (s : AppState) (ws_idx tab_idx : nat) : option ResponseResult :=
  tab ← tab_info s ws_idx tab_idx;
  root_pane ← root_pane_info s ws_idx tab_idx;
  Some (ResponseResult.TabCreated tab root_pane).

(** ** Creating *)

(** A terminal that runs *)
Definition insert_terminal (s : AppState) (terminal : TerminalState) : AppState :=
  s <| as_terminal_runtimes ::= λ ids, {[tm_id terminal]} ∪ ids |>
    <| as_terminals ::= <[tm_id terminal := terminal]> |>.

(** Whether it started, and where *)
Definition create_workspace_with_launch_env (c : Counters) (s : AppState) (initial_cwd : string) (focus : bool)
    (extra_env : list (string * string)) (spawn : Spawn) : Counters * AppState * option nat :=
  let '(c, made) := Workspace_new_with_tab c initial_cwd None extra_env spawn in
  match made with
  | None => (c, s, None)
  | Some (ws, new_pane) =>
      let s := insert_terminal s (np_terminal new_pane) <| as_workspaces ::= λ workspaces, workspaces ++ [ws] |> in
      let idx := length (as_workspaces s) - 1 in
      let s := remove_alias_shadowed_by_new_pane s (np_pane_id new_pane) in
      (c, if focus || bool_decide (as_active s = None) then switch_workspace s idx else s, Some idx)
  end.

Definition update_workspace (s : AppState) (ws_idx : nat) (f : Workspace → Workspace) : AppState :=
  s <| as_workspaces ::= alter f ws_idx |>.

Definition handle_workspace_create (c : Counters) (s : AppState) (host : LaunchHost) (cwd label : option string)
    (focus : bool) (env : gmap string string) : option (Counters * AppState * Answer) :=
  let cwd :=
    match cwd with
    | Some cwd => cwd
    | None =>
        resolve_new_terminal_cwd host
          (workspace_creation_source host s ≫= λ ws_idx,
             match focused_pane_cwd_in_workspace host s ws_idx with
             | Some cwd => Some cwd
             | None => seed_cwd_from_workspace host s ws_idx
             end)
    end in
  match normalize_launch_env env with
  | Err code => Some (c, s, Err code)
  | Ok extra_env =>
      let '(c, s, made) := create_workspace_with_launch_env c s cwd focus extra_env (lh_spawn host) in
      match made with
      | None => Some (c, s, Err "workspace_create_failed")
      | Some index =>
          let s := match label with
                   | Some label => update_workspace s index (λ ws, ws_set_custom_name ws label)
                   | None => s
                   end in
          created ← workspace_created_result s index;
          Some (c, s, Ok created)
      end
  end.

Definition handle_tab_create (c : Counters) (s : AppState) (host : LaunchHost) (workspace_id cwd label : option string)
    (focus : bool) (env : gmap string string) : option (Counters * AppState * Answer) :=
  match (match workspace_id with Some id => parse_workspace_id s id | None => as_active s end) with
  | None => Some (c, s, Err "workspace_not_found")
  | Some ws_idx =>
      let cwd := match cwd with
                 | Some cwd => cwd
                 | None => resolve_new_terminal_cwd host (focused_pane_cwd_in_workspace host s ws_idx)
                 end in
      match normalize_launch_env env with
      | Err code => Some (c, s, Err code)
      | Ok extra_env =>
          match as_workspaces s !! ws_idx with
          | None => Some (c, s, Err "tab_create_failed")
          | Some ws =>
              '(c, ws, made) ← create_tab_with_runtime c ws cwd None extra_env (lh_spawn host);
              let s := set_workspace s ws_idx ws in
              match made with
              | None => Some (c, s, Err "tab_create_failed")
              | Some (tab_idx, new_pane) =>
                  let s := remove_alias_shadowed_by_new_pane (insert_terminal s (np_terminal new_pane))
                             (np_pane_id new_pane) in
                  let s := match label with
                           | Some label => update_tab s ws_idx tab_idx (λ tab, tab_set_custom_name tab label)
                           | None => s
                           end in
                  let s := if focus then (switch_workspace_tab s ws_idx tab_idx).1 else s in
                  created ← tab_created_result s ws_idx tab_idx;
                  Some (c, s, Ok created)
              end
          end
      end
  end.

(** The pane a request is about when it names none *)
Definition focused_pane_of (s : AppState) (ws_idx : nat) : option (nat * PaneId) :=
  ws ← as_workspaces s !! ws_idx;
  pane_id ← focused_pane_id ws;
  Some (ws_idx, pane_id).

Definition resolve_optional_pane (s : AppState) (pane_id : option string) : option (nat * PaneId) :=
  match pane_id with Some pane_id => parse_pane_id s pane_id | None => as_active s ≫= focused_pane_of s end.

Definition handle_pane_split (c : Counters) (s : AppState) (host : LaunchHost)
    (target_pane_id workspace_id : option string) (direction : Direction) (ratio : option f32) (cwd : option string)
    (focus : bool) (env : gmap string string) : option (Counters * AppState * Answer) :=
  let target := match target_pane_id, workspace_id with
                | Some id, _ => parse_pane_id s id
                | None, Some id => parse_workspace_id s id ≫= focused_pane_of s
                | None, None => as_active s ≫= focused_pane_of s
                end in
  match target with
  | None => Some (c, s, Err "pane_not_found")
  | Some (ws_idx, target_pane_id) =>
      match normalize_launch_env env with
      | Err code => Some (c, s, Err code)
      | Ok extra_env =>
          let split_cwd :=
            match cwd with
            | Some cwd => cwd
            | None => resolve_new_terminal_cwd host (follow_cwd_for_pane_in_workspace host s ws_idx target_pane_id)
            end in
          let previous_focus := current_pane_focus_target s in
          match as_workspaces s !! ws_idx with
          | None => Some (c, s, Err "pane_not_found")
          | Some ws =>
              '(c, ws, made) ← split_pane_with_runtime c ws target_pane_id direction ratio (Some split_cwd) "/" None
                                extra_env focus (lh_spawn host);
              let s := set_workspace s ws_idx ws in
              match made with
              | None => Some (c, s, Err "pane_not_found")
              | Some None => Some (c, s, Err "pane_split_failed")
              | Some (Some (target_tab_idx, new_pane)) =>
                  let s := if focus : bool
                           then record_pane_focus_change (switch_workspace_tab s ws_idx target_tab_idx).1 previous_focus
                                  ws_idx (np_pane_id new_pane)
                           else s in
                  let s := insert_terminal (remove_alias_shadowed_by_new_pane s (np_pane_id new_pane))
                             (np_terminal new_pane) in
                  pane ← pane_info s ws_idx (np_pane_id new_pane);
                  Some (c, s, Ok (ResponseResult.PaneInfo pane))
              end
          end
      end
  end.
(** ** Workspaces and tabs that exist *)

Definition workspace_answer (s : AppState) (index : nat) : option (AppState * Answer) :=
  info ← workspace_info s index;
  Some (s, Ok (ResponseResult.WorkspaceInfo info)).

Definition tab_answer (s : AppState) (ws_idx tab_idx : nat) : option (AppState * Answer) :=
  info ← tab_info s ws_idx tab_idx;
  Some (s, Ok (ResponseResult.TabInfo info)).

(** A workspace that a request names and that is there *)
Definition named_workspace (s : AppState) (workspace_id : string) : option (nat * Workspace) :=
  index ← parse_workspace_id s workspace_id;
  pair index <$> as_workspaces s !! index.

Definition handle_workspace_focus (s : AppState) (workspace_id : string) : option (AppState * Answer) :=
  match named_workspace s workspace_id with
  | None => Some (s, Err "workspace_not_found")
  | Some (index, _) => workspace_answer (switch_workspace s index) index
  end.

Definition handle_workspace_rename (s : AppState) (workspace_id label : string) : option (AppState * Answer) :=
  match named_workspace s workspace_id with
  | None => Some (s, Err "workspace_not_found")
  | Some (index, _) => workspace_answer (update_workspace s index (λ ws, ws_set_custom_name ws label)) index
  end.

Definition handle_workspace_move (s : AppState) (workspace_id : string) (insert_index : nat) :
    option (AppState * Answer) :=
  match named_workspace s workspace_id with
  | None => Some (s, Err "workspace_not_found")
  | Some (index, _) =>
      if bool_decide (length (as_workspaces s) < insert_index) then Some (s, Err "workspace_move_failed")
      else
        '(s, _) ← move_workspace s index insert_index;
        Some (s, Ok (ResponseResult.WorkspaceList (workspace_list_info s)))
  end.

Definition handle_workspace_close (s : AppState) (workspace_id : string) : option (AppState * Answer) :=
  match named_workspace s workspace_id with
  | None => Some (s, Err "workspace_not_found")
  | Some (index, _) =>
      let pane_ids := pane_ids_for_workspace s index in
      s ← close_selected_workspace (s <| as_selected := index |>);
      Some (shutdown_detached_terminal_runtimes (remove_plugin_pane_records s pane_ids), Ok ResponseResult.Ok_)
  end.

Definition handle_tab_focus (s : AppState) (tab_id : string) : option (AppState * Answer) :=
  match parse_tab_id s tab_id with
  | None => Some (s, Err "tab_not_found")
  | Some (ws_idx, tab_idx) => tab_answer (switch_workspace_tab s ws_idx tab_idx).1 ws_idx tab_idx
  end.

Definition handle_tab_rename (s : AppState) (tab_id label : string) : option (AppState * Answer) :=
  match parse_tab_id s tab_id with
  | None => Some (s, Err "tab_not_found")
  | Some (ws_idx, tab_idx) =>
      tab_answer (update_tab s ws_idx tab_idx (λ tab, tab_set_custom_name tab label)) ws_idx tab_idx
  end.

Definition handle_tab_move (s : AppState) (tab_id : string) (insert_index : nat) : option (AppState * Answer) :=
  match parse_tab_id s tab_id with
  | None => Some (s, Err "tab_not_found")
  | Some (ws_idx, tab_idx) =>
      match as_workspaces s !! ws_idx with
      | None => Some (s, Err "tab_not_found")
      | Some ws =>
          if bool_decide (length (ws_tabs ws) < insert_index) then Some (s, Err "tab_move_failed")
          else
            let s := set_workspace s ws_idx (move_tab ws tab_idx insert_index).1 in
            Some (s, Ok (ResponseResult.TabList (tab_list_info s ws_idx)))
      end
  end.

Definition handle_tab_close (s : AppState) (tab_id : string) : option (AppState * Answer) :=
  match parse_tab_id s tab_id with
  | None => Some (s, Err "tab_not_found")
  | Some (ws_idx, tab_idx) =>
      let terminal_ids := terminal_ids_for_tab s ws_idx tab_idx in
      let pane_ids := pane_ids_for_tab s ws_idx tab_idx in
      match as_workspaces s !! ws_idx with
      | None => Some (s, Err "tab_not_found")
      | Some ws =>
          if bool_decide (length (ws_tabs ws) ≤ 1) then Some (s, Err "tab_close_failed")
          else
            let '(ws, closed) := close_tab ws tab_idx in
            let s := set_workspace s ws_idx ws in
            if negb closed then Some (s, Err "tab_close_failed")
            else
              Some (shutdown_detached_terminal_runtimes
                      (remove_unattached_terminal_ids (remove_plugin_pane_records s pane_ids) terminal_ids),
                    Ok ResponseResult.Ok_)
      end
  end.

(** ** Panes that exist *)

(** Indexing a workspace of a pane that was found panics when it is not there. *)
Definition handle_pane_focus (s : AppState) (pane_id : string) : option (AppState * Answer) :=
  match parse_pane_id s pane_id with
  | None => Some (s, Err "pane_not_found")
  | Some (ws_idx, pane) =>
      ws ← as_workspaces s !! ws_idx;
      match find_tab_index_for_pane ws pane with
      | None => Some (s, Err "pane_not_found")
      | Some _ =>
          let s := (mark_active_tab_seen (focus_pane_in_workspace s ws_idx pane).1).1 in
          Some (s, match pane_info s ws_idx pane with
                   | Some info => Ok (ResponseResult.PaneInfo info)
                   | None => Err "pane_not_found"
                   end)
      end
  end.

Definition handle_pane_zoom (s : AppState) (pane_id : option string) (command : PaneZoomCommand) :
    option (AppState * Answer) :=
  match resolve_optional_pane s pane_id with
  | None => Some (s, Err "pane_not_found")
  | Some (ws_idx, pane) =>
      ws ← as_workspaces s !! ws_idx;
      match find_tab_index_for_pane ws pane, public_pane_id s ws_idx pane with
      | Some tab_idx, Some _ =>
          let '(s, outcome) := apply_pane_zoom s ws_idx pane command in
          match outcome with
          | None => Some (s, Err "pane_not_found")
          | Some outcome =>
              Some (s, match pane_layout_snapshot s ws_idx tab_idx with
                       | Some layout => Ok (ResponseResult.PaneZoom outcome layout)
                       | None => Err "pane_layout_unavailable"
                       end)
          end
      | _, _ => Some (s, Err "pane_not_found")
      end
  end.

Definition handle_pane_close (s : AppState) (pane_id : string) : option (AppState * Answer) :=
  match parse_pane_id s pane_id with
  | None => Some (s, Err "pane_not_found")
  | Some (ws_idx, pane) =>
      match public_pane_id s ws_idx pane with
      | None => Some (s, Err "pane_not_found")
      | Some _ =>
          let '(s, deferred) :=
            if close_pane_would_close_workspace s ws_idx pane then confirm_implicit_worktree_group_close s ws_idx
            else (s, false) in
          if deferred : bool then Some (s, Err "confirmation_required")
          else
            let terminal_id := terminal_id_for_pane s ws_idx pane in
            ws ← as_workspaces s !! ws_idx;
            '(ws, should_close_workspace) ← ws_close_pane ws pane;
            let s := remove_plugin_pane_records (set_workspace s ws_idx ws) [pane] in
            s ← (if should_close_workspace : bool then close_selected_workspace (s <| as_selected := ws_idx |>)
                 else Some (remove_unattached_terminal_ids s (option_list terminal_id)));
            Some (shutdown_detached_terminal_runtimes s, Ok ResponseResult.Ok_)
      end
  end.

(** ** Moving a pane *)

(** The workspace of a move that found no place for its pane: it is made again
    when it is gone. *)
Definition recover_failed_pane_move (c : Counters) (s : AppState) (context : PaneMoveRecoveryContext)
    (moved : MovedPane) : option (Counters * AppState) :=
  match parse_workspace_id s (rc_previous_workspace_id context) with
  | Some ws_idx =>
      ws ← as_workspaces s !! ws_idx;
      Some (c, set_workspace s ws_idx (create_tab_from_existing_pane ws moved (rc_previous_tab_label context)).1)
  | None =>
      let '(c, workspace) :=
        Workspace_from_existing_pane c (rc_previous_workspace_label context) (rc_previous_tab_label context)
          (rc_identity_cwd context) moved in
      let workspace := workspace <| ws_id := rc_previous_workspace_id context |>
                                 <| ws_worktree_space := rc_previous_worktree_space context |> in
      let insert_idx := min (rc_source_ws_idx context) (length (as_workspaces s)) in
      let s := s <| as_active ::= fmap (λ active, if bool_decide (insert_idx ≤ active) then S active else active) |> in
      let s := if bool_decide (insert_idx ≤ as_selected s) && negb (bool_decide (as_workspaces s = []))
               then s <| as_selected ::= S |> else s in
      Some (c, s <| as_workspaces ::= insert_at insert_idx workspace |>)
  end.

(** What a move starts from *)
Record MoveSource := mkMoveSource {
  ms_ws_idx : nat;
  ms_tab_idx : nat;
  ms_pane : PaneId;
  ms_pane_id : string;
  ms_workspace_id : string;
  ms_tab_id : string;
}.

(** A move that changes nothing *)
Definition unchanged_pane_move (s : AppState) (src : MoveSource) (reason : PaneMoveReason) (ws_idx tab_idx : nat) :
    Answer :=
  source_layout ← ok_or (pane_layout_snapshot s (ms_ws_idx src) (ms_tab_idx src)) "pane_layout_unavailable";
  target_layout ← ok_or (pane_layout_snapshot s ws_idx tab_idx) "pane_layout_unavailable";
  pane ← ok_or (pane_info s (ms_ws_idx src) (ms_pane src)) "pane_not_found";
  Ok (ResponseResult.PaneMove
        (mkPaneMoveResult false (Some reason) (ms_pane_id src) (ms_workspace_id src) (ms_tab_id src) pane
           (Some source_layout) target_layout None None None None)).

(** Where the pane goes, or the answer when it goes nowhere *)
Definition resolve_existing_tab (s : AppState) (src : MoveSource) (tab_id : string) (target_pane_id : option string)
    (split : Direction) (ratio : option f32) : option (ResolvedPaneMoveDestination + Answer) :=
  match parse_tab_id s tab_id with
  | None => Some (inr (Err "tab_not_found"))
  | Some (target_ws_idx, target_tab_idx) =>
      if bool_decide (ms_ws_idx src = target_ws_idx) && bool_decide (ms_tab_idx src = target_tab_idx)
      then Some (inr (unchanged_pane_move s src PaneMoveReason.SameTab (ms_ws_idx src) (ms_tab_idx src)))
      else
        ws ← as_workspaces s !! target_ws_idx;
        tab ← ws_tabs ws !! target_tab_idx;
        if tb_zoomed tab
        then Some (inr (unchanged_pane_move s src PaneMoveReason.ZoomedTab target_ws_idx target_tab_idx))
        else
          target ← match target_pane_id with
                   | None => Some (Ok (tl_focus (tb_layout tab)))
                   | Some raw =>
                       match parse_pane_id s raw with
                       | None => Some (Err "target_pane_not_found")
                       | Some (pane_ws_idx, pane_id) =>
                           pane_ws ← as_workspaces s !! pane_ws_idx;
                           Some (if bool_decide (pane_ws_idx = target_ws_idx)
                                    && bool_decide (find_tab_index_for_pane pane_ws pane_id = Some target_tab_idx)
                                 then Ok pane_id else Err "target_pane_not_found")
                       end
                   end;
          Some match target with
               | Err code => inr (Err code)
               | Ok target_pane_id =>
                   match public_tab_id s target_ws_idx target_tab_idx with
                   | None => inr (Err "tab_not_found")
                   | Some target_tab_id =>
                       inl (ResolvedPaneMoveDestination.ExistingTab target_tab_id target_pane_id split
                              (default f32_0_5 ratio) (negb (bool_decide (ms_ws_idx src = target_ws_idx))))
                   end
               end
  end.

(** A workspace that is given by a position is not looked for: asking for its
    identifier panics when it is not there. *)
Definition resolve_destination (s : AppState) (src : MoveSource) (destination : PaneMoveDestination) :
    option (ResolvedPaneMoveDestination + Answer) :=
  match destination with
  | PaneMoveDestination.Tab tab_id target_pane_id split ratio =>
      resolve_existing_tab s src tab_id target_pane_id split ratio
  | PaneMoveDestination.NewTab None label =>
      Some (inl (ResolvedPaneMoveDestination.NewTab (ms_workspace_id src) label))
  | PaneMoveDestination.NewTab (Some workspace_id) label =>
      match parse_workspace_id s workspace_id with
      | None => Some (inr (Err "workspace_not_found"))
      | Some ws_idx =>
          id ← public_workspace_id s ws_idx;
          Some (inl (ResolvedPaneMoveDestination.NewTab id label))
      end
  | PaneMoveDestination.NewWorkspace label tab_label =>
      Some (inl (ResolvedPaneMoveDestination.NewWorkspace label tab_label))
  end.

Definition is_cross_workspace (src : MoveSource) (resolved : ResolvedPaneMoveDestination) : bool :=
  match resolved with
  | ResolvedPaneMoveDestination.ExistingTab _ _ _ _ cross_workspace => cross_workspace
  | ResolvedPaneMoveDestination.NewTab workspace_id _ => negb (bool_decide (workspace_id = ms_workspace_id src))
  | ResolvedPaneMoveDestination.NewWorkspace _ _ => true
  end.

(** The workspace at a position goes: what was after it moves up. *)
Definition remove_workspace_at (s : AppState) (ws_idx : nat) : AppState :=
  let s := s <| as_workspaces ::= delete ws_idx |> in
  let top := length (as_workspaces s) - 1 in
  if bool_decide (as_workspaces s = []) then s <| as_active := None |> <| as_selected := 0 |>
  else
    let moved_up idx := if bool_decide (idx = ws_idx) then min ws_idx top
                        else if bool_decide (ws_idx < idx) then idx - 1 else idx in
    s <| as_active ::= fmap moved_up |> <| as_selected ::= moved_up |>.

(** The pane leaves its workspace, which may go with it. *)
Definition leave_workspace (s : AppState) (src : MoveSource) (cross_workspace workspace_empty : bool) :
    AppState * option string :=
  let s := if cross_workspace
           then update_workspace s (ms_ws_idx src) (λ ws, unregister_moved_pane ws (ms_pane src))
                  <| as_public_pane_id_aliases ::= <[ms_pane_id src := ms_pane src]> |>
           else s in
  if workspace_empty && cross_workspace
  then (remove_workspace_at s (ms_ws_idx src), Some (ms_workspace_id src))
  else (s, None).

(** Where the pane is put, or the code of the error *)
Definition place_moved_pane (c : Counters) (s : AppState) (resolved : ResolvedPaneMoveDestination)
    (context : PaneMoveRecoveryContext) (terminal_id : string) (current_dir : string) (moved : MovedPane)
    (focus : bool) : option (Counters * AppState * result string (nat * nat)) :=
  let recover error := '(c, s) ← recover_failed_pane_move c s context moved; Some (c, s, Err error) in
  match resolved with
  | ResolvedPaneMoveDestination.ExistingTab tab_id target_pane_id split ratio _ =>
      match parse_tab_id s tab_id with
      | None => recover "pane_move_failed"
      | Some (ws_idx, tab_idx) =>
          ws ← as_workspaces s !! ws_idx;
          tab ← ws_tabs ws !! tab_idx;
          let previous_target_focus := tl_focus (tb_layout tab) in
          let '(ws, inserted) := insert_moved_pane_into_tab ws tab_idx target_pane_id moved split ratio in
          let s := set_workspace s ws_idx ws in
          match inserted with
          | Err moved => '(c, s) ← recover_failed_pane_move c s context moved; Some (c, s, Err "pane_move_failed")
          | Ok _ =>
              Some (c, if focus then s
                       else update_tab s ws_idx tab_idx
                              (λ tab, tab <| tb_layout ::= λ l, focus_pane l previous_target_focus |>),
                    Ok (ws_idx, tab_idx))
          end
      end
  | ResolvedPaneMoveDestination.NewTab workspace_id label =>
      match parse_workspace_id s workspace_id with
      | None => recover "pane_move_failed"
      | Some ws_idx =>
          ws ← as_workspaces s !! ws_idx;
          let '(ws, tab_idx) := create_tab_from_existing_pane ws moved label in
          Some (c, set_workspace s ws_idx ws, Ok (ws_idx, tab_idx))
      end
  | ResolvedPaneMoveDestination.NewWorkspace label tab_label =>
      let identity_cwd := default current_dir (tm_cwd <$> as_terminals s !! terminal_id) in
      let '(c, workspace) := Workspace_from_existing_pane c label tab_label identity_cwd moved in
      let s := s <| as_workspaces ::= λ workspaces, workspaces ++ [workspace] |> in
      Some (c, s, Ok (length (as_workspaces s) - 1, 0))
  end.

(** The answer to a move that was made *)
Definition pane_move_answer (s : AppState) (src : MoveSource) (ws_idx tab_idx : nat) (created_tab : bool)
    (created_workspace : option ApiWorkspaceInfo) (closed_workspace_id closed_tab_id : option string) : Answer :=
  let created_tab := if created_tab then tab_info s ws_idx tab_idx else None in
  pane ← ok_or (pane_info s ws_idx (ms_pane src)) "pane_move_failed";
  let source_layout :=
    match closed_workspace_id with
    | None => parse_tab_id s (ms_tab_id src) ≫= λ at_, pane_layout_snapshot s at_.1 at_.2
    | Some _ => None
    end in
  target_layout ← ok_or (pane_layout_snapshot s ws_idx tab_idx) "pane_layout_unavailable";
  Ok (ResponseResult.PaneMove
        (mkPaneMoveResult true None (ms_pane_id src) (ms_workspace_id src) (ms_tab_id src) pane source_layout
           target_layout created_workspace created_tab closed_workspace_id closed_tab_id)).

Definition makes_workspace (resolved : ResolvedPaneMoveDestination) : bool :=
  match resolved with ResolvedPaneMoveDestination.NewWorkspace _ _ => true | _ => false end.
Definition makes_tab (resolved : ResolvedPaneMoveDestination) : bool :=
  match resolved with ResolvedPaneMoveDestination.ExistingTab _ _ _ _ _ => false | _ => true end.

(** A move whose destination is known *)
Definition move_pane (c : Counters) (s : AppState) (src : MoveSource) (context : PaneMoveRecoveryContext)
    (terminal_id current_dir : string) (resolved : ResolvedPaneMoveDestination) (focus : bool) :
    option (Counters * AppState * Answer) :=
  let previous_focus := current_pane_focus_target s in
  ws ← as_workspaces s !! ms_ws_idx src;
  '(ws, taken) ← ws_take_pane_for_move ws (ms_pane src);
  let s := set_workspace s (ms_ws_idx src) ws in
  match taken with
  | None => Some (c, s, Err "pane_move_failed")
  | Some taken =>
      let closed_tab_id := (λ _, ms_tab_id src) <$> tk_removed_tab_idx taken in
      let '(s, closed_workspace_id) :=
        leave_workspace s src (is_cross_workspace src resolved) (tk_workspace_empty taken) in
      '(c, s, placed) ← place_moved_pane c s resolved context terminal_id current_dir (tk_moved taken) focus;
      match placed with
      | Err code => Some (c, s, Err code)
      | Ok (ws_idx, tab_idx) =>
          let s := if focus || bool_decide (as_active s = None)
                   then record_pane_focus_change (switch_workspace_tab s ws_idx tab_idx).1 previous_focus ws_idx
                          (ms_pane src)
                   else s in
          created_workspace ← (if makes_workspace resolved then Some <$> workspace_info s ws_idx else Some None);
          let created_tab := makes_tab resolved in
          let s := remove_alias_shadowed_by_new_pane s (ms_pane src) in
          Some (c, s, pane_move_answer s src ws_idx tab_idx created_tab created_workspace closed_workspace_id
                        closed_tab_id)
      end
  end.

Definition handle_pane_move (c : Counters) (s : AppState) (current_dir pane_id : string)
    (destination : PaneMoveDestination) (focus : bool) : option (Counters * AppState * Answer) :=
  match parse_pane_id s pane_id with
  | None => Some (c, s, Err "pane_not_found")
  | Some (ws_idx, pane) =>
      ws ← as_workspaces s !! ws_idx;
      match find_tab_index_for_pane ws pane with
      | None => Some (c, s, Err "pane_not_found")
      | Some tab_idx =>
          let previous_pane_id := default pane_id (public_pane_id s ws_idx pane) in
          match public_tab_id s ws_idx tab_idx, ws_tabs ws !! tab_idx with
          | Some previous_tab_id, Some tab =>
              let src := mkMoveSource ws_idx tab_idx pane previous_pane_id (ws_id ws) previous_tab_id in
              match tab_terminal_id tab pane with
              | None => Some (c, s, Err "pane_not_found")
              | Some terminal_id =>
                  let context := mkPaneMoveRecoveryContext ws_idx (ws_id ws) (ws_custom_name ws) (tb_custom_name tab)
                                   (ws_worktree_space ws) (ws_identity_cwd ws) in
                  if tb_zoomed tab
                  then Some (c, s, unchanged_pane_move s src PaneMoveReason.ZoomedTab ws_idx tab_idx)
                  else
                    resolved ← resolve_destination s src destination;
                    match resolved with
                    | inr answer => Some (c, s, answer)
                    | inl resolved => move_pane c s src context terminal_id current_dir resolved focus
                    end
              end
          | _, _ => Some (c, s, Err "tab_not_found")
          end
      end
  end.

Definition unchanged_counters (c : Counters) (o : option (AppState * Answer)) : option (Counters * AppState * Answer) :=
  (λ sa, (c, sa.1, sa.2)) <$> o.

Definition handle_request (c : Counters) (s : AppState) (host : LaunchHost) (request : Request) :
    option (Counters * AppState * Answer) :=
  match request with
  | Request.WorkspaceCreate cwd label focus env => handle_workspace_create c s host cwd label focus env
  | Request.WorkspaceFocus id => unchanged_counters c (handle_workspace_focus s id)
  | Request.WorkspaceRename id label => unchanged_counters c (handle_workspace_rename s id label)
  | Request.WorkspaceMove id insert_index => unchanged_counters c (handle_workspace_move s id insert_index)
  | Request.WorkspaceClose id => unchanged_counters c (handle_workspace_close s id)
  | Request.TabCreate id cwd label focus env => handle_tab_create c s host id cwd label focus env
  | Request.TabFocus id => unchanged_counters c (handle_tab_focus s id)
  | Request.TabRename id label => unchanged_counters c (handle_tab_rename s id label)
  | Request.TabMove id insert_index => unchanged_counters c (handle_tab_move s id insert_index)
  | Request.TabClose id => unchanged_counters c (handle_tab_close s id)
  | Request.PaneSplit target id direction ratio cwd focus env =>
      handle_pane_split c s host target id direction ratio cwd focus env
  | Request.PaneFocus id => unchanged_counters c (handle_pane_focus s id)
  | Request.PaneZoom id command => unchanged_counters c (handle_pane_zoom s id command)
  | Request.PaneMove id destination focus =>
      handle_pane_move c s (default "/" (lh_current_dir host)) id destination focus
  | Request.PaneClose id => unchanged_counters c (handle_pane_close s id)
  end.

End api.

(** ** What requests keep *)

Record good_step (c : Counters) (s : AppState) (c' : Counters) (s' : AppState) : Prop := mk_good_step {
  gs_wf : app_wf c' s';
  gs_counters : counters_le c c';
  gs_later : workspaces_later c (as_workspaces s) (as_workspaces s');
}.

Lemma good_refl c s : app_wf c s → good_step c s c s.
Proof. intros Hwf. constructor; [done|done|apply workspaces_later_refl]. Qed.

Lemma good_trans c s c1 s1 c2 s2 : good_step c s c1 s1 → good_step c1 s1 c2 s2 → good_step c s c2 s2.
Proof.
  intros [A1 B1 C1] [A2 B2 C2]. constructor; [done|by etrans|]. eapply workspaces_later_trans; [apply B1|done..].
Qed.

Lemma good_quiet c s c1 s1 s2 : good_step c s c1 s1 → quiet c1 s1 s2 → good_step c s c1 s2.
Proof.
  intros Hg Hq. eapply good_trans; [exact Hg|]. destruct (quiet_app_wf c1 s1 s2) as (? & ? & _); [apply Hg|done|].
  by constructor.
Qed.

Lemma good_view c s c1 s1 s2 : good_step c s c1 s1 → same_view s1 s2 → good_step c s c1 s2.
Proof. intros [A B C] Hv. constructor; [by eapply app_wf_view|done|]. destruct Hv as (-> & _). done. Qed.

Lemma good_shutdown c s c1 s1 : good_step c s c1 s1 → good_step c s c1 (shutdown_detached_terminal_runtimes s1).
Proof. intros [A B C]. constructor; [by apply app_wf_shutdown|done|done]. Qed.

Section requests.
Context `{HSpec : HashOrderSpec}.

(** *** What is there is found *)

Lemma ws_at c s i w : app_wf c s → as_workspaces s !! i = Some w → ws_wf c w.
Proof. intros Hwf Hi. eapply Forall_lookup_1; [apply Hwf|done]. Qed.

Lemma public_pane_id_some c s i w p :
  app_wf c s → as_workspaces s !! i = Some w → p ∈ (attached (ws_tabs w)).*1 → is_Some (public_pane_id s i p).
Proof.
  intros Hwf Hi [n Hn]%(ww_numbered _ _ (ws_at _ _ _ _ Hwf Hi)). unfold public_pane_id, public_pane_number. rewrite Hi.
  cbn [mbind option_bind]. rewrite Hn. by eexists.
Qed.

Lemma public_tab_id_at s i j w t :
  as_workspaces s !! i = Some w → ws_tabs w !! j = Some t →
  public_tab_id s i j = Some (public_tab_id_for_number (ws_id w) (tb_number t)).
Proof. intros Hi Hj. unfold public_tab_id, public_tab_number. rewrite Hi. cbn [mbind option_bind]. by rewrite Hj. Qed.

Lemma pane_info_some c s i w p :
  app_wf c s → as_workspaces s !! i = Some w → p ∈ (attached (ws_tabs w)).*1 → is_Some (pane_info s i p).
Proof.
  intros Hwf Hi Hp. pose proof (ws_at _ _ _ _ Hwf Hi) as Hw. unfold pane_info. rewrite Hi. cbn [mbind option_bind].
  destruct (pane_state_some w p Hp) as [st Hst]. rewrite Hst. cbn [mbind option_bind].
  assert (Hterm : is_Some (as_terminals s !! pn_attached_terminal_id st)).
  { apply (to_known _ (aw_terminals _ _ Hwf)), list_elem_of_fmap. exists (p, pn_attached_terminal_id st).
    split; [done|]. apply elem_of_all_attached. exists w. split; [by eapply list_elem_of_lookup_2|].
    by apply pane_state_attached. }
  destruct Hterm as [T ->]. cbn [mbind option_bind].
  destruct (pane_tab _ _ _ Hw Hp) as (j & t & -> & Hj & _ & _). cbn [mbind option_bind].
  destruct (public_pane_id_some c s i w p Hwf Hi Hp) as [id ->]. cbn [mbind option_bind].
  rewrite (public_tab_id_at _ _ _ _ _ Hi Hj). by eexists.
Qed.

Lemma tab_at_some (w : Workspace) j : j < length (ws_tabs w) → ∃ t, ws_tabs w !! j = Some t.
Proof. apply lookup_lt_is_Some_2. Qed.

Lemma tab_info_some s i w j :
  as_workspaces s !! i = Some w → j < length (ws_tabs w) → is_Some (tab_info s i j).
Proof.
  intros Hi [t Hj]%tab_at_some. unfold tab_info, tab_display_name. rewrite Hi. cbn [mbind option_bind]. rewrite Hj.
  cbn [mbind option_bind fmap option_fmap option_map]. rewrite (public_tab_id_at _ _ _ _ _ Hi Hj). by eexists.
Qed.

Lemma root_in c w j t : ws_wf c w → ws_tabs w !! j = Some t → tb_root_pane t ∈ (attached (ws_tabs w)).*1.
Proof.
  intros Hw Hj. apply attached_pane. exists t. split; [by eapply list_elem_of_lookup_2|].
  eapply root_attached, tabs_ok_lookup; [apply Hw|done].
Qed.

Lemma root_pane_info_some c s i w j :
  app_wf c s → as_workspaces s !! i = Some w → j < length (ws_tabs w) → is_Some (root_pane_info s i j).
Proof.
  intros Hwf Hi [t Hj]%tab_at_some. unfold root_pane_info. rewrite Hi. cbn [mbind option_bind]. rewrite Hj.
  cbn [mbind option_bind]. eapply pane_info_some; [done..|]. eapply root_in; [by eapply ws_at|done].
Qed.

Lemma layout_snapshot_some c s i w j :
  app_wf c s → as_workspaces s !! i = Some w → j < length (ws_tabs w) → is_Some (pane_layout_snapshot s i j).
Proof.
  intros Hwf Hi [t Hj]%tab_at_some. unfold pane_layout_snapshot. rewrite Hi. cbn [mbind option_bind]. rewrite Hj.
  cbn [mbind option_bind]. pose proof (ws_at _ _ _ _ Hwf Hi) as Hw.
  destruct (public_pane_id_some c s i w (tl_focus (tb_layout t)) Hwf Hi) as [id ->].
  { apply attached_pane. exists t. split; [by eapply list_elem_of_lookup_2|].
    assert (Ht : tab_wf (ct_pane c) t) by (eapply tabs_ok_lookup; [apply Hw|done]). apply Ht, (tw_layout _ _ Ht). }
  cbn [mbind option_bind]. rewrite (public_tab_id_at _ _ _ _ _ Hi Hj). by eexists.
Qed.

Lemma workspace_info_some s i w : as_workspaces s !! i = Some w → is_Some (workspace_info s i).
Proof. intros Hi. unfold workspace_info. rewrite Hi. by eexists. Qed.

Lemma named_workspace_some s id i w : named_workspace s id = Some (i, w) → as_workspaces s !! i = Some w.
Proof. intros (k & _ & (v & Hv & [= -> ->])%fmap_Some)%bind_Some. done. Qed.

Lemma quiet_at c s s' i w :
  quiet c s s' → as_workspaces s !! i = Some w → ∃ w', as_workspaces s' !! i = Some w' ∧ ws_quiet c w w'.
Proof. intros [_ Hq _] Hi. by eapply Forall2_lookup_l. Qed.

(** *** Requests that change what is shown *)

Lemma workspace_answer_good c s s' i w :
  app_wf c s → quiet c s s' → as_workspaces s !! i = Some w →
  ∃ s1 a, workspace_answer s' i = Some (s1, a) ∧ good_step c s c s1.
Proof.
  intros Hwf Hq Hi. destruct (quiet_at _ _ _ _ _ Hq Hi) as (w' & Hi' & _). unfold workspace_answer.
  destruct (workspace_info_some _ _ _ Hi') as [info ->]. eexists _, _. split; [reflexivity|].
  by eapply good_quiet; [apply good_refl|].
Qed.

Lemma tab_answer_good c s s' i j w t :
  app_wf c s → quiet c s s' → as_workspaces s !! i = Some w → ws_tabs w !! j = Some t →
  ∃ s1 a, tab_answer s' i j = Some (s1, a) ∧ good_step c s c s1.
Proof.
  intros Hwf Hq Hi Hj. destruct (quiet_at _ _ _ _ _ Hq Hi) as (w' & Hi' & Hw'). unfold tab_answer.
  destruct (tab_info_some _ _ _ j Hi') as [info ->].
  { rewrite (wq_tabs _ _ _ Hw'). by eapply lookup_lt_Some. }
  eexists _, _. split; [reflexivity|]. by eapply good_quiet; [apply good_refl|].
Qed.

Lemma rename_quiet c s i label :
  app_wf c s → quiet c s (update_workspace s i (λ ws, ws_set_custom_name ws label)).
Proof.
  intros Hwf. unfold update_workspace. pose proof (wo_wf _ _ (aw_workspaces _ _ Hwf)) as Hall. constructor; [done| |].
  - change (Forall2 (ws_quiet c) (as_workspaces s) (alter (λ ws, ws_set_custom_name ws label) i (as_workspaces s))).
    destruct (as_workspaces s !! i) as [w|] eqn:Hi.
    + rewrite (alter_insert _ _ _ _ Hi). eapply quiet_set; [done..|]. pose proof (ws_at _ _ _ _ Hwf Hi) as [[? ? ?] ? ?].
      constructor; [|done..|by constructor; [|done|left]]. constructor; [|done..]. by constructor.
    + rewrite alter_absent by done. by apply Forall2_quiet_refl.
  - intros Hn. change (navigation_ok (length (alter (λ ws, ws_set_custom_name ws label) i (as_workspaces s))) (as_active s) (as_selected s)).
    by rewrite length_alter.
Qed.

Lemma rename_tab_quiet c s i j label :
  app_wf c s → quiet c s (update_tab s i j (λ tab, tab_set_custom_name tab label)).
Proof.
  intros Hwf. apply update_tab_quiet; [apply Hwf|]. intros w t Hi Hj. split_and!; [|done..].
  assert (Ht : tab_wf (ct_pane c) t) by (eapply tabs_ok_lookup; [apply (ws_at _ _ _ _ Hwf Hi)|done]). by destruct Ht.
Qed.

Definition total_good (c : Counters) (s : AppState) (o : option (AppState * Answer)) : Prop :=
  ∃ s' a, o = Some (s', a) ∧ good_step c s c s'.

Lemma refused_good c s code : app_wf c s → total_good c s (Some (s, Err code)).
Proof. intros Hwf. eexists _, _. split; [reflexivity|by apply good_refl]. Qed.

Lemma workspace_focus_good c s id : app_wf c s → total_good c s (handle_workspace_focus s id).
Proof.
  intros Hwf. unfold handle_workspace_focus. destruct (named_workspace s id) as [[i w]|] eqn:Hn; [|by apply refused_good].
  apply named_workspace_some in Hn. eapply workspace_answer_good; [done| |done]. apply switch_workspace_quiet, Hwf.
Qed.

Lemma workspace_rename_good c s id label : app_wf c s → total_good c s (handle_workspace_rename s id label).
Proof.
  intros Hwf. unfold handle_workspace_rename. destruct (named_workspace s id) as [[i w]|] eqn:Hn; [|by apply refused_good].
  apply named_workspace_some in Hn. eapply workspace_answer_good; [done| |done]. by apply rename_quiet.
Qed.

Lemma workspace_move_good c s id n : app_wf c s → total_good c s (handle_workspace_move s id n).
Proof.
  intros Hwf. unfold handle_workspace_move. destruct (named_workspace s id) as [[i w]|]; [|by apply refused_good].
  case_bool_decide; [by apply refused_good|].
  destruct (move_workspace_spec c s i n Hwf) as (s' & moved & -> & Hwf' & Hperm & _). eexists _, _. split; [reflexivity|].
  constructor; [done|done|]. apply workspaces_later_part. intros v. by rewrite Hperm.
Qed.

Lemma tab_focus_good c s id : app_wf c s → total_good c s (handle_tab_focus s id).
Proof.
  intros Hwf. unfold handle_tab_focus. destruct (parse_tab_id s id) as [[i j]|] eqn:Hn; [|by apply refused_good].
  destruct (parse_tab_id_some _ _ _ _ Hn) as (w & t & Hi & Hj). eapply tab_answer_good; [done| |done..].
  apply switch_workspace_tab_quiet, Hwf.
Qed.

Lemma tab_rename_good c s id label : app_wf c s → total_good c s (handle_tab_rename s id label).
Proof.
  intros Hwf. unfold handle_tab_rename. destruct (parse_tab_id s id) as [[i j]|] eqn:Hn; [|by apply refused_good].
  destruct (parse_tab_id_some _ _ _ _ Hn) as (w & t & Hi & Hj). eapply tab_answer_good; [done| |done..].
  by apply rename_tab_quiet.
Qed.

Lemma tab_move_good c s id n : app_wf c s → total_good c s (handle_tab_move s id n).
Proof.
  intros Hwf. unfold handle_tab_move. destruct (parse_tab_id s id) as [[i j]|]; [|by apply refused_good].
  destruct (as_workspaces s !! i) as [w|] eqn:Hi; [|by apply refused_good].
  case_bool_decide; [by apply refused_good|]. cbv zeta. eexists _, _. split; [reflexivity|].
  pose proof (move_tab_spec c w j n (ws_at _ _ _ _ Hwf Hi)) as Hspec. destruct (move_tab w j n) as [w' moved]. cbn [fst].
  destruct Hspec as (Hw' & Hkept & Hperm & _). pose proof (numbers_kept_later _ _ Hkept) as Hlater.
  destruct Hwf as [Hok Hnav Ht Hs]. constructor; [constructor| |].
  - eapply workspaces_ok_set; [done..|apply Hlater|]. by rewrite (attached_perm _ _ Hperm).
  - by apply navigation_set.
  - eapply terminals_ok_same; [exact Ht|done|].
    change (all_attached (<[i := w']> (as_workspaces s)) ≡ₚ all_attached (as_workspaces s)).
    by rewrite (all_attached_set _ _ _ _ Hi), (all_attached_lookup _ _ _ Hi), (attached_perm _ _ Hperm).
  - done.
  - done.
  - by apply (workspaces_later_set c _ _ w).
Qed.

Lemma pane_focus_good c s id : app_wf c s → total_good c s (handle_pane_focus s id).
Proof.
  intros Hwf. unfold handle_pane_focus. destruct (parse_pane_id s id) as [[i p]|] eqn:Hp; [|by apply refused_good].
  apply (parse_pane_id_some c) in Hp as (w & Hi & Hp); [|apply Hwf]. rewrite Hi. cbn [mbind option_bind].
  destruct (find_tab_index_for_pane w p); [|by apply refused_good]. eexists _, _. split; [reflexivity|].
  pose proof (focus_pane_in_workspace_quiet c s i p (wo_wf _ _ (aw_workspaces _ _ Hwf))) as Hq.
  assert (Hg : good_step c s c (focus_pane_in_workspace s i p).1) by (eapply good_quiet; [by apply good_refl|done]).
  eapply good_quiet; [exact Hg|]. apply mark_active_tab_seen_quiet. apply Hg.
Qed.

Lemma pane_zoom_good c s id command : app_wf c s → total_good c s (handle_pane_zoom s id command).
Proof.
  intros Hwf. unfold handle_pane_zoom. destruct (resolve_optional_pane s id) as [[i p]|] eqn:Hp; [|by apply refused_good].
  assert (Hi : ∃ w, as_workspaces s !! i = Some w).
  { destruct id as [id|]; cbn in Hp.
    - apply (parse_pane_id_some c) in Hp as (w & Hi & _); [by exists w|apply Hwf].
    - apply bind_Some in Hp as (k & _ & (w & Hi & (q & _ & [= <- <-])%bind_Some)%bind_Some). by exists w. }
  destruct Hi as [w Hi]. rewrite Hi. cbn [mbind option_bind].
  destruct (find_tab_index_for_pane w p) as [j|]; [|by apply refused_good].
  destruct (public_pane_id s i p); [|by apply refused_good].
  pose proof (apply_pane_zoom_quiet c s i p command (wo_wf _ _ (aw_workspaces _ _ Hwf))) as Hq.
  destruct (apply_pane_zoom s i p command) as [s' outcome]. cbn [fst] in Hq.
  assert (Hg : good_step c s c s') by (eapply good_quiet; [by apply good_refl|done]).
  destruct outcome; by eexists _, _.
Qed.

(** *** Requests that close *)

Lemma select_same (s : AppState) i : same_terminals s (s <| as_selected := i |>).
Proof. done. Qed.

Lemma workspace_close_good c s id : app_wf c s → total_good c s (handle_workspace_close s id).
Proof.
  intros Hwf. unfold handle_workspace_close. destruct (named_workspace s id) as [[i w]|] eqn:Hn; [|by apply refused_good].
  apply named_workspace_some in Hn. cbv zeta.
  destruct (close_selected_spec c (s <| as_selected := i |>) s Hwf) as (s' & -> & Hwf' & Hsub & _); [done|done|by eapply lookup_lt_Some|].
  cbn [mbind option_bind]. eexists _, _. split; [reflexivity|]. apply good_shutdown.
  eapply good_view; [|apply remove_plugin_view]. constructor; [done|done|]. apply workspaces_later_part. intros v Hv.
  eapply elem_of_submseteq; [exact Hv|]. by apply sublist_submseteq.
Qed.

Lemma tab_close_good c s id : app_wf c s → total_good c s (handle_tab_close s id).
Proof.
  intros Hwf. unfold handle_tab_close. destruct (parse_tab_id s id) as [[i j]|] eqn:Hn; [|by apply refused_good].
  destruct (parse_tab_id_some _ _ _ _ Hn) as (w & t & Hi & Hj). cbv zeta. rewrite Hi.
  case_bool_decide as Hlen; [by apply refused_good|].
  pose proof (close_tab_spec c w j (ws_at _ _ _ _ Hwf Hi)) as Hspec. rewrite Hj, bool_decide_false in Hspec by done.
  destruct Hspec as (w' & -> & Hw' & Hkept & Htabs & _). cbn [negb]. eexists _, _. split; [reflexivity|]. apply good_shutdown.
  set (ps := pane_ids_for_tab s i j). set (ids := terminal_ids_for_tab s i j).
  destruct (remove_plugin_view (set_workspace s i w') ps) as (HL & Hterms & Ha & Hs).
  destruct (lose_panes c s (remove_plugin_pane_records (set_workspace s i w') ps) i w w' (tab_attached t) ids)
    as (Hwf' & _ & Hlater); [done|done|done|by apply numbers_kept_later| | |exact Hterms|by rewrite HL|by rewrite Ha|by rewrite Hs|].
  - by rewrite (attached_lookup _ _ _ Hj), Htabs.
  - intros u. subst ids. unfold terminal_ids_for_tab. rewrite Hi. cbn [mbind option_bind]. rewrite Hj.
    apply elem_of_tab_terminal_ids.
  - by constructor.
Qed.

(** What becomes of the panes when one is closed: its terminal goes with it; the
    whole workspace goes, with its worktree group, when it has no other. *)
Definition closes_pane (s s' : AppState) (i : nat) (p : PaneId) : Prop :=
  ∃ gone, all_attached (as_workspaces s) ≡ₚ gone ++ all_attached (as_workspaces s') ∧ p ∈ gone.*1
    ∧ (close_pane_would_close_workspace s i p = false → ∃ t, gone = [(p, t)]).

Lemma close_would c s i w p j t :
  app_wf c s → as_workspaces s !! i = Some w → find_tab_index_for_pane w p = Some j → ws_tabs w !! j = Some t →
  close_pane_would_close_workspace s i p
  = bool_decide (pane_count (tb_layout t) ≤ 1) && bool_decide (length (ws_tabs w) ≤ 1).
Proof.
  intros Hwf Hi Hj Ht. unfold close_pane_would_close_workspace. rewrite Hi, Hj. cbn [mbind option_bind]. by rewrite Ht.
Qed.

Lemma pane_close_spec c s id :
  app_wf c s →
  match parse_pane_id s id with
  | None => handle_pane_close s id = Some (s, Err "pane_not_found")
  | Some (i, p) =>
      handle_pane_close s id = Some (s <| as_selected := i |>, Err "confirmation_required")
      ∨ ∃ s', handle_pane_close s id = Some (s', Ok ResponseResult.Ok_) ∧ good_step c s c s' ∧ closes_pane s s' i p
  end.
Proof.
  intros Hwf. unfold handle_pane_close. destruct (parse_pane_id s id) as [[i p]|] eqn:Hp; [|done].
  apply (parse_pane_id_some c) in Hp as (w & Hi & Hp); [|apply Hwf]. pose proof (ws_at _ _ _ _ Hwf Hi) as Hw.
  destruct (public_pane_id_some c s i w p Hwf Hi Hp) as [public ->].
  destruct (ws_close_pane_spec c w p Hw Hp) as (j & t & Hj & Ht & Hclose).
  unfold closes_pane. rewrite (close_would c s i w p j t Hwf Hi Hj Ht).
  destruct (bool_decide (pane_count (tb_layout t) ≤ 1) && bool_decide (length (ws_tabs w) ≤ 1)) eqn:Hone.
  - unfold confirm_implicit_worktree_group_close. destruct (as_confirm_close s && _); [by left|right].
    rewrite Hi. cbn [mbind option_bind]. rewrite Hclose. cbn [mbind option_bind].
    set (s1 := remove_plugin_pane_records (set_workspace s i w) [p]).
    destruct (remove_plugin_view (set_workspace s i w) [p]) as (HL & Hterms & _). fold s1 in HL, Hterms.
    assert (HL' : as_workspaces s1 = as_workspaces s) by (rewrite HL; by apply list_insert_id).
    destruct (close_selected_spec c (s1 <| as_selected := i |>) s Hwf) as (s' & -> & Hwf' & Hsub & Hatt); [done|done| |].
    { change (i < length (as_workspaces s1)). rewrite HL'. by eapply lookup_lt_Some. }
    cbn [mbind option_bind].
    change (as_workspaces (s1 <| as_selected := i |>)) with (as_workspaces s1) in Hsub, Hatt. rewrite HL' in Hsub, Hatt.
    eexists. split; [reflexivity|]. split.
    + apply good_shutdown. constructor; [done|done|]. apply workspaces_later_part. intros v Hv.
      eapply elem_of_submseteq; [exact Hv|]. by apply sublist_submseteq.
    + eexists. split; [exact Hatt|]. split; [|done].
      assert (Hin : i ∈ close_indices (s1 <| as_selected := i |>)).
      { change (as_selected (s1 <| as_selected := i |>) ∈ close_indices (s1 <| as_selected := i |>)).
        apply close_indices_selected. change (i < length (as_workspaces s1)). rewrite HL'. by eapply lookup_lt_Some. }
      apply list_elem_of_fmap in Hp as (pt & -> & Hpt). apply list_elem_of_fmap_2, list_elem_of_bind. exists i.
      split; [|done]. unfold attached_at. by rewrite Hi.
  - right. rewrite Hi. cbn [mbind option_bind]. destruct Hclose as (w' & u & -> & Hw' & Hkept & Hatt). cbn [mbind option_bind].
    rewrite (terminal_id_of_pane c s i w p u); [|apply Hwf|done|rewrite Hatt; by left]. cbn [option_list option_rect].
    destruct (remove_plugin_view (set_workspace s i w') [p]) as (HL & Hterms & Ha & Hs).
    destruct (lose_panes c s (remove_plugin_pane_records (set_workspace s i w') [p]) i w w' [(p, u)] [u])
      as (Hwf' & Hatt' & Hlater);
      [done|done|done|by apply numbers_kept_later|done|apply one_gone|exact Hterms|by rewrite HL|by rewrite Ha|by rewrite Hs|].
    eexists. split; [reflexivity|]. split; [apply good_shutdown; by constructor|].
    exists [(p, u)]. split; [exact Hatt'|]. split; [by left|by exists u].
Qed.

Lemma pane_close_good c s id : app_wf c s → total_good c s (handle_pane_close s id).
Proof.
  intros Hwf. pose proof (pane_close_spec c s id Hwf) as Hspec.
  destruct (parse_pane_id s id) as [[i p]|] eqn:Hp; [|rewrite Hspec; by apply refused_good].
  destruct Hspec as [->|(s' & -> & Hg & _)]; [|by eexists _, _].
  eexists _, _. split; [reflexivity|]. apply (parse_pane_id_some c) in Hp as (w & Hi & _); [|apply Hwf].
  apply lookup_lt_Some in Hi. constructor; [|done|apply workspaces_later_refl]. destruct Hwf as [Hok Hnav Ht Hs].
  constructor; [exact Hok| |by eapply (terminals_ok_same s)|exact Hs].
  unfold update; cbn. destruct (length (as_workspaces s)); [lia|]. by destruct Hnav.
Qed.

(** *** New workspaces *)

Lemma app_wf_of c s :
  app_parts c s → navigation_ok (length (as_workspaces s)) (as_active s) (as_selected s) → app_wf c s.
Proof. intros [? ? ?] ?. by constructor. Qed.

Lemma app_wf_parts_of c s : app_wf c s → app_parts c s.
Proof. intros [? ? ? ?]. by constructor. Qed.

Lemma quiet_parts c s s' : app_parts c s → quiet c s s' → app_parts c s'.
Proof.
  intros [Hw Ht Hs] [Hq Hq' Hnav]. pose proof (quiet_attached _ _ _ Hq') as Hatt. constructor.
  - eapply workspaces_ok_sub; [exact Hw|by eapply quiet_wf|by rewrite (quiet_ids _ _ _ Hq')|by rewrite Hatt].
  - eapply terminals_ok_same; [exact Ht|done|by rewrite Hatt].
  - by destruct Hq as (_ & _ & ->).
Qed.

Lemma record_navigation_fields s previous :
  let s' := record_pane_focus_after_navigation s previous in
  as_workspaces s' = as_workspaces s ∧ as_active s' = as_active s ∧ as_selected s' = as_selected s.
Proof. unfold record_pane_focus_after_navigation. by case_bool_decide. Qed.

Lemma record_focus_fields s previous i p :
  let s' := record_pane_focus_change s previous i p in
  as_workspaces s' = as_workspaces s ∧ as_active s' = as_active s ∧ as_selected s' = as_selected s.
Proof.
  unfold record_pane_focus_change. destruct (as_workspaces s !! i); [|done]. by case_bool_decide.
Qed.

(** Going somewhere that is there makes the navigation right. *)
Lemma switch_workspace_navigation s i :
  i < length (as_workspaces s) →
  let s' := switch_workspace s i in navigation_ok (length (as_workspaces s')) (as_active s') (as_selected s').
Proof.
  intros Hi. pose proof Hi as [w Hw]%lookup_lt_is_Some_2. unfold switch_workspace. rewrite Hw. cbv zeta.
  match goal with |- context [record_pane_focus_after_navigation ?s0 ?p] =>
    destruct (record_navigation_fields s0 p) as (-> & -> & ->) end.
  apply navigation_set. by apply navigation_at.
Qed.

Lemma switch_workspace_tab_navigation s i j w :
  as_workspaces s !! i = Some w → j < length (ws_tabs w) →
  let s' := (switch_workspace_tab s i j).1 in navigation_ok (length (as_workspaces s')) (as_active s') (as_selected s').
Proof.
  intros Hw Hj. unfold switch_workspace_tab. rewrite Hw, bool_decide_false by lia. cbv zeta. cbn [fst].
  match goal with |- context [record_pane_focus_after_navigation ?s0 ?p] =>
    destruct (record_navigation_fields s0 p) as (-> & -> & ->) end.
  apply navigation_set, navigation_at. by eapply lookup_lt_Some.
Qed.

Lemma generated_workspace c c' id :
  (0 < ct_workspace c)%N → (ct_workspace c + 1 < 2 ^ 64)%N → generate_workspace_id c = (c', id) →
  ct_pane c' = ct_pane c ∧ ct_terminal c' = ct_terminal c ∧ ct_workspace c' = (ct_workspace c + 1)%N
  ∧ id = "w" +:+ encode_public_number (ct_workspace c) ∧ workspace_named c' id ∧ ¬ workspace_named c id.
Proof.
  intros Hpos Hlt Hg. injection Hg as Hc' Hid. change ("w" +:+ encode_public_number (ct_workspace c) = id) in Hid.
  assert (Hfields : ct_pane c' = ct_pane c ∧ ct_terminal c' = ct_terminal c ∧ ct_workspace c' = (ct_workspace c + 1)%N).
  { subst c'. cbn. by rewrite N.mod_small. }
  clear Hc'. destruct Hfields as (Hp & Ht & Hw). subst id. split_and!; [done..| |].
  - exists (ct_workspace c). split; [lia|done].
  - intros (n & Hn & Heq%str_app_inj). apply encode_number_inj in Heq; unfold u64_max; lia.
Qed.

Lemma workspaces_ok_snoc c L w p t :
  workspaces_ok c L → ws_wf c w → attached (ws_tabs w) = [(p, t)] → ws_id w ∉ ws_id <$> L →
  workspace_named c (ws_id w) → p ∉ (all_attached L).*1 → t ∉ (all_attached L).*2 → terminal_named c t →
  workspaces_ok c (L ++ [w]).
Proof.
  intros [H1 H2 H3 H4 H5 H6] Hw Hatt Hid Hnamed Hp Ht Htn.
  assert (Hall : all_attached (L ++ [w]) ≡ₚ (p, t) :: all_attached L).
  { rewrite all_attached_app. cbn. rewrite Hatt, app_nil_r. symmetry. apply Permutation_cons_append. }
  constructor.
  - apply Forall_app_2; [done|by constructor].
  - rewrite fmap_app. apply NoDup_app. split_and!; [done| |apply NoDup_singleton].
    intros x Hx ->%list_elem_of_singleton. done.
  - apply Forall_app_2; [done|by constructor].
  - rewrite Hall. cbn. by constructor.
  - rewrite Hall. cbn. by constructor.
  - rewrite Hall. cbn. by constructor.
Qed.

Lemma unnamed_workspace c L id : workspaces_ok c L → ¬ workspace_named c id → id ∉ ws_id <$> L.
Proof.
  intros Hok Hid Hin. apply Hid. pose proof (wo_named _ _ Hok) as Hall. rewrite named_ids, Forall_forall in Hall. by apply Hall.
Qed.

Lemma unnamed_terminal c L t : workspaces_ok c L → ¬ terminal_named c t → t ∉ (all_attached L).*2.
Proof.
  intros Hok Hid Hin. apply Hid. pose proof (wo_terminals_named _ _ Hok) as Hall. rewrite Forall_forall in Hall. by apply Hall.
Qed.

Lemma navigation_grows count count' active selected :
  navigation_ok count active selected → count ≤ count' → active ≠ None → navigation_ok count' active selected.
Proof.
  intros Hnav Hle Ha. destruct count as [|count]; [by destruct Hnav|]. destruct count'; [lia|].
  destruct Hnav as [(a & -> & Halt) Hsel]. split; [exists a; split; [done|lia]|lia].
Qed.

(** A new workspace with a process that has just been started, or nothing *)
Lemma new_workspace_spec c cwd argv env spawn c' made :
  (ct_pane c + 1 < 2 ^ 32)%N → (0 < ct_workspace c)%N → (ct_workspace c + 1 < 2 ^ 64)%N →
  (ct_terminal c + 1 < 2 ^ 64)%N → (sp_started spawn = true → clock_ok (sp_micros spawn)) →
  Workspace_new_with_tab c cwd argv env spawn = (c', made) →
  counters_le c c'
  ∧ if sp_started spawn then
      ∃ w np tid, made = Some (w, np) ∧ np_pane_id np = ct_pane c ∧ tm_id (np_terminal np) = tid ∧ ws_wf c' w
        ∧ attached (ws_tabs w) = [(ct_pane c, tid)] ∧ terminal_named c' tid ∧ ¬ terminal_named c tid
        ∧ workspace_named c' (ws_id w) ∧ ¬ workspace_named c (ws_id w)
        ∧ ws_id w = "w" +:+ encode_public_number (ct_workspace c)
    else made = None.
Proof.
  intros Hp Hpos Hlt Ht Hclock. unfold Workspace_new_with_tab.
  destruct (generate_workspace_id c) as [c1 id] eqn:Hg.
  destruct (generated_workspace c c1 id Hpos Hlt Hg) as (Hp1 & Ht1 & Hw1 & Hid & Hnamed & Hnew).
  unfold Tab_new_with_runtime. cbn [TileLayout_new PaneId_alloc]. rewrite Hp1, N.mod_small by done.
  set (c2 := c1 <| ct_pane := (ct_pane c + 1)%N |>).
  assert (Hc2 : ct_pane c2 = (ct_pane c + 1)%N ∧ ct_terminal c2 = ct_terminal c ∧ ct_workspace c2 = (ct_workspace c + 1)%N) by done.
  clearbody c2. destruct Hc2 as (Hp2 & Ht2 & Hw2).
  destruct (sp_started spawn); cbn [negb].
  2:{ intros [= <- <-]. split; [|done]. unfold counters_le. lia. }
  specialize (Hclock eq_refl). unfold launched_terminal.
  destruct (TerminalId_alloc c2 (sp_micros spawn)) as [c3 tid] eqn:Htid.
  destruct (terminal_alloc c2 (sp_micros spawn) c3 tid Hclock) as (Hle & Hp3 & Hw3 & Htn & Htnew); [by rewrite Ht2|done|].
  set (terminal := match argv with Some argv => with_launch_argv _ argv | None => _ end).
  assert (Hterm : tm_id terminal = tid) by (subst terminal; by destruct argv). clearbody terminal.
  set (tab := mkTab _ _ _ _ _ _). set (np := mkNewPane _ _ _). cbn [fmap option_fmap option_map fst snd].
  intros [= <- <-]. unfold counters_le in *. split; [lia|]. eexists _, np, tid. split; [reflexivity|].
  destruct (single_tab_wf (ct_pane c3) tab (ct_pane c) (PaneState_new (tm_id terminal)) eq_refl eq_refl eq_refl ltac:(lia))
    as [Htw Hta]. cbn [pn_attached_terminal_id PaneState_new] in Hta. rewrite Hterm in Hta.
  split_and!; [done|done| | |done| | |done|done].
  - eapply single_tab_workspace_wf; [exact Htw|exact Hta|done..].
  - change (tab_attached tab ++ [] = [(ct_pane c, tid)]). by rewrite Hta.
  - intros (m & n & Hm & Hn & ->). apply Htnew. exists m, n. split_and!; [done|lia|done].
  - destruct Hnamed as (n & Hn & Heq). exists n. split; [lia|done].
Qed.

Lemma app_wf_mono c c' s : counters_le c c' → app_wf c s → app_wf c' s.
Proof.
  intros Hle [Hw Hn Ht Hs]. constructor; [by eapply workspaces_ok_mono|done|done|].
  eapply Forall_impl; [exact Hs|]. intros t. by apply terminal_named_mono.
Qed.

Lemma good_counters c c' s : counters_le c c' → app_wf c s → good_step c s c' s.
Proof. intros Hle Hwf. constructor; [by eapply app_wf_mono|done|apply workspaces_later_refl]. Qed.

Definition host_ok (host : LaunchHost) : Prop := sp_started (lh_spawn host) = true → clock_ok (sp_micros (lh_spawn host)).

Lemma remove_alias_view s p : same_view s (remove_alias_shadowed_by_new_pane s p).
Proof. done. Qed.

Lemma create_workspace_spec c s cwd focus env host :
  app_wf c s → room c s → host_ok host →
  ∃ c' s' made, create_workspace_with_launch_env c s cwd focus env (lh_spawn host) = (c', s', made)
    ∧ good_step c s c' s'
    ∧ match made with
      | Some i => sp_started (lh_spawn host) = true ∧ i = length (as_workspaces s)
          ∧ (∃ w', as_workspaces s' !! i = Some w' ∧ ws_id w' = "w" +:+ encode_public_number (ct_workspace c))
          ∧ ∃ t, all_attached (as_workspaces s') ≡ₚ (ct_pane c, t) :: all_attached (as_workspaces s)
      | None => sp_started (lh_spawn host) = false ∧ s' = s
      end.
Proof.
  intros Hwf [Hrp Hrt [Hrw0 Hrw] Hrn] Hhost. unfold create_workspace_with_launch_env.
  destruct (Workspace_new_with_tab c cwd None env (lh_spawn host)) as [c' made] eqn:Hnew.
  apply new_workspace_spec in Hnew as [Hle Hmade]; [|done..].
  destruct (sp_started (lh_spawn host)) eqn:Hstarted.
  2:{ subst made. eexists c', s, None. split; [reflexivity|]. split; [by apply good_counters|done]. }
  destruct Hmade as (w & np & tid & -> & Hnp & Hterm & Hw & Hatt & Htn & Htnew & Hwn & Hwnew & Hid).
  pose proof Hwf as [Hok Hnav Ht Hs].
  set (s1 := insert_terminal s (np_terminal np) <| as_workspaces ::= λ workspaces, workspaces ++ [w] |>).
  assert (HL1 : as_workspaces s1 = as_workspaces s ++ [w]) by done.
  assert (Hnav1 : as_active s1 = as_active s ∧ as_selected s1 = as_selected s) by done.
  assert (Hall : all_attached (as_workspaces s1) ≡ₚ (ct_pane c, tid) :: all_attached (as_workspaces s)).
  { rewrite HL1, all_attached_app. cbn. rewrite Hatt, app_nil_r. symmetry. apply Permutation_cons_append. }
  assert (Hparts : app_parts c' s1).
  { constructor.
    - rewrite HL1. eapply workspaces_ok_snoc; [by eapply workspaces_ok_mono|done|exact Hatt| |done| | |done].
      + by eapply unnamed_workspace.
      + intros Hp%(all_attached_taken c); [lia|apply Hok].
      + by eapply unnamed_terminal.
    - rewrite <- Hterm in Hall.
      assert (Hs1 : s1 = s <| as_workspaces ::= λ workspaces, workspaces ++ [w] |>
                           <| as_terminal_runtimes ::= λ ids, {[tm_id (np_terminal np)]} ∪ ids |>
                           <| as_terminals ::= <[tm_id (np_terminal np) := np_terminal np]> |>) by reflexivity.
      rewrite Hs1. apply (terminals_ok_open s _ (ct_pane c)); [done|done|exact Hall|].
      rewrite Hterm. intros Hin. rewrite Forall_forall in Hs. by apply Htnew, Hs.
    - eapply Forall_impl; [exact Hs|]. intros t. by apply terminal_named_mono. }
  assert (Hlater : workspaces_later c (as_workspaces s) (as_workspaces s1)).
  { rewrite HL1. apply Forall_app_2; [apply workspaces_later_refl|]. constructor; [|done]. right.
    exists (ct_workspace c). unfold u64_max. split; [lia|done]. }
  assert (Hlen : length (as_workspaces s1) - 1 = length (as_workspaces s)) by (rewrite HL1, length_app; cbn; lia).
  set (s2 := remove_alias_shadowed_by_new_pane s1 (np_pane_id np)).
  assert (Hv : same_view s1 s2) by apply remove_alias_view. clearbody s1 s2. rewrite Hlen. destruct Hv as (HL2 & Hsame & Ha & Hsel).
  assert (Hparts2 : app_parts c' s2).
  { destruct Hparts as [P1 P2 P3]. constructor; [by rewrite HL2| |by destruct Hsame as (_ & _ & ->)].
    eapply terminals_ok_same; [done|done|by rewrite HL2]. }
  rewrite <- HL2 in *. rewrite <- Ha, <- Hsel in Hnav1. clear s1 HL2 Hsame Hparts Hlen Ha Hsel. rename s2 into s1.
  destruct Hnav1 as [Ha Hsel].
  assert (Hi : length (as_workspaces s) < length (as_workspaces s1)) by (rewrite HL1, length_app; cbn; lia).
  assert (Hatw : as_workspaces s1 !! length (as_workspaces s) = Some w).
  { rewrite HL1, lookup_app_r, Nat.sub_diag by lia. done. }
  destruct (focus || bool_decide (as_active s1 = None)) eqn:Hgo.
  - pose proof (switch_workspace_quiet c' s1 (length (as_workspaces s)) (wo_wf _ _ (ap_workspaces _ _ Hparts2))) as Hq.
    eexists _, _, _. split; [reflexivity|]. split; [|split_and!; [done|done| |]].
    + constructor; [|done|].
      * apply app_wf_of; [by eapply quiet_parts|by apply switch_workspace_navigation].
      * eapply workspaces_later_trans; [apply Hle|exact Hlater|]. apply workspaces_later_forall2, (quiet_later c'), Hq.
    + destruct (quiet_at _ _ _ _ _ Hq Hatw) as (w' & Hw' & [_ _ _ Hl]). exists w'. split; [done|]. by rewrite (wl_id _ _ Hl).
    + exists tid. rewrite (quiet_attached _ _ _ (qu_workspaces _ _ _ Hq)). exact Hall.
  - eexists _, _, _. split; [reflexivity|]. split; [|split_and!; [done|done|by exists w|by exists tid]].
    constructor; [|done|done].
    apply app_wf_of; [done|]. apply orb_false_iff in Hgo as [_ Hsome%bool_decide_eq_false].
    rewrite Ha, Hsel. rewrite Ha in Hsome. apply (navigation_grows _ _ _ _ Hnav); [lia|done].
Qed.


Definition total_step (c : Counters) (s : AppState) (o : option (Counters * AppState * Answer)) : Prop :=
  ∃ c' s' a, o = Some (c', s', a) ∧ good_step c s c' s'.

Lemma refused_step c s code : app_wf c s → total_step c s (Some (c, s, Err code)).
Proof. intros Hwf. eexists _, _, _. split; [reflexivity|by apply good_refl]. Qed.

Lemma workspace_created_some c s i w :
  app_wf c s → as_workspaces s !! i = Some w → is_Some (workspace_created_result s i).
Proof.
  intros Hwf Hi. assert (Hlen : 0 < length (ws_tabs w)).
  { pose proof (ww_active _ _ (ws_at _ _ _ _ Hwf Hi)). lia. }
  unfold workspace_created_result. destruct (workspace_info_some _ _ _ Hi) as [? ->]. cbn [mbind option_bind].
  destruct (tab_info_some _ _ _ 0 Hi Hlen) as [? ->]. cbn [mbind option_bind].
  destruct (root_pane_info_some _ _ _ _ 0 Hwf Hi Hlen) as [? ->]. by eexists.
Qed.

Lemma tab_created_some c s i w j :
  app_wf c s → as_workspaces s !! i = Some w → j < length (ws_tabs w) → is_Some (tab_created_result s i j).
Proof.
  intros Hwf Hi Hlen. unfold tab_created_result.
  destruct (tab_info_some _ _ _ j Hi Hlen) as [? ->]. cbn [mbind option_bind].
  destruct (root_pane_info_some _ _ _ _ j Hwf Hi Hlen) as [? ->]. by eexists.
Qed.

Lemma workspace_create_good c s host cwd label focus env :
  app_wf c s → room c s → host_ok host → total_step c s (handle_workspace_create c s host cwd label focus env).
Proof.
  intros Hwf Hroom Hhost. unfold handle_workspace_create. set (dir := match cwd with Some cwd => cwd | None => _ end).
  clearbody dir. destruct (normalize_launch_env env) as [extra|code]; [|by apply refused_step].
  destruct (create_workspace_spec c s dir focus extra host Hwf Hroom Hhost) as (c' & s' & made & -> & Hg & Hmade).
  destruct made as [i|]; [|by eexists _, _, _]. destruct Hmade as (_ & _ & (w & Hi & _) & _).
  set (s2 := match label with Some label => _ | None => s' end).
  assert (Hq : quiet c' s' s2).
  { subst s2. destruct label; [apply rename_quiet, Hg|]. apply quiet_refl, Hg. }
  clearbody s2. assert (Hg2 : good_step c s c' s2) by by eapply good_quiet.
  destruct (quiet_at _ _ _ _ _ Hq Hi) as (w' & Hi' & _).
  destruct (workspace_created_some _ _ _ _ (gs_wf _ _ _ _ Hg2) Hi') as [created ->]. by eexists _, _, _.
Qed.

(** What a new pane of a workspace leaves *)
Lemma new_pane_good c c' s i w w' tid np :
  app_wf c s → as_workspaces s !! i = Some w → ws_wf c' w' → numbers_kept w w' → counters_le c c' →
  tm_id (np_terminal np) = tid → terminal_named c' tid → ¬ terminal_named c tid →
  attached (ws_tabs w') ≡ₚ (ct_pane c, tid) :: attached (ws_tabs w) →
  let s2 := insert_terminal (set_workspace s i w') (np_terminal np) in
  good_step c s c' s2 ∧ as_workspaces s2 !! i = Some w'
  ∧ all_attached (as_workspaces s2) ≡ₚ (ct_pane c, tid) :: all_attached (as_workspaces s).
Proof.
  intros Hwf Hi Hw' Hkept Hle Hterm Htn Htnew Hatt s2.
  destruct (gain_pane c c' s (set_workspace s i w') i w w' tid (np_terminal np)) as (Hwf' & Hall & Hlater);
    [done|done|done|by apply numbers_kept_later|done..|by apply navigation_set, Hwf|].
  split; [by constructor|]. split; [|exact Hall].
  change (<[i := w']> (as_workspaces s) !! i = Some w'). apply list_lookup_insert_eq. by eapply lookup_lt_Some.
Qed.

Lemma started_terminal c c1 c' tid spawn :
  c1 = c <| ct_pane ::= N.succ |> → clock_ok (sp_micros spawn) → (ct_terminal c + 1 < 2 ^ 64)%N →
  TerminalId_alloc c1 (sp_micros spawn) = (c', tid) →
  counters_le c c' ∧ terminal_named c' tid ∧ ¬ terminal_named c tid.
Proof.
  intros Hc1 Hclock Ht Halloc.
  assert (Hf : ct_pane c1 = N.succ (ct_pane c) ∧ ct_terminal c1 = ct_terminal c ∧ ct_workspace c1 = ct_workspace c) by by subst c1.
  clear Hc1. destruct Hf as (Hp & Ht1 & Hw).
  destruct (terminal_alloc c1 (sp_micros spawn) c' tid Hclock) as (Hle & _ & _ & Hn & Hnew); [by rewrite Ht1|done|].
  unfold counters_le in *. split_and!; [lia|lia|lia|done|].
  intros (m & n & Hm & Hn' & ->). apply Hnew. exists m, n. split_and!; [done|lia|done].
Qed.

Lemma pane_counter_le c : counters_le c (c <| ct_pane ::= N.succ |>).
Proof. unfold counters_le. cbn. lia. Qed.

Lemma room_at c s i w :
  room c s → as_workspaces s !! i = Some w →
  (ws_next_public_tab_number w + 1 < 2 ^ 64)%N ∧ (ws_next_public_pane_number w + 1 < 2 ^ 64)%N.
Proof. intros Hroom Hi. pose proof (rm_numbers _ _ Hroom) as Hall. by apply (Forall_lookup_1 _ _ _ _ Hall Hi). Qed.

Lemma tab_create_good c s host id cwd label focus env :
  app_wf c s → room c s → host_ok host → total_step c s (handle_tab_create c s host id cwd label focus env).
Proof.
  intros Hwf Hroom Hhost. unfold handle_tab_create.
  destruct (match id with Some id => _ | None => _ end) as [i|]; [|by apply refused_step].
  set (dir := match cwd with Some cwd => cwd | None => _ end). clearbody dir. cbv zeta.
  destruct (normalize_launch_env env) as [extra|code]; [|by apply refused_step].
  destruct (as_workspaces s !! i) as [w|] eqn:Hi; [|by apply refused_step].
  destruct (room_at _ _ _ _ Hroom Hi) as [Hnt Hnp].
  destruct (create_tab_spec c w dir None extra (lh_spawn host) (ws_at _ _ _ _ Hwf Hi)) as (c' & w' & made & -> & Hw' & Hkept & _ & Hmade);
    [apply Hroom|done..|]. cbn [mbind option_bind].
  destruct (sp_started (lh_spawn host)) eqn:Hstarted.
  - destruct Hmade as (tid & np & Halloc & -> & Hnpid & Hterm & _ & _ & (tab & Htabs & _ & Htab)).
    destruct (started_terminal _ _ c' tid (lh_spawn host) eq_refl (Hhost Hstarted) (rm_terminal _ _ Hroom) Halloc) as (Hle & Htn & Htnew).
    destruct (new_pane_good c c' s i w w' tid np Hwf Hi) as (Hg & Hi' & _); [done..| |].
    { rewrite Htabs, attached_app, attached_single, Htab. symmetry. apply Permutation_cons_append. }
    set (s1 := insert_terminal (set_workspace s i w') (np_terminal np)) in *. clearbody s1.
    assert (Hg1 : good_step c s c' (remove_alias_shadowed_by_new_pane s1 (np_pane_id np))) by by eapply good_view.
    change (as_workspaces s1) with (as_workspaces (remove_alias_shadowed_by_new_pane s1 (np_pane_id np))) in Hi'.
    set (s2 := remove_alias_shadowed_by_new_pane s1 (np_pane_id np)) in *. clearbody s2.
    set (s3 := match label with Some label => _ | None => s2 end).
    assert (Hq3 : quiet c' s2 s3).
    { subst s3. destruct label; [apply rename_tab_quiet, Hg1|]. apply quiet_refl, Hg1. }
    clearbody s3. assert (Hg3 : good_step c s c' s3) by by eapply good_quiet.
    set (s4 := if focus then (switch_workspace_tab s3 i (length (ws_tabs w))).1 else s3).
    assert (Hq4 : quiet c' s3 s4).
    { subst s4. destruct focus; [apply switch_workspace_tab_quiet, Hg3|]. apply quiet_refl, Hg3. }
    clearbody s4. assert (Hg4 : good_step c s c' s4) by by eapply good_quiet.
    destruct (quiet_at _ _ _ _ _ (quiet_trans _ _ _ _ Hq3 Hq4) Hi') as (w4 & Hi4 & Hlen%wq_tabs).
    destruct (tab_created_some c' s4 i w4 (length (ws_tabs w)) (gs_wf _ _ _ _ Hg4) Hi4) as [created ->].
    { rewrite Hlen, Htabs, length_app. cbn. lia. }
    by eexists _, _, _.
  - destruct Hmade as (-> & -> & Htabs). eexists _, _, _. split; [reflexivity|].
    set (c1 := c <| ct_pane ::= N.succ |>) in *.
    assert (Hg : good_step c s c1 s) by (apply good_counters; [apply pane_counter_le|done]).
    eapply good_quiet; [exact Hg|]. eapply set_quiet; [exact Hi|apply Hg|].
    constructor; [done|by rewrite Htabs|by rewrite Htabs|by apply numbers_kept_later].
Qed.

Lemma focused_pane_of_some c s k i p :
  app_wf c s → focused_pane_of s k = Some (i, p) →
  ∃ w, as_workspaces s !! i = Some w ∧ p ∈ (attached (ws_tabs w)).*1.
Proof.
  intros Hwf (w & Hi & (q & (t & Ht & ->)%fmap_Some & [= <- <-])%bind_Some)%bind_Some. exists w. split; [done|].
  pose proof (ws_at _ _ _ _ Hwf Hi) as Hw. apply attached_pane. exists t. split; [by eapply list_elem_of_lookup_2|].
  assert (Htw : tab_wf (ct_pane c) t) by (eapply tabs_ok_lookup; [apply Hw|done]). apply Htw, (tw_layout _ _ Htw).
Qed.

Lemma resolve_optional_some c s id i p :
  app_wf c s → resolve_optional_pane s id = Some (i, p) →
  ∃ w, as_workspaces s !! i = Some w ∧ p ∈ (attached (ws_tabs w)).*1.
Proof.
  intros Hwf. unfold resolve_optional_pane. destruct id as [id|].
  - intros Hp. eapply parse_pane_id_some; [apply Hwf|done].
  - intros (k & _ & Hp)%bind_Some. by apply (focused_pane_of_some c s k i p).
Qed.

Lemma quiet_insert_terminal c s s' T : quiet c s s' → quiet c (insert_terminal s T) (insert_terminal s' T).
Proof.
  intros [(Ht & Hr & Hs) Hw Hn]. constructor; [|exact Hw|exact Hn].
  unfold same_terminals, insert_terminal, update; cbn. by rewrite Ht, Hr, Hs.
Qed.

Lemma quiet_alias c s p : Forall (ws_wf c) (as_workspaces s) → quiet c s (remove_alias_shadowed_by_new_pane s p).
Proof. intros Hwf. eapply quiet_view; [by apply quiet_refl|done]. Qed.

Lemma pane_split_good c s host target id direction ratio cwd focus env :
  app_wf c s → room c s → host_ok host → ratio_wf ratio →
  total_step c s (handle_pane_split c s host target id direction ratio cwd focus env).
Proof.
  intros Hwf Hroom Hhost Hratio. unfold handle_pane_split. cbv zeta.
  destruct (match target with Some _ => _ | None => _ end) as [[i p]|] eqn:Htarget; [|by apply refused_step].
  assert (Hp : ∃ w, as_workspaces s !! i = Some w ∧ p ∈ (attached (ws_tabs w)).*1).
  { destruct target as [t|]; [eapply parse_pane_id_some; [apply Hwf|done]|].
    destruct id as [id|]; apply bind_Some in Htarget as (k & _ & Hk); by eapply (focused_pane_of_some c s k i p). }
  clear Htarget. destruct Hp as (w & Hi & Hp).
  destruct (normalize_launch_env env) as [extra|code]; [|by apply refused_step].
  set (dir := match cwd with Some cwd => cwd | None => _ end). clearbody dir. rewrite Hi.
  destruct (room_at _ _ _ _ Hroom Hi) as [_ Hnp].
  destruct (split_pane_spec c w p direction ratio (Some dir) "/" None extra focus (lh_spawn host)
              (ws_at _ _ _ _ Hwf Hi) Hp Hratio (rm_pane _ _ Hroom) Hnp)
    as (j & t & _ & Ht & c' & w' & made & -> & Hmade). cbn [mbind option_bind].
  destruct (sp_started (lh_spawn host)) eqn:Hstarted.
  2:{ destruct Hmade as (-> & -> & ->). eexists _, _, _. split; [reflexivity|].
      assert (Hg : good_step c s (c <| ct_pane ::= N.succ |>) s) by (apply good_counters; [apply pane_counter_le|done]).
      eapply good_quiet; [exact Hg|]. eapply set_quiet; [exact Hi|apply Hg|]. apply ws_quiet_refl. by eapply ws_at; [apply Hg|]. }
  destruct Hmade as (Hw' & Hkept & tid & np & Halloc & -> & Hnpid & Hterm & _ & _ & Hatt).
  destruct (started_terminal _ _ c' tid (lh_spawn host) eq_refl (Hhost Hstarted) (rm_terminal _ _ Hroom) Halloc) as (Hle & Htn & Htnew).
  destruct (new_pane_good c c' s i w w' tid np Hwf Hi Hw' Hkept Hle Hterm Htn Htnew Hatt) as (Hg & Hi' & _).
  set (s1 := set_workspace s i w') in *.
  assert (Hall1 : Forall (ws_wf c') (as_workspaces s1)) by apply (wo_wf _ _ (aw_workspaces _ _ (gs_wf _ _ _ _ Hg))).
  set (s2 := if focus then _ else s1).
  assert (Hq : quiet c' s1 s2).
  { subst s2. destruct focus; [|by apply quiet_refl].
    pose proof (switch_workspace_tab_quiet c' s1 i j Hall1) as Hq1. eapply quiet_trans; [exact Hq1|].
    apply record_focus_quiet. eapply quiet_wf, Hq1. }
  clearbody s2. set (s3 := remove_alias_shadowed_by_new_pane s2 (np_pane_id np)).
  assert (Hq3 : quiet c' (insert_terminal s1 (np_terminal np)) (insert_terminal s3 (np_terminal np))).
  { apply quiet_insert_terminal. eapply quiet_trans; [exact Hq|]. apply quiet_alias. eapply quiet_wf, Hq. }
  clearbody s3. destruct (quiet_at _ _ _ _ _ Hq3 Hi') as (w3 & Hi3 & [_ Ha3 _ _]).
  assert (Hg3 : good_step c s c' (insert_terminal s3 (np_terminal np))) by by eapply good_quiet.
  destruct (pane_info_some c' _ i w3 (np_pane_id np) (gs_wf _ _ _ _ Hg3) Hi3) as [pane ->].
  { rewrite Ha3, Hnpid, Hatt. by left. }
  by eexists _, _, _.
Qed.

(** *** Moving a pane *)

(** Where identifiers lead *)
Lemma rsplit_once_none c q (s : string) : c ∉ str_bytes s → rsplit_once (String c q) s = None.
Proof.
  induction s as [|x s IH]; [done|]. intros Hs. cbn [rsplit_once]. change (str_bytes (String x s)) with (x :: str_bytes s) in Hs.
  apply not_elem_of_cons in Hs as [Hx Hs]. rewrite (IH Hs). cbn [strip_prefix]. by rewrite bool_decide_false by done.
Qed.

Lemma rsplit_once_last c q (a b : string) :
  c ∉ str_bytes (q +:+ b) → rsplit_once (String c q) (a +:+ String c q +:+ b) = Some (a, b).
Proof.
  intros Hb. induction a as [|x a IH].
  - change ("" +:+ String c q +:+ b) with (String c (q +:+ b)). cbn [rsplit_once].
    rewrite rsplit_once_none by done. cbn [strip_prefix]. rewrite bool_decide_true by done.
    by rewrite (proj2 (strip_prefix_spec q (q +:+ b) b)).
  - change (String x a +:+ String c q +:+ b) with (String x (a +:+ String c q +:+ b)). cbn [rsplit_once]. by rewrite IH.
Qed.

Lemma number_without c (n : N) : c ∉ PUBLIC_ID_ALPHABET → c ∉ str_bytes (encode_public_number n).
Proof.
  intros Hc Hin. pose proof (encode_number_alphabet n) as Hall. rewrite Forall_forall in Hall. by apply Hc, Hall.
Qed.

(** A workspace is found by its identifier, *)
Lemma parse_own_workspace s i w :
  NoDup (ws_id <$> as_workspaces s) → as_workspaces s !! i = Some w → parse_workspace_id s (ws_id w) = Some i.
Proof.
  intros Hok Hi. unfold parse_workspace_id.
  destruct (position_of (as_workspaces s) w) as (j & -> & Hj); [done|by eapply list_elem_of_lookup_2|].
  f_equal. eapply (NoDup_lookup (ws_id <$> as_workspaces s) j i (ws_id w)); [done| |];
    rewrite list_lookup_fmap; [by rewrite Hj|by rewrite Hi].
Qed.

(** a tab by its own. *)
Lemma parse_own_tab c s i w j t :
  NoDup (ws_id <$> as_workspaces s) → workspace_named c (ws_id w) → as_workspaces s !! i = Some w →
  ws_tabs w !! j = Some t → NoDup (tb_number <$> ws_tabs w) → (0 < tb_number t ≤ u64_max)%N →
  parse_tab_id s (public_tab_id_for_number (ws_id w) (tb_number t)) = Some (i, j).
Proof.
  intros Hok (k & _ & Hid) Hi Hj Hnd Hn. unfold parse_tab_id, public_tab_id_for_number.
  pose proof (parse_own_workspace s i w Hok Hi) as Hws.
  assert (Hstrip : strip_prefix "t_" (ws_id w +:+ ":t" +:+ encode_public_number (tb_number t)) = None) by by rewrite Hid.
  rewrite Hstrip. change (":t" +:+ encode_public_number (tb_number t)) with (":" +:+ ("t" +:+ encode_public_number (tb_number t))).
  change (":" +:+ ?x) with (String ":" "" +:+ x). rewrite rsplit_once_last.
  2:{ change (":"%char ∉ "t"%char :: str_bytes (encode_public_number (tb_number t))). rewrite not_elem_of_cons. split; [done|].
      apply number_without. by apply (bool_decide_unpack _). }
  cbn [mbind option_bind]. rewrite Hws. cbn [mbind option_bind].
  rewrite (proj2 (strip_prefix_spec "t" _ (encode_public_number (tb_number t)))) by done.
  rewrite decode_encode_number by done. cbn [mbind option_bind]. rewrite Hi. cbn [mbind option_bind].
  assert (Hfind : fst <$> list_find (λ tab, tb_number tab = tb_number t) (ws_tabs w) = Some j).
  { apply fmap_Some. exists (j, t). split; [|done]. apply list_find_Some. split_and!; [done..|].
    intros k' t' Hk Hlt Heq. assert (k' = j); [|lia].
    eapply (NoDup_lookup (tb_number <$> ws_tabs w) k' j (tb_number t)); [done| |]; rewrite list_lookup_fmap.
    - rewrite Hk. cbn. by f_equal.
    - by rewrite Hj. }
  rewrite Hfind. cbn [mbind option_bind]. by rewrite Hj.
Qed.

(** *** Moving a pane *)

(** The pane of a move and where it is *)
Record source_ok (s : AppState) (src : MoveSource) (w : Workspace) (t : Tab) : Prop := mk_source_ok {
  so_workspace : as_workspaces s !! ms_ws_idx src = Some w;
  so_tab : ws_tabs w !! ms_tab_idx src = Some t;
  so_pane : is_Some (tb_panes t !! ms_pane src);
  so_id : ms_workspace_id src = ws_id w;
}.

(** A position of a workspace that does not exist is not asked for. *)
Definition destination_ok (s : AppState) (destination : PaneMoveDestination) : Prop :=
  match destination with
  | PaneMoveDestination.Tab _ _ _ ratio => ratio_wf ratio
  | PaneMoveDestination.NewTab (Some id) _ =>
      ∀ k, parse_workspace_id s id = Some k → k < length (as_workspaces s)
  | _ => True
  end.

Definition resolved_ok (s : AppState) (src : MoveSource) (resolved : ResolvedPaneMoveDestination) : Prop :=
  match resolved with
  | ResolvedPaneMoveDestination.ExistingTab tab_id target _ ratio cross =>
      f32_wf ratio ∧ ∃ i w j t, as_workspaces s !! i = Some w ∧ ws_tabs w !! j = Some t
        ∧ tab_id = public_tab_id_for_number (ws_id w) (tb_number t) ∧ target ∈ pane_ids (tb_layout t)
        ∧ tb_panes t !! ms_pane src = None ∧ cross = negb (bool_decide (ms_ws_idx src = i))
  | ResolvedPaneMoveDestination.NewTab id _ => ∃ i w, as_workspaces s !! i = Some w ∧ id = ws_id w
  | ResolvedPaneMoveDestination.NewWorkspace _ _ => True
  end.

Lemma pane_one_workspace c s i i' w w' p :
  app_wf c s → as_workspaces s !! i = Some w → as_workspaces s !! i' = Some w' →
  p ∈ (attached (ws_tabs w)).*1 → p ∈ (attached (ws_tabs w')).*1 → i = i'.
Proof.
  intros Hwf Hi Hi' Hp Hp'. destruct (decide (i = i')) as [|Hne]; [done|exfalso].
  assert (Hnd := wo_panes _ _ (aw_workspaces _ _ Hwf)).
  rewrite (all_attached_lookup _ _ _ Hi), fmap_app in Hnd. apply NoDup_app in Hnd as (_ & Hdis & _).
  apply (Hdis p Hp). apply all_attached_pane. exists w'. split; [|done].
  eapply (other_stays (as_workspaces s) i w); [done|by eapply list_elem_of_lookup_2|]. intros ->.
  apply Hne. eapply (NoDup_lookup (ws_id <$> as_workspaces s) i i' (ws_id w));
    [apply (aw_workspaces _ _ Hwf)|by rewrite list_lookup_fmap, Hi|by rewrite list_lookup_fmap, Hi'].
Qed.

Lemma other_tab_without c s i i' w w' j j' t t' p :
  app_wf c s → as_workspaces s !! i = Some w → as_workspaces s !! i' = Some w' →
  ws_tabs w !! j = Some t → ws_tabs w' !! j' = Some t' → is_Some (tb_panes t !! p) →
  bool_decide (i = i') && bool_decide (j = j') = false → tb_panes t' !! p = None.
Proof.
  intros Hwf Hi Hi' Hj Hj' Hp Hne. apply eq_None_not_Some. intros Hp'.
  assert (i = i') as <-.
  { eapply (pane_one_workspace c s i i' w w' p); [done..| |]; apply attached_pane;
      [exists t|exists t']; (split; [by eapply list_elem_of_lookup_2|done]). }
  assert (w' = w) as -> by congruence. rewrite bool_decide_true in Hne by done. apply bool_decide_eq_false in Hne.
  apply Hne. eapply pane_one_tab; [|exact Hj|exact Hj'|done|done]. apply (ww_core _ _ (ws_at _ _ _ _ Hwf Hi)).
Qed.

Lemma resolve_existing_spec c s src w t tab_id target split ratio :
  app_wf c s → source_ok s src w t → ratio_wf ratio →
  ∃ r, resolve_existing_tab s src tab_id target split ratio = Some r
       ∧ match r with inl resolved => resolved_ok s src resolved | inr _ => True end.
Proof.
  intros Hwf [Hi Hj Hp Hid] Hr. unfold resolve_existing_tab.
  destruct (parse_tab_id s tab_id) as [[i' j']|] eqn:Htab; [|by eexists].
  destruct (parse_tab_id_some _ _ _ _ Htab) as (w' & t' & Hi' & Hj').
  destruct (bool_decide (ms_ws_idx src = i') && bool_decide (ms_tab_idx src = j')) eqn:Hsame; [by eexists|].
  rewrite Hi'. cbn [mbind option_bind]. rewrite Hj'. cbn [mbind option_bind].
  destruct (tb_zoomed t'); [by eexists|].
  assert (Ht' : tab_wf (ct_pane c) t') by (eapply tabs_ok_lookup; [apply (ws_at _ _ _ _ Hwf Hi')|done]).
  rewrite (public_tab_id_at _ _ _ _ _ Hi' Hj').
  assert (Hr' : f32_wf (default f32_0_5 ratio)) by (destruct ratio; [done|by vm_compute]).
  assert (Hok : ∀ q, q ∈ pane_ids (tb_layout t') →
    resolved_ok s src (ResolvedPaneMoveDestination.ExistingTab (public_tab_id_for_number (ws_id w') (tb_number t')) q split
                         (default f32_0_5 ratio) (negb (bool_decide (ms_ws_idx src = i'))))).
  { intros q Hq. split; [done|]. exists i', w', j', t'. split_and!; [done..| |done]. by apply (other_tab_without c s (ms_ws_idx src) i' w w' (ms_tab_idx src) j' t t'). }
  destruct target as [raw|]; [|eexists; split; [reflexivity|]; apply Hok, Ht'].
  destruct (parse_pane_id s raw) as [[i2 q]|] eqn:Hq; [|by eexists].
  apply (parse_pane_id_some c) in Hq as (w2 & Hi2 & Hq); [|apply Hwf]. rewrite Hi2. cbn [mbind option_bind].
  destruct (bool_decide (i2 = i') && _) eqn:Hin; [|by eexists].
  apply andb_true_iff in Hin as [->%bool_decide_eq_true Hfind%bool_decide_eq_true].
  eexists. split; [reflexivity|]. apply Hok. assert (w2 = w') as -> by congruence.
  destruct (find_tab_index_some _ _ _ _ Hfind Hj') as [st Hst]. apply Ht'. by exists st.
Qed.

Lemma resolve_destination_spec c s src w t destination :
  app_wf c s → source_ok s src w t → destination_ok s destination →
  ∃ r, resolve_destination s src destination = Some r
       ∧ match r with inl resolved => resolved_ok s src resolved | inr _ => True end.
Proof.
  intros Hwf Hsrc Hok. destruct destination as [tab_id target split ratio|id label|label tab_label]; cbn [resolve_destination].
  - by eapply resolve_existing_spec.
  - destruct Hsrc as [Hi Hj Hp Hid]. destruct id as [id|].
    + cbn in Hok. destruct (parse_workspace_id s id) as [k|]; [|by eexists].
      destruct (lookup_lt_is_Some_2 _ _ (Hok k eq_refl)) as [w' Hw']. unfold public_workspace_id. rewrite Hw'. cbn.
      eexists. split; [reflexivity|]. by exists k, w'.
    + eexists. split; [reflexivity|]. by exists (ms_ws_idx src), w.
  - by eexists.
Qed.


Lemma remove_workspace_navigation s i :
  navigation_ok (length (as_workspaces s)) (as_active s) (as_selected s) → i < length (as_workspaces s) →
  let s' := remove_workspace_at s i in
  as_workspaces s' = delete i (as_workspaces s) ∧ same_terminals s s'
  ∧ navigation_ok (length (as_workspaces s')) (as_active s') (as_selected s').
Proof.
  intros Hnav Hi. unfold remove_workspace_at. cbv zeta.
  change (as_workspaces (s <| as_workspaces ::= delete i |>)) with (delete i (as_workspaces s)).
  assert (Hlen : length (delete i (as_workspaces s)) = length (as_workspaces s) - 1).
  { apply length_delete. by apply lookup_lt_is_Some_2. }
  case_bool_decide as Hnil.
  - split_and!; [done|done|]. change (navigation_ok (length (delete i (as_workspaces s))) None 0). by rewrite Hnil.
  - split_and!; [done|done|]. unfold update; cbn. rewrite Hlen.
    assert (Hcount : length (delete i (as_workspaces s)) ≠ 0) by by destruct (delete i (as_workspaces s)).
    rewrite Hlen in Hcount. destruct (length (as_workspaces s)) as [|count]; [lia|].
    destruct Hnav as [(a & -> & Ha) Hs]. replace (S count - 1) with count in * by lia. destruct count as [|count]; [lia|].
    split; [eexists; split; [reflexivity|]|]; repeat case_bool_decide; lia.
Qed.

(** The state while a pane is nowhere: a workspace that keeps its place has lost
    the pane, or there are other workspaces only. *)
Record pane_away (c : Counters) (s s1 : AppState) (p : PaneId) (tid : string) : Prop := mk_pane_away {
  aw_ok : workspaces_ok c (as_workspaces s1);
  aw_rest : all_attached (as_workspaces s) ≡ₚ (p, tid) :: all_attached (as_workspaces s1);
  aw_same : same_terminals s s1;
  aw_nav : navigation_ok (length (as_workspaces s1)) (as_active s1) (as_selected s1);
  aw_later : workspaces_later c (as_workspaces s) (as_workspaces s1);
}.

Lemma attached_one_less c L i w w' p tid :
  workspaces_ok c L → L !! i = Some w → ws_wf c w' → ws_id w' = ws_id w →
  attached (ws_tabs w) ≡ₚ (p, tid) :: attached (ws_tabs w') →
  workspaces_ok c (<[i := w']> L) ∧ all_attached L ≡ₚ (p, tid) :: all_attached (<[i := w']> L).
Proof.
  intros Hok Hi Hw' Hid Hatt. split.
  - eapply workspaces_ok_set; [done..|]. rewrite Hatt. by apply submseteq_cons.
  - by rewrite (all_attached_set _ _ _ _ Hi), (all_attached_lookup _ _ _ Hi), Hatt.
Qed.

(** A pane leaves for another workspace; the other ones stay. *)
Lemma leave_cross c s src w w' tid :
  app_wf c s → as_workspaces s !! ms_ws_idx src = Some w → ws_ready c w' (ms_pane src) → numbers_kept w w' →
  attached (ws_tabs w) ≡ₚ (ms_pane src, tid) :: attached (ws_tabs w') →
  let '(s1, closed) := leave_workspace (set_workspace s (ms_ws_idx src) w') src true (bool_decide (ws_tabs w' = [])) in
  pane_away c s s1 (ms_pane src) tid ∧ (∀ v, v ∈ as_workspaces s → v ≠ w → v ∈ as_workspaces s1)
  ∧ closed = (if bool_decide (ws_tabs w' = []) then Some (ms_workspace_id src) else None).
Proof.
  intros Hwf Hi Hready Hkept Hatt. unfold leave_workspace. set (i := ms_ws_idx src) in *. set (p := ms_pane src) in *.
  set (s0 := update_workspace (set_workspace s i w') i (λ ws, unregister_moved_pane ws p)
               <| as_public_pane_id_aliases ::= <[ms_pane_id src := p]> |>).
  assert (Hlt := lookup_lt_Some _ _ _ Hi).
  assert (Hs0 : as_workspaces s0 = <[i := unregister_moved_pane w' p]> (as_workspaces s) ∧ same_terminals s s0
                ∧ as_active s0 = as_active s ∧ as_selected s0 = as_selected s).
  { split_and!; [|done..].
    change (alter (λ ws, unregister_moved_pane ws p) i (<[i := w']> (as_workspaces s)) = <[i := unregister_moved_pane w' p]> (as_workspaces s)).
    rewrite (alter_insert _ _ _ w') by by apply list_lookup_insert_eq. by rewrite list_insert_insert_eq. }
  clearbody s0. destruct Hs0 as (HL0 & Hsame0 & Ha0 & Hs0). pose proof Hwf as [Hok Hnav _ _]. rewrite andb_true_r.
  case_bool_decide as Hnil.
  - rewrite Hnil in Hatt. destruct (remove_workspace_navigation s0 i) as (HL1 & Hsame1 & Hnav1).
    { rewrite HL0, Ha0, Hs0. by apply navigation_set. }
    { by rewrite HL0, length_insert. }
    rewrite HL0, delete_insert_list in HL1. split_and!; [|intros v Hv Hne; rewrite HL1; by eapply other_stays|done].
    constructor; [by rewrite HL1; apply workspaces_ok_delete| |by etrans|done|by rewrite HL1; apply workspaces_later_delete].
    by rewrite HL1, (all_attached_lookup _ _ _ Hi), Hatt.
  - destruct (unregister_spec c w' p Hready Hnil) as [Hw'' Hkept'].
    assert (Hlater : ws_later w (unregister_moved_pane w' p)) by (etrans; by apply numbers_kept_later).
    destruct (attached_one_less c (as_workspaces s) i w (unregister_moved_pane w' p) p tid Hok Hi Hw'' (wl_id _ _ Hlater) Hatt)
      as [Hok' Hrest].
    split_and!; [|intros v Hv Hne; rewrite HL0; by eapply other_stays_set|done].
    constructor; [by rewrite HL0|by rewrite HL0|done|rewrite HL0, Ha0, Hs0; by apply navigation_set|].
    rewrite HL0. by apply (workspaces_later_set c _ _ w).
Qed.

(** The state once the pane is somewhere again *)
Record pane_placed (c : Counters) (s : AppState) (c' : Counters) (s' : AppState) (p : PaneId) (i j : nat) : Prop := mk_placed {
  pl_ok : workspaces_ok c' (as_workspaces s');
  pl_all : all_attached (as_workspaces s') ≡ₚ all_attached (as_workspaces s);
  pl_same : same_terminals s s';
  pl_nav : as_active s' ≠ None → navigation_ok (length (as_workspaces s')) (as_active s') (as_selected s');
  pl_later : workspaces_later c (as_workspaces s) (as_workspaces s');
  pl_counters : counters_le c c';
  pl_there : ∃ w, as_workspaces s' !! i = Some w ∧ j < length (ws_tabs w) ∧ p ∈ (attached (ws_tabs w)).*1;
}.

(** Where the pane is now: beside the pane that the move resolved to, alone in a
    new tab, or alone in a new workspace *)
Definition put (s : AppState) (p : PaneId) (resolved : ResolvedPaneMoveDestination) (s2 : AppState) (i j : nat) : Prop :=
  ∃ w' t', as_workspaces s2 !! i = Some w' ∧ ws_tabs w' !! j = Some t' ∧ is_Some (tb_panes t' !! p) ∧
  match resolved with
  | ResolvedPaneMoveDestination.ExistingTab id target split ratio _ =>
      ∃ w t, w ∈ as_workspaces s ∧ t ∈ ws_tabs w ∧ id = public_tab_id_for_number (ws_id w) (tb_number t)
        ∧ ws_id w' = ws_id w ∧ tb_number t' = tb_number t
        ∧ tl_root (tb_layout t') = split_at (tl_root (tb_layout t)) target split p (valid_split_ratio ratio)
  | ResolvedPaneMoveDestination.NewTab id _ =>
      ws_id w' = id ∧ length (ws_tabs w') = S j ∧ tl_root (tb_layout t') = Node.Pane p
      ∧ ∀ w t, w ∈ as_workspaces s → ws_id w = id → t ∈ ws_tabs w → tb_number t ≠ tb_number t'
  | ResolvedPaneMoveDestination.NewWorkspace _ _ =>
      ws_id w' ∉ ws_id <$> as_workspaces s ∧ length (ws_tabs w') = 1 ∧ tl_root (tb_layout t') = Node.Pane p
  end.

Lemma put_quiet c s p resolved s2 s3 i j : put s p resolved s2 i j → quiet c s2 s3 → put s p resolved s3 i j.
Proof.
  intros (w' & t' & Hi & Hj & Hp & Hres) Hq. destruct (quiet_at _ _ _ _ _ Hq Hi) as (w3 & Hi3 & Hw3).
  assert (Hshape : tab_shape <$> ws_tabs w3 !! j = Some (tab_shape t')).
  { by rewrite <- list_lookup_fmap, (wq_shapes _ _ _ Hw3), list_lookup_fmap, Hj. }
  apply fmap_Some in Hshape as (t3 & Hj3 & [= Hnumber Hatt Hroot]). exists w3, t3. split_and!; [done..| |].
  - apply tab_attached_panes. rewrite <- Hatt. by apply tab_attached_panes.
  - by rewrite (wq_tabs _ _ _ Hw3), (wl_id _ _ (wq_later _ _ _ Hw3)), <- Hnumber, <- Hroot.
Qed.

(** A workspace is known by its identifier. *)
Lemma workspace_of_id c s v w :
  app_wf c s → v ∈ as_workspaces s → w ∈ as_workspaces s → ws_id v = ws_id w → v = w.
Proof.
  intros Hwf (i & Hi)%list_elem_of_lookup (k & Hk)%list_elem_of_lookup Hid.
  assert (i = k) as <-; [|congruence].
  eapply (NoDup_lookup (ws_id <$> as_workspaces s) i k (ws_id w)); [apply (aw_workspaces _ _ Hwf)| |];
    rewrite list_lookup_fmap, ?Hi, ?Hk; [|done]. cbn. by f_equal.
Qed.

(** The number of the next tab is not one of a tab that is there. *)
Lemma next_tab_number_new c w t : ws_wf c w → t ∈ ws_tabs w → tb_number t ≠ ws_next_public_tab_number w.
Proof.
  intros [[[_ _ _ Hb] _ _] _ _] Ht. rewrite Forall_forall in Hb. specialize (Hb t Ht). cbn in Hb. lia.
Qed.

Lemma away_gone c s s1 p tid :
  app_wf c s → pane_away c s s1 p tid →
  p ∉ (all_attached (as_workspaces s1)).*1 ∧ tid ∉ (all_attached (as_workspaces s1)).*2
  ∧ terminal_named c tid ∧ (p < ct_pane c)%N.
Proof.
  intros Hwf [_ Hrest _ _ _]. pose proof Hwf as [[Hall Hids Hnm Hp Ht Hn] _ _ _].
  assert (Hpin : p ∈ (all_attached (as_workspaces s)).*1) by (rewrite Hrest; by left).
  rewrite Hrest in Hp, Ht, Hn. cbn in Hp, Ht, Hn.
  apply NoDup_cons in Hp as [? _], Ht as [? _]. inversion_clear Hn. split_and!; [done..|].
  by eapply all_attached_taken.
Qed.

(** The pane is put into a workspace that did not have it. *)
Lemma place_cross c s s1 s2 i v v' j p st :
  app_wf c s → pane_away c s s1 p (pn_attached_terminal_id st) → as_workspaces s1 !! i = Some v → ws_wf c v' →
  numbers_kept v v' → attached (ws_tabs v') ≡ₚ (p, pn_attached_terminal_id st) :: attached (ws_tabs v) →
  as_workspaces s2 = <[i := v']> (as_workspaces s1) → same_terminals s1 s2 → as_active s2 = as_active s1 →
  as_selected s2 = as_selected s1 → j < length (ws_tabs v') → pane_placed c s c s2 p i j.
Proof.
  intros Hwf Haway Hi Hv' Hkept Hatt HL Hsame Ha Hs Hj.
  destruct (away_gone _ _ _ _ _ Hwf Haway) as (Hp & Ht & Hn & _). destruct Haway as [Hok Hrest Hsame1 Hnav Hlater].
  assert (Hall : all_attached (as_workspaces s2) ≡ₚ (p, pn_attached_terminal_id st) :: all_attached (as_workspaces s1)).
  { by rewrite HL, (all_attached_set _ _ _ _ Hi), (all_attached_lookup _ _ _ Hi), Hatt. }
  pose proof (numbers_kept_later _ _ Hkept) as Hl. constructor.
  - eapply workspaces_ok_gain; [exact Hok| | |exact Hall|done..].
    + rewrite HL. by apply set_wf; [apply Hok|].
    + by rewrite HL, (set_ids _ _ _ _ Hi (wl_id _ _ Hl)).
  - by rewrite Hall, Hrest.
  - by etrans.
  - intros _. rewrite HL, Ha, Hs. by apply navigation_set.
  - eapply workspaces_later_trans; [done|exact Hlater|]. rewrite HL. by apply (workspaces_later_set c _ _ v).
  - done.
  - exists v'. rewrite HL, list_lookup_insert_eq by by eapply lookup_lt_Some. split_and!; [done..|]. rewrite Hatt. by left.
Qed.

(** It is put back into its own. *)
Lemma place_same c s s2 i w w1 w2 j p tid :
  app_wf c s → as_workspaces s !! i = Some w → ws_wf c w2 → numbers_kept w w1 → numbers_kept w1 w2 →
  attached (ws_tabs w) ≡ₚ (p, tid) :: attached (ws_tabs w1) → attached (ws_tabs w2) ≡ₚ (p, tid) :: attached (ws_tabs w1) →
  as_workspaces s2 = <[i := w2]> (as_workspaces s) → same_terminals s s2 → as_active s2 = as_active s →
  as_selected s2 = as_selected s → j < length (ws_tabs w2) → pane_placed c s c s2 p i j.
Proof.
  intros Hwf Hi Hw2 Hk1 Hk2 Hatt1 Hatt2 HL Hsame Ha Hs Hj. pose proof Hwf as [Hok Hnav _ _].
  assert (Hlater : ws_later w w2) by (etrans; by apply numbers_kept_later).
  assert (Hatt : attached (ws_tabs w2) ≡ₚ attached (ws_tabs w)) by by rewrite Hatt2, Hatt1.
  constructor.
  - rewrite HL. eapply workspaces_ok_set; [done..|apply Hlater|by rewrite Hatt].
  - by rewrite HL, (all_attached_set _ _ _ _ Hi), (all_attached_lookup _ _ _ Hi), Hatt.
  - done.
  - intros _. rewrite HL, Ha, Hs. by apply navigation_set.
  - rewrite HL. by apply (workspaces_later_set c _ _ w).
  - done.
  - exists w2. rewrite HL, list_lookup_insert_eq by by eapply lookup_lt_Some. split_and!; [done..|]. rewrite Hatt2. by left.
Qed.

(** It is put into a workspace of its own. *)
Lemma place_new c s s1 c' label tab_label cwd st p w :
  app_wf c s → (0 < ct_workspace c)%N → (ct_workspace c + 1 < 2 ^ 64)%N →
  pane_away c s s1 p (pn_attached_terminal_id st) →
  Workspace_from_existing_pane c label tab_label cwd (mkMovedPane p st) = (c', w) →
  let s2 := s1 <| as_workspaces ::= λ workspaces, workspaces ++ [w] |> in
  pane_placed c s c' s2 p (length (as_workspaces s1)) 0
  ∧ put s p (ResolvedPaneMoveDestination.NewWorkspace label tab_label) s2 (length (as_workspaces s1)) 0.
Proof.
  intros Hwf Hpos Hlt Haway. unfold Workspace_from_existing_pane.
  destruct (generate_workspace_id c) as [c1 id] eqn:Hg.
  destruct (generated_workspace c c1 id Hpos Hlt Hg) as (Hp1 & Ht1 & Hw1 & Hid & Hnamed & Hnew). intros [= <- <-].
  destruct (away_gone _ _ _ _ _ Hwf Haway) as (Hp & Ht & Hn & Hplt). destruct Haway as [Hok Hrest Hsame Hnav Hlater].
  set (tab := Tab_from_existing_pane 1 tab_label (mkMovedPane p st)).
  destruct (single_tab_wf (ct_pane c1) tab p st eq_refl eq_refl eq_refl ltac:(lia)) as [Htw Hta].
  set (v := single_tab_workspace id label cwd tab).
  assert (Hv : ws_wf c1 v) by (eapply single_tab_workspace_wf; [exact Htw|exact Hta|done..]).
  assert (Hva : attached (ws_tabs v) = [(p, pn_attached_terminal_id st)]).
  { change (tab_attached tab ++ [] = [(p, pn_attached_terminal_id st)]). by rewrite Hta. }
  assert (Hle : counters_le c c1) by (unfold counters_le; lia).
  assert (Hvid : ws_id v = id) by done. assert (Hvt : length (ws_tabs v) = 1) by done.
  assert (Hv0 : ws_tabs v !! 0 = Some tab) by done. clearbody v.
  assert (Hlast : (as_workspaces s1 ++ [v]) !! length (as_workspaces s1) = Some v) by by rewrite lookup_app_r, Nat.sub_diag.
  split.
  2:{ exists v, tab. split_and!; [exact Hlast|exact Hv0| | |done|done].
      - subst tab. change (is_Some (({[p := st]} : gmap PaneId PaneState) !! p)). rewrite lookup_singleton_eq. by eexists.
      - rewrite Hvid. by eapply unnamed_workspace; [apply (aw_workspaces _ _ Hwf)|]. }
  constructor; unfold update; cbn.
  - eapply workspaces_ok_snoc; [by eapply workspaces_ok_mono|done|exact Hva| |by rewrite Hvid|done|done|by eapply terminal_named_mono].
    rewrite Hvid. by eapply unnamed_workspace.
  - rewrite all_attached_app. cbn. rewrite Hva, Hrest. symmetry. apply Permutation_cons_append.
  - exact Hsame.
  - intros Ha. eapply navigation_grows; [exact Hnav| |done]. rewrite length_app. lia.
  - apply Forall_app_2; [exact Hlater|]. constructor; [|done]. right. exists (ct_workspace c).
    rewrite Hvid. unfold u64_max. split; [lia|done].
  - done.
  - exists v. split_and!; [exact Hlast|lia|]. rewrite Hva. by left.
Qed.


Lemma placed_quiet c s c' s2 s3 p i j :
  pane_placed c s c' s2 p i j → quiet c' s2 s3 → (as_active s3 ≠ None → as_active s2 ≠ None) →
  pane_placed c s c' s3 p i j.
Proof.
  intros [Hok Hall Hsame Hnav Hlater Hle (w & Hi & Hj & Hp)] Hq Ha.
  pose proof (quiet_attached _ _ _ (qu_workspaces _ _ _ Hq)) as Hatt. constructor.
  - eapply workspaces_ok_sub; [exact Hok|eapply quiet_wf, Hq|by rewrite (quiet_ids _ _ _ (qu_workspaces _ _ _ Hq))|by rewrite Hatt].
  - by rewrite Hatt.
  - etrans; [exact Hsame|apply Hq].
  - intros Hs. apply Hq, Hnav, Ha, Hs.
  - eapply workspaces_later_trans; [apply Hle|exact Hlater|]. apply workspaces_later_forall2, (quiet_later c'), Hq.
  - done.
  - destruct (quiet_at _ _ _ _ _ Hq Hi) as (w' & Hi' & Hw'). exists w'.
    by rewrite (wq_tabs _ _ _ Hw'), (wq_attached _ _ _ Hw').
Qed.

Lemma tab_number_bounds c s i w j t :
  room c s → as_workspaces s !! i = Some w → ws_wf c w → ws_tabs w !! j = Some t →
  NoDup (tb_number <$> ws_tabs w) ∧ (0 < tb_number t ≤ u64_max)%N.
Proof.
  intros Hroom Hi [[[_ _ Hnd Hb] _ _] _ _] Hj. split; [done|]. destruct (room_at _ _ _ _ Hroom Hi) as [Hnt _].
  rewrite Forall_forall in Hb. specialize (Hb t (list_elem_of_lookup_2 _ _ _ Hj)). cbn in Hb. unfold u64_max. lia.
Qed.

Section placing.
Context (c : Counters) (s : AppState) (src : MoveSource) (w : Workspace) (t : Tab).
Context (Hwf : app_wf c s) (Hroom : room c s) (Hsrc : source_ok s src w t).
Context (context : PaneMoveRecoveryContext) (tid cur : string).

(** What a move does once the pane is taken *)
Definition places (s1 : AppState) (st : PaneState) (resolved : ResolvedPaneMoveDestination) : Prop :=
  ∀ focus, ∃ c' s2 i j,
    place_moved_pane c s1 resolved context tid cur (mkMovedPane (ms_pane src) st) focus = Some (c', s2, Ok (i, j))
    ∧ pane_placed c s c' s2 (ms_pane src) i j ∧ put s (ms_pane src) resolved s2 i j.

Lemma place_in_tab s1 st i v j u tab_id target split ratio cross w2 :
  parse_tab_id s1 tab_id = Some (i, j) → as_workspaces s1 !! i = Some v → ws_tabs v !! j = Some u →
  insert_moved_pane_into_tab v j target (mkMovedPane (ms_pane src) st) split ratio = (w2, Ok (ms_pane src)) →
  pane_placed c s c (set_workspace s1 i w2) (ms_pane src) i j →
  put s (ms_pane src) (ResolvedPaneMoveDestination.ExistingTab tab_id target split ratio cross) (set_workspace s1 i w2) i j →
  places s1 st (ResolvedPaneMoveDestination.ExistingTab tab_id target split ratio cross).
Proof using Type.
  intros Hparse Hi Hj Hins Hplaced Hput focus. unfold place_moved_pane. rewrite Hparse, Hi. cbn [mbind option_bind].
  rewrite Hj. cbn [mbind option_bind]. rewrite Hins. eexists c, _, i, j. split; [reflexivity|].
  destruct focus; [done|].
  assert (Hq := focus_tab_quiet c (set_workspace s1 i w2) i j (tl_focus (tb_layout u)) (wo_wf _ _ (pl_ok _ _ _ _ _ _ _ Hplaced))).
  split; [by eapply placed_quiet|by eapply put_quiet].
Qed.

Lemma put_new_tab s2 st i v v' label :
  as_workspaces s2 !! i = Some v' →
  ws_tabs v' = ws_tabs v ++ [Tab_from_existing_pane (ws_next_public_tab_number v) label (mkMovedPane (ms_pane src) st)] →
  ws_id v' = ws_id v →
  (∀ v0 u, v0 ∈ as_workspaces s → ws_id v0 = ws_id v → u ∈ ws_tabs v0 → tb_number u ≠ ws_next_public_tab_number v) →
  put s (ms_pane src) (ResolvedPaneMoveDestination.NewTab (ws_id v) label) s2 i (length (ws_tabs v)).
Proof using Type.
  intros Hi Htabs Hid Hnew. eexists v', _. rewrite Htabs, lookup_app_r, Nat.sub_diag, length_app by done.
  split_and!; [done|reflexivity| |done|cbn; lia|done|exact Hnew].
  change (is_Some (({[ms_pane src := st]} : gmap PaneId PaneState) !! ms_pane src)). rewrite lookup_singleton_eq. by eexists.
Qed.

Lemma place_in_other_workspace s1 st resolved :
  pane_away c s s1 (ms_pane src) (pn_attached_terminal_id st) →
  (∀ v, v ∈ as_workspaces s → v ≠ w → v ∈ as_workspaces s1) →
  resolved_ok s src resolved → is_cross_workspace src resolved = true → places s1 st resolved.
Proof using Hwf Hroom Hsrc.
  intros Haway Hothers Hok Hcross. pose proof Hsrc as [Hi Hj Hp Hid].
  destruct (away_gone _ _ _ _ _ Hwf Haway) as (Hpgone & _ & _ & Hplt).
  assert (Hready : ∀ i v, as_workspaces s1 !! i = Some v → ws_wf c v ∧ ws_ready c v (ms_pane src)).
  { intros i v Hv. assert (Hvw : ws_wf c v) by (eapply Forall_lookup_1; [apply Haway|done]). split; [done|].
    apply ws_wf_ready; [done|]. intros Hin. apply Hpgone, all_attached_pane. exists v.
    split; [by eapply list_elem_of_lookup_2|done]. }
  destruct resolved as [tab_id target split ratio cross|id label|label tab_label]; cbn [is_cross_workspace] in Hcross.
  - destruct Hok as (Hratio & i & v & j & u & Hv & Hu & -> & Htarget & Hnone & ->).
    apply negb_true_iff, bool_decide_eq_false in Hcross.
    assert (Hvin : v ∈ as_workspaces s1).
    { apply Hothers; [by eapply list_elem_of_lookup_2|]. intros ->. apply Hcross.
      eapply (NoDup_lookup (ws_id <$> as_workspaces s) _ _ (ws_id w)); [apply (aw_workspaces _ _ Hwf)| |];
        by rewrite list_lookup_fmap, ?Hi, ?Hv. }
    apply list_elem_of_lookup in Hvin as [i1 Hv1]. destruct (Hready _ _ Hv1) as [Hvw Hvr].
    destruct (tab_number_bounds _ _ _ _ _ _ Hroom Hv Hvw Hu) as [Hnd Hbound].
    destruct (room_at _ _ _ _ Hroom Hv) as [_ Hnp].
    destruct (insert_moved_pane_spec c v j u target (mkMovedPane (ms_pane src) st) split ratio Hvr Hnp Hu Htarget Hratio Hplt)
      as (w2 & Hins & Hw2 & Hkept & _ & Hatt & (u' & Hu' & Hin' & Hnumber & Hsplit)).
    eapply place_in_tab; [|exact Hv1|exact Hu|exact Hins| |].
    3:{ exists w2, u'. split_and!; [by apply list_lookup_insert_eq; eapply lookup_lt_Some|done|by eexists|].
        exists v, u. split_and!; [by eapply list_elem_of_lookup_2|by eapply list_elem_of_lookup_2|done|apply Hkept|done|done]. }
    + eapply (parse_own_tab c); [apply Haway| |exact Hv1|done..].
      eapply (Forall_lookup_1 (λ ws, workspace_named c (ws_id ws))); [apply (wo_named _ _ (aw_ok _ _ _ _ _ Haway))|exact Hv1].
    + eapply (place_cross c s s1 _ i1 v w2); try done. by eapply lookup_lt_Some.
  - destruct Hok as (i & v & Hv & ->). apply negb_true_iff, bool_decide_eq_false in Hcross.
    assert (Hvin : v ∈ as_workspaces s1).
    { apply Hothers; [by eapply list_elem_of_lookup_2|]. intros ->. by apply Hcross. }
    apply list_elem_of_lookup in Hvin as [i1 Hv1]. destruct (Hready _ _ Hv1) as [Hvw Hvr].
    destruct (room_at _ _ _ _ Hroom Hv) as [Hnt Hnp].
    destruct (create_tab_from_existing_spec c v (mkMovedPane (ms_pane src) st) label Hvr Hnp Hnt Hplt)
      as (w2 & Hcreate & Hw2 & Hkept & _ & Hatt & Htabs).
    intros focus. unfold place_moved_pane. rewrite (parse_own_workspace s1 i1 v) by (done || apply Haway).
    rewrite Hv1. cbn [mbind option_bind]. rewrite Hcreate. eexists c, _, i1, _. split; [reflexivity|].
    assert (Hlast : length (ws_tabs w2) = S (length (ws_tabs v))) by (rewrite Htabs, length_app; cbn; lia). split.
    { eapply (place_cross c s s1 _ i1 v w2); try done. rewrite Hlast. lia. }
    eapply put_new_tab; [by apply list_lookup_insert_eq; eapply lookup_lt_Some|done|apply Hkept|].
    intros v' u Hv' Hid' Hu. assert (v' = v) as -> by (eapply workspace_of_id; [done|done|by eapply list_elem_of_lookup_2|done]).
    by eapply next_tab_number_new.
  - intros focus. unfold place_moved_pane.
    destruct (Workspace_from_existing_pane _ _ _ _ _) as [c' v] eqn:Hnew.
    pose proof (place_new c s s1 c' label tab_label _ st (ms_pane src) v Hwf (proj1 (rm_workspace _ _ Hroom))
                  (proj2 (rm_workspace _ _ Hroom)) Haway Hnew) as Hplaced. cbv zeta in Hplaced.
    eexists c', _, _, 0. split; [reflexivity|].
    assert (Hlen : length (as_workspaces s1 ++ [v]) - 1 = length (as_workspaces s1)) by (rewrite length_app; cbn; lia).
    change (as_workspaces (s1 <| as_workspaces ::= λ workspaces, workspaces ++ [v] |>)) with (as_workspaces s1 ++ [v]).
    by rewrite Hlen.
Qed.

Lemma place_in_own_workspace w1 st resolved :
  ws_ready c w1 (ms_pane src) → numbers_kept w w1 →
  ws_next_public_pane_number w1 = ws_next_public_pane_number w →
  ws_next_public_tab_number w1 = ws_next_public_tab_number w →
  attached (ws_tabs w) ≡ₚ (ms_pane src, pn_attached_terminal_id st) :: attached (ws_tabs w1) →
  (∀ u, u ∈ ws_tabs w → tb_panes u !! ms_pane src = None → u ∈ ws_tabs w1) →
  resolved_ok s src resolved → is_cross_workspace src resolved = false →
  places (set_workspace s (ms_ws_idx src) w1) st resolved.
Proof using Hwf Hroom Hsrc.
  intros Hready Hkept1 Hnp1 Hnt1 Hatt1 Hothers Hok Hcross. pose proof Hsrc as [Hi Hj Hp Hid].
  set (i := ms_ws_idx src) in *. set (p := ms_pane src) in *. set (s1 := set_workspace s i w1).
  assert (Hlt := lookup_lt_Some _ _ _ Hi). assert (HL1 : as_workspaces s1 = <[i := w1]> (as_workspaces s)) by done.
  assert (Hi1 : as_workspaces s1 !! i = Some w1) by (rewrite HL1; by apply list_lookup_insert_eq).
  assert (Hids : NoDup (ws_id <$> as_workspaces s1)).
  { rewrite HL1, (set_ids _ _ _ _ Hi (nk_id _ _ Hkept1)). apply (aw_workspaces _ _ Hwf). }
  assert (Hnamed : workspace_named c (ws_id w1)).
  { rewrite (nk_id _ _ Hkept1). eapply (Forall_lookup_1 (λ ws, workspace_named c (ws_id ws))); [apply (wo_named _ _ (aw_workspaces _ _ Hwf))|exact Hi]. }
  pose proof (ws_at _ _ _ _ Hwf Hi) as Hw. destruct (room_at _ _ _ _ Hroom Hi) as [Hnt Hnp].
  assert (Hplt : (p < ct_pane c)%N).
  { eapply all_attached_taken; [apply (aw_workspaces _ _ Hwf)|]. apply all_attached_pane. exists w.
    split; [by eapply list_elem_of_lookup_2|]. rewrite Hatt1. by left. }
  destruct resolved as [tab_id target split ratio cross|id label|label tab_label]; cbn [is_cross_workspace] in Hcross.
  - destruct Hok as (Hratio & i' & v & j & u & Hv & Hu & -> & Htarget & Hnone & ->).
    apply negb_false_iff, bool_decide_eq_true in Hcross. fold i in Hcross. subst i'. assert (v = w) as -> by congruence.
    assert (Hu1 : u ∈ ws_tabs w1) by (apply Hothers; [by eapply list_elem_of_lookup_2|done]).
    apply list_elem_of_lookup in Hu1 as [j1 Hu1].
    destruct (tab_number_bounds _ _ _ _ _ _ Hroom Hi Hw Hu) as [_ Hbound].
    destruct (insert_moved_pane_spec c w1 j1 u target (mkMovedPane p st) split ratio Hready ltac:(by rewrite Hnp1) Hu1 Htarget Hratio Hplt)
      as (w2 & Hins & Hw2 & Hkept & _ & Hatt & (u' & Hu' & Hin' & Hnumber & Hsplit)).
    eapply place_in_tab; [|exact Hi1|exact Hu1|exact Hins| |].
    3:{ exists w2, u'. split_and!; [by apply list_lookup_insert_eq; eapply lookup_lt_Some|done|by eexists|].
        exists w, u. split_and!; [by eapply list_elem_of_lookup_2|by eapply list_elem_of_lookup_2|done| |done|done].
        by rewrite (nk_id _ _ Hkept), (nk_id _ _ Hkept1). }
    + rewrite <- (nk_id _ _ Hkept1). eapply (parse_own_tab c); [done|done|exact Hi1|done|apply Hready|done].
    + eapply (place_same c s _ i w w1 w2); try done; [|by eapply lookup_lt_Some].
      change (<[i := w2]> (<[i := w1]> (as_workspaces s)) = <[i := w2]> (as_workspaces s)). by rewrite list_insert_insert_eq.
  - destruct Hok as (i' & v & Hv & ->). apply negb_false_iff, bool_decide_eq_true in Hcross.
    rewrite Hcross, Hid, <- (nk_id _ _ Hkept1).
    destruct (create_tab_from_existing_spec c w1 (mkMovedPane p st) label Hready ltac:(by rewrite Hnp1) ltac:(by rewrite Hnt1) Hplt)
      as (w2 & Hcreate & Hw2 & Hkept & _ & Hatt & Htabs).
    intros focus. unfold place_moved_pane. rewrite (parse_own_workspace s1 i w1) by done.
    rewrite Hi1. cbn [mbind option_bind]. fold p. rewrite Hcreate. eexists c, _, i, _. split; [reflexivity|].
    assert (Hlast : length (ws_tabs w2) = S (length (ws_tabs w1))) by (rewrite Htabs, length_app; cbn; lia). split.
    2:{ eapply put_new_tab; [by apply list_lookup_insert_eq; eapply lookup_lt_Some|done|apply Hkept|].
        intros v' u Hv' Hid' Hu. assert (v' = w) as ->.
        { eapply workspace_of_id; [done|done|by eapply list_elem_of_lookup_2|]. by rewrite Hid', (nk_id _ _ Hkept1). }
        rewrite Hnt1. by eapply next_tab_number_new. }
    eapply (place_same c s _ i w w1 w2); try done; [|rewrite Hlast; lia].
    change (<[i := w2]> (<[i := w1]> (as_workspaces s)) = <[i := w2]> (as_workspaces s)). by rewrite list_insert_insert_eq.
  - done.
Qed.

End placing.


(** What a move that was made leaves: each pane with its terminal, and the
    terminals as they were *)
Definition moved_well (c : Counters) (s : AppState) (c' : Counters) (s' : AppState) (answer : Answer) : Prop :=
  good_step c s c' s' ∧ all_attached (as_workspaces s') ≡ₚ all_attached (as_workspaces s) ∧ same_terminals s s'
  ∧ ∃ r, answer = Ok (ResponseResult.PaneMove r) ∧ pm_changed r = true.

Lemma pane_move_answer_ok c s src i j w made created closed_ws closed_tab :
  app_wf c s → as_workspaces s !! i = Some w → j < length (ws_tabs w) → ms_pane src ∈ (attached (ws_tabs w)).*1 →
  ∃ r, pane_move_answer s src i j made created closed_ws closed_tab = Ok (ResponseResult.PaneMove r) ∧ pm_changed r = true.
Proof.
  intros Hwf Hi Hj Hp. unfold pane_move_answer.
  destruct (pane_info_some c s i w (ms_pane src) Hwf Hi Hp) as [pane ->].
  destruct (layout_snapshot_some c s i w j Hwf Hi Hj) as [layout ->]. cbn. by eexists.
Qed.

(** The pane is shown when the move asks for it, or when nothing is. *)
Lemma placed_shown c s c' s2 p resolved i j previous (focus : bool) :
  app_wf c s → pane_placed c s c' s2 p i j → put s p resolved s2 i j →
  let s3 := if focus || bool_decide (as_active s2 = None)
            then record_pane_focus_change (switch_workspace_tab s2 i j).1 previous i p else s2 in
  good_step c s c' s3 ∧ all_attached (as_workspaces s3) ≡ₚ all_attached (as_workspaces s) ∧ same_terminals s s3
  ∧ (∃ w, as_workspaces s3 !! i = Some w ∧ j < length (ws_tabs w) ∧ p ∈ (attached (ws_tabs w)).*1)
  ∧ put s p resolved s3 i j.
Proof.
  intros Hwf [Hok Hall Hsame Hnav Hlater Hle (w & Hi & Hj & Hp)] Hput s3. pose proof Hwf as [_ _ Hterms Hshut].
  assert (Hparts : app_parts c' s2).
  { constructor; [done|by eapply terminals_ok_same|]. destruct Hsame as (_ & _ & ->).
    eapply Forall_impl; [exact Hshut|]. intros u. by apply terminal_named_mono. }
  assert (Hs3 : quiet c' s2 s3 ∧ navigation_ok (length (as_workspaces s3)) (as_active s3) (as_selected s3)).
  { subst s3. destruct (focus || bool_decide (as_active s2 = None)) eqn:Hgo.
    - pose proof (switch_workspace_tab_quiet c' s2 i j (wo_wf _ _ Hok)) as Hq. split.
      + eapply quiet_trans; [exact Hq|]. apply record_focus_quiet. eapply quiet_wf, Hq.
      + destruct (record_focus_fields (switch_workspace_tab s2 i j).1 previous i p) as (-> & -> & ->).
        by eapply switch_workspace_tab_navigation.
    - split; [by apply quiet_refl, Hok|]. apply orb_false_iff in Hgo as [_ Ha%bool_decide_eq_false]. by apply Hnav. }
  destruct Hs3 as [Hq Hnav3]. clearbody s3. pose proof (quiet_attached _ _ _ (qu_workspaces _ _ _ Hq)) as Hatt.
  split_and!.
  - constructor; [apply app_wf_of; [by eapply quiet_parts|done]|done|].
    eapply workspaces_later_trans; [apply Hle|exact Hlater|]. apply workspaces_later_forall2, (quiet_later c'), Hq.
  - by rewrite Hatt.
  - etrans; [exact Hsame|apply Hq].
  - destruct (quiet_at _ _ _ _ _ Hq Hi) as (w' & Hi' & Hw'). exists w'.
    by rewrite (wq_tabs _ _ _ Hw'), (wq_attached _ _ _ Hw').
  - by eapply put_quiet.
Qed.

Lemma move_pane_spec c s src w t context tid cur resolved focus :
  app_wf c s → room c s → source_ok s src w t → resolved_ok s src resolved →
  ∃ c' s' answer, move_pane c s src context tid cur resolved focus = Some (c', s', answer) ∧ moved_well c s c' s' answer
    ∧ ∃ i j, put s (ms_pane src) resolved s' i j.
Proof.
  intros Hwf Hroom Hsrc Hok. pose proof Hsrc as [Hi Hj Hp Hid]. unfold move_pane. cbv zeta.
  set (previous := current_pane_focus_target s). clearbody previous. rewrite Hi. cbn [mbind option_bind].
  assert (Hin : ms_pane src ∈ (attached (ws_tabs w)).*1).
  { apply attached_pane. exists t. split; [by eapply list_elem_of_lookup_2|done]. }
  destruct (ws_take_pane_spec c w (ms_pane src) (ws_at _ _ _ _ Hwf Hi) Hin)
    as (w1 & tk & st & -> & Htk & Hempty & Hready & _ & Hkept & Hnp & Hnt & Hatt & Hothers).
  cbn [mbind option_bind]. rewrite Htk, Hempty. set (closed_tab := _ <$> tk_removed_tab_idx tk). clearbody closed_tab.
  assert (Hplaces : ∃ s1 closed,
    leave_workspace (set_workspace s (ms_ws_idx src) w1) src (is_cross_workspace src resolved) (bool_decide (ws_tabs w1 = []))
      = (s1, closed) ∧ places c s src context tid cur s1 st resolved).
  { destruct (is_cross_workspace src resolved) eqn:Hcross.
    - pose proof (leave_cross c s src w w1 _ Hwf Hi Hready Hkept Hatt) as Hleave.
      destruct (leave_workspace _ _ _ _) as [s1 closed]. destruct Hleave as (Haway & Hstay & _).
      exists s1, closed. split; [done|]. by eapply place_in_other_workspace.
    - unfold leave_workspace. rewrite andb_false_r. eexists _, _. split; [reflexivity|].
      eapply place_in_own_workspace; done. }
  destruct Hplaces as (s1 & closed & -> & Hplaces). destruct (Hplaces focus) as (c' & s2 & i & j & -> & Hplaced & Hput).
  cbn [mbind option_bind].
  destruct (placed_shown c s c' s2 (ms_pane src) resolved i j previous focus Hwf Hplaced Hput)
    as (Hg & Hall & Hsame & (v & Hv & Hjv & Hpv) & Hput3).
  set (s3 := if focus || _ then _ else s2) in *. clearbody s3.
  assert (Hcreated : ∃ created, (if makes_workspace resolved then Some <$> workspace_info s3 i else Some None) = Some created).
  { destruct (makes_workspace resolved); [|by eexists]. destruct (workspace_info_some _ _ _ Hv) as [info ->]. by eexists. }
  destruct Hcreated as [created ->]. cbn [mbind option_bind].
  set (s4 := remove_alias_shadowed_by_new_pane s3 (ms_pane src)).
  assert (Hv4 : same_view s3 s4) by apply remove_alias_view. clearbody s4.
  assert (Hg4 : good_step c s c' s4) by by eapply good_view. destruct Hv4 as (HL4 & Hsame4 & _).
  eexists c', s4, _. split; [reflexivity|]. split; [|exists i, j; unfold put in *; by rewrite HL4].
  split_and!; [done|by rewrite HL4|by etrans|].
  eapply pane_move_answer_ok; [apply Hg4|rewrite HL4; exact Hv|done|done].
Qed.

(** *** What was asked for *)

(** The tab, the workspace and the pane that a request names, in what its
    destination resolves to *)
Definition resolves (s : AppState) (src : MoveSource) (destination : PaneMoveDestination)
    (resolved : ResolvedPaneMoveDestination) : Prop :=
  match destination, resolved with
  | PaneMoveDestination.Tab tab_id target split ratio, ResolvedPaneMoveDestination.ExistingTab id q split' ratio' _ =>
      split' = split ∧ ratio' = default f32_0_5 ratio
      ∧ ∃ i j w t, parse_tab_id s tab_id = Some (i, j) ∧ as_workspaces s !! i = Some w ∧ ws_tabs w !! j = Some t
                   ∧ id = public_tab_id_for_number (ws_id w) (tb_number t)
                   ∧ match target with
                     | None => q = tl_focus (tb_layout t)
                     | Some raw => parse_pane_id s raw = Some (i, q)
                     end
  | PaneMoveDestination.NewTab None _, ResolvedPaneMoveDestination.NewTab id _ => id = ms_workspace_id src
  | PaneMoveDestination.NewTab (Some raw) _, ResolvedPaneMoveDestination.NewTab id _ =>
      ∃ i w, parse_workspace_id s raw = Some i ∧ as_workspaces s !! i = Some w ∧ id = ws_id w
  | PaneMoveDestination.NewWorkspace _ _, ResolvedPaneMoveDestination.NewWorkspace _ _ => True
  | _, _ => False
  end.

Lemma resolves_asked s src destination resolved :
  resolve_destination s src destination = Some (inl resolved) → resolves s src destination resolved.
Proof.
  destruct destination as [tab_id target split ratio|[raw|] label|label tab_label]; cbn [resolve_destination].
  - unfold resolve_existing_tab. destruct (parse_tab_id s tab_id) as [[i j]|] eqn:Htab; [|done].
    case_match; [done|]. intros (w & Hi & (t & Hj & Hrest)%bind_Some)%bind_Some.
    destruct (tb_zoomed t); [done|]. apply bind_Some in Hrest as (q & Hq & Hrest).
    destruct q as [q|]; [|done]. rewrite (public_tab_id_at _ _ _ _ _ Hi Hj) in Hrest. injection Hrest as <-.
    split_and!; [done..|]. exists i, j, w, t. split_and!; [done..|].
    destruct target as [raw|]; [|by injection Hq as <-].
    destruct (parse_pane_id s raw) as [[i2 q2]|]; [|done]. apply bind_Some in Hq as (w2 & _ & Hq).
    destruct (bool_decide (i2 = i)) eqn:Heq; cbn [andb] in Hq; [|done]. apply bool_decide_eq_true in Heq as ->.
    case_match; [|done]. by injection Hq as <-.
  - destruct (parse_workspace_id s raw) as [i|] eqn:Hws; [|done]. intros (id & Hid & [= <-])%bind_Some.
    apply fmap_Some in Hid as (w & Hi & ->). by exists i, w.
  - by intros [= <-].
  - by intros [= <-].
Qed.

(** The pane is where it was asked to: beside the pane that was named, or that
    has the focus, in the tab that was named, split from it in the direction and
    the ratio that were given; or alone in a new last tab of the workspace
    that was named, or of its own; or alone in a workspace that was not there. *)
Definition lands (s s' : AppState) (from : string) (p : PaneId) (destination : PaneMoveDestination) : Prop :=
  ∃ i' j' w' t', as_workspaces s' !! i' = Some w' ∧ ws_tabs w' !! j' = Some t' ∧ is_Some (tb_panes t' !! p) ∧
  match destination with
  | PaneMoveDestination.Tab tab_id target split ratio =>
      ∃ i j w t q, parse_tab_id s tab_id = Some (i, j) ∧ as_workspaces s !! i = Some w ∧ ws_tabs w !! j = Some t
        ∧ match target with
          | None => q = tl_focus (tb_layout t)
          | Some raw => parse_pane_id s raw = Some (i, q)
          end
        ∧ ws_id w' = ws_id w ∧ tb_number t' = tb_number t
        ∧ tl_root (tb_layout t')
          = split_at (tl_root (tb_layout t)) q split p (valid_split_ratio (default f32_0_5 ratio))
  | PaneMoveDestination.NewTab workspace_id _ =>
      ∃ i w, as_workspaces s !! i = Some w
        ∧ match workspace_id with None => ws_id w = from | Some raw => parse_workspace_id s raw = Some i end
        ∧ ws_id w' = ws_id w ∧ length (ws_tabs w') = S j' ∧ (∀ t, t ∈ ws_tabs w → tb_number t ≠ tb_number t')
        ∧ tl_root (tb_layout t') = Node.Pane p
  | PaneMoveDestination.NewWorkspace _ _ =>
      ws_id w' ∉ ws_id <$> as_workspaces s ∧ length (ws_tabs w') = 1 ∧ tl_root (tb_layout t') = Node.Pane p
  end.

(** A move is refused when what it names is not there, the pane is in that tab
    already, or one of the tabs is zoomed. *)
Definition destination_refused (s : AppState) (i j : nat) (destination : PaneMoveDestination) : Prop :=
  match destination with
  | PaneMoveDestination.Tab tab_id target _ _ =>
      match parse_tab_id s tab_id with
      | None => True
      | Some (i', j') =>
          i' = i ∧ j' = j
          ∨ ∃ w t, as_workspaces s !! i' = Some w ∧ ws_tabs w !! j' = Some t
                   ∧ (tb_zoomed t = true
                      ∨ ∃ raw, target = Some raw
                               ∧ ∀ q, parse_pane_id s raw = Some (i', q) → find_tab_index_for_pane w q ≠ Some j')
      end
  | PaneMoveDestination.NewTab (Some raw) _ => parse_workspace_id s raw = None
  | PaneMoveDestination.NewTab None _ | PaneMoveDestination.NewWorkspace _ _ => False
  end.

Definition refused (s : AppState) (id : string) (destination : PaneMoveDestination) : Prop :=
  match parse_pane_id s id with
  | None => True
  | Some (i, p) =>
      ∃ w j t, as_workspaces s !! i = Some w ∧ ws_tabs w !! j = Some t ∧ is_Some (tb_panes t !! p)
               ∧ (tb_zoomed t = true ∨ destination_refused s i j destination)
  end.

Lemma refused_at s id destination i p w j t :
  parse_pane_id s id = Some (i, p) → as_workspaces s !! i = Some w → ws_tabs w !! j = Some t →
  is_Some (tb_panes t !! p) → tb_zoomed t = true ∨ destination_refused s i j destination → refused s id destination.
Proof. intros Hp Hi Hj Ht Hwhy. unfold refused. rewrite Hp. by exists w, j, t. Qed.

(** The answer says that the pane moved. *)
Definition says_moved (answer : Answer) : Prop :=
  ∃ r, answer = Ok (ResponseResult.PaneMove r) ∧ pm_changed r = true.

Lemma unchanged_says_so s src reason i j : ¬ says_moved (unchanged_pane_move s src reason i j).
Proof.
  intros (r & Hr & Hc). revert Hr. unfold unchanged_pane_move.
  destruct (pane_layout_snapshot s (ms_ws_idx src) _); [|done]. cbn.
  destruct (pane_layout_snapshot s i j); [|done]. cbn. destruct (pane_info _ _ _); [|done]. cbn. by intros [= <-].
Qed.

Lemma resolves_refused s src destination answer :
  resolve_destination s src destination = Some (inr answer) →
  destination_refused s (ms_ws_idx src) (ms_tab_idx src) destination ∧ ¬ says_moved answer.
Proof.
  assert (Herr : ∀ code, ¬ says_moved (Err code)) by by intros code (r & ? & _).
  destruct destination as [tab_id target split ratio|[raw|] label|label tab_label]; cbn [resolve_destination destination_refused]; [| |done..].
  - unfold resolve_existing_tab. destruct (parse_tab_id s tab_id) as [[i j]|] eqn:Htab; [|intros [= <-]; by split].
    destruct (bool_decide (ms_ws_idx src = i) && bool_decide (ms_tab_idx src = j)) eqn:Hsame.
    { apply andb_true_iff in Hsame as [->%bool_decide_eq_true ->%bool_decide_eq_true]. intros [= <-]. split; [by left|apply unchanged_says_so]. }
    intros (w & Hi & (t & Hj & Hrest)%bind_Some)%bind_Some.
    destruct (tb_zoomed t) eqn:Hz; [injection Hrest as <-; split; [right; exists w, t; by auto|apply unchanged_says_so]|].
    rewrite (public_tab_id_at _ _ _ _ _ Hi Hj) in Hrest. apply bind_Some in Hrest as (q & Hq & Hrest).
    destruct q as [q|code]; [done|]. injection Hrest as <-. split; [|apply Herr]. right. exists w, t. split_and!; [done..|right].
    destruct target as [raw|]; [|done]. exists raw. split; [done|]. intros q Hparse. rewrite Hparse in Hq.
    rewrite Hi, bool_decide_true in Hq by done. cbn in Hq. by case_bool_decide.
  - destruct (parse_workspace_id s raw) as [i|] eqn:Hws; [by intros (id & _ & [=])%bind_Some|].
    intros [= <-]. by split.
Qed.

Lemma parse_tab_at c s i j w t :
  app_wf c s → room c s → as_workspaces s !! i = Some w → ws_tabs w !! j = Some t →
  parse_tab_id s (public_tab_id_for_number (ws_id w) (tb_number t)) = Some (i, j).
Proof.
  intros Hwf Hroom Hi Hj. pose proof (ws_at _ _ _ _ Hwf Hi) as Hw.
  destruct (tab_number_bounds _ _ _ _ _ _ Hroom Hi Hw Hj) as [Hnd Hb].
  eapply (parse_own_tab c); [apply (aw_workspaces _ _ Hwf)| |done..].
  eapply (Forall_lookup_1 (λ ws, workspace_named c (ws_id ws))); [apply (wo_named _ _ (aw_workspaces _ _ Hwf))|exact Hi].
Qed.

Lemma put_lands c s src w destination resolved s' i' j' :
  app_wf c s → room c s → as_workspaces s !! ms_ws_idx src = Some w → ms_workspace_id src = ws_id w →
  resolves s src destination resolved → put s (ms_pane src) resolved s' i' j' →
  lands s s' (ws_id w) (ms_pane src) destination.
Proof.
  intros Hwf Hroom Hsrc Hid Hres (w' & t' & Hi' & Hj' & Hp & Hput). exists i', j', w', t'. split_and!; [done..|].
  destruct destination as [tab_id target split ratio|[raw|] label|label tab_label], resolved; try done.
  - destruct Hres as (-> & -> & i & j & v & t & Hparse & Hi & Hj & -> & Htarget).
    destruct Hput as (v0 & t0 & [i0 Hi0]%list_elem_of_lookup & [j0 Hj0]%list_elem_of_lookup & Heq & Hrest).
    pose proof (parse_tab_at c s i j v t Hwf Hroom Hi Hj) as Hat. rewrite Heq, (parse_tab_at c s i0 j0) in Hat by done.
    injection Hat as -> ->. simplify_eq. by eexists i, j, v, t, _.
  - destruct Hres as (i & v & Hparse & Hi & ->). destruct Hput as (? & ? & ? & Hnew). exists i, v. split_and!; try done.
    intros t. apply Hnew; [by eapply list_elem_of_lookup_2|done].
  - destruct Hput as (? & ? & ? & Hnew). cbn in Hres. subst. exists (ms_ws_idx src), w. split_and!; try congruence.
    intros t. apply Hnew; [by eapply list_elem_of_lookup_2|done].
Qed.

Lemma handle_pane_move_spec c s cur id destination focus :
  app_wf c s → room c s → destination_ok s destination →
  ∃ c' s' answer, handle_pane_move c s cur id destination focus = Some (c', s', answer)
    ∧ (c' = c ∧ s' = s ∧ refused s id destination ∧ ¬ says_moved answer
       ∨ moved_well c s c' s' answer
         ∧ ∃ i p w, parse_pane_id s id = Some (i, p) ∧ as_workspaces s !! i = Some w
                    ∧ lands s s' (ws_id w) p destination).
Proof.
  intros Hwf Hroom Hdest. unfold handle_pane_move.
  destruct (parse_pane_id s id) as [[i p]|] eqn:Hp.
  2:{ eexists _, _, _. split; [reflexivity|left]. split_and!; [done|done| |by intros (? & ? & _)]. unfold refused. by rewrite Hp. }
  assert (Hparse := Hp).
  apply (parse_pane_id_some c) in Hp as (w & Hi & Hp); [|apply Hwf]. rewrite Hi. cbn [mbind option_bind].
  destruct (pane_tab _ _ _ (ws_at _ _ _ _ Hwf Hi) Hp) as (j & t & -> & Hj & Hpt & _). cbv zeta.
  rewrite (public_tab_id_at _ _ _ _ _ Hi Hj), Hj. unfold tab_terminal_id. destruct Hpt as [st Hst]. rewrite Hst. cbn [fmap option_fmap option_map].
  assert (Hat := λ Hwhy, refused_at s id destination i p w j t Hparse Hi Hj (mk_is_Some _ _ Hst) Hwhy).
  destruct (tb_zoomed t) eqn:Hzoomed.
  { eexists _, _, _. split; [reflexivity|left]. split_and!; [done|done|by apply Hat; left|apply unchanged_says_so]. }
  set (src := mkMoveSource _ _ _ _ _ _). set (context := mkPaneMoveRecoveryContext _ _ _ _ _ _).
  assert (Hsrc : source_ok s src w t) by (constructor; [done|done|by exists st|done]).
  destruct (resolve_destination_spec c s src w t destination Hwf Hsrc Hdest) as (r & Hres & Hr). rewrite Hres. cbn [mbind option_bind].
  destruct r as [resolved|answer].
  2:{ apply resolves_refused in Hres as [Hwhy Hsays]. eexists _, _, _. split; [reflexivity|left].
      split_and!; [done|done|by apply Hat; right|done]. }
  pose proof (resolves_asked _ _ _ _ Hres) as Hasked. clear Hres.
  destruct (move_pane_spec c s src w t context (pn_attached_terminal_id st) cur resolved focus Hwf Hroom Hsrc Hr)
    as (c' & s' & answer & -> & Hmoved & i' & j' & Hput). eexists _, _, _. split; [reflexivity|right].
  split; [done|]. exists i, p, w. split_and!; [done..|]. by eapply (put_lands c s src).
Qed.

Lemma pane_move_good c s cur id destination focus :
  app_wf c s → room c s → destination_ok s destination → total_step c s (handle_pane_move c s cur id destination focus).
Proof.
  intros Hwf Hroom Hdest.
  destruct (handle_pane_move_spec c s cur id destination focus Hwf Hroom Hdest) as (c' & s' & answer & -> & [(-> & -> & _)|[Hm _]]).
  - eexists _, _, _. split; [reflexivity|by apply good_refl].
  - eexists _, _, _. split; [reflexivity|apply Hm].
Qed.


(** *** Identifiers of panes *)

Lemma rsplit_own_pane (id : string) (n : N) :
  rsplit_once ":p" (public_pane_id_for_number id n) = Some (id, encode_public_number n).
Proof.
  unfold public_pane_id_for_number. change (id +:+ ":p" +:+ encode_public_number n) with (id +:+ String ":" "p" +:+ encode_public_number n).
  apply rsplit_once_last. change (":"%char ∉ "p"%char :: str_bytes (encode_public_number n)).
  rewrite not_elem_of_cons. split; [done|]. apply number_without. by apply (bool_decide_unpack _).
Qed.

Lemma pane_id_inj id id' n n' :
  public_pane_id_for_number id n = public_pane_id_for_number id' n' → (0 < n ≤ u64_max)%N → (0 < n' ≤ u64_max)%N →
  id = id' ∧ n = n'.
Proof.
  intros Heq%(f_equal (rsplit_once ":p")) Hn Hn'. rewrite !rsplit_own_pane in Heq. injection Heq as -> Heq.
  split; [done|]. by apply encode_number_inj.
Qed.

Lemma pane_of_own_number c w p n :
  ws_wf c w → ws_public_pane_numbers w !! p = Some n → pane_of_number w n = Some p.
Proof.
  intros Hw Hn. unfold pane_of_number. destruct (find_first _ _) as [[q m]|] eqn:Hf.
  - cbn. f_equal. apply List.find_some in Hf as [Hin Hm]. cbn in Hm. apply N.eqb_eq in Hm. subst m.
    apply list_elem_of_In in Hin. rewrite hash_entries_perm in Hin. apply elem_of_map_to_list in Hin.
    by apply (no_inj _ _ (wc_numbers _ _ (ww_core _ _ Hw)) _ _ n).
  - exfalso. assert (Hin : (p, n) ∈ hash_entries (ws_public_pane_numbers w)).
    { rewrite hash_entries_perm. by apply elem_of_map_to_list. }
    apply list_elem_of_In in Hin. pose proof (List.find_none _ _ Hf _ Hin) as Hno. cbn in Hno. apply N.eqb_neq in Hno. done.
Qed.

Lemma parse_own_pane c s i w p n :
  NoDup (ws_id <$> as_workspaces s) → workspace_named c (ws_id w) → as_workspaces s !! i = Some w → ws_wf c w →
  ws_public_pane_numbers w !! p = Some n → (ws_next_public_pane_number w + 1 < 2 ^ 64)%N →
  as_public_pane_id_aliases s !! public_pane_id_for_number (ws_id w) n = None →
  parse_pane_id s (public_pane_id_for_number (ws_id w) n) = Some (i, p).
Proof.
  intros Hids (k & _ & Hid) Hi Hw Hn Hb Halias. unfold parse_pane_id. rewrite Halias.
  pose proof (no_bounds _ _ (wc_numbers _ _ (ww_core _ _ Hw)) _ _ Hn) as Hnb.
  assert (Hstrip : strip_prefix "p_" (public_pane_id_for_number (ws_id w) n) = None) by by rewrite Hid.
  rewrite Hstrip, rsplit_own_pane, (parse_own_workspace s i w) by done. cbn [mbind option_bind].
  rewrite decode_encode_number by (unfold u64_max; lia). cbn [mbind option_bind]. rewrite Hi. cbn [mbind option_bind].
  by rewrite (pane_of_own_number c w p n).
Qed.

(** After a pane was closed nothing waits to be shut down. *)
Lemma pane_close_shutdown s id s' :
  handle_pane_close s id = Some (s', Ok ResponseResult.Ok_) → as_terminal_runtime_shutdowns s' = [].
Proof.
  unfold handle_pane_close. destruct (parse_pane_id s id) as [[i p]|]; [|done].
  destruct (public_pane_id s i p); [|done]. destruct (if close_pane_would_close_workspace s i p then _ else _) as [s1 deferred].
  destruct deferred; [done|]. intros (w & _ & ([w' closes] & _ & (s2 & _ & [= <-])%bind_Some)%bind_Some)%bind_Some. done.
Qed.

(** *** Every request *)

(** Ratios are numbers, and a position that a pane is moved to exists. *)
Definition request_ok (s : AppState) (request : Request) : Prop :=
  match request with
  | Request.PaneSplit _ _ _ ratio _ _ _ => ratio_wf ratio
  | Request.PaneMove _ destination _ => destination_ok s destination
  | _ => True
  end.

Lemma unchanged_step c s o : total_good c s o → total_step c s (unchanged_counters c o).
Proof. intros (s' & a & -> & Hg). by eexists _, _, _. Qed.

Lemma request_good c s host request :
  app_wf c s → room c s → host_ok host → request_ok s request → total_step c s (handle_request c s host request).
Proof.
  intros Hwf Hroom Hhost Hok. destruct request; cbn [handle_request]; try apply unchanged_step.
  - by apply workspace_create_good.
  - by apply workspace_focus_good.
  - by apply workspace_rename_good.
  - by apply workspace_move_good.
  - by apply workspace_close_good.
  - by apply tab_create_good.
  - by apply tab_focus_good.
  - by apply tab_rename_good.
  - by apply tab_move_good.
  - by apply tab_close_good.
  - by apply pane_split_good.
  - by apply pane_focus_good.
  - by apply pane_zoom_good.
  - by apply pane_move_good.
  - by apply pane_close_good.
Qed.

(** The server answers a request, or hears that a process is over. *)
Inductive app_step : Counters * AppState → Counters * AppState → Prop :=
  | step_request c s host request c' s' answer :
      room c s → host_ok host → request_ok s request → handle_request c s host request = Some (c', s', answer) →
      app_step (c, s) (c', s')
  | step_pane_died c s pane s' : handle_pane_died s pane = Some s' → app_step (c, s) (c, s').

Lemma app_step_good c s c' s' : app_wf c s → app_step (c, s) (c', s') → good_step c s c' s'.
Proof.
  intros Hwf Hstep. inversion Hstep as [? ? host request ? ? answer Hroom Hhost Hok Hr|? ? pane ? Hd]; subst.
  - destruct (request_good c s host request Hwf Hroom Hhost Hok) as (c1 & s1 & a & Heq & Hg). by simplify_eq.
  - destruct (handle_pane_died_spec c' s pane Hwf) as (s1 & Heq & Hwf' & Hlater & _). simplify_eq. by constructor.
Qed.

Lemma app_steps_good cs cs' : app_wf cs.1 cs.2 → rtc app_step cs cs' → good_step cs.1 cs.2 cs'.1 cs'.2.
Proof.
  intros Hwf Hsteps. induction Hsteps as [cs|[c s] [c1 s1] cs' Hstep _ IH]; [by apply good_refl|].
  pose proof (app_step_good _ _ _ _ Hwf Hstep) as Hg. eapply good_trans; [exact Hg|]. apply IH, Hg.
Qed.

(** C16: However workspaces, tabs and panes are created, focused, renamed, moved,
    zoomed, split and closed, and processes end, no request panics and the state
    stays well formed: there is an active workspace with an active tab when
    there is any, every layout is a tree of the panes that its tab has, no two
    panes and no two terminals are the same, a terminal is known exactly when a
    pane shows it, and a process runs exactly when its terminal is shown or is
    about to be shut down. *)
Theorem requests_keep_the_application c0 confirm c s :
  rtc app_step (c0, no_workspaces confirm) (c, s) →
  app_wf c s
  ∧ (∀ host request, room c s → host_ok host → request_ok s request →
       ∃ c' s' answer, handle_request c s host request = Some (c', s', answer) ∧ app_wf c' s')
  ∧ ∀ pane, ∃ s', handle_pane_died s pane = Some s' ∧ app_wf c s'.
Proof.
  intros Hsteps. pose proof (app_steps_good (c0, no_workspaces confirm) (c, s) (no_workspaces_wf c0 confirm) Hsteps) as [Hwf _ _]. cbn in Hwf.
  split; [done|]. split.
  - intros host request Hroom Hhost Hok. destruct (request_good c s host request Hwf Hroom Hhost Hok) as (c' & s' & a & -> & Hg).
    eexists _, _, _. split; [reflexivity|apply Hg].
  - intros pane. destruct (handle_pane_died_spec c s pane Hwf) as (s' & -> & Hwf' & _). by eexists.
Qed.

(** C24: A move either is refused and changes nothing or puts the pane where it
    was asked to: a move that was begun never fails halfway.  It is refused
    only when what it names is not there, the pane is in that tab already or
    one of the two tabs is zoomed.  A pane that moved is in the tab that was
    named, split in the direction and the ratio given from the pane named
    there, or from the one with the focus; or alone in a new last tab of the
    workspace named, or of its own; or alone in a new workspace.  Each pane
    keeps its terminal, each terminal its state and its process.  The ratio is
    a number; a workspace given by a position that there is none at, for which
    the server panics, is left out. *)
Theorem pane_move_keeps_terminals c s cur id destination focus :
  app_wf c s → room c s → destination_ok s destination →
  ∃ c' s' answer, handle_pane_move c s cur id destination focus = Some (c', s', answer) ∧ app_wf c' s'
    ∧ all_attached (as_workspaces s') ≡ₚ all_attached (as_workspaces s)
    ∧ as_terminals s' = as_terminals s ∧ as_terminal_runtimes s' = as_terminal_runtimes s
    ∧ (c' = c ∧ s' = s ∧ refused s id destination ∧ ¬ says_moved answer
       ∨ says_moved answer
         ∧ ∃ i p w, parse_pane_id s id = Some (i, p) ∧ as_workspaces s !! i = Some w
                    ∧ lands s s' (ws_id w) p destination).
Proof.
  intros Hwf Hroom Hdest.
  destruct (handle_pane_move_spec c s cur id destination focus Hwf Hroom Hdest)
    as (c' & s' & answer & -> & [(-> & -> & Href)|[(Hg & Hall & (Ht & Hr & _) & Hanswer) Hlands]]); eexists _, _, _; (split; [reflexivity|]).
  - by split_and!; [..|left].
  - by split_and!; [apply Hg|..|right].
Qed.

(** Closing a pane that is found, unless the user is asked first, takes it
    and, when it is the last one of its workspace, the workspace with its
    worktree group; the panes that are left keep their terminals, and exactly
    those terminals are left and run. *)
Theorem pane_close_stops_its_process c s id i p :
  app_wf c s → parse_pane_id s id = Some (i, p) →
  ∃ s' answer, handle_pane_close s id = Some (s', answer)
    ∧ (answer = Err "confirmation_required" ∧ s' = s <| as_selected := i |>
       ∨ answer = Ok ResponseResult.Ok_ ∧ closes_pane s s' i p ∧ p ∉ (all_attached (as_workspaces s')).*1
         ∧ ∀ t, (t ∈ as_terminal_runtimes s' ↔ t ∈ (all_attached (as_workspaces s')).*2)
                ∧ (is_Some (as_terminals s' !! t) ↔ t ∈ (all_attached (as_workspaces s')).*2)).
Proof.
  intros Hwf Hp. pose proof (pane_close_spec c s id Hwf) as Hspec. rewrite Hp in Hspec.
  destruct Hspec as [->|(s' & Heq & Hg & Hclosed)]; [by eexists _, _; split; [reflexivity|left]|].
  pose proof (pane_close_shutdown s id s' Heq) as Hnil. eexists _, _. split; [exact Heq|right]. split_and!; [done|done| |].
  - destruct Hclosed as (gone & Hatt & Hgone & _). assert (Hnd := wo_panes _ _ (aw_workspaces _ _ Hwf)).
    rewrite Hatt, fmap_app in Hnd. apply NoDup_app in Hnd as (_ & Hdis & _). by apply Hdis.
  - intros t. destruct (gs_wf _ _ _ _ Hg) as [_ _ [Hk Hr _] _]. split; [|apply Hk].
    rewrite Hr, Hnil, elem_of_nil. tauto.
Qed.

(** C38: Public identifiers are not used again: what was shown for a pane is never
    shown for another one later, whatever was created, moved and closed in
    between. *)
Theorem public_pane_ids_are_not_reused c s c' s' i p i' p' id :
  app_wf c s → room c s → room c' s' → rtc app_step (c, s) (c', s') →
  public_pane_id s i p = Some id → public_pane_id s' i' p' = Some id → p = p'.
Proof.
  intros Hwf Hroom Hroom' Hsteps Hid Hid'. destruct (app_steps_good (c, s) (c', s') Hwf Hsteps) as [Hwf' Hle Hlater]. cbn in *.
  apply bind_Some in Hid as (w & Hi & (n & Hn & ->)%fmap_Some). unfold public_pane_number in Hn.
  apply bind_Some in Hid' as (w' & Hi' & (n' & Hn' & Heq)%fmap_Some). unfold public_pane_number in Hn'.
  pose proof (ws_at _ _ _ _ Hwf Hi) as Hw. pose proof (ws_at _ _ _ _ Hwf' Hi') as Hw'.
  destruct (room_at _ _ _ _ Hroom Hi) as [_ Hb], (room_at _ _ _ _ Hroom' Hi') as [_ Hb'].
  pose proof (no_bounds _ _ (wc_numbers _ _ (ww_core _ _ Hw)) _ _ Hn) as Hnb.
  pose proof (no_bounds _ _ (wc_numbers _ _ (ww_core _ _ Hw')) _ _ Hn') as Hnb'.
  destruct (pane_id_inj _ _ _ _ Heq) as [Hws Hnum]; [unfold u64_max; lia..|]. subst n'.
  unfold workspaces_later in Hlater. rewrite Forall_forall in Hlater.
  destruct (Hlater w' (list_elem_of_lookup_2 _ _ _ Hi')) as [(v & Hv & Hl)|(k & Hk & Hnew)].
  - assert (v = w) as ->.
    { apply list_elem_of_lookup in Hv as [j Hj]. assert (j = i) as ->; [|congruence].
      eapply (NoDup_lookup (ws_id <$> as_workspaces s) j i (ws_id w)); [apply (aw_workspaces _ _ Hwf)| |];
        rewrite list_lookup_fmap, ?Hi, ?Hj; [|done]. cbn. by rewrite <- (wl_id _ _ Hl), <- Hws. }
    destruct (wl_numbers _ _ Hl _ _ Hn') as [Hold|Hge]; [|lia].
    by apply (no_inj _ _ (wc_numbers _ _ (ww_core _ _ Hw)) _ _ n).
  - exfalso. pose proof (wo_named _ _ (aw_workspaces _ _ Hwf)) as Hnamed. rewrite Forall_forall in Hnamed.
    destruct (Hnamed w (list_elem_of_lookup_2 _ _ _ Hi)) as (m & Hm & Hwid).
    rewrite Hws, Hnew in Hwid. apply str_app_inj, encode_number_inj in Hwid; [lia|..].
    + destruct (rm_workspace _ _ Hroom). unfold u64_max in *. lia.
    + destruct (rm_workspace _ _ Hroom). unfold u64_max in *. lia.
Qed.

(** The identifiers that are shown lead back: the one of a workspace to it,
    of a tab to it, and of a pane to it unless the same identifier is an alias. *)
Theorem public_ids_resolve c s i w :
  app_wf c s → room c s → as_workspaces s !! i = Some w →
  parse_workspace_id s (ws_id w) = Some i
  ∧ (∀ j id, public_tab_id s i j = Some id → parse_tab_id s id = Some (i, j))
  ∧ ∀ p id, public_pane_id s i p = Some id → as_public_pane_id_aliases s !! id = None → parse_pane_id s id = Some (i, p).
Proof.
  intros Hwf Hroom Hi. pose proof (ws_at _ _ _ _ Hwf Hi) as Hw. pose proof (wo_ids _ _ (aw_workspaces _ _ Hwf)) as Hids.
  assert (Hnamed : workspace_named c (ws_id w)).
  { eapply (Forall_lookup_1 (λ ws, workspace_named c (ws_id ws))); [apply (wo_named _ _ (aw_workspaces _ _ Hwf))|exact Hi]. }
  split_and!; [by apply parse_own_workspace| |].
  - intros j id Hid. unfold public_tab_id in Hid. rewrite Hi in Hid. cbn [mbind option_bind] in Hid.
    apply fmap_Some in Hid as (n & (t & Hj & ->)%fmap_Some & ->).
    destruct (tab_number_bounds _ _ _ _ _ _ Hroom Hi Hw Hj) as [Hnd Hb]. by eapply parse_own_tab.
  - intros p id Hid Halias. unfold public_pane_id in Hid. rewrite Hi in Hid. cbn [mbind option_bind] in Hid.
    apply fmap_Some in Hid as (n & Hn & ->). destruct (room_at _ _ _ _ Hroom Hi) as [_ Hb].
    by eapply parse_own_pane.
Qed.

End requests.

(** ** A server with three workspaces *)

Module PanesDemo.
#[local] Existing Instance TerminalsDemo.by_key.
#[local] Existing Instance TerminalsDemo.by_key_spec.

Definition host : LaunchHost :=
  mkLaunchHost (Some "/home/me") (Some "/") (mkRuntimeDirs (λ _, None) (λ _, None)) NewTerminalCwdConfig.Follow false
    (mkSpawn true 1750000000000000).

Definition fresh : Counters := mkCounters 1 1 1.

Definition room_b (c : Counters) (s : AppState) : bool :=
  (ct_pane c + 1 <? 2 ^ 32)%N && (ct_terminal c + 1 <? 2 ^ 64)%N && (0 <? ct_workspace c)%N
    && (ct_workspace c + 1 <? 2 ^ 64)%N
    && forallb (λ w, (ws_next_public_tab_number w + 1 <? 2 ^ 64)%N && (ws_next_public_pane_number w + 1 <? 2 ^ 64)%N)
         (as_workspaces s).

Lemma room_b_true c s : room_b c s = true → room c s.
Proof.
  unfold room_b. rewrite !andb_true_iff, !N.ltb_lt. intros ((((H1 & H2) & H3) & H4) & H5). constructor; [done..|].
  apply Forall_forall. intros w Hw. rewrite forallb_forall in H5. specialize (H5 w (proj1 (list_elem_of_In _ _) Hw)).
  by rewrite andb_true_iff, !N.ltb_lt in H5.
Qed.

(** Requests without ratios and positions *)
Definition plain (request : Request) : bool :=
  match request with
  | Request.PaneSplit _ _ _ None _ _ _ => true
  | Request.PaneSplit _ _ _ _ _ _ _ => false
  | Request.PaneMove _ (PaneMoveDestination.Tab _ _ _ None) _ => true
  | Request.PaneMove _ (PaneMoveDestination.NewTab None _) _ => true
  | Request.PaneMove _ (PaneMoveDestination.NewWorkspace _ _) _ => true
  | Request.PaneMove _ _ _ => false
  | _ => true
  end.

Lemma plain_ok s request : plain request = true → request_ok s request.
Proof.
  destruct request as [| | | | | | | | | |? ? ? [] ? ? ?| | |? [? ? ? []|[]|] ?|]; done.
Qed.

Fixpoint run (cs : Counters * AppState) (requests : list Request) : option (Counters * AppState) :=
  match requests with
  | [] => Some cs
  | request :: requests =>
      if room_b cs.1 cs.2 && plain request
      then '(c, s, _) ← handle_request cs.1 cs.2 host request; run (c, s) requests
      else None
  end.

Lemma host_is_ok : host_ok host.
Proof. intros _. unfold clock_ok. cbn. lia. Qed.

Lemma run_steps requests : ∀ cs cs', run cs requests = Some cs' → rtc app_step cs cs'.
Proof.
  induction requests as [|request requests IH]; intros [c s] cs'; cbn; [by intros [= ->]|].
  destruct (room_b c s) eqn:Hroom; [|done]. destruct (plain request) eqn:Hplain; [|done]. cbn.
  intros ([[c1 s1] a] & Hr & Hrun)%bind_Some. eapply rtc_l; [|by apply IH].
  eapply step_request; [by apply room_b_true|apply host_is_ok|by apply plain_ok|exact Hr].
Qed.

Definition no_env : gmap string string := ∅.
Definition setup : list Request :=
  [Request.WorkspaceCreate (Some "/a") None true no_env; Request.WorkspaceCreate (Some "/b") None false no_env;
   Request.WorkspaceCreate (Some "/c") None false no_env;
   Request.PaneSplit (Some "w1:p1") None Direction.Horizontal None None true no_env].

Definition started_panes : Counters * AppState := default (fresh, no_workspaces true) (run (fresh, no_workspaces true) setup).

Lemma started_run : run (fresh, no_workspaces true) setup = Some started_panes.
Proof. vm_compute. reflexivity. Qed.

Lemma started_steps : rtc app_step (fresh, no_workspaces true) started_panes.
Proof. eapply run_steps, started_run. Qed.

Lemma started_pair_steps : rtc app_step (fresh, no_workspaces true) (started_panes.1, started_panes.2).
Proof. rewrite <- surjective_pairing. apply started_steps. Qed.

Lemma started_wf : app_wf started_panes.1 started_panes.2.
Proof. apply (app_steps_good (fresh, no_workspaces true) started_panes (no_workspaces_wf _ _) started_steps). Qed.

Lemma started_room : room started_panes.1 started_panes.2.
Proof. apply room_b_true. vm_compute. reflexivity. Qed.

Lemma requests_keep_the_application_witness :
  app_wf started_panes.1 started_panes.2
  ∧ ∃ c' s' answer, handle_request started_panes.1 started_panes.2 host (Request.PaneClose "w2:p1") = Some (c', s', answer)
                    ∧ app_wf c' s'.
Proof.
  destruct (requests_keep_the_application fresh true started_panes.1 started_panes.2) as (Hwf & Hrequests & _).
  - exact started_pair_steps.
  - split; [exact Hwf|]. apply Hrequests; [exact started_room|exact host_is_ok|exact I].
Defined.

Lemma pane_move_keeps_terminals_witness :
  ∃ c' s' answer, handle_pane_move started_panes.1 started_panes.2 "/" "w1:p1" (PaneMoveDestination.Tab "w2:t1" None Direction.Vertical None) true
                    = Some (c', s', answer)
    ∧ all_attached (as_workspaces s') ≡ₚ all_attached (as_workspaces started_panes.2).
Proof.
  destruct (pane_move_keeps_terminals started_panes.1 started_panes.2 "/" "w1:p1"
              (PaneMoveDestination.Tab "w2:t1" None Direction.Vertical None) true) as (c' & s' & answer & H1 & _ & H2 & _).
  - exact started_wf.
  - exact started_room.
  - exact I.
  - exists c', s', answer. by split.
Defined.

(** The first pane goes to the second workspace: its identifier leads there, and
    it gets a new one. *)
Example move_gives_a_new_identifier :
  (λ csa, (as_active csa.1.2, public_pane_id csa.1.2 1 1, parse_pane_id csa.1.2 "w1:p1", (λ w, length (ws_tabs w)) <$> as_workspaces csa.1.2))
  <$> handle_pane_move started_panes.1 started_panes.2 "/" "w1:p1" (PaneMoveDestination.Tab "w2:t1" None Direction.Vertical None) true
  = Some (Some 1, Some "w2:p2", Some (1, 1%N), [1; 1; 1]).
Proof. vm_compute. reflexivity. Qed.

Lemma pane_close_stops_its_process_witness :
  ∃ s' answer, handle_pane_close started_panes.2 "w2:p1" = Some (s', answer).
Proof.
  destruct (pane_close_stops_its_process started_panes.1 started_panes.2 "w2:p1" 1 2) as (s' & answer & H & _).
  - exact started_wf.
  - vm_compute. reflexivity.
  - by exists s', answer.
Defined.

Definition moved_panes : Counters * AppState :=
  default started_panes (run started_panes [Request.PaneMove "w1:p1" (PaneMoveDestination.NewWorkspace None None) true;
                                Request.PaneClose "w1:p2"; Request.TabCreate (Some "w2") None None true no_env]).

Lemma moved_run :
  run started_panes [Request.PaneMove "w1:p1" (PaneMoveDestination.NewWorkspace None None) true;
                     Request.PaneClose "w1:p2"; Request.TabCreate (Some "w2") None None true no_env] = Some moved_panes.
Proof. vm_compute. reflexivity. Qed.

Lemma moved_steps : rtc app_step (started_panes.1, started_panes.2) (moved_panes.1, moved_panes.2).
Proof. rewrite <- !surjective_pairing. eapply run_steps, moved_run. Qed.

Lemma public_pane_ids_are_not_reused_witness :
  public_pane_id started_panes.2 1 2 = Some "w2:p1" ∧ public_pane_id moved_panes.2 0 2 = Some "w2:p1" ∧ (2 = 2)%N.
Proof.
  split; [vm_compute; reflexivity|]. split; [vm_compute; reflexivity|].
  apply (public_pane_ids_are_not_reused started_panes.1 started_panes.2 moved_panes.1 moved_panes.2 1 2 0 2 "w2:p1").
  - exact started_wf.
  - exact started_room.
  - apply room_b_true. vm_compute. reflexivity.
  - exact moved_steps.
  - vm_compute. reflexivity.
  - vm_compute. reflexivity.
Defined.

Lemma public_ids_resolve_witness :
  ∃ w, as_workspaces started_panes.2 !! 0 = Some w ∧ parse_workspace_id started_panes.2 (ws_id w) = Some 0.
Proof.
  destruct (as_workspaces started_panes.2 !! 0) as [w|] eqn:Hw; [|vm_compute in Hw; discriminate Hw].
  exists w. split; [reflexivity|].
  destruct (public_ids_resolve started_panes.1 started_panes.2 0 w) as [H _]; [exact started_wf|exact started_room|exact Hw|exact H].
Defined.

(** A pane that is moved to a new tab of a workspace given by its position stops
    the server when there is no such position. *)
Example move_to_a_missing_position_panics :
  handle_pane_move started_panes.1 started_panes.2 "/" "w1:p1" (PaneMoveDestination.NewTab (Some "9") None) true = None.
Proof. vm_compute. reflexivity. Qed.

(** The second workspace is active.  When the processes of the first one end, the
    third one becomes active. *)
Definition third_active : AppState := switch_workspace (switch_workspace started_panes.2 2) 1.
Example process_end_shows_another_workspace :
  (as_active third_active ≫= λ i, ws_id <$> as_workspaces third_active !! i) = Some "w2"
  ∧ (s1 ← handle_pane_died third_active 1; s2 ← handle_pane_died s1 4;
     i ← as_active s2; ws_id <$> as_workspaces s2 !! i) = Some "w3".
Proof. vm_compute. done. Qed.

(** The pane that had the focus before is looked for in the workspace it left. *)
Example move_leaves_the_previous_focus_behind :
  (λ csa, (as_previous_pane_focus csa.1.2, (λ w, find_tab_index_for_pane w 4) <$> head (as_workspaces csa.1.2)))
  <$> handle_pane_move started_panes.1 started_panes.2 "/" "w1:p2" (PaneMoveDestination.NewWorkspace None None) true
  = Some (Some (mkPaneFocusTarget "w1" 4), Some None).
Proof. vm_compute. reflexivity. Qed.
End PanesDemo.
