(* ===== verification/Sessions.v ===== *)
(** * Saved sessions ([src/src/persist/snapshot.rs], [src/src/persist/restore.rs])

    What a session is saved as, and how workspaces, tabs, panes and terminals are
    made from it when the server starts: with new processes for its panes, or
    with the processes another server hands over.  Reading JSON is the class
    [SnapshotJson]; which directories exist, what Git says of them and which
    processes start is a [RestoreWorld].  Writing the file is left out. *)

From stdpp Require Import pretty.
From S2P Require Export PaneApi.

(** ** What is saved *)

Definition SNAPSHOT_VERSION : N := 3.

Record PaneAgentSessionSnapshot := mkPaneAgentSessionSnapshot {
  asn_source : string;
  asn_agent : string;
  asn_kind : AgentSessionRefKind;
  asn_value : string;
}.

Record PaneSnapshot := mkPaneSnapshot {
  psn_cwd : string;
  psn_label : option string;
  psn_agent_name : option string;
  psn_agent_session : option PaneAgentSessionSnapshot;
  psn_launch_argv : option (list string);
}.

Module DirectionSnapshot.
Inductive DirectionSnapshot := Horizontal | Vertical.
End DirectionSnapshot.
Abbreviation DirectionSnapshot := DirectionSnapshot.DirectionSnapshot.

Module LayoutSnapshot.
Inductive LayoutSnapshot :=
  | Pane (id : N)
  | Split (direction : DirectionSnapshot) (ratio : f32) (first second : LayoutSnapshot).
End LayoutSnapshot.
Abbreviation LayoutSnapshot := LayoutSnapshot.LayoutSnapshot.

Record TabSnapshot := mkTabSnapshot {
  tsn_custom_name : option string;
  tsn_layout : LayoutSnapshot;
  tsn_panes : gmap N PaneSnapshot;
  tsn_zoomed : bool;
  tsn_focused : option N;
  tsn_root_pane : option N;
}.

Record SavedWorkspaceSnapshot := mkSavedWorkspaceSnapshot {
  wsn_id : option string;
  wsn_custom_name : option string;
  wsn_identity_cwd : string;
  wsn_worktree_space : option WorktreeSpaceMembership;
  wsn_public_pane_numbers : gmap N N;
  wsn_next_public_pane_number : N;
  wsn_public_tab_numbers : list N;
  wsn_next_public_tab_number : N;
  wsn_tabs : list TabSnapshot;
  wsn_active_tab : nat;
}.

Record SavedSessionSnapshot := mkSavedSessionSnapshot {
  ssn_version : N;
  ssn_workspaces : list SavedWorkspaceSnapshot;
  ssn_active : option nat;
  ssn_selected : nat;
  ssn_sidebar_width : option N;
  ssn_sidebar_section_split : option f32;
  ssn_collapsed_space_keys : gset string;
}.

Record PaneHistorySnapshot := mkPaneHistorySnapshot { ph_ansi : string; ph_lines : N }.
Record TabHistorySnapshot := mkTabHistorySnapshot { th_panes : gmap N PaneHistorySnapshot }.
Record WorkspaceHistorySnapshot := mkWorkspaceHistorySnapshot { wh_tabs : list TabHistorySnapshot }.
Record SessionHistorySnapshot := mkSessionHistorySnapshot {
  sh_version : N;
  sh_workspaces : list WorkspaceHistorySnapshot;
}.

(** ** Reading a snapshot *)

Record LegacyWorkspaceSnapshot := mkLegacyWorkspaceSnapshot {
  lw_custom_name : option string;
  lw_layout : LayoutSnapshot;
  lw_panes : gmap N PaneSnapshot;
  lw_zoomed : bool;
  lw_focused : option N;
  lw_root_pane : option N;
}.

Fixpoint first_pane_id_in_layout (layout : LayoutSnapshot) : option N :=
  match layout with
  | LayoutSnapshot.Pane id => Some id
  | LayoutSnapshot.Split _ _ first second =>
      match first_pane_id_in_layout first with Some id => Some id | None => first_pane_id_in_layout second end
  end.

(** The first of several answers that is one *)
Fixpoint first_some {A} (l : list (option A)) : option A :=
  match l with [] => None | Some x :: _ => Some x | None :: l => first_some l end.

(** [current_dir] is [env::current_dir], or the root where there is none. *)
Definition legacy_identity_cwd (current_dir : string) (snap : LegacyWorkspaceSnapshot) : string :=
  let cwd_of pane_id := psn_cwd <$> lw_panes snap !! pane_id in
  let root_pane := first_some [lw_root_pane snap; first_pane_id_in_layout (lw_layout snap)] in
  default current_dir
    (first_some [root_pane ≫= cwd_of;
                 first_pane_id_in_layout (lw_layout snap) ≫= cwd_of;
                 head (btree_keys N.le (lw_panes snap)) ≫= cwd_of]).

Definition workspace_of_legacy (current_dir : string) (snap : LegacyWorkspaceSnapshot) : SavedWorkspaceSnapshot :=
  let tab := mkTabSnapshot None (lw_layout snap) (lw_panes snap) (lw_zoomed snap) (lw_focused snap) (lw_root_pane snap) in
  mkSavedWorkspaceSnapshot None (lw_custom_name snap) (legacy_identity_cwd current_dir snap) None ∅ 0 [] 0 [tab] 0.

Record RawSessionSnapshot (Value : Type) := mkRawSessionSnapshot {
  raw_version : N;
  raw_workspaces : list Value;
  raw_active : option nat;
  raw_selected : nat;
  raw_sidebar_width : option N;
  raw_sidebar_section_split : option f32;
  raw_collapsed_space_keys : gset string;
}.
Arguments mkRawSessionSnapshot {_}.
Arguments raw_version {_}.
Arguments raw_workspaces {_}.
Arguments raw_active {_}.
Arguments raw_selected {_}.
Arguments raw_sidebar_width {_}.
Arguments raw_sidebar_section_split {_}.
Arguments raw_collapsed_space_keys {_}.

(** [serde_json], with the text of its errors: a [Value], whether an object has a
    key, and what values and texts are read as *)
Class SnapshotJson (Value : Type) := {
  raw_from_str : string → result string (RawSessionSnapshot Value);
  history_from_str : string → result string SessionHistorySnapshot;
  has_key : Value → string → bool;
  workspace_from_value : Value → result string SavedWorkspaceSnapshot;
  legacy_from_value : Value → result string LegacyWorkspaceSnapshot;
}.

Section parsing.
Context {Value : Type} `{SnapshotJson Value} (current_dir : string).

Definition migrate_workspace (raw : Value) : result string SavedWorkspaceSnapshot :=
  if has_key raw "identity_cwd" then workspace_from_value raw
  else if has_key raw "layout" then
    legacy ← legacy_from_value raw;
    Ok (workspace_of_legacy current_dir legacy)
  else Err "workspace snapshot is neither current nor legacy format".

Fixpoint migrate_workspaces (raws : list Value) : result string (list SavedWorkspaceSnapshot) :=
  match raws with
  | [] => Ok []
  | raw :: raws => w ← migrate_workspace raw; ws ← migrate_workspaces raws; Ok (w :: ws)
  end.

Definition migrate_snapshot (raw : RawSessionSnapshot Value) : result string SavedSessionSnapshot :=
  workspaces ← migrate_workspaces (raw_workspaces raw);
  Ok (mkSavedSessionSnapshot (raw_version raw) workspaces (raw_active raw) (raw_selected raw) (raw_sidebar_width raw)
        (raw_sidebar_section_split raw) (raw_collapsed_space_keys raw)).

Definition newer_version (what : string) (version : N) : string :=
  what +:+ " version " +:+ pretty version +:+ " is newer than supported " +:+ pretty SNAPSHOT_VERSION.

Definition parse_snapshot (content : string) : result string SavedSessionSnapshot :=
  raw ← raw_from_str content;
  _ ← reject_if (SNAPSHOT_VERSION <? raw_version raw)%N (newer_version "snapshot" (raw_version raw));
  migrate_snapshot raw.

Definition parse_history_snapshot (content : string) : result string SessionHistorySnapshot :=
  snapshot ← history_from_str content;
  _ ← reject_if (SNAPSHOT_VERSION <? sh_version snapshot)%N (newer_version "history snapshot" (sh_version snapshot));
  Ok snapshot.

Definition snapshot_file_version (content : string) : option N :=
  match raw_from_str content with Ok raw => Some (raw_version raw) | Err _ => None end.
End parsing.

(** ** Capturing a session *)

Section capturing.
Context (terminals : gmap string TerminalState) (dirs : RuntimeDirs) (current_dir : string).

Definition captured_agent_session (terminal : TerminalState) : option PaneAgentSessionSnapshot :=
  match (authority ← tm_hook_authority terminal;
         session_ref ← ha_session_ref authority;
         Some (mkPaneAgentSessionSnapshot (ha_source authority) (ha_agent_label authority) (sr_kind session_ref)
                 (sr_value session_ref))) with
  | Some session => Some session
  | None =>
      (λ session, mkPaneAgentSessionSnapshot (ps_source session) (ps_agent session)
                    (sr_kind (ps_session_ref session)) (sr_value (ps_session_ref session)))
        <$> tm_persisted_agent_session terminal
  end.

Definition capture_pane (tab : Tab) (id : PaneId) (pane : PaneState) : PaneSnapshot :=
  let terminal := terminals !! pn_attached_terminal_id pane in
  mkPaneSnapshot (default current_dir (cwd_for_pane tab id terminals dirs)) (terminal ≫= tm_manual_label)
    (terminal ≫= tm_agent_name) (terminal ≫= captured_agent_session) (terminal ≫= tm_launch_argv).

Fixpoint capture_node (node : Node) : LayoutSnapshot :=
  match node with
  | Node.Pane id => LayoutSnapshot.Pane id
  | Node.Split direction ratio first second =>
      LayoutSnapshot.Split
        match direction with
        | Direction.Horizontal => DirectionSnapshot.Horizontal
        | Direction.Vertical => DirectionSnapshot.Vertical
        end ratio (capture_node first) (capture_node second)
  end.

Definition capture_tab (tab : Tab) : TabSnapshot :=
  mkTabSnapshot (tb_custom_name tab) (capture_node (tl_root (tb_layout tab)))
    (map_imap (λ id pane, Some (capture_pane tab id pane)) (tb_panes tab)) (tb_zoomed tab)
    (Some (tl_focus (tb_layout tab))) (Some (tb_root_pane tab)).

Definition capture_workspace (ws : Workspace) : SavedWorkspaceSnapshot :=
  mkSavedWorkspaceSnapshot (Some (ws_id ws)) (ws_custom_name ws) (resolved_identity_cwd_from ws terminals dirs)
    (ws_worktree_space ws) (ws_public_pane_numbers ws) (ws_next_public_pane_number ws) (tb_number <$> ws_tabs ws)
    (ws_next_public_tab_number ws) (capture_tab <$> ws_tabs ws) (ws_active_tab ws).

Definition capture (workspaces : list Workspace) (active : option nat) (selected : nat) (sidebar_width : N)
    (sidebar_section_split : f32) (collapsed_space_keys : gset string) : SavedSessionSnapshot :=
  mkSavedSessionSnapshot SNAPSHOT_VERSION (capture_workspace <$> workspaces) active selected (Some sidebar_width)
    (Some sidebar_section_split) collapsed_space_keys.
End capturing.

(** [s.lines().count()] *)
Definition lines_count (s : string) : N :=
  let breaks := N.of_nat (length (filter (λ c, c = "010"%char) (str_bytes s))) in
  match last (str_bytes s) with
  | None => 0
  | Some c => if bool_decide (c = "010"%char) then breaks else breaks + 1
  end%N.

(** [history_of] is what [snapshot_history] gives for a terminal that runs. *)
Section capturing_history.
Context (history_of : string → option string).

Definition capture_pane_history (pane : PaneState) : option PaneHistorySnapshot :=
  ansi ← history_of (pn_attached_terminal_id pane);
  Some (mkPaneHistorySnapshot ansi (lines_count ansi)).

Definition capture_tab_history (tab : Tab) : TabHistorySnapshot :=
  mkTabHistorySnapshot (omap capture_pane_history (tb_panes tab)).

Definition capture_history (workspaces : list Workspace) : SessionHistorySnapshot :=
  mkSessionHistorySnapshot SNAPSHOT_VERSION
    ((λ ws, mkWorkspaceHistorySnapshot (capture_tab_history <$> ws_tabs ws)) <$> workspaces).
End capturing_history.

(** ** Restoring a session *)

(** What restoring meets: the directory of the process, the home directory, the
    directories that exist and the Git repositories of checkouts, the processes
    that start and the clocks *)
Record RestoreWorld := mkRestoreWorld {
  rw_current_dir : string;
  rw_home : option string;
  rw_exists : string → bool;
  rw_space_key : string → option string;
  rw_start : PaneId → Spawn;
  rw_now : N;
  rw_clock : N;
}.

(** A process that is asked to start, and the text it is shown after *)
Record Launch := mkLaunch {
  la_pane : PaneId;
  la_cwd : string;
  la_env : PaneLaunchEnv;
  la_history : option string;
}.

(** What the panes of a session share while they are restored: counters, the
    sessions of agents that are resumed, the processes that were handed over
    and are not used yet, how many of them failed, and what was started *)
Record RestoreState := mkRestoreState {
  re_counters : Counters;
  re_resumed : gset string;
  re_imported : gset N;
  re_failed : N;
  re_launches : list Launch;
}.
#[export] Instance RestoreState_fields : Fields RestoreState := λ s,
  mkRestoreState (re_counters s) (re_resumed s) (re_imported s) (re_failed s) (re_launches s).

(** *** Layouts *)

Fixpoint remap_inner (next : N) (id_map : gmap N PaneId) (snap : LayoutSnapshot) : N * gmap N PaneId * Node :=
  match snap with
  | LayoutSnapshot.Pane old_id =>
      let '(new_id, next) := PaneId_alloc next in (next, <[old_id := new_id]> id_map, Node.Pane new_id)
  | LayoutSnapshot.Split direction ratio first second =>
      let '(next, id_map, first_node) := remap_inner next id_map first in
      let '(next, id_map, second_node) := remap_inner next id_map second in
      let dir :=
        match direction with
        | DirectionSnapshot.Horizontal => Direction.Horizontal
        | DirectionSnapshot.Vertical => Direction.Vertical
        end in
      (next, id_map, Node.Split dir ratio first_node second_node)
  end.

Definition restore_node_remapped (next : N) (snap : LayoutSnapshot) : N * gmap N PaneId * Node := remap_inner next ∅ snap.

(** The old identifier of each pane; the new ones are distinct. *)
Definition reverse_id_map (id_map : gmap N PaneId) : gmap PaneId N := list_to_map (prod_swap <$> map_to_list id_map).

Fixpoint prune_restored_node (node : Node) (surviving : gset PaneId) : option Node :=
  match node with
  | Node.Pane id => if bool_decide (id ∈ surviving) then Some (Node.Pane id) else None
  | Node.Split direction ratio first second =>
      match prune_restored_node first surviving, prune_restored_node second surviving with
      | Some first, Some second => Some (Node.Split direction ratio first second)
      | Some remaining, None | None, Some remaining => Some remaining
      | None, None => None
      end
  end.

Definition resolve_restored_pane (saved_old_id : option N) (id_map : gmap N PaneId) (surviving : gset PaneId)
    (pane_ids : list PaneId) : option PaneId :=
  match (old_id ← saved_old_id; pane_id ← id_map !! old_id; if bool_decide (pane_id ∈ surviving) then Some pane_id else None) with
  | Some pane_id => Some pane_id
  | None => head pane_ids
  end.

Fixpoint collect_layout_snapshot_pane_ids (node : LayoutSnapshot) : list N :=
  match node with
  | LayoutSnapshot.Pane id => [id]
  | LayoutSnapshot.Split _ _ first second =>
      collect_layout_snapshot_pane_ids first ++ collect_layout_snapshot_pane_ids second
  end.

(** *** Sessions of agents *)

Definition persisted_agent_session_from_snapshot (session : PaneAgentSessionSnapshot) : option PersistedAgentSession :=
  session_ref_from_snapshot (asn_source session) (asn_agent session) (asn_kind session) (asn_value session).

Definition restore_plan_for_snapshot (session : PaneAgentSessionSnapshot) (resume_agents_on_restore : bool) :
    option AgentResumePlan :=
  if negb resume_agents_on_restore then None
  else
    persisted ← persisted_agent_session_from_snapshot session;
    resume_plan (asn_source session) (asn_agent session) (ps_session_ref persisted).

Definition restored_terminal_agent_session (session : option PaneAgentSessionSnapshot) (duplicate_agent_session : bool) :
    option PersistedAgentSession :=
  if duplicate_agent_session then None else session ≫= persisted_agent_session_from_snapshot.

Record PaneRestoreStartup := mkPaneRestoreStartup {
  pt_restore_plan : option AgentResumePlan;
  pt_initial_history_ansi : option string;
  pt_duplicate_agent_session : bool;
  pt_reserved_agent_session : option string;
}.

(** With the sessions that are resumed *)
Definition pane_restore_startup (session : option PaneAgentSessionSnapshot) (history : option PaneHistorySnapshot)
    (enabled : bool) (resumed_sessions : gset string) : gset string * PaneRestoreStartup :=
  match session ≫= λ session, restore_plan_for_snapshot session enabled with
  | None => (resumed_sessions, mkPaneRestoreStartup None (ph_ansi <$> history) false None)
  | Some plan =>
      if bool_decide (rp_dedupe_key plan ∈ resumed_sessions)
      then (resumed_sessions, mkPaneRestoreStartup None None true None)
      else (resumed_sessions ∪ {[rp_dedupe_key plan]},
            mkPaneRestoreStartup (Some plan) None false (Some (rp_dedupe_key plan)))
  end.

(** *** Panes *)

Definition restored_cwd (w : RestoreWorld) (saved_cwd : string) : string :=
  if rw_exists w saved_cwd then saved_cwd
  else let home := default "/" (rw_home w) in if rw_exists w home then home else "/".

(** [f] of a value, where there is one *)
Definition apply_some {A B} (f : A → B → A) (a : A) (b : option B) : A :=
  match b with Some b => f a b | None => a end.

Definition restored_terminal `{HOrder : HashOrder} (w : RestoreWorld) (id cwd : string) (plan : option AgentResumePlan)
    (imported_argv : option (list string)) (saved_label saved_agent_name : option string) (agent : option Agent)
    (session : option PersistedAgentSession) : TerminalState :=
  let terminal := TerminalState_new id cwd in
  let terminal := apply_some with_pending_agent_resume_plan terminal plan in
  let terminal := apply_some (λ t argv, with_respawn_shell_on_exit (with_launch_argv t argv)) terminal imported_argv in
  let terminal := apply_some set_manual_label terminal saved_label in
  let terminal := apply_some set_agent_name terminal saved_agent_name in
  let terminal :=
    apply_some (λ t agent, (set_detected_state t (Some agent) AgentState.Idle false false (rw_now w) (rw_clock w)).1)
      terminal agent in
  apply_some set_persisted_agent_session terminal session.

(** The panes of a tab that are restored, their terminals, and the terminals
    that run *)
Record RestoredPanes := mkRestoredPanes {
  rq_panes : gmap PaneId PaneState;
  rq_terminals : list TerminalState;
  rq_runtimes : gset string;
}.

Section restoring.
Context `{HOrder : HashOrder} (w : RestoreWorld) (resume_agents_on_restore : bool).

(** The turn of the loop of [restore_tab] *)
Definition restore_pane (snap : TabSnapshot) (history : option TabHistorySnapshot) (number : N) (workspace_id : string)
    (public_pane_ids : gmap N string) (reverse : gmap PaneId N) (sp : RestoreState * RestoredPanes) (id : PaneId) :
    RestoreState * RestoredPanes :=
  let '(s, parts) := sp in
  let old_id := reverse !! id in
  let saved_pane := old_id ≫= λ old_id, tsn_panes snap !! old_id in
  let cwd := restored_cwd w (default (rw_current_dir w) (psn_cwd <$> saved_pane)) in
  let saved_session := saved_pane ≫= psn_agent_session in
  let saved_history := old_id ≫= λ old_id, history ≫= λ history, th_panes history !! old_id in
  let '(resumed, startup) :=
    pane_restore_startup saved_session saved_history resume_agents_on_restore (re_resumed s) in
  let s := s <| re_resumed := resumed |> in
  let agent := pt_restore_plan startup ≫= λ plan, parse_agent_label (rp_agent plan) in
  let launch_env :=
    match old_id ≫= λ old_id, public_pane_ids !! old_id with
    | Some pane_id =>
        with_identity (PaneLaunchEnv_from_extra []) workspace_id (public_tab_id_for_number workspace_id number) pane_id
    | None => PaneLaunchEnv_from_extra []
    end in
  let was_imported := match old_id with Some old_id => bool_decide (old_id ∈ re_imported s) | None => false end in
  let s := match old_id with Some old_id => s <| re_imported ::= λ m, m ∖ {[old_id]} |> | None => s end in
  let plan := if was_imported then None else pt_restore_plan startup in
  let s := if was_imported || bool_decide (is_Some plan) then s
           else s <| re_launches ::= λ l, l ++ [mkLaunch id cwd launch_env (pt_initial_history_ansi startup)] |> in
  if bool_decide (is_Some plan) || sp_started (rw_start w id) then
    let '(c, terminal_id) := TerminalId_alloc (re_counters s) (sp_micros (rw_start w id)) in
    let argv := if was_imported then saved_pane ≫= psn_launch_argv else None in
    let terminal :=
      restored_terminal w terminal_id cwd plan argv (saved_pane ≫= psn_label) (saved_pane ≫= psn_agent_name) agent
        (restored_terminal_agent_session saved_session (pt_duplicate_agent_session startup)) in
    (s <| re_counters := c |>,
     mkRestoredPanes (<[id := PaneState_new terminal_id]> (rq_panes parts)) (rq_terminals parts ++ [terminal])
       (if bool_decide (is_Some plan) then rq_runtimes parts else rq_runtimes parts ∪ {[terminal_id]}))
  else
    let s := match pt_reserved_agent_session startup with
             | Some key => s <| re_resumed ::= λ r, r ∖ {[key]} |>
             | None => s
             end in
    (if was_imported then s <| re_failed ::= N.succ |> else s, parts).

Record RestoredTab := mkRestoredTab {
  rt_tab : Tab;
  rt_terminals : list TerminalState;
  rt_runtimes : gset string;
  rt_reverse : gmap PaneId N;
}.

(** The tab of the panes that are restored *)
Definition assemble_tab (snap : TabSnapshot) (number : N) (id_map : gmap N PaneId) (node : Node)
    (panes : gmap PaneId PaneState) : option Tab :=
  let surviving := dom panes in
  if bool_decide (panes = ∅) then None
  else
    node ← prune_restored_node node surviving;
    focus ← resolve_restored_pane (tsn_focused snap) id_map surviving (collect_ids node);
    root_pane ← resolve_restored_pane (tsn_root_pane snap) id_map surviving (collect_ids node);
    Some (mkTab (tsn_custom_name snap) number root_pane (mkTileLayout node focus) panes (tsn_zoomed snap)).

Definition restore_tab (snap : TabSnapshot) (history : option TabHistorySnapshot) (number : N) (workspace_id : string)
    (public_pane_ids : gmap N string) (s : RestoreState) : RestoreState * option RestoredTab :=
  let '(next, id_map, node) := restore_node_remapped (ct_pane (re_counters s)) (tsn_layout snap) in
  let s := s <| re_counters ::= λ c, c <| ct_pane := next |> |> in
  let reverse := reverse_id_map id_map in
  let '(s, parts) :=
    foldl (restore_pane snap history number workspace_id public_pane_ids reverse) (s, mkRestoredPanes ∅ [] ∅)
      (collect_ids node) in
  (s, (λ tab, mkRestoredTab tab (rq_terminals parts) (rq_runtimes parts) reverse)
        <$> assemble_tab snap number id_map node (rq_panes parts)).

(** *** Workspaces *)

(** [max.checked_add(1)] of the numbers, or 1, and at least the one that was
    saved *)
Definition next_number (numbers : list N) (saved : N) : N :=
  N.max (default 1%N (max_option numbers ≫= λ top, checked_add u64_max top 1)) saved.

Definition number_old_pane (nn : gmap N N * N) (old_raw : N) : gmap N N * N :=
  let '(numbers, next) := nn in
  match numbers !! old_raw with
  | Some _ => (numbers, next)
  | None => (<[old_raw := next]> numbers, usize_add next 1)
  end.

Definition migrated_public_pane_numbers_by_old_raw (snap : SavedWorkspaceSnapshot) (next_public_pane_number : N) :
    gmap N N * N :=
  foldl (λ nn tab, foldl number_old_pane nn (collect_layout_snapshot_pane_ids (tsn_layout tab)))
    (wsn_public_pane_numbers snap, next_public_pane_number) (wsn_tabs snap).

(** The tabs of a workspace that are restored *)
Record RestoredTabs := mkRestoredTabs {
  rk_tabs : list Tab;
  rk_terminals : list TerminalState;
  rk_runtimes : gset string;
  rk_numbers : gmap PaneId N;
  rk_next_pane : N;
  rk_next_tab : N;
}.

Definition number_restored_pane (by_old_raw : gmap N N) (reverse : gmap PaneId N) (nn : gmap PaneId N * N) (pane_id : PaneId) :
    gmap PaneId N * N :=
  let '(numbers, next) := nn in
  let '(public_number, next) :=
    match by_old_raw !! default pane_id (reverse !! pane_id) with
    | Some public_number => (public_number, next)
    | None => (next, usize_add next 1)
    end in
  (<[pane_id := public_number]> numbers, N.max next (usize_add public_number 1)).

Definition restore_next_tab (snap : SavedWorkspaceSnapshot) (history : option WorkspaceHistorySnapshot) (workspace_id : string)
    (by_old_raw : gmap N N) (st : RestoreState * RestoredTabs) (i_tab : nat * TabSnapshot) : RestoreState * RestoredTabs :=
  let '(s, r) := st in
  let '(idx, tab_snap) := i_tab in
  let number := default (N.of_nat idx + 1)%N (wsn_public_tab_numbers snap !! idx) in
  let '(s, restored) :=
    restore_tab tab_snap (history ≫= λ h, wh_tabs h !! idx) number workspace_id
      (public_pane_id_for_number workspace_id <$> by_old_raw) s in
  match restored with
  | None => (s, r)
  | Some t =>
      let '(numbers, next_pane) :=
        foldl (number_restored_pane by_old_raw (rt_reverse t)) (rk_numbers r, rk_next_pane r)
          (pane_ids (tb_layout (rt_tab t))) in
      (s, mkRestoredTabs (rk_tabs r ++ [rt_tab t]) (rk_terminals r ++ rt_terminals t) (rk_runtimes r ∪ rt_runtimes t)
            numbers next_pane (N.max (rk_next_tab r) (usize_add (tb_number (rt_tab t)) 1)))
  end.

Definition restored_worktree_space_membership (space : option WorktreeSpaceMembership) : option WorktreeSpaceMembership :=
  space ← space;
  if rw_exists w (sm_checkout_path space) && bool_decide (rw_space_key w (sm_checkout_path space) = Some (sm_key space))
  then Some space else None.

Definition restore_workspace (snap : SavedWorkspaceSnapshot) (history : option WorkspaceHistorySnapshot) (s : RestoreState) :
    RestoreState * option (Workspace * list TerminalState * gset string) :=
  let '(c, workspace_id) :=
    match wsn_id snap with Some id => (re_counters s, id) | None => generate_workspace_id (re_counters s) end in
  let s := s <| re_counters := c |> in
  let next_pane := next_number (map_to_list (wsn_public_pane_numbers snap)).*2 (wsn_next_public_pane_number snap) in
  let '(by_old_raw, next_pane) := migrated_public_pane_numbers_by_old_raw snap next_pane in
  let next_tab := next_number (wsn_public_tab_numbers snap) (wsn_next_public_tab_number snap) in
  let '(s, r) :=
    foldl (restore_next_tab snap history workspace_id by_old_raw)
      (s, mkRestoredTabs [] [] ∅ ∅ next_pane next_tab) (imap pair (wsn_tabs snap)) in
  (s,
   if bool_decide (rk_tabs r = []) then None
   else Some (mkWorkspace workspace_id (wsn_custom_name snap) (wsn_identity_cwd snap)
                (restored_worktree_space_membership (wsn_worktree_space snap)) ∅ ∅ (rk_numbers r) (rk_next_pane r)
                (rk_next_tab r) (rk_tabs r) (Nat.min (wsn_active_tab snap) (length (rk_tabs r) - 1)),
              rk_terminals r, rk_runtimes r)).

Record RestoredSession := mkRestoredSession {
  rz_workspaces : list Workspace;
  rz_terminals : gmap string TerminalState;
  rz_runtimes : gset string;
}.

Definition restore_next_workspace (history : option SessionHistorySnapshot) (sr : RestoreState * RestoredSession)
    (i_ws : nat * SavedWorkspaceSnapshot) : RestoreState * RestoredSession :=
  let '(s, r) := sr in
  let '(s, restored) := restore_workspace i_ws.2 (history ≫= λ h, sh_workspaces h !! i_ws.1) s in
  match restored with
  | None => (s, r)
  | Some (workspace, terminals, runtimes) =>
      (s, mkRestoredSession (rz_workspaces r ++ [workspace])
            (foldl (λ m t, <[tm_id t := t]> m) (rz_terminals r) terminals) (rz_runtimes r ∪ runtimes))
  end.

Definition restore_with_imports_and_failures (snapshot : SavedSessionSnapshot) (history : option SessionHistorySnapshot)
    (imported : gset N) (c : Counters) : RestoreState * RestoredSession :=
  let '(s, r) :=
    foldl (restore_next_workspace history) (mkRestoreState c ∅ imported 0 [], mkRestoredSession [] ∅ ∅)
      (imap pair (ssn_workspaces snapshot)) in
  (s <| re_counters ::= λ c, reserve_workspace_ids c (rz_workspaces r) |>, r).
Definition restore_with_imports_strict (snapshot : SavedSessionSnapshot) (history : option SessionHistorySnapshot)
    (imported : gset N) (c : Counters) : RestoreState * result string RestoredSession :=
  let '(s, restored) := restore_with_imports_and_failures snapshot history imported c in
  (s,
   _ ← reject_if (0 <? re_failed s)%N
         ("handoff failed to restore " +:+ pretty (re_failed s) +:+ " imported pane runtime(s)");
   _ ← reject_if (negb (bool_decide (re_imported s = ∅)))
         ("handoff import did not consume " +:+ pretty (N.of_nat (size (re_imported s))) +:+ " pane runtime(s)");
   Ok restored).
End restoring.

Definition restore `{HOrder : HashOrder} (w : RestoreWorld) (snapshot : SavedSessionSnapshot) (history : option SessionHistorySnapshot)
    (resume_agents_on_restore : bool) (c : Counters) : RestoreState * RestoredSession :=
  restore_with_imports_and_failures w resume_agents_on_restore snapshot history ∅ c.

Definition restore_handoff `{HOrder : HashOrder} (w : RestoreWorld) (snapshot : SavedSessionSnapshot) (imports : gset N) (c : Counters) :
    RestoreState * result string RestoredSession :=
  restore_with_imports_strict w true snapshot None imports c.

Definition add_alias (aliases : gmap N PaneId) (ids : N * PaneId) : gmap N PaneId :=
  if bool_decide (ids.1 = ids.2) then aliases else <[ids.1 := ids.2]> aliases.

Definition handoff_pane_aliases (snapshot : SavedSessionSnapshot) (workspaces : list Workspace) : gmap N PaneId :=
  foldl add_alias ∅
    (zip (ssn_workspaces snapshot) workspaces ≫= λ '(ws_snap, workspace),
       zip (wsn_tabs ws_snap) (ws_tabs workspace) ≫= λ '(tab_snap, tab),
         zip (collect_layout_snapshot_pane_ids (tsn_layout tab_snap)) (pane_ids (tb_layout tab))).

(** The state of a server that starts with a session *)
Definition restored_app (snapshot : SavedSessionSnapshot) (r : RestoredSession) (aliases : gmap N PaneId) (confirm_close : bool) : AppState :=
  let count := length (rz_workspaces r) in
  mkAppState (rz_workspaces r) (ssn_active snapshot ≫= λ i, if bool_decide (i < count) then Some i else None)
    (Nat.min (ssn_selected snapshot) (count - 1)) (rz_terminals r) (rz_runtimes r) [] aliases ∅ None confirm_close.

(** ** Terminals that are restored *)

(** What a user sees of a terminal besides its agent *)
Definition same_face (t t' : TerminalState) : Prop :=
  tm_id t' = tm_id t ∧ tm_cwd t' = tm_cwd t ∧ tm_manual_label t' = tm_manual_label t ∧ tm_agent_name t' = tm_agent_name t
  ∧ tm_launch_argv t' = tm_launch_argv t ∧ tm_pending_agent_resume_plan t' = tm_pending_agent_resume_plan t.

#[export] Instance same_face_preorder : PreOrder same_face.
Proof. split; [by repeat split|]. intros t1 t2 t3. unfold same_face. naive_solver congruence. Qed.

Lemma same_face_foldl {A} (f : TerminalState → A → TerminalState) t xs :
  (∀ t x, same_face t (f t x)) → same_face t (foldl f t xs).
Proof. intros Hf. revert t. induction xs as [|x xs IH]; intros t; cbn; [done|]. etrans; [apply Hf|apply IH]. Qed.

Section faces.
Context `{HOrder : HashOrder}.

Lemma finish_face t previous session now : same_face t (finish_mutation t previous session now).1.
Proof.
  unfold finish_mutation, recompute_effective_state.
  assert (Hclear : same_face t (clear_expiry_pending_for_hidden_metadata t)) by (apply same_face_foldl; by repeat split).
  case_match eqn:Heq. revert Heq. case_match; intros [= <- <-]; [done|]. etrans; [exact Hclear|]. by repeat split.
Qed.

Lemma remember_stale_face t sessions : same_face t (remember_stale_sessions t sessions).
Proof. apply same_face_foldl. by repeat split. Qed.

Lemma clear_suppression_face t previous agent : same_face t (clear_suppression_for_detected_agent t previous agent).
Proof.
  unfold clear_suppression_for_detected_agent. repeat case_match; try done.
  all: (etrans; [|by repeat split]); (etrans; [|apply remember_stale_face]); by repeat split.
Qed.

Lemma record_detection_face t agent fallback visible exited now :
  same_face t (record_detection t agent fallback visible exited now).
Proof.
  unfold record_detection. cbv zeta. set (t1 := if negb exited then _ else _).
  assert (Ht1 : same_face t t1).
  { subst t1. destruct exited; [by repeat split|]. etrans; [|apply clear_suppression_face]. by repeat split. }
  etrans; [exact Ht1|]. clearbody t1. destruct (exited && _), (bool_decide _); by repeat split.
Qed.

Lemma drop_outdated_face t previous agent now clock : same_face t (drop_outdated_authority t previous agent now clock).
Proof.
  unfold drop_outdated_authority, suppress_current_authority, remember_stale_session. repeat case_match; by repeat split.
Qed.

Lemma detection_face t agent fallback visible now clock :
  same_face t (set_detected_state t agent fallback visible false now clock).1.
Proof.
  unfold set_detected_state. cbv zeta. case_match; [|case_match]; (etrans; [|apply finish_face]).
  - case_bool_decide; by repeat split.
  - done.
  - etrans; [apply record_detection_face|apply drop_outdated_face].
Qed.

Lemma restored_terminal_spec w id cwd plan argv label name agent session :
  let t := restored_terminal w id cwd plan argv label name agent session in
  tm_id t = id ∧ tm_cwd t = cwd ∧ tm_manual_label t = (label ≫= nonempty_trimmed)
  ∧ tm_agent_name t = (name ≫= nonempty_trimmed) ∧ tm_launch_argv t = argv
  ∧ tm_pending_agent_resume_plan t = plan ∧ (session ≠ None ∨ agent = None → tm_persisted_agent_session t = session).
Proof.
  cbv zeta. unfold restored_terminal, apply_some.
  set (t0 := match name with Some _ => _ | None => _ end).
  assert (H0 : tm_id t0 = id ∧ tm_cwd t0 = cwd ∧ tm_manual_label t0 = (label ≫= nonempty_trimmed)
               ∧ tm_agent_name t0 = (name ≫= nonempty_trimmed) ∧ tm_launch_argv t0 = argv
               ∧ tm_pending_agent_resume_plan t0 = plan ∧ tm_persisted_agent_session t0 = None).
  { subst t0. destruct plan, argv, label, name; by repeat split. }
  clearbody t0. destruct H0 as (Hid & Hcwd & Hlabel & Hname & Hargv & Hplan & Hsession).
  assert (Hface : same_face t0
    match agent with
    | Some agent => (set_detected_state t0 (Some agent) AgentState.Idle false false (rw_now w) (rw_clock w)).1
    | None => t0
    end) by (destruct agent; [apply detection_face|done]).
  destruct Hface as (Hi & Hc & Hl & Hn & Ha & Hp).
  destruct session as [session|]; cbn; (split_and!; [congruence..|]); [done|].
  intros [?| ->]; [done|exact Hsession].
Qed.
End faces.

(** ** Layouts that are restored *)

Abbreviation leaves := collect_layout_snapshot_pane_ids (only parsing).

(** The layout with other identifiers *)
Fixpoint relabel (f : N → PaneId) (snap : LayoutSnapshot) : Node :=
  match snap with
  | LayoutSnapshot.Pane id => Node.Pane (f id)
  | LayoutSnapshot.Split direction ratio first second =>
      Node.Split
        match direction with
        | DirectionSnapshot.Horizontal => Direction.Horizontal
        | DirectionSnapshot.Vertical => Direction.Vertical
        end ratio (relabel f first) (relabel f second)
  end.

Fixpoint ratios_ok (snap : LayoutSnapshot) : Prop :=
  match snap with
  | LayoutSnapshot.Pane _ => True
  | LayoutSnapshot.Split _ ratio first second => f32_ratio ratio ∧ ratios_ok first ∧ ratios_ok second
  end.

(** Identifiers in the order in which they are given *)
Record fresh_ids (next next' : N) (ids : list PaneId) : Prop := mk_fresh_ids {
  fi_range : Forall (λ id, next ≤ id < next')%N ids;
  fi_distinct : NoDup ids;
}.

Definition map_ids (m : gmap N PaneId) (pairs : list (N * PaneId)) : gmap N PaneId :=
  foldl (λ m on, <[on.1 := on.2]> m) m pairs.

Record remapped (next next' : N) (m m' : gmap N PaneId) (snap : LayoutSnapshot) (node : Node) : Prop := mk_remapped {
  rm_next : next' = (next + N.of_nat (length (leaves snap)))%N;
  rm_fresh : fresh_ids next next' (collect_ids node);
  rm_length : length (collect_ids node) = length (leaves snap);
  rm_map : m' = map_ids m (zip (leaves snap) (collect_ids node));
  rm_ratios : ratios_ok snap → node_ok node;
  rm_label : ∀ f, Forall2 (λ old new, f old = new) (leaves snap) (collect_ids node) → node = relabel f snap;
}.

Lemma fresh_ids_app next mid next' ids ids' :
  (next ≤ mid)%N → (mid ≤ next')%N → fresh_ids next mid ids → fresh_ids mid next' ids' → fresh_ids next next' (ids ++ ids').
Proof.
  intros Hle Hle' [Hr Hd] [Hr' Hd']. constructor.
  - apply Forall_app. split; [eapply Forall_impl; [exact Hr|]|eapply Forall_impl; [exact Hr'|]]; cbn; lia.
  - apply NoDup_app. split_and!; [done| |done]. intros id Hin Hin'. rewrite Forall_forall in Hr, Hr'.
    specialize (Hr id Hin). specialize (Hr' id Hin'). cbn in *. lia.
Qed.

Lemma remap_inner_spec snap next m :
  (next + N.of_nat (length (leaves snap)) < 2 ^ 32)%N →
  let '(next', m', node) := remap_inner next m snap in remapped next next' m m' snap node.
Proof.
  revert next m. induction snap as [id|direction ratio first IH1 second IH2]; intros next m Hroom.
  - cbn in *. rewrite N.mod_small by lia. constructor; cbn.
    + done.
    + constructor; [repeat constructor; lia|apply NoDup_singleton].
    + done.
    + done.
    + done.
    + intros f Hf. inversion Hf as [|? ? ? ? Hid]; subst. done.
  - cbn [remap_inner]. cbn [collect_layout_snapshot_pane_ids] in Hroom. rewrite length_app in Hroom.
    specialize (IH1 next m ltac:(lia)). destruct (remap_inner next m first) as [[mid m1] node1].
    destruct IH1 as [-> Hf1 Hl1 -> Hr1 Hb1].
    set (m1 := map_ids m _). specialize (IH2 (next + N.of_nat (length (leaves first)))%N m1 ltac:(lia)).
    destruct (remap_inner _ m1 second) as [[next' m2] node2]. destruct IH2 as [-> Hf2 Hl2 -> Hr2 Hb2].
    constructor; cbn [collect_layout_snapshot_pane_ids collect_ids ratios_ok node_ok relabel].
    + rewrite length_app. lia.
    + eapply fresh_ids_app; [..|exact Hf1|exact Hf2]; lia.
    + rewrite !length_app. lia.
    + subst m1. unfold map_ids. rewrite zip_with_app by done. by rewrite foldl_app.
    + naive_solver.
    + intros f Hf. apply Forall2_app_inv in Hf as [Hff Hfs]; [|done]. by rewrite <- Hb1, <- Hb2.
Qed.

(** *** The maps between old and new identifiers *)

Lemma map_ids_lookup pairs m old :
  (∃ new, (old, new) ∈ pairs ∧ map_ids m pairs !! old = Some new) ∨ (old ∉ pairs.*1 ∧ map_ids m pairs !! old = m !! old).
Proof.
  revert m. induction pairs as [|[o n] pairs IH]; intros m; [right; split; [apply not_elem_of_nil|done]|].
  change (map_ids m ((o, n) :: pairs)) with (map_ids (<[o := n]> m) pairs).
  destruct (IH (<[o := n]> m)) as [(new & Hin & Hm)|[Hnin Hm]].
  - left. exists new. split; [by right|done].
  - destruct (decide (o = old)) as [->|Hne].
    + left. exists n. split; [by left|]. by rewrite Hm, lookup_insert, decide_True.
    + right. split; [cbn; set_solver|]. by rewrite Hm, lookup_insert_ne.
Qed.

Lemma zip_new_functional {A} (olds : list N) (news : list A) i old new :
  NoDup olds → length news = length olds → (old, new) ∈ zip olds news → olds !! i = Some old → news !! i = Some new.
Proof.
  intros Hnd Hlen (j & Hj)%list_elem_of_lookup Hi. apply lookup_zip_with_Some in Hj as (o & n & [= <- <-] & Ho & Hn).
  by rewrite (NoDup_lookup _ _ _ _ Hnd Hi Ho).
Qed.

(** With distinct old identifiers the map takes each to its place. *)
Lemma map_ids_place olds news i old new :
  NoDup olds → length news = length olds → olds !! i = Some old → news !! i = Some new →
  map_ids ∅ (zip olds news) !! old = Some new.
Proof.
  intros Hnd Hlen Ho Hn. destruct (map_ids_lookup (zip olds news) ∅ old) as [(new' & Hin & Hm)|[Hnin _]].
  - rewrite Hm. f_equal. pose proof (zip_new_functional _ _ _ _ _ Hnd Hlen Hin Ho). congruence.
  - exfalso. apply Hnin. rewrite fst_zip by lia. by eapply list_elem_of_lookup_2.
Qed.

Lemma map_ids_new pairs old new : map_ids ∅ pairs !! old = Some new → (old, new) ∈ pairs.
Proof.
  intros Hm. destruct (map_ids_lookup pairs ∅ old) as [(new' & Hin & Hm')|[_ Hm']].
  - congruence.
  - rewrite Hm', lookup_empty in Hm. done.
Qed.

Lemma reverse_id_map_spec pairs new old :
  NoDup pairs.*2 → reverse_id_map (map_ids ∅ pairs) !! new = Some old ↔ map_ids ∅ pairs !! old = Some new.
Proof.
  intros Hnd. unfold reverse_id_map. set (m := map_ids ∅ pairs).
  assert (Hinj : NoDup (prod_swap <$> map_to_list m).*1).
  { rewrite <- list_fmap_compose. apply NoDup_fmap_2_strong; [|apply NoDup_map_to_list].
    intros [o n] [o' n'] Ho%elem_of_map_to_list%map_ids_new Ho'%elem_of_map_to_list%map_ids_new. cbn. intros <-.
    apply list_elem_of_lookup in Ho as [i Hi]. apply list_elem_of_lookup in Ho' as [j Hj].
    assert (i = j) as <-; [|congruence]. eapply NoDup_lookup; [exact Hnd|..]; by rewrite list_lookup_fmap, ?Hi, ?Hj. }
  rewrite <- elem_of_list_to_map by done. rewrite list_elem_of_fmap. rewrite <- elem_of_map_to_list. split.
  - by intros ([o n] & [= -> ->] & Hin).
  - intros Hin. by exists (old, new).
Qed.

(** *** Pruning *)

Lemma prune_spec node surviving :
  match prune_restored_node node surviving with
  | Some node' => collect_ids node' = filter (.∈ surviving) (collect_ids node) ∧ (node_ok node → node_ok node')
  | None => filter (.∈ surviving) (collect_ids node) = []
  end.
Proof.
  induction node as [id|direction ratio first IH1 second IH2]; cbn [prune_restored_node collect_ids node_ok].
  - case_bool_decide; cbn [collect_ids node_ok]; rewrite filter_cons; by case_decide.
  - rewrite filter_app. destruct (prune_restored_node first surviving) as [n1|], (prune_restored_node second surviving) as [n2|];
      cbn [collect_ids node_ok].
    + destruct IH1 as [-> Ho1], IH2 as [-> Ho2]. naive_solver.
    + destruct IH1 as [-> Ho1]. rewrite IH2, app_nil_r. naive_solver.
    + destruct IH2 as [-> Ho2]. rewrite IH1. naive_solver.
    + by rewrite IH1, IH2.
Qed.

Lemma prune_all node surviving :
  (∀ id, id ∈ collect_ids node → id ∈ surviving) → prune_restored_node node surviving = Some node.
Proof.
  induction node as [id|direction ratio first IH1 second IH2]; cbn; intros Hall.
  - rewrite bool_decide_eq_true_2; [done|]. apply Hall. by left.
  - rewrite IH1, IH2; [done|..]; intros id Hin; apply Hall; rewrite elem_of_app; auto.
Qed.

(** ** Panes that are restored *)

(** What a pane is restored from *)
Definition saved_pane (snap : TabSnapshot) (reverse : gmap PaneId N) (id : PaneId) : option PaneSnapshot :=
  old_id ← reverse !! id; tsn_panes snap !! old_id.

(** The session of its agent that a pane is resumed with *)
Definition saved_plan (enabled : bool) (saved : option PaneSnapshot) : option AgentResumePlan :=
  (saved ≫= psn_agent_session) ≫= λ session, restore_plan_for_snapshot session enabled.

(** The session of its agent that a terminal has again *)
Definition saved_agent_session (saved : option PaneSnapshot) : option PersistedAgentSession :=
  (saved ≫= psn_agent_session) ≫= persisted_agent_session_from_snapshot.

(** A terminal that shows what was saved of its pane.  It has the session of the
    agent that was saved, unless that is one to resume which another terminal
    resumes already; the session that it waits to resume is the one saved, and
    a saved session that can be resumed is among those that are. *)
Record shows (w : RestoreWorld) (enabled : bool) (resumed : gset string) (saved : option PaneSnapshot) (t : TerminalState) : Prop :=
  mk_shows {
  so_cwd : tm_cwd t = restored_cwd w (default (rw_current_dir w) (psn_cwd <$> saved));
  so_label : tm_manual_label t = (saved ≫= psn_label) ≫= nonempty_trimmed;
  so_agent_name : tm_agent_name t = (saved ≫= psn_agent_name) ≫= nonempty_trimmed;
  so_session : tm_persisted_agent_session t = saved_agent_session saved
    ∨ tm_persisted_agent_session t = None ∧ tm_pending_agent_resume_plan t = None ∧ is_Some (saved_plan enabled saved);
  so_plan : ∀ plan, tm_pending_agent_resume_plan t = Some plan →
    saved_plan enabled saved = Some plan
    ∧ tm_persisted_agent_session t = saved_agent_session saved;
  so_resumed : ∀ plan, saved_plan enabled saved = Some plan → rp_dedupe_key plan ∈ resumed;
}.

Lemma shows_mono w enabled resumed resumed' saved t :
  resumed ⊆ resumed' → shows w enabled resumed saved t → shows w enabled resumed' saved t.
Proof. intros Hsub [Hc Hl Hn Hs Hp Hr]. constructor; [done..|]. intros plan Hplan. by apply Hsub, Hr. Qed.

Definition plan_key (t : TerminalState) : option string := rp_dedupe_key <$> tm_pending_agent_resume_plan t.

(** A terminal with the next identifier, with the panes and terminals before *)
Record pane_made (w : RestoreWorld) (enabled : bool) (saved : option PaneSnapshot) (s s' : RestoreState) (parts parts' : RestoredPanes)
    (id : PaneId) (t : TerminalState) : Prop := mk_pane_made {
  pm_counters : TerminalId_alloc (re_counters s) (sp_micros (rw_start w id)) = (re_counters s', tm_id t);
  pm_panes : rq_panes parts' = <[id := PaneState_new (tm_id t)]> (rq_panes parts);
  pm_terminals : rq_terminals parts' = rq_terminals parts ++ [t];
  pm_shows : shows w enabled (re_resumed s') saved t;
  pm_runs :
    match tm_pending_agent_resume_plan t with
    | Some plan =>
        rq_runtimes parts' = rq_runtimes parts ∧ rp_dedupe_key plan ∉ re_resumed s
        ∧ re_resumed s' = re_resumed s ∪ {[rp_dedupe_key plan]}
    | None => rq_runtimes parts' = rq_runtimes parts ∪ {[tm_id t]} ∧ (re_imported s = ∅ → re_resumed s' = re_resumed s)
    end;
}.

Section panes.
Context `{HOrder : HashOrder} (w : RestoreWorld) (enabled : bool).

Lemma startup_spec session history resumed resumed' startup :
  pane_restore_startup session history enabled resumed = (resumed', startup) →
  let plan := session ≫= λ session, restore_plan_for_snapshot session enabled in
  resumed ⊆ resumed' ∧ (∀ p, plan = Some p → rp_dedupe_key p ∈ resumed')
  ∧ match pt_restore_plan startup with
    | Some p =>
        plan = Some p ∧ pt_reserved_agent_session startup = Some (rp_dedupe_key p) ∧ pt_duplicate_agent_session startup = false
        ∧ rp_dedupe_key p ∉ resumed ∧ resumed' = resumed ∪ {[rp_dedupe_key p]}
    | None => pt_reserved_agent_session startup = None ∧ resumed' = resumed
              ∧ (pt_duplicate_agent_session startup = true → is_Some plan)
    end.
Proof.
  unfold pane_restore_startup. cbv zeta. case_match; [case_bool_decide|]; intros [= <- <-]; cbn.
  - split_and!; [done|by intros p [= <-]|done..].
  - split_and!; [set_solver|intros p [= <-]; set_solver|done..].
  - by split_and!.
Qed.

Lemma planned_session session plan :
  restore_plan_for_snapshot session enabled = Some plan → is_Some (persisted_agent_session_from_snapshot session).
Proof. unfold restore_plan_for_snapshot. destruct enabled; [|done]. cbn. by intros (p & -> & _)%bind_Some. Qed.

Lemma restored_shows saved startup resumed plan tid argv :
  (∀ p, saved_plan enabled saved = Some p → rp_dedupe_key p ∈ resumed) →
  match pt_restore_plan startup with
  | Some p => saved_plan enabled saved = Some p ∧ pt_duplicate_agent_session startup = false
  | None => pt_duplicate_agent_session startup = true → is_Some (saved_plan enabled saved)
  end →
  plan = None ∨ plan = pt_restore_plan startup →
  let t := restored_terminal w tid (restored_cwd w (default (rw_current_dir w) (psn_cwd <$> saved))) plan argv (saved ≫= psn_label)
             (saved ≫= psn_agent_name) (pt_restore_plan startup ≫= λ plan, parse_agent_label (rp_agent plan))
             (restored_terminal_agent_session (saved ≫= psn_agent_session) (pt_duplicate_agent_session startup)) in
  tm_id t = tid ∧ tm_pending_agent_resume_plan t = plan ∧ shows w enabled resumed saved t.
Proof.
  intros Hkeys Hstartup Hor. cbv zeta. match goal with |- tm_id ?t = _ ∧ _ => pose proof (restored_terminal_spec w tid
    (restored_cwd w (default (rw_current_dir w) (psn_cwd <$> saved))) plan argv (saved ≫= psn_label) (saved ≫= psn_agent_name)
    (pt_restore_plan startup ≫= λ plan, parse_agent_label (rp_agent plan))
    (restored_terminal_agent_session (saved ≫= psn_agent_session) (pt_duplicate_agent_session startup))) as Hspec; set (t0 := t) in * end.
  cbv zeta in Hspec. fold t0 in Hspec. clearbody t0. destruct Hspec as (Hid & Hcwd & Hlabel & Hname & _ & Hplan & Hsession).
  assert (Hpers : tm_persisted_agent_session t0
                  = restored_terminal_agent_session (saved ≫= psn_agent_session) (pt_duplicate_agent_session startup)).
  { apply Hsession. destruct (pt_restore_plan startup) as [p|]; [left|by right]. destruct Hstartup as [Hsome ->].
    unfold restored_terminal_agent_session, saved_plan in *.
    apply bind_Some in Hsome as (session & -> & [persisted Hpers]%planned_session). cbn. by rewrite Hpers. }
  split_and!; [done..|]. constructor; [done..| | |done]; rewrite Hpers; unfold restored_terminal_agent_session.
  - destruct (pt_duplicate_agent_session startup); [right|by left]. rewrite Hplan.
    destruct (pt_restore_plan startup); [by destruct Hstartup|]. split_and!; [done|by destruct Hor as [-> | ->]|by apply Hstartup].
  - intros p. rewrite Hplan. destruct Hor as [-> | ->]; [done|]. intros Hp. rewrite Hp in Hstartup. by destruct Hstartup as [? ->].
Qed.

Lemma restore_pane_spec snap history number workspace_id public_ids reverse s parts id s' parts' :
  restore_pane w enabled snap history number workspace_id public_ids reverse (s, parts) id = (s', parts') →
  re_resumed s ⊆ re_resumed s' ∧ re_imported s' ⊆ re_imported s ∧
  ((∃ t, pane_made w enabled (saved_pane snap reverse id) s s' parts parts' id t)
   ∨ sp_started (rw_start w id) = false ∧ parts' = parts ∧ re_counters s' = re_counters s ∧ (re_imported s = ∅ → re_resumed s' = re_resumed s)).
Proof.
  unfold restore_pane. fold (saved_pane snap reverse id). set (saved := saved_pane snap reverse id).
  destruct (pane_restore_startup _ _ _ _) as [resumed startup] eqn:Hstartup.
  apply startup_spec in Hstartup as (Hsub & Hkeys & Hreserved).
  set (imported := match reverse !! id with Some _ => _ | None => false end).
  assert (Himported : re_imported s = ∅ → imported = false).
  { intros Hnone. subst imported. destruct (reverse !! id); [|done]. apply bool_decide_eq_false_2. cbn. rewrite Hnone. set_solver. }
  set (plan := if imported then None else pt_restore_plan startup).
  set (s1 := match reverse !! id with Some _ => _ | None => _ end).
  set (s2 := if imported || _ then s1 else _).
  assert (Hs2 : re_counters s2 = re_counters s ∧ re_resumed s2 = resumed ∧ re_imported s2 ⊆ re_imported s).
  { subst s2 s1. destruct (reverse !! id), (imported || _); (split_and!; [done..|]); cbn; set_solver. }
  clearbody s2 imported. destruct Hs2 as (Hc & Hr & Hi). clear s1.
  destruct (bool_decide (is_Some plan) || sp_started (rw_start w id)) eqn:Hstart.
  - destruct (TerminalId_alloc _ _) as [c tid] eqn:Halloc. intros [<- <-]%pair_equal_spec.
    assert (Hs3 : ∃ s3, s3 = s2 <| re_counters := c |> ∧ re_counters s3 = c ∧ re_resumed s3 = resumed ∧ re_imported s3 = re_imported s2)
      by (by eexists).
    destruct Hs3 as (s3 & <- & Hc3 & Hr3 & Hi3). rewrite Hr3, Hi3. split_and!; [done..|]. left.
    destruct (restored_shows saved startup resumed plan tid (if imported then saved ≫= psn_launch_argv else None) Hkeys)
      as (Hid & Hplan & Hshow).
    { destruct (pt_restore_plan startup); [by destruct Hreserved as (? & _ & ? & _)|]. by destruct Hreserved as (_ & _ & ?). }
    { subst plan. destruct imported; auto. }
    match goal with |- context [restored_terminal w tid ?a plan ?b ?c' ?d ?e ?f] => set (t := restored_terminal w tid a plan b c' d e f) in * end.
    exists t. clearbody t. constructor; cbn [rq_panes rq_terminals rq_runtimes].
    + rewrite Hid, Hc3, <- Hc. exact Halloc.
    + by rewrite Hid.
    + done.
    + by rewrite Hr3.
    + rewrite Hplan, Hid, Hr3. unfold plan. destruct imported; cbn.
      * split; [done|]. by intros ?%Himported.
      * destruct (pt_restore_plan startup) as [p|]; [|by destruct Hreserved as (_ & -> & _)].
        by destruct Hreserved as (_ & _ & _ & Hnot & Hres).
  - apply orb_false_iff in Hstart as [Hplan Hstart]. intros [= <- <-].
    set (s3 := match pt_reserved_agent_session startup with Some _ => _ | None => s2 end).
    assert (Hs3 : re_counters s3 = re_counters s ∧ re_imported s3 ⊆ re_imported s ∧ re_resumed s ⊆ re_resumed s3
                  ∧ (re_imported s = ∅ → re_resumed s3 = re_resumed s)).
    { subst s3. destruct (pt_restore_plan startup) as [p|] eqn:Hp.
      - destruct Hreserved as (_ & -> & _ & Hnot & Hres).
        change (re_counters s2 = re_counters s ∧ re_imported s2 ⊆ re_imported s ∧ re_resumed s ⊆ re_resumed s2 ∖ {[rp_dedupe_key p]}
                ∧ (re_imported s = ∅ → re_resumed s2 ∖ {[rp_dedupe_key p]} = re_resumed s)).
        rewrite Hr, Hres. split_and!; [done..|set_solver|]. intros ?%Himported. subst plan imported. by apply bool_decide_eq_false_1 in Hplan as [].
      - destruct Hreserved as (-> & Hres & _). rewrite Hr, Hc, Hres. by split_and!. }
    clearbody s3. destruct Hs3 as (Hc3 & Hi3 & Hr3 & He3).
    destruct imported; (split_and!; [done..|right; by split_and!]).
Qed.
End panes.

(** ** Terminals that are made *)

(** Identifiers that a range of the counter has given out *)
Record fresh_terminals (from to : N) (ids : list string) : Prop := mk_fresh_terminals {
  ft_range : Forall (λ id, ∃ micros n, clock_ok micros ∧ (from ≤ n < to)%N ∧ id = terminal_id_of micros n) ids;
  ft_distinct : NoDup ids;
}.

(** Sessions of agents that wait to be resumed, none of them twice *)
Record fresh_plans (resumed0 resumed : gset string) (terminals : list TerminalState) : Prop := mk_fresh_plans {
  fp_sub : resumed0 ⊆ resumed;
  fp_keys : ∀ key, key ∈ omap plan_key terminals → key ∉ resumed0 ∧ key ∈ resumed;
  fp_distinct : NoDup (omap plan_key terminals);
}.

(** What restoring at most [k] panes adds: terminals of their own, which run or
    wait for their agent *)
Record terminals_made (k : nat) (s0 s : RestoreState) (terminals : list TerminalState) (runtimes : gset string) : Prop :=
  mk_terminals_made {
  tk_counter : (ct_terminal (re_counters s0) ≤ ct_terminal (re_counters s) ≤ ct_terminal (re_counters s0) + N.of_nat k)%N;
  tk_fresh : fresh_terminals (ct_terminal (re_counters s0)) (ct_terminal (re_counters s)) (tm_id <$> terminals);
  tk_plans : fresh_plans (re_resumed s0) (re_resumed s) terminals;
  tk_runs : ∀ t, t ∈ terminals → tm_id t ∈ runtimes ∨ is_Some (tm_pending_agent_resume_plan t);
  tk_only : ∀ id, id ∈ runtimes → id ∈ tm_id <$> terminals;
  tk_imports : re_imported s ⊆ re_imported s0;
  tk_all : re_imported s0 = ∅ → re_resumed s ⊆ re_resumed s0 ∪ list_to_set (omap plan_key terminals);
}.

Lemma fresh_terminals_app from mid to ids ids' :
  (from ≤ mid)%N → (mid ≤ to)%N → fresh_terminals from mid ids → fresh_terminals mid to ids' →
  fresh_terminals from to (ids ++ ids').
Proof.
  intros Hle Hle' [Hr Hd] [Hr' Hd']. constructor.
  - apply Forall_app. split; [eapply Forall_impl; [exact Hr|]|eapply Forall_impl; [exact Hr'|]];
      intros id (micros & n & Hm & Hn & ->); exists micros, n; (split; [done|]; split; [lia|done]).
  - apply NoDup_app. split_and!; [done| |done]. intros id Hin Hin'. rewrite Forall_forall in Hr, Hr'.
    destruct (Hr id Hin) as (micros & n & Hm & Hn & ->). destruct (Hr' _ Hin') as (micros' & n' & Hm' & Hn' & Heq).
    apply terminal_id_inj in Heq as [_ ->]; [|done..]. lia.
Qed.

Lemma fresh_plans_app r0 r1 r2 ts ts' : fresh_plans r0 r1 ts → fresh_plans r1 r2 ts' → fresh_plans r0 r2 (ts ++ ts').
Proof.
  intros [Hs Hk Hd] [Hs' Hk' Hd']. constructor.
  - by etrans.
  - intros key. rewrite omap_app, elem_of_app. intros [Hin|Hin].
    + destruct (Hk key Hin). split; [done|]. by apply Hs'.
    + destruct (Hk' key Hin) as [Hnot ?]. split; [|done]. intros Hin0. by apply Hnot, Hs.
  - rewrite omap_app. apply NoDup_app. split_and!; [done| |done]. intros key Hin Hin'.
    destruct (Hk key Hin) as [_ Hin1]. by destruct (Hk' key Hin').
Qed.

Lemma made_nothing s0 s :
  ct_terminal (re_counters s) = ct_terminal (re_counters s0) → re_resumed s0 ⊆ re_resumed s → re_imported s ⊆ re_imported s0 →
  (re_imported s0 = ∅ → re_resumed s = re_resumed s0) → terminals_made 0 s0 s [] ∅.
Proof.
  intros Hc Hr Hi He. constructor; [lia|repeat constructor| | | |done|].
  - constructor; [done| |constructor]. by intros key ?%not_elem_of_nil.
  - by intros t ?%not_elem_of_nil.
  - by intros t ?%not_elem_of_empty.
  - intros ->%He. set_solver.
Qed.

Lemma made_app k k' s0 s1 s2 ts ts' R R' :
  terminals_made k s0 s1 ts R → terminals_made k' s1 s2 ts' R' → terminals_made (k + k') s0 s2 (ts ++ ts') (R ∪ R').
Proof.
  intros [Hc Hf Hp Hr Ho Hi Ha] [Hc' Hf' Hp' Hr' Ho' Hi' Ha']. constructor.
  - lia.
  - rewrite fmap_app. eapply fresh_terminals_app; [..|exact Hf|exact Hf']; lia.
  - by eapply fresh_plans_app.
  - intros t [Hin|Hin]%elem_of_app; [destruct (Hr t Hin)|destruct (Hr' t Hin)]; set_solver.
  - intros id [Hin|Hin]%elem_of_union; rewrite fmap_app, elem_of_app; auto.
  - by etrans.
  - intros H0. rewrite omap_app, list_to_set_app_L. specialize (Ha H0). assert (H1 : re_imported s1 = ∅) by (clear -H0 Hi; set_solver).
    specialize (Ha' H1). clear -Ha Ha'. set_solver.
Qed.

Lemma made_weaken k k' s0 s ts R : k ≤ k' → terminals_made k s0 s ts R → terminals_made k' s0 s ts R.
Proof. intros Hle [Hc Hf Hp Hr Ho Hi Ha]. constructor; [lia|done..]. Qed.

(** Only the counter of terminals and the sessions that are resumed count. *)
Lemma made_same k s0 s0' s s' ts R :
  ct_terminal (re_counters s0') = ct_terminal (re_counters s0) → re_resumed s0' = re_resumed s0 →
  re_imported s0' = re_imported s0 →
  ct_terminal (re_counters s') = ct_terminal (re_counters s) → re_resumed s' = re_resumed s → re_imported s' = re_imported s →
  terminals_made k s0 s ts R → terminals_made k s0' s' ts R.
Proof. intros H1 H2 H3 H4 H5 H6 [Hc Hf Hp Hr Ho Hi Ha]. constructor; by rewrite ?H1, ?H2, ?H3, ?H4, ?H5, ?H6. Qed.

Lemma pane_made_made w enabled saved s s' parts parts' id t :
  clock_ok (sp_micros (rw_start w id)) → (ct_terminal (re_counters s) + 1 < 2 ^ 64)%N → re_resumed s ⊆ re_resumed s' → re_imported s' ⊆ re_imported s →
  pane_made w enabled saved s s' parts parts' id t →
  ct_pane (re_counters s') = ct_pane (re_counters s) ∧ ct_workspace (re_counters s') = ct_workspace (re_counters s)
  ∧ ∃ R, terminals_made 1 s s' [t] R ∧ rq_runtimes parts' = rq_runtimes parts ∪ R.
Proof.
  intros Hclock Hroom Hsub Himp [Halloc _ _ _ Hruns]. unfold TerminalId_alloc in Halloc. injection Halloc as Hc Hid.
  rewrite <- Hc. split_and!; [done..|].
  assert (Hct : ct_terminal (re_counters s') = (ct_terminal (re_counters s) + 1)%N).
  { rewrite <- Hc. cbn. by rewrite N.mod_small by lia. }
  exists (if tm_pending_agent_resume_plan t then ∅ else {[tm_id t]}). split; [constructor|].
  - lia.
  - constructor; [|apply NoDup_singleton]. constructor; [|done]. eexists _, _. split; [exact Hclock|].
    split; [|symmetry; exact Hid]. lia.
  - destruct (tm_pending_agent_resume_plan t) as [plan|] eqn:Hplan.
    + destruct Hruns as (_ & Hnot & Hres). constructor; [done| |]; cbn; unfold plan_key; rewrite Hplan; cbn.
      * intros key ->%list_elem_of_singleton. split; [done|]. rewrite Hres. set_solver.
      * apply NoDup_singleton.
    + constructor; [done| |]; cbn; unfold plan_key; rewrite Hplan; cbn; [by intros key ?%not_elem_of_nil|constructor].
  - intros t' ->%list_elem_of_singleton. destruct (tm_pending_agent_resume_plan t); [by right|left; set_solver].
  - intros id' Hin. cbn. destruct (tm_pending_agent_resume_plan t); set_solver.
  - done.
  - intros H0. cbn. unfold plan_key. destruct (tm_pending_agent_resume_plan t) as [plan|]; cbn.
    + destruct Hruns as (_ & _ & ->). set_solver.
    + destruct Hruns as [_ ->]; [set_solver|done].
  - destruct (tm_pending_agent_resume_plan t); destruct Hruns as [-> _]; set_solver.
Qed.

(** ** Tabs that are restored *)

Section tabs.
Context `{HOrder : HashOrder} (w : RestoreWorld) (enabled : bool).
Context (Hclock : ∀ id, clock_ok (sp_micros (rw_start w id))).

(** What the loop over the panes [ids] has made *)
Record panes_made (snap : TabSnapshot) (reverse : gmap PaneId N) (ids : list PaneId) (s0 s : RestoreState)
    (parts : RestoredPanes) : Prop := mk_panes_made {
  pd_made : terminals_made (length ids) s0 s (rq_terminals parts) (rq_runtimes parts);
  pd_counters : ct_pane (re_counters s) = ct_pane (re_counters s0) ∧ ct_workspace (re_counters s) = ct_workspace (re_counters s0);
  pd_panes : ∀ p, is_Some (rq_panes parts !! p) → p ∈ ids;
  pd_attached : (λ ps, pn_attached_terminal_id ps.2) <$> map_to_list (rq_panes parts) ≡ₚ tm_id <$> rq_terminals parts;
  pd_shows : ∀ p ps, rq_panes parts !! p = Some ps →
    ∃ t, t ∈ rq_terminals parts ∧ ps = PaneState_new (tm_id t) ∧ shows w enabled (re_resumed s) (saved_pane snap reverse p) t;
  pd_started : (∀ id, sp_started (rw_start w id) = true) → ∀ p, p ∈ ids → is_Some (rq_panes parts !! p);
}.

Lemma panes_loop snap history number workspace_id public_ids reverse ids s0 :
  NoDup ids → (ct_terminal (re_counters s0) + N.of_nat (length ids) < 2 ^ 64)%N →
  let '(s, parts) :=
    foldl (restore_pane w enabled snap history number workspace_id public_ids reverse) (s0, mkRestoredPanes ∅ [] ∅) ids in
  panes_made snap reverse ids s0 s parts.
Proof.
  induction ids as [|id ids IH] using rev_ind; intros Hnd Hroom.
  - constructor; cbn.
    + by apply made_nothing.
    + done.
    + intros p. rewrite lookup_empty. by intros [].
    + by rewrite map_to_list_empty.
    + intros p ps. by rewrite lookup_empty.
    + by intros _ p ?%not_elem_of_nil.
  - rewrite foldl_snoc. apply NoDup_app in Hnd as (Hnd & Hnew & _). rewrite length_app in Hroom. cbn in Hroom.
    specialize (IH Hnd ltac:(lia)). destruct (foldl _ _ ids) as [s parts]. destruct IH as [Hmade Hcs Hsub Hatt Hshow Hall].
    destruct (restore_pane _ _ _ _ _ _ _ _ (s, parts) id) as [s' parts'] eqn:Hpane.
    apply restore_pane_spec in Hpane as (Hres & Himp & [(t & Hone)|(Hfail & -> & Hc & Hsame)]).
    + assert (Hid : rq_panes parts !! id = None).
      { apply eq_None_not_Some. intros Hin%Hsub. apply (Hnew id Hin). by left. }
      destruct (pane_made_made w enabled (saved_pane snap reverse id) s s' parts parts' id t) as (Hcp & Hcw & R & Hmade' & HR); [done| |done..|].
      { pose proof (tk_counter _ _ _ _ _ Hmade). lia. }
      destruct Hone as [_ Hpanes Hterms Hshows _]. constructor.
      * rewrite length_app, Hterms, HR. cbn. by apply (made_app _ 1 s0 s s').
      * destruct Hcs. by rewrite Hcp, Hcw.
      * intros p. rewrite Hpanes, lookup_insert_is_Some', elem_of_app, list_elem_of_singleton. naive_solver.
      * rewrite Hpanes, map_to_list_insert, fmap_cons, Hterms, fmap_app, Hatt by done. cbn. by rewrite Permutation_app_comm.
      * intros p ps. rewrite Hpanes, Hterms, lookup_insert. case_decide as Hp.
        -- intros [= <-]. subst p. exists t. rewrite elem_of_app, list_elem_of_singleton. auto.
        -- intros Hlook. destruct (Hshow p ps Hlook) as (t' & ? & ? & ?). exists t'. rewrite elem_of_app. eauto using shows_mono.
      * intros Hst p. rewrite Hpanes, lookup_insert_is_Some', elem_of_app, list_elem_of_singleton. naive_solver.
    + constructor.
      * rewrite length_app. cbn. rewrite <- (app_nil_r (rq_terminals parts)), <- (union_empty_r_L (rq_runtimes parts)).
        apply (made_app _ 1 s0 s s'); [done|]. apply (made_weaken 0); [lia|]. by apply made_nothing; [rewrite Hc|..].
      * by rewrite Hc.
      * intros p Hp%Hsub. rewrite elem_of_app. by left.
      * done.
      * intros p ps Hp. destruct (Hshow p ps Hp) as (t' & ? & ? & ?). eauto using shows_mono.
      * intros Hst. by rewrite Hst in Hfail.
Qed.

(** *** The tab *)

Lemma resolve_in saved id_map surviving ids p :
  resolve_restored_pane saved id_map surviving ids = Some p → (∀ q, q ∈ surviving → q ∈ ids) → p ∈ ids.
Proof.
  unfold resolve_restored_pane. intros Hp Hsub. case_match eqn:Hsaved.
  - injection Hp as ->. apply Hsub. apply bind_Some in Hsaved as (o & _ & (q & _ & Hq)%bind_Some).
    case_bool_decide; by simplify_eq.
  - destruct ids; [done|]. injection Hp as ->. by left.
Qed.

Lemma resolve_found old id_map surviving ids p :
  id_map !! old = Some p → p ∈ surviving → resolve_restored_pane (Some old) id_map surviving ids = Some p.
Proof. intros Hm Hp. unfold resolve_restored_pane. cbn. rewrite Hm. cbn. by rewrite bool_decide_eq_true_2. Qed.

(** What [restore_tab] makes of a snapshot: nothing, or a tab with new panes *)
Record tab_made (snap : TabSnapshot) (number : N) (s0 s : RestoreState) (t : RestoredTab) : Prop := mk_tab_made {
  td_made : terminals_made (length (leaves (tsn_layout snap))) s0 s (rt_terminals t) (rt_runtimes t);
  td_number : tb_number (rt_tab t) = number;
  td_wf : ratios_ok (tsn_layout snap) → tab_wf (ct_pane (re_counters s)) (rt_tab t);
  td_new : Forall (λ p, ct_pane (re_counters s0) ≤ p)%N (pane_ids (tb_layout (rt_tab t)));
  td_attached : (tab_attached (rt_tab t)).*2 ≡ₚ tm_id <$> rt_terminals t;
  td_reverse : ∀ p old, rt_reverse t !! p = Some old → old ∈ leaves (tsn_layout snap);
  td_unreverse : ∀ p q old, rt_reverse t !! p = Some old → rt_reverse t !! q = Some old → p = q;
  td_shows : ∀ p ps, tb_panes (rt_tab t) !! p = Some ps →
    ∃ tm, tm ∈ rt_terminals t ∧ ps = PaneState_new (tm_id tm) ∧ shows w enabled (re_resumed s) (saved_pane snap (rt_reverse t) p) tm;
  td_known : NoDup (leaves (tsn_layout snap)) → ∀ p, p ∈ pane_ids (tb_layout (rt_tab t)) → is_Some (rt_reverse t !! p);
}.

(** The tab with all its panes, under their new identifiers [f] *)
Record tab_complete (snap : TabSnapshot) (t : RestoredTab) (f : N → PaneId) : Prop := mk_tab_complete {
  tc_root : tl_root (tb_layout (rt_tab t)) = relabel f (tsn_layout snap);
  tc_focus : ∀ old, tsn_focused snap = Some old → old ∈ leaves (tsn_layout snap) → tl_focus (tb_layout (rt_tab t)) = f old;
  tc_root_pane : ∀ old, tsn_root_pane snap = Some old → old ∈ leaves (tsn_layout snap) → tb_root_pane (rt_tab t) = f old;
  tc_name : tb_custom_name (rt_tab t) = tsn_custom_name snap;
  tc_zoomed : tb_zoomed (rt_tab t) = tsn_zoomed snap;
  tc_panes : ∀ old, old ∈ leaves (tsn_layout snap) → is_Some (tb_panes (rt_tab t) !! f old) ∧ rt_reverse t !! f old = Some old;
}.

Lemma assemble_some snap number id_map node panes next tab :
  assemble_tab snap number id_map node panes = Some tab →
  NoDup (collect_ids node) → Forall (λ p, p < next)%N (collect_ids node) → (∀ p, is_Some (panes !! p) → p ∈ collect_ids node) →
  tb_number tab = number ∧ tb_panes tab = panes ∧ (node_ok node → tab_wf next tab)
  ∧ (∀ p, p ∈ pane_ids (tb_layout tab) → p ∈ collect_ids node ∧ is_Some (panes !! p)).
Proof.
  intros Htab Hnd Hlt Hsub. unfold assemble_tab in Htab. case_bool_decide; [done|].
  apply bind_Some in Htab as (node' & Hprune & (focus & Hfocus & (root & Hroot & [= <-])%bind_Some)%bind_Some).
  pose proof (prune_spec node (dom panes)) as Hspec. rewrite Hprune in Hspec. destruct Hspec as [Hids Hok].
  assert (Hin : ∀ p, p ∈ collect_ids node' ↔ is_Some (panes !! p)).
  { intros p. rewrite Hids, list_elem_of_filter, elem_of_dom. naive_solver. }
  assert (Hdom : ∀ q, q ∈ dom panes → q ∈ collect_ids node') by (intros q; rewrite Hin; by rewrite elem_of_dom).
  split_and!; [done..| |].
  - intros Hnode. constructor; unfold pane_ids; cbn.
    + constructor; unfold pane_ids; cbn.
      * rewrite Hids. by apply NoDup_filter.
      * by eapply resolve_in.
      * rewrite Hids. apply Forall_forall. intros p [_ Hp]%list_elem_of_filter. by apply (proj1 (Forall_forall _ _) Hlt).
      * by apply Hok.
    + intros p. by rewrite Hin.
    + by eapply resolve_in.
  - intros p. unfold pane_ids. cbn. rewrite Hin. intros Hp. split; [by apply Hsub|done].
Qed.

Lemma assemble_none snap number id_map node panes :
  assemble_tab snap number id_map node panes = None → (∀ p, is_Some (panes !! p) → p ∈ collect_ids node) → panes = ∅.
Proof.
  intros Htab Hsub. unfold assemble_tab in Htab. case_bool_decide as Hempty; [done|]. exfalso.
  destruct (map_choose _ Hempty) as (p & ps & Hp).
  pose proof (prune_spec node (dom panes)) as Hspec.
  assert (Hin : p ∈ filter (.∈ dom panes) (collect_ids node)).
  { apply list_elem_of_filter. split; [by apply elem_of_dom_2 in Hp|by apply Hsub]. }
  destruct (prune_restored_node node (dom panes)) as [node'|]; [|rewrite Hspec in Hin; by apply not_elem_of_nil in Hin].
  destruct Hspec as [Hids _]. rewrite <- Hids in Hin. cbn in Htab.
  assert (Hres : ∀ saved, is_Some (resolve_restored_pane saved id_map (dom panes) (collect_ids node'))).
  { intros saved. unfold resolve_restored_pane. case_match; [done|]. destruct (collect_ids node'); [by apply not_elem_of_nil in Hin|done]. }
  destruct (Hres (tsn_focused snap)) as [f Hf]. destruct (Hres (tsn_root_pane snap)) as [r Hr].
  by rewrite Hf, Hr in Htab.
Qed.

Lemma assemble_all snap number id_map node panes :
  (∀ p, p ∈ collect_ids node → is_Some (panes !! p)) → (∃ p, p ∈ collect_ids node) → (∀ p, is_Some (panes !! p) → p ∈ collect_ids node) →
  ∃ tab, assemble_tab snap number id_map node panes = Some tab ∧ tl_root (tb_layout tab) = node
    ∧ tb_custom_name tab = tsn_custom_name snap ∧ tb_zoomed tab = tsn_zoomed snap ∧ tb_panes tab = panes
    ∧ (∀ old p, tsn_focused snap = Some old → id_map !! old = Some p → is_Some (panes !! p) → tl_focus (tb_layout tab) = p)
    ∧ (∀ old p, tsn_root_pane snap = Some old → id_map !! old = Some p → is_Some (panes !! p) → tb_root_pane tab = p).
Proof.
  intros Hall [p0 Hp0] Hsub. destruct (assemble_tab snap number id_map node panes) as [tab|] eqn:Htab.
  - exists tab. split; [done|]. unfold assemble_tab in Htab. case_bool_decide; [done|].
    rewrite prune_all in Htab by (intros id Hid; by apply elem_of_dom, Hall). cbn in Htab.
    apply bind_Some in Htab as (focus & Hfocus & (root & Hroot & [= <-])%bind_Some). cbn. split_and!; [done..| |];
      intros old p Hold Hp Hin; rewrite Hold in *; [rewrite (resolve_found _ _ _ _ p) in Hfocus|rewrite (resolve_found _ _ _ _ p) in Hroot];
      try done; try (by apply elem_of_dom); congruence.
  - apply assemble_none in Htab; [|done]. destruct (Hall p0 Hp0) as [? Hx]. by rewrite Htab, lookup_empty in Hx.
Qed.

Lemma no_panes snap reverse ids s0 s parts :
  panes_made snap reverse ids s0 s parts → rq_panes parts = ∅ → rq_terminals parts = [] ∧ rq_runtimes parts = ∅.
Proof.
  intros [[_ _ _ _ Honly _ _] _ _ Hatt _ _] Hempty. rewrite Hempty, map_to_list_empty in Hatt.
  apply Permutation_nil_l in Hatt. symmetry in Hatt. apply fmap_nil_inv in Hatt. split; [done|]. apply set_eq. intros id.
  split; [|by intros ?%not_elem_of_empty]. intros Hin%Honly. rewrite Hatt in Hin. by apply not_elem_of_nil in Hin.
Qed.

(** The map of the panes of a layout that is restored, and its inverse *)
Lemma panes_placed snap next next' m node :
  remapped next next' ∅ m snap node →
  (∀ p old, reverse_id_map m !! p = Some old ↔ m !! old = Some p)
  ∧ (∀ p old, m !! old = Some p → old ∈ leaves snap ∧ p ∈ collect_ids node)
  ∧ (NoDup (leaves snap) → Forall2 (λ old new, m !! old = Some new) (leaves snap) (collect_ids node)).
Proof.
  intros [_ [_ Hnd] Hlen -> _ _]. split_and!.
  - intros p old. apply reverse_id_map_spec. by rewrite snd_zip by lia.
  - intros p old Hin%map_ids_new. split; [by eapply elem_of_zip_l|by eapply elem_of_zip_r].
  - intros Holds. apply Forall2_same_length_lookup_2; [done|]. intros i old new Ho Hn. by eapply map_ids_place.
Qed.

Lemma Forall2_l {A B} (P : A → B → Prop) l k x : Forall2 P l k → x ∈ l → ∃ y, y ∈ k ∧ P x y.
Proof. intros HP. induction HP as [|a b l k Hab _ IH]; [by intros ?%not_elem_of_nil|]. intros [->|Hx]%elem_of_cons; [exists b|]; set_solver. Qed.

Lemma Forall2_r {A B} (P : A → B → Prop) l k y : Forall2 P l k → y ∈ k → ∃ x, x ∈ l ∧ P x y.
Proof. intros HP. induction HP as [|a b l k Hab _ IH]; [by intros ?%not_elem_of_nil|]. intros [->|Hy]%elem_of_cons; [exists a|]; set_solver. Qed.

Lemma leaves_nonempty snap : leaves snap ≠ [].
Proof. induction snap as [|? ? first IH ? _]; cbn; [done|]. intros [? _]%app_nil. done. Qed.

Lemma restore_tab_spec snap history number workspace_id public_ids s0 s res :
  (ct_pane (re_counters s0) + N.of_nat (length (leaves (tsn_layout snap))) < 2 ^ 32)%N →
  (ct_terminal (re_counters s0) + N.of_nat (length (leaves (tsn_layout snap))) < 2 ^ 64)%N →
  restore_tab w enabled snap history number workspace_id public_ids s0 = (s, res) →
  ct_pane (re_counters s) = (ct_pane (re_counters s0) + N.of_nat (length (leaves (tsn_layout snap))))%N
  ∧ ct_workspace (re_counters s) = ct_workspace (re_counters s0)
  ∧ match res with
    | None => terminals_made (length (leaves (tsn_layout snap))) s0 s [] ∅
    | Some t => tab_made snap number s0 s t
    end
  ∧ ((∀ id, sp_started (rw_start w id) = true) → NoDup (leaves (tsn_layout snap)) → ∃ t f, res = Some t ∧ tab_complete snap t f).
Proof.
  intros Hpane Hterm. unfold restore_tab, restore_node_remapped.
  pose proof (remap_inner_spec (tsn_layout snap) (ct_pane (re_counters s0)) ∅ Hpane) as Hmap.
  destruct (remap_inner _ _ _) as [[next id_map] node].
  destruct (panes_placed _ _ _ _ _ Hmap) as (Hrev & Hplace & Hdistinct).
  destruct Hmap as [Hnext [Hrange Hnd] Hlen _ Hratios Hlabel]. set (reverse := reverse_id_map id_map) in *.
  set (s1 := s0 <| re_counters ::= _ |>).
  pose proof (panes_loop snap history number workspace_id public_ids reverse (collect_ids node) s1 Hnd) as Hloop.
  destruct (foldl _ _ (collect_ids node)) as [s2 parts]. rewrite Hlen in Hloop. specialize (Hloop Hterm).
  intros [= <- <-]. pose proof Hloop as [Hmade [Hcp Hcw] Hsub Hatt Hshows Hall]. rewrite Hlen in Hmade.
  assert (Hmade0 : terminals_made (length (leaves (tsn_layout snap))) s0 s2 (rq_terminals parts) (rq_runtimes parts))
    by (by eapply made_same; [..|exact Hmade]).
  split_and!; [rewrite Hcp; exact Hnext|exact Hcw| |].
  - destruct (assemble_tab snap number id_map node (rq_panes parts)) as [tab|] eqn:Htab; cbn.
    + destruct (assemble_some _ _ _ _ _ next _ Htab Hnd) as (Hnum & Hpanes & Hwf & Hids); [|done|].
      { eapply Forall_impl; [exact Hrange|]. cbn. lia. }
      constructor; cbn [rt_tab rt_terminals rt_runtimes rt_reverse]; [done|done|..].
      * rewrite Hcp. intros Hok. by apply Hwf, Hratios.
      * apply Forall_forall. intros p [Hp _]%Hids. by apply (proj1 (Forall_forall _ _) Hrange p Hp).
      * unfold tab_attached. rewrite Hpanes, <- list_fmap_compose. exact Hatt.
      * intros p old Hp%Hrev. by apply (Hplace p).
      * intros p q old Hp%Hrev Hq%Hrev. congruence.
      * by rewrite Hpanes.
      * intros Holds p [Hp _]%Hids. destruct (Forall2_r _ _ _ p (Hdistinct Holds) Hp) as (old & _ & Hold).
        exists old. by apply Hrev.
    + apply assemble_none in Htab; [|done]. by destruct (no_panes _ _ _ _ _ _ Hloop Htab) as [<- <-].
  - intros Hstart Holds. specialize (Hdistinct Holds).
    destruct (assemble_all snap number id_map node (rq_panes parts)) as (tab & -> & Hroot & Hname & Hzoom & Hpanes & Hfocus & Hrootp);
      [by apply Hall| |done|].
    { pose proof (leaves_nonempty (tsn_layout snap)). rewrite <- length_zero_iff_nil, <- Hlen in H.
      destruct (collect_ids node) as [|p ?]; [done|]. exists p. by left. }
    assert (Hat : ∀ old, old ∈ leaves (tsn_layout snap) →
              id_map !! old = Some (default 0%N (id_map !! old)) ∧ is_Some (rq_panes parts !! default 0%N (id_map !! old))).
    { intros old Hin. destruct (Forall2_l _ _ _ old Hdistinct Hin) as (p & Hp & Hold). rewrite Hold. split; [done|]. by apply Hall. }
    eexists _, (λ old, default 0%N (id_map !! old)). split; [done|]. constructor; cbn [rt_tab rt_reverse]; [|..|done|done|].
    + rewrite Hroot. apply Hlabel. eapply Forall2_impl; [exact Hdistinct|]. cbn. by intros old new ->.
    + intros old Hf Hin. destruct (Hat old Hin). by eapply Hfocus.
    + intros old Hf Hin. destruct (Hat old Hin). by eapply Hrootp.
    + intros old Hin. destruct (Hat old Hin). rewrite Hpanes. split; [done|]. by apply Hrev.
Qed.
End tabs.
