(* ===== verification/Restored.v ===== *)
(** * Sessions that come back ([src/src/persist/restore.rs])

    What restoring a saved session gives: numbers of panes and tabs, workspaces and
    the whole session, for any processes that start; and that a session that is
    captured and restored is the same but for the identifiers of panes and
    terminals. *)

From S2P Require Export Sessions.

(** ** Numbers of panes and tabs *)

Lemma next_number_spec numbers saved :
  Forall (λ n, n < u64_max)%N numbers →
  (0 < next_number numbers saved)%N ∧ (saved ≤ next_number numbers saved)%N ∧ Forall (λ n, n < next_number numbers saved)%N numbers
  ∧ ∀ bound, (0 < bound)%N → (saved ≤ bound)%N → Forall (λ n, n < bound)%N numbers → (next_number numbers saved ≤ bound)%N.
Proof.
  intros Hlt. unfold next_number. destruct (max_option numbers) as [top|] eqn:Htop; cbn [option_bind mbind].
  - apply max_option_spec in Htop as [Hin Htop]. pose proof (proj1 (Forall_forall _ _) Hlt top Hin) as Hmax. cbn in Hmax.
    unfold checked_add. destruct (N.leb_spec (top + 1) u64_max) as [_|?]; [|lia]. cbn [from_option id].
    split_and!; [lia|lia| |].
    + apply Forall_forall. intros n Hn. specialize (Htop n Hn). lia.
    + intros bound _ Hs Hb. pose proof (proj1 (Forall_forall _ _) Hb top Hin). cbn in *. lia.
  - destruct numbers; [|done]. cbn. split_and!; [lia|lia|constructor|lia].
Qed.

Lemma foldl_bind {A B C} (f : A → C → A) (g : B → list C) a l :
  foldl (λ a x, foldl f a (g x)) a l = foldl f a (l ≫= g).
Proof. revert a. induction l as [|x l IH]; intros a; [done|]. rewrite bind_cons, foldl_app. apply IH. Qed.

(** Panes that have no number get the next ones. *)
Lemma number_old_spec olds m next :
  numbers_ok next m → (next + N.of_nat (length olds) < 2 ^ 64)%N →
  let '(m', next') := foldl number_old_pane (m, next) olds in
  numbers_ok next' m' ∧ (next ≤ next' ≤ next + N.of_nat (length olds))%N ∧ m ⊆ m' ∧ (∀ old, old ∈ olds → is_Some (m' !! old))
  ∧ ((∀ old, old ∈ olds → is_Some (m !! old)) → m' = m ∧ next' = next).
Proof.
  revert m next. induction olds as [|old olds IH]; intros m next Hok Hroom.
  - cbn. split_and!; [done|lia|lia|done| |done]. by intros old ?%not_elem_of_nil.
  - cbn [length foldl] in *. unfold number_old_pane at 2.
    destruct (m !! old) as [n|] eqn:Hold.
    + specialize (IH m next Hok ltac:(lia)). destruct (foldl _ _ _) as [m' next'].
      destruct IH as (Hok' & Hle & Hsub & Hall & Hsame). split_and!; [done|lia|lia|done| |].
      * intros o [->|Ho]%elem_of_cons; [|by apply Hall]. eexists. by eapply lookup_weaken.
      * intros Hknown. apply Hsame. intros o Ho. apply Hknown. by right.
    + assert (Hnext : usize_add next 1 = (next + 1)%N) by (unfold usize_add; apply N.mod_small; lia). rewrite Hnext.
      specialize (IH (<[old := next]> m) (next + 1)%N (numbers_ok_register _ _ _ Hok) ltac:(lia)).
      destruct (foldl _ _ _) as [m' next']. destruct IH as (Hok' & Hle & Hsub & Hall & Hsame).
      assert (Hsub' : m ⊆ m') by (etrans; [by apply insert_subseteq|done]). split_and!; [done|lia|lia|done| |].
      * intros o [->|Ho]%elem_of_cons; [|by apply Hall]. exists next. eapply lookup_weaken; [|exact Hsub]. by rewrite lookup_insert, decide_True.
      * intros Hknown. destruct (Hknown old) as [? Hx]; [by left|congruence].
Qed.

(** The panes of a tab get the numbers of the panes they are made from. *)
Lemma number_restored_spec by_old reverse ids numbers next :
  (∀ p, p ∈ ids → ∃ n, reverse !! p ≫= (λ old, by_old !! old) = Some n ∧ (n < next)%N) → (next < 2 ^ 64)%N →
  let '(numbers', next') := foldl (number_restored_pane by_old reverse) (numbers, next) ids in
  next' = next ∧ ∀ p, numbers' !! p = if decide (p ∈ ids) then reverse !! p ≫= λ old, by_old !! old else numbers !! p.
Proof.
  intros Hknown Hroom. induction ids as [|id ids IH] using rev_ind.
  - cbn. split; [done|]. intros p. by rewrite decide_False by apply not_elem_of_nil.
  - rewrite foldl_snoc. destruct (foldl _ _ ids) as [numbers' next']. destruct IH as [-> IH].
    { intros p Hp. apply Hknown. rewrite elem_of_app. by left. }
    destruct (Hknown id) as (n & Hn & Hlt); [rewrite elem_of_app; right; by left|].
    pose proof Hn as Hn'. apply bind_Some in Hn' as (old & Hrev & Hold). unfold number_restored_pane.
    rewrite Hrev. change (default id (Some old)) with old. rewrite Hold. split.
    + unfold usize_add. rewrite N.mod_small by lia. lia.
    + intros p. rewrite lookup_insert, IH. destruct (decide (id = p)) as [->|Hne].
      * rewrite decide_True by (rewrite elem_of_app; right; by left). by rewrite Hn.
      * destruct (decide (p ∈ ids)) as [Hin|Hnin].
        -- by rewrite decide_True by (rewrite elem_of_app; by left).
        -- rewrite decide_False; [done|]. rewrite elem_of_app, list_elem_of_singleton. naive_solver.
Qed.

(** ** Workspaces that are restored *)

Definition tab_number_at (snap : SavedWorkspaceSnapshot) (idx : nat) : N :=
  default (N.of_nat idx + 1)%N (wsn_public_tab_numbers snap !! idx).

Definition old_ids (tabs : list TabSnapshot) : list N := tabs ≫= λ tab, leaves (tsn_layout tab).

Lemma tabs_ok_add next next_tab next_tab' tabs t :
  tabs_ok next next_tab tabs → tab_wf next t → (0 < tb_number t < next_tab')%N → (next_tab ≤ next_tab')%N →
  tb_number t ∉ tb_number <$> tabs → (∀ p, p ∈ (tab_attached t).*1 → p ∉ (attached tabs).*1) →
  tabs_ok next next_tab' (tabs ++ [t]).
Proof.
  intros [H1 H2 H3 H4] Hwf Hn Hle Hnum Hnew. constructor.
  - by apply Forall_app_2; [|constructor].
  - rewrite attached_app, attached_single, fmap_app. apply NoDup_app. split_and!; [done| |apply tab_attached_NoDup].
    intros p Hp Hp'. by apply (Hnew p).
  - rewrite fmap_app. apply NoDup_app. split_and!; [done| |apply NoDup_singleton].
    intros n Hin. cbn. by intros ->%list_elem_of_singleton.
  - apply Forall_app_2; [|constructor; [lia|done]]. eapply Forall_impl; [exact H4|]. cbn. lia.
Qed.

Section workspace.
Context `{HOrder : HashOrder} (w : RestoreWorld) (enabled : bool).
Context (Hclock : ∀ id, clock_ok (sp_micros (rw_start w id))).
Context (by_old : gmap N N).

(** A pane that shows what was saved of the pane [old], under its number *)
Definition pane_kept (resumed : gset string) (numbers : gmap PaneId N) (terminals : list TerminalState) (snap : TabSnapshot)
    (old : N) (p : PaneId) (tid : string) : Prop :=
  ∃ tm n, tm ∈ terminals ∧ tid = tm_id tm ∧ shows w enabled resumed (tsn_panes snap !! old) tm ∧ by_old !! old = Some n
    ∧ numbers !! p = Some n.

Lemma pane_kept_mono resumed resumed' numbers numbers' terminals terminals' snap old p tid :
  resumed ⊆ resumed' → (∀ p n, numbers !! p = Some n → numbers' !! p = Some n) → (∀ t, t ∈ terminals → t ∈ terminals') →
  pane_kept resumed numbers terminals snap old p tid → pane_kept resumed' numbers' terminals' snap old p tid.
Proof.
  intros Hr Hn Ht (tm & n & Hin & -> & Hshow & Hold & Hp). exists tm, n. split_and!; [by apply Ht|done|by eapply shows_mono|done|by apply Hn].
Qed.

(** The tab that was saved, with other identifiers of panes *)
Record tab_kept (resumed : gset string) (numbers : gmap PaneId N) (terminals : list TerminalState) (snap : TabSnapshot)
    (number : N) (tab : Tab) (f : N → PaneId) : Prop := mk_tab_kept {
  kt_root : tl_root (tb_layout tab) = relabel f (tsn_layout snap);
  kt_focus : ∀ old, tsn_focused snap = Some old → old ∈ leaves (tsn_layout snap) → tl_focus (tb_layout tab) = f old;
  kt_root_pane : ∀ old, tsn_root_pane snap = Some old → old ∈ leaves (tsn_layout snap) → tb_root_pane tab = f old;
  kt_name : tb_custom_name tab = tsn_custom_name snap;
  kt_number : tb_number tab = number;
  kt_zoomed : tb_zoomed tab = tsn_zoomed snap;
  kt_panes : ∀ old, old ∈ leaves (tsn_layout snap) →
    ∃ tid, (f old, tid) ∈ tab_attached tab ∧ pane_kept resumed numbers terminals snap old (f old) tid;
}.

Lemma tab_kept_mono resumed resumed' numbers numbers' terminals terminals' snap number tab f :
  resumed ⊆ resumed' → (∀ p n, numbers !! p = Some n → numbers' !! p = Some n) → (∀ t, t ∈ terminals → t ∈ terminals') →
  tab_kept resumed numbers terminals snap number tab f → tab_kept resumed' numbers' terminals' snap number tab f.
Proof.
  intros Hr Hn Ht [H1 H2 H3 H4 H5 H6 H7]. constructor; [done..|]. intros old Hold. destruct (H7 old Hold) as (tid & ? & ?).
  exists tid. split; [done|]. by eapply pane_kept_mono.
Qed.

(** The numbers of panes that are made from those of [olds] *)
Record numbers_made (olds : list N) (ps : list PaneId) (numbers : gmap PaneId N) : Prop := mk_numbers_made {
  nm_panes : ∀ p, is_Some (numbers !! p) ↔ p ∈ ps;
  nm_from : ∀ p n, numbers !! p = Some n → ∃ old, old ∈ olds ∧ by_old !! old = Some n;
  nm_distinct : ∀ p q n, numbers !! p = Some n → numbers !! q = Some n → p = q;
}.

Lemma numbers_made_add next olds olds' ps (ps' ps'' : list PaneId) numbers numbers' (reverse : gmap PaneId N) :
  numbers_ok next by_old → numbers_made olds ps numbers → (∀ old, old ∈ olds → old ∉ olds') →
  (∀ p q old, reverse !! p = Some old → reverse !! q = Some old → p = q) →
  (∀ p, p ∈ ps' → ∃ old n, reverse !! p = Some old ∧ old ∈ olds' ∧ by_old !! old = Some n ∧ numbers' !! p = Some n) →
  (∀ p, p ∉ ps' → numbers' !! p = numbers !! p) → (∀ p, p ∈ ps'' ↔ p ∈ ps ∨ p ∈ ps') →
  numbers_made (olds ++ olds') ps'' numbers'.
Proof.
  intros Hby [Hpanes Hfrom Hdistinct] Hdisj Hrev Hin Hout Hps. constructor.
  - intros p. rewrite Hps. destruct (decide (p ∈ ps')) as [Hp|Hp].
    + destruct (Hin p Hp) as (old & n & _ & _ & _ & ->). split; [by right|done].
    + rewrite (Hout p Hp), Hpanes. naive_solver.
  - intros p n Hpn. destruct (decide (p ∈ ps')) as [Hp|Hp].
    + destruct (Hin p Hp) as (old & m & _ & Hold & Hm & Hpm). exists old. rewrite elem_of_app. split; [by right|congruence].
    + rewrite (Hout p Hp) in Hpn. destruct (Hfrom p n Hpn) as (old & ? & ?). exists old. rewrite elem_of_app. auto.
  - assert (Hcross : ∀ p q n, p ∈ ps' → q ∉ ps' → numbers' !! p = Some n → numbers' !! q = Some n → False).
    { intros p q n Hp Hq Hpn Hqn. rewrite (Hout q Hq) in Hqn. destruct (Hfrom q n Hqn) as (old & Hold & Hn).
      destruct (Hin p Hp) as (old' & m & _ & Hold' & Hm & Hpm). assert (m = n) as -> by congruence.
      rewrite (no_inj _ _ Hby old old' n Hn Hm) in Hold. by apply (Hdisj old'). }
    intros p q n Hpn Hqn. destruct (decide (p ∈ ps')) as [Hp|Hp], (decide (q ∈ ps')) as [Hq|Hq].
    + destruct (Hin p Hp) as (o1 & m1 & R1 & _ & B1 & N1), (Hin q Hq) as (o2 & m2 & R2 & _ & B2 & N2).
      assert (m1 = n) as -> by congruence. assert (m2 = n) as -> by congruence.
      rewrite (no_inj _ _ Hby o1 o2 n B1 B2) in R1. by eapply Hrev.
    + by destruct (Hcross p q n).
    + by destruct (Hcross q p n).
    + rewrite (Hout p Hp) in Hpn. rewrite (Hout q Hq) in Hqn. by eapply Hdistinct.
Qed.

(** What the tabs [l] of a snapshot, with their positions, are made into *)
Record tabs_made (snap : SavedWorkspaceSnapshot) (l : list (nat * TabSnapshot)) (next_pane next_tab : N) (s0 s : RestoreState)
    (r : RestoredTabs) : Prop := mk_tabs_made {
  ld_made : terminals_made (length (old_ids l.*2)) s0 s (rk_terminals r) (rk_runtimes r);
  ld_panes : ct_pane (re_counters s) = (ct_pane (re_counters s0) + N.of_nat (length (old_ids l.*2)))%N;
  ld_workspace : ct_workspace (re_counters s) = ct_workspace (re_counters s0);
  ld_tabs : tabs_ok (ct_pane (re_counters s)) (rk_next_tab r) (rk_tabs r);
  ld_new : Forall (λ p, ct_pane (re_counters s0) ≤ p)%N (attached (rk_tabs r)).*1;
  ld_attached : (attached (rk_tabs r)).*2 ≡ₚ tm_id <$> rk_terminals r;
  ld_tab_numbers : ∀ n, n ∈ tb_number <$> rk_tabs r → n ∈ tab_number_at snap <$> l.*1;
  ld_next_tab : (next_tab ≤ rk_next_tab r)%N
    ∧ (Forall (λ n, n < next_tab)%N (tab_number_at snap <$> l.*1) → rk_next_tab r = next_tab);
  ld_next : rk_next_pane r = next_pane;
  ld_numbers : numbers_made (old_ids l.*2) (attached (rk_tabs r)).*1 (rk_numbers r);
  ld_shows : ∀ p tid, (p, tid) ∈ attached (rk_tabs r) →
    ∃ tab old, tab ∈ l.*2 ∧ old ∈ leaves (tsn_layout tab)
      ∧ pane_kept (re_resumed s) (rk_numbers r) (rk_terminals r) tab old p tid;
  ld_complete : (∀ id, sp_started (rw_start w id) = true) →
    Forall2 (λ it tab, ∃ f, tab_kept (re_resumed s) (rk_numbers r) (rk_terminals r) it.2 (tab_number_at snap it.1) tab f)
      l (rk_tabs r);
}.

Lemma no_tabs_made snap next_pane next_tab s0 :
  (0 < next_tab)%N → tabs_made snap [] next_pane next_tab s0 s0 (mkRestoredTabs [] [] ∅ ∅ next_pane next_tab).
Proof.
  intros Hpos. constructor; cbn.
  - by apply made_nothing.
  - lia.
  - done.
  - constructor; cbn; constructor.
  - constructor.
  - done.
  - by intros n ?%not_elem_of_nil.
  - split; [lia|done].
  - done.
  - constructor.
    + intros p. rewrite lookup_empty. split; [by intros []|by intros ?%not_elem_of_nil].
    + intros p n. by rewrite lookup_empty.
    + intros p q n. by rewrite lookup_empty.
  - by intros p tid ?%not_elem_of_nil.
  - constructor.
Qed.

Lemma old_ids_snoc (l : list (nat * TabSnapshot)) it : old_ids (l ++ [it]).*2 = old_ids l.*2 ++ leaves (tsn_layout it.2).
Proof. unfold old_ids. rewrite fmap_app, bind_app. cbn. by rewrite app_nil_r. Qed.

(** The numbers after a tab was made *)
Lemma number_tab snap tab number s0 s t numbers next :
  tab_made w enabled snap number s0 s t → NoDup (leaves (tsn_layout snap)) → numbers_ok next by_old → (next < 2 ^ 64)%N →
  (∀ old, old ∈ leaves (tsn_layout snap) → is_Some (by_old !! old)) → tab = rt_tab t →
  let '(numbers', next') := foldl (number_restored_pane by_old (rt_reverse t)) (numbers, next) (pane_ids (tb_layout tab)) in
  next' = next
  ∧ (∀ p, p ∈ pane_ids (tb_layout tab) → ∃ old n, rt_reverse t !! p = Some old ∧ old ∈ leaves (tsn_layout snap)
            ∧ by_old !! old = Some n ∧ numbers' !! p = Some n)
  ∧ (∀ p, p ∉ pane_ids (tb_layout tab) → numbers' !! p = numbers !! p).
Proof.
  intros Hmade Hnd Hby Hroom Hknown ->.
  assert (Hrev : ∀ p, p ∈ pane_ids (tb_layout (rt_tab t)) → ∃ old n, rt_reverse t !! p = Some old ∧ old ∈ leaves (tsn_layout snap)
                   ∧ by_old !! old = Some n).
  { intros p Hp. destruct (td_known _ _ _ _ _ _ _ Hmade Hnd p Hp) as [old Hold].
    pose proof (td_reverse _ _ _ _ _ _ _ Hmade p old Hold) as Hin. destruct (Hknown old Hin) as [n Hn]. by exists old, n. }
  pose proof (number_restored_spec by_old (rt_reverse t) (pane_ids (tb_layout (rt_tab t))) numbers next) as Hspec.
  destruct (foldl _ _ _) as [numbers' next']. destruct Hspec as [-> Hnum]; [|done|].
  { intros p Hp. destruct (Hrev p Hp) as (old & n & -> & _ & Hn). exists n. split; [exact Hn|]. by destruct (no_bounds _ _ Hby _ _ Hn). }
  split_and!; [done| |].
  - intros p Hp. destruct (Hrev p Hp) as (old & n & Hr & Hin & Hn). exists old, n. split_and!; [done..|].
    by rewrite Hnum, decide_True, Hr by done.
  - intros p Hp. by rewrite Hnum, decide_False.
Qed.

Lemma tabs_made_skip snap l it next_pane next_tab s0 s s' r :
  tabs_made snap l next_pane next_tab s0 s r → terminals_made (length (leaves (tsn_layout it.2))) s s' [] ∅ →
  ct_pane (re_counters s') = (ct_pane (re_counters s) + N.of_nat (length (leaves (tsn_layout it.2))))%N →
  ct_workspace (re_counters s') = ct_workspace (re_counters s) → ¬ (∀ id, sp_started (rw_start w id) = true) →
  tabs_made snap (l ++ [it]) next_pane next_tab s0 s' r.
Proof.
  intros [H1 H2 H3 H4 H5 H6 H7 H8 H9 [N1 N2 N3] H13 H14] Hmade Hp Hw Hfail.
  assert (Hres : re_resumed s ⊆ re_resumed s') by apply (fp_sub _ _ _ (tk_plans _ _ _ _ _ Hmade)).
  constructor; rewrite ?old_ids_snoc, ?length_app.
  - rewrite <- (app_nil_r (rk_terminals r)), <- (union_empty_r_L (rk_runtimes r)). by eapply made_app.
  - lia.
  - congruence.
  - eapply tabs_ok_mono; [| |exact H4]; lia.
  - done.
  - done.
  - intros n Hn%H7. rewrite !fmap_app, elem_of_app. by left.
  - destruct H8 as [Hle Hsame]. split; [done|]. rewrite !fmap_app, Forall_app. intros [? _]. by apply Hsame.
  - done.
  - constructor; [done| |done]. intros p n Hn. destruct (N2 p n Hn) as (old & ? & ?). exists old. rewrite elem_of_app. auto.
  - intros p tid Hin. destruct (H13 p tid Hin) as (tab & old & ? & ? & Hkept). exists tab, old.
    rewrite fmap_app, elem_of_app. split_and!; [by left|done|]. by eapply pane_kept_mono.
  - intros Hstart. by destruct Hfail.
Qed.

(** The numbers of a tab that was made are those of the panes it is made from. *)
Definition tab_numbered (snap : TabSnapshot) (t : RestoredTab) (numbers : gmap PaneId N) : Prop :=
  ∀ p, p ∈ pane_ids (tb_layout (rt_tab t)) →
    ∃ old n, rt_reverse t !! p = Some old ∧ old ∈ leaves (tsn_layout snap) ∧ by_old !! old = Some n ∧ numbers !! p = Some n.

Lemma made_pane_kept snap number s0 s t numbers terminals p tid next :
  tab_made w enabled snap number s0 s t → tab_wf next (rt_tab t) → tab_numbered snap t numbers → (∀ tm, tm ∈ rt_terminals t → tm ∈ terminals) →
  (p, tid) ∈ tab_attached (rt_tab t) →
  ∃ old, rt_reverse t !! p = Some old ∧ old ∈ leaves (tsn_layout snap) ∧ pane_kept (re_resumed s) numbers terminals snap old p tid.
Proof.
  intros Hmade Hwf Hpanes Hsub (ps & Hps & <-)%elem_of_tab_attached.
  destruct (Hpanes p) as (old & n & Hr & Hold & Hn & Hp); [apply (tw_panes _ _ Hwf); by eexists|]. exists old. split_and!; [done..|].
  destruct (td_shows _ _ _ _ _ _ _ Hmade p ps Hps) as (tm & Htm & -> & Hshow). unfold saved_pane in Hshow. rewrite Hr in Hshow.
  exists tm, n. split_and!; [by apply Hsub|done..].
Qed.

Lemma complete_tab_kept snap number s0 s t numbers terminals f next :
  tab_made w enabled snap number s0 s t → tab_wf next (rt_tab t) → tab_numbered snap t numbers → (∀ tm, tm ∈ rt_terminals t → tm ∈ terminals) →
  tab_complete snap t f → tab_kept (re_resumed s) numbers terminals snap number (rt_tab t) f.
Proof.
  intros Hmade Hwf Hnum Hsub [F1 F2 F3 F4 F5 F6]. constructor; [done..|by apply (td_number _ _ _ _ _ _ _ Hmade)|done|].
  intros old Hold. destruct (F6 old Hold) as [[ps Hps] Hrev].
  assert (Hatt : (f old, pn_attached_terminal_id ps) ∈ tab_attached (rt_tab t)) by (apply elem_of_tab_attached; by eexists).
  destruct (made_pane_kept _ _ _ _ _ _ _ _ _ _ Hmade Hwf Hnum Hsub Hatt) as (old' & Hr & _ & Hkept).
  assert (old' = old) as -> by congruence. by eexists.
Qed.

Lemma tabs_made_add snap l it next_pane next_tab s0 s s' r t :
  tabs_made snap l next_pane next_tab s0 s r → tab_made w enabled it.2 (tab_number_at snap it.1) s s' t →
  ct_pane (re_counters s') = (ct_pane (re_counters s) + N.of_nat (length (leaves (tsn_layout it.2))))%N →
  ct_workspace (re_counters s') = ct_workspace (re_counters s) →
  ((∀ id, sp_started (rw_start w id) = true) → ∃ f, tab_complete it.2 t f) →
  numbers_ok next_pane by_old → (next_pane < 2 ^ 64)%N → (∀ old, old ∈ leaves (tsn_layout it.2) → is_Some (by_old !! old)) →
  NoDup (old_ids (l ++ [it]).*2) → ratios_ok (tsn_layout it.2) →
  tab_number_at snap it.1 ∉ tab_number_at snap <$> l.*1 → (0 < tab_number_at snap it.1 < u64_max)%N →
  let '(numbers, next) :=
    foldl (number_restored_pane by_old (rt_reverse t)) (rk_numbers r, rk_next_pane r) (pane_ids (tb_layout (rt_tab t))) in
  tabs_made snap (l ++ [it]) next_pane next_tab s0 s'
    (mkRestoredTabs (rk_tabs r ++ [rt_tab t]) (rk_terminals r ++ rt_terminals t) (rk_runtimes r ∪ rt_runtimes t)
       numbers next (N.max (rk_next_tab r) (usize_add (tb_number (rt_tab t)) 1))).
Proof.
  intros [H1 H2 H3 H4 H5 H6 H7 H8 H9 H10 H13 H14] Hmade Hp Hw Hcomplete Hby Hroom Hknown Holds Hratios Hnew Hnumber.
  rewrite old_ids_snoc in Holds. apply NoDup_app in Holds as (_ & Hdisj & Hnd).
  pose proof (number_tab _ _ _ _ _ _ (rk_numbers r) next_pane Hmade Hnd Hby Hroom Hknown eq_refl) as Hnum.
  rewrite H9. destruct (foldl _ _ _) as [numbers next]. destruct Hnum as (-> & Hin & Hout).
  pose proof Hmade as [G1 G2 G3 G4 G5 _ G7 _ _]. specialize (G3 Hratios).
  assert (Hres : re_resumed s ⊆ re_resumed s') by apply (fp_sub _ _ _ (tk_plans _ _ _ _ _ G1)).
  assert (Hids : ∀ p, p ∈ (tab_attached (rt_tab t)).*1 ↔ p ∈ pane_ids (tb_layout (rt_tab t))).
  { intros p. by rewrite tab_attached_panes, (tw_panes _ _ G3). }
  assert (Hapart : ∀ p, p ∈ pane_ids (tb_layout (rt_tab t)) → p ∉ (attached (rk_tabs r)).*1).
  { intros p Hnewp Holdp. pose proof (tabs_ok_taken _ _ _ _ H4 Holdp). pose proof (proj1 (Forall_forall _ _) G4 p Hnewp). cbn in *. lia. }
  assert (Hkeep : ∀ p n, rk_numbers r !! p = Some n → numbers !! p = Some n).
  { intros p n Hpn. rewrite Hout; [done|]. intros Hp'. apply (Hapart p Hp'), (nm_panes _ _ _ H10). by exists n. }
  assert (Hterms : ∀ tm, tm ∈ rk_terminals r ∨ tm ∈ rt_terminals t ↔ tm ∈ rk_terminals r ++ rt_terminals t) by (intros; by rewrite elem_of_app).
  assert (Hnext : usize_add (tab_number_at snap it.1) 1 = (tab_number_at snap it.1 + 1)%N)
    by (unfold usize_add; apply N.mod_small; unfold u64_max in *; lia).
  constructor; cbn [rk_tabs rk_terminals rk_runtimes rk_numbers rk_next_pane rk_next_tab];
    rewrite ?old_ids_snoc, ?length_app, ?attached_app, ?attached_single, ?G2, ?Hnext.
  - by eapply made_app.
  - lia.
  - congruence.
  - eapply tabs_ok_add; [eapply (tabs_ok_mono _ _ _ (rk_next_tab r)); [|reflexivity|exact H4]; lia|done|rewrite G2; lia|lia| |].
    + rewrite G2. by intros ?%H7.
    + intros p ?%Hids. by apply Hapart.
  - rewrite fmap_app. apply Forall_app. split; [done|]. apply Forall_forall.
    intros p Hpn%Hids. pose proof (proj1 (Forall_forall _ _) G4 p Hpn). cbn in *. lia.
  - by rewrite !fmap_app, H6, G5.
  - intros n. rewrite !fmap_app, !elem_of_app. cbn. rewrite G2. intros [Hn%H7|Hn]; [by left|by right].
  - destruct H8 as [Hle Hsame]. split; [lia|]. rewrite !fmap_app, Forall_app. cbn. rewrite Forall_singleton. intros [Hall Hlt].
    rewrite Hsame by done. lia.
  - done.
  - eapply numbers_made_add; [exact Hby|exact H10|exact Hdisj|exact G7|exact Hin|exact Hout|].
    intros p. by rewrite fmap_app, elem_of_app, Hids.
  - intros p tid. rewrite elem_of_app. intros [Hpt|Hpt].
    + destruct (H13 p tid Hpt) as (tab & old & ? & ? & Hkept). exists tab, old. rewrite fmap_app, elem_of_app.
      split_and!; [by left|done|]. eapply pane_kept_mono; [exact Hres|exact Hkeep| |exact Hkept]. naive_solver.
    + destruct (made_pane_kept _ _ _ _ _ _ (rk_terminals r ++ rt_terminals t) _ _ _ Hmade G3 Hin ltac:(naive_solver) Hpt) as (old & _ & ? & ?).
      exists it.2, old. rewrite fmap_app, elem_of_app. split_and!; [right; by left|done..].
  - intros Hstart. apply Forall2_app.
    + eapply Forall2_impl; [by apply H14|]. intros it' tab (f & Hkept). exists f.
      eapply tab_kept_mono; [exact Hres|exact Hkeep| |exact Hkept]. naive_solver.
    + constructor; [|constructor]. destruct (Hcomplete Hstart) as (f & Hf). exists f.
      eapply complete_tab_kept; [done|exact G3|exact Hin|naive_solver|done].
Qed.
End workspace.

Lemma tabs_loop w enabled by_old snap l history workspace_id next_pane next_tab s0 `{HOrder : HashOrder} :
  (∀ id, clock_ok (sp_micros (rw_start w id))) →
  (ct_pane (re_counters s0) + N.of_nat (length (old_ids l.*2)) < 2 ^ 32)%N →
  (ct_terminal (re_counters s0) + N.of_nat (length (old_ids l.*2)) < 2 ^ 64)%N →
  numbers_ok next_pane by_old → (next_pane < 2 ^ 64)%N → (0 < next_tab)%N →
  (∀ old, old ∈ old_ids l.*2 → is_Some (by_old !! old)) → NoDup (old_ids l.*2) → Forall (λ tab, ratios_ok (tsn_layout tab)) l.*2 →
  NoDup (tab_number_at snap <$> l.*1) → Forall (λ n, 0 < n < u64_max)%N (tab_number_at snap <$> l.*1) →
  let '(s, r) :=
    foldl (restore_next_tab w enabled snap history workspace_id by_old) (s0, mkRestoredTabs [] [] ∅ ∅ next_pane next_tab) l in
  tabs_made w enabled by_old snap l next_pane next_tab s0 s r.
Proof.
  intros Hclock Hpane Hterm Hby Hroom Hpos. induction l as [|it l IH] using rev_ind; [intros; by apply no_tabs_made|].
  intros Hknown Holds Hratios Hnums Hbounds. rewrite foldl_snoc.
  pose proof Holds as Holds'. rewrite old_ids_snoc in Hpane, Hterm, Hknown, Holds'. rewrite length_app in Hpane, Hterm.
  apply NoDup_app in Holds' as (Holds0 & _ & Hnd). setoid_rewrite elem_of_app in Hknown. rewrite fmap_app, Forall_app in Hratios. 
  rewrite !fmap_app in Hnums, Hbounds. apply Forall_app in Hbounds as [Hbounds0 Hbound].
  apply NoDup_app in Hnums as (Hnums & Hnew & _). destruct Hratios as [Hratios0 Hratio].
  specialize (IH ltac:(lia) ltac:(lia) ltac:(naive_solver) Holds0 Hratios0 Hnums Hbounds0).
  destruct (foldl _ _ l) as [s r]. destruct it as [idx tab]. cbn in Hratio, Hbound, Hnew. apply (proj1 (Forall_singleton _ _)) in Hratio, Hbound.
  pose proof (ld_panes _ _ _ _ _ _ _ _ _ _ IH) as Hp. pose proof (tk_counter _ _ _ _ _ (ld_made _ _ _ _ _ _ _ _ _ _ IH)) as Ht.
  unfold restore_next_tab. fold (tab_number_at snap idx).
  destruct (restore_tab _ _ _ _ _ _ _ _) as [s' res] eqn:Htab.
  apply restore_tab_spec in Htab as (Hp' & Hw' & Hres & Hcomplete); [|done|cbn in *; lia|cbn in *; lia].
  destruct res as [t|].
  - pose proof (tabs_made_add w enabled by_old snap l (idx, tab) next_pane next_tab s0 s s' r t) as Hadd.
    destruct (foldl _ _ _) as [numbers next]. apply Hadd; try done; cbn.
    + intros Hstart. destruct (Hcomplete Hstart Hnd) as (? & f & [= <-] & Hf). by exists f.
    + naive_solver.
    + intros Hin. apply (Hnew _ Hin). by left.
  - eapply tabs_made_skip; [exact IH|exact Hres|done|done|].
    intros Hstart. by destruct (Hcomplete Hstart Hnd) as (? & f & ? & _).
Qed.

(** A workspace as it is saved: panes and numbers are distinct, and there are
    numbers left for the panes that have none. *)
Record saved_ok (snap : SavedWorkspaceSnapshot) : Prop := mk_saved_ok {
  sk_ratios : Forall (λ tab, ratios_ok (tsn_layout tab)) (wsn_tabs snap);
  sk_panes : NoDup (old_ids (wsn_tabs snap));
  sk_numbers : ∀ p n, wsn_public_pane_numbers snap !! p = Some n →
    (0 < n)%N ∧ (n + N.of_nat (length (old_ids (wsn_tabs snap))) < u64_max)%N;
  sk_distinct : ∀ p q n, wsn_public_pane_numbers snap !! p = Some n → wsn_public_pane_numbers snap !! q = Some n → p = q;
  sk_next : (wsn_next_public_pane_number snap + N.of_nat (length (old_ids (wsn_tabs snap))) < u64_max)%N;
  sk_tab_numbers : NoDup (tab_number_at snap <$> seq 0 (length (wsn_tabs snap)));
  sk_tab_bounds : Forall (λ n, 0 < n < u64_max)%N (wsn_public_tab_numbers snap);
}.

(** The numbers that a saved workspace starts with *)
Definition first_numbers (snap : SavedWorkspaceSnapshot) : N :=
  next_number (map_to_list (wsn_public_pane_numbers snap)).*2 (wsn_next_public_pane_number snap).
Definition first_tab_number (snap : SavedWorkspaceSnapshot) : N :=
  next_number (wsn_public_tab_numbers snap) (wsn_next_public_tab_number snap).

Lemma elem_of_numbers (m : gmap N N) n : n ∈ (map_to_list m).*2 ↔ ∃ p, m !! p = Some n.
Proof.
  rewrite list_elem_of_fmap. split.
  - intros ([p n'] & -> & Hp%elem_of_map_to_list). by exists p.
  - intros [p Hp%elem_of_map_to_list]. by exists (p, n).
Qed.

Lemma first_numbers_ok snap :
  saved_ok snap →
  numbers_ok (first_numbers snap) (wsn_public_pane_numbers snap)
  ∧ (first_numbers snap + N.of_nat (length (old_ids (wsn_tabs snap))) ≤ u64_max)%N
  ∧ ∀ bound, (0 < bound)%N → (wsn_next_public_pane_number snap ≤ bound)%N →
      (∀ p n, wsn_public_pane_numbers snap !! p = Some n → (n < bound)%N) → (first_numbers snap ≤ bound)%N.
Proof.
  intros [_ _ Hnums Hdistinct Hnext _ _]. unfold first_numbers.
  destruct (next_number_spec (map_to_list (wsn_public_pane_numbers snap)).*2 (wsn_next_public_pane_number snap))
    as (Hpos & Hle & Hall & Hleast).
  { apply Forall_forall. intros n [p Hp]%elem_of_numbers. destruct (Hnums p n Hp). cbn. lia. }
  split_and!.
  - constructor; [|exact Hdistinct|done]. intros p n Hp. destruct (Hnums p n Hp). split; [done|].
    apply (proj1 (Forall_forall _ _) Hall), elem_of_numbers. by exists p.
  - specialize (Hleast (u64_max - N.of_nat (length (old_ids (wsn_tabs snap))))%N).
    assert (next_number (map_to_list (wsn_public_pane_numbers snap)).*2 (wsn_next_public_pane_number snap)
            ≤ u64_max - N.of_nat (length (old_ids (wsn_tabs snap))))%N; [|lia].
    apply Hleast; [lia|lia|]. apply Forall_forall. intros n [p Hp]%elem_of_numbers. destruct (Hnums p n Hp). cbn. lia.
  - intros bound Hb Hs Hn. apply Hleast; [done..|]. apply Forall_forall. intros n [p Hp]%elem_of_numbers. by eapply Hn.
Qed.

Lemma first_tab_ok snap :
  saved_ok snap → (0 < first_tab_number snap)%N ∧ (wsn_next_public_tab_number snap ≤ first_tab_number snap)%N
  ∧ Forall (λ n, n < first_tab_number snap)%N (wsn_public_tab_numbers snap)
  ∧ ∀ bound, (0 < bound)%N → (wsn_next_public_tab_number snap ≤ bound)%N →
      Forall (λ n, n < bound)%N (wsn_public_tab_numbers snap) → (first_tab_number snap ≤ bound)%N.
Proof.
  intros [_ _ _ _ _ _ Hb]. apply next_number_spec. eapply Forall_impl; [exact Hb|]. cbn. lia.
Qed.

Lemma migrated_spec snap :
  saved_ok snap →
  let '(by_old, next) := migrated_public_pane_numbers_by_old_raw snap (first_numbers snap) in
  numbers_ok next by_old ∧ (next < 2 ^ 64)%N ∧ wsn_public_pane_numbers snap ⊆ by_old
  ∧ (∀ old, old ∈ old_ids (wsn_tabs snap) → is_Some (by_old !! old))
  ∧ ((∀ old, old ∈ old_ids (wsn_tabs snap) → is_Some (wsn_public_pane_numbers snap !! old)) →
     by_old = wsn_public_pane_numbers snap ∧ next = first_numbers snap).
Proof.
  intros Hok. destruct (first_numbers_ok snap Hok) as (Hfirst & Hroom & _).
  unfold migrated_public_pane_numbers_by_old_raw.
  rewrite (foldl_bind number_old_pane (λ tab, leaves (tsn_layout tab))). fold (old_ids (wsn_tabs snap)).
  pose proof (number_old_spec (old_ids (wsn_tabs snap)) _ _ Hfirst) as Hspec.
  destruct (foldl _ _ _) as [by_old next]. unfold u64_max in *. destruct Hspec as (Hby & Hle & Hsub & Hall & Hsame); [lia|].
  split_and!; [done|lia|done..].
Qed.

Lemma old_ids_length tabs : (length tabs ≤ length (old_ids tabs))%nat.
Proof.
  induction tabs as [|tab tabs IH]; [done|]. change (old_ids (tab :: tabs)) with (leaves (tsn_layout tab) ++ old_ids tabs).
  rewrite length_app. pose proof (leaves_nonempty (tsn_layout tab)) as Hne. destruct (leaves (tsn_layout tab)); [done|]. cbn. lia.
Qed.

Lemma tab_numbers_bounded snap :
  saved_ok snap → Forall (λ n, 0 < n < u64_max)%N (tab_number_at snap <$> seq 0 (length (wsn_tabs snap))).
Proof.
  intros Hok. pose proof (sk_next _ Hok). pose proof (old_ids_length (wsn_tabs snap)). apply Forall_forall.
  intros n (idx & -> & Hidx%elem_of_seq)%list_elem_of_fmap. unfold tab_number_at.
  destruct (wsn_public_tab_numbers snap !! idx) as [number|] eqn:Hn; cbn.
  - by apply (Forall_lookup_1 _ _ _ _ (sk_tab_bounds _ Hok) Hn).
  - lia.
Qed.

Lemma imap_positions {A} (l : list A) : (imap pair l).*1 = seq 0 (length l) ∧ (imap pair l).*2 = l.
Proof.
  split; rewrite fmap_imap.
  - apply list_eq. intros i. rewrite list_lookup_imap. destruct (decide (i < length l)) as [Hi|Hi].
    + rewrite lookup_seq_lt by done. destruct (lookup_lt_is_Some_2 _ _ Hi) as [x ->]. done.
    + rewrite lookup_seq_ge, (lookup_ge_None_2 l i) by lia. done.
  - apply list_eq. intros i. rewrite list_lookup_imap. by destruct (l !! i).
Qed.

Section workspaces.
Context `{HOrder : HashOrder} (w : RestoreWorld) (enabled : bool).
Context (Hclock : ∀ id, clock_ok (sp_micros (rw_start w id))).

(** What is kept of a saved workspace: each pane that is there shows what was
    saved of one, under its number; when all processes start nothing is lost. *)
Record workspace_kept (resumed : gset string) (terminals : list TerminalState) (snap : SavedWorkspaceSnapshot) (ws : Workspace)
    (by_old : gmap N N) : Prop := mk_workspace_kept {
  wd_id : ∀ id, wsn_id snap = Some id → ws_id ws = id;
  wd_name : ws_custom_name ws = wsn_custom_name snap;
  wd_cwd : ws_identity_cwd ws = wsn_identity_cwd snap;
  wd_worktree : ws_worktree_space ws = restored_worktree_space_membership w (wsn_worktree_space snap);
  wd_numbers : wsn_public_pane_numbers snap ⊆ by_old;
  wd_shows : ∀ p tid, (p, tid) ∈ attached (ws_tabs ws) →
    ∃ tab old, tab ∈ wsn_tabs snap ∧ old ∈ leaves (tsn_layout tab)
      ∧ pane_kept w enabled by_old resumed (ws_public_pane_numbers ws) terminals tab old p tid;
  wd_complete : (∀ id, sp_started (rw_start w id) = true) →
    Forall2 (λ it tab, ∃ f, tab_kept w enabled by_old resumed (ws_public_pane_numbers ws) terminals it.2
                              (tab_number_at snap it.1) tab f) (imap pair (wsn_tabs snap)) (ws_tabs ws);
  wd_active : ws_active_tab ws = Nat.min (wsn_active_tab snap) (length (ws_tabs ws) - 1);
  wd_next_pane : (∀ old, old ∈ old_ids (wsn_tabs snap) → is_Some (wsn_public_pane_numbers snap !! old)) →
    ws_next_public_pane_number ws = first_numbers snap;
  wd_next_tab : length (wsn_public_tab_numbers snap) = length (wsn_tabs snap) → ws_next_public_tab_number ws = first_tab_number snap;
}.

Lemma workspace_kept_mono resumed resumed' terminals terminals' snap ws by_old :
  resumed ⊆ resumed' → (∀ t, t ∈ terminals → t ∈ terminals') →
  workspace_kept resumed terminals snap ws by_old → workspace_kept resumed' terminals' snap ws by_old.
Proof.
  intros Hr Ht [H1 H2 H3 H4 H5 H6 H7 H8 H9 H10]. constructor; [done..| | |done|done|done].
  - intros p tid Hin. destruct (H6 p tid Hin) as (tab & old & ? & ? & Hkept). exists tab, old. split_and!; [done..|].
    by eapply pane_kept_mono.
  - intros Hstart. eapply Forall2_impl; [by apply H7|]. intros it tab (f & Hkept). exists f. by eapply tab_kept_mono.
Qed.

(** A workspace of its own panes and terminals *)
Record workspace_made (snap : SavedWorkspaceSnapshot) (s0 s : RestoreState) (ws : Workspace) (terminals : list TerminalState) : Prop :=
  mk_workspace_made {
  wd_wf : ws_wf (re_counters s) ws;
  wd_new : Forall (λ p, ct_pane (re_counters s0) ≤ p)%N (attached (ws_tabs ws)).*1;
  wd_attached : (attached (ws_tabs ws)).*2 ≡ₚ tm_id <$> terminals;
  wd_kept : ∃ by_old, workspace_kept (re_resumed s) terminals snap ws by_old;
}.

(** The identifier of a workspace, and the counter after *)
Definition identified (snap : SavedWorkspaceSnapshot) (c c' : N) (id : string) : Prop :=
  match wsn_id snap with
  | Some saved => id = saved ∧ c' = c
  | None => id = "w" +:+ encode_public_number c ∧ c' = ((c + 1) mod 2 ^ 64)%N
  end.

Lemma restore_workspace_spec snap history s0 s res :
  saved_ok snap →
  (ct_pane (re_counters s0) + N.of_nat (length (old_ids (wsn_tabs snap))) < 2 ^ 32)%N →
  (ct_terminal (re_counters s0) + N.of_nat (length (old_ids (wsn_tabs snap))) < 2 ^ 64)%N →
  restore_workspace w enabled snap history s0 = (s, res) →
  ct_pane (re_counters s) = (ct_pane (re_counters s0) + N.of_nat (length (old_ids (wsn_tabs snap))))%N
  ∧ (∃ id, identified snap (ct_workspace (re_counters s0)) (ct_workspace (re_counters s)) id
       ∧ match res with
         | Some (ws, terminals, runtimes) =>
             ws_id ws = id ∧ terminals_made (length (old_ids (wsn_tabs snap))) s0 s terminals runtimes
             ∧ workspace_made snap s0 s ws terminals
         | None => terminals_made (length (old_ids (wsn_tabs snap))) s0 s [] ∅
         end)
  ∧ ((∀ id, sp_started (rw_start w id) = true) → wsn_tabs snap ≠ [] → is_Some res).
Proof.
  intros Hok Hpane Hterm. unfold restore_workspace. fold (first_numbers snap) (first_tab_number snap).
  destruct (match wsn_id snap with Some _ => _ | None => _ end) as [c id] eqn:Hid.
  assert (Hc : ct_pane c = ct_pane (re_counters s0) ∧ ct_terminal c = ct_terminal (re_counters s0)
               ∧ identified snap (ct_workspace (re_counters s0)) (ct_workspace c) id).
  { unfold identified, generate_workspace_id in *. destruct (wsn_id snap); by injection Hid as <- <-. }
  destruct Hc as (Hcp & Hct & Hident). clear Hid. set (s1 := s0 <| re_counters := c |>).
  pose proof (migrated_spec snap Hok) as Hmig. destruct (migrated_public_pane_numbers_by_old_raw _ _) as [by_old next].
  destruct Hmig as (Hby & Hnext & Hsub & Hknown & Hsame). destruct (imap_positions (wsn_tabs snap)) as [Hfst Hsnd].
  destruct (first_tab_ok snap Hok) as (Htabpos & _ & Htaball & _).
  pose proof (tabs_loop w enabled by_old snap (imap pair (wsn_tabs snap)) history id next (first_tab_number snap) s1 Hclock) as Hloop.
  rewrite Hfst, Hsnd in Hloop.
  specialize (Hloop ltac:(cbn; lia) ltac:(cbn; lia) Hby Hnext Htabpos Hknown (sk_panes _ Hok) (sk_ratios _ Hok) (sk_tab_numbers _ Hok)
    (tab_numbers_bounded _ Hok)).
  destruct (foldl _ _ _) as [s2 r]. destruct Hloop as [L1 L2 L3 L4 L5 L6 _ L8 L9 L10 L11 L12].
  rewrite Hfst, Hsnd in *. intros [= <- <-].
  assert (Hmade : terminals_made (length (old_ids (wsn_tabs snap))) s0 s2 (rk_terminals r) (rk_runtimes r)) by (by eapply made_same; [..|exact L1]).
  split_and!; [rewrite L2; cbn; lia| |].
  - exists id. rewrite L3. split; [exact Hident|]. case_bool_decide as Hempty.
    + rewrite Hempty in L6. cbn in L6. apply Permutation_nil_l in L6. symmetry in L6. apply fmap_nil_inv in L6. rewrite L6 in Hmade.
      assert (rk_runtimes r = ∅) as Hnone; [|by rewrite Hnone in Hmade].
      apply set_eq. intros t. split; [|by intros ?%not_elem_of_empty]. by intros ?%(tk_only _ _ _ _ _ Hmade)%not_elem_of_nil.
    + split; [done|]. split; [exact Hmade|].
      constructor; [..|exists by_old; constructor]; cbn [ws_id ws_tabs ws_custom_name ws_identity_cwd ws_worktree_space
        ws_public_pane_numbers ws_next_public_pane_number ws_next_public_tab_number ws_active_tab]; try done.
      * constructor; cbn [ws_tabs ws_public_pane_numbers ws_next_public_pane_number ws_next_public_tab_number ws_active_tab].
        -- constructor; cbn [ws_tabs ws_public_pane_numbers ws_next_public_pane_number ws_next_public_tab_number]; [done| |lia].
           rewrite L9. constructor; [|apply (nm_distinct _ _ _ _ L10)|apply (no_pos _ _ Hby)].
           intros p n (old & _ & Hold)%(nm_from _ _ _ _ L10). by apply (no_bounds _ _ Hby old).
        -- destruct (rk_tabs r); [done|]. cbn. lia.
        -- apply (nm_panes _ _ _ _ L10).
      * rewrite <- Hcp. exact L5.
      * intros saved Hsaved. unfold identified in Hident. rewrite Hsaved in Hident. by destruct Hident.
      * intros Hall. rewrite L9. by apply Hsame.
      * intros Hlen. apply L8, Forall_forall. intros n (idx & -> & Hidx%elem_of_seq)%list_elem_of_fmap. unfold tab_number_at.
        destruct (lookup_lt_is_Some_2 (wsn_public_tab_numbers snap) idx) as [number Hn]; [lia|]. rewrite Hn. cbn.
        by apply (Forall_lookup_1 _ _ _ _ Htaball Hn).
  - intros Hstart Hne. case_bool_decide as Hempty; [|done]. specialize (L12 Hstart). rewrite Hempty in L12.
    apply Forall2_nil_inv_r in L12. apply (f_equal (fmap snd)) in L12. rewrite Hsnd in L12. by destruct Hne.
Qed.
End workspaces.

(** ** Sessions that are restored *)

Definition all_old_ids (snaps : list SavedWorkspaceSnapshot) : list N := snaps ≫= λ snap, old_ids (wsn_tabs snap).

Definition unnamed (snaps : list SavedWorkspaceSnapshot) : list SavedWorkspaceSnapshot := filter (λ snap, wsn_id snap = None) snaps.

Definition workspace_name (n : N) : string := "w" +:+ encode_public_number n.

(** A session as it is saved: identifiers of workspaces are distinct, and not
    those that workspaces without one are given; the counters have room. *)
Record session_ok (c : Counters) (snaps : list SavedWorkspaceSnapshot) : Prop := mk_session_ok {
  se_workspaces : Forall saved_ok snaps;
  se_ids : NoDup (omap wsn_id snaps);
  se_named : ∀ id, id ∈ omap wsn_id snaps → ∃ n, (0 < n < u64_max)%N ∧ id = workspace_name n
    ∧ (n < ct_workspace c ∨ ct_workspace c + N.of_nat (length (unnamed snaps)) ≤ n)%N;
  se_pane : (ct_pane c + N.of_nat (length (all_old_ids snaps)) < 2 ^ 32)%N;
  se_terminal : (ct_terminal c + N.of_nat (length (all_old_ids snaps)) < 2 ^ 64)%N;
  se_workspace : (0 < ct_workspace c)%N ∧ (ct_workspace c + N.of_nat (length (unnamed snaps)) < u64_max)%N;
}.

Lemma workspace_name_inj n m : (0 < n < u64_max)%N → (0 < m < u64_max)%N → workspace_name n = workspace_name m → n = m.
Proof. intros Hn Hm Heq%str_app_inj. apply encode_number_inj in Heq; lia. Qed.

Lemma all_old_snoc snaps snap : all_old_ids (snaps ++ [snap]) = all_old_ids snaps ++ old_ids (wsn_tabs snap).
Proof. unfold all_old_ids. rewrite bind_app, bind_cons. cbn. by rewrite app_nil_r. Qed.

(** Identifiers that are saved, or given out *)
Definition id_given (from to : N) (snaps : list SavedWorkspaceSnapshot) (id : string) : Prop :=
  id ∈ omap wsn_id snaps ∨ ∃ n, (from ≤ n < to)%N ∧ id = workspace_name n.

Lemma id_given_mono from to to' snaps snap id : (to ≤ to')%N → id_given from to snaps id → id_given from to' (snaps ++ [snap]) id.
Proof.
  intros Hle [Hin|(n & Hn & ->)]; [left; rewrite omap_app, elem_of_app; by left|right]. exists n. split; [lia|done].
Qed.

(** The identifier of one more workspace is a new one. *)
Lemma identified_new c snaps snaps' snap rest to to' id :
  session_ok c snaps' → snaps' = snaps ++ snap :: rest → to = (ct_workspace c + N.of_nat (length (unnamed snaps)))%N →
  identified snap to to' id →
  to' = (ct_workspace c + N.of_nat (length (unnamed (snaps ++ [snap]))))%N
  ∧ id_given (ct_workspace c) to' (snaps ++ [snap]) id ∧ ¬ id_given (ct_workspace c) to snaps id
  ∧ ∃ n, (0 < n < u64_max)%N ∧ id = workspace_name n.
Proof.
  intros [_ Hids Hnamed _ _ [Hpos Hroom]] -> -> Hid. unfold identified in Hid. unfold unnamed in *.
  rewrite omap_app in Hids, Hnamed. rewrite filter_app, length_app, filter_cons in Hroom. rewrite filter_app, length_app, filter_cons.
  assert (Hgen : ∀ m, (ct_workspace c ≤ m < ct_workspace c + N.of_nat (length (filter (λ snap, wsn_id snap = None) snaps)))%N →
            (0 < m < u64_max)%N) by (intros m; lia).
  destruct (wsn_id snap) as [saved|] eqn:Hsaved.
  - destruct Hid as [-> ->]. rewrite decide_False by done. cbn [length filter]. change (length (filter _ [])) with 0.
    cbn [omap list_omap] in Hids, Hnamed. rewrite Hsaved in Hids, Hnamed.
    destruct (Hnamed saved) as (n & Hn & -> & Hout); [rewrite elem_of_app; right; by left|].
    rewrite filter_app, length_app, filter_cons, decide_False in Hout by (by rewrite Hsaved). split_and!.
    + lia.
    + left. rewrite omap_app, elem_of_app. right. cbn. rewrite Hsaved. by left.
    + intros [Hin|(m & Hm & Heq)].
      * apply NoDup_app in Hids as (_ & Hdisj & _). apply (Hdisj _ Hin). by left.
      * apply workspace_name_inj in Heq; [lia|done|by apply Hgen].
    + by exists n.
  - destruct Hid as [-> ->]. rewrite decide_True in Hroom by done. rewrite decide_True by done. cbn [length] in Hroom |- *.
    change (length (filter _ [])) with 0. rewrite N.mod_small by (unfold u64_max in *; lia). split_and!.
    + lia.
    + right. eexists. split; [|done]. lia.
    + intros [Hin|(m & Hm & Heq)].
      * destruct (Hnamed (workspace_name (ct_workspace c + N.of_nat (length (filter (λ snap, wsn_id snap = None) snaps)))))
          as (n & Hn & Heq & Hout); [rewrite elem_of_app; by left|].
        apply workspace_name_inj in Heq; [|lia|done]. rewrite filter_app, length_app, filter_cons, decide_True in Hout by done.
        cbn [length] in Hout. lia.
      * apply workspace_name_inj in Heq; [lia|lia|by apply Hgen].
    + eexists. split; [|done]. lia.
Qed.

Section sessions.
Context `{HOrder : HashOrder} (w : RestoreWorld) (enabled : bool).
Context (Hclock : ∀ id, clock_ok (sp_micros (rw_start w id))).

(** What the workspaces [snaps] of a session are made into; [origins] are those
    that are not lost. *)
Record session_made (snaps : list SavedWorkspaceSnapshot) (s0 s : RestoreState) (r : RestoredSession)
    (terminals : list TerminalState) (origins : list SavedWorkspaceSnapshot) : Prop := mk_session_made {
  sm_made : terminals_made (length (all_old_ids snaps)) s0 s terminals (rz_runtimes r);
  sm_counters : ct_pane (re_counters s) = (ct_pane (re_counters s0) + N.of_nat (length (all_old_ids snaps)))%N
    ∧ ct_workspace (re_counters s) = (ct_workspace (re_counters s0) + N.of_nat (length (unnamed snaps)))%N;
  sm_terminals : ∀ id t, rz_terminals r !! id = Some t ↔ t ∈ terminals ∧ tm_id t = id;
  sm_wf : Forall (ws_wf (re_counters s)) (rz_workspaces r);
  sm_panes : NoDup (all_attached (rz_workspaces r)).*1;
  sm_attached : (all_attached (rz_workspaces r)).*2 ≡ₚ tm_id <$> terminals;
  sm_ids : NoDup (ws_id <$> rz_workspaces r);
  sm_given : ∀ id, id ∈ ws_id <$> rz_workspaces r →
    id_given (ct_workspace (re_counters s0)) (ct_workspace (re_counters s)) snaps id
    ∧ ∃ n, (0 < n < u64_max)%N ∧ id = workspace_name n;
  sm_origins : origins `sublist_of` snaps;
  sm_kept : Forall2 (λ snap ws, ∃ by_old, workspace_kept w enabled (re_resumed s) terminals snap ws by_old) origins (rz_workspaces r);
  sm_complete : (∀ id, sp_started (rw_start w id) = true) → Forall (λ snap, wsn_tabs snap ≠ []) snaps → origins = snaps;
}.

Lemma add_terminals (m : gmap string TerminalState) ts ts' :
  (∀ id t, m !! id = Some t ↔ t ∈ ts ∧ tm_id t = id) → NoDup (tm_id <$> (ts ++ ts')) →
  ∀ id t, foldl (λ m t, <[tm_id t := t]> m) m ts' !! id = Some t ↔ t ∈ ts ++ ts' ∧ tm_id t = id.
Proof.
  revert m ts. induction ts' as [|t0 ts' IH]; intros m ts Hm Hnd id t; [by rewrite app_nil_r, Hm|].
  change (foldl _ m (t0 :: ts')) with (foldl (λ m t, <[tm_id t := t]> m) (<[tm_id t0 := t0]> m) ts').
  rewrite (cons_middle t0 ts ts'), (app_assoc ts). apply IH; [|by rewrite <- app_assoc].
  clear id t. intros id t. rewrite lookup_insert, elem_of_app, list_elem_of_singleton.
  rewrite fmap_app, fmap_cons in Hnd. apply NoDup_app in Hnd as (_ & Hnew & _). case_decide as Hid.
  - subst id. split; [intros [= <-]; auto|]. intros [[Hin| ->] Hid]; [|done]. destruct (Hnew (tm_id t)); [by apply list_elem_of_fmap_2|].
    rewrite Hid. by left.
  - rewrite Hm. naive_solver.
Qed.

Lemma no_session_made s0 : session_made [] s0 s0 (mkRestoredSession [] ∅ ∅) [] [].
Proof.
  constructor; cbn.
  - by apply made_nothing.
  - split; lia.
  - intros id t. rewrite lookup_empty. split; [done|]. by intros [?%not_elem_of_nil _].
  - constructor.
  - constructor.
  - done.
  - constructor.
  - by intros id ?%not_elem_of_nil.
  - constructor.
  - constructor.
  - done.
Qed.

Lemma session_made_skip snaps snap s0 s s' r terminals origins :
  session_made snaps s0 s r terminals origins → terminals_made (length (old_ids (wsn_tabs snap))) s s' [] ∅ →
  ct_pane (re_counters s') = (ct_pane (re_counters s) + N.of_nat (length (old_ids (wsn_tabs snap))))%N →
  ct_workspace (re_counters s') = (ct_workspace (re_counters s0) + N.of_nat (length (unnamed (snaps ++ [snap]))))%N →
  ((∀ id, sp_started (rw_start w id) = true) → wsn_tabs snap = []) →
  session_made (snaps ++ [snap]) s0 s' r terminals origins.
Proof.
  intros [M1 [M2 M3] M4 M5 M6 M7 M8 M9 M10 M11 M12] Hmade Hp Hw Hlost.
  assert (Hle : (ct_workspace (re_counters s) ≤ ct_workspace (re_counters s'))%N).
  { rewrite Hw, M3. unfold unnamed. rewrite filter_app, length_app. lia. }
  constructor; rewrite ?all_old_snoc, ?length_app.
  - rewrite <- (app_nil_r terminals), <- (union_empty_r_L (rz_runtimes r)). by eapply made_app.
  - split; [lia|done].
  - done.
  - eapply Forall_impl; [exact M5|]. intros ws. apply ws_wf_mono. lia.
  - done.
  - done.
  - done.
  - intros id Hin. destruct (M9 id Hin) as [Hgiven Hname]. split; [|done]. by eapply id_given_mono.
  - by apply sublist_inserts_r.
  - eapply Forall2_impl; [exact M11|]. intros snap' ws (by_old & Hkept). exists by_old.
    eapply workspace_kept_mono; [apply (fp_sub _ _ _ (tk_plans _ _ _ _ _ Hmade))|done|exact Hkept].
  - intros Hstart [_ Hne]%Forall_app. inversion Hne as [|? ? Htabs _]; subst. by destruct (Htabs (Hlost Hstart)).
Qed.

Lemma session_made_add snaps snap s0 s s' r terminals origins ws ts runtimes :
  session_made snaps s0 s r terminals origins → terminals_made (length (old_ids (wsn_tabs snap))) s s' ts runtimes →
  workspace_made w enabled snap s s' ws ts →
  ct_pane (re_counters s') = (ct_pane (re_counters s) + N.of_nat (length (old_ids (wsn_tabs snap))))%N →
  ct_workspace (re_counters s') = (ct_workspace (re_counters s0) + N.of_nat (length (unnamed (snaps ++ [snap]))))%N →
  id_given (ct_workspace (re_counters s0)) (ct_workspace (re_counters s')) (snaps ++ [snap]) (ws_id ws) →
  ¬ id_given (ct_workspace (re_counters s0)) (ct_workspace (re_counters s)) snaps (ws_id ws) →
  (∃ n, (0 < n < u64_max)%N ∧ ws_id ws = workspace_name n) →
  session_made (snaps ++ [snap]) s0 s'
    (mkRestoredSession (rz_workspaces r ++ [ws]) (foldl (λ m t, <[tm_id t := t]> m) (rz_terminals r) ts) (rz_runtimes r ∪ runtimes))
    (terminals ++ ts) (origins ++ [snap]).
Proof.
  intros [M1 [M2 M3] M4 M5 M6 M7 M8 M9 M10 M11 M12] Hmade [Hwf Hnew Hatt [by_old Hkept]] Hp Hw Hgiven Hfresh Hname.
  assert (Hall : terminals_made (length (all_old_ids (snaps ++ [snap]))) s0 s' (terminals ++ ts) (rz_runtimes r ∪ runtimes)).
  { rewrite all_old_snoc, length_app. by eapply made_app. }
  assert (Hle : (ct_workspace (re_counters s) ≤ ct_workspace (re_counters s'))%N).
  { rewrite Hw, M3. unfold unnamed. rewrite filter_app, length_app. lia. }
  assert (Hone : all_attached [ws] = attached (ws_tabs ws)) by (unfold all_attached; cbn; by rewrite app_nil_r).
  constructor; cbn [rz_workspaces rz_terminals rz_runtimes].
  - exact Hall.
  - rewrite all_old_snoc, length_app. split; [lia|done].
  - apply add_terminals; [exact M4|apply (ft_distinct _ _ _ (tk_fresh _ _ _ _ _ Hall))].
  - apply Forall_app. split; [|by constructor]. eapply Forall_impl; [exact M5|]. intros ws'. apply ws_wf_mono. lia.
  - rewrite all_attached_app, Hone, fmap_app. apply NoDup_app. split_and!; [done| |apply (to_panes _ _ _ (wc_tabs _ _ (ww_core _ _ Hwf)))].
    intros p Hold%(all_attached_taken _ _ _ M5) Hin. pose proof (proj1 (Forall_forall _ _) Hnew p Hin). cbn in *. lia.
  - by rewrite all_attached_app, Hone, !fmap_app, M7, Hatt.
  - rewrite fmap_app. apply NoDup_app. split_and!; [done| |apply NoDup_singleton]. intros id Hin. cbn.
    intros ->%list_elem_of_singleton. apply Hfresh. by apply M9.
  - intros id. rewrite fmap_app, elem_of_app. cbn. rewrite list_elem_of_singleton. intros [Hin| ->]; [|by split].
    destruct (M9 id Hin) as [Hg Hn]. split; [|done]. by eapply id_given_mono.
  - by apply sublist_app.
  - apply Forall2_app; [|constructor; [|constructor]].
    + eapply Forall2_impl; [exact M11|]. intros snap' ws' (by_old' & Hkept'). exists by_old'.
      eapply workspace_kept_mono; [apply (fp_sub _ _ _ (tk_plans _ _ _ _ _ Hmade))| |exact Hkept'].
      intros t Ht. rewrite elem_of_app. by left.
    + exists by_old. eapply workspace_kept_mono; [done| |exact Hkept]. intros t Ht. rewrite elem_of_app. by right.
  - intros Hstart [Hne _]%Forall_app. by rewrite M12.
Qed.

Lemma session_loop history snaps l rest s0 :
  session_ok (re_counters s0) snaps → snaps = l.*2 ++ rest →
  let '(s, r) := foldl (restore_next_workspace w enabled history) (s0, mkRestoredSession [] ∅ ∅) l in
  ∃ terminals origins, session_made l.*2 s0 s r terminals origins.
Proof.
  intros Hok. revert rest. induction l as [|[idx snap] l IH] using rev_ind; intros rest Hsnaps.
  - eexists _, _. apply no_session_made.
  - rewrite fmap_app in Hsnaps. cbn in Hsnaps. rewrite <- app_assoc in Hsnaps. change ([snap] ++ rest) with (snap :: rest) in Hsnaps. specialize (IH _ Hsnaps). rewrite foldl_snoc.
    destruct (foldl _ _ l) as [s r]. destruct IH as (terminals & origins & Hmade).
    pose proof (sm_counters _ _ _ _ _ _ Hmade) as [Hp Hw]. pose proof (tk_counter _ _ _ _ _ (sm_made _ _ _ _ _ _ Hmade)) as Ht.
    pose proof (se_workspaces _ _ Hok) as Hall. rewrite Hsnaps, Forall_app, Forall_cons in Hall. destruct Hall as (_ & Hsaved & _).
    pose proof (se_pane _ _ Hok) as Hroomp. pose proof (se_terminal _ _ Hok) as Hroomt.
    rewrite Hsnaps in Hroomp, Hroomt. unfold all_old_ids in *. rewrite bind_app, bind_cons, !length_app in Hroomp, Hroomt.
    unfold restore_next_workspace. cbn [fst snd]. destruct (restore_workspace _ _ _ _ _) as [s' res] eqn:Hres.
    apply restore_workspace_spec in Hres as (Hp' & (id & Hid & Hres) & Hlost); [|done..|lia|lia].
    destruct (identified_new _ _ _ _ _ _ _ _ Hok Hsnaps Hw Hid) as (Hw' & Hgiven & Hfresh & Hname).
    rewrite fmap_app. cbn. destruct res as [[[ws ts] runtimes]|].
    + destruct Hres as (<- & Hts & Hws). eexists _, _. by eapply session_made_add.
    + eexists _, _. eapply session_made_skip; [done..|]. intros Hstart. destruct (wsn_tabs snap) as [|tab tabs] eqn:Htabs; [done|].
      by destruct (Hlost Hstart).
Qed.
End sessions.

Lemma read_workspace_name n : (0 < n < u64_max)%N → public_workspace_number (workspace_name n) = Some n.
Proof.
  intros Hn. unfold public_workspace_number, workspace_name.
  assert (Hs : strip_prefix "w" ("w" +:+ encode_public_number n) = Some (encode_public_number n)) by by apply strip_prefix_spec.
  rewrite Hs. cbn. apply decode_encode_number. lia.
Qed.

Lemma reserved_names c L :
  (∀ ws, ws ∈ L → ∃ n, (0 < n < u64_max)%N ∧ ws_id ws = workspace_name n) →
  let c' := reserve_workspace_ids c L in
  counters_le c c' ∧ ct_pane c' = ct_pane c ∧ ct_terminal c' = ct_terminal c ∧ Forall (λ ws, workspace_named c' (ws_id ws)) L.
Proof.
  intros Hnames. cbv zeta. unfold reserve_workspace_ids.
  assert (Hnum : ∀ n, n ∈ omap (λ w, public_workspace_number (ws_id w)) L → (n < u64_max)%N).
  { intros n (ws & Hin & Hread)%list_elem_of_omap. destruct (Hnames ws Hin) as (m & Hm & Hid).
    rewrite Hid, read_workspace_name in Hread by done. injection Hread as <-. lia. }
  assert (Hall : ∀ next c', (∀ n, n ∈ omap (λ w, public_workspace_number (ws_id w)) L → (n < next)%N) → (next ≤ ct_workspace c')%N →
            Forall (λ ws, workspace_named c' (ws_id ws)) L).
  { intros next c' Hnext Hle. apply Forall_forall. intros ws Hin. destruct (Hnames ws Hin) as (m & Hm & Hid). exists m.
    split; [|exact Hid]. split; [lia|]. assert (m < next)%N; [|lia]. apply Hnext, list_elem_of_omap. exists ws.
    split; [done|]. by rewrite Hid, read_workspace_name. }
  destruct (max_option _) as [top|] eqn:Htop; cbn [mbind option_bind].
  - apply max_option_spec in Htop as [Hin Htop]. specialize (Hnum top Hin). unfold checked_add.
    destruct (N.leb_spec (top + 1) u64_max) as [_|?]; [|lia].
    assert (Hlt : ∀ n, n ∈ omap (λ w, public_workspace_number (ws_id w)) L → (n < top + 1)%N).
    { intros n Hn. specialize (Htop n Hn). lia. }
    destruct (N.ltb_spec (ct_workspace c) (top + 1)) as [Hc|Hc].
    + split_and!; [unfold counters_le; cbn; lia|done|done|]. by eapply Hall.
    + split_and!; [done..|]. by eapply Hall.
  - split_and!; [done..|]. eapply (Hall 0%N); [|lia]. intros n Hn. destruct (omap _ L); [by apply not_elem_of_nil in Hn|done].
Qed.

(** *** The restored session *)

(** The panes of a workspace show what was saved of panes of [snap], under the
    numbers they had. *)
Definition panes_from (w : RestoreWorld) (enabled : bool) (resumed : gset string) (terminals : gmap string TerminalState)
    (snap : SavedWorkspaceSnapshot) (ws : Workspace) : Prop :=
  ∀ p tid, (p, tid) ∈ attached (ws_tabs ws) →
    ∃ tab old t, tab ∈ wsn_tabs snap ∧ old ∈ leaves (tsn_layout tab) ∧ terminals !! tid = Some t
      ∧ shows w enabled resumed (tsn_panes tab !! old) t
      ∧ ∀ n, wsn_public_pane_numbers snap !! old = Some n → ws_public_pane_numbers ws !! p = Some n.

Record session_restored (w : RestoreWorld) (enabled : bool) (snaps : list SavedWorkspaceSnapshot) (imported : gset N) (s : RestoreState)
    (r : RestoredSession) : Prop := mk_session_restored {
  zr_workspaces : workspaces_ok (re_counters s) (rz_workspaces r);
  zr_terminals : ∀ id, is_Some (rz_terminals r !! id) ↔ id ∈ (all_attached (rz_workspaces r)).*2;
  zr_ids : ∀ id t, rz_terminals r !! id = Some t → tm_id t = id;
  zr_runs : ∀ id t, rz_terminals r !! id = Some t → id ∈ rz_runtimes r ∨ is_Some (tm_pending_agent_resume_plan t);
  zr_only : ∀ id, id ∈ rz_runtimes r → is_Some (rz_terminals r !! id);
  zr_once : ∀ id id' t t' key, rz_terminals r !! id = Some t → rz_terminals r !! id' = Some t' →
    plan_key t = Some key → plan_key t' = Some key → id = id';
  zr_resumed : imported = ∅ → ∀ key, key ∈ re_resumed s → ∃ id t, rz_terminals r !! id = Some t ∧ plan_key t = Some key;
  zr_from : ∃ origins, origins `sublist_of` snaps
    ∧ Forall2 (λ snap ws, (∀ id, wsn_id snap = Some id → ws_id ws = id)
                          ∧ panes_from w enabled (re_resumed s) (rz_terminals r) snap ws) origins (rz_workspaces r);
}.

Lemma omap_distinct {A B} (f : A → option B) (l : list A) x y b :
  NoDup (omap f l) → x ∈ l → y ∈ l → f x = Some b → f y = Some b → x = y.
Proof.
  induction l as [|z l IH]; intros Hnd Hx Hy Hfx Hfy; [by apply not_elem_of_nil in Hx|].
  assert (Hnew : ∀ u, f z = Some b → u ∈ l → f u = Some b → False).
  { intros u Hz Hu Hfu. cbn in Hnd. rewrite Hz in Hnd. apply NoDup_cons in Hnd as [Hnot _]. apply Hnot, list_elem_of_omap. by exists u. }
  assert (Hnd' : NoDup (omap f l)) by (cbn in Hnd; destruct (f z); [by apply NoDup_cons in Hnd as []|done]).
  apply elem_of_cons in Hx as [->|Hx], Hy as [->|Hy]; [done| | |by apply IH].
  - by destruct (Hnew y).
  - by destruct (Hnew x).
Qed.

Section restored.
Context `{HOrder : HashOrder} (w : RestoreWorld) (enabled : bool).

Lemma made_panes_from snaps s0 s r terminals origins snap ws by_old :
  session_made w enabled snaps s0 s r terminals origins →
  workspace_kept w enabled (re_resumed s) terminals snap ws by_old →
  panes_from w enabled (re_resumed s) (rz_terminals r) snap ws.
Proof.
  intros Hmade Hkept p tid Hin. destruct (wd_shows _ _ _ _ _ _ _ Hkept p tid Hin) as (tab & old & Htab & Hold & (t & n & Ht & -> & Hshow & Hn & Hp)).
  exists tab, old, t. split_and!; [done|done|apply (sm_terminals _ _ _ _ _ _ _ _ Hmade); by split|done|].
  intros m Hm. pose proof (lookup_weaken _ _ _ _ Hm (wd_numbers _ _ _ _ _ _ _ Hkept)). congruence.
Qed.

Lemma restore_spec snapshot history imported c s r :
  (∀ id, clock_ok (sp_micros (rw_start w id))) → session_ok c (ssn_workspaces snapshot) →
  restore_with_imports_and_failures w enabled snapshot history imported c = (s, r) →
  ∃ s1 terminals origins, session_made w enabled (ssn_workspaces snapshot) (mkRestoreState c ∅ imported 0 []) s1 r terminals origins
    ∧ s = s1 <| re_counters ::= λ c, reserve_workspace_ids c (rz_workspaces r) |>.
Proof.
  intros Hclock Hok. unfold restore_with_imports_and_failures. destruct (imap_positions (ssn_workspaces snapshot)) as [_ Hsnd].
  pose proof (session_loop w enabled Hclock history (ssn_workspaces snapshot) (imap pair (ssn_workspaces snapshot)) []
    (mkRestoreState c ∅ imported 0 []) Hok) as Hloop.
  rewrite Hsnd, app_nil_r in Hloop. specialize (Hloop eq_refl). destruct (foldl _ _ _) as [s1 r1].
  destruct Hloop as (terminals & origins & Hmade). intros [<- <-]%pair_equal_spec. by exists s1, terminals, origins.
Qed.

Lemma made_restored snaps c imported s1 r terminals origins :
  (∀ id, clock_ok (sp_micros (rw_start w id))) →
  session_made w enabled snaps (mkRestoreState c ∅ imported 0 []) s1 r terminals origins →
  session_restored w enabled snaps imported (s1 <| re_counters ::= λ c, reserve_workspace_ids c (rz_workspaces r) |>) r.
Proof.
  intros Hclock Hmade. pose proof Hmade as [M1 [M2 M3] M4 M5 M6 M7 M8 M9 M10 M11 _]. cbn [re_counters] in *.
  destruct (reserved_names (re_counters s1) (rz_workspaces r)) as (Hle & Hcp & Hct & Hnamed).
  { intros ws Hin. apply (M9 (ws_id ws)). by apply list_elem_of_fmap_2. }
  set (c' := reserve_workspace_ids (re_counters s1) (rz_workspaces r)) in *.
  assert (Hknown : ∀ id, is_Some (rz_terminals r !! id) ↔ id ∈ tm_id <$> terminals).
  { intros id. rewrite list_elem_of_fmap. split.
    - intros [t [Ht <-]%M4]. by exists t.
    - intros (t & -> & Ht). exists t. by apply M4. }
  constructor; cbn [re_counters re_resumed].
  - constructor; [|done|exact Hnamed|done| |].
    + eapply Forall_impl; [exact M5|]. intros ws. apply ws_wf_mono. change (ct_pane (re_counters s1) ≤ ct_pane c')%N. lia.
    + rewrite M7. apply (ft_distinct _ _ _ (tk_fresh _ _ _ _ _ M1)).
    + rewrite M7. eapply Forall_impl; [apply (ft_range _ _ _ (tk_fresh _ _ _ _ _ M1))|].
      intros id (micros & n & Hm & [_ Hn] & ->). exists micros, n. split_and!; [done| |done].
      change (n < ct_terminal c')%N. rewrite Hct. exact Hn.
  - intros id. by rewrite Hknown, M7.
  - by intros id t [_ Hid]%M4.
  - intros id t [Ht <-]%M4. by apply (tk_runs _ _ _ _ _ M1).
  - intros id Hin. apply Hknown. by apply (tk_only _ _ _ _ _ M1).
  - intros id id' t t' key [Ht <-]%M4 [Ht' <-]%M4 Hkey Hkey'. f_equal.
    eapply omap_distinct; [apply (fp_distinct _ _ _ (tk_plans _ _ _ _ _ M1))|done..].
  - intros Himp key Hkey. apply (tk_all _ _ _ _ _ M1) in Hkey; [|done]. cbn [re_resumed] in Hkey.
    rewrite union_empty_l_L, elem_of_list_to_set in Hkey. apply list_elem_of_omap in Hkey as (t & Ht & Hplan).
    exists (tm_id t), t. split; [by apply M4|done].
  - exists origins. split; [done|]. eapply Forall2_impl; [exact M11|]. intros snap ws (by_old & Hkept).
    split; [apply (wd_id _ _ _ _ _ _ _ Hkept)|]. exact (made_panes_from _ _ _ _ _ _ _ _ _ Hmade Hkept).
Qed.
End restored.

(** ** What is captured is restored *)

(** A layout with other identifiers *)
Fixpoint map_node (f : PaneId → PaneId) (node : Node) : Node :=
  match node with
  | Node.Pane id => Node.Pane (f id)
  | Node.Split direction ratio first second => Node.Split direction ratio (map_node f first) (map_node f second)
  end.

Lemma relabel_captured f node : relabel f (capture_node node) = map_node f node.
Proof. induction node as [id|[] ratio first IH1 second IH2]; cbn; [done|by rewrite IH1, IH2..]. Qed.

Lemma leaves_captured node : leaves (capture_node node) = collect_ids node.
Proof. induction node as [id|direction ratio first IH1 second IH2]; cbn; [done|by rewrite IH1, IH2]. Qed.

Lemma ratios_captured node : node_ok node → ratios_ok (capture_node node).
Proof. induction node as [id|direction ratio first IH1 second IH2]; cbn; naive_solver. Qed.

Section captured.
Context (terminals : gmap string TerminalState) (dirs : RuntimeDirs) (current_dir : string).

Lemma old_ids_captured c tabs :
  Forall (tab_wf c) tabs → old_ids (capture_tab terminals dirs current_dir <$> tabs) ≡ₚ (attached tabs).*1.
Proof.
  induction 1 as [|tab tabs Htab _ IH]; [done|]. rewrite fmap_cons. unfold old_ids in *. rewrite bind_cons.
  change (attached (tab :: tabs)) with (tab_attached tab ++ attached tabs). rewrite fmap_app, IH. apply Permutation_app_tail.
  cbn [tsn_layout capture_tab]. rewrite leaves_captured. apply NoDup_Permutation.
  - apply (wf_ids _ _ (tw_layout _ _ Htab)).
  - apply tab_attached_NoDup.
  - intros p. rewrite tab_attached_panes. symmetry. apply (tw_panes _ _ Htab).
Qed.

Lemma tab_number_captured ws idx tab :
  ws_tabs ws !! idx = Some tab → tab_number_at (capture_workspace terminals dirs current_dir ws) idx = tb_number tab.
Proof. intros Hidx. unfold tab_number_at. cbn. by rewrite list_lookup_fmap, Hidx. Qed.

(** The numbers of a workspace that has room for its panes once more *)
Record numbers_room (ws : Workspace) : Prop := mk_numbers_room {
  nr_panes : (ws_next_public_pane_number ws + N.of_nat (length (attached (ws_tabs ws))) < u64_max)%N;
  nr_tabs : (ws_next_public_tab_number ws ≤ u64_max)%N;
}.

Lemma captured_ok c ws : ws_wf c ws → numbers_room ws → saved_ok (capture_workspace terminals dirs current_dir ws).
Proof.
  intros [[Htabs [Hb Hi Hpos] _] _ Hnum] [Hroom Hroomt].
  pose proof (old_ids_captured _ _ (to_tabs _ _ _ Htabs)) as Hold.
  assert (Hlen : length (old_ids (capture_tab terminals dirs current_dir <$> ws_tabs ws)) = length (attached (ws_tabs ws))).
  { by rewrite Hold, length_fmap. }
  assert (Hnumbers : tab_number_at (capture_workspace terminals dirs current_dir ws) <$> seq 0 (length (ws_tabs ws)) = tb_number <$> ws_tabs ws).
  { apply list_eq. intros i. rewrite !list_lookup_fmap. destruct (ws_tabs ws !! i) as [tab|] eqn:Htab.
    - rewrite lookup_seq_lt by (by eapply lookup_lt_Some). cbn. by rewrite (tab_number_captured _ _ tab).
    - rewrite lookup_seq_ge; [done|]. by apply lookup_ge_None. }
  constructor; cbn [capture_workspace wsn_tabs wsn_public_pane_numbers wsn_next_public_pane_number wsn_public_tab_numbers].
  - apply Forall_fmap. eapply Forall_impl; [apply (to_tabs _ _ _ Htabs)|]. intros tab Htab. cbn. apply ratios_captured.
    apply (wf_ratios _ _ (tw_layout _ _ Htab)).
  - rewrite Hold. apply (to_panes _ _ _ Htabs).
  - intros p n Hp%Hb. rewrite Hlen. lia.
  - exact Hi.
  - by rewrite Hlen.
  - rewrite length_fmap, Hnumbers. apply (to_numbers _ _ _ Htabs).
  - apply Forall_fmap. eapply Forall_impl; [apply (to_bounds _ _ _ Htabs)|]. cbn. lia.
Qed.

Lemma captured_session_ok c c' L :
  workspaces_ok c L → (ct_workspace c ≤ u64_max)%N → Forall numbers_room L →
  (ct_pane c' + N.of_nat (length (all_attached L)) < 2 ^ 32)%N → (ct_terminal c' + N.of_nat (length (all_attached L)) < 2 ^ 64)%N →
  (0 < ct_workspace c' < u64_max)%N → session_ok c' (capture_workspace terminals dirs current_dir <$> L).
Proof.
  intros [Hwf Hids Hnamed _ _ _] Hmax Hroom Hp Ht Hw.
  assert (Hlen : length (all_old_ids (capture_workspace terminals dirs current_dir <$> L)) = length (all_attached L)).
  { clear -Hwf. induction Hwf as [|ws L Hws _ IH]; [done|]. rewrite fmap_cons. unfold all_old_ids, all_attached in *.
    rewrite !bind_cons, !length_app, IH. f_equal. cbn [capture_workspace wsn_tabs].
    by rewrite (old_ids_captured _ _ (to_tabs _ _ _ (wc_tabs _ _ (ww_core _ _ Hws)))), length_fmap. }
  assert (Hun : unnamed (capture_workspace terminals dirs current_dir <$> L) = []).
  { clear. induction L as [|ws L IH]; [done|]. unfold unnamed in *. rewrite fmap_cons, filter_cons, decide_False; [done|by cbn]. }
  assert (Hsaved : omap wsn_id (capture_workspace terminals dirs current_dir <$> L) = ws_id <$> L).
  { clear. induction L as [|ws L IH]; [done|]. cbn. by rewrite <- IH. }
  constructor; rewrite ?Hlen, ?Hun, ?Hsaved; cbn [length].
  - apply Forall_fmap, Forall_forall. intros ws Hin. rewrite Forall_forall in Hwf, Hroom. eapply captured_ok; [by apply Hwf|by apply Hroom].
  - done.
  - intros id (ws & -> & Hin)%list_elem_of_fmap. rewrite Forall_forall in Hnamed. destruct (Hnamed ws Hin) as (n & Hn & Hid).
    exists n. split_and!; [lia|lia|exact Hid|]. lia.
  - done.
  - done.
  - lia.
Qed.
End captured.

Section returned.
Context `{HOrder : HashOrder} (w : RestoreWorld) (enabled : bool).
Context (terminals : gmap string TerminalState) (dirs : RuntimeDirs) (current_dir : string).
Context (resumed : gset string) (restored : gmap string TerminalState).

(** The tab with other identifiers of panes, whose terminals show what was
    captured of them *)
Record tab_returned (numbers numbers' : gmap PaneId N) (tab tab' : Tab) (f : PaneId → PaneId) : Prop := mk_tab_returned {
  tv_root : tl_root (tb_layout tab') = map_node f (tl_root (tb_layout tab));
  tv_focus : tl_focus (tb_layout tab') = f (tl_focus (tb_layout tab));
  tv_root_pane : tb_root_pane tab' = f (tb_root_pane tab);
  tv_name : tb_custom_name tab' = tb_custom_name tab;
  tv_number : tb_number tab' = tb_number tab;
  tv_zoomed : tb_zoomed tab' = tb_zoomed tab;
  tv_panes : ∀ p st, tb_panes tab !! p = Some st →
    ∃ st' t', tb_panes tab' !! f p = Some st' ∧ restored !! pn_attached_terminal_id st' = Some t'
      ∧ shows w enabled resumed (Some (capture_pane terminals dirs current_dir tab p st)) t' ∧ numbers' !! f p = numbers !! p;
}.

Record workspace_returned (ws ws' : Workspace) : Prop := mk_workspace_returned {
  wv_id : ws_id ws' = ws_id ws;
  wv_name : ws_custom_name ws' = ws_custom_name ws;
  wv_cwd : ws_identity_cwd ws' = resolved_identity_cwd_from ws terminals dirs;
  wv_worktree : ws_worktree_space ws' = restored_worktree_space_membership w (ws_worktree_space ws);
  wv_next_pane : ws_next_public_pane_number ws' = ws_next_public_pane_number ws;
  wv_next_tab : ws_next_public_tab_number ws' = ws_next_public_tab_number ws;
  wv_active : ws_active_tab ws' = ws_active_tab ws;
  wv_tabs : Forall2 (λ tab tab', ∃ f, tab_returned (ws_public_pane_numbers ws) (ws_public_pane_numbers ws') tab tab' f)
              (ws_tabs ws) (ws_tabs ws');
}.

Lemma kept_tab_returned next c ws ws' by_old ts tab tab' number f :
  ws_wf c ws → tab ∈ ws_tabs ws → tab_wf next tab → ws_public_pane_numbers ws ⊆ by_old → number = tb_number tab →
  (∀ t, t ∈ ts → restored !! tm_id t = Some t) →
  tab_kept w enabled by_old resumed (ws_public_pane_numbers ws') ts (capture_tab terminals dirs current_dir tab) number tab' f →
  tab_returned (ws_public_pane_numbers ws) (ws_public_pane_numbers ws') tab tab' f.
Proof.
  intros Hws Htab Hwf Hsub -> Hts [K1 K2 K3 K4 K5 K6 K7]. cbn [capture_tab tsn_layout tsn_focused tsn_root_pane tsn_panes] in *.
  rewrite leaves_captured in *. constructor; [by rewrite K1, relabel_captured|by apply K2, (wf_focus _ _ (tw_layout _ _ Hwf))
    |by apply K3, (tw_root _ _ Hwf)|done..|].
  intros p st Hp. assert (Hin : p ∈ collect_ids (tl_root (tb_layout tab))) by (apply (tw_panes _ _ Hwf); by eexists).
  destruct (K7 p Hin) as (tid & Hatt & (t & n & Ht & -> & Hshow & Hn & Hpn)). cbn [capture_tab tsn_panes] in Hshow. rewrite map_lookup_imap, Hp in Hshow.
  apply elem_of_tab_attached in Hatt as (st' & Hst' & Hid). exists st', t. split_and!; [done|rewrite Hid; by apply Hts|done|].
  assert (Hnum : is_Some (ws_public_pane_numbers ws !! p)).
  { apply (ww_numbered _ _ Hws), attached_pane. exists tab. split; [done|by eexists]. }
  destruct Hnum as [m Hm]. pose proof (lookup_weaken _ _ _ _ Hm Hsub). congruence.
Qed.

Lemma captured_numbers c ws :
  ws_wf c ws → numbers_room ws →
  first_numbers (capture_workspace terminals dirs current_dir ws) = ws_next_public_pane_number ws
  ∧ first_tab_number (capture_workspace terminals dirs current_dir ws) = ws_next_public_tab_number ws.
Proof.
  intros Hwf Hroom. pose proof (captured_ok terminals dirs current_dir c ws Hwf Hroom) as Hok.
  destruct (first_tab_ok _ Hok) as (_ & Hle & _ & Hleast).
  destruct Hwf as [[Htabs [Hb _ Hpos] Hpost] _ _]. split; apply N.le_antisymm.
  - destruct (first_numbers_ok _ Hok) as (_ & _ & Hleastp). apply Hleastp; [done|done|]. intros p n Hp%Hb. lia.
  - unfold first_numbers, next_number. cbn [capture_workspace wsn_next_public_pane_number]. lia.
  - apply Hleast; [done|done|]. apply Forall_fmap. eapply Forall_impl; [apply (to_bounds _ _ _ Htabs)|]. cbn. lia.
  - exact Hle.
Qed.

Lemma kept_workspace_returned c ws ws' by_old ts :
  (∀ id, sp_started (rw_start w id) = true) → ws_wf c ws → numbers_room ws → (∀ t, t ∈ ts → restored !! tm_id t = Some t) →
  workspace_kept w enabled resumed ts (capture_workspace terminals dirs current_dir ws) ws' by_old →
  workspace_returned ws ws'.
Proof.
  intros Hstart Hwf Hroom Hts [K1 K2 K3 K4 K5 _ K7 K8 K9 K10]. specialize (K7 Hstart).
  destruct (captured_numbers c ws Hwf Hroom) as [Hnp Hnt].
  cbn [capture_workspace wsn_id wsn_custom_name wsn_identity_cwd wsn_worktree_space wsn_public_pane_numbers wsn_tabs wsn_active_tab
       wsn_public_tab_numbers] in *.
  pose proof (Forall2_length _ _ _ K7) as Hlen. rewrite length_imap, length_fmap in Hlen.
  pose proof (wc_tabs _ _ (ww_core _ _ Hwf)) as Htabs. constructor; try done.
  - by apply K1.
  - rewrite K9, Hnp; [done|]. intros old Hold. apply (ww_numbered _ _ Hwf).
    by rewrite <- (old_ids_captured terminals dirs current_dir _ _ (to_tabs _ _ _ Htabs)).
  - rewrite K10, Hnt; [done|]. by rewrite !length_fmap.
  - rewrite K8, <- Hlen. pose proof (ww_active _ _ Hwf). lia.
  - apply Forall2_same_length_lookup_2; [done|]. intros i tab tab' Htab Htab'.
    assert (Hi : imap pair (capture_tab terminals dirs current_dir <$> ws_tabs ws) !! i = Some (i, capture_tab terminals dirs current_dir tab)).
    { by rewrite list_lookup_imap, list_lookup_fmap, Htab. }
    destruct (Forall2_lookup_lr _ _ _ _ _ _ K7 Hi Htab') as [f Hf]. exists f.
    eapply kept_tab_returned; [exact Hwf|by eapply list_elem_of_lookup_2|by eapply tabs_ok_lookup|exact K5| |exact Hts|exact Hf].
    cbn [fst]. by apply (tab_number_captured terminals dirs current_dir ws i tab).
Qed.
End returned.

(** Counters with room for the panes of a session *)
Record restore_room (c : Counters) (s : AppState) : Prop := mk_restore_room {
  rr_pane : (ct_pane c + N.of_nat (length (all_attached (as_workspaces s))) < 2 ^ 32)%N;
  rr_terminal : (ct_terminal c + N.of_nat (length (all_attached (as_workspaces s))) < 2 ^ 64)%N;
  rr_workspace : (0 < ct_workspace c < u64_max)%N;
  rr_numbers : Forall numbers_room (as_workspaces s);
}.

(** ** Properties *)

(** C23: Restoring a session gives workspaces that are well formed, whichever of its
    processes start and whichever panes another server hands over.  Identifiers
    of workspaces and terminals, panes and public numbers are distinct and the
    counters do not give them out again; the terminals are those of the panes, and
    each runs or waits to resume its agent.  Each pane shows what was saved of one
    pane of its workspace, under the public number that one had.  No two terminals
    resume the same session of an agent, and when no panes are handed over every
    saved session that can be resumed is resumed by one. *)
Theorem restored_sessions_are_well_formed `{HOrder : HashOrder} w enabled snapshot history imported c :
  (∀ id, clock_ok (sp_micros (rw_start w id))) → session_ok c (ssn_workspaces snapshot) →
  let '(s, r) := restore_with_imports_and_failures w enabled snapshot history imported c in
  session_restored w enabled (ssn_workspaces snapshot) imported s r.
Proof.
  intros Hclock Hok. destruct (restore_with_imports_and_failures _ _ _ _ _ _) as [s r] eqn:Hrestore.
  destruct (restore_spec w enabled _ _ _ _ _ _ Hclock Hok Hrestore) as (s1 & terminals & origins & Hmade & ->).
  exact (made_restored w enabled _ _ _ _ _ _ _ Hclock Hmade).
Qed.

(** A hand-over that succeeds takes every pane that is handed over. *)
Lemma handoff_takes_all `{HOrder : HashOrder} w snapshot imports c s r :
  (∀ id, clock_ok (sp_micros (rw_start w id))) → session_ok c (ssn_workspaces snapshot) →
  restore_handoff w snapshot imports c = (s, Ok r) →
  re_imported s = ∅ ∧ re_failed s = 0%N ∧ session_restored w true (ssn_workspaces snapshot) imports s r.
Proof.
  intros Hclock Hok. unfold restore_handoff, restore_with_imports_strict.
  destruct (restore_with_imports_and_failures _ _ _ _ _ _) as [s' r'] eqn:Hrestore. intros [<- Hr]%pair_equal_spec.
  apply bind_ok in Hr as (? & Hfailed%reject_if_ok & Hr). apply bind_ok in Hr as (? & Himp%reject_if_ok & [= <-]).
  apply N.ltb_ge in Hfailed. apply negb_false_iff, bool_decide_eq_true_1 in Himp. split_and!; [done|lia|].
  destruct (restore_spec w true _ _ _ _ _ _ Hclock Hok Hrestore) as (s1 & terminals & origins & Hmade & ->).
  exact (made_restored w true _ _ _ _ _ _ _ Hclock Hmade).
Qed.

(** C22: A server that captures its session and starts again with it has it back, when
    its processes start.  Workspaces and tabs have their order, identifiers, names
    and public numbers, the active and selected ones are those they were, and in
    each tab the layout, the focus, the root and the zoom are the same but for the
    identifiers of panes, each of which keeps its public number.  The terminal of
    a pane shows the label and the name of its agent that were captured, and the
    directory, or home or the root when that is gone; it has the session of its
    agent again, unless it is one that another terminal resumes.  When agents are
    to be resumed, each session that can be is waited for by the terminal of
    exactly one pane.  What a pane was launched with is not restored. *)
Theorem saved_session_is_restored `{HOrder : HashOrder} w enabled c s dirs current_dir width split collapsed history c' aliases :
  app_wf c s → (ct_workspace c ≤ u64_max)%N → restore_room c' s →
  (∀ id, clock_ok (sp_micros (rw_start w id))) → (∀ id, sp_started (rw_start w id) = true) →
  let snapshot := capture (as_terminals s) dirs current_dir (as_workspaces s) (as_active s) (as_selected s) width split collapsed in
  let '(s', r) := restore w snapshot history enabled c' in
  let app := restored_app snapshot r aliases (as_confirm_close s) in
  Forall2 (workspace_returned w enabled (as_terminals s) dirs current_dir (re_resumed s') (as_terminals app)) (as_workspaces s) (as_workspaces app)
  ∧ as_active app = as_active s ∧ as_selected app = as_selected s
  ∧ ∀ key, key ∈ re_resumed s' →
      ∃ id t, id ∈ (all_attached (as_workspaces app)).*2 ∧ as_terminals app !! id = Some t ∧ plan_key t = Some key
              ∧ ∀ id' t', as_terminals app !! id' = Some t' → plan_key t' = Some key → id' = id.
Proof.
  intros [Hws Hnav _ _] Hmax [Hp Ht Hw Hroom] Hclock Hstart. cbv zeta.
  set (snapshot := capture _ _ _ _ _ _ _ _ _).
  assert (Hok : session_ok c' (ssn_workspaces snapshot)) by (by eapply captured_session_ok).
  unfold restore. destruct (restore_with_imports_and_failures _ _ _ _ _ _) as [s' r] eqn:Hrestore.
  destruct (restore_spec w enabled _ _ _ _ _ _ Hclock Hok Hrestore) as (s1 & terminals & origins & Hmade & ->).
  pose proof Hmade as [_ _ M4 _ _ _ _ _ _ M11 M12].
  assert (origins = ssn_workspaces snapshot) as ->.
  { apply M12; [done|]. apply Forall_fmap. eapply Forall_impl; [apply (wo_wf _ _ Hws)|]. intros ws Hwf. cbn.
    intros Hnone%fmap_nil_inv. pose proof (ww_active _ _ Hwf) as Hact. rewrite Hnone in Hact. cbn in Hact. lia. }
  assert (Hlen : length (rz_workspaces r) = length (as_workspaces s)).
  { rewrite <- (Forall2_length _ _ _ M11). cbn. by rewrite length_fmap. }
  pose proof (made_restored w enabled _ _ _ _ _ _ _ Hclock Hmade) as Hrestored.
  split; [|apply and_assoc; split; [unfold restored_app; cbn [as_active as_selected]; rewrite Hlen; cbn|]].
  - cbn [as_workspaces as_terminals restored_app re_resumed]. cbn [ssn_workspaces snapshot capture] in M11.
    apply Forall2_fmap_l in M11. apply Forall2_same_length_lookup_2; [done|]. intros i ws ws' Hi Hi'.
    destruct (Forall2_lookup_lr _ _ _ _ _ _ M11 Hi Hi') as [by_old Hkept]. cbn in Hkept.
    eapply kept_workspace_returned; [exact Hstart|by eapply Forall_lookup_1; [apply (wo_wf _ _ Hws)|]
      |by eapply Forall_lookup_1| |exact Hkept]. intros t Hin. apply M4. by split.
  - unfold navigation_ok in Hnav. destruct (length (as_workspaces s)) as [|count].
    + destruct Hnav as [-> ->]. by split.
    + destruct Hnav as [(a & -> & Ha) Hsel]. cbn. rewrite bool_decide_eq_true_2 by done. split; [done|]. lia.
  - intros key Hkey. destruct (zr_resumed _ _ _ _ _ _ Hrestored eq_refl key Hkey) as (id & t & Hid & Hplan).
    exists id, t. split_and!; [apply (zr_terminals _ _ _ _ _ _ Hrestored); by exists t|done..|]. intros id' t' Hid' Hplan'. by eapply (zr_once _ _ _ _ _ _ Hrestored).
Qed.

(** ** A session of three workspaces *)

Module SessionsDemo.
Import PanesDemo.
#[local] Existing Instance TerminalsDemo.by_key.

Definition world (fails : PaneId → bool) : RestoreWorld :=
  mkRestoreWorld "/" (Some "/home/me") (λ dir, bool_decide (dir ∈ ["/a"; "/b"; "/home/me"])) (λ _, None)
    (λ id, mkSpawn (negb (fails id)) 1750000000000000) 0 0.

Lemma world_clock fails id : clock_ok (sp_micros (rw_start (world fails) id)).
Proof. unfold clock_ok. cbn. lia. Qed.

Definition saved_session : SavedSessionSnapshot :=
  capture (as_terminals started_panes.2) (mkRuntimeDirs (λ _, None) (λ _, None)) "/" (as_workspaces started_panes.2)
    (as_active started_panes.2) (as_selected started_panes.2) 24 (S754_finite false 1 (-1)) ∅.

Definition room_left (ws : Workspace) : bool :=
  (ws_next_public_pane_number ws + N.of_nat (length (attached (ws_tabs ws))) <? u64_max)%N
  && (ws_next_public_tab_number ws <=? u64_max)%N.

Lemma started_restore_room : restore_room fresh started_panes.2.
Proof.
  constructor; [apply (bool_decide_unpack _); vm_compute; exact I..|].
  assert (Hall : forallb room_left (as_workspaces started_panes.2) = true) by (vm_compute; reflexivity).
  apply Forall_forall. intros ws Hin. rewrite forallb_forall in Hall. specialize (Hall ws (proj1 (list_elem_of_In _ _) Hin)).
  unfold room_left in Hall. rewrite andb_true_iff, N.ltb_lt, N.leb_le in Hall. destruct Hall. by constructor.
Qed.

Lemma started_names : (ct_workspace started_panes.1 ≤ u64_max)%N.
Proof. apply (bool_decide_unpack _). vm_compute. exact I. Qed.

Lemma saved_session_ok : session_ok fresh (ssn_workspaces saved_session).
Proof.
  destruct started_restore_room as [Hp Ht Hw Hroom].
  exact (captured_session_ok _ _ _ started_panes.1 fresh _ (aw_workspaces _ _ started_wf) started_names Hroom Hp Ht Hw).
Qed.

(** The pane with the new identifier 3 does not start: its workspace is lost, and
    the two that are left keep their numbers. *)
Lemma restored_sessions_are_well_formed_witness :
  let '(s, r) := restore_with_imports_and_failures (world (N.eqb 3)) true saved_session None ∅ fresh in
  (λ ws, (ws_id ws, map_to_list (ws_public_pane_numbers ws))) <$> rz_workspaces r
    = [("w1", [(2, 2); (1, 1)]); ("w3", [(4, 1)])]%N
  ∧ session_restored (world (N.eqb 3)) true (ssn_workspaces saved_session) ∅ s r.
Proof.
  pose proof (restored_sessions_are_well_formed (world (N.eqb 3)) true saved_session None ∅ fresh
    (world_clock _) saved_session_ok) as H.
  assert (Hr : (λ ws, (ws_id ws, map_to_list (ws_public_pane_numbers ws)))
               <$> rz_workspaces (restore_with_imports_and_failures (world (N.eqb 3)) true saved_session None ∅ fresh).2
               = [("w1", [(2, 2); (1, 1)]); ("w3", [(4, 1)])]%N) by (vm_compute; reflexivity).
  destruct (restore_with_imports_and_failures _ _ _ _ _ _) as [s r]. split; [exact Hr|exact H].
Defined.

Lemma saved_session_is_restored_witness :
  let '(s', r) := restore (world (λ _, false)) saved_session None true fresh in
  let app := restored_app saved_session r ∅ true in
  Forall2 (workspace_returned (world (λ _, false)) true (as_terminals started_panes.2) (mkRuntimeDirs (λ _, None) (λ _, None)) "/"
             (re_resumed s') (as_terminals app)) (as_workspaces started_panes.2) (as_workspaces app)
  ∧ as_active app = Some 0 ∧ as_selected app = 0
  ∧ ∀ key, key ∈ re_resumed s' →
      ∃ id t, id ∈ (all_attached (as_workspaces app)).*2 ∧ as_terminals app !! id = Some t ∧ plan_key t = Some key
              ∧ ∀ id' t', as_terminals app !! id' = Some t' → plan_key t' = Some key → id' = id.
Proof.
  pose proof (saved_session_is_restored (world (λ _, false)) true started_panes.1 started_panes.2 (mkRuntimeDirs (λ _, None) (λ _, None)) "/"
    24 (S754_finite false 1 (-1)) ∅ None fresh ∅ started_wf started_names started_restore_room (world_clock _) (λ _, eq_refl)) as H.
  cbv zeta in H. fold saved_session in H. destruct (restore _ _ _ _ _) as [s' r]. exact H.
Defined.

(** The second workspace was active.  When the first one is lost the third one is
    active. *)
Example lost_workspace_moves_the_active_one :
  let snapshot := mkSavedSessionSnapshot 3 (ssn_workspaces saved_session) (Some 1) 1 None None ∅ in
  let r := (restore (world (λ id, bool_decide (id ∈ [1; 2]%N))) snapshot None true fresh).2 in
  let app := restored_app snapshot r ∅ true in
  (as_active app ≫= λ i, ws_id <$> as_workspaces app !! i) = Some "w3".
Proof. vm_compute. reflexivity. Qed.

(** The process of the first pane is not handed over and does not start again:
    the identifier of that pane leads to the one that is left. *)
Example aliases_of_a_lost_pane :
  (λ ws_snap, leaves ∘ tsn_layout <$> wsn_tabs ws_snap) <$> ssn_workspaces saved_session = [[[1; 4]]; [[2]]; [[3]]]%N
  ∧ match (restore_handoff (world (N.eqb 10)) saved_session (list_to_set [2; 3; 4]%N) (mkCounters 10 1 1)).2 with
    | Ok r =>
        (λ ws, map_to_list (ws_public_pane_numbers ws)) <$> rz_workspaces r = [[(11, 2)]; [(12, 1)]; [(13, 1)]]%N
        ∧ map_to_list (handoff_pane_aliases saved_session (rz_workspaces r)) = [(2, 12); (3, 13); (1, 11)]%N
    | Err _ => False
    end.
Proof. vm_compute. by split_and!. Qed.
End SessionsDemo.
