(* ===== verification/Digest.v ===== *)
(** * Canonical digests ([src/mission/digest.rs])

    [CanonicalDigest] feeds length-delimited fields to SHA-256 and prints the
    result in hexadecimal.  SHA-256 is the [sha2] crate's and stays abstract:
    the class [Sha256] is the function, [Sha256Spec] its one property the
    code relies on outright, the 32-byte output.  What the code expects of it
    beyond that, that nobody finds two inputs with one output, is not assumed:
    theorems conclude that the inputs are equal or that two texts they name,
    which the run at hand did hash, are different and have one output
    ([clashes], [collision_among]).  That some two texts of all have one
    output ([collision]) follows from the length of the output alone; it is
    said only where that length is not supposed. *)

From S2P Require Export Text.

(** ** Big-endian integers ([to_be_bytes], [from_be_bytes]) *)

Fixpoint be_bytes (w : nat) (n : N) : bytes :=
  match w with
  | O => []
  | S w' => ascii_of_N ((n / 256 ^ N.of_nat w') mod 256) :: be_bytes w' n
  end.

Definition be_value (b : bytes) : N := foldl (λ acc c, acc * 256 + N_of_ascii c)%N 0%N b.

Lemma length_be_bytes w n : length (be_bytes w n) = w.
Proof. induction w as [|w IH]; cbn; [done|]. by f_equal. Qed.

Lemma be_value_acc acc b :
  foldl (λ acc c, acc * 256 + N_of_ascii c)%N acc b
  = (acc * 256 ^ N.of_nat (length b) + be_value b)%N.
Proof.
  unfold be_value. revert acc. induction b as [|c b IH]; intros acc; cbn [foldl length].
  { cbn. lia. }
  rewrite (IH (acc * 256 + _)%N), (IH (0 * 256 + _)%N), Nat2N.inj_succ, N.pow_succ_r'. lia.
Qed.

Lemma be_value_cons c b :
  be_value (c :: b) = (N_of_ascii c * 256 ^ N.of_nat (length b) + be_value b)%N.
Proof. unfold be_value at 1. cbn [foldl]. by rewrite be_value_acc. Qed.

Lemma be_value_be_bytes w n : be_value (be_bytes w n) = (n mod 256 ^ N.of_nat w)%N.
Proof.
  induction w as [|w IH]; [by rewrite N.mod_1_r|].
  cbn [be_bytes]. rewrite be_value_cons, IH, length_be_bytes.
  rewrite N_ascii_embedding by (apply N.mod_lt; done).
  rewrite Nat2N.inj_succ, N.pow_succ_r'.
  rewrite (N.mul_comm 256), N.Div0.mod_mul_r. lia.
Qed.

Lemma be_bytes_roundtrip w n :
  (n < 256 ^ N.of_nat w)%N → be_value (be_bytes w n) = n.
Proof. intros. by rewrite be_value_be_bytes, N.mod_small. Qed.

Lemma be_bytes_inj w n m :
  (n < 256 ^ N.of_nat w)%N → (m < 256 ^ N.of_nat w)%N → be_bytes w n = be_bytes w m → n = m.
Proof.
  intros Hn Hm Heq. by rewrite <- (be_bytes_roundtrip w n), Heq, be_bytes_roundtrip.
Qed.

(** ** Hexadecimal printing *)

Definition hex_digit (n : N) : ascii := ascii_of_N (if (n <? 10)%N then 48 + n else 87 + n).

Definition hex_byte (c : ascii) : bytes :=
  [hex_digit (N_of_ascii c / 16); hex_digit (N_of_ascii c mod 16)].

Definition hex (b : bytes) : string := str_of_bytes (b ≫= hex_byte).

Definition unhex_digit (c : ascii) : N :=
  let n := N_of_ascii c in if (n <? 58)%N then (n - 48)%N else (n - 87)%N.

Fixpoint unhex (b : bytes) : bytes :=
  match b with
  | hi :: lo :: b => ascii_of_N (unhex_digit hi * 16 + unhex_digit lo) :: unhex b
  | _ => []
  end.

Lemma unhex_hex b : unhex (str_bytes (hex b)) = b.
Proof.
  unfold hex. rewrite str_of_to_bytes. induction b as [|c b IH]; [done|].
  cbn [mbind list_bind app hex_byte unhex]. f_equal; [|exact IH].
  by destruct c as [[] [] [] [] [] [] [] []].
Qed.

Lemma hex_inj b b' : hex b = hex b' → b = b'.
Proof. intros Heq. by rewrite <- (unhex_hex b), Heq, unhex_hex. Qed.

Lemma length_hex b : length (str_bytes (hex b)) = 2 * length b.
Proof. unfold hex. rewrite str_of_to_bytes. induction b as [|c b IH]; cbn in *; lia. Qed.

Lemma hex_is_hexdigit b : forallb is_ascii_hexdigit (str_bytes (hex b)) = true.
Proof.
  unfold hex. rewrite str_of_to_bytes. induction b as [|c b IH]; [done|].
  cbn [mbind list_bind app hex_byte forallb].
  rewrite !andb_true_iff. split_and!; [| |exact IH]; by destruct c as [[] [] [] [] [] [] [] []].
Qed.

(** ** SHA-256 *)

Class Sha256 := sha256 : bytes → bytes.

Class Sha256Spec {H : Sha256} : Prop := sha256_length m : length (sha256 m) = 32.

(** Two different texts with one hash *)
Definition clashes {H : Sha256} (m m' : bytes) : Prop := m ≠ m' ∧ sha256 m = sha256 m'.

(** Two of these texts clash. *)
Definition collision_among {H : Sha256} (texts : list bytes) : Prop :=
  ∃ m m', m ∈ texts ∧ m' ∈ texts ∧ clashes m m'.

(** Some two texts clash. *)
Definition collision {H : Sha256} : Prop := ∃ m m', m ≠ m' ∧ sha256 m = sha256 m'.

Section sha256_texts.
Context {H : Sha256}.

Lemma sha256_inj_or m m' : sha256 m = sha256 m' → m = m' ∨ clashes m m'.
Proof. intros Heq. destruct (decide (m = m')); [by left|by right]. Qed.

Lemma clashes_collision m m' : clashes m m' → collision.
Proof. intros [? ?]. by exists m, m'. Qed.

Lemma clashes_among texts m m' :
  m ∈ texts → m' ∈ texts → clashes m m' → collision_among texts.
Proof. intros ? ? ?. by exists m, m'. Qed.

Lemma collision_among_mono texts texts' :
  texts ⊆ texts' → collision_among texts → collision_among texts'.
Proof. intros Hsub (m & m' & ? & ? & ?). exists m, m'. auto. Qed.
End sha256_texts.

(** Functions of the right shape, for concrete evaluations only: the input,
    cut or padded to 32 bytes, with its length in the last two; and one that
    depends on every byte, the input as a number in base 257 modulo 2^256. *)
Definition demo_sha256 : Sha256 := λ m,
  take 30 (m ++ replicate 30 "000"%char) ++ be_bytes 2 (N.of_nat (length m)).

Lemma demo_sha256_spec : @Sha256Spec demo_sha256.
Proof.
  intros m. unfold sha256, demo_sha256.
  rewrite length_app, length_be_bytes, length_take, length_app, length_replicate. lia.
Qed.

Definition mixing_sha256 : Sha256 := λ m,
  be_bytes 32 (foldl (λ acc c, N.land (acc * 257 + N_of_ascii c + 1) (N.ones 256)) 0%N m).

Lemma mixing_sha256_spec : @Sha256Spec mixing_sha256.
Proof. intros m. unfold sha256, mixing_sha256. by rewrite length_be_bytes. Qed.

(** ** [CanonicalDigest]

    The state of the hasher is the input absorbed so far. *)

Record CanonicalDigest := mkCanonicalDigest { hasher_input : bytes }.

Notation "d |>> f" := (f d) (at level 62, left associativity, only parsing).

(** [CanonicalDigest::bytes] *)
Definition digest_bytes (value : bytes) (d : CanonicalDigest) : CanonicalDigest :=
  mkCanonicalDigest (hasher_input d ++ be_bytes 8 (N.of_nat (length value)) ++ value).

(** [CanonicalDigest::new] *)
Definition digest_new (domain : string) : CanonicalDigest :=
  mkCanonicalDigest []
  |>> digest_bytes (str_bytes "mission-authority-canonical-v1")
  |>> digest_bytes (str_bytes domain).

(** [CanonicalDigest::string] *)
Definition digest_string (value : string) : CanonicalDigest → CanonicalDigest :=
  digest_bytes (str_bytes value).

(** [CanonicalDigest::bool] *)
Definition digest_bool (value : bool) : CanonicalDigest → CanonicalDigest :=
  digest_bytes [if value then "001"%char else "000"%char].

(** [CanonicalDigest::u8] *)
Definition digest_u8 (value : N) : CanonicalDigest → CanonicalDigest :=
  digest_bytes [ascii_of_N value].

(** [CanonicalDigest::u64] *)
Definition digest_u64 (value : N) : CanonicalDigest → CanonicalDigest :=
  digest_bytes (be_bytes 8 value).

(** [CanonicalDigest::i32]: two's complement. *)
Definition digest_i32 (value : Z) : CanonicalDigest → CanonicalDigest :=
  digest_bytes (be_bytes 4 (Z.to_N (value mod 2 ^ 32))).

(** [for x in xs { f(x) }] on a digest *)
Definition digest_each {A} (f : A → CanonicalDigest → CanonicalDigest) (xs : list A)
    (d : CanonicalDigest) : CanonicalDigest :=
  foldl (λ d x, f x d) d xs.

(** [CanonicalDigest::finish] *)
Definition digest_finish {H : Sha256} (d : CanonicalDigest) : string :=
  hex (sha256 (hasher_input d)).

(** ** The encoding is injective

    [digest_fields d fs] absorbs the fields [fs] in turn.  Every digest the
    code computes has this form, with a fixed number of fields or with the
    number of repeated fields written before them. *)

Definition digest_fields (d : CanonicalDigest) (fs : list bytes) : CanonicalDigest :=
  digest_each digest_bytes fs d.

(** A field whose length the eight-byte prefix represents.  A Rust slice is
    never longer than [isize::MAX] bytes. *)
Definition fits_u64 (b : bytes) : Prop := (N.of_nat (length b) < 256 ^ 8)%N.

Lemma digest_fields_cons d f fs :
  digest_fields d (f :: fs) = digest_fields (digest_bytes f d) fs.
Proof. reflexivity. Qed.

Lemma digest_bytes_fields d fs f :
  digest_bytes f (digest_fields d fs) = digest_fields d (fs ++ [f]).
Proof. unfold digest_fields, digest_each. by rewrite foldl_app. Qed.

Lemma digest_each_bytes {A} (g : A → bytes) (xs : list A) d :
  digest_each (λ x, digest_bytes (g x)) xs d = digest_fields d (g <$> xs).
Proof.
  unfold digest_fields, digest_each. revert d. induction xs as [|x xs IH]; intros d; cbn; auto.
Qed.

Lemma hasher_input_fields d fs :
  hasher_input (digest_fields d fs)
  = hasher_input d ++ (fs ≫= λ f, be_bytes 8 (N.of_nat (length f)) ++ f).
Proof.
  revert d. induction fs as [|f fs IH]; intros d; [by cbn; rewrite app_nil_r|].
  rewrite digest_fields_cons, IH. cbn [mbind list_bind digest_bytes hasher_input].
  by rewrite <- !app_assoc.
Qed.

Lemma frames_inj fs gs :
  Forall fits_u64 fs → Forall fits_u64 gs →
  (fs ≫= λ f, be_bytes 8 (N.of_nat (length f)) ++ f)
  = (gs ≫= λ f, be_bytes 8 (N.of_nat (length f)) ++ f) → fs = gs.
Proof.
  intros Hfs. revert gs. induction Hfs as [|f fs Hf Hfs IH]; intros gs Hgs Heq.
  { destruct gs as [|g gs]; [done|]. apply (f_equal length) in Heq.
    cbn [mbind list_bind length] in Heq. rewrite !length_app, length_be_bytes in Heq. lia. }
  destruct Hgs as [|g gs Hg Hgs].
  { apply (f_equal length) in Heq.
    cbn [mbind list_bind length] in Heq. rewrite !length_app, length_be_bytes in Heq. lia. }
  cbn [mbind list_bind] in Heq. rewrite <- !app_assoc in Heq.
  apply app_inj_1 in Heq as [Hlen Heq]; [|by rewrite !length_be_bytes].
  apply be_bytes_inj in Hlen; [|done..]. apply Nat2N.inj in Hlen.
  apply app_inj_1 in Heq as [-> Heq]; [|done]. f_equal. by apply IH.
Qed.

Lemma digest_fields_inj d fs gs :
  Forall fits_u64 fs → Forall fits_u64 gs →
  digest_fields d fs = digest_fields d gs → fs = gs.
Proof.
  intros Hfs Hgs Heq. apply frames_inj; [done..|].
  apply (f_equal hasher_input) in Heq. rewrite !hasher_input_fields in Heq.
  by apply app_inv_head in Heq.
Qed.

Lemma length_digest_finish `{Sha256Spec} d : str_len (digest_finish d) = 64%N.
Proof. unfold str_len, digest_finish. by rewrite length_hex, sha256_length. Qed.

Lemma digest_finish_hex {H : Sha256} d :
  forallb is_ascii_hexdigit (str_bytes (digest_finish d)) = true.
Proof. apply hex_is_hexdigit. Qed.

Lemma digest_finish_inj {H : Sha256} d d' :
  digest_finish d = digest_finish d' →
  hasher_input d = hasher_input d' ∨ clashes (hasher_input d) (hasher_input d').
Proof. intros Heq%hex_inj. by apply sha256_inj_or. Qed.

(** Equal digests of one domain were computed from the same fields, or their
    inputs clash. *)
Lemma digest_finish_fields_inj {H : Sha256} d fs gs :
  Forall fits_u64 fs → Forall fits_u64 gs →
  digest_finish (digest_fields d fs) = digest_finish (digest_fields d gs) →
  fs = gs ∨ clashes (hasher_input (digest_fields d fs)) (hasher_input (digest_fields d gs)).
Proof.
  intros Hfs Hgs [Heq|?]%digest_finish_inj; [left|by right].
  rewrite !hasher_input_fields in Heq. apply app_inv_head in Heq. by apply frames_inj.
Qed.
