(* ===== verification/Wire.v ===== *)
(** * The client protocol ([src/protocol/wire.rs])

    The messages between the server and its clients, the frames they travel
    in, a little-endian length and a payload, and the check of the client's
    version.  The encoding of a message, the crate [bincode], is the class
    [Bincode].  A stream that is read is the list of what its reads give. *)

From S2P Require Export Digest.
From stdpp Require Import pretty.

(** ** Constants *)

Definition PROTOCOL_VERSION : N := 16.
Definition MAX_FRAME_SIZE : N := 2 * 1024 * 1024.
Definition MAX_GRAPHICS_FRAME_SIZE : N := 32 * 1024 * 1024.
Definition MAX_CLIPBOARD_IMAGE_PAYLOAD : N := 16 * 1024 * 1024.
Definition LENGTH_PREFIX_BYTES : nat := 4.

(** ** Messages *)

Module RenderEncoding.
Inductive RenderEncoding := SemanticFrame | TerminalAnsi.
#[export] Instance eq_dec : EqDecision RenderEncoding.
Proof. solve_decision. Defined.
End RenderEncoding.
Export (hints) RenderEncoding.
Abbreviation RenderEncoding := RenderEncoding.RenderEncoding.

Module ClientKeybindings.
Inductive ClientKeybindings := Server | Local (keys_toml : string).
#[export] Instance eq_dec : EqDecision ClientKeybindings.
Proof. solve_decision. Defined.
End ClientKeybindings.
Export (hints) ClientKeybindings.
Abbreviation ClientKeybindings := ClientKeybindings.ClientKeybindings.

Module ClientLaunchMode.
Inductive ClientLaunchMode := App | TerminalAttach.
#[export] Instance eq_dec : EqDecision ClientLaunchMode.
Proof. solve_decision. Defined.
End ClientLaunchMode.
Export (hints) ClientLaunchMode.
Abbreviation ClientLaunchMode := ClientLaunchMode.ClientLaunchMode.

Module ClientKeyKind.
Inductive ClientKeyKind := Press | Repeat | Release.
#[export] Instance eq_dec : EqDecision ClientKeyKind.
Proof. solve_decision. Defined.
End ClientKeyKind.
Export (hints) ClientKeyKind.
Abbreviation ClientKeyKind := ClientKeyKind.ClientKeyKind.

(** A [char] is its code point. *)
Module ClientKeyCode.
Inductive ClientKeyCode :=
| Backspace | Enter | Left | Right | Up | Down | Home | End_ | PageUp | PageDown | Tab | BackTab
| Delete | Insert | Esc
| Char (c : N)
| F (n : N)
| Null.
#[export] Instance eq_dec : EqDecision ClientKeyCode.
Proof. solve_decision. Defined.
End ClientKeyCode.
Export (hints) ClientKeyCode.
Abbreviation ClientKeyCode := ClientKeyCode.ClientKeyCode.

Module ClientMouseButton.
Inductive ClientMouseButton := Left | Right | Middle.
#[export] Instance eq_dec : EqDecision ClientMouseButton.
Proof. solve_decision. Defined.
End ClientMouseButton.
Export (hints) ClientMouseButton.
Abbreviation ClientMouseButton := ClientMouseButton.ClientMouseButton.

Module ClientMouseKind.
Inductive ClientMouseKind :=
| Down (button : ClientMouseButton)
| Up (button : ClientMouseButton)
| Drag (button : ClientMouseButton)
| Moved | ScrollUp | ScrollDown | ScrollLeft | ScrollRight.
#[export] Instance eq_dec : EqDecision ClientMouseKind.
Proof. solve_decision. Defined.
End ClientMouseKind.
Export (hints) ClientMouseKind.
Abbreviation ClientMouseKind := ClientMouseKind.ClientMouseKind.

Module ClientInputEvent.
Inductive ClientInputEvent :=
| Key (code : ClientKeyCode) (modifiers : N) (kind : ClientKeyKind)
| Mouse (kind : ClientMouseKind) (column row modifiers : N)
| Paste (text : string)
| FocusGained
| FocusLost.
#[export] Instance eq_dec : EqDecision ClientInputEvent.
Proof. solve_decision. Defined.
End ClientInputEvent.
Export (hints) ClientInputEvent.
Abbreviation ClientInputEvent := ClientInputEvent.ClientInputEvent.

Module AttachScrollDirection.
Inductive AttachScrollDirection := Up | Down.
#[export] Instance eq_dec : EqDecision AttachScrollDirection.
Proof. solve_decision. Defined.
End AttachScrollDirection.
Export (hints) AttachScrollDirection.
Abbreviation AttachScrollDirection := AttachScrollDirection.AttachScrollDirection.

Module AttachScrollSource.
Inductive AttachScrollSource := Wheel | PageKey (input : bytes).
#[export] Instance eq_dec : EqDecision AttachScrollSource.
Proof. solve_decision. Defined.
End AttachScrollSource.
Export (hints) AttachScrollSource.
Abbreviation AttachScrollSource := AttachScrollSource.AttachScrollSource.

Module ClientMessage.
Inductive ClientMessage :=
| Hello (version cols rows cell_width_px cell_height_px : N)
    (requested_encoding : RenderEncoding) (keybindings : ClientKeybindings)
    (launch_mode : ClientLaunchMode)
| Input (data : bytes)
| ClipboardImage (extension : string) (data : bytes)
| Resize (cols rows cell_width_px cell_height_px : N)
| Detach
| AttachTerminal (terminal_id : string) (takeover : bool)
| AttachScroll (source : AttachScrollSource) (direction : AttachScrollDirection) (lines : N)
    (column row : option N) (modifiers : N)
| InputEvents (events : list ClientInputEvent)
| ObserveTerminal (target : string)
| ControlTerminal (target : string) (takeover : bool).
#[export] Instance eq_dec : EqDecision ClientMessage.
Proof. solve_decision. Defined.
End ClientMessage.
Export (hints) ClientMessage.
Abbreviation ClientMessage := ClientMessage.ClientMessage.

Record CellData := mkCellData {
  cell_symbol : string;
  cell_fg : N;
  cell_bg : N;
  cell_modifier : N;
  cell_skip : bool;
  cell_hyperlink : option N;
}.
#[export] Instance CellData_eq_dec : EqDecision CellData.
Proof. solve_decision. Defined.
#[export] Instance CellData_fields : Fields CellData := λ c,
  mkCellData (cell_symbol c) (cell_fg c) (cell_bg c) (cell_modifier c) (cell_skip c) (cell_hyperlink c).

Record CursorState := mkCursorState { cu_x : N; cu_y : N; cu_visible : bool; cu_shape : N }.
#[export] Instance CursorState_eq_dec : EqDecision CursorState.
Proof. solve_decision. Defined.

Record FrameData := mkFrameData {
  fd_cells : list CellData;
  fd_width : N;
  fd_height : N;
  fd_cursor : option CursorState;
  fd_hyperlinks : list string;
  fd_graphics : bytes;
}.
#[export] Instance FrameData_eq_dec : EqDecision FrameData.
Proof. solve_decision. Defined.
#[export] Instance FrameData_fields : Fields FrameData := λ f,
  mkFrameData (fd_cells f) (fd_width f) (fd_height f) (fd_cursor f) (fd_hyperlinks f) (fd_graphics f).

Record TerminalFrame := mkTerminalFrame {
  tf_seq : N;
  tf_width : N;
  tf_height : N;
  tf_full : bool;
  tf_bytes : bytes;
}.
#[export] Instance TerminalFrame_eq_dec : EqDecision TerminalFrame.
Proof. solve_decision. Defined.

Module NotifyKind.
Inductive NotifyKind := Sound | Toast | SystemToast.
#[export] Instance eq_dec : EqDecision NotifyKind.
Proof. solve_decision. Defined.
End NotifyKind.
Export (hints) NotifyKind.
Abbreviation NotifyKind := NotifyKind.NotifyKind.

Module ServerMessage.
Inductive ServerMessage :=
| Welcome (version : N) (encoding : RenderEncoding) (error : option string)
| Frame (frame : FrameData)
| Terminal (frame : TerminalFrame)
| Graphics (data : bytes)
| ServerShutdown (reason : option string)
| Notify (kind : NotifyKind) (message : string) (body : option string)
| Clipboard (data : string)
| WindowTitle (title : option string)
| ReloadSoundConfig
| MouseCapture (enabled : bool)
| PrefixInputSource (active : bool).
#[export] Instance eq_dec : EqDecision ServerMessage.
Proof. solve_decision. Defined.
End ServerMessage.
Export (hints) ServerMessage.
Abbreviation ServerMessage := ServerMessage.ServerMessage.

(** ** Colours and modifiers *)

(** The colours of [ratatui], as the source matches them *)
Module Color.
Inductive Color :=
| Reset | Black | Red | Green | Yellow | Blue | Magenta | Cyan | Gray | DarkGray | LightRed
| LightGreen | LightYellow | LightBlue | LightMagenta | LightCyan | White
| Indexed (i : N)
| Rgb (r g b : N).
#[export] Instance eq_dec : EqDecision Color.
Proof. solve_decision. Defined.
End Color.
Export (hints) Color.
Abbreviation Color := Color.Color.

Definition color_to_u32 (color : Color) : N :=
  match color with
  | Color.Reset => 0
  | Color.Black => 1
  | Color.Red => 2
  | Color.Green => 3
  | Color.Yellow => 4
  | Color.Blue => 5
  | Color.Magenta => 6
  | Color.Cyan => 7
  | Color.Gray => 8
  | Color.DarkGray => 9
  | Color.LightRed => 10
  | Color.LightGreen => 11
  | Color.LightYellow => 12
  | Color.LightBlue => 13
  | Color.LightMagenta => 14
  | Color.LightCyan => 15
  | Color.White => 16
  | Color.Indexed i => N.lor 0x01000000 i
  | Color.Rgb r g b =>
      N.lor (N.lor (N.lor 0x02000000 (N.shiftl r 16)) (N.shiftl g 8)) b
  end.

Definition u32_to_color (val : N) : Color :=
  match N.shiftr val 24 with
  | 0x00 =>
      match N.land val 0xFF with
      | 0 => Color.Reset
      | 1 => Color.Black
      | 2 => Color.Red
      | 3 => Color.Green
      | 4 => Color.Yellow
      | 5 => Color.Blue
      | 6 => Color.Magenta
      | 7 => Color.Cyan
      | 8 => Color.Gray
      | 9 => Color.DarkGray
      | 10 => Color.LightRed
      | 11 => Color.LightGreen
      | 12 => Color.LightYellow
      | 13 => Color.LightBlue
      | 14 => Color.LightMagenta
      | 15 => Color.LightCyan
      | 16 => Color.White
      | _ => Color.Reset
      end
  | 0x01 => Color.Indexed (N.land val 0xFF)
  | 0x02 =>
      Color.Rgb (N.land (N.shiftr val 16) 0xFF) (N.land (N.shiftr val 8) 0xFF) (N.land val 0xFF)
  | _ => Color.Reset
  end%N.

Definition UNDERLINE_STYLE_SHIFT : N := 12.
Definition UNDERLINE_STYLE_MASK : N := 0xF000.

(** [as u8] keeps the low byte. *)
Definition underline_style_from_modifier (modifier : N) : N :=
  N.land (N.shiftr (N.land modifier UNDERLINE_STYLE_MASK) UNDERLINE_STYLE_SHIFT) 0xFF.

(** The shift stays within sixteen bits: the style is cut to four. *)
Definition modifier_with_underline_style (modifier underline_style : N) : N :=
  N.lor modifier (N.shiftl (N.land underline_style 0x0F) UNDERLINE_STYLE_SHIFT).

(** ** Frames *)

Module FramingError.
Inductive FramingError :=
| Oversized (claimed max : N)
| Io
| Bincode
| UnexpectedEof.
#[export] Instance eq_dec : EqDecision FramingError.
Proof. solve_decision. Defined.
End FramingError.
Export (hints) FramingError.
Abbreviation FramingError := FramingError.FramingError.

(** What one call of [Read::read] finds: bytes, of which it takes as many as
    its buffer holds, an interruption, or a failure.  The end of the list is
    the end of the stream. *)
Module ReadEvent.
Inductive ReadEvent := Chunk (b : bytes) | Interrupted | Failed.
End ReadEvent.
Abbreviation ReadEvent := ReadEvent.ReadEvent.

(** [u32::to_le_bytes], [u32::from_le_bytes] *)
Definition le_bytes (w : nat) (n : N) : bytes := reverse (be_bytes w n).
Definition le_value (b : bytes) : N := be_value (reverse b).

(** [Read::read_exact], and the errors [read_exact_or_eof] makes of its own:
    an interruption is retried, a read of nothing is the end. *)
Fixpoint read_exact_or_eof (need : nat) (reader : list ReadEvent) :
    list ReadEvent * result FramingError bytes :=
  match need, reader with
  | O, _ => (reader, Ok [])
  | _, [] => ([], Err FramingError.UnexpectedEof)
  | _, ReadEvent.Interrupted :: reader => read_exact_or_eof need reader
  | _, ReadEvent.Failed :: reader => (reader, Err FramingError.Io)
  | _, ReadEvent.Chunk b :: reader =>
      if bool_decide (b = []) then (reader, Err FramingError.UnexpectedEof)
      else if bool_decide (need < length b) then
        (ReadEvent.Chunk (drop need b) :: reader, Ok (take need b))
      else
        match read_exact_or_eof (need - length b) reader with
        | (reader, Ok rest) => (reader, Ok (b ++ rest))
        | (reader, Err e) => (reader, Err e)
        end
  end.

Class Bincode (M : Type) := {
  encode_to_vec : M → option bytes;
  decode_from_slice : bytes → option (M * N);
}.
(** Decoding gives back what was encoded, and says how much it read. *)
Class BincodeSpec (M : Type) `{Bincode M} : Prop :=
  bincode_roundtrip m b rest :
    encode_to_vec m = Some b → decode_from_slice (b ++ rest) = Some (m, N.of_nat (length b)).

Section framing.
Context {M : Type} `{HBin : Bincode M}.

(** [write_message] to a writer that accepts [accepted] bytes before it
    fails, or all of them: what was written, and the result *)
Definition write_message (accepted : option nat) (msg : M) : bytes * result FramingError unit :=
  match encode_to_vec msg with
  | None => ([], Err FramingError.Bincode)
  | Some payload =>
      let len := N.of_nat (length payload) in
      if (u32_max <? len)%N then ([], Err FramingError.Bincode)
      else
        let frame := le_bytes LENGTH_PREFIX_BYTES len ++ payload in
        match accepted with
        | None => (frame, Ok tt)
        | Some n => (take n frame, Err FramingError.Io)
        end
  end.

(** [read_message] *)
Definition read_message (reader : list ReadEvent) (max_frame_size : N) :
    list ReadEvent * result FramingError M :=
  match read_exact_or_eof LENGTH_PREFIX_BYTES reader with
  | (reader, Err e) => (reader, Err e)
  | (reader, Ok len_buf) =>
      let claimed_len := le_value len_buf in
      if (max_frame_size <? claimed_len)%N
      then (reader, Err (FramingError.Oversized claimed_len max_frame_size))
      else
        match read_exact_or_eof (N.to_nat claimed_len) reader with
        | (reader, Err e) => (reader, Err e)
        | (reader, Ok payload) =>
            (reader,
             match decode_from_slice payload with
             | None => Err FramingError.Bincode
             | Some (msg, consumed) =>
                 if (consumed =? claimed_len)%N then Ok msg else Err FramingError.Bincode
             end)
        end
  end.

(** [HeadlessServer::frame_server_message_with_max]: a frame in memory *)
Definition frame_server_message_with_max (msg : M) (max_frame_size : N) : result FramingError bytes :=
  let '(framed, written) := write_message None msg in
  _ ← written;
  let payload_len := (N.of_nat (length framed) - 4)%N in
  _ ← reject_if (max_frame_size <? payload_len)%N (FramingError.Oversized payload_len max_frame_size);
  Ok framed.
End framing.

(** ** Version negotiation *)

Module VersionCheck.
Inductive VersionCheck := Compatible | Incompatible (reason : string).
#[export] Instance eq_dec : EqDecision VersionCheck.
Proof. solve_decision. Defined.
End VersionCheck.
Export (hints) VersionCheck.
Abbreviation VersionCheck := VersionCheck.VersionCheck.

Definition check_client_version (client_version : N) : VersionCheck :=
  if (client_version =? 0)%N then
    VersionCheck.Incompatible "pre-persistence client (version 0) is not supported"
  else if (client_version =? PROTOCOL_VERSION)%N then VersionCheck.Compatible
  else if (client_version <? PROTOCOL_VERSION)%N then
    VersionCheck.Incompatible
      ("client version " +:+ pretty client_version +:+ " is older than server version "
       +:+ pretty PROTOCOL_VERSION +:+ "; please upgrade your nagi client")
  else
    VersionCheck.Incompatible
      ("client version " +:+ pretty client_version +:+ " is newer than server version "
       +:+ pretty PROTOCOL_VERSION +:+ "; please upgrade the nagi server").

(** ** Frames of a buffer *)

(** A cell of [ratatui]'s buffer *)
Record BufferCell := mkBufferCell {
  bc_symbol : string;
  bc_fg : Color;
  bc_bg : Color;
  bc_modifier : N;
  bc_skip : bool;
}.

(** The hyperlinks seen so far: the list of their targets; the index of a
    target, which the code keeps in a map, is its place in the list. *)
Definition intern_hyperlink (uris : list string) (uri : string) : list string * N :=
  match list_find (λ u, u = uri) uris with
  | Some (index, _) => (uris, N.of_nat index)
  | None => (uris ++ [uri], N.of_nat (length uris))
  end.

(** The target of a position, when its symbol is still the linked one *)
Definition hyperlink_at (links : gmap (N * N) (string * string)) (col row : N) (symbol : string) :
    option string :=
  link ← links !! (col, row);
  if bool_decide (link.1 = symbol) then Some link.2 else None.

Definition frame_cell (links : gmap (N * N) (string * string)) (cell : N → N → BufferCell)
    (s : list string * list CellData) (at_ : N * N) : list string * list CellData :=
  let '(col, row) := at_ in
  let c := cell col row in
  let '(uris, hyperlink) :=
    match hyperlink_at links col row (bc_symbol c) with
    | Some uri => let '(uris, index) := intern_hyperlink s.1 uri in (uris, Some index)
    | None => (s.1, None)
    end in
  (uris, s.2 ++ [{| cell_symbol := bc_symbol c;
                    cell_fg := color_to_u32 (bc_fg c);
                    cell_bg := color_to_u32 (bc_bg c);
                    cell_modifier := bc_modifier c;
                    cell_skip := bc_skip c;
                    cell_hyperlink := hyperlink |}]).

(** The positions in row-major order *)
Definition range (n : N) : list N := N.of_nat <$> seq 0 (N.to_nat n).
Definition positions (width height : N) : list (N * N) :=
  row ← range height; (λ col, (col, row)) <$> range width.

(** [FrameData::from_ratatui_buffer_with_hyperlinks] *)
Definition from_ratatui_buffer_with_hyperlinks (width height : N) (cell : N → N → BufferCell)
    (cursor : option CursorState) (hyperlinks : list (N * N * string * string)) : FrameData :=
  let links := collect_map ((λ h, (h.1.1, (h.1.2, h.2))) <$> hyperlinks) in
  let '(uris, cells) := foldl (frame_cell links cell) ([], []) (positions width height) in
  {| fd_cells := cells;
     fd_width := width;
     fd_height := height;
     fd_cursor := cursor;
     fd_hyperlinks := uris;
     fd_graphics := [] |}.


(** ** Reading is independent of how the bytes arrive *)

(** The bytes a reader still gives, and readers that neither fail nor end
    before them *)
Definition stream_bytes (reader : list ReadEvent) : bytes :=
  reader ≫= λ e, match e with ReadEvent.Chunk b => b | _ => [] end.
Definition reliable (reader : list ReadEvent) : Prop :=
  Forall (λ e, match e with
               | ReadEvent.Chunk b => b ≠ []
               | ReadEvent.Interrupted => True
               | ReadEvent.Failed => False
               end) reader.

Lemma read_exact_ok need reader :
  reliable reader → need ≤ length (stream_bytes reader) →
  ∃ reader', read_exact_or_eof need reader = (reader', Ok (take need (stream_bytes reader)))
    ∧ stream_bytes reader' = drop need (stream_bytes reader) ∧ reliable reader'.
Proof.
  intros Hrel. revert need. induction Hrel as [|e reader He Hrel IH]; intros need Hlen.
  { cbn in Hlen. assert (need = 0) as -> by lia. exists []. by repeat constructor. }
  destruct need as [|need]; [exists (e :: reader); by repeat constructor|].
  destruct e as [b| |]; [|by apply (IH (S need))|done].
  cbn [read_exact_or_eof]. rewrite bool_decide_false by done.
  cbn [stream_bytes mbind list_bind] in Hlen |- *. fold (stream_bytes reader) in Hlen |- *.
  rewrite length_app in Hlen. case_bool_decide as Hb.
  - exists (ReadEvent.Chunk (drop (S need) b) :: reader).
    rewrite take_app_le, drop_app_le by lia. split_and!; [done..|].
    constructor; [|done]. intros Hd%(f_equal length). rewrite length_drop in Hd. cbn in Hd. lia.
  - destruct (IH (S need - length b)) as (reader' & Hread & Hs & Hr); [lia|].
    exists reader'. by rewrite Hread, take_app_ge, drop_app_ge by lia.
Qed.

Lemma read_exact_eof need reader :
  reliable reader → length (stream_bytes reader) < need →
  read_exact_or_eof need reader = ([], Err FramingError.UnexpectedEof).
Proof.
  intros Hrel. revert need. induction Hrel as [|e reader He Hrel IH]; intros need Hlen.
  { by destruct need; [cbn in Hlen; lia|]. }
  destruct need as [|need]; [lia|]. destruct e as [b| |]; [|by apply (IH (S need))|done].
  cbn [read_exact_or_eof]. rewrite bool_decide_false by done.
  cbn [stream_bytes mbind list_bind] in Hlen. fold (stream_bytes reader) in Hlen.
  rewrite length_app in Hlen. rewrite bool_decide_false by lia. by rewrite IH by lia.
Qed.

Section framing_lemmas.
Context {M : Type} `{HBin : Bincode M}.

(** What a message on a byte string is: the bytes after it, and the message
    or the error *)
Definition parse_frame (b : bytes) (max_frame_size : N) : bytes * result FramingError M :=
  if bool_decide (length b < LENGTH_PREFIX_BYTES) then ([], Err FramingError.UnexpectedEof)
  else
    let claimed_len := le_value (take LENGTH_PREFIX_BYTES b) in
    let rest := drop LENGTH_PREFIX_BYTES b in
    if (max_frame_size <? claimed_len)%N
    then (rest, Err (FramingError.Oversized claimed_len max_frame_size))
    else if (N.of_nat (length rest) <? claimed_len)%N then ([], Err FramingError.UnexpectedEof)
    else
      (drop (N.to_nat claimed_len) rest,
       match decode_from_slice (take (N.to_nat claimed_len) rest) with
       | Some (msg, consumed) =>
           if (consumed =? claimed_len)%N then Ok msg else Err FramingError.Bincode
       | None => Err FramingError.Bincode
       end).

Lemma read_message_spec reader max_frame_size :
  reliable reader →
  ∃ reader', read_message reader max_frame_size
             = (reader', (parse_frame (stream_bytes reader) max_frame_size).2)
    ∧ stream_bytes reader' = (parse_frame (stream_bytes reader) max_frame_size).1
    ∧ reliable reader'.
Proof.
  intros Hrel. unfold read_message, parse_frame. case_bool_decide as Hlen.
  { rewrite read_exact_eof by done. exists []. by repeat constructor. }
  destruct (read_exact_ok LENGTH_PREFIX_BYTES reader) as (r1 & -> & Hs1 & Hr1); [done|lia|].
  cbv zeta. destruct (N.ltb_spec max_frame_size (le_value (take LENGTH_PREFIX_BYTES (stream_bytes reader)))).
  { by exists r1. }
  rewrite <- Hs1.
  destruct (N.ltb_spec (N.of_nat (length (stream_bytes r1)))
              (le_value (take LENGTH_PREFIX_BYTES (stream_bytes reader)))) as [Hshort|Hshort].
  { rewrite read_exact_eof by (done || lia). exists []. by repeat constructor. }
  destruct (read_exact_ok (N.to_nat (le_value (take LENGTH_PREFIX_BYTES (stream_bytes reader)))) r1)
    as (r2 & -> & Hs2 & Hr2); [done|lia|by exists r2].
Qed.

(** However the bytes of a stream arrive, in pieces and with interruptions,
    reading a message gives what the byte string says and leaves the rest. *)
Theorem read_message_any_chunking (reader reader' : list ReadEvent) (max_frame_size : N)
    (Hrel : reliable reader) (Hrel' : reliable reader')
    (Hsame : stream_bytes reader = stream_bytes reader') :
  (read_message reader max_frame_size).2 = (parse_frame (stream_bytes reader) max_frame_size).2
  ∧ (read_message reader max_frame_size).2 = (read_message reader' max_frame_size).2
  ∧ stream_bytes (read_message reader max_frame_size).1
    = stream_bytes (read_message reader' max_frame_size).1.
Proof.
  destruct (read_message_spec reader max_frame_size Hrel) as (r & -> & Hs & _).
  destruct (read_message_spec reader' max_frame_size Hrel') as (r' & -> & Hs' & _).
  cbn [fst snd]. by rewrite Hs, Hs', Hsame.
Qed.
End framing_lemmas.

Lemma length_le_bytes w n : length (le_bytes w n) = w.
Proof. unfold le_bytes. by rewrite length_reverse, length_be_bytes. Qed.

Lemma le_bytes_roundtrip w n : (n < 256 ^ N.of_nat w)%N → le_value (le_bytes w n) = n.
Proof. intros. unfold le_value, le_bytes. by rewrite reverse_involutive, be_bytes_roundtrip. Qed.

Section framing_roundtrip.
Context {M : Type} `{HBin : Bincode M} `{!BincodeSpec M}.

Lemma frame_ok msg max_frame_size framed :
  frame_server_message_with_max msg max_frame_size = Ok framed →
  ∃ payload, encode_to_vec msg = Some payload
    ∧ (N.of_nat (length payload) ≤ u32_max)%N ∧ (N.of_nat (length payload) ≤ max_frame_size)%N
    ∧ framed = le_bytes LENGTH_PREFIX_BYTES (N.of_nat (length payload)) ++ payload.
Proof.
  unfold frame_server_message_with_max, write_message.
  destruct (encode_to_vec msg) as [payload|] eqn:Henc; [|done]. cbv zeta.
  destruct (N.ltb_spec u32_max (N.of_nat (length payload))); [done|]. cbn [mbind result_bind].
  intros H0. inv_ok. exists payload. rewrite length_app, length_le_bytes in *.
  unfold LENGTH_PREFIX_BYTES in *. split_and!; [done..| |done]. lia.
Qed.

Lemma frame_iff msg max_frame_size :
  (∃ framed, frame_server_message_with_max msg max_frame_size = Ok framed)
  ↔ ∃ payload, encode_to_vec msg = Some payload
      ∧ (N.of_nat (length payload) ≤ u32_max)%N ∧ (N.of_nat (length payload) ≤ max_frame_size)%N.
Proof.
  split; [intros [framed (payload & ? & ? & ? & _)%frame_ok]; by exists payload|].
  intros (payload & Henc & Hu32 & Hmax).
  unfold frame_server_message_with_max, write_message. rewrite Henc. cbv zeta.
  rewrite (proj2 (N.ltb_ge _ _) Hu32). cbn [mbind result_bind].
  rewrite length_app, length_le_bytes. unfold LENGTH_PREFIX_BYTES.
  rewrite (proj2 (N.ltb_ge _ _)) by lia. eexists. reflexivity.
Qed.

Lemma parse_oversized payload max_frame_size :
  (max_frame_size < N.of_nat (length payload) ≤ u32_max)%N →
  parse_frame (le_bytes LENGTH_PREFIX_BYTES (N.of_nat (length payload)) ++ payload) max_frame_size
  = (payload, Err (FramingError.Oversized (N.of_nat (length payload)) max_frame_size)).
Proof.
  intros [Hmax Hu32]. unfold parse_frame.
  rewrite bool_decide_false by (rewrite length_app, length_le_bytes; lia).
  rewrite take_app_length', drop_app_length' by (symmetry; apply length_le_bytes). cbv zeta.
  rewrite le_bytes_roundtrip by (unfold u32_max, LENGTH_PREFIX_BYTES in *; lia).
  by rewrite (proj2 (N.ltb_lt _ _)).
Qed.

Lemma parse_frame_of_frame msg max_frame_size framed rest :
  frame_server_message_with_max msg max_frame_size = Ok framed →
  parse_frame (framed ++ rest) max_frame_size = (rest, Ok msg).
Proof.
  intros (payload & Henc & Hu32 & Hmax & ->)%frame_ok. unfold parse_frame.
  rewrite <- app_assoc, bool_decide_false
    by (rewrite length_app, length_le_bytes; lia).
  rewrite take_app_length', drop_app_length' by (symmetry; apply length_le_bytes). cbv zeta.
  rewrite le_bytes_roundtrip by (unfold u32_max, LENGTH_PREFIX_BYTES in *; lia).
  rewrite (proj2 (N.ltb_ge _ _)) by done.
  rewrite (proj2 (N.ltb_ge _ _)) by (rewrite length_app; lia). rewrite Nat2N.id.
  rewrite take_app_length, drop_app_length.
  rewrite <- (app_nil_r payload) at 1. rewrite (bincode_roundtrip msg payload [] Henc).
  by rewrite N.eqb_refl.
Qed.

(** Reading [n] messages one after the other, until one fails *)
Fixpoint read_messages (n : nat) (reader : list ReadEvent) (max_frame_size : N) :
    list ReadEvent * result FramingError (list M) :=
  match n with
  | O => (reader, Ok [])
  | S n =>
      match read_message reader max_frame_size with
      | (reader, Err e) => (reader, Err e)
      | (reader, Ok msg) =>
          let '(reader, r) := read_messages n reader max_frame_size in (reader, cons msg <$> r)
      end
  end.

Lemma read_messages_frames msgs frames rest reader max_frame_size :
  Forall2 (λ msg framed, frame_server_message_with_max msg max_frame_size = Ok framed) msgs frames →
  reliable reader → stream_bytes reader = concat frames ++ rest →
  ∃ reader', read_messages (length msgs) reader max_frame_size = (reader', Ok msgs)
    ∧ stream_bytes reader' = rest ∧ reliable reader'.
Proof.
  intros Hall. revert reader. induction Hall as [|msg framed msgs frames Hmsg Hall IH];
    intros reader Hrel Hs; cbn [length read_messages concat] in *; [by exists reader|].
  destruct (read_message_spec reader max_frame_size Hrel) as (r & -> & Hs1 & Hr1).
  rewrite Hs, <- app_assoc, (parse_frame_of_frame msg) in Hs1 |- * by done. cbn in Hs1 |- *.
  destruct (IH r Hr1 Hs1) as (r2 & -> & Hs2 & Hr2). by exists r2.
Qed.
End framing_roundtrip.

(** C25: Messages that were framed one after the other are read in their order, in
    whatever pieces the bytes arrive, and the bytes after them are left.  A
    message is framed exactly when its encoding is within the limits, and a
    reader with a lower limit refuses it before it reads the payload. *)
Theorem framed_messages_are_read {M : Type} `{HBin : Bincode M} `{!BincodeSpec M}
    (msgs : list M) (frames : list bytes) (rest : bytes) (reader : list ReadEvent) (max_frame_size : N)
    (Hframes : Forall2 (λ msg framed, frame_server_message_with_max msg max_frame_size = Ok framed)
                 msgs frames)
    (Hrel : reliable reader) (Harrive : stream_bytes reader = concat frames ++ rest) :
  (∃ reader', read_messages (length msgs) reader max_frame_size = (reader', Ok msgs)
    ∧ stream_bytes reader' = rest)
  ∧ (∀ msg, (∃ framed, frame_server_message_with_max msg max_frame_size = Ok framed)
      ↔ ∃ payload, encode_to_vec msg = Some payload
          ∧ (N.of_nat (length payload) ≤ u32_max)%N ∧ (N.of_nat (length payload) ≤ max_frame_size)%N)
  ∧ (∀ payload smaller r,
      (smaller < N.of_nat (length payload) ≤ u32_max)%N → reliable r →
      stream_bytes r = le_bytes LENGTH_PREFIX_BYTES (N.of_nat (length payload)) ++ payload →
      (read_message (M := M) r smaller).2
      = Err (FramingError.Oversized (N.of_nat (length payload)) smaller)
      ∧ stream_bytes (read_message (M := M) r smaller).1 = payload).
Proof.
  split_and!.
  - destruct (read_messages_frames msgs frames rest reader max_frame_size)
      as (reader' & ? & ? & _); [done..|by exists reader'].
  - intros msg. apply frame_iff.
  - intros payload smaller r Hlen Hr Hs.
    destruct (read_message_spec (M := M) r smaller Hr) as (r' & -> & Hs' & _).
    cbn [fst snd]. by rewrite Hs', Hs, parse_oversized.
Qed.

(** ** Frames of a buffer, read back *)

(** What the frame says of a position: its cell as it is in the buffer, and a
    link exactly where the position has one for its symbol *)
Definition cell_shows (links : gmap (N * N) (string * string)) (cell : N → N → BufferCell)
    (uris : list string) (at_ : N * N) (c : CellData) : Prop :=
  let b := cell at_.1 at_.2 in
  cell_symbol c = bc_symbol b ∧ cell_fg c = color_to_u32 (bc_fg b)
  ∧ cell_bg c = color_to_u32 (bc_bg b) ∧ cell_modifier c = bc_modifier b ∧ cell_skip c = bc_skip b
  ∧ match cell_hyperlink c with
    | Some i => hyperlink_at links at_.1 at_.2 (bc_symbol b) = uris !! N.to_nat i
                ∧ N.to_nat i < length uris
    | None => hyperlink_at links at_.1 at_.2 (bc_symbol b) = None
    end.

Lemma intern_hyperlink_spec uris uri uris' i :
  NoDup uris → intern_hyperlink uris uri = (uris', i) →
  NoDup uris' ∧ uris `prefix_of` uris' ∧ length uris' ≤ S (length uris)
  ∧ uris' !! N.to_nat i = Some uri.
Proof.
  intros Hnd. unfold intern_hyperlink. destruct (list_find _ uris) as [[k u]|] eqn:Hfind.
  - apply list_find_Some in Hfind as (Hk & -> & _). intros [= <- <-]. rewrite Nat2N.id.
    split_and!; [done..|lia|done].
  - apply list_find_None in Hfind. intros [= <- <-]. rewrite Nat2N.id. split_and!.
    + apply NoDup_app. split_and!; [done| |apply NoDup_singleton].
      intros u Hu ->%list_elem_of_singleton. rewrite Forall_forall in Hfind. by apply (Hfind uri).
    + by apply prefix_app_r.
    + rewrite length_app. cbn. lia.
    + by rewrite lookup_app_r, Nat.sub_diag by lia.
Qed.

Lemma cell_shows_mono links cell uris uris' at_ c :
  uris `prefix_of` uris' → cell_shows links cell uris at_ c → cell_shows links cell uris' at_ c.
Proof.
  intros [k ->] (?&?&?&?&?&Hlink). unfold cell_shows. split_and!; [done..|].
  destruct (cell_hyperlink c) as [i|]; [|done]. destruct Hlink as [-> Hi].
  rewrite length_app, lookup_app_l by done. split; [done|lia].
Qed.

Lemma frame_cells_spec links cell ps uris cells :
  foldl (frame_cell links cell) ([], []) ps = (uris, cells) →
  NoDup uris ∧ length uris ≤ length ps ∧ Forall2 (cell_shows links cell uris) ps cells.
Proof.
  revert uris cells. induction ps as [|at_ ps IH] using rev_ind; intros uris cells.
  { intros [= <- <-]. split_and!; [constructor|done|constructor]. }
  rewrite foldl_app. cbn [foldl].
  destruct (foldl (frame_cell links cell) ([], []) ps) as [uris0 cells0].
  destruct (IH uris0 cells0 eq_refl) as (Hnd & Hlen & Hcells). destruct at_ as [col row].
  unfold frame_cell. cbn [fst snd].
  destruct (hyperlink_at links col row (bc_symbol (cell col row))) as [uri|] eqn:Hlink.
  - destruct (intern_hyperlink uris0 uri) as [uris1 i] eqn:Hint. intros [= <- <-].
    apply intern_hyperlink_spec in Hint as (Hnd1 & Hpre & Hlen1 & Hi); [|done].
    split_and!; [done|rewrite length_app; cbn; lia|].
    apply Forall2_app; [by eapply Forall2_impl; [done|intros; by eapply cell_shows_mono]|].
    repeat constructor; cbn. by rewrite Hlink, Hi. by eapply lookup_lt_Some.
  - intros [= <- <-]. rewrite length_app. cbn. split_and!; [done|lia|].
    apply Forall2_app; [done|]. by repeat constructor.
Qed.

Lemma length_range n : length (range n) = N.to_nat n.
Proof. unfold range. by rewrite length_fmap, length_seq. Qed.

Lemma lookup_range n i : (i < n)%N → range n !! N.to_nat i = Some i.
Proof.
  intros Hi. unfold range. rewrite list_lookup_fmap, lookup_seq_lt by lia. cbn. by rewrite N2Nat.id.
Qed.

(** The element of row [r] and column [c] of rows of one length *)
Lemma lookup_bind_rows {A B} (f : A → list B) w (rows : list A) r c a :
  (∀ a, length (f a) = w) → c < w → rows !! r = Some a →
  (rows ≫= f) !! (r * w + c) = f a !! c.
Proof.
  intros Hw Hc. revert r. induction rows as [|x rows IH]; intros [|r] Hr; try done; cbn in Hr.
  - injection Hr as ->. cbn [mbind list_bind]. by rewrite lookup_app_l by (rewrite Hw; lia).
  - cbn [mbind list_bind]. rewrite lookup_app_r by (rewrite Hw; lia). rewrite Hw, <- (IH r Hr).
    f_equal. lia.
Qed.

Lemma length_bind_rows {A B} (f : A → list B) w (rows : list A) :
  (∀ a, length (f a) = w) → length (rows ≫= f) = length rows * w.
Proof.
  intros Hw. induction rows as [|a rows IH]; [done|]. cbn [mbind list_bind length].
  by rewrite length_app, IH, Hw.
Qed.

Lemma length_row_positions w (row : N) : length ((λ col : N, (col, row)) <$> range w) = N.to_nat w.
Proof. by rewrite length_fmap, length_range. Qed.

Lemma lookup_positions w h col row :
  (col < w)%N → (row < h)%N →
  positions w h !! (N.to_nat row * N.to_nat w + N.to_nat col) = Some (col, row).
Proof.
  intros Hc Hr. unfold positions.
  rewrite (lookup_bind_rows _ (N.to_nat w) _ _ _ row)
    by (try apply lookup_range; try apply length_row_positions; lia).
  by rewrite list_lookup_fmap, lookup_range.
Qed.

Lemma length_positions w h : length (positions w h) = N.to_nat h * N.to_nat w.
Proof.
  unfold positions. rewrite (length_bind_rows _ (N.to_nat w)) by (intros; apply length_row_positions).
  by rewrite length_range.
Qed.

(** A frame has a cell for every position of its buffer, in row-major order,
    as it is there; a position is linked to the target that was given for it
    when its symbol is still the linked one, and no target is sent twice. *)
Theorem frame_of_buffer (width height : N) (cell : N → N → BufferCell) (cursor : option CursorState)
    (hyperlinks : list (N * N * string * string)) :
  let f := from_ratatui_buffer_with_hyperlinks width height cell cursor hyperlinks in
  let links := collect_map ((λ h, (h.1.1, (h.1.2, h.2))) <$> hyperlinks) in
  fd_width f = width ∧ fd_height f = height ∧ fd_cursor f = cursor ∧ fd_graphics f = []
  ∧ length (fd_cells f) = N.to_nat height * N.to_nat width
  ∧ NoDup (fd_hyperlinks f) ∧ length (fd_hyperlinks f) ≤ length (fd_cells f)
  ∧ ∀ col row, (col < width)%N → (row < height)%N → ∃ c,
      fd_cells f !! (N.to_nat row * N.to_nat width + N.to_nat col) = Some c
      ∧ cell_symbol c = bc_symbol (cell col row)
      ∧ cell_fg c = color_to_u32 (bc_fg (cell col row))
      ∧ cell_bg c = color_to_u32 (bc_bg (cell col row))
      ∧ cell_modifier c = bc_modifier (cell col row)
      ∧ cell_skip c = bc_skip (cell col row)
      ∧ (i ← cell_hyperlink c; fd_hyperlinks f !! N.to_nat i)
        = hyperlink_at links col row (bc_symbol (cell col row)).
Proof.
  intros f links. subst f. unfold from_ratatui_buffer_with_hyperlinks. fold links.
  destruct (foldl (frame_cell links cell) ([], []) (positions width height)) as [uris cells] eqn:Hf.
  apply frame_cells_spec in Hf as (Hnd & Hlen & Hcells). cbn.
  pose proof (Forall2_length _ _ _ Hcells) as Hl. rewrite <- Hl, length_positions in *.
  split_and!; [done..|]. intros col row Hc Hr.
  destruct (Forall2_lookup_l _ _ _ _ _ Hcells (lookup_positions _ _ _ _ Hc Hr))
    as (c & Hat & ?&?&?&?&?&Hlink).
  exists c. split_and!; [done..|]. destruct (cell_hyperlink c) as [i|]; cbn; [by destruct Hlink|done].
Qed.

(** ** Colours travel without loss *)

Definition valid_color (c : Color) : Prop :=
  match c with
  | Color.Indexed i => (i < 256)%N
  | Color.Rgb r g b => (r < 256)%N ∧ (g < 256)%N ∧ (b < 256)%N
  | _ => True
  end.

Lemma lor_shiftl x k b : (b < 2 ^ k)%N → N.lor (N.shiftl x k) b = (x * 2 ^ k + b)%N.
Proof.
  intros Hb. rewrite <- N.shiftl_mul_pow2.
  assert (Hland : N.land (N.shiftl x k) b = 0%N).
  { apply N.bits_inj. intros n. rewrite N.land_spec, N.bits_0.
    destruct (N.ltb_spec n k); [by rewrite N.shiftl_spec_low|].
    rewrite <- (N.mod_small b (2 ^ k)) by done. by rewrite N.mod_pow2_bits_high, andb_false_r. }
  by rewrite N.add_nocarry_lxor, N.lxor_lor.
Qed.

Lemma rgb_value r g b :
  (g < 256)%N → (b < 256)%N → (r < 256)%N →
  color_to_u32 (Color.Rgb r g b) = (2 * 2 ^ 24 + r * 2 ^ 16 + g * 2 ^ 8 + b)%N.
Proof.
  intros Hg Hb Hr. cbn [color_to_u32]. change 0x02000000%N with (N.shiftl 2 24).
  rewrite <- !N.lor_assoc.
  rewrite (lor_shiftl g), (lor_shiftl r), (lor_shiftl 2); lia.
Qed.

Lemma indexed_value i : (i < 256)%N → color_to_u32 (Color.Indexed i) = (2 ^ 24 + i)%N.
Proof.
  intros Hi. cbn [color_to_u32]. change 0x01000000%N with (N.shiftl 1 24). rewrite lor_shiftl; lia.
Qed.

Ltac div_lia := zify; Z.to_euclidean_division_equations; lia.

(** A colour is sent in 32 bits and read back as the colour it was. *)
Theorem color_round_trip (c : Color) (Hvalid : valid_color c) :
  u32_to_color (color_to_u32 c) = c ∧ (color_to_u32 c ≤ u32_max)%N.
Proof.
  destruct c as [| | | | | | | | | | | | | | | | |i|r g b]; try by (split; [|done]).
  - cbn in Hvalid. rewrite indexed_value by done. unfold u32_to_color, u32_max.
    rewrite N.shiftr_div_pow2. replace ((2 ^ 24 + i) / 2 ^ 24)%N with 1%N by div_lia.
    change 0xFF%N with (N.ones 8). rewrite N.land_ones. split; [f_equal; div_lia|lia].
  - destruct Hvalid as (Hr & Hg & Hb). rewrite rgb_value by done. unfold u32_to_color, u32_max.
    rewrite !N.shiftr_div_pow2.
    replace ((2 * 2 ^ 24 + r * 2 ^ 16 + g * 2 ^ 8 + b) / 2 ^ 24)%N with 2%N by div_lia.
    change 0xFF%N with (N.ones 8). rewrite !N.land_ones. split; [f_equal; div_lia|lia].
Qed.

Example color_round_trip_witness :
  u32_to_color (color_to_u32 (Color.Rgb 1 2 255)) = Color.Rgb 1 2 255
  ∧ (color_to_u32 (Color.Rgb 1 2 255) ≤ u32_max)%N.
Proof. apply color_round_trip. repeat split. Defined.

(** ** The theorems at work *)

Module WireDemo.

(** A codec of booleans *)
#[local] Instance bool_bincode : Bincode bool := {
  encode_to_vec b := Some [Ascii b false false false false false false false];
  decode_from_slice bs := match bs with
                          | Ascii b false false false false false false false :: _ => Some (b, 1%N)
                          | _ => None
                          end;
}.

#[local] Instance bool_bincode_spec : BincodeSpec bool.
Proof. intros m b rest [= <-]. done. Qed.

Definition true_frame : bytes := le_bytes 4 1 ++ ["001"%char].
Definition false_frame : bytes := le_bytes 4 1 ++ ["000"%char].

(** Two frames and a byte of a third, byte after byte with an interruption *)
Definition slow_reader : list ReadEvent :=
  ReadEvent.Interrupted
    :: ((λ c, ReadEvent.Chunk [c]) <$> (true_frame ++ false_frame ++ ["007"%char])).
Definition one_chunk : list ReadEvent :=
  [ReadEvent.Chunk (true_frame ++ false_frame ++ ["007"%char])].

Example framed_messages_are_read_witness :
  ∃ reader', read_messages 2 slow_reader 16 = (reader', Ok [true; false])
    ∧ stream_bytes reader' = ["007"%char].
Proof.
  refine (proj1 (framed_messages_are_read [true; false] [true_frame; false_frame] ["007"%char]
    slow_reader 16 _ _ _)).
  - repeat constructor.
  - repeat constructor; discriminate.
  - reflexivity.
Defined.

Example read_message_any_chunking_witness :
  (read_message (M := bool) slow_reader 16).2
  = (read_message (M := bool) one_chunk 16).2.
Proof.
  refine (proj1 (proj2 (read_message_any_chunking slow_reader one_chunk 16 _ _ _))).
  - repeat constructor; discriminate.
  - repeat constructor; discriminate.
  - reflexivity.
Defined.

(** A payload that decodes to a message before its end is refused. *)
Example trailing_bytes :
  read_message (M := bool) [ReadEvent.Chunk (le_bytes 4 2 ++ ["001"; "001"]%char)] 16
  = ([], Err FramingError.Bincode).
Proof. reflexivity. Qed.
End WireDemo.
