(* ===== verification/Blit.v ===== *)
(** * Incremental rendering ([src/protocol/render_ansi.rs])

    A frame becomes the escape sequences that turn what the terminal shows
    into it.  What is written is a list of operations, each with its bytes;
    the display width of a symbol, the crate [unicode_width], is the class
    [SymbolWidth].  Indexing a cell outside the frame panics. *)

From S2P Require Export Wire.
From stdpp Require Import pretty.

Definition REVERSED_MODIFIER : N := 2 ^ 6.

Class SymbolWidth := symbol_width : string → nat.

(** ** What is written *)

Module Op.
Inductive Op :=
| BeginSync | EndSync
| HideCursor | ShowCursor
| CloseLink
| OpenLink (uri : string)
| Clear
| Home
| MoveTo (row col : N)
| Sgr (sequence : string)
| Shape (shape : N)
| Symbol (symbol : string)
| Graphics (data : bytes).
End Op.
Abbreviation Op := Op.Op.

Definition ESC : string := String "027" "".

(** The bytes of an operation; [MoveTo] takes zero-based positions. *)
Definition op_string (op : Op) : string :=
  match op with
  | Op.BeginSync => ESC +:+ "[?2026h"
  | Op.EndSync => ESC +:+ "[?2026l"
  | Op.HideCursor => ESC +:+ "[?25l"
  | Op.ShowCursor => ESC +:+ "[?25h"
  | Op.CloseLink => ESC +:+ "]8;;" +:+ ESC +:+ "\"
  | Op.OpenLink uri => ESC +:+ "]8;;" +:+ uri +:+ ESC +:+ "\"
  | Op.Clear => ESC +:+ "[2J"
  | Op.Home => ESC +:+ "[H"
  | Op.MoveTo row col => ESC +:+ "[" +:+ pretty (row + 1)%N +:+ ";" +:+ pretty (col + 1)%N +:+ "H"
  | Op.Sgr sequence => sequence
  | Op.Shape shape => ESC +:+ "[" +:+ pretty shape +:+ " q"
  | Op.Symbol symbol => symbol
  | Op.Graphics data => str_of_bytes data
  end.
Definition ops_bytes (ops : list Op) : bytes := ops ≫= λ op, str_bytes (op_string op).

(** ** Styles *)

Definition color_to_sgr_fg (val : N) : string :=
  match N.shiftr val 24 with
  | 0 =>
      match N.land val 0xFF with
      | 0 => "39" | 1 => "30" | 2 => "31" | 3 => "32" | 4 => "33" | 5 => "34" | 6 => "35"
      | 7 => "36" | 8 => "37" | 9 => "90" | 10 => "91" | 11 => "92" | 12 => "93" | 13 => "94"
      | 14 => "95" | 15 => "96" | 16 => "97"
      | _ => "39"
      end
  | 1 => "38;5;" +:+ pretty (N.land val 0xFF)
  | 2 =>
      "38;2;" +:+ pretty (N.land (N.shiftr val 16) 0xFF) +:+ ";"
      +:+ pretty (N.land (N.shiftr val 8) 0xFF) +:+ ";" +:+ pretty (N.land val 0xFF)
  | _ => "39"
  end%N.

Definition color_to_sgr_bg (val : N) : string :=
  match N.shiftr val 24 with
  | 0 =>
      match N.land val 0xFF with
      | 0 => "49" | 1 => "40" | 2 => "41" | 3 => "42" | 4 => "43" | 5 => "44" | 6 => "45"
      | 7 => "46" | 8 => "47" | 9 => "100" | 10 => "101" | 11 => "102" | 12 => "103" | 13 => "104"
      | 14 => "105" | 15 => "106" | 16 => "107"
      | _ => "49"
      end
  | 1 => "48;5;" +:+ pretty (N.land val 0xFF)
  | 2 =>
      "48;2;" +:+ pretty (N.land (N.shiftr val 16) 0xFF) +:+ ";"
      +:+ pretty (N.land (N.shiftr val 8) 0xFF) +:+ ";" +:+ pretty (N.land val 0xFF)
  | _ => "49"
  end%N.

Definition modifier_to_sgr_parts (val : N) : list string :=
  let has (bit : N) (part : string) : list string :=
    if (N.land val (2 ^ bit) =? 0)%N then [] else [part] in
  has 0%N "1" ++ has 1%N "2" ++ has 2%N "3"
  ++ has 3%N (match underline_style_from_modifier val with
              | 2 => "4:2" | 3 => "4:3" | 4 => "4:4" | 5 => "4:5" | _ => "4"
              end%N)
  ++ has 4%N "5" ++ has 5%N "6" ++ has 6%N "7" ++ has 7%N "8" ++ has 8%N "9".

Definition build_sgr (fg bg modifier : N) : string :=
  ESC +:+ "["
  +:+ str_join ";" ("0" :: modifier_to_sgr_parts modifier ++ [color_to_sgr_fg fg; color_to_sgr_bg bg])
  +:+ "m".

Definition SGR_RESET : string := ESC +:+ "[0m".

(** ** Hyperlinks *)

(** The characters of a UTF-8 string, as strings: [filter] keeps characters
    whole.  Escape and bell are control characters too. *)
Fixpoint split_chars (bs : list ascii) : list (list ascii) :=
  match bs with
  | [] => []
  | b0 :: r0 =>
      let n := N_of_ascii b0 in
      (if n <? 128 then [b0] :: split_chars r0
       else if n <? 224 then
         match r0 with
         | b1 :: r1 => [b0; b1] :: split_chars r1
         | [] => [[b0]]
         end
       else if n <? 240 then
         match r0 with
         | b1 :: b2 :: r2 => [b0; b1; b2] :: split_chars r2
         | _ => [b0 :: r0]
         end
       else
         match r0 with
         | b1 :: b2 :: b3 :: r3 => [b0; b1; b2; b3] :: split_chars r3
         | _ => [b0 :: r0]
         end)%N
  end.

Definition keeps_char (ch : list ascii) : bool :=
  forallb (λ c, negb (c =? 0x1b)%N && negb (c =? 0x07)%N && negb (is_control c))
    (utf8_decode (N_of_ascii <$> ch)).

Definition sanitized_hyperlink_uri (uri : string) : option string :=
  let sanitized := str_of_bytes (concat (List.filter keeps_char (split_chars (str_bytes uri)))) in
  if str_is_empty sanitized then None else Some sanitized.

Definition sanitized_frame_hyperlinks (frame : FrameData) : list (option string) :=
  sanitized_hyperlink_uri <$> fd_hyperlinks frame.

Definition sanitized_cell_hyperlink_uri (sanitized : list (option string)) (cell : CellData) :
    option string :=
  index ← cell_hyperlink cell;
  uri ← sanitized !! N.to_nat index;
  uri.

Definition cell_hyperlink_uri (frame : FrameData) (cell : CellData) : option string :=
  index ← cell_hyperlink cell;
  fd_hyperlinks frame !! N.to_nat index.

Definition write_hyperlink_if_changed (active requested : option string) : list Op * option string :=
  let requested := uri ← requested; sanitized_hyperlink_uri uri in
  if bool_decide (active = requested) then ([], active)
  else
    ((match active with Some _ => [Op.CloseLink] | None => [] end)
     ++ (match requested with Some uri => [Op.OpenLink uri] | None => [] end),
     requested).

Definition close_hyperlink (active : option string) : list Op :=
  match active with Some _ => [Op.CloseLink] | None => [] end.

(** ** Cells *)

Module RenderPanic.
Inductive RenderPanic := IndexOutOfBounds.
End RenderPanic.
Abbreviation RenderPanic := RenderPanic.RenderPanic.

Definition cell_index (frame : FrameData) (row col : N) : nat :=
  N.to_nat (row * fd_width frame + col).
Definition index_cell (cells : list CellData) (idx : nat) : result RenderPanic CellData :=
  ok_or (cells !! idx) RenderPanic.IndexOutOfBounds.

Section encoder.
Context `{HWidth : SymbolWidth}.

Definition cell_width (cell : CellData) : nat := symbol_width (cell_symbol cell).

(** What was written, and the hyperlink that is open; [to_skip] is of a row *)
Record WriteAll := mkWriteAll { wa_ops : list Op; wa_active : option string; wa_to_skip : nat }.

Definition write_all_cell (frame : FrameData) (row : N) (s : WriteAll) (col : N) :
    result RenderPanic WriteAll :=
  if bool_decide (0 < wa_to_skip s)
  then Ok (mkWriteAll (wa_ops s) (wa_active s) (wa_to_skip s - 1))
  else
    cell ← index_cell (fd_cells frame) (cell_index frame row col);
    if cell_skip cell then Ok s
    else
      let '(link_ops, active) :=
        write_hyperlink_if_changed (wa_active s) (cell_hyperlink_uri frame cell) in
      Ok (mkWriteAll
            (wa_ops s ++ [Op.MoveTo row col; Op.Sgr (build_sgr (cell_fg cell) (cell_bg cell) (cell_modifier cell))]
             ++ link_ops ++ [Op.Symbol (cell_symbol cell)])
            active (cell_width cell - 1)).

Definition write_all_row (frame : FrameData) (s : WriteAll) (row : N) : result RenderPanic WriteAll :=
  try_fold (write_all_cell frame row) (mkWriteAll (wa_ops s) (wa_active s) 0) (range (fd_width frame)).

Definition write_all_cells (frame : FrameData) : result RenderPanic (list Op) :=
  s ← try_fold (write_all_row frame) (mkWriteAll [] None 0) (range (fd_height frame));
  Ok (wa_ops s ++ close_hyperlink (wa_active s) ++ [Op.Sgr SGR_RESET]).

Definition write_cell (row col : N) (cell : CellData) (last_sgr : string) (active : option string)
    (frame : FrameData) : list Op * string * option string :=
  if cell_skip cell then ([], last_sgr, active)
  else
    let sgr := build_sgr (cell_fg cell) (cell_bg cell) (cell_modifier cell) in
    let '(link_ops, active) := write_hyperlink_if_changed active (cell_hyperlink_uri frame cell) in
    ([Op.MoveTo row col] ++ (if bool_decide (sgr = last_sgr) then [] else [Op.Sgr sgr])
     ++ link_ops ++ [Op.Symbol (cell_symbol cell)], sgr, active).

Definition cells_visually_equal (sanitized : list (option string)) (cell : CellData)
    (prev_sanitized : list (option string)) (prev_cell : CellData) : bool :=
  bool_decide (cell_symbol cell = cell_symbol prev_cell)
  && (cell_fg cell =? cell_fg prev_cell)%N
  && (cell_bg cell =? cell_bg prev_cell)%N
  && (cell_modifier cell =? cell_modifier prev_cell)%N
  && bool_decide (sanitized_cell_hyperlink_uri sanitized cell
                  = sanitized_cell_hyperlink_uri prev_sanitized prev_cell).

Record WriteChanged := mkWriteChanged {
  wc_ops : list Op;
  wc_last_sgr : string;
  wc_active : option string;
  wc_invalidated : nat;
  wc_to_skip : nat;
}.

Definition write_changed_cell (frame prev : FrameData) (row : N) (s : WriteChanged) (col : N) :
    result RenderPanic WriteChanged :=
  let idx := cell_index frame row col in
  cell ← index_cell (fd_cells frame) idx;
  prev_cell ← index_cell (fd_cells prev) idx;
  let changed :=
    negb (cell_skip cell)
    && (negb (cells_visually_equal (sanitized_frame_hyperlinks frame) cell
                (sanitized_frame_hyperlinks prev) prev_cell)
        || bool_decide (0 < wc_invalidated s))
    && bool_decide (wc_to_skip s = 0) in
  let '(ops, last_sgr, active) :=
    if changed then write_cell row col cell (wc_last_sgr s) (wc_active s) frame
    else ([], wc_last_sgr s, wc_active s) in
  let affected_width := Nat.max (cell_width cell) (cell_width prev_cell) in
  Ok (mkWriteChanged (wc_ops s ++ ops) last_sgr active
        (Nat.max affected_width (wc_invalidated s) - 1) (cell_width cell - 1)).

Definition write_changed_row (frame prev : FrameData) (s : WriteChanged) (row : N) :
    result RenderPanic WriteChanged :=
  try_fold (write_changed_cell frame prev row)
    (mkWriteChanged (wc_ops s) (wc_last_sgr s) (wc_active s) 0 0) (range (fd_width frame)).

Definition write_changed_cells (frame prev : FrameData) : result RenderPanic (list Op) :=
  s ← try_fold (write_changed_row frame prev) (mkWriteChanged [] "" None 0 0) (range (fd_height frame));
  Ok (wc_ops s ++ close_hyperlink (wc_active s)
      ++ if str_is_empty (wc_last_sgr s) then [] else [Op.Sgr SGR_RESET]).

(** ** The cursor *)

Record HostCursorState := mkHostCursorState { hc_position : N * N; hc_visible : bool; hc_shape : N }.

Definition clamp_cursor_position (frame : FrameData) (x y : N) : N * N :=
  (N.min x (saturating_sub (fd_width frame) 1), N.min y (saturating_sub (fd_height frame) 1)).
Definition default_hidden_cursor_position (frame : FrameData) : N * N :=
  (saturating_sub (fd_width frame) 1, saturating_sub (fd_height frame) 1).
Definition normalize_cursor_shape (shape : N) : N := if (shape <=? 6)%N then shape else 0.

Definition resolve_host_cursor_state (frame : FrameData) (last_visible_cursor : option (N * N)) :
    HostCursorState * option (N * N) :=
  match fd_cursor frame with
  | Some cursor =>
      let position := clamp_cursor_position frame (cu_x cursor) (cu_y cursor) in
      let state := mkHostCursorState position (cu_visible cursor) (normalize_cursor_shape (cu_shape cursor)) in
      (state, if cu_visible cursor then Some position else last_visible_cursor)
  | None =>
      let position :=
        match last_visible_cursor with
        | Some (x, y) => clamp_cursor_position frame x y
        | None => default_hidden_cursor_position frame
        end in
      (mkHostCursorState position false 0, last_visible_cursor)
  end.

Definition write_cursor_position (position : N * N) : list Op := [Op.MoveTo position.2 position.1].

Definition write_host_cursor_state (cursor : HostCursorState) (last_shape : N) : list Op * N :=
  (write_cursor_position (hc_position cursor)
   ++ (if (hc_shape cursor =? last_shape)%N then [] else [Op.Shape (hc_shape cursor)])
   ++ [if hc_visible cursor then Op.ShowCursor else Op.HideCursor],
   hc_shape cursor).

Definition write_ime_anchor_cursor_state (cursor : HostCursorState) : list Op :=
  write_cursor_position (hc_position cursor)
  ++ [if hc_visible cursor then Op.ShowCursor else Op.HideCursor].

(** ** Frames *)

Definition same_size (p frame : FrameData) : bool :=
  (fd_width p =? fd_width frame)%N && (fd_height p =? fd_height frame)%N.

(** [blit_frame_to_with_cursor_memory_and_policy]: what is written, and the
    next memory of the cursor; [repeat_ime_anchor] is of the platform. *)
Definition blit_frame (frame : FrameData) (prev : option FrameData) (last_visible_cursor : option (N * N))
    (last_cursor_shape : N) (repeat_ime_anchor suppress_visible_cursor : bool) :
    result RenderPanic (list Op * option (N * N) * N) :=
  cells ←
    (match prev with
     | Some p =>
         if same_size p frame then write_changed_cells frame p
         else cells ← write_all_cells frame; Ok ([Op.Clear; Op.Home] ++ cells)
     | None => cells ← write_all_cells frame; Ok ([Op.Clear; Op.Home] ++ cells)
     end);
  let '(host_cursor, last_visible_cursor) := resolve_host_cursor_state frame last_visible_cursor in
  let host_cursor :=
    if suppress_visible_cursor && hc_visible host_cursor
    then mkHostCursorState (hc_position host_cursor) false (hc_shape host_cursor) else host_cursor in
  let '(cursor_ops, last_cursor_shape) := write_host_cursor_state host_cursor last_cursor_shape in
  Ok ([Op.BeginSync; Op.HideCursor; Op.CloseLink] ++ cells ++ cursor_ops ++ [Op.EndSync]
      ++ (if repeat_ime_anchor then write_ime_anchor_cursor_state host_cursor else []),
      last_visible_cursor, last_cursor_shape).

Record EncodedBlit := mkEncodedBlit {
  eb_bytes : bytes;
  eb_full : bool;
  eb_next_last_visible_cursor : option (N * N);
  eb_next_last_cursor_shape : N;
}.
#[export] Instance EncodedBlit_fields : Fields EncodedBlit := λ e,
  mkEncodedBlit (eb_bytes e) (eb_full e) (eb_next_last_visible_cursor e) (eb_next_last_cursor_shape e).

Record BlitEncoder := mkBlitEncoder {
  be_last_frame : option FrameData;
  be_last_visible_cursor : option (N * N);
  be_last_cursor_shape : N;
}.

Definition BlitEncoder_new : BlitEncoder := mkBlitEncoder None None 0.

Definition encode_inner (repeat_ime_anchor : bool) (e : BlitEncoder) (frame : FrameData)
    (force_full suppress_visible_cursor : bool) : result RenderPanic EncodedBlit :=
  let prev := if force_full then None else be_last_frame e in
  let full := force_full || match prev with Some p => negb (same_size p frame) | None => true end in
  '(ops, next_visible, next_shape) ←
    blit_frame frame prev (be_last_visible_cursor e) (be_last_cursor_shape e) repeat_ime_anchor
      suppress_visible_cursor;
  Ok (mkEncodedBlit (ops_bytes ops) full next_visible next_shape).

Definition encode (repeat_ime_anchor : bool) (e : BlitEncoder) (frame : FrameData) (force_full : bool) :
    result RenderPanic EncodedBlit :=
  encode_inner repeat_ime_anchor e frame force_full false.

Definition encode_with_suppressed_visible_cursor (repeat_ime_anchor : bool) (e : BlitEncoder)
    (frame : FrameData) (force_full : bool) : result RenderPanic EncodedBlit :=
  encode_inner repeat_ime_anchor e frame force_full true.

Definition encoder_commit (frame : FrameData) (encoded : EncodedBlit) : BlitEncoder :=
  mkBlitEncoder (Some frame) (eb_next_last_visible_cursor encoded) (eb_next_last_cursor_shape encoded).

Definition encoder_is_current (e : BlitEncoder) (frame : FrameData) : bool :=
  bool_decide (be_last_frame e = Some frame).
End encoder.

Definition frame_with_drawn_cursor (frame : FrameData) : FrameData :=
  match fd_cursor frame with
  | Some cursor =>
      if cu_visible cursor then
        let '(x, y) := clamp_cursor_position frame (cu_x cursor) (cu_y cursor) in
        let idx := cell_index frame y x in
        frame <| fd_cells ::= alter (λ c, c <| cell_modifier ::= λ m, N.lxor m REVERSED_MODIFIER |>) idx |>
      else frame
  | None => frame
  end.

(** ** What a terminal makes of it

    A position holds a symbol with its style and link, the right half of a
    wide symbol, or nothing.  Writing over one half of a wide symbol erases
    the other.  A style sequence begins with a reset, so it is the style. *)

Module Content.
Inductive Content :=
| Blank
| Glyph (symbol style : string) (link : option string)
| Trail.
#[export] Instance eq_dec : EqDecision Content.
Proof. solve_decision. Defined.
End Content.
Export (hints) Content.
Abbreviation Content := Content.Content.

Record Terminal := mkTerminal {
  t_grid : N → N → Content;
  t_pen : string;
  t_link : option string;
  t_cursor : N * N;
  t_shown : bool;
  t_shape : N;
}.
#[export] Instance Terminal_fields : Fields Terminal := λ t,
  mkTerminal (t_grid t) (t_pen t) (t_link t) (t_cursor t) (t_shown t) (t_shape t).

Definition place (row : N → Content) (c : N) (w : nat) (g : Content) : N → Content := λ x,
  (if x =? c then g
   else if (c <? x) && (x <? c + N.of_nat w) then Content.Trail
   else if (x =? c + N.of_nat w) && bool_decide (row x = Content.Trail) then Content.Blank
   else if (x + 1 =? c) && bool_decide (row c = Content.Trail) then Content.Blank
   else row x)%N.

Section terminal.
Context `{HWidth : SymbolWidth}.

Definition print_symbol (t : Terminal) (s : string) : Terminal :=
  if bool_decide (symbol_width s = 0) then t
  else
    let '(row, col) := t_cursor t in
    t <| t_grid ::= λ g r, if (r =? row)%N
                           then place (g r) col (symbol_width s) (Content.Glyph s (t_pen t) (t_link t))
                           else g r |>
      <| t_cursor := (row, col + N.of_nat (symbol_width s))%N |>.

Definition apply_op (t : Terminal) (op : Op) : Terminal :=
  match op with
  | Op.BeginSync | Op.EndSync | Op.Graphics _ => t
  | Op.HideCursor => t <| t_shown := false |>
  | Op.ShowCursor => t <| t_shown := true |>
  | Op.CloseLink => t <| t_link := None |>
  | Op.OpenLink uri => t <| t_link := Some uri |>
  | Op.Clear => t <| t_grid := λ _ _, Content.Blank |>
  | Op.Home => t <| t_cursor := (0, 0)%N |>
  | Op.MoveTo row col => t <| t_cursor := (row, col) |>
  | Op.Sgr sequence => t <| t_pen := sequence |>
  | Op.Shape shape => t <| t_shape := shape |>
  | Op.Symbol s => print_symbol t s
  end.

Definition run (t : Terminal) (ops : list Op) : Terminal := foldl apply_op t ops.

Lemma run_app t ops ops' : run t (ops ++ ops') = run (run t ops) ops'.
Proof. apply foldl_app. Qed.

(** A loop over a range that never panics, by an invariant *)
Lemma try_fold_range {E T} (P : N → T → Prop) (f : T → N → result E T) s w :
  P 0%N s →
  (∀ n s, (n < w)%N → P n s → ∃ s', f s n = Ok s' ∧ P (n + 1)%N s') →
  ∃ s', try_fold f s (range w) = Ok s' ∧ P w s'.
Proof.
  intros H0 Hstep.
  assert (Hk : ∀ k, k ≤ N.to_nat w →
    ∃ s', try_fold f s (N.of_nat <$> seq 0 k) = Ok s' ∧ P (N.of_nat k) s').
  { induction k as [|k IH]; intros Hk; [by exists s|].
    destruct IH as (s' & Hf & HP); [lia|].
    destruct (Hstep (N.of_nat k) s') as (s'' & Hf' & HP'); [lia|done|].
    exists s''. rewrite seq_S, fmap_app. cbn [fmap list_fmap Nat.add].
    split; [by apply try_fold_snoc_ok; exists s'|].
    by replace (N.of_nat (S k)) with (N.of_nat k + 1)%N by lia. }
  unfold range. destruct (Hk (N.to_nat w)) as (s' & Hf & HP); [lia|].
  rewrite N2Nat.id in HP. by exists s'.
Qed.

(** ** Frames as the terminal shows them *)

Definition no_cell : CellData := mkCellData "" 0 0 0 false None.
Definition cell_at (f : FrameData) (row col : N) : CellData :=
  default no_cell (fd_cells f !! cell_index f row col).
Definition cell_link (f : FrameData) (c : CellData) : option string :=
  uri ← cell_hyperlink_uri f c; sanitized_hyperlink_uri uri.
Definition cell_glyph (f : FrameData) (c : CellData) : Content :=
  Content.Glyph (cell_symbol c) (build_sgr (cell_fg c) (cell_bg c) (cell_modifier c)) (cell_link f c).
Definition width_at (f : FrameData) (row col : N) : nat := cell_width (cell_at f row col).

(** The cells that a wide symbol before the column covers *)
Definition covered (f : FrameData) (row col : N) : nat :=
  if (col =? 0)%N then 0 else width_at f row (col - 1) - 1.

(** What a position shows *)
Definition target (f : FrameData) (row col : N) : Content :=
  if bool_decide (0 < covered f row col) then Content.Trail else cell_glyph f (cell_at f row col).

(** A frame has a cell for every position, none of them to be skipped; a
    symbol takes one or two columns, a wide one is followed by a cell that is
    not wide, and an empty one is only behind a wide one. *)
Record frame_ok (f : FrameData) : Prop := mk_frame_ok {
  fo_cells : length (fd_cells f) = N.to_nat (fd_width f * fd_height f);
  fo_skip : ∀ row col, (row < fd_height f)%N → (col < fd_width f)%N → cell_skip (cell_at f row col) = false;
  fo_width : ∀ row col, (row < fd_height f)%N → (col < fd_width f)%N → width_at f row col ≤ 2;
  fo_wide : ∀ row col, (row < fd_height f)%N → (col < fd_width f)%N → width_at f row col = 2 →
    (col + 1 < fd_width f)%N ∧ width_at f row (col + 1) ≤ 1;
  fo_empty : ∀ row col, (row < fd_height f)%N → (col < fd_width f)%N → width_at f row col = 0 →
    0 < covered f row col;
}.

(** The terminal shows a frame. *)
Definition shows (t : Terminal) (f : FrameData) : Prop :=
  ∀ row col, (row < fd_height f)%N → (col < fd_width f)%N → t_grid t row col = target f row col.

Lemma index_cell_ok f row col :
  frame_ok f → (row < fd_height f)%N → (col < fd_width f)%N →
  index_cell (fd_cells f) (cell_index f row col) = Ok (cell_at f row col).
Proof.
  intros Hok Hr Hc. unfold index_cell, cell_at.
  destruct (lookup_lt_is_Some_2 (fd_cells f) (cell_index f row col)) as [c ->]; [|done].
  rewrite (fo_cells f Hok). unfold cell_index.
  enough (row * fd_width f + col < fd_width f * fd_height f)%N by lia. nia.
Qed.

Lemma covered_next f row col : covered f row (col + 1) = width_at f row col - 1.
Proof.
  unfold covered. destruct (N.eqb_spec (col + 1) 0); [lia|]. by replace (col + 1 - 1)%N with col by lia.
Qed.

(** Behind a wide symbol is the last position it covers. *)
Lemma covered_wide f row col :
  frame_ok f → (row < fd_height f)%N → (col < fd_width f)%N → 0 < covered f row col →
  covered f row col = 1 ∧ width_at f row col - 1 = 0.
Proof.
  intros Hok Hr Hc. unfold covered. destruct (N.eqb_spec col 0); [lia|]. intros Hcov.
  pose proof (fo_width f Hok row (col - 1)). 
  destruct (fo_wide f Hok row (col - 1)) as [_ Hle]; [done|lia|lia|].
  replace (col - 1 + 1)%N with col in Hle by lia. lia.
Qed.

Lemma lead_width f row col :
  frame_ok f → (row < fd_height f)%N → (col < fd_width f)%N → covered f row col = 0 →
  1 ≤ width_at f row col ≤ 2.
Proof.
  intros Hok Hr Hc Hcov. pose proof (fo_width f Hok row col Hr Hc).
  pose proof (fo_empty f Hok row col Hr Hc). lia.
Qed.

Lemma target_lead f row col : covered f row col = 0 → target f row col = cell_glyph f (cell_at f row col).
Proof. unfold target. by intros ->. Qed.
Lemma target_trail f row col : 0 < covered f row col → target f row col = Content.Trail.
Proof. intros. unfold target. by rewrite bool_decide_true. Qed.

(** ** Writing one cell *)

Lemma run_link_ops t requested ops active :
  write_hyperlink_if_changed (t_link t) requested = (ops, active) →
  active = (uri ← requested; sanitized_hyperlink_uri uri) ∧ run t ops = t <| t_link := active |>.
Proof.
  unfold write_hyperlink_if_changed. set (req := mbind _ _). case_bool_decide as Heq.
  - intros [= <- <-]. split; [done|]. by destruct t.
  - intros [= <- <-]. split; [done|]. destruct t as [g p l c s sh]. cbn in *.
    destruct l, req; done.
Qed.

(** Moving to a cell, setting its style and link and writing its symbol
    puts its glyph there. *)
Lemma run_cell t (f : FrameData) row col cell sgr_ops link_ops active :
  run (t <| t_cursor := (row, col) |>) sgr_ops
  = t <| t_cursor := (row, col) |>
      <| t_pen := build_sgr (cell_fg cell) (cell_bg cell) (cell_modifier cell) |> →
  write_hyperlink_if_changed (t_link t) (cell_hyperlink_uri f cell) = (link_ops, active) →
  cell_width cell ≠ 0 →
  let t' := run t ([Op.MoveTo row col] ++ sgr_ops ++ link_ops ++ [Op.Symbol (cell_symbol cell)]) in
  t_link t' = active ∧ t_pen t' = build_sgr (cell_fg cell) (cell_bg cell) (cell_modifier cell)
  ∧ t_shown t' = t_shown t ∧ t_shape t' = t_shape t
  ∧ t_grid t' = λ r, if (r =? row)%N
                     then place (t_grid t r) col (cell_width cell) (cell_glyph f cell) else t_grid t r.
Proof.
  intros Hsgr Hlink Hw. cbv zeta. rewrite run_app. change (run t [Op.MoveTo row col])
    with (t <| t_cursor := (row, col) |>).
  rewrite run_app, Hsgr, run_app.
  set (t1 := (t <| t_cursor := (row, col) |>) <| t_pen := _ |>) in *.
  destruct (run_link_ops t1 (cell_hyperlink_uri f cell) link_ops active) as [-> ->]; [exact Hlink|].
  cbn [run foldl apply_op]. unfold print_symbol, cell_width in *.
  rewrite bool_decide_false by done. cbn. by split_and!.
Qed.
(** ** A full redraw *)

(** The columns before [col] of a row are written, the others erased. *)
Definition row_written (f : FrameData) (row col : N) (g : N → Content) : Prop :=
  (∀ x, (x < col)%N → g x = target f row x)
  ∧ ∀ x, (col ≤ x)%N → g x = if bool_decide (0 < covered f row col ∧ x = col) then Content.Trail
                              else Content.Blank.

Lemma place_before g c w gl x :
  (x < c)%N → (x + 1)%N ≠ c ∨ g c ≠ Content.Trail → place g c w gl x = g x.
Proof.
  intros Hx Hor. unfold place.
  rewrite (proj2 (N.eqb_neq x c)), (proj2 (N.ltb_ge c x)), (proj2 (N.eqb_neq x (c + N.of_nat w))) by lia.
  cbn. destruct (N.eqb_spec (x + 1) c); [|done]. rewrite bool_decide_false; [done|]. by destruct Hor.
Qed.

Lemma place_after g c w gl x :
  0 < w → (c + N.of_nat w ≤ x)%N → x ≠ (c + N.of_nat w)%N ∨ g x ≠ Content.Trail →
  place g c w gl x = g x.
Proof.
  intros Hw Hx Hor. unfold place.
  rewrite (proj2 (N.eqb_neq x c)), (proj2 (N.ltb_ge x (c + N.of_nat w))), (proj2 (N.eqb_neq (x + 1) c)) by lia.
  rewrite andb_false_r. destruct (N.eqb_spec x (c + N.of_nat w)); [|done].
  rewrite bool_decide_false; [done|]. by destruct Hor.
Qed.

Lemma place_here g c w gl : place g c w gl c = gl.
Proof. unfold place. by rewrite N.eqb_refl. Qed.

Lemma place_trail g c w gl x : (c < x < c + N.of_nat w)%N → place g c w gl x = Content.Trail.
Proof.
  intros Hx. unfold place. destruct (N.eqb_spec x c); [lia|].
  by destruct (N.ltb_spec c x), (N.ltb_spec x (c + N.of_nat w)); try lia.
Qed.

Definition all_inv (t0 : Terminal) (f : FrameData) (row col : N) (s : WriteAll) : Prop :=
  let t := run t0 (wa_ops s) in
  t_shape t = t_shape t0 ∧ t_link t = wa_active s ∧ wa_to_skip s = covered f row col
  ∧ (∀ r x, (r < row)%N → (x < fd_width f)%N → t_grid t r x = target f r x)
  ∧ row_written f row col (t_grid t row)
  ∧ (∀ r x, (row < r)%N → t_grid t r x = Content.Blank).

Lemma write_all_cell_inv t0 f row col s :
  frame_ok f → (row < fd_height f)%N → (col < fd_width f)%N → all_inv t0 f row col s →
  ∃ s', write_all_cell f row s col = Ok s' ∧ all_inv t0 f row (col + 1) s'.
Proof.
  intros Hok Hr Hc (Hshape & Hlink & Hskip & Hdone & [Hbefore Hafter] & Hlater). unfold write_all_cell.
  destruct (decide (0 < covered f row col)) as [Hcov|Hcov].
  - destruct (covered_wide f row col Hok Hr Hc Hcov) as [Hone Hnarrow].
    rewrite bool_decide_true by lia. eexists. split; [done|]. unfold all_inv. cbn [wa_ops wa_active wa_to_skip].
    rewrite covered_next, Hnarrow. split_and!; [done|done|lia|done| |done]. split.
    + intros x Hx. destruct (decide (x = col)) as [->|]; [|apply Hbefore; lia].
      rewrite Hafter, target_trail by (done || lia). by rewrite bool_decide_true.
    + intros x Hx. rewrite Hafter by lia. rewrite covered_next, Hnarrow.
      by rewrite !bool_decide_false by lia.
  - assert (Hcov0 : covered f row col = 0) by lia.
    destruct (lead_width f row col Hok Hr Hc Hcov0) as [Hw1 Hw2].
    rewrite bool_decide_false by lia. rewrite index_cell_ok by done. cbn [mbind result_bind].
    rewrite (fo_skip f Hok) by done. set (cell := cell_at f row col) in *.
    destruct (write_hyperlink_if_changed (wa_active s) (cell_hyperlink_uri f cell)) as [link_ops active] eqn:Hl.
    eexists. split; [done|]. unfold all_inv. cbn [wa_ops wa_active wa_to_skip]. rewrite run_app.
    set (t := run t0 (wa_ops s)) in *. rewrite <- Hlink in Hl.
    destruct (run_cell t f row col cell [Op.Sgr (build_sgr (cell_fg cell) (cell_bg cell) (cell_modifier cell))]
      link_ops active) as (H1 & _ & _ & Hsh & Hgrid); [done|done|fold (width_at f row col) in *; unfold width_at in Hw1; fold cell in Hw1; lia|].
    cbn [app] in *. rewrite Hgrid, H1, Hsh, covered_next. change (width_at f row col) with (cell_width cell) in *.
    split_and!; [done|done|done| | |].
    + intros r x Hlt Hx. destruct (N.eqb_spec r row); [lia|by apply Hdone].
    + rewrite N.eqb_refl. unfold row_written. rewrite covered_next.
      change (width_at f row col) with (cell_width cell). split.
      * intros x Hx. destruct (decide (x = col)) as [->|].
        -- by rewrite place_here, target_lead.
        -- rewrite place_before; [|lia|right; by rewrite Hafter, bool_decide_false by lia].
           apply Hbefore. lia.
      * intros x Hx. case_bool_decide as Hx'.
        -- apply place_trail. lia.
        -- rewrite place_after; [|lia..|right; by rewrite Hafter, bool_decide_false by lia].
           rewrite Hafter by lia. by rewrite bool_decide_false by lia.
    + intros r x Hlt. destruct (N.eqb_spec r row); [lia|by apply Hlater].
Qed.

(** Rows below [row] are shown, the others erased. *)
Definition all_rows_inv (t0 : Terminal) (f : FrameData) (row : N) (s : WriteAll) : Prop :=
  let t := run t0 (wa_ops s) in
  t_shape t = t_shape t0 ∧ t_link t = wa_active s
  ∧ (∀ r x, (r < row)%N → (x < fd_width f)%N → t_grid t r x = target f r x)
  ∧ (∀ r x, (row ≤ r)%N → t_grid t r x = Content.Blank).

Lemma write_all_row_inv t0 f row s :
  frame_ok f → (row < fd_height f)%N → all_rows_inv t0 f row s →
  ∃ s', write_all_row f s row = Ok s' ∧ all_rows_inv t0 f (row + 1) s'.
Proof.
  intros Hok Hr (Hshape & Hlink & Hdone & Hlater). unfold write_all_row.
  destruct (try_fold_range (all_inv t0 f row) (write_all_cell f row)
    (mkWriteAll (wa_ops s) (wa_active s) 0) (fd_width f)) as (s' & Hf & Hinv).
  - unfold all_inv. cbn [wa_ops wa_active wa_to_skip]. split_and!; [done|done|done|done| |].
    + split; [lia|]. intros x Hx. rewrite bool_decide_false by (unfold covered; cbn; lia). apply Hlater. lia.
    + intros r x Hlt. apply Hlater. lia.
  - intros n s1 Hn Hs1. by apply write_all_cell_inv.
  - exists s'. split; [done|]. destruct Hinv as (Hsh & Hl & _ & Hd & [Hb _] & Ha).
    unfold all_rows_inv. split_and!; [done|done| |].
    + intros r x Hlt Hx. destruct (decide (r = row)) as [->|]; [by apply Hb|apply Hd; lia].
    + intros r x Hle. apply Ha. lia.
Qed.

Lemma run_close_hyperlink t active :
  t_link t = active → run t (close_hyperlink active) = t <| t_link := None |>.
Proof. intros <-. unfold close_hyperlink. destruct t as [g p [l|] c s sh]; done. Qed.

(** On an erased screen without a link, writing all cells shows the frame. *)
Lemma write_all_cells_shows t f :
  frame_ok f → t_link t = None → (∀ r x, t_grid t r x = Content.Blank) →
  ∃ ops, write_all_cells f = Ok ops ∧ shows (run t ops) f ∧ t_link (run t ops) = None
    ∧ t_shape (run t ops) = t_shape t.
Proof.
  intros Hok Hlink Hblank. unfold write_all_cells.
  destruct (try_fold_range (all_rows_inv t f) (write_all_row f) (mkWriteAll [] None 0) (fd_height f))
    as (s & -> & Hsh & Hl & Hshow & _).
  - unfold all_rows_inv. cbn. split_and!; [done|done|lia|auto].
  - intros n s Hn Hs. by apply write_all_row_inv.
  - cbn [mbind result_bind]. eexists. split; [done|]. rewrite !run_app, run_close_hyperlink by done.
    by split_and!.
Qed.
(** ** An incremental update *)

Lemma sanitized_cell_link f c :
  sanitized_cell_hyperlink_uri (sanitized_frame_hyperlinks f) c = cell_link f c.
Proof.
  unfold sanitized_cell_hyperlink_uri, sanitized_frame_hyperlinks, cell_link, cell_hyperlink_uri.
  destruct (cell_hyperlink c) as [i|]; [|done]. cbn. rewrite list_lookup_fmap.
  by destruct (fd_hyperlinks f !! N.to_nat i).
Qed.

(** Cells that compare equal look the same. *)
Lemma visually_equal_glyph f c p c' :
  cells_visually_equal (sanitized_frame_hyperlinks f) c (sanitized_frame_hyperlinks p) c' = true →
  cell_glyph f c = cell_glyph p c' ∧ cell_width c = cell_width c'.
Proof.
  unfold cells_visually_equal. rewrite !sanitized_cell_link, !andb_true_iff, !bool_decide_eq_true, !N.eqb_eq.
  intros [[[[Hs Hf] Hb] Hm] Hl]. unfold cell_glyph, cell_width. by rewrite Hs, Hf, Hb, Hm, Hl.
Qed.

(** Every right half on a row is behind a wide symbol. *)
Definition halves_ok (w : N) (g : N → Content) : Prop :=
  g 0%N ≠ Content.Trail
  ∧ ∀ x, (x + 1 < w)%N → g (x + 1)%N = Content.Trail →
      ∃ s p l, g x = Content.Glyph s p l ∧ symbol_width s = 2.

Lemma target_halves f row : frame_ok f → (row < fd_height f)%N → halves_ok (fd_width f) (target f row).
Proof.
  intros Hok Hr. split; [done|]. intros x Hx. unfold target at 1. rewrite covered_next.
  case_bool_decide as Hcov; [|done]. intros _.
  assert (Hw : width_at f row x = 2) by (pose proof (fo_width f Hok row x Hr); lia).
  rewrite target_lead; [by do 3 eexists|].
  destruct (decide (0 < covered f row x)) as [Hc|]; [|lia].
  destruct (covered_wide f row x Hok Hr); [lia|done|]. lia.
Qed.

Lemma place_halves W g c s p l :
  symbol_width s ≠ 0 → symbol_width s ≤ 2 →
  halves_ok W g → halves_ok W (place g c (symbol_width s) (Content.Glyph s p l)).
Proof.
  intros H0 H2 [Hzero Hhalf]. set (w := symbol_width s) in *. split.
  - unfold place. destruct (N.eqb_spec 0 c) as [|Hc]; [done|].
    rewrite (proj2 (N.ltb_ge c 0)), (proj2 (N.eqb_neq 0 (c + N.of_nat w))) by lia.
    rewrite !andb_false_l. by destruct (_ && _).
  - intros x Hx Ht. destruct (decide (x + 1 = c)%N) as [<-|Hc]; [by rewrite place_here in Ht|].
    destruct (decide (x = c)%N) as [->|Hxc].
    { rewrite place_here. exists s, p, l. split; [done|]. fold w. destruct (decide (w = 2)); [done|].
      exfalso. unfold place in Ht. rewrite (proj2 (N.eqb_neq _ _)) in Ht by done.
      rewrite (proj2 (N.ltb_ge (c + 1) (c + N.of_nat w))), andb_false_r in Ht by lia.
      rewrite (proj2 (N.eqb_eq (c + 1) (c + N.of_nat w))) in Ht by lia. cbn in Ht.
      case_bool_decide; [done|]. by rewrite (proj2 (N.eqb_neq _ _)) in Ht by lia. }
    destruct (decide (x + 1 < c)%N) as [Hlt|Hge].
    { assert (Hg : g (x + 1)%N = Content.Trail).
      { unfold place in Ht. rewrite (proj2 (N.eqb_neq (x + 1) c)), (proj2 (N.ltb_ge c (x + 1))),
          (proj2 (N.eqb_neq (x + 1) (c + N.of_nat w))) in Ht by lia. cbn in Ht.
        by destruct (_ && _) in Ht. }
      rewrite place_before by lia. by apply Hhalf. }
    destruct (decide (x + 1 < c + N.of_nat w)%N); [lia|].
    assert (Hg : g (x + 1)%N = Content.Trail ∧ (x + 1 ≠ c + N.of_nat w)%N).
    { unfold place in Ht. rewrite (proj2 (N.eqb_neq (x + 1) c)),
        (proj2 (N.ltb_ge (x + 1) (c + N.of_nat w))), andb_false_r,
        (proj2 (N.eqb_neq (x + 1 + 1) c)) in Ht by lia. cbn in Ht.
      destruct (N.eqb_spec (x + 1) (c + N.of_nat w)) as [->|]; [|done]. cbn in Ht.
      by case_bool_decide. }
    destruct Hg as [Hg Hne]. destruct (Hhalf x Hx Hg) as (s' & p' & l' & Hgx & Hw').
    exists s', p', l'. split; [|done]. rewrite place_after; [done|lia..|]. right. by rewrite Hgx.
Qed.

(** What holds at a column of a row: the columns before it show the frame;
    from it on, beyond [wc_invalidated], the row shows the previous frame,
    but for the position after a wide symbol that just overwrote one. *)
Definition changed_inv (t0 : Terminal) (f p : FrameData) (row col : N) (s : WriteChanged) : Prop :=
  let t := run t0 (wc_ops s) in
  let g := t_grid t row in
  t_shape t = t_shape t0 ∧ t_link t = wc_active s ∧ (wc_last_sgr s = "" ∨ t_pen t = wc_last_sgr s)
  ∧ wc_to_skip s = covered f row col ∧ wc_invalidated s ≤ 1
  ∧ (0 < covered p row col → wc_invalidated s = 1)
  ∧ (∀ r x, (r < row)%N → (x < fd_width f)%N → t_grid t r x = target f r x)
  ∧ (∀ r x, (row < r)%N → (r < fd_height f)%N → (x < fd_width f)%N → t_grid t r x = target p r x)
  ∧ (∀ x, (x < col)%N → g x = target f row x)
  ∧ (0 < covered f row col → g col = Content.Trail)
  ∧ (∀ x, (col + N.of_nat (wc_invalidated s) ≤ x)%N → (x < fd_width f)%N →
       g x = target p row x
       ∨ 0 < covered f row col ∧ x = (col + 1)%N ∧ target p row x = Content.Trail)
  ∧ halves_ok (fd_width f) g.

Section update.
Context (f p : FrameData) (Hf : frame_ok f) (Hp : frame_ok p) (Hsame : same_size p f = true).

Lemma same_width : fd_width p = fd_width f.
Proof. unfold same_size in Hsame. apply andb_true_iff in Hsame as [H _]. by apply N.eqb_eq. Qed.
Lemma same_height : fd_height p = fd_height f.
Proof. unfold same_size in Hsame. apply andb_true_iff in Hsame as [_ H]. by apply N.eqb_eq. Qed.

Lemma target_trail_width row col : target p row (col + 1) = Content.Trail → 2 ≤ width_at p row col.
Proof. unfold target. rewrite covered_next. case_bool_decide; [lia|done]. Qed.

(** The position before a column that is not covered ends what is written. *)
Lemma before_not_half row col g x :
  (row < fd_height f)%N → (col < fd_width f)%N → covered f row col = 0 →
  halves_ok (fd_width f) g → (∀ x, (x < col)%N → g x = target f row x) → (x < col)%N →
  (x + 1)%N ≠ col ∨ g col ≠ Content.Trail.
Proof.
  intros Hr Hc Hcov [_ Hhalf] Hdone Hx. destruct (decide (x + 1 = col)%N) as [<-|]; [right|by left].
  intros Ht. destruct (Hhalf x Hc Ht) as (s & pen & l & Hg & Hw). rewrite Hdone in Hg by done.
  rewrite covered_next in Hcov. unfold target in Hg. case_bool_decide; [done|].
  injection Hg as <- _ _. unfold width_at, cell_width in Hcov. lia.
Qed.

Lemma changed_inv_kept t0 row col s inv :
  (row < fd_height f)%N → (col < fd_width f)%N → changed_inv t0 f p row col s →
  inv = Nat.max (Nat.max (width_at f row col) (width_at p row col)) (wc_invalidated s) - 1 →
  (0 < covered f row col
   ∨ t_grid (run t0 (wc_ops s)) row col = target f row col
     ∧ width_at f row col = width_at p row col ∧ covered p row col = 0 ∧ wc_invalidated s = 0
     ∧ covered f row col = 0) →
  changed_inv t0 f p row (col + 1)
    (mkWriteChanged (wc_ops s ++ []) (wc_last_sgr s) (wc_active s) inv (width_at f row col - 1)).
Proof.
  intros Hr Hc (Hshape & Hlink & Hpen & Hskip & Hinv & Hcovp & Habove & Hbelow & Hdone & Htrail & Hrest & Hhalf) -> Hcase.
  pose proof (fo_width f Hf row col Hr Hc) as Hw2.
  assert (Hp2 : width_at p row col ≤ 2)
    by (apply (fo_width p Hp); [by rewrite same_height|by rewrite same_width]).
  unfold changed_inv. cbn [wc_ops wc_last_sgr wc_active wc_invalidated wc_to_skip]. rewrite app_nil_r, !covered_next.
  assert (Hat : t_grid (run t0 (wc_ops s)) row col = target f row col).
  { destruct Hcase as [Hcov|[Hat _]]; [|done]. by rewrite Htrail, target_trail. }
  split_and!; [done|done|done|done|lia|lia|done|done| | | |done].
  - intros x Hx. destruct (decide (x = col)) as [->|]; [done|apply Hdone; lia].
  - intros Hw. destruct Hcase as [Hcov|(_ & Heq & _ & Hinv0 & Hcov0)].
    + destruct (covered_wide f row col Hf Hr Hc Hcov). lia.
    + destruct (fo_wide f Hf row col Hr Hc) as [Hc1 _]; [lia|].
      destruct (Hrest (col + 1)%N) as [->|[? _]]; [lia|done| |lia].
      apply target_trail. rewrite covered_next. lia.
  - intros x Hx Hxw. left. destruct (Hrest x) as [->|(Hcov & -> & Ht)]; [lia|done|done|].
    apply target_trail_width in Ht. lia.
Qed.

Lemma write_cell_inv t0 row col s ops last_sgr active inv :
  (row < fd_height f)%N → (col < fd_width f)%N → changed_inv t0 f p row col s →
  covered f row col = 0 →
  write_cell row col (cell_at f row col) (wc_last_sgr s) (wc_active s) f = (ops, last_sgr, active) →
  inv = Nat.max (Nat.max (width_at f row col) (width_at p row col)) (wc_invalidated s) - 1 →
  changed_inv t0 f p row (col + 1)
    (mkWriteChanged (wc_ops s ++ ops) last_sgr active inv (width_at f row col - 1)).
Proof.
  intros Hr Hc (Hshape & Hlink & Hpen & Hskip & Hinv & Hcovp & Habove & Hbelow & Hdone & Htrail & Hrest & Hhalf)
    Hcov Hwrite ->.
  destruct (lead_width f row col Hf Hr Hc Hcov) as [Hw1 Hw2].
  assert (Hp2 : width_at p row col ≤ 2)
    by (apply (fo_width p Hp); [by rewrite same_height|by rewrite same_width]).
  unfold write_cell in Hwrite. rewrite (fo_skip f Hf) in Hwrite by done.
  set (cell := cell_at f row col) in *. set (t := run t0 (wc_ops s)) in *. rewrite <- Hlink in Hwrite.
  destruct (write_hyperlink_if_changed (t_link t) (cell_hyperlink_uri f cell)) as [link_ops active'] eqn:Hl.
  injection Hwrite as <- <- <-.
  change (width_at f row col) with (cell_width cell) in *.
  set (sgr := build_sgr _ _ _) in *.
  destruct (run_cell t f row col cell (if bool_decide (sgr = wc_last_sgr s) then [] else [Op.Sgr sgr])
    link_ops active') as (H1 & H2 & _ & Hsh & Hgrid); [|done|lia|].
  { case_bool_decide as Hs; [|done]. fold sgr. destruct Hpen as [Hnil|Hpen]; [by rewrite Hnil in Hs|].
    cbn. rewrite Hs, <- Hpen. by destruct t. }
  unfold changed_inv. cbn [wc_ops wc_last_sgr wc_active wc_invalidated wc_to_skip].
  rewrite run_app. fold t. cbn [app] in *. rewrite H1, H2, Hsh, Hgrid, !covered_next, N.eqb_refl.
  change (width_at f row col) with (cell_width cell).
  split_and!; [done|done|by right|done|lia|lia| | | | | |].
  - intros r x Hlt Hx. destruct (N.eqb_spec r row); [lia|by apply Habove].
  - intros r x Hlt Hrh Hx. destruct (N.eqb_spec r row); [lia|by apply Hbelow].
  - intros x Hx. destruct (decide (x = col)) as [->|]; [by rewrite place_here, target_lead|].
    rewrite place_before; [apply Hdone; lia|lia|].
    eapply before_not_half; [exact Hr|exact Hc|done|done|done|lia].
  - intros Hw. apply place_trail. lia.
  - intros x Hx Hxw.
    assert (Hgx : t_grid t row x = target p row x) by (destruct (Hrest x) as [|[? _]]; [lia|done|done|lia]).
    destruct (decide (x = col + N.of_nat (cell_width cell) ∧ t_grid t row x = Content.Trail)%N)
      as [[-> Ht]|Hno].
    + rewrite Hgx in Ht. right. destruct (decide (cell_width cell = 1)) as [H1'|].
      { rewrite H1' in Ht. apply (target_trail_width row col) in Ht. lia. }
      split_and!; [lia|lia|done].
    + left. rewrite place_after; [done|lia..|].
      destruct (decide (x = col + N.of_nat (cell_width cell))%N); [right|by left]. intros Ht. by apply Hno.
  - by apply place_halves; [unfold cell_width in *; lia..|].
Qed.

Lemma write_changed_cell_inv t0 row col s :
  (row < fd_height f)%N → (col < fd_width f)%N → changed_inv t0 f p row col s →
  ∃ s', write_changed_cell f p row s col = Ok s' ∧ changed_inv t0 f p row (col + 1) s'.
Proof.
  intros Hr Hc Hs. unfold write_changed_cell. rewrite index_cell_ok by done.
  assert (Hidx : cell_index f row col = cell_index p row col) by (unfold cell_index; by rewrite same_width).
  rewrite Hidx, (index_cell_ok p) by (rewrite ?same_width, ?same_height; done).
  cbn [mbind result_bind]. rewrite (fo_skip f Hf) by done. cbn [negb andb].
  change (cell_width (cell_at f row col)) with (width_at f row col).
  change (cell_width (cell_at p row col)) with (width_at p row col).
  pose proof Hs as (Hshape & Hlink & Hpen & Hskip & Hinv & Hcovp & Habove & Hbelow & Hdone & Htrail & Hrest & Hhalf).
  destruct (decide (wc_to_skip s = 0)) as [H0|H0].
  - rewrite (bool_decide_true (wc_to_skip s = 0)), andb_true_r by done. rewrite Hskip in H0.
    destruct (cells_visually_equal _ _ _ _) eqn:Heq; cbn [negb orb].
    + case_bool_decide as Hi.
      * destruct (write_cell row col (cell_at f row col) (wc_last_sgr s) (wc_active s) f)
          as [[ops last_sgr] active] eqn:Hw.
        eexists. split; [done|]. by eapply write_cell_inv.
      * eexists. split; [done|]. apply changed_inv_kept; [done..|]. right.
        apply visually_equal_glyph in Heq as [Hg Hwd]. assert (Hcp : covered p row col = 0) by lia.
        split_and!; [|done|done|lia|done].
        destruct (Hrest col) as [->|[? _]]; [lia|done| |lia]. by rewrite !target_lead.
    + destruct (write_cell row col (cell_at f row col) (wc_last_sgr s) (wc_active s) f)
        as [[ops last_sgr] active] eqn:Hw.
      eexists. split; [done|]. by eapply write_cell_inv.
  - rewrite (bool_decide_false (wc_to_skip s = 0)), andb_false_r by done.
    eexists. split; [done|]. apply changed_inv_kept; [done..|]. left. lia.
Qed.

Definition changed_rows_inv (t0 : Terminal) (row : N) (s : WriteChanged) : Prop :=
  let t := run t0 (wc_ops s) in
  t_shape t = t_shape t0 ∧ t_link t = wc_active s ∧ (wc_last_sgr s = "" ∨ t_pen t = wc_last_sgr s)
  ∧ (∀ r x, (r < row)%N → (x < fd_width f)%N → t_grid t r x = target f r x)
  ∧ (∀ r x, (row ≤ r)%N → (r < fd_height f)%N → (x < fd_width f)%N → t_grid t r x = target p r x).

Lemma write_changed_row_inv t0 row s :
  (row < fd_height f)%N → changed_rows_inv t0 row s →
  ∃ s', write_changed_row f p s row = Ok s' ∧ changed_rows_inv t0 (row + 1) s'.
Proof.
  intros Hr (Hshape & Hlink & Hpen & Habove & Hbelow). unfold write_changed_row.
  destruct (decide (fd_width f = 0)%N) as [Hz|Hz].
  { rewrite Hz. eexists. split; [done|]. unfold changed_rows_inv. cbn. rewrite Hz. split_and!; [done..|lia|lia]. }
  destruct (try_fold_range (changed_inv t0 f p row) (write_changed_cell f p row)
    (mkWriteChanged (wc_ops s) (wc_last_sgr s) (wc_active s) 0 0) (fd_width f)) as (s' & Hfold & Hinv).
  - unfold changed_inv. cbn [wc_ops wc_last_sgr wc_active wc_invalidated wc_to_skip].
    assert (Hrow : ∀ x, (x < fd_width f)%N → t_grid (run t0 (wc_ops s)) row x = target p row x)
      by (intros x Hx; apply Hbelow; [lia|done..]).
    split_and!; [done|done|done|done|lia|unfold covered; cbn; lia|done| |lia|unfold covered; cbn; lia| |].
    + intros r x Hlt Hrh Hx. apply Hbelow; [lia|done..].
    + intros x _ Hx. left. by apply Hrow.
    + pose proof (target_halves p row Hp) as [H0 Hh]; [by rewrite same_height|]. split.
      * rewrite Hrow by lia. done.
      * intros x Hx. rewrite !Hrow by lia. apply Hh. by rewrite same_width.
  - intros n s1 Hn Hs1. by apply write_changed_cell_inv.
  - exists s'. split; [done|].
    destruct Hinv as (Hsh & Hl & Hpen' & _ & _ & _ & Ha & Hb & Hd & _).
    unfold changed_rows_inv. split_and!; [done|done|done| |].
    + intros r x Hlt Hx. destruct (decide (r = row)) as [->|]; [by apply Hd|apply Ha; [lia|done]].
    + intros r x Hle Hrh Hx. apply Hb; [lia|done..].
Qed.

(** Where the previous frame is shown, writing what changed shows the next. *)
Lemma write_changed_cells_shows t :
  t_link t = None → shows t p →
  ∃ ops, write_changed_cells f p = Ok ops ∧ shows (run t ops) f ∧ t_link (run t ops) = None
    ∧ t_shape (run t ops) = t_shape t.
Proof.
  intros Hlink Hshows. unfold write_changed_cells.
  destruct (try_fold_range (changed_rows_inv t) (write_changed_row f p) (mkWriteChanged [] "" None 0 0)
    (fd_height f)) as (s & -> & Hsh & Hl & _ & Hshow & _).
  - unfold changed_rows_inv. cbn. split_and!; [done|done|by left|lia|].
    intros r x _ Hr Hx. apply Hshows; [by rewrite same_height|by rewrite same_width].
  - intros n s Hn Hs. by apply write_changed_row_inv.
  - cbn [mbind result_bind]. eexists. split; [done|]. rewrite !run_app, run_close_hyperlink by done.
    by destruct (str_is_empty _).
Qed.
End update.

(** ** A whole frame *)

(** The cursor a frame asks for: where, whether it is shown, and its shape *)
Definition wanted_shown (f : FrameData) (suppress : bool) : bool :=
  match fd_cursor f with Some c => cu_visible c && negb suppress | None => false end.
Definition wanted_shape (f : FrameData) : N :=
  match fd_cursor f with Some c => if (cu_shape c <=? 6)%N then cu_shape c else 0%N | None => 0%N end.
Definition wanted_position (f : FrameData) (last_visible : option (N * N)) : N * N :=
  let clamp (xy : N * N) := (N.min xy.2 (fd_height f - 1), N.min xy.1 (fd_width f - 1))%N in
  match fd_cursor f, last_visible with
  | Some c, _ => clamp (cu_x c, cu_y c)
  | None, Some xy => clamp xy
  | None, None => (fd_height f - 1, fd_width f - 1)%N
  end.

Lemma resolve_host_cursor f last_visible suppress :
  let '(hc, next_visible) := resolve_host_cursor_state f last_visible in
  let hc := if suppress && hc_visible hc
            then mkHostCursorState (hc_position hc) false (hc_shape hc) else hc in
  ((hc_position hc).2, (hc_position hc).1) = wanted_position f last_visible
  ∧ hc_visible hc = wanted_shown f suppress ∧ hc_shape hc = wanted_shape f
  ∧ next_visible = match fd_cursor f with
                   | Some c => if cu_visible c then Some (hc_position hc) else last_visible
                   | None => last_visible
                   end.
Proof.
  unfold resolve_host_cursor_state, wanted_position, wanted_shown, wanted_shape.
  destruct (fd_cursor f) as [c|].
  - cbn. destruct suppress, (cu_visible c); cbn; split_and!; done.
  - cbn. rewrite andb_false_r. destruct last_visible as [[x y]|]; done.
Qed.

Lemma run_cursor_ops t hc last_shape anchor :
  let t' := run t ((write_host_cursor_state hc last_shape).1 ++ [Op.EndSync]
                   ++ if anchor : bool then write_ime_anchor_cursor_state hc else []) in
  t_grid t' = t_grid t ∧ t_link t' = t_link t ∧ t_cursor t' = ((hc_position hc).2, (hc_position hc).1)
  ∧ t_shown t' = hc_visible hc ∧ (t_shape t = last_shape → t_shape t' = hc_shape hc).
Proof.
  unfold write_host_cursor_state, write_ime_anchor_cursor_state, write_cursor_position.
  destruct (N.eqb_spec (hc_shape hc) last_shape), (hc_visible hc), anchor; cbn; split_and!; congruence.
Qed.

Lemma blit_frame_shows t f prev last_visible last_shape anchor suppress :
  frame_ok f → (∀ p, prev = Some p → frame_ok p ∧ (same_size p f = true → shows t p)) →
  ∃ ops next_visible,
    blit_frame f prev last_visible last_shape anchor suppress = Ok (ops, next_visible, wanted_shape f)
    ∧ next_visible = (match fd_cursor f with
                      | Some c => if cu_visible c then Some ((wanted_position f last_visible).2, (wanted_position f last_visible).1)
                                  else last_visible
                      | None => last_visible
                      end)
    ∧ let t' := run t ops in
      shows t' f ∧ t_link t' = None ∧ t_shown t' = wanted_shown f suppress
      ∧ t_cursor t' = wanted_position f last_visible
      ∧ (t_shape t = last_shape → t_shape t' = wanted_shape f).
Proof.
  intros Hok Hprev. unfold blit_frame.
  set (start := [Op.BeginSync; Op.HideCursor; Op.CloseLink]).
  set (cells := match prev with Some p => _ | None => _ end).
  assert (Hcells : ∃ ops, cells = Ok ops
    ∧ shows (run (run t start) ops) f ∧ t_link (run (run t start) ops) = None
    ∧ t_shape (run (run t start) ops) = t_shape t).
  { assert (Hfull : ∃ ops, (cells ← write_all_cells f; Ok ([Op.Clear; Op.Home] ++ cells)) = @Ok RenderPanic _ ops
      ∧ shows (run (run t start) ops) f ∧ t_link (run (run t start) ops) = None
      ∧ t_shape (run (run t start) ops) = t_shape t).
    { destruct (write_all_cells_shows (run (run t start) [Op.Clear; Op.Home]) f Hok) as (ops & -> & Hs & Hl & Hsh);
        [done..|].
      eexists. split; [done|]. by rewrite run_app. }
    subst cells. destruct prev as [p|]; [|exact Hfull]. destruct (same_size p f) eqn:Hsize; [|exact Hfull].
    destruct (Hprev p eq_refl) as [Hp Ht].
    destruct (write_changed_cells_shows f p Hok Hp Hsize (run t start)) as (ops & ? & ? & ? & ?);
      [done|by apply Ht|by exists ops]. }
  destruct Hcells as (ops & -> & Hshow & Hlink & Hshape). cbn [mbind result_bind].
  pose proof (resolve_host_cursor f last_visible suppress) as Hres.
  destruct (resolve_host_cursor_state f last_visible) as [hc next_visible].
  set (hc' := if suppress && hc_visible hc then _ else hc) in *.
  destruct Hres as (Hpos & Hvis & Hsha & Hnext).
  pose proof (run_cursor_ops (run (run t start) ops) hc' last_shape anchor) as Hcur.
  destruct (write_host_cursor_state hc' last_shape) as [cursor_ops next_shape] eqn:Hw. cbn [fst] in Hcur.
  assert (next_shape = wanted_shape f) as -> by (unfold write_host_cursor_state in Hw; injection Hw as _ <-; done).
  eexists _, next_visible. split; [done|]. split.
  { rewrite Hnext, <- Hpos. destruct (fd_cursor f) as [c|]; [|done]. destruct (cu_visible c); [|done].
    f_equal. subst hc'. by destruct (hc_position _), (suppress && hc_visible hc). }
  rewrite <- Hpos, <- Hvis, <- Hsha. rewrite run_app, run_app.
  destruct Hcur as (Hg & Hl & Hc & Hs & Hsh). split_and!; [|congruence|done|done|].
  - intros row col Hr Hco. rewrite Hg. by apply Hshow.
  - intros Heq. apply Hsh. congruence.
Qed.

(** The previous frame an encoder knows *)
Definition known_frame (e : BlitEncoder) (force_full : bool) : option FrameData :=
  if force_full then None else be_last_frame e.

(** What the encoder writes for a frame *)
Definition blit_ops (anchor : bool) (e : BlitEncoder) (f : FrameData) (force_full suppress : bool) :
    list Op :=
  match blit_frame f (known_frame e force_full) (be_last_visible_cursor e) (be_last_cursor_shape e)
          anchor suppress with
  | Ok (ops, _, _) => ops
  | Err _ => []
  end.

(** Graphics are put in by the stream; the encoder writes none, so the effect
    of each of its operations is the one [apply_op] gives it. *)
Definition drawn (op : Op) : Prop := match op with Op.Graphics _ => False | _ => True end.

Lemma link_ops_drawn active requested ops active' :
  write_hyperlink_if_changed active requested = (ops, active') → Forall drawn ops.
Proof.
  unfold write_hyperlink_if_changed. intros Hw. case_bool_decide; injection Hw as <- _; [done|].
  apply Forall_app_2; by repeat case_match; repeat constructor.
Qed.

Lemma close_hyperlink_drawn active : Forall drawn (close_hyperlink active).
Proof. destruct active; by repeat constructor. Qed.

Lemma write_all_cells_drawn f ops : write_all_cells f = Ok ops → Forall drawn ops.
Proof.
  unfold write_all_cells. intros (s & Hs & Hops)%bind_ok. apply Ok_inj in Hops as <-.
  apply Forall_app_2; [|apply Forall_app_2; [apply close_hyperlink_drawn|by repeat constructor]].
  assert (Hcell : ∀ row s col s', Forall drawn (wa_ops s) → write_all_cell f row s col = Ok s' →
    Forall drawn (wa_ops s')).
  { intros row s1 col s2 H1 Hc. unfold write_all_cell in Hc. case_bool_decide; [by injection Hc as <-|].
    apply bind_ok in Hc as (cell & _ & Hc). destruct (cell_skip cell); [by injection Hc as <-|].
    destruct (write_hyperlink_if_changed _ _) as [link active] eqn:Hl. injection Hc as <-.
    apply link_ops_drawn in Hl. cbn [wa_ops].
    repeat first [apply Forall_app_2 | apply Forall_cons_2]; by try constructor. }
  eapply (try_fold_ind (λ s, Forall drawn (wa_ops s))); [| |exact Hs]; [by constructor|].
  intros s1 row s2 H1 Hr. revert Hr. unfold write_all_row.
  apply (try_fold_ind (λ s, Forall drawn (wa_ops s))); [done|apply Hcell].
Qed.

Lemma write_changed_cells_drawn f p ops : write_changed_cells f p = Ok ops → Forall drawn ops.
Proof.
  unfold write_changed_cells. intros (s & Hs & Hops)%bind_ok. apply Ok_inj in Hops as <-.
  apply Forall_app_2; [|apply Forall_app_2; [apply close_hyperlink_drawn|case_match; by repeat constructor]].
  assert (Hcell : ∀ row s col s', Forall drawn (wc_ops s) → write_changed_cell f p row s col = Ok s' →
    Forall drawn (wc_ops s')).
  { intros row s1 col s2 H1 Hc. unfold write_changed_cell in Hc.
    apply bind_ok in Hc as (cell & _ & Hc). apply bind_ok in Hc as (prev & _ & Hc).
    destruct (if _ : bool then write_cell _ _ _ _ _ _ else _) as [[w sgr] active] eqn:Hw.
    injection Hc as <-. cbn [wc_ops]. apply Forall_app_2; [done|].
    destruct (_ && _ && _); [|injection Hw as <- _ _; constructor]. unfold write_cell in Hw.
    destruct (cell_skip cell); [injection Hw as <- _ _; constructor|].
    destruct (write_hyperlink_if_changed _ _) as [link active'] eqn:Hl. injection Hw as <- _ _.
    apply link_ops_drawn in Hl.
    repeat first [apply Forall_app_2 | apply Forall_cons_2 | case_match]; by try constructor. }
  eapply (try_fold_ind (λ s, Forall drawn (wc_ops s))); [| |exact Hs]; [by constructor|].
  intros s1 row s2 H1 Hr. revert Hr. unfold write_changed_row.
  apply (try_fold_ind (λ s, Forall drawn (wc_ops s))); [done|apply Hcell].
Qed.

Lemma blit_ops_drawn anchor e f force_full suppress :
  Forall drawn (blit_ops anchor e f force_full suppress).
Proof.
  unfold blit_ops. destruct (blit_frame _ _ _ _ _ _) as [[[ops nv] ns]|] eqn:Hb; [|constructor].
  unfold blit_frame in Hb. apply bind_ok in Hb as (cells & Hcells & Hb).
  assert (Hd : Forall drawn cells).
  { assert (Hfull : ∀ ops, (cells ← write_all_cells f; Ok ([Op.Clear; Op.Home] ++ cells)) = @Ok RenderPanic _ ops →
      Forall drawn ops).
    { intros o (c & Hc%write_all_cells_drawn & Ho)%bind_ok. apply Ok_inj in Ho as <-.
      apply Forall_app_2; [by repeat constructor|done]. }
    destruct (known_frame e force_full) as [p|]; [|by apply Hfull].
    destruct (same_size p f); [by eapply write_changed_cells_drawn|by apply Hfull]. }
  destruct (resolve_host_cursor_state _ _) as [hc next].
  destruct (write_host_cursor_state _ _) as [cursor shape] eqn:Hc. injection Hb as <- _ _.
  unfold write_host_cursor_state in Hc. injection Hc as <- _.
  unfold write_ime_anchor_cursor_state, write_cursor_position.
  repeat first [apply Forall_app_2 | apply Forall_cons_2 | case_match]; by try constructor.
Qed.

(** C8: Whether a frame is encoded as an update or in full, a terminal that shows
    the encoder's last frame shows the new one after what the encoder writes,
    position by position as a full redraw of any terminal would; no link stays
    open, and the cursor is where the frame wants it, shown or hidden, in its
    shape.  Frames are supposed to have a cell for every position, none of
    them skipped, and wide symbols that fit ([frame_ok]); encoding such a frame
    does not panic. *)
Theorem update_equals_redraw (e : BlitEncoder) (f : FrameData) (t : Terminal)
    (anchor force_full suppress : bool) (Hok : frame_ok f)
    (Hlast : ∀ p, be_last_frame e = Some p → frame_ok p ∧ shows t p) :
  let ops := blit_ops anchor e f force_full suppress in
  ∃ encoded,
    encode_inner anchor e f force_full suppress = Ok encoded ∧ eb_bytes encoded = ops_bytes ops
    ∧ Forall drawn ops
    ∧ eb_full encoded = (force_full || match be_last_frame e with
                                       | Some p => negb (same_size p f)
                                       | None => true
                                       end)
    ∧ shows (run t ops) f ∧ t_link (run t ops) = None
    ∧ t_cursor (run t ops) = wanted_position f (be_last_visible_cursor e)
    ∧ t_shown (run t ops) = wanted_shown f suppress
    ∧ (t_shape t = be_last_cursor_shape e → t_shape (run t ops) = wanted_shape f)
    ∧ eb_next_last_cursor_shape encoded = wanted_shape f
    ∧ ∀ u, let full_ops := blit_ops anchor e f true suppress in
        (∃ full, encode_inner anchor e f true suppress = Ok full ∧ eb_bytes full = ops_bytes full_ops)
        ∧ ∀ row col, (row < fd_height f)%N → (col < fd_width f)%N →
            t_grid (run t ops) row col = t_grid (run u full_ops) row col.
Proof.
  intros ops. pose proof (blit_ops_drawn anchor e f force_full suppress) as Hdrawn.
  unfold encode_inner. fold (known_frame e force_full). subst ops. unfold blit_ops in *.
  destruct (blit_frame_shows t f (known_frame e force_full) (be_last_visible_cursor e) (be_last_cursor_shape e)
    anchor suppress Hok) as (ops & nv & Hblit & _ & Hs & Hl & Hv & Hc & Hsh).
  { intros p Hp. destruct (Hlast p) as [? ?]; [|done]. by destruct force_full. }
  rewrite Hblit in *. eexists. split; [reflexivity|]. cbn [eb_bytes eb_full eb_next_last_cursor_shape].
  split_and!; [done|done| |done..|].
  { by destruct force_full. }
  intros u. destruct (blit_frame_shows u f None (be_last_visible_cursor e) (be_last_cursor_shape e)
    anchor suppress Hok) as (ops' & nv' & Hfull & _ & Hs' & _); [done|].
  cbn [known_frame]. rewrite Hfull. split; [by eexists|].
  intros row col Hr Hco. by rewrite Hs, Hs'.
Qed.

(** ** Checking a frame *)

Definition frame_okb (f : FrameData) : bool :=
  bool_decide (length (fd_cells f) = N.to_nat (fd_width f * fd_height f))
  && forallb (λ row, forallb (λ col,
       negb (cell_skip (cell_at f row col)) && bool_decide (width_at f row col ≤ 2)
       && (negb (bool_decide (width_at f row col = 2))
           || (col + 1 <? fd_width f)%N && bool_decide (width_at f row (col + 1) ≤ 1))
       && (negb (bool_decide (width_at f row col = 0)) || bool_decide (0 < covered f row col)))
       (range (fd_width f))) (range (fd_height f)).

Lemma forallb_range (q : N → bool) n : forallb q (range n) = true → ∀ i, (i < n)%N → q i = true.
Proof.
  intros Hall i Hi. apply (proj1 (forallb_forall q (range n)) Hall), list_elem_of_In.
  eapply list_elem_of_lookup_2. by apply lookup_range.
Qed.

Lemma frame_okb_ok f : frame_okb f = true → frame_ok f.
Proof.
  unfold frame_okb. intros [Hlen Hall]%andb_true_iff. apply bool_decide_eq_true in Hlen.
  assert (Hcell : ∀ row col, (row < fd_height f)%N → (col < fd_width f)%N →
    cell_skip (cell_at f row col) = false ∧ width_at f row col ≤ 2
    ∧ (width_at f row col = 2 → (col + 1 < fd_width f)%N ∧ width_at f row (col + 1) ≤ 1)
    ∧ (width_at f row col = 0 → 0 < covered f row col)).
  { intros row col Hr Hc. pose proof (forallb_range _ _ Hall row Hr) as Hrow. cbv beta in Hrow.
    pose proof (forallb_range _ _ Hrow col Hc) as H. cbv beta in H.
    apply andb_true_iff in H as [[[H1 H2]%andb_true_iff H3]%andb_true_iff H4].
    apply negb_true_iff in H1. apply bool_decide_eq_true in H2. split_and!; [done|done| |]; intros Hw.
    - rewrite bool_decide_true in H3 by done. cbn in H3. apply andb_true_iff in H3 as [H3 H5].
      apply N.ltb_lt in H3. by apply bool_decide_eq_true in H5.
    - rewrite bool_decide_true in H4 by done. by apply bool_decide_eq_true in H4. }
  split; [done|intros row col Hr Hc; destruct (Hcell row col Hr Hc) as (? & ? & ? & ?); auto..].
Qed.
End terminal.

(** ** The theorems at work *)

Module BlitDemo.

(** One column for a symbol of one byte, two for a longer one *)
#[local] Instance byte_width : SymbolWidth := λ s,
  match String.length s with 0 => 0 | 1 => 1 | _ => 2 end.

Definition plain (s : string) : CellData := mkCellData s 0 0 0 false None.
Definition linked (s : string) : CellData := mkCellData s 1 0 1 false (Some 0%N).
Definition bulb : string := "[]".

(** A wide symbol moves one column to the right over another. *)
Definition frame_1 : FrameData :=
  mkFrameData [plain "a"; plain bulb; plain " "; linked bulb; plain " "] 5 1 None ["https://x"] [].
Definition frame_2 : FrameData :=
  mkFrameData [plain bulb; plain " "; linked bulb; plain " "; plain "b"] 5 1
    (Some (mkCursorState 9 0 true 5)) ["https://x"] [].

Lemma frame_1_ok : frame_ok frame_1.
Proof. by apply frame_okb_ok. Qed.
Lemma frame_2_ok : frame_ok frame_2.
Proof. by apply frame_okb_ok. Qed.

Definition blank_terminal : Terminal := mkTerminal (λ _ _, Content.Blank) "" None (0, 0)%N true 0.

Example full_then_update :
  (λ e, eb_full e) <$> encode_inner true (mkBlitEncoder (Some frame_1) None 0) frame_2 false false
  = @Ok RenderPanic _ false.
Proof. vm_compute. reflexivity. Qed.

Definition shown_1 : Terminal :=
  match write_all_cells frame_1 with Ok ops => run blank_terminal ops | Err _ => blank_terminal end.

Lemma shown_1_shows : shows shown_1 frame_1.
Proof.
  destruct (write_all_cells_shows blank_terminal frame_1 frame_1_ok eq_refl) as (ops & Hops & Hs & _);
    [done|]. unfold shown_1. by rewrite Hops.
Qed.

Example update_equals_redraw_witness :
  let ops := blit_ops true (mkBlitEncoder (Some frame_1) None 0) frame_2 false false in
  ∃ encoded,
    encode_inner true (mkBlitEncoder (Some frame_1) None 0) frame_2 false false = Ok encoded
    ∧ eb_bytes encoded = ops_bytes ops ∧ eb_full encoded = false ∧ shows (run shown_1 ops) frame_2
    ∧ t_cursor (run shown_1 ops) = (0, 4)%N.
Proof.
  destruct (update_equals_redraw (mkBlitEncoder (Some frame_1) None 0) frame_2 shown_1 true false false frame_2_ok)
    as (encoded & He & Hb & _ & Hf & Hs & _ & Hc & _).
  - intros p Hp. injection Hp as <-. exact (conj frame_1_ok shown_1_shows).
  - exists encoded. exact (conj He (conj Hb (conj Hf (conj Hs Hc)))).
Defined.

(** A new encoder takes the shape of the cursor to be the default: a cursor
    shape that was set before is not put back. *)
Example new_encoder_keeps_the_shape :
  let bar := mkTerminal (λ _ _, Content.Blank) "" None (0, 0)%N true 5 in
  match blit_frame frame_1 None (be_last_visible_cursor BlitEncoder_new)
          (be_last_cursor_shape BlitEncoder_new) true false with
  | Ok (ops, _, _) => t_shape (run bar ops) = 5%N ∧ wanted_shape frame_1 = 0%N
  | Err _ => False
  end.
Proof. vm_compute. by split. Qed.
End BlitDemo.
