(* ===== verification/RenderStream.v ===== *)
(** * What the server sends a client to draw ([src/server/render_stream.rs])

    The render state of a client: what it was sent last, in the encoding it
    negotiated.  A frame is prepared, sent, and committed when the send
    succeeded; what is prepared and not sent is dropped. *)

From S2P Require Export Chars Blit.
From stdpp Require Import pretty.

Section stream.
Context `{HWidth : SymbolWidth}.

(** [repeat_ime_anchor_after_sync] is of the platform. *)
Context (repeat_ime_anchor : bool).

Inductive ClientRenderState :=
| Semantic (last_frame : option FrameData)
| TerminalAnsi (blit_encoder : BlitEncoder) (seq : N).

Inductive PreparedRender :=
| PreparedSemantic (message : ServerMessage)
| PreparedAnsi (message : ServerMessage) (frame : FrameData) (encoded : option EncodedBlit).

Definition ClientRenderState_new (render_encoding : RenderEncoding) : ClientRenderState :=
  match render_encoding with
  | RenderEncoding.SemanticFrame => Semantic None
  | RenderEncoding.TerminalAnsi => TerminalAnsi BlitEncoder_new 0
  end.

Definition reset_baseline (s : ClientRenderState) : ClientRenderState :=
  match s with
  | Semantic _ => Semantic None
  | TerminalAnsi _ seq => TerminalAnsi BlitEncoder_new seq
  end.

Definition reset_semantic_input_baseline (s : ClientRenderState) : ClientRenderState :=
  match s with Semantic _ => Semantic None | TerminalAnsi _ _ => s end.

Definition SYNC_OUTPUT_END : bytes := str_bytes (ESC +:+ "[?2026l").

(** [haystack.windows(n).rposition(|window| window == needle)] *)
Definition rfind_subslice (haystack needle : bytes) : option nat :=
  if bool_decide (needle = []) || bool_decide (length haystack < length needle) then None
  else snd <$> list_find (λ i, take (length needle) (drop i haystack) = needle)
                 (reverse (seq 0 (length haystack - length needle + 1))).

Definition insert_graphics_before_sync_end (encoded graphics : bytes) : bytes :=
  if bool_decide (graphics = []) then encoded
  else
    match rfind_subslice encoded SYNC_OUTPUT_END with
    | Some sync_end => take sync_end encoded ++ graphics ++ drop sync_end encoded
    | None => encoded ++ graphics
    end.

Definition prepare_frame (s : ClientRenderState) (frame : FrameData) :
    result RenderPanic (option PreparedRender) :=
  match s with
  | Semantic last_frame =>
      if bool_decide (last_frame = Some frame) then Ok None
      else Ok (Some (PreparedSemantic (ServerMessage.Frame frame)))
  | TerminalAnsi blit_encoder seq =>
      if encoder_is_current blit_encoder frame then Ok None
      else
        encoded ← encode repeat_ime_anchor blit_encoder frame false;
        let encoded := encoded <| eb_bytes ::= λ b, insert_graphics_before_sync_end b (fd_graphics frame) |> in
        Ok (Some (PreparedAnsi
          (ServerMessage.Terminal
             {| tf_seq := (seq + 1) mod 2 ^ 64;
                tf_width := fd_width frame;
                tf_height := fd_height frame;
                tf_full := eb_full encoded;
                tf_bytes := eb_bytes encoded |})
          frame (Some encoded)))
  end.

Definition last_frame (s : ClientRenderState) : option FrameData :=
  match s with Semantic last => last | TerminalAnsi e _ => be_last_frame e end.

Definition commit_sent_frame (s : ClientRenderState) (prepared : PreparedRender) : ClientRenderState :=
  match s, prepared with
  | Semantic _, PreparedSemantic (ServerMessage.Frame frame) => Semantic (Some frame)
  | TerminalAnsi _ seq, PreparedAnsi _ frame (Some encoded) =>
      TerminalAnsi (encoder_commit frame encoded) ((seq + 1) mod 2 ^ 64)
  | s, _ => s
  end.

Definition message (p : PreparedRender) : ServerMessage :=
  match p with PreparedSemantic m | PreparedAnsi m _ _ => m end.

Definition into_frame (p : PreparedRender) : option FrameData :=
  match p with
  | PreparedSemantic (ServerMessage.Frame frame) => Some frame
  | PreparedAnsi _ frame _ => Some frame
  | _ => None
  end.

(** ** Where the graphics go *)

(** A decimal number has no question mark. *)
Lemma pretty_no_question n : Forall (λ c, c ≠ "?"%char) (str_bytes (pretty (n : N))).
Proof. eapply Forall_impl; [apply pretty_digits|]. by intros c Hc ->. Qed.

Lemma rfind_last h n i :
  n ≠ [] → take (length n) (drop i h) = n →
  (∀ j, i < j → j + length n ≤ length h → take (length n) (drop j h) ≠ n) →
  rfind_subslice h n = Some i.
Proof.
  intros Hn Hat Hlast.
  assert (Hlen : i + length n ≤ length h).
  { apply (f_equal length) in Hat. rewrite length_take, length_drop in Hat.
    destruct n; [done|]. cbn [length] in *. lia. }
  unfold rfind_subslice. rewrite (bool_decide_false (n = [])), bool_decide_false by (done || lia). cbn [orb].
  set (k := length h - length n + 1) in *.
  assert (Hlook : ∀ j, j < k → reverse (seq 0 k) !! j = Some (k - S j)).
  { clearbody k. intros j Hj. rewrite reverse_lookup by (rewrite length_seq; lia).
    rewrite length_seq, lookup_seq_lt by lia. done. }
  rewrite (proj2 (list_find_Some _ _ (k - S i) i)); [done|]. split_and!.
  - rewrite Hlook by lia. f_equal. lia.
  - done.
  - intros j y Hy Hj. rewrite Hlook in Hy by lia. injection Hy as <-. apply Hlast; lia.
Qed.

(** A tail in which a question mark is followed by less than the rest of the
    end of synchronised output *)
Definition short_tail (t : bytes) : Prop :=
  ∀ k, t !! k = Some "?"%char → length t < k + 6.

Lemma sync_end_is_last a t :
  short_tail t → rfind_subslice (a ++ SYNC_OUTPUT_END ++ t) SYNC_OUTPUT_END = Some (length a).
Proof.
  intros Ht. apply rfind_last; [done| |].
  { by rewrite drop_app_length, take_app_length. }
  intros j Hj Hlen Hocc. rewrite !length_app in Hlen. change (length SYNC_OUTPUT_END) with 8 in *.
  assert (Hq : (a ++ SYNC_OUTPUT_END ++ t) !! (j + 2) = Some "?"%char).
  { rewrite <- lookup_drop, <- (lookup_take_lt _ 8) by lia. by rewrite Hocc. }
  rewrite lookup_app_r in Hq by lia.
  destruct (decide (j + 2 - length a < 8)) as [Hlt|Hge].
  - rewrite lookup_app_l in Hq by (change (length SYNC_OUTPUT_END) with 8; lia).
    destruct (j + 2 - length a) as [|[|[|n]]] eqn:E; try lia.
    do 5 (destruct n as [|n]; [done|]). lia.
  - rewrite lookup_app_r in Hq by (change (length SYNC_OUTPUT_END) with 8; lia).
    change (length SYNC_OUTPUT_END) with 8 in Hq. apply Ht in Hq. lia.
Qed.

Lemma anchor_tail hc : short_tail (ops_bytes (write_ime_anchor_cursor_state hc)).
Proof.
  unfold write_ime_anchor_cursor_state, write_cursor_position. cbn [app].
  set (m := Op.MoveTo _ _). set (v := if hc_visible hc then _ else _).
  assert (Hb : ops_bytes [m; v] = str_bytes (op_string m) ++ str_bytes (op_string v))
    by (unfold ops_bytes; cbn [mbind list_bind]; by rewrite app_nil_r).
  rewrite Hb. clear Hb.
  assert (Hm : Forall (λ c, c ≠ "?"%char) (str_bytes (op_string m))).
  { subst m. cbn [op_string]. rewrite !str_bytes_app, !Forall_app. split_and!; [by repeat constructor..| | | |];
      try (by repeat constructor); apply pretty_no_question. }
  intros k Hk. destruct (decide (k < length (str_bytes (op_string m)))) as [Hlt|Hge].
  - rewrite lookup_app_l in Hk by done. rewrite Forall_lookup in Hm. by destruct (Hm k "?"%char Hk).
  - rewrite lookup_app_r in Hk by lia. rewrite length_app.
    remember (k - length (str_bytes (op_string m))) as i eqn:Ei.
    assert (Hv : length (str_bytes (op_string v)) = 6) by (subst v; by destruct (hc_visible hc)).
    rewrite Hv. assert (i = 2); [|lia]. subst v.
    destruct (hc_visible hc); do 6 (destruct i as [|i]; [done|]); done.
Qed.

(** The operations with the graphics before the last end of synchronised
    output *)
Fixpoint insert_before_last_end (g : bytes) (ops : list Op) : option (list Op) :=
  match ops with
  | [] => None
  | op :: rest =>
      match insert_before_last_end g rest with
      | Some rest => Some (op :: rest)
      | None => match op with Op.EndSync => Some (Op.Graphics g :: op :: rest) | _ => None end
      end
  end.
Definition with_graphics (g : bytes) (ops : list Op) : list Op :=
  if bool_decide (g = []) then ops else default (ops ++ [Op.Graphics g]) (insert_before_last_end g ops).

Lemma insert_before_last_end_app g pre post :
  insert_before_last_end g post = None →
  insert_before_last_end g (pre ++ Op.EndSync :: post) = Some (pre ++ Op.Graphics g :: Op.EndSync :: post).
Proof.
  intros Hpost. induction pre as [|op pre IH]; cbn [app insert_before_last_end]; [by rewrite Hpost|].
  by rewrite IH.
Qed.

Lemma ops_bytes_app ops ops' : ops_bytes (ops ++ ops') = ops_bytes ops ++ ops_bytes ops'.
Proof. apply bind_app. Qed.

(** A blit ends with the end of synchronised output and the cursor's anchor. *)
Lemma blit_frame_tail f prev lv ls suppress ops nv ns :
  blit_frame f prev lv ls repeat_ime_anchor suppress = Ok (ops, nv, ns) →
  ∃ pre hc, ops = pre ++ Op.EndSync :: (if repeat_ime_anchor then write_ime_anchor_cursor_state hc else []).
Proof.
  unfold blit_frame. intros (cells & _ & H)%bind_ok. revert H.
  destruct (resolve_host_cursor_state f lv) as [hc nv'].
  set (hc' := if suppress && _ then _ else _).
  destruct (write_host_cursor_state hc' ls) as [cursor_ops ns']. intros [= <- _ _].
  exists (([Op.BeginSync; Op.HideCursor; Op.CloseLink] ++ cells ++ cursor_ops)), hc'.
  by rewrite <- !app_assoc.
Qed.

Lemma graphics_inserted f prev lv ls suppress ops nv ns g :
  blit_frame f prev lv ls repeat_ime_anchor suppress = Ok (ops, nv, ns) →
  insert_graphics_before_sync_end (ops_bytes ops) g = ops_bytes (with_graphics g ops)
  ∧ ∀ t, run t (with_graphics g ops) = run t ops.
Proof.
  intros (pre & hc & ->)%blit_frame_tail.
  unfold insert_graphics_before_sync_end, with_graphics. case_bool_decide as Hg; [done|].
  set (post := if repeat_ime_anchor then _ else _).
  assert (Hpost : insert_before_last_end g post = None)
    by (subst post; destruct repeat_ime_anchor; [cbn; by destruct (hc_visible hc)|done]).
  assert (Htail : short_tail (ops_bytes post))
    by (subst post; destruct repeat_ime_anchor; [apply anchor_tail|by intros k Hk]).
  rewrite insert_before_last_end_app by done. unfold from_option, id. split.
  - rewrite !ops_bytes_app.
    change (ops_bytes (Op.EndSync :: post)) with (SYNC_OUTPUT_END ++ ops_bytes post).
    rewrite sync_end_is_last by done. rewrite take_app_length, drop_app_length.
    change (ops_bytes (Op.Graphics g :: Op.EndSync :: post))
      with (str_bytes (str_of_bytes g) ++ SYNC_OUTPUT_END ++ ops_bytes post).
    by rewrite str_of_to_bytes.
  - intros t. by rewrite !run_app.
Qed.

(** ** What the client's terminal shows *)

(** The operations of a frame's message *)
Definition frame_ops (e : BlitEncoder) (f : FrameData) : list Op :=
  match blit_frame f (be_last_frame e) (be_last_visible_cursor e) (be_last_cursor_shape e)
          repeat_ime_anchor false with
  | Ok (ops, _, _) => with_graphics (fd_graphics f) ops
  | Err _ => []
  end.

(** The terminal shows what was committed. *)
Definition synced (s : ClientRenderState) (t : Terminal) : Prop :=
  match s with
  | Semantic _ => True
  | TerminalAnsi e _ => ∀ f, be_last_frame e = Some f → frame_ok f ∧ shows t f
  end.

Lemma prepare_ansi e seq f t :
  frame_ok f → synced (TerminalAnsi e seq) t → be_last_frame e ≠ Some f →
  ∃ prepared m,
    prepare_frame (TerminalAnsi e seq) f = Ok (Some prepared)
    ∧ message prepared = ServerMessage.Terminal m ∧ into_frame prepared = Some f
    ∧ tf_bytes m = ops_bytes (frame_ops e f)
    ∧ tf_seq m = ((seq + 1) mod 2 ^ 64)%N ∧ tf_width m = fd_width f ∧ tf_height m = fd_height f
    ∧ tf_full m = (match be_last_frame e with Some p => negb (same_size p f) | None => true end)
    ∧ shows (run t (frame_ops e f)) f
    ∧ ∃ e', commit_sent_frame (TerminalAnsi e seq) prepared = TerminalAnsi e' ((seq + 1) mod 2 ^ 64)
        ∧ be_last_frame e' = Some f.
Proof.
  intros Hok Hsync Hne. cbn [prepare_frame]. unfold encoder_is_current. rewrite bool_decide_false by done.
  unfold encode, encode_inner, frame_ops.
  destruct (blit_frame_shows t f (be_last_frame e) (be_last_visible_cursor e) (be_last_cursor_shape e)
    repeat_ime_anchor false Hok) as (ops & nv & Hblit & _ & Hs & _).
  { intros p Hp. by destruct (Hsync p Hp). }
  rewrite Hblit. destruct (graphics_inserted _ _ _ _ _ _ _ _ (fd_graphics f) Hblit) as [Hbytes Hrun].
  cbn. eexists _, _. split_and!; try reflexivity; [by rewrite Hbytes|by rewrite Hrun|].
  eexists. by split.
Qed.

(** A client's screen: frames are sent and committed, and the server forgets
    the baseline, after which the terminal may have become anything. *)
Inductive stream_step : ClientRenderState * Terminal → ClientRenderState * Terminal → Prop :=
| stream_sent e seq t f prepared :
    frame_ok f → prepare_frame (TerminalAnsi e seq) f = Ok (Some prepared) →
    stream_step (TerminalAnsi e seq, t)
      (commit_sent_frame (TerminalAnsi e seq) prepared, run t (frame_ops e f))
| stream_reset s t t' : stream_step (s, t) (reset_baseline s, t')
| stream_input_reset s t : stream_step (s, t) (reset_semantic_input_baseline s, t).

Lemma prepared_not_current e seq f prepared :
  prepare_frame (TerminalAnsi e seq) f = Ok (Some prepared) → be_last_frame e ≠ Some f.
Proof. cbn [prepare_frame]. unfold encoder_is_current. by case_bool_decide. Qed.

Lemma stream_step_synced x y : stream_step x y → synced x.1 x.2 → synced y.1 y.2.
Proof.
  intros Hstep Hsync. destruct Hstep as [e seq t f prepared Hok Hprep|s t t'|s t]; cbn [fst snd] in *.
  - destruct (prepare_ansi e seq f t Hok Hsync (prepared_not_current _ _ _ _ Hprep))
      as (prepared' & m & Hprep' & _ & _ & _ & _ & _ & _ & _ & Hs & e' & Hc & Hlast).
    assert (prepared' = prepared) as <- by congruence. rewrite Hc.
    intros f' Hf'. assert (f' = f) as -> by congruence. done.
  - by destruct s.
  - by destruct s.
Qed.

(** C7: However frames are sent, resent and forgotten, a client's terminal shows
    the last frame that was committed.  A frame is prepared exactly when it is
    not that one, without a panic; its message has the next sequence number
    and the bytes whose effect is to show it, with its graphics before the end
    of the synchronised output, in full exactly when there is no frame of its
    size to update. *)
Theorem client_shows_last_frame (t0 t : Terminal) (e : BlitEncoder) (seq : N)
    (Hsteps : rtc stream_step (ClientRenderState_new RenderEncoding.TerminalAnsi, t0) (TerminalAnsi e seq, t)) :
  (∀ f, be_last_frame e = Some f → shows t f)
  ∧ ∀ f, frame_ok f →
      (prepare_frame (TerminalAnsi e seq) f = Ok None ↔ be_last_frame e = Some f)
      ∧ (be_last_frame e ≠ Some f →
         ∃ prepared m,
           prepare_frame (TerminalAnsi e seq) f = Ok (Some prepared)
           ∧ message prepared = ServerMessage.Terminal m
           ∧ tf_bytes m = ops_bytes (frame_ops e f) ∧ tf_seq m = ((seq + 1) mod 2 ^ 64)%N
           ∧ tf_full m = (match be_last_frame e with Some p => negb (same_size p f) | None => true end)
           ∧ shows (run t (frame_ops e f)) f
           ∧ last_frame (commit_sent_frame (TerminalAnsi e seq) prepared) = Some f).
Proof.
  assert (Hind : ∀ x y, rtc stream_step x y → synced x.1 x.2 → synced y.1 y.2)
    by (induction 1; eauto using stream_step_synced).
  assert (Hsync : synced (TerminalAnsi e seq) t) by (by apply (Hind _ _ Hsteps)).
  split; [intros f Hf; by apply Hsync|]. intros f Hok. split.
  - cbn [prepare_frame]. unfold encoder_is_current. case_bool_decide as Hc; [done|].
    split; [|done]. intros H. autorewrite with results in H. by destruct H as (? & _ & ?).
  - intros Hne. destruct (prepare_ansi e seq f t Hok Hsync Hne)
      as (prepared & m & ? & ? & _ & ? & ? & _ & _ & ? & ? & e' & Hc & Hl).
    exists prepared, m. split_and!; try done. by rewrite Hc.
Qed.
End stream.

(** ** The theorem at work *)

Module StreamDemo.
Import BlitDemo.
#[local] Existing Instance byte_width.

Definition sent_1 : ClientRenderState :=
  match prepare_frame true (ClientRenderState_new RenderEncoding.TerminalAnsi) frame_1 with
  | Ok (Some prepared) =>
      commit_sent_frame (ClientRenderState_new RenderEncoding.TerminalAnsi) prepared
  | _ => Semantic None
  end.
Definition encoder_1 : BlitEncoder := mkBlitEncoder (Some frame_1) None 0.

Lemma sent_1_eq : sent_1 = TerminalAnsi encoder_1 1.
Proof. vm_compute. reflexivity. Qed.

Example client_shows_last_frame_witness :
  ∃ t, shows t frame_1
    ∧ (prepare_frame true (TerminalAnsi encoder_1 1) frame_1 = Ok None ↔ be_last_frame encoder_1 = Some frame_1).
Proof.
  set (t := run blank_terminal (frame_ops true BlitEncoder_new frame_1)).
  assert (Hsteps : rtc (stream_step true)
    (ClientRenderState_new RenderEncoding.TerminalAnsi, blank_terminal) (TerminalAnsi encoder_1 1, t)).
  { rewrite <- sent_1_eq. apply rtc_once. unfold sent_1.
    destruct (prepare_frame true (ClientRenderState_new RenderEncoding.TerminalAnsi) frame_1)
      as [[prepared|]|] eqn:Hprep; [|discriminate Hprep..].
    exact (stream_sent true BlitEncoder_new 0 blank_terminal frame_1 prepared frame_1_ok Hprep). }
  exists t. destruct (client_shows_last_frame true blank_terminal t encoder_1 1 Hsteps) as [Hshow Hprep].
  exact (conj (Hshow frame_1 eq_refl) (proj1 (Hprep frame_1 frame_1_ok))).
Defined.
End StreamDemo.
