(* ===== verification/Ports.v ===== *)
(** * Port leases ([src/resources/ports.rs], [src/resources/cleanup.rs])

    The services of a mission run listen on ports that are leased from a
    registry, a JSON file shared by every server of the machine and guarded by
    a lock file.  The file is its bytes; what the machine says of processes and
    sockets is a [Host]; the outcome of taking the lock and of writing the file
    are arguments, and [serde_json] is the class [PortJson].  The last part
    models the lock file itself, as the steps of the processes that race for
    it. *)

From S2P Require Export Digest.

(** ** Constants *)

Definition REGISTRY_SCHEMA_V1 : N := 1.
Definition DEFAULT_PORT_START : N := 41000.
Definition DEFAULT_PORT_END : N := 49000.
Definition MAX_REGISTRY_BYTES : N := 4 * 1024 * 1024.

(** ** Data *)

Record PortLeaseOwner := mkPortLeaseOwner {
  plo_mission_id : string;
  plo_run_id : string;
  plo_service_id : string;
}.
#[export] Instance PortLeaseOwner_eq_dec : EqDecision PortLeaseOwner.
Proof. solve_decision. Defined.

Record PortLease := mkPortLease {
  pl_schema_version : N;
  pl_lease_id : string;
  pl_request_id : string;
  pl_mission_id : string;
  pl_run_id : string;
  pl_service_id : string;
  pl_port : N;
  pl_owner_pid : N;
  pl_service_pid : option N;
  pl_acquired_at_millis : N;
}.
#[export] Instance PortLease_eq_dec : EqDecision PortLease.
Proof. solve_decision. Defined.
#[export] Instance PortLease_fields : Fields PortLease := λ l,
  mkPortLease (pl_schema_version l) (pl_lease_id l) (pl_request_id l) (pl_mission_id l) (pl_run_id l)
    (pl_service_id l) (pl_port l) (pl_owner_pid l) (pl_service_pid l) (pl_acquired_at_millis l).

Record PortRegistryFile := mkPortRegistryFile { pr_schema_version : N; pr_leases : list PortLease }.
#[export] Instance PortRegistryFile_fields : Fields PortRegistryFile := λ r,
  mkPortRegistryFile (pr_schema_version r) (pr_leases r).

Definition PortRegistryFile_default : PortRegistryFile := mkPortRegistryFile REGISTRY_SCHEMA_V1 [].

(** A reservation holds_lock the socket of a port, or adopts a running service. *)
Record PortReservation := mkPortReservation { rv_lease : PortLease; rv_listener : bool }.

Definition is_adopted (r : PortReservation) : bool := negb (rv_listener r).

Definition prepare_service_spawn (r : PortReservation) : PortReservation * PortLease :=
  (mkPortReservation (rv_lease r) false, rv_lease r).

Record PortAllocator := mkPortAllocator { al_start : N; al_end : N }.

Module PortAllocatorError.
Inductive PortAllocatorError :=
| InvalidRange
| InvalidOwner (field : string)
| InvalidRequestId
| RequestConflict
| NoPortAvailable
| PortNoLongerAvailable (port : N)
| LockTimeout
| RegistryTooLarge
| InvalidRegistry
| UnsupportedSchema
| LeaseMissing
| LeaseNotOwned
| InvalidProcessId
| CorruptRegistry
| Serialize
| Io.
#[export] Instance eq_dec : EqDecision PortAllocatorError.
Proof. solve_decision. Defined.
End PortAllocatorError.
Export (hints) PortAllocatorError.
Abbreviation PortAllocatorError := PortAllocatorError.PortAllocatorError.

(** What a server asks its machine: its own process, whether the kernel knows
    a process ([kill(pid, 0)]), and whether a loopback port can be bound *)
Record Host := mkHost { h_pid : N; h_kill : N → bool; h_bind : N → bool }.

(** [serde_json::to_vec_pretty] and [serde_json::from_str] *)
Class PortJson := {
  registry_to_vec_pretty : PortRegistryFile → option bytes;
  registry_from_str : bytes → option PortRegistryFile;
}.

(** [String::from_utf8]: whether bytes are UTF-8 *)
Fixpoint utf8_valid (bs : list N) : bool :=
  let cont c := ((128 <=? c) && (c <=? 191))%N in
  match bs with
  | [] => true
  | b0 :: r0 =>
      (if b0 <? 128 then utf8_valid r0
       else
         match r0 with
         | b1 :: r1 =>
             if (194 <=? b0) && (b0 <=? 223) then cont b1 && utf8_valid r1
             else
               match r1 with
               | b2 :: r2 =>
                   if (224 <=? b0) && (b0 <=? 239) then
                     cont b1 && cont b2
                     && negb ((b0 =? 224) && (b1 <? 160)) && negb ((b0 =? 237) && (160 <=? b1))
                     && utf8_valid r2
                   else
                     match r2 with
                     | b3 :: r3 =>
                         (240 <=? b0) && (b0 <=? 244) && cont b1 && cont b2 && cont b3
                         && negb ((b0 =? 240) && (b1 <? 144)) && negb ((b0 =? 244) && (144 <=? b1))
                         && utf8_valid r3
                     | [] => false
                     end
               | [] => false
               end
         | [] => false
         end)%N
  end.

(** What is written is text that reads back. *)
Class PortJsonSpec `{PortJson} : Prop :=
  port_json_roundtrip r b :
    registry_to_vec_pretty r = Some b →
    registry_from_str b = Some r ∧ utf8_valid (N_of_ascii <$> b) = true.

(** ** Validation and digests *)

Definition valid_id (value : string) : bool :=
  negb (str_is_empty value) && (str_len value <=? 128)%N
  && forallb (λ c, is_ascii_alphanumeric c || (c =? "_")%char || (c =? "-")%char || (c =? ".")%char
                   || (c =? ":")%char) (str_bytes value).

Definition PortLeaseOwner_new (mission_id run_id service_id : string) :
    result PortAllocatorError PortLeaseOwner :=
  let owner := mkPortLeaseOwner mission_id run_id service_id in
  _ ← try_iter (λ fv : string * string,
        reject_if (negb (valid_id fv.2)) (PortAllocatorError.InvalidOwner fv.1))
      [("mission_id", plo_mission_id owner); ("run_id", plo_run_id owner);
       ("service_id", plo_service_id owner)];
  Ok owner.

Definition valid_persisted_lease (lease : PortLease) : bool :=
  (pl_schema_version lease =? REGISTRY_SCHEMA_V1)%N
  && (str_len (pl_lease_id lease) =? 64)%N
  && forallb is_ascii_hexdigit (str_bytes (pl_lease_id lease))
  && valid_id (pl_request_id lease)
  && valid_id (pl_mission_id lease)
  && valid_id (pl_run_id lease)
  && valid_id (pl_service_id lease)
  && negb (pl_port lease =? 0)%N
  && negb (pl_owner_pid lease =? 0)%N.

(** [process_alive]: what [kill] takes as a process group is not asked. *)
Definition process_alive (h : Host) (pid : N) : bool :=
  if (pid =? 0)%N || (2 ^ 31 - 1 <? pid)%N then false else h_kill h pid.

Definition bind_exact (h : Host) (port : N) : result PortAllocatorError unit :=
  if h_bind h port then Ok tt else Err (PortAllocatorError.PortNoLongerAvailable port).

(** A value with its length before it *)
Definition length_prefixed (value : bytes) : bytes := be_bytes 8 (N.of_nat (length value)) ++ value.

(** The lease under a cleanup ([CleanupPortLease]) and what a cleanup shows
    before it is applied *)
Record CleanupPortLease := mkCleanupPortLease {
  cp_lease_id : string;
  cp_mission_id : string;
  cp_run_id : string;
  cp_service_id : string;
  cp_port : N;
  cp_acquired_at_millis : N;
}.
#[export] Instance CleanupPortLease_eq_dec : EqDecision CleanupPortLease.
Proof. solve_decision. Defined.

Record CleanupPreview := mkCleanupPreview {
  pv_schema_version : N;
  pv_digest : string;
  pv_registry_bytes : N;
  pv_orphaned_ports : list CleanupPortLease;
}.

Module CleanupError.
Inductive CleanupError := PreviewMismatch | Port (e : PortAllocatorError).
End CleanupError.
Abbreviation CleanupError := CleanupError.CleanupError.

Section registry.
Context {HSha : Sha256} {HJson : PortJson}.

Definition lease_digest (owner : PortLeaseOwner) (request_id : string) (port acquired_at_millis : N) :
    string :=
  hex (sha256 (
    ((str_bytes <$> ["nagi-port-lease-v1"; plo_mission_id owner; plo_run_id owner; plo_service_id owner;
                     request_id]) ≫= length_prefixed)
    ++ be_bytes 2 port ++ be_bytes 8 acquired_at_millis)).

(** [BTreeSet::insert] in turn: whether no element comes twice *)
Fixpoint all_fresh {A} `{Countable A} (seen : gset A) (xs : list A) : bool :=
  match xs with
  | [] => true
  | x :: xs => negb (bool_decide (x ∈ seen)) && all_fresh ({[x]} ∪ seen) xs
  end.

(** ** The registry file *)

Definition load_registry (file : option bytes) : result PortAllocatorError PortRegistryFile :=
  match file with
  | None => Ok PortRegistryFile_default
  | Some source =>
      _ ← reject_if (MAX_REGISTRY_BYTES <? N.of_nat (length source))%N PortAllocatorError.RegistryTooLarge;
      _ ← reject_if (negb (utf8_valid (N_of_ascii <$> source))) PortAllocatorError.Io;
      registry ← ok_or (registry_from_str source) PortAllocatorError.CorruptRegistry;
      _ ← reject_if (negb (pr_schema_version registry =? REGISTRY_SCHEMA_V1)%N
                     || existsb (λ l, negb (pl_schema_version l =? REGISTRY_SCHEMA_V1)%N) (pr_leases registry))
            PortAllocatorError.UnsupportedSchema;
      _ ← reject_if (existsb (λ l, negb (valid_persisted_lease l)) (pr_leases registry)
                     || negb (all_fresh ∅ (pl_lease_id <$> pr_leases registry))
                     || negb (all_fresh ∅ (pl_port <$> pr_leases registry)))
            PortAllocatorError.InvalidRegistry;
      Ok registry
  end.

(** The file is replaced by a rename, or left as it was. *)
Definition save_registry (written : bool) (file : option bytes) (registry : PortRegistryFile) :
    option bytes * result PortAllocatorError unit :=
  match registry_to_vec_pretty registry with
  | None => (file, Err PortAllocatorError.Serialize)
  | Some b => if written then (Some b, Ok tt) else (file, Err PortAllocatorError.Io)
  end.

(** ** Operations

    [locked] is what taking the lock gave; it is released when the operation
    returns.  An operation that changes the registry saves it last. *)

Definition save_and_return {A} (written : bool) (file : option bytes) (registry : PortRegistryFile)
    (a : A) : option bytes * result PortAllocatorError A :=
  let '(file, saved) := save_registry written file registry in (file, _ ← saved; Ok a).

(** The registry under the lock, for an operation that gets it *)
Definition with_registry {A} (locked : result PortAllocatorError unit) (file : option bytes)
    (op : PortRegistryFile → option bytes * result PortAllocatorError A) :
    option bytes * result PortAllocatorError A :=
  match (_ ← locked; load_registry file) with
  | Ok registry => op registry
  | Err e => (file, Err e)
  end.

Definition open_with_range (start end_ : N) : result PortAllocatorError PortAllocator :=
  if (start =? 0)%N || (end_ <? start)%N then Err PortAllocatorError.InvalidRange
  else Ok (mkPortAllocator start end_).

Definition PortAllocator_open : result PortAllocatorError PortAllocator :=
  open_with_range DEFAULT_PORT_START DEFAULT_PORT_END.

Definition same_owner (lease : PortLease) (owner : PortLeaseOwner) : bool :=
  bool_decide (pl_mission_id lease = plo_mission_id owner)
  && bool_decide (pl_run_id lease = plo_run_id owner)
  && bool_decide (pl_service_id lease = plo_service_id owner).

Definition opt_alive (h : Host) (pid : option N) : bool :=
  match pid with Some pid => process_alive h pid | None => false end.

(** The branch of [reserve] for a request that has a lease *)
Definition reserve_existing (h : Host) (written : bool) (file : option bytes)
    (registry : PortRegistryFile) (index : nat) (existing : PortLease) :
    option bytes * result PortAllocatorError PortReservation :=
  if opt_alive h (pl_service_pid existing) then
    if negb (pl_owner_pid existing =? h_pid h)%N && process_alive h (pl_owner_pid existing)
    then (file, Err PortAllocatorError.LeaseNotOwned)
    else
      let lease := existing <| pl_owner_pid := h_pid h |> in
      save_and_return written file (registry <| pr_leases ::= <[index := lease]> |>)
        (mkPortReservation lease false)
  else
    match bind_exact h (pl_port existing) with
    | Err e => (file, Err e)
    | Ok _ =>
        let lease := existing <| pl_owner_pid := h_pid h |> <| pl_service_pid := None |> in
        save_and_return written file (registry <| pr_leases ::= <[index := lease]> |>)
          (mkPortReservation lease true)
    end.

(** [start..=end]: ascending *)
Definition port_range (a : PortAllocator) : list N :=
  (λ i, al_start a + N.of_nat i)%N <$> seq 0 (N.to_nat (al_end a + 1 - al_start a)).

Definition port_order : relation PortLease := λ a b, (pl_port a ≤ pl_port b)%N.
#[export] Instance port_order_dec : RelDecision port_order.
Proof. intros a b. unfold port_order. apply _. Defined.
#[export] Instance port_order_total : Total port_order.
Proof. intros a b. unfold port_order. lia. Qed.
#[export] Instance port_order_trans : Transitive port_order.
Proof. intros a b c. unfold port_order. lia. Qed.

Definition reserve_new (a : PortAllocator) (h : Host) (written : bool) (file : option bytes)
    (registry : PortRegistryFile) (owner : PortLeaseOwner) (request_id : string) (acquired_at_millis : N) :
    option bytes * result PortAllocatorError PortReservation :=
  let occupied := pl_port <$> pr_leases registry in
  match find_first (λ port, negb (bool_decide (port ∈ occupied)) && is_ok (bind_exact h port))
          (port_range a) with
  | None => (file, Err PortAllocatorError.NoPortAvailable)
  | Some port =>
      let lease :=
        {| pl_schema_version := REGISTRY_SCHEMA_V1;
           pl_lease_id := lease_digest owner request_id port acquired_at_millis;
           pl_request_id := request_id;
           pl_mission_id := plo_mission_id owner;
           pl_run_id := plo_run_id owner;
           pl_service_id := plo_service_id owner;
           pl_port := port;
           pl_owner_pid := h_pid h;
           pl_service_pid := None;
           pl_acquired_at_millis := acquired_at_millis |} in
      save_and_return written file
        (registry <| pr_leases ::= λ ls, merge_sort port_order (ls ++ [lease]) |>)
        (mkPortReservation lease true)
  end.

Definition reserve (a : PortAllocator) (h : Host) (locked : result PortAllocatorError unit) (written : bool)
    (file : option bytes) (owner : PortLeaseOwner) (request_id : string) (acquired_at_millis : N) :
    option bytes * result PortAllocatorError PortReservation :=
  if negb (valid_id request_id) then (file, Err PortAllocatorError.InvalidRequestId)
  else
    with_registry locked file (λ registry,
      match list_find (λ l, pl_request_id l = request_id) (pr_leases registry) with
      | Some (index, existing) =>
          if same_owner existing owner then reserve_existing h written file registry index existing
          else (file, Err PortAllocatorError.RequestConflict)
      | None => reserve_new a h written file registry owner request_id acquired_at_millis
      end).

Definition bind_service_process (h : Host) (locked : result PortAllocatorError unit) (written : bool)
    (file : option bytes) (lease_id : string) (service_pid : N) :
    option bytes * result PortAllocatorError PortLease :=
  if (service_pid =? 0)%N then (file, Err PortAllocatorError.InvalidProcessId)
  else
    with_registry locked file (λ registry,
      match list_find (λ l, pl_lease_id l = lease_id) (pr_leases registry) with
      | None => (file, Err PortAllocatorError.LeaseMissing)
      | Some (index, lease) =>
          if negb (pl_owner_pid lease =? h_pid h)%N then (file, Err PortAllocatorError.LeaseNotOwned)
          else
            let lease := lease <| pl_service_pid := Some service_pid |> in
            save_and_return written file (registry <| pr_leases ::= <[index := lease]> |>) lease
      end).

Definition release_port (locked : result PortAllocatorError unit) (written : bool) (file : option bytes)
    (lease : PortLease) : option bytes * result PortAllocatorError bool :=
  with_registry locked file (λ registry,
    let leases :=
      List.filter (λ c, negb (bool_decide (pl_lease_id c = pl_lease_id lease))
                        || negb (bool_decide (pl_mission_id c = pl_mission_id lease))
                        || negb (bool_decide (pl_run_id c = pl_run_id lease))
                        || negb (bool_decide (pl_service_id c = pl_service_id lease)))
        (pr_leases registry) in
    let released := negb (bool_decide (length leases = length (pr_leases registry))) in
    if released then save_and_return written file (registry <| pr_leases := leases |>) true
    else (file, Ok false)).

Definition is_orphan (h : Host) (lease : PortLease) : bool :=
  negb (process_alive h (pl_owner_pid lease)) && negb (opt_alive h (pl_service_pid lease)).

Definition orphaned (h : Host) (locked : result PortAllocatorError unit) (file : option bytes) :
    result PortAllocatorError (list PortLease) :=
  (with_registry locked file (λ registry, (file, Ok (List.filter (is_orphan h) (pr_leases registry))))).2.

Definition leases_for_owner (locked : result PortAllocatorError unit) (file : option bytes)
    (mission_id run_id : string) : result PortAllocatorError (list PortLease) :=
  if negb (valid_id mission_id) || negb (valid_id run_id)
  then Err (PortAllocatorError.InvalidOwner "mission_id/run_id")
  else
    (with_registry locked file (λ registry,
       (file, Ok (List.filter (λ l, bool_decide (pl_mission_id l = mission_id)
                                    && bool_decide (pl_run_id l = run_id)) (pr_leases registry))))).2.

Definition registry_bytes (file : option bytes) : N :=
  match file with Some b => N.of_nat (length b) | None => 0 end.

Definition cleanup_orphaned (h : Host) (locked : result PortAllocatorError unit) (written : bool)
    (file : option bytes) (lease_ids : gset string) :
    option bytes * result PortAllocatorError (list PortLease) :=
  with_registry locked file (λ registry,
    let goes l := is_orphan h l && bool_decide (pl_lease_id l ∈ lease_ids) in
    let removed := List.filter goes (pr_leases registry) in
    let kept := List.filter (λ l, negb (goes l)) (pr_leases registry) in
    if bool_decide (removed = []) then (file, Ok removed)
    else save_and_return written file (registry <| pr_leases := kept |>) removed).

(** ** Cleaning up ([cleanup.rs]) *)

Definition CleanupPortLease_from (lease : PortLease) : CleanupPortLease :=
  mkCleanupPortLease (pl_lease_id lease) (pl_mission_id lease) (pl_run_id lease) (pl_service_id lease)
    (pl_port lease) (pl_acquired_at_millis lease).

Definition cleanup_order : relation CleanupPortLease := λ a b, String.le (cp_lease_id a) (cp_lease_id b).
#[export] Instance cleanup_order_dec : RelDecision cleanup_order.
Proof. intros a b. unfold cleanup_order. apply _. Defined.

Definition cleanup_fields (lease : CleanupPortLease) : list bytes :=
  str_bytes <$> [cp_lease_id lease; cp_mission_id lease; cp_run_id lease; cp_service_id lease].

Definition cleanup_bytes (lease : CleanupPortLease) : bytes :=
  (cleanup_fields lease ≫= length_prefixed) ++ be_bytes 2 (cp_port lease)
  ++ be_bytes 8 (cp_acquired_at_millis lease).

Definition preview_digest (leases : list CleanupPortLease) (registry_bytes : N) : string :=
  hex (sha256 (str_bytes "nagi-resource-cleanup-preview-v1" ++ be_bytes 8 registry_bytes
               ++ (leases ≫= cleanup_bytes))).

(** [file'] is the file when its size is taken, which is not under the lock. *)
Definition preview (h : Host) (locked : result PortAllocatorError unit) (file file' : option bytes) :
    result CleanupError CleanupPreview :=
  orphans ← map_err CleanupError.Port (orphaned h locked file);
  let leases := merge_sort cleanup_order (CleanupPortLease_from <$> orphans) in
  let bytes := registry_bytes file' in
  Ok (mkCleanupPreview 1 (preview_digest leases bytes) bytes leases).

Definition apply_cleanup (h : Host) (locked : result PortAllocatorError unit) (written : bool)
    (file : option bytes) (inspected : CleanupPreview) :
    option bytes * result CleanupError (list CleanupPortLease) :=
  if negb (pv_schema_version inspected =? 1)%N
     || negb (bool_decide (pv_digest inspected
                           = preview_digest (pv_orphaned_ports inspected) (pv_registry_bytes inspected)))
  then (file, Err CleanupError.PreviewMismatch)
  else
    let ids := list_to_set (cp_lease_id <$> pv_orphaned_ports inspected) in
    let '(file, removed) := cleanup_orphaned h locked written file ids in
    (file, removed ← map_err CleanupError.Port removed;
           Ok (merge_sort cleanup_order (CleanupPortLease_from <$> removed))).
End registry.

(** ** The lock file ([RegistryLock])

    Processes race for one path.  Each call on the path is a step of its own:
    [open] with [create_new], writing the process id, reading it, asking for
    the process, removing the path.  A file keeps its inode when its path is
    removed and taken again; its contents are the process id once written. *)

Module RegistryLock.
Inductive Pc :=
| Idle                  (* not in the registry *)
| Opening               (* at the head of the loop *)
| Exists                (* the path was taken *)
| Asking (pid : N)      (* it names this process *)
| Removing              (* which is gone *)
| Waiting               (* before the timeout is looked at *)
| Created (inode : N)   (* the file is there and empty *)
| Holding (inode : N).  (* acquire has returned *)
#[export] Instance Pc_eq_dec : EqDecision Pc.
Proof. solve_decision. Defined.

Inductive Action :=
| Start | Die
| Acquire | Open | ReadPid | AskAlive | Remove | Sleep | TimeOut
| WritePid (written : bool)
| Unlock.

Record State := mkState {
  lock_path : option (N * option N);
  next_inode : N;
  pcs : gmap N Pc;
}.
#[export] Instance State_fields : Fields State := λ s, mkState (lock_path s) (next_inode s) (pcs s).

Definition initial : State := mkState None 0 ∅.

Definition goes (p : N) (pc : Pc) (s : State) : State := s <| pcs ::= <[p := pc]> |>.

(** [process_alive] with the processes there are *)
Definition alive (s : State) (pid : N) : bool :=
  process_alive (mkHost pid (λ q, bool_decide (is_Some (pcs s !! q))) (λ _, true)) pid.

Definition write_pid (p inode : N) (at_path : option (N * option N)) : option (N * option N) :=
  match at_path with
  | Some (i, contents) => Some (i, if (i =? inode)%N then Some p else contents)
  | None => None
  end.

Definition lock_step (s : State) (pa : N * Action) : option State :=
  let p := pa.1 in
  match pa.2, pcs s !! p with
  | Start, None => if (0 <? p)%N && (p <=? 2 ^ 31 - 1)%N then Some (goes p Idle s) else None
  | Die, Some _ => Some (s <| pcs ::= delete p |>)
  | Acquire, Some Idle => Some (goes p Opening s)
  | Open, Some Opening =>
      Some (match lock_path s with
            | None =>
                goes p (Created (next_inode s))
                  (s <| lock_path := Some (next_inode s, None) |> <| next_inode ::= N.succ |>)
            | Some _ => goes p Exists s
            end)
  | ReadPid, Some Exists =>
      Some (match lock_path s with
            | Some (_, Some pid) => goes p (Asking pid) s
            | _ => goes p Waiting s
            end)
  | AskAlive, Some (Asking pid) => Some (goes p (if alive s pid then Waiting else Removing) s)
  | Remove, Some Removing => Some (goes p Opening (s <| lock_path := None |>))
  | Sleep, Some Waiting => Some (goes p Opening s)
  | TimeOut, Some Waiting => Some (goes p Idle s)
  | WritePid written, Some (Created inode) =>
      Some (if written then goes p (Holding inode) (s <| lock_path ::= write_pid p inode |>) else goes p Idle s)
  | Unlock, Some (Holding _) => Some (goes p Idle (s <| lock_path := None |>))
  | _, _ => None
  end.

Definition lock_run (s : State) (acts : list (N * Action)) : option State :=
  foldl (λ s a, s ≫= λ s, lock_step s a) (Some s) acts.

Definition holds_lock (s : State) (p : N) : Prop := ∃ inode, pcs s !! p = Some (Holding inode).
End RegistryLock.

(** ** The lock excludes *)

Module RegistryLockFacts.
Import RegistryLock.

(** A process that has made the lock file, and its inode *)
Definition owns (s : State) (p inode : N) : Prop :=
  pcs s !! p = Some (Created inode) ∨ pcs s !! p = Some (Holding inode).

(** While nobody died the path is taken for whoever has the lock, nobody is
    about to remove it, and the processes that it names are there. *)
Record lock_ok (s : State) : Prop := {
  lo_pids p : is_Some (pcs s !! p) → (0 < p ≤ 2 ^ 31 - 1)%N;
  lo_owner p inode : owns s p inode → fst <$> lock_path s = Some inode;
  lo_single p q i j : owns s p i → owns s q j → p = q;
  lo_named inode q : lock_path s = Some (inode, Some q) → is_Some (pcs s !! q);
  lo_asked p q : pcs s !! p = Some (Asking q) → is_Some (pcs s !! q);
  lo_removing p : pcs s !! p ≠ Some Removing;
}.

Lemma alive_known s q : lock_ok s → is_Some (pcs s !! q) → alive s q = true.
Proof.
  intros Hok Hq. unfold alive, process_alive; cbn. pose proof (lo_pids s Hok q Hq).
  rewrite (proj2 (N.eqb_neq q 0)), (proj2 (N.ltb_ge _ _)) by lia. by apply bool_decide_eq_true.
Qed.

Lemma goes_pcs p pc s : pcs (goes p pc s) = <[p := pc]> (pcs s).
Proof. done. Qed.

(** A step of [p] that keeps the path and gives it a counter that owns what it
    owned keeps the invariant. *)
Lemma lock_ok_goes s p pc :
  lock_ok s → (0 < p ≤ 2 ^ 31 - 1)%N → pc ≠ Removing →
  (∀ q, pc = Asking q → is_Some (pcs s !! q)) →
  (∀ i, pc = Created i ∨ pc = Holding i → owns s p i) →
  lock_ok (goes p pc s).
Proof.
  intros Hok Hp Hrem Hask Hown.
  assert (Howns : ∀ q i, owns (goes p pc s) q i → owns s q i).
  { unfold owns. rewrite goes_pcs. intros q i. rewrite lookup_insert. case_decide as Heq; [|done].
    subst q. intros [[= ->]|[= ->]]; apply Hown; auto. }
  assert (Hin : ∀ q, is_Some (pcs s !! q) → is_Some (pcs (goes p pc s) !! q)).
  { intros q Hq. rewrite goes_pcs, lookup_insert. by case_decide. }
  split; rewrite ?goes_pcs.
  - intros q. rewrite lookup_insert. case_decide as Heq; [by subst|apply lo_pids, Hok].
  - intros q i Hq. by apply (lo_owner s Hok q), Howns.
  - intros q r i j Hq Hr. by apply (lo_single s Hok q r i j); apply Howns.
  - intros i q Hq. eapply Hin, (lo_named s Hok). exact Hq.
  - intros r q. rewrite lookup_insert. case_decide as Heq; intros Hr; apply Hin.
    + injection Hr as ->. by apply Hask.
    + by eapply (lo_asked s Hok).
  - intros q. rewrite lookup_insert. case_decide as Heq; [congruence|apply (lo_removing s Hok)].
Qed.

Lemma lock_ok_initial : lock_ok initial.
Proof.
  split; cbn; unfold owns; cbn; intros *; rewrite ?lookup_empty; intros; destruct_or?;
    try done; by destruct H.
Qed.

(** A step of [p] that changes the path: [p] had the lock or nobody did, and
    now [p] has it, if anybody. *)
Lemma lock_ok_repath s p pc f n :
  lock_ok s → is_Some (pcs s !! p) → pc ≠ Removing → (∀ q, pc ≠ Asking q) →
  (∀ q i, owns s q i → q = p) →
  (∀ i, pc = Created i ∨ pc = Holding i → fst <$> f = Some i) →
  (∀ i q, f = Some (i, Some q) → q = p) →
  lock_ok (mkState f n (<[p := pc]> (pcs s))).
Proof.
  intros Hok Hp Hrem Hask Hnone Hown Hnamed.
  assert (Howns : ∀ q i, owns (mkState f n (<[p := pc]> (pcs s))) q i
                         → q = p ∧ (pc = Created i ∨ pc = Holding i)).
  { unfold owns; cbn. intros q i. rewrite lookup_insert. case_decide as Heq.
    - subst q. intros [[= ->]|[= ->]]; auto.
    - intros Hq. by destruct Heq; rewrite (Hnone q i Hq). }
  split; cbn.
  - intros q. rewrite lookup_insert. case_decide as Heq; [subst|]; intros; by apply (lo_pids s Hok).
  - intros q i [-> Hpc]%Howns. by apply Hown.
  - by intros q r i j [-> _]%Howns [-> _]%Howns.
  - intros i q ->%Hnamed. by rewrite lookup_insert_eq.
  - intros r q. rewrite lookup_insert. case_decide as Heq; [intros [= ->]; by destruct (Hask q)|].
    intros Hr%(lo_asked s Hok). rewrite lookup_insert. by case_decide.
  - intros q. rewrite lookup_insert. case_decide as Heq; [congruence|apply (lo_removing s Hok)].
Qed.

Lemma lock_ok_step s pa s' : lock_ok s → pa.2 ≠ Die → lock_step s pa = Some s' → lock_ok s'.
Proof.
  destruct pa as [p a]. unfold lock_step; cbn. intros Hok Ha Hs.
  assert (Hpid : ∀ pc, pcs s !! p = Some pc → (0 < p ≤ 2 ^ 31 - 1)%N).
  { intros pc Hp. apply (lo_pids s Hok). by rewrite Hp. }
  destruct (pcs s !! p) as [pc|] eqn:Hpc; cycle 1.
  { destruct a; try done. destruct ((0 <? p)%N && (p <=? 2 ^ 31 - 1)%N) eqn:Hp; [|done]. inv_ok.
    injection Hs as <-. apply lock_ok_goes; naive_solver. }
  specialize (Hpid _ eq_refl).
  assert (Hin : is_Some (pcs s !! p)) by (by rewrite Hpc).
  assert (Hsingle : ∀ i q j, owns s p i → owns s q j → q = p).
  { intros i q j Hi Hj. by eapply (lo_single s Hok). }
  destruct a, pc; try done; injection Hs as <-; try (apply lock_ok_goes; naive_solver).
  - (* Open *)
    destruct (lock_path s) as [x|] eqn:Hpath; [apply lock_ok_goes; naive_solver|].
    apply (lock_ok_repath s); try naive_solver.
    intros q i Hq%(lo_owner s Hok). by rewrite Hpath in Hq.
  - (* ReadPid *)
    destruct (lock_path s) as [[i [q|]]|] eqn:Hpath; apply lock_ok_goes; try naive_solver.
    intros ? [= <-]. by eapply (lo_named s Hok).
  - (* AskAlive *)
    rewrite (alive_known s pid Hok (lo_asked s Hok _ _ Hpc)). apply lock_ok_goes; naive_solver.
  - (* Remove *) by destruct (lo_removing s Hok p).
  - (* WritePid *)
    assert (Hown : owns s p inode) by (by left).
    destruct written; [|apply lock_ok_goes; naive_solver].
    pose proof (lo_owner s Hok _ _ Hown) as Hpath.
    destruct (lock_path s) as [[i c]|] eqn:Heq; [|done]. injection Hpath as ->.
    unfold write_pid. rewrite N.eqb_refl.
    apply (lock_ok_repath s); naive_solver.
  - (* Unlock *)
    assert (Hown : owns s p inode) by (by right).
    apply (lock_ok_repath s); naive_solver.
Qed.

Lemma run_snoc s acts a : lock_run s (acts ++ [a]) = lock_run s acts ≫= λ s, lock_step s a.
Proof. unfold lock_run. by rewrite foldl_app. Qed.

Lemma lock_ok_run acts s :
  lock_run initial acts = Some s → Forall (λ pa, pa.2 ≠ Die) acts → lock_ok s.
Proof.
  revert s. induction acts as [|a acts IH] using rev_ind; intros s Hs Hacts.
  { injection Hs as <-. apply lock_ok_initial. }
  rewrite run_snoc in Hs. apply bind_Some in Hs as (s1 & Hs1 & Hs).
  apply Forall_app in Hacts as [Hacts [Ha _]%Forall_cons].
  eapply lock_ok_step; [apply IH|exact Ha|exact Hs]; done.
Qed.

(** ** An empty lock file is never stale *)

(** Nobody has the lock, and nobody is about to remove it. *)
Definition abandoned (s : State) : Prop :=
  (∃ inode, lock_path s = Some (inode, None)) ∧
  ∀ p pc, pcs s !! p = Some pc → pc ∈ [Idle; Opening; Exists; Waiting].

Lemma abandoned_goes s p pc :
  abandoned s → pc ∈ [Idle; Opening; Exists; Waiting] → abandoned (goes p pc s).
Proof.
  intros [Hpath Hpcs] Hpc. split; [done|]. intros q pc'. rewrite goes_pcs, lookup_insert.
  case_decide; [congruence|by apply Hpcs].
Qed.

Lemma abandoned_step s pa s' : abandoned s → lock_step s pa = Some s' → abandoned s'.
Proof.
  intros Hab Hs. pose proof Hab as [[inode Hpath] Hpcs]. destruct pa as [p a]. unfold lock_step in Hs.
  cbn in Hs. specialize (Hpcs p).
  destruct (pcs s !! p) as [pc|]; cycle 1.
  { destruct a; try done. destruct (_ && _); [|done]. injection Hs as <-. apply abandoned_goes; set_solver. }
  specialize (Hpcs _ eq_refl). rewrite Hpath in Hs.
  destruct a, pc; try done; try (exfalso; clear - Hpcs; set_solver);
    injection Hs as <-; try (apply abandoned_goes; [done|clear; set_solver]).
  all: split; [by exists inode|]; intros q pc Hq; cbn in Hq; apply lookup_delete_Some in Hq as [_ Hq]; by eapply Hab.
Qed.

Lemma abandoned_run s acts s' : abandoned s → lock_run s acts = Some s' → abandoned s'.
Proof.
  intros Hab. revert s'. induction acts as [|a acts IH] using rev_ind; intros s' Hs.
  { by injection Hs as <-. }
  rewrite run_snoc in Hs. apply bind_Some in Hs as (s1 & Hs1 & Hs).
  apply (abandoned_step s1 a s'); [by apply IH|done].
Qed.

(** C35: As long as no process dies, however the processes race for the lock at
    most one of them holds_lock it, and the lock file is its own. *)
Theorem lock_excludes (acts : list (N * Action)) (s : State) :
  lock_run initial acts = Some s →
  Forall (λ pa, pa.2 ≠ Die) acts →
  (∀ p q, holds_lock s p → holds_lock s q → p = q)
  ∧ ∀ p, holds_lock s p → ∃ inode contents, lock_path s = Some (inode, contents) ∧ pcs s !! p = Some (Holding inode).
Proof.
  intros Hs Hacts. pose proof (lock_ok_run acts s Hs Hacts) as Hok. split.
  - intros p q [i Hp] [j Hq]. eapply (lo_single s Hok p q i j); by right.
  - intros p [i Hp]. pose proof (lo_owner s Hok p i (or_intror Hp)) as Hpath.
    destruct (lock_path s) as [[i' c]|]; [|done]. injection Hpath as ->. eauto.
Qed.

Lemma alive_goes s p pc q : p ≠ q → alive (goes p pc s) q = alive s q.
Proof.
  intros Hpq. unfold alive, process_alive; cbn. case_match; [done|].
  apply bool_decide_ext. by rewrite lookup_insert_ne.
Qed.

Lemma run_cons s a s1 acts : lock_step s a = Some s1 → lock_run s (a :: acts) = lock_run s1 acts.
Proof. intros Ha. unfold lock_run; cbn. by rewrite Ha. Qed.

(** The lock of a process that died with its process id in the file goes to
    the next process that comes alone. *)
Lemma stale_lock_recovered s p inode q :
  lock_path s = Some (inode, Some q) → alive s q = false → p ≠ q → pcs s !! p = Some Opening →
  ∃ s', lock_run s [(p, Open); (p, ReadPid); (p, AskAlive); (p, Remove); (p, Open); (p, WritePid true)]
        = Some s' ∧ holds_lock s' p.
Proof.
  intros Hpath Hq Hpq Hp.
  assert (Hpc : ∀ s pc, pcs (goes p pc s) !! p = Some pc) by (intros; apply lookup_insert_eq).
  rewrite (run_cons _ _ (goes p Exists s)) by (unfold lock_step; cbn; by rewrite Hp, Hpath).
  rewrite (run_cons _ _ (goes p (Asking q) (goes p Exists s)))
    by (unfold lock_step; cbv zeta; cbn [fst snd]; by rewrite Hpc; cbn; rewrite Hpath).
  rewrite (run_cons _ _ (goes p Removing (goes p (Asking q) (goes p Exists s))))
    by (unfold lock_step; cbv zeta; cbn [fst snd]; by rewrite Hpc, !alive_goes, Hq).
  eexists. split.
  { erewrite run_cons by (unfold lock_step; cbv zeta; cbn [fst snd]; rewrite Hpc; reflexivity).
    erewrite run_cons by (unfold lock_step; cbv zeta; cbn [fst snd]; rewrite Hpc; reflexivity).
    change (lock_path (goes _ _ _)) with (@None (N * option N)); cbv iota.
    erewrite run_cons by (unfold lock_step; cbv zeta; cbn [fst snd]; rewrite Hpc; reflexivity).
    reflexivity. }
  eexists. apply Hpc.
Qed.

(** A process that dies, or fails to write, between making the lock file and
    writing its process id into it leaves a file that is never stale: nobody
    ever gets the lock again. *)
Theorem empty_lock_is_permanent (s s' : State) (acts : list (N * Action)) :
  abandoned s → lock_run s acts = Some s' → abandoned s' ∧ ∀ p, ¬ holds_lock s' p.
Proof.
  intros Hab Hs. pose proof (abandoned_run s acts s' Hab Hs) as Hab'. split; [done|].
  intros p [i Hp]. destruct Hab' as [_ Hpcs]. specialize (Hpcs p _ Hp). set_solver.
Qed.
End RegistryLockFacts.

Module RegistryLockDemo.
Import RegistryLock RegistryLockFacts.

Definition takes (p : N) : list (N * Action) := [(p, Start); (p, Acquire); (p, Open); (p, WritePid true)].

(** Two processes, one after the other *)
Definition two_in_turn : list (N * Action) :=
  takes 7 ++ [(8, Start); (8, Acquire); (8, Open); (8, ReadPid); (8, AskAlive); (7, Unlock);
              (8, Sleep); (8, Open); (8, WritePid true)]%N.

Lemma lock_excludes_witness :
  ∃ s, lock_run initial two_in_turn = Some s ∧ holds_lock s 8 ∧ ∀ p, holds_lock s p → p = 8%N.
Proof.
  destruct (lock_run initial two_in_turn) as [s|] eqn:Hs; [|vm_compute in Hs; discriminate Hs].
  assert (H8 : holds_lock s 8).
  { vm_compute in Hs. injection Hs as <-. by eexists; vm_compute. }
  exists s. split_and!; [done..|]. intros p Hp.
  refine (proj1 (lock_excludes two_in_turn s Hs _) p 8%N Hp H8). by repeat constructor.
Defined.

(** Looking for a stale lock and removing it are separate steps: two processes
    that both saw the lock of a third that is gone, and the second removes the
    lock that the first has made meanwhile. *)
Example stale_lock_race :
  ∃ s, lock_run initial (takes 1 ++ [(1, Die); (2, Start); (3, Start); (2, Acquire); (3, Acquire);
                                (2, Open); (2, ReadPid); (2, AskAlive); (3, Open); (3, ReadPid); (3, AskAlive);
                                (2, Remove); (2, Open); (2, WritePid true);
                                (3, Remove); (3, Open); (3, WritePid true)])%N = Some s
       ∧ holds_lock s 2 ∧ holds_lock s 3.
Proof. eexists. split_and!; [vm_compute; reflexivity|by eexists; vm_compute..]. Qed.

(** A process that dies before it has written *)
Lemma empty_lock_is_permanent_witness :
  ∃ s, lock_run initial [(1, Start); (1, Acquire); (1, Open); (1, Die); (2, Start); (2, Acquire)]%N = Some s
       ∧ abandoned s
       ∧ ∀ acts s', lock_run s acts = Some s' → ∀ p, ¬ holds_lock s' p.
Proof.
  eexists. split; [vm_compute; reflexivity|].
  assert (Hab : abandoned (mkState (Some (0, None)) 1 {[2 := Opening]})%N).
  { split; [by eexists|]. intros p pc Hp. cbn in Hp. apply lookup_singleton_Some in Hp as [_ <-]. set_solver. }
  split; [exact Hab|].
  intros acts s' Hs. exact (proj2 (empty_lock_is_permanent _ s' acts Hab Hs)).
Defined.
End RegistryLockDemo.

(** ** The digests name what they digest *)

Ltac strings_eq :=
  repeat match goal with
  | H : String.list_ascii_of_string ?s = String.list_ascii_of_string ?t |- _ =>
      apply (str_bytes_inj s t) in H
  | H : str_bytes ?s = str_bytes ?t |- _ => apply (str_bytes_inj s t) in H
  end; subst.

Lemma frames_app_inj fs gs x y :
  length fs = length gs → Forall fits_u64 fs → Forall fits_u64 gs →
  (fs ≫= length_prefixed) ++ x = (gs ≫= length_prefixed) ++ y → fs = gs ∧ x = y.
Proof.
  intros Hlen Hfs. revert gs Hlen. induction Hfs as [|f fs Hf Hfs IH]; intros [|g gs] Hlen Hgs Heq; try done.
  apply Forall_cons in Hgs as [Hg Hgs]. cbn [mbind list_bind] in Heq. unfold length_prefixed at 1 3 in Heq.
  rewrite <- !app_assoc in Heq.
  apply app_inj_1 in Heq as [Hn Heq]; [|by rewrite !length_be_bytes].
  apply be_bytes_inj in Hn; [|done..]. apply Nat2N.inj in Hn.
  apply app_inj_1 in Heq as [-> Heq]; [|done].
  destruct (IH gs) as [-> ->]; [naive_solver|done..].
Qed.

Section digests.
Context {HSha : Sha256}.

Definition owner_fits (owner : PortLeaseOwner) (request_id : string) : Prop :=
  Forall (λ s, fits_u64 (str_bytes s))
    [plo_mission_id owner; plo_run_id owner; plo_service_id owner; request_id].

(** What [lease_digest] and [preview_digest] hash *)
Definition lease_digest_text (owner : PortLeaseOwner) (request_id : string)
    (port acquired_at_millis : N) : bytes :=
  ((str_bytes <$> ["nagi-port-lease-v1"; plo_mission_id owner; plo_run_id owner; plo_service_id owner;
                   request_id]) ≫= length_prefixed)
  ++ be_bytes 2 port ++ be_bytes 8 acquired_at_millis.
Definition preview_text (leases : list CleanupPortLease) (registry_bytes : N) : bytes :=
  str_bytes "nagi-resource-cleanup-preview-v1" ++ be_bytes 8 registry_bytes
  ++ (leases ≫= cleanup_bytes).

Lemma lease_digest_inj owner owner' request request' port port' at_ at_' :
  owner_fits owner request → owner_fits owner' request' →
  (port < 2 ^ 16)%N → (port' < 2 ^ 16)%N → (at_ < 2 ^ 64)%N → (at_' < 2 ^ 64)%N →
  lease_digest owner request port at_ = lease_digest owner' request' port' at_' →
  (owner = owner' ∧ request = request' ∧ port = port' ∧ at_ = at_')
  ∨ clashes (lease_digest_text owner request port at_) (lease_digest_text owner' request' port' at_').
Proof.
  intros Ho Ho' Hp Hp' Ha Ha' Heq%hex_inj. apply sha256_inj_or in Heq as [Heq|?]; [left|by right].
  apply frames_app_inj in Heq as [Hfs Heq].
  - apply app_inj_1 in Heq as [Hport Hat]; [|by rewrite !length_be_bytes].
    apply be_bytes_inj in Hport, Hat; [|done..].
    destruct owner, owner'; cbn in Hfs. simplify_eq.
    by strings_eq.
  - done.
  - apply Forall_fmap, Forall_cons. split; [by vm_compute|]. exact Ho.
  - apply Forall_fmap, Forall_cons. split; [by vm_compute|]. exact Ho'.
Qed.

Definition cleanup_fits (lease : CleanupPortLease) : Prop :=
  Forall fits_u64 (cleanup_fields lease) ∧ (cp_port lease < 2 ^ 16)%N ∧ (cp_acquired_at_millis lease < 2 ^ 64)%N.

Lemma cleanup_bytes_app_inj l l' x y :
  cleanup_fits l → cleanup_fits l' → cleanup_bytes l ++ x = cleanup_bytes l' ++ y → l = l' ∧ x = y.
Proof.
  intros (Hf & Hp & Ha) (Hf' & Hp' & Ha'). unfold cleanup_bytes. rewrite <- !app_assoc. intros Heq.
  apply frames_app_inj in Heq as [Hfs Heq]; [|done..].
  apply app_inj_1 in Heq as [Hport Heq]; [|by rewrite !length_be_bytes].
  apply app_inj_1 in Heq as [Hat ->]; [|by rewrite !length_be_bytes].
  apply be_bytes_inj in Hport, Hat; [|done..].
  destruct l, l'; cbn in *. simplify_eq.
  by strings_eq.
Qed.

Lemma cleanup_list_inj ls ls' :
  Forall cleanup_fits ls → Forall cleanup_fits ls' →
  ls ≫= cleanup_bytes = ls' ≫= cleanup_bytes → ls = ls'.
Proof.
  intros Hls. revert ls'. induction Hls as [|l ls Hl Hls IH]; intros [|l' ls'] Hls' Heq; try done.
  cbn [mbind list_bind] in Heq. apply Forall_cons in Hls' as [Hl' Hls'].
  apply cleanup_bytes_app_inj in Heq as [-> Heq]; [|done..]. f_equal. by apply IH.
Qed.

Lemma preview_digest_inj ls ls' n n' :
  Forall cleanup_fits ls → Forall cleanup_fits ls' → (n < 2 ^ 64)%N → (n' < 2 ^ 64)%N →
  preview_digest ls n = preview_digest ls' n' →
  (ls = ls' ∧ n = n') ∨ clashes (preview_text ls n) (preview_text ls' n').
Proof.
  intros Hls Hls' Hn Hn' Heq%hex_inj. apply sha256_inj_or in Heq as [Heq|?]; [left|by right].
  apply app_inv_head in Heq. apply app_inj_1 in Heq as [Hb Heq]; [|by rewrite !length_be_bytes].
  apply be_bytes_inj in Hb; [|done..]. split; [by apply cleanup_list_inj|done].
Qed.
End digests.

(** ** The registry stays well formed *)

Section invariant.
Context {HSha : Sha256} {HSpec : Sha256Spec} {HJson : PortJson} {HJsonSpec : PortJsonSpec}.

Definition lease_owner (l : PortLease) : PortLeaseOwner :=
  mkPortLeaseOwner (pl_mission_id l) (pl_run_id l) (pl_service_id l).

(** What a lease's identifier is the hash of *)
Definition lease_id_text (l : PortLease) : bytes :=
  lease_digest_text (lease_owner l) (pl_request_id l) (pl_port l) (pl_acquired_at_millis l).

(** A lease as [reserve] makes it, whatever processes it went through *)
Record lease_ok (l : PortLease) : Prop := {
  lk_valid : valid_persisted_lease l = true;
  lk_id : pl_lease_id l = lease_digest (lease_owner l) (pl_request_id l) (pl_port l) (pl_acquired_at_millis l);
  lk_port : (pl_port l < 2 ^ 16)%N;
  lk_time : (pl_acquired_at_millis l < 2 ^ 64)%N;
}.

Record registry_ok (r : PortRegistryFile) : Prop := {
  ro_schema : pr_schema_version r = REGISTRY_SCHEMA_V1;
  ro_leases : Forall lease_ok (pr_leases r);
  ro_ports : NoDup (pl_port <$> pr_leases r);
  ro_requests : NoDup (pl_request_id <$> pr_leases r);
  ro_sorted : StronglySorted port_order (pr_leases r);
}.

Definition file_ok (f : option bytes) : Prop :=
  ∀ b, f = Some b → ∃ r, registry_to_vec_pretty r = Some b ∧ registry_ok r.

Lemma registry_ok_default : registry_ok PortRegistryFile_default.
Proof. split; cbn; try constructor. Qed.

(** What a file says is what was written to it. *)
Lemma load_written f r :
  file_ok f → load_registry f = Ok r →
  registry_ok r ∧ ((f = None ∧ r = PortRegistryFile_default)
                   ∨ ∃ b, f = Some b ∧ registry_to_vec_pretty r = Some b).
Proof.
  intros Hf Hr. destruct f as [b|]; [|cbn in Hr; inv_ok; split; [apply registry_ok_default|by left]].
  destruct (Hf b eq_refl) as (r' & Hb & Hok). cbn in Hr. inv_ok.
  destruct (port_json_roundtrip r' b Hb) as [Hr' _]. simplify_eq. split; [done|right]. eauto.
Qed.

(** [valid_id] bounds the length. *)
Lemma valid_id_fits s : valid_id s = true → fits_u64 (str_bytes s).
Proof.
  unfold valid_id. intros H. inv_ok. unfold fits_u64, str_len in *.
  change (256 ^ 8)%N with 18446744073709551616%N. lia.
Qed.

Lemma lease_ok_fits l : lease_ok l → owner_fits (lease_owner l) (pl_request_id l).
Proof.
  intros [Hv _ _ _]. unfold valid_persisted_lease in Hv. inv_ok.
  repeat constructor; by apply valid_id_fits.
Qed.

(** Leases of different requests have different identifiers. *)
Lemma lease_ids_distinct ls :
  Forall lease_ok ls → NoDup (pl_request_id <$> ls) → NoDup (pl_lease_id <$> ls) ∨ collision_among (lease_id_text <$> ls).
Proof.
  intros Hls. induction Hls as [|l ls Hl Hls IH]; cbn; [left; constructor|].
  intros [Hnew Hreq]%NoDup_cons. destruct (IH Hreq) as [IH'|Hc].
  2: { right. eapply collision_among_mono; [|exact Hc]. set_solver. }
  destruct (decide (pl_lease_id l ∈ pl_lease_id <$> ls)) as [Hin|]; [right|left; by constructor].
  apply list_elem_of_fmap in Hin as (l' & Hid & Hl').
  pose proof (proj1 (Forall_forall _ _) Hls l' Hl') as Hok'.
  rewrite (lk_id l Hl), (lk_id l' Hok') in Hid.
  apply lease_digest_inj in Hid as [(_ & Hreq' & _)|Hc];
    [|by apply (clashes_among _ (lease_id_text l) (lease_id_text l')); [left|right; apply list_elem_of_fmap_2|]|..];
    try (by apply lease_ok_fits); try (by apply lk_port); try (by apply lk_time).
  destruct Hnew. rewrite Hreq'. by apply list_elem_of_fmap_2.
Qed.

Lemma all_fresh_NoDup {A} `{Countable A} (seen : gset A) xs :
  all_fresh seen xs = true ↔ NoDup xs ∧ ∀ x, x ∈ xs → x ∉ seen.
Proof.
  revert seen. induction xs as [|x xs IH]; intros seen; cbn.
  { split; [|done]. intros _. split; [constructor|set_solver]. }
  rewrite andb_true_iff, negb_true_iff, bool_decide_eq_false, IH, NoDup_cons. set_solver.
Qed.

(** A well-formed registry is read, unless it has grown too large. *)
Lemma load_well_formed b r :
  registry_to_vec_pretty r = Some b → registry_ok r →
  load_registry (Some b) = Ok r
  ∨ (MAX_REGISTRY_BYTES < N.of_nat (length b))%N ∧ load_registry (Some b) = Err PortAllocatorError.RegistryTooLarge
  ∨ collision_among (lease_id_text <$> pr_leases r).
Proof.
  intros Hb Hok. destruct (port_json_roundtrip r b Hb) as [Hr Hutf]. cbn.
  destruct (N.ltb_spec MAX_REGISTRY_BYTES (N.of_nat (length b))); [right; by left|].
  rewrite Hutf, Hr; cbn. rewrite (ro_schema r Hok); cbn.
  assert (Hvalid : ∀ l, l ∈ pr_leases r → valid_persisted_lease l = true).
  { intros l Hl. by apply lk_valid, (proj1 (Forall_forall _ _) (ro_leases r Hok)). }
  rewrite (existsb_none (λ l, negb (pl_schema_version l =? REGISTRY_SCHEMA_V1)%N)),
    (existsb_none (λ l, negb (valid_persisted_lease l))); cbn.
  2: { by intros l ->%Hvalid. }
  2: { intros l Hl%Hvalid. unfold valid_persisted_lease in Hl. inv_ok. by apply negb_false_iff, N.eqb_eq. }
  rewrite (proj2 (all_fresh_NoDup ∅ (pl_port <$> pr_leases r))); [|split; [apply Hok|set_solver]].
  destruct (lease_ids_distinct (pr_leases r)) as [Hids|]; [apply Hok..| |by right; right].
  rewrite (proj2 (all_fresh_NoDup ∅ (pl_lease_id <$> pr_leases r))); [by left|split; [done|set_solver]].
Qed.

(** *** Changes *)

(** Leases that differ in their processes only *)
Definition same_lease (l l' : PortLease) : Prop :=
  l' <| pl_owner_pid := pl_owner_pid l |> <| pl_service_pid := pl_service_pid l |> = l.

Lemma lease_ok_same l l' : same_lease l l' → pl_owner_pid l' ≠ 0%N → lease_ok l → lease_ok l'.
Proof.
  unfold same_lease. destruct l, l'; cbn. intros [=] Hpid [Hv Hid Hport Htime]; subst; cbn in *.
  split; cbn; [|done..]. revert Hv. unfold valid_persisted_lease; cbn.
  rewrite !andb_true_iff, !negb_true_iff, !N.eqb_neq. tauto.
Qed.

Lemma fmap_insert_same {A} (g : PortLease → A) (ls : list PortLease) (i : nat) l l' :
  ls !! i = Some l → g l' = g l → g <$> <[i := l']> ls = g <$> ls.
Proof.
  intros Hl Hg. rewrite list_fmap_insert, Hg. apply list_insert_id. by rewrite list_lookup_fmap, Hl.
Qed.

Lemma sorted_by_ports ls ls' :
  pl_port <$> ls = pl_port <$> ls' → StronglySorted port_order ls → StronglySorted port_order ls'.
Proof.
  intros Heq Hs. revert ls' Heq. induction Hs as [|l ls Hs IH Hl]; intros [|l' ls'] Heq; try done; [constructor|].
  injection Heq as Hp Heq. change (pl_port <$> ls = pl_port <$> ls') in Heq.
  constructor; [by apply IH|]. rewrite Forall_forall in Hl |- *.
  intros x Hx. assert (Hin : pl_port x ∈ pl_port <$> ls) by (rewrite Heq; by apply list_elem_of_fmap_2).
  apply list_elem_of_fmap in Hin as (y & Hy & Hyin). unfold port_order. rewrite <- Hp, Hy. by apply Hl.
Qed.

Lemma registry_ok_rebound r i l l' :
  registry_ok r → pr_leases r !! i = Some l → same_lease l l' → pl_owner_pid l' ≠ 0%N →
  registry_ok (r <| pr_leases ::= <[i := l']> |>).
Proof.
  intros [Hs Hls Hp Hr Hsort] Hl Hsame Hpid.
  assert (Hkeys : pl_port l' = pl_port l ∧ pl_request_id l' = pl_request_id l).
  { unfold same_lease in Hsame. rewrite <- Hsame. done. }
  destruct Hkeys as [Hport Hreq].
  split; cbn; [done|..].
  - apply Forall_insert; [done|]. eapply lease_ok_same; [done..|].
    by eapply (proj1 (Forall_lookup _ _) Hls).
  - by rewrite (fmap_insert_same _ _ _ l).
  - by rewrite (fmap_insert_same _ _ _ l).
  - eapply sorted_by_ports; [|exact Hsort]. by rewrite (fmap_insert_same _ _ _ l).
Qed.

Lemma registry_ok_filter r p :
  registry_ok r → registry_ok (r <| pr_leases := List.filter p (pr_leases r) |>).
Proof.
  intros [Hs Hls Hp Hr Hsort].
  assert (Hsub : List.filter p (pr_leases r) `sublist_of` pr_leases r).
  { clear. induction (pr_leases r) as [|l ls IH]; cbn; [done|]. destruct (p l); by constructor. }
  split; cbn; [done|..].
  - rewrite Forall_forall in Hls |- *. intros l Hl. apply Hls. by eapply elem_of_sublist.
  - eapply sublist_NoDup; [exact Hp|]. apply (fmap_sublist _ _ _ Hsub).
  - eapply sublist_NoDup; [exact Hr|]. apply (fmap_sublist _ _ _ Hsub).
  - clear - Hsort. induction Hsort as [|l ls Hs IH Hl]; cbn; [constructor|]. destruct (p l); [|done].
    constructor; [done|]. rewrite Forall_forall in Hl |- *.
    intros x [Hx _]%list_elem_of_In%filter_In. apply Hl. by apply list_elem_of_In.
Qed.

(** *** What the operations write *)

(** The file after a save: the registry that was to be written, or the file
    as it was *)
Definition saved (f : option bytes) (r : PortRegistryFile) (f' : option bytes) : Prop :=
  f' = f ∨ ∃ b, f' = Some b ∧ registry_to_vec_pretty r = Some b.

Lemma save_and_return_spec {A} written f r (a : A) f' res :
  save_and_return written f r a = (f', res) →
  (∃ b, res = Ok a ∧ f' = Some b ∧ registry_to_vec_pretty r = Some b)
  ∨ ∃ e, res = Err e ∧ f' = f ∧ (e = PortAllocatorError.Serialize ∨ e = PortAllocatorError.Io).
Proof.
  unfold save_and_return, save_registry. intros Hs.
  destruct (registry_to_vec_pretty r) as [b|]; [destruct written|]; simplify_eq/=; eauto 7.
Qed.

Lemma file_ok_saved {A} written f r (a : A) :
  file_ok f → registry_ok r → file_ok (save_and_return written f r a).1.
Proof.
  intros Hf Hr. destruct (save_and_return written f r a) as [f' res] eqn:Hs.
  apply save_and_return_spec in Hs as [(b & _ & -> & Hb)|(e & _ & -> & _)]; [|done].
  intros b' [= <-]. eauto.
Qed.

Lemma file_ok_with_registry {A} locked f (op : PortRegistryFile → option bytes * result PortAllocatorError A) :
  file_ok f → (∀ r, load_registry f = Ok r → registry_ok r → file_ok (op r).1) →
  file_ok (with_registry locked f op).1.
Proof.
  intros Hf Hop. unfold with_registry.
  destruct (_ ← locked; load_registry f) as [r|e] eqn:Hr; [|done]. inv_ok.
  apply Hop; [done|]. by eapply load_written.
Qed.

(** What [reserve] relies on: an allocator from [open], an owner from [new],
    a process of one's own and a clock of 64 bits *)
Record caller_ok (a : PortAllocator) (h : Host) (owner : PortLeaseOwner) (acquired_at_millis : N) : Prop := {
  co_start : (0 < al_start a)%N;
  co_end : (al_end a < 2 ^ 16)%N;
  co_pid : h_pid h ≠ 0%N;
  co_owner : valid_id (plo_mission_id owner) = true ∧ valid_id (plo_run_id owner) = true
             ∧ valid_id (plo_service_id owner) = true;
  co_time : (acquired_at_millis < 2 ^ 64)%N;
}.

Lemma elem_of_port_range a p : p ∈ port_range a ↔ (al_start a ≤ p ≤ al_end a)%N.
Proof.
  unfold port_range. rewrite list_elem_of_fmap. setoid_rewrite elem_of_seq. split.
  - intros (i & -> & Hi). lia.
  - intros Hp. exists (N.to_nat (p - al_start a)). lia.
Qed.

Lemma find_first_split {A} (q : A → bool) l x :
  find_first q l = Some x → ∃ l1 l2, l = l1 ++ x :: l2 ∧ q x = true ∧ Forall (λ y, q y = false) l1.
Proof.
  unfold find_first. induction l as [|y l IH]; cbn; [done|]. destruct (q y) eqn:Hy.
  - intros [= ->]. by exists [], l.
  - intros (l1 & l2 & -> & Hx & Hl1)%IH. exists (y :: l1), l2. auto.
Qed.

Lemma find_first_port a q p :
  find_first q (port_range a) = Some p →
  q p = true ∧ (al_start a ≤ p ≤ al_end a)%N ∧ ∀ p', (al_start a ≤ p' < p)%N → q p' = false.
Proof.
  intros Hp. apply find_first_split in Hp as (l1 & l2 & Hl & Hp & Hl1).
  assert (Hat : ∀ i x, port_range a !! i = Some x ↔ (x = al_start a + N.of_nat i ∧ x ≤ al_end a)%N).
  { intros i x. unfold port_range. rewrite list_lookup_fmap, fmap_Some. setoid_rewrite lookup_seq.
    split; [intros (? & ? & ->); lia|intros ?; exists i; lia]. }
  destruct (proj1 (Hat (length l1) p)) as [Hpos Hend].
  { rewrite Hl. by apply list_lookup_middle. }
  split_and!; [done|lia..|]. intros p' Hp'. rewrite Forall_lookup in Hl1.
  apply (Hl1 (N.to_nat (p' - al_start a))). rewrite <- (lookup_app_l l1 (p :: l2)) by lia.
  rewrite <- Hl. apply Hat. lia.
Qed.

Lemma registry_ok_reserved r a h owner request acquired port :
  registry_ok r → caller_ok a h owner acquired → valid_id request = true →
  port ∉ pl_port <$> pr_leases r → (al_start a ≤ port ≤ al_end a)%N →
  Forall (λ l, pl_request_id l ≠ request) (pr_leases r) →
  registry_ok (r <| pr_leases ::= λ ls, merge_sort port_order (ls ++ [
    mkPortLease REGISTRY_SCHEMA_V1 (lease_digest owner request port acquired) request
      (plo_mission_id owner) (plo_run_id owner) (plo_service_id owner) port (h_pid h) None acquired]) |>).
Proof.
  intros [Hs Hls Hp Hr Hsort] [Hstart Hend Hpid (Hm & Hrun & Hsv) Htime] Hreq Hfree Hrange Hnew.
  set (lease := mkPortLease _ _ _ _ _ _ _ _ _ _).
  pose proof (merge_sort_Permutation port_order (pr_leases r ++ [lease])) as Hperm.
  rewrite (comm app) in Hperm at 2. cbn [app] in Hperm.
  assert (Hok : lease_ok lease).
  { split; [|by destruct owner|cbn; lia|done]. unfold valid_persisted_lease.
    rewrite !andb_true_iff, !negb_true_iff, !N.eqb_neq, N.eqb_eq. split_and!; try done; [| |cbn; lia].
    - unfold str_len. cbn [pl_lease_id lease]. unfold lease_digest. by rewrite length_hex, sha256_length.
    - apply hex_is_hexdigit. }
  split; cbn; [done|..].
  - rewrite Hperm. by constructor.
  - rewrite Hperm. cbn. by constructor.
  - rewrite Hperm. cbn. constructor; [|done]. intros (l & Hl & Hin)%list_elem_of_fmap.
    rewrite Forall_forall in Hnew. by apply (Hnew l Hin).
  - apply StronglySorted_merge_sort; apply _.
Qed.

(** *** Reservations *)

(** A reservation that was made: the lease it returns is the only one of its
    request and of its port in the registry that was written, which is
    otherwise as before; a request that had a lease keeps its port and
    identifier, a new one gets the least port that is free. *)
Record reserved (a : PortAllocator) (h : Host) (owner : PortLeaseOwner) (request : string) (acquired : N)
    (r r' : PortRegistryFile) (rv : PortReservation) : Prop := {
  rs_in : rv_lease rv ∈ pr_leases r';
  rs_owner : lease_owner (rv_lease rv) = owner ∧ pl_request_id (rv_lease rv) = request
             ∧ pl_owner_pid (rv_lease rv) = h_pid h;
  rs_others l : pl_request_id l ≠ request → l ∈ pr_leases r' ↔ l ∈ pr_leases r;
  rs_bound : rv_listener rv = true → h_bind h (pl_port (rv_lease rv)) = true;
  rs_kept l : l ∈ pr_leases r → pl_request_id l = request →
    pl_port (rv_lease rv) = pl_port l ∧ pl_lease_id (rv_lease rv) = pl_lease_id l
    ∧ pl_acquired_at_millis (rv_lease rv) = pl_acquired_at_millis l;
  rs_new : (∀ l, l ∈ pr_leases r → pl_request_id l ≠ request) →
    rv_listener rv = true ∧ pl_acquired_at_millis (rv_lease rv) = acquired
    ∧ (al_start a ≤ pl_port (rv_lease rv) ≤ al_end a)%N
    ∧ ∀ p, (al_start a ≤ p < pl_port (rv_lease rv))%N → p ∈ pl_port <$> pr_leases r ∨ h_bind h p = false;
}.

Lemma elem_of_rebound ls (i : nat) (l l' x : PortLease) :
  ls !! i = Some l → pl_request_id l' = pl_request_id l → NoDup (pl_request_id <$> ls) →
  (l' ∈ <[i := l']> ls) ∧ (pl_request_id x ≠ pl_request_id l → x ∈ <[i := l']> ls ↔ x ∈ ls).
Proof.
  intros Hl Hreq Hnd. pose proof (lookup_lt_Some _ _ _ Hl) as Hlt. split.
  { apply list_elem_of_lookup. exists i. by apply list_lookup_insert_eq. }
  intros Hx. rewrite !list_elem_of_lookup. split; intros [j Hj]; exists j.
  - apply list_lookup_insert_Some in Hj as [(-> & -> & _)|[_ Hj]]; [congruence|done].
  - rewrite list_lookup_insert_ne; [done|]. intros ->. congruence.
Qed.

Lemma request_unique ls (i : nat) (l l' : PortLease) :
  ls !! i = Some l → l' ∈ ls → pl_request_id l' = pl_request_id l → NoDup (pl_request_id <$> ls) → l' = l.
Proof.
  intros Hl [j Hj]%list_elem_of_lookup Hreq Hnd.
  assert (i = j) as ->; [|congruence].
  eapply (NoDup_lookup _ _ _ (pl_request_id l) Hnd); rewrite list_lookup_fmap; [by rewrite Hl|by rewrite Hj, <- Hreq].
Qed.

Lemma port_unique r l l' :
  registry_ok r → l ∈ pr_leases r → l' ∈ pr_leases r → pl_port l = pl_port l' → l = l'.
Proof.
  intros Hr [i Hi]%list_elem_of_lookup [j Hj]%list_elem_of_lookup Hp.
  assert (i = j) as ->; [|congruence].
  eapply (NoDup_lookup _ _ _ (pl_port l) (ro_ports r Hr)); rewrite list_lookup_fmap; [by rewrite Hi|by rewrite Hj, Hp].
Qed.

Lemma reserve_rebinds a h written f r owner request acquired i existing f' rv :
  registry_ok r → pr_leases r !! i = Some existing → pl_request_id existing = request →
  same_owner existing owner = true →
  reserve_existing h written f r i existing = (f', Ok rv) →
  ∃ r' b', f' = Some b' ∧ registry_to_vec_pretty r' = Some b' ∧ reserved a h owner request acquired r r' rv.
Proof.
  intros Hr Hi <- Hown Hres. unfold same_owner in Hown. inv_ok.
  assert (Hmain : ∀ lease bound,
    pl_request_id lease = pl_request_id existing → pl_port lease = pl_port existing →
    pl_lease_id lease = pl_lease_id existing →
    pl_acquired_at_millis lease = pl_acquired_at_millis existing →
    lease_owner lease = lease_owner existing → pl_owner_pid lease = h_pid h →
    (bound = true → h_bind h (pl_port existing) = true) →
    reserved a h owner (pl_request_id existing) acquired r (r <| pr_leases ::= <[i := lease]> |>)
      (mkPortReservation lease bound)).
  { intros lease bound Hlreq Hport Hid Hat Howner Hpid Hbound.
    pose proof (λ x, elem_of_rebound _ i existing lease x Hi Hlreq (ro_requests r Hr)) as Hin.
    assert (Hex : existing ∈ pr_leases r) by (by eapply list_elem_of_lookup_2).
    split; cbn.
    - exact (proj1 (Hin lease)).
    - split_and!; [|done..]. rewrite Howner. destruct owner; unfold lease_owner; cbn in *; congruence.
    - intros l Hl. exact (proj2 (Hin l) Hl).
    - by rewrite Hport.
    - intros l Hl Hlr. by rewrite (request_unique _ i existing l Hi Hl Hlr (ro_requests r Hr)).
    - intros Hnone. by destruct (Hnone existing Hex). }
  unfold reserve_existing in Hres. destruct (opt_alive h (pl_service_pid existing)).
  - destruct (negb _ && _); [done|].
    apply save_and_return_spec in Hres as [(b & Hrv & -> & Hb)|(e & ? & _)]; [|done].
    injection Hrv as ->. eexists _, b. split_and!; [done|exact Hb|]. by apply Hmain.
  - destruct (bind_exact h (pl_port existing)) as [[]|] eqn:Hbind; [|done].
    apply save_and_return_spec in Hres as [(b & Hrv & -> & Hb)|(e & ? & _)]; [|done].
    injection Hrv as ->. eexists _, b. split_and!; [done|exact Hb|]. apply Hmain; try done.
    intros _. unfold bind_exact in Hbind. by destruct (h_bind h _).
Qed.

Lemma reserve_takes a h written f r owner request acquired f' rv :
  (∀ l, l ∈ pr_leases r → pl_request_id l ≠ request) →
  reserve_new a h written f r owner request acquired = (f', Ok rv) →
  ∃ r' b', f' = Some b' ∧ registry_to_vec_pretty r' = Some b' ∧ reserved a h owner request acquired r r' rv.
Proof.
  intros Hnew Hres. unfold reserve_new in Hres.
  destruct (find_first _ _) as [port|] eqn:Hport; [|done].
  apply find_first_port in Hport as (Hfree & Hrange & Hleast).
  apply save_and_return_spec in Hres as [(b & Hrv & -> & Hb)|(e & ? & _)]; [|done].
  injection Hrv as ->. eexists _, b. split_and!; [done|exact Hb|]. inv_ok.
  assert (Hbind : h_bind h port = true).
  { match goal with H : is_ok _ = true |- _ => revert H end. unfold bind_exact. by destruct (h_bind h port). }
  split; cbn; try done.
  - rewrite merge_sort_Permutation. set_solver.
  - by destruct owner.
  - intros l Hl. rewrite merge_sort_Permutation, elem_of_app, list_elem_of_singleton.
    split; [intros [?| ->]; done|by left].
  - intros l Hl Hlr. by destruct (Hnew l Hl).
  - intros _. split_and!; [done..|lia|lia|]. intros p Hp. specialize (Hleast p Hp).
    apply andb_false_iff in Hleast as [Hocc|Hb']; [left; by inv_ok|right].
    unfold bind_exact in Hb'. by destruct (h_bind h p).
Qed.

(** *** Any sequence of operations *)

(** A change of the registry file by some server, whether or not it gets the
    lock and whether or not its write succeeds *)
Inductive port_step (f : option bytes) : option bytes → Prop :=
| step_reserve a h locked written owner request acquired :
    caller_ok a h owner acquired →
    port_step f (reserve a h locked written f owner request acquired).1
| step_bind h locked written lease_id service_pid :
    port_step f (bind_service_process h locked written f lease_id service_pid).1
| step_release locked written lease :
    port_step f (release_port locked written f lease).1
| step_cleanup h locked written ids :
    port_step f (cleanup_orphaned h locked written f ids).1
| step_apply h locked written inspected :
    port_step f (apply_cleanup h locked written f inspected).1.

Lemma reserve_file_ok a h locked written f owner request acquired :
  caller_ok a h owner acquired → file_ok f → file_ok (reserve a h locked written f owner request acquired).1.
Proof.
  intros Hc Hf. unfold reserve. destruct (valid_id request) eqn:Hreq; [|done].
  apply file_ok_with_registry; [done|]. intros r _ Hr.
  destruct (list_find _ _) as [[i l]|] eqn:Hfind.
  - apply list_find_Some in Hfind as (Hl & _). destruct (same_owner l owner); [|done].
    unfold reserve_existing.
    assert (Hpid : h_pid h ≠ 0%N) by apply Hc.
    destruct (opt_alive _ _); [destruct (_ && _); [done|]|destruct (bind_exact _ _); [|done]].
    all: apply file_ok_saved; [done|]; eapply registry_ok_rebound; [done|exact Hl| |done]; by destruct l.
  - apply list_find_None in Hfind. unfold reserve_new.
    destruct (find_first _ _) as [port|] eqn:Hport; [|done].
    apply find_first_port in Hport as (Hfree & Hrange & _). inv_ok.
    apply file_ok_saved; [done|]. by eapply registry_ok_reserved.
Qed.

Lemma bind_file_ok h locked written f lease_id service_pid :
  file_ok f → file_ok (bind_service_process h locked written f lease_id service_pid).1.
Proof.
  intros Hf. unfold bind_service_process. destruct (service_pid =? 0)%N; [done|].
  apply file_ok_with_registry; [done|]. intros r _ Hr.
  destruct (list_find _ _) as [[i l]|] eqn:Hfind; [|done].
  apply list_find_Some in Hfind as (Hl & _). destruct (negb _); [done|].
  apply file_ok_saved; [done|]. eapply registry_ok_rebound; [done|exact Hl|by destruct l|].
  pose proof (proj1 (Forall_lookup _ _) (ro_leases r Hr) i l Hl) as [Hv _ _ _].
  unfold valid_persisted_lease in Hv. by inv_ok.
Qed.

Lemma cleanup_file_ok h locked written f ids :
  file_ok f → file_ok (cleanup_orphaned h locked written f ids).1.
Proof.
  intros Hf. apply file_ok_with_registry; [done|]. intros r _ Hr; cbv zeta.
  destruct (bool_decide _); [done|]. apply file_ok_saved; [done|]. by apply registry_ok_filter.
Qed.

Lemma port_step_ok f f' : port_step f f' → file_ok f → file_ok f'.
Proof.
  intros [] Hf.
  - by apply reserve_file_ok.
  - by apply bind_file_ok.
  - apply file_ok_with_registry; [done|]. intros r _ Hr; cbv zeta.
    destruct (negb _); [|done]. apply file_ok_saved; [done|]. by apply registry_ok_filter.
  - by apply cleanup_file_ok.
  - unfold apply_cleanup. destruct (_ || _); [done|].
    pose proof (cleanup_file_ok h locked written f
                  (list_to_set (cp_lease_id <$> pv_orphaned_ports inspected)) Hf) as Hok.
    by destruct (cleanup_orphaned _ _ _ _ _).
Qed.

Lemma port_steps_ok f : rtc port_step None f → file_ok f.
Proof.
  intros Hsteps. assert (H0 : file_ok None) by done.
  induction Hsteps as [|f1 f2 f3 H12 H23 IH]; [done|]. apply IH. by eapply port_step_ok.
Qed.

(** C34: Whatever servers reserve, bind, release and clean up, the registry file
    is missing or is what the code writes for leases with distinct ports and
    requests, in the order of their ports, each identified by the digest of
    what it leases.  These leases are what is read back, unless the file has
    grown past its limit or the texts that the identifiers of two of them are
    taken of have one SHA-256. *)
Theorem registry_invariant (f : option bytes) :
  rtc port_step None f →
  match f with
  | None => load_registry f = Ok PortRegistryFile_default
  | Some b =>
      ∃ r, registry_to_vec_pretty r = Some b ∧ registry_ok r
        ∧ (load_registry f = Ok r
           ∨ (MAX_REGISTRY_BYTES < N.of_nat (length b))%N ∧ load_registry f = Err PortAllocatorError.RegistryTooLarge
           ∨ collision_among (lease_id_text <$> pr_leases r))
  end.
Proof.
  intros Hf%port_steps_ok. destruct f as [b|]; [|done].
  destruct (Hf b eq_refl) as (r & Hb & Hr). exists r. split_and!; [done..|by apply load_well_formed].
Qed.

Lemma same_owner_true l owner : same_owner l owner = true ↔ lease_owner l = owner.
Proof.
  unfold same_owner, lease_owner. rewrite !andb_true_iff, !bool_decide_eq_true.
  destruct owner; cbn. split; [intros [[-> ->] ->]|intros [=]]; done.
Qed.

Lemma reserve_existing_err h written f r i l f' e :
  reserve_existing h written f r i l = (f', Err e) →
  f' = f ∧
  ((e = PortAllocatorError.LeaseNotOwned ∧ opt_alive h (pl_service_pid l) = true
    ∧ pl_owner_pid l ≠ h_pid h ∧ process_alive h (pl_owner_pid l) = true)
   ∨ (e = PortAllocatorError.PortNoLongerAvailable (pl_port l) ∧ opt_alive h (pl_service_pid l) = false
      ∧ h_bind h (pl_port l) = false)
   ∨ e = PortAllocatorError.Serialize ∨ e = PortAllocatorError.Io).
Proof.
  unfold reserve_existing. intros Hres. destruct (opt_alive h _).
  - destruct (negb _ && _) eqn:Hp; [inv_ok; simplify_eq/=; auto 7|].
    apply save_and_return_spec in Hres as [(b & ? & _)|(e' & [= ->] & -> & He)]; [done|]. auto.
  - unfold bind_exact in Hres. destruct (h_bind h _) eqn:Hb; [|simplify_eq/=; auto 7].
    apply save_and_return_spec in Hres as [(b & ? & _)|(e' & [= ->] & -> & He)]; [done|]. auto.
Qed.

Lemma reserve_new_err a h written f r owner request acquired f' e :
  reserve_new a h written f r owner request acquired = (f', Err e) →
  f' = f ∧
  ((e = PortAllocatorError.NoPortAvailable
    ∧ ∀ p, (al_start a ≤ p ≤ al_end a)%N → p ∈ pl_port <$> pr_leases r ∨ h_bind h p = false)
   ∨ e = PortAllocatorError.Serialize ∨ e = PortAllocatorError.Io).
Proof.
  unfold reserve_new. intros Hres. destruct (find_first _ _) eqn:Hfind.
  - apply save_and_return_spec in Hres as [(b & ? & _)|(e' & [= ->] & -> & He)]; [done|]. auto.
  - simplify_eq/=. split; [done|left; split; [done|]]. intros p Hp%elem_of_port_range%list_elem_of_In.
    pose proof (find_none _ _ Hfind p Hp) as Hno; cbn in Hno. apply andb_false_iff in Hno as [Ho|Hb].
    + left. by inv_ok.
    + right. unfold bind_exact in Hb. by destruct (h_bind h p).
Qed.

(** Why a reservation is refused *)
Definition refused (a : PortAllocator) (h : Host) (owner : PortLeaseOwner) (request : string)
    (r : PortRegistryFile) (e : PortAllocatorError) : Prop :=
  let of_request l := l ∈ pr_leases r ∧ pl_request_id l = request in
  match e with
  | PortAllocatorError.InvalidRequestId => valid_id request = false
  | PortAllocatorError.RequestConflict => ∃ l, of_request l ∧ lease_owner l ≠ owner
  | PortAllocatorError.LeaseNotOwned =>
      ∃ l, of_request l ∧ lease_owner l = owner ∧ opt_alive h (pl_service_pid l) = true
           ∧ pl_owner_pid l ≠ h_pid h ∧ process_alive h (pl_owner_pid l) = true
  | PortAllocatorError.PortNoLongerAvailable p =>
      ∃ l, of_request l ∧ lease_owner l = owner ∧ opt_alive h (pl_service_pid l) = false
           ∧ pl_port l = p ∧ h_bind h p = false
  | PortAllocatorError.NoPortAvailable =>
      (∀ l, ¬ of_request l)
      ∧ ∀ p, (al_start a ≤ p ≤ al_end a)%N → p ∈ pl_port <$> pr_leases r ∨ h_bind h p = false
  | PortAllocatorError.Serialize | PortAllocatorError.Io => True
  | _ => False
  end.

(** Every branch of [reserve] *)
Lemma reserve_branches a h written f f' r owner request acquired res :
  file_ok f → load_registry f = Ok r →
  reserve a h (Ok tt) written f owner request acquired = (f', res) →
  match res with
  | Ok rv => ∃ r' b', f' = Some b' ∧ registry_to_vec_pretty r' = Some b' ∧ reserved a h owner request acquired r r' rv
  | Err e => f' = f ∧ refused a h owner request r e
  end.
Proof.
  intros Hf Hload Hres. destruct (load_written f r Hf Hload) as [Hr _].
  unfold reserve in Hres. destruct (valid_id request) eqn:Hreq; [|by simplify_eq/=].
  unfold with_registry in Hres. rewrite Hload in Hres; cbn in Hres.
  destruct (list_find _ _) as [[i l]|] eqn:Hfind.
  - apply list_find_Some in Hfind as (Hi & Hl & _).
    assert (Hin : l ∈ pr_leases r) by (by eapply list_elem_of_lookup_2).
    destruct (same_owner l owner) eqn:Hown.
    + destruct res as [rv|e]; [by eapply reserve_rebinds|]. apply same_owner_true in Hown.
      apply reserve_existing_err in Hres as (-> & [(-> & ?)|[(-> & ?)|[->| ->]]]); split; cbn; naive_solver.
    + simplify_eq/=. split; [done|]. exists l. split; [done|]. intros Heq%same_owner_true. congruence.
  - apply list_find_None in Hfind.
    assert (Hnone : ∀ l, l ∈ pr_leases r → pl_request_id l ≠ request) by (by apply Forall_forall).
    destruct res as [rv|e]; [by eapply reserve_takes|].
    apply reserve_new_err in Hres as (-> & [[-> Hp]|[->| ->]]); [|done..].
    split; [done|]. split; [|done]. intros l [Hl Hlr]. by apply (Hnone l).
Qed.

(** What [reserve] does whatever came before: it gives the request its port,
    as [reserved] says, or fails for the reason it names and leaves the file
    alone. *)
Theorem reserve_spec (a : PortAllocator) (h : Host) (written : bool) (f : option bytes) (r : PortRegistryFile)
    (owner : PortLeaseOwner) (request : string) (acquired : N) :
  rtc port_step None f → load_registry f = Ok r →
  match reserve a h (Ok tt) written f owner request acquired with
  | (f', Ok rv) =>
      ∃ r' b', f' = Some b' ∧ registry_to_vec_pretty r' = Some b' ∧ reserved a h owner request acquired r r' rv
  | (f', Err e) => f' = f ∧ refused a h owner request r e
  end.
Proof.
  intros Hsteps%port_steps_ok Hload.
  destruct (reserve a h (Ok tt) written f owner request acquired) as [f' res] eqn:Hres.
  apply (reserve_branches _ _ _ _ _ r) in Hres; [|done..]. by destruct res.
Qed.

Lemma load_saved f r r' b :
  registry_to_vec_pretty r = Some b → f = Some b → load_registry f = Ok r' → r' = r.
Proof.
  intros Hb -> Hl. cbn in Hl. inv_ok. destruct (port_json_roundtrip r b Hb) as [Hr _]. congruence.
Qed.

(** Reserving is idempotent: as long as the registry is as it was left, the
    same request of the same owner, from whatever server, is given the same
    port under the same identifier, and it is never a conflict. *)
Theorem reserve_again (a a' : PortAllocator) (h h' : Host) (written written' : bool) (f f' : option bytes)
    (r : PortRegistryFile) (owner : PortLeaseOwner) (request : string) (acquired acquired' : N)
    (rv : PortReservation) :
  rtc port_step None f → caller_ok a h owner acquired →
  reserve a h (Ok tt) written f owner request acquired = (f', Ok rv) →
  load_registry f' = Ok r →
  match (reserve a' h' (Ok tt) written' f' owner request acquired').2 with
  | Ok rv' => pl_port (rv_lease rv') = pl_port (rv_lease rv) ∧ pl_lease_id (rv_lease rv') = pl_lease_id (rv_lease rv)
  | Err e => e ∈ [PortAllocatorError.LeaseNotOwned; PortAllocatorError.PortNoLongerAvailable (pl_port (rv_lease rv));
                  PortAllocatorError.Serialize; PortAllocatorError.Io]
  end.
Proof.
  intros Hf%port_steps_ok Hc H1 Hload'.
  assert (valid_id request = true ∧ ∃ r0, load_registry f = Ok r0) as [Hvalid [r0 Hload]].
  { unfold reserve, with_registry in H1. destruct (valid_id request); [|done].
    destruct (load_registry f) as [r0|e]; [by eauto|done]. }
  assert (Hf' : file_ok f').
  { pose proof (reserve_file_ok a h (Ok tt) written f owner request acquired Hc Hf) as Hf'. by rewrite H1 in Hf'. }
  apply (reserve_branches _ _ _ _ _ r0) in H1 as (r1 & b & Hb & Hr1 & [Hin (Hown & Hreq & _) _ _ _ _]); [|done..].
  assert (r = r1) as -> by (by (eapply load_saved; [exact Hr1|exact Hb|exact Hload'])).
  destruct (load_written f' r1 Hf' Hload') as [Hok' _].
  destruct (reserve a' _ _ _ _ _ _ _) as [f'' res] eqn:H2; cbn.
  apply (reserve_branches _ _ _ _ _ r1) in H2; [|done..]. destruct res as [rv'|e].
  - destruct H2 as (r3 & b3 & _ & _ & Hres).
    by destruct (rs_kept _ _ _ _ _ _ _ _ Hres (rv_lease rv) Hin Hreq) as (Hp & Hid & _).
  - destruct H2 as [_ He].
    assert (Hu : ∀ l, l ∈ pr_leases r1 ∧ pl_request_id l = request → l = rv_lease rv).
    { intros l [Hl Hlr]. apply list_elem_of_lookup in Hin as [i Hi].
      eapply request_unique; [exact Hi|done|congruence|apply Hok']. }
    assert (Hself : rv_lease rv ∈ pr_leases r1 ∧ pl_request_id (rv_lease rv) = request) by done.
    destruct e; cbn in He; try done; try congruence; try set_solver.
Qed.

(** *** Cleaning up *)

Lemma cleanup_orphaned_spec h written f r ids f' res :
  load_registry f = Ok r →
  cleanup_orphaned h (Ok tt) written f ids = (f', res) →
  let goes l := is_orphan h l = true ∧ pl_lease_id l ∈ ids in
  match res with
  | Ok removed =>
      (∀ l, l ∈ removed ↔ l ∈ pr_leases r ∧ goes l)
      ∧ (removed = [] ∧ f' = f
         ∨ ∃ r' b, f' = Some b ∧ registry_to_vec_pretty r' = Some b
                   ∧ ∀ l, l ∈ pr_leases r' ↔ l ∈ pr_leases r ∧ ¬ goes l)
  | Err e => f' = f ∧ (e = PortAllocatorError.Serialize ∨ e = PortAllocatorError.Io)
  end.
Proof.
  intros Hload Hc goes. unfold cleanup_orphaned, with_registry in Hc. rewrite Hload in Hc; cbn in Hc.
  set (g := λ l, is_orphan h l && bool_decide (pl_lease_id l ∈ ids)) in Hc.
  assert (Hg : ∀ l, g l = true ↔ goes l).
  { intros l. unfold g, goes. by rewrite andb_true_iff, bool_decide_eq_true. }
  assert (Hgoes : ∀ l, l ∈ List.filter g (pr_leases r) ↔ l ∈ pr_leases r ∧ goes l).
  { intros l. rewrite <- Hg, !list_elem_of_In. apply filter_In. }
  destruct (bool_decide (List.filter g (pr_leases r) = [])) eqn:Hnil; [inv_ok; simplify_eq/=; auto|].
  apply save_and_return_spec in Hc as [(b & -> & -> & Hb)|(e & -> & -> & He)]; [|done].
  split; [done|right]. eexists _, b. split_and!; [done|exact Hb|]. intros l; cbn.
  rewrite !list_elem_of_In, filter_In, <- !list_elem_of_In, negb_true_iff, <- (Hg l).
  by rewrite not_true_iff_false.
Qed.

Lemma lease_ids_agree l l' :
  lease_ok l → lease_ok l' → pl_lease_id l = pl_lease_id l' →
  CleanupPortLease_from l = CleanupPortLease_from l' ∨ clashes (lease_id_text l) (lease_id_text l').
Proof.
  intros Hl Hl' Hid. pose proof Hid as Heq. rewrite (lk_id l Hl), (lk_id l' Hl') in Heq.
  apply lease_digest_inj in Heq as [(Ho & _ & Hp & Ha)|?]; [left|by right|..];
    try (by apply lease_ok_fits); try (by apply lk_port); try (by apply lk_time).
  unfold CleanupPortLease_from. unfold lease_owner in Ho. by simplify_eq/=; rewrite Hid, Hp, Ha; congruence.
Qed.

(** [orphaned] reads only. *)
Lemma preview_spec h locked f f' pv :
  file_ok f → preview h locked f f' = Ok pv →
  pv_schema_version pv = 1%N ∧ pv_registry_bytes pv = registry_bytes f'
  ∧ pv_digest pv = preview_digest (pv_orphaned_ports pv) (pv_registry_bytes pv)
  ∧ ∃ r, load_registry f = Ok r ∧ registry_ok r
         ∧ ∀ c, c ∈ pv_orphaned_ports pv
                ↔ ∃ l, l ∈ pr_leases r ∧ is_orphan h l = true ∧ c = CleanupPortLease_from l.
Proof.
  intros Hf Hpv. unfold preview, orphaned, with_registry in Hpv. inv_ok.
  destruct (_ ← locked; load_registry f) as [r|] eqn:Hr; cbn in *; [|done]. inv_ok.
  split_and!; try done. cbn. exists r. split_and!; [done|by eapply load_written|]. intros c.
  rewrite merge_sort_Permutation, list_elem_of_fmap. setoid_rewrite list_elem_of_In. setoid_rewrite filter_In.
  naive_solver.
Qed.

Lemma lease_ok_cleanup_fits l : lease_ok l → cleanup_fits (CleanupPortLease_from l).
Proof.
  intros Hl.
  pose proof (lk_valid l Hl) as Hv. unfold valid_persisted_lease in Hv. inv_ok.
  split; [|split; [by apply lk_port|by apply lk_time]].
  unfold cleanup_fields. apply Forall_fmap. repeat constructor; try (by apply valid_id_fits).
  unfold compose, fits_u64, str_len in *. cbn [cp_lease_id CleanupPortLease_from].
  change (256 ^ 8)%N with 18446744073709551616%N. lia.
Qed.

(** A cleanup removes what was inspected: when a preview is applied, with
    whatever was changed in it but its digest, then it is the preview that was
    made, and every lease that goes is a row of it and an orphan still, unless
    two of the texts that were hashed, the two previews' and the leases' when
    they were inspected and when they were removed, have one SHA-256. *)
Theorem cleanup_removes_inspected (h0 h : Host) (locked : result PortAllocatorError unit) (written : bool)
    (f0 f0' f f' : option bytes) (r : PortRegistryFile) (pv inspected : CleanupPreview)
    (removed : list CleanupPortLease) :
  rtc port_step None f0 → (registry_bytes f0' < 2 ^ 64)%N → preview h0 locked f0 f0' = Ok pv →
  Forall cleanup_fits (pv_orphaned_ports inspected) → (pv_registry_bytes inspected < 2 ^ 64)%N →
  pv_digest inspected = pv_digest pv →
  rtc port_step f0 f → load_registry f = Ok r →
  apply_cleanup h (Ok tt) written f inspected = (f', Ok removed) →
  (inspected = pv
   ∧ (∀ c, c ∈ removed → c ∈ pv_orphaned_ports pv
           ∧ ∃ l, l ∈ pr_leases r ∧ is_orphan h l = true ∧ c = CleanupPortLease_from l)
   ∧ (removed = [] ∧ f' = f
      ∨ ∃ r' b, f' = Some b ∧ registry_to_vec_pretty r' = Some b
                ∧ ∀ l, l ∈ pr_leases r' ↔ l ∈ pr_leases r ∧ CleanupPortLease_from l ∉ removed))
  ∨ ∃ r0, load_registry f0 = Ok r0
      ∧ collision_among
          (preview_text (pv_orphaned_ports inspected) (pv_registry_bytes inspected)
           :: preview_text (pv_orphaned_ports pv) (pv_registry_bytes pv)
           :: (lease_id_text <$> pr_leases r0 ++ pr_leases r)).
Proof.
  intros Hf0 Hb0 Hpv Hfits Hbytes Hdigest Hsteps Hload Happly.
  assert (Hf : file_ok f) by (apply port_steps_ok; by etrans).
  apply port_steps_ok in Hf0.
  destruct (load_written f r Hf Hload) as [Hr _].
  destruct (preview_spec _ _ _ _ _ Hf0 Hpv) as (Hs & Hb & Hd & r0 & Hload0 & Hr0 & Hrows).
  unfold apply_cleanup in Happly. destruct (_ || _) eqn:Hok; [done|]. inv_ok.
  destruct (cleanup_orphaned _ _ _ _ _) as [f1 res] eqn:Hc. simplify_eq/=.
  destruct res as [rm|]; [|done]. inv_ok.
  apply (cleanup_orphaned_spec _ _ _ r) in Hc as [Hrm Hf']; [|done].
  assert (inspected = pv ∨ clashes
      (preview_text (pv_orphaned_ports inspected) (pv_registry_bytes inspected))
      (preview_text (pv_orphaned_ports pv) (pv_registry_bytes pv))) as [->|Hcl]; [clear Hrm Hf'| |].
  { assert (Heq : preview_digest (pv_orphaned_ports inspected) (pv_registry_bytes inspected)
                  = preview_digest (pv_orphaned_ports pv) (pv_registry_bytes pv)) by congruence.
    apply preview_digest_inj in Heq as [[? ?]|?]; [left|by right|done| |done|by rewrite Hb].
    - destruct inspected, pv; cbn in *. by subst.
    - apply Forall_forall. intros c (l & Hl & _ & ->)%Hrows.
      by apply lease_ok_cleanup_fits, (proj1 (Forall_forall _ _) (ro_leases r0 Hr0)). }
  2: { right. exists r0. split; [done|]. eapply clashes_among; [..|exact Hcl]; [left|right; left]. }
  (* what goes was a row *)
  destruct (decide (Forall (λ c, c ∈ pv_orphaned_ports pv) (CleanupPortLease_from <$> rm))) as [Hall|Hnot].
  - left. split; [done|]. split.
    + intros c Hc. rewrite merge_sort_Permutation in Hc.
      split; [exact (proj1 (Forall_forall _ _) Hall c Hc)|].
      apply list_elem_of_fmap in Hc as (l & -> & (Hl & Ho & _)%Hrm). eauto.
    + destruct Hf' as [[-> ->]|(r' & b & -> & Hb' & Hr')]; [by left|right].
      exists r', b. split_and!; [done..|]. intros l. rewrite Hr', merge_sort_Permutation.
      split; intros [Hl Hno]; (split; [done|]); contradict Hno.
      * apply list_elem_of_fmap in Hno as (l' & Heq & (Hl' & Ho & Hid)%Hrm).
        assert (l = l') as ->; [|done]. apply (port_unique r); [done..|].
        unfold CleanupPortLease_from in Heq. congruence.
      * apply list_elem_of_fmap. exists l. split; [done|]. by apply Hrm.
  - right. apply not_Forall_Exists in Hnot; [|apply _].
    apply Exists_exists in Hnot as (c & (l & -> & (Hl & Ho & Hid)%Hrm)%list_elem_of_fmap & Hno).
    apply elem_of_list_to_set, list_elem_of_fmap in Hid as (c0 & Hid & Hc0).
    pose proof Hc0 as (l0 & Hl0 & _ & Heq)%Hrows. subst c0.
    destruct (lease_ids_agree l l0) as [Heq|Hcl]; [..|].
    + by apply (proj1 (Forall_forall _ _) (ro_leases r Hr)).
    + by apply (proj1 (Forall_forall _ _) (ro_leases r0 Hr0)).
    + done.
    + cbn in Hno. by rewrite Heq in Hno.
    + exists r0. split; [done|]. eapply clashes_among; [..|exact Hcl];
        right; right; apply list_elem_of_fmap_2, elem_of_app; [by right|by left].
Qed.
End invariant.

(** ** Examples *)

Module PortsDemo.

(** A registry as a number, and that in binary *)
Definition lease_code (l : PortLease) : positive :=
  positives_flatten
    [encode (pl_schema_version l); encode (pl_lease_id l); encode (pl_request_id l); encode (pl_mission_id l);
     encode (pl_run_id l); encode (pl_service_id l); encode (pl_port l); encode (pl_owner_pid l);
     encode (pl_service_pid l); encode (pl_acquired_at_millis l)].

Definition lease_of_code (p : positive) : option PortLease :=
  match positives_unflatten p with
  | Some [a; b; c; d; e; f; g; h; i; j] =>
      a ← decode a; b ← decode b; c ← decode c; d ← decode d; e ← decode e; f ← decode f;
      g ← decode g; h ← decode h; i ← decode i; j ← decode j;
      Some (mkPortLease a b c d e f g h i j)
  | _ => None
  end.

Definition registry_code (r : PortRegistryFile) : positive :=
  positives_flatten (encode (pr_schema_version r) :: (lease_code <$> pr_leases r)).

Definition registry_of_code (p : positive) : option PortRegistryFile :=
  match positives_unflatten p with
  | Some (schema :: leases) =>
      schema ← decode schema; leases ← mapM lease_of_code leases; Some (mkPortRegistryFile schema leases)
  | _ => None
  end.

Lemma lease_of_lease_code l : lease_of_code (lease_code l) = Some l.
Proof.
  unfold lease_of_code, lease_code. rewrite positives_unflatten_flatten, !decode_encode. by destruct l.
Qed.

Lemma registry_of_registry_code r : registry_of_code (registry_code r) = Some r.
Proof.
  unfold registry_of_code, registry_code. rewrite positives_unflatten_flatten, decode_encode; cbn.
  assert (Hls : mapM lease_of_code (lease_code <$> pr_leases r) = Some (pr_leases r)).
  { induction (pr_leases r) as [|l ls IH]; [done|].
    rewrite fmap_cons. cbn [mapM]. rewrite lease_of_lease_code. cbn [mbind option_bind]. by rewrite IH. }
  rewrite Hls. by destruct r.
Qed.

Fixpoint binary (p : positive) : bytes :=
  match p with xH => [] | xO p => "0"%char :: binary p | xI p => "1"%char :: binary p end.

Fixpoint of_binary (b : bytes) : positive :=
  match b with
  | [] => xH
  | c :: b => if (c =? "1")%char then xI (of_binary b) else xO (of_binary b)
  end.

Lemma of_binary_binary p : of_binary (binary p) = p.
Proof. by induction p as [p IH|p IH|]; cbn; rewrite ?IH. Qed.

Lemma binary_utf8 p : utf8_valid (N_of_ascii <$> binary p) = true.
Proof. by induction p. Qed.

#[local] Instance port_json : PortJson := {|
  registry_to_vec_pretty r := Some (binary (registry_code r));
  registry_from_str b := registry_of_code (of_binary b);
|}.

Lemma port_json_spec : @PortJsonSpec port_json.
Proof.
  intros r b [= <-]. split; [|apply binary_utf8]. unfold registry_from_str, port_json.
  by rewrite of_binary_binary, registry_of_registry_code.
Qed.

#[local] Existing Instances mixing_sha256 mixing_sha256_spec port_json_spec.

(** Servers 7 and 8, with port 41000 taken by somebody else *)
Definition server (pid : N) (running : list N) : Host :=
  mkHost pid (λ p, bool_decide (p ∈ running)) (λ p, negb (p =? 41000)%N).

Definition demo_range : PortAllocator := mkPortAllocator DEFAULT_PORT_START DEFAULT_PORT_END.
Definition web : PortLeaseOwner := mkPortLeaseOwner "mission" "run-1" "web".
Definition api : PortLeaseOwner := mkPortLeaseOwner "mission" "run-2" "api".

Definition after_web : option bytes :=
  (reserve demo_range (server 7 [7; 8]%N) (Ok tt) true None web "req-1" 10).1.
Definition after_api : option bytes :=
  (reserve demo_range (server 8 [7; 8]%N) (Ok tt) true after_web api "req-2" 20).1.

Lemma web_caller : caller_ok demo_range (server 7 [7; 8]%N) web 10.
Proof. by split. Qed.
Lemma api_caller : caller_ok demo_range (server 8 [7; 8]%N) api 20.
Proof. by split. Qed.

Lemma after_web_reached : rtc port_step None after_web.
Proof. apply rtc_once, step_reserve, web_caller. Qed.

Lemma after_api_reached : rtc port_step None after_api.
Proof. eapply rtc_r; [exact after_web_reached|]. apply step_reserve, api_caller. Qed.

Definition or_default {E A} (a : A) (res : result E A) : A := match res with Ok a => a | Err _ => a end.

Definition registry_of (f : option bytes) : PortRegistryFile :=
  or_default PortRegistryFile_default (load_registry f).

Example ports_given : pl_port <$> pr_leases (registry_of after_api) = [41001; 41002]%N.
Proof. by vm_compute. Qed.

Lemma after_web_loads : load_registry after_web = Ok (registry_of after_web).
Proof. by vm_compute. Qed.
Lemma after_api_loads : load_registry after_api = Ok (registry_of after_api).
Proof. by vm_compute. Qed.

Lemma registry_invariant_witness :
  ∃ b r, after_api = Some b ∧ registry_to_vec_pretty r = Some b ∧ registry_ok r.
Proof.
  assert (Hsome : bool_decide (is_Some after_api) = true) by (vm_compute; reflexivity).
  pose proof (registry_invariant after_api after_api_reached) as Hinv.
  revert Hsome Hinv. generalize after_api. intros f Hsome Hinv.
  apply bool_decide_eq_true in Hsome. destruct f as [b|]; [|by destruct Hsome].
  destruct Hinv as (r & Hr & Hok & _). exists b, r. split; [reflexivity|split; [exact Hr|exact Hok]].
Defined.

(** A request that has a port is given it again by another server, once the
    first one is gone. *)
Lemma reserve_spec_witness :
  ∃ rv, (reserve demo_range (server 9 [9]%N) (Ok tt) true after_api web "req-1" 30).2 = Ok rv
        ∧ pl_port (rv_lease rv) = 41001%N
        ∧ ∃ r', reserved demo_range (server 9 [9]%N) web "req-1" 30 (registry_of after_api) r' rv.
Proof.
  pose proof (reserve_spec demo_range (server 9 [9]%N) true after_api (registry_of after_api) web "req-1" 30
                after_api_reached after_api_loads) as Hspec.
  destruct (reserve demo_range (server 9 [9]%N) (Ok tt) true after_api web "req-1" 30) as [f' [rv|e]] eqn:Hres.
  - exists rv. split; [done|]. destruct Hspec as (r' & b & _ & _ & Hr). split; [|by exists r'].
    vm_compute in Hres. by injection Hres as _ <-.
  - exfalso. vm_compute in Hres. discriminate Hres.
Defined.

Lemma reserve_again_witness :
  ∃ rv, (reserve demo_range (server 9 [9]%N) (Ok tt) true after_web web "req-1" 30).2 = Ok rv
        ∧ ∀ rv0, (reserve demo_range (server 7 [7; 8]%N) (Ok tt) true None web "req-1" 10).2 = Ok rv0 →
          pl_port (rv_lease rv) = pl_port (rv_lease rv0) ∧ pl_lease_id (rv_lease rv) = pl_lease_id (rv_lease rv0).
Proof.
  destruct (reserve demo_range (server 9 [9]%N) (Ok tt) true after_web web "req-1" 30).2 as [rv|e] eqn:Hres;
    [|vm_compute in Hres; discriminate Hres].
  exists rv. split; [done|]. intros rv0 H0.
  pose proof (reserve_again demo_range demo_range (server 7 [7; 8]%N) (server 9 [9]%N) true true None after_web
                (registry_of after_web) web "req-1" 10 30 rv0 (rtc_refl _ _) web_caller) as Hagain.
  rewrite Hres in Hagain. apply Hagain; [|exact after_web_loads].
  unfold after_web. rewrite <- H0. apply surjective_pairing.
Defined.

(** Server 7 is gone, 8 still runs. *)
Definition shown : CleanupPreview :=
  or_default (mkCleanupPreview 0 "" 0 []) (preview (server 9 [9; 8]%N) (Ok tt) after_api after_api).
Definition cleaned : list CleanupPortLease :=
  or_default [] (apply_cleanup (server 9 [9; 8]%N) (Ok tt) true after_api shown).2.
Definition after_cleanup : option bytes :=
  (apply_cleanup (server 9 [9; 8]%N) (Ok tt) true after_api shown).1.

Lemma shown_ok : preview (server 9 [9; 8]%N) (Ok tt) after_api after_api = Ok shown.
Proof. by vm_compute. Qed.
Lemma applied_ok :
  apply_cleanup (server 9 [9; 8]%N) (Ok tt) true after_api shown = (after_cleanup, Ok cleaned).
Proof. by vm_compute. Qed.

Definition cleanup_fitsb (c : CleanupPortLease) : bool :=
  forallb (λ b, N.of_nat (length b) <? 256 ^ 8)%N (cleanup_fields c)
  && (cp_port c <? 2 ^ 16)%N && (cp_acquired_at_millis c <? 2 ^ 64)%N.

Lemma cleanup_fitsb_ok cs : forallb cleanup_fitsb cs = true → Forall cleanup_fits cs.
Proof.
  intros Hcs. apply Forall_forall. intros c Hc%list_elem_of_In.
  pose proof (proj1 (forallb_forall _ _) Hcs c Hc) as Hfit. unfold cleanup_fitsb in Hfit. inv_ok.
  split_and!; [|done..]. apply Forall_forall. intros b Hb%list_elem_of_In.
  match goal with H : forallb _ _ = true |- _ => pose proof (proj1 (forallb_forall _ _) H b Hb) as Hlen end.
  by apply N.ltb_lt in Hlen.
Qed.

Lemma shown_fits : Forall cleanup_fits (pv_orphaned_ports shown).
Proof. apply cleanup_fitsb_ok. by vm_compute. Qed.

Lemma cleanup_removes_inspected_witness :
  (cp_port <$> cleaned) = [41001%N]
  ∧ ((∀ c, c ∈ cleaned → c ∈ pv_orphaned_ports shown)
     ∨ ∃ r0, load_registry after_api = Ok r0
         ∧ collision_among
             (preview_text (pv_orphaned_ports shown) (pv_registry_bytes shown)
              :: preview_text (pv_orphaned_ports shown) (pv_registry_bytes shown)
              :: (lease_id_text <$> pr_leases r0 ++ pr_leases (registry_of after_api)))).
Proof.
  split; [by vm_compute|].
  destruct (cleanup_removes_inspected (server 9 [9; 8]%N) (server 9 [9; 8]%N) (Ok tt) true after_api after_api
              after_api after_cleanup (registry_of after_api) shown shown cleaned after_api_reached)
    as [(_ & Hrows & _)|Hc].
  - by vm_compute.
  - exact shown_ok.
  - exact shown_fits.
  - by vm_compute.
  - reflexivity.
  - constructor.
  - exact after_api_loads.
  - exact applied_ok.
  - left. intros c Hc. by apply Hrows.
  - by right.
Defined.
End PortsDemo.
