(* ===== verification/Claims.v ===== *)
(** * Worktree claims ([src/mission/claims.rs])

    A mission run works in a checkout it has claimed.  A process keeps its
    claims in a [WorktreeClaimRegistry]; a lock file per checkout, held as
    long as the claim, keeps other processes out.  The names of the lock
    files that are held, by this process or by another, are the set the
    operations thread through; canonical paths and what Git says about a
    checkout are the class [GitHost]. *)

From S2P Require Export Digest.

(** ** What the operating system and Git answer *)

Record GitWorktreeInfo := mkGitWorktreeInfo { gw_repo_root : string; gw_git_common_dir : string }.

(** [std::fs::canonicalize], [crate::workspace::git_worktree_info],
    [TrustedGit::head_revision], and whether the lock file of a name can be
    opened; every answer may be a failure. *)
Class GitHost := {
  canonicalize : string → option string;
  git_worktree_info : string → option GitWorktreeInfo;
  git_head : string → option string;
  lock_file_opens : string → bool;
}.

(** ** Data *)

Record WorktreeKey := mkWorktreeKey {
  wk_repository_common_dir : string;
  wk_checkout_root : string;
}.
#[export] Instance WorktreeKey_eq_dec : EqDecision WorktreeKey.
Proof. solve_decision. Defined.
#[export] Instance WorktreeKey_countable : Countable WorktreeKey.
Proof.
  by refine (inj_countable' (λ k, (wk_repository_common_dir k, wk_checkout_root k))
               (λ p, mkWorktreeKey p.1 p.2) _); intros [].
Defined.

Record LeaseOwner := mkLeaseOwner { lo_mission_id : string; lo_mission_run_id : string }.
#[export] Instance LeaseOwner_eq_dec : EqDecision LeaseOwner.
Proof. solve_decision. Defined.

Record ClaimRequestId := mkClaimRequestId { cr_value : string }.
#[export] Instance ClaimRequestId_eq_dec : EqDecision ClaimRequestId.
Proof. solve_decision. Defined.

(** [LeaseNonce] is its sixteen bytes. *)
Record WorktreeLease := mkWorktreeLease {
  wl_key : WorktreeKey;
  wl_owner : LeaseOwner;
  wl_request_id : ClaimRequestId;
  wl_nonce : bytes;
}.
#[export] Instance WorktreeLease_eq_dec : EqDecision WorktreeLease.
Proof. solve_decision. Defined.

(** The open lock file is its name. *)
Record ClaimRecord := mkClaimRecord { cl_lease : WorktreeLease; cl_process_lock : string }.

Abbreviation WorktreeClaimRegistry := (gmap WorktreeKey ClaimRecord).

Module ReleaseOutcome.
Inductive ReleaseOutcome := Released | AlreadyReleased.
#[export] Instance eq_dec : EqDecision ReleaseOutcome.
Proof. solve_decision. Defined.
End ReleaseOutcome.
Export (hints) ReleaseOutcome.
Abbreviation ReleaseOutcome := ReleaseOutcome.ReleaseOutcome.

Module WorktreeClaimError.
Inductive WorktreeClaimError :=
| Io
| EmptyOwner
| InvalidRequestId
| AlreadyOwned (mission_id mission_run_id : string)
| OwnedByAnotherProcess
| NonceUnavailable
| StaleLease
| RepositoryUnavailable
| CheckoutUnavailable
| RepositoryNotGit
| CheckoutNotGit
| RepositoryMustBeRoot
| CheckoutMustBeRoot
| DifferentRepository.
#[export] Instance eq_dec : EqDecision WorktreeClaimError.
Proof. solve_decision. Defined.
End WorktreeClaimError.
Export (hints) WorktreeClaimError.
Abbreviation WorktreeClaimError := WorktreeClaimError.WorktreeClaimError.

(** ** Operations *)

(** [LeaseOwner::new] *)
Definition LeaseOwner_new (mission_id mission_run_id : string) :
    result WorktreeClaimError LeaseOwner :=
  if trim_is_empty mission_id || trim_is_empty mission_run_id
  then Err WorktreeClaimError.EmptyOwner
  else Ok (mkLeaseOwner mission_id mission_run_id).

(** [ClaimRequestId::new] *)
Definition ClaimRequestId_new (value : string) : result WorktreeClaimError ClaimRequestId :=
  if trim_is_empty value || (128 <? str_len value)%N
  then Err WorktreeClaimError.InvalidRequestId
  else Ok (mkClaimRequestId value).

(** [WorktreeLease::matches_scope] *)
Definition matches_scope (lease : WorktreeLease) (mission_id mission_run_id checkout_root : string) :
    bool :=
  bool_decide (lo_mission_id (wl_owner lease) = mission_id)
  && bool_decide (lo_mission_run_id (wl_owner lease) = mission_run_id)
  && bool_decide (wk_checkout_root (wl_key lease) = checkout_root).

(** [resolve_worktree_key] *)
Definition resolve_worktree_key `{GitHost} (mission_repository requested_checkout : string) :
    result WorktreeClaimError WorktreeKey :=
  repository ← ok_or (canonicalize mission_repository) WorktreeClaimError.RepositoryUnavailable;
  checkout ← ok_or (canonicalize requested_checkout) WorktreeClaimError.CheckoutUnavailable;
  repository_info ← ok_or (git_worktree_info repository) WorktreeClaimError.RepositoryNotGit;
  checkout_info ← ok_or (git_worktree_info checkout) WorktreeClaimError.CheckoutNotGit;
  repository_root ← ok_or (canonicalize (gw_repo_root repository_info))
    WorktreeClaimError.RepositoryUnavailable;
  checkout_root ← ok_or (canonicalize (gw_repo_root checkout_info))
    WorktreeClaimError.CheckoutUnavailable;
  repository_common_dir ← ok_or (canonicalize (gw_git_common_dir repository_info))
    WorktreeClaimError.RepositoryUnavailable;
  checkout_common_dir ← ok_or (canonicalize (gw_git_common_dir checkout_info))
    WorktreeClaimError.CheckoutUnavailable;
  _ ← reject_if (negb (bool_decide (repository = repository_root)))
        WorktreeClaimError.RepositoryMustBeRoot;
  _ ← reject_if (negb (bool_decide (checkout = checkout_root)))
        WorktreeClaimError.CheckoutMustBeRoot;
  _ ← reject_if (negb (bool_decide (repository_common_dir = checkout_common_dir)))
        WorktreeClaimError.DifferentRepository;
  Ok (mkWorktreeKey repository_common_dir checkout_root).

Section claims.
Context {HSha : Sha256}.

(** [WorktreeLease::authority_digest] *)
Definition lease_authority_digest (lease : WorktreeLease) : string :=
  hex (sha256 (nul_terminated "mission-worktree-lease-authority-v1"
               ++ nul_terminated (wk_repository_common_dir (wl_key lease))
               ++ nul_terminated (wk_checkout_root (wl_key lease))
               ++ nul_terminated (lo_mission_id (wl_owner lease))
               ++ nul_terminated (lo_mission_run_id (wl_owner lease))
               ++ wl_nonce lease)).

(** [lock_filename] *)
Definition lock_filename (key : WorktreeKey) : string :=
  hex (sha256 (nul_terminated "mission-worktree-lock-v1"
               ++ nul_terminated (wk_repository_common_dir key)
               ++ str_bytes (wk_checkout_root key))) +:+ ".lock".

(** [WorktreeClaimRegistry::claim].  [locks] are the names of the lock files
    some process holds, [nonce] is what [getrandom] gives. *)
Definition claim `{GitHost} (nonce : option bytes) (locks : gset string)
    (claims : WorktreeClaimRegistry) (owner : LeaseOwner)
    (mission_repository requested_checkout : string) (request_id : ClaimRequestId) :
    gset string * WorktreeClaimRegistry * result WorktreeClaimError WorktreeLease :=
  match resolve_worktree_key mission_repository requested_checkout with
  | Err e => (locks, claims, Err e)
  | Ok key =>
      match claims !! key with
      | Some existing =>
          let held := cl_lease existing in
          (locks, claims,
           if bool_decide (wl_owner held = owner) && bool_decide (wl_request_id held = request_id)
           then Ok held
           else Err (WorktreeClaimError.AlreadyOwned (lo_mission_id (wl_owner held))
                       (lo_mission_run_id (wl_owner held))))
      | None =>
          let lock := lock_filename key in
          if negb (lock_file_opens lock) then (locks, claims, Err WorktreeClaimError.Io)
          else if bool_decide (lock ∈ locks) then
            (locks, claims, Err WorktreeClaimError.OwnedByAnotherProcess)
          else
            match nonce with
            | None => (locks, claims, Err WorktreeClaimError.NonceUnavailable)
            | Some nonce =>
                let lease := mkWorktreeLease key owner request_id nonce in
                ({[lock]} ∪ locks, <[key := mkClaimRecord lease lock]> claims, Ok lease)
            end
      end
  end.

(** [WorktreeClaimRegistry::release]: removing the record closes its lock file. *)
Definition release_claim (locks : gset string) (claims : WorktreeClaimRegistry)
    (lease : WorktreeLease) :
    gset string * WorktreeClaimRegistry * result WorktreeClaimError ReleaseOutcome :=
  match claims !! wl_key lease with
  | Some record =>
      if bool_decide (cl_lease record = lease)
      then (locks ∖ {[cl_process_lock record]}, delete (wl_key lease) claims,
            Ok ReleaseOutcome.Released)
      else (locks, claims, Err WorktreeClaimError.StaleLease)
  | None => (locks, claims, Ok ReleaseOutcome.AlreadyReleased)
  end.

(** [WorktreeClaimRegistry::is_current] *)
Definition is_current (claims : WorktreeClaimRegistry) (lease : WorktreeLease) : bool :=
  match claims !! wl_key lease with
  | Some record => bool_decide (cl_lease record = lease)
  | None => false
  end.

(** The order of a [BTreeMap] by [WorktreeKey]: the paths in turn *)
Definition worktree_key_le (k l : WorktreeKey) : Prop :=
  (if bool_decide (wk_repository_common_dir k = wk_repository_common_dir l)
   then path_leb (wk_checkout_root k) (wk_checkout_root l)
   else path_leb (wk_repository_common_dir k) (wk_repository_common_dir l)) = true.
#[export] Instance worktree_key_le_dec : RelDecision worktree_key_le.
Proof. intros k l. unfold worktree_key_le. apply _. Defined.

(** [WorktreeClaimRegistry::has_current_authority_digest] *)
Definition has_current_authority_digest (claims : WorktreeClaimRegistry) (digest : string) : bool :=
  existsb (λ record, bool_decide (lease_authority_digest (cl_lease record) = digest))
    (btree_values worktree_key_le claims).

(** [WorktreeClaimRegistry::owner] *)
Definition checkout_owner `{GitHost} (claims : WorktreeClaimRegistry) (checkout_root : string) :
    option LeaseOwner :=
  checkout_root ← canonicalize checkout_root;
  record ← find_first (λ record,
      bool_decide (wk_checkout_root (wl_key (cl_lease record)) = checkout_root))
    (btree_values worktree_key_le claims);
  Some (wl_owner (cl_lease record)).
End claims.

(** ** A claim's effect *)

Section operations.
Context {HSha : Sha256}.

Lemma claim_spec `{GitHost} nonce locks claims owner repo checkout req locks' claims' r :
  claim nonce locks claims owner repo checkout req = (locks', claims', r) →
  (locks' = locks ∧ claims' = claims ∧ ∀ lease, r = Ok lease →
       ∃ k rec, resolve_worktree_key repo checkout = Ok k ∧ claims !! k = Some rec
         ∧ cl_lease rec = lease ∧ wl_owner lease = owner ∧ wl_request_id lease = req)
  ∨ ∃ key n, resolve_worktree_key repo checkout = Ok key ∧ nonce = Some n
      ∧ claims !! key = None ∧ lock_filename key ∉ locks
      ∧ r = Ok (mkWorktreeLease key owner req n)
      ∧ locks' = {[lock_filename key]} ∪ locks
      ∧ claims' = <[key := mkClaimRecord (mkWorktreeLease key owner req n) (lock_filename key)]> claims.
Proof.
  unfold claim. intros Hc.
  destruct (resolve_worktree_key repo checkout) as [key|e] eqn:Hkey;
    [|injection Hc as <- <- <-; left; by split_and!].
  destruct (claims !! key) as [rec|] eqn:Hrec.
  { left. injection Hc as <- <- <-.
    destruct (bool_decide _ && bool_decide _) eqn:Hb.
    - apply andb_true_iff in Hb as [Ho%bool_decide_eq_true Hr%bool_decide_eq_true].
      split_and!; [done|done|]. intros lease [= <-]. by exists key, rec.
    - by split_and!. }
  destruct (lock_file_opens _); cbn [negb] in Hc; [|injection Hc as <- <- <-; left; by split_and!].
  destruct (bool_decide_reflect (lock_filename key ∈ locks)) as [|Hfree];
    [injection Hc as <- <- <-; left; by split_and!|].
  destruct nonce as [n|]; [|injection Hc as <- <- <-; left; by split_and!].
  right. exists key, n. by injection Hc as <- <- <-.
Qed.

Lemma release_spec locks claims lease locks' claims' r :
  release_claim locks claims lease = (locks', claims', r) →
  (locks' = locks ∧ claims' = claims ∧ r ≠ Ok ReleaseOutcome.Released
   ∧ (r = Ok ReleaseOutcome.AlreadyReleased ↔ claims !! wl_key lease = None))
  ∨ ∃ record, claims !! wl_key lease = Some record ∧ cl_lease record = lease
      ∧ r = Ok ReleaseOutcome.Released ∧ locks' = locks ∖ {[cl_process_lock record]}
      ∧ claims' = delete (wl_key lease) claims.
Proof.
  unfold release_claim. intros Hr. destruct (claims !! wl_key lease) as [record|] eqn:Hrec.
  - destruct (bool_decide_reflect (cl_lease record = lease)); injection Hr as <- <- <-.
    + right. by exists record.
    + left. by split_and!.
  - injection Hr as <- <- <-. left. by split_and!.
Qed.

Lemma is_current_spec claims lease :
  is_current claims lease = true ↔ ∃ lock, claims !! wl_key lease = Some (mkClaimRecord lease lock).
Proof.
  unfold is_current. destruct (claims !! wl_key lease) as [[l lock]|]; cbn.
  - rewrite bool_decide_eq_true. split; [intros ->; by eexists|by intros [? [= -> ->]]].
  - split; [done|by intros [? ?]].
Qed.
End operations.

(** ** The processes that share the lock files *)

Record ClaimSystem := mkClaimSystem {
  sy_locks : gset string;
  sy_registries : gmap N WorktreeClaimRegistry;
}.

Definition locks_of (claims : WorktreeClaimRegistry) : gset string :=
  list_to_set (cl_process_lock ∘ snd <$> map_to_list claims).

Section system.
Context {HSha : Sha256}.

(** A process starts, claims, releases, or ends, which closes its lock files.
    The host may answer differently at every step. *)
Inductive claim_step : ClaimSystem → ClaimSystem → Prop :=
| step_start sy pid :
    sy_registries sy !! pid = None →
    claim_step sy (mkClaimSystem (sy_locks sy) (<[pid := ∅]> (sy_registries sy)))
| step_claim sy pid claims (host : GitHost) nonce owner repo checkout req locks' claims' r :
    sy_registries sy !! pid = Some claims →
    claim nonce (sy_locks sy) claims owner repo checkout req = (locks', claims', r) →
    claim_step sy (mkClaimSystem locks' (<[pid := claims']> (sy_registries sy)))
| step_release sy pid claims lease locks' claims' r :
    sy_registries sy !! pid = Some claims →
    release_claim (sy_locks sy) claims lease = (locks', claims', r) →
    claim_step sy (mkClaimSystem locks' (<[pid := claims']> (sy_registries sy)))
| step_exit sy pid claims :
    sy_registries sy !! pid = Some claims →
    claim_step sy (mkClaimSystem (sy_locks sy ∖ locks_of claims) (delete pid (sy_registries sy))).

Definition claims_reachable := rtc claim_step (mkClaimSystem ∅ ∅).

Definition holds (sy : ClaimSystem) (pid : N) (k : WorktreeKey) (r : ClaimRecord) : Prop :=
  ∃ claims, sy_registries sy !! pid = Some claims ∧ claims !! k = Some r.

(** A record is filed under its key, its lock file is its own and is held. *)
Definition system_ok (sy : ClaimSystem) : Prop :=
  (∀ pid k r, holds sy pid k r →
     wl_key (cl_lease r) = k ∧ cl_process_lock r = lock_filename k ∧ cl_process_lock r ∈ sy_locks sy)
  ∧ (∀ pid k r pid' k' r', holds sy pid k r → holds sy pid' k' r' →
     cl_process_lock r = cl_process_lock r' → pid = pid' ∧ k = k').

Lemma holds_insert locks regs pid claims p k r :
  holds (mkClaimSystem locks (<[pid := claims]> regs)) p k r ↔
  (p = pid ∧ claims !! k = Some r) ∨ (p ≠ pid ∧ holds (mkClaimSystem locks regs) p k r).
Proof.
  unfold holds. cbn. destruct (decide (p = pid)) as [->|Hne].
  - rewrite lookup_insert_eq. naive_solver.
  - rewrite lookup_insert_ne by done. naive_solver.
Qed.

Lemma elem_of_locks_of claims lock :
  lock ∈ locks_of claims ↔ ∃ k r, claims !! k = Some r ∧ cl_process_lock r = lock.
Proof.
  unfold locks_of. rewrite elem_of_list_to_set, list_elem_of_fmap. split.
  - intros ([k r] & -> & Hin%elem_of_map_to_list). by exists k, r.
  - intros (k & r & Hin & <-). exists (k, r). by rewrite elem_of_map_to_list.
Qed.

(** The registry of one process grows by a record whose lock was free. *)
Lemma system_ok_grow sy pid claims key lease :
  system_ok sy → sy_registries sy !! pid = Some claims → lock_filename key ∉ sy_locks sy →
  wl_key lease = key →
  system_ok (mkClaimSystem ({[lock_filename key]} ∪ sy_locks sy)
    (<[pid := <[key := mkClaimRecord lease (lock_filename key)]> claims]> (sy_registries sy))).
Proof.
  intros [Hrec Hinj] Hpid Hfree Hkey.
  set (new := mkClaimRecord lease (lock_filename key)).
  assert (Hold : ∀ p k r, holds (mkClaimSystem ({[lock_filename key]} ∪ sy_locks sy)
       (<[pid := <[key := new]> claims]> (sy_registries sy))) p k r →
     (p = pid ∧ k = key ∧ r = new) ∨ holds sy p k r).
  { intros p k r [[-> Hk]|[Hne Hh]]%holds_insert; [|right; exact Hh].
    apply lookup_insert_Some in Hk as [[-> <-]|[? Hk]]; [by left|right; by exists claims]. }
  split.
  - intros p k r [(-> & -> & ->)|Hh]%Hold; cbn; [set_solver|].
    destruct (Hrec p k r Hh) as (? & ? & ?). set_solver.
  - intros p k r p' k' r' [(-> & -> & ->)|Hh]%Hold [(-> & -> & ->)|Hh']%Hold Heq; [done| | |].
    + destruct Hfree. destruct (Hrec _ _ _ Hh') as (_ & _ & Hin). by rewrite <- Heq in Hin.
    + destruct Hfree. destruct (Hrec _ _ _ Hh) as (_ & _ & Hin). by rewrite Heq in Hin.
    + by apply (Hinj p k r p' k' r').
Qed.

(** Records go, and with them the lock files only they held. *)
Lemma system_ok_shrink sy sy' :
  system_ok sy → (∀ p k r, holds sy' p k r → holds sy p k r) →
  (∀ p k r, holds sy' p k r → cl_process_lock r ∈ sy_locks sy → cl_process_lock r ∈ sy_locks sy') →
  system_ok sy'.
Proof. intros [Hrec Hinj] Hsub Hlocks. split; [naive_solver|eauto 10]. Qed.

Lemma claim_step_ok sy sy' : system_ok sy → claim_step sy sy' → system_ok sy'.
Proof.
  intros Hok Hstep. pose proof Hok as [Hrec Hinj].
  destruct Hstep as [sy pid Hpid|sy pid claims host nonce owner repo checkout req locks' claims' r
    Hpid Hc|sy pid claims lease locks' claims' r Hpid Hr|sy pid claims Hpid].
  - apply (system_ok_shrink sy); [done| |done].
    by intros p k r [[-> Hk]|[? Hh]]%holds_insert.
  - apply claim_spec in Hc as [(-> & -> & _)|(key & n & _ & _ & _ & Hfree & _ & -> & ->)].
    + rewrite insert_id by done. by destruct sy.
    + by apply system_ok_grow.
  - apply release_spec in Hr as [(-> & -> & _)|(rec & Hk & <- & _ & -> & ->)].
    { rewrite insert_id by done. by destruct sy. }
    assert (Hsub : ∀ p k r, holds (mkClaimSystem (sy_locks sy ∖ {[cl_process_lock rec]})
        (<[pid := delete (wl_key (cl_lease rec)) claims]> (sy_registries sy))) p k r →
      holds sy p k r ∧ (p = pid → k ≠ wl_key (cl_lease rec))).
    { intros p k r' [[-> Hd]|[Hne Hh]]%holds_insert; [|done].
      apply lookup_delete_Some in Hd as [Hne Hd]. split; [by exists claims|congruence]. }
    apply (system_ok_shrink sy); [done|intros p k r' Hh; by apply Hsub|].
    intros p k r' [Hh Hne]%Hsub Hin. cbn. apply elem_of_difference. split; [done|].
    rewrite elem_of_singleton. intros Heq.
    destruct (Hinj p k r' pid _ rec Hh ltac:(by exists claims) Heq) as [-> ->]. by apply Hne.
  - assert (Hsub : ∀ p k r, holds (mkClaimSystem (sy_locks sy ∖ locks_of claims)
        (delete pid (sy_registries sy))) p k r → holds sy p k r ∧ p ≠ pid).
    { intros p k r (c & Hc & Hk). cbn in Hc. apply lookup_delete_Some in Hc as [Hne Hc].
      split; [by exists c|done]. }
    apply (system_ok_shrink sy); [done|intros p k r Hh; by apply Hsub|].
    intros p k r [Hh Hne]%Hsub Hin. cbn. apply elem_of_difference. split; [done|].
    intros (k' & r' & Hk' & Heq)%elem_of_locks_of. apply Hne.
    by destruct (Hinj p k r pid k' r' Hh ltac:(by exists claims) (eq_sym Heq)).
Qed.

Lemma reachable_ok sy : claims_reachable sy → system_ok sy.
Proof.
  intros Hr. refine (rtc_ind_r (λ s, system_ok s) _ _ _ _ Hr).
  - split; [intros p k r (? & [=] & _)|intros p k r p' k' r' (? & [=] & _)].
  - intros s s' _ Hstep Hok. by apply claim_step_ok with s.
Qed.
End system.

(** ** What claims promise *)

(** C18: A checkout has one owner among all processes.  In every system that
    processes reach by starting, claiming, releasing and ending, a process
    that holds a checkout holds it alone: the registry of every other process
    lacks it, and a claim there is refused without any effect.  The lease is
    filed under its checkout, with the lock file of that checkout, which is
    held.  Within its own process the checkout is handed out again to the same
    owner under the same request id, and to nobody else. *)
Theorem claims_exclude {HSha : Sha256} sy pid claims k record :
  claims_reachable sy → sy_registries sy !! pid = Some claims → claims !! k = Some record →
  is_current claims (cl_lease record) = true
  ∧ wl_key (cl_lease record) = k ∧ cl_process_lock record = lock_filename k
  ∧ lock_filename k ∈ sy_locks sy
  ∧ (∀ pid' claims', pid' ≠ pid → sy_registries sy !! pid' = Some claims' →
      claims' !! k = None
      ∧ ∀ (host : GitHost) nonce owner repo checkout req,
          resolve_worktree_key repo checkout = Ok k →
          ∃ e, claim nonce (sy_locks sy) claims' owner repo checkout req
               = (sy_locks sy, claims', Err e))
  ∧ ∀ (host : GitHost) nonce owner repo checkout req,
      resolve_worktree_key repo checkout = Ok k →
      claim nonce (sy_locks sy) claims owner repo checkout req
      = (sy_locks sy, claims,
         if decide (owner = wl_owner (cl_lease record) ∧ req = wl_request_id (cl_lease record))
         then Ok (cl_lease record)
         else Err (WorktreeClaimError.AlreadyOwned (lo_mission_id (wl_owner (cl_lease record)))
                     (lo_mission_run_id (wl_owner (cl_lease record))))).
Proof.
  intros Hsy%reachable_ok Hpid Hk. destruct Hsy as [Hrec Hinj].
  destruct (Hrec pid k record) as (Hkey & Hlock & Hin); [by exists claims|].
  split; [|split; [done|split; [done|split; [by rewrite <- Hlock|split]]]].
  - apply is_current_spec. exists (cl_process_lock record). rewrite Hkey, Hk. by destruct record.
  - intros pid' claims' Hne Hpid'.
    assert (Hnone : claims' !! k = None).
    { destruct (claims' !! k) as [r'|] eqn:Hk'; [|done]. exfalso. apply Hne.
      destruct (Hrec pid' k r') as (_ & Hlock' & _); [by exists claims'|].
      destruct (Hinj pid' k r' pid k record) as [? _]; [by exists claims'|by exists claims| |done].
      congruence. }
    split; [done|]. intros host nonce owner repo checkout req Hres.
    unfold claim. rewrite Hres, Hnone. destruct (lock_file_opens _); cbn [negb]; [|by eexists].
    rewrite bool_decide_eq_true_2 by (by rewrite <- Hlock). by eexists.
  - intros host nonce owner repo checkout req Hres. unfold claim. rewrite Hres, Hk.
    destruct (decide _) as [[-> ->]|Hne]; [by rewrite !bool_decide_eq_true_2|].
    destruct (bool_decide _ && bool_decide _) eqn:Hb; [|done].
    apply andb_true_iff in Hb as [Ho%bool_decide_eq_true Hr%bool_decide_eq_true]. naive_solver.
Qed.

(** A released lease is dead.  After [release] the lease is not current and
    its lock file is free.  When the checkout is then claimed with another
    nonce, the new lease is current, and releasing the old one again is
    refused as stale. *)
Theorem released_lease_is_dead {HSha : Sha256} `{GitHost} sy pid claims lease locks1 claims1 r owner
    repo checkout req n :
  claims_reachable sy → sy_registries sy !! pid = Some claims →
  is_current claims lease = true →
  release_claim (sy_locks sy) claims lease = (locks1, claims1, r) →
  r = Ok ReleaseOutcome.Released ∧ is_current claims1 lease = false
  ∧ release_claim locks1 claims1 lease = (locks1, claims1, Ok ReleaseOutcome.AlreadyReleased)
  ∧ (resolve_worktree_key repo checkout = Ok (wl_key lease) →
     lock_file_opens (lock_filename (wl_key lease)) = true → n ≠ wl_nonce lease →
     ∃ locks2 claims2 lease2,
       claim (Some n) locks1 claims1 owner repo checkout req = (locks2, claims2, Ok lease2)
       ∧ is_current claims2 lease2 = true ∧ is_current claims2 lease = false
       ∧ release_claim locks2 claims2 lease
         = (locks2, claims2, Err WorktreeClaimError.StaleLease)).
Proof.
  intros Hsy%reachable_ok Hpid [lock Hcur]%is_current_spec Hrel.
  destruct Hsy as [Hrec _]. destruct (Hrec pid (wl_key lease) (mkClaimRecord lease lock))
    as (_ & Hlock & _); [by exists claims|]. cbn in Hlock.
  unfold release_claim in Hrel. rewrite Hcur in Hrel. cbn [cl_lease cl_process_lock] in Hrel.
  rewrite (bool_decide_eq_true_2 (lease = lease)) in Hrel by done. injection Hrel as <- <- <-.
  assert (Hgone : delete (wl_key lease) claims !! wl_key lease = None) by apply lookup_delete_eq.
  split_and!; [done|by unfold is_current; rewrite Hgone|by unfold release_claim; rewrite Hgone|].
  intros Hres Hopens Hn. unfold claim. rewrite Hres, Hgone, Hopens. cbn [negb].
  rewrite bool_decide_eq_false_2 by (rewrite Hlock; set_solver).
  set (lease2 := mkWorktreeLease (wl_key lease) owner req n). eexists _, _, lease2.
  assert (Hne : lease2 ≠ lease) by (intros Heq; by rewrite <- Heq in Hn).
  split_and!; [done| | |].
  - apply is_current_spec. eexists. apply lookup_insert_eq.
  - unfold is_current. rewrite lookup_insert_eq. by apply bool_decide_eq_false_2.
  - unfold release_claim. rewrite lookup_insert_eq. cbn [cl_lease].
    by rewrite bool_decide_eq_false_2.
Qed.

(** Paths and identifiers hold no NUL byte *)
Definition lease_plain (lease : WorktreeLease) : Prop :=
  Forall (λ s, "000"%char ∉ str_bytes s)
    [wk_repository_common_dir (wl_key lease); wk_checkout_root (wl_key lease);
     lo_mission_id (wl_owner lease); lo_mission_run_id (wl_owner lease)].

(** What [lease_authority_digest] hashes *)
Definition lease_text (lease : WorktreeLease) : bytes :=
  nul_terminated "mission-worktree-lease-authority-v1"
  ++ nul_terminated (wk_repository_common_dir (wl_key lease))
  ++ nul_terminated (wk_checkout_root (wl_key lease))
  ++ nul_terminated (lo_mission_id (wl_owner lease))
  ++ nul_terminated (lo_mission_run_id (wl_owner lease))
  ++ wl_nonce lease.

(** The authority digest of a lease names a claim.  When the digest of a lease
    is current in a registry, the registry holds a lease of the same checkout,
    the same owner and the same nonce, or a lease that does and this one are
    two texts with one SHA-256. *)
Theorem lease_digest_names_a_claim {HSha : Sha256} claims lease :
  (∀ k record, claims !! k = Some record → lease_plain (cl_lease record)) → lease_plain lease →
  has_current_authority_digest claims (lease_authority_digest lease) = true →
  (∃ k record, claims !! k = Some record ∧ wl_key (cl_lease record) = wl_key lease
     ∧ wl_owner (cl_lease record) = wl_owner lease
     ∧ wl_nonce (cl_lease record) = wl_nonce lease)
  ∨ ∃ k record, claims !! k = Some record ∧ clashes (lease_text (cl_lease record)) (lease_text lease).
Proof.
  intros Hclaims Hplain Hcur. unfold has_current_authority_digest in Hcur.
  apply existsb_exists in Hcur as (record & Hin%list_elem_of_In & Heq%bool_decide_eq_true).
  apply elem_of_btree_values in Hin as [k Hk].
  apply hex_inj, sha256_inj_or in Heq as [Heq|?]; [left|right; by exists k, record].
  pose proof (Hclaims _ _ Hk) as Hplain'. unfold lease_plain in Hplain, Hplain'.
  rewrite !Forall_cons in Hplain, Hplain'.
  destruct Hplain as (H1 & H2 & H3 & H4 & _), Hplain' as (H1' & H2' & H3' & H4' & _).
  exists k, record. split; [exact Hk|]. apply app_inv_head in Heq.
  apply nul_terminated_inj in Heq as [E1 Heq]; [|done..].
  apply nul_terminated_inj in Heq as [E2 Heq]; [|done..].
  apply nul_terminated_inj in Heq as [E3 Heq]; [|done..].
  apply nul_terminated_inj in Heq as [E4 Heq]; [|done..].
  destruct (cl_lease record) as [[] [] ? ?], lease as [[] [] ? ?]; cbn in *. by subst.
Qed.

(** ** Concrete claims *)

Module ClaimsDemo.
#[local] Existing Instance demo_sha256.
(** Two checkouts of one repository *)
#[local] Instance host : GitHost := {|
  canonicalize p := Some p;
  git_worktree_info p := Some (mkGitWorktreeInfo p "/repo/.git");
  git_head _ := Some "0123456789012345678901234567890123456789";
  lock_file_opens _ := true |}.

Definition owner := mkLeaseOwner "m" "r".
Definition key := mkWorktreeKey "/repo/.git" "/tree".
Definition request := mkClaimRequestId "q".
Definition nonce (b : ascii) : bytes := replicate 16 b.
Definition lease := mkWorktreeLease key owner request (nonce "a").
Definition record := mkClaimRecord lease (lock_filename key).
Definition claimed : gset string * WorktreeClaimRegistry :=
  ({[lock_filename key]} ∪ ∅, <[key := record]> ∅).

Lemma claimed_eq :
  claim (Some (nonce "a")) ∅ ∅ owner "/repo" "/tree" request = (claimed, Ok lease).
Proof.
  assert (Hk : resolve_worktree_key "/repo" "/tree" = Ok key) by reflexivity.
  unfold claim. rewrite Hk, lookup_empty. cbn [lock_file_opens host negb].
  by rewrite bool_decide_eq_false_2 by set_solver.
Qed.

(** One process holds [/tree]; another has started. *)
Definition sy : ClaimSystem := mkClaimSystem claimed.1 {[1%N := claimed.2; 2%N := ∅]}.

Lemma sy_reachable : claims_reachable sy.
Proof.
  eapply rtc_l; [apply (step_start _ 2); reflexivity|].
  eapply rtc_l; [apply (step_start _ 1); reflexivity|].
  eapply rtc_l.
  { apply (step_claim _ 1 ∅ host (Some (nonce "a")) owner "/repo" "/tree" request
             claimed.1 claimed.2 (Ok lease)); [reflexivity|exact claimed_eq]. }
  assert (Heq : sy = mkClaimSystem claimed.1 (<[1%N := claimed.2]> (<[1%N := ∅]> {[2%N := ∅]})))
    by (unfold sy; by rewrite insert_insert_eq).
  rewrite Heq. apply rtc_refl.
Qed.
End ClaimsDemo.

Section ClaimsWitnesses.
#[local] Existing Instances demo_sha256 ClaimsDemo.host.
Import ClaimsDemo.

Lemma claims_exclude_witness :
  lock_filename key ∈ sy_locks sy
  ∧ ∃ e, claim (Some (nonce "b")) (sy_locks sy) ∅ owner "/repo" "/tree" request
         = (sy_locks sy, ∅, Err e).
Proof.
  assert (Hk : claimed.2 !! key = Some record) by apply lookup_insert_eq.
  destruct (claims_exclude sy 1 claimed.2 key record sy_reachable eq_refl Hk)
    as (_ & _ & _ & Hlock & Hother & _).
  split; [exact Hlock|].
  destruct (Hother 2%N ∅ ltac:(discriminate) eq_refl) as [_ Hclaim].
  apply (Hclaim host). reflexivity.
Defined.

Lemma released_lease_is_dead_witness :
  ∃ locks1 claims1, release_claim (sy_locks sy) claimed.2 lease
                    = (locks1, claims1, Ok ReleaseOutcome.Released)
    ∧ is_current claims1 lease = false
    ∧ ∃ locks2 claims2 lease2,
        claim (Some (nonce "b")) locks1 claims1 owner "/repo" "/tree" request
        = (locks2, claims2, Ok lease2)
        ∧ release_claim locks2 claims2 lease
          = (locks2, claims2, Err WorktreeClaimError.StaleLease).
Proof.
  assert (Hcur : is_current claimed.2 lease = true) by (vm_compute; reflexivity).
  destruct (release_claim (sy_locks sy) claimed.2 lease) as [[locks1 claims1] r] eqn:Hr.
  destruct (released_lease_is_dead sy 1 claimed.2 lease locks1 claims1 r owner "/repo" "/tree"
              request (nonce "b") sy_reachable eq_refl Hcur Hr) as (-> & Hdead & _ & Hagain).
  exists locks1, claims1. split; [reflexivity|split; [exact Hdead|]].
  destruct Hagain as (l2 & c2 & lease2 & Hc & _ & _ & Hs); [reflexivity|reflexivity|discriminate|].
  exists l2, c2, lease2. split; [exact Hc|exact Hs].
Defined.

Lemma lease_digest_names_a_claim_witness :
  has_current_authority_digest claimed.2 (lease_authority_digest lease) = true
  ∧ ((∃ k record, claimed.2 !! k = Some record ∧ wl_key (cl_lease record) = key)
     ∨ ∃ k record, claimed.2 !! k = Some record ∧ clashes (lease_text (cl_lease record)) (lease_text lease)).
Proof.
  assert (Hcur : has_current_authority_digest claimed.2 (lease_authority_digest lease) = true)
    by (vm_compute; reflexivity).
  assert (Hp : lease_plain lease) by (apply (bool_decide_unpack _); vm_compute; exact I).
  assert (Hc : ∀ k r, claimed.2 !! k = Some r → lease_plain (cl_lease r)).
  { intros k r Hk. cbn [claimed snd] in Hk.
    apply lookup_insert_Some in Hk as [[_ <-]|[_ Hk]]; [exact Hp|].
    rewrite lookup_empty in Hk. discriminate Hk. }
  split; [exact Hcur|].
  destruct (lease_digest_names_a_claim claimed.2 lease Hc Hp Hcur)
    as [(k & r & Hk & Hkey & _)|Hcoll]; [left|right; exact Hcoll].
  exists k, r. split; [exact Hk|exact Hkey].
Defined.
End ClaimsWitnesses.
