(* ===== verification/RunState.v ===== *)
(** * Observed session state ([src/mission/run_state.rs])

    A [SessionSnapshot] is what the mission cockpit believes about one
    provider session.  [apply] folds an observation into it; observations
    arrive from structured hooks, from the provider's API, from the process
    table and from guesses about the terminal's contents, and they may be
    duplicated, late or out of order. *)

From S2P Require Export Text.

(** ** Data *)

Module SessionStatus.
Inductive SessionStatus :=
| Starting
| Ready
| Working
| NeedsApproval
| NeedsAnswer
| Blocked
| Failed
| Disconnected
| Unknown.
#[export] Instance eq_dec : EqDecision SessionStatus.
Proof. solve_decision. Defined.
End SessionStatus.
Export (hints) SessionStatus.
Abbreviation SessionStatus := SessionStatus.SessionStatus.

Module ObservationSource.
Inductive ObservationSource :=
| StructuredHook
| ProviderApi
| Process
| TerminalHeuristic.
#[export] Instance eq_dec : EqDecision ObservationSource.
Proof. solve_decision. Defined.
End ObservationSource.
Export (hints) ObservationSource.
Abbreviation ObservationSource := ObservationSource.ObservationSource.

Module Confidence.
Inductive Confidence := Exact | Strong | Inferred.
#[export] Instance eq_dec : EqDecision Confidence.
Proof. solve_decision. Defined.
End Confidence.
Export (hints) Confidence.
Abbreviation Confidence := Confidence.Confidence.

Record SessionObservation := mkSessionObservation {
  obs_event_id : string;
  obs_status : SessionStatus;
  obs_source : ObservationSource;
  obs_provider_sequence : option N;
  obs_received_sequence : N;
  obs_turn_id : option string;
  obs_observed_at_millis : N;
  obs_expires_at_millis : option N;
  obs_turn_completed : bool;
}.
#[export] Instance SessionObservation_fields : Fields SessionObservation := λ o,
  mkSessionObservation (obs_event_id o) (obs_status o) (obs_source o)
    (obs_provider_sequence o) (obs_received_sequence o) (obs_turn_id o)
    (obs_observed_at_millis o) (obs_expires_at_millis o) (obs_turn_completed o).

Record SessionSnapshot := mkSessionSnapshot {
  snap_status : SessionStatus;
  snap_source : ObservationSource;
  snap_confidence : Confidence;
  snap_provider_sequence : option N;
  snap_received_sequence : N;
  snap_current_turn_id : option string;
  snap_current_turn_completed : bool;
  snap_observed_at_millis : N;
  snap_expires_at_millis : option N;
  snap_applied_event_ids : gset string;
}.
#[export] Instance SessionSnapshot_fields : Fields SessionSnapshot := λ s,
  mkSessionSnapshot (snap_status s) (snap_source s) (snap_confidence s)
    (snap_provider_sequence s) (snap_received_sequence s) (snap_current_turn_id s)
    (snap_current_turn_completed s) (snap_observed_at_millis s)
    (snap_expires_at_millis s) (snap_applied_event_ids s).

Record VisibleSessionState := mkVisibleSessionState {
  vis_status : SessionStatus;
  vis_source : ObservationSource;
  vis_confidence : Confidence;
  vis_age_millis : N;
}.

(** ** Operations *)

(** [SessionStatus::requires_attention] *)
Definition requires_attention (s : SessionStatus) : bool :=
  match s with
  | SessionStatus.NeedsApproval | SessionStatus.NeedsAnswer | SessionStatus.Blocked => true
  | _ => false
  end.

(** [SessionStatus::is_safety_worsening] *)
Definition is_safety_worsening (s : SessionStatus) : bool :=
  requires_attention s
  || match s with SessionStatus.Failed | SessionStatus.Disconnected => true | _ => false end.

(** [ObservationSource::confidence] *)
Definition source_confidence (s : ObservationSource) : Confidence :=
  match s with
  | ObservationSource.StructuredHook | ObservationSource.ProviderApi => Confidence.Exact
  | ObservationSource.Process => Confidence.Strong
  | ObservationSource.TerminalHeuristic => Confidence.Inferred
  end.

(** [ObservationSource::priority] *)
Definition source_priority (s : ObservationSource) : N :=
  match s with
  | ObservationSource.StructuredHook | ObservationSource.ProviderApi => 3
  | ObservationSource.Process => 2
  | ObservationSource.TerminalHeuristic => 1
  end.

(** [SessionObservation::new], [expires_at] and [with_turn_completed] *)
Definition SessionObservation_new (event_id : string) (status : SessionStatus)
    (source : ObservationSource) (provider_sequence : option N) (received_sequence : N)
    (turn_id : option string) (observed_at_millis : N) : SessionObservation :=
  {| obs_event_id := event_id;
     obs_status := status;
     obs_source := source;
     obs_provider_sequence := provider_sequence;
     obs_received_sequence := received_sequence;
     obs_turn_id := turn_id;
     obs_observed_at_millis := observed_at_millis;
     obs_expires_at_millis := None;
     obs_turn_completed := false |}.

Definition observation_expires_at (o : SessionObservation) (expires_at_millis : N) :=
  o <| obs_expires_at_millis := Some expires_at_millis |>.

Definition with_turn_completed (o : SessionObservation) := o <| obs_turn_completed := true |>.

(** [SessionObservation::normalize_heuristic] *)
Definition normalize_heuristic (o : SessionObservation) : SessionObservation :=
  match obs_source o with
  | ObservationSource.StructuredHook | ObservationSource.ProviderApi => o
  | ObservationSource.Process =>
      o <| obs_provider_sequence := None |> <| obs_turn_id := None |>
        <| obs_turn_completed := false |>
  | ObservationSource.TerminalHeuristic =>
      let claimed_completion := obs_turn_completed o in
      let o := o <| obs_provider_sequence := None |> <| obs_turn_id := None |>
                 <| obs_turn_completed := false |> in
      if claimed_completion
         || negb (match obs_status o with
                  | SessionStatus.Ready | SessionStatus.Unknown => true | _ => false end)
      then o <| obs_status := SessionStatus.Unknown |>
      else o
  end.

(** [SessionSnapshot::starting] *)
Definition starting (observed_at_millis : N) : SessionSnapshot :=
  {| snap_status := SessionStatus.Starting;
     snap_source := ObservationSource.Process;
     snap_confidence := Confidence.Strong;
     snap_provider_sequence := None;
     snap_received_sequence := 0;
     snap_current_turn_id := None;
     snap_current_turn_completed := false;
     snap_observed_at_millis := observed_at_millis;
     snap_expires_at_millis := None;
     snap_applied_event_ids := ∅ |}.

(** [SessionSnapshot::should_accept] *)
Definition should_accept (s : SessionSnapshot) (o : SessionObservation) : bool :=
  let same_turn := bool_decide (obs_turn_id o = snap_current_turn_id s) in
  let unscoped := bool_decide (obs_turn_id o = None) in
  if (obs_received_sequence o <=? snap_received_sequence s)%N then false
  else if same_turn
          && match obs_provider_sequence o, snap_provider_sequence s with
             | Some incoming, Some current => (incoming <=? current)%N
             | _, _ => false
             end then false
  else if (same_turn || unscoped) && snap_current_turn_completed s
          && negb (is_safety_worsening (obs_status o)) then false
  else if (source_priority (obs_source o) <? source_priority (snap_source s))%N
          && negb (match obs_status o with
                   | SessionStatus.Failed | SessionStatus.Disconnected => true | _ => false end)
          && negb (bool_decide (snap_status s = SessionStatus.Starting)
                   && bool_decide (snap_applied_event_ids s = ∅)) then false
  else true.

(** [SessionSnapshot::apply] *)
Definition snapshot_apply (s : SessionSnapshot) (observation : SessionObservation) :
    SessionSnapshot :=
  let o := normalize_heuristic observation in
  if bool_decide (obs_event_id o ∈ snap_applied_event_ids s) || negb (should_accept s o) then s
  else
    let is_new_turn :=
      match obs_turn_id o, snap_current_turn_id s with
      | Some incoming, Some current => negb (bool_decide (incoming = current))
      | Some _, None => true
      | None, _ => false
      end in
    let s := s <| snap_status := obs_status o |>
               <| snap_source := obs_source o |>
               <| snap_confidence := source_confidence (obs_source o) |> in
    let s := match obs_provider_sequence o with
             | Some n => s <| snap_provider_sequence := Some n |>
             | None => s
             end in
    let s := s <| snap_received_sequence := obs_received_sequence o |> in
    let s := match obs_turn_id o with
             | Some t =>
                 s <| snap_current_turn_id := Some t |>
                   <| snap_current_turn_completed :=
                        if is_new_turn then obs_turn_completed o
                        else snap_current_turn_completed s || obs_turn_completed o |>
             | None => s
             end in
    s <| snap_observed_at_millis := obs_observed_at_millis o |>
      <| snap_expires_at_millis := obs_expires_at_millis o |>
      <| snap_applied_event_ids := {[ obs_event_id o ]} ∪ snap_applied_event_ids s |>.

(** [SessionSnapshot::visible_at] *)
Definition visible_at (s : SessionSnapshot) (now_millis : N) : VisibleSessionState :=
  let expired := match snap_expires_at_millis s with
                 | Some expires_at => (expires_at <=? now_millis)%N
                 | None => false
                 end in
  {| vis_status := if expired then SessionStatus.Unknown else snap_status s;
     vis_source := snap_source s;
     vis_confidence := snap_confidence s;
     vis_age_millis := saturating_sub now_millis (snap_observed_at_millis s) |}.

(** The state after a sequence of deliveries. *)
Definition observe (s : SessionSnapshot) (os : list SessionObservation) : SessionSnapshot :=
  foldl snapshot_apply s os.

(** ** The fields after an accepted observation *)

Definition accepted (s : SessionSnapshot) (o : SessionObservation) : bool :=
  let o := normalize_heuristic o in
  negb (bool_decide (obs_event_id o ∈ snap_applied_event_ids s)) && should_accept s o.

Lemma snapshot_apply_rejected s o : accepted s o = false → snapshot_apply s o = s.
Proof.
  unfold accepted, snapshot_apply. intros Hacc.
  case_bool_decide; cbn in *; [done|]. by rewrite Hacc.
Qed.

Ltac unfold_apply H :=
  unfold accepted in H; apply andb_true_iff in H as [?Hnew ?Hacc];
  unfold snapshot_apply; cbv zeta in *;
  apply negb_true_iff in Hnew; rewrite Hnew, Hacc; cbn [orb negb].

Section accepted_fields.
Context (s : SessionSnapshot) (o : SessionObservation) (Hacc : accepted s o = true).
Let o' := normalize_heuristic o.

Lemma apply_status : snap_status (snapshot_apply s o) = obs_status o'.
Proof. unfold_apply Hacc. subst o'. by repeat case_match. Qed.

Lemma apply_source : snap_source (snapshot_apply s o) = obs_source o'.
Proof. unfold_apply Hacc. subst o'. by repeat case_match. Qed.

Lemma apply_received : snap_received_sequence (snapshot_apply s o) = obs_received_sequence o'.
Proof. unfold_apply Hacc. subst o'. by repeat case_match. Qed.

Lemma apply_applied :
  snap_applied_event_ids (snapshot_apply s o) = {[ obs_event_id o' ]} ∪ snap_applied_event_ids s.
Proof. unfold_apply Hacc. subst o'. by repeat case_match. Qed.

Lemma apply_turn_id :
  snap_current_turn_id (snapshot_apply s o)
  = match obs_turn_id o' with Some t => Some t | None => snap_current_turn_id s end.
Proof. unfold_apply Hacc. subst o'. by repeat case_match. Qed.

Lemma apply_turn_completed :
  snap_current_turn_completed (snapshot_apply s o)
  = match obs_turn_id o' with
    | Some t => if bool_decide (snap_current_turn_id s = Some t)
                then snap_current_turn_completed s || obs_turn_completed o'
                else obs_turn_completed o'
    | None => snap_current_turn_completed s
    end.
Proof.
  unfold_apply Hacc. subst o'.
  destruct (obs_turn_id _) as [t|], (snap_current_turn_id s) as [u|],
    (obs_provider_sequence _) as [n|]; cbn; try done;
    destruct (decide (t = u)) as [->|?];
    repeat first [ rewrite bool_decide_eq_true_2 by congruence
                 | rewrite bool_decide_eq_false_2 by congruence ]; done.
Qed.
End accepted_fields.

Lemma normalize_event_id o : obs_event_id (normalize_heuristic o) = obs_event_id o.
Proof. unfold normalize_heuristic. by repeat case_match. Qed.

Lemma normalize_source o : obs_source (normalize_heuristic o) = obs_source o.
Proof. unfold normalize_heuristic. by destruct (obs_source o) eqn:?; repeat case_match. Qed.

Lemma normalize_received o :
  obs_received_sequence (normalize_heuristic o) = obs_received_sequence o.
Proof. unfold normalize_heuristic. by repeat case_match. Qed.

Lemma accepted_new s o : accepted s o = true → obs_event_id o ∉ snap_applied_event_ids s.
Proof.
  unfold accepted. cbv zeta. rewrite normalize_event_id. intros Hacc. by inv_ok.
Qed.

Lemma accepted_received s o :
  accepted s o = true → (snap_received_sequence s < obs_received_sequence o)%N.
Proof.
  unfold accepted, should_accept. cbv zeta. rewrite normalize_received. intros Hacc. inv_ok.
  case_match; [done|]. by inv_ok.
Qed.

(** ** What the fold guarantees *)

(** Only a structured source speaks about turns. *)
Definition is_structured (src : ObservationSource) : bool :=
  match src with
  | ObservationSource.StructuredHook | ObservationSource.ProviderApi => true
  | _ => false
  end.

Lemma normalize_unstructured o :
  is_structured (obs_source o) = false →
  obs_turn_id (normalize_heuristic o) = None.
Proof. unfold normalize_heuristic. by destruct (obs_source o) eqn:?; repeat case_match. Qed.

Lemma normalize_heuristic_status o :
  obs_source o = ObservationSource.TerminalHeuristic →
  obs_status (normalize_heuristic o) = SessionStatus.Ready
  ∨ obs_status (normalize_heuristic o) = SessionStatus.Unknown.
Proof.
  unfold normalize_heuristic. intros ->. cbn.
  destruct (obs_turn_completed o); cbn; [by right|].
  destruct (obs_status o); cbn; auto.
Qed.

Lemma observe_app s os os' : observe s (os ++ os') = observe (observe s os) os'.
Proof. apply foldl_app. Qed.

Lemma observe_cons s o os : observe s (o :: os) = observe (snapshot_apply s o) os.
Proof. reflexivity. Qed.

Lemma observe_applied_mono s os :
  snap_applied_event_ids s ⊆ snap_applied_event_ids (observe s os).
Proof.
  revert s. induction os as [|o os IH]; intros s; [done|]. rewrite observe_cons.
  etrans; [|apply IH]. destruct (accepted s o) eqn:Hacc.
  - rewrite apply_applied by done. set_solver.
  - by rewrite snapshot_apply_rejected.
Qed.

Lemma observe_received_mono s os :
  (snap_received_sequence s ≤ snap_received_sequence (observe s os))%N.
Proof.
  revert s. induction os as [|o os IH]; intros s; [done|]. rewrite observe_cons.
  etrans; [|apply IH]. destruct (accepted s o) eqn:Hacc.
  - rewrite apply_received, normalize_received by done.
    apply accepted_received in Hacc. lia.
  - by rewrite snapshot_apply_rejected.
Qed.

Lemma apply_known s o : obs_event_id o ∈ snap_applied_event_ids s → snapshot_apply s o = s.
Proof.
  intros Hin. apply snapshot_apply_rejected. destruct (accepted s o) eqn:Hacc; [|done].
  by apply accepted_new in Hacc.
Qed.

(** What a completed turn still lets through. *)
Lemma accepted_completed s o :
  accepted s o = true → snap_current_turn_completed s = true →
  obs_turn_id (normalize_heuristic o) = None
  ∨ obs_turn_id (normalize_heuristic o) = snap_current_turn_id s →
  is_safety_worsening (obs_status (normalize_heuristic o)) = true.
Proof.
  unfold accepted, should_accept. cbv zeta. intros Hacc Hdone Hturn. inv_ok.
  set (o' := normalize_heuristic o) in *.
  case_match; [done|]. case_match; [done|]. case_match; [done|].
  rewrite Hdone, andb_true_r in *.
  destruct (is_safety_worsening (obs_status o')); [done|].
  rewrite andb_true_r in *. inv_ok. naive_solver.
Qed.

(** Redelivery.  An observation that was applied once changes nothing when
    it is delivered again, however many others arrived in between; and the
    received sequence of the snapshot never goes back. *)
Theorem redelivery_ignored s o os :
  accepted s o = true →
  let t := observe (snapshot_apply s o) os in
  snapshot_apply t o = t
  ∧ (snap_received_sequence s < snap_received_sequence t)%N.
Proof.
  intros Hacc t. split.
  - apply apply_known. subst t. eapply observe_applied_mono.
    rewrite apply_applied, normalize_event_id by done. set_solver.
  - pose proof (observe_received_mono (snapshot_apply s o) os) as Hmono.
    rewrite apply_received, normalize_received in Hmono by done.
    apply accepted_received in Hacc. subst t. lia.
Qed.

(** A completed turn stays completed.  As long as no observation names
    another turn, whatever arrives leaves the turn completed and can change
    the visible status only to one that asks for attention or reports a
    failure. *)
Theorem completed_turn_sticky s os :
  snap_current_turn_completed s = true →
  Forall (λ o, obs_turn_id o = None ∨ obs_turn_id o = snap_current_turn_id s) os →
  let t := observe s os in
  snap_current_turn_completed t = true
  ∧ snap_current_turn_id t = snap_current_turn_id s
  ∧ (snap_status t = snap_status s ∨ is_safety_worsening (snap_status t) = true).
Proof.
  revert s. induction os as [|o os IH]; intros s Hdone Hos; [by cbn; auto|].
  apply Forall_cons in Hos as [Ho Hos]. cbv zeta. rewrite observe_cons.
  destruct (accepted s o) eqn:Hacc; [|by rewrite snapshot_apply_rejected by done; apply IH].
  assert (Hturn : obs_turn_id (normalize_heuristic o) = None
                  ∨ obs_turn_id (normalize_heuristic o) = snap_current_turn_id s).
  { unfold normalize_heuristic. by destruct (obs_source o); repeat case_match; cbn; auto. }
  pose proof (accepted_completed s o Hacc Hdone Hturn) as Hworse.
  assert (Hid : snap_current_turn_id (snapshot_apply s o) = snap_current_turn_id s).
  { rewrite apply_turn_id by done. destruct Hturn as [->| ->]; [done|].
    by destruct (snap_current_turn_id s). }
  assert (Hdone' : snap_current_turn_completed (snapshot_apply s o) = true).
  { rewrite apply_turn_completed by done.
    destruct (obs_turn_id (normalize_heuristic o)) as [t|]; [|exact Hdone].
    destruct Hturn as [?|Ht]; [done|]. rewrite bool_decide_eq_true_2 by done. by rewrite Hdone. }
  destruct (IH (snapshot_apply s o)) as (? & Hid' & Hst).
  { done. } { by rewrite Hid. }
  split_and!; [done|by etrans|].
  destruct Hst as [->|?]; [right|by right]. by rewrite apply_status.
Qed.

(** Guesses are weak.  An observation that does not come from a structured
    source never completes a turn, never names one, and, when it is a guess
    about the terminal, only ever reports the session ready or unknown. *)
Theorem heuristics_are_weak s o :
  is_structured (obs_source o) = false →
  let t := snapshot_apply s o in
  snap_current_turn_id t = snap_current_turn_id s
  ∧ snap_current_turn_completed t = snap_current_turn_completed s
  ∧ (obs_source o = ObservationSource.TerminalHeuristic →
     snap_status t = snap_status s
     ∨ snap_status t = SessionStatus.Ready ∨ snap_status t = SessionStatus.Unknown).
Proof.
  intros Hsrc t. subst t. destruct (accepted s o) eqn:Hacc.
  - rewrite apply_turn_id, apply_turn_completed, apply_status, normalize_unstructured by done.
    split_and!; [done..|]. intros Hheur. right. by apply normalize_heuristic_status.
  - rewrite snapshot_apply_rejected by done. auto.
Qed.

(** A weaker source does not override.  Once something was observed, an
    observation from a source of lower priority is applied only when it
    reports a failure or a disconnection. *)
Theorem weaker_source_cannot_override s o :
  snap_applied_event_ids s ≠ ∅ →
  (source_priority (obs_source o) < source_priority (snap_source s))%N →
  snapshot_apply s o = s
  ∨ snap_status (snapshot_apply s o) = SessionStatus.Failed
  ∨ snap_status (snapshot_apply s o) = SessionStatus.Disconnected.
Proof.
  intros Hne Hprio. destruct (accepted s o) eqn:Hacc; [|left; by apply snapshot_apply_rejected].
  right. rewrite apply_status by done. unfold accepted, should_accept in Hacc.
  cbv zeta in Hacc. rewrite normalize_source in Hacc. inv_ok.
  do 3 (case_match; [done|]).
  rewrite (proj2 (N.ltb_lt _ _) Hprio), (bool_decide_eq_false_2 (_ = ∅)), andb_false_r in * by done.
  destruct (obs_status (normalize_heuristic o)); (discriminate || auto).
Qed.

(** ** Witnesses *)

Module RunStateDemo.
Definition completed : SessionObservation :=
  with_turn_completed
    (SessionObservation_new "evt-1" SessionStatus.Ready ObservationSource.ProviderApi
       (Some 1%N) 1 (Some "turn-1") 10).
Definition guess : SessionObservation :=
  SessionObservation_new "evt-2" SessionStatus.Working ObservationSource.TerminalHeuristic
    None 2 None 11.
Definition lost : SessionObservation :=
  SessionObservation_new "evt-3" SessionStatus.Disconnected ObservationSource.Process
    None 3 None 12.
Definition started : SessionSnapshot := starting 5.
Definition finished : SessionSnapshot := snapshot_apply started completed.
End RunStateDemo.

Lemma redelivery_ignored_witness :
  let t := observe (snapshot_apply RunStateDemo.started RunStateDemo.completed)
             [RunStateDemo.guess; RunStateDemo.lost] in
  snapshot_apply t RunStateDemo.completed = t ∧ (0 < snap_received_sequence t)%N.
Proof.
  exact (redelivery_ignored RunStateDemo.started RunStateDemo.completed
           [RunStateDemo.guess; RunStateDemo.lost] ltac:(vm_compute; reflexivity)).
Defined.

Lemma completed_turn_sticky_witness :
  snap_status (observe RunStateDemo.finished [RunStateDemo.guess; RunStateDemo.lost])
  = SessionStatus.Disconnected
  ∧ snap_current_turn_completed
      (observe RunStateDemo.finished [RunStateDemo.guess; RunStateDemo.lost]) = true.
Proof.
  split; [vm_compute; reflexivity|].
  apply (completed_turn_sticky RunStateDemo.finished [RunStateDemo.guess; RunStateDemo.lost]).
  - vm_compute; reflexivity.
  - repeat constructor.
Defined.

Lemma heuristics_are_weak_witness :
  snap_current_turn_completed (snapshot_apply RunStateDemo.started RunStateDemo.guess) = false.
Proof.
  exact (proj1 (proj2 (heuristics_are_weak RunStateDemo.started RunStateDemo.guess eq_refl))).
Defined.

Lemma weaker_source_cannot_override_witness :
  snapshot_apply RunStateDemo.finished RunStateDemo.lost = RunStateDemo.finished
  ∨ snap_status (snapshot_apply RunStateDemo.finished RunStateDemo.lost) = SessionStatus.Failed
  ∨ snap_status (snapshot_apply RunStateDemo.finished RunStateDemo.lost)
    = SessionStatus.Disconnected.
Proof.
  apply (weaker_source_cannot_override RunStateDemo.finished RunStateDemo.lost).
  - intros Heq%(f_equal size). vm_compute in Heq. discriminate Heq.
  - vm_compute; reflexivity.
Defined.
