(* ===== verification/Evidence.v ===== *)
(** * Checks and evidence ([src/mission/evidence.rs])

    A mission declares checks; a check is closed by evidence.  Evidence is a
    command that ran on an exact workspace, a decision of an authorised
    reviewer about an exact workspace, or a mere claim of the provider.
    [assess] says what a piece of evidence is worth against a declaration,
    the identity of the proof and the current workspace.  The file also holds
    [ProofIdentity] of [src/mission/proof.rs], which evidence is bound to. *)

From S2P Require Export Digest.

(** ** Data *)

Record ProofIdentity := mkProofIdentity {
  pi_mission_id : string;
  pi_run_id : string;
  pi_repository_identity : string;
  pi_worktree_identity : string;
  pi_base_revision : string;
}.
#[export] Instance ProofIdentity_eq_dec : EqDecision ProofIdentity.
Proof. solve_decision. Defined.

Record CommandSpec := mkCommandSpec {
  cs_program : string;
  cs_args : list string;
  cs_cwd : string;
}.
#[export] Instance CommandSpec_eq_dec : EqDecision CommandSpec.
Proof. solve_decision. Defined.

Module PathRule.
Inductive PathRule :=
| All
| Exact (path : string)
| Prefix (prefix : string).
#[export] Instance eq_dec : EqDecision PathRule.
Proof. solve_decision. Defined.
End PathRule.
Export (hints) PathRule.
Abbreviation PathRule := PathRule.PathRule.

Record ArtifactRequirement := mkArtifactRequirement { ar_path : string }.
#[export] Instance ArtifactRequirement_eq_dec : EqDecision ArtifactRequirement.
Proof. solve_decision. Defined.

Module CheckKind.
Inductive CheckKind :=
| Command (command : CommandSpec)
| Manual.
#[export] Instance eq_dec : EqDecision CheckKind.
Proof. solve_decision. Defined.
End CheckKind.
Export (hints) CheckKind.
Abbreviation CheckKind := CheckKind.CheckKind.

Record CheckDeclaration := mkCheckDeclaration {
  cd_id : string;
  cd_kind : CheckKind;
  cd_relevant_paths : list PathRule;
  cd_required_artifacts : list ArtifactRequirement;
  cd_include_ignored : bool;
  cd_required : bool;
  cd_covered_criteria : gset string;
  cd_allowed_reviewers : gset string;
  cd_allow_manual_override : bool;
}.
#[export] Instance CheckDeclaration_eq_dec : EqDecision CheckDeclaration.
Proof. solve_decision. Defined.
#[export] Instance CheckDeclaration_fields : Fields CheckDeclaration := λ d,
  mkCheckDeclaration (cd_id d) (cd_kind d) (cd_relevant_paths d) (cd_required_artifacts d)
    (cd_include_ignored d) (cd_required d) (cd_covered_criteria d) (cd_allowed_reviewers d)
    (cd_allow_manual_override d).

Module FileDisposition.
Inductive FileDisposition := Tracked | Staged | Unstaged | Untracked | Ignored.
#[export] Instance eq_dec : EqDecision FileDisposition.
Proof. solve_decision. Defined.
End FileDisposition.
Export (hints) FileDisposition.
Abbreviation FileDisposition := FileDisposition.FileDisposition.

Record FileFingerprint := mkFileFingerprint {
  ff_path : string;
  ff_content_hash : string;
  ff_disposition : FileDisposition;
}.
#[export] Instance FileFingerprint_eq_dec : EqDecision FileFingerprint.
Proof. solve_decision. Defined.

Record WorkspaceSnapshot := mkWorkspaceSnapshot {
  ws_tree_hash : string;
  ws_diff_hash : string;
  ws_files : gmap string FileFingerprint;
  ws_artifacts : gmap string string;
}.
#[export] Instance WorkspaceSnapshot_eq_dec : EqDecision WorkspaceSnapshot.
Proof. solve_decision. Defined.

Record ArtifactEvidence := mkArtifactEvidence {
  ae_path : string;
  ae_content_hash : string;
  ae_media_type : string;
}.
#[export] Instance ArtifactEvidence_eq_dec : EqDecision ArtifactEvidence.
Proof. solve_decision. Defined.

Module EvidenceStatus.
Inductive EvidenceStatus := Passed | Failed | Stale.
#[export] Instance eq_dec : EqDecision EvidenceStatus.
Proof. solve_decision. Defined.
End EvidenceStatus.
Export (hints) EvidenceStatus.
Abbreviation EvidenceStatus := EvidenceStatus.EvidenceStatus.

Record CommandEvidence := mkCommandEvidence {
  ce_check_id : string;
  ce_declaration_digest : string;
  ce_proof_identity_digest : string;
  ce_command : CommandSpec;
  ce_base_tree_hash : string;
  ce_result_tree_hash : string;
  ce_diff_hash : string;
  ce_exit_code : Z;
  ce_started_at_millis : N;
  ce_finished_at_millis : N;
  ce_artifacts : list ArtifactEvidence;
  ce_verified_workspace : WorkspaceSnapshot;
  ce_relevant_paths : list PathRule;
  ce_include_ignored : bool;
  ce_required_artifacts : list ArtifactRequirement;
}.
#[export] Instance CommandEvidence_eq_dec : EqDecision CommandEvidence.
Proof. solve_decision. Defined.

Record ManualEvidence := mkManualEvidence {
  me_check_id : string;
  me_declaration_digest : string;
  me_proof_identity_digest : string;
  me_workspace_digest : string;
  me_author : string;
  me_recorded_at_millis : N;
  me_reason : string;
  me_is_override : bool;
}.
#[export] Instance ManualEvidence_eq_dec : EqDecision ManualEvidence.
Proof. solve_decision. Defined.

Record ProviderClaim := mkProviderClaim {
  pc_check_id : string;
  pc_claim : string;
  pc_source : string;
  pc_recorded_at_millis : N;
}.
#[export] Instance ProviderClaim_eq_dec : EqDecision ProviderClaim.
Proof. solve_decision. Defined.

Module EvidenceRecord.
Inductive EvidenceRecord :=
| Command (evidence : CommandEvidence)
| Manual (evidence : ManualEvidence)
| ProviderClaim (claim : ProviderClaim).
#[export] Instance eq_dec : EqDecision EvidenceRecord.
Proof. solve_decision. Defined.
End EvidenceRecord.
Export (hints) EvidenceRecord.
Abbreviation EvidenceRecord := EvidenceRecord.EvidenceRecord.

Module EvidenceAssessment.
Inductive EvidenceAssessment :=
| Passed
| Failed
| Stale
| DeclarationMismatch
| IdentityMismatch
| ArtifactMissingOrChanged
| ManualNotAuthorized
| ProviderClaimOnly.
#[export] Instance eq_dec : EqDecision EvidenceAssessment.
Proof. solve_decision. Defined.
End EvidenceAssessment.
Export (hints) EvidenceAssessment.
Abbreviation EvidenceAssessment := EvidenceAssessment.EvidenceAssessment.

Module EvidenceError.
Inductive EvidenceError :=
| InvalidCheckDeclaration
| ManualCheckCannotHaveCommandEvidence
| InvalidDuration
| ArtifactNotInWorkspace (path : string)
| EmptyReviewer
| EmptyManualReason
| ReviewerNotAllowed.
End EvidenceError.
Abbreviation EvidenceError := EvidenceError.EvidenceError.

(** ** Path contracts *)

(** [normalize_contract_path]; the error is Rust's unit. *)
Definition normalize_contract_path (value : string) (allow_root : bool) : result unit string :=
  _ ← reject_if (str_is_empty value
                 || (4 * 1024 <? str_len value)%N
                 || str_contains "000" value || str_contains "\" value || str_contains ":" value
                 || starts_with "/" value) tt;
  components ← try_fold (λ components component,
      if bool_decide (component = "") || bool_decide (component = ".") then Ok components
      else if bool_decide (component = "..") then Err tt
      else Ok (components ++ [component])) [] (str_split "/" value);
  match components with
  | [] => if allow_root then Ok "." else Err tt
  | _ => Ok (str_join "/" components)
  end.

(** [valid_relative_contract_path] *)
Definition valid_relative_contract_path (value : string) (allow_root : bool) : bool :=
  match normalize_contract_path value allow_root with
  | Ok normalized => bool_decide (normalized = value)
  | Err _ => false
  end.

(** [valid_contract_id] *)
Definition valid_contract_id (value : string) : bool :=
  negb (str_is_empty value)
  && (str_len value <=? 128)%N
  && forallb (λ b, is_ascii_alphanumeric b || existsb (λ c, bool_decide (c = b)) (str_bytes "_.:-"))
       (str_bytes value).

(** [valid_sha256] *)
Definition valid_sha256 (value : string) : bool :=
  (str_len value =? 64)%N && forallb is_ascii_hexdigit (str_bytes value).

(** [Result::unwrap_or] *)
Definition unwrap_or {E A} (m : result E A) (a : A) : A := match m with Ok x => x | Err _ => a end.

(** [CommandSpec::new] *)
Definition CommandSpec_new (program : string) (args : list string) (cwd : string) : CommandSpec :=
  {| cs_program := program;
     cs_args := args;
     cs_cwd := unwrap_or (normalize_contract_path cwd true) cwd |}.

(** [PathRule::exact] *)
Definition path_rule_exact (path : string) : PathRule :=
  PathRule.Exact (unwrap_or (normalize_contract_path path false) path).

(** [PathRule::prefix] *)
Definition path_rule_prefix (prefix : string) : PathRule :=
  match normalize_contract_path prefix true with
  | Ok normalized =>
      if bool_decide (normalized = ".") then PathRule.All else PathRule.Prefix normalized
  | Err _ => PathRule.Prefix prefix
  end.

(** [PathRule::matches] *)
Definition path_rule_matches (rule : PathRule) (path : string) : bool :=
  match rule with
  | PathRule.All => true
  | PathRule.Exact expected => bool_decide (path = expected)
  | PathRule.Prefix prefix =>
      let prefix := trim_end_matches "/" prefix in
      negb (str_is_empty prefix)
      && (bool_decide (path = prefix)
          || match strip_prefix prefix path with
             | Some suffix => starts_with "/" suffix
             | None => false
             end)
  end.

(** [ArtifactRequirement::new] *)
Definition ArtifactRequirement_new (path : string) : ArtifactRequirement :=
  mkArtifactRequirement (unwrap_or (normalize_contract_path path false) path).

(** ** Declarations *)

(** [CheckDeclaration::command] *)
Definition declare_command (id : string) (command : CommandSpec) (relevant_paths : list PathRule)
    (required_artifacts : list ArtifactRequirement) : CheckDeclaration :=
  {| cd_id := id;
     cd_kind := CheckKind.Command command;
     cd_relevant_paths := relevant_paths;
     cd_required_artifacts := required_artifacts;
     cd_include_ignored := false;
     cd_required := true;
     cd_covered_criteria := ∅;
     cd_allowed_reviewers := ∅;
     cd_allow_manual_override := false |}.

(** [CheckDeclaration::manual] *)
Definition declare_manual (id : string) : CheckDeclaration :=
  {| cd_id := id;
     cd_kind := CheckKind.Manual;
     cd_relevant_paths := [];
     cd_required_artifacts := [];
     cd_include_ignored := false;
     cd_required := true;
     cd_covered_criteria := ∅;
     cd_allowed_reviewers := ∅;
     cd_allow_manual_override := false |}.

(** [CheckDeclaration::include_ignored], [optional], [covers], [reviewed_by],
    [allow_manual_override] *)
Definition include_ignored (d : CheckDeclaration) (b : bool) := d <| cd_include_ignored := b |>.
Definition optional (d : CheckDeclaration) := d <| cd_required := false |>.
Definition covers (d : CheckDeclaration) (criterion_ids : list string) :=
  d <| cd_covered_criteria ::= λ s, s ∪ list_to_set criterion_ids |>.
Definition reviewed_by (d : CheckDeclaration) (reviewers : list string) :=
  d <| cd_allowed_reviewers ::= λ s, s ∪ list_to_set reviewers |>.
Definition allow_manual_override (d : CheckDeclaration) :=
  d <| cd_allow_manual_override := true |>.

(** [CheckDeclaration::command_spec] *)
Definition command_spec (d : CheckDeclaration) : option CommandSpec :=
  match cd_kind d with
  | CheckKind.Command command => Some command
  | CheckKind.Manual => None
  end.

(** [CheckDeclaration::is_manual] *)
Definition is_manual (d : CheckDeclaration) : bool :=
  match command_spec d with None => true | Some _ => false end.

(** [CheckDeclaration::has_canonical_path_contracts] *)
Definition has_canonical_path_contracts (d : CheckDeclaration) : bool :=
  forallb (λ rule, match rule with
                   | PathRule.All => true
                   | PathRule.Exact path => valid_relative_contract_path path false
                   | PathRule.Prefix prefix =>
                       negb (bool_decide (prefix = "."))
                       && valid_relative_contract_path prefix false
                   end) (cd_relevant_paths d)
  && forallb (λ artifact, valid_relative_contract_path (ar_path artifact) false)
       (cd_required_artifacts d)
  && match command_spec d with
     | None => true
     | Some command => valid_relative_contract_path (cs_cwd command) true
     end.

(** [CheckDeclaration::reviewer_is_allowed] *)
Definition reviewer_is_allowed (d : CheckDeclaration) (reviewer : string) (is_override : bool) : bool :=
  is_manual d
  && bool_decide (reviewer ∈ cd_allowed_reviewers d)
  && (negb is_override || cd_allow_manual_override d).

(** [CheckDeclaration::validate_persisted] *)
Definition validate_persisted (d : CheckDeclaration) : result EvidenceError unit :=
  let invalid := EvidenceError.InvalidCheckDeclaration in
  _ ← reject_if (negb (valid_contract_id (cd_id d))
                 || (32 <? N.of_nat (size (cd_covered_criteria d)))%N) invalid;
  _ ← reject_if ((64 <? vec_len (cd_relevant_paths d))%N
                 || (32 <? vec_len (cd_required_artifacts d))%N
                 || (32 <? N.of_nat (size (cd_allowed_reviewers d)))%N) invalid;
  _ ← reject_if (negb (has_canonical_path_contracts d)) invalid;
  _ ← reject_if (existsb (λ criterion, negb (valid_sha256 criterion)) (str_set (cd_covered_criteria d))
                 || existsb (λ reviewer, negb (valid_contract_id reviewer))
                      (str_set (cd_allowed_reviewers d))) invalid;
  match cd_kind d with
  | CheckKind.Command command =>
      reject_if (trim_is_empty (cs_program command)
                 || (1024 <? str_len (cs_program command))%N
                 || str_contains "000" (cs_program command)
                 || (128 <? vec_len (cs_args command))%N
                 || existsb (λ arg, (4 * 1024 <? str_len arg)%N || str_contains "000" arg)
                      (cs_args command)
                 || negb (valid_relative_contract_path (cs_cwd command) true)
                 || negb (bool_decide (cd_allowed_reviewers d = ∅))
                 || cd_allow_manual_override d) invalid
  | CheckKind.Manual =>
      reject_if (negb (bool_decide (cd_relevant_paths d = []))
                 || negb (bool_decide (cd_required_artifacts d = []))
                 || cd_include_ignored d
                 || bool_decide (cd_allowed_reviewers d = ∅)) invalid
  end.

(** ** Workspaces *)

(** [WorkspaceSnapshot::new] and [with_artifacts] *)
Definition WorkspaceSnapshot_new (tree_hash diff_hash : string) (files : list FileFingerprint) :
    WorkspaceSnapshot :=
  {| ws_tree_hash := tree_hash;
     ws_diff_hash := diff_hash;
     ws_files := collect_map ((λ file, (ff_path file, file)) <$> files);
     ws_artifacts := ∅ |}.

Definition with_artifacts (w : WorkspaceSnapshot) (artifacts : list (string * string)) :
    WorkspaceSnapshot :=
  {| ws_tree_hash := ws_tree_hash w;
     ws_diff_hash := ws_diff_hash w;
     ws_files := ws_files w;
     ws_artifacts := collect_map artifacts |}.

(** [WorkspaceSnapshot::relevant_files] *)
Definition relevant_files (w : WorkspaceSnapshot) (rules : list PathRule) (include_ignored : bool) :
    gmap string (string * FileDisposition) :=
  collect_map
    ((λ file, (ff_path file, (ff_content_hash file, ff_disposition file)))
     <$> filter (λ file, rules = [] ∨ existsb (λ rule, path_rule_matches rule (ff_path file)) rules = true)
           (filter (λ file, include_ignored = true
                            ∨ ff_disposition file ≠ FileDisposition.Ignored)
              (str_values (ws_files w)))).

(** [WorkspaceSnapshot::artifact_hash] *)
Definition artifact_hash (w : WorkspaceSnapshot) (path : string) : option string :=
  ws_artifacts w !! path.

(** The tag of a disposition in [WorkspaceSnapshot::digest] *)
Definition disposition_tag (d : FileDisposition) : N :=
  match d with
  | FileDisposition.Tracked => 0
  | FileDisposition.Staged => 1
  | FileDisposition.Unstaged => 2
  | FileDisposition.Untracked => 3
  | FileDisposition.Ignored => 4
  end.

Section digests.
Context {HSha : Sha256}.

(** [WorkspaceSnapshot::digest] *)
Definition workspace_digest (w : WorkspaceSnapshot) : string :=
  digest_new "mission-workspace-snapshot-v1"
  |>> digest_string (ws_tree_hash w)
  |>> digest_string (ws_diff_hash w)
  |>> digest_u64 (map_len (ws_files w))
  |>> digest_each (λ pf d, d |>> digest_string pf.1
                             |>> digest_string (ff_content_hash pf.2)
                             |>> digest_u8 (disposition_tag (ff_disposition pf.2)))
        (str_entries (ws_files w))
  |>> digest_u64 (map_len (ws_artifacts w))
  |>> digest_each (λ ph d, d |>> digest_string ph.1 |>> digest_string ph.2)
        (str_entries (ws_artifacts w))
  |>> digest_finish.

(** [CommandSpec::update_digest] *)
Definition command_update_digest (command : CommandSpec) (d : CanonicalDigest) : CanonicalDigest :=
  d |>> digest_string (cs_program command)
    |>> digest_u64 (vec_len (cs_args command))
    |>> digest_each digest_string (cs_args command)
    |>> digest_string (cs_cwd command).

(** [PathRule::digest] *)
Definition path_rule_digest (rule : PathRule) : string :=
  let d := digest_new "mission-path-rule-v1" in
  digest_finish (match rule with
                 | PathRule.All => d |>> digest_u8 0
                 | PathRule.Exact path => d |>> digest_u8 1 |>> digest_string path
                 | PathRule.Prefix prefix => d |>> digest_u8 2 |>> digest_string prefix
                 end).

(** [CheckDeclaration::digest] *)
Definition declaration_digest (c : CheckDeclaration) : string :=
  let relevant_paths := sort_strings (path_rule_digest <$> cd_relevant_paths c) in
  let required_artifacts := sort_strings (ar_path <$> cd_required_artifacts c) in
  digest_new "mission-check-declaration-v1"
  |>> digest_string (cd_id c)
  |>> (λ d, match cd_kind c with
            | CheckKind.Command command => d |>> digest_u8 0 |>> command_update_digest command
            | CheckKind.Manual => d |>> digest_u8 1
            end)
  |>> digest_u64 (vec_len relevant_paths)
  |>> digest_each digest_string relevant_paths
  |>> digest_u64 (vec_len required_artifacts)
  |>> digest_each digest_string required_artifacts
  |>> digest_bool (cd_include_ignored c)
  |>> digest_bool (cd_required c)
  |>> digest_u64 (N.of_nat (size (cd_covered_criteria c)))
  |>> digest_each digest_string (str_set (cd_covered_criteria c))
  |>> digest_u64 (N.of_nat (size (cd_allowed_reviewers c)))
  |>> digest_each digest_string (str_set (cd_allowed_reviewers c))
  |>> digest_bool (cd_allow_manual_override c)
  |>> digest_finish.

(** [ProofIdentity::digest] *)
Definition identity_digest (i : ProofIdentity) : string :=
  digest_new "mission-proof-identity-v1"
  |>> digest_string (pi_mission_id i)
  |>> digest_string (pi_run_id i)
  |>> digest_string (pi_repository_identity i)
  |>> digest_string (pi_worktree_identity i)
  |>> digest_string (pi_base_revision i)
  |>> digest_finish.

(** ** Evidence *)

(** [CommandEvidence::new] *)
Definition CommandEvidence_new (declaration : CheckDeclaration) (identity : ProofIdentity)
    (before after : WorkspaceSnapshot) (exit_code : Z) (started_at_millis finished_at_millis : N)
    (artifacts : list ArtifactEvidence) : result EvidenceError CommandEvidence :=
  _ ← reject_if (negb (has_canonical_path_contracts declaration))
        EvidenceError.InvalidCheckDeclaration;
  command ← ok_or (command_spec declaration) EvidenceError.ManualCheckCannotHaveCommandEvidence;
  _ ← reject_if (finished_at_millis <? started_at_millis)%N EvidenceError.InvalidDuration;
  _ ← try_iter (λ required,
        recorded ← ok_or (find_first (λ artifact, bool_decide (ae_path artifact = ar_path required))
                            artifacts)
                     (EvidenceError.ArtifactNotInWorkspace (ar_path required));
        reject_if (negb (bool_decide (artifact_hash after (ar_path required)
                                      = Some (ae_content_hash recorded))))
          (EvidenceError.ArtifactNotInWorkspace (ar_path required)))
      (cd_required_artifacts declaration);
  Ok {| ce_check_id := cd_id declaration;
        ce_declaration_digest := declaration_digest declaration;
        ce_proof_identity_digest := identity_digest identity;
        ce_command := command;
        ce_base_tree_hash := ws_tree_hash before;
        ce_result_tree_hash := ws_tree_hash after;
        ce_diff_hash := ws_diff_hash after;
        ce_exit_code := exit_code;
        ce_started_at_millis := started_at_millis;
        ce_finished_at_millis := finished_at_millis;
        ce_artifacts := artifacts;
        ce_verified_workspace := after;
        ce_relevant_paths := cd_relevant_paths declaration;
        ce_include_ignored := cd_include_ignored declaration;
        ce_required_artifacts := cd_required_artifacts declaration |}.

(** [CommandEvidence::status_against] *)
Definition status_against (e : CommandEvidence) (current : WorkspaceSnapshot) : EvidenceStatus :=
  let verified_files :=
    relevant_files (ce_verified_workspace e) (ce_relevant_paths e) (ce_include_ignored e) in
  let current_files := relevant_files current (ce_relevant_paths e) (ce_include_ignored e) in
  if negb (bool_decide (verified_files = current_files)) then EvidenceStatus.Stale
  else
    let artifacts_present :=
      forallb (λ required,
        existsb (λ artifact,
          bool_decide (ae_path artifact = ar_path required)
          && bool_decide (artifact_hash current (ar_path required)
                          = Some (ae_content_hash artifact))) (ce_artifacts e))
        (ce_required_artifacts e) in
    if (ce_exit_code e =? 0)%Z && artifacts_present
    then EvidenceStatus.Passed else EvidenceStatus.Failed.

(** [CommandEvidence::assess] *)
Definition command_assess (e : CommandEvidence) (declaration : CheckDeclaration)
    (identity : ProofIdentity) (current : WorkspaceSnapshot) : EvidenceAssessment :=
  if negb (bool_decide (ce_check_id e = cd_id declaration))
     || negb (bool_decide (ce_declaration_digest e = declaration_digest declaration))
  then EvidenceAssessment.DeclarationMismatch
  else if negb (bool_decide (ce_proof_identity_digest e = identity_digest identity))
  then EvidenceAssessment.IdentityMismatch
  else match status_against e current with
       | EvidenceStatus.Passed => EvidenceAssessment.Passed
       | EvidenceStatus.Failed =>
           let artifact_changed :=
             existsb (λ required,
               forallb (λ artifact,
                 negb (bool_decide (ae_path artifact = ar_path required))
                 || negb (bool_decide (artifact_hash current (ar_path required)
                                       = Some (ae_content_hash artifact)))) (ce_artifacts e))
               (ce_required_artifacts e) in
           if artifact_changed then EvidenceAssessment.ArtifactMissingOrChanged
           else EvidenceAssessment.Failed
       | EvidenceStatus.Stale => EvidenceAssessment.Stale
       end.

(** [ManualEvidence::new] *)
Definition ManualEvidence_new (declaration : CheckDeclaration) (identity : ProofIdentity)
    (workspace : WorkspaceSnapshot) (author : string) (recorded_at_millis : N) (reason : string)
    (is_override : bool) : result EvidenceError ManualEvidence :=
  _ ← reject_if (trim_is_empty author) EvidenceError.EmptyReviewer;
  _ ← reject_if (trim_is_empty reason) EvidenceError.EmptyManualReason;
  _ ← reject_if (negb (reviewer_is_allowed declaration author is_override))
        EvidenceError.ReviewerNotAllowed;
  Ok {| me_check_id := cd_id declaration;
        me_declaration_digest := declaration_digest declaration;
        me_proof_identity_digest := identity_digest identity;
        me_workspace_digest := workspace_digest workspace;
        me_author := author;
        me_recorded_at_millis := recorded_at_millis;
        me_reason := reason;
        me_is_override := is_override |}.

(** [ManualEvidence::assess] *)
Definition manual_assess (e : ManualEvidence) (declaration : CheckDeclaration)
    (identity : ProofIdentity) (current : WorkspaceSnapshot) : EvidenceAssessment :=
  if negb (bool_decide (me_check_id e = cd_id declaration))
     || negb (bool_decide (me_declaration_digest e = declaration_digest declaration))
  then EvidenceAssessment.DeclarationMismatch
  else if negb (bool_decide (me_proof_identity_digest e = identity_digest identity))
  then EvidenceAssessment.IdentityMismatch
  else if negb (bool_decide (me_workspace_digest e = workspace_digest current))
  then EvidenceAssessment.Stale
  else if negb (reviewer_is_allowed declaration (me_author e) (me_is_override e))
  then EvidenceAssessment.ManualNotAuthorized
  else EvidenceAssessment.Passed.

(** [EvidenceRecord::check_id] *)
Definition record_check_id (r : EvidenceRecord) : string :=
  match r with
  | EvidenceRecord.Command evidence => ce_check_id evidence
  | EvidenceRecord.Manual evidence => me_check_id evidence
  | EvidenceRecord.ProviderClaim claim => pc_check_id claim
  end.

(** [EvidenceRecord::assess] *)
Definition record_assess (r : EvidenceRecord) (declaration : CheckDeclaration)
    (identity : ProofIdentity) (current : WorkspaceSnapshot) : EvidenceAssessment :=
  match r with
  | EvidenceRecord.Command evidence =>
      if negb (is_manual declaration) then command_assess evidence declaration identity current
      else EvidenceAssessment.DeclarationMismatch
  | EvidenceRecord.Manual evidence =>
      if is_manual declaration then manual_assess evidence declaration identity current
      else EvidenceAssessment.DeclarationMismatch
  | EvidenceRecord.ProviderClaim _ => EvidenceAssessment.ProviderClaimOnly
  end.

(** The digest of one artifact inside [EvidenceRecord::digest] *)
Definition artifact_digest (artifact : ArtifactEvidence) : string :=
  digest_new "mission-artifact-evidence-v1"
  |>> digest_string (ae_path artifact)
  |>> digest_string (ae_content_hash artifact)
  |>> digest_string (ae_media_type artifact)
  |>> digest_finish.

(** The [Command] branch of [EvidenceRecord::digest] *)
Definition command_record_digest (e : CommandEvidence) (d : CanonicalDigest) : CanonicalDigest :=
  let artifacts := sort_strings (artifact_digest <$> ce_artifacts e) in
  let relevant_paths := sort_strings (path_rule_digest <$> ce_relevant_paths e) in
  let required_artifacts := sort_strings (ar_path <$> ce_required_artifacts e) in
  d |>> digest_u8 0
    |>> digest_string (ce_check_id e)
    |>> digest_string (ce_declaration_digest e)
    |>> digest_string (ce_proof_identity_digest e)
    |>> command_update_digest (ce_command e)
    |>> digest_string (ce_base_tree_hash e)
    |>> digest_string (ce_result_tree_hash e)
    |>> digest_string (ce_diff_hash e)
    |>> digest_i32 (ce_exit_code e)
    |>> digest_u64 (ce_started_at_millis e)
    |>> digest_u64 (ce_finished_at_millis e)
    |>> digest_u64 (vec_len artifacts)
    |>> digest_each digest_string artifacts
    |>> digest_string (workspace_digest (ce_verified_workspace e))
    |>> digest_u64 (vec_len relevant_paths)
    |>> digest_each digest_string relevant_paths
    |>> digest_bool (ce_include_ignored e)
    |>> digest_u64 (vec_len required_artifacts)
    |>> digest_each digest_string required_artifacts.

(** [EvidenceRecord::digest] *)
Definition record_digest (r : EvidenceRecord) : string :=
  let d := digest_new "mission-evidence-record-v1" in
  digest_finish
    (match r with
     | EvidenceRecord.Command evidence => command_record_digest evidence d
     | EvidenceRecord.Manual e =>
         d |>> digest_u8 1
           |>> digest_string (me_check_id e)
           |>> digest_string (me_declaration_digest e)
           |>> digest_string (me_proof_identity_digest e)
           |>> digest_string (me_workspace_digest e)
           |>> digest_string (me_author e)
           |>> digest_u64 (me_recorded_at_millis e)
           |>> digest_string (me_reason e)
           |>> digest_bool (me_is_override e)
     | EvidenceRecord.ProviderClaim c =>
         d |>> digest_u8 2
           |>> digest_string (pc_check_id c)
           |>> digest_string (pc_claim c)
           |>> digest_string (pc_source c)
           |>> digest_u64 (pc_recorded_at_millis c)
     end).
End digests.

(** ** Path contracts are canonical *)

Definition segments (p : string) : list string := str_split "/" p.

Definition named_segment (c : string) : Prop := c ≠ "" ∧ c ≠ ".".
#[export] Instance named_segment_dec c : Decision (named_segment c).
Proof. unfold named_segment. apply _. Defined.

Lemma components_fold acc segs cs :
  try_fold (λ components component,
      if bool_decide (component = "") || bool_decide (component = ".") then Ok components
      else if bool_decide (component = "..") then Err tt
      else Ok (components ++ [component])) acc segs = Ok cs ↔
  ".." ∉ segs ∧ cs = acc ++ filter named_segment segs.
Proof.
  revert acc. induction segs as [|s segs IH]; intros acc.
  { cbn. rewrite app_nil_r. split; [intros [= ->]; split; [apply not_elem_of_nil|done]|].
    by intros [_ ->]. }
  cbn [try_fold]. rewrite not_elem_of_cons.
  destruct (decide (named_segment s)) as [Hs|Hs].
  - rewrite filter_cons_True by done. destruct Hs as [Hne Hdot].
    rewrite !bool_decide_eq_false_2 by done. cbn [orb].
    case_bool_decide as Hup; cbn; [split; [done|]; by intros [[] _]|].
    rewrite IH, <- app_assoc. naive_solver.
  - rewrite filter_cons_False by done. unfold named_segment in Hs.
    assert (Hskip : bool_decide (s = "") || bool_decide (s = ".") = true).
    { destruct (decide (s = "")) as [->|?]; [done|].
      destruct (decide (s = ".")) as [->|?]; [done|]. naive_solver. }
    rewrite Hskip. cbn. rewrite IH.
    assert (s ≠ "..") by (intros ->; discriminate Hskip). naive_solver.
Qed.

Lemma normalize_ok value allow_root p :
  normalize_contract_path value allow_root = Ok p ↔
  (value ≠ "" ∧ (str_len value ≤ 4096)%N
   ∧ "000"%char ∉ str_bytes value ∧ "\"%char ∉ str_bytes value ∧ ":"%char ∉ str_bytes value
   ∧ path_is_absolute value = false ∧ ".." ∉ segments value)
  ∧ match filter named_segment (segments value) with
    | [] => allow_root = true ∧ p = "."
    | cs => p = str_join "/" cs
    end.
Proof.
  assert (Hfalse : ∀ c s, str_contains c s = false ↔ c ∉ str_bytes s).
  { intros c s. by rewrite <- elem_of_str_contains, not_true_iff_false. }
  unfold normalize_contract_path, path_is_absolute, str_is_empty, segments. split.
  - intros Hok. apply bind_ok in Hok as ([] & Hval & Hok). apply bind_ok in Hok as (cs & Hcs & Hp).
    apply components_fold in Hcs as [Hup ->]. cbn [app] in Hp.
    apply reject_if_ok in Hval. rewrite !orb_false_iff, bool_decide_eq_false, N.ltb_ge, !Hfalse in Hval.
    split; [tauto|]. destruct (filter _ _); [|by inv_ok]. destruct allow_root; by inv_ok.
  - intros [Hval Hp]. rewrite (proj2 (reject_if_ok _ tt tt)).
    2:{ rewrite !orb_false_iff, bool_decide_eq_false, N.ltb_ge, !Hfalse. tauto. }
    cbn [mbind result_bind].
    rewrite (proj2 (components_fold [] _ (filter named_segment (str_split "/" value)))) by tauto.
    cbn [mbind result_bind]. destruct (filter _ _); [by destruct Hp as [-> ->]|by rewrite Hp].
Qed.

Lemma normalized_segments value (cs := filter named_segment (segments value)) :
  cs ≠ [] → segments (str_join "/" cs) = cs.
Proof.
  intros Hne. apply str_split_join; [done|]. apply Forall_forall. intros w Hw.
  apply list_elem_of_filter in Hw as [_ Hw].
  pose proof (str_split_no_sep "/" value) as Hsep. rewrite Forall_forall in Hsep. by apply Hsep.
Qed.

Lemma normalized_str_len value (cs := filter named_segment (segments value)) :
  cs ≠ [] → (str_len (str_join "/" cs) ≤ str_len value)%N.
Proof.
  intros Hne. pose proof (length_str_join "/" cs Hne) as Hlen.
  pose proof (length_str_join "/" (segments value) (str_split_ne _ _)) as Hval.
  unfold segments in Hval at 1. rewrite str_join_split in Hval.
  pose proof (joined_len_filter named_segment (segments value)). unfold str_len. subst cs. lia.
Qed.

Lemma normalized_bytes value c (cs := filter named_segment (segments value)) :
  c ≠ "/"%char → c ∉ str_bytes value → c ∉ str_bytes (str_join "/" cs).
Proof.
  intros Hc Hval [[-> _]|(w & Hw & Hcw)]%elem_of_str_join; [done|].
  apply list_elem_of_filter in Hw as [_ Hw]. by apply Hval, (elem_of_segment "/" _ _ w).
Qed.

Lemma absolute_segments p : path_is_absolute p = true → head (segments p) = Some "".
Proof.
  destruct p as [|c p]; [done|]. unfold path_is_absolute, starts_with. cbn [segments str_split].
  unfold segments. cbn [str_split]. intros ->. done.
Qed.

(** Path contracts have one spelling.  A path the contract accepts is
    rewritten to a relative path without ["."] or [".."] segments that names
    the same segments; the root is spelled ["."] and accepted only where it
    is allowed; normalising again changes nothing. *)
Theorem normalize_canonical value allow_root p :
  normalize_contract_path value allow_root = Ok p →
  path_is_absolute p = false ∧ ".." ∉ segments p
  ∧ (if decide (p = ".") then allow_root = true ∧ filter named_segment (segments value) = []
     else segments p = filter named_segment (segments value))
  ∧ normalize_contract_path p allow_root = Ok p.
Proof.
  intros [(Hne & Hlen & H0 & Hbs & Hcolon & Habs & Hup) Hp]%normalize_ok.
  destruct (filter named_segment (segments value)) as [|c cs] eqn:Hcs.
  { destruct Hp as [-> ->]. cbn. split_and!; try done. vm_compute. intros H.
    by apply list_elem_of_singleton in H. }
  assert (Hcsne : filter named_segment (segments value) ≠ []) by by rewrite Hcs.
  rewrite <- Hcs in Hp. subst p. rewrite <- Hcs.
  pose proof (normalized_segments value Hcsne) as Hseg.
  set (q := str_join "/" (filter named_segment (segments value))) in *.
  assert (Hnamed : Forall named_segment (segments q)).
  { rewrite Hseg. apply Forall_forall. intros w Hw. by apply list_elem_of_filter in Hw as [? _]. }
  assert (Hqne : q ≠ "").
  { intros Hq. rewrite Hq in Hnamed. apply Forall_cons in Hnamed as [[] _]. done. }
  assert (Hqdot : q ≠ ".").
  { intros Hq. rewrite Hq in Hnamed. apply Forall_cons in Hnamed as [[] _]. done. }
  assert (Hqabs : path_is_absolute q = false).
  { destruct (path_is_absolute q) eqn:Hq; [|done]. apply absolute_segments in Hq.
    destruct (segments q) as [|w ws]; [done|]. cbn in Hq. simplify_eq.
    apply Forall_cons in Hnamed as [[] _]. done. }
  assert (Hqup : ".." ∉ segments q).
  { rewrite Hseg. by intros [_ ?]%list_elem_of_filter. }
  split_and!; [done|done| |].
  - by rewrite decide_False.
  - apply normalize_ok. split.
    + split_and!; [done| |by apply normalized_bytes..|done|done].
      pose proof (normalized_str_len value Hcsne). subst q. lia.
    + rewrite Hseg, list_filter_filter_l by auto. by destruct (filter _ _).
Qed.

Lemma canonical_trim p :
  Forall named_segment (segments p) → trim_end_matches "/" p = p.
Proof.
  intros Hp. apply trim_end_matches_id. intros t ->. unfold segments in Hp.
  rewrite str_split_app_sep, Forall_app in Hp. destruct Hp as [_ Hp].
  apply Forall_cons in Hp as [[] _]. done.
Qed.

(** Prefix rules respect segment boundaries.  For a canonical prefix, the
    rule matches exactly the paths that start with its segments: ["src"]
    covers ["src"] and ["src/main.rs"] but not ["srcfoo"]. *)
Theorem prefix_rule_segments p path :
  Forall named_segment (segments p) →
  path_rule_matches (PathRule.Prefix p) path = true ↔ segments p `prefix_of` segments path.
Proof.
  intros Hp. unfold path_rule_matches. rewrite canonical_trim by done.
  assert (Hne : p ≠ "").
  { intros ->. apply Forall_cons in Hp as [[] _]. done. }
  unfold str_is_empty. rewrite bool_decide_eq_false_2 by done. cbn [negb andb].
  rewrite orb_true_iff, bool_decide_eq_true. split.
  - intros [->|Hpath]; [done|]. destruct (strip_prefix p path) as [suffix|] eqn:Hs; [|done].
    apply strip_prefix_spec in Hs as ->. apply starts_with_spec in Hpath as [t ->].
    unfold segments. rewrite str_split_app_sep. by apply prefix_app_r.
  - intros [rest Hrest]. unfold segments in *.
    rewrite <- (str_join_split "/" path), Hrest. destruct rest as [|r rest]; [left|right].
    + by rewrite app_nil_r, str_join_split.
    + rewrite str_join_app by (done || apply str_split_ne). rewrite str_join_split.
      by rewrite (proj2 (strip_prefix_spec p _ _) eq_refl).
Qed.

(** ** Freshness *)

(** Every snapshot the verifier builds files fingerprints under their own
    path ([WorkspaceSnapshot::new]). *)
Definition keyed (w : WorkspaceSnapshot) : Prop :=
  map_Forall (λ path file, ff_path file = path) (ws_files w).

Definition relevant (rules : list PathRule) (ignored : bool) (file : FileFingerprint) : Prop :=
  (ignored = true ∨ ff_disposition file ≠ FileDisposition.Ignored)
  ∧ (rules = [] ∨ existsb (λ rule, path_rule_matches rule (ff_path file)) rules = true).
#[export] Instance relevant_dec rules ignored file : Decision (relevant rules ignored file).
Proof. unfold relevant. apply _. Defined.

Lemma collect_map_lookup {K A} `{Countable K} (l : list (K * A)) k x :
  NoDup l.*1 → collect_map l !! k = Some x ↔ (k, x) ∈ l.
Proof.
  intros Hnd. unfold collect_map.
  assert (Hgen : ∀ (m : gmap K A), (∀ k, k ∈ l.*1 → m !! k = None) →
    foldl (λ m x, <[x.1 := x.2]> m) m l !! k = Some x ↔ (k, x) ∈ l ∨ m !! k = Some x).
  { induction l as [|[k' x'] l IH]; intros m Hm; cbn.
    - split; [by right|]. intros [Hin|?]; [by apply not_elem_of_nil in Hin|done].
    - apply NoDup_cons in Hnd as [Hk' Hnd]. rewrite IH; [|done|].
      + rewrite elem_of_cons, lookup_insert. case_decide as Hk; subst.
        * assert (Hn : m !! k = None) by (apply Hm; left). rewrite Hn. naive_solver.
        * naive_solver.
      + intros k0 Hk0. rewrite lookup_insert_ne by (intros ->; done). apply Hm. by right. }
  rewrite Hgen by (intros; apply lookup_empty). rewrite lookup_empty. naive_solver.
Qed.

Lemma relevant_files_lookup w rules ignored path v :
  keyed w →
  relevant_files w rules ignored !! path = Some v ↔
  ∃ file, ws_files w !! path = Some file ∧ relevant rules ignored file
          ∧ v = (ff_content_hash file, ff_disposition file).
Proof.
  intros Hkey. unfold relevant_files. rewrite list_filter_filter.
  set (P := λ file, _ ∧ _). rewrite collect_map_lookup.
  - rewrite list_elem_of_fmap. setoid_rewrite list_elem_of_filter.
    setoid_rewrite elem_of_btree_values. unfold P, relevant. split.
    + intros (file & [= -> ->] & [Hrule Hign] & k & Hk).
      pose proof (Hkey _ _ Hk) as <-. exists file. naive_solver.
    + intros (file & Hfile & [Hign Hrule] & ->). exists file.
      pose proof (Hkey _ _ Hfile) as Hp. cbn in Hp. rewrite Hp. naive_solver.
  - rewrite <- list_fmap_compose.
    change (NoDup (ff_path <$> filter P (str_values (ws_files w)))).
    assert (Hkeys : ff_path <$> str_values (ws_files w) = str_keys (ws_files w)).
    { unfold btree_values, btree_keys. rewrite <- list_fmap_compose.
      apply list_fmap_ext. intros i [k f] Hkf. apply (Hkey k f).
      apply (elem_of_btree_entries String.le). by eapply list_elem_of_lookup_2. }
    eapply sublist_NoDup; [|apply fmap_sublist, sublist_filter]. rewrite Hkeys.
    apply NoDup_btree_keys.
Qed.

(** What decides freshness: the fingerprints the check watches. *)
Definition same_relevant (rules : list PathRule) (ignored : bool) (w w' : WorkspaceSnapshot) : Prop :=
  ∀ path hash disposition,
    (∃ file, ws_files w !! path = Some file ∧ relevant rules ignored file
             ∧ ff_content_hash file = hash ∧ ff_disposition file = disposition)
    ↔ (∃ file, ws_files w' !! path = Some file ∧ relevant rules ignored file
               ∧ ff_content_hash file = hash ∧ ff_disposition file = disposition).

Lemma relevant_files_eq w w' rules ignored :
  keyed w → keyed w' →
  relevant_files w rules ignored = relevant_files w' rules ignored
  ↔ same_relevant rules ignored w w'.
Proof.
  intros Hw Hw'. split.
  - intros Heq path hash disposition.
    assert (Hlk : ∀ u, keyed u →
      (∃ file, ws_files u !! path = Some file ∧ relevant rules ignored file
               ∧ ff_content_hash file = hash ∧ ff_disposition file = disposition)
      ↔ relevant_files u rules ignored !! path = Some (hash, disposition)).
    { intros u Hu. rewrite relevant_files_lookup by done. split.
      - intros (file & ? & ? & <- & <-). eauto.
      - intros (file & ? & ? & [= -> ->]). eauto. }
    by rewrite !Hlk, Heq by done.
  - intros Hsame. apply map_eq. intros path. apply option_eq. intros [hash disposition].
    rewrite !relevant_files_lookup by done. specialize (Hsame path hash disposition).
    assert (Hpair : ∀ u, (∃ file, ws_files u !! path = Some file ∧ relevant rules ignored file
               ∧ ff_content_hash file = hash ∧ ff_disposition file = disposition)
      ↔ (∃ file, ws_files u !! path = Some file ∧ relevant rules ignored file
               ∧ (hash, disposition) = (ff_content_hash file, ff_disposition file))).
    { intros u. split; intros (file & ? & ? & Hp); exists file; split_and!; try done.
      - by destruct Hp as [-> ->]. - congruence. - congruence. }
    by rewrite <- !Hpair.
Qed.

(** An artifact the check requires, present with the hash that was recorded. *)
Definition artifact_present (e : CommandEvidence) (current : WorkspaceSnapshot)
    (required : ArtifactRequirement) : Prop :=
  ∃ artifact, artifact ∈ ce_artifacts e ∧ ae_path artifact = ar_path required
              ∧ artifact_hash current (ar_path required) = Some (ae_content_hash artifact).

Lemma artifacts_present_spec e current required :
  existsb (λ artifact,
    bool_decide (ae_path artifact = ar_path required)
    && bool_decide (artifact_hash current (ar_path required) = Some (ae_content_hash artifact)))
    (ce_artifacts e) = true ↔ artifact_present e current required.
Proof.
  rewrite existsb_exists. unfold artifact_present. setoid_rewrite andb_true_iff.
  setoid_rewrite bool_decide_eq_true. setoid_rewrite <- list_elem_of_In. naive_solver.
Qed.

Lemma forallb_Forall_iff {A} (f : A → bool) (P : A → Prop) (l : list A) :
  (∀ x, f x = true ↔ P x) → forallb f l = true ↔ Forall P l.
Proof.
  intros Hf. rewrite forallb_forall, Forall_forall. setoid_rewrite <- list_elem_of_In.
  setoid_rewrite Hf. done.
Qed.

(** What the status of a command's evidence means.  It is stale exactly
    when a watched file changed since the command ran; it passes exactly when
    it is not stale, the command exited with zero and every required artifact
    is there unchanged. *)
Theorem status_against_spec e current :
  keyed (ce_verified_workspace e) → keyed current →
  let fresh := same_relevant (ce_relevant_paths e) (ce_include_ignored e)
                 (ce_verified_workspace e) current in
  (status_against e current = EvidenceStatus.Stale ↔ ¬ fresh)
  ∧ (status_against e current = EvidenceStatus.Passed ↔
     fresh ∧ ce_exit_code e = 0%Z
     ∧ Forall (artifact_present e current) (ce_required_artifacts e)).
Proof.
  intros Hv Hc fresh. unfold status_against.
  assert (Hfresh : bool_decide
    (relevant_files (ce_verified_workspace e) (ce_relevant_paths e) (ce_include_ignored e)
     = relevant_files current (ce_relevant_paths e) (ce_include_ignored e)) = true ↔ fresh).
  { rewrite bool_decide_eq_true. by apply relevant_files_eq. }
  destruct (bool_decide _); cbn [negb].
  - assert fresh by by apply Hfresh.
    rewrite <- (forallb_Forall_iff _ _ _ (artifacts_present_spec e current)).
    destruct (Z.eqb_spec (ce_exit_code e) 0), (forallb _ _); cbn; naive_solver.
  - assert (¬ fresh) by (by intros ?%Hfresh). naive_solver.
Qed.

(** What may close a check.  A record is assessed as passed only when it
    is a command that ran for this declaration and this proof identity and
    still passes on the current workspace, or a decision about exactly the
    current workspace by a reviewer the declaration names.  A provider's claim
    is never worth more than a claim. *)
Theorem assess_passed_sound {HSha : Sha256} r declaration identity current :
  record_assess r declaration identity current = EvidenceAssessment.Passed →
  record_check_id r = cd_id declaration
  ∧ match r with
    | EvidenceRecord.Command e =>
        is_manual declaration = false
        ∧ ce_declaration_digest e = declaration_digest declaration
        ∧ ce_proof_identity_digest e = identity_digest identity
        ∧ status_against e current = EvidenceStatus.Passed
    | EvidenceRecord.Manual e =>
        is_manual declaration = true
        ∧ me_declaration_digest e = declaration_digest declaration
        ∧ me_proof_identity_digest e = identity_digest identity
        ∧ me_workspace_digest e = workspace_digest current
        ∧ me_author e ∈ cd_allowed_reviewers declaration
        ∧ (me_is_override e = true → cd_allow_manual_override declaration = true)
    | EvidenceRecord.ProviderClaim _ => False
    end.
Proof.
  destruct r as [e|e|c]; cbn [record_assess record_check_id]; [| |done].
  - destruct (is_manual declaration) eqn:Hman; cbn [negb]; [done|]. unfold command_assess.
    do 2 (case_match; [done|]). inv_ok.
    destruct (status_against e current); [done| |done]. by case_match.
  - destruct (is_manual declaration) eqn:Hman; [|done]. unfold manual_assess.
    do 4 (case_match; [done|]). inv_ok. intros _. unfold reviewer_is_allowed in *. inv_ok.
    split_and!; try done. intros Hov. rewrite Hov in *. by cbn in *.
Qed.

Lemma find_first_Some {A} (p : A → bool) l x :
  find_first p l = Some x → x ∈ l ∧ p x = true.
Proof. unfold find_first. intros [Hin%list_elem_of_In Hp]%List.find_some. done. Qed.

Lemma CommandEvidence_new_ok {HSha : Sha256} declaration identity before current exit_code t0 t1
    artifacts e :
  CommandEvidence_new declaration identity before current exit_code t0 t1 artifacts = Ok e →
  (t0 ≤ t1)%N ∧ is_manual declaration = false
  ∧ ce_check_id e = cd_id declaration
  ∧ ce_declaration_digest e = declaration_digest declaration
  ∧ ce_proof_identity_digest e = identity_digest identity
  ∧ ce_exit_code e = exit_code ∧ ce_verified_workspace e = current
  ∧ Forall (artifact_present e current) (ce_required_artifacts e).
Proof.
  intros Hnew. unfold CommandEvidence_new in Hnew. cbv zeta in Hnew.
  apply bind_ok in Hnew as ([] & _ & Hnew).
  apply bind_ok in Hnew as (command & Hcommand%ok_or_ok & Hnew).
  apply bind_ok in Hnew as ([] & Htime & Hnew).
  apply bind_ok in Hnew as ([] & Hart%try_iter_ok & Hnew).
  inv_ok. unfold is_manual. rewrite Hcommand. do 7 (split; [done|]).
  cbn [ce_required_artifacts]. eapply Forall_impl; [exact Hart|]. intros required Hr. cbn beta in Hr.
  apply bind_ok in Hr as (recorded & Hfind & Hhash). inv_ok.
  apply find_first_Some in Hfind as [Hin Hpath]. inv_ok.
  exists recorded. cbn [ce_artifacts]. split_and!; [exact Hin|exact Hpath|exact Hhash].
Qed.

(** Recorded evidence counts until something changes.  Evidence the
    constructors accept is assessed as passed against its own declaration,
    identity and workspace (a command if it exited with zero); against another
    workspace a reviewer's decision is stale, unless the digests of the two
    workspaces agree. *)
Theorem new_evidence_assesses {HSha : Sha256} declaration identity before current :
  (∀ exit_code t0 t1 artifacts e,
     CommandEvidence_new declaration identity before current exit_code t0 t1 artifacts = Ok e →
     record_assess (EvidenceRecord.Command e) declaration identity current
     = (if bool_decide (exit_code = 0%Z)
        then EvidenceAssessment.Passed else EvidenceAssessment.Failed)
     ∧ (t0 ≤ t1)%N)
  ∧ (∀ author at_ reason is_override e other,
     ManualEvidence_new declaration identity current author at_ reason is_override = Ok e →
     record_assess (EvidenceRecord.Manual e) declaration identity other
     = (if bool_decide (workspace_digest current = workspace_digest other)
        then EvidenceAssessment.Passed else EvidenceAssessment.Stale)).
Proof.
  split.
  - intros exit_code t0 t1 artifacts e Hnew.
    apply CommandEvidence_new_ok in Hnew as (Ht & Hman & Hid & Hdecl & Hident & Hexit & Hws & Hart).
    split; [|done]. cbn [record_assess]. rewrite Hman. cbn [negb].
    unfold command_assess, status_against.
    rewrite Hid, Hdecl, Hident, Hws, !bool_decide_eq_true_2 by done. cbn [negb orb].
    rewrite (proj2 (forallb_Forall_iff _ _ _ (artifacts_present_spec e current)) Hart), andb_true_r.
    rewrite Hexit. destruct (Z.eqb_spec exit_code 0) as [->|Hne]; [done|].
    rewrite (bool_decide_eq_false_2 (exit_code = 0%Z)) by done.
    match goal with |- (if ?b then _ else _) = _ => destruct b eqn:Hchanged end; [|done].
    apply existsb_exists in Hchanged as (required & Hreq%list_elem_of_In & Hall).
    rewrite Forall_forall in Hart. destruct (Hart _ Hreq) as (a & Ha & Hpath & Hhash).
    rewrite forallb_forall in Hall. specialize (Hall a (proj1 (list_elem_of_In _ _) Ha)).
    by rewrite !bool_decide_eq_true_2 in Hall.
  - intros author at_ reason is_override e other Hnew. unfold ManualEvidence_new in Hnew.
    apply bind_ok in Hnew as ([] & _ & Hnew). apply bind_ok in Hnew as ([] & _ & Hnew).
    apply bind_ok in Hnew as ([] & Hallowed & Hnew). inv_ok. cbn [record_assess].
    assert (Hman : is_manual declaration = true)
      by (unfold reviewer_is_allowed in Hallowed; by inv_ok).
    rewrite Hman. unfold manual_assess. cbn.
    rewrite !bool_decide_eq_true_2 by done. cbn [negb orb]. rewrite Hallowed. cbn [negb].
    by case_bool_decide.
Qed.

(** ** A workspace digest pins the workspace *)

Lemma btree_entries_inj {K A} `{Countable K} (R : relation K) `{!RelDecision R} (m m' : gmap K A) :
  btree_entries R m = btree_entries R m' → m = m'.
Proof.
  intros Heq. apply map_eq. intros k. apply option_eq. intros x.
  by rewrite <- !(elem_of_btree_entries R), Heq.
Qed.

Definition file_fields (pf : string * FileFingerprint) : list bytes :=
  [str_bytes pf.1; str_bytes (ff_content_hash pf.2); [ascii_of_N (disposition_tag (ff_disposition pf.2))]].
Definition artifact_fields (ph : string * string) : list bytes := [str_bytes ph.1; str_bytes ph.2].

(** The fields [WorkspaceSnapshot::digest] absorbs, in order *)
Definition workspace_fields (w : WorkspaceSnapshot) : list bytes :=
  [str_bytes (ws_tree_hash w); str_bytes (ws_diff_hash w); be_bytes 8 (map_len (ws_files w))]
  ++ (str_entries (ws_files w) ≫= file_fields)
  ++ [be_bytes 8 (map_len (ws_artifacts w))]
  ++ (str_entries (ws_artifacts w) ≫= artifact_fields).

(** Memory bounds of the platform: strings and maps of fewer than 2^64 bytes
    and entries. *)
Definition workspace_fits (w : WorkspaceSnapshot) : Prop :=
  Forall fits_u64 (workspace_fields w)
  ∧ (map_len (ws_files w) < 256 ^ 8)%N ∧ (map_len (ws_artifacts w) < 256 ^ 8)%N.

Lemma digest_each_fields {A} (g : A → list bytes) (f : A → CanonicalDigest → CanonicalDigest) xs d :
  (∀ x d, f x d = digest_fields d (g x)) →
  digest_each f xs d = digest_fields d (xs ≫= g).
Proof.
  intros Hf. unfold digest_each. revert d. induction xs as [|x xs IH]; intros d; [done|].
  cbn [foldl mbind list_bind]. rewrite IH, Hf. unfold digest_fields, digest_each.
  by rewrite foldl_app.
Qed.

Lemma digest_fields_app d fs gs :
  digest_fields d (fs ++ gs) = digest_fields (digest_fields d fs) gs.
Proof. unfold digest_fields, digest_each. apply foldl_app. Qed.

Lemma workspace_digest_fields {HSha : Sha256} w :
  workspace_digest w
  = digest_finish (digest_fields (digest_new "mission-workspace-snapshot-v1") (workspace_fields w)).
Proof.
  unfold workspace_digest, workspace_fields. rewrite !digest_fields_app. f_equal.
  rewrite (digest_each_fields artifact_fields) by done. f_equal.
  cbn [digest_fields digest_each foldl]. unfold digest_u64. f_equal.
  by rewrite (digest_each_fields file_fields) by done.
Qed.

(** Records of a fixed number of fields are read back one by one. *)
Lemma bind_fields_inj {A} (n : nat) (g : A → list bytes) xs ys r r' :
  (∀ x, length (g x) = n) → (∀ x y, x ∈ xs → y ∈ ys → g x = g y → x = y) →
  length xs = length ys → (xs ≫= g) ++ r = (ys ≫= g) ++ r' → xs = ys ∧ r = r'.
Proof.
  intros Hlen. revert ys. induction xs as [|x xs IH]; intros [|y ys] Hinj Hxy Heq; try done.
  cbn [mbind list_bind] in Heq. rewrite <- !app_assoc in Heq.
  apply app_inj_1 in Heq as [Hg Heq]; [|by rewrite !Hlen].
  apply Hinj in Hg as ->; [|left..].
  apply IH in Heq as [-> ->]; [done| |by inversion Hxy].
  intros a b Ha Hb. apply Hinj; by right.
Qed.

Lemma cons_inv {A} (x y : A) xs ys : x :: xs = y :: ys → x = y ∧ xs = ys.
Proof. by intros [= -> ->]. Qed.

Lemma map_len_entries {A} (m m' : gmap string A) :
  map_len m = map_len m' → length (str_entries m) = length (str_entries m').
Proof. unfold map_len. rewrite !length_btree_entries. lia. Qed.

(** What [workspace_digest] hashes *)
Definition workspace_text (w : WorkspaceSnapshot) : bytes :=
  hasher_input (digest_fields (digest_new "mission-workspace-snapshot-v1") (workspace_fields w)).

Lemma workspace_digest_inj {HSha : Sha256} w w' :
  keyed w → keyed w' → workspace_fits w → workspace_fits w' →
  workspace_digest w = workspace_digest w' → w = w' ∨ clashes (workspace_text w) (workspace_text w').
Proof.
  intros Hkey Hkey' (Hfit & Hn & Hm) (Hfit' & Hn' & Hm').
  rewrite !workspace_digest_fields.
  intros [Heq|?]%digest_finish_fields_inj; [left|by right|done..].
  unfold workspace_fields in Heq. cbn [app] in Heq.
  apply cons_inv in Heq as [Htree%str_bytes_inj Heq].
  apply cons_inv in Heq as [Hdiff%str_bytes_inj Heq]. apply cons_inv in Heq as [Hsize Heq].
  apply be_bytes_inj in Hsize; [|done..].
  apply (bind_fields_inj 3) in Heq as [Hfiles Heq]; [|done| |by apply map_len_entries].
  2:{ intros [p f] [p' f'] Hin Hin'. unfold file_fields. cbn [fst snd].
      intros [= Hp%str_bytes_inj Hh%str_bytes_inj Hd]. subst p'.
      apply elem_of_btree_entries, Hkey in Hin. apply elem_of_btree_entries, Hkey' in Hin'.
      destruct f as [fp fh fd], f' as [fp' fh' fd']. cbn in *. subst.
      by destruct fd, fd'. }
  apply cons_inv in Heq as [Hsize' Heq]. apply be_bytes_inj in Hsize'; [|done..].
  rewrite <- (app_nil_r (_ ≫= artifact_fields)), <- (app_nil_r (str_entries (ws_artifacts w') ≫= _))
    in Heq.
  apply (bind_fields_inj 2) in Heq as [Harts _]; [|done| |by apply map_len_entries].
  2:{ intros [p h] [p' h'] _ _ [= ->%str_bytes_inj ->%str_bytes_inj]. done. }
  destruct w, w'. cbn in *. apply btree_entries_inj in Hfiles, Harts. by subst.
Qed.

(** A workspace digest pins the workspace.  Two snapshots with one digest
    have the same tree, diff, files (content and disposition of each) and
    artifacts, or their texts have one SHA-256. *)
Theorem workspace_digest_injective {HSha : Sha256} w w' :
  keyed w → keyed w' → workspace_fits w → workspace_fits w' →
  workspace_digest w = workspace_digest w' → w = w' ∨ clashes (workspace_text w) (workspace_text w').
Proof. apply workspace_digest_inj. Qed.

(** ** Witnesses *)

Module EvidenceDemo.
#[local] Existing Instance demo_sha256.

Definition tests : CheckDeclaration :=
  declare_command "tests" (CommandSpec_new "cargo" ["test"] ".") [path_rule_prefix "src/"]
    [ArtifactRequirement_new "out/./report.xml"].
Definition file (path hash : string) := mkFileFingerprint path hash FileDisposition.Tracked.
Definition before : WorkspaceSnapshot :=
  WorkspaceSnapshot_new "tree-0" "diff-0" [file "src/main.rs" "aa"; file "README.md" "bb"].
Definition after : WorkspaceSnapshot :=
  with_artifacts (WorkspaceSnapshot_new "tree-1" "diff-1"
                    [file "src/main.rs" "aa"; file "README.md" "cc"]) [("out/report.xml", "dd")].
Definition identity : ProofIdentity := mkProofIdentity "m" "r" "repo" "tree" "base".
Definition report := mkArtifactEvidence "out/report.xml" "dd" "text/xml".

Definition review : CheckDeclaration := reviewed_by (declare_manual "review") ["ana"].

Definition passed : CommandEvidence :=
  match CommandEvidence_new tests identity before after 0 10 20 [report] with
  | Ok e => e
  | Err _ => mkCommandEvidence "" "" "" (mkCommandSpec "" [] "") "" "" "" 1 0 0 [] before [] false []
  end.
End EvidenceDemo.

Lemma keyed_collect files t d : keyed (WorkspaceSnapshot_new t d files).
Proof.
  unfold keyed, WorkspaceSnapshot_new, collect_map. cbn [ws_files].
  assert (Hgen : ∀ (m : gmap string FileFingerprint), map_Forall (λ p f, ff_path f = p) m →
    map_Forall (λ p f, ff_path f = p)
      (foldl (λ m x, <[x.1 := x.2]> m) m ((λ file, (ff_path file, file)) <$> files))).
  { induction files as [|f files IH]; intros m Hm; [done|]. cbn. apply IH.
    by apply map_Forall_insert_2. }
  apply Hgen, map_Forall_empty.
Qed.

Lemma normalize_canonical_witness :
  normalize_contract_path "src/./main.rs/" false = Ok "src/main.rs"
  ∧ path_is_absolute "src/main.rs" = false.
Proof.
  split; [vm_compute; reflexivity|].
  apply (normalize_canonical "src/./main.rs/" false "src/main.rs"). vm_compute. reflexivity.
Defined.

Lemma prefix_rule_segments_witness :
  segments "src" `prefix_of` segments "src/main.rs" ∧ ¬ segments "src" `prefix_of` segments "srcfoo".
Proof.
  assert (Hnamed : Forall named_segment (segments "src")) by (repeat constructor; done).
  split.
  - apply (prefix_rule_segments "src" "src/main.rs" Hnamed). vm_compute. reflexivity.
  - intros Hpre. apply (prefix_rule_segments "src" "srcfoo" Hnamed) in Hpre.
    vm_compute in Hpre. discriminate Hpre.
Defined.

Lemma status_against_spec_witness :
  status_against EvidenceDemo.passed EvidenceDemo.after = EvidenceStatus.Passed
  ∧ ce_exit_code EvidenceDemo.passed = 0%Z.
Proof.
  assert (Hp : status_against EvidenceDemo.passed EvidenceDemo.after = EvidenceStatus.Passed)
    by (vm_compute; reflexivity).
  split; [exact Hp|].
  apply (status_against_spec EvidenceDemo.passed EvidenceDemo.after).
  - exact (keyed_collect _ "" "").
  - exact (keyed_collect _ "" "").
  - exact Hp.
Defined.

Lemma assess_passed_sound_witness :
  @ce_proof_identity_digest EvidenceDemo.passed
  = @identity_digest demo_sha256 EvidenceDemo.identity.
Proof.
  apply (@assess_passed_sound demo_sha256 (EvidenceRecord.Command EvidenceDemo.passed)
           EvidenceDemo.tests EvidenceDemo.identity EvidenceDemo.after).
  vm_compute. reflexivity.
Defined.

Lemma new_evidence_assesses_witness :
  @record_assess demo_sha256 (EvidenceRecord.Command EvidenceDemo.passed) EvidenceDemo.tests
    EvidenceDemo.identity EvidenceDemo.after = EvidenceAssessment.Passed.
Proof.
  apply (proj1 (@new_evidence_assesses demo_sha256 EvidenceDemo.tests EvidenceDemo.identity
                  EvidenceDemo.before EvidenceDemo.after) 0%Z 10%N 20%N [EvidenceDemo.report]).
  vm_compute. reflexivity.
Defined.

Lemma fits_u64_dec_true fs :
  forallb (λ f, N.of_nat (length f) <? 256 ^ 8)%N fs = true → Forall fits_u64 fs.
Proof. apply forallb_Forall_iff. intros f. apply N.ltb_lt. Qed.

Lemma workspace_digest_injective_witness :
  EvidenceDemo.after = EvidenceDemo.after
  ∨ @clashes demo_sha256 (workspace_text EvidenceDemo.after) (workspace_text EvidenceDemo.after).
Proof.
  assert (Hfits : workspace_fits EvidenceDemo.after).
  { split; [apply fits_u64_dec_true; vm_compute; reflexivity|]. split; vm_compute; reflexivity. }
  apply (@workspace_digest_injective demo_sha256 EvidenceDemo.after EvidenceDemo.after).
  - exact (keyed_collect _ "" "").
  - exact (keyed_collect _ "" "").
  - exact Hfits.
  - exact Hfits.
  - reflexivity.
Defined.
