(* ===== verification/EvidencePack.v ===== *)
(** * Evidence packs ([src/mission/evidence_pack.rs])

    What a run of the checks left behind, the records, their summaries and
    the logs, is written to a file named after the SHA-256 of its contents.
    The directory is a map from file names to contents; the crates [base64]
    and [serde_json] are the classes [Base64] and [PackJson]. *)

From S2P Require Export Evidence.

Class Base64 := {
  base64_encode : bytes → string;
  base64_decode : string → option bytes;
}.
Class Base64Spec `{Base64} : Prop :=
  base64_roundtrip b : base64_decode (base64_encode b) = Some b.

(** ** Data *)

Definition PACK_VERSION : N := 1.
Definition MAX_PACK_BYTES : N := 64 * 1024 * 1024.

Module CheckExecutionLog.
Inductive CheckExecutionLog :=
| Completed (exit_code : option Z) (started_at_millis finished_at_millis : N)
    (stdout_base64 stderr_base64 : string) (evidence_error : option string)
| Rejected (error : string).
#[export] Instance eq_dec : EqDecision CheckExecutionLog.
Proof. solve_decision. Defined.
End CheckExecutionLog.
Export (hints) CheckExecutionLog.
Abbreviation CheckExecutionLog := CheckExecutionLog.CheckExecutionLog.

Record EvidencePack := mkEvidencePack {
  ep_version : N;
  ep_mission_id : string;
  ep_run_id : string;
  ep_identity : ProofIdentity;
  ep_current_workspace : WorkspaceSnapshot;
  ep_records : gmap string EvidenceRecord;
  ep_summaries : gmap string EvidenceStatus;
  ep_execution_logs : gmap string CheckExecutionLog;
  ep_created_at_millis : N;
}.
#[export] Instance EvidencePack_eq_dec : EqDecision EvidencePack.
Proof. solve_decision. Defined.

Class PackJson := {
  pack_to_vec : EvidencePack → option bytes;
  pack_from_slice : bytes → option EvidencePack;
}.
Class PackJsonSpec `{PackJson} : Prop :=
  pack_json_roundtrip p b : pack_to_vec p = Some b → pack_from_slice b = Some p.

Module EvidencePackError.
Inductive EvidencePackError :=
| InvalidPack
| InvalidDigest
| DigestMismatch
| DigestCollision
| PackTooLarge
| Io
| Json.
#[export] Instance eq_dec : EqDecision EvidencePackError.
Proof. solve_decision. Defined.
End EvidencePackError.
Export (hints) EvidencePackError.
Abbreviation EvidencePackError := EvidencePackError.EvidencePackError.

(** [EvidencePackStore]: the contents of the files of its directory *)
Abbreviation EvidencePackStore := (gmap string bytes).

(** ** Validation *)

(** [valid_id] *)
Definition valid_pack_id (value : string) : bool :=
  negb (str_is_empty value)
  && (str_len value <=? 128)%N
  && forallb (λ b, is_ascii_alphanumeric b || existsb (λ c, bool_decide (c = b)) (str_bytes "_.:-"))
       (str_bytes value).

Definition valid_error (error : string) : bool :=
  negb (str_is_empty error) && (str_len error <=? 8 * 1024)%N.

(** [valid_log] *)
Definition valid_log `{Base64} (log : CheckExecutionLog) : bool :=
  match log with
  | CheckExecutionLog.Completed _ started_at_millis finished_at_millis stdout stderr error =>
      (started_at_millis <=? finished_at_millis)%N
      && bool_decide (is_Some (base64_decode stdout))
      && bool_decide (is_Some (base64_decode stderr))
      && match error with Some error => valid_error error | None => true end
  | CheckExecutionLog.Rejected error => valid_error error
  end.

(** [EvidencePack::validate] *)
Definition pack_validate `{Base64} (pack : EvidencePack) : result EvidencePackError unit :=
  _ ← reject_if (negb (ep_version pack =? PACK_VERSION)%N
                 || negb (valid_pack_id (ep_mission_id pack))
                 || negb (valid_pack_id (ep_run_id pack))
                 || negb (bool_decide (pi_mission_id (ep_identity pack) = ep_mission_id pack))
                 || negb (bool_decide (pi_run_id (ep_identity pack) = ep_run_id pack))
                 || (32 <? map_len (ep_records pack))%N
                 || (32 <? map_len (ep_summaries pack))%N
                 || (32 <? map_len (ep_execution_logs pack))%N)
        EvidencePackError.InvalidPack;
  reject_if (existsb (λ cr, negb (valid_pack_id cr.1)
                            || negb (bool_decide (record_check_id cr.2 = cr.1)))
               (str_entries (ep_records pack))
             || existsb (λ check_id, negb (valid_pack_id check_id)) (str_keys (ep_summaries pack))
             || existsb (λ cl, negb (valid_pack_id cl.1) || negb (valid_log cl.2))
                  (str_entries (ep_execution_logs pack)))
    EvidencePackError.InvalidPack.

(** [EvidencePack::new] *)
Definition EvidencePack_new `{Base64} (mission_id run_id : string) (identity : ProofIdentity)
    (current_workspace : WorkspaceSnapshot) (records : gmap string EvidenceRecord)
    (summaries : gmap string EvidenceStatus) (execution_logs : gmap string CheckExecutionLog)
    (created_at_millis : N) : result EvidencePackError EvidencePack :=
  let pack := {| ep_version := PACK_VERSION;
                 ep_mission_id := mission_id;
                 ep_run_id := run_id;
                 ep_identity := identity;
                 ep_current_workspace := current_workspace;
                 ep_records := records;
                 ep_summaries := summaries;
                 ep_execution_logs := execution_logs;
                 ep_created_at_millis := created_at_millis |} in
  _ ← pack_validate pack;
  Ok pack.

(** ** The store *)

(** [u8::to_ascii_lowercase], [str::to_ascii_lowercase] *)
Definition byte_to_ascii_lowercase (c : ascii) : ascii :=
  let n := N_of_ascii c in if ((65 <=? n) && (n <=? 90))%N then ascii_of_N (n + 32) else c.
Definition to_ascii_lowercase (s : string) : string :=
  str_of_bytes (byte_to_ascii_lowercase <$> str_bytes s).

Section store.
Context {HSha : Sha256} `{HBase64 : Base64} `{HJson : PackJson}.

(** [sha256_hex] *)
Definition sha256_hex (payload : bytes) : string := hex (sha256 payload).

(** The name of the file of a digest *)
Definition pack_file (digest : string) : string := digest +:+ ".json".

(** [read_regular_limited] on the contents of the file *)
Definition read_regular_limited (contents : bytes) : result EvidencePackError bytes :=
  _ ← reject_if (MAX_PACK_BYTES <? N.of_nat (length contents))%N EvidencePackError.PackTooLarge;
  Ok contents.

(** [EvidencePackStore::persist].  The temporary file is renamed over the
    target, so the target is written whole or not at all; [outcome] says
    which, and whether the sync of the directory failed after it. *)
Definition pack_persist (outcome : WriteOutcome) (dir : EvidencePackStore) (pack : EvidencePack) :
    EvidencePackStore * result EvidencePackError string :=
  match (_ ← pack_validate pack;
         payload ← ok_or (pack_to_vec pack) EvidencePackError.Json;
         _ ← reject_if (MAX_PACK_BYTES <? N.of_nat (length payload))%N EvidencePackError.PackTooLarge;
         Ok payload) with
  | Err e => (dir, Err e)
  | Ok payload =>
      let digest := sha256_hex payload in
      let target := pack_file digest in
      match dir !! target with
      | Some contents =>
          (dir, existing ← read_regular_limited contents;
                if bool_decide (existing = payload) then Ok digest
                else Err EvidencePackError.DigestCollision)
      | None =>
          match outcome with
          | WriteOutcome.Written => (<[target := payload]> dir, Ok digest)
          | WriteOutcome.Failed => (dir, Err EvidencePackError.Io)
          | WriteOutcome.Unsynced => (<[target := payload]> dir, Err EvidencePackError.Io)
          end
      end
  end.

(** [EvidencePackStore::load] *)
Definition pack_load (dir : EvidencePackStore) (digest : string) :
    result EvidencePackError EvidencePack :=
  _ ← reject_if (negb (str_len digest =? 64)%N || negb (forallb is_ascii_hexdigit (str_bytes digest)))
        EvidencePackError.InvalidDigest;
  contents ← ok_or (dir !! pack_file digest) EvidencePackError.Io;
  payload ← read_regular_limited contents;
  _ ← reject_if (negb (bool_decide (sha256_hex payload = to_ascii_lowercase digest)))
        EvidencePackError.DigestMismatch;
  pack ← ok_or (pack_from_slice payload) EvidencePackError.Json;
  _ ← pack_validate pack;
  Ok pack.
End store.

(** ** Lower-case digests *)

Lemma to_ascii_lowercase_digits (b : bytes) :
  Forall (λ c, byte_to_ascii_lowercase c = c) b → to_ascii_lowercase (str_of_bytes b) = str_of_bytes b.
Proof.
  intros Hb. unfold to_ascii_lowercase. rewrite str_of_to_bytes. f_equal.
  induction Hb as [|c b Hc Hb IH]; [done|]. cbn. by rewrite Hc, IH.
Qed.

Lemma lowercase_hex b : to_ascii_lowercase (hex b) = hex b.
Proof.
  apply to_ascii_lowercase_digits. apply Forall_forall. intros c Hc.
  apply list_elem_of_bind in Hc as (x & Hc & _).
  apply list_elem_of_In in Hc. revert c Hc.
  destruct x as [[] [] [] [] [] [] [] []]; cbn; intros c [<-|[<-|[]]]; reflexivity.
Qed.

Lemma sha256_hex_digits `{Sha256Spec} payload :
  str_len (sha256_hex payload) = 64%N
  ∧ forallb is_ascii_hexdigit (str_bytes (sha256_hex payload)) = true.
Proof.
  split; [|apply hex_is_hexdigit]. unfold sha256_hex, str_len. by rewrite length_hex, sha256_length.
Qed.

Lemma pack_file_inj d d' : pack_file d = pack_file d' → d = d'.
Proof.
  unfold pack_file. intros Heq%(f_equal str_bytes). rewrite !str_bytes_app in Heq.
  apply app_inv_tail in Heq. by apply str_bytes_inj.
Qed.

(** ** The directory is content addressed *)

Section theorems.
Context {HSha : Sha256} {HShaSpec : Sha256Spec} `{HBase64 : Base64} `{HJsonSpec : PackJsonSpec}.

(** Every file is named after its contents. *)
Definition dir_ok (dir : EvidencePackStore) : Prop :=
  map_Forall (λ name contents, name = pack_file (sha256_hex contents)) dir.

Lemma pack_persist_ok outcome dir pack dir' digest :
  pack_persist outcome dir pack = (dir', Ok digest) →
  ∃ payload, pack_validate pack = Ok tt ∧ pack_to_vec pack = Some payload
    ∧ (N.of_nat (length payload) ≤ MAX_PACK_BYTES)%N ∧ digest = sha256_hex payload
    ∧ dir' !! pack_file digest = Some payload ∧ dir ⊆ dir'.
Proof.
  unfold pack_persist. intros Hp.
  destruct (_ ← pack_validate pack; _) as [payload|e] eqn:Hpay; [|by injection Hp].
  apply bind_ok in Hpay as ([] & Hval & Hpay). apply bind_ok in Hpay as (b & Hb & Hpay).
  apply ok_or_ok in Hb. apply bind_ok in Hpay as ([] & Hlen & Hpay). apply reject_if_ok in Hlen.
  injection Hpay as ->. exists payload.
  assert (Hle : (N.of_nat (length payload) ≤ MAX_PACK_BYTES)%N) by (by apply N.ltb_ge).
  destruct (dir !! pack_file (sha256_hex payload)) as [contents|] eqn:Hdir.
  - injection Hp as -> Hr. apply bind_ok in Hr as (existing & Hread & Hr).
    apply bind_ok in Hread as ([] & _ & Hread). injection Hread as ->.
    destruct (bool_decide_reflect (existing = payload)) as [->|]; [|done]. injection Hr as <-.
    by split_and!.
  - destruct outcome; try discriminate Hp. injection Hp as <- <-.
    split_and!; try done; [by rewrite lookup_insert_eq|by apply insert_subseteq].
Qed.

Lemma persisted_payload payload :
  (N.of_nat (length payload) ≤ MAX_PACK_BYTES)%N → read_regular_limited payload = Ok payload.
Proof. intros Hlen. unfold read_regular_limited, reject_if. by rewrite (proj2 (N.ltb_ge _ _) Hlen). Qed.

Lemma pack_load_persisted outcome dir pack dir' digest dir'' :
  pack_persist outcome dir pack = (dir', Ok digest) → dir' ⊆ dir'' → pack_load dir'' digest = Ok pack.
Proof.
  intros Hp Hsub. apply pack_persist_ok in Hp as (payload & Hval & Hvec & Hlen & -> & Hfile & _).
  destruct (sha256_hex_digits payload) as [H64 Hhex].
  pose proof (lookup_weaken _ _ _ _ Hfile Hsub) as Hfile''.
  unfold pack_load. rewrite H64, Hhex, Hfile''. cbn [reject_if negb orb N.eqb Pos.eqb].
  cbn [mbind result_bind ok_or]. rewrite (persisted_payload _ Hlen). cbn [mbind result_bind].
  unfold sha256_hex. rewrite lowercase_hex, bool_decide_eq_true_2 by done.
  cbn [negb reject_if mbind result_bind]. rewrite (pack_json_roundtrip _ _ Hvec).
  cbn [ok_or mbind result_bind]. by rewrite Hval.
Qed.

(** C19: A pack that was persisted is loaded.  The name is the digest that
    [persist] returned, the pack is the one that was persisted, and it stays
    so as long as files are only added to the directory; persisting it again
    writes nothing. *)
Theorem pack_round_trip outcome dir pack dir' digest dir'' :
  pack_persist outcome dir pack = (dir', Ok digest) → dir' ⊆ dir'' →
  pack_load dir'' digest = Ok pack
  ∧ ∀ outcome', pack_persist outcome' dir'' pack = (dir'', Ok digest).
Proof.
  intros Hp Hsub. split; [by eapply pack_load_persisted|]. intros outcome'.
  apply pack_persist_ok in Hp as (payload & Hval & Hvec & Hlen & -> & Hfile & _).
  pose proof (lookup_weaken _ _ _ _ Hfile Hsub) as Hfile''.
  unfold pack_persist. rewrite Hval, Hvec. cbn [ok_or mbind result_bind].
  unfold reject_if at 1. rewrite (proj2 (N.ltb_ge _ _) Hlen). cbn [mbind result_bind].
  rewrite Hfile'', (persisted_payload _ Hlen). cbn [mbind result_bind].
  by rewrite bool_decide_eq_true_2.
Qed.

Lemma pack_load_inv dir digest p :
  pack_load dir digest = Ok p →
  ∃ contents, dir !! pack_file digest = Some contents ∧ pack_from_slice contents = Some p
    ∧ hex (sha256 contents) = to_ascii_lowercase digest.
Proof.
  unfold pack_load, read_regular_limited. intros Hl. inv_ok. eexists. split_and!; done.
Qed.

(** Packs are content addressed whatever happens to the writes.  The files of
    a directory that only [persist] writes are named after their contents, a
    failed write leaves the directory as it was or with the whole file, a
    collision is reported only when the file there and the payload have one
    SHA-256, and two packs that are loaded under one digest, at whatever
    times, are the same pack, or their files have one SHA-256. *)
Theorem packs_are_content_addressed outcome dir pack dir' r :
  dir_ok dir → pack_persist outcome dir pack = (dir', r) →
  dir_ok dir' ∧ dir ⊆ dir'
  ∧ (r = Err EvidencePackError.DigestCollision →
     ∃ payload contents, pack_to_vec pack = Some payload
       ∧ dir !! pack_file (sha256_hex payload) = Some contents ∧ clashes contents payload)
  ∧ (∀ digest, r = Ok digest → outcome = WriteOutcome.Written ∨ dir' = dir)
  ∧ ∀ digest other p p', pack_load dir' digest = Ok p → pack_load other digest = Ok p' →
      p = p' ∨ ∃ contents contents', dir' !! pack_file digest = Some contents
                 ∧ other !! pack_file digest = Some contents' ∧ clashes contents contents'.
Proof.
  intros Hok Hp.
  assert (Hload : ∀ digest other p p', pack_load dir' digest = Ok p → pack_load other digest = Ok p' →
      p = p' ∨ ∃ contents contents', dir' !! pack_file digest = Some contents
                 ∧ other !! pack_file digest = Some contents' ∧ clashes contents contents').
  { intros digest other p p' (c & Hc & Hp1 & H1)%pack_load_inv (c' & Hc' & Hp2 & H2)%pack_load_inv.
    rewrite <- H2 in H1. apply hex_inj, sha256_inj_or in H1 as [->|?]; [left; congruence|right; eauto]. }
  unfold pack_persist in Hp.
  destruct (_ ← pack_validate pack; _) as [payload|e] eqn:Hpay.
  2:{ injection Hp as <- <-. split_and!; try done. intros [= ->]. unfold pack_validate in Hpay.
      exfalso. by inv_err Hpay. }
  destruct (dir !! pack_file (sha256_hex payload)) as [contents|] eqn:Hdir.
  - injection Hp as <- <-. split_and!; try done; [|by right].
    assert (Hvec : pack_to_vec pack = Some payload) by (inv_ok; congruence).
    clear Hpay. intros Hc. unfold read_regular_limited in Hc. inv_err Hc. inv_ok.
    destruct (bool_decide_reflect (contents = payload)); [done|].
    exists payload, contents. split_and!; [done..|]. split; [done|].
    by apply Hok, pack_file_inj, hex_inj in Hdir.
  - assert (Hins : dir_ok (<[pack_file (sha256_hex payload) := payload]> dir))
      by (apply map_Forall_insert_2; done).
    assert (Hsub : dir ⊆ <[pack_file (sha256_hex payload) := payload]> dir)
      by (by apply insert_subseteq).
    destruct outcome; injection Hp as <- <-; split_and!; auto; try discriminate.
Qed.
End theorems.

(** ** Concrete packs *)

Module PackDemo.
#[local] Existing Instances demo_sha256 demo_sha256_spec.
(** Hexadecimal for base64, and a text for one pack *)
#[local] Instance base64 : Base64 := {|
  base64_encode b := hex b;
  base64_decode s := Some (unhex (str_bytes s)) |}.
#[local] Instance base64_spec : Base64Spec.
Proof. intros b. cbn. by rewrite unhex_hex. Defined.

Definition identity := mkProofIdentity "m" "r" "/repo" "/tree" "base".
Definition pack : EvidencePack :=
  mkEvidencePack PACK_VERSION "m" "r" identity EvidenceDemo.after
    ∅ {["tests" := EvidenceStatus.Failed]}
    {["tests" := CheckExecutionLog.Rejected "check command timed out"]} 7.

#[local] Instance json : PackJson := {|
  pack_to_vec p := if decide (p = pack) then Some (str_bytes "{pack}") else None;
  pack_from_slice b := if decide (b = str_bytes "{pack}") then Some pack else None |}.
#[local] Instance json_spec : PackJsonSpec.
Proof.
  intros p b Hb. cbn in *. destruct (decide (p = pack)) as [->|]; [|discriminate Hb].
  injection Hb as <-. by rewrite decide_True.
Defined.
End PackDemo.

Section PackWitnesses.
#[local] Existing Instances demo_sha256 demo_sha256_spec PackDemo.base64 PackDemo.json
  PackDemo.json_spec.
Import PackDemo.

Lemma persisted : ∃ dir digest, pack_persist WriteOutcome.Written ∅ pack = (dir, Ok digest).
Proof.
  assert (Hok : is_ok (pack_persist WriteOutcome.Written ∅ pack).2 = true)
    by (vm_compute; reflexivity).
  destruct (pack_persist WriteOutcome.Written ∅ pack) as [dir [digest|e]];
    [by exists dir, digest|discriminate Hok].
Qed.

Lemma pack_round_trip_witness :
  ∃ dir digest, pack_persist WriteOutcome.Written ∅ pack = (dir, Ok digest)
    ∧ pack_load dir digest = Ok pack.
Proof.
  destruct persisted as (dir & digest & Hp). exists dir, digest. split; [exact Hp|].
  exact (proj1 (pack_round_trip _ _ _ _ _ dir Hp (reflexivity dir))).
Defined.

Lemma packs_are_content_addressed_witness :
  ∃ dir digest, pack_persist WriteOutcome.Written ∅ pack = (dir, Ok digest) ∧ dir_ok dir.
Proof.
  destruct persisted as (dir & digest & Hp). exists dir, digest. split; [exact Hp|].
  assert (H0 : dir_ok ∅) by apply map_Forall_empty.
  exact (proj1 (packs_are_content_addressed _ _ _ _ _ H0 Hp)).
Defined.
End PackWitnesses.
