(* ===== verification/Evaluator.v ===== *)
(** * Closure proofs ([src/mission/proof.rs])

    A closure plan fixes which checks close which acceptance criteria.  The
    evaluator compares declarations, evidence, open attention and the
    workspace with an authority snapshot (of [src/mission/runtime.rs]) and
    mints a [VerifiedProof] only when the mission may be closed. *)

From S2P Require Export Evidence.

(** ** Data *)

Record ClosurePlan := mkClosurePlan {
  cp_criteria : gset string;
  cp_criteria_digest : string;
  cp_checkset_digest : string;
}.
#[export] Instance ClosurePlan_eq_dec : EqDecision ClosurePlan.
Proof. solve_decision. Defined.

Module ProofError.
Inductive ProofError :=
| EmptyIdentity
| InvalidBaseRevision
| ReportNotVerified
| InvalidClosurePlan
| InvalidAuthoritySequence
| AuthorityBindingMismatch.
#[export] Instance eq_dec : EqDecision ProofError.
Proof. solve_decision. Defined.
End ProofError.
Export (hints) ProofError.
Abbreviation ProofError := ProofError.ProofError.

Module CheckProofStatus.
Inductive CheckProofStatus :=
| Passed
| Failed
| Stale
| Missing
| ManualMissing
| ProviderClaimOnly
| DeclarationMismatch
| IdentityMismatch
| ArtifactMissingOrChanged
| ManualNotAuthorized.
#[export] Instance eq_dec : EqDecision CheckProofStatus.
Proof. solve_decision. Defined.
End CheckProofStatus.
Export (hints) CheckProofStatus.
Abbreviation CheckProofStatus := CheckProofStatus.CheckProofStatus.

Module MissionReadiness.
Inductive MissionReadiness := ReviewRequired | Verified.
#[export] Instance eq_dec : EqDecision MissionReadiness.
Proof. solve_decision. Defined.
End MissionReadiness.
Export (hints) MissionReadiness.
Abbreviation MissionReadiness := MissionReadiness.MissionReadiness.

Record VerifiedProof := mkVerifiedProof {
  vp_identity_digest : string;
  vp_workspace_digest : string;
  vp_checkset_digest : string;
  vp_criteria_digest : string;
  vp_attention_digest : string;
  vp_evidence_digest : string;
  vp_authority_head_digest : string;
  vp_lease_digest : string;
  vp_authority_sequence : N;
  vp_verified_at_millis : N;
}.

Record ProofReport := mkProofReport {
  rep_readiness : MissionReadiness;
  rep_check_statuses : gmap string CheckProofStatus;
  rep_uncovered_criteria : gset string;
  rep_duplicate_check_ids : gset string;
  rep_verified : option VerifiedProof;
}.

Record AuthoritySnapshot := mkAuthoritySnapshot {
  as_identity_digest : string;
  as_workspace_digest : string;
  as_attention_digest : string;
  as_evidence_digest : string;
  as_head_digest : string;
  as_lease_digest : string;
  as_sequence : N;
  as_captured_at_millis : N;
}.

(** ** Operations *)

(** [ProofIdentity::new] *)
Definition ProofIdentity_new (mission_id run_id repository_identity worktree_identity
    base_revision : string) : result ProofError ProofIdentity :=
  _ ← reject_if (existsb trim_is_empty
                   [mission_id; run_id; repository_identity; worktree_identity])
        ProofError.EmptyIdentity;
  _ ← reject_if (negb ((str_len base_revision =? 40)%N || (str_len base_revision =? 64)%N)
                 || negb (forallb is_ascii_hexdigit (str_bytes base_revision)))
        ProofError.InvalidBaseRevision;
  Ok (mkProofIdentity mission_id run_id repository_identity worktree_identity base_revision).

(** [From<EvidenceAssessment> for CheckProofStatus] *)
Definition proof_status_of (value : EvidenceAssessment) : CheckProofStatus :=
  match value with
  | EvidenceAssessment.Passed => CheckProofStatus.Passed
  | EvidenceAssessment.Failed => CheckProofStatus.Failed
  | EvidenceAssessment.Stale => CheckProofStatus.Stale
  | EvidenceAssessment.DeclarationMismatch => CheckProofStatus.DeclarationMismatch
  | EvidenceAssessment.IdentityMismatch => CheckProofStatus.IdentityMismatch
  | EvidenceAssessment.ArtifactMissingOrChanged => CheckProofStatus.ArtifactMissingOrChanged
  | EvidenceAssessment.ManualNotAuthorized => CheckProofStatus.ManualNotAuthorized
  | EvidenceAssessment.ProviderClaimOnly => CheckProofStatus.ProviderClaimOnly
  end.

(** [ProofReport::into_verified] *)
Definition into_verified (report : ProofReport) : result ProofError VerifiedProof :=
  ok_or (rep_verified report) ProofError.ReportNotVerified.

Section proof.
Context {HSha : Sha256}.

(** [digest_checkset] *)
Definition digest_checkset (declarations : list CheckDeclaration) : string :=
  let declarations := sort_strings (declaration_digest <$> declarations) in
  digest_new "mission-checkset-v1"
  |>> digest_u64 (vec_len declarations)
  |>> digest_each digest_string declarations
  |>> digest_finish.

(** [digest_criteria] *)
Definition digest_criteria (criteria : gset string) : string :=
  digest_new "mission-criteria-v1"
  |>> digest_u64 (N.of_nat (size criteria))
  |>> digest_each digest_string (str_set criteria)
  |>> digest_finish.

(** [digest_attention] *)
Definition digest_attention (attention_ids : gset string) : string :=
  digest_new "mission-unresolved-attention-v1"
  |>> digest_u64 (N.of_nat (size attention_ids))
  |>> digest_each digest_string (str_set attention_ids)
  |>> digest_finish.

(** [digest_evidence] *)
Definition digest_evidence (records : gmap string EvidenceRecord) : string :=
  digest_new "mission-evidence-set-v1"
  |>> digest_u64 (map_len records)
  |>> digest_each (λ kr d, d |>> digest_string kr.1 |>> digest_string (record_digest kr.2))
        (str_entries records)
  |>> digest_finish.

(** The loop of [ClosurePlan::new]: the ids seen, the criteria covered by
    required checks and the number of required checks. *)
Definition closure_plan_step (criteria : gset string) (s : gset string * gset string * N)
    (declaration : CheckDeclaration) : result ProofError (gset string * gset string * N) :=
  let '(seen, covered, required_count) := s in
  _ ← reject_if (bool_decide (cd_id declaration ∈ seen)) ProofError.InvalidClosurePlan;
  let seen := {[cd_id declaration]} ∪ seen in
  _ ← reject_if (negb (forallb (λ criterion, bool_decide (criterion ∈ criteria))
                         (str_set (cd_covered_criteria declaration))))
        ProofError.InvalidClosurePlan;
  if cd_required declaration
  then Ok (seen, covered ∪ cd_covered_criteria declaration, required_count + 1)%N
  else Ok (seen, covered, required_count).

(** [ClosurePlan::new] *)
Definition ClosurePlan_new (criterion_ids : list string) (declarations : list CheckDeclaration) :
    result ProofError ClosurePlan :=
  let criteria : gset string := list_to_set criterion_ids in
  _ ← reject_if (bool_decide (criteria = ∅)) ProofError.InvalidClosurePlan;
  s ← try_fold (closure_plan_step criteria) (∅, ∅, 0%N) declarations;
  let '(_, covered, required_count) := s in
  _ ← reject_if ((required_count =? 0)%N || negb (bool_decide (covered = criteria)))
        ProofError.InvalidClosurePlan;
  Ok {| cp_criteria := criteria;
        cp_criteria_digest := digest_criteria criteria;
        cp_checkset_digest := digest_checkset declarations |}.

(** [ClosurePlan::matches] and [VerifiedProof::matches_closure_plan] *)
Definition matches_closure_plan (proof : VerifiedProof) (plan : ClosurePlan) : bool :=
  bool_decide (cp_criteria_digest plan = vp_criteria_digest proof)
  && bool_decide (cp_checkset_digest plan = vp_checkset_digest proof).

(** [ClosurePlan::matches_declarations] *)
Definition matches_declarations (plan : ClosurePlan) (declarations : list CheckDeclaration) : bool :=
  bool_decide (cp_checkset_digest plan = digest_checkset declarations).

(** [VerifiedProof::matches_identity] *)
Definition matches_identity (proof : VerifiedProof) (identity : ProofIdentity) : bool :=
  bool_decide (vp_identity_digest proof = identity_digest identity).

(** [subject_digest_from_parts] *)
Definition subject_digest_from_parts (identity workspace checkset criteria : string) : string :=
  digest_new "mission-verified-proof-subject-v1"
  |>> digest_string identity
  |>> digest_string workspace
  |>> digest_string checkset
  |>> digest_string criteria
  |>> digest_finish.

(** [seal_digest_from_parts] *)
Definition seal_digest_from_parts (identity workspace checkset criteria attention evidence
    authority_head lease : string) (authority_sequence verified_at_millis : N) : string :=
  digest_new "mission-verified-proof-seal-v1"
  |>> digest_string identity
  |>> digest_string workspace
  |>> digest_string checkset
  |>> digest_string criteria
  |>> digest_string attention
  |>> digest_string evidence
  |>> digest_string authority_head
  |>> digest_string lease
  |>> digest_u64 authority_sequence
  |>> digest_u64 verified_at_millis
  |>> digest_finish.

(** [VerifiedProof::seal_digest] *)
Definition seal_digest (proof : VerifiedProof) : string :=
  seal_digest_from_parts (vp_identity_digest proof) (vp_workspace_digest proof)
    (vp_checkset_digest proof) (vp_criteria_digest proof) (vp_attention_digest proof)
    (vp_evidence_digest proof) (vp_authority_head_digest proof) (vp_lease_digest proof)
    (vp_authority_sequence proof) (vp_verified_at_millis proof).

(** [VerifiedProof::subject_digest] *)
Definition subject_digest (proof : VerifiedProof) : string :=
  subject_digest_from_parts (vp_identity_digest proof) (vp_workspace_digest proof)
    (vp_checkset_digest proof) (vp_criteria_digest proof).

(** [proof_subject_digest] *)
Definition proof_subject_digest (identity : ProofIdentity) (workspace : WorkspaceSnapshot)
    (closure_plan : ClosurePlan) : string :=
  subject_digest_from_parts (identity_digest identity) (workspace_digest workspace)
    (cp_checkset_digest closure_plan) (cp_criteria_digest closure_plan).

(** [proof_seal_digest] *)
Definition proof_seal_digest (identity : ProofIdentity) (workspace : WorkspaceSnapshot)
    (closure_plan : ClosurePlan) (attention evidence authority_head lease : string)
    (authority_sequence verified_at_millis : N) : string :=
  seal_digest_from_parts (identity_digest identity) (workspace_digest workspace)
    (cp_checkset_digest closure_plan) (cp_criteria_digest closure_plan)
    attention evidence authority_head lease authority_sequence verified_at_millis.

(** ** The evaluator *)

(** The variables of the loop of [ProofEvaluator::evaluate] *)
Record EvaluatorState := mkEvaluatorState {
  ev_covered_criteria : gset string;
  ev_check_statuses : gmap string CheckProofStatus;
  ev_seen_check_ids : gset string;
  ev_duplicate_check_ids : gset string;
  ev_required_count : N;
}.

Definition evaluate_declaration (identity : ProofIdentity) (records : gmap string EvidenceRecord)
    (current : WorkspaceSnapshot) (s : EvaluatorState) (declaration : CheckDeclaration) :
    EvaluatorState :=
  if bool_decide (cd_id declaration ∈ ev_seen_check_ids s) then
    {| ev_covered_criteria := ev_covered_criteria s;
       ev_check_statuses := ev_check_statuses s;
       ev_seen_check_ids := ev_seen_check_ids s;
       ev_duplicate_check_ids := {[cd_id declaration]} ∪ ev_duplicate_check_ids s;
       ev_required_count := ev_required_count s |}
  else
    let status :=
      match records !! cd_id declaration with
      | Some record => proof_status_of (record_assess record declaration identity current)
      | None => if is_manual declaration then CheckProofStatus.ManualMissing
                else CheckProofStatus.Missing
      end in
    {| ev_covered_criteria :=
         if cd_required declaration
         then ev_covered_criteria s ∪ cd_covered_criteria declaration
         else ev_covered_criteria s;
       ev_check_statuses := <[cd_id declaration := status]> (ev_check_statuses s);
       ev_seen_check_ids := {[cd_id declaration]} ∪ ev_seen_check_ids s;
       ev_duplicate_check_ids := ev_duplicate_check_ids s;
       ev_required_count :=
         if cd_required declaration then (ev_required_count s + 1)%N else ev_required_count s |}.

Definition evaluate_declarations (identity : ProofIdentity) (records : gmap string EvidenceRecord)
    (current : WorkspaceSnapshot) (declarations : list CheckDeclaration) : EvaluatorState :=
  foldl (evaluate_declaration identity records current) (mkEvaluatorState ∅ ∅ ∅ ∅ 0)
    declarations.

(** [ProofEvaluator::evaluate] *)
Definition evaluate (identity : ProofIdentity) (closure_plan : ClosurePlan)
    (declarations : list CheckDeclaration) (records : gmap string EvidenceRecord)
    (current : WorkspaceSnapshot) (unresolved_attention_ids : gset string)
    (authority : AuthoritySnapshot) : result ProofError ProofReport :=
  _ ← reject_if (as_sequence authority =? 0)%N ProofError.InvalidAuthoritySequence;
  let evidence := digest_evidence records in
  _ ← reject_if (negb (bool_decide (as_identity_digest authority = identity_digest identity))
                 || negb (bool_decide (as_workspace_digest authority = workspace_digest current))
                 || negb (bool_decide (as_attention_digest authority
                                       = digest_attention unresolved_attention_ids))
                 || negb (bool_decide (as_evidence_digest authority = evidence)))
        ProofError.AuthorityBindingMismatch;
  let criteria := cp_criteria closure_plan in
  let s := evaluate_declarations identity records current declarations in
  let uncovered_criteria := criteria ∖ ev_covered_criteria s in
  let all_required_pass :=
    forallb (λ declaration,
      bool_decide (ev_check_statuses s !! cd_id declaration = Some CheckProofStatus.Passed))
      (filter (λ declaration, cd_required declaration = true) declarations) in
  let configuration_valid :=
    (0 <? ev_required_count s)%N
    && negb (bool_decide (criteria = ∅))
    && bool_decide (uncovered_criteria = ∅)
    && bool_decide (ev_duplicate_check_ids s = ∅)
    && matches_declarations closure_plan declarations in
  let is_verified :=
    configuration_valid && all_required_pass && bool_decide (unresolved_attention_ids = ∅) in
  let verified :=
    if is_verified then
      Some {| vp_identity_digest := identity_digest identity;
              vp_workspace_digest := workspace_digest current;
              vp_checkset_digest := cp_checkset_digest closure_plan;
              vp_criteria_digest := cp_criteria_digest closure_plan;
              vp_attention_digest := digest_attention unresolved_attention_ids;
              vp_evidence_digest := evidence;
              vp_authority_head_digest := as_head_digest authority;
              vp_lease_digest := as_lease_digest authority;
              vp_authority_sequence := as_sequence authority;
              vp_verified_at_millis := as_captured_at_millis authority |}
    else None in
  Ok {| rep_readiness :=
          if is_verified then MissionReadiness.Verified else MissionReadiness.ReviewRequired;
        rep_check_statuses := ev_check_statuses s;
        rep_uncovered_criteria := uncovered_criteria;
        rep_duplicate_check_ids := ev_duplicate_check_ids s;
        rep_verified := verified |}.
End proof.

(** ** Closure plans *)

(** The criteria the required checks cover *)
Definition required_checks (declarations : list CheckDeclaration) : list CheckDeclaration :=
  filter (λ d, cd_required d = true) declarations.
Definition required_criteria (declarations : list CheckDeclaration) : gset string :=
  ⋃ (cd_covered_criteria <$> required_checks declarations).

Lemma subset_bool (s criteria : gset string) :
  forallb (λ criterion, bool_decide (criterion ∈ criteria)) (str_set s) = true ↔ s ⊆ criteria.
Proof.
  rewrite forallb_forall. setoid_rewrite bool_decide_eq_true. setoid_rewrite <- list_elem_of_In.
  setoid_rewrite (elem_of_btree_set String.le). done.
Qed.

Lemma required_checks_cons d ds :
  required_checks (d :: ds)
  = if cd_required d then d :: required_checks ds else required_checks ds.
Proof. unfold required_checks. rewrite filter_cons. by destruct (cd_required d). Qed.

Lemma closure_plan_fold criteria ds seen covered n s :
  try_fold (closure_plan_step criteria) (seen, covered, n) ds = Ok s ↔
  NoDup (cd_id <$> ds) ∧ (∀ id, id ∈ cd_id <$> ds → id ∉ seen)
  ∧ Forall (λ d, cd_covered_criteria d ⊆ criteria) ds
  ∧ s = (list_to_set (cd_id <$> ds) ∪ seen, covered ∪ required_criteria ds,
         n + vec_len (required_checks ds))%N.
Proof.
  revert seen covered n. induction ds as [|d ds IH]; intros seen covered n.
  { cbn. unfold required_criteria, vec_len. cbn. rewrite N.add_0_r. split.
    - intros [= <-]. split_and!; [constructor|by intros id ?%not_elem_of_nil|done|].
      by rewrite (left_id_L ∅ (∪)), (right_id_L ∅ (∪)).
    - intros (_ & _ & _ & ->). by rewrite (left_id_L ∅ (∪)), (right_id_L ∅ (∪)). }
  cbn [try_fold fmap list_fmap]. unfold closure_plan_step at 2.
  rewrite NoDup_cons, Forall_cons, required_checks_cons.
  assert (Hcrit : required_criteria (d :: ds)
    = (if cd_required d then cd_covered_criteria d else ∅) ∪ required_criteria ds).
  { unfold required_criteria. rewrite required_checks_cons. destruct (cd_required d); set_solver. }
  rewrite Hcrit. clear Hcrit.
  destruct (decide (cd_id d ∈ seen)) as [Hin|Hin].
  { rewrite bool_decide_eq_true_2 by done. cbn. split; [done|].
    intros (_ & Hdis & _). exfalso. apply (Hdis (cd_id d)); [left|done]. }
  rewrite bool_decide_eq_false_2 by done. cbn.
  destruct (forallb _ _) eqn:Hsub; cbn; [apply subset_bool in Hsub|].
  2:{ split; [done|]. intros (_ & _ & [Hs _] & _). apply subset_bool in Hs. congruence. }
  destruct (cd_required d); cbn; rewrite IH; unfold vec_len; cbn [length];
    rewrite ?Nat2N.inj_succ; split.
  - intros (Hnd & Hdis & Hall & ->). split_and!; try done; [set_solver..|].
    f_equal; [f_equal; set_solver|lia].
  - intros ([Hd Hnd] & Hdis & [_ Hall] & ->). split_and!; try done; [set_solver|].
    f_equal; [f_equal; set_solver|lia].
  - intros (Hnd & Hdis & Hall & ->). split_and!; try done; [set_solver..|].
    f_equal; f_equal; set_solver.
  - intros ([Hd Hnd] & Hdis & [_ Hall] & ->). split_and!; try done; [set_solver|].
    f_equal; f_equal; set_solver.
Qed.

Lemma required_criteria_nil ds :
  vec_len (required_checks ds) = 0%N → required_criteria ds = ∅.
Proof.
  unfold vec_len, required_criteria. destruct (required_checks ds); [done|]. cbn. lia.
Qed.

(** A closure plan is a covering.  A plan exists exactly when the mission
    has a criterion, every check has an identifier of its own and covers only
    criteria of the mission, and the required checks cover all of them; it
    then records the criteria and the digests of both sides. *)
Theorem closure_plan_spec {HSha : Sha256} ids ds plan :
  ClosurePlan_new ids ds = Ok plan ↔
  ids ≠ [] ∧ NoDup (cd_id <$> ds)
  ∧ Forall (λ d, cd_covered_criteria d ⊆ list_to_set ids) ds
  ∧ required_criteria ds = list_to_set ids
  ∧ plan = mkClosurePlan (list_to_set ids) (digest_criteria (list_to_set ids)) (digest_checkset ds).
Proof.
  unfold ClosurePlan_new. cbv zeta. set (criteria := list_to_set ids : gset string).
  assert (Hids : criteria = ∅ ↔ ids = []).
  { subst criteria. split; [|by intros ->]. destruct ids; [done|set_solver]. }
  split.
  - intros Hok. apply bind_ok in Hok as ([] & Hne & Hok).
    apply bind_ok in Hok as (s & (Hnd & _ & Hall & ->)%closure_plan_fold & Hok). cbn in Hok.
    apply bind_ok in Hok as ([] & Hcov & Hok). inv_ok.
    split_and!; try done; [by rewrite <- Hids|set_solver].
  - intros (Hne & Hnd & Hall & Hcov & ->). rewrite bool_decide_eq_false_2 by (by rewrite Hids).
    cbn [reject_if mbind result_bind].
    rewrite (proj2 (closure_plan_fold criteria ds ∅ ∅ 0
      (list_to_set (cd_id <$> ds) ∪ ∅, ∅ ∪ required_criteria ds, 0 + vec_len (required_checks ds))%N)).
    2:{ split_and!; [done|set_solver|done|reflexivity]. }
    cbn [mbind result_bind]. rewrite Hcov, (left_id_L ∅ (∪)), N.add_0_l, bool_decide_eq_true_2 by done.
    destruct (N.eqb_spec (vec_len (required_checks ds)) 0) as [Hz|]; [|done].
    apply required_criteria_nil in Hz. rewrite Hcov, Hids in Hz. done.
Qed.

(** ** The evaluator *)

Section evaluate.
Context {HSha : Sha256}.
Context (identity : ProofIdentity) (records : gmap string EvidenceRecord)
  (current : WorkspaceSnapshot).

Lemma evaluate_declarations_dup s ds :
  ev_duplicate_check_ids (foldl (evaluate_declaration identity records current) s ds) = ∅ ↔
  ev_duplicate_check_ids s = ∅ ∧ NoDup (cd_id <$> ds)
  ∧ (∀ id, id ∈ cd_id <$> ds → id ∉ ev_seen_check_ids s).
Proof.
  revert s. induction ds as [|d ds IH]; intros s; cbn [foldl fmap list_fmap].
  { split; [|by intros [? _]]. intros ->. split_and!; [done|constructor|].
    by intros id ?%not_elem_of_nil. }
  rewrite IH, NoDup_cons. unfold evaluate_declaration. case_bool_decide as Hin; cbn.
  - split; [set_solver|]. intros (_ & _ & Hdis). exfalso. apply (Hdis (cd_id d)); [left|done].
  - set_solver.
Qed.

(** The status of a declared check: what its evidence is worth *)
Definition check_status (d : CheckDeclaration) : CheckProofStatus :=
  match records !! cd_id d with
  | Some record => proof_status_of (record_assess record d identity current)
  | None => if is_manual d then CheckProofStatus.ManualMissing else CheckProofStatus.Missing
  end.

Lemma evaluate_declarations_spec s ds :
  NoDup (cd_id <$> ds) → (∀ id, id ∈ cd_id <$> ds → id ∉ ev_seen_check_ids s) →
  let s' := foldl (evaluate_declaration identity records current) s ds in
  ev_covered_criteria s' = ev_covered_criteria s ∪ required_criteria ds
  ∧ ev_required_count s' = (ev_required_count s + vec_len (required_checks ds))%N
  ∧ (∀ id, id ∉ cd_id <$> ds → ev_check_statuses s' !! id = ev_check_statuses s !! id)
  ∧ (∀ d, d ∈ ds → ev_check_statuses s' !! cd_id d = Some (check_status d)).
Proof.
  revert s. induction ds as [|d ds IH]; intros s Hnd Hdis; cbn [foldl].
  { unfold required_criteria, vec_len. cbn. rewrite N.add_0_r. split_and!; [set_solver|done|done|].
    by intros d ?%not_elem_of_nil. }
  cbn [fmap list_fmap] in Hnd, Hdis. apply NoDup_cons in Hnd as [Hd Hnd].
  assert (Hseen : cd_id d ∉ ev_seen_check_ids s) by (apply Hdis; left).
  unfold evaluate_declaration at 2 4 6 8. rewrite bool_decide_eq_false_2 by done. cbv zeta.
  match goal with |- context [foldl _ ?t ds] => destruct (IH t) as (Hcov & Hcnt & Hold & Hnew) end;
    [done|set_solver|]. cbn in Hcov, Hcnt, Hold.
  unfold required_criteria. rewrite Hcov, Hcnt, required_checks_cons. split_and!.
  - unfold required_criteria. destruct (cd_required d); set_solver.
  - unfold vec_len. destruct (cd_required d); cbn [length]; lia.
  - intros id Hid. cbn in Hid. rewrite Hold by set_solver. apply lookup_insert_ne. set_solver.
  - intros e [->|He]%elem_of_cons; [|by apply Hnew]. rewrite Hold by done.
    rewrite lookup_insert. by case_decide.
Qed.

(** What the evaluator demands of a mission before it may be closed *)
Definition closable (plan : ClosurePlan) (ds : list CheckDeclaration) (attention : gset string) :
    Prop :=
  cp_criteria plan ≠ ∅ ∧ NoDup (cd_id <$> ds)
  ∧ cp_criteria plan ⊆ required_criteria ds
  ∧ cp_checkset_digest plan = digest_checkset ds
  ∧ Forall (λ d, ∃ r, records !! cd_id d = Some r
                     ∧ record_assess r d identity current = EvidenceAssessment.Passed)
      (required_checks ds)
  ∧ attention = ∅.

Lemma check_status_passed d :
  check_status d = CheckProofStatus.Passed ↔
  ∃ r, records !! cd_id d = Some r ∧ record_assess r d identity current = EvidenceAssessment.Passed.
Proof.
  unfold check_status. destruct (records !! cd_id d) as [r|].
  - split; [|intros (r' & [= <-] & ->); done].
    destruct (record_assess r d identity current) eqn:Ha; try done. eauto.
  - split; [by destruct (is_manual d)|]. by intros (? & ? & _).
Qed.
End evaluate.

Lemma evaluate_verified {HSha : Sha256} identity plan ds records current attention authority
    report :
  evaluate identity plan ds records current attention authority = Ok report →
  (is_Some (rep_verified report) ↔ closable identity records current plan ds attention)
  ∧ (rep_readiness report = MissionReadiness.Verified ↔ is_Some (rep_verified report))
  ∧ ∀ proof, rep_verified report = Some proof →
      seal_digest proof
      = proof_seal_digest identity current plan (as_attention_digest authority)
          (as_evidence_digest authority) (as_head_digest authority) (as_lease_digest authority)
          (as_sequence authority) (as_captured_at_millis authority)
      ∧ subject_digest proof = proof_subject_digest identity current plan
      ∧ matches_identity proof identity = true ∧ matches_closure_plan proof plan = true
      ∧ (0 < vp_authority_sequence proof)%N.
Proof.
  intros Hev. unfold evaluate in Hev. cbv zeta in Hev.
  apply bind_ok in Hev as ([] & Hseq & Hev). apply bind_ok in Hev as ([] & Hbind & Hev).
  inv_ok. cbn [rep_verified rep_readiness].
  match goal with |- context [if ?b then _ else _] => destruct b eqn:Hver end.
  - assert (Hclos : closable identity records current plan ds attention).
    { rewrite !andb_true_iff in Hver.
      destruct Hver as [[[[[[Hcnt Hne] Hcov] Hdup] Hset] Hall] Hatt]. inv_ok.
      unfold matches_declarations in Hset. inv_ok. unfold evaluate_declarations in *.
      apply evaluate_declarations_dup in Hdup as (_ & Hnd & Hdis).
      destruct (evaluate_declarations_spec identity records current
                  (mkEvaluatorState ∅ ∅ ∅ ∅ 0) ds Hnd Hdis) as (Hc & _ & _ & Hst).
      cbv zeta in Hc. rewrite Hc in Hcov. cbn [ev_covered_criteria] in Hcov.
      unfold closable. split_and!; [done|done|set_solver|congruence| |done].
      apply Forall_forall. intros d Hd. apply check_status_passed.
      rewrite forallb_forall in Hall. pose proof (Hall d) as Hd'. inv_ok.
      rewrite <- list_elem_of_In in Hd'. specialize (Hd' Hd). inv_ok.
      apply list_elem_of_filter in Hd as [_ Hd]. rewrite Hst in Hd' by done. by injection Hd'. }
    split_and!; [split; eauto|split; eauto|]. intros proof [= <-].
    unfold seal_digest, proof_seal_digest, subject_digest, proof_subject_digest, matches_identity,
      matches_closure_plan. cbn. rewrite !bool_decide_eq_true_2 by done.
    split_and!; [congruence|done|done|done|lia].
  - split_and!; [|split; [done|by intros []]|done]. split; [by intros []|].
    intros (Hne & Hnd & Hcov & Hset & Hall & Hatt). exfalso.
    apply not_true_iff_false in Hver. apply Hver. clear Hver.
    assert (Hdis : ∀ id, id ∈ cd_id <$> ds → id ∉ (∅ : gset string)) by set_solver.
    destruct (evaluate_declarations_spec identity records current
                (mkEvaluatorState ∅ ∅ ∅ ∅ 0) ds Hnd Hdis) as (Hc & Hcnt & _ & Hst).
    unfold evaluate_declarations. cbv zeta in Hc, Hcnt, Hst. rewrite Hc, Hcnt.
    cbn [ev_covered_criteria ev_required_count].
    rewrite !andb_true_iff, !bool_decide_eq_true, N.ltb_lt, forallb_forall.
    split_and!; [|by rewrite bool_decide_eq_false_2|set_solver| | |intros d Hd|done].
    + enough (vec_len (required_checks ds) ≠ 0%N) by lia.
      intros Hz%required_criteria_nil. set_solver.
    + apply evaluate_declarations_dup. done.
    + unfold matches_declarations. by rewrite bool_decide_eq_true_2.
    + apply list_elem_of_In in Hd. rewrite Forall_forall in Hall.
      pose proof (proj2 (check_status_passed _ _ _ d) (Hall d Hd)) as Hp. apply list_elem_of_filter in Hd as [_ Hd].
      rewrite bool_decide_eq_true, Hst, Hp; done.
Qed.

(** C5: What a verified proof proves.  When the evaluator accepts its inputs
    (a live authority sequence, and a snapshot of the authority that binds
    these very inputs), it mints a proof exactly when every criterion is
    covered by required checks with distinct identifiers, the checks are
    those of the plan, each required check has evidence that is assessed as
    passed, and no attention item is unresolved. *)
Theorem evaluate_verified_iff {HSha : Sha256} identity plan ds records current attention authority
    report :
  evaluate identity plan ds records current attention authority = Ok report →
  (is_Some (rep_verified report) ↔ closable identity records current plan ds attention)
  ∧ (rep_readiness report = MissionReadiness.Verified ↔ is_Some (rep_verified report))
  ∧ ∀ proof, rep_verified report = Some proof →
      seal_digest proof
      = proof_seal_digest identity current plan (as_attention_digest authority)
          (as_evidence_digest authority) (as_head_digest authority) (as_lease_digest authority)
          (as_sequence authority) (as_captured_at_millis authority)
      ∧ subject_digest proof = proof_subject_digest identity current plan
      ∧ matches_identity proof identity = true ∧ matches_closure_plan proof plan = true
      ∧ (0 < vp_authority_sequence proof)%N.
Proof. apply evaluate_verified. Qed.

(** ** A subject digest pins its subject *)

Definition identity_fields (i : ProofIdentity) : list bytes :=
  [str_bytes (pi_mission_id i); str_bytes (pi_run_id i); str_bytes (pi_repository_identity i);
   str_bytes (pi_worktree_identity i); str_bytes (pi_base_revision i)].

(** What [identity_digest] and [subject_digest_from_parts] hash *)
Definition identity_text (i : ProofIdentity) : bytes :=
  hasher_input (digest_fields (digest_new "mission-proof-identity-v1") (identity_fields i)).
Definition subject_text (parts : list string) : bytes :=
  hasher_input (digest_fields (digest_new "mission-verified-proof-subject-v1") (str_bytes <$> parts)).

Lemma identity_digest_injective {HSha : Sha256} i i' :
  Forall fits_u64 (identity_fields i) → Forall fits_u64 (identity_fields i') →
  identity_digest i = identity_digest i' → i = i' ∨ clashes (identity_text i) (identity_text i').
Proof.
  intros Hi Hi' Heq.
  apply (digest_finish_fields_inj (digest_new "mission-proof-identity-v1")
           (identity_fields i) (identity_fields i')) in Heq as [Heq|?]; [left|by right|done..].
  destruct i, i'. injection Heq as ?%str_bytes_inj ?%str_bytes_inj ?%str_bytes_inj
    ?%str_bytes_inj ?%str_bytes_inj. cbn in *. by subst.
Qed.

Lemma digest_fits `{Sha256Spec} d : fits_u64 (str_bytes (digest_finish d)).
Proof.
  unfold fits_u64. pose proof (length_digest_finish d) as Hlen. unfold str_len in Hlen.
  rewrite Hlen. done.
Qed.

Lemma subject_parts_injective {HSha : Sha256} a b c d a' b' c' d' :
  Forall (λ s, fits_u64 (str_bytes s)) [a; b; c; d] →
  Forall (λ s, fits_u64 (str_bytes s)) [a'; b'; c'; d'] →
  subject_digest_from_parts a b c d = subject_digest_from_parts a' b' c' d' →
  (a = a' ∧ b = b' ∧ c = c' ∧ d = d')
  ∨ clashes (subject_text [a; b; c; d]) (subject_text [a'; b'; c'; d']).
Proof.
  intros Hfit Hfit' Heq.
  change (digest_finish (digest_fields (digest_new "mission-verified-proof-subject-v1")
                           (str_bytes <$> [a; b; c; d]))
          = digest_finish (digest_fields (digest_new "mission-verified-proof-subject-v1")
                           (str_bytes <$> [a'; b'; c'; d']))) in Heq.
  apply digest_finish_fields_inj in Heq as [Heq|?]; [left|by right|by apply Forall_fmap..].
  injection Heq as ->%str_bytes_inj ->%str_bytes_inj ->%str_bytes_inj ->%str_bytes_inj. done.
Qed.

(** The texts hashed for the subject of a proof *)
Definition proof_texts {HSha : Sha256} (i : ProofIdentity) (w : WorkspaceSnapshot)
    (plan : ClosurePlan) : list bytes :=
  [identity_text i; workspace_text w;
   subject_text [identity_digest i; workspace_digest w; cp_checkset_digest plan;
                 cp_criteria_digest plan]].

(** A ready mission is archived for what it was approved for.  Two proofs
    with one subject digest are about the same run, the same workspace content
    and the same plan digests, or two of the texts their digests are taken of
    have one SHA-256. *)
Theorem subject_digest_pins `{Sha256Spec} i i' w w' plan plan' :
  Forall fits_u64 (identity_fields i) → Forall fits_u64 (identity_fields i') →
  keyed w → keyed w' → workspace_fits w → workspace_fits w' →
  Forall (λ s, fits_u64 (str_bytes s))
    [cp_checkset_digest plan; cp_criteria_digest plan;
     cp_checkset_digest plan'; cp_criteria_digest plan'] →
  proof_subject_digest i w plan = proof_subject_digest i' w' plan' →
  (i = i' ∧ w = w' ∧ cp_checkset_digest plan = cp_checkset_digest plan'
   ∧ cp_criteria_digest plan = cp_criteria_digest plan')
  ∨ collision_among (proof_texts i w plan ++ proof_texts i' w' plan').
Proof.
  intros Hi Hi' Hk Hk' Hw Hw' Hplan Heq. rewrite !Forall_cons in Hplan.
  destruct Hplan as (? & ? & ? & ? & _).
  apply subject_parts_injective in Heq as [(Hii & Hww & ? & ?)|Hc];
    [| |by repeat (constructor; [first [apply digest_fits|done]|])..].
  2:{ right. eapply clashes_among; [..|exact Hc]; set_solver. }
  apply identity_digest_injective in Hii as [->|Hc]; [| |done..].
  2:{ right. eapply clashes_among; [..|exact Hc]; set_solver. }
  apply workspace_digest_inj in Hww as [->|Hc]; [by left| |done..].
  right. eapply clashes_among; [..|exact Hc]; set_solver.
Qed.

(** ** Witnesses *)

Module ProofDemo.
Import EvidenceDemo.
#[local] Existing Instance demo_sha256.

Definition checks : list CheckDeclaration := [covers tests ["c1"]; optional review].
Definition plan : ClosurePlan :=
  match ClosurePlan_new ["c1"] checks with Ok p => p | Err _ => mkClosurePlan ∅ "" "" end.
Definition evidence : CommandEvidence :=
  match CommandEvidence_new (covers tests ["c1"]) identity before after 0 10 20 [report] with
  | Ok e => e
  | Err _ => passed
  end.
Definition records : gmap string EvidenceRecord := {["tests" := EvidenceRecord.Command evidence]}.
Definition authority (sequence : N) : AuthoritySnapshot :=
  {| as_identity_digest := identity_digest identity;
     as_workspace_digest := workspace_digest after;
     as_attention_digest := digest_attention ∅;
     as_evidence_digest := digest_evidence records;
     as_head_digest := "head";
     as_lease_digest := "lease";
     as_sequence := sequence;
     as_captured_at_millis := 100 |}.
Definition report : result ProofError ProofReport :=
  evaluate identity plan checks records after ∅ (authority 7).
End ProofDemo.

Lemma closure_plan_spec_witness :
  NoDup (cd_id <$> ProofDemo.checks).
Proof.
  apply (proj1 (@closure_plan_spec demo_sha256 ["c1"] ProofDemo.checks ProofDemo.plan)
           ltac:(vm_compute; reflexivity)).
Defined.

Lemma evaluate_verified_iff_witness :
  ∃ report proof, ProofDemo.report = Ok report ∧ rep_verified report = Some proof
    ∧ (0 < vp_authority_sequence proof)%N.
Proof.
  destruct ProofDemo.report as [report|] eqn:Hrep; [|vm_compute in Hrep; discriminate Hrep].
  destruct (rep_verified report) as [proof|] eqn:Hver.
  - exists report, proof. split; [reflexivity|]. split; [exact Hver|].
    apply (@evaluate_verified_iff demo_sha256 _ _ _ _ _ _ _ report Hrep). exact Hver.
  - apply (f_equal (λ r, match r with Ok r => rep_verified r | Err _ => None end)) in Hrep.
    rewrite Hver in Hrep. vm_compute in Hrep. discriminate Hrep.
Defined.

Lemma subject_digest_pins_witness :
  (EvidenceDemo.identity = EvidenceDemo.identity ∧ EvidenceDemo.after = EvidenceDemo.after
   ∧ cp_checkset_digest ProofDemo.plan = cp_checkset_digest ProofDemo.plan
   ∧ cp_criteria_digest ProofDemo.plan = cp_criteria_digest ProofDemo.plan)
  ∨ @collision_among demo_sha256
      (@proof_texts demo_sha256 EvidenceDemo.identity EvidenceDemo.after ProofDemo.plan
       ++ @proof_texts demo_sha256 EvidenceDemo.identity EvidenceDemo.after ProofDemo.plan).
Proof.
  assert (Hw : workspace_fits EvidenceDemo.after).
  { split; [apply fits_u64_dec_true; vm_compute; reflexivity|]. split; vm_compute; reflexivity. }
  apply (@subject_digest_pins demo_sha256 demo_sha256_spec
           EvidenceDemo.identity EvidenceDemo.identity EvidenceDemo.after EvidenceDemo.after
           ProofDemo.plan ProofDemo.plan).
  - apply fits_u64_dec_true. vm_compute. reflexivity.
  - apply fits_u64_dec_true. vm_compute. reflexivity.
  - exact (keyed_collect _ "" "").
  - exact (keyed_collect _ "" "").
  - exact Hw.
  - exact Hw.
  - apply (Forall_fmap str_bytes fits_u64), fits_u64_dec_true. vm_compute. reflexivity.
  - reflexivity.
Defined.
