(* ===== verification/Executor.v ===== *)
(** * Running the checks ([src/mission/executor.rs], and the results of [src/mission/verifier.rs])

    [execute_closure_cancellable] runs the command checks a mission declared,
    one after the other, and packs what they left behind.  What the host does
    for each check, the scans of the worktree before and after it and the
    result of the process, is an argument of the model, [CheckRun]. *)

From S2P Require Export Evaluator EvidencePack.

(** ** Results of a check process *)

Record TrustedCheckResult := mkTrustedCheckResult {
  tr_exit_code : option Z;
  tr_started_at_unix_millis : N;
  tr_finished_at_unix_millis : N;
  tr_duration_millis : N;
  tr_stdout : bytes;
  tr_stderr : bytes;
}.

Module TrustedCheckError.
Inductive TrustedCheckError :=
| WorktreeUnavailable
| NotGitWorktree
| WorktreeMustBeRoot
| InvalidCwd
| CwdUnavailable
| CwdEscapesWorktree
| InvalidProgram
| ProgramUnavailable
| ProgramNotExecutable
| SpawnFailed
| PipeUnavailable
| WaitFailed
| ReaderFailed
| TimedOut
| StdoutLimitExceeded
| StderrLimitExceeded
| OutputLimitExceeded
| Cancelled.
#[export] Instance eq_dec : EqDecision TrustedCheckError.
Proof. solve_decision. Defined.
End TrustedCheckError.
Export (hints) TrustedCheckError.
Abbreviation TrustedCheckError := TrustedCheckError.TrustedCheckError.

(** [impl Display for TrustedCheckError] *)
Definition check_error_to_string (e : TrustedCheckError) : string :=
  match e with
  | TrustedCheckError.WorktreeUnavailable => "check worktree is unavailable"
  | TrustedCheckError.NotGitWorktree => "check worktree is not a Git checkout"
  | TrustedCheckError.WorktreeMustBeRoot => "check worktree path must be its checkout root"
  | TrustedCheckError.InvalidCwd => "check working directory is invalid"
  | TrustedCheckError.CwdUnavailable => "check working directory is unavailable"
  | TrustedCheckError.CwdEscapesWorktree => "check working directory escapes the worktree"
  | TrustedCheckError.InvalidProgram => "check executable declaration is invalid"
  | TrustedCheckError.ProgramUnavailable => "check executable is unavailable"
  | TrustedCheckError.ProgramNotExecutable => "check executable is not executable"
  | TrustedCheckError.SpawnFailed => "check process could not be started"
  | TrustedCheckError.PipeUnavailable => "check output pipe is unavailable"
  | TrustedCheckError.WaitFailed => "check process wait failed"
  | TrustedCheckError.ReaderFailed => "check output reader failed"
  | TrustedCheckError.TimedOut => "check command timed out"
  | TrustedCheckError.StdoutLimitExceeded => "check stdout exceeded its limit"
  | TrustedCheckError.StderrLimitExceeded => "check stderr exceeded its limit"
  | TrustedCheckError.OutputLimitExceeded => "check output exceeded its limit"
  | TrustedCheckError.Cancelled => "check execution was cancelled"
  end.

(** [impl Display for EvidenceError] *)
Definition evidence_error_to_string (e : EvidenceError) : string :=
  match e with
  | EvidenceError.InvalidCheckDeclaration => "check declaration is invalid or unsafe to persist"
  | EvidenceError.ManualCheckCannotHaveCommandEvidence =>
      "manual check cannot have command evidence"
  | EvidenceError.InvalidDuration => "evidence finish timestamp precedes its start timestamp"
  | EvidenceError.ArtifactNotInWorkspace path =>
      "required artifact is not present in the verified workspace: " +:+ path
  | EvidenceError.EmptyReviewer => "manual reviewer cannot be empty"
  | EvidenceError.EmptyManualReason => "manual evidence reason cannot be empty"
  | EvidenceError.ReviewerNotAllowed => "manual reviewer or override is not allowed by this check"
  end.

(** What a check process leaves when it exits: the end of [run_check_command] *)
Definition check_result (exit_code : option Z) (started_at_unix_millis duration_millis : N)
    (stdout stderr : bytes) : TrustedCheckResult :=
  {| tr_exit_code := exit_code;
     tr_started_at_unix_millis := started_at_unix_millis;
     tr_finished_at_unix_millis := saturating_add u64_max started_at_unix_millis duration_millis;
     tr_duration_millis := duration_millis;
     tr_stdout := stdout;
     tr_stderr := stderr |}.

(** ** The executor *)

Record ClosureExecutionRequest := mkClosureExecutionRequest {
  ce_mission_id : string;
  ce_run_id : string;
  ce_repository_path : string;
  ce_worktree_path : string;
  ce_base_revision : string;
  ce_declarations : list CheckDeclaration;
}.

Module ClosureExecutionError.
Inductive ClosureExecutionError :=
| Cancelled
| Proof_ (e : ProofError)
| Verification
| Pack (e : EvidencePackError).
#[export] Instance eq_dec : EqDecision ClosureExecutionError.
Proof. solve_decision. Defined.
End ClosureExecutionError.
Export (hints) ClosureExecutionError.
Abbreviation ClosureExecutionError := ClosureExecutionError.ClosureExecutionError.

(** What the host does for one declaration: the cancellation flag before it,
    the two scans ([None] is a failure of Git) and the result of the process,
    given by its exit code, start, duration and output. *)
Record CheckRun := mkCheckRun {
  cx_cancelled : bool;
  cx_before : option WorkspaceSnapshot;
  cx_result : result TrustedCheckError (option Z * N * N * bytes * bytes);
  cx_after : option WorkspaceSnapshot;
}.

Record ExecutorState := mkExecutorState {
  xs_records : gmap string EvidenceRecord;
  xs_summaries : gmap string EvidenceStatus;
  xs_execution_logs : gmap string CheckExecutionLog;
}.
#[export] Instance ExecutorState_fields : Fields ExecutorState := λ s,
  mkExecutorState (xs_records s) (xs_summaries s) (xs_execution_logs s).

(** [Path::extension], of a normalised path *)
Definition path_extension (path : string) : option string :=
  name ← last (filter (λ c, c ≠ "") (str_split "/" path));
  match reverse (str_split "." name) with
  | extension :: (_ :: _ as stem) =>
      if bool_decide (stem = [""]) then None else Some extension
  | _ => None
  end.

(** [media_type_for_path] *)
Definition media_type_for_path (path : string) : string :=
  match to_ascii_lowercase <$> path_extension path with
  | Some "json" => "application/json"
  | Some "html" => "text/html"
  | Some "txt" | Some "md" | Some "log" => "text/plain"
  | Some "png" => "image/png"
  | Some "jpg" | Some "jpeg" => "image/jpeg"
  | Some "webp" => "image/webp"
  | Some "svg" => "image/svg+xml"
  | Some "mp4" => "video/mp4"
  | _ => "application/octet-stream"
  end.

Section executor.
Context {HSha : Sha256} `{HBase64 : Base64}.

(** [CheckExecutionLog::completed], [CheckExecutionLog::rejected] *)
Definition log_completed (r : TrustedCheckResult) (evidence_error : option string) :
    CheckExecutionLog :=
  CheckExecutionLog.Completed (tr_exit_code r) (tr_started_at_unix_millis r)
    (tr_finished_at_unix_millis r) (base64_encode (tr_stdout r)) (base64_encode (tr_stderr r))
    evidence_error.
Definition log_rejected (error : string) : CheckExecutionLog := CheckExecutionLog.Rejected error.

(** The artifacts a check requires that the scan after it found *)
Definition found_artifacts (d : CheckDeclaration) (after : WorkspaceSnapshot) : list ArtifactEvidence :=
  omap (λ required,
      (λ hash, mkArtifactEvidence (ar_path required) hash (media_type_for_path (ar_path required)))
      <$> artifact_hash after (ar_path required))
    (cd_required_artifacts d).

(** The body of the loop of [execute_closure_cancellable] *)
Definition execute_declaration (identity : ProofIdentity) (s : ExecutorState)
    (declaration_run : CheckDeclaration * CheckRun) : result ClosureExecutionError ExecutorState :=
  let '(declaration, run) := declaration_run in
  let id := cd_id declaration in
  _ ← reject_if (cx_cancelled run) ClosureExecutionError.Cancelled;
  match command_spec declaration with
  | None => Ok s
  | Some _ =>
      before ← ok_or (cx_before run) ClosureExecutionError.Verification;
      match cx_result run with
      | Err TrustedCheckError.Cancelled => Err ClosureExecutionError.Cancelled
      | Err error =>
          Ok (s <| xs_summaries ::= <[id := EvidenceStatus.Failed]> |>
                <| xs_execution_logs ::= <[id := log_rejected (check_error_to_string error)]> |>)
      | Ok (exit_code, started, duration, stdout, stderr) =>
          let r := check_result exit_code started duration stdout stderr in
          after ← ok_or (cx_after run) ClosureExecutionError.Verification;
          match CommandEvidence_new declaration identity before after
                  (default (-1)%Z (tr_exit_code r)) (tr_started_at_unix_millis r)
                  (tr_finished_at_unix_millis r) (found_artifacts declaration after) with
          | Ok evidence =>
              Ok (s <| xs_summaries ::= <[id := status_against evidence after]> |>
                    <| xs_records ::= <[id := EvidenceRecord.Command evidence]> |>
                    <| xs_execution_logs ::= <[id := log_completed r None]> |>)
          | Err error =>
              Ok (s <| xs_summaries ::= <[id := EvidenceStatus.Failed]> |>
                    <| xs_execution_logs ::=
                         <[id := log_completed r (Some (evidence_error_to_string error))]> |>)
          end
      end
  end.

(** [execute_closure_cancellable].  [runs i] is what the host does for the
    [i]-th declaration; then come the cancellation flag, the final scan and
    the time at the end. *)
Definition execute_closure_cancellable (request : ClosureExecutionRequest) (runs : nat → CheckRun)
    (cancelled : bool) (final_scan : option WorkspaceSnapshot) (now : N) :
    result ClosureExecutionError EvidencePack :=
  identity ← map_err ClosureExecutionError.Proof_
    (ProofIdentity_new (ce_mission_id request) (ce_run_id request) (ce_repository_path request)
       (ce_worktree_path request) (ce_base_revision request));
  s ← try_fold (execute_declaration identity) (mkExecutorState ∅ ∅ ∅)
        (imap (λ i declaration, (declaration, runs i)) (ce_declarations request));
  _ ← reject_if cancelled ClosureExecutionError.Cancelled;
  current ← ok_or final_scan ClosureExecutionError.Verification;
  map_err ClosureExecutionError.Pack
    (EvidencePack_new (ce_mission_id request) (ce_run_id request) identity current
       (xs_records s) (xs_summaries s) (xs_execution_logs s) now).
End executor.

(** ** One declaration *)

Lemma check_error_valid e : valid_error (check_error_to_string e) = true.
Proof. by destruct e. Qed.

Lemma str_len_app s t : str_len (s +:+ t) = (str_len s + str_len t)%N.
Proof. unfold str_len. rewrite str_bytes_app, length_app. lia. Qed.

Lemma evidence_error_valid e :
  match e with EvidenceError.ArtifactNotInWorkspace path => (str_len path ≤ 4 * 1024)%N | _ => True end →
  valid_error (evidence_error_to_string e) = true.
Proof.
  destruct e as [| | |path| | |]; try done. intros Hlen. unfold valid_error, evidence_error_to_string.
  apply andb_true_iff. split; [done|]. apply N.leb_le. rewrite str_len_app.
  change (str_len "required artifact is not present in the verified workspace: ") with 60%N. lia.
Qed.

Lemma valid_relative_short value allow_root :
  valid_relative_contract_path value allow_root = true → (str_len value ≤ 4 * 1024)%N.
Proof.
  unfold valid_relative_contract_path, normalize_contract_path. intros Hv.
  destruct (_ ← reject_if _ _; _) as [p|[]] eqn:Hn; [|done]. inv_ok. done.
Qed.

Section proofs.
Context {HSha : Sha256} `{HBase64Spec : Base64Spec}.

Lemma CommandEvidence_new_err d identity before after exit_code t0 t1 artifacts e :
  has_canonical_path_contracts d = true → command_spec d ≠ None → (t0 ≤ t1)%N →
  CommandEvidence_new d identity before after exit_code t0 t1 artifacts = Err e →
  valid_error (evidence_error_to_string e) = true.
Proof.
  intros Hcanon Hcmd Ht He. apply evidence_error_valid.
  unfold CommandEvidence_new in He. rewrite Hcanon in He. inv_err He; [done|done| |].
  - inv_ok. lia.
  - destruct e as [| | |path| | |]; try done.
    assert (Hin : ∃ a, a ∈ cd_required_artifacts d ∧ ar_path a = path).
    { revert He. clear. unfold try_iter. induction (cd_required_artifacts d) as [|a l IH]; [done|].
      cbn [try_fold]. intros He. apply bind_err in He as [He|([] & _ & He)].
      - exists a. split; [by left|]. by inv_err He; injection He as <-.
      - destruct (IH He) as (b & Hb & <-). exists b. split; [by right|done]. }
    destruct Hin as (a & Hin & <-). unfold has_canonical_path_contracts in Hcanon.
    apply andb_true_iff in Hcanon as [Hcanon _]. apply andb_true_iff in Hcanon as [_ Hcanon].
    rewrite forallb_forall in Hcanon.
    apply (valid_relative_short _ false), Hcanon. by apply list_elem_of_In.
Qed.

(** A declaration the journal accepts, run on a clock of 64 bits *)
Definition runnable (dr : CheckDeclaration * CheckRun) : Prop :=
  validate_persisted dr.1 = Ok tt
  ∧ ∀ exit_code started duration out err,
      cx_result dr.2 = Ok (exit_code, started, duration, out, err) → (started ≤ u64_max)%N.

Lemma validate_persisted_parts d :
  validate_persisted d = Ok tt →
  valid_contract_id (cd_id d) = true ∧ has_canonical_path_contracts d = true.
Proof.
  unfold validate_persisted. cbv zeta. intros Hv.
  apply bind_ok in Hv as ([] & H1 & Hv). apply bind_ok in Hv as ([] & _ & Hv).
  apply bind_ok in Hv as ([] & H3 & _). apply reject_if_ok in H1, H3.
  apply orb_false_iff in H1 as [H1 _]. by apply negb_false_iff in H1, H3.
Qed.

(** What the state of the executor keeps of the declarations [ds] so far *)
Definition executor_ok (ds : gset string) (s : ExecutorState) : Prop :=
  dom (xs_records s) ⊆ ds ∧ dom (xs_summaries s) ⊆ ds ∧ dom (xs_execution_logs s) ⊆ ds
  ∧ map_Forall (λ id r, record_check_id r = id) (xs_records s)
  ∧ map_Forall (λ _ log, valid_log log = true) (xs_execution_logs s).

Lemma log_completed_valid exit_code started duration out err evidence_error :
  (started ≤ u64_max)%N → (∀ e, evidence_error = Some e → valid_error e = true) →
  valid_log (log_completed (check_result exit_code started duration out err) evidence_error) = true.
Proof.
  intros Hs He. unfold valid_log, log_completed, check_result. cbn.
  rewrite !base64_roundtrip, !bool_decide_eq_true_2 by by eexists.
  rewrite (proj2 (N.leb_le _ _)) by (unfold saturating_add; lia). cbn [andb].
  destruct evidence_error; [by apply He|done].
Qed.

Lemma execute_declaration_cases identity s d run s' :
  execute_declaration identity s (d, run) = Ok s' →
  (command_spec d = None ∧ s' = s)
  ∨ command_spec d ≠ None
    ∧ ∃ status log records,
      s' = mkExecutorState records (<[cd_id d := status]> (xs_summaries s))
             (<[cd_id d := log]> (xs_execution_logs s))
      ∧ ((runnable (d, run) → valid_log log = true)
         ∧ (status = EvidenceStatus.Failed ∧ records = xs_records s
            ∨ ∃ before after exit_code t0 t1 artifacts e,
                cx_after run = Some after
                ∧ CommandEvidence_new d identity before after exit_code t0 t1 artifacts = Ok e
                ∧ status = status_against e after
                ∧ records = <[cd_id d := EvidenceRecord.Command e]> (xs_records s))).
Proof.
  unfold execute_declaration. intros Hs. apply bind_ok in Hs as ([] & _ & Hs).
  destruct (command_spec d) as [command|] eqn:Hcmd; [|left; by injection Hs as <-].
  right. split; [done|]. apply bind_ok in Hs as (before & _ & Hs).
  assert (Hcanon : runnable (d, run) → has_canonical_path_contracts d = true)
    by (intros [Hv _]; by apply validate_persisted_parts).
  destruct (cx_result run) as [[[[[exit_code started] duration] out] err]|error] eqn:Hr.
  - apply bind_ok in Hs as (after & Hafter%ok_or_ok & Hs). set (r := check_result _ _ _ _ _) in *.
    destruct (CommandEvidence_new _ _ _ _ _ _ _ _) as [e|e] eqn:He; injection Hs as <-.
    + exists (status_against e after), (log_completed r None),
        (<[cd_id d := EvidenceRecord.Command e]> (xs_records s)). split; [done|].
      split; [intros [_ Hu]; by apply log_completed_valid; [eapply Hu|]|].
      right. eexists _, _, _, _, _, _, e. by split_and!.
    + exists EvidenceStatus.Failed, (log_completed r (Some (evidence_error_to_string e))),
        (xs_records s). split; [done|]. split; [|by left].
      intros Hrun. pose proof Hrun as [_ Hu]. apply log_completed_valid; [by eapply Hu|].
      intros ? [= <-]. eapply CommandEvidence_new_err; [by apply Hcanon|by rewrite Hcmd| |exact He].
      cbn. specialize (Hu _ _ _ _ _ Hr). unfold saturating_add. lia.
  - assert (Hs' : s' = s <| xs_summaries ::= <[cd_id d := EvidenceStatus.Failed]> |>
                <| xs_execution_logs ::= <[cd_id d := log_rejected (check_error_to_string error)]> |>)
      by (destruct error; congruence).
    subst s'. eexists _, _, (xs_records s). split; [done|]. split; [|by left].
    intros _. apply check_error_valid.
Qed.

Lemma execute_declaration_ok identity ds s dr s' :
  runnable dr → cd_id dr.1 ∈ ds → executor_ok ds s →
  execute_declaration identity s dr = Ok s' → executor_ok ds s'.
Proof.
  destruct dr as [d run]. intros Hrun Hin (Hd1 & Hd2 & Hd3 & Hid & Hlog) Hs.
  apply execute_declaration_cases in Hs as [[_ ->]|(_ & status & log & records & -> & Hvalid & Hrec)];
    [done|]. cbn in Hin.
  assert (Hlog' : map_Forall (λ _ log, valid_log log = true) (<[cd_id d := log]> (xs_execution_logs s)))
    by (apply map_Forall_insert_2; auto).
  unfold executor_ok. cbn. rewrite !dom_insert.
  destruct Hrec as [[_ ->]|(before & after & exit_code & t0 & t1 & artifacts & e & _ & He & _ & ->)];
    [split_and!; auto; set_solver|].
  rewrite dom_insert. split_and!; auto; try set_solver.
  apply map_Forall_insert_2; [|done]. by apply CommandEvidence_new_ok in He as (_ & _ & ? & _).
Qed.

Lemma execute_declaration_err identity s dr e :
  execute_declaration identity s dr = Err e →
  e = ClosureExecutionError.Cancelled ∨ e = ClosureExecutionError.Verification.
Proof.
  destruct dr as [d run]. unfold execute_declaration. intros He. inv_err He; [by left; congruence|].
  destruct (command_spec d); [|done]. inv_err He; [by right; congruence|].
  destruct (cx_result run) as [[[[[? ?] ?] ?] ?]|error].
  - inv_err He; [by right; congruence|]. by destruct (CommandEvidence_new _ _ _ _ _ _ _ _).
  - left. destruct error; congruence.
Qed.

Lemma execute_declarations_err identity drs s e :
  try_fold (execute_declaration identity) s drs = Err e →
  e = ClosureExecutionError.Cancelled ∨ e = ClosureExecutionError.Verification.
Proof.
  revert s. induction drs as [|dr drs IH]; intros s He; [done|]. cbn [try_fold] in He.
  apply bind_err in He as [He|(s1 & _ & He)]; [by apply execute_declaration_err in He|by eapply IH].
Qed.

(** An element of the list the loop runs over *)
Lemma elem_of_runs (runs : nat → CheckRun) ds (dr : CheckDeclaration * CheckRun) :
  dr ∈ imap (λ i d, (d, runs i)) ds → dr.1 ∈ ds ∧ ∃ i, dr.2 = runs i.
Proof.
  intros (i & x & -> & Hx)%elem_of_lookup_imap_1.
  split; [by apply list_elem_of_lookup_2 in Hx|by exists i].
Qed.

Lemma executor_ok_valid mission run identity current s ds now :
  valid_pack_id mission = true → valid_pack_id run = true →
  pi_mission_id identity = mission → pi_run_id identity = run →
  length ds ≤ 32 → Forall (λ d, validate_persisted d = Ok tt) ds →
  executor_ok (list_to_set (cd_id <$> ds)) s →
  is_ok (EvidencePack_new mission run identity current (xs_records s) (xs_summaries s)
           (xs_execution_logs s) now) = true.
Proof.
  intros Hm Hr Him Hir Hlen Hvalid (Hd1 & Hd2 & Hd3 & Hid & Hlog).
  set (ids := list_to_set (C := gset string) (cd_id <$> ds)) in *.
  assert (Hsize : ∀ {A} (m : gmap string A), dom m ⊆ ids → (32 <? map_len m)%N = false).
  { intros A m Hm'. apply N.ltb_ge. unfold map_len. rewrite <- size_dom.
    apply subseteq_size in Hm'. unfold ids in Hm'.
    pose proof (size_list_to_set_le (cd_id <$> ds)) as Hs.
    rewrite length_fmap in Hs. lia. }
  assert (Hkey : ∀ {A} (m : gmap string A) id, dom m ⊆ ids → is_Some (m !! id) → valid_pack_id id = true).
  { intros A m id Hm' Hsome%elem_of_dom. apply Hm' in Hsome. unfold ids in Hsome.
    rewrite elem_of_list_to_set, list_elem_of_fmap in Hsome. destruct Hsome as (d & -> & Hin).
    rewrite Forall_forall in Hvalid. specialize (Hvalid _ Hin).
    apply validate_persisted_parts in Hvalid as [Hid' _]. exact Hid'. }
  unfold EvidencePack_new, pack_validate. cbv zeta. cbn.
  rewrite Hm, Hr, Him, Hir, !bool_decide_eq_true_2, !Hsize by done. cbn.
  rewrite !existsb_none; [done| | |].
  - intros [id log] Hin%elem_of_btree_entries. cbn.
    rewrite (Hkey _ (xs_execution_logs s)) by eauto. by rewrite (Hlog _ _ Hin).
  - intros id Hin. apply list_elem_of_fmap in Hin as ([id' st] & -> & Hin%elem_of_btree_entries).
    cbn. by rewrite (Hkey _ (xs_summaries s)) by eauto.
  - intros [id r] Hin%elem_of_btree_entries. cbn. rewrite (Hkey _ (xs_records s)) by eauto.
    by rewrite bool_decide_eq_true_2 by by apply (Hid _ _ Hin).
Qed.
End proofs.

(** ** What an execution promises *)

(** An execution is not lost to its own pack.  For a mission with valid
    identifiers and declarations the journal accepts, the executor fails only
    when it is cancelled, when Git cannot scan the worktree or when the run has
    no proof identity; in every other case, whatever the checks and their
    output were, the pack it made is valid and can be persisted. *)
Theorem execution_packs {HSha : Sha256} `{HBase64Spec : Base64Spec} request runs cancelled
    final_scan now :
  valid_pack_id (ce_mission_id request) = true → valid_pack_id (ce_run_id request) = true →
  length (ce_declarations request) ≤ 32 →
  Forall (λ d, validate_persisted d = Ok tt) (ce_declarations request) →
  (∀ i exit_code started duration out err,
     cx_result (runs i) = Ok (exit_code, started, duration, out, err) → (started ≤ u64_max)%N) →
  match execute_closure_cancellable request runs cancelled final_scan now with
  | Ok pack => pack_validate pack = Ok tt ∧ ep_created_at_millis pack = now
  | Err e => e = ClosureExecutionError.Cancelled ∨ e = ClosureExecutionError.Verification
             ∨ ∃ p, e = ClosureExecutionError.Proof_ p
  end.
Proof.
  intros Hm Hr Hlen Hvalid Hclock. unfold execute_closure_cancellable.
  destruct (ProofIdentity_new _ _ _ _ _) as [identity|p] eqn:Hident; cbn [map_err mbind result_bind];
    [|right; right; by eexists].
  assert (Him : pi_mission_id identity = ce_mission_id request ∧ pi_run_id identity = ce_run_id request)
    by (unfold ProofIdentity_new in Hident; by inv_ok).
  destruct (try_fold _ _ _) as [s|e] eqn:Hfold; cbn [mbind result_bind];
    [|apply execute_declarations_err in Hfold; tauto].
  destruct cancelled; cbn [reject_if mbind result_bind]; [by left|].
  destruct final_scan as [current|]; cbn [ok_or mbind result_bind]; [|by right; left].
  assert (Hs : executor_ok (list_to_set (cd_id <$> ce_declarations request)) s).
  { revert Hfold. apply (try_fold_ind_in (executor_ok _)).
    - unfold executor_ok. cbn [xs_records xs_summaries xs_execution_logs]. rewrite !dom_empty_L.
      split_and!; [set_solver..|apply map_Forall_empty|apply map_Forall_empty].
    - intros t dr t' [Hin [i Hi]]%elem_of_runs Ht Hstep.
      apply (execute_declaration_ok identity _ t dr); [split| |exact Ht|exact Hstep].
      + rewrite Forall_forall in Hvalid. by apply Hvalid.
      + rewrite Hi. apply Hclock.
      + apply elem_of_list_to_set, list_elem_of_fmap. by exists dr.1. }
  pose proof (executor_ok_valid _ _ identity current s _ now Hm Hr (proj1 Him) (proj2 Him) Hlen
                Hvalid Hs) as Hok.
  destruct (EvidencePack_new _ _ _ _ _ _ _ _) as [pack|e] eqn:Hpack; [|done].
  cbn [map_err]. unfold EvidencePack_new in Hpack. apply bind_ok in Hpack as ([] & Hv & Hpack).
  by injection Hpack as <-.
Qed.

Section runs.
Context {HSha : Sha256} `{HBase64Spec : Base64Spec}.

(** Declarations with other ids leave the entries of an id alone. *)
Lemma executions_elsewhere identity drs s s' id :
  Forall (λ dr : CheckDeclaration * CheckRun, cd_id dr.1 ≠ id) drs →
  try_fold (execute_declaration identity) s drs = Ok s' →
  xs_summaries s' !! id = xs_summaries s !! id ∧ xs_records s' !! id = xs_records s !! id
  ∧ xs_execution_logs s' !! id = xs_execution_logs s !! id.
Proof.
  intros Hne. rewrite Forall_forall in Hne.
  apply (try_fold_ind_in (λ t, xs_summaries t !! id = xs_summaries s !! id
    ∧ xs_records t !! id = xs_records s !! id
    ∧ xs_execution_logs t !! id = xs_execution_logs s !! id)); [done|].
  intros t [d run] t' Hin (H1 & H2 & H3) Hstep. specialize (Hne _ Hin). cbn in Hne.
  apply execute_declaration_cases in Hstep as [[_ ->]|(_ & status & log & records & -> & _ & Hrec)];
    [done|]. cbn. rewrite !lookup_insert_ne by done. split_and!; [done| |done].
  destruct Hrec as [[_ ->]|(? & ? & ? & ? & ? & ? & ? & _ & _ & _ & ->)]; [done|].
  by rewrite lookup_insert_ne.
Qed.

Lemma execution_at identity ds runs s' i d :
  NoDup (cd_id <$> ds) → ds !! i = Some d →
  try_fold (execute_declaration identity) (mkExecutorState ∅ ∅ ∅)
    (imap (λ i d, (d, runs i)) ds) = Ok s' →
  ∃ s1 s2, xs_summaries s1 !! cd_id d = None ∧ xs_records s1 !! cd_id d = None
    ∧ xs_execution_logs s1 !! cd_id d = None
    ∧ execute_declaration identity s1 (d, runs i) = Ok s2
    ∧ xs_summaries s' !! cd_id d = xs_summaries s2 !! cd_id d
    ∧ xs_records s' !! cd_id d = xs_records s2 !! cd_id d
    ∧ xs_execution_logs s' !! cd_id d = xs_execution_logs s2 !! cd_id d.
Proof.
  intros Hnd Hi Hfold. set (drs := imap (λ i d, (d, runs i)) ds) in *.
  assert (Hdr : drs !! i = Some (d, runs i)) by (unfold drs; by rewrite list_lookup_imap, Hi).
  assert (Hother : ∀ j dr, drs !! j = Some dr → j ≠ i → cd_id dr.1 ≠ cd_id d).
  { intros j dr (x & Hx & ->)%list_lookup_imap_Some Hne Heq. cbn in Heq.
    apply Hne, (NoDup_lookup _ j i (cd_id d) Hnd); rewrite list_lookup_fmap, ?Hx, ?Hi; cbn;
      by rewrite ?Heq. }
  pose proof (take_drop_middle drs i _ Hdr) as Hsplit. rewrite <- Hsplit in Hfold.
  rewrite try_fold_app in Hfold. apply bind_ok in Hfold as (s1 & H1 & Hfold).
  cbn [try_fold] in Hfold. apply bind_ok in Hfold as (s2 & H2 & H3).
  assert (Hi' : i < length drs) by (by eapply lookup_lt_Some).
  apply (executions_elsewhere _ _ _ _ (cd_id d)) in H1 as (E1 & E2 & E3).
  2:{ apply Forall_lookup. intros j dr Hj. apply lookup_take_Some in Hj as [Hj Hlt].
      apply (Hother j dr Hj). lia. }
  apply (executions_elsewhere _ _ _ _ (cd_id d)) in H3 as (E4 & E5 & E6).
  2:{ apply Forall_lookup. intros j dr Hj. rewrite lookup_drop in Hj.
      apply (Hother _ dr Hj). lia. }
  exists s1, s2. rewrite E1, E2, E3. cbn. by rewrite !lookup_empty.
Qed.
End runs.

(** The pack says what the checks showed.  For every declaration, a manual one
    has no entry at all, and a command has a summary and a log.  A command
    without a record is summarised as failed; the record of any other is of
    the scan made right after it, its summary is its status against that scan,
    and against any workspace the proof evaluator counts the record as passed
    exactly when its status there is. *)
Theorem execution_is_sound {HSha : Sha256} `{HBase64Spec : Base64Spec} request runs cancelled
    final_scan now pack i d :
  execute_closure_cancellable request runs cancelled final_scan now = Ok pack →
  NoDup (cd_id <$> ce_declarations request) → ce_declarations request !! i = Some d →
  match command_spec d with
  | None => ep_summaries pack !! cd_id d = None ∧ ep_records pack !! cd_id d = None
            ∧ ep_execution_logs pack !! cd_id d = None
  | Some _ =>
      ∃ status, ep_summaries pack !! cd_id d = Some status
        ∧ is_Some (ep_execution_logs pack !! cd_id d)
        ∧ match ep_records pack !! cd_id d with
          | None => status = EvidenceStatus.Failed
          | Some r => ∃ after e, r = EvidenceRecord.Command e ∧ cx_after (runs i) = Some after
              ∧ ce_verified_workspace e = after ∧ status = status_against e after
              ∧ ∀ current,
                  record_assess r d (ep_identity pack) current = EvidenceAssessment.Passed
                  ↔ status_against e current = EvidenceStatus.Passed
          end
  end.
Proof.
  unfold execute_closure_cancellable. intros Hx Hnd Hi.
  apply bind_ok in Hx as (identity & _ & Hx). apply bind_ok in Hx as (s & Hfold & Hx).
  apply bind_ok in Hx as ([] & _ & Hx). apply bind_ok in Hx as (current & _ & Hx).
  apply map_err_ok in Hx. unfold EvidencePack_new in Hx. apply bind_ok in Hx as ([] & _ & Hx).
  injection Hx as <-. cbn.
  destruct (execution_at _ _ _ _ _ _ Hnd Hi Hfold) as (s1 & s2 & H1 & H2 & H3 & Hstep & -> & -> & ->).
  apply execute_declaration_cases in Hstep
    as [[-> ->]|(Hcmd & status & log & records & -> & _ & Hrec)]; [done|].
  destruct (command_spec d) as [command|] eqn:Hspec; [|done]. cbn.
  exists status. rewrite !lookup_insert_eq. split_and!; [done|by eexists|].
  destruct Hrec as [[-> ->]|(before & after & exit_code & t0 & t1 & artifacts & e & Ha & He & -> & ->)];
    [by rewrite H2|].
  rewrite lookup_insert_eq. exists after, e.
  apply CommandEvidence_new_ok in He as (_ & Hman & Hid & Hdecl & Hident & _ & Hws & _).
  split_and!; try done. intros w. cbn [record_assess]. rewrite Hman. cbn [negb].
  unfold command_assess. rewrite Hid, Hdecl, Hident, !bool_decide_eq_true_2 by done. cbn [negb orb].
  destruct (status_against e w); [done| |done].
  match goal with |- context [if ?b then _ else _] => by destruct b end.
Qed.

(** ** A concrete execution *)

Section ExecutorWitnesses.
#[local] Existing Instances demo_sha256 demo_sha256_spec PackDemo.base64 PackDemo.base64_spec.

Definition demo_request : ClosureExecutionRequest :=
  mkClosureExecutionRequest "m" "r" "/repo" "/tree" "0123456789012345678901234567890123456789"
    [EvidenceDemo.tests; EvidenceDemo.review].
(** The tests pass on the workspace of the evidence examples. *)
Definition demo_run : CheckRun :=
  mkCheckRun false (Some EvidenceDemo.before) (Ok (Some 0%Z, 10, 20, str_bytes "ok", []))%N
    (Some EvidenceDemo.after).
Definition demo_execution : result ClosureExecutionError EvidencePack :=
  execute_closure_cancellable demo_request (λ _, demo_run) false (Some EvidenceDemo.after) 40.

Lemma execution_packs_witness : ∃ pack, demo_execution = Ok pack ∧ pack_validate pack = Ok tt.
Proof.
  assert (Hok : is_ok demo_execution = true) by (vm_compute; reflexivity).
  assert (H1 : valid_pack_id (ce_mission_id demo_request) = true) by (vm_compute; reflexivity).
  assert (H2 : valid_pack_id (ce_run_id demo_request) = true) by (vm_compute; reflexivity).
  assert (H3 : length (ce_declarations demo_request) ≤ 32) by (cbn; lia).
  assert (H4 : Forall (λ d, validate_persisted d = Ok tt) (ce_declarations demo_request))
    by (repeat constructor; vm_compute; reflexivity).
  assert (H5 : ∀ i exit_code started duration out err,
    cx_result ((λ _ : nat, demo_run) i) = Ok (exit_code, started, duration, out, err) →
    (started ≤ u64_max)%N).
  { intros i exit_code started duration out err Heq. injection Heq as _ <- _ _ _.
    vm_compute. discriminate. }
  pose proof (execution_packs demo_request (λ _, demo_run) false (Some EvidenceDemo.after) 40
                H1 H2 H3 H4 H5) as Hpack.
  change (execute_closure_cancellable demo_request (λ _ : nat, demo_run) false
            (Some EvidenceDemo.after) 40) with demo_execution in Hpack.
  destruct demo_execution as [pack|e]; [|discriminate Hok].
  exists pack. split; [reflexivity|exact (proj1 Hpack)].
Defined.

Lemma execution_is_sound_witness :
  ∃ pack status, demo_execution = Ok pack
    ∧ ep_summaries pack !! cd_id EvidenceDemo.tests = Some status
    ∧ ep_summaries pack !! cd_id EvidenceDemo.review = None.
Proof.
  assert (Hok : is_ok demo_execution = true) by (vm_compute; reflexivity).
  destruct demo_execution as [pack|e] eqn:Hx; [|discriminate Hok].
  assert (Hnd : NoDup (cd_id <$> ce_declarations demo_request))
    by (apply (bool_decide_unpack _); vm_compute; exact I).
  pose proof (execution_is_sound demo_request (λ _, demo_run) false (Some EvidenceDemo.after) 40
                pack 0 EvidenceDemo.tests Hx Hnd eq_refl) as (status & Hs & _).
  pose proof (execution_is_sound demo_request (λ _, demo_run) false (Some EvidenceDemo.after) 40
                pack 1 EvidenceDemo.review Hx Hnd eq_refl) as (Hr & _).
  exists pack, status. split; [reflexivity|split; [exact Hs|exact Hr]].
Defined.
End ExecutorWitnesses.
