(* ===== verification/Recipes.v ===== *)
(** * Project contracts ([src/src/project_recipe])

    A repository declares in [.nagi/project.toml] how its worktrees are set up,
    which services and checks they have and how they are cleaned up: the
    contract, its validation, and the commands it stands for; and the commands
    that a user types.  The TOML parser is the class [Toml]; what the file system
    says of the file, and what a command did, are arguments. *)

From stdpp Require Import pretty.
From S2P Require Export Chars Executor Ports.

(** ** Strings *)

Definition str_starts_with (p s : string) : bool := bool_decide (is_Some (strip_prefix p s)).
Definition str_ends_with (p s : string) : bool :=
  let n := length (str_bytes s) - length (str_bytes p) in
  bool_decide (drop n (str_bytes s) = str_bytes p) && bool_decide (length (str_bytes p) ≤ length (str_bytes s)).
Definition str_contains_any (cs : list ascii) (s : string) : bool := existsb (λ c, str_contains c s) cs.
Definition str_to_ascii_lowercase (s : string) : string :=
  str_of_bytes ((λ c, ascii_of_N (to_lower (N_of_ascii c))) <$> str_bytes s).

(** The matches of a pattern that is not empty, from the left and without
    overlap; [skip] bytes belong to a match already. *)
Fixpoint match_count (pattern s : string) (skip : nat) : nat :=
  match s with
  | EmptyString => 0
  | String _ rest =>
      match skip with
      | S skip => match_count pattern rest skip
      | O => if str_starts_with pattern s then S (match_count pattern rest (length (str_bytes pattern) - 1))
             else match_count pattern rest 0
      end
  end.

(** ** Paths

    [Path::components] on Unix *)
Module Component.
Inductive Component := RootDir | CurDir | ParentDir | Normal (part : string).
End Component.
Abbreviation Component := Component.Component.

Definition component_of (segment : string) : Component :=
  if bool_decide (segment = "..") then Component.ParentDir else Component.Normal segment.

Definition path_components (p : string) : list Component :=
  let segments := str_split "/" p in
  (if path_is_absolute p then [Component.RootDir]
   else if bool_decide (head segments = Some ".") then [Component.CurDir] else [])
  ++ (component_of <$> filter (λ w, w ≠ "" ∧ w ≠ ".") segments).

Definition path_file_name (p : string) : option string :=
  match last (path_components p) with Some (Component.Normal part) => Some part | _ => None end.

(** The loop of [recipe_validate_relative_path] and of [exact_relative_path], as the
    parts of the path it builds *)
Fixpoint normal_parts (components : list Component) : option (list string) :=
  match components with
  | [] => Some []
  | Component.Normal part :: components => cons part <$> normal_parts components
  | _ :: _ => None
  end.

(** ** Contracts ([model.rs]) *)

Definition PROJECT_SCHEMA_V1 : N := 1.

Record CommandContract := mkCommandContract { cm_command : list string; cm_timeout_seconds : N }.

Record ServiceContract := mkServiceContract {
  sv_command : list string;
  sv_port_env : string;
  sv_health : string;
  sv_timeout_seconds : N;
}.

Record CheckContract := mkCheckContract {
  ck_id : string;
  ck_command : list string;
  ck_timeout_seconds : N;
  ck_covers : list string;
}.

Record WorktreeContract := mkWorktreeContract {
  wt_location : string;
  wt_base : string;
  wt_copy_ignored : list string;
}.

Record ProjectContract := mkProjectContract {
  pc_schema : N;
  pc_worktree : WorktreeContract;
  pc_setup : option CommandContract;
  pc_services : gmap string ServiceContract;
  pc_checks : list CheckContract;
  pc_cleanup : list CommandContract;
}.

Definition WorktreeContract_default : WorktreeContract := mkWorktreeContract ".worktrees" "HEAD" [].

(** ** Validation ([validate.rs]) *)

Definition MAX_PROJECT_FILE_BYTES : N := 256 * 1024.
Definition MAX_COMMAND_ARGUMENTS : N := 128.
Definition MAX_COPY_IGNORED : N := 32.
Definition MAX_CHECKS : N := 32.
Definition MAX_SERVICES : N := 16.
Definition MAX_CLEANUP_COMMANDS : N := 16.
Definition MAX_TIMEOUT_SECONDS : N := 3600.

Module ProjectContractError.
Inductive ProjectContractError :=
  | RepositoryUnavailable
  | SymlinkNotAllowed
  | FileTooLarge
  | Read
  | Parse
  | UnsupportedSchema (actual : N)
  | InvalidWorktreeLocation (location : string)
  | InvalidWorktreeBase
  | TooManyCopiedFiles
  | InvalidCopiedPath (path : string)
  | SecretCopyRejected (path : string)
  | InvalidCommandLength (field : string)
  | InvalidCommandArgument (field : string)
  | InvalidTimeout (field : string)
  | TooManyServices
  | InvalidServiceId (id : string)
  | InvalidPortEnvironment (service value : string)
  | InvalidHealthUrl (service : string)
  | TooManyChecks
  | InvalidCheckId (id : string)
  | DuplicateCheckId (id : string)
  | InvalidCoverage (check : string)
  | TooManyCleanupCommands.
End ProjectContractError.
Abbreviation ProjectContractError := ProjectContractError.ProjectContractError.

(** [contains(['\0', '\n', '\r'])] *)
Definition has_control (s : string) : bool := str_contains_any ["000"; "010"; "013"]%char s.

Definition recipe_valid_id (value : string) : bool :=
  negb (str_is_empty value) && (str_len value <=? 128)%N
  && forallb (λ c, is_ascii_alphanumeric c || (c =? "_")%char || (c =? "-")%char || (c =? ".")%char
                   || (c =? ":")%char) (str_bytes value).

Definition is_ascii_alphabetic (c : ascii) : bool := is_upper (N_of_ascii c) || is_lower (N_of_ascii c).

Definition valid_env_name (value : string) : bool :=
  match str_bytes value with
  | [] => false
  | c :: rest =>
      (is_ascii_alphabetic c || (c =? "_")%char)
      && forallb (λ c, is_ascii_alphanumeric c || (c =? "_")%char) rest
      && (str_len value <=? 128)%N
  end.

Definition recipe_validate_relative_path (raw : string) : result unit (list string) :=
  _ ← reject_if (path_is_absolute raw || str_ends_with "/" raw || str_ends_with "\" raw) tt;
  clean ← ok_or (normal_parts (path_components raw)) tt;
  _ ← reject_if (bool_decide (clean = [])) tt;
  Ok clean.

Definition safe_env_template (name : string) : bool :=
  existsb (λ t, bool_decide (name = t) || str_ends_with t name) [".env.example"; ".env.sample"; ".env.template"].

Definition looks_secret (name : string) : bool :=
  str_starts_with ".env" name && negb (safe_env_template name)
  || bool_decide (name ∈ [".npmrc"; ".netrc"; "credentials"; "credentials.json"; "id_rsa"; "id_ed25519";
                          "secrets"; "secrets.json"])
  || existsb (λ suffix, str_ends_with suffix name) [".pem"; ".key"; ".p12"; ".pfx"].

Definition copied_file_name (raw : string) : string := default "" (path_file_name (str_to_ascii_lowercase raw)).

Definition validate_copy_path (raw : string) : result ProjectContractError unit :=
  _ ← reject_if (str_is_empty raw || (1024 <? str_len raw)%N
                 || str_contains_any ["*"; "?"; "["; "]"; "{"; "}"; "000"; "010"; "013"]%char raw
                 || negb (is_ok (recipe_validate_relative_path raw)))
        (ProjectContractError.InvalidCopiedPath raw);
  reject_if (looks_secret (copied_file_name raw)) (ProjectContractError.SecretCopyRejected raw).

Definition validate_command_parts (field : string) (command : list string) (timeout_seconds : N) :
    result ProjectContractError unit :=
  _ ← reject_if (bool_decide (command = []) || (MAX_COMMAND_ARGUMENTS <? vec_len command)%N)
        (ProjectContractError.InvalidCommandLength field);
  _ ← reject_if (existsb (λ argument, str_is_empty argument || (4096 <? str_len argument)%N || has_control argument)
                   command)
        (ProjectContractError.InvalidCommandArgument field);
  reject_if (negb ((1 <=? timeout_seconds) && (timeout_seconds <=? MAX_TIMEOUT_SECONDS))%N)
    (ProjectContractError.InvalidTimeout field).

Definition validate_command (field : string) (command : CommandContract) : result ProjectContractError unit :=
  validate_command_parts field (cm_command command) (cm_timeout_seconds command).

Definition validate_check (check : CheckContract) : result ProjectContractError unit :=
  _ ← reject_if (negb (recipe_valid_id (ck_id check))) (ProjectContractError.InvalidCheckId (ck_id check));
  _ ← validate_command_parts ("checks." +:+ ck_id check) (ck_command check) (ck_timeout_seconds check);
  reject_if ((16 <? vec_len (ck_covers check))%N
             || existsb (λ label, trim_is_empty label || (1024 <? str_len label)%N) (ck_covers check))
    (ProjectContractError.InvalidCoverage (ck_id check)).

Definition validate_service (service_id : string) (service : ServiceContract) : result ProjectContractError unit :=
  _ ← reject_if (negb (recipe_valid_id service_id)) (ProjectContractError.InvalidServiceId service_id);
  _ ← validate_command_parts ("services." +:+ service_id) (sv_command service) (sv_timeout_seconds service);
  _ ← reject_if (negb (valid_env_name (sv_port_env service)))
        (ProjectContractError.InvalidPortEnvironment service_id (sv_port_env service));
  let health := sv_health service in
  let loopback := str_starts_with "http://127.0.0.1:{port}" health
                  || str_starts_with "http://localhost:{port}" health in
  reject_if (negb loopback || negb (bool_decide (match_count "{port}" health 0 = 1)) || (2048 <? str_len health)%N
             || existsb (λ c, is_control c || is_whitespace c) (chars health))
    (ProjectContractError.InvalidHealthUrl service_id).

(** [BTreeSet::insert] of one after the other *)
Definition validate_copied (copied : gset string) (path : string) : result ProjectContractError (gset string) :=
  _ ← validate_copy_path path;
  _ ← reject_if (bool_decide (path ∈ copied)) (ProjectContractError.InvalidCopiedPath path);
  Ok ({[path]} ∪ copied).

Definition validate_listed_check (check_ids : gset string) (check : CheckContract) :
    result ProjectContractError (gset string) :=
  _ ← validate_check check;
  _ ← reject_if (bool_decide (ck_id check ∈ check_ids)) (ProjectContractError.DuplicateCheckId (ck_id check));
  Ok ({[ck_id check]} ∪ check_ids).

Definition cleanup_field (index : nat) : string := "cleanup[" +:+ pretty (N.of_nat index) +:+ "]".

Definition validate_contract (contract : ProjectContract) : result ProjectContractError unit :=
  let worktree := pc_worktree contract in
  _ ← reject_if (negb (pc_schema contract =? PROJECT_SCHEMA_V1)%N)
        (ProjectContractError.UnsupportedSchema (pc_schema contract));
  _ ← map_err (λ _, ProjectContractError.InvalidWorktreeLocation (wt_location worktree))
        (recipe_validate_relative_path (wt_location worktree));
  _ ← reject_if (trim_is_empty (wt_base worktree) || (256 <? str_len (wt_base worktree))%N
                 || has_control (wt_base worktree))
        ProjectContractError.InvalidWorktreeBase;
  _ ← reject_if (MAX_COPY_IGNORED <? vec_len (wt_copy_ignored worktree))%N ProjectContractError.TooManyCopiedFiles;
  _ ← try_fold validate_copied ∅ (wt_copy_ignored worktree);
  _ ← match pc_setup contract with Some setup => validate_command "setup" setup | None => Ok tt end;
  _ ← reject_if (MAX_SERVICES <? map_len (pc_services contract))%N ProjectContractError.TooManyServices;
  _ ← try_iter (λ s, validate_service s.1 s.2) (btree_entries String.le (pc_services contract));
  _ ← reject_if (MAX_CHECKS <? vec_len (pc_checks contract))%N ProjectContractError.TooManyChecks;
  _ ← try_fold validate_listed_check ∅ (pc_checks contract);
  _ ← reject_if (MAX_CLEANUP_COMMANDS <? vec_len (pc_cleanup contract))%N
        ProjectContractError.TooManyCleanupCommands;
  try_iter (λ c, validate_command (cleanup_field c.1) c.2) (imap pair (pc_cleanup contract)).

(** ** Loading *)

(** [toml::from_str] *)
Class Toml := toml_from_str : bytes → option ProjectContract.

(** What is at [.nagi/project.toml] of a repository: the size it reports, and
    the text when it can be read *)
Module ProjectFile.
Inductive ProjectFile :=
  | NoRepository
  | Missing
  | Unreadable
  | Symlink
  | NotRegular
  | Regular (len : N) (source : option bytes).
End ProjectFile.
Abbreviation ProjectFile := ProjectFile.ProjectFile.

Definition load_contract `{Toml} (file : ProjectFile) : result ProjectContractError (option ProjectContract) :=
  match file with
  | ProjectFile.NoRepository => Err ProjectContractError.RepositoryUnavailable
  | ProjectFile.Missing => Ok None
  | ProjectFile.Unreadable => Err ProjectContractError.Read
  | ProjectFile.Symlink => Err ProjectContractError.SymlinkNotAllowed
  | ProjectFile.NotRegular => Err ProjectContractError.Read
  | ProjectFile.Regular len source =>
      _ ← reject_if (MAX_PROJECT_FILE_BYTES <? len)%N ProjectContractError.FileTooLarge;
      source ← ok_or source ProjectContractError.Read;
      _ ← reject_if (negb (utf8_valid (N_of_ascii <$> source))) ProjectContractError.Read;
      contract ← ok_or (toml_from_str source) ProjectContractError.Parse;
      _ ← validate_contract contract;
      Ok (Some contract)
  end.

(** ** The commands of a contract ([execute.rs])

    The runner of trusted checks, with the time it is given, is an argument. *)

Record ProjectCommandResult := mkProjectCommandResult {
  pr_id : string;
  pr_exit_code : option Z;
  pr_duration_millis : N;
  pr_stdout : string;
  pr_stderr : string;
}.

Definition from_trusted (id : string) (r : TrustedCheckResult) : ProjectCommandResult :=
  mkProjectCommandResult id (tr_exit_code r) (N.min (tr_duration_millis r) (2 ^ 64 - 1))
    (from_utf8_lossy (tr_stdout r)) (from_utf8_lossy (tr_stderr r)).

Definition succeeded (r : ProjectCommandResult) : bool := bool_decide (pr_exit_code r = Some 0%Z).

Section execute.
Context (run : N → CommandSpec → result TrustedCheckError TrustedCheckResult).

(** [None] is the panic of [expect]. *)
Definition run_parts (id : string) (command : list string) (timeout_seconds : N) :
    option (result TrustedCheckError ProjectCommandResult) :=
  match command with
  | [] => None
  | program :: args =>
      Some (r ← run timeout_seconds (CommandSpec_new program args "."); Ok (from_trusted id r))
  end.

Definition run_setup (setup : CommandContract) := run_parts "setup" (cm_command setup) (cm_timeout_seconds setup).
Definition run_check (check : CheckContract) :=
  run_parts (ck_id check) (ck_command check) (ck_timeout_seconds check).
Definition run_cleanup (index : nat) (cleanup : CommandContract) :=
  run_parts (cleanup_field index) (cm_command cleanup) (cm_timeout_seconds cleanup).
End execute.

(** ** The command that is proposed ([mod.rs]) *)

Module RecipeConfidence.
Inductive RecipeConfidence := ProjectTest | BaselineOnly.
End RecipeConfidence.
Abbreviation RecipeConfidence := RecipeConfidence.RecipeConfidence.

Record ProjectRecipe := mkProjectRecipe {
  rp_id : string;
  rp_label : string;
  rp_command_line : string;
  rp_confidence : RecipeConfidence;
}.

Definition recipe (id label command_line : string) (confidence : RecipeConfidence) : ProjectRecipe :=
  mkProjectRecipe id label command_line confidence.

(** [serde_json::from_slice] of [package.json], and the string at [scripts.test] *)
Class PackageJson := test_script_of : bytes → option string.

(** Of a repository: which names are files, and what [package.json] holds *)
Record RecipeFiles := mkRecipeFiles { rf_is_file : string → bool; rf_package_json : option bytes }.

Definition package_has_test_script `{PackageJson} (repository : RecipeFiles) : bool :=
  match (package ← rf_package_json repository; test_script_of package) with
  | Some script =>
      let normalized := string_of_chars (trim (chars script)) in
      negb (str_is_empty normalized)
      && (match_count "Error: no test specified" normalized 0 =? 0)%nat
      && negb (bool_decide (normalized = "exit 1"))
  | None => false
  end.

Definition detect_recipe `{PackageJson} (repository : RecipeFiles) : ProjectRecipe :=
  let is_file := rf_is_file repository in
  if is_file "Cargo.toml" then recipe "rust" "Rust" "cargo test" RecipeConfidence.ProjectTest
  else if is_file "go.mod" then recipe "go" "Go" "go test ./..." RecipeConfidence.ProjectTest
  else if is_file "build.zig" then recipe "zig" "Zig" "zig build test" RecipeConfidence.ProjectTest
  else if is_file "pyproject.toml" || is_file "pytest.ini" || is_file "setup.cfg" then
    recipe "python" "Python" "python -m pytest" RecipeConfidence.ProjectTest
  else if is_file "package.json" && package_has_test_script repository then
    let '(id, label, command) :=
      if is_file "bun.lock" || is_file "bun.lockb" then ("bun", "Bun", "bun test")
      else if is_file "pnpm-lock.yaml" then ("pnpm", "pnpm", "pnpm test")
      else if is_file "yarn.lock" then ("yarn", "Yarn", "yarn test")
      else ("npm", "npm", "npm test") in
    recipe id label command RecipeConfidence.ProjectTest
  else recipe "git-baseline" "Git baseline" "git diff --check" RecipeConfidence.BaselineOnly.

(** ** Commands that are typed ([mod.rs]) *)

Record WordParser := mkWordParser {
  wp_words : list string;
  wp_word : string;
  wp_quote : option N;
  wp_escaped : bool;
}.

Definition push_char (w : string) (c : N) : string := w +:+ string_of_chars [c].

(** The turn of the loop of [parse_command_line]: 92 is the backslash, 39 and 34
    are the quotes. *)
Definition parse_char (s : WordParser) (c : N) : WordParser :=
  let '(mkWordParser words word quote escaped) := s in
  if escaped then mkWordParser words (push_char word c) quote false
  else if (c =? 92)%N then mkWordParser words word quote true
  else
    match quote with
    | Some active_quote =>
        if (c =? active_quote)%N then mkWordParser words word None false
        else mkWordParser words (push_char word c) quote false
    | None =>
        if (c =? 39)%N || (c =? 34)%N then mkWordParser words word (Some c) false
        else if is_whitespace c then
          if str_is_empty word then s else mkWordParser (words ++ [word]) "" None false
        else mkWordParser words (push_char word c) None false
    end.

Definition shell_operators : list string := ["|"; "||"; "&&"; ";"; ">"; ">>"; "<"; "2>"; "2>&1"].

Definition parse_command_line (input : string) : result string (string * list string) :=
  let '(mkWordParser words word quote escaped) :=
    foldl parse_char (mkWordParser [] "" None false) (trim (chars input)) in
  _ ← reject_if (escaped || bool_decide (is_Some quote)) "proof command has an unfinished quote or escape";
  let words := if str_is_empty word then words else words ++ [word] in
  match words with
  | [] => Err "proof command cannot be empty"
  | program :: args =>
      _ ← reject_if (existsb (λ w, bool_decide (w ∈ shell_operators)) words)
            "proof commands use argv only; shell operators are not allowed";
      Ok (program, args)
  end.

(** ** Writing commands

    [quoted_line] writes words between single quotes, with a backslash before
    every quote and backslash. *)

Definition quote_char (c : N) : list N := if (c =? 39)%N || (c =? 92)%N then [92; c]%N else [c].
Definition quote_word (w : list N) : list N := 39%N :: (w ≫= quote_char) ++ [39%N].
Fixpoint quoted_words (ws : list (list N)) : list N :=
  match ws with
  | [] => []
  | [w] => quote_word w
  | w :: ws => quote_word w ++ 32%N :: quoted_words ws
  end.
Definition quoted_line (ws : list (list N)) : string := string_of_chars (quoted_words ws).

Lemma push_char_app cs c : push_char (string_of_chars cs) c = string_of_chars (cs ++ [c]).
Proof. by rewrite string_of_chars_app. Qed.

Lemma encode_utf8_ne c : encode_utf8 c ≠ [].
Proof. unfold encode_utf8. by repeat case_match. Qed.

Lemma string_of_chars_ne cs : cs ≠ [] → string_of_chars cs ≠ "".
Proof.
  destruct cs as [|c cs]; [done|]. intros _ Heq. apply (f_equal str_bytes) in Heq.
  unfold string_of_chars in Heq. rewrite str_of_to_bytes in Heq. cbn in Heq.
  apply app_eq_nil in Heq as [Heq _]. by apply encode_utf8_ne in Heq.
Qed.

Lemma parse_quoted words cs ds :
  foldl parse_char (mkWordParser words (string_of_chars cs) (Some 39%N) false) (ds ≫= quote_char)
  = mkWordParser words (string_of_chars (cs ++ ds)) (Some 39%N) false.
Proof.
  revert cs. induction ds as [|d ds IH]; intros cs; [by rewrite app_nil_r|].
  cbn [mbind list_bind]. rewrite foldl_app. replace (cs ++ d :: ds) with ((cs ++ [d]) ++ ds) by (by rewrite <- app_assoc).
  rewrite <- IH. f_equal. rewrite <- push_char_app. unfold quote_char.
  destruct (N.eqb_spec d 39) as [->|]; [done|]. destruct (N.eqb_spec d 92) as [->|]; [done|].
  cbn [orb foldl parse_char]. by rewrite (proj2 (N.eqb_neq d 92)), (proj2 (N.eqb_neq d 39)).
Qed.

Lemma parse_word words w :
  foldl parse_char (mkWordParser words "" None false) (quote_word w)
  = mkWordParser words (string_of_chars w) None false.
Proof.
  unfold quote_word. cbn [foldl parse_char N.eqb Pos.eqb orb].
  change "" with (string_of_chars []). by rewrite foldl_app, parse_quoted.
Qed.

Lemma parse_words words ws w :
  Forall (λ w, w ≠ []) (ws ++ [w]) →
  foldl parse_char (mkWordParser words "" None false) (quoted_words (ws ++ [w]))
  = mkWordParser (words ++ (string_of_chars <$> ws)) (string_of_chars w) None false.
Proof.
  revert words. induction ws as [|v ws IH]; intros words Hws.
  { cbn [app quoted_words fmap list_fmap]. by rewrite parse_word, app_nil_r. }
  inversion_clear Hws as [|?? Hv Hws'].
  assert (quoted_words ((v :: ws) ++ [w]) = quote_word v ++ 32%N :: quoted_words (ws ++ [w])) as -> by (by destruct ws).
  rewrite foldl_app, parse_word. cbn [foldl parse_char N.eqb Pos.eqb orb].
  change (is_whitespace 32) with true. cbn [andb]. unfold str_is_empty.
  rewrite bool_decide_eq_false_2 by (by apply string_of_chars_ne). rewrite IH by done.
  f_equal. cbn [fmap list_fmap]. by rewrite <- app_assoc.
Qed.

Lemma quoted_words_ends ws w : ∃ mid, quoted_words (ws ++ [w]) = 39%N :: mid ++ [39%N].
Proof.
  induction ws as [|v ws (mid & IH)]; [by exists (w ≫= quote_char)|].
  exists ((v ≫= quote_char) ++ [39; 32; 39]%N ++ mid).
  assert (quoted_words ((v :: ws) ++ [w]) = quote_word v ++ 32%N :: quoted_words (ws ++ [w])) as -> by (by destruct ws).
  rewrite IH. unfold quote_word. cbn [app]. by rewrite <- !app_assoc.
Qed.

Lemma quoted_words_chars ws :
  Forall (Forall (λ c, is_char c = true)) ws → Forall (λ c, is_char c = true) (quoted_words ws).
Proof.
  assert (Hq : ∀ w, Forall (λ c, is_char c = true) w → Forall (λ c, is_char c = true) (quote_word w)).
  { intros w Hw. constructor; [done|]. apply Forall_app. split; [|by constructor].
    apply Forall_bind. eapply Forall_impl; [exact Hw|]. intros c Hc. unfold quote_char, compose; cbv beta in *.
    destruct ((c =? 39)%N || (c =? 92)%N); by repeat constructor. }
  induction 1 as [|w [|v ws] Hw Hws IH]; [done|cbn; by apply Hq|].
  change (Forall (λ c, is_char c = true) (quote_word w ++ 32%N :: quoted_words (v :: ws))).
  apply Forall_app. split; [by apply Hq|]. by constructor.
Qed.

(** The words of the parser are never empty. *)
Definition parser_ok (s : WordParser) : Prop :=
  Forall (λ w, ∃ cs, cs ≠ [] ∧ Forall (λ c, is_char c = true) cs ∧ w = string_of_chars cs) (wp_words s)
  ∧ ∃ cs, Forall (λ c, is_char c = true) cs ∧ wp_word s = string_of_chars cs.

Lemma parse_char_ok s c : is_char c = true → parser_ok s → parser_ok (parse_char s c).
Proof.
  destruct s as [words word quote escaped]. intros Hc (Hwords & cs & Hcs & Hword). cbn in *. subst word.
  assert (Hpush : ∃ ds, Forall (λ c, is_char c = true) ds ∧ push_char (string_of_chars cs) c = string_of_chars ds).
  { exists (cs ++ [c]). rewrite push_char_app. split; [|done]. apply Forall_app. split; [done|by repeat constructor]. }
  assert (Hkeep : ∃ ds, Forall (λ c, is_char c = true) ds ∧ string_of_chars cs = string_of_chars ds) by eauto.
  unfold parse_char. repeat case_match; (split; [|done || exists []; done]); try done.
  apply Forall_app. split; [done|]. constructor; [|done]. exists cs. split; [|done].
  intros ->. discriminate.
Qed.

Lemma trim_forall (P : N → Prop) cs : Forall P cs → Forall P (trim cs).
Proof.
  assert (Hstart : ∀ ds, Forall P ds → Forall P (trim_start ds)).
  { intros ds Hds. destruct (trim_start_suffix ds) as (ps & Heq & _). rewrite Heq in Hds.
    by apply Forall_app in Hds as [_ ?]. }
  intros Hcs. unfold trim. apply Forall_reverse, Hstart, Forall_reverse, Hstart, Hcs.
Qed.

Lemma parse_all_ok s cs : Forall (λ c, is_char c = true) cs → parser_ok s → parser_ok (foldl parse_char s cs).
Proof. intros Hcs. revert s. induction Hcs; intros s Hs; cbn; eauto using parse_char_ok. Qed.

Lemma quoted_line_chars ws :
  Forall (Forall (λ c, is_char c = true)) ws → chars (quoted_line ws) = quoted_words ws.
Proof. intros Hws. by apply chars_string_of_chars, quoted_words_chars. Qed.

Lemma trim_quoted mid : trim (39%N :: mid ++ [39%N]) = 39%N :: mid ++ [39%N].
Proof.
  unfold trim. change (trim_start (39%N :: mid ++ [39%N])) with (39%N :: mid ++ [39%N]).
  rewrite reverse_cons, reverse_snoc. cbn [app].
  change (trim_start (39%N :: reverse mid ++ [39%N])) with (39%N :: reverse mid ++ [39%N]).
  by rewrite reverse_cons, reverse_snoc, reverse_involutive.
Qed.

Lemma existsb_operators ws :
  existsb (λ w, bool_decide (w ∈ shell_operators)) ws = false ↔ Forall (λ w, w ∉ shell_operators) ws.
Proof.
  induction ws as [|w ws IH]; [by split|]. cbn [existsb]. by rewrite orb_false_iff, Forall_cons, IH, bool_decide_eq_false.
Qed.

Definition typed_word (w : list N) : Prop :=
  w ≠ [] ∧ Forall (λ c, is_char c = true) w ∧ string_of_chars w ∉ shell_operators.
Definition accepted_word (w : string) : Prop := ∃ cs, typed_word cs ∧ w = string_of_chars cs.

(** What is proposed for a repository is words already. *)
Lemma detected_commands_are_words `{PackageJson} (repository : RecipeFiles) :
  ∃ program args, rp_command_line (detect_recipe repository) = str_join " " (program :: args)
    ∧ parse_command_line (rp_command_line (detect_recipe repository)) = Ok (program, args).
Proof.
  assert (Hread : ∀ line program args, parse_command_line line = Ok (program, args) → line = str_join " " (program :: args) →
            ∃ program args, line = str_join " " (program :: args) ∧ parse_command_line line = Ok (program, args)) by eauto.
  unfold detect_recipe. repeat case_match; simplify_eq; cbn [recipe rp_command_line];
    (eapply Hread; [vm_compute; reflexivity|reflexivity]).
Qed.

(** what is typed is what runs.  A program and its arguments, written between
    single quotes with a backslash before every quote and backslash, are parsed
    back to themselves whatever characters they contain; and what the parser
    accepts are such words: the program and the arguments of an accepted command
    are never empty and never one of the shell's operators, so that a line is run
    as the words it shows or refused. The command that is proposed for a
    repository is accepted as the words between its spaces. *)
Theorem typed_commands_are_argv `{PackageJson} :
  (∀ program args,
     Forall typed_word (program :: args) →
     parse_command_line (quoted_line (program :: args)) = Ok (string_of_chars program, string_of_chars <$> args))
  ∧ (∀ input program args,
       Forall (λ c, is_char c = true) (chars input) →
       parse_command_line input = Ok (program, args) → Forall accepted_word (program :: args))
  ∧ (∀ repository, ∃ program args,
       rp_command_line (detect_recipe repository) = str_join " " (program :: args)
       ∧ parse_command_line (rp_command_line (detect_recipe repository)) = Ok (program, args)).
Proof.
  split; [|split; [|apply detected_commands_are_words]].
  - intros program args Hws. unfold parse_command_line. rewrite quoted_line_chars.
    2: { eapply Forall_impl; [exact Hws|]. by intros w (_ & ? & _). }
    destruct (exists_last (l := program :: args) ltac:(done)) as (ws & w & Heq). rewrite Heq in *.
    destruct (quoted_words_ends ws w) as (mid & Hmid). rewrite Hmid, trim_quoted, <- Hmid.
    rewrite parse_words by (eapply Forall_impl; [exact Hws|]; by intros v (? & _)).
    cbn [app orb bool_decide]. rewrite bool_decide_eq_false_2 by (by intros [? ?]). cbn [reject_if mbind result_bind].
    apply Forall_app in Hws as Hw. destruct Hw as [_ Hw]. apply List.Forall_inv in Hw.
    unfold str_is_empty. rewrite bool_decide_eq_false_2 by (apply string_of_chars_ne, Hw).
    change [string_of_chars w] with (string_of_chars <$> [w]). rewrite <- fmap_app, <- Heq.
    rewrite <- Heq in Hws. cbn [fmap list_fmap].
    rewrite (proj2 (existsb_operators _)); [done|].
    change (Forall (λ w, w ∉ shell_operators) (string_of_chars <$> program :: args)).
    apply Forall_fmap. eapply Forall_impl; [exact Hws|]. by intros v (_ & _ & ?).
  - intros input program args Hin. unfold parse_command_line.
    pose proof (parse_all_ok (mkWordParser [] "" None false) (trim (chars input)) (trim_forall _ _ Hin)) as Hok.
    destruct (foldl _ _ _) as [words word quote escaped].
    destruct Hok as (Hwords & cs & Hcs & Hword); [split; [constructor|by exists []]|]. cbn in Hwords, Hword.
    intros Hparse. apply bind_ok in Hparse as (_ & _ & Hparse).
    set (all := if str_is_empty word then words else words ++ [word]) in *.
    assert (Hall : Forall (λ w, ∃ cs, cs ≠ [] ∧ Forall (λ c, is_char c = true) cs ∧ w = string_of_chars cs) all).
    { unfold all, str_is_empty. case_bool_decide as Hne; [done|]. apply Forall_app. split; [done|].
      constructor; [|done]. exists cs. split; [|done]. intros ->. by apply Hne. }
    destruct all as [|p all]; [done|]. apply bind_ok in Hparse as ([] & Hops & [= <- <-]).
    apply reject_if_ok, existsb_operators in Hops.
    apply Forall_forall. intros w Hw. rewrite Forall_forall in Hall, Hops.
    destruct (Hall w Hw) as (ds & ? & ? & ->). exists ds. split; [|done]. split_and!; [done..|]. by apply Hops.
Qed.

Lemma Forall_forallb {A} (f : A → bool) l : forallb f l = true → Forall (λ x, f x = true) l.
Proof. rewrite forallb_forall, Forall_forall. intros Hf x Hx. by apply Hf, list_elem_of_In. Qed.

Lemma operator_free w : existsb (String.eqb w) shell_operators = false → w ∉ shell_operators.
Proof.
  intros Hw Hin. apply not_true_iff_false in Hw. apply Hw, existsb_exists. exists w.
  split; [by apply list_elem_of_In|apply String.eqb_refl].
Qed.

Module ParserDemo.
Definition words (line : list string) : list (list N) := (λ w, N_of_ascii <$> str_bytes w) <$> line.
#[local] Instance any_package : PackageJson := λ _, Some "vitest run".

(** An empty argument in quotes is dropped, and the space of an escape at the end
    is trimmed away before it is read. *)
Example empty_argument_is_dropped :
  parse_command_line "grep -e '' notes" = Ok ("grep", ["-e"; "notes"])
  ∧ parse_command_line "ls my\ " = Err "proof command has an unfinished quote or escape".
Proof. split; vm_compute; reflexivity. Qed.

Lemma typed_commands_are_argv_witness :
  quoted_line (words ["cargo"; "it's; done"; "&& more"]) = "'cargo' 'it\'s; done' '&& more'"
  ∧ parse_command_line (quoted_line (words ["cargo"; "it's; done"; "&& more"]))
    = Ok (string_of_chars (N_of_ascii <$> str_bytes "cargo"), string_of_chars <$> words ["it's; done"; "&& more"])
  ∧ Forall accepted_word ["cargo"; "test"; "nagi core"].
Proof.
  pose proof (typed_commands_are_argv (H := any_package)) as (Hquoted & Haccepted & _).
  split; [vm_compute; reflexivity|split].
  - apply Hquoted. repeat apply List.Forall_cons; try apply List.Forall_nil;
      (split; [done|split; [apply Forall_forallb; vm_compute; reflexivity|by apply operator_free]]).
  - apply (Haccepted "cargo test 'nagi core'"); [|vm_compute; reflexivity].
    apply Forall_forallb. vm_compute. reflexivity.
Defined.
End ParserDemo.

(** ** Contracts that are well formed *)

Record argv_ok (command : list string) (timeout_seconds : N) : Prop := mkArgvOk {
  ao_program : command ≠ [];
  ao_count : length command ≤ 128;
  ao_arguments : Forall (λ a, a ≠ "" ∧ (str_len a ≤ 4096)%N ∧ has_control a = false) command;
  ao_timeout : (1 ≤ timeout_seconds ≤ 3600)%N;
}.

(** An exact path below the checkout: nothing but names between the slashes,
    and a last name that is not one of a secret. *)
Definition plain_name (part : string) : Prop := part ∉ [""; "."; ".."] ∧ "/"%char ∉ str_bytes part.
Definition below_checkout (raw : string) (parts : list string) : Prop :=
  normal_parts (path_components raw) = Some parts ∧ parts ≠ [] ∧ Forall plain_name parts.

Record copy_ok (raw : string) : Prop := mkCopyOk {
  co_length : (str_len raw ≤ 1024)%N;
  co_pattern : str_contains_any ["*"; "?"; "["; "]"; "{"; "}"; "000"; "010"; "013"]%char raw = false;
  co_file : str_ends_with "/" raw = false ∧ str_ends_with "\" raw = false;
  co_below : ∃ parts, below_checkout raw parts
    ∧ ∀ name, last parts = Some name → looks_secret (str_to_ascii_lowercase name) = false;
}.

Record check_ok (check : CheckContract) : Prop := mkCheckOk {
  ko_id : recipe_valid_id (ck_id check) = true;
  ko_argv : argv_ok (ck_command check) (ck_timeout_seconds check);
  ko_covers : length (ck_covers check) ≤ 16
    ∧ Forall (λ l, trim_is_empty l = false ∧ (str_len l ≤ 1024)%N) (ck_covers check);
}.

Record service_ok (id : string) (service : ServiceContract) : Prop := mkServiceOk {
  so_id : recipe_valid_id id = true;
  so_argv : argv_ok (sv_command service) (sv_timeout_seconds service);
  so_env : valid_env_name (sv_port_env service) = true;
  so_health : ∃ rest, sv_health service ∈ ["http://127.0.0.1:{port}" +:+ rest; "http://localhost:{port}" +:+ rest];
  so_health_port : match_count "{port}" (sv_health service) 0 = 1;
  so_health_text : (str_len (sv_health service) ≤ 2048)%N
    ∧ Forall (λ c, is_control c = false ∧ is_whitespace c = false) (chars (sv_health service));
}.

Record contract_ok (c : ProjectContract) : Prop := mkContractOk {
  po_schema : pc_schema c = 1%N;
  po_location : str_ends_with "/" (wt_location (pc_worktree c)) = false
    ∧ str_ends_with "\" (wt_location (pc_worktree c)) = false
    ∧ ∃ parts, below_checkout (wt_location (pc_worktree c)) parts;
  po_base : trim_is_empty (wt_base (pc_worktree c)) = false ∧ (str_len (wt_base (pc_worktree c)) ≤ 256)%N
    ∧ has_control (wt_base (pc_worktree c)) = false;
  po_copied : length (wt_copy_ignored (pc_worktree c)) ≤ 32 ∧ NoDup (wt_copy_ignored (pc_worktree c))
    ∧ Forall copy_ok (wt_copy_ignored (pc_worktree c));
  po_setup : ∀ setup, pc_setup c = Some setup → argv_ok (cm_command setup) (cm_timeout_seconds setup);
  po_services : size (pc_services c) ≤ 16 ∧ map_Forall service_ok (pc_services c);
  po_checks : length (pc_checks c) ≤ 32 ∧ NoDup (ck_id <$> pc_checks c) ∧ Forall check_ok (pc_checks c);
  po_cleanup : length (pc_cleanup c) ≤ 16
    ∧ Forall (λ cm, argv_ok (cm_command cm) (cm_timeout_seconds cm)) (pc_cleanup c);
}.

(** *** Each validation is its condition *)

Lemma str_is_empty_false s : str_is_empty s = false ↔ s ≠ "".
Proof. apply bool_decide_eq_false. Qed.

Lemma existsb_Forall {A} (f : A → bool) l : existsb f l = false ↔ Forall (λ x, f x = false) l.
Proof. induction l as [|x l IH]; [by split|]. cbn. by rewrite orb_false_iff, Forall_cons, IH. Qed.

Lemma vec_len_ltb {A} (n : nat) (l : list A) : (N.of_nat n <? vec_len l)%N = false ↔ length l ≤ n.
Proof. unfold vec_len. rewrite N.ltb_ge. lia. Qed.

Lemma validate_command_parts_ok field command timeout_seconds :
  validate_command_parts field command timeout_seconds = Ok tt ↔ argv_ok command timeout_seconds.
Proof.
  unfold validate_command_parts. rewrite bind_ok.
  split.
  - intros ([] & Hlen & Hrest). apply bind_ok in Hrest as ([] & Hargs & Htime).
    apply reject_if_ok in Hlen, Hargs, Htime. apply orb_false_iff in Hlen as [Hne Hlen].
    apply negb_false_iff, andb_true_iff in Htime as [?%N.leb_le ?%N.leb_le].
    constructor; [by apply bool_decide_eq_false in Hne|by apply (vec_len_ltb 128) in Hlen| |done].
    apply existsb_Forall in Hargs. eapply Forall_impl; [exact Hargs|]. cbn.
    intros a [[Ha Hl]%orb_false_iff Hc]%orb_false_iff. apply str_is_empty_false in Ha. apply N.ltb_ge in Hl. done.
  - intros [Hne Hlen Hargs [? ?]]. exists tt. rewrite bind_ok. rewrite reject_if_ok. split.
    { apply orb_false_iff. split; [by apply bool_decide_eq_false|by apply (vec_len_ltb 128)]. }
    exists tt. rewrite !reject_if_ok. split.
    + apply existsb_Forall. eapply Forall_impl; [exact Hargs|]. cbn. intros a (Ha & Hl & Hc).
      by rewrite (proj2 (str_is_empty_false a) Ha), (proj2 (N.ltb_ge _ _) Hl).
    + by rewrite !(proj2 (N.leb_le _ _)).
Qed.

(** *** Paths *)

Lemma normal_parts_fmap parts : normal_parts (Component.Normal <$> parts) = Some parts.
Proof. induction parts as [|p parts IH]; [done|]. cbn. by rewrite IH. Qed.

Lemma normal_parts_some components parts :
  normal_parts components = Some parts → components = Component.Normal <$> parts.
Proof.
  revert parts. induction components as [|c components IH]; intros parts; [by intros [= <-]|].
  destruct c; cbn; try done. destruct (normal_parts components) as [ps|]; [|done].
  intros [= <-]. cbn. by rewrite (IH ps).
Qed.

Lemma component_of_normal w part : component_of w = Component.Normal part → w = part ∧ w ≠ "..".
Proof. unfold component_of. case_bool_decide; naive_solver. Qed.

(** A path that [normal_parts] accepts is its names. *)
Lemma normal_parts_plain raw parts :
  normal_parts (path_components raw) = Some parts → Forall plain_name parts.
Proof.
  intros Hcs%normal_parts_some. apply Forall_forall. intros part Hpart.
  assert (Hin : Component.Normal part ∈ path_components raw) by (rewrite Hcs; by apply list_elem_of_fmap_2).
  unfold path_components in Hin. apply elem_of_app in Hin as [Hin|Hin].
  { repeat case_match; apply list_elem_of_singleton in Hin || apply not_elem_of_nil in Hin; done. }
  apply list_elem_of_fmap in Hin as (w & Hw & [[Hne Hdot] Hin]%list_elem_of_filter).
  symmetry in Hw. apply component_of_normal in Hw as [-> Hdots].
  split; [|by eapply Forall_forall in Hin; [|apply str_split_no_sep]].
  rewrite !not_elem_of_cons. split_and!; [done..|]. apply not_elem_of_nil.
Qed.

Definition lower_byte (c : ascii) : ascii := ascii_of_N (to_lower (N_of_ascii c)).

Lemma lower_cons c s : str_to_ascii_lowercase (String c s) = String (lower_byte c) (str_to_ascii_lowercase s).
Proof. reflexivity. Qed.

Lemma lower_byte_separator c d : c ∈ ["/"; "."]%char → lower_byte d = c ↔ d = c.
Proof.
  intros Hc. destruct d as [[] [] [] [] [] [] [] []]; repeat (apply elem_of_cons in Hc as [->|Hc]; [by vm_compute|]);
    by apply not_elem_of_nil in Hc.
Qed.

Lemma lower_split s : str_split "/" (str_to_ascii_lowercase s) = str_to_ascii_lowercase <$> str_split "/" s.
Proof.
  induction s as [|c s IH]; [done|]. rewrite lower_cons. cbn [str_split]. rewrite IH.
  pose proof (str_split_ne "/" s) as Hne. pose proof (lower_byte_separator "/" c ltac:(by left)) as Hsep.
  case_bool_decide as H1; case_bool_decide as H2; [done|exfalso; apply H2; naive_solver|exfalso; apply H1; naive_solver|].
  by destruct (str_split "/" s).
Qed.

Lemma lower_dots t s : t ∈ [""; "."; ".."] → str_to_ascii_lowercase s = t ↔ s = t.
Proof.
  pose proof (λ c, lower_byte_separator "." c ltac:(by right; left)) as Hdot.
  assert (Hnil : ∀ s, str_to_ascii_lowercase s = "" ↔ s = "") by (by intros []).
  assert (Hone : ∀ s, str_to_ascii_lowercase s = "." ↔ s = ".").
  { intros [|c s']; [done|]. rewrite lower_cons. split.
    - intros [= ->%Hdot ->%Hnil]. done.
    - intros [= -> ->]. done. }
  intros Ht. repeat (apply elem_of_cons in Ht as [->|Ht]); [done..| |by apply not_elem_of_nil in Ht].
  destruct s as [|c s']; [done|]. rewrite lower_cons. split.
  - intros [= ->%Hdot ->%Hone]. done.
  - intros [= -> ->]. done.
Qed.

Definition lower_component (c : Component) : Component :=
  match c with Component.Normal part => Component.Normal (str_to_ascii_lowercase part) | c => c end.

Lemma lower_components s : path_components (str_to_ascii_lowercase s) = lower_component <$> path_components s.
Proof.
  unfold path_components. rewrite fmap_app, lower_split. f_equal.
  - assert (path_is_absolute (str_to_ascii_lowercase s) = path_is_absolute s) as ->.
    { destruct s as [|c s]; [done|]. rewrite lower_cons. unfold path_is_absolute. cbn.
      apply bool_decide_ext. pose proof (lower_byte_separator "/" c ltac:(by left)). naive_solver. }
    destruct (path_is_absolute s); [done|]. destruct (str_split "/" s) as [|w ws]; [done|]. cbn.
    rewrite (bool_decide_ext (Some (str_to_ascii_lowercase w) = Some ".") (Some w = Some ".")); [by case_bool_decide|].
    pose proof (lower_dots "." w ltac:(by right; left)). naive_solver.
  - induction (str_split "/" s) as [|w ws IH]; [done|]. cbn [fmap list_fmap]. rewrite !filter_cons.
    pose proof (lower_dots "" w ltac:(by left)). pose proof (lower_dots "." w ltac:(by right; left)).
    pose proof (lower_dots ".." w ltac:(by right; right; left)).
    destruct (decide (w ≠ "" ∧ w ≠ ".")) as [Hw|Hw].
    + rewrite decide_True by naive_solver. cbn [fmap list_fmap]. f_equal; [|exact IH].
      unfold component_of. do 2 case_bool_decide; naive_solver.
    + rewrite decide_False by naive_solver. exact IH.
Qed.

(** The name that is tested is the one of the file, in lower case. *)
Lemma copied_file_name_last raw parts name :
  normal_parts (path_components raw) = Some parts → last parts = Some name →
  copied_file_name raw = str_to_ascii_lowercase name.
Proof.
  intros Hcs%normal_parts_some Hlast. unfold copied_file_name, path_file_name.
  by rewrite lower_components, Hcs, <- list_fmap_compose, fmap_last, Hlast.
Qed.

(** *** The validation of a contract *)

Lemma recipe_validate_relative_path_ok raw parts :
  recipe_validate_relative_path raw = Ok parts ↔
  str_ends_with "/" raw = false ∧ str_ends_with "\" raw = false ∧ below_checkout raw parts.
Proof.
  unfold recipe_validate_relative_path, below_checkout. split.
  - intros Hok. inv_ok. split_and!; eauto using normal_parts_plain.
  - intros (Hslash & Hback & Hparts & Hne & _).
    assert (path_is_absolute raw = false) as ->.
    { unfold path_components in Hparts. by destruct (path_is_absolute raw). }
    rewrite Hslash, Hback, Hparts. cbn. by rewrite bool_decide_eq_false_2.
Qed.

Lemma is_ok_true {E A} (m : result E A) : is_ok m = true ↔ ∃ a, m = Ok a.
Proof. destruct m; cbn; naive_solver. Qed.

Lemma last_is_some {A} (l : list A) : l ≠ [] → ∃ x, last l = Some x.
Proof. intros Hl. destruct (last l) as [x|] eqn:Hx; [by exists x|]. by apply last_None in Hx. Qed.

Lemma validate_copy_path_ok raw : validate_copy_path raw = Ok tt ↔ copy_ok raw.
Proof.
  unfold validate_copy_path. split.
  - intros Hok. inv_ok. match goal with H : is_ok _ = true |- _ => apply is_ok_true in H as (parts & Hrel) end.
    apply recipe_validate_relative_path_ok in Hrel as (Hslash & Hback & Hbelow).
    constructor; [done..|]. exists parts. split; [done|]. intros name Hname. destruct Hbelow as [Hparts _].
    by rewrite <- (copied_file_name_last raw parts name).
  - intros [Hlen Hpat [Hslash Hback] (parts & Hbelow & Hsecret)].
    assert (Hne : str_is_empty raw = false).
    { apply str_is_empty_false. intros ->. destruct Hbelow as ([= <-] & ? & _). done. }
    rewrite Hne, Hpat, (proj2 (N.ltb_ge _ _)) by done.
    rewrite (proj2 (is_ok_true (recipe_validate_relative_path raw)))
      by (exists parts; by apply recipe_validate_relative_path_ok).
    cbn [orb negb reject_if mbind result_bind]. destruct Hbelow as (Hparts & Hsome & _).
    destruct (last_is_some parts Hsome) as [name Hname].
    by rewrite (copied_file_name_last raw parts name), Hsecret.
Qed.

Lemma validate_check_ok check : validate_check check = Ok tt ↔ check_ok check.
Proof.
  unfold validate_check. rewrite bind_ok. split.
  - intros ([] & Hid & Hrest). apply bind_ok in Hrest as ([] & Hargv%validate_command_parts_ok & Hcov).
    apply reject_if_ok in Hid, Hcov. apply negb_false_iff in Hid. apply orb_false_iff in Hcov as [Hlen Hcov].
    constructor; [done..|]. split; [by apply (vec_len_ltb 16)|].
    apply existsb_Forall in Hcov. eapply Forall_impl; [exact Hcov|]. intros l Hl. cbn in Hl. inv_ok. done.
  - intros [Hid Hargv [Hlen Hcov]]. exists tt. rewrite bind_ok. split; [by rewrite Hid|]. exists tt.
    rewrite reject_if_ok, orb_false_iff. split; [by apply validate_command_parts_ok|].
    split; [by apply (vec_len_ltb 16)|]. apply existsb_Forall. eapply Forall_impl; [exact Hcov|]. cbn.
    intros l [-> ?]. by apply N.ltb_ge.
Qed.

Lemma str_starts_with_spec p s : str_starts_with p s = true ↔ ∃ rest, s = p +:+ rest.
Proof.
  unfold str_starts_with. rewrite bool_decide_eq_true. unfold is_Some. by setoid_rewrite strip_prefix_spec.
Qed.

Lemma validate_service_ok id service : validate_service id service = Ok tt ↔ service_ok id service.
Proof.
  unfold validate_service. rewrite bind_ok. split.
  - intros ([] & Hid & Hrest). apply bind_ok in Hrest as ([] & Hargv%validate_command_parts_ok & Hrest). inv_ok.
    match goal with H : existsb _ _ = false |- _ => apply existsb_Forall in H; rename H into Htext end.
    match goal with H : str_starts_with _ _ || _ = true |- _ =>
      apply orb_true_iff in H as [(rest & Hh)%str_starts_with_spec|(rest & Hh)%str_starts_with_spec] end.
    + constructor; [done..| |done|]; [exists rest; rewrite Hh; by left|]. split; [done|].
      eapply Forall_impl; [exact Htext|]. intros c Hc. cbn in Hc. inv_ok. done.
    + constructor; [done..| |done|]; [exists rest; rewrite Hh; by right; left|]. split; [done|].
      eapply Forall_impl; [exact Htext|]. intros c Hc. cbn in Hc. inv_ok. done.
  - intros [Hid Hargv Henv (rest & Hhealth) Hport [Hlen Htext]]. exists tt. rewrite bind_ok.
    split; [by rewrite Hid|]. exists tt. rewrite bind_ok. split; [by apply validate_command_parts_ok|].
    exists tt. rewrite Henv. split; [done|]. apply reject_if_ok. rewrite !orb_false_iff.
    split_and!; [|by rewrite bool_decide_eq_true_2|by apply N.ltb_ge|].
    + apply negb_false_iff, orb_true_iff. rewrite !elem_of_cons in Hhealth.
      destruct Hhealth as [->|[->|[]%not_elem_of_nil]]; [left|right]; apply str_starts_with_spec; by exists rest.
    + apply existsb_Forall. eapply Forall_impl; [exact Htext|]. by intros c [-> ->].
Qed.

(** A loop that validates each element and refuses one whose key it has seen *)
Lemma try_fold_distinct {E X} (key : X → string) (valid : X → result E unit) (dup : X → E) xs seen :
  is_ok (try_fold (λ seen x, _ ← valid x; _ ← reject_if (bool_decide (key x ∈ seen)) (dup x); Ok ({[key x]} ∪ seen))
           (seen : gset string) xs) = true
  ↔ Forall (λ x, valid x = Ok tt) xs ∧ NoDup (key <$> xs) ∧ Forall (λ x, key x ∉ seen) xs.
Proof.
  revert seen. induction xs as [|x xs IH]; intros seen; cbn [try_fold fmap list_fmap].
  { split; [|done]. intros _. repeat split; constructor. }
  rewrite !Forall_cons, NoDup_cons. destruct (valid x) as [[]|]; cbn; [|split; [done|intros [[? _] _]; done]].
  case_bool_decide as Hx; cbn; [split; [done|intros (_ & _ & Hn & _); done]|].
  assert (Hseen : Forall (λ y, key y ∉ {[key x]} ∪ seen) xs ↔ key x ∉ key <$> xs ∧ Forall (λ y, key y ∉ seen) xs).
  { rewrite list_elem_of_fmap, !Forall_forall. setoid_rewrite not_elem_of_union. setoid_rewrite not_elem_of_singleton.
    split; [|intros [Hk Hs] y Hy; split; [|by apply Hs]; intros Heq; apply Hk; by exists y].
    intros Hk. split; [intros (y & Heq & Hy); by apply (proj1 (Hk y Hy))|intros y Hy; by apply Hk]. }
  rewrite IH, Hseen. tauto.
Qed.

Lemma try_iter_forall {E X} (f : X → result E unit) (P : X → Prop) xs :
  (∀ x, f x = Ok tt ↔ P x) → try_iter f xs = Ok tt ↔ Forall P xs.
Proof. intros Hf. rewrite try_iter_ok. by apply Forall_iff. Qed.

Lemma seq_ok {E A} (m : result E A) (k : result E unit) : (_ ← m; k) = Ok tt ↔ is_ok m = true ∧ k = Ok tt.
Proof. destruct m; cbn; naive_solver. Qed.

Lemma is_ok_reject {E} b (e : E) : is_ok (reject_if b e) = true ↔ b = false.
Proof. by destruct b. Qed.
Lemma is_ok_map_err {E F A} (f : E → F) (m : result E A) : is_ok (map_err f m) = is_ok m.
Proof. by destruct m. Qed.
Lemma is_ok_unit {E} (m : result E unit) : is_ok m = true ↔ m = Ok tt.
Proof. destruct m as [[]|]; cbn; naive_solver. Qed.

Lemma validate_services_ok (services : gmap string ServiceContract) :
  try_iter (λ s, validate_service s.1 s.2) (btree_entries String.le services) = Ok tt ↔ map_Forall service_ok services.
Proof.
  rewrite (try_iter_forall _ (λ s, service_ok s.1 s.2)) by (intros []; apply validate_service_ok).
  rewrite Forall_forall. split.
  - intros Hs id s Hid. apply (Hs (id, s)). by apply elem_of_btree_entries.
  - intros Hs [id s] Hin%elem_of_btree_entries. by apply Hs.
Qed.

Lemma validate_cleanup_ok (cleanup : list CommandContract) :
  try_iter (λ c, validate_command (cleanup_field c.1) c.2) (imap pair cleanup) = Ok tt
  ↔ Forall (λ cm, argv_ok (cm_command cm) (cm_timeout_seconds cm)) cleanup.
Proof.
  rewrite (try_iter_forall _ (λ c, argv_ok (cm_command c.2) (cm_timeout_seconds c.2)))
    by (intros []; apply validate_command_parts_ok).
  assert (Hsnd : (imap pair cleanup).*2 = cleanup).
  { apply list_eq. intros i. rewrite list_lookup_fmap, list_lookup_imap. by destruct (cleanup !! i). }
  rewrite <- Hsnd at 2. by rewrite Forall_fmap.
Qed.

Lemma validate_copied_ok paths :
  is_ok (try_fold validate_copied ∅ paths) = true ↔ NoDup paths ∧ Forall copy_ok paths.
Proof.
  etrans; [apply (try_fold_distinct (λ p, p) validate_copy_path ProjectContractError.InvalidCopiedPath)|].
  rewrite list_fmap_id. rewrite (Forall_iff _ _ copy_ok) by (intros; apply validate_copy_path_ok).
  split; [tauto|]. intros [? ?]. split_and!; [done..|]. apply Forall_forall. set_solver.
Qed.

Lemma validate_checks_ok checks :
  is_ok (try_fold validate_listed_check ∅ checks) = true ↔ NoDup (ck_id <$> checks) ∧ Forall check_ok checks.
Proof.
  etrans; [apply (try_fold_distinct ck_id validate_check (λ c, ProjectContractError.DuplicateCheckId (ck_id c)))|].
  rewrite (Forall_iff _ _ check_ok) by (intros; apply validate_check_ok).
  split; [tauto|]. intros [? ?]. split_and!; [done..|]. apply Forall_forall. set_solver.
Qed.

Lemma validate_location_ok location :
  is_ok (recipe_validate_relative_path location) = true ↔
  str_ends_with "/" location = false ∧ str_ends_with "\" location = false ∧ ∃ parts, below_checkout location parts.
Proof. rewrite is_ok_true. setoid_rewrite recipe_validate_relative_path_ok. naive_solver. Qed.

Lemma validate_setup_ok setup :
  match setup with Some setup => validate_command "setup" setup | None => Ok tt end = Ok tt ↔
  ∀ s, setup = Some s → argv_ok (cm_command s) (cm_timeout_seconds s).
Proof.
  destruct setup as [s|]; [|done]. unfold validate_command. rewrite validate_command_parts_ok. naive_solver.
Qed.

Lemma map_len_ltb {A} (n : nat) (m : gmap string A) : (N.of_nat n <? map_len m)%N = false ↔ size m ≤ n.
Proof. unfold map_len. rewrite N.ltb_ge. lia. Qed.

Lemma validate_contract_ok c : validate_contract c = Ok tt ↔ contract_ok c.
Proof.
  unfold validate_contract. rewrite !seq_ok, !is_ok_reject, is_ok_map_err, is_ok_unit.
  rewrite validate_copied_ok, validate_checks_ok, validate_location_ok, validate_setup_ok.
  change MAX_COPY_IGNORED with (N.of_nat 32). change MAX_CHECKS with (N.of_nat 32).
  change MAX_CLEANUP_COMMANDS with (N.of_nat 16). change MAX_SERVICES with (N.of_nat 16).
  rewrite !vec_len_ltb, map_len_ltb, is_ok_unit, validate_services_ok, validate_cleanup_ok.
  rewrite negb_false_iff, N.eqb_eq, !orb_false_iff, N.ltb_ge. split.
  - intros H. destruct_and! H. by constructor.
  - intros []. destruct_and?. by split_and!.
Qed.

(** ** What a repository declares *)

(** C31: a contract that is loaded is well formed, and every well-formed one is
    loaded.  [load_contract] returns a contract exactly when the file is a
    regular one of at most 256 KiB of UTF-8 whose TOML is a contract with schema
    1, a worktree location and copied files that are exact paths below the
    checkout, none of them repeated and none named like a secret, commands of 1
    to 128 bounded arguments without control characters and with a timeout of 1
    to 3600 seconds, distinct check identifiers, and services with an address to
    probe that has one place for the port and begins as
    [http://127.0.0.1:{port}] or [http://localhost:{port}] does.  That prefix is all
    that is asked of the address, so it need not name this machine, although
    the error message says it must; what is probed is seen to when the service
    starts ([health_probes_stay_local]).  No command of such a contract makes
    the functions that run it panic. *)
Theorem loaded_contracts_are_well_formed `{Toml} run file c :
  (load_contract file = Ok (Some c) ↔
   ∃ len source, file = ProjectFile.Regular len (Some source) ∧ (len ≤ 262144)%N
     ∧ utf8_valid (N_of_ascii <$> source) = true ∧ toml_from_str source = Some c ∧ contract_ok c)
  ∧ (contract_ok c →
     (∀ setup, pc_setup c = Some setup → is_Some (run_setup run setup))
     ∧ (∀ check, check ∈ pc_checks c → is_Some (run_check run check))
     ∧ (∀ index cleanup, pc_cleanup c !! index = Some cleanup → is_Some (run_cleanup run index cleanup))).
Proof.
  split; [split|].
  - intros Hload. destruct file as [| | | | |len source]; try done. cbn [load_contract] in Hload.
    destruct source as [source|]; [|inv_ok; done].
    inv_ok. simplify_eq. eexists _, _. split_and!; [done| |done..|by apply validate_contract_ok]. by unfold MAX_PROJECT_FILE_BYTES in *.
  - intros (len & source & -> & Hlen & Hutf8 & Htoml & Hc%validate_contract_ok). cbn [load_contract].
    rewrite (proj2 (N.ltb_ge _ _)) by done. cbn [reject_if ok_or mbind result_bind]. rewrite Hutf8, Htoml.
    cbn [negb reject_if ok_or mbind result_bind]. by rewrite Hc.
  - assert (Hrun : ∀ id command timeout, argv_ok command timeout → is_Some (run_parts run id command timeout)).
    { intros id [|program args] timeout [Hne _ _ _]; [done|by eexists]. }
    intros Hc. split_and!.
    + intros setup Hs. by apply Hrun, (po_setup c Hc).
    + intros check Hin. apply Hrun. destruct (po_checks c Hc) as (_ & _ & Hall).
      rewrite Forall_forall in Hall. by apply ko_argv, Hall.
    + intros index cleanup Hin. apply Hrun. destruct (po_cleanup c Hc) as [_ Hall].
      by apply (Forall_lookup_1 _ _ index cleanup Hall) in Hin.
Qed.

Module RecipeDemo.
Definition contract : ProjectContract :=
  mkProjectContract 1 (mkWorktreeContract ".worktrees" "main" ["config/local.json"; ".env.example"])
    (Some (mkCommandContract ["npm"; "ci"] 600))
    {["web" := mkServiceContract ["npm"; "start"] "PORT" "http://127.0.0.1:{port}/health" 30]}
    [mkCheckContract "tests" ["npm"; "test"] 300 ["unit tests"]] [mkCommandContract ["rm"; "-rf"; "tmp"] 10].
#[local] Instance toml : Toml := λ source, if decide (source = str_bytes "schema = 1") then Some contract else None.
Definition run (timeout : N) (spec : CommandSpec) : result TrustedCheckError TrustedCheckResult :=
  Err TrustedCheckError.TimedOut.

Lemma loaded_contracts_are_well_formed_witness :
  contract_ok contract
  ∧ load_contract (ProjectFile.Regular 10 (Some (str_bytes "schema = 1"))) = Ok (Some contract)
  ∧ is_Some (run_setup run (mkCommandContract ["npm"; "ci"] 600)).
Proof.
  assert (Hload : load_contract (ProjectFile.Regular 10 (Some (str_bytes "schema = 1"))) = Ok (Some contract))
    by (vm_compute; reflexivity).
  assert (Hok : contract_ok contract).
  { apply (loaded_contracts_are_well_formed run (ProjectFile.Regular 10 (Some (str_bytes "schema = 1"))) contract) in Hload
      as (? & ? & _ & _ & _ & _ & ?). done. }
  split; [done|split; [done|]].
  by apply (loaded_contracts_are_well_formed run ProjectFile.Missing contract).
Defined.
End RecipeDemo.
