(* ===== verification/RecipeCopy.v ===== *)
(** * Copying declared files ([src/src/project_recipe/copy.rs])

    A new worktree receives the files its contract declares from the checkout
    it was made from.  The file system is a map from absolute paths to what is
    there, with symbolic links that the operations of the standard library
    follow or not as the operating system does; what Git says of a path and which
    copies fail are arguments. *)

From S2P Require Export Recipes.

(** ** A file system *)

Abbreviation place := (list string).

(** The target of a link: from the root or from where the link is, by names and
    [".."] *)
Record LinkTarget := mkLinkTarget { lt_absolute : bool; lt_names : list string }.
#[export] Instance LinkTarget_eq_dec : EqDecision LinkTarget.
Proof. solve_decision. Defined.

Module Inode.
Inductive Inode :=
  | Directory
  | File (mode : N) (content : bytes)
  | Symlink (target : LinkTarget).
#[export] Instance eq_dec : EqDecision Inode.
Proof. solve_decision. Defined.
End Inode.
Export (hints) Inode.
Abbreviation Inode := Inode.Inode.

Abbreviation FileSystem := (gmap place Inode).

Module FsError.
Inductive FsError := NotFound | AlreadyExists | Other.
#[export] Instance eq_dec : EqDecision FsError.
Proof. solve_decision. Defined.
End FsError.
Export (hints) FsError.
Abbreviation FsError := FsError.FsError.

(** The greatest number of links the operating system follows for a path *)
Definition MAX_LINKS : nat := 40.

(** Where a path leads: the place of its last name in a directory that exists.
    [follow] says whether a link under the last name is followed too. *)
Fixpoint walk (links : nat) (fs : FileSystem) (follow : bool) : place → list string → result FsError place :=
  fix go cur rest :=
    match rest with
    | [] => Ok cur
    | name :: rest =>
        if bool_decide (name = "..") then go (take (length cur - 1) cur) rest
        else
          let here := cur ++ [name] in
          match fs !! here with
          | None => if bool_decide (rest = []) then Ok here else Err FsError.NotFound
          | Some Inode.Directory => go here rest
          | Some (Inode.File _ _) => if bool_decide (rest = []) then Ok here else Err FsError.Other
          | Some (Inode.Symlink target) =>
              if bool_decide (rest = []) && negb follow then Ok here
              else
                match links with
                | O => Err FsError.Other
                | S links =>
                    walk links fs follow (if lt_absolute target then [] else cur) (lt_names target ++ rest)
                end
          end
    end.

Definition locate (fs : FileSystem) (follow : bool) (path : place) : result FsError place :=
  walk MAX_LINKS fs follow [] path.

(** [fs::symlink_metadata], [fs::metadata]: what is there *)
Definition entry_at (fs : FileSystem) (l : place) : option Inode :=
  if bool_decide (l = []) then Some Inode.Directory else fs !! l.
Definition entry (fs : FileSystem) (follow : bool) (path : place) : result FsError Inode :=
  l ← locate fs follow path; ok_or (entry_at fs l) FsError.NotFound.
Definition symlink_metadata (fs : FileSystem) (path : place) : result FsError Inode := entry fs false path.
Definition path_exists (fs : FileSystem) (path : place) : bool := is_ok (entry fs true path).
Definition is_dir (fs : FileSystem) (path : place) : bool :=
  match entry fs true path with Ok Inode.Directory => true | _ => false end.

(** [fs::create_dir] *)
Definition create_dir (fs : FileSystem) (path : place) : result FsError FileSystem :=
  l ← locate fs false path;
  _ ← reject_if (bool_decide (is_Some (entry_at fs l))) FsError.AlreadyExists;
  Ok (<[l := Inode.Directory]> fs).

(** [fs::create_dir_all], of the names from the last to the first; the
    directories that were made stay when it fails. *)
Fixpoint create_dir_all (fs : FileSystem) (names : list string) : FileSystem * result FsError unit :=
  let path := reverse names in
  match create_dir fs path with
  | Ok fs => (fs, Ok tt)
  | Err e =>
      match e with
      | FsError.NotFound =>
          match names with
          | [] => (fs, Ok tt)
          | _ :: parent =>
              match create_dir_all fs parent with
              | (fs, Err e) => (fs, Err e)
              | (fs, Ok _) =>
                  match create_dir fs path with
                  | Ok fs => (fs, Ok tt)
                  | Err e => (fs, if is_dir fs path then Ok tt else Err e)
                  end
              end
          end
      | _ => (fs, if is_dir fs path then Ok tt else Err e)
      end
  end.

(** ** The copies *)

Definition MAX_COPY_FILE_BYTES : N := 16 * 1024 * 1024.
Definition MAX_COPY_TOTAL_BYTES : N := 64 * 1024 * 1024.

Module CopyIgnoredError.
Inductive CopyIgnoredError :=
  | InvalidPath (raw : string)
  | UnsupportedSource (relative : list string)
  | SourceNotIgnored (relative : list string)
  | DestinationExists (relative : list string)
  | FileTooLarge (relative : list string)
  | TotalTooLarge (relative : list string)
  | GitCheckFailed
  | Io (error : FsError).
#[export] Instance eq_dec : EqDecision CopyIgnoredError.
Proof. solve_decision. Defined.
End CopyIgnoredError.
Export (hints) CopyIgnoredError.
Abbreviation CopyIgnoredError := CopyIgnoredError.CopyIgnoredError.

Definition exact_relative_path (raw : string) : result CopyIgnoredError (list string) :=
  _ ← reject_if (path_is_absolute raw) (CopyIgnoredError.InvalidPath raw);
  clean ← ok_or (normal_parts (path_components raw)) (CopyIgnoredError.InvalidPath raw);
  _ ← reject_if (bool_decide (clean = [])) (CopyIgnoredError.InvalidPath raw);
  Ok clean.

(** The loop over the components of [relative], which are all names *)
Fixpoint reject_symlink_components (fs : FileSystem) (relative current : place) (names : list string) :
    result CopyIgnoredError unit :=
  match names with
  | [] => Ok tt
  | name :: names =>
      let current := current ++ [name] in
      match symlink_metadata fs current with
      | Ok (Inode.Symlink _) => Err (CopyIgnoredError.UnsupportedSource relative)
      | Ok _ => reject_symlink_components fs relative current names
      | Err FsError.NotFound => Ok tt
      | Err e => Err (CopyIgnoredError.Io e)
      end
  end.

(** [read] fills the buffer or reaches the end of a regular file. *)
Definition BUFFER : nat := N.to_nat (16 * 1024).
Fixpoint read_equal (fuel : nat) (left right : bytes) : bool :=
  match fuel with
  | O => false
  | S fuel =>
      if negb (bool_decide (take BUFFER left = take BUFFER right)) then false
      else if bool_decide (take BUFFER left = []) then true
      else read_equal fuel (drop BUFFER left) (drop BUFFER right)
  end.

Definition open_file (fs : FileSystem) (path : place) : result CopyIgnoredError bytes :=
  match entry fs true path with
  | Ok (Inode.File _ content) => Ok content
  | Ok _ => Err (CopyIgnoredError.Io FsError.Other)
  | Err e => Err (CopyIgnoredError.Io e)
  end.

Definition metadata_len (i : Inode) : N :=
  match i with Inode.File _ content => N.of_nat (length content) | _ => 0 end.

Definition files_equal (fs : FileSystem) (left right : place) : result CopyIgnoredError bool :=
  left_metadata ← map_err CopyIgnoredError.Io (symlink_metadata fs left);
  right_metadata ← map_err CopyIgnoredError.Io (symlink_metadata fs right);
  match right_metadata with
  | Inode.File _ _ =>
      if negb (metadata_len left_metadata =? metadata_len right_metadata)%N then Ok false
      else
        left ← open_file fs left;
        right ← open_file fs right;
        Ok (read_equal (S (length left)) left right)
  | _ => Ok false
  end.

(** What the world decides: the exit code of [git check-ignore], when it could
    be run, and where [io::copy] and [fs::set_permissions] fail *)
Record CopyWorld := mkCopyWorld {
  cw_check_ignore : list string → result FsError (option Z);
  cw_copy_fails : list string → option FsError;
  cw_permissions_fail : list string → option FsError;
}.

Definition git_path_is_ignored (w : CopyWorld) (relative : list string) : result CopyIgnoredError bool :=
  code ← map_err CopyIgnoredError.Io (cw_check_ignore w relative);
  match code with
  | Some 0%Z => Ok true
  | Some 1%Z => Ok false
  | _ => Err CopyIgnoredError.GitCheckFailed
  end.

(** A file that was created is removed again when it cannot be written. *)
Definition copy_create_new (w : CopyWorld) (fs : FileSystem) (relative : list string) (source destination : place)
    (mode : N) : FileSystem * result CopyIgnoredError unit :=
  match open_file fs source with
  | Err e => (fs, Err e)
  | Ok content =>
      match locate fs false destination with
      | Err e => (fs, Err (CopyIgnoredError.Io e))
      | Ok l =>
          if bool_decide (is_Some (entry_at fs l)) then (fs, Err (CopyIgnoredError.Io FsError.AlreadyExists))
          else
            match cw_copy_fails w relative with
            | Some e => (fs, Err (CopyIgnoredError.Io e))
            | None =>
                match cw_permissions_fail w relative with
                | Some e => (<[l := Inode.File 384 content]> fs, Err (CopyIgnoredError.Io e))
                | None => (<[l := Inode.File mode content]> fs, Ok tt)
                end
            end
      end
  end.

Record CopyState := mkCopyState { cp_fs : FileSystem; cp_copied : list (list string); cp_total : N }.
#[export] Instance CopyState_fields : Fields CopyState := λ s,
  mkCopyState (cp_fs s) (cp_copied s) (cp_total s).

(** One turn of the loop *)
Definition copy_entry (w : CopyWorld) (source_checkout destination_checkout : place) (s : CopyState) (raw : string) :
    CopyState * result CopyIgnoredError unit :=
  let fs := cp_fs s in
  match exact_relative_path raw with
  | Err e => (s, Err e)
  | Ok relative =>
      let source := source_checkout ++ relative in
      match reject_symlink_components fs relative source_checkout relative with
      | Err e => (s, Err e)
      | Ok _ =>
          match symlink_metadata fs source with
          | Err FsError.NotFound => (s, Ok tt)
          | Err e => (s, Err (CopyIgnoredError.Io e))
          | Ok (Inode.File mode content) =>
              let len := N.of_nat (length content) in
              if (MAX_COPY_FILE_BYTES <? len)%N then (s, Err (CopyIgnoredError.FileTooLarge relative))
              else
                match checked_add u64_max (cp_total s) len with
                | None => (s, Err (CopyIgnoredError.TotalTooLarge relative))
                | Some total =>
                    let s := s <| cp_total := total |> in
                    if (MAX_COPY_TOTAL_BYTES <? total)%N then (s, Err (CopyIgnoredError.TotalTooLarge relative))
                    else
                      let destination := destination_checkout ++ relative in
                      if path_exists fs destination then
                        match files_equal fs source destination with
                        | Err e => (s, Err e)
                        | Ok true => (s, Ok tt)
                        | Ok false => (s, Err (CopyIgnoredError.DestinationExists relative))
                        end
                      else
                        match git_path_is_ignored w relative with
                        | Err e => (s, Err e)
                        | Ok false => (s, Err (CopyIgnoredError.SourceNotIgnored relative))
                        | Ok true =>
                            match create_dir_all fs (drop 1 (reverse destination)) with
                            | (fs, Err e) => (s <| cp_fs := fs |>, Err (CopyIgnoredError.Io e))
                            | (fs, Ok _) =>
                                match copy_create_new w fs relative source destination mode with
                                | (fs, Err e) => (s <| cp_fs := fs |>, Err e)
                                | (fs, Ok _) =>
                                    (s <| cp_fs := fs |> <| cp_copied := cp_copied s ++ [relative] |>, Ok tt)
                                end
                            end
                        end
                end
          | Ok _ => (s, Err (CopyIgnoredError.UnsupportedSource relative))
          end
      end
  end.

Fixpoint copy_entries (w : CopyWorld) (source destination : place) (s : CopyState) (raws : list string) :
    CopyState * result CopyIgnoredError unit :=
  match raws with
  | [] => (s, Ok tt)
  | raw :: raws =>
      match copy_entry w source destination s raw with
      | (s, Err e) => (s, Err e)
      | (s, Ok _) => copy_entries w source destination s raws
      end
  end.

(** Both checkouts are canonical paths here: [fs::canonicalize] succeeded. *)
Definition copy_declared_ignored_files (w : CopyWorld) (fs : FileSystem) (source_checkout destination_checkout : place)
    (contract : ProjectContract) : FileSystem * result CopyIgnoredError (list (list string)) :=
  match copy_entries w source_checkout destination_checkout (mkCopyState fs [] 0)
          (wt_copy_ignored (pc_worktree contract)) with
  | (s, Ok _) => (cp_fs s, Ok (cp_copied s))
  | (s, Err e) => (cp_fs s, Err e)
  end.

(** ** Walking *)

Definition linked (fs : FileSystem) (p : place) : Prop := ∃ target, fs !! p = Some (Inode.Symlink target).

(** No link and no [".."] on the way from [base] to [base ++ names] *)
Definition plain_way (fs : FileSystem) (base names : list string) : Prop :=
  ".." ∉ names ∧ ∀ pre, pre ≠ [] → pre `prefix_of` names → ¬ linked fs (base ++ pre).

(** What [fs::canonicalize] returns for a directory *)
Definition canonical (fs : FileSystem) (base : place) : Prop :=
  ".." ∉ base ∧ ∀ pre, pre ≠ [] → pre `prefix_of` base → fs !! pre = Some Inode.Directory.

Lemma walk_nil links fs follow cur : walk links fs follow cur [] = Ok cur.
Proof. by destruct links. Qed.

Lemma walk_cons links fs follow cur name rest :
  walk links fs follow cur (name :: rest) =
  if bool_decide (name = "..") then walk links fs follow (take (length cur - 1) cur) rest
  else
    match fs !! (cur ++ [name]) with
    | None => if bool_decide (rest = []) then Ok (cur ++ [name]) else Err FsError.NotFound
    | Some Inode.Directory => walk links fs follow (cur ++ [name]) rest
    | Some (Inode.File _ _) => if bool_decide (rest = []) then Ok (cur ++ [name]) else Err FsError.Other
    | Some (Inode.Symlink target) =>
        if bool_decide (rest = []) && negb follow then Ok (cur ++ [name])
        else match links with
             | O => Err FsError.Other
             | S links => walk links fs follow (if lt_absolute target then [] else cur) (lt_names target ++ rest)
             end
    end.
Proof. by destruct links. Qed.

Lemma app_cons_assoc {A} (l : list A) x k : (l ++ [x]) ++ k = l ++ x :: k.
Proof. by rewrite <- app_assoc. Qed.

Lemma plain_way_cons fs base name names :
  plain_way fs base (name :: names) →
  name ≠ ".." ∧ ¬ linked fs (base ++ [name]) ∧ plain_way fs (base ++ [name]) names.
Proof.
  intros [Hdots Hpre]. apply not_elem_of_cons in Hdots as [Hname Hdots]. split_and!; [done| |split; [done|]].
  - apply Hpre; [done|by exists names].
  - intros pre _ [k ->]. rewrite app_cons_assoc. apply Hpre; [done|by exists k].
Qed.

Lemma plain_way_intro fs base name names :
  name ≠ ".." → ¬ linked fs (base ++ [name]) → plain_way fs (base ++ [name]) names → plain_way fs base (name :: names).
Proof.
  intros Hname Hlink [Hdots Hpre]. split; [by apply not_elem_of_cons|].
  intros [|n pre] Hne [k Hk]; [done|]. injection Hk as <- ->. destruct pre as [|p pre]; [done|].
  rewrite <- app_cons_assoc. apply Hpre; [done|by exists k].
Qed.

(** A way without links leads where it says. *)
Lemma walk_plain links fs follow base names l :
  plain_way fs base names → walk links fs follow base names = Ok l → l = base ++ names.
Proof.
  revert base. induction names as [|name names IH]; intros base Hway.
  { rewrite walk_nil, app_nil_r. by intros [= <-]. }
  apply plain_way_cons in Hway as (Hname & Hlink & Hway). rewrite walk_cons, bool_decide_eq_false_2 by done.
  assert (base ++ name :: names = (base ++ [name]) ++ names) as -> by (by rewrite app_cons_assoc).
  unfold linked in Hlink.
  destruct (fs !! (base ++ [name])) as [[| |target]|]; [by apply IH| |destruct Hlink; by exists target|];
    (case_bool_decide as Hrest; [|done]); intros [= <-]; by rewrite Hrest, app_nil_r.
Qed.

Lemma walk_canonical links fs follow base names cur :
  ".." ∉ base → (∀ pre, pre ≠ [] → pre `prefix_of` base → fs !! (cur ++ pre) = Some Inode.Directory) →
  walk links fs follow cur (base ++ names) = walk links fs follow (cur ++ base) names.
Proof.
  revert cur. induction base as [|b base IH]; intros cur Hdots Hdir; [by rewrite app_nil_r|].
  apply not_elem_of_cons in Hdots as [Hb Hdots]. cbn [app]. rewrite walk_cons, bool_decide_eq_false_2 by done.
  rewrite (Hdir [b]) by (done || by exists base). rewrite IH, app_cons_assoc; [done..|].
  intros pre Hne [k ->]. rewrite app_cons_assoc. apply Hdir; [done|]. by exists k.
Qed.

Lemma locate_canonical fs follow base names :
  canonical fs base → locate fs follow (base ++ names) = walk MAX_LINKS fs follow base names.
Proof. intros [Hdots Hdir]. unfold locate. by rewrite walk_canonical. Qed.

(** What a path leads to is not changed by what is added to a file system. *)
Lemma walk_mono links fs fs' follow cur names l i :
  fs ⊆ fs' → walk links fs follow cur names = Ok l → entry_at fs l = Some i → walk links fs' follow cur names = Ok l.
Proof.
  intros Hsub. revert cur names. induction links as [links IHl] using lt_wf_ind. intros cur names.
  revert cur. induction names as [|name names IH]; intros cur Hwalk Hl; [by rewrite walk_nil in *|].
  rewrite walk_cons in *. case_bool_decide; [by apply IH|].
  destruct (fs !! (cur ++ [name])) as [e|] eqn:He.
  - rewrite (lookup_weaken _ _ _ _ He Hsub). destruct e as [| |target]; [by apply IH|done|].
    destruct (bool_decide _ && _); [done|]. destruct links as [|links]; [done|]. apply IHl; [lia|done..].
  - case_bool_decide; [|done]. injection Hwalk as <-. unfold entry_at in Hl.
    case_bool_decide as Hnil; [by destruct cur|congruence].
Qed.

(** Following the last name changes nothing where there is no link. *)
Lemma walk_follow links fs cur names l i :
  walk links fs false cur names = Ok l → entry_at fs l = Some i → (∀ target, i ≠ Inode.Symlink target) →
  walk links fs true cur names = Ok l.
Proof.
  intros Hwalk Hl Hi. revert cur names Hwalk. induction links as [links IHl] using lt_wf_ind. intros cur names.
  revert cur. induction names as [|name names IH]; intros cur Hwalk; [by rewrite walk_nil in *|].
  rewrite walk_cons in *. case_bool_decide; [by apply IH|].
  destruct (fs !! (cur ++ [name])) as [[| |target]|] eqn:He; [by apply IH|done| |done].
  rewrite andb_false_r. rewrite andb_true_r in Hwalk. case_bool_decide as Hrest.
  - injection Hwalk as <-. unfold entry_at in Hl. case_bool_decide as Hnil; [by destruct cur|].
    exfalso. apply (Hi target). congruence.
  - destruct links as [|links]; [done|]. apply IHl; [lia|done].
Qed.

Lemma entry_ok fs follow path i :
  entry fs follow path = Ok i ↔ ∃ l, locate fs follow path = Ok l ∧ entry_at fs l = Some i.
Proof. unfold entry. autorewrite with results. setoid_rewrite ok_or_ok. done. Qed.

Lemma entry_at_mono fs fs' l i : fs ⊆ fs' → entry_at fs l = Some i → entry_at fs' l = Some i.
Proof. intros Hsub. unfold entry_at. case_bool_decide; [done|]. intros Hl. by eapply lookup_weaken. Qed.

Lemma entry_mono fs fs' follow path i : fs ⊆ fs' → entry fs follow path = Ok i → entry fs' follow path = Ok i.
Proof.
  rewrite !entry_ok. intros Hsub (l & Hl & Hi). exists l. split; [by eapply walk_mono|by eapply entry_at_mono].
Qed.

Lemma open_metadata fs fs' path mode content :
  fs ⊆ fs' → symlink_metadata fs path = Ok (Inode.File mode content) → open_file fs' path = Ok content.
Proof.
  intros Hsub (l & Hl & Hi)%entry_ok. unfold open_file.
  rewrite (entry_mono fs fs' true path (Inode.File mode content)); [done..|].
  apply entry_ok. exists l. split; [by eapply walk_follow|done].
Qed.

(** ** What is added *)

Lemma entry_at_none fs l : entry_at fs l = None ↔ l ≠ [] ∧ fs !! l = None.
Proof. unfold entry_at. case_bool_decide; naive_solver. Qed.

Lemma create_dir_ok fs path fs' :
  create_dir fs path = Ok fs' →
  ∃ l, locate fs false path = Ok l ∧ entry_at fs l = None ∧ fs' = <[l := Inode.Directory]> fs.
Proof.
  unfold create_dir. intros Hok. inv_ok. eexists. split_and!; [done| |done]. by apply eq_None_not_Some.
Qed.

(** [fs'] has more entries than [fs], which satisfy [allowed]. *)
Definition grows (allowed : place → Inode → Prop) (fs fs' : FileSystem) : Prop :=
  fs ⊆ fs' ∧ ∀ p i, fs' !! p = Some i → fs !! p = None → allowed p i.

Lemma grows_refl allowed fs : grows allowed fs fs.
Proof. split; [done|congruence]. Qed.

Lemma grows_trans allowed fs fs1 fs2 : grows allowed fs fs1 → grows allowed fs1 fs2 → grows allowed fs fs2.
Proof.
  intros [Hsub1 H1] [Hsub2 H2]. split; [by etrans|]. intros p i Hi Hn.
  destruct (fs1 !! p) as [j|] eqn:Hj; [|by apply H2].
  apply H1; [|done]. rewrite <- Hi, Hj. symmetry. by eapply lookup_weaken.
Qed.

Lemma grows_impl (P Q : place → Inode → Prop) fs fs' : (∀ p i, P p i → Q p i) → grows P fs fs' → grows Q fs fs'.
Proof. intros HPQ [Hsub Hn]. split; [done|]. eauto. Qed.

Lemma grows_insert (allowed : place → Inode → Prop) fs l i :
  entry_at fs l = None → allowed l i → grows allowed fs (<[l := i]> fs).
Proof.
  intros [_ Hl]%entry_at_none Hi. split; [by apply insert_subseteq|].
  intros p j. rewrite lookup_insert_Some. naive_solver.
Qed.

(** The last step of a path is all that [create_dir] adds. *)
Lemma create_dir_all_grows (allowed : place → Inode → Prop) fs names fs' r :
  (∀ fs1 pre l, grows allowed fs fs1 → pre `suffix_of` names → locate fs1 false (reverse pre) = Ok l →
                entry_at fs1 l = None → allowed l Inode.Directory) →
  create_dir_all fs names = (fs', r) → grows allowed fs fs'.
Proof.
  intros Hdir. revert fs fs' r Hdir.
  assert (Hone : ∀ fs fs1 fs' names,
    (∀ fs1 pre l, grows allowed fs fs1 → pre `suffix_of` names → locate fs1 false (reverse pre) = Ok l →
                  entry_at fs1 l = None → allowed l Inode.Directory) →
    grows allowed fs fs1 → create_dir fs1 (reverse names) = Ok fs' → grows allowed fs fs').
  { intros fs fs1 fs' ns Hdir Hgrow (l & Hl & Hn & ->)%create_dir_ok.
    eapply grows_trans; [exact Hgrow|]. apply grows_insert; [done|]. by eapply Hdir. }
  induction names as [|name names IH]; intros fs fs' r Hdir Hall; cbn [create_dir_all] in Hall.
  - destruct (create_dir fs (reverse [])) as [fs1|[]] eqn:Hc; simplify_eq Hall; intros; subst;
      try apply grows_refl. by eapply Hone; [..|exact Hc]; [|apply grows_refl].
  - destruct (create_dir fs (reverse (name :: names))) as [fs1|[]] eqn:Hc; simplify_eq Hall; intros; subst;
      try apply grows_refl; [by eapply Hone; [..|exact Hc]; [|apply grows_refl]|].
    destruct (create_dir_all fs names) as [fs1 r1] eqn:Hp.
    assert (Hgrow : grows allowed fs fs1).
    { eapply IH; [|exact Hp]. intros fs2 pre l Hg Hsuf. apply Hdir; [done|]. by apply suffix_cons_r. }
    destruct r1 as [[]|e]; [|by simplify_eq].
    destruct (create_dir fs1 (reverse (name :: names))) as [fs2|e] eqn:Hc2; simplify_eq; [|done].
    by eapply Hone.
Qed.

(** *** The outcomes of a turn *)

Inductive copy_outcome (w : CopyWorld) (S D : place) (s : CopyState) (raw : string) :
    CopyState → result CopyIgnoredError unit → Prop :=
  | outcome_refused s' e :
      cp_fs s' = cp_fs s → copy_outcome w S D s raw s' (Err e)
  | outcome_skipped s' relative :
      exact_relative_path raw = Ok relative →
      cp_fs s' = cp_fs s → cp_copied s' = cp_copied s → (cp_total s ≤ cp_total s')%N →
      (symlink_metadata (cp_fs s) (S ++ relative) = Err FsError.NotFound
       ∨ ∃ mode mode' content, symlink_metadata (cp_fs s) (S ++ relative) = Ok (Inode.File mode content)
           ∧ symlink_metadata (cp_fs s) (D ++ relative) = Ok (Inode.File mode' content)) →
      copy_outcome w S D s raw s' (Ok tt)
  | outcome_directories s' relative r e :
      exact_relative_path raw = Ok relative →
      create_dir_all (cp_fs s) (drop 1 (reverse (D ++ relative))) = (cp_fs s', r) →
      copy_outcome w S D s raw s' (Err e)
  | outcome_file s' relative mode mode' content fs l r :
      exact_relative_path raw = Ok relative →
      reject_symlink_components (cp_fs s) relative S relative = Ok tt →
      symlink_metadata (cp_fs s) (S ++ relative) = Ok (Inode.File mode content) →
      (N.of_nat (length content) ≤ MAX_COPY_FILE_BYTES)%N →
      cp_total s' = (cp_total s + N.of_nat (length content))%N → (cp_total s' ≤ MAX_COPY_TOTAL_BYTES)%N →
      cw_check_ignore w relative = Ok (Some 0%Z) →
      create_dir_all (cp_fs s) (drop 1 (reverse (D ++ relative))) = (fs, Ok tt) →
      locate fs false (D ++ relative) = Ok l → entry_at fs l = None →
      cp_fs s' = <[l := Inode.File mode' content]> fs →
      (r = Ok tt → mode' = mode ∧ cp_copied s' = cp_copied s ++ [relative]) →
      copy_outcome w S D s raw s' r.

Lemma BUFFER_pos : 0 < BUFFER.
Proof. apply Nat.ltb_lt. vm_compute. reflexivity. Qed.
#[global] Opaque BUFFER.

Lemma length_bytes_eq (l r : bytes) : take BUFFER l = take BUFFER r → drop BUFFER l = drop BUFFER r → l = r.
Proof. intros Ht Hd. by rewrite <- (take_drop BUFFER l), Ht, Hd, take_drop. Qed.

(** [files_equal] compares contents. *)
Lemma read_equal_spec fuel l r : length l < fuel → read_equal fuel l r = true ↔ l = r.
Proof.
  pose proof BUFFER_pos as Hpos.
  revert l r. induction fuel as [|fuel IH]; intros l r Hlen; [lia|]. cbn [read_equal].
  case_bool_decide as Htake; cbn [negb]; [|split; [done|by intros ->]].
  case_bool_decide as Hend.
  - split; [|done]. intros _. rewrite Hend in Htake. symmetry in Htake.
    assert (Hnil : ∀ k : bytes, take BUFFER k = [] → k = []).
    { intros [|c k] Hk; [done|]. destruct BUFFER; [lia|done]. }
    by rewrite (Hnil l Hend), (Hnil r Htake).
  - rewrite IH; [split; [by apply length_bytes_eq|by intros ->]|].
    rewrite length_drop. destruct l as [|c l]; [by rewrite take_nil in Hend|]. cbn in *. lia.
Qed.

Lemma files_equal_true fs left right mode content :
  symlink_metadata fs left = Ok (Inode.File mode content) → files_equal fs left right = Ok true →
  ∃ mode', symlink_metadata fs right = Ok (Inode.File mode' content).
Proof.
  unfold files_equal. intros Hleft Heq. rewrite Hleft in Heq. cbn [map_err mbind result_bind] in Heq.
  destruct (symlink_metadata fs right) as [[|mode' content'|]|] eqn:Hright; try done. cbn [map_err mbind result_bind] in Heq.
  destruct (negb _); [done|]. rewrite (open_metadata fs fs left mode content) in Heq by done.
  rewrite (open_metadata fs fs right mode' content') in Heq by done. cbn [mbind result_bind] in Heq.
  apply Ok_inj, read_equal_spec in Heq; [|lia]. exists mode'. by subst.
Qed.

Lemma git_path_is_ignored_true w relative :
  git_path_is_ignored w relative = Ok true → cw_check_ignore w relative = Ok (Some 0%Z).
Proof.
  unfold git_path_is_ignored. intros (code & Hcode%map_err_ok & Hok)%bind_ok. rewrite Hcode.
  by destruct code as [[|[]|]|].
Qed.

Lemma copy_create_new_outcome w fs relative source destination mode fs' r content :
  open_file fs source = Ok content → copy_create_new w fs relative source destination mode = (fs', r) →
  (fs' = fs ∧ r ≠ Ok tt)
  ∨ ∃ l mode', locate fs false destination = Ok l ∧ entry_at fs l = None
      ∧ fs' = <[l := Inode.File mode' content]> fs ∧ (r = Ok tt → mode' = mode).
Proof.
  unfold copy_create_new. intros ->. destruct (locate fs false destination) as [l|e]; [|intros [= <- <-]; by left].
  case_bool_decide as Hl; [intros [= <- <-]; by left|]. apply eq_None_not_Some in Hl.
  destruct (cw_copy_fails w relative); [intros [= <- <-]; by left|].
  destruct (cw_permissions_fail w relative); intros [= <- <-]; right; exists l; eexists; by split_and!.
Qed.

Lemma copy_entry_outcome w S D s raw s' r :
  copy_entry w S D s raw = (s', r) → copy_outcome w S D s raw s' r.
Proof.
  unfold copy_entry. destruct (exact_relative_path raw) as [relative|e] eqn:Hraw;
    [|intros [= <- <-]; by apply outcome_refused].
  destruct (reject_symlink_components _ _ _ _) as [[]|e] eqn:Hrej; [|intros [= <- <-]; by apply outcome_refused].
  destruct (symlink_metadata (cp_fs s) (S ++ relative)) as [[|mode content|]|e] eqn:Hmeta;
    [intros [= <- <-]; by apply outcome_refused| |intros [= <- <-]; by apply outcome_refused|].
  2: { destruct e; intros [= <- <-]; try by apply outcome_refused.
       eapply outcome_skipped; [exact Hraw|done..|by left]. }
  destruct (N.ltb_spec MAX_COPY_FILE_BYTES (N.of_nat (length content))); [intros [= <- <-]; by apply outcome_refused|].
  destruct (checked_add _ _ _) as [total|] eqn:Htotal; [|intros [= <- <-]; by apply outcome_refused].
  unfold checked_add in Htotal. case_match; [|done]. injection Htotal as <-. cbv zeta.
  destruct (N.ltb_spec MAX_COPY_TOTAL_BYTES (cp_total s + N.of_nat (length content)));
    [intros [= <- <-]; by apply outcome_refused|].
  destruct (path_exists _ _).
  { destruct (files_equal _ _ _) as [[]|e] eqn:Heq; intros [= <- <-]; try by apply outcome_refused.
    destruct (files_equal_true _ _ _ _ _ Hmeta Heq) as [mode' Hdest].
    eapply outcome_skipped; [exact Hraw|done|done|cbn; lia|right; eauto 10]. }
  destruct (git_path_is_ignored w relative) as [[]|e] eqn:Hgit;
    [apply git_path_is_ignored_true in Hgit|intros [= <- <-]; by apply outcome_refused..].
  destruct (create_dir_all _ _) as [fs [[]|e]] eqn:Hdirs; [|intros [= <- <-]; by eapply outcome_directories].
  destruct (copy_create_new w fs relative _ _ mode) as [fs' r'] eqn:Hcopy.
  assert (Hsub : cp_fs s ⊆ fs) by (eapply (create_dir_all_grows (λ _ _, True)); [|exact Hdirs]; done).
  apply (copy_create_new_outcome _ _ _ _ _ _ _ _ content) in Hcopy; [|by eapply open_metadata].
  destruct Hcopy as [[-> Hr]|(l & mode' & Hl & Hn & -> & Hmode)].
  - destruct r' as [[]|e]; [done|]. intros [= <- <-]. by eapply outcome_directories.
  - destruct r' as [[]|e]; intros [= <- <-]; eapply outcome_file; eauto; done.
Qed.

(** ** The way to a source *)

Lemma exact_relative_path_plain raw relative :
  exact_relative_path raw = Ok relative → relative ≠ [] ∧ Forall plain_name relative.
Proof. unfold exact_relative_path. intros Hok. inv_ok. split; [done|]. by eapply normal_parts_plain. Qed.

Lemma plain_names_dots names : Forall plain_name names → ".." ∉ names.
Proof. rewrite Forall_forall. intros Hall Hin. destruct (Hall _ Hin) as [Hn _]. apply Hn. set_solver. Qed.

Lemma prefix_snoc_inv {A} (pre l : list A) x : pre `prefix_of` l ++ [x] → pre `prefix_of` l ∨ pre = l ++ [x].
Proof.
  intros [k Hk]. induction k as [|y k _] using rev_ind; [right; by rewrite app_nil_r in Hk|].
  left. rewrite app_assoc in Hk. apply app_inj_tail in Hk as [-> _]. by exists k.
Qed.

Lemma canonical_snoc fs base name :
  canonical fs base → name ≠ ".." → fs !! (base ++ [name]) = Some Inode.Directory → canonical fs (base ++ [name]).
Proof.
  intros [Hdots Hdir] Hname Hn. split; [rewrite not_elem_of_app, list_elem_of_singleton; naive_solver|].
  intros pre Hne [Hpre| ->]%prefix_snoc_inv; [by apply Hdir|done].
Qed.

Lemma locate_child fs base name :
  canonical fs base → name ≠ ".." → locate fs false (base ++ [name]) = Ok (base ++ [name]).
Proof.
  intros Hbase Hname. rewrite locate_canonical by done. rewrite walk_cons, bool_decide_eq_false_2 by done.
  destruct (fs !! (base ++ [name])) as [[]|]; done || by rewrite walk_nil.
Qed.

Lemma metadata_child fs base name :
  canonical fs base → name ≠ ".." →
  symlink_metadata fs (base ++ [name]) = ok_or (fs !! (base ++ [name])) FsError.NotFound.
Proof.
  intros Hbase Hname. unfold symlink_metadata, entry. rewrite locate_child by done.
  cbn [mbind result_bind]. unfold entry_at. rewrite bool_decide_eq_false_2; [done|]. by destruct base.
Qed.

(** A source that was found behind components that are no links is at the place
    that its path spells. *)
Lemma source_plain fs relative base names i :
  canonical fs base → Forall plain_name names →
  reject_symlink_components fs relative base names = Ok tt → symlink_metadata fs (base ++ names) = Ok i →
  plain_way fs base names ∧ entry_at fs (base ++ names) = Some i.
Proof.
  intros Hbase Hnames. revert base Hbase. induction Hnames as [|name names Hname Hnames IH]; intros base Hbase Hrej Hmeta.
  { split; [split; [apply not_elem_of_nil|]|].
    - by intros pre Hne ->%prefix_nil_inv.
    - unfold symlink_metadata in Hmeta. apply entry_ok in Hmeta as (l & Hl & Hi).
      rewrite locate_canonical, walk_nil in Hl by done. injection Hl as <-. by rewrite app_nil_r. }
  assert (Hdots : name ≠ "..") by (destruct Hname as [Hn _]; set_solver).
  cbn [reject_symlink_components] in Hrej. rewrite metadata_child in Hrej by done.
  assert (Hwalk : ∃ l, walk MAX_LINKS fs false base (name :: names) = Ok l ∧ entry_at fs l = Some i).
  { apply entry_ok in Hmeta as (l & Hl & Hi). rewrite locate_canonical in Hl by done. eauto. }
  destruct Hwalk as (l & Hwalk & Hi). rewrite walk_cons, bool_decide_eq_false_2 in Hwalk by done.
  rewrite <- (app_cons_assoc base name names) in *.
  destruct (fs !! (base ++ [name])) as [[|mode content|target]|] eqn:He; cbn [ok_or] in Hrej; [| |done|].
  - destruct (IH (base ++ [name])) as [Hway Hat]; [by apply canonical_snoc|done..|].
    split; [|done]. apply plain_way_intro; [done| |done]. intros [target Ht]. congruence.
  - case_bool_decide as Hnil; [|done]. injection Hwalk as <-. subst names. rewrite app_nil_r. split; [|done].
    apply plain_way_intro; [done|intros [target Ht]; congruence|]. split; [apply not_elem_of_nil|].
    by intros pre Hne ->%prefix_nil_inv.
  - case_bool_decide; [|done]. injection Hwalk as <-. unfold entry_at in Hi. rewrite bool_decide_eq_false_2 in Hi; [congruence|].
    by destruct base.
Qed.

(** ** Bounds *)

Definition bytes_of (m : FileSystem) : N := map_fold (λ _ i n, (metadata_len i + n)%N) 0%N m.

Lemma bytes_of_insert (m : FileSystem) l i : m !! l = None → bytes_of (<[l := i]> m) = (metadata_len i + bytes_of m)%N.
Proof. intros Hl. unfold bytes_of. rewrite map_fold_insert_L; [done| |done]. intros. lia. Qed.

Lemma bytes_of_added (fs0 fs : FileSystem) l i :
  fs0 ⊆ fs → fs !! l = None →
  bytes_of (<[l := i]> fs ∖ fs0) = (metadata_len i + bytes_of (fs ∖ fs0))%N.
Proof.
  intros Hsub Hl. assert (fs0 !! l = None) by (eapply lookup_weaken_None; eauto).
  rewrite <- insert_difference' by done. apply bytes_of_insert. apply lookup_difference_None. by left.
Qed.

Lemma create_dir_all_ind (P : FileSystem → Prop) fs names fs' r :
  (∀ fs l, P fs → entry_at fs l = None → P (<[l := Inode.Directory]> fs)) →
  P fs → create_dir_all fs names = (fs', r) → P fs'.
Proof.
  intros Hstep. revert fs fs' r.
  assert (Hone : ∀ fs fs' path, P fs → create_dir fs path = Ok fs' → P fs').
  { intros fs fs' path Hfs (l & _ & Hn & ->)%create_dir_ok. by apply Hstep. }
  induction names as [|name names IH]; intros fs fs' r Hfs Hall; cbn [create_dir_all] in Hall.
  - destruct (create_dir fs _) as [fs1|[]] eqn:Hc; simplify_eq Hall; intros; subst; eauto.
  - destruct (create_dir fs _) as [fs1|[]] eqn:Hc; simplify_eq Hall; intros; subst; eauto.
    destruct (create_dir_all fs names) as [fs1 [[]|e]] eqn:Hp; [|simplify_eq; eauto].
    destruct (create_dir fs1 _) as [fs2|e] eqn:Hc2; simplify_eq; eauto.
Qed.

(** A loop whose turns establish [Q], and keep [I] when it goes on *)
Lemma copy_entries_ind (I Q : CopyState → Prop) w S D s raws s' r :
  (∀ s, I s → Q s) →
  (∀ s raw s' r, raw ∈ raws → I s → copy_outcome w S D s raw s' r → Q s' ∧ (r = Ok tt → I s')) →
  I s → copy_entries w S D s raws = (s', r) → Q s' ∧ (r = Ok tt → I s').
Proof.
  intros HIQ. revert s. induction raws as [|raw raws IH]; intros s Hturn Hs Hall; cbn [copy_entries] in Hall.
  - injection Hall as <- <-. auto.
  - destruct (copy_entry w S D s raw) as [s1 r1] eqn:Hturn1.
    apply copy_entry_outcome, Hturn in Hturn1 as [Hq Hi]; [|by left|done].
    destruct r1 as [[]|e]; [|injection Hall as <- <-; done].
    apply (IH s1); [|by apply Hi|done]. intros s2 raw2 s3 r3 Hin. apply Hturn. by right.
Qed.

Definition small_file (_ : place) (i : Inode) : Prop :=
  (∀ target, i ≠ Inode.Symlink target) ∧ (metadata_len i ≤ MAX_COPY_FILE_BYTES)%N.

Definition bounded (fs0 fs : FileSystem) : Prop :=
  grows small_file fs0 fs ∧ (bytes_of (fs ∖ fs0) ≤ MAX_COPY_TOTAL_BYTES)%N.

Lemma copy_outcome_bounded fs0 w S D s raw s' r :
  bounded fs0 (cp_fs s) → (bytes_of (cp_fs s ∖ fs0) ≤ cp_total s)%N → copy_outcome w S D s raw s' r →
  bounded fs0 (cp_fs s') ∧ (r = Ok tt → bytes_of (cp_fs s' ∖ fs0) ≤ cp_total s')%N.
Proof.
  intros [Hgrow Hmax] Htotal Hout.
  assert (Hdirs : ∀ names fs r1, create_dir_all (cp_fs s) names = (fs, r1) →
    grows small_file fs0 fs ∧ bytes_of (fs ∖ fs0) = bytes_of (cp_fs s ∖ fs0)).
  { intros names fs r1. apply (create_dir_all_ind
      (λ fs, grows small_file fs0 fs ∧ bytes_of (fs ∖ fs0) = bytes_of (cp_fs s ∖ fs0))); [|done].
    intros fs1 l [Hg Hb] Hl. split.
    - eapply grows_trans; [exact Hg|]. by apply grows_insert.
    - apply entry_at_none in Hl as [_ Hl]. rewrite bytes_of_added by (done || apply Hg). done. }
  destruct Hout as [s' e ->|s' rel _ -> _ Ht _|s' rel r e _ Hd|s' rel mode mode' content fs l r _ _ _ Hlen Ht Htop _ Hd _ Hl -> _].
  - done.
  - split; [done|]. intros _. lia.
  - apply Hdirs in Hd as [Hg Hb]. split; [|done]. split; [done|]. lia.
  - apply Hdirs in Hd as [Hg Hb]. apply entry_at_none in Hl as Hl'. destruct Hl' as [_ Hl'].
    assert (Hbytes : bytes_of (<[l := Inode.File mode' content]> fs ∖ fs0) = (N.of_nat (length content) + bytes_of (cp_fs s ∖ fs0))%N).
    { rewrite bytes_of_added by (done || apply Hg). by rewrite Hb. }
    split; [split|]; [|lia..]. eapply grows_trans; [exact Hg|]. by apply grows_insert.
Qed.

(** C29: copying is bounded and overwrites nothing.  Whatever links the two
    checkouts contain, whatever Git answers, wherever a copy fails and whether the
    call succeeds or not, every file, directory and link that was in the file
    system is still there unchanged; what was added are directories and files of
    at most 16 MiB, and all of them together hold at most 64 MiB. *)
Theorem copies_are_bounded w fs source destination contract fs' r :
  copy_declared_ignored_files w fs source destination contract = (fs', r) →
  (∀ p i, fs !! p = Some i → fs' !! p = Some i)
  ∧ (∀ p i, fs' !! p = Some i → fs !! p = None →
       i = Inode.Directory ∨ ∃ mode content, i = Inode.File mode content ∧ (N.of_nat (length content) ≤ 16777216)%N)
  ∧ (bytes_of (fs' ∖ fs) ≤ 67108864)%N.
Proof.
  unfold copy_declared_ignored_files.
  destruct (copy_entries _ _ _ _ _) as [s r'] eqn:Hall. intros Heq.
  assert (fs' = cp_fs s) as -> by (destruct r'; by simplify_eq).
  apply (copy_entries_ind (λ s, bounded fs (cp_fs s) ∧ (bytes_of (cp_fs s ∖ fs) ≤ cp_total s)%N)
           (λ s, bounded fs (cp_fs s))) in Hall as [[[Hsub Hnew] Hmax] _].
  - split_and!; [intros p i Hi; by eapply lookup_weaken| |done].
    intros p i Hi Hn. destruct (Hnew p i Hi Hn) as [Hlink Hlen].
    destruct i as [|mode content|target]; [by left|right; eauto|by destruct (Hlink target)].
  - by intros ? [? _].
  - intros s1 raw s2 r2 _ [Hb Ht] Hout. destruct (copy_outcome_bounded _ _ _ _ _ _ _ _ Hb Ht Hout) as [? ?]. auto.
  - cbn. unfold bounded. assert (bytes_of (fs ∖ fs) = 0%N) as -> by (by rewrite map_difference_diag).
    split; [split; [apply grows_refl|]|]; done.
Qed.

(** ** Where the copies go *)

Lemma canonical_mono fs fs' base : fs ⊆ fs' → canonical fs base → canonical fs' base.
Proof. intros Hsub [Hdots Hdir]. split; [done|]. intros pre Hne Hpre. eapply lookup_weaken; [by apply Hdir|done]. Qed.

Lemma plain_way_grows allowed fs fs' base names :
  grows allowed fs fs' → (∀ p i target, allowed p i → i ≠ Inode.Symlink target) →
  plain_way fs base names → plain_way fs' base names.
Proof.
  intros [Hsub Hnew] Hlinks [Hdots Hpre]. split; [done|]. intros pre Hne Hp [target Ht].
  destruct (fs !! (base ++ pre)) as [i|] eqn:Hi.
  - apply (Hpre pre Hne Hp). exists target. rewrite <- Ht, Hi. symmetry. by eapply lookup_weaken.
  - by eapply Hlinks in Hnew.
Qed.

Lemma prefix_app_cases {A} (pre l k : list A) : pre `prefix_of` l ++ k → pre `prefix_of` l ∨ ∃ sub, sub ≠ [] ∧ sub `prefix_of` k ∧ pre = l ++ sub.
Proof.
  revert pre. induction l as [|x l IH]; intros pre Hpre.
  - destruct pre as [|p pre]; [left; apply prefix_nil|right]. by exists (p :: pre).
  - destruct pre as [|p pre]; [left; apply prefix_nil|]. destruct Hpre as [m Hm]. injection Hm as -> Hm.
    destruct (IH pre (ex_intro _ m Hm)) as [[q ->]|(sub & ? & ? & ->)]; [left; by exists q|right; by exists sub].
Qed.

Lemma plain_from_root fs base names : canonical fs base → plain_way fs base names → plain_way fs [] (base ++ names).
Proof.
  intros [Hdots Hdir] [Hd Hp]. split; [by rewrite not_elem_of_app|].
  intros pre Hne [Hpre|(sub & Hsub & Hpre & ->)]%prefix_app_cases; [|by apply Hp].
  intros [target Ht]. cbn in Ht. by rewrite (Hdir pre Hne Hpre) in Ht.
Qed.

Lemma plain_way_prefix fs base pre names : pre `prefix_of` names → plain_way fs base names → plain_way fs base pre.
Proof.
  intros [k ->] [Hdots Hp]. split; [set_solver|]. intros q Hne [m ->]. apply Hp; [done|]. rewrite <- app_assoc. by exists (m ++ k).
Qed.

(** A missing place that is found on a plain way from a canonical directory is
    strictly below it. *)
Lemma missing_below fs base names pre l :
  canonical fs base → plain_way fs base names → pre `prefix_of` base ++ names →
  locate fs false pre = Ok l → entry_at fs l = None → ∃ sub, sub ≠ [] ∧ sub `prefix_of` names ∧ l = base ++ sub ∧ l = pre.
Proof.
  intros Hbase Hway Hpre Hl [Hne Hn]%entry_at_none.
  apply walk_plain in Hl; [|eapply plain_way_prefix; [exact Hpre|by apply plain_from_root]].
  cbn in Hl. subst l. apply prefix_app_cases in Hpre as [Hpre|(sub & ? & ? & ->)]; [|by exists sub].
  destruct Hbase as [_ Hdir]. by rewrite (Hdir pre Hne Hpre) in Hn.
Qed.

Lemma suffix_reverse_prefix {A} (pre l : list A) : pre `suffix_of` drop 1 (reverse l) → reverse pre `prefix_of` l.
Proof.
  intros [k Hk]. exists (reverse (take 1 (reverse l) ++ k)).
  rewrite <- reverse_app, <- app_assoc, <- Hk, take_drop. by rewrite reverse_involutive.
Qed.

Definition made_below (base : place) (p : place) (i : Inode) : Prop :=
  i = Inode.Directory ∧ ∃ sub, sub ≠ [] ∧ p = base ++ sub.

Lemma directories_below fs base names fs' r :
  canonical fs base → plain_way fs base names →
  create_dir_all fs (drop 1 (reverse (base ++ names))) = (fs', r) → grows (made_below base) fs fs'.
Proof.
  intros Hbase Hway. apply create_dir_all_grows. intros fs1 pre l Hgrow Hsuf%suffix_reverse_prefix Hl Hn.
  split; [done|]. assert (Hway1 : plain_way fs1 base names).
  { eapply plain_way_grows; [exact Hgrow| |done]. by intros p i target [-> _]. }
  destruct Hgrow as [Hsub _].
  destruct (missing_below fs1 base names (reverse pre) l) as (sub & ? & _ & ? & _); eauto using canonical_mono.
Qed.

(** A file that is created is found. *)
Lemma walk_insert links fs cur names l mode content :
  walk links fs false cur names = Ok l → entry_at fs l = None →
  walk links (<[l := Inode.File mode content]> fs) false cur names = Ok l.
Proof.
  intros Hwalk [Hne Hn]%entry_at_none. revert cur names Hwalk. induction links as [links IHl] using lt_wf_ind.
  intros cur names. revert cur. induction names as [|name names IH]; intros cur Hwalk; [by rewrite walk_nil in *|].
  rewrite walk_cons in *. case_bool_decide; [by apply IH|].
  destruct (fs !! (cur ++ [name])) as [e|] eqn:He.
  - rewrite lookup_insert_ne by congruence. rewrite He. destruct e as [| |target]; [by apply IH|done|].
    destruct (bool_decide _ && _); [done|]. destruct links as [|links]; [done|]. apply IHl; [lia|done].
  - case_bool_decide; [|done]. injection Hwalk as <-. by rewrite lookup_insert_eq.
Qed.

Section below.
Context (w : CopyWorld) (source destination : place) (declared : list string).

(** What a copy adds: a directory below the destination, or a declared file
    that Git ignores, with the content that it has in the source *)
Definition copied_below (fs : FileSystem) (p : place) (i : Inode) : Prop :=
  ∃ sub, sub ≠ [] ∧ p = destination ++ sub
    ∧ (i = Inode.Directory
       ∨ ∃ raw mode mode' content, raw ∈ declared ∧ exact_relative_path raw = Ok sub
           ∧ cw_check_ignore w sub = Ok (Some 0%Z)
           ∧ fs !! (source ++ sub) = Some (Inode.File mode content) ∧ i = Inode.File mode' content).

Definition served (fs0 fs : FileSystem) (raw : string) : Prop :=
  ∃ relative, exact_relative_path raw = Ok relative
    ∧ ((∃ fs1, fs0 ⊆ fs1 ∧ fs1 ⊆ fs ∧ symlink_metadata fs1 (source ++ relative) = Err FsError.NotFound)
       ∨ ∃ mode mode' content, symlink_metadata fs (source ++ relative) = Ok (Inode.File mode content)
           ∧ symlink_metadata fs (destination ++ relative) = Ok (Inode.File mode' content)).

Lemma copied_below_mono fs fs' p i : fs ⊆ fs' → copied_below fs p i → copied_below fs' p i.
Proof.
  intros Hsub (sub & Hne & Hp & Hi). exists sub. split_and!; [done..|].
  destruct Hi as [Hi|(raw & mode & mode' & content & ? & ? & ? & Hsrc & ?)]; [by left|right].
  exists raw, mode, mode', content. split_and!; try done. by eapply lookup_weaken.
Qed.

Lemma served_mono fs0 fs fs' raw : fs ⊆ fs' → served fs0 fs raw → served fs0 fs' raw.
Proof.
  intros Hsub (relative & Hraw & Hs). exists relative. split; [done|].
  destruct Hs as [(fs1 & ? & ? & ?)|(mode & mode' & content & Hm & Hm')].
  - left. exists fs1. split_and!; [done|by etrans|done].
  - right. exists mode, mode', content. split; by eapply entry_mono.
Qed.

Definition below_ok (fs0 fs : FileSystem) : Prop := grows (copied_below fs) fs0 fs.

Lemma below_ok_trans fs0 fs fs' : below_ok fs0 fs → grows (copied_below fs') fs fs' → below_ok fs0 fs'.
Proof.
  intros Hok Hgrow. eapply grows_trans; [|exact Hgrow]. eapply grows_impl; [|exact Hok].
  intros p i. apply copied_below_mono, Hgrow.
Qed.

Lemma copied_below_no_link fs p i target : copied_below fs p i → i ≠ Inode.Symlink target.
Proof. by intros (sub & _ & _ & [->|(? & ? & ? & ? & _ & _ & _ & _ & ->)]). Qed.

Context (fs0 : FileSystem) (Hsource : canonical fs0 source) (Hdest : canonical fs0 destination)
  (Hplain : ∀ raw relative, raw ∈ declared → exact_relative_path raw = Ok relative → plain_way fs0 destination relative).

Lemma directories_copied fs relative raw names' fs' r :
  raw ∈ declared → exact_relative_path raw = Ok relative → below_ok fs0 fs →
  names' = drop 1 (reverse (destination ++ relative)) → create_dir_all fs names' = (fs', r) → below_ok fs0 fs'.
Proof.
  intros Hin Hraw Hok -> Hd. eapply below_ok_trans; [exact Hok|]. destruct Hok as [Hsub Hnew].
  eapply grows_impl; [|apply (directories_below fs destination relative fs' r)]; [|by eapply canonical_mono| |done].
  - intros p i (-> & sub & ? & ?). exists sub. auto.
  - eapply plain_way_grows; [split; [exact Hsub|exact Hnew]| |by eapply Hplain]. intros p i t. apply copied_below_no_link.
Qed.

Lemma copy_outcome_below s raw s' r :
  raw ∈ declared → below_ok fs0 (cp_fs s) → copy_outcome w source destination s raw s' r →
  below_ok fs0 (cp_fs s') ∧ cp_fs s ⊆ cp_fs s' ∧ (r = Ok tt → served fs0 (cp_fs s') raw).
Proof.
  intros Hin Hok Hout.
  destruct Hout as [s' e ->|s' rel Hraw -> _ _ Hskip|s' rel r e Hraw Hd|
    s' rel mode mode' content fs l r Hraw Hrej Hmeta _ _ _ Hgit Hd Hloc Hl -> _].
  - done.
  - split_and!; [done..|]. intros _. exists rel. split; [done|].
    destruct Hskip as [Hmiss|Hsame]; [left|by right]. exists (cp_fs s). by split_and!; [apply Hok|done|].
  - assert (Hsub : cp_fs s ⊆ cp_fs s') by (eapply (create_dir_all_grows (λ _ _, True)); [|exact Hd]; done).
    split_and!; [by eapply directories_copied|done|done].
  - assert (Hsub : cp_fs s ⊆ fs) by (eapply (create_dir_all_grows (λ _ _, True)); [|exact Hd]; done).
    assert (Hfs : below_ok fs0 fs) by (by eapply directories_copied).
    destruct (exact_relative_path_plain _ _ Hraw) as [Hne Hnames].
    assert (Hgrow : grows (λ p i, p = l ∧ i = Inode.File mode' content) fs (<[l := Inode.File mode' content]> fs))
      by (by apply grows_insert).
    assert (Hsrc : entry_at (cp_fs s) (source ++ rel) = Some (Inode.File mode content)).
    { eapply source_plain; [|exact Hnames|exact Hrej|exact Hmeta]. eapply canonical_mono; [apply Hok|done]. }
    assert (Hbelow : l = destination ++ rel).
    { destruct (missing_below fs destination rel (destination ++ rel) l) as (sub & _ & _ & _ & ?);
        [eapply canonical_mono; [apply Hfs|done]| |done..].
      eapply plain_way_grows; [exact Hfs| |by eapply Hplain]. intros p i t. apply copied_below_no_link. }
    split_and!.
    + eapply below_ok_trans; [exact Hfs|]. eapply grows_impl; [|exact Hgrow].
      intros p i [-> ->]. exists rel. split_and!; [done..|]. right. exists raw, mode, mode', content.
      split_and!; try done. unfold entry_at in Hsrc. rewrite bool_decide_eq_false_2 in Hsrc
        by (intros [_ ?]%app_nil; done).
      eapply lookup_weaken; [exact Hsrc|]. etrans; [exact Hsub|apply Hgrow].
    + etrans; [exact Hsub|apply Hgrow].
    + intros _. exists rel. split; [done|]. right. exists mode, mode', content. split.
      * eapply entry_mono; [|exact Hmeta]. etrans; [exact Hsub|apply Hgrow].
      * apply entry_ok. exists l. split; [by apply walk_insert|]. apply entry_at_none in Hl as [Hne' _].
        unfold entry_at. by rewrite bool_decide_eq_false_2, lookup_insert_eq.
Qed.
End below.

(** C30: copies stay below the destination and are what the source has.  When the
    checkouts are canonical and no link lies on the way to a declared path in the
    destination, everything that [copy_declared_ignored_files] adds to the file
    system, whether it succeeds or not, is strictly below the destination: a
    directory, or a file at a declared path that Git ignores, with the content of
    the file at that path of the source, which is reached through no link; and
    when it succeeds every declared path was missing in the source at its turn or
    leads to files of the same content in both checkouts. *)
Theorem copies_stay_below w fs source destination contract fs' r :
  canonical fs source → canonical fs destination →
  (∀ raw relative, raw ∈ wt_copy_ignored (pc_worktree contract) → exact_relative_path raw = Ok relative →
                   plain_way fs destination relative) →
  copy_declared_ignored_files w fs source destination contract = (fs', r) →
  grows (copied_below w source destination (wt_copy_ignored (pc_worktree contract)) fs') fs fs'
  ∧ (is_ok r = true → Forall (served source destination fs fs') (wt_copy_ignored (pc_worktree contract))).
Proof.
  intros Hsource Hdest Hplain. unfold copy_declared_ignored_files.
  set (declared := wt_copy_ignored (pc_worktree contract)) in *.
  destruct (copy_entries _ _ _ _ _) as [s r'] eqn:Hall. intros Heq.
  assert (fs' = cp_fs s ∧ is_ok r = is_ok r') as [-> ->] by (destruct r'; by simplify_eq).
  change fs with (cp_fs (mkCopyState fs [] 0)) in Hall at 1. clear Heq.
  assert (Hgo : ∀ raws s0, (∀ raw, raw ∈ raws → raw ∈ declared) →
    below_ok w source destination declared fs (cp_fs s0) → copy_entries w source destination s0 raws = (s, r') →
    below_ok w source destination declared fs (cp_fs s) ∧ cp_fs s0 ⊆ cp_fs s
    ∧ (is_ok r' = true → Forall (served source destination fs (cp_fs s)) raws)).
  { clear Hall. induction raws as [|raw raws IH]; intros s0 Hin Hok Hall; cbn [copy_entries] in Hall.
    { injection Hall as -> <-. split_and!; [done..|]. intros _. constructor. }
    destruct (copy_entry w source destination s0 raw) as [s1 r1] eqn:Hturn. apply copy_entry_outcome in Hturn.
    eapply copy_outcome_below in Hturn as (Hok1 & Hsub1 & Hserved); [|exact Hsource|exact Hdest|exact Hplain|by apply Hin; left|done].
    destruct r1 as [[]|e]; [|by injection Hall as <- <-].
    destruct (IH s1) as (Hok2 & Hsub2 & Hrest); [by intros; apply Hin; right|done..|].
    split_and!; [done|by etrans|]. intros Hr. constructor; [|by apply Hrest].
    eapply served_mono; [exact Hsub2|]. by apply Hserved. }
  destruct (Hgo declared (mkCopyState fs [] 0)) as (Hok & _ & Hserved); [done|apply grows_refl|done|]. by split.
Qed.

Module CopyDemo.
(** The source [/s] has an ignored [/s/config/local.json]. *)
Definition world : CopyWorld := mkCopyWorld (λ _, Ok (Some 0%Z)) (λ _, None) (λ _, None).
Definition source_tree : FileSystem :=
  {[["s"] := Inode.Directory; ["s"; "config"] := Inode.Directory;
    ["s"; "config"; "local.json"] := Inode.File 420 (str_bytes "{}"); ["d"] := Inode.Directory]}.
Definition declared : ProjectContract :=
  mkProjectContract 1 (mkWorktreeContract ".worktrees" "main" ["config/local.json"; "absent"]) None ∅ [] [].
Definition copied_tree : FileSystem :=
  <[["d"; "config"; "local.json"] := Inode.File 420 (str_bytes "{}")]> (<[["d"; "config"] := Inode.Directory]> source_tree).

Lemma copies_are_bounded_witness :
  copy_declared_ignored_files world source_tree ["s"] ["d"] declared = (copied_tree, Ok [["config"; "local.json"]])
  ∧ (bytes_of (copied_tree ∖ source_tree) ≤ 67108864)%N.
Proof.
  assert (Hcopy : copy_declared_ignored_files world source_tree ["s"] ["d"] declared
                  = (copied_tree, Ok [["config"; "local.json"]])) by (apply (bool_decide_unpack _); vm_compute; exact I).
  split; [done|]. apply (copies_are_bounded world source_tree ["s"] ["d"] declared _ _ Hcopy).
Defined.

Lemma canonical_single fs name : name ≠ ".." → fs !! [name] = Some Inode.Directory → canonical fs [name].
Proof.
  intros Hname Hdir. split; [by intros ?%list_elem_of_singleton|].
  intros pre Hne [Hpre| ->]%(prefix_snoc_inv pre []); [by apply prefix_nil_inv in Hpre|done].
Qed.

Definition link_free (p : place) (i : Inode) : bool :=
  match i with Inode.Symlink _ => negb (bool_decide (head p = Some "d")) | _ => true end.

Lemma plain_below_d fs names :
  ".." ∉ names → map_Forall (λ p i, link_free p i = true) fs → plain_way fs ["d"] names.
Proof. intros Hdots Hall. split; [done|]. intros pre _ _ [t Ht]. by apply Hall in Ht. Qed.

Lemma copies_stay_below_witness :
  grows (copied_below world ["s"] ["d"] ["config/local.json"; "absent"] copied_tree) source_tree copied_tree
  ∧ Forall (served ["s"] ["d"] source_tree copied_tree) ["config/local.json"; "absent"].
Proof.
  assert (Hcopy : copy_declared_ignored_files world source_tree ["s"] ["d"] declared
                  = (copied_tree, Ok [["config"; "local.json"]])) by (apply (bool_decide_unpack _); vm_compute; exact I).
  destruct (copies_stay_below world source_tree ["s"] ["d"] declared _ _
              (canonical_single source_tree "s" ltac:(done) ltac:(vm_compute; reflexivity))
              (canonical_single source_tree "d" ltac:(done) ltac:(vm_compute; reflexivity))
              (λ raw relative _ Hraw, plain_below_d source_tree relative
                 (plain_names_dots relative (proj2 (exact_relative_path_plain raw relative Hraw)))
                 ltac:(by apply (bool_decide_unpack _); vm_compute)) Hcopy) as [Hgrow Hserved].
  split; [exact Hgrow|by apply Hserved].
Defined.

(** A link in the destination is followed: with [/d/config] a link to [/o], the
    file is made in [/o]. *)
Definition linked_tree : FileSystem :=
  <[["d"; "config"] := Inode.Symlink (mkLinkTarget true ["o"])]> (<[["o"] := Inode.Directory]> source_tree).

Lemma destination_links_are_followed :
  copy_declared_ignored_files world linked_tree ["s"] ["d"] declared
  = (<[["o"; "local.json"] := Inode.File 420 (str_bytes "{}")]> linked_tree, Ok [["config"; "local.json"]]).
Proof. apply (bool_decide_unpack _). vm_compute. exact I. Qed.
End CopyDemo.
