(* ===== verification/Lifecycle.v ===== *)
(** * The mission life cycle ([src/mission/model.rs])

    A mission is drafted, given a run target and a closure plan, and moves
    through its statuses by recorded transitions.  Becoming ready to close and
    being archived need a proof of [Evaluator.v]; every other transition follows
    a fixed graph. *)

From S2P Require Export Evaluator.

(** ** Data *)

Record MissionDefinition := mkMissionDefinition {
  md_id : string;
  md_title : string;
  md_repository_path : string;
  md_objective : string;
  md_acceptance_criteria : list string;
}.
#[export] Instance MissionDefinition_eq_dec : EqDecision MissionDefinition.
Proof. solve_decision. Defined.

Module ProviderKind.
Inductive ProviderKind := Codex | ClaudeCode | OpenCode | Acp.
#[export] Instance eq_dec : EqDecision ProviderKind.
Proof. solve_decision. Defined.
End ProviderKind.
Export (hints) ProviderKind.
Abbreviation ProviderKind := ProviderKind.ProviderKind.

Module ProviderMode.
Inductive ProviderMode := Managed | Passthrough.
#[export] Instance eq_dec : EqDecision ProviderMode.
Proof. solve_decision. Defined.
End ProviderMode.
Export (hints) ProviderMode.
Abbreviation ProviderMode := ProviderMode.ProviderMode.

Record RunTarget := mkRunTarget {
  rt_run_id : string;
  rt_provider : ProviderKind;
  rt_mode : ProviderMode;
  rt_base_revision : string;
  rt_worktree_path : string;
}.
#[export] Instance RunTarget_eq_dec : EqDecision RunTarget.
Proof. solve_decision. Defined.

Module MissionStatus.
Inductive MissionStatus :=
| Draft
| Preparing
| Active
| ReviewRequired
| ReadyToClose
| Blocked
| Failed
| Archived.
#[export] Instance eq_dec : EqDecision MissionStatus.
Proof. solve_decision. Defined.
End MissionStatus.
Export (hints) MissionStatus.
Abbreviation MissionStatus := MissionStatus.MissionStatus.

Record MissionTransition := mkMissionTransition {
  mt_from : option MissionStatus;
  mt_to : MissionStatus;
  mt_actor : string;
  mt_reason : string;
  mt_at_millis : N;
}.

Record ProofReceipt := mkProofReceipt {
  pr_subject_digest : string;
  pr_seal_digest : string;
  pr_authority_head_digest : string;
  pr_lease_digest : string;
  pr_authority_sequence : N;
  pr_verified_at_millis : N;
}.
#[export] Instance ProofReceipt_eq_dec : EqDecision ProofReceipt.
Proof. solve_decision. Defined.

Record MissionLifecycle := mkMissionLifecycle {
  ml_definition : MissionDefinition;
  ml_status : MissionStatus;
  ml_run_target : option RunTarget;
  ml_closure_plan : option ClosurePlan;
  ml_history : list MissionTransition;
  ml_ready_receipt : option ProofReceipt;
  ml_archive_receipt : option ProofReceipt;
}.
#[export] Instance MissionLifecycle_fields : Fields MissionLifecycle := λ l,
  mkMissionLifecycle (ml_definition l) (ml_status l) (ml_run_target l) (ml_closure_plan l)
    (ml_history l) (ml_ready_receipt l) (ml_archive_receipt l).

Record ReadyProof := mkReadyProof {
  rdy_mission_id : string;
  rdy_verified : VerifiedProof;
}.

Record ArchiveProof := mkArchiveProof {
  arc_mission_id : string;
  arc_verified : VerifiedProof;
  arc_ready_seal_digest : string;
}.

Module MissionError.
Inductive MissionError :=
| EmptyMissionId
| EmptyTitle
| RepositoryPathNotAbsolute
| EmptyObjective
| MissingAcceptanceCriteria
| EmptyRunId
| EmptyBaseRevision
| WorktreePathNotAbsolute
| InvalidTransition (from to : MissionStatus)
| RunTargetCannotBeChanged (status : MissionStatus)
| SealedTransitionRequired (status : MissionStatus)
| ProofScopeMismatch
| ProofFromFuture
| ReadyReceiptMissing
| ProofBasisChanged
| FreshArchiveProofRequired
| InvalidProofIdentity
| InvalidProofEvaluation
| InvalidClosurePlan
| ClosurePlanMissing
| ProofContractMismatch
| EmptyTransitionActor
| EmptyTransitionReason
| TransitionTimeWentBackwards
| MissionHasNoRunTarget.
#[export] Instance eq_dec : EqDecision MissionError.
Proof. solve_decision. Defined.
End MissionError.
Export (hints) MissionError.
Abbreviation MissionError := MissionError.MissionError.

(** ** Operations *)

(** [MissionDefinition::new] *)
Definition MissionDefinition_new (id title repository_path objective : string)
    (acceptance_criteria : list string) : result MissionError MissionDefinition :=
  let acceptance_criteria :=
    filter (λ criterion, trim_is_empty criterion = false) acceptance_criteria in
  _ ← reject_if (trim_is_empty id) MissionError.EmptyMissionId;
  _ ← reject_if (trim_is_empty title) MissionError.EmptyTitle;
  _ ← reject_if (negb (path_is_absolute repository_path)) MissionError.RepositoryPathNotAbsolute;
  _ ← reject_if (trim_is_empty objective) MissionError.EmptyObjective;
  _ ← reject_if (bool_decide (acceptance_criteria = [])) MissionError.MissingAcceptanceCriteria;
  Ok (mkMissionDefinition id title repository_path objective acceptance_criteria).

(** [RunTarget::new] *)
Definition RunTarget_new (run_id : string) (provider : ProviderKind) (mode : ProviderMode)
    (base_revision worktree_path : string) : result MissionError RunTarget :=
  _ ← reject_if (trim_is_empty run_id) MissionError.EmptyRunId;
  _ ← reject_if (trim_is_empty base_revision) MissionError.EmptyBaseRevision;
  _ ← reject_if (negb (path_is_absolute worktree_path)) MissionError.WorktreePathNotAbsolute;
  Ok (mkRunTarget run_id provider mode base_revision worktree_path).

(** [MissionStatus::as_str] *)
Definition status_as_str (s : MissionStatus) : string :=
  match s with
  | MissionStatus.Draft => "draft"
  | MissionStatus.Preparing => "preparing"
  | MissionStatus.Active => "active"
  | MissionStatus.ReviewRequired => "review_required"
  | MissionStatus.ReadyToClose => "ready_to_close"
  | MissionStatus.Blocked => "blocked"
  | MissionStatus.Failed => "failed"
  | MissionStatus.Archived => "archived"
  end.

(** [MissionStatus::can_persist_from], called on the next status *)
Definition can_persist_from (self from : MissionStatus) : bool :=
  match from, self with
  | MissionStatus.Draft, MissionStatus.Preparing
  | MissionStatus.Preparing, MissionStatus.Active
  | MissionStatus.Preparing, MissionStatus.Blocked
  | MissionStatus.Preparing, MissionStatus.Failed
  | MissionStatus.Active, MissionStatus.ReviewRequired
  | MissionStatus.Active, MissionStatus.Blocked
  | MissionStatus.Active, MissionStatus.Failed
  | MissionStatus.Blocked, MissionStatus.Preparing
  | MissionStatus.Blocked, MissionStatus.Active
  | MissionStatus.Blocked, MissionStatus.Failed
  | MissionStatus.ReviewRequired, MissionStatus.Active
  | MissionStatus.ReviewRequired, MissionStatus.Blocked
  | MissionStatus.ReviewRequired, MissionStatus.Failed
  | MissionStatus.ReadyToClose, MissionStatus.Active
  | MissionStatus.ReadyToClose, MissionStatus.Blocked => true
  | _, _ => false
  end.

(** [MissionLifecycle::can_transition] *)
Definition can_transition (from to : MissionStatus) : bool :=
  match from, to with
  | MissionStatus.Preparing, MissionStatus.Active
  | MissionStatus.Preparing, MissionStatus.Blocked
  | MissionStatus.Preparing, MissionStatus.Failed
  | MissionStatus.Active, MissionStatus.ReviewRequired
  | MissionStatus.Active, MissionStatus.Blocked
  | MissionStatus.Active, MissionStatus.Failed
  | MissionStatus.Blocked, MissionStatus.Preparing
  | MissionStatus.Blocked, MissionStatus.Active
  | MissionStatus.Blocked, MissionStatus.Failed
  | MissionStatus.ReviewRequired, MissionStatus.Active
  | MissionStatus.ReviewRequired, MissionStatus.Blocked
  | MissionStatus.ReviewRequired, MissionStatus.Failed
  | MissionStatus.ReadyToClose, MissionStatus.Active
  | MissionStatus.ReadyToClose, MissionStatus.Blocked => true
  | _, _ => false
  end.

(** [MissionLifecycle::record_transition] *)
Definition record_transition (l : MissionLifecycle) (next : MissionStatus) (actor reason : string)
    (at_millis : N) : result MissionError MissionLifecycle :=
  _ ← reject_if (trim_is_empty actor) MissionError.EmptyTransitionActor;
  _ ← reject_if (trim_is_empty reason) MissionError.EmptyTransitionReason;
  _ ← reject_if (match last (ml_history l) with
                 | Some transition => (at_millis <? mt_at_millis transition)%N
                 | None => false
                 end) MissionError.TransitionTimeWentBackwards;
  let previous := ml_status l in
  Ok (l <| ml_status := next |>
        <| ml_history ::= λ h,
             h ++ [mkMissionTransition (Some previous) next actor reason at_millis] |>).

(** [MissionLifecycle::draft] *)
Definition draft (definition : MissionDefinition) (at_millis : N) : MissionLifecycle :=
  {| ml_definition := definition;
     ml_status := MissionStatus.Draft;
     ml_run_target := None;
     ml_closure_plan := None;
     ml_history :=
       [mkMissionTransition None MissionStatus.Draft "system" "mission created" at_millis];
     ml_ready_receipt := None;
     ml_archive_receipt := None |}.

(** [MissionLifecycle::transition] *)
Definition transition (l : MissionLifecycle) (next : MissionStatus) (actor reason : string)
    (at_millis : N) : result MissionError MissionLifecycle :=
  _ ← reject_if (bool_decide (next = MissionStatus.ReadyToClose)
                 || bool_decide (next = MissionStatus.Archived))
        (MissionError.SealedTransitionRequired next);
  _ ← reject_if (negb (can_transition (ml_status l) next))
        (MissionError.InvalidTransition (ml_status l) next);
  let l := if bool_decide (ml_status l = MissionStatus.ReadyToClose)
           then l <| ml_ready_receipt := None |> else l in
  record_transition l next actor reason at_millis.

(** [MissionLifecycle::proof_identity] *)
Definition proof_identity (l : MissionLifecycle) : result MissionError ProofIdentity :=
  target ← ok_or (ml_run_target l) MissionError.MissionHasNoRunTarget;
  map_err (λ _, MissionError.InvalidProofIdentity)
    (ProofIdentity_new (md_id (ml_definition l)) (rt_run_id target)
       (md_repository_path (ml_definition l)) (rt_worktree_path target) (rt_base_revision target)).

Section lifecycle.
Context {HSha : Sha256}.

(** [MissionDefinition::criterion_ids] *)
Definition criterion_ids (acceptance_criteria : list string) : list string :=
  imap (λ index criterion,
    digest_new "mission-criterion-v1"
    |>> digest_u64 (N.of_nat index)
    |>> digest_string criterion
    |>> digest_finish) acceptance_criteria.

(** [ProofReceipt::from_verified] *)
Definition receipt_from_verified (proof : VerifiedProof) : ProofReceipt :=
  {| pr_subject_digest := subject_digest proof;
     pr_seal_digest := seal_digest proof;
     pr_authority_head_digest := vp_authority_head_digest proof;
     pr_lease_digest := vp_lease_digest proof;
     pr_authority_sequence := vp_authority_sequence proof;
     pr_verified_at_millis := vp_verified_at_millis proof |}.

(** [ReadyProof::into_receipt], [ArchiveProof::into_receipt] *)
Definition ready_into_receipt (p : ReadyProof) : string * ProofReceipt :=
  (rdy_mission_id p, receipt_from_verified (rdy_verified p)).
Definition archive_into_receipt (p : ArchiveProof) : string * string * ProofReceipt :=
  (arc_mission_id p, arc_ready_seal_digest p, receipt_from_verified (arc_verified p)).

(** [MissionLifecycle::with_run_target] *)
Definition with_run_target (l : MissionLifecycle) (target : RunTarget)
    (closure_checks : list CheckDeclaration) (actor : string) (at_millis : N) :
    result MissionError MissionLifecycle :=
  _ ← reject_if (negb (bool_decide (ml_status l = MissionStatus.Draft)
                       || bool_decide (ml_status l = MissionStatus.Failed)))
        (MissionError.RunTargetCannotBeChanged (ml_status l));
  closure_plan ← map_err (λ _, MissionError.InvalidClosurePlan)
    (ClosurePlan_new (criterion_ids (md_acceptance_criteria (ml_definition l))) closure_checks);
  record_transition (l <| ml_run_target := Some target |> <| ml_closure_plan := Some closure_plan |>)
    MissionStatus.Preparing actor "run target configured" at_millis.

(** [MissionLifecycle::mark_ready_to_close] *)
Definition mark_ready_to_close (l : MissionLifecycle) (proof : ReadyProof) (actor reason : string)
    (at_millis : N) : result MissionError MissionLifecycle :=
  _ ← reject_if (negb (bool_decide (ml_status l = MissionStatus.ReviewRequired)))
        (MissionError.InvalidTransition (ml_status l) MissionStatus.ReadyToClose);
  let proof := rdy_verified proof in
  identity ← proof_identity l;
  _ ← reject_if (negb (matches_identity proof identity)) MissionError.ProofScopeMismatch;
  closure_plan ← ok_or (ml_closure_plan l) MissionError.ClosurePlanMissing;
  _ ← reject_if (negb (matches_closure_plan proof closure_plan)) MissionError.ProofContractMismatch;
  _ ← reject_if (at_millis <? vp_verified_at_millis proof)%N MissionError.ProofFromFuture;
  record_transition (l <| ml_ready_receipt := Some (receipt_from_verified proof) |>)
    MissionStatus.ReadyToClose actor reason at_millis.

(** [MissionLifecycle::archive_with_fresh_proof] *)
Definition archive_with_fresh_proof (l : MissionLifecycle) (proof : ArchiveProof)
    (actor reason : string) (at_millis : N) : result MissionError MissionLifecycle :=
  _ ← reject_if (negb (bool_decide (ml_status l = MissionStatus.ReadyToClose)))
        (MissionError.InvalidTransition (ml_status l) MissionStatus.Archived);
  ready ← ok_or (ml_ready_receipt l) MissionError.ReadyReceiptMissing;
  _ ← reject_if (negb (bool_decide (arc_ready_seal_digest proof = pr_seal_digest ready)))
        MissionError.ProofBasisChanged;
  let proof := arc_verified proof in
  identity ← proof_identity l;
  _ ← reject_if (negb (matches_identity proof identity)) MissionError.ProofScopeMismatch;
  closure_plan ← ok_or (ml_closure_plan l) MissionError.ClosurePlanMissing;
  _ ← reject_if (negb (matches_closure_plan proof closure_plan)) MissionError.ProofContractMismatch;
  _ ← reject_if (negb (bool_decide (subject_digest proof = pr_subject_digest ready)))
        MissionError.ProofBasisChanged;
  _ ← reject_if ((vp_authority_sequence proof <=? pr_authority_sequence ready)
                 || (vp_verified_at_millis proof <? pr_verified_at_millis ready)
                 || (at_millis <? vp_verified_at_millis proof))%N
        MissionError.FreshArchiveProofRequired;
  record_transition (l <| ml_archive_receipt := Some (receipt_from_verified proof) |>)
    MissionStatus.Archived actor reason at_millis.

(** [MissionLifecycle::evaluate_proof] *)
Definition evaluate_proof (l : MissionLifecycle) (declarations : list CheckDeclaration)
    (records : gmap string EvidenceRecord) (current : WorkspaceSnapshot)
    (unresolved_attention_ids : gset string) (authority : AuthoritySnapshot) :
    result MissionError ProofReport :=
  identity ← proof_identity l;
  closure_plan ← ok_or (ml_closure_plan l) MissionError.ClosurePlanMissing;
  map_err (λ _, MissionError.InvalidProofEvaluation)
    (evaluate identity closure_plan declarations records current unresolved_attention_ids authority).

(** [MissionLifecycle::evaluate_ready_proof] *)
Definition evaluate_ready_proof (l : MissionLifecycle) (declarations : list CheckDeclaration)
    (records : gmap string EvidenceRecord) (current : WorkspaceSnapshot)
    (unresolved_attention_ids : gset string) (authority : AuthoritySnapshot) :
    result MissionError ReadyProof :=
  _ ← reject_if (negb (bool_decide (ml_status l = MissionStatus.ReviewRequired)))
        (MissionError.InvalidTransition (ml_status l) MissionStatus.ReadyToClose);
  report ← evaluate_proof l declarations records current unresolved_attention_ids authority;
  verified ← map_err (λ _, MissionError.InvalidProofEvaluation) (into_verified report);
  Ok (mkReadyProof (md_id (ml_definition l)) verified).

(** [MissionLifecycle::evaluate_archive_proof] *)
Definition evaluate_archive_proof (l : MissionLifecycle) (declarations : list CheckDeclaration)
    (records : gmap string EvidenceRecord) (current : WorkspaceSnapshot)
    (unresolved_attention_ids : gset string) (authority : AuthoritySnapshot) :
    result MissionError ArchiveProof :=
  _ ← reject_if (negb (bool_decide (ml_status l = MissionStatus.ReadyToClose)))
        (MissionError.InvalidTransition (ml_status l) MissionStatus.Archived);
  ready ← ok_or (ml_ready_receipt l) MissionError.ReadyReceiptMissing;
  report ← evaluate_proof l declarations records current unresolved_attention_ids authority;
  verified ← map_err (λ _, MissionError.InvalidProofEvaluation) (into_verified report);
  _ ← reject_if (negb (bool_decide (subject_digest verified = pr_subject_digest ready))
                 || (vp_authority_sequence verified <=? pr_authority_sequence ready)%N
                 || (vp_verified_at_millis verified <? pr_verified_at_millis ready)%N)
        MissionError.FreshArchiveProofRequired;
  Ok (mkArchiveProof (md_id (ml_definition l)) verified (pr_seal_digest ready)).
End lifecycle.

(** ** The life cycle as a state machine *)

(** The graph of recorded transitions: the plain ones, the configuration of a
    run target and the two sealed ones. *)
Definition edge (from to : MissionStatus) : bool :=
  can_transition from to
  || match from, to with
     | MissionStatus.Draft, MissionStatus.Preparing
     | MissionStatus.Failed, MissionStatus.Preparing
     | MissionStatus.ReviewRequired, MissionStatus.ReadyToClose
     | MissionStatus.ReadyToClose, MissionStatus.Archived => true
     | _, _ => false
     end.

Inductive history_ok : list MissionTransition → MissionStatus → Prop :=
| history_draft t :
    mt_from t = None → mt_to t = MissionStatus.Draft → history_ok [t] MissionStatus.Draft
| history_snoc h u t from :
    history_ok h from → last h = Some u → (mt_at_millis u ≤ mt_at_millis t)%N →
    mt_from t = Some from → edge from (mt_to t) = true →
    history_ok (h ++ [t]) (mt_to t).

Section machine.
Context {HSha : Sha256}.

Inductive lifecycle_step : MissionLifecycle → MissionLifecycle → Prop :=
| step_run_target l target checks actor at_ l' :
    with_run_target l target checks actor at_ = Ok l' → lifecycle_step l l'
| step_transition l next actor reason at_ l' :
    transition l next actor reason at_ = Ok l' → lifecycle_step l l'
| step_ready l proof actor reason at_ l' :
    mark_ready_to_close l proof actor reason at_ = Ok l' → lifecycle_step l l'
| step_archive l proof actor reason at_ l' :
    archive_with_fresh_proof l proof actor reason at_ = Ok l' → lifecycle_step l l'.

Inductive lifecycle_reachable : MissionLifecycle → Prop :=
| reachable_draft definition at_ : lifecycle_reachable (draft definition at_)
| reachable_step l l' : lifecycle_reachable l → lifecycle_step l l' → lifecycle_reachable l'.

(** The receipts a status goes with *)
Definition receipts_ok (l : MissionLifecycle) : Prop :=
  match ml_status l with
  | MissionStatus.ReadyToClose => is_Some (ml_ready_receipt l) ∧ ml_archive_receipt l = None
  | MissionStatus.Archived =>
      ∃ ready archive, ml_ready_receipt l = Some ready ∧ ml_archive_receipt l = Some archive
        ∧ pr_subject_digest archive = pr_subject_digest ready
        ∧ (pr_authority_sequence ready < pr_authority_sequence archive)%N
        ∧ (pr_verified_at_millis ready ≤ pr_verified_at_millis archive)%N
  | _ => ml_ready_receipt l = None ∧ ml_archive_receipt l = None
  end.

Definition lifecycle_ok (l : MissionLifecycle) : Prop :=
  history_ok (ml_history l) (ml_status l)
  ∧ (ml_status l ≠ MissionStatus.Draft →
     is_Some (ml_run_target l)
     ∧ ∃ plan checks, ml_closure_plan l = Some plan
         ∧ ClosurePlan_new (criterion_ids (md_acceptance_criteria (ml_definition l))) checks = Ok plan)
  ∧ receipts_ok l.

Lemma record_transition_ok l next actor reason at_ l' :
  record_transition l next actor reason at_ = Ok l' ↔
  trim_is_empty actor = false ∧ trim_is_empty reason = false
  ∧ (∀ t, last (ml_history l) = Some t → (mt_at_millis t ≤ at_)%N)
  ∧ l' = l <| ml_status := next |>
           <| ml_history := ml_history l
                ++ [mkMissionTransition (Some (ml_status l)) next actor reason at_] |>.
Proof.
  unfold record_transition. split.
  - intros Hok. apply bind_ok in Hok as ([] & Ha & Hok). apply bind_ok in Hok as ([] & Hr & Hok).
    apply bind_ok in Hok as ([] & Ht & Hok). inv_ok. split_and!; try done.
    intros t Hlast. rewrite Hlast in Ht. by apply N.ltb_ge in Ht.
  - intros (-> & -> & Ht & ->). cbn.
    destruct (last (ml_history l)) as [t|]; [|done].
    rewrite (proj2 (N.ltb_ge _ _)) by auto. done.
Qed.

Lemma history_last h s : history_ok h s → ∃ u, last h = Some u ∧ mt_to u = s.
Proof.
  intros Hh. destruct Hh as [t|h u t from]; [by exists t|]. exists t. by rewrite last_snoc.
Qed.

Lemma history_record l next actor reason at_ l' :
  record_transition l next actor reason at_ = Ok l' →
  history_ok (ml_history l) (ml_status l) → edge (ml_status l) next = true →
  history_ok (ml_history l') next.
Proof.
  intros (_ & _ & Ht & ->)%record_transition_ok Hh Hedge. cbn.
  destruct (history_last _ _ Hh) as (u & Hu & _).
  eapply (history_snoc (ml_history l) u (mkMissionTransition _ next actor reason at_));
    try done. cbn. by apply Ht.
Qed.

Lemma edge_of_can_transition from to : can_transition from to = true → edge from to = true.
Proof. unfold edge. by intros ->. Qed.

Lemma transition_preserves l next actor reason at_ l' :
  lifecycle_ok l → transition l next actor reason at_ = Ok l' → lifecycle_ok l'.
Proof.
  intros (Hh & Htarget & Hrec) Hok. unfold transition in Hok.
  apply bind_ok in Hok as ([] & Hsealed & Hok). apply bind_ok in Hok as ([] & Hcan & Hok).
  inv_ok. cbv zeta in Hok. set (m := if bool_decide _ then _ else _) in Hok.
  assert (Hm : ml_status m = ml_status l ∧ ml_history m = ml_history l
    ∧ ml_run_target m = ml_run_target l ∧ ml_closure_plan m = ml_closure_plan l
    ∧ ml_definition m = ml_definition l
    ∧ ml_ready_receipt m = None ∧ ml_archive_receipt m = None).
  { subst m. unfold receipts_ok in Hrec. case_bool_decide as Hs.
    - rewrite Hs in Hrec. cbn. destruct Hrec as [_ Harch]. split_and!; done.
    - destruct (ml_status l) eqn:Hst; try done; split_and!; naive_solver. }
  destruct Hm as (Hms & Hmh & Hmt & Hmp & Hmd & Hmr & Hma).
  assert (Hhist : history_ok (ml_history l') next).
  { eapply history_record; [exact Hok|by rewrite Hmh, Hms|].
    apply edge_of_can_transition. by rewrite Hms. }
  apply record_transition_ok in Hok as (_ & _ & _ & ->). cbn in *.
  split; [done|]. split.
  - intros _. cbn. rewrite Hmt, Hmp, Hmd. apply Htarget. intros Hd. rewrite Hd in Hcan. by destruct next.
  - unfold receipts_ok. cbn. by destruct next.
Qed.

Lemma with_run_target_preserves l target checks actor at_ l' :
  lifecycle_ok l → with_run_target l target checks actor at_ = Ok l' → lifecycle_ok l'.
Proof.
  intros (Hh & Htarget & Hrec) Hok. unfold with_run_target in Hok.
  apply bind_ok in Hok as ([] & Hst & Hok). apply bind_ok in Hok as (plan & Hplan & Hok).
  assert (Hs : ml_status l = MissionStatus.Draft ∨ ml_status l = MissionStatus.Failed).
  { apply reject_if_ok in Hst. destruct (ml_status l); naive_solver. }
  assert (Hedge : edge (ml_status l) MissionStatus.Preparing = true) by (by destruct Hs as [->| ->]).
  pose proof (history_record _ _ _ _ _ _ Hok Hh Hedge) as Hh'.
  apply record_transition_ok in Hok as (_ & _ & _ & ->). cbn in Hh' |- *.
  split; [done|]. split.
  - intros _. split; [by eexists|]. exists plan, checks. inv_ok. done.
  - unfold receipts_ok in *. cbn. by destruct Hs as [Hs|Hs]; rewrite Hs in Hrec.
Qed.

Lemma mark_ready_preserves l proof actor reason at_ l' :
  lifecycle_ok l → mark_ready_to_close l proof actor reason at_ = Ok l' → lifecycle_ok l'.
Proof.
  intros (Hh & Htarget & Hrec) Hok. unfold mark_ready_to_close in Hok.
  apply bind_ok in Hok as ([] & Hst & Hok). do 5 apply bind_ok in Hok as (? & _ & Hok).
  inv_ok.
  pose proof (history_record _ _ _ _ _ _ Hok Hh ltac:(cbn; by rewrite Hst)) as Hh'.
  apply record_transition_ok in Hok as (_ & _ & _ & ->). cbn in Hh' |- *.
  split; [done|]. split; [intros _; apply Htarget; by rewrite Hst|].
  unfold receipts_ok in *. cbn. rewrite Hst in Hrec. split; [by eexists|by destruct Hrec].
Qed.

Lemma archive_preserves l proof actor reason at_ l' :
  lifecycle_ok l → archive_with_fresh_proof l proof actor reason at_ = Ok l' → lifecycle_ok l'.
Proof.
  intros (Hh & Htarget & Hrec) Hok. unfold archive_with_fresh_proof in Hok.
  apply bind_ok in Hok as ([] & Hst & Hok). apply bind_ok in Hok as (ready & Hready & Hok).
  do 4 apply bind_ok in Hok as (? & _ & Hok).
  apply bind_ok in Hok as ([] & _ & Hok). apply bind_ok in Hok as ([] & Hsub & Hok).
  apply bind_ok in Hok as ([] & Hfresh & Hok). inv_ok.
  pose proof (history_record _ _ _ _ _ _ Hok Hh ltac:(cbn; by rewrite Hst)) as Hh'.
  apply record_transition_ok in Hok as (_ & _ & _ & ->). cbn in Hh' |- *.
  split; [done|]. split; [intros _; apply Htarget; by rewrite Hst|].
  unfold receipts_ok. cbn. exists ready, (receipt_from_verified (arc_verified proof)). done.
Qed.

Lemma lifecycle_step_preserves l l' : lifecycle_ok l → lifecycle_step l l' → lifecycle_ok l'.
Proof.
  intros Hl. destruct 1; eauto using with_run_target_preserves, transition_preserves,
    mark_ready_preserves, archive_preserves.
Qed.

Lemma lifecycle_reachable_ok l : lifecycle_reachable l → lifecycle_ok l.
Proof.
  induction 1 as [definition at_|l l' _ IH Hstep]; [|by eapply lifecycle_step_preserves].
  split; [by apply history_draft|]. by split.
Qed.

Lemma history_path h s :
  history_ok h s → s ≠ MissionStatus.Draft →
  ∃ h' from, history_ok h' from ∧ edge from s = true
    ∧ ∃ t, h = h' ++ [t] ∧ mt_from t = Some from ∧ mt_to t = s.
Proof. intros Hh. destruct Hh as [|h u t from]; [done|]. intros _. exists h, from. eauto 8. Qed.
End machine.

(** C20: The invariant of a mission's life cycle.  In every reachable state the
    history is a path of the transition graph from the draft to the current
    status with times that never go back; a mission past the draft has a run
    target and a closure plan its criteria justify; and it holds a ready
    receipt exactly while it is ready to close or archived, an archive receipt
    exactly when it is archived, about the same subject at a later authority
    sequence. *)
Theorem lifecycle_invariant {HSha : Sha256} l :
  lifecycle_reachable l →
  history_ok (ml_history l) (ml_status l)
  ∧ (ml_status l ≠ MissionStatus.Draft →
     is_Some (ml_run_target l)
     ∧ ∃ plan checks, ml_closure_plan l = Some plan
         ∧ ClosurePlan_new (criterion_ids (md_acceptance_criteria (ml_definition l))) checks = Ok plan)
  ∧ receipts_ok l.
Proof. apply lifecycle_reachable_ok. Qed.

(** Archiving is earned and final.  An archived mission got there from
    review through the ready state, in its last two transitions, and no
    operation changes it any more. *)
Theorem archived_is_final {HSha : Sha256} l :
  lifecycle_reachable l → ml_status l = MissionStatus.Archived →
  (∃ h review ready archive, ml_history l = h ++ [review; ready; archive]
     ∧ mt_to review = MissionStatus.ReviewRequired
     ∧ mt_to ready = MissionStatus.ReadyToClose
     ∧ mt_to archive = MissionStatus.Archived)
  ∧ ¬ ∃ l', lifecycle_step l l'.
Proof.
  intros Hl Hst. apply lifecycle_reachable_ok in Hl as (Hh & _ & _). rewrite Hst in Hh. split.
  - apply history_path in Hh as (h1 & s1 & Hh1 & He1 & t1 & -> & _ & Ht1); [|done].
    destruct s1; try discriminate He1.
    apply history_path in Hh1 as (h2 & s2 & Hh2 & He2 & t2 & -> & _ & Ht2); [|done].
    destruct s2; try discriminate He2.
    apply history_path in Hh2 as (h3 & s3 & _ & _ & t3 & -> & _ & Ht3); [|done].
    exists h3, t3, t2, t1. rewrite <- !app_assoc. done.
  - intros [l' Hstep]. destruct Hstep as [? ? ? ? ? ? Hok|? next ? ? ? ? Hok|? ? ? ? ? ? Hok|? ? ? ? ? ? Hok].
    + unfold with_run_target in Hok. by rewrite Hst in Hok.
    + unfold transition in Hok. rewrite Hst in Hok. by destruct next.
    + unfold mark_ready_to_close in Hok. by rewrite Hst in Hok.
    + unfold archive_with_fresh_proof in Hok. by rewrite Hst in Hok.
Qed.

(** An evaluated proof closes the mission it was evaluated for.  The proof
    [evaluate_ready_proof] returns is accepted by [mark_ready_to_close] on the
    same mission, at any time from the moment of capture on, and the mission's
    receipt is the proof's; the evaluation itself needed every required check
    passed, every criterion covered and no open attention. *)
Theorem ready_proof_accepted {HSha : Sha256} l ds records current attention authority proof
    actor reason at_ :
  evaluate_ready_proof l ds records current attention authority = Ok proof →
  trim_is_empty actor = false → trim_is_empty reason = false →
  (as_captured_at_millis authority ≤ at_)%N →
  (∀ t, last (ml_history l) = Some t → (mt_at_millis t ≤ at_)%N) →
  ∃ identity plan l',
    proof_identity l = Ok identity ∧ ml_closure_plan l = Some plan
    ∧ closable identity records current plan ds attention
    ∧ mark_ready_to_close l proof actor reason at_ = Ok l'
    ∧ ml_status l' = MissionStatus.ReadyToClose
    ∧ ml_ready_receipt l' = Some (receipt_from_verified (rdy_verified proof))
    ∧ pr_subject_digest (receipt_from_verified (rdy_verified proof))
      = proof_subject_digest identity current plan.
Proof.
  intros Hev Hactor Hreason Hcapt Hlast. unfold evaluate_ready_proof in Hev.
  apply bind_ok in Hev as ([] & Hst & Hev). apply bind_ok in Hev as (report & Hrep & Hev).
  apply bind_ok in Hev as (verified & Hver & Hev). unfold into_verified in Hver. inv_ok.
  unfold evaluate_proof in Hrep. apply bind_ok in Hrep as (identity & Hid & Hrep).
  apply bind_ok in Hrep as (plan & Hplan & Hrep). inv_ok.
  assert (Hat : vp_verified_at_millis verified = as_captured_at_millis authority).
  { unfold evaluate in Hrep. apply bind_ok in Hrep as ([] & _ & Hrep).
    apply bind_ok in Hrep as ([] & _ & Hrep). inv_ok. cbn [rep_verified] in Hver.
    match type of Hver with (if ?b then _ else _) = _ => destruct b end; [|done].
    by injection Hver as <-. }
  pose proof (evaluate_verified identity plan ds records current attention authority report Hrep)
    as (Hiff & _ & Hproof).
  destruct (Hproof verified Hver) as (_ & Hsub & Hident & Hmatch & _).
  pose (m := l <| ml_ready_receipt := Some (receipt_from_verified verified) |>).
  exists identity, plan, (m <| ml_status := MissionStatus.ReadyToClose |>
    <| ml_history := ml_history m
         ++ [mkMissionTransition (Some (ml_status m)) MissionStatus.ReadyToClose actor reason at_] |>).
  split; [done|]. split; [done|].
  split; [apply Hiff; by eexists|]. cbn [rdy_verified]. split; [|by split_and!].
  unfold mark_ready_to_close. rewrite Hst, bool_decide_eq_true_2 by done. cbn [negb reject_if].
  cbn [mbind result_bind rdy_verified]. rewrite Hid. cbn [mbind result_bind].
  rewrite Hident, Hplan. cbn [negb reject_if mbind result_bind ok_or]. rewrite Hmatch, Hat.
  rewrite (proj2 (N.ltb_ge _ _)) by done. cbn [negb reject_if mbind result_bind].
  apply record_transition_ok. split; [done|]. split; [done|]. split; [exact Hlast|reflexivity].
Qed.

(** The journal's status graph is the life cycle's.  What the journal may
    persist as a plain status change is what the life cycle allows as a plain
    transition, and the step from draft to preparing, which the life cycle
    takes only with a run target. *)
Theorem can_persist_from_spec from to :
  can_persist_from to from = true ↔
  can_transition from to = true ∨ (from = MissionStatus.Draft ∧ to = MissionStatus.Preparing).
Proof. destruct from, to; cbn; intuition discriminate. Qed.

(** ** Witnesses *)

Module LifecycleDemo.
#[local] Existing Instance demo_sha256.

Definition base : string := "0123456789012345678901234567890123456789".
Definition definition : MissionDefinition :=
  mkMissionDefinition "m" "Title" "/repo" "Objective" ["works"].
Definition checks : list CheckDeclaration :=
  [covers EvidenceDemo.review (criterion_ids ["works"])].
Definition target := mkRunTarget "r" ProviderKind.Codex ProviderMode.Managed base "/tree".

Definition and_then (m : result MissionError MissionLifecycle)
    (f : MissionLifecycle → result MissionError MissionLifecycle) := m ≫= f.
Definition in_review : result MissionError MissionLifecycle :=
  l ← with_run_target (draft definition 1) target checks "ana" 2;
  l ← transition l MissionStatus.Active "ana" "go" 3;
  transition l MissionStatus.ReviewRequired "ana" "done" 4.

Definition identity := mkProofIdentity "m" "r" "/repo" "/tree" base.
Definition workspace := EvidenceDemo.after.
Definition records : gmap string EvidenceRecord :=
  {["review" := EvidenceRecord.Manual
      (mkManualEvidence "review" (declaration_digest (covers EvidenceDemo.review (criterion_ids ["works"])))
         (identity_digest identity) (workspace_digest workspace) "ana" 5 "fine" false)]}.
Definition authority (sequence at_ : N) : AuthoritySnapshot :=
  {| as_identity_digest := identity_digest identity;
     as_workspace_digest := workspace_digest workspace;
     as_attention_digest := digest_attention ∅;
     as_evidence_digest := digest_evidence records;
     as_head_digest := "head";
     as_lease_digest := "lease";
     as_sequence := sequence;
     as_captured_at_millis := at_ |}.
Definition ready : result MissionError MissionLifecycle :=
  l ← in_review;
  p ← evaluate_ready_proof l checks records workspace ∅ (authority 6 6);
  mark_ready_to_close l p "ana" "ready" 7.
Definition archived : result MissionError MissionLifecycle :=
  l ← ready;
  p ← evaluate_archive_proof l checks records workspace ∅ (authority 8 8);
  archive_with_fresh_proof l p "ana" "archive" 9.
Definition archived_state : MissionLifecycle :=
  match archived with Ok l => l | Err _ => draft definition 0 end.

Lemma in_review_reachable l : in_review = Ok l → lifecycle_reachable l.
Proof.
  intros Hl. unfold in_review in Hl. apply bind_ok in Hl as (l1 & H1 & Hl).
  apply bind_ok in Hl as (l2 & H2 & H3).
  eapply reachable_step; [|eapply step_transition, H3].
  eapply reachable_step; [|eapply step_transition, H2].
  eapply reachable_step; [|eapply step_run_target, H1]. apply reachable_draft.
Qed.

Lemma archived_reachable l : archived = Ok l → lifecycle_reachable l.
Proof.
  intros Hl. unfold archived in Hl. apply bind_ok in Hl as (l1 & H1 & Hl).
  apply bind_ok in Hl as (p & _ & H3). unfold ready in H1.
  apply bind_ok in H1 as (l0 & H0 & H1). apply bind_ok in H1 as (p0 & _ & H2).
  eapply reachable_step; [|eapply step_archive, H3].
  eapply reachable_step; [|eapply step_ready, H2]. by apply in_review_reachable.
Qed.

Lemma archived_ok : archived = Ok archived_state.
Proof.
  assert (Hok : is_ok archived = true) by (vm_compute; reflexivity).
  unfold archived_state. destruct archived; [reflexivity|discriminate Hok].
Qed.
End LifecycleDemo.

Lemma lifecycle_invariant_witness :
  history_ok (ml_history LifecycleDemo.archived_state) (ml_status LifecycleDemo.archived_state).
Proof.
  exact (proj1 (@lifecycle_invariant demo_sha256 LifecycleDemo.archived_state
                  (LifecycleDemo.archived_reachable _ LifecycleDemo.archived_ok))).
Defined.

Lemma archived_is_final_witness :
  ¬ ∃ l', @lifecycle_step demo_sha256 LifecycleDemo.archived_state l'.
Proof.
  exact (proj2 (@archived_is_final demo_sha256 LifecycleDemo.archived_state
                  (LifecycleDemo.archived_reachable _ LifecycleDemo.archived_ok)
                  ltac:(vm_compute; reflexivity))).
Defined.

Lemma ready_proof_accepted_witness :
  ∃ l proof l', LifecycleDemo.in_review = Ok l
    ∧ @mark_ready_to_close demo_sha256 l proof "ana" "ready" 7 = Ok l'
    ∧ ml_status l' = MissionStatus.ReadyToClose.
Proof.
  destruct LifecycleDemo.in_review as [l|] eqn:Hl; [|vm_compute in Hl; discriminate Hl].
  destruct (@evaluate_ready_proof demo_sha256 l LifecycleDemo.checks LifecycleDemo.records
              LifecycleDemo.workspace ∅ (LifecycleDemo.authority 6 6)) as [proof|] eqn:Hp.
  - destruct (@ready_proof_accepted demo_sha256 l _ _ _ _ _ proof "ana" "ready" 7 Hp)
      as (identity & plan & l' & _ & _ & _ & Hready & Hst & _).
    + vm_compute. reflexivity.
    + vm_compute. reflexivity.
    + vm_compute. intros Hgt. discriminate Hgt.
    + intros t Ht. vm_compute in Hl. injection Hl as <-. vm_compute in Ht. injection Ht as <-.
      vm_compute. intros Hgt. discriminate Hgt.
    + exists l, proof, l'. split; [reflexivity|]. split; [exact Hready|exact Hst].
  - exfalso. vm_compute in Hl. injection Hl as <-. vm_compute in Hp. discriminate Hp.
Defined.
