(* ===== verification/Attention.v ===== *)
(** * The attention inbox ([src/mission/attention.rs])

    What an agent needs a person for: permissions, questions, failures.  The
    inbox deduplicates the events providers deliver, takes decisions, hands
    each out to the provider as an attempt with a token of its own, and
    follows the attempt until it is acknowledged, failed or unknown. *)

From S2P Require Export RunState Lifecycle.

(** ** Data *)

Record PaneTarget := mkPaneTarget { pt_workspace : string; pt_pane : string }.
#[export] Instance PaneTarget_eq_dec : EqDecision PaneTarget.
Proof. solve_decision. Defined.

Module AttentionKind.
Inductive AttentionKind :=
| PermissionRequest
| ProviderQuestion
| CommandFailed
| WorktreeConflict
| TurnComplete
| Disconnected
| SecurityWarning
| ManualVerification.
#[export] Instance eq_dec : EqDecision AttentionKind.
Proof. solve_decision. Defined.
End AttentionKind.
Export (hints) AttentionKind.
Abbreviation AttentionKind := AttentionKind.AttentionKind.

Module AttentionRisk.
Inductive AttentionRisk := Low | Medium | High | Critical.
#[export] Instance eq_dec : EqDecision AttentionRisk.
Proof. solve_decision. Defined.
End AttentionRisk.
Export (hints) AttentionRisk.
Abbreviation AttentionRisk := AttentionRisk.AttentionRisk.

Module AttentionDecision.
Inductive AttentionDecision := ApproveOnce | ApproveForSession | AllowForMission | Deny | Answer.
#[export] Instance eq_dec : EqDecision AttentionDecision.
Proof. solve_decision. Defined.
End AttentionDecision.
Export (hints) AttentionDecision.
Abbreviation AttentionDecision := AttentionDecision.AttentionDecision.

Module ResponseCapability.
Inductive ResponseCapability := Reliable | OpenPaneOnly.
#[export] Instance eq_dec : EqDecision ResponseCapability.
Proof. solve_decision. Defined.
End ResponseCapability.
Export (hints) ResponseCapability.
Abbreviation ResponseCapability := ResponseCapability.ResponseCapability.

Module ResponseFailureDisposition.
Inductive ResponseFailureDisposition := DefinitelyNotApplied | DeliveryUnknown.
#[export] Instance eq_dec : EqDecision ResponseFailureDisposition.
Proof. solve_decision. Defined.
End ResponseFailureDisposition.
Export (hints) ResponseFailureDisposition.
Abbreviation ResponseFailureDisposition := ResponseFailureDisposition.ResponseFailureDisposition.

Module ResponseFailureCode.
Inductive ResponseFailureCode := Rejected | DisconnectedBeforeWrite | Timeout | TransportClosed.
#[export] Instance eq_dec : EqDecision ResponseFailureCode.
Proof. solve_decision. Defined.
End ResponseFailureCode.
Export (hints) ResponseFailureCode.
Abbreviation ResponseFailureCode := ResponseFailureCode.ResponseFailureCode.

Record AttentionEvent := mkAttentionEvent {
  ave_event_id : string;
  ave_mission_id : string;
  ave_mission_run_id : string;
  ave_session_id : string;
  ave_pane_target : PaneTarget;
  ave_kind : AttentionKind;
  ave_requested_action : string;
  ave_scope : string;
  ave_risk : AttentionRisk;
  ave_provider : ProviderKind;
  ave_source : ObservationSource;
  ave_response_capability : ResponseCapability;
  ave_request_generation : N;
  ave_created_at_millis : N;
  ave_expires_at_millis : option N;
  ave_provider_request_id : option string;
}.
#[export] Instance AttentionEvent_eq_dec : EqDecision AttentionEvent.
Proof. solve_decision. Defined.
#[export] Instance AttentionEvent_fields : Fields AttentionEvent := λ e,
  mkAttentionEvent (ave_event_id e) (ave_mission_id e) (ave_mission_run_id e) (ave_session_id e)
    (ave_pane_target e) (ave_kind e) (ave_requested_action e) (ave_scope e) (ave_risk e)
    (ave_provider e) (ave_source e) (ave_response_capability e) (ave_request_generation e)
    (ave_created_at_millis e) (ave_expires_at_millis e) (ave_provider_request_id e).

Record ProviderRequestKey := mkProviderRequestKey {
  prk_provider : ProviderKind;
  prk_mission_id : string;
  prk_mission_run_id : string;
  prk_session_id : string;
  prk_provider_request_id : string;
  prk_request_generation : N;
}.
#[export] Instance ProviderRequestKey_eq_dec : EqDecision ProviderRequestKey.
Proof. solve_decision. Defined.

Record ProviderRequestIndexEntry := mkProviderRequestIndexEntry {
  pri_key : ProviderRequestKey;
  pri_item_id : string;
}.

Module AttentionStatus.
Inductive AttentionStatus :=
| Open
| PendingResponse (decision : AttentionDecision) (actor : string) (requested_at_millis : N)
| Resolved (decision : AttentionDecision) (actor : string) (at_millis : N)
| ReconciliationRequired (decision : AttentionDecision) (actor : string)
    (code : ResponseFailureCode) (at_millis : N)
| Dismissed (actor reason : string) (at_millis : N)
| Expired (at_millis : N).
#[export] Instance eq_dec : EqDecision AttentionStatus.
Proof. solve_decision. Defined.
End AttentionStatus.
Export (hints) AttentionStatus.
Abbreviation AttentionStatus := AttentionStatus.AttentionStatus.

Record ProviderResponseToken := mkProviderResponseToken {
  tok_item_id : string;
  tok_request_generation : N;
  tok_attempt : N;
}.
#[export] Instance ProviderResponseToken_eq_dec : EqDecision ProviderResponseToken.
Proof. solve_decision. Defined.

Module AttemptStatus.
Inductive ProviderResponseAttemptStatus :=
| Pending
| Acknowledged (at_millis : N)
| DefinitelyNotApplied (at_millis : N) (code : ResponseFailureCode)
| DeliveryUnknown (at_millis : N) (code : ResponseFailureCode).
#[export] Instance eq_dec : EqDecision ProviderResponseAttemptStatus.
Proof. solve_decision. Defined.
End AttemptStatus.
Export (hints) AttemptStatus.
Abbreviation ProviderResponseAttemptStatus := AttemptStatus.ProviderResponseAttemptStatus.

Record ProviderResponseAttempt := mkProviderResponseAttempt {
  pra_token : ProviderResponseToken;
  pra_decision : AttentionDecision;
  pra_actor : string;
  pra_requested_at_millis : N;
  pra_status : ProviderResponseAttemptStatus;
}.
#[export] Instance ProviderResponseAttempt_fields : Fields ProviderResponseAttempt := λ a,
  mkProviderResponseAttempt (pra_token a) (pra_decision a) (pra_actor a)
    (pra_requested_at_millis a) (pra_status a).

Record ProviderResponseRoute := mkProviderResponseRoute {
  prr_provider : ProviderKind;
  prr_mission_id : string;
  prr_mission_run_id : string;
  prr_session_id : string;
  prr_pane_target : PaneTarget;
  prr_provider_request_id : string;
  prr_request_generation : N;
  prr_scope : string;
}.

Inductive EphemeralAnswer := mkEphemeralAnswer (value : string).

Module ProviderResponseIntent.
Inductive ProviderResponseIntent :=
| Respond (route : ProviderResponseRoute) (decision : AttentionDecision)
    (answer : option EphemeralAnswer) (token : ProviderResponseToken)
| OpenPane (target : PaneTarget).
End ProviderResponseIntent.
Abbreviation ProviderResponseIntent := ProviderResponseIntent.ProviderResponseIntent.

Record AttentionItem := mkAttentionItem {
  it_id : string;
  it_mission_id : string;
  it_mission_run_id : string;
  it_session_id : string;
  it_pane_target : PaneTarget;
  it_kind : AttentionKind;
  it_requested_action : string;
  it_scope : string;
  it_risk : AttentionRisk;
  it_provider : ProviderKind;
  it_source : ObservationSource;
  it_response_capability : ResponseCapability;
  it_request_generation : N;
  it_created_at_millis : N;
  it_expires_at_millis : option N;
  it_provider_request_id : option string;
  it_occurrence_count : N;
  it_unread : bool;
  it_status : AttentionStatus;
  it_response_attempts : list ProviderResponseAttempt;
}.
#[export] Instance AttentionItem_fields : Fields AttentionItem := λ i,
  mkAttentionItem (it_id i) (it_mission_id i) (it_mission_run_id i) (it_session_id i)
    (it_pane_target i) (it_kind i) (it_requested_action i) (it_scope i) (it_risk i)
    (it_provider i) (it_source i) (it_response_capability i) (it_request_generation i)
    (it_created_at_millis i) (it_expires_at_millis i) (it_provider_request_id i)
    (it_occurrence_count i) (it_unread i) (it_status i) (it_response_attempts i).

Record AttentionInbox := mkAttentionInbox {
  ib_items : gmap string AttentionItem;
  ib_seen_event_ids : gmap string string;
  ib_provider_requests : gmap string ProviderRequestIndexEntry;
}.
#[export] Instance AttentionInbox_fields : Fields AttentionInbox := λ b,
  mkAttentionInbox (ib_items b) (ib_seen_event_ids b) (ib_provider_requests b).

Module AttentionError.
Inductive AttentionError :=
| NotFound
| Expired
| AlreadyClosed
| MissingProviderRequestId
| DecisionNotAllowed
| EmptyActor
| EmptyAnswer
| InvalidAnswer
| DecisionTimeWentBackwards
| TooManyResponseAttempts
| NoResponsePending
| StaleResponseToken
| ResponseTimeWentBackwards
| EventIdConflict
| ProviderRequestConflict
| CorruptIndex
| SafetyItemCannotBeDismissed
| EmptyDismissReason.
End AttentionError.
Abbreviation AttentionError := AttentionError.AttentionError.

(** ** Events and items *)

(** [AttentionEvent::new] *)
Definition AttentionEvent_new (event_id mission_id mission_run_id session_id : string)
    (pane_target : PaneTarget) (kind : AttentionKind) (requested_action scope : string)
    (risk : AttentionRisk) (provider : ProviderKind) (source : ObservationSource)
    (created_at_millis : N) : AttentionEvent :=
  {| ave_event_id := event_id;
     ave_mission_id := mission_id;
     ave_mission_run_id := mission_run_id;
     ave_session_id := session_id;
     ave_pane_target := pane_target;
     ave_kind := kind;
     ave_requested_action := requested_action;
     ave_scope := scope;
     ave_risk := risk;
     ave_provider := provider;
     ave_source := source;
     ave_response_capability := ResponseCapability.OpenPaneOnly;
     ave_request_generation := 1;
     ave_created_at_millis := created_at_millis;
     ave_expires_at_millis := None;
     ave_provider_request_id := None |}.

(** [with_provider_request_id], [with_response_capability],
    [with_request_generation], [expires_at] *)
Definition with_provider_request_id (e : AttentionEvent) (request_id : string) :=
  e <| ave_provider_request_id := Some request_id |>.
Definition with_response_capability (e : AttentionEvent) (capability : ResponseCapability) :=
  e <| ave_response_capability := capability |>.
Definition with_request_generation (e : AttentionEvent) (generation : N) :=
  e <| ave_request_generation := generation |>.
Definition expires_at (e : AttentionEvent) (expires_at_millis : N) :=
  e <| ave_expires_at_millis := Some expires_at_millis |>.

(** [AttentionEvent::has_same_payload_as] *)
Definition has_same_payload_as (e : AttentionEvent) (i : AttentionItem) : bool :=
  bool_decide (ave_mission_id e = it_mission_id i)
  && bool_decide (ave_mission_run_id e = it_mission_run_id i)
  && bool_decide (ave_session_id e = it_session_id i)
  && bool_decide (ave_kind e = it_kind i)
  && bool_decide (ave_requested_action e = it_requested_action i)
  && bool_decide (ave_scope e = it_scope i)
  && bool_decide (ave_risk e = it_risk i)
  && bool_decide (ave_provider e = it_provider i)
  && bool_decide (ave_pane_target e = it_pane_target i)
  && bool_decide (ave_provider_request_id e = it_provider_request_id i)
  && bool_decide (ave_source e = it_source i)
  && bool_decide (ave_response_capability e = it_response_capability i)
  && bool_decide (ave_request_generation e = it_request_generation i)
  && bool_decide (ave_created_at_millis e = it_created_at_millis i)
  && bool_decide (ave_expires_at_millis e = it_expires_at_millis i).

(** [matches!(status, Open | PendingResponse { .. })] *)
Definition open_or_pending (s : AttentionStatus) : bool :=
  match s with
  | AttentionStatus.Open | AttentionStatus.PendingResponse _ _ _ => true
  | _ => false
  end.

(** [AttentionEvent::has_same_semantics_as] *)
Definition has_same_semantics_as (e : AttentionEvent) (i : AttentionItem) : bool :=
  has_same_payload_as e i && open_or_pending (it_status i).

(** [AttentionEvent::provider_request_key] *)
Definition provider_request_key (e : AttentionEvent) : option ProviderRequestKey :=
  (λ provider_request_id,
     {| prk_provider := ave_provider e;
        prk_mission_id := ave_mission_id e;
        prk_mission_run_id := ave_mission_run_id e;
        prk_session_id := ave_session_id e;
        prk_provider_request_id := provider_request_id;
        prk_request_generation := ave_request_generation e |})
  <$> ave_provider_request_id e.

(** [From<AttentionEvent> for AttentionItem] *)
Definition item_of_event (e : AttentionEvent) : AttentionItem :=
  {| it_id := ave_event_id e;
     it_mission_id := ave_mission_id e;
     it_mission_run_id := ave_mission_run_id e;
     it_session_id := ave_session_id e;
     it_pane_target := ave_pane_target e;
     it_kind := ave_kind e;
     it_requested_action := ave_requested_action e;
     it_scope := ave_scope e;
     it_risk := ave_risk e;
     it_provider := ave_provider e;
     it_source := ave_source e;
     it_response_capability := ave_response_capability e;
     it_request_generation := ave_request_generation e;
     it_created_at_millis := ave_created_at_millis e;
     it_expires_at_millis := ave_expires_at_millis e;
     it_provider_request_id := ave_provider_request_id e;
     it_occurrence_count := 1;
     it_unread := true;
     it_status := AttentionStatus.Open;
     it_response_attempts := [] |}.

(** The provider's tag in [ProviderRequestKey::digest] *)
Definition provider_tag (p : ProviderKind) : N :=
  match p with
  | ProviderKind.Codex => 0
  | ProviderKind.ClaudeCode => 1
  | ProviderKind.OpenCode => 2
  | ProviderKind.Acp => 3
  end.

(** [ProviderRequestKey::digest] *)
Definition request_key_digest {HSha : Sha256} (k : ProviderRequestKey) : string :=
  digest_new "provider-request-identity-v1"
  |>> digest_u8 (provider_tag (prk_provider k))
  |>> digest_string (prk_mission_id k)
  |>> digest_string (prk_mission_run_id k)
  |>> digest_string (prk_session_id k)
  |>> digest_string (prk_provider_request_id k)
  |>> digest_u64 (prk_request_generation k)
  |>> digest_finish.

(** [EphemeralAnswer::new] *)
Definition EphemeralAnswer_new (value : string) : result AttentionError EphemeralAnswer :=
  _ ← reject_if (trim_is_empty value) AttentionError.EmptyAnswer;
  _ ← reject_if ((16 * 1024 <? str_len value)%N
                 || existsb (λ c, is_control c && negb (is_newline_or_tab c)) (chars value))
        AttentionError.InvalidAnswer;
  Ok (mkEphemeralAnswer value).

(** ** The inbox *)

(** [AttentionInbox::new] *)
Definition AttentionInbox_new : AttentionInbox := mkAttentionInbox ∅ ∅ ∅.

(** [*self.items.get_mut(id).unwrap() = item] *)
Definition set_item (b : AttentionInbox) (id : string) (item : AttentionItem) : AttentionInbox :=
  b <| ib_items ::= <[id := item]> |>.

Definition count_occurrence (i : AttentionItem) : AttentionItem :=
  i <| it_occurrence_count ::= λ n, saturating_add u32_max n 1 |>.

(** [AttentionInbox::ingest] *)
Definition ingest {HSha : Sha256} (b : AttentionInbox) (e : AttentionEvent) :
    result AttentionError AttentionInbox :=
  match ib_seen_event_ids b !! ave_event_id e with
  | Some item_id =>
      item ← ok_or (ib_items b !! item_id) AttentionError.CorruptIndex;
      if has_same_payload_as e item then Ok b else Err AttentionError.EventIdConflict
  | None =>
      let key := provider_request_key e in
      match k ← key; entry ← ib_provider_requests b !! request_key_digest k; Some (k, entry) with
      | Some (k, entry) =>
          _ ← reject_if (negb (bool_decide (k = pri_key entry))) AttentionError.CorruptIndex;
          let item_id := pri_item_id entry in
          item ← ok_or (ib_items b !! item_id) AttentionError.CorruptIndex;
          _ ← reject_if (negb (has_same_payload_as e item)) AttentionError.ProviderRequestConflict;
          let item := count_occurrence item in
          let item := if open_or_pending (it_status item) then item <| it_unread := true |> else item in
          Ok (set_item b item_id item <| ib_seen_event_ids ::= <[ave_event_id e := item_id]> |>)
      | None =>
          match find_first (λ kv, has_same_semantics_as e kv.2) (str_entries (ib_items b)) with
          | Some (id, item) =>
              let item := count_occurrence item <| it_unread := true |> in
              Ok (set_item b id item <| ib_seen_event_ids ::= <[ave_event_id e := it_id item]> |>)
          | None =>
              let event_id := ave_event_id e in
              let b := set_item b event_id (item_of_event e)
                         <| ib_seen_event_ids ::= <[event_id := event_id]> |> in
              Ok (match key with
                  | Some k =>
                      b <| ib_provider_requests ::=
                             <[request_key_digest k := mkProviderRequestIndexEntry k event_id]> |>
                  | None => b
                  end)
          end
      end
  end.

(** [expires_at_millis.is_some_and(|expires_at| now >= expires_at)] *)
Definition has_expired (i : AttentionItem) (now : N) : bool :=
  match it_expires_at_millis i with Some expires_at => (expires_at <=? now)%N | None => false end.

(** [if let Some(last) = vec.last_mut() { f(last) }] *)
Definition update_last {A} (f : A → A) (l : list A) : list A := alter f (pred (length l)) l.

(** [AttentionInbox::fail_latest_attempt] *)
Definition fail_latest_attempt (i : AttentionItem) (disposition : ResponseFailureDisposition)
    (code : ResponseFailureCode) (at_millis : N) : AttentionItem :=
  i <| it_response_attempts ::= update_last (λ attempt,
         if bool_decide (pra_status attempt = AttemptStatus.Pending)
         then attempt <| pra_status :=
                match disposition with
                | ResponseFailureDisposition.DefinitelyNotApplied =>
                    AttemptStatus.DefinitelyNotApplied at_millis code
                | ResponseFailureDisposition.DeliveryUnknown =>
                    AttemptStatus.DeliveryUnknown at_millis code
                end |>
         else attempt) |>.

(** The body of the loop of [AttentionInbox::refresh] *)
Definition refresh_item (now_millis : N) (i : AttentionItem) : AttentionItem :=
  if open_or_pending (it_status i) && has_expired i now_millis then
    match it_status i with
    | AttentionStatus.Open => i <| it_status := AttentionStatus.Expired now_millis |>
    | AttentionStatus.PendingResponse decision actor _ =>
        fail_latest_attempt i ResponseFailureDisposition.DeliveryUnknown
          ResponseFailureCode.Timeout now_millis
        <| it_status := AttentionStatus.ReconciliationRequired decision actor
                          ResponseFailureCode.Timeout now_millis |>
    | _ => i
    end
  else i.

(** [AttentionInbox::refresh] *)
Definition refresh (b : AttentionInbox) (now_millis : N) : AttentionInbox :=
  b <| ib_items ::= fmap (refresh_item now_millis) |>.

(** [matches!(item.source, StructuredHook | ProviderApi)] *)
Definition source_is_reliable (s : ObservationSource) : bool :=
  match s with
  | ObservationSource.StructuredHook | ObservationSource.ProviderApi => true
  | _ => false
  end.

(** [u32::try_from(len).ok().and_then(|attempts| attempts.checked_add(1))] *)
Definition next_attempt (i : AttentionItem) : option N :=
  if (vec_len (it_response_attempts i) <=? u32_max)%N
  then checked_add u32_max (vec_len (it_response_attempts i)) 1 else None.

(** The route both kinds of reply build *)
Definition response_route (i : AttentionItem) (provider_request_id : string) : ProviderResponseRoute :=
  {| prr_provider := it_provider i;
     prr_mission_id := it_mission_id i;
     prr_mission_run_id := it_mission_run_id i;
     prr_session_id := it_session_id i;
     prr_pane_target := it_pane_target i;
     prr_provider_request_id := provider_request_id;
     prr_request_generation := it_request_generation i;
     prr_scope := it_scope i |}.

(** The end of [decide] and of [answer]: record the attempt and hand it out. *)
Definition request_response (i : AttentionItem) (item_id provider_request_id : string) (attempt : N)
    (decision : AttentionDecision) (answer : option EphemeralAnswer) (actor : string)
    (at_millis : N) : AttentionItem * result AttentionError (option ProviderResponseIntent) :=
  let token := mkProviderResponseToken item_id (it_request_generation i) attempt in
  (i <| it_unread := false |>
     <| it_status := AttentionStatus.PendingResponse decision actor at_millis |>
     <| it_response_attempts ::= λ l,
          l ++ [mkProviderResponseAttempt token decision actor at_millis AttemptStatus.Pending] |>,
   Ok (Some (ProviderResponseIntent.Respond (response_route i provider_request_id) decision answer
               token))).

(** The decisions a permission request takes by risk *)
Definition decision_allowed (kind : AttentionKind) (decision : AttentionDecision)
    (risk : AttentionRisk) : bool :=
  match kind, decision with
  | AttentionKind.PermissionRequest, AttentionDecision.ApproveOnce
  | AttentionKind.PermissionRequest, AttentionDecision.Deny => true
  | AttentionKind.PermissionRequest, AttentionDecision.ApproveForSession
  | AttentionKind.PermissionRequest, AttentionDecision.AllowForMission =>
      bool_decide (risk = AttentionRisk.Low) || bool_decide (risk = AttentionRisk.Medium)
  | _, _ => false
  end.

Definition is_expired (s : AttentionStatus) : bool :=
  match s with AttentionStatus.Expired _ => true | _ => false end.

(** [AttentionInbox::decide] on the item it finds *)
Definition decide_item (i : AttentionItem) (item_id : string) (decision : AttentionDecision)
    (actor : string) (at_millis : N) :
    AttentionItem * result AttentionError (option ProviderResponseIntent) :=
  if (at_millis <? it_created_at_millis i)%N then (i, Err AttentionError.DecisionTimeWentBackwards)
  else if is_expired (it_status i) then (i, Err AttentionError.Expired)
  else if has_expired i at_millis then
    (i <| it_status := AttentionStatus.Expired at_millis |>, Err AttentionError.Expired)
  else if negb (bool_decide (it_status i = AttentionStatus.Open)) then
    (i, Err AttentionError.AlreadyClosed)
  else
    let critical_requires_native_review :=
      bool_decide (it_risk i = AttentionRisk.Critical)
      && negb (bool_decide (decision = AttentionDecision.Deny)) in
    if bool_decide (it_response_capability i = ResponseCapability.OpenPaneOnly)
       || negb (source_is_reliable (it_source i))
       || critical_requires_native_review
    then (i, Ok (Some (ProviderResponseIntent.OpenPane (it_pane_target i))))
    else if trim_is_empty actor then (i, Err AttentionError.EmptyActor)
    else if negb (decision_allowed (it_kind i) decision (it_risk i)) then
      (i, Err AttentionError.DecisionNotAllowed)
    else match it_provider_request_id i with
         | None => (i, Err AttentionError.MissingProviderRequestId)
         | Some provider_request_id =>
             match next_attempt i with
             | None => (i, Err AttentionError.TooManyResponseAttempts)
             | Some attempt =>
                 request_response i item_id provider_request_id attempt decision None actor at_millis
             end
         end.

(** [let Some(item) = updated.items.get_mut(id) else { return NotFound }] *)
Definition on_item {A} (b : AttentionInbox) (item_id : string)
    (f : AttentionItem → AttentionItem * result AttentionError A) :
    AttentionInbox * result AttentionError A :=
  match ib_items b !! item_id with
  | None => (b, Err AttentionError.NotFound)
  | Some item => let '(item, r) := f item in (set_item b item_id item, r)
  end.

(** [AttentionInbox::decide] *)
Definition inbox_decide (b : AttentionInbox) (item_id : string) (decision : AttentionDecision)
    (actor : string) (at_millis : N) :
    AttentionInbox * result AttentionError (option ProviderResponseIntent) :=
  on_item b item_id (λ i, decide_item i item_id decision actor at_millis).

(** [AttentionInbox::answer] on the item it finds *)
Definition answer_item (i : AttentionItem) (item_id answer actor : string) (at_millis : N) :
    AttentionItem * result AttentionError (option ProviderResponseIntent) :=
  if (at_millis <? it_created_at_millis i)%N then (i, Err AttentionError.DecisionTimeWentBackwards)
  else if is_expired (it_status i) then (i, Err AttentionError.Expired)
  else if has_expired i at_millis then
    (i <| it_status := AttentionStatus.Expired at_millis |>, Err AttentionError.Expired)
  else if negb (bool_decide (it_status i = AttentionStatus.Open)) then
    (i, Err AttentionError.AlreadyClosed)
  else if negb (bool_decide (it_kind i = AttentionKind.ProviderQuestion)) then
    (i, Err AttentionError.DecisionNotAllowed)
  else if bool_decide (it_response_capability i = ResponseCapability.OpenPaneOnly)
          || negb (source_is_reliable (it_source i))
  then (i, Ok (Some (ProviderResponseIntent.OpenPane (it_pane_target i))))
  else if trim_is_empty actor then (i, Err AttentionError.EmptyActor)
  else match EphemeralAnswer_new answer with
       | Err error => (i, Err error)
       | Ok answer =>
           match it_provider_request_id i with
           | None => (i, Err AttentionError.MissingProviderRequestId)
           | Some provider_request_id =>
               match next_attempt i with
               | None => (i, Err AttentionError.TooManyResponseAttempts)
               | Some attempt =>
                   request_response i item_id provider_request_id attempt AttentionDecision.Answer
                     (Some answer) actor at_millis
               end
           end
       end.

(** [AttentionInbox::answer] *)
Definition inbox_answer (b : AttentionInbox) (item_id answer actor : string) (at_millis : N) :
    AttentionInbox * result AttentionError (option ProviderResponseIntent) :=
  on_item b item_id (λ i, answer_item i item_id answer actor at_millis).

(** [AttentionInbox::confirm_response] on the item it finds *)
Definition confirm_item (i : AttentionItem) (token : ProviderResponseToken) (at_millis : N) :
    AttentionItem * result AttentionError unit :=
  if (at_millis <? it_created_at_millis i)%N then (i, Err AttentionError.ResponseTimeWentBackwards)
  else match last (it_response_attempts i) with
  | None => (i, Err AttentionError.NoResponsePending)
  | Some attempt =>
      if negb (bool_decide (pra_token attempt = token)) then (i, Err AttentionError.StaleResponseToken)
      else match pra_status attempt with
      | AttemptStatus.Acknowledged _ => (i, Ok tt)
      | AttemptStatus.DefinitelyNotApplied _ _ => (i, Err AttentionError.StaleResponseToken)
      | AttemptStatus.Pending | AttemptStatus.DeliveryUnknown _ _ =>
          match match it_status i with
                | AttentionStatus.PendingResponse decision actor requested_at_millis =>
                    Some (decision, actor, requested_at_millis)
                | AttentionStatus.ReconciliationRequired decision actor _ at_millis =>
                    Some (decision, actor, at_millis)
                | _ => None
                end with
          | None => (i, Err AttentionError.NoResponsePending)
          | Some (decision, actor, requested_at_millis) =>
              if (at_millis <? requested_at_millis)%N
              then (i, Err AttentionError.ResponseTimeWentBackwards)
              else
                (i <| it_response_attempts ::= update_last (λ attempt,
                        attempt <| pra_status := AttemptStatus.Acknowledged at_millis |>) |>
                   <| it_status := AttentionStatus.Resolved decision actor at_millis |>, Ok tt)
          end
      end
  end.

(** [AttentionInbox::confirm_response] *)
Definition confirm_response (b : AttentionInbox) (token : ProviderResponseToken) (at_millis : N) :
    AttentionInbox * result AttentionError unit :=
  on_item b (tok_item_id token) (λ i, confirm_item i token at_millis).

(** [AttentionInbox::fail_response] on the item it finds *)
Definition fail_item (i : AttentionItem) (token : ProviderResponseToken)
    (disposition : ResponseFailureDisposition) (code : ResponseFailureCode) (at_millis : N) :
    AttentionItem * result AttentionError unit :=
  if (at_millis <? it_created_at_millis i)%N then (i, Err AttentionError.ResponseTimeWentBackwards)
  else match last (it_response_attempts i) with
  | None => (i, Err AttentionError.NoResponsePending)
  | Some attempt =>
      if negb (bool_decide (pra_token attempt = token))
         || negb (bool_decide (pra_status attempt = AttemptStatus.Pending))
      then (i, Err AttentionError.StaleResponseToken)
      else match it_status i with
      | AttentionStatus.PendingResponse decision actor requested_at_millis =>
          if (at_millis <? requested_at_millis)%N
          then (i, Err AttentionError.ResponseTimeWentBackwards)
          else
            let request_expired := has_expired i at_millis in
            let status :=
              match disposition with
              | ResponseFailureDisposition.DefinitelyNotApplied =>
                  if request_expired then AttentionStatus.Expired at_millis else AttentionStatus.Open
              | ResponseFailureDisposition.DeliveryUnknown =>
                  AttentionStatus.ReconciliationRequired decision actor code at_millis
              end in
            (fail_latest_attempt i disposition code at_millis
               <| it_status := status |> <| it_unread := true |>, Ok tt)
      | _ => (i, Err AttentionError.NoResponsePending)
      end
  end.

(** [AttentionInbox::fail_response] *)
Definition fail_response (b : AttentionInbox) (token : ProviderResponseToken)
    (disposition : ResponseFailureDisposition) (code : ResponseFailureCode) (at_millis : N) :
    AttentionInbox * result AttentionError unit :=
  on_item b (tok_item_id token) (λ i, fail_item i token disposition code at_millis).

(** [AttentionInbox::dismiss] *)
Definition dismiss (b : AttentionInbox) (item_id actor reason : string) (at_millis : N) :
    result AttentionError AttentionInbox :=
  item ← ok_or (ib_items b !! item_id) AttentionError.NotFound;
  _ ← reject_if (negb (bool_decide (it_status item = AttentionStatus.Open)))
        AttentionError.AlreadyClosed;
  _ ← reject_if (negb (bool_decide (it_kind item = AttentionKind.TurnComplete)))
        AttentionError.SafetyItemCannotBeDismissed;
  _ ← reject_if (trim_is_empty actor) AttentionError.EmptyActor;
  _ ← reject_if (trim_is_empty reason) AttentionError.EmptyDismissReason;
  _ ← reject_if (at_millis <? it_created_at_millis item)%N AttentionError.DecisionTimeWentBackwards;
  Ok (set_item b item_id
        (item <| it_unread := false |>
              <| it_status := AttentionStatus.Dismissed actor reason at_millis |>)).

(** [AttentionInbox::mark_read] *)
Definition mark_read (b : AttentionInbox) (item_id : string) : result AttentionError AttentionInbox :=
  item ← ok_or (ib_items b !! item_id) AttentionError.NotFound;
  Ok (set_item b item_id (item <| it_unread := false |>)).

(** The filter of [effective_run_status] *)
Definition concerns_session (mission_id mission_run_id : string) (provider : ProviderKind)
    (session_id : string) (i : AttentionItem) : bool :=
  bool_decide (it_mission_id i = mission_id)
  && bool_decide (it_mission_run_id i = mission_run_id)
  && bool_decide (it_provider i = provider)
  && bool_decide (it_session_id i = session_id)
  && match it_status i with
     | AttentionStatus.Open | AttentionStatus.PendingResponse _ _ _
     | AttentionStatus.ReconciliationRequired _ _ _ _ => true
     | _ => false
     end.

(** The body of its loop *)
Definition worst_status (effective : SessionStatus) (i : AttentionItem) : SessionStatus :=
  match it_kind i with
  | AttentionKind.PermissionRequest => SessionStatus.NeedsApproval
  | AttentionKind.ProviderQuestion =>
      if bool_decide (effective = SessionStatus.NeedsApproval) then effective
      else SessionStatus.NeedsAnswer
  | _ =>
      if bool_decide (effective = SessionStatus.NeedsApproval)
         || bool_decide (effective = SessionStatus.NeedsAnswer)
      then effective else SessionStatus.Blocked
  end.

(** [AttentionInbox::effective_run_status] *)
Definition effective_run_status (b : AttentionInbox) (mission_id mission_run_id : string)
    (provider : ProviderKind) (session_id : string) (fallback : SessionStatus) : SessionStatus :=
  foldl worst_status fallback
    (filter (λ i, concerns_session mission_id mission_run_id provider session_id i = true)
       (str_values (ib_items b))).

(** [AttentionInbox::unread_count] *)
Definition unread_count (b : AttentionInbox) : N :=
  vec_len (filter (λ i, it_unread i = true ∧ it_status i = AttentionStatus.Open)
             (str_values (ib_items b))).

(** ** The invariant of an item

    The attempts of an item are numbered from 1; all but the last definitely
    failed; and the item's status says what became of the last, unless the
    item has expired, which it can whatever became of it. *)

Definition settled (a : ProviderResponseAttempt) : Prop :=
  match pra_status a with AttemptStatus.DefinitelyNotApplied _ _ => True | _ => False end.

Definition attempt_of (a : ProviderResponseAttempt) (decision : AttentionDecision) (actor : string)
    (status : ProviderResponseAttemptStatus) : Prop :=
  pra_decision a = decision ∧ pra_actor a = actor ∧ pra_status a = status.

Definition outcome_ok (status : AttentionStatus) (tail : list ProviderResponseAttempt) : Prop :=
  match status with
  | AttentionStatus.Open | AttentionStatus.Dismissed _ _ _ => tail = []
  | AttentionStatus.PendingResponse decision actor at_ =>
      ∃ a, tail = [a] ∧ attempt_of a decision actor AttemptStatus.Pending
           ∧ pra_requested_at_millis a = at_
  | AttentionStatus.ReconciliationRequired decision actor code at_ =>
      ∃ a, tail = [a] ∧ attempt_of a decision actor (AttemptStatus.DeliveryUnknown at_ code)
  | AttentionStatus.Resolved decision actor at_ =>
      ∃ a, tail = [a] ∧ attempt_of a decision actor (AttemptStatus.Acknowledged at_)
  | AttentionStatus.Expired _ => length tail ≤ 1
  end.

Definition numbered (i : AttentionItem) (attempts : list ProviderResponseAttempt) : Prop :=
  ∀ n a, attempts !! n = Some a →
    pra_token a = mkProviderResponseToken (it_id i) (it_request_generation i) (N.of_nat n + 1).

Definition item_ok (i : AttentionItem) : Prop :=
  numbered i (it_response_attempts i)
  ∧ (vec_len (it_response_attempts i) ≤ u32_max)%N
  ∧ ∃ done_ tail, it_response_attempts i = done_ ++ tail ∧ Forall settled done_
                 ∧ outcome_ok (it_status i) tail.

(** What an item says about the world, fixed when it is created *)
Definition event_of_item (i : AttentionItem) : AttentionEvent :=
  {| ave_event_id := it_id i;
     ave_mission_id := it_mission_id i;
     ave_mission_run_id := it_mission_run_id i;
     ave_session_id := it_session_id i;
     ave_pane_target := it_pane_target i;
     ave_kind := it_kind i;
     ave_requested_action := it_requested_action i;
     ave_scope := it_scope i;
     ave_risk := it_risk i;
     ave_provider := it_provider i;
     ave_source := it_source i;
     ave_response_capability := it_response_capability i;
     ave_request_generation := it_request_generation i;
     ave_created_at_millis := it_created_at_millis i;
     ave_expires_at_millis := it_expires_at_millis i;
     ave_provider_request_id := it_provider_request_id i |}.

Lemma has_same_payload_iff e i :
  has_same_payload_as e i = true ↔ e <| ave_event_id := it_id i |> = event_of_item i.
Proof.
  unfold has_same_payload_as. rewrite !andb_true_iff, !bool_decide_eq_true. destruct e, i. cbn.
  split; [intros H; destruct_and!; by subst|intros [=]; by subst].
Qed.

Lemma has_same_payload_event e i i' :
  event_of_item i = event_of_item i' → has_same_payload_as e i = has_same_payload_as e i'.
Proof.
  intros Heq. apply eq_true_iff_eq. rewrite !has_same_payload_iff, Heq.
  by rewrite (f_equal ave_event_id Heq : it_id i = it_id i').
Qed.

Lemma update_last_snoc {A} (f : A → A) l a : update_last f (l ++ [a]) = l ++ [f a].
Proof.
  unfold update_last. rewrite length_app. cbn [length]. rewrite Nat.add_1_r. cbn [pred].
  rewrite alter_app_r_alt by lia. by rewrite Nat.sub_diag.
Qed.

Lemma update_last_nil {A} (f : A → A) : update_last f [] = [].
Proof. reflexivity. Qed.

Lemma update_last_token f l i :
  (∀ a, pra_token (f a) = pra_token a) → numbered i l → numbered i (update_last f l).
Proof.
  intros Hf Hl. destruct (decide (l = [])) as [->|Hne]; [done|].
  destruct (exists_last Hne) as (l' & a & ->). rewrite update_last_snoc.
  intros n x Hx. rewrite lookup_app in Hx. specialize (Hl n). rewrite lookup_app in Hl.
  destruct (l' !! n) as [y|] eqn:Hy; [by apply Hl|].
  destruct (n - length l') as [|m]; [|done]. injection Hx as <-. rewrite Hf. by apply Hl.
Qed.

Lemma length_update_last {A} (f : A → A) l : length (update_last f l) = length l.
Proof. apply length_alter. Qed.

(** Moving the outcome of the last attempt: the shape shared by
    [confirm_item], [fail_item] and [refresh_item]. *)
Lemma item_ok_outcome i j f tail' done_ a :
  item_ok i → (∀ a, pra_token (f a) = pra_token a) →
  it_id j = it_id i → it_request_generation j = it_request_generation i →
  it_response_attempts i = done_ ++ [a] → Forall settled done_ →
  it_response_attempts j = update_last f (it_response_attempts i) →
  (∃ done', done_ ++ [f a] = done' ++ tail' ∧ Forall settled done') →
  outcome_ok (it_status j) tail' → item_ok j.
Proof.
  intros (Hnum & Hlen & _) Hf Hid Hgen Hatt Hdone Hj (done' & Hsplit & Hdone') Hout.
  split_and!.
  - rewrite Hj. apply update_last_token; [done|]. intros n x Hx. rewrite Hid, Hgen. by apply Hnum.
  - unfold vec_len. rewrite Hj, length_update_last. exact Hlen.
  - exists done', tail'. rewrite Hj, Hatt, update_last_snoc. done.
Qed.

Lemma fail_latest_pending i disposition code at_ done_ a :
  it_response_attempts i = done_ ++ [a] → pra_status a = AttemptStatus.Pending →
  it_response_attempts (fail_latest_attempt i disposition code at_)
  = done_ ++ [a <| pra_status :=
                match disposition with
                | ResponseFailureDisposition.DefinitelyNotApplied =>
                    AttemptStatus.DefinitelyNotApplied at_ code
                | ResponseFailureDisposition.DeliveryUnknown =>
                    AttemptStatus.DeliveryUnknown at_ code
                end |>].
Proof.
  intros Hatt Ha. unfold fail_latest_attempt. cbn [update]. cbn. rewrite Hatt, update_last_snoc.
  by rewrite bool_decide_eq_true_2.
Qed.

(** An item keeps its invariant when only flags, and a status that goes with
    the same attempts, change. *)
Lemma item_ok_status i j :
  item_ok i → it_id j = it_id i → it_request_generation j = it_request_generation i →
  it_response_attempts j = it_response_attempts i →
  (∀ tail, outcome_ok (it_status i) tail → outcome_ok (it_status j) tail) → item_ok j.
Proof.
  intros (Hnum & Hlen & done_ & tail & Hatt & Hdone & Hout) Hid Hgen Hj Hst. unfold item_ok.
  rewrite Hj. split_and!; [|done|].
  - intros n a Ha. rewrite Hid, Hgen. by apply Hnum.
  - exists done_, tail. auto.
Qed.

Lemma outcome_ok_expired s at_ tail : outcome_ok s tail → outcome_ok (AttentionStatus.Expired at_) tail.
Proof.
  destruct s; cbn; [by intros ->; cbn; lia|..];
    try (intros (? & -> & _); cbn; lia); [by intros ->; cbn; lia|done].
Qed.

Ltac payload_same := unfold event_of_item; cbn; reflexivity.

Lemma refresh_item_payload now i : event_of_item (refresh_item now i) = event_of_item i.
Proof. unfold refresh_item. case_match; [|done]. case_match; payload_same. Qed.

Lemma refresh_item_ok now i : item_ok i → item_ok (refresh_item now i).
Proof.
  intros Hi. unfold refresh_item. destruct (open_or_pending _ && _) eqn:Hop; [|done].
  destruct (it_status i) as [|d a t| | | |] eqn:Hst; try done.
  - eapply item_ok_status; [exact Hi|done..|]. rewrite Hst. cbn. intros tail ->. cbn. lia.
  - pose proof Hi as (_ & _ & done_ & tail & Hatt & Hdone & Hout). rewrite Hst in Hout.
    destruct Hout as (x & -> & (Hd & Ha & Hx) & _).
    eapply (item_ok_outcome i _ (λ attempt, if bool_decide (pra_status attempt = AttemptStatus.Pending)
         then attempt <| pra_status := AttemptStatus.DeliveryUnknown now ResponseFailureCode.Timeout |>
         else attempt)); try exact Hi; try exact Hatt; try done.
    + intros b. by case_bool_decide.
    + exists done_. split; [reflexivity|done].
    + cbn. eexists. split; [reflexivity|]. rewrite bool_decide_eq_true_2 by done.
      unfold attempt_of. cbn. auto.
Qed.

Lemma request_response_ok i request_id n decision answer actor at_ :
  item_ok i → it_status i = AttentionStatus.Open → next_attempt i = Some n →
  item_ok (request_response i (it_id i) request_id n decision answer actor at_).1.
Proof.
  intros (Hnum & Hlen & done_ & tail & Hatt & Hdone & Hout) Hst Hn. rewrite Hst in Hout.
  cbn in Hout. subst tail. rewrite app_nil_r in Hatt. unfold next_attempt, checked_add in Hn.
  destruct (_ <=? _)%N; [|done]. destruct (_ <=? _)%N eqn:Hmax; [|done]. injection Hn as <-. inv_ok.
  unfold item_ok, request_response, vec_len in *. cbn [fst]. cbn.
  rewrite length_app. cbn [length]. split_and!; [|lia|].
  - intros m a Ha. apply lookup_app_Some in Ha as [Ha|[Hm Ha]]; [by apply Hnum|].
    apply list_lookup_singleton_Some in Ha as [Hz <-]. cbn. f_equal. lia.
  - exists done_. eexists. rewrite Hatt. split; [reflexivity|]. split; [done|]. cbn.
    eexists. split; [reflexivity|]. by unfold attempt_of.
Qed.

Lemma decide_item_ok i decision actor at_ :
  item_ok i → item_ok (decide_item i (it_id i) decision actor at_).1.
Proof.
  intros Hi. unfold decide_item. cbv zeta.
  repeat (case_match; cbn [fst]; try exact Hi).
  - eapply item_ok_status; [exact Hi|done..|]. intros tail. apply outcome_ok_expired.
  - apply request_response_ok; [done| |done]. inv_ok. done.
Qed.

Lemma answer_item_ok i answer actor at_ :
  item_ok i → item_ok (answer_item i (it_id i) answer actor at_).1.
Proof.
  intros Hi. unfold answer_item.
  repeat (case_match; cbn [fst]; try exact Hi).
  - eapply item_ok_status; [exact Hi|done..|]. intros tail. apply outcome_ok_expired.
  - apply request_response_ok; [done| |done]. inv_ok. done.
Qed.

Lemma decide_item_payload i id decision actor at_ :
  event_of_item (decide_item i id decision actor at_).1 = event_of_item i.
Proof. unfold decide_item. cbv zeta. repeat (case_match; cbn [fst]; try done). Qed.

Lemma answer_item_payload i id answer actor at_ :
  event_of_item (answer_item i id answer actor at_).1 = event_of_item i.
Proof. unfold answer_item. repeat (case_match; cbn [fst]; try done). Qed.

Lemma confirm_item_payload i token at_ :
  event_of_item (confirm_item i token at_).1 = event_of_item i.
Proof. unfold confirm_item. repeat (case_match; cbn [fst]; try done). Qed.

Lemma fail_item_payload i token disposition code at_ :
  event_of_item (fail_item i token disposition code at_).1 = event_of_item i.
Proof. unfold fail_item. repeat (case_match; cbn [fst]; try done). Qed.

Lemma last_snoc_inv {A} (l done_ : list A) a b : last l = Some b → l = done_ ++ [a] → a = b.
Proof. intros Hl ->. rewrite last_snoc in Hl. by injection Hl. Qed.

Lemma confirm_item_ok i token at_ : item_ok i → item_ok (confirm_item i token at_).1.
Proof.
  intros Hi. unfold confirm_item. case_match; [done|].
  destruct (last (it_response_attempts i)) as [b|] eqn:Hlast; [|done]. case_match; [done|].
  set (r := match it_status i with AttentionStatus.PendingResponse _ _ _ => _ | _ => _ end).
  assert (Hgoal : item_ok (match r with
    | None => (i, Err AttentionError.NoResponsePending)
    | Some (decision, actor, requested) =>
        if (at_ <? requested)%N then (i, Err AttentionError.ResponseTimeWentBackwards)
        else (i <| it_response_attempts ::= update_last (λ attempt,
                     attempt <| pra_status := AttemptStatus.Acknowledged at_ |>) |>
                <| it_status := AttentionStatus.Resolved decision actor at_ |>, Ok tt)
    end).1); [|by destruct (pra_status b)].
  destruct r as [[[decision actor] requested]|] eqn:Hr; [|done]. case_match; [done|]. cbn [fst].
  pose proof Hi as (_ & _ & done_ & tail & Hatt & Hdone & Hout).
  assert (Htail : ∃ a, tail = [a] ∧ pra_decision a = decision ∧ pra_actor a = actor).
  { subst r. destruct (it_status i); try discriminate Hr; injection Hr as -> -> ->; cbn in Hout.
    - destruct Hout as (a & -> & (? & ? & _) & _). eauto.
    - destruct Hout as (a & -> & (? & ? & _)). eauto. }
  destruct Htail as (a & -> & Hd & Ha).
  eapply (item_ok_outcome i _ (λ attempt, attempt <| pra_status := AttemptStatus.Acknowledged at_ |>));
    try exact Hi; try exact Hatt; try done.
  - exists done_. split; [reflexivity|done].
  - cbn. eexists. split; [reflexivity|]. by unfold attempt_of.
Qed.

Lemma fail_item_ok i token disposition code at_ :
  item_ok i → item_ok (fail_item i token disposition code at_).1.
Proof.
  intros Hi. unfold fail_item. case_match; [done|].
  destruct (last (it_response_attempts i)) as [b|] eqn:Hlast; [|done]. case_match; [done|].
  destruct (it_status i) as [|d a t| | | |] eqn:Hst; try done. case_match; [done|]. cbn [fst].
  pose proof Hi as (_ & _ & done_ & tail & Hatt & Hdone & Hout). rewrite Hst in Hout.
  destruct Hout as (x & -> & (Hd & Ha & Hx) & Ht).
  set (outcome := match disposition with
                | ResponseFailureDisposition.DefinitelyNotApplied =>
                    AttemptStatus.DefinitelyNotApplied at_ code
                | ResponseFailureDisposition.DeliveryUnknown =>
                    AttemptStatus.DeliveryUnknown at_ code
                end).
  eapply (item_ok_outcome i _ (λ attempt, if bool_decide (pra_status attempt = AttemptStatus.Pending)
         then attempt <| pra_status := outcome |> else attempt)
         (match disposition with
          | ResponseFailureDisposition.DefinitelyNotApplied => []
          | _ => [x <| pra_status := outcome |>] end) done_ x);
    try exact Hi; try exact Hatt; try done.
  - intros y. by destruct (bool_decide (pra_status y = _)).
  - rewrite bool_decide_eq_true_2 by done. subst outcome. destruct disposition.
    + eexists. rewrite app_nil_r. split; [reflexivity|]. apply Forall_app. split; [done|].
      by repeat constructor.
    + exists done_. done.
  - cbn. subst outcome. destruct disposition; [by destruct (has_expired i at_); cbn; try lia|].
    cbn. eexists. split; [reflexivity|]. by unfold attempt_of.
Qed.

(** ** The invariant of the inbox *)

(** The key an item was indexed under *)
Definition item_request_key (i : AttentionItem) : option ProviderRequestKey :=
  provider_request_key (event_of_item i).

Lemma item_request_key_eq i j :
  event_of_item j = event_of_item i → item_request_key j = item_request_key i.
Proof. unfold item_request_key. by intros ->. Qed.

Section inbox.
Context {HSha : Sha256}.

Definition inbox_ok (b : AttentionInbox) : Prop :=
  map_Forall (λ id i, it_id i = id ∧ item_ok i ∧ ib_seen_event_ids b !! id = Some id) (ib_items b)
  ∧ map_Forall (λ event_id id, is_Some (ib_items b !! id)) (ib_seen_event_ids b)
  ∧ map_Forall (λ digest entry, digest = request_key_digest (pri_key entry)
      ∧ ∃ i, ib_items b !! pri_item_id entry = Some i ∧ item_request_key i = Some (pri_key entry))
      (ib_provider_requests b).

(** What no operation of the inbox takes back *)
Definition inbox_le (b c : AttentionInbox) : Prop :=
  ib_seen_event_ids b ⊆ ib_seen_event_ids c
  ∧ ∀ id i, ib_items b !! id = Some i →
      ∃ j, ib_items c !! id = Some j ∧ event_of_item j = event_of_item i.

#[global] Instance inbox_le_preorder : PreOrder inbox_le.
Proof.
  split.
  - intros b. split; [done|]. eauto.
  - intros a b c [Hab Hi] [Hbc Hj]. split; [by etrans|]. intros id i Hid.
    destruct (Hi id i Hid) as (j & Hjd & Heq). destruct (Hj id j Hjd) as (k & Hk & Heq').
    exists k. split; [done|congruence].
Qed.

Lemma set_item_ok b id i j :
  inbox_ok b → ib_items b !! id = Some i → item_ok j → event_of_item j = event_of_item i →
  inbox_ok (set_item b id j) ∧ inbox_le b (set_item b id j).
Proof.
  intros (Hitems & Hseen & Hreq) Hi Hj Hev. unfold set_item, inbox_ok, inbox_le. cbn. split_and!.
  - apply map_Forall_lookup_2. intros id' k Hk. rewrite lookup_insert in Hk.
    case_decide as Hid; [subst id'; injection Hk as <-|by apply Hitems].
    pose proof (Hitems _ _ Hi) as (Hid & _ & ?). split_and!; [|done|done].
    rewrite <- Hid. exact (f_equal ave_event_id Hev).
  - apply map_Forall_lookup_2. intros e id' He. rewrite lookup_insert.
    case_decide; [done|]. by apply (Hseen e).
  - apply map_Forall_lookup_2. intros d entry Hd.
    destruct (Hreq _ _ Hd) as (Hdig & k & Hk & Hkey). split; [done|].
    rewrite lookup_insert. case_decide as Hid; [|eauto]. exists j. split; [done|].
    rewrite <- Hid, Hi in Hk. injection Hk as <-.
    etrans; [by apply item_request_key_eq|done].
  - done.
  - intros id' k Hk. rewrite lookup_insert. case_decide as Hid; [|eauto].
    exists j. split; [done|]. rewrite <- Hid, Hi in Hk. by injection Hk as <-.
Qed.

Lemma saw_event_ok b e id :
  inbox_ok b → ib_seen_event_ids b !! e = None → is_Some (ib_items b !! id) →
  let c := b <| ib_seen_event_ids ::= <[e := id]> |> in inbox_ok c ∧ inbox_le b c.
Proof.
  intros (Hitems & Hseen & Hreq) He Hid c. subst c. unfold inbox_ok, inbox_le. cbn. split_and!.
  - apply map_Forall_lookup_2. intros id' k Hk. destruct (Hitems _ _ Hk) as (? & ? & Hs).
    split_and!; [done|done|]. rewrite lookup_insert_ne; [done|]. intros ->. congruence.
  - apply map_Forall_lookup_2. intros e' id' He'. rewrite lookup_insert in He'.
    case_decide; [by injection He' as <-|by apply (Hseen e')].
  - done.
  - by apply insert_subseteq.
  - eauto.
Qed.

Lemma on_item_ok {A} b id (f : AttentionItem → AttentionItem * result AttentionError A) :
  inbox_ok b →
  (∀ i, it_id i = id → item_ok i → item_ok (f i).1) →
  (∀ i, event_of_item (f i).1 = event_of_item i) →
  inbox_ok (on_item b id f).1 ∧ inbox_le b (on_item b id f).1.
Proof.
  intros Hb Hf Hev. unfold on_item. destruct (ib_items b !! id) as [i|] eqn:Hi.
  - specialize (Hf i). specialize (Hev i). destruct (f i) as [j r]. cbn in *.
    pose proof Hb as (Hitems & _). destruct (Hitems _ _ Hi) as (Hid & Hok & _).
    by apply (set_item_ok b id i j); auto.
  - by split.
Qed.

Lemma elem_of_find_items e b id i :
  find_first (λ kv, has_same_semantics_as e kv.2) (str_entries (ib_items b)) = Some (id, i) →
  ib_items b !! id = Some i ∧ has_same_payload_as e i = true ∧ open_or_pending (it_status i) = true.
Proof.
  unfold find_first. intros [Hin%list_elem_of_In Hp]%List.find_some.
  apply (elem_of_btree_entries String.le) in Hin.
  apply andb_true_iff in Hp as [? ?]. done.
Qed.

Lemma new_item_ok e : item_ok (item_of_event e).
Proof.
  split_and!; [intros n a Ha; cbn in Ha; by rewrite lookup_nil in Ha|cbn; done|].
  exists [], []. cbn. done.
Qed.

Lemma count_occurrence_ok i : item_ok i → item_ok (count_occurrence i).
Proof. intros Hi. by eapply item_ok_status. Qed.

Lemma unread_ok i u : item_ok i → item_ok (i <| it_unread := u |>).
Proof. intros Hi. by eapply item_ok_status. Qed.

Lemma insert_new_ok b e :
  inbox_ok b → ib_seen_event_ids b !! ave_event_id e = None →
  (∀ k, provider_request_key e = Some k → ib_provider_requests b !! request_key_digest k = None) →
  let event_id := ave_event_id e in
  let c := set_item b event_id (item_of_event e) <| ib_seen_event_ids ::= <[event_id := event_id]> |> in
  let c := match provider_request_key e with
           | Some k => c <| ib_provider_requests ::=
                             <[request_key_digest k := mkProviderRequestIndexEntry k event_id]> |>
           | None => c
           end in
  inbox_ok c ∧ inbox_le b c.
Proof.
  intros (Hitems & Hseen & Hreq) He Hkey event_id c1 c.
  assert (Hnew : ib_items b !! event_id = None).
  { destruct (ib_items b !! event_id) as [i|] eqn:Hi; [|done].
    destruct (Hitems _ _ Hi) as (_ & _ & Hs). subst event_id. congruence. }
  assert (Hc : ib_items c = <[event_id := item_of_event e]> (ib_items b)
    ∧ ib_seen_event_ids c = <[event_id := event_id]> (ib_seen_event_ids b)
    ∧ map_Forall (λ digest entry, digest = request_key_digest (pri_key entry)
        ∧ ∃ i, ib_items c !! pri_item_id entry = Some i ∧ item_request_key i = Some (pri_key entry))
        (ib_provider_requests c)).
  { assert (Hold : ∀ entry k, (∃ i, ib_items b !! pri_item_id entry = Some i
        ∧ item_request_key i = Some k) → ∃ i, <[event_id := item_of_event e]> (ib_items b)
          !! pri_item_id entry = Some i ∧ item_request_key i = Some k).
    { intros entry k (i & Hi & Hk). exists i. split; [|done].
      rewrite lookup_insert_ne; [done|]. intros Heq. rewrite <- Heq in Hi. congruence. }
    subst c. destruct (provider_request_key e) as [k|] eqn:Hk; cbn; split_and!; try done.
    - apply map_Forall_insert_2.
      + split; [done|]. exists (item_of_event e). cbn. rewrite lookup_insert, decide_True by done.
        split; [done|]. rewrite <- Hk. unfold item_request_key. by destruct e.
      + eapply map_Forall_impl; [exact Hreq|]. intros d entry [-> Hi]. auto.
    - eapply map_Forall_impl; [exact Hreq|]. intros d entry [-> Hi]. auto. }
  destruct Hc as (Hci & Hcs & Hcr). clearbody c. split; [|split].
  - split_and!; [| |exact Hcr]; rewrite Hci, Hcs.
    + apply map_Forall_insert_2.
      * split_and!; [done|apply new_item_ok|]. rewrite lookup_insert. by case_decide.
      * eapply map_Forall_impl; [exact Hitems|]. intros id i (? & ? & Hs). split_and!; [done|done|].
        rewrite lookup_insert. case_decide as Hx; [by f_equal|done].
    + apply map_Forall_insert_2.
      * rewrite lookup_insert. by case_decide.
      * eapply map_Forall_impl; [exact Hseen|]. intros e' id Hid. rewrite lookup_insert.
        by case_decide.
  - rewrite Hcs. by apply insert_subseteq.
  - intros id i Hi. exists i. split; [|done]. rewrite Hci, lookup_insert_ne; [done|].
    intros ->. congruence.
Qed.

Lemma ingest_ok b e c :
  inbox_ok b → ingest b e = Ok c →
  inbox_ok c ∧ inbox_le b c
  ∧ ∃ id i, ib_seen_event_ids c !! ave_event_id e = Some id ∧ ib_items c !! id = Some i
            ∧ has_same_payload_as e i = true.
Proof.
  intros Hb Hok. unfold ingest in Hok.
  destruct (ib_seen_event_ids b !! ave_event_id e) as [id|] eqn:Hseen.
  { apply bind_ok in Hok as (i & Hi & Hok). inv_ok. destruct (has_same_payload_as e i) eqn:Hp; [|done].
    inv_ok. split_and!; [done|done|]. eauto. }
  cbv zeta in Hok.
  destruct (k ← provider_request_key e; entry ← ib_provider_requests b !! request_key_digest k;
            Some (k, entry)) as [[k entry]|] eqn:Hidx.
  - apply bind_ok in Hok as ([] & Hk & Hok). apply bind_ok in Hok as (i & Hi & Hok).
    apply bind_ok in Hok as ([] & Hp & Hok). inv_ok.
    set (j := if open_or_pending _ then _ else _).
    assert (Hj : item_ok j ∧ event_of_item j = event_of_item i).
    { destruct Hb as (Hitems & _). destruct (Hitems _ _ Hi) as (_ & Hiok & _). subst j.
      case_match; split; try payload_same; [apply unread_ok|]; by apply count_occurrence_ok. }
    destruct Hj as [Hjok Hjev].
    destruct (set_item_ok b (pri_item_id entry) i j Hb Hi Hjok Hjev) as [Hb1 Hle1].
    destruct (saw_event_ok (set_item b (pri_item_id entry) j) (ave_event_id e) (pri_item_id entry))
      as [Hb2 Hle2]; [done|done| |].
    { unfold set_item. cbn. rewrite lookup_insert. by case_decide. }
    split; [exact Hb2|]. split; [by etrans|]. exists (pri_item_id entry), j. cbn.
    rewrite !lookup_insert, !decide_True by done. split_and!; [done|done|].
    by rewrite (has_same_payload_event e j i).
  - destruct (find_first _ _) as [[id i]|] eqn:Hfind.
    + apply elem_of_find_items in Hfind as (Hi & Hp & _). inv_ok.
      set (j := count_occurrence i <| it_unread := true |>).
      pose proof Hb as (Hitems & _). destruct (Hitems _ _ Hi) as (Hid & Hiok & _).
      destruct (set_item_ok b id i j Hb Hi) as [Hb1 Hle1];
        [by apply unread_ok, count_occurrence_ok|payload_same|].
      assert (Hjid : it_id j = id) by exact Hid. rewrite Hjid. destruct (saw_event_ok (set_item b id j) (ave_event_id e) id) as [Hb2 Hle2];
        [done|done| |].
      { unfold set_item. cbn. rewrite lookup_insert. by case_decide. }
      split; [exact Hb2|]. split; [by etrans|]. exists id, j. cbn.
      rewrite !lookup_insert, !decide_True by done. split_and!; [done|done|].
      by rewrite (has_same_payload_event e j i).
    + inv_ok. destruct (insert_new_ok b e Hb Hseen) as [Hc Hle].
      { intros k Hk. rewrite Hk in Hidx. cbn in Hidx.
        by destruct (ib_provider_requests b !! request_key_digest k). }
      split; [exact Hc|]. split; [exact Hle|]. exists (ave_event_id e), (item_of_event e).
      assert (Hp : has_same_payload_as e (item_of_event e) = true)
        by (apply has_same_payload_iff; by destruct e).
      destruct (provider_request_key e); cbn; rewrite !lookup_insert, !decide_True by done; done.
Qed.

Lemma refresh_ok b now : inbox_ok b → inbox_ok (refresh b now) ∧ inbox_le b (refresh b now).
Proof.
  intros (Hitems & Hseen & Hreq). unfold refresh, inbox_ok, inbox_le. cbn. split_and!.
  - apply map_Forall_lookup_2. intros id j Hj. rewrite lookup_fmap in Hj.
    apply fmap_Some in Hj as (i & Hi & ->). destruct (Hitems _ _ Hi) as (Hid & Hok & Hs).
    split_and!; [|by apply refresh_item_ok|done].
    rewrite <- Hid. exact (f_equal ave_event_id (refresh_item_payload now i)).
  - eapply map_Forall_impl; [exact Hseen|]. intros e id [i Hi]. rewrite lookup_fmap, Hi. by eexists.
  - eapply map_Forall_impl; [exact Hreq|]. intros d entry (-> & i & Hi & Hk). split; [done|].
    exists (refresh_item now i). rewrite lookup_fmap, Hi. split; [done|].
    etrans; [apply item_request_key_eq, refresh_item_payload|done].
  - done.
  - intros id i Hi. exists (refresh_item now i). rewrite lookup_fmap, Hi. split; [done|].
    apply refresh_item_payload.
Qed.

(** Every operation of the inbox, as a step *)
Inductive inbox_step : AttentionInbox → AttentionInbox → Prop :=
| inbox_ingest b e c : ingest b e = Ok c → inbox_step b c
| inbox_refresh b now : inbox_step b (refresh b now)
| inbox_decided b id decision actor at_ :
    inbox_step b (inbox_decide b id decision actor at_).1
| inbox_answered b id answer actor at_ : inbox_step b (inbox_answer b id answer actor at_).1
| inbox_confirmed b token at_ : inbox_step b (confirm_response b token at_).1
| inbox_failed b token disposition code at_ :
    inbox_step b (fail_response b token disposition code at_).1
| inbox_dismissed b id actor reason at_ c : dismiss b id actor reason at_ = Ok c → inbox_step b c
| inbox_marked_read b id c : mark_read b id = Ok c → inbox_step b c.

Lemma inbox_step_ok b c : inbox_ok b → inbox_step b c → inbox_ok c ∧ inbox_le b c.
Proof.
  intros Hb Hstep. destruct Hstep as [b e c Hok|b now|b id d a t|b id x a t|b tok t|b tok dd cd t
                                     |b id a r t c Hok|b id c Hok].
  - destruct (ingest_ok b e c Hb Hok) as (? & ? & _). done.
  - by apply refresh_ok.
  - apply on_item_ok; [done|intros i <-; apply decide_item_ok|intros; apply decide_item_payload].
  - apply on_item_ok; [done|intros i <-; apply answer_item_ok|intros; apply answer_item_payload].
  - apply on_item_ok; [done|intros i _; apply confirm_item_ok|intros; apply confirm_item_payload].
  - apply on_item_ok; [done|intros i _; apply fail_item_ok|intros; apply fail_item_payload].
  - unfold dismiss in Hok. apply bind_ok in Hok as (i & Hi & Hok).
    apply bind_ok in Hok as ([] & Hst & Hok). do 4 apply bind_ok in Hok as (? & _ & Hok). inv_ok.
    pose proof Hb as (Hitems & _). destruct (Hitems _ _ Hi) as (_ & Hiok & _).
    apply (set_item_ok b id i); [done|done| |payload_same].
    eapply item_ok_status; [exact Hiok|done..|]. rewrite Hst. done.
  - unfold mark_read in Hok. apply bind_ok in Hok as (i & Hi & Hok). inv_ok.
    pose proof Hb as (Hitems & _). destruct (Hitems _ _ Hi) as (_ & Hiok & _).
    apply (set_item_ok b id i); [done|done|by apply unread_ok|payload_same].
Qed.

Definition inbox_steps := rtc inbox_step.

Lemma inbox_steps_ok b c : inbox_ok b → inbox_steps b c → inbox_ok c ∧ inbox_le b c.
Proof.
  intros Hb Hsteps. revert Hb. induction Hsteps as [b|b c d Hstep _ IH]; intros Hb; [done|].
  destruct (inbox_step_ok b c Hb Hstep) as [Hc Hle]. destruct (IH Hc) as [? ?].
  split; [done|by etrans].
Qed.

Lemma inbox_new_ok : inbox_ok AttentionInbox_new.
Proof. split_and!; apply map_Forall_empty. Qed.
End inbox.

(** ** The promises of the inbox *)

(** C21: The invariant of the inbox.  After any sequence of operations, items
    are filed under their own identifier, the event and request indexes point
    at existing items with the indexed identity, and every item's attempts
    are numbered in order, all but the last definitely failed.  Every status
    but expired says what became of the last: an open or dismissed item has
    only failed ones, a pending one exactly one in flight, one to reconcile or
    resolved exactly one that ended so.  An expired item says nothing of its
    last attempt, which may have ended or be in flight
    ([late_decision_overwrites]). *)
Theorem inbox_invariant {HSha : Sha256} b :
  inbox_steps AttentionInbox_new b → inbox_ok b.
Proof. intros Hsteps. by apply (inbox_steps_ok _ _ inbox_new_ok). Qed.

(** Redelivered events change nothing.  An event the inbox accepted is
    accepted again as the same inbox, whatever happened in between; the same
    event identifier with another payload is refused. *)
Theorem ingest_redelivery {HSha : Sha256} b e c d e' :
  inbox_ok b → ingest b e = Ok c → inbox_steps c d →
  ingest d e = Ok d
  ∧ (ave_event_id e' = ave_event_id e → e' ≠ e →
     ingest d e' = Err AttentionError.EventIdConflict).
Proof.
  intros Hb Hok Hsteps. destruct (ingest_ok b e c Hb Hok) as (Hc & _ & id & i & Hseen & Hi & Hp).
  destruct (inbox_steps_ok c d Hc Hsteps) as (_ & Hle & Hitems).
  destruct (Hitems _ _ Hi) as (j & Hj & Hev).
  assert (Hseen' : ib_seen_event_ids d !! ave_event_id e = Some id)
    by (eapply lookup_weaken; [exact Hseen|exact Hle]).
  rewrite <- (has_same_payload_event e j i Hev) in Hp. split.
  - unfold ingest. rewrite Hseen'. cbn. rewrite Hj. cbn. by rewrite Hp.
  - intros Hid Hne. unfold ingest. rewrite Hid, Hseen'. cbn. rewrite Hj. cbn.
    destruct (has_same_payload_as e' j) eqn:Hp'; [|done]. exfalso. apply Hne.
    apply has_same_payload_iff in Hp, Hp'. rewrite <- Hp in Hp'.
    destruct e, e'. cbn in *. injection Hp'. intros. by subst.
Qed.

(** The conditions under which a decision is sent to the provider *)
Definition may_respond (i : AttentionItem) (actor : string) (at_ : N) : Prop :=
  it_status i = AttentionStatus.Open ∧ (it_created_at_millis i ≤ at_)%N ∧ has_expired i at_ = false
  ∧ it_response_capability i = ResponseCapability.Reliable ∧ source_is_reliable (it_source i) = true
  ∧ trim_is_empty actor = false.

Lemma closed_no_reply i id decision answer actor at_ :
  it_status i ≠ AttentionStatus.Open →
  (∀ r d a t, (decide_item i id decision actor at_).2
     ≠ Ok (Some (ProviderResponseIntent.Respond r d a t)))
  ∧ (∀ r d a t, (answer_item i id answer actor at_).2
     ≠ Ok (Some (ProviderResponseIntent.Respond r d a t))).
Proof.
  intros Hst. unfold decide_item, answer_item. rewrite (bool_decide_eq_false_2 _ Hst).
  split; intros r d a t; repeat (destruct (_ : bool); try done).
Qed.

(** What is sent to a provider.  [decide] hands out a reply only for an
    open, unexpired permission request from a reliable source that can be
    answered, with the route of that request; a critical request can only be
    denied, and a lasting grant needs a low or medium risk.  The token is new:
    no earlier attempt of the item has it, and while the reply is in flight no
    other one is handed out. *)
Theorem decide_reply_spec {HSha : Sha256} b id decision actor at_ c route decision' answer token :
  inbox_ok b →
  inbox_decide b id decision actor at_
  = (c, Ok (Some (ProviderResponseIntent.Respond route decision' answer token))) →
  ∃ i request_id, ib_items b !! id = Some i ∧ may_respond i actor at_
    ∧ it_kind i = AttentionKind.PermissionRequest ∧ decision' = decision ∧ answer = None
    ∧ it_provider_request_id i = Some request_id ∧ route = response_route i request_id
    ∧ (it_risk i = AttentionRisk.Critical → decision = AttentionDecision.Deny)
    ∧ (decision = AttentionDecision.ApproveForSession ∨ decision = AttentionDecision.AllowForMission →
       it_risk i = AttentionRisk.Low ∨ it_risk i = AttentionRisk.Medium)
    ∧ Forall (λ a, pra_token a ≠ token) (it_response_attempts i)
    ∧ ∀ decision2 actor2 at2 answer2,
        (∀ r d a t, (inbox_decide c id decision2 actor2 at2).2
           ≠ Ok (Some (ProviderResponseIntent.Respond r d a t)))
        ∧ (∀ r d a t, (inbox_answer c id answer2 actor2 at2).2
           ≠ Ok (Some (ProviderResponseIntent.Respond r d a t))).
Proof.
  intros (Hitems & _) Hdec. unfold inbox_decide, on_item in Hdec.
  destruct (ib_items b !! id) as [i|] eqn:Hi; [|done].
  destruct (Hitems _ _ Hi) as (Hid & (Hnum & _ & _) & _).
  destruct (decide_item i id decision actor at_) as [j r] eqn:Hj. injection Hdec as <- ->.
  unfold decide_item in Hj. cbv zeta in Hj.
  do 4 (case_match; [done|]). case_match; [done|]. case_match; [done|]. case_match; [done|].
  destruct (it_provider_request_id i) as [request_id|] eqn:Hreq; [|done].
  destruct (next_attempt i) as [n|] eqn:Hn; [|done]. unfold request_response in Hj.
  injection Hj as <- <- <- <- <-. inv_ok.
  exists i, request_id. split; [done|]. split.
  { unfold may_respond. split_and!; try done. by destruct (it_response_capability i). }
  assert (Hkind : it_kind i = AttentionKind.PermissionRequest)
    by (destruct (it_kind i); try done).
  rewrite Hkind in *. split_and!; try done.
  - intros Hcrit. rewrite Hcrit in *. by destruct decision.
  - intros Hlast. destruct (it_risk i); auto; by destruct Hlast as [->| ->].
  - apply Forall_forall. intros a [m Hm]%list_elem_of_lookup_1 Htok.
    rewrite (Hnum _ _ Hm) in Htok. injection Htok as _ Hnm.
    unfold next_attempt, checked_add, vec_len in Hn. repeat case_match; try done. injection Hn as <-.
    apply lookup_lt_Some in Hm. lia.
  - intros decision2 actor2 at2 answer2. unfold inbox_decide, inbox_answer, on_item, set_item.
    cbn [ib_items update]. cbn. rewrite lookup_insert, decide_True by done.
    set (j := mkAttentionItem _ _ _ _ _ _ _ _ _ _ _ _ _ _ _ _ _ _ _ _).
    assert (Hj : it_status j ≠ AttentionStatus.Open) by done.
    pose proof (closed_no_reply j id decision2 answer2 actor2 at2 Hj) as [Hd Ha].
    destruct (decide_item j id decision2 actor2 at2), (answer_item j id answer2 actor2 at2).
    cbn in *. auto.
Qed.

(** Items of a kind that are open for a session *)
Definition open_kinds (b : AttentionInbox) (mission run : string) (provider : ProviderKind)
    (session : string) (kinds : AttentionKind → Prop) : Prop :=
  ∃ id i, ib_items b !! id = Some i ∧ concerns_session mission run provider session i = true
          ∧ kinds (it_kind i).

Lemma worst_status_fold fallback items :
  let effective := foldl worst_status fallback items in
  let asks kind := ∃ i, i ∈ items ∧ it_kind i = kind in
  (effective = SessionStatus.NeedsApproval ↔
     asks AttentionKind.PermissionRequest ∨ fallback = SessionStatus.NeedsApproval)
  ∧ (effective = SessionStatus.NeedsAnswer ↔
     ¬ (asks AttentionKind.PermissionRequest ∨ fallback = SessionStatus.NeedsApproval)
     ∧ (asks AttentionKind.ProviderQuestion ∨ fallback = SessionStatus.NeedsAnswer))
  ∧ (effective ≠ SessionStatus.NeedsApproval → effective ≠ SessionStatus.NeedsAnswer →
     effective = match items with [] => fallback | _ => SessionStatus.Blocked end).
Proof.
  revert fallback. induction items as [|i items IH]; intros fallback effective asks.
  { subst effective asks. cbn. set_solver. }
  subst effective asks. cbn [foldl]. destruct (IH (worst_status fallback i)) as (Happ & Hans & Hrest).
  cbv zeta in Happ, Hans, Hrest.
  assert (Hasks : ∀ kind, (∃ j, j ∈ i :: items ∧ it_kind j = kind)
    ↔ it_kind i = kind ∨ ∃ j, j ∈ items ∧ it_kind j = kind).
  { intros kind. setoid_rewrite elem_of_cons. naive_solver. }
  rewrite !Hasks. clear Hasks.
  assert (Hworst : (worst_status fallback i = SessionStatus.NeedsApproval
      ↔ it_kind i = AttentionKind.PermissionRequest ∨ fallback = SessionStatus.NeedsApproval)
    ∧ (worst_status fallback i = SessionStatus.NeedsAnswer
      ↔ ¬ (it_kind i = AttentionKind.PermissionRequest ∨ fallback = SessionStatus.NeedsApproval)
        ∧ (it_kind i = AttentionKind.ProviderQuestion ∨ fallback = SessionStatus.NeedsAnswer))
    ∧ (worst_status fallback i ≠ SessionStatus.NeedsApproval →
       worst_status fallback i ≠ SessionStatus.NeedsAnswer →
       worst_status fallback i = SessionStatus.Blocked)).
  { unfold worst_status. clear. destruct (it_kind i), fallback; cbn; intuition discriminate. }
  destruct Hworst as (Hw1 & Hw2 & Hw3). split_and!.
  - rewrite Happ, Hw1. clear. tauto.
  - rewrite Hans, Hw1, Hw2. clear. tauto.
  - intros Hn1 Hn2. rewrite Hrest by done. destruct items; [|done]. cbn in Hn1, Hn2. by apply Hw3.
Qed.

(** The status of a session is its most urgent open item.  It needs an
    approval exactly when an unresolved item asks for a permission or the
    fallback already says so; else an answer exactly when one asks a question
    or the fallback says so; else it is blocked when anything is unresolved
    and otherwise what the fallback says. *)
Theorem effective_run_status_spec b mission run provider session fallback :
  let effective := effective_run_status b mission run provider session fallback in
  let open_kinds := open_kinds b mission run provider session in
  let asks kind := open_kinds (λ k, k = kind) in
  (effective = SessionStatus.NeedsApproval ↔
     asks AttentionKind.PermissionRequest ∨ fallback = SessionStatus.NeedsApproval)
  ∧ (effective = SessionStatus.NeedsAnswer ↔
     ¬ (asks AttentionKind.PermissionRequest ∨ fallback = SessionStatus.NeedsApproval)
     ∧ (asks AttentionKind.ProviderQuestion ∨ fallback = SessionStatus.NeedsAnswer))
  ∧ (effective ≠ SessionStatus.NeedsApproval → effective ≠ SessionStatus.NeedsAnswer →
     (open_kinds (λ _, True) → effective = SessionStatus.Blocked)
     ∧ (¬ open_kinds (λ _, True) → effective = fallback)).
Proof.
  intros effective kinds asks. unfold effective_run_status in effective.
  set (items := filter _ _) in effective.
  assert (Hkinds : ∀ P, kinds P ↔ ∃ i, i ∈ items ∧ P (it_kind i)).
  { intros P. subst kinds items. unfold open_kinds. setoid_rewrite list_elem_of_filter.
    setoid_rewrite elem_of_btree_values. naive_solver. }
  subst asks. cbv beta zeta. rewrite !Hkinds.
  destruct (worst_status_fold fallback items) as (Happ & Hans & Hrest). cbv zeta in Happ, Hans, Hrest.
  split; [exact Happ|]. split; [exact Hans|]. intros Hn1 Hn2. subst effective.
  rewrite (Hrest Hn1 Hn2). destruct items as [|i items'].
  - split; [|done]. by intros (i & ?%not_elem_of_nil & _).
  - split; [done|]. intros []. exists i. split; [left|done].
Qed.

(** A late decision rewrites history.  [decide] and [answer] look at the
    deadline before they look at whether the item is still open: on an item
    that was already resolved, dismissed or handed to the provider, a
    decision after the deadline is refused but turns the item's status into
    expired.  [refresh] leaves such an item as it is, or as needing
    reconciliation when a reply is in flight. *)
Theorem late_decision_overwrites b id i decision answer actor at_ :
  ib_items b !! id = Some i →
  it_status i ≠ AttentionStatus.Open → is_expired (it_status i) = false →
  (it_created_at_millis i ≤ at_)%N → has_expired i at_ = true →
  let overwritten := set_item b id (i <| it_status := AttentionStatus.Expired at_ |>) in
  inbox_decide b id decision actor at_ = (overwritten, Err AttentionError.Expired)
  ∧ inbox_answer b id answer actor at_ = (overwritten, Err AttentionError.Expired)
  ∧ ∃ j, ib_items (refresh b at_) !! id = Some j ∧ is_expired (it_status j) = false.
Proof.
  intros Hi Hopen Hexp Hcreated Hlate overwritten.
  unfold inbox_decide, inbox_answer, on_item. rewrite Hi. unfold decide_item, answer_item.
  rewrite (proj2 (N.ltb_ge _ _) Hcreated), Hexp, Hlate. split; [done|]. split; [done|].
  exists (refresh_item at_ i). unfold refresh. cbn. rewrite lookup_fmap, Hi. split; [done|].
  unfold refresh_item. rewrite Hlate, andb_true_r.
  destruct (it_status i) eqn:Hst; cbn; rewrite ?Hst; done.
Qed.

(** ** Witnesses *)

Module AttentionDemo.
#[local] Existing Instance demo_sha256.

Definition pane := mkPaneTarget "w" "p".
Definition event (id : string) (risk : AttentionRisk) : AttentionEvent :=
  expires_at (with_response_capability (with_provider_request_id
    (AttentionEvent_new id "m" "r" "s" pane AttentionKind.PermissionRequest "run tests" "once" risk
       ProviderKind.Codex ObservationSource.ProviderApi 10) "req-1") ResponseCapability.Reliable) 100.
Definition get (m : result AttentionError AttentionInbox) : AttentionInbox :=
  match m with Ok b => b | Err _ => AttentionInbox_new end.
Definition inbox : AttentionInbox := get (ingest AttentionInbox_new (event "e1" AttentionRisk.Low)).
Definition decided := inbox_decide inbox "e1" AttentionDecision.ApproveOnce "ana" 20.
Definition token := mkProviderResponseToken "e1" 1 1.
Definition confirmed : AttentionInbox := (confirm_response decided.1 token 30).1.

Lemma inbox_reached : inbox_steps AttentionInbox_new inbox.
Proof. apply rtc_once, (inbox_ingest _ (event "e1" AttentionRisk.Low)). vm_compute. reflexivity. Qed.
Lemma confirmed_reached : inbox_steps inbox confirmed.
Proof.
  eapply rtc_l; [apply inbox_decided with (id := "e1") (decision := AttentionDecision.ApproveOnce)
    (actor := "ana") (at_ := 20%N)|]. apply rtc_once. apply inbox_confirmed.
Qed.
End AttentionDemo.

Lemma inbox_invariant_witness : @inbox_ok demo_sha256 AttentionDemo.confirmed.
Proof.
  apply (@inbox_invariant demo_sha256 AttentionDemo.confirmed).
  etrans; [exact AttentionDemo.inbox_reached|exact AttentionDemo.confirmed_reached].
Defined.

Lemma ingest_redelivery_witness :
  @ingest demo_sha256 AttentionDemo.confirmed (AttentionDemo.event "e1" AttentionRisk.Low)
    = Ok AttentionDemo.confirmed
  ∧ @ingest demo_sha256 AttentionDemo.confirmed (AttentionDemo.event "e1" AttentionRisk.High)
    = Err AttentionError.EventIdConflict.
Proof.
  destruct (@ingest_redelivery demo_sha256 AttentionInbox_new
              (AttentionDemo.event "e1" AttentionRisk.Low) AttentionDemo.inbox AttentionDemo.confirmed
              (AttentionDemo.event "e1" AttentionRisk.High)) as [Hsame Hother].
  - exact (@inbox_new_ok demo_sha256).
  - vm_compute. reflexivity.
  - exact AttentionDemo.confirmed_reached.
  - split; [exact Hsame|]. apply Hother; [reflexivity|]. intros Heq. discriminate Heq.
Defined.

Lemma decide_reply_spec_witness :
  ∃ i, ib_items AttentionDemo.inbox !! "e1" = Some i
    ∧ Forall (λ a, pra_token a ≠ AttentionDemo.token) (it_response_attempts i).
Proof.
  destruct (@decide_reply_spec demo_sha256 AttentionDemo.inbox "e1" AttentionDecision.ApproveOnce
              "ana" 20 AttentionDemo.decided.1
              (mkProviderResponseRoute ProviderKind.Codex "m" "r" "s" AttentionDemo.pane "req-1" 1 "once")
              AttentionDecision.ApproveOnce None AttentionDemo.token)
    as (i & request_id & Hi & _ & _ & _ & _ & _ & _ & _ & _ & Hnew & _).
  - exact (proj1 (inbox_steps_ok _ _ inbox_new_ok AttentionDemo.inbox_reached)).
  - vm_compute. reflexivity.
  - exists i. split; [exact Hi|exact Hnew].
Defined.

Lemma late_decision_overwrites_witness :
  ∃ i, ib_items AttentionDemo.confirmed !! "e1" = Some i
    ∧ it_status i = AttentionStatus.Resolved AttentionDecision.ApproveOnce "ana" 30
    ∧ (inbox_decide AttentionDemo.confirmed "e1" AttentionDecision.Deny "bob" 200).1
      = set_item AttentionDemo.confirmed "e1" (i <| it_status := AttentionStatus.Expired 200 |>).
Proof.
  destruct (ib_items AttentionDemo.confirmed !! "e1") as [i|] eqn:Hi;
    [|vm_compute in Hi; discriminate Hi].
  exists i. pose proof Hi as Hv. vm_compute in Hv. injection Hv as Hv. split; [reflexivity|].
  split; [rewrite <- Hv; reflexivity|].
  rewrite (proj1 (late_decision_overwrites AttentionDemo.confirmed "e1" i AttentionDecision.Deny ""
                    "bob" 200 Hi ltac:(rewrite <- Hv; discriminate) ltac:(rewrite <- Hv; reflexivity)
                    ltac:(rewrite <- Hv; discriminate) ltac:(rewrite <- Hv; reflexivity))).
  reflexivity.
Defined.
