(* ===== verification/Consent.v ===== *)
(** * Consent to what a client asks for ([src/src/server/consent.rs])

    Before a client starts a provider that may write, or answers one, the server
    issues a grant for exactly this, good for thirty seconds and for one use.  A
    grant is shared between threads; what they share of it is the flag [used],
    which is taken by one atomic exchange, so that concurrent attempts are
    attempts in some order.  Random bytes and the clock are arguments. *)

From S2P Require Export Attention Ports.

(** ** Subjects *)

(** In nanoseconds, as instants are *)
Definition CONSENT_TTL : N := 30 * 10 ^ 9.

(** The last instant of the clock, whose seconds are an [i64] *)
Definition INSTANT_MAX : N := 2 ^ 63 * 10 ^ 9 - 1.

Definition DIGEST_PREFIX : bytes := str_bytes "server-consent-subject-canonical-v1".

Record RespondConsentContext := mkRespondConsentContext {
  cc_mission_id : string;
  cc_run_id : string;
  cc_attention_id : string;
  cc_provider_request_id : string;
  cc_request_generation : N;
}.

Module ConsentSubjectKind.
Inductive ConsentSubjectKind :=
  | StartWorkspaceWrite (mission_id run_id : string) (provider : ProviderKind) (mode : ProviderMode)
      (canonical_worktree : string)
  | Respond (context : RespondConsentContext) (decision : AttentionDecision) (answers_digest : bytes).
End ConsentSubjectKind.
Abbreviation ConsentSubjectKind := ConsentSubjectKind.ConsentSubjectKind.

Record ConsentSubject := mkConsentSubject { cs_client_id : N; cs_kind : ConsentSubjectKind }.

Module ConsentSubjectError.
Inductive ConsentSubjectError := WorktreeResolutionFailed | NonUnicodeWorktree.
End ConsentSubjectError.
Abbreviation ConsentSubjectError := ConsentSubjectError.ConsentSubjectError.

Module ConsentError.
Inductive ConsentError :=
  RandomUnavailable | ClockOverflow | AlreadyUsed | ServerEpochMismatch | Expired | SubjectMismatch.
End ConsentError.
Abbreviation ConsentError := ConsentError.ConsentError.

(** [canonical] is what the file system makes of the path of the worktree. *)
Definition start_workspace_write (client_id : N) (mission_id run_id : string) (provider : ProviderKind)
    (mode : ProviderMode) (canonical : option bytes) : result ConsentSubjectError ConsentSubject :=
  canonical_worktree ← ok_or canonical ConsentSubjectError.WorktreeResolutionFailed;
  _ ← reject_if (negb (utf8_valid (N_of_ascii <$> canonical_worktree))) ConsentSubjectError.NonUnicodeWorktree;
  Ok (mkConsentSubject client_id
        (ConsentSubjectKind.StartWorkspaceWrite mission_id run_id provider mode (str_of_bytes canonical_worktree))).

(** ** Their digests *)

Definition consent_provider_tag (provider : ProviderKind) : N :=
  match provider with
  | ProviderKind.Codex => 0
  | ProviderKind.ClaudeCode => 1
  | ProviderKind.OpenCode => 2
  | ProviderKind.Acp => 3
  end.

Definition mode_tag (mode : ProviderMode) : N :=
  match mode with ProviderMode.Managed => 0 | ProviderMode.Passthrough => 1 end.

Definition decision_tag (decision : AttentionDecision) : N :=
  match decision with
  | AttentionDecision.ApproveOnce => 0
  | AttentionDecision.ApproveForSession => 1
  | AttentionDecision.AllowForMission => 2
  | AttentionDecision.Deny => 3
  | AttentionDecision.Answer => 4
  end.

Definition subject_digest_new (domain : string) : CanonicalDigest :=
  mkCanonicalDigest [] |>> digest_bytes DIGEST_PREFIX |>> digest_bytes (str_bytes domain).

Definition subject_digest_finish {HSha : Sha256} (d : CanonicalDigest) : bytes := sha256 (hasher_input d).

Definition canonical_answers_digest {HSha : Sha256} (answers : gmap string (list string)) : bytes :=
  subject_digest_new "server-consent-answers-v1"
  |>> digest_u64 (map_len answers)
  |>> digest_each (λ kv d, d |>> digest_string kv.1
                             |>> digest_u64 (vec_len kv.2)
                             |>> digest_each digest_string kv.2)
        (btree_entries String.le answers)
  |>> subject_digest_finish.

Definition respond {HSha : Sha256} (client_id : N) (context : RespondConsentContext) (decision : AttentionDecision)
    (answers : gmap string (list string)) : ConsentSubject :=
  mkConsentSubject client_id (ConsentSubjectKind.Respond context decision (canonical_answers_digest answers)).

Definition consent_subject_digest {HSha : Sha256} (s : ConsentSubject) : bytes :=
  match cs_kind s with
  | ConsentSubjectKind.StartWorkspaceWrite mission_id run_id provider mode canonical_worktree =>
      subject_digest_new "server-consent-start-workspace-write-v2"
      |>> digest_u64 (cs_client_id s)
      |>> digest_string mission_id
      |>> digest_string run_id
      |>> digest_u8 (consent_provider_tag provider)
      |>> digest_u8 (mode_tag mode)
      |>> digest_string canonical_worktree
      |>> subject_digest_finish
  | ConsentSubjectKind.Respond context decision answers_digest =>
      subject_digest_new "server-consent-respond-v2"
      |>> digest_u64 (cs_client_id s)
      |>> digest_string (cc_mission_id context)
      |>> digest_string (cc_run_id context)
      |>> digest_string (cc_attention_id context)
      |>> digest_string (cc_provider_request_id context)
      |>> digest_u64 (cc_request_generation context)
      |>> digest_u8 (decision_tag decision)
      |>> digest_bytes answers_digest
      |>> subject_digest_finish
  end.

(** ** Grants *)

Record ConsentGrant := mkConsentGrant {
  cg_nonce : bytes;
  cg_server_epoch : bytes;
  cg_subject_digest : bytes;
  cg_expires_at : N;
  cg_used : bool;
}.
#[export] Instance ConsentGrant_fields : Fields ConsentGrant := λ g,
  mkConsentGrant (cg_nonce g) (cg_server_epoch g) (cg_subject_digest g) (cg_expires_at g) (cg_used g).

Record ConsentAuthority := mkConsentAuthority { ca_server_epoch : bytes }.

(** [random] is what the system gives, when it does. *)
Definition ConsentAuthority_new (random : option bytes) : result ConsentError ConsentAuthority :=
  server_epoch ← ok_or random ConsentError.RandomUnavailable;
  Ok (mkConsentAuthority server_epoch).

Definition issue {HSha : Sha256} (a : ConsentAuthority) (random : option bytes) (now : N) (subject : ConsentSubject) :
    result ConsentError ConsentGrant :=
  nonce ← ok_or random ConsentError.RandomUnavailable;
  expires_at ← ok_or (checked_add INSTANT_MAX now CONSENT_TTL) ConsentError.ClockOverflow;
  Ok (mkConsentGrant nonce (ca_server_epoch a) (consent_subject_digest subject) expires_at false).

(** The grant is used up whatever comes of it. *)
Definition consume_with_expiry {HSha : Sha256} (a : ConsentAuthority) (grant : ConsentGrant)
    (expected_subject : ConsentSubject) (expired : bool) : ConsentGrant * result ConsentError unit :=
  if cg_used grant then (grant, Err ConsentError.AlreadyUsed)
  else
    (grant <| cg_used := true |>,
     if negb (bool_decide (cg_server_epoch grant = ca_server_epoch a)) then Err ConsentError.ServerEpochMismatch
     else if expired then Err ConsentError.Expired
     else if negb (bool_decide (cg_subject_digest grant = consent_subject_digest expected_subject))
     then Err ConsentError.SubjectMismatch
     else Ok tt).

Definition consume {HSha : Sha256} (a : ConsentAuthority) (grant : ConsentGrant) (expected_subject : ConsentSubject)
    (now : N) : ConsentGrant * result ConsentError unit :=
  consume_with_expiry a grant expected_subject (cg_expires_at grant <=? now)%N.

(** ** A digest names its subject *)

(** What the eight bytes before a field can count *)
Definition text_fits (s : string) : Prop := fits_u64 (str_bytes s).

Definition subject_fits (s : ConsentSubject) : Prop :=
  (cs_client_id s < 256 ^ 8)%N
  ∧ match cs_kind s with
    | ConsentSubjectKind.StartWorkspaceWrite mission_id run_id _ _ canonical_worktree =>
        Forall text_fits [mission_id; run_id; canonical_worktree]
    | ConsentSubjectKind.Respond context _ answers_digest =>
        Forall text_fits [cc_mission_id context; cc_run_id context; cc_attention_id context;
                          cc_provider_request_id context]
        ∧ (cc_request_generation context < 256 ^ 8)%N ∧ fits_u64 answers_digest
    end.

Definition answers_fit (answers : gmap string (list string)) : Prop :=
  (map_len answers < 256 ^ 8)%N
  ∧ map_Forall (λ k values, text_fits k ∧ (vec_len values < 256 ^ 8)%N ∧ Forall text_fits values) answers.

(** The fields of a subject, the prefix and the domain first *)
Definition subject_fields (s : ConsentSubject) : list bytes :=
  match cs_kind s with
  | ConsentSubjectKind.StartWorkspaceWrite mission_id run_id provider mode canonical_worktree =>
      [DIGEST_PREFIX; str_bytes "server-consent-start-workspace-write-v2"; be_bytes 8 (cs_client_id s);
       str_bytes mission_id; str_bytes run_id; [ascii_of_N (consent_provider_tag provider)];
       [ascii_of_N (mode_tag mode)]; str_bytes canonical_worktree]
  | ConsentSubjectKind.Respond context decision answers_digest =>
      [DIGEST_PREFIX; str_bytes "server-consent-respond-v2"; be_bytes 8 (cs_client_id s);
       str_bytes (cc_mission_id context); str_bytes (cc_run_id context); str_bytes (cc_attention_id context);
       str_bytes (cc_provider_request_id context); be_bytes 8 (cc_request_generation context);
       [ascii_of_N (decision_tag decision)]; answers_digest]
  end.

Definition answer_fields (kv : string * list string) : list bytes :=
  str_bytes kv.1 :: be_bytes 8 (vec_len kv.2) :: (str_bytes <$> kv.2).

Definition answers_fields (answers : gmap string (list string)) : list bytes :=
  [DIGEST_PREFIX; str_bytes "server-consent-answers-v1"; be_bytes 8 (map_len answers)]
  ++ (btree_entries String.le answers ≫= answer_fields).

Section digests.
Context {HSha : Sha256}.

Lemma subject_digest_fields s :
  consent_subject_digest s = sha256 (hasher_input (digest_fields (mkCanonicalDigest []) (subject_fields s))).
Proof. by destruct s as [? []]. Qed.

Lemma answers_digest_fields answers :
  canonical_answers_digest answers
  = sha256 (hasher_input (digest_fields (mkCanonicalDigest []) (answers_fields answers))).
Proof.
  unfold canonical_answers_digest, subject_digest_finish, answers_fields. do 2 f_equal. rewrite digest_fields_app.
  rewrite (digest_each_fields answer_fields); [done|]. intros kv d. unfold answer_fields.
  rewrite !digest_fields_cons. unfold digest_string at 1 2. by rewrite (digest_each_bytes str_bytes).
Qed.

Lemma fits_be w n : (w < 256)%nat → fits_u64 (be_bytes w n).
Proof. intros ?. unfold fits_u64. rewrite length_be_bytes. change (256 ^ 8)%N with 18446744073709551616%N. lia. Qed.

Lemma fits_byte c : fits_u64 [c].
Proof. done. Qed.

Lemma subject_fields_fit s : subject_fits s → Forall fits_u64 (subject_fields s).
Proof.
  destruct s as [id [m r p md w|ctx dec ans]]; intros [Hid Hk]; cbn in *; decompose_Forall_hyps;
    repeat first [apply Forall_nil_2 | apply Forall_cons_2]; first [done | apply fits_be; lia | tauto | idtac].
  all: destruct Hk as (Hk & _); decompose_Forall_hyps; done.
Qed.

Lemma answers_fields_fit answers : answers_fit answers → Forall fits_u64 (answers_fields answers).
Proof.
  intros [Hn Hall]. apply Forall_app_2; [repeat first [apply Forall_nil_2 | apply Forall_cons_2]; first [done|apply fits_be; lia]|].
  apply Forall_forall. intros f (kv & Hf & Hkv)%list_elem_of_bind. destruct kv as [k vs].
  apply elem_of_btree_entries, Hall in Hkv as (Hk & _ & Hvs). unfold answer_fields in Hf. cbn [fst snd] in Hf.
  rewrite !elem_of_cons in Hf. destruct Hf as [->|[->|(v & -> & Hv)%list_elem_of_fmap]]; [done|apply fits_be; lia|].
  rewrite Forall_forall in Hvs. by apply Hvs.
Qed.

(** Equal digests of fields come of equal fields. *)
Lemma fields_digest_inj fs gs :
  Forall fits_u64 fs → Forall fits_u64 gs →
  sha256 (hasher_input (digest_fields (mkCanonicalDigest []) fs))
  = sha256 (hasher_input (digest_fields (mkCanonicalDigest []) gs)) → fs = gs ∨ collision.
Proof.
  intros Hfs Hgs [Heq|?]%sha256_inj_or; [left|right; by eapply clashes_collision].
  rewrite !hasher_input_fields in Heq. by apply frames_inj.
Qed.

Lemma tag_inj {A} (f : A → N) (p q : A) :
  (∀ x y, f x = f y → x = y) → (∀ x, f x < 256)%N → ascii_of_N (f p) = ascii_of_N (f q) → p = q.
Proof.
  intros Hinj Hlt Heq. apply Hinj. by rewrite <- (N_ascii_embedding (f p)), Heq, N_ascii_embedding.
Qed.

Lemma cons_eq {A} (x y : A) l k : x :: l = y :: k ↔ x = y ∧ l = k.
Proof. split; [by intros [= -> ->]|by intros [-> ->]]. Qed.

(** Takes equal lists of fields apart into equal parts of subjects. *)
Ltac equal_fields :=
  repeat match goal with
  | H : _ :: _ = _ :: _ |- _ => apply cons_eq in H as [? ?]
  | H : str_bytes _ = str_bytes _ |- _ => apply str_bytes_inj in H
  | H : be_bytes _ _ = be_bytes _ _ |- _ => apply be_bytes_inj in H; [|assumption..]
  | H : ascii_of_N (consent_provider_tag _) = _ |- _ => apply tag_inj in H; [|by intros [] []|by intros []]
  | H : ascii_of_N (mode_tag _) = _ |- _ => apply tag_inj in H; [|by intros [] []|by intros []]
  | H : ascii_of_N (decision_tag _) = _ |- _ => apply tag_inj in H; [|by intros [] []|by intros []]
  end.

Lemma subject_fields_inj s s' :
  subject_fits s → subject_fits s' → subject_fields s = subject_fields s' → s = s'.
Proof.
  destruct s as [id [m r p md w|ctx dec ans]], s' as [id' [m' r' p' md' w'|ctx' dec' ans']]; intros [Hid Hk] [Hid' Hk'] Heq;
    unfold subject_fields in Heq; cbn [cs_kind cs_client_id] in *.
  - equal_fields. by subst.
  - by apply (f_equal (λ l, l !! 1)) in Heq.
  - by apply (f_equal (λ l, l !! 1)) in Heq.
  - destruct Hk as (_ & Hg & _), Hk' as (_ & Hg' & _). equal_fields.
    destruct ctx, ctx'. cbn in *. by subst.
Qed.

Lemma answers_entries_inj l l' :
  Forall (λ kv : string * list string, (vec_len kv.2 < 256 ^ 8)%N) l → Forall (λ kv, (vec_len kv.2 < 256 ^ 8)%N) l' →
  (l ≫= answer_fields) = (l' ≫= answer_fields) → l = l'.
Proof.
  intros Hl. revert l'. induction Hl as [|[k vs] l Hn Hl IH]; intros [|[k' vs'] l'] Hl' Heq; try done.
  apply Forall_cons in Hl' as [Hn' Hl']. cbn [mbind list_bind answer_fields fst snd app] in *.
  equal_fields. unfold vec_len in *. assert (Hlen : length vs = length vs') by lia.
  match goal with H : _ ++ _ = _ ++ _ |- _ => apply app_inj_1 in H as [Hvs Hrest]; [|by rewrite !length_fmap] end.
  apply list_fmap_eq_inj in Hvs; [|exact str_bytes_inj]. subst. f_equal. by apply IH.
Qed.

(** A subject to respond with answers names the answers. *)
Lemma canonical_answers_digest_inj answers answers' :
  answers_fit answers → answers_fit answers' →
  canonical_answers_digest answers = canonical_answers_digest answers' → answers = answers' ∨ collision.
Proof.
  intros Hf Hf' Heq. rewrite !answers_digest_fields in Heq.
  apply fields_digest_inj in Heq as [Heq|?]; [|by right|by apply answers_fields_fit..]. left.
  apply app_inj_1 in Heq as [_ Heq]; [|done].
  assert (Hlens : ∀ m, answers_fit m → Forall (λ kv : string * list string, (vec_len kv.2 < 256 ^ 8)%N) (btree_entries String.le m)).
  { intros m [_ Hm]. apply Forall_forall. intros [k vs] Hkv. apply elem_of_btree_entries in Hkv. by apply Hm in Hkv as (_ & ? & _). }
  apply answers_entries_inj in Heq; [|by apply Hlens..].
  apply map_eq. intros k. apply option_eq. intros vs. by rewrite <- !(elem_of_btree_entries String.le), Heq.
Qed.

Lemma consent_subject_digest_inj s s' :
  subject_fits s → subject_fits s' → consent_subject_digest s = consent_subject_digest s' → s = s' ∨ collision.
Proof.
  intros Hf Hf' Heq. rewrite !subject_digest_fields in Heq.
  apply fields_digest_inj in Heq as [Heq|?]; [|by right|by apply subject_fields_fit..].
  left. by apply subject_fields_inj.
Qed.

End digests.

(** ** What becomes of grants *)

(** Issuing a grant, which gets the next place, and attempts to use one *)
Module Event.
Inductive Event :=
  | Issued (a : ConsentAuthority) (subject : ConsentSubject) (now : N)
  | Attempted (grant : nat) (a : ConsentAuthority) (expected_subject : ConsentSubject) (now : N)
      (outcome : result ConsentError unit).
End Event.

Section grants.
Context {HSha : Sha256}.

Inductive consent_step : list ConsentGrant → Event.Event → list ConsentGrant → Prop :=
  | issue_step gs a random now subject grant :
      issue a random now subject = Ok grant → consent_step gs (Event.Issued a subject now) (gs ++ [grant])
  | attempt_step gs i a grant grant' expected_subject now outcome :
      gs !! i = Some grant → consume a grant expected_subject now = (grant', outcome) →
      consent_step gs (Event.Attempted i a expected_subject now outcome) (<[i := grant']> gs).

Inductive consent_run : list Event.Event → list ConsentGrant → Prop :=
  | run_start : consent_run [] []
  | run_step events gs e gs' :
      consent_run events gs → consent_step gs e gs' → consent_run (events ++ [e]) gs'.

(** The grants that were issued, in their order *)
Definition issued (events : list Event.Event) : list (ConsentAuthority * ConsentSubject * N) :=
  omap (λ e, match e with Event.Issued a subject now => Some (a, subject, now) | _ => None end) events.

Definition attempts_on (i : nat) (e : Event.Event) : Prop :=
  match e with Event.Attempted j _ _ _ _ => i = j | Event.Issued _ _ _ => False end.

(** A grant is as it was issued, but for its use. *)
Record grant_of (events : list Event.Event) (i : nat) (g : ConsentGrant) : Prop := {
  go_issued : ∃ a subject now,
    issued events !! i = Some (a, subject, now) ∧ cg_server_epoch g = ca_server_epoch a
    ∧ cg_subject_digest g = consent_subject_digest subject ∧ cg_expires_at g = (now + CONSENT_TTL)%N;
  go_used : cg_used g = true ↔ Exists (attempts_on i) events;
}.

Lemma issue_ok a random now subject g :
  issue a random now subject = Ok g →
  cg_server_epoch g = ca_server_epoch a ∧ cg_subject_digest g = consent_subject_digest subject
  ∧ cg_expires_at g = (now + CONSENT_TTL)%N ∧ cg_used g = false.
Proof.
  unfold issue, checked_add. destruct random; [|done]. cbn. destruct (_ <=? _)%N; [|done]. by intros [= <-].
Qed.

Lemma issued_app events es : issued (events ++ es) = issued events ++ issued es.
Proof. apply omap_app. Qed.

Record run_ok (events : list Event.Event) (gs : list ConsentGrant) : Prop := {
  ro_length : length (issued events) = length gs;
  ro_attempts : ∀ i, Exists (attempts_on i) events → i < length gs;
  ro_grants : ∀ i g, gs !! i = Some g → grant_of events i g;
}.

Lemma attempted_snoc i events e : Exists (attempts_on i) (events ++ [e]) ↔ Exists (attempts_on i) events ∨ attempts_on i e.
Proof. rewrite Exists_app, Exists_cons, Exists_nil. tauto. Qed.

Lemma grant_of_past events i g e : grant_of events i g → ¬ attempts_on i e → grant_of (events ++ [e]) i g.
Proof.
  intros [(a & s & n & Hi & ?) Hused] Hno. split.
  - exists a, s, n. rewrite issued_app. split; [|done]. by apply lookup_app_l_Some.
  - rewrite attempted_snoc. tauto.
Qed.

Lemma consume_used a g s now : (consume a g s now).1 = g <| cg_used := true |>.
Proof. unfold consume, consume_with_expiry. destruct g as [? ? ? ? []]; done. Qed.

Lemma grant_of_attempt events i g a s now r :
  grant_of events i g → grant_of (events ++ [Event.Attempted i a s now r]) i (g <| cg_used := true |>).
Proof.
  intros [(a' & s' & n & Hi & ?) _]. split.
  - exists a', s', n. rewrite issued_app. split; [|done]. by apply lookup_app_l_Some.
  - rewrite attempted_snoc. split; [|done]. by right.
Qed.

Lemma run_invariant events gs : consent_run events gs → run_ok events gs.
Proof.
  induction 1 as [|events gs e gs' _ [Hlen Hat Hgs] Hstep].
  { split; [done| |done]. intros i []%Exists_nil. }
  destruct Hstep as [gs a random now subject grant Hissue|gs i a g g' s now r Hi Hc].
  - apply issue_ok in Hissue as (He & Hd & Hx & Hu). split.
    + rewrite issued_app, !length_app, Hlen. done.
    + intros i. rewrite attempted_snoc, length_app. intros [Hi%Hat|[]]. lia.
    + intros i g [Hg|[Hle Hg]]%lookup_app_Some; [by apply grant_of_past; [apply Hgs|intros []]|].
      apply list_lookup_singleton_Some in Hg as [Hi <-]. assert (i = length gs) as -> by lia. split.
      * exists a, subject, now. split; [|done]. rewrite issued_app, <- Hlen. by apply list_lookup_middle.
      * rewrite Hu, attempted_snoc. split; [done|]. intros [Hlt%Hat|[]]. lia.
  - pose proof (consume_used a g s now) as Hused. rewrite Hc in Hused. cbn in Hused. subst g'. split.
    + by rewrite issued_app, length_insert, app_nil_r.
    + intros j. rewrite attempted_snoc, length_insert. intros [Hj|Hj]; [by apply Hat|]. cbn in Hj. subst j.
      by eapply lookup_lt_Some.
    + intros j g'. destruct (decide (i = j)) as [->|Hne].
      * rewrite list_lookup_insert_eq by (by eapply lookup_lt_Some). intros [= <-]. by apply grant_of_attempt, Hgs.
      * rewrite list_lookup_insert_ne by done. intros Hg. apply grant_of_past; [by apply Hgs|]. intros Heq. by destruct Hne.
Qed.

Lemma run_split before e after gs :
  consent_run (before ++ e :: after) gs → ∃ gs1 gs2, consent_run before gs1 ∧ consent_step gs1 e gs2.
Proof.
  revert gs. induction after as [|e' after IH] using rev_ind; intros gs Hrun.
  - inversion Hrun as [Heq|events gs1 e1 gs2 H1 H2 Heq Hgs]; [by destruct before|].
    apply app_inj_tail in Heq as [-> ->]. by exists gs1, gs.
  - inversion Hrun as [Heq|events gs1 e1 gs2 H1 H2 Heq Hgs]; [by destruct before|].
    rewrite app_comm_cons, app_assoc in Heq. apply app_inj_tail in Heq as [-> ->]. by apply IH in H1.
Qed.

(** What the subjects of events take *)
Definition event_fits (e : Event.Event) : Prop :=
  match e with
  | Event.Issued _ subject _ => subject_fits subject
  | Event.Attempted _ _ expected_subject _ _ => subject_fits expected_subject
  end.

Lemma elem_of_issued events a s now i :
  issued events !! i = Some (a, s, now) → Event.Issued a s now ∈ events.
Proof.
  intros Hi%list_elem_of_lookup_2. apply list_elem_of_omap in Hi as ([] & Hin & Heq); by simplify_eq.
Qed.

(** C28: Consent is for one use, one action and thirty seconds: in every order in
    which grants are issued and used, an attempt succeeds exactly when it is the
    first on its grant, is made for the same subject by an authority of the same
    epoch, and less than thirty seconds after it was issued, or SHA-256 has a
    collision.  Two responses have the same subject only when they answer the
    same request with the same answers. *)
Theorem consent_is_for_one_use events gs before i a expected_subject now outcome after :
  consent_run events gs → Forall event_fits events →
  events = before ++ Event.Attempted i a expected_subject now outcome :: after →
  ∃ authority subject issued_at,
    issued before !! i = Some (authority, subject, issued_at)
    ∧ let granted same :=
        ¬ Exists (attempts_on i) before ∧ ca_server_epoch authority = ca_server_epoch a
        ∧ (now < issued_at + CONSENT_TTL)%N ∧ same in
      (granted (subject = expected_subject) → outcome = Ok tt)
      ∧ (outcome = Ok tt → granted (subject = expected_subject ∨ collision))
      ∧ ∀ client client' context context' decision decision' answers answers',
          answers_fit answers → answers_fit answers' →
          subject = respond client context decision answers →
          expected_subject = respond client' context' decision' answers' → outcome = Ok tt →
          (client = client' ∧ context = context' ∧ decision = decision' ∧ answers = answers') ∨ collision.
Proof.
  intros Hrun Hfits ->. apply run_split in Hrun as (gs1 & gs2 & Hrun & Hstep).
  apply run_invariant in Hrun as [_ _ Hgs].
  inversion Hstep as [|? ? ? g g' ? ? ? Hi Hc]; subst. apply Hgs in Hi as [(au & s & t0 & Hs & He & Hd & Hx) Hused].
  apply Forall_app in Hfits as [Hbefore [Hexp _]%Forall_cons]. cbn in Hexp.
  assert (Hfit : subject_fits s).
  { apply elem_of_issued in Hs. rewrite Forall_forall in Hbefore. by apply (Hbefore _ Hs). }
  exists au, s, t0. split; [done|]. cbv zeta. apply (f_equal snd) in Hc. cbn [snd] in Hc.
  unfold consume, consume_with_expiry in Hc. rewrite He, Hd, Hx in Hc.
  assert (Hok : outcome = Ok tt → ¬ Exists (attempts_on i) before ∧ ca_server_epoch au = ca_server_epoch a
            ∧ (now < t0 + CONSENT_TTL)%N ∧ (s = expected_subject ∨ collision)).
  { intros ->. destruct (cg_used g) eqn:Hu; [done|]. cbn [snd] in Hc. rewrite <- Hused.
    destruct (bool_decide (ca_server_epoch au = _)) eqn:H1; [|done]. apply bool_decide_eq_true in H1.
    destruct (_ <=? _)%N eqn:H2; [done|]. apply N.leb_gt in H2.
    destruct (bool_decide (consent_subject_digest s = _)) eqn:H3; [|done]. apply bool_decide_eq_true in H3.
    split_and!; [done..|]. by apply consent_subject_digest_inj. }
  split_and!; [|exact Hok|].
  - intros (Hno & Heq & Hlt & ->). rewrite <- Hused in Hno. destruct (cg_used g); [done|]. cbn [snd] in Hc.
    rewrite bool_decide_true in Hc by done. rewrite (proj2 (N.leb_gt _ _)) in Hc by done. by rewrite bool_decide_true in Hc.
  - intros * Hf Hf' -> -> (_ & _ & _ & [Heq|?])%Hok; [|by right]. injection Heq as -> -> -> Heq.
    apply canonical_answers_digest_inj in Heq as [->|?]; [by left|by right|done..].
Qed.

End grants.

(** ** A grant that is used twice *)

Module ConsentDemo.
#[local] Existing Instance mixing_sha256.

Definition authority : ConsentAuthority := mkConsentAuthority (str_bytes "epoch").
Definition answers : gmap string (list string) := {["scope" := ["workspace"]]}.
Definition subject : ConsentSubject :=
  respond 7 (mkRespondConsentContext "mission-1" "run-1" "attention-1" "request-1" 7) AttentionDecision.Answer answers.

Definition events : list Event.Event :=
  [Event.Issued authority subject 0; Event.Attempted 0 authority subject 5 (Ok tt);
   Event.Attempted 0 authority subject 6 (Err ConsentError.AlreadyUsed)].

Definition fresh_grant : ConsentGrant :=
  mkConsentGrant [] (ca_server_epoch authority) (consent_subject_digest subject) (30 * 10 ^ 9) false.
Definition used_grant : ConsentGrant := fresh_grant <| cg_used := true |>.

Lemma subject_is_fit : subject_fits subject.
Proof.
  split; [done|]. split_and!; [repeat constructor; done|done|]. change (fits_u64 (canonical_answers_digest answers)).
  unfold fits_u64, canonical_answers_digest, subject_digest_finish. by rewrite (mixing_sha256_spec _).
Qed.

Lemma events_run : consent_run events [used_grant].
Proof.
  change (consent_run (([] ++ [Event.Issued authority subject 0]) ++ [Event.Attempted 0 authority subject 5 (Ok tt)]
    ++ [Event.Attempted 0 authority subject 6 (Err ConsentError.AlreadyUsed)]) [used_grant]).
  rewrite app_assoc. apply (run_step _ [used_grant]); [apply (run_step _ [fresh_grant]); [apply (run_step _ []); [apply run_start|]|]|].
  - exact (issue_step [] authority (Some []) 0 subject fresh_grant eq_refl).
  - refine (attempt_step [fresh_grant] 0 authority fresh_grant used_grant subject 5 (Ok tt) eq_refl _).
    unfold consume, consume_with_expiry. by rewrite !bool_decide_true.
  - exact (attempt_step [used_grant] 0 authority used_grant used_grant subject 6 _ eq_refl eq_refl).
Qed.

(** The first attempt succeeds, and the second, though in time, does not. *)
Lemma consent_is_for_one_use_witness :
  ∃ a s t, issued [Event.Issued authority subject 0] !! 0 = Some (a, s, t) ∧ (5 < t + CONSENT_TTL)%N.
Proof.
  destruct (consent_is_for_one_use events [used_grant] [Event.Issued authority subject 0] 0 authority subject 5 (Ok tt)
              [Event.Attempted 0 authority subject 6 (Err ConsentError.AlreadyUsed)])
    as (a & s & t & Hi & _ & Hok & _).
  - exact events_run.
  - repeat (apply Forall_cons_2; [exact subject_is_fit|]). apply Forall_nil_2.
  - reflexivity.
  - exists a, s, t. split; [exact Hi|]. exact (proj1 (proj2 (proj2 (Hok eq_refl)))).
Defined.
End ConsentDemo.
