(* ===== verification/Journal.v ===== *)
(** * The framed journal ([src/mission/journal.rs])

    An append-only file of frames.  A frame is a header with the hash of the
    previous record and of the state, protected by its own hash, a payload and
    the hash of both.  [replay_range] reads the frames back, checks every hash
    and the chain, and cuts a torn final frame when asked to repair.

    A file is its bytes.  Reads do not fail; a failing write is an argument of
    [append] that says how much of the frame reached the file. *)

From S2P Require Export Digest.

(** ** Constants and data *)

Definition FRAME_MAGIC : bytes := str_bytes "MSNJRN03".
Definition FRAME_VERSION : N := 2.
Definition FRAME_PREFIX_LEN : nat := 8 + 2 + 4 + 32 + 32.
Definition FRAME_HEADER_LEN : nat := FRAME_PREFIX_LEN + 32.
Definition RECORD_HASH_LEN : nat := 32.
Definition MAX_PAYLOAD_BYTES : N := 64 * 1024.
Definition MAX_JOURNAL_BYTES : N := 512 * 1024 * 1024.
Definition MAX_JOURNAL_FRAMES : N := 250000.

(** [RecordHash], [StateHash]: 32 bytes *)
Definition RecordHash : Type := bytes.
Definition StateHash : Type := bytes.
Definition RecordHash_ZERO : RecordHash := replicate 32 "000"%char.
Definition StateHash_ZERO : StateHash := replicate 32 "000"%char.

Record VerifiedFrame := mkVerifiedFrame {
  vf_payload : bytes;
  vf_hash : RecordHash;
  vf_previous_hash : RecordHash;
  vf_state_hash : StateHash;
  vf_sequence : N;
  vf_end_offset : N;
}.

Record ReplayCheckpoint := mkReplayCheckpoint {
  rc_sequence : N;
  rc_end_offset : N;
  rc_record_hash : RecordHash;
  rc_state_hash : StateHash;
}.
#[export] Instance ReplayCheckpoint_eq_dec : EqDecision ReplayCheckpoint.
Proof. solve_decision. Defined.

Definition ReplayCheckpoint_ZERO : ReplayCheckpoint :=
  mkReplayCheckpoint 0 0 RecordHash_ZERO StateHash_ZERO.

Record ReplayLimits := mkReplayLimits { rl_max_frames : N; rl_max_bytes : N }.

(** [ReplayLimits::PRODUCTION] *)
Definition ReplayLimits_PRODUCTION : ReplayLimits :=
  mkReplayLimits MAX_JOURNAL_FRAMES MAX_JOURNAL_BYTES.

Record ReplaySummary := mkReplaySummary {
  rs_frame_count : N;
  rs_final_sequence : N;
  rs_bytes_consumed : N;
  rs_last_hash : RecordHash;
}.

Record ScanSummary := mkScanSummary {
  sc_frame_count : N;
  sc_bytes_consumed : N;
  sc_last_hash : RecordHash;
  sc_checkpoints : option ReplayCheckpoint * option ReplayCheckpoint;
}.

Module JournalError.
Inductive JournalError :=
| Io
| InvalidMagic (offset : N)
| UnsupportedFrameVersion (version : N)
| PayloadTooLarge (length : N)
| HeaderHashMismatch (offset : N)
| RecordHashMismatch (offset : N)
| PartialTail (offset : N)
| JournalTooLarge (bytes limit : N)
| FrameLimitExceeded (limit : N)
| BrokenRecordChain (sequence : N)
| InvalidReplayOffset (offset : N).
#[export] Instance eq_dec : EqDecision JournalError.
Proof. solve_decision. Defined.
End JournalError.
Export (hints) JournalError.
Abbreviation JournalError := JournalError.JournalError.

Module ReplayError.
Inductive ReplayError (E : Type) :=
| Journal (e : JournalError)
| Visitor (e : E).
Arguments Journal {E} e.
Arguments Visitor {E} e.
End ReplayError.
Abbreviation ReplayError := ReplayError.ReplayError.

Module ReplayMode.
Inductive ReplayMode := Inspect | RepairFinalPartial.
#[export] Instance eq_dec : EqDecision ReplayMode.
Proof. solve_decision. Defined.
End ReplayMode.
Export (hints) ReplayMode.
Abbreviation ReplayMode := ReplayMode.ReplayMode.

(** ** Operations *)

Definition byte_len (b : bytes) : N := N.of_nat (length b).

(** [FramedJournal::current_len] *)
Definition current_len (file : bytes) : N := byte_len file.

(** [&b[i..j]] *)
Definition slice (i j : nat) (b : bytes) : bytes := take (j - i) (drop i b).

(** [handle_partial_tail], [repair_partial_tail]: cut the file at the start of
    the torn frame, or refuse. *)
Definition handle_partial_tail (mode : ReplayMode) (file : bytes) (frame_start : N) :
    result JournalError bytes :=
  match mode with
  | ReplayMode.Inspect => Err (JournalError.PartialTail frame_start)
  | ReplayMode.RepairFinalPartial => Ok (take (N.to_nat frame_start) file)
  end.

(** What one turn of the replay loop finds *)
Module FrameRead.
Inductive FrameRead :=
| Eof
| PartialFrame
| Bad (e : JournalError)
| Frame (frame : VerifiedFrame) (rest : bytes).
End FrameRead.
Abbreviation FrameRead := FrameRead.FrameRead.

Section journal.
Context {HSha : Sha256}.

(** [hash_header] *)
Definition hash_header (header_prefix : bytes) : RecordHash :=
  sha256 (nul_terminated "mission-journal-header-v1" ++ header_prefix).

(** [hash_record] *)
Definition hash_record (header payload : bytes) : RecordHash :=
  sha256 (nul_terminated "mission-journal-record-v1" ++ header ++ payload).

(** The header [append] writes *)
Definition frame_header (payload : bytes) (previous_hash : RecordHash) (state_hash : StateHash) :
    bytes :=
  let prefix := FRAME_MAGIC ++ be_bytes 2 FRAME_VERSION ++ be_bytes 4 (byte_len payload)
                ++ previous_hash ++ state_hash in
  prefix ++ hash_header prefix.

(** The bytes [append] writes *)
Definition frame_bytes (payload : bytes) (previous_hash : RecordHash) (state_hash : StateHash) :
    bytes :=
  let header := frame_header payload previous_hash state_hash in
  header ++ payload ++ hash_record header payload.

(** [FramedJournal::append].  [fault] is [Some n] when a write or the final
    sync fails after [n] bytes of the frame reached the file. *)
Definition append (file payload : bytes) (previous_hash : RecordHash) (state_hash : StateHash)
    (fault : option nat) : bytes * result JournalError RecordHash :=
  if (MAX_PAYLOAD_BYTES <? byte_len payload)%N then
    (file, Err (JournalError.PayloadTooLarge (byte_len payload)))
  else
    match length ← checked_add u64_max (byte_len file) (N.of_nat FRAME_HEADER_LEN);
          length ← checked_add u64_max length (byte_len payload);
          checked_add u64_max length (N.of_nat RECORD_HASH_LEN) with
    | None => (file, Err (JournalError.JournalTooLarge u64_max MAX_JOURNAL_BYTES))
    | Some next_length =>
        if (MAX_JOURNAL_BYTES <? next_length)%N then
          (file, Err (JournalError.JournalTooLarge next_length MAX_JOURNAL_BYTES))
        else
          let header := frame_header payload previous_hash state_hash in
          match fault with
          | Some written =>
              (file ++ take written (frame_bytes payload previous_hash state_hash),
               Err JournalError.Io)
          | None => (file ++ frame_bytes payload previous_hash state_hash,
                     Ok (hash_record header payload))
          end
    end.

(** The second half of a turn of the loop of [replay_range]: the payload, the
    record hash and the chain, once the header is accepted.  [rest] is what the
    file holds after the header. *)
Definition read_record (limits : ReplayLimits) (frame_start frame_count sequence : N)
    (last_hash : RecordHash) (header : bytes) (payload_length : N) (previous_hash : RecordHash)
    (state_hash : StateHash) (rest : bytes) : FrameRead :=
  let payload := take (N.to_nat payload_length) rest in
  if (byte_len payload <? payload_length)%N then FrameRead.PartialFrame
  else
    let rest := drop (N.to_nat payload_length) rest in
    let stored_hash := take RECORD_HASH_LEN rest in
    if (length stored_hash <? RECORD_HASH_LEN)%nat then FrameRead.PartialFrame
    else
      let rest := drop RECORD_HASH_LEN rest in
      let expected_record_hash := hash_record header payload in
      if negb (bool_decide (stored_hash = expected_record_hash)) then
        FrameRead.Bad (JournalError.RecordHashMismatch frame_start)
      else
        match checked_add u64_max frame_count 1, checked_add u64_max sequence 1 with
        | Some _, Some sequence =>
            if (rl_max_frames limits <? sequence)%N then
              FrameRead.Bad (JournalError.FrameLimitExceeded (rl_max_frames limits))
            else if negb (bool_decide (previous_hash = last_hash)) then
              FrameRead.Bad (JournalError.BrokenRecordChain sequence)
            else
              FrameRead.Frame
                {| vf_payload := payload;
                   vf_hash := expected_record_hash;
                   vf_previous_hash := previous_hash;
                   vf_state_hash := state_hash;
                   vf_sequence := sequence;
                   vf_end_offset := frame_start
                     + N.of_nat (FRAME_HEADER_LEN + N.to_nat payload_length + RECORD_HASH_LEN) |}
                rest
        | _, _ => FrameRead.Bad (JournalError.FrameLimitExceeded (rl_max_frames limits))
        end.

(** One turn of the loop of [replay_range]: [rest] is what the file holds from
    [frame_start] on. *)
Definition read_frame (limits : ReplayLimits) (frame_start frame_count sequence : N)
    (last_hash : RecordHash) (rest : bytes) : FrameRead :=
  let header := take FRAME_HEADER_LEN rest in
  let header_bytes := length header in
  if (header_bytes =? 0)%nat then FrameRead.Eof
  else if (header_bytes <? FRAME_HEADER_LEN)%nat then
    let start := take (min header_bytes (length FRAME_MAGIC)) header in
    if negb (bool_decide (take (length start) FRAME_MAGIC = start))
    then FrameRead.Bad (JournalError.InvalidMagic frame_start)
    else FrameRead.PartialFrame
  else if negb (bool_decide (take 8 header = FRAME_MAGIC)) then
    FrameRead.Bad (JournalError.InvalidMagic frame_start)
  else
    let version := be_value (slice 8 10 header) in
    if negb (version =? FRAME_VERSION)%N then
      FrameRead.Bad (JournalError.UnsupportedFrameVersion version)
    else
      let payload_length := be_value (slice 10 14 header) in
      if (MAX_PAYLOAD_BYTES <? payload_length)%N then
        FrameRead.Bad (JournalError.PayloadTooLarge payload_length)
      else
        let previous_hash := slice 14 46 header in
        let state_hash := slice 46 78 header in
        let expected_header_hash := hash_header (take FRAME_PREFIX_LEN header) in
        if negb (bool_decide (slice FRAME_PREFIX_LEN FRAME_HEADER_LEN header
                              = expected_header_hash))
        then FrameRead.Bad (JournalError.HeaderHashMismatch frame_start)
        else read_record limits frame_start frame_count sequence last_hash header payload_length
               previous_hash state_hash (drop FRAME_HEADER_LEN rest).

(** The loop of [replay_range], with the state [v] the visitor captures.  It
    returns the file, the number of frames, the last sequence and hash, and
    the visitor's state; [None] is fuel that ran out. *)
Fixpoint replay_loop {E V} (fuel : nat) (mode : ReplayMode) (limits : ReplayLimits)
    (visitor : V → VerifiedFrame → result E V) (file : bytes) (pos : N) (rest : bytes)
    (frame_count sequence : N) (last_hash : RecordHash) (v : V) :
    option (bytes * result (ReplayError E) (N * N * RecordHash * V)) :=
  match fuel with
  | O => None
  | S fuel =>
      match read_frame limits pos frame_count sequence last_hash rest with
      | FrameRead.Eof => Some (file, Ok (frame_count, sequence, last_hash, v))
      | FrameRead.PartialFrame =>
          match handle_partial_tail mode file pos with
          | Ok file => Some (file, Ok (frame_count, sequence, last_hash, v))
          | Err e => Some (file, Err (ReplayError.Journal e))
          end
      | FrameRead.Bad e => Some (file, Err (ReplayError.Journal e))
      | FrameRead.Frame frame rest =>
          match visitor v frame with
          | Err e => Some (file, Err (ReplayError.Visitor e))
          | Ok v => replay_loop fuel mode limits visitor file (vf_end_offset frame) rest
                      (frame_count + 1) (vf_sequence frame) (vf_hash frame) v
          end
      end
  end.

(** [FramedJournal::replay_range] *)
Definition replay_range {E V} (mode : ReplayMode) (limits : ReplayLimits)
    (start : ReplayCheckpoint) (visitor : V → VerifiedFrame → result E V) (v : V) (file : bytes) :
    bytes * result (ReplayError E) (ReplaySummary * V) :=
  let journal_bytes := byte_len file in
  if (rl_max_bytes limits <? journal_bytes)%N then
    (file, Err (ReplayError.Journal
                  (JournalError.JournalTooLarge journal_bytes (rl_max_bytes limits))))
  else if (journal_bytes <? rc_end_offset start)%N then
    (file, Err (ReplayError.Journal (JournalError.InvalidReplayOffset (rc_end_offset start))))
  else
    let rest := drop (N.to_nat (rc_end_offset start)) file in
    match replay_loop (S (length rest)) mode limits visitor file (rc_end_offset start) rest 0
            (rc_sequence start) (rc_record_hash start) v with
    | Some (file, Ok (frame_count, sequence, last_hash, v)) =>
        (file, Ok ({| rs_frame_count := frame_count;
                      rs_final_sequence := sequence;
                      rs_bytes_consumed := byte_len file;
                      rs_last_hash := last_hash |}, v))
    | Some (file, Err e) => (file, Err e)
    | None => (file, Err (ReplayError.Journal JournalError.Io))
    end.

(** [FramedJournal::replay_with], [replay_with_limits] *)
Definition replay_with {E V} (mode : ReplayMode) (visitor : V → VerifiedFrame → result E V) (v : V)
    (file : bytes) : bytes * result (ReplayError E) (ReplaySummary * V) :=
  replay_range mode ReplayLimits_PRODUCTION ReplayCheckpoint_ZERO visitor v file.

(** [FramedJournal::replay_from] *)
Definition replay_from {E V} (checkpoint : ReplayCheckpoint)
    (visitor : V → VerifiedFrame → result E V) (v : V) (file : bytes) :
    bytes * result (ReplayError E) (ReplaySummary * V) :=
  replay_range ReplayMode.Inspect ReplayLimits_PRODUCTION checkpoint visitor v file.

(** The visitor of [FramedJournal::scan] *)
Definition scan_visitor (targets : option N * option N)
    (checkpoints : option ReplayCheckpoint * option ReplayCheckpoint) (frame : VerifiedFrame) :
    result Empty_set (option ReplayCheckpoint * option ReplayCheckpoint) :=
  let checkpoint := mkReplayCheckpoint (vf_sequence frame) (vf_end_offset frame) (vf_hash frame)
                      (vf_state_hash frame) in
  let update (target : option N) (old : option ReplayCheckpoint) :=
    if bool_decide (target = Some (vf_sequence frame)) then Some checkpoint else old in
  Ok (update targets.1 checkpoints.1, update targets.2 checkpoints.2).

(** [FramedJournal::scan] *)
Definition scan (mode : ReplayMode) (targets : option N * option N) (file : bytes) :
    bytes * result JournalError ScanSummary :=
  let init (target : option N) :=
    if bool_decide (target = Some 0%N) then Some ReplayCheckpoint_ZERO else None in
  match replay_range mode ReplayLimits_PRODUCTION ReplayCheckpoint_ZERO (scan_visitor targets)
          (init targets.1, init targets.2) file with
  | (file, Ok (summary, checkpoints)) =>
      (file, Ok {| sc_frame_count := rs_final_sequence summary;
                   sc_bytes_consumed := rs_bytes_consumed summary;
                   sc_last_hash := rs_last_hash summary;
                   sc_checkpoints := checkpoints |})
  | (file, Err (ReplayError.Journal e)) => (file, Err e)
  | (file, Err (ReplayError.Visitor never)) => match never with end
  end.
End journal.

(** ** Frames, written and read *)

Lemma be_value_lt b : (be_value b < 256 ^ N.of_nat (length b))%N.
Proof.
  induction b as [|c b IH]; [done|]. rewrite be_value_cons. cbn [length].
  rewrite Nat2N.inj_succ, N.pow_succ_r'. pose proof (N_ascii_bounded c).
  nia.
Qed.

Lemma be_bytes_mod w n k :
  be_bytes w (k * 256 ^ N.of_nat w + n) = be_bytes w n.
Proof.
  revert k. induction w as [|w IH]; intros k; [done|]. cbn [be_bytes].
  rewrite Nat2N.inj_succ, N.pow_succ_r'.
  replace (k * (256 * 256 ^ N.of_nat w) + n)%N with (k * 256 * 256 ^ N.of_nat w + n)%N by lia.
  f_equal; [|apply IH]. f_equal.
  rewrite N.div_add_l by (apply N.pow_nonzero; done).
  by rewrite N.add_comm, N.Div0.mod_add.
Qed.

Lemma be_bytes_be_value b : be_bytes (length b) (be_value b) = b.
Proof.
  induction b as [|c b IH]; [done|]. cbn [length be_bytes]. rewrite be_value_cons, be_bytes_mod.
  pose proof (be_value_lt b) as Hlt. pose proof (N_ascii_bounded c).
  assert (Hp : (256 ^ N.of_nat (length b) ≠ 0)%N) by (apply N.pow_nonzero; done).
  rewrite N.div_add_l, N.div_small, N.add_0_r, N.mod_small by done. rewrite ascii_N_embedding.
  by f_equal.
Qed.

Lemma be_bytes_value_at w b : length b = w → be_bytes w (be_value b) = b.
Proof. intros <-. apply be_bytes_be_value. Qed.

Lemma slice_app i j k b : i ≤ j → j ≤ k → slice i k b = slice i j b ++ slice j k b.
Proof.
  intros Hij Hjk. unfold slice. replace (k - i) with ((j - i) + (k - j)) by lia.
  rewrite <- take_take_drop, drop_drop. by replace (i + (j - i)) with j by lia.
Qed.

Lemma length_slice i j b : i ≤ j → j ≤ length b → length (slice i j b) = j - i.
Proof. intros. unfold slice. rewrite length_take, length_drop. lia. Qed.

Lemma slice_0 j b : slice 0 j b = take j b.
Proof. unfold slice. by rewrite drop_0, Nat.sub_0_r. Qed.

(** [i..j] of a concatenation whose first part is [i] long *)
Lemma slice_skip i j a b : length a = i → i ≤ j → slice i j (a ++ b) = take (j - i) b.
Proof. intros <- Hj. unfold slice. by rewrite drop_app_length. Qed.

Section frames.
Context {HSha : Sha256}.

Definition frame_len (payload : bytes) : nat :=
  FRAME_HEADER_LEN + length payload + RECORD_HASH_LEN.

(** The bytes of the frame a [VerifiedFrame] was read from *)
Definition bytes_of (fr : VerifiedFrame) : bytes :=
  frame_bytes (vf_payload fr) (vf_previous_hash fr) (vf_state_hash fr).

(** A frame as [read_frame] returns it, after [last_hash], with [sequence]
    frames and [pos] bytes before it *)
Definition frame_ok (limits : ReplayLimits) (pos frame_count sequence : N) (last_hash : RecordHash)
    (fr : VerifiedFrame) : Prop :=
  vf_previous_hash fr = last_hash ∧ length (vf_previous_hash fr) = 32
  ∧ length (vf_state_hash fr) = 32 ∧ (byte_len (vf_payload fr) ≤ MAX_PAYLOAD_BYTES)%N
  ∧ vf_hash fr = hash_record (frame_header (vf_payload fr) (vf_previous_hash fr) (vf_state_hash fr))
                   (vf_payload fr)
  ∧ length (vf_hash fr) = 32
  ∧ vf_sequence fr = (sequence + 1)%N ∧ (sequence + 1 ≤ rl_max_frames limits)%N
  ∧ (sequence + 1 ≤ u64_max)%N ∧ (frame_count + 1 ≤ u64_max)%N
  ∧ vf_end_offset fr = (pos + N.of_nat (frame_len (vf_payload fr)))%N.

Lemma read_frame_inv limits pos cnt seq lh rest fr rest' :
  read_frame limits pos cnt seq lh rest = FrameRead.Frame fr rest' →
  rest = bytes_of fr ++ rest' ∧ frame_ok limits pos cnt seq lh fr.
Proof.
  unfold read_frame, read_record. cbv zeta. set (header := take FRAME_HEADER_LEN rest).
  destruct (Nat.eqb_spec (length header) 0); [done|].
  destruct (Nat.ltb_spec (length header) FRAME_HEADER_LEN) as [|Hlen]; [by case_match|].
  assert (Hh : length header = FRAME_HEADER_LEN).
  { subst header. rewrite length_take in *. lia. }
  destruct (bool_decide_reflect (take 8 header = FRAME_MAGIC)) as [Hmagic|]; [cbn [negb]|done].
  destruct (N.eqb_spec (be_value (slice 8 10 header)) FRAME_VERSION) as [Hver|]; [cbn [negb]|done].
  set (plen := be_value (slice 10 14 header)).
  destruct (N.ltb_spec MAX_PAYLOAD_BYTES plen) as [|Hplen]; [done|].
  destruct (bool_decide_reflect (slice FRAME_PREFIX_LEN FRAME_HEADER_LEN header
    = hash_header (take FRAME_PREFIX_LEN header))) as [Hhh|]; [cbn [negb]|done].
  set (payload := take (N.to_nat plen) (drop FRAME_HEADER_LEN rest)).
  destruct (N.ltb_spec (byte_len payload) plen) as [|Hpl]; [done|].
  set (rest2 := drop (N.to_nat plen) (drop FRAME_HEADER_LEN rest)).
  destruct (Nat.ltb_spec (length (take RECORD_HASH_LEN rest2)) RECORD_HASH_LEN) as [|Hsl]; [done|].
  destruct (bool_decide_reflect (take RECORD_HASH_LEN rest2 = hash_record header payload))
    as [Hrec|]; [cbn [negb]|done].
  destruct (checked_add u64_max cnt 1) as [cnt'|] eqn:Hcnt; [|done].
  destruct (checked_add u64_max seq 1) as [seq'|] eqn:Hseq; [|done].
  destruct (N.ltb_spec (rl_max_frames limits) seq') as [|Hmax]; [done|].
  destruct (bool_decide (_ = lh)) eqn:Hprev; [cbn [negb]; apply bool_decide_eq_true in Hprev|done].
  intros [= <- <-]. apply checked_add_some in Hcnt as [-> Hcnt], Hseq as [-> Hseq].
  assert (Hplen' : byte_len payload = plen).
  { subst payload. unfold byte_len in *. rewrite length_take in *. lia. }
  assert (Hheader : header = frame_header payload (slice 14 46 header) (slice 46 78 header)).
  { unfold frame_header. rewrite Hplen'. subst plen.
    assert (Hpre : take FRAME_PREFIX_LEN header = FRAME_MAGIC ++ be_bytes 2 FRAME_VERSION
      ++ be_bytes 4 (be_value (slice 10 14 header)) ++ slice 14 46 header ++ slice 46 78 header).
    { rewrite <- Hmagic, <- Hver, <- !slice_0.
      rewrite (be_bytes_value_at 2), (be_bytes_value_at 4)
        by (rewrite length_slice; [done|lia|rewrite Hh; unfold FRAME_HEADER_LEN, FRAME_PREFIX_LEN; lia]).
      rewrite <- !slice_app by lia. done. }
    rewrite <- Hpre. rewrite <- Hhh, <- (take_drop FRAME_PREFIX_LEN header) at 1. f_equal.
    unfold slice. rewrite take_ge; [done|]. rewrite length_drop, Hh. lia. }
  split.
  - unfold bytes_of, frame_bytes. cbn [vf_payload vf_previous_hash vf_state_hash].
    rewrite <- Hheader, <- Hrec, <- !app_assoc. subst rest2 payload header.
    by rewrite !take_drop.
  - unfold frame_ok. cbn [vf_payload vf_previous_hash vf_state_hash vf_hash vf_sequence vf_end_offset].
    rewrite <- Hheader, Hplen'. split_and!; try done.
    + rewrite length_slice; [done|lia|rewrite Hh; unfold FRAME_HEADER_LEN, FRAME_PREFIX_LEN; lia].
    + rewrite length_slice; [done|lia|rewrite Hh; unfold FRAME_HEADER_LEN, FRAME_PREFIX_LEN; lia].
    + rewrite <- Hrec. rewrite length_take in *. unfold RECORD_HASH_LEN in *. lia.
    + unfold frame_len, FRAME_HEADER_LEN, FRAME_PREFIX_LEN, RECORD_HASH_LEN. unfold byte_len in Hplen'.
      lia.
Qed.

(** The fields of a header, where [read_frame] looks for them *)
Lemma header_parts `{!Sha256Spec} payload prev state :
  length prev = 32 → length state = 32 →
  let header := frame_header payload prev state in
  length header = FRAME_HEADER_LEN ∧ take 8 header = FRAME_MAGIC
  ∧ slice 8 10 header = be_bytes 2 FRAME_VERSION ∧ slice 10 14 header = be_bytes 4 (byte_len payload)
  ∧ slice 14 46 header = prev ∧ slice 46 78 header = state
  ∧ slice FRAME_PREFIX_LEN FRAME_HEADER_LEN header = hash_header (take FRAME_PREFIX_LEN header).
Proof.
  intros Hp Hs header. subst header. unfold frame_header. cbv zeta.
  set (prefix := FRAME_MAGIC ++ _).
  assert (Hprefix : length prefix = FRAME_PREFIX_LEN).
  { subst prefix. rewrite !length_app, !length_be_bytes, Hp, Hs. done. }
  assert (Htake : take FRAME_PREFIX_LEN (prefix ++ hash_header prefix) = prefix)
    by by rewrite <- Hprefix, take_app_length.
  assert (Hhash : length (hash_header prefix) = 32) by apply sha256_length.
  assert (Hsl : ∀ i j, i ≤ j → j ≤ FRAME_PREFIX_LEN →
    slice i j (prefix ++ hash_header prefix) = slice i j prefix).
  { intros i j Hij Hj. unfold slice. rewrite drop_app_le by lia.
    apply take_app_le. rewrite length_drop. lia. }
  assert (Hlast : slice FRAME_PREFIX_LEN FRAME_HEADER_LEN (prefix ++ hash_header prefix)
    = hash_header prefix).
  { unfold slice. rewrite drop_app_length' by done. apply take_ge. rewrite Hhash. done. }
  rewrite Htake, Hlast, length_app, Hprefix, Hhash.
  rewrite !Hsl by (unfold FRAME_PREFIX_LEN; lia).
  split; [done|]. split.
  { rewrite take_app_le by (rewrite Hprefix; unfold FRAME_PREFIX_LEN; lia). done. }
  clear Hsl Hlast Htake Hprefix Hhash. subst prefix. unfold slice. split_and!; [| | | |done].
  - by rewrite (drop_app_length' FRAME_MAGIC), take_app_length'.
  - rewrite (app_assoc FRAME_MAGIC).
    by rewrite (drop_app_length' (FRAME_MAGIC ++ _)), take_app_length'.
  - rewrite (app_assoc FRAME_MAGIC), (app_assoc (FRAME_MAGIC ++ _)).
    by rewrite (drop_app_length' ((FRAME_MAGIC ++ _) ++ _)), take_app_length'.
  - rewrite !app_assoc, drop_app_length'.
    + by rewrite take_ge by lia.
    + rewrite !length_app, !length_be_bytes, Hp. done.
Qed.

(** Once the header is there, [read_frame] reads the record. *)
Lemma read_frame_header `{!Sha256Spec} limits pos cnt seq lh payload prev state tail :
  length prev = 32 → length state = 32 → (byte_len payload ≤ MAX_PAYLOAD_BYTES)%N →
  let header := frame_header payload prev state in
  read_frame limits pos cnt seq lh (header ++ tail)
  = read_record limits pos cnt seq lh header (byte_len payload) prev state tail.
Proof.
  intros Hp Hs Hmax header.
  destruct (header_parts payload prev state Hp Hs) as (Hlen & Hmagic & Hver & Hpl & Hprev & Hst & Hh).
  fold header in Hlen, Hmagic, Hver, Hpl, Hprev, Hst, Hh.
  unfold read_frame. rewrite !take_app_length', !drop_app_length' by done. cbv zeta.
  rewrite Hlen, Hmagic, Hver, Hpl, Hprev, Hst, Hh, !bool_decide_eq_true_2 by done.
  rewrite !be_bytes_roundtrip.
  - rewrite (proj2 (N.ltb_ge _ _)) by done. done.
  - unfold MAX_PAYLOAD_BYTES in Hmax. cbn. lia.
  - done.
Qed.

Lemma read_frame_complete `{!Sha256Spec} limits pos cnt seq lh fr rest :
  frame_ok limits pos cnt seq lh fr →
  read_frame limits pos cnt seq lh (bytes_of fr ++ rest) = FrameRead.Frame fr rest.
Proof.
  intros (Hprev & Hp & Hs & Hmax & Hhash & Hhl & Hseq & Hfr & Hs64 & Hc64 & Hend).
  destruct fr as [payload hash prev state sq end_]. unfold bytes_of, frame_bytes. cbv zeta.
  cbn [vf_payload vf_hash vf_previous_hash vf_state_hash vf_sequence vf_end_offset] in *.
  rewrite <- !app_assoc. rewrite read_frame_header by done. unfold read_record.
  unfold byte_len. rewrite Nat2N.id, take_app_length, drop_app_length. cbv zeta.
  rewrite N.ltb_irrefl, <- Hhash.
  rewrite take_app_length', drop_app_length' by done.
  rewrite (proj2 (Nat.ltb_ge _ _)) by (rewrite Hhl; unfold RECORD_HASH_LEN; lia).
  rewrite !bool_decide_eq_true_2 by done. cbn [negb].
  rewrite (proj2 (checked_add_some _ _ _ _)) by (split; [reflexivity|done]).
  rewrite (proj2 (checked_add_some _ _ _ _)) by (split; [reflexivity|done]).
  rewrite (proj2 (N.ltb_ge _ _)) by done.
  unfold frame_len in Hend. by rewrite Hseq, Hend.
Qed.

(** A frame that was cut before its last byte is a partial frame. *)
Lemma read_frame_torn `{!Sha256Spec} limits pos cnt seq lh payload prev state torn missing :
  length prev = 32 → length state = 32 → (byte_len payload ≤ MAX_PAYLOAD_BYTES)%N →
  frame_bytes payload prev state = torn ++ missing → torn ≠ [] → missing ≠ [] →
  read_frame limits pos cnt seq lh torn = FrameRead.PartialFrame.
Proof.
  intros Hp Hs Hmax Hsplit Htorn Hmissing. unfold frame_bytes in Hsplit. cbv zeta in Hsplit.
  pose proof (header_parts payload prev state Hp Hs) as (Hlen & Hmagic & _).
  set (header := frame_header payload prev state) in *.
  destruct (Nat.lt_ge_cases (length torn) FRAME_HEADER_LEN) as [Hshort|Hlong].
  - unfold read_frame. rewrite take_ge by lia. cbv zeta.
    destruct (Nat.eqb_spec (length torn) 0) as [Hz|_]; [by apply nil_length_inv in Hz|].
    rewrite (proj2 (Nat.ltb_lt _ _)) by done.
    rewrite bool_decide_eq_true_2; [done|].
    assert (Htake : take (length torn) header = torn).
    { apply (f_equal (take (length torn))) in Hsplit. rewrite take_app_length in Hsplit.
      by rewrite take_app_le in Hsplit by lia. }
    rewrite length_take, <- Hmagic, take_take.
    transitivity (take (length FRAME_MAGIC `min` length torn) header).
    + f_equal. change (length FRAME_MAGIC) with 8. rewrite Hmagic. change (length FRAME_MAGIC) with 8.
      lia.
    + rewrite <- take_take, Htake, Hmagic, <- take_take.
      rewrite (take_ge (take _ torn)); [done|]. rewrite length_take. lia.
  - assert (Hbody : ∃ body, torn = header ++ body
      ∧ body ++ missing = payload ++ hash_record header payload).
    { exists (drop FRAME_HEADER_LEN torn).
      assert (Hh : take FRAME_HEADER_LEN torn = header).
      { apply (f_equal (take FRAME_HEADER_LEN)) in Hsplit.
        rewrite take_app_length' in Hsplit by done. by rewrite take_app_le in Hsplit. }
      split; [by rewrite <- Hh at 1; rewrite take_drop|].
      apply (f_equal (drop FRAME_HEADER_LEN)) in Hsplit.
      rewrite drop_app_length' in Hsplit by done. by rewrite drop_app_le in Hsplit. }
    destruct Hbody as (body & -> & Hbody). subst header. rewrite read_frame_header by done.
    unfold read_record. cbv zeta. destruct (N.ltb_spec (byte_len (take (N.to_nat (byte_len payload)) body))
      (byte_len payload)) as [|Hpl]; [done|].
    unfold byte_len in Hpl |- *. rewrite Nat2N.id in *. rewrite length_take in Hpl.
    rewrite (proj2 (Nat.ltb_lt _ _)); [done|].
    apply (f_equal length) in Hbody. rewrite !length_app in Hbody.
    unfold hash_record in Hbody. rewrite sha256_length in Hbody.
    destruct missing; [done|]. cbn [length] in Hbody.
    rewrite length_take, length_drop. unfold RECORD_HASH_LEN. lia.
Qed.
End frames.

(** ** What replay reads *)

Section replay.
Context {HSha : Sha256}.

(** Frames that follow each other from a position on *)
Fixpoint chain_ok (limits : ReplayLimits) (pos cnt seq : N) (lh : RecordHash)
    (frs : list VerifiedFrame) : Prop :=
  match frs with
  | [] => True
  | fr :: frs =>
      frame_ok limits pos cnt seq lh fr
      ∧ chain_ok limits (vf_end_offset fr) (cnt + 1) (vf_sequence fr) (vf_hash fr) frs
  end.

Definition chain_bytes (frs : list VerifiedFrame) : bytes := frs ≫= bytes_of.

Lemma chain_bytes_cons fr frs : chain_bytes (fr :: frs) = bytes_of fr ++ chain_bytes frs.
Proof. reflexivity. Qed.

Lemma chain_bytes_app frs frs' : chain_bytes (frs ++ frs') = chain_bytes frs ++ chain_bytes frs'.
Proof. apply bind_app. Qed.

(** The position, sequence and hash after the frames *)
Definition chain_pos (pos : N) (frs : list VerifiedFrame) : N :=
  match last frs with Some fr => vf_end_offset fr | None => pos end.
Definition chain_seq (seq : N) (frs : list VerifiedFrame) : N :=
  match last frs with Some fr => vf_sequence fr | None => seq end.
Definition chain_hash (lh : RecordHash) (frs : list VerifiedFrame) : RecordHash :=
  match last frs with Some fr => vf_hash fr | None => lh end.

Lemma last_cons_default {A B} (f : A → B) (b : B) x xs :
  match last (x :: xs) with Some y => f y | None => b end
  = match last xs with Some y => f y | None => f x end.
Proof. rewrite last_cons. by destruct (last xs). Qed.

Lemma chain_ok_app limits pos cnt seq lh frs frs' :
  chain_ok limits pos cnt seq lh (frs ++ frs') ↔
  chain_ok limits pos cnt seq lh frs
  ∧ chain_ok limits (chain_pos pos frs) (cnt + vec_len frs) (chain_seq seq frs)
      (chain_hash lh frs) frs'.
Proof.
  revert pos cnt seq lh. induction frs as [|fr frs IH]; intros pos cnt seq lh.
  { cbn. unfold vec_len. cbn. rewrite N.add_0_r. tauto. }
  cbn [app chain_ok]. rewrite IH. unfold chain_pos, chain_seq, chain_hash.
  rewrite !last_cons_default. unfold vec_len. cbn [length]. rewrite Nat2N.inj_succ.
  replace (cnt + N.succ (N.of_nat (length frs)))%N with (cnt + 1 + N.of_nat (length frs))%N by lia.
  tauto.
Qed.

Lemma chain_seq_spec limits pos cnt seq lh frs :
  chain_ok limits pos cnt seq lh frs → chain_seq seq frs = (seq + vec_len frs)%N.
Proof.
  revert pos cnt seq lh. induction frs as [|fr frs IH]; intros pos cnt seq lh.
  { unfold vec_len. cbn. by rewrite N.add_0_r. }
  intros [Hfr Hfrs]. unfold chain_seq in *. rewrite last_cons_default.
  rewrite (IH _ _ _ _ Hfrs). destruct Hfr as (_ & _ & _ & _ & _ & _ & -> & _).
  unfold vec_len. cbn [length]. lia.
Qed.

Lemma length_bytes_of limits pos cnt seq lh fr :
  frame_ok limits pos cnt seq lh fr → Sha256Spec → length (bytes_of fr) = frame_len (vf_payload fr).
Proof.
  intros (_ & Hp & Hs & _) Hspec. unfold bytes_of, frame_bytes, frame_len. cbv zeta.
  destruct (header_parts (vf_payload fr) _ _ Hp Hs) as (Hlen & _).
  rewrite !length_app, Hlen. unfold hash_record. rewrite sha256_length. unfold RECORD_HASH_LEN. lia.
Qed.

Lemma chain_pos_spec `{!Sha256Spec} limits pos cnt seq lh frs :
  chain_ok limits pos cnt seq lh frs → chain_pos pos frs = (pos + byte_len (chain_bytes frs))%N.
Proof.
  revert pos cnt seq lh. induction frs as [|fr frs IH]; intros pos cnt seq lh.
  { cbn. by rewrite N.add_0_r. }
  intros [Hfr Hfrs]. unfold chain_pos in *. rewrite last_cons_default.
  rewrite (IH _ _ _ _ Hfrs). unfold byte_len. cbn [chain_bytes mbind list_bind].
  fold (chain_bytes frs). rewrite length_app, (length_bytes_of _ _ _ _ _ _ Hfr) by done.
  destruct Hfr as (_ & _ & _ & _ & _ & _ & _ & _ & _ & _ & ->). unfold chain_bytes. lia.
Qed.

(** What replay returns when it stops after the frames [frs] *)
Definition replay_stop {E V} (mode : ReplayMode) (file : bytes) (pos cnt seq : N) (lh : RecordHash)
    (v : V) (r : FrameRead) : bytes * result (ReplayError E) (N * N * RecordHash * V) :=
  match r with
  | FrameRead.Eof => (file, Ok (cnt, seq, lh, v))
  | FrameRead.PartialFrame =>
      match handle_partial_tail mode file pos with
      | Ok file => (file, Ok (cnt, seq, lh, v))
      | Err e => (file, Err (ReplayError.Journal e))
      end
  | FrameRead.Bad e => (file, Err (ReplayError.Journal e))
  | FrameRead.Frame _ _ => (file, Err (ReplayError.Journal JournalError.Io))
  end.

Inductive reads (limits : ReplayLimits) :
    N → N → N → RecordHash → bytes → list VerifiedFrame → FrameRead → Prop :=
| reads_stop pos cnt seq lh rest r :
    read_frame limits pos cnt seq lh rest = r → (∀ fr rest', r ≠ FrameRead.Frame fr rest') →
    reads limits pos cnt seq lh rest [] r
| reads_frame pos cnt seq lh rest fr rest' frs r :
    read_frame limits pos cnt seq lh rest = FrameRead.Frame fr rest' →
    reads limits (vf_end_offset fr) (cnt + 1) (vf_sequence fr) (vf_hash fr) rest' frs r →
    reads limits pos cnt seq lh rest (fr :: frs) r.

Lemma length_bytes_of_pos fr : 0 < length (bytes_of fr).
Proof.
  unfold bytes_of, frame_bytes, frame_header. cbv zeta. rewrite !length_app.
  change (length FRAME_MAGIC) with 8. lia.
Qed.

(** Every file reads as some frames and a reason to stop. *)
Lemma reads_total limits n rest pos cnt seq lh :
  length rest < n → ∃ frs r, reads limits pos cnt seq lh rest frs r.
Proof.
  revert rest pos cnt seq lh. induction n as [|n IH]; intros rest pos cnt seq lh Hn; [lia|].
  destruct (read_frame limits pos cnt seq lh rest) as [| |e|fr rest'] eqn:Hread.
  1-3: eexists [], _; by apply reads_stop.
  destruct (read_frame_inv _ _ _ _ _ _ _ _ Hread) as [Hrest _].
  assert (Hlt : length rest' < n).
  { rewrite Hrest, length_app in Hn. pose proof (length_bytes_of_pos fr). lia. }
  destruct (IH rest' (vf_end_offset fr) (cnt + 1)%N (vf_sequence fr) (vf_hash fr) Hlt) as (frs & r & Hr).
  exists (fr :: frs), r. by eapply reads_frame.
Qed.

Lemma reads_chain limits pos cnt seq lh rest frs r :
  reads limits pos cnt seq lh rest frs r →
  chain_ok limits pos cnt seq lh frs
  ∧ (∀ fr rest', r ≠ FrameRead.Frame fr rest')
  ∧ ∃ tail, rest = chain_bytes frs ++ tail
      ∧ read_frame limits (chain_pos pos frs) (cnt + vec_len frs) (chain_seq seq frs)
          (chain_hash lh frs) tail = r.
Proof.
  induction 1 as [pos cnt seq lh rest r Hread Hr|pos cnt seq lh rest fr rest' frs r Hread _ IH].
  { split; [done|]. split; [done|]. exists rest. unfold vec_len. cbn. by rewrite N.add_0_r. }
  destruct IH as (Hchain & Hr & tail & -> & Htail).
  apply read_frame_inv in Hread as [-> Hfr]. split; [by split|]. split; [done|].
  exists tail. split; [by rewrite chain_bytes_cons, app_assoc|].
  unfold chain_pos, chain_seq, chain_hash in *. rewrite !last_cons_default. unfold vec_len in *.
  cbn [length]. rewrite Nat2N.inj_succ.
  by replace (cnt + N.succ (N.of_nat (length frs)))%N with (cnt + 1 + N.of_nat (length frs))%N by lia.
Qed.

Lemma chain_reads `{!Sha256Spec} limits pos cnt seq lh frs tail r :
  chain_ok limits pos cnt seq lh frs →
  read_frame limits (chain_pos pos frs) (cnt + vec_len frs) (chain_seq seq frs)
    (chain_hash lh frs) tail = r → (∀ fr rest', r ≠ FrameRead.Frame fr rest') →
  reads limits pos cnt seq lh (chain_bytes frs ++ tail) frs r.
Proof.
  revert pos cnt seq lh. induction frs as [|fr frs IH]; intros pos cnt seq lh.
  { unfold vec_len. cbn. rewrite N.add_0_r. intros _ Hread Hr. by apply reads_stop. }
  intros [Hfr Hfrs] Hread Hr. cbn [chain_bytes mbind list_bind]. rewrite <- app_assoc.
  eapply reads_frame; [by apply read_frame_complete|]. apply IH; [done| |done].
  rewrite <- Hread. unfold chain_pos, chain_seq, chain_hash. rewrite !last_cons_default.
  unfold vec_len. cbn [length]. rewrite Nat2N.inj_succ.
  by replace (cnt + N.succ (N.of_nat (length frs)))%N with (cnt + 1 + N.of_nat (length frs))%N by lia.
Qed.

(** The loop visits the frames in turn and stops; the fuel [replay_range]
    gives it suffices. *)
Lemma replay_loop_reads {E V} fuel mode limits (visitor : V → VerifiedFrame → result E V) file
    pos cnt seq lh rest frs r v :
  reads limits pos cnt seq lh rest frs r → length rest < fuel →
  replay_loop fuel mode limits visitor file pos rest cnt seq lh v
  = Some (match try_fold visitor v frs with
          | Ok v => replay_stop mode file (chain_pos pos frs) (cnt + vec_len frs)
                      (chain_seq seq frs) (chain_hash lh frs) v r
          | Err e => (file, Err (ReplayError.Visitor e))
          end).
Proof.
  intros Hreads. revert fuel v. induction Hreads as
    [pos cnt seq lh rest r Hread Hr|pos cnt seq lh rest fr rest' frs r Hread Hreads IH];
    intros [|fuel] v Hfuel; try lia; cbn [replay_loop].
  - rewrite Hread. cbn [try_fold]. unfold vec_len. cbn. rewrite N.add_0_r.
    destruct r as [| |e|fr rest']; cbn; try done; [by destruct (handle_partial_tail _ _ _)|].
    by destruct (Hr fr rest').
  - rewrite Hread. cbn [try_fold]. destruct (visitor v fr) as [v'|e]; cbn; [|done].
    rewrite IH.
    2:{ apply read_frame_inv in Hread as [-> _]. rewrite length_app in Hfuel.
        pose proof (length_bytes_of_pos fr). lia. }
    unfold chain_pos, chain_seq, chain_hash. rewrite !last_cons_default.
    unfold vec_len. cbn [length]. rewrite Nat2N.inj_succ.
    by replace (cnt + N.succ (N.of_nat (length frs)))%N with (cnt + 1 + N.of_nat (length frs))%N by lia.
Qed.

(** A journal: the frames it holds from the start *)
Definition journal_of (file : bytes) (frs : list VerifiedFrame) : Prop :=
  file = chain_bytes frs ∧ chain_ok ReplayLimits_PRODUCTION 0 0 0 RecordHash_ZERO frs
  ∧ (byte_len file ≤ MAX_JOURNAL_BYTES)%N.

Definition journal_summary (file : bytes) (frs : list VerifiedFrame) : ReplaySummary :=
  {| rs_frame_count := vec_len frs;
     rs_final_sequence := vec_len frs;
     rs_bytes_consumed := byte_len file;
     rs_last_hash := chain_hash RecordHash_ZERO frs |}.

(** Replay of the frames [frs] by a visitor *)
Definition visit {E V} (visitor : V → VerifiedFrame → result E V) (v : V) (file : bytes)
    (frs : list VerifiedFrame) : result (ReplayError E) (ReplaySummary * V) :=
  match try_fold visitor v frs with
  | Ok v => Ok (journal_summary file frs, v)
  | Err e => Err (ReplayError.Visitor e)
  end.

Lemma read_frame_nil limits pos cnt seq lh : read_frame limits pos cnt seq lh [] = FrameRead.Eof.
Proof. reflexivity. Qed.

Lemma replay_with_reads {E V} mode (visitor : V → VerifiedFrame → result E V) v file frs r :
  (byte_len file ≤ MAX_JOURNAL_BYTES)%N →
  reads ReplayLimits_PRODUCTION 0 0 0 RecordHash_ZERO file frs r →
  replay_with mode visitor v file
  = match try_fold visitor v frs with
    | Ok v =>
        match replay_stop (E:=E) mode file (chain_pos 0 frs) (vec_len frs) (chain_seq 0 frs)
                (chain_hash RecordHash_ZERO frs) v r with
        | (file, Ok (cnt, seq, lh, v)) => (file, Ok (mkReplaySummary cnt seq (byte_len file) lh, v))
        | (file, Err e) => (file, Err e)
        end
    | Err e => (file, Err (ReplayError.Visitor e))
    end.
Proof.
  intros Hlen Hreads. unfold replay_with, replay_range. cbv zeta.
  rewrite (proj2 (N.ltb_ge _ _)) by done. cbn [rc_end_offset ReplayCheckpoint_ZERO].
  rewrite (proj2 (N.ltb_ge _ _)) by lia. rewrite drop_0. cbn [rc_sequence rc_record_hash].
  rewrite (replay_loop_reads _ _ _ _ _ _ _ _ _ _ _ _ _ Hreads) by lia.
  destruct (try_fold visitor v frs) as [v'|e]; [|done]. rewrite N.add_0_l.
  destruct (replay_stop _ _ _ _ _ _ _ _) as [f [[[[? ?] ?] ?]|?]]; done.
Qed.
End replay.

(** ** The promises of the journal *)

Section promises.
Context {HSha : Sha256}.

(** The frame [append] adds to a journal *)
Definition next_frame (file : bytes) (frs : list VerifiedFrame) (payload : bytes)
    (state_hash : StateHash) : VerifiedFrame :=
  let previous := chain_hash RecordHash_ZERO frs in
  {| vf_payload := payload;
     vf_hash := hash_record (frame_header payload previous state_hash) payload;
     vf_previous_hash := previous;
     vf_state_hash := state_hash;
     vf_sequence := vec_len frs + 1;
     vf_end_offset := byte_len file + N.of_nat (frame_len payload) |}.

Lemma chain_hash_length limits pos cnt seq lh frs :
  chain_ok limits pos cnt seq lh frs → length lh = 32 → length (chain_hash lh frs) = 32.
Proof.
  revert pos cnt seq lh. induction frs as [|fr frs IH]; intros pos cnt seq lh; [done|].
  intros [Hfr Hfrs] _. unfold chain_hash in *. rewrite last_cons_default.
  eapply (IH _ _ _ _ Hfrs). by destruct Hfr as (_ & _ & _ & _ & _ & ? & _).
Qed.

Lemma next_frame_ok `{!Sha256Spec} file frs payload state :
  journal_of file frs → (byte_len payload ≤ MAX_PAYLOAD_BYTES)%N → length state = 32 →
  (vec_len frs < MAX_JOURNAL_FRAMES)%N →
  frame_ok ReplayLimits_PRODUCTION (chain_pos 0 frs) (0 + vec_len frs) (chain_seq 0 frs)
    (chain_hash RecordHash_ZERO frs) (next_frame file frs payload state).
Proof.
  intros (Hfile & Hchain & Hlen) Hmax Hstate Hfrs. unfold frame_ok, next_frame.
  cbn [vf_payload vf_hash vf_previous_hash vf_state_hash vf_sequence vf_end_offset].
  rewrite (chain_seq_spec _ _ _ _ _ _ Hchain), (chain_pos_spec _ _ _ _ _ _ Hchain), <- Hfile.
  pose proof (chain_hash_length _ _ _ _ _ _ Hchain eq_refl) as Hh.
  cbn [rl_max_frames ReplayLimits_PRODUCTION]. unfold MAX_JOURNAL_FRAMES, u64_max in *.
  split_and!; try done; try lia. apply sha256_length.
Qed.

Lemma journal_of_snoc `{!Sha256Spec} file frs payload state :
  journal_of file frs → (byte_len payload ≤ MAX_PAYLOAD_BYTES)%N → length state = 32 →
  (vec_len frs < MAX_JOURNAL_FRAMES)%N →
  (byte_len file + N.of_nat (frame_len payload) ≤ MAX_JOURNAL_BYTES)%N →
  let fr := next_frame file frs payload state in
  journal_of (file ++ bytes_of fr) (frs ++ [fr]).
Proof.
  intros Hj Hmax Hstate Hfrs Hroom fr. pose proof (next_frame_ok _ _ _ _ Hj Hmax Hstate Hfrs) as Hfr.
  destruct Hj as (Hfile & Hchain & Hlen). split_and!.
  - rewrite chain_bytes_app, <- Hfile. unfold chain_bytes. cbn. by rewrite app_nil_r.
  - apply chain_ok_app. split; [done|]. by split.
  - subst fr. unfold byte_len in *. rewrite length_app, (length_bytes_of _ _ _ _ _ _ Hfr) by done.
    cbn [vf_payload next_frame]. lia.
Qed.

Lemma append_inv file payload prev state fault file' r :
  append file payload prev state fault = (file', r) →
  (∃ e, r = Err e ∧ file' = file ∧ e ≠ JournalError.Io)
  ∨ (byte_len payload ≤ MAX_PAYLOAD_BYTES)%N
    ∧ (byte_len file + N.of_nat (frame_len payload) ≤ MAX_JOURNAL_BYTES)%N
    ∧ match fault with
      | Some n => file' = file ++ take n (frame_bytes payload prev state) ∧ r = Err JournalError.Io
      | None => file' = file ++ frame_bytes payload prev state
                ∧ r = Ok (hash_record (frame_header payload prev state) payload)
      end.
Proof.
  unfold append. destruct (N.ltb_spec MAX_PAYLOAD_BYTES (byte_len payload)) as [|Hmax].
  { intros [= <- <-]. left. eauto. }
  destruct (length ← checked_add _ _ _; _) as [next|] eqn:Hnext.
  2:{ intros [= <- <-]. left. eauto. }
  destruct (N.ltb_spec MAX_JOURNAL_BYTES next) as [|Hroom].
  { intros [= <- <-]. left. eauto. }
  assert (Hlen : next = (byte_len file + N.of_nat (frame_len payload))%N).
  { apply bind_Some in Hnext as (a & [-> _]%checked_add_some & Hnext).
    apply bind_Some in Hnext as (b & [-> _]%checked_add_some & Hnext).
    apply checked_add_some in Hnext as [-> _]. unfold frame_len, byte_len. lia. }
  subst next. intros Hr. right. split; [done|]. split; [done|].
  destruct fault; injection Hr as <- <-; done.
Qed.
End promises.

(** C17: Append and replay round trip.  Appending to a journal that holds the
    frames [frs], after its last hash, gives a journal that replays, in either
    mode, to exactly the visits of [frs] and of one new frame with the
    payload, the state hash and the next sequence, and it stays within the
    limits; an append that is refused leaves the file as it was. *)
Theorem append_then_replay {HSha : Sha256} `{!Sha256Spec} {E V} file frs payload state file' r mode
    (visitor : V → VerifiedFrame → result E V) v :
  journal_of file frs → length state = 32 → (vec_len frs < MAX_JOURNAL_FRAMES)%N →
  append file payload (chain_hash RecordHash_ZERO frs) state None = (file', r) →
  match r with
  | Ok hash =>
      let fr := next_frame file frs payload state in
      hash = vf_hash fr ∧ journal_of file' (frs ++ [fr])
      ∧ replay_with mode visitor v file' = (file', visit visitor v file' (frs ++ [fr]))
  | Err _ => file' = file
  end.
Proof.
  intros Hj Hstate Hfrs Happ. apply append_inv in Happ as [(e & -> & -> & _)|(Hmax & Hroom & -> & ->)];
    [done|]. pose proof (journal_of_snoc file frs payload state Hj Hmax Hstate Hfrs Hroom) as Hj'.
  cbv zeta in *. set (fr := next_frame file frs payload state) in *. split; [done|].
  change (frame_bytes payload _ state) with (bytes_of fr) at 1 2 3 4. split; [exact Hj'|].
  destruct Hj' as (Hfile & Hchain & Hlen).
  rewrite (replay_with_reads mode visitor v _ (frs ++ [fr]) FrameRead.Eof).
  - unfold visit. destruct (try_fold visitor v (frs ++ [fr])) as [v'|]; [|done].
    cbn [replay_stop]. unfold journal_summary.
    by rewrite (chain_seq_spec _ _ _ _ _ _ Hchain), N.add_0_l.
  - exact Hlen.
  - rewrite Hfile at 1. rewrite <- (app_nil_r (chain_bytes _)). by apply chain_reads.
Qed.

(** What is read of a journal followed by a proper part of a frame *)
Lemma torn_reads {HSha : Sha256} `{!Sha256Spec} file frs payload state n :
  journal_of file frs → (byte_len payload ≤ MAX_PAYLOAD_BYTES)%N → length state = 32 →
  (vec_len frs < MAX_JOURNAL_FRAMES)%N →
  (byte_len file + N.of_nat (frame_len payload) ≤ MAX_JOURNAL_BYTES)%N → n < frame_len payload →
  let file' := file ++ take n (frame_bytes payload (chain_hash RecordHash_ZERO frs) state) in
  (byte_len file' ≤ MAX_JOURNAL_BYTES)%N
  ∧ reads ReplayLimits_PRODUCTION 0 0 0 RecordHash_ZERO file' frs
      (if decide (n = 0) then FrameRead.Eof else FrameRead.PartialFrame).
Proof.
  intros Hj Hmax Hstate Hfrs Hroom Hn. pose proof (next_frame_ok _ _ _ _ Hj Hmax Hstate Hfrs) as Hfr.
  set (fr := next_frame file frs payload state) in *.
  change (frame_bytes payload _ state) with (bytes_of fr). cbv zeta.
  assert (Hlen : length (bytes_of fr) = frame_len payload)
    by (rewrite (length_bytes_of _ _ _ _ _ _ Hfr); done).
  destruct Hj as (Hfile & Hchain & Hflen). split.
  { unfold byte_len in *. rewrite length_app, length_take. lia. }
  destruct n as [|n]; cbn [decide].
  { rewrite take_0, app_nil_r, Hfile. rewrite <- (app_nil_r (chain_bytes _)). by apply chain_reads. }
  rewrite decide_False by lia. rewrite Hfile at 1. apply chain_reads; [done| |done].
  destruct Hfr as (_ & Hp & Hs & _).
  eapply (read_frame_torn _ _ _ _ _ payload (vf_previous_hash fr) state _ (drop (S n) (bytes_of fr)));
    [done|done|done| | |].
  - by rewrite take_drop.
  - intros Hnil%(f_equal length). rewrite length_take in Hnil. cbn [length] in Hnil. lia.
  - intros Hnil%(f_equal length). rewrite length_drop in Hnil. cbn [length] in Hnil. lia.
Qed.

(** Repairing replay cuts the part off. *)
Lemma replay_torn {HSha : Sha256} `{!Sha256Spec} {E V} file frs payload state n
    (visitor : V → VerifiedFrame → result E V) v v' :
  journal_of file frs → (byte_len payload ≤ MAX_PAYLOAD_BYTES)%N → length state = 32 →
  (vec_len frs < MAX_JOURNAL_FRAMES)%N →
  (byte_len file + N.of_nat (frame_len payload) ≤ MAX_JOURNAL_BYTES)%N → n < frame_len payload →
  try_fold visitor v frs = Ok v' →
  let file' := file ++ take n (frame_bytes payload (chain_hash RecordHash_ZERO frs) state) in
  replay_with ReplayMode.RepairFinalPartial visitor v file'
  = (file, Ok (journal_summary file frs, v'))
  ∧ (0 < n → replay_with ReplayMode.Inspect visitor v file'
             = (file', Err (ReplayError.Journal (JournalError.PartialTail (byte_len file))))).
Proof.
  intros Hj Hmax Hstate Hfrs Hroom Hn Hvisit.
  destruct (torn_reads file frs payload state n Hj Hmax Hstate Hfrs Hroom Hn) as [Hbytes Hreads].
  cbv zeta in *. destruct Hj as (Hfile & Hchain & Hflen).
  assert (Hpos : chain_pos 0 frs = byte_len file)
    by (rewrite (chain_pos_spec _ _ _ _ _ _ Hchain), Hfile; done).
  rewrite !(replay_with_reads _ visitor v _ frs _ Hbytes Hreads), !Hvisit.
  destruct (decide (n = 0)) as [->|Hn0]; cbn [replay_stop handle_partial_tail].
  - rewrite take_0, app_nil_r. split; [|lia]. unfold journal_summary.
    by rewrite (chain_seq_spec _ _ _ _ _ _ Hchain), N.add_0_l.
  - rewrite Hpos. split; [|done]. unfold byte_len. rewrite Nat2N.id, take_app_length.
    unfold journal_summary. by rewrite (chain_seq_spec _ _ _ _ _ _ Hchain), N.add_0_l.
Qed.

(** A crash while appending.  Whatever part of a frame reached the file
    before the failure, repairing replay brings the journal back: to the
    frames before the append when the frame is incomplete (inspection reports
    the torn tail at its offset), to those and the new frame when all of its
    bytes made it.  Nothing else can be read. *)
Theorem append_crash_recovery {HSha : Sha256} `{!Sha256Spec} {E V} file frs payload state n file' r
    (visitor : V → VerifiedFrame → result E V) v v' :
  journal_of file frs → length state = 32 → (vec_len frs < MAX_JOURNAL_FRAMES)%N →
  append file payload (chain_hash RecordHash_ZERO frs) state (Some n) = (file', r) →
  r = Err JournalError.Io → try_fold visitor v frs = Ok v' →
  if decide (n < frame_len payload)
  then replay_with ReplayMode.RepairFinalPartial visitor v file'
       = (file, Ok (journal_summary file frs, v'))
       ∧ (0 < n → replay_with ReplayMode.Inspect visitor v file'
                  = (file', Err (ReplayError.Journal (JournalError.PartialTail (byte_len file)))))
  else journal_of file' (frs ++ [next_frame file frs payload state]).
Proof.
  intros Hj Hstate Hfrs Happ -> Hvisit.
  apply append_inv in Happ as [(e & [= <-] & _ & He)|(Hmax & Hroom & -> & _)]; [done|].
  destruct (decide (n < frame_len payload)) as [Hn|Hn]; [by apply replay_torn|].
  pose proof (journal_of_snoc file frs payload state Hj Hmax Hstate Hfrs Hroom) as Hj'.
  rewrite take_ge; [exact Hj'|].
  change (frame_bytes payload _ state) with (bytes_of (next_frame file frs payload state)).
  pose proof (next_frame_ok _ _ _ _ Hj Hmax Hstate Hfrs) as Hfr.
  rewrite (length_bytes_of _ _ _ _ _ _ Hfr) by done. cbn [vf_payload next_frame]. lia.
Qed.

Lemma read_frame_eof {HSha : Sha256} limits pos cnt seq lh rest :
  read_frame limits pos cnt seq lh rest = FrameRead.Eof → rest = [].
Proof.
  unfold read_frame, read_record. cbv zeta.
  destruct (Nat.eqb_spec (length (take FRAME_HEADER_LEN rest)) 0) as [Hz|_].
  - intros _. rewrite length_take in Hz. apply nil_length_inv. unfold FRAME_HEADER_LEN in Hz. lia.
  - repeat (case_match; try done).
Qed.

Lemma replay_journals {HSha : Sha256} `{!Sha256Spec} {E V} mode file file' s v v'
    (visitor : V → VerifiedFrame → result E V) :
  replay_with mode visitor v file = (file', Ok (s, v')) →
  ∃ frs, journal_of file' frs ∧ file' `prefix_of` file ∧ (mode = ReplayMode.Inspect → file' = file)
    ∧ try_fold visitor v frs = Ok v' ∧ s = journal_summary file' frs
    ∧ (vec_len frs ≤ MAX_JOURNAL_FRAMES)%N
    ∧ Forall (λ fr, byte_len (vf_payload fr) ≤ MAX_PAYLOAD_BYTES)%N frs.
Proof.
  intros Hrep. destruct (N.le_gt_cases (byte_len file) MAX_JOURNAL_BYTES) as [Hlen|Hlen].
  2:{ unfold replay_with, replay_range in Hrep. cbv zeta in Hrep.
      by rewrite (proj2 (N.ltb_lt _ _)) in Hrep. }
  destruct (reads_total ReplayLimits_PRODUCTION (S (length file)) file 0 0 0 RecordHash_ZERO)
    as (frs & r & Hreads); [lia|].
  rewrite (replay_with_reads _ _ _ _ frs r Hlen Hreads) in Hrep.
  apply reads_chain in Hreads as (Hchain & Hr & tail & Hfile & Htail).
  destruct (try_fold visitor v frs) as [v1|] eqn:Hv; [|done].
  pose proof (chain_pos_spec _ _ _ _ _ _ Hchain) as Hpos.
  pose proof (chain_seq_spec _ _ _ _ _ _ Hchain) as Hseq.
  rewrite N.add_0_l in Hpos, Hseq.
  assert (Hres : file' = chain_bytes frs ∧ (mode = ReplayMode.Inspect → file' = file)
    ∧ s = journal_summary file' frs ∧ v' = v1).
  { destruct r as [| |e|fr rest']; cbn [replay_stop] in Hrep.
    - assert (tail = []) as ->.
      { by eapply read_frame_eof. }
      rewrite app_nil_r in Hfile. injection Hrep as <- <- <-. rewrite Hseq. done.
    - destruct mode; cbn [handle_partial_tail] in Hrep; [done|].
      assert (Htk : take (N.to_nat (chain_pos 0 frs)) file = chain_bytes frs).
      { rewrite Hpos, Hfile. unfold byte_len. by rewrite Nat2N.id, take_app_length. }
      rewrite Htk in Hrep. injection Hrep as <- <- <-. rewrite Hseq. done.
    - done.
    - done. }
  destruct Hres as (-> & Hmode & -> & ->). exists frs. split_and!; try done.
  - split; [done|]. split; [done|]. unfold byte_len in *. rewrite Hfile, length_app in Hlen. lia.
  - rewrite Hfile. by apply prefix_app_r.
  - destruct (last frs) as [fr|] eqn:Hlast; [|apply last_None in Hlast as ->; done].
    apply last_Some in Hlast as [frs0 ->]. apply chain_ok_app in Hchain as [Hc0 [Hfr _]].
    destruct Hfr as (_ & _ & _ & _ & _ & _ & _ & Hle & _).
    rewrite (chain_seq_spec _ _ _ _ _ _ Hc0), N.add_0_l in Hle.
    unfold vec_len in *. rewrite length_app. cbn [length rl_max_frames ReplayLimits_PRODUCTION] in *. lia.
  - clear -Hchain. revert Hchain. generalize 0%N at 1 as pos. generalize 0%N at 1 as cnt.
    generalize 0%N as seq. generalize RecordHash_ZERO as lh.
    induction frs as [|fr frs IH]; intros lh seq cnt pos; [constructor|]. intros [Hfr Hfrs].
    constructor; [by destruct Hfr as (_ & _ & _ & ? & _)|by eapply IH].
Qed.

(** Replay accepts only journals.  When replay succeeds, the file it
    leaves, the given one or a prefix of it when it repaired, is a chain of
    frames each of which names the hash of the one before, within the limits
    on size, payloads and number, and the visitor saw exactly these frames in
    order. *)
Theorem replay_accepts_journals {HSha : Sha256} `{!Sha256Spec} {E V} mode file file' s v v'
    (visitor : V → VerifiedFrame → result E V) :
  replay_with mode visitor v file = (file', Ok (s, v')) →
  ∃ frs, journal_of file' frs ∧ file' `prefix_of` file ∧ (mode = ReplayMode.Inspect → file' = file)
    ∧ try_fold visitor v frs = Ok v' ∧ s = journal_summary file' frs
    ∧ (vec_len frs ≤ MAX_JOURNAL_FRAMES)%N
    ∧ Forall (λ fr, byte_len (vf_payload fr) ≤ MAX_PAYLOAD_BYTES)%N frs.
Proof. apply replay_journals. Qed.

Section authentication.
Context {HSha : Sha256} `{!Sha256Spec}.

(** What the hash of a record is taken of *)
Definition record_text (fr : VerifiedFrame) : bytes :=
  nul_terminated "mission-journal-record-v1"
  ++ frame_header (vf_payload fr) (vf_previous_hash fr) (vf_state_hash fr) ++ vf_payload fr.

(** Two lists of records differ somewhere in the text of a record but not in
    its hash. *)
Definition record_clash (frs frs' : list VerifiedFrame) : Prop :=
  ∃ i fr fr', frs !! i = Some fr ∧ frs' !! i = Some fr' ∧ clashes (record_text fr) (record_text fr').

(** Two records with one hash are the same record. *)
Lemma record_hash_pins limits pos cnt seq lh limits' pos' cnt' seq' lh' fr fr' :
  frame_ok limits pos cnt seq lh fr → frame_ok limits' pos' cnt' seq' lh' fr' →
  vf_hash fr = vf_hash fr' →
  (bytes_of fr = bytes_of fr' ∧ lh = lh') ∨ clashes (record_text fr) (record_text fr').
Proof.
  intros (Hp & Hpl & Hsl & _ & Hh & _) (Hp' & Hpl' & Hsl' & _ & Hh' & _) Heq.
  rewrite Hh, Hh' in Heq. unfold hash_record in Heq.
  apply sha256_inj_or in Heq as [Heq|?]; [left|by right]. apply app_inv_head in Heq.
  destruct (header_parts (vf_payload fr) _ _ Hpl Hsl) as (Hlen & _ & _ & _ & Hprev & Hst & _).
  destruct (header_parts (vf_payload fr') _ _ Hpl' Hsl') as (Hlen' & _ & _ & _ & Hprev' & Hst' & _).
  apply app_inj_1 in Heq as [Hheader Hpayload]; [|by rewrite Hlen, Hlen'].
  rewrite Hheader in Hprev, Hst. rewrite Hprev in Hprev'. rewrite Hst in Hst'.
  split; [|by rewrite <- Hp, <- Hp']. unfold bytes_of. by rewrite Hpayload, Hprev', Hst'.
Qed.

Lemma chain_authenticated limits limits' frs frs' :
  chain_ok limits 0 0 0 RecordHash_ZERO frs → chain_ok limits' 0 0 0 RecordHash_ZERO frs' →
  length frs = length frs' → chain_hash RecordHash_ZERO frs = chain_hash RecordHash_ZERO frs' →
  chain_bytes frs = chain_bytes frs' ∨ record_clash frs frs'.
Proof.
  revert frs'. induction frs as [|fr frs IH] using rev_ind; intros frs' Hc Hc' Hlen Hhash.
  { destruct frs'; [by left|done]. }
  destruct frs' as [|fr' frs' _] using rev_ind; [rewrite length_app in Hlen; cbn in Hlen; lia|].
  rewrite !length_app in Hlen. cbn [length] in Hlen.
  apply chain_ok_app in Hc as [Hc [Hfr _]]. apply chain_ok_app in Hc' as [Hc' [Hfr' _]].
  unfold chain_hash in Hhash. rewrite !last_snoc in Hhash.
  destruct (record_hash_pins _ _ _ _ _ _ _ _ _ _ _ _ Hfr Hfr' Hhash) as [[Hb Hlh]|Hcl].
  2:{ right. exists (length frs), fr, fr'. split; [by rewrite list_lookup_middle|].
      split; [apply list_lookup_middle; lia|done]. }
  destruct (IH frs' Hc Hc' ltac:(lia) Hlh) as [Heq|(i & g & g' & Hg & Hg' & Hcl)].
  2:{ right. exists i, g, g'. split_and!; [by apply lookup_app_l_Some..|done]. }
  left.
  rewrite !chain_bytes_app, Heq. f_equal. by rewrite !chain_bytes_cons, Hb.
Qed.
End authentication.

(** The last hash vouches for the whole journal.  Two journals of one
    length in frames with one last record hash are the same file, byte for
    byte, or the texts of two of their records at one place have one SHA-256:
    no earlier record can be changed, dropped or reordered. *)
Theorem journal_tamper_evident {HSha : Sha256} `{!Sha256Spec} {E E' V V'} file file' s s' v v' w w'
    mode mode' (visitor : V → VerifiedFrame → result E V)
    (visitor' : V' → VerifiedFrame → result E' V') :
  replay_with mode visitor v file = (file, Ok (s, w)) →
  replay_with mode' visitor' v' file' = (file', Ok (s', w')) →
  rs_final_sequence s = rs_final_sequence s' → rs_last_hash s = rs_last_hash s' →
  file = file'
  ∨ ∃ frs frs', journal_of file frs ∧ journal_of file' frs' ∧ record_clash frs frs'.
Proof.
  intros Hrep Hrep' Hseq Hhash.
  apply replay_journals in Hrep as (frs & Hj & _ & _ & _ & -> & _).
  apply replay_journals in Hrep' as (frs' & Hj' & _ & _ & _ & -> & _).
  pose proof Hj as (Hf & Hc & _). pose proof Hj' as (Hf' & Hc' & _).
  cbn in Hseq, Hhash. unfold vec_len in Hseq.
  destruct (chain_authenticated _ _ _ _ Hc Hc') as [Heq|?]; [lia|done|left; congruence|right].
  by exists frs, frs'.
Qed.

(** ** Checkpoints *)

Lemma chain_ok_count {HSha : Sha256} limits pos cnt cnt' seq lh frs :
  chain_ok limits pos cnt seq lh frs → (cnt' ≤ cnt)%N → chain_ok limits pos cnt' seq lh frs.
Proof.
  revert pos cnt cnt' seq lh. induction frs as [|fr frs IH]; intros pos cnt cnt' seq lh; [done|].
  intros [Hfr Hfrs] Hle. split; [|by eapply IH; [exact Hfrs|lia]].
  unfold frame_ok in *. destruct_and!. split_and!; done || lia.
Qed.

Section checkpoints.
Context {HSha : Sha256} `{!Sha256Spec}.

Definition checkpoint_of (fr : VerifiedFrame) : ReplayCheckpoint :=
  mkReplayCheckpoint (vf_sequence fr) (vf_end_offset fr) (vf_hash fr) (vf_state_hash fr).

(** The checkpoint after the first [n] frames *)
Definition checkpoint_at (frs : list VerifiedFrame) (n : N) : option ReplayCheckpoint :=
  if (n =? 0)%N then Some ReplayCheckpoint_ZERO
  else checkpoint_of <$> frs !! N.to_nat (n - 1).

Lemma checkpoint_at_spec file frs n cp :
  journal_of file frs → checkpoint_at frs n = Some cp →
  let frs1 := take (N.to_nat n) frs in
  rc_sequence cp = chain_seq 0 frs1 ∧ rc_end_offset cp = chain_pos 0 frs1
  ∧ rc_record_hash cp = chain_hash RecordHash_ZERO frs1 ∧ rc_sequence cp = n
  ∧ (n ≤ vec_len frs)%N.
Proof.
  intros (_ & Hchain & _) Hcp frs1. unfold checkpoint_at in Hcp. destruct (N.eqb_spec n 0) as [->|Hn].
  { injection Hcp as <-. subst frs1. cbn. split_and!; try done; lia. }
  apply fmap_Some in Hcp as (fr & Hfr & ->). pose proof (lookup_lt_Some _ _ _ Hfr) as Hlt.
  assert (Hlast : frs1 = take (N.to_nat (n - 1)) frs ++ [fr]).
  { subst frs1. replace (N.to_nat n) with (S (N.to_nat (n - 1))) by lia. by apply take_S_r. }
  unfold chain_seq, chain_pos, chain_hash. rewrite Hlast, !last_snoc. cbn. split_and!; try done.
  - assert (Hc1 : chain_ok ReplayLimits_PRODUCTION 0 0 0 RecordHash_ZERO frs1).
    { rewrite <- (take_drop (N.to_nat n) frs), chain_ok_app in Hchain. by destruct Hchain. }
    pose proof (chain_seq_spec _ _ _ _ _ _ Hc1) as Hseq. unfold chain_seq, vec_len in Hseq.
    rewrite Hlast, last_snoc, length_app, length_take in Hseq. cbn [length] in Hseq. lia.
  - unfold vec_len. lia.
Qed.

(** Replay from a checkpoint visits the frames after it. *)
Lemma replay_from_suffix {E V} file frs n cp (visitor : V → VerifiedFrame → result E V) v :
  journal_of file frs → checkpoint_at frs n = Some cp →
  replay_from cp visitor v file
  = (file, match try_fold visitor v (drop (N.to_nat n) frs) with
           | Ok v => Ok (mkReplaySummary (vec_len frs - n) (vec_len frs) (byte_len file)
                           (chain_hash RecordHash_ZERO frs), v)
           | Err e => Err (ReplayError.Visitor e)
           end).
Proof.
  intros Hj Hcp. destruct (checkpoint_at_spec _ _ _ _ Hj Hcp) as (Hseq & Hpos & Hhash & Hn & Hle).
  destruct Hj as (Hfile & Hchain & Hlen). set (frs1 := take (N.to_nat n) frs) in *.
  set (frs2 := drop (N.to_nat n) frs) in *.
  assert (Hfrs : frs = frs1 ++ frs2) by (unfold frs1, frs2; by rewrite take_drop).
  rewrite Hfrs, chain_ok_app in Hchain. destruct Hchain as [Hc1 Hc2].
  pose proof (chain_pos_spec _ _ _ _ _ _ Hc1) as Hpos1. rewrite N.add_0_l in Hpos1.
  assert (Hn1 : vec_len frs1 = n).
  { unfold vec_len, frs1 in *. rewrite length_take. lia. }
  assert (Hfile' : file = chain_bytes frs1 ++ chain_bytes frs2)
    by by rewrite <- chain_bytes_app, <- Hfrs.
  unfold replay_from, replay_range. cbv zeta. cbn [rl_max_bytes ReplayLimits_PRODUCTION].
  rewrite (proj2 (N.ltb_ge _ _)) by done. rewrite Hpos, Hpos1.
  rewrite (proj2 (N.ltb_ge _ _)).
  2:{ rewrite Hfile'. unfold byte_len. rewrite length_app. lia. }
  assert (Hdrop : drop (N.to_nat (byte_len (chain_bytes frs1))) file = chain_bytes frs2).
  { rewrite Hfile'. unfold byte_len. by rewrite Nat2N.id, drop_app_length. }
  rewrite Hdrop, Hseq, Hhash, <- Hpos1.
  pose proof (chain_reads ReplayLimits_PRODUCTION (chain_pos 0 frs1) (0 + vec_len frs1)
    (chain_seq 0 frs1) (chain_hash RecordHash_ZERO frs1) frs2 [] FrameRead.Eof Hc2 eq_refl
    ltac:(done)) as Hreads.
  rewrite app_nil_r in Hreads.
  assert (Hreads0 : reads ReplayLimits_PRODUCTION (chain_pos 0 frs1) 0 (chain_seq 0 frs1)
    (chain_hash RecordHash_ZERO frs1) (chain_bytes frs2) frs2 FrameRead.Eof).
  { rewrite <- (app_nil_r (chain_bytes frs2)). apply chain_reads; [|done|done].
    eapply chain_ok_count; [exact Hc2|lia]. }
  rewrite (replay_loop_reads _ _ _ _ _ _ _ _ _ _ _ _ _ Hreads0) by lia.
  destruct (try_fold visitor v frs2) as [v'|]; [|done]. cbn [replay_stop].
  rewrite (chain_seq_spec _ _ _ _ _ _ Hc2), (chain_seq_spec _ _ _ _ _ _ Hc1).
  assert (Hlast : chain_hash (chain_hash RecordHash_ZERO frs1) frs2 = chain_hash RecordHash_ZERO frs).
  { unfold chain_hash. rewrite Hfrs, last_app. by destruct (last frs2). }
  assert (Hcount : vec_len frs = (vec_len frs1 + vec_len frs2)%N)
    by (unfold vec_len; rewrite Hfrs, length_app; lia).
  rewrite Hlast, N.add_0_l, N.add_0_l, <- Hn1, Hcount.
  by replace (vec_len frs1 + vec_len frs2 - vec_len frs1)%N with (vec_len frs2) by lia.
Qed.

(** [scan] finds the checkpoints it is asked for. *)
(** What the scan starts from for one target *)
Definition scan_init (target : option N) : option ReplayCheckpoint :=
  if bool_decide (target = Some 0%N) then Some ReplayCheckpoint_ZERO else None.

Lemma scan_fold frs t1 t2 :
  chain_ok ReplayLimits_PRODUCTION 0 0 0 RecordHash_ZERO frs →
  try_fold (scan_visitor (t1, t2)) (scan_init t1, scan_init t2) frs
  = Ok (t1 ≫= checkpoint_at frs, t2 ≫= checkpoint_at frs).
Proof.
  intros Hchain. induction frs as [|fr frs IH] using rev_ind.
    { cbn. unfold scan_init, checkpoint_at. f_equal. f_equal.
      - destruct t1 as [n|]; [|done]. cbn. destruct (N.eqb_spec n 0) as [->|Hn]; [done|].
        by rewrite bool_decide_eq_false_2 by congruence.
      - destruct t2 as [n|]; [|done]. cbn. destruct (N.eqb_spec n 0) as [->|Hn]; [done|].
        by rewrite bool_decide_eq_false_2 by congruence. }
    apply chain_ok_app in Hchain as [Hc0 [Hfr _]]. rewrite try_fold_app, IH by done.
    destruct Hfr as (_ & _ & _ & _ & _ & _ & Hseq & _).
    rewrite (chain_seq_spec _ _ _ _ _ _ Hc0), N.add_0_l in Hseq.
    assert (Hstep : ∀ t, (if bool_decide (t = Some (vf_sequence fr)) then Some (checkpoint_of fr)
      else t ≫= checkpoint_at frs) = t ≫= checkpoint_at (frs ++ [fr])).
    { intros [n|]; [|by rewrite bool_decide_eq_false_2]. cbn. unfold checkpoint_at. rewrite Hseq.
      case_bool_decide as Hn.
      - injection Hn as ->. destruct (N.eqb_spec (vec_len frs + 1) 0); [lia|].
        unfold vec_len. replace (N.to_nat (N.of_nat (length frs) + 1 - 1)) with (length frs) by lia.
        by rewrite list_lookup_middle.
      - destruct (N.eqb_spec n 0); [done|]. destruct (Nat.lt_ge_cases (N.to_nat (n - 1)) (length frs)).
        + by rewrite lookup_app_l.
        + rewrite (lookup_ge_None_2 frs), (lookup_ge_None_2 (frs ++ [fr])); [done| |done].
          rewrite length_app. cbn [length]. unfold vec_len in *. 
          assert (n ≠ N.of_nat (length frs) + 1)%N by congruence. lia. }
    cbn [try_fold mbind result_bind]. unfold scan_visitor. cbn [fst snd mbind result_bind].
    fold (checkpoint_of fr). by rewrite !Hstep.
Qed.

(** The summary of a scan *)
Definition scan_summary (file : bytes) (frs : list VerifiedFrame) (t1 t2 : option N) : ScanSummary :=
  {| sc_frame_count := vec_len frs;
     sc_bytes_consumed := byte_len file;
     sc_last_hash := chain_hash RecordHash_ZERO frs;
     sc_checkpoints := (t1 ≫= checkpoint_at frs, t2 ≫= checkpoint_at frs) |}.

Lemma scan_journal mode file frs t1 t2 :
  journal_of file frs → scan mode (t1, t2) file = (file, Ok (scan_summary file frs t1 t2)).
Proof.
  intros (Hfile & Hchain & Hlen).
  unfold scan. cbv zeta. cbn [fst snd]. fold (scan_init t1) (scan_init t2).
  change (replay_range mode ReplayLimits_PRODUCTION ReplayCheckpoint_ZERO (scan_visitor (t1, t2)) _ file)
    with (replay_with mode (scan_visitor (t1, t2)) (scan_init t1, scan_init t2) file).
  rewrite (replay_with_reads _ _ _ _ frs FrameRead.Eof Hlen), scan_fold by
    (done || (rewrite Hfile; rewrite <- (app_nil_r (chain_bytes _)); by apply chain_reads)).
  cbn [replay_stop]. by rewrite (chain_seq_spec _ _ _ _ _ _ Hchain), N.add_0_l.
Qed.

Lemma scan_torn file frs payload state n t1 t2 :
  journal_of file frs → (byte_len payload ≤ MAX_PAYLOAD_BYTES)%N → length state = 32 →
  (vec_len frs < MAX_JOURNAL_FRAMES)%N →
  (byte_len file + N.of_nat (frame_len payload) ≤ MAX_JOURNAL_BYTES)%N → n < frame_len payload →
  scan ReplayMode.RepairFinalPartial (t1, t2)
    (file ++ take n (frame_bytes payload (chain_hash RecordHash_ZERO frs) state))
  = (file, Ok (scan_summary file frs t1 t2)).
Proof.
  intros Hj Hmax Hstate Hfrs Hroom Hn. pose proof Hj as (_ & Hchain & _).
  destruct (replay_torn file frs payload state n (scan_visitor (t1, t2)) _ _ Hj Hmax Hstate Hfrs Hroom
              Hn (scan_fold frs t1 t2 Hchain)) as [Hrep _].
  unfold scan. cbv zeta. cbn [fst snd]. fold (scan_init t1) (scan_init t2).
  change (replay_range ReplayMode.RepairFinalPartial ReplayLimits_PRODUCTION ReplayCheckpoint_ZERO
            (scan_visitor (t1, t2)) ?v ?f)
    with (replay_with ReplayMode.RepairFinalPartial (scan_visitor (t1, t2)) v f).
  by rewrite Hrep.
Qed.
End checkpoints.

(** ** Witnesses *)

Module JournalDemo.
#[local] Existing Instance demo_sha256.

Definition hello : bytes := str_bytes "hello".
Definition collect (acc : list bytes) (fr : VerifiedFrame) : result Empty_set (list bytes) :=
  Ok (acc ++ [vf_payload fr]).
Definition one : bytes := (append [] hello RecordHash_ZERO StateHash_ZERO None).1.
Definition one_hash : RecordHash :=
  match (append [] hello RecordHash_ZERO StateHash_ZERO None).2 with Ok h => h | Err _ => [] end.
Definition two : bytes := (append one (str_bytes "world") one_hash StateHash_ZERO None).1.
Definition torn : bytes := (append [] hello RecordHash_ZERO StateHash_ZERO (Some 120)).1.

Lemma empty_journal : journal_of [] [].
Proof. split; [reflexivity|]. split; [exact I|]. vm_compute. intros H; discriminate H. Qed.
End JournalDemo.

Lemma append_then_replay_witness :
  @replay_with demo_sha256 _ _ ReplayMode.Inspect JournalDemo.collect [] JournalDemo.one
  = (JournalDemo.one,
     @visit Empty_set (list bytes) JournalDemo.collect [] JournalDemo.one
       [@next_frame demo_sha256 [] [] JournalDemo.hello StateHash_ZERO]).
Proof.
  assert (Happ : @append demo_sha256 [] JournalDemo.hello RecordHash_ZERO StateHash_ZERO None
    = (JournalDemo.one, Ok JournalDemo.one_hash)) by (vm_compute; reflexivity).
  exact (proj2 (proj2 (@append_then_replay demo_sha256 demo_sha256_spec Empty_set (list bytes) [] []
           JournalDemo.hello StateHash_ZERO JournalDemo.one (Ok JournalDemo.one_hash)
           ReplayMode.Inspect JournalDemo.collect [] JournalDemo.empty_journal eq_refl
           ltac:(vm_compute; reflexivity) Happ))).
Defined.

Lemma append_crash_recovery_witness :
  @replay_with demo_sha256 _ _ ReplayMode.RepairFinalPartial JournalDemo.collect [] JournalDemo.torn
  = ([], Ok (journal_summary [] [], [])).
Proof.
  assert (Happ : @append demo_sha256 [] JournalDemo.hello RecordHash_ZERO StateHash_ZERO (Some 120)
    = (JournalDemo.torn, Err JournalError.Io)) by (vm_compute; reflexivity).
  exact (proj1 (@append_crash_recovery demo_sha256 demo_sha256_spec Empty_set (list bytes) [] []
           JournalDemo.hello StateHash_ZERO 120 JournalDemo.torn (Err JournalError.Io)
           JournalDemo.collect [] [] JournalDemo.empty_journal eq_refl
           ltac:(vm_compute; reflexivity) Happ eq_refl eq_refl)).
Defined.

Lemma replay_accepts_journals_witness :
  ∃ frs, @journal_of demo_sha256 JournalDemo.two frs.
Proof.
  destruct (@replay_with demo_sha256 _ _ ReplayMode.Inspect JournalDemo.collect [] JournalDemo.two)
    as [file' [[s v]|e]] eqn:Hrep.
  - pose proof (@replay_accepts_journals demo_sha256 demo_sha256_spec _ _ _ _ _ _ _ _ _ Hrep)
      as (frs & Hj & _ & Hsame & _).
    exists frs. rewrite <- (Hsame eq_refl). exact Hj.
  - exfalso. apply (f_equal (λ x, is_ok x.2)) in Hrep. vm_compute in Hrep. discriminate Hrep.
Defined.

Lemma journal_tamper_evident_witness :
  JournalDemo.two = JournalDemo.two
  ∨ ∃ frs frs', @journal_of demo_sha256 JournalDemo.two frs
      ∧ @journal_of demo_sha256 JournalDemo.two frs' ∧ @record_clash demo_sha256 frs frs'.
Proof.
  destruct (@replay_with demo_sha256 _ _ ReplayMode.Inspect JournalDemo.collect [] JournalDemo.two)
    as [file' [[s v]|e]] eqn:Hrep.
  - assert (Hf : file' = JournalDemo.two).
    { apply (f_equal fst) in Hrep. cbn [fst] in Hrep. rewrite <- Hrep. vm_compute. reflexivity. }
    rewrite Hf in Hrep.
    exact (@journal_tamper_evident demo_sha256 demo_sha256_spec _ _ _ _ _ _ _ _ _ _ _ _ _ _ _ _
             Hrep Hrep eq_refl eq_refl).
  - exfalso. apply (f_equal (λ x, is_ok x.2)) in Hrep. vm_compute in Hrep. discriminate Hrep.
Defined.
