(* ===== verification/Events.v ===== *)
(** * The events of the mission store ([src/mission/store.rs], first part)

    What the journal records: the events, the keys and routes of replies to
    providers, and the validation every event passes when it is made, when it
    is committed and when it is replayed. *)

From S2P Require Export Attention Journal.

(** ** Errors *)

Module MissionStoreError.
Inductive MissionStoreError :=
| Io
| Json
| Journal (e : JournalError)
| WriterAlreadyActive
| WriterPoisoned
| NotRegularFile (path : string)
| InvalidStorePath (path : string)
| InvalidIdentifier (label : string)
| InvalidHash (label : string)
| InvalidText (label : string)
| RepositoryPathNotAbsolute
| WorktreePathNotAbsolute
| InvalidRevision
| RepositoryHashMismatch
| InvalidAcceptanceCriteria
| InvalidRelativePath
| UnsupportedVersion (version : N)
| CorruptJournalPayload (sequence : N)
| BrokenHashChain (sequence : N)
| JournalProjectionMismatch (sequence : N)
| NonContiguousSequence (expected actual : N)
| DuplicateJournalEventId (event_id : string)
| EventIdConflict (event_id : string)
| EventIndexCorrupt
| SequenceOverflow
| MissionAlreadyExists (mission_id : string)
| MissionNotFound (mission_id : string)
| RunAlreadyStarted
| RunAlreadyExists
| InvalidClosurePlan
| ClosureMissing
| ClosureAlreadyConfigured
| ClosureCannotBeChanged
| RunMissing
| RunMismatch
| HandoffSameProvider
| HandoffAttentionUnresolved
| AttentionNotFound (attention_id : string)
| InvalidResponseAttempt
| ResponseAttemptAlreadyExists
| ResponseAttemptNotFound
| InvalidResponseState
| ResponseRouteMismatch
| SealedAttentionState
| InvalidStatusTransition (from to : MissionStatus)
| SealedStatusRequiresProof
| ProofMissionMismatch
| InvalidProofReceipt
| StaleProofAuthority
| ProofFromFuture
| ReadyReceiptMissing
| ProofBasisChanged
| FreshArchiveProofRequired
| SnapshotAheadOfJournal (snapshot journal : N)
| SnapshotProjectionMismatch
| SnapshotHeadMismatch
| SnapshotOffsetMismatch
| SnapshotEventIndexMismatch
| JournalChangedDuringReplay
| SnapshotTooLarge (bytes limit : N)
| HeadTooLarge (bytes limit : N)
| HeadAheadOfJournal (head journal : N)
| HeadHashMismatch
| HandoffObservationUnstable
| HandoffHeadChanged
| UnsupportedHandoffFence
| SymlinkNotAllowed (path : string)
| WrongOwner (path : string)
| InsecurePermissions (path : string)
| UnsupportedPlatform (path : string).
#[export] Instance eq_dec : EqDecision MissionStoreError.
Proof. solve_decision. Defined.
End MissionStoreError.
Export (hints) MissionStoreError.
Abbreviation MissionStoreError := MissionStoreError.MissionStoreError.

(** ** Data *)

Record ResponseAttemptKey := mkResponseAttemptKey {
  rak_attention_id : string;
  rak_request_generation : N;
  rak_attempt : N;
}.
#[export] Instance ResponseAttemptKey_eq_dec : EqDecision ResponseAttemptKey.
Proof. solve_decision. Defined.

Record PersistedResponseRoute := mkPersistedResponseRoute {
  prt_provider : ProviderKind;
  prt_mission_run_id : string;
  prt_session_id : string;
  prt_pane_target : option PaneTarget;
  prt_provider_request_id : string;
}.
#[export] Instance PersistedResponseRoute_eq_dec : EqDecision PersistedResponseRoute.
Proof. solve_decision. Defined.

Module PersistedAttentionState.
Inductive PersistedAttentionState :=
| Open
| PendingResponse
| ReconciliationRequired
| Resolved
| Dismissed
| Expired.
#[export] Instance eq_dec : EqDecision PersistedAttentionState.
Proof. solve_decision. Defined.
End PersistedAttentionState.
Export (hints) PersistedAttentionState.
Abbreviation PersistedAttentionState := PersistedAttentionState.PersistedAttentionState.

Module Event.
Inductive PersistableMissionEvent :=
| MissionCreated (mission_id title repository_path repository_hash objective : string)
    (acceptance_criteria : list string) (at_millis : N)
| ClosureConfigured (mission_id : string) (declarations : list CheckDeclaration) (at_millis : N)
| RunStarted (mission_id run_id : string) (provider : ProviderKind) (mode : ProviderMode)
    (worktree_path base_revision : string)
    (execute_declared_checks execute_project_recipe : bool) (at_millis : N)
| RunContinued (mission_id source_run_id run_id : string) (provider : ProviderKind)
    (mode : ProviderMode) (worktree_path base_revision : string)
    (execute_declared_checks execute_project_recipe : bool) (handoff_artifact_sha256 : string)
    (at_millis : N)
| ProviderSessionBound (mission_id run_id provider_session_id : string) (at_millis : N)
| StatusChanged (mission_id : string) (status : MissionStatus) (at_millis : N)
| MissionReady (mission_id : string) (receipt : ProofReceipt) (actor_id reason_hash : string)
    (at_millis : N)
| MissionArchived (mission_id : string) (receipt : ProofReceipt)
    (ready_seal_digest actor_id reason_hash : string) (at_millis : N)
| WorktreeClaimed (mission_id relative_path : string) (at_millis : N)
| AttentionChanged (mission_id attention_id : string) (state : PersistedAttentionState)
    (risk : AttentionRisk) (at_millis : N)
| EvidenceChanged (mission_id check_id : string) (status : EvidenceStatus) (workspace_hash : string)
    (at_millis : N)
| EvidencePackRecorded (mission_id run_id pack_digest workspace_hash : string) (at_millis : N)
| ResponseRequested (mission_id : string) (key : ResponseAttemptKey) (route : PersistedResponseRoute)
    (decision : AttentionDecision) (actor_id : string) (at_millis : N)
| ResponseAcknowledged (mission_id : string) (key : ResponseAttemptKey)
    (acknowledgement_hash : option string) (at_millis : N)
| ResponseFailed (mission_id : string) (key : ResponseAttemptKey)
    (disposition : ResponseFailureDisposition) (code : ResponseFailureCode) (at_millis : N).
#[export] Instance eq_dec : EqDecision PersistableMissionEvent.
Proof. solve_decision. Defined.
End Event.
Export (hints) Event.
Abbreviation PersistableMissionEvent := Event.PersistableMissionEvent.

(** [From<&AttentionStatus> for PersistedAttentionState] *)
Definition persisted_attention_state (status : AttentionStatus) : PersistedAttentionState :=
  match status with
  | AttentionStatus.Open => PersistedAttentionState.Open
  | AttentionStatus.PendingResponse _ _ _ => PersistedAttentionState.PendingResponse
  | AttentionStatus.ReconciliationRequired _ _ _ _ => PersistedAttentionState.ReconciliationRequired
  | AttentionStatus.Resolved _ _ _ => PersistedAttentionState.Resolved
  | AttentionStatus.Dismissed _ _ _ => PersistedAttentionState.Dismissed
  | AttentionStatus.Expired _ => PersistedAttentionState.Expired
  end.

(** ** Validation *)

(** [validate_id] *)
Definition validate_id (label value : string) : result MissionStoreError unit :=
  reject_if (str_is_empty value
             || (128 <? str_len value)%N
             || negb (forallb (λ b, is_ascii_alphanumeric b
                                    || existsb (λ c, bool_decide (c = b)) (str_bytes "-_.:"))
                        (str_bytes value)))
    (MissionStoreError.InvalidIdentifier label).

(** [validate_mission_id] *)
Definition validate_mission_id (value : string) : result MissionStoreError unit :=
  validate_id "mission id" value.

(** [validate_hash] *)
Definition validate_hash (label value : string) : result MissionStoreError unit :=
  reject_if (negb (str_len value =? 64)%N || negb (forallb is_ascii_hexdigit (str_bytes value)))
    (MissionStoreError.InvalidHash label).

(** [validate_revision] *)
Definition validate_revision (value : string) : result MissionStoreError unit :=
  reject_if (negb ((40 <=? str_len value) && (str_len value <=? 64))%N
             || negb (forallb is_ascii_hexdigit (str_bytes value)))
    MissionStoreError.InvalidRevision.

(** [validate_text] *)
Definition validate_text (label value : string) (minimum_bytes maximum_bytes : N) :
    result MissionStoreError unit :=
  reject_if ((trim_len value <? minimum_bytes)%N
             || (maximum_bytes <? str_len value)%N
             || existsb (λ c, is_control c && negb (is_newline_or_tab c)) (chars value))
    (MissionStoreError.InvalidText label).

(** [validate_proof_receipt] *)
Definition validate_proof_receipt (receipt : ProofReceipt) : result MissionStoreError unit :=
  _ ← validate_hash "proof subject" (pr_subject_digest receipt);
  _ ← validate_hash "proof seal" (pr_seal_digest receipt);
  _ ← validate_hash "proof authority head" (pr_authority_head_digest receipt);
  _ ← validate_hash "proof worktree lease" (pr_lease_digest receipt);
  reject_if (pr_authority_sequence receipt =? 0)%N MissionStoreError.InvalidProofReceipt.

(** [validate_opaque_id] *)
Definition validate_opaque_id (label value : string) : result MissionStoreError unit :=
  reject_if (str_is_empty value
             || (256 <? str_len value)%N
             || existsb is_control (chars value)
             || negb (is_ascii value))
    (MissionStoreError.InvalidIdentifier label).

(** [validate_relative_path]; a Unix path has no [Component::Prefix] *)
Definition validate_relative_path (value : string) : result MissionStoreError unit :=
  reject_if (str_is_empty value || path_is_absolute value || path_has_parent_dir value)
    MissionStoreError.InvalidRelativePath.

(** [ResponseAttemptKey::validate] *)
Definition key_validate (key : ResponseAttemptKey) : result MissionStoreError unit :=
  _ ← validate_id "attention id" (rak_attention_id key);
  reject_if ((rak_request_generation key =? 0) || (rak_attempt key =? 0))%N
    MissionStoreError.InvalidResponseAttempt.

(** [ResponseAttemptKey::new] *)
Definition ResponseAttemptKey_new (attention_id : string) (request_generation attempt : N) :
    result MissionStoreError ResponseAttemptKey :=
  let key := mkResponseAttemptKey attention_id request_generation attempt in
  _ ← key_validate key;
  Ok key.

(** [PersistedResponseRoute::new], [PersistedResponseRoute::managed] *)
Definition PersistedResponseRoute_new (provider : ProviderKind) (mission_run_id session_id : string)
    (pane_target : PaneTarget) (provider_request_id : string) : PersistedResponseRoute :=
  mkPersistedResponseRoute provider mission_run_id session_id (Some pane_target) provider_request_id.
Definition PersistedResponseRoute_managed (provider : ProviderKind)
    (mission_run_id session_id provider_request_id : string) : PersistedResponseRoute :=
  mkPersistedResponseRoute provider mission_run_id session_id None provider_request_id.

(** [PersistedResponseRoute::validate] *)
Definition route_validate (route : PersistedResponseRoute) : result MissionStoreError unit :=
  _ ← validate_id "mission run id" (prt_mission_run_id route);
  _ ← validate_opaque_id "provider session id" (prt_session_id route);
  _ ← match prt_pane_target route with
      | Some pane_target =>
          _ ← validate_id "workspace id" (pt_workspace pane_target);
          validate_id "pane id" (pt_pane pane_target)
      | None => Ok tt
      end;
  validate_opaque_id "provider request id" (prt_provider_request_id route).

(** The mission an event is about: the first match of [validate] *)
Definition event_mission_id (e : PersistableMissionEvent) : string :=
  match e with
  | Event.MissionCreated mission_id _ _ _ _ _ _
  | Event.ClosureConfigured mission_id _ _
  | Event.RunStarted mission_id _ _ _ _ _ _ _ _
  | Event.RunContinued mission_id _ _ _ _ _ _ _ _ _ _
  | Event.ProviderSessionBound mission_id _ _ _
  | Event.StatusChanged mission_id _ _
  | Event.MissionReady mission_id _ _ _ _
  | Event.MissionArchived mission_id _ _ _ _ _
  | Event.WorktreeClaimed mission_id _ _
  | Event.AttentionChanged mission_id _ _ _ _
  | Event.EvidenceChanged mission_id _ _ _ _
  | Event.EvidencePackRecorded mission_id _ _ _ _
  | Event.ResponseRequested mission_id _ _ _ _ _
  | Event.ResponseAcknowledged mission_id _ _ _
  | Event.ResponseFailed mission_id _ _ _ _ => mission_id
  end.

(** [PersistableMissionEvent::proof_lease_digest] *)
Definition proof_lease_digest (e : PersistableMissionEvent) : option string :=
  match e with
  | Event.MissionReady _ receipt _ _ _ | Event.MissionArchived _ receipt _ _ _ _ =>
      Some (pr_lease_digest receipt)
  | _ => None
  end.

Section events.
Context {HSha : Sha256}.

(** [repository_path_hash] *)
Definition repository_path_hash (repository_path : string) : string :=
  digest_new "mission-repository-path-v1" |>> digest_string repository_path |>> digest_finish.

(** [ResponseAttemptKey::digest] *)
Definition key_digest (key : ResponseAttemptKey) : string :=
  digest_new "persisted-response-attempt-v1"
  |>> digest_string (rak_attention_id key)
  |>> digest_u64 (rak_request_generation key)
  |>> digest_u64 (rak_attempt key)
  |>> digest_finish.

(** [PersistableMissionEvent::validate] *)
Definition event_validate (e : PersistableMissionEvent) : result MissionStoreError unit :=
  _ ← validate_id "mission id" (event_mission_id e);
  match e with
  | Event.MissionCreated _ title repository_path repository_hash objective acceptance_criteria _ =>
      _ ← validate_text "mission title" title 1 256;
      _ ← validate_text "mission repository path" repository_path 1 (4 * 1024);
      _ ← reject_if (negb (path_is_absolute repository_path))
            MissionStoreError.RepositoryPathNotAbsolute;
      _ ← reject_if (negb (bool_decide (repository_hash = repository_path_hash repository_path)))
            MissionStoreError.RepositoryHashMismatch;
      _ ← validate_text "mission objective" objective 1 (8 * 1024);
      _ ← reject_if (bool_decide (acceptance_criteria = [])
                     || (16 <? vec_len acceptance_criteria)%N)
            MissionStoreError.InvalidAcceptanceCriteria;
      try_iter (λ criterion, validate_text "acceptance criterion" criterion 1 1024)
        acceptance_criteria
  | Event.RunStarted _ run_id _ _ worktree_path base_revision _ _ _ =>
      _ ← validate_id "mission run id" run_id;
      _ ← validate_text "mission worktree path" worktree_path 1 (4 * 1024);
      _ ← reject_if (negb (path_is_absolute worktree_path)) MissionStoreError.WorktreePathNotAbsolute;
      validate_revision base_revision
  | Event.RunContinued _ source_run_id run_id _ _ worktree_path base_revision _ _
      handoff_artifact_sha256 _ =>
      _ ← validate_id "source mission run id" source_run_id;
      _ ← validate_id "mission run id" run_id;
      _ ← validate_text "mission worktree path" worktree_path 1 (4 * 1024);
      _ ← reject_if (negb (path_is_absolute worktree_path)) MissionStoreError.WorktreePathNotAbsolute;
      _ ← validate_revision base_revision;
      validate_hash "handoff artifact sha256" handoff_artifact_sha256
  | Event.ClosureConfigured _ declarations _ =>
      _ ← reject_if (bool_decide (declarations = []) || (32 <? vec_len declarations)%N)
            MissionStoreError.InvalidClosurePlan;
      try_iter (λ declaration,
        map_err (λ _, MissionStoreError.InvalidClosurePlan) (validate_persisted declaration))
        declarations
  | Event.ProviderSessionBound _ run_id provider_session_id _ =>
      _ ← validate_id "mission run id" run_id;
      validate_opaque_id "provider session id" provider_session_id
  | Event.WorktreeClaimed _ relative_path _ => validate_relative_path relative_path
  | Event.AttentionChanged _ attention_id _ _ _ => validate_id "attention id" attention_id
  | Event.EvidenceChanged _ check_id _ workspace_hash _ =>
      _ ← validate_id "check id" check_id;
      validate_hash "workspace hash" workspace_hash
  | Event.EvidencePackRecorded _ run_id pack_digest workspace_hash _ =>
      _ ← validate_id "mission run id" run_id;
      _ ← validate_hash "evidence pack digest" pack_digest;
      validate_hash "workspace hash" workspace_hash
  | Event.StatusChanged _ _ _ => Ok tt
  | Event.MissionReady _ receipt actor_id reason_hash _ =>
      _ ← validate_proof_receipt receipt;
      _ ← validate_id "proof actor id" actor_id;
      validate_hash "proof reason hash" reason_hash
  | Event.MissionArchived _ receipt ready_seal_digest actor_id reason_hash _ =>
      _ ← validate_proof_receipt receipt;
      _ ← validate_hash "ready proof seal" ready_seal_digest;
      _ ← validate_id "proof actor id" actor_id;
      validate_hash "proof reason hash" reason_hash
  | Event.ResponseRequested _ key route _ actor_id _ =>
      _ ← key_validate key;
      _ ← route_validate route;
      validate_id "response actor id" actor_id
  | Event.ResponseAcknowledged _ key acknowledgement_hash _ =>
      _ ← key_validate key;
      match acknowledgement_hash with
      | Some hash => validate_hash "provider acknowledgement hash" hash
      | None => Ok tt
      end
  | Event.ResponseFailed _ key _ _ _ => key_validate key
  end.

(** ** Constructors *)

(** [event.validate()?; Ok(event)] *)
Definition validated (e : PersistableMissionEvent) : result MissionStoreError PersistableMissionEvent :=
  _ ← event_validate e;
  Ok e.

(** [PersistableMissionEvent::mission_created] *)
Definition mission_created (mission_id title repository_path objective : string)
    (acceptance_criteria : list string) (at_millis : N) :
    result MissionStoreError PersistableMissionEvent :=
  validated (Event.MissionCreated mission_id title repository_path
               (repository_path_hash repository_path) objective acceptance_criteria at_millis).

(** [PersistableMissionEvent::run_started_with_check_execution] *)
Definition run_started_with_check_execution (mission_id run_id : string) (provider : ProviderKind)
    (mode : ProviderMode) (worktree_path base_revision : string)
    (execute_declared_checks execute_project_recipe : bool) (at_millis : N) :
    result MissionStoreError PersistableMissionEvent :=
  validated (Event.RunStarted mission_id run_id provider mode worktree_path base_revision
               execute_declared_checks execute_project_recipe at_millis).

(** [PersistableMissionEvent::run_continued] *)
Definition run_continued (mission_id source_run_id run_id : string) (provider : ProviderKind)
    (mode : ProviderMode) (worktree_path base_revision : string)
    (execute_declared_checks execute_project_recipe : bool) (handoff_artifact_sha256 : string)
    (at_millis : N) : result MissionStoreError PersistableMissionEvent :=
  validated (Event.RunContinued mission_id source_run_id run_id provider mode worktree_path
               base_revision execute_declared_checks execute_project_recipe
               handoff_artifact_sha256 at_millis).

(** [PersistableMissionEvent::closure_configured] *)
Definition closure_configured (mission_id : string) (declarations : list CheckDeclaration)
    (at_millis : N) : result MissionStoreError PersistableMissionEvent :=
  validated (Event.ClosureConfigured mission_id declarations at_millis).

(** [PersistableMissionEvent::provider_session_bound] *)
Definition provider_session_bound (mission_id run_id provider_session_id : string) (at_millis : N) :
    result MissionStoreError PersistableMissionEvent :=
  validated (Event.ProviderSessionBound mission_id run_id provider_session_id at_millis).

(** [PersistableMissionEvent::mission_ready] *)
Definition mission_ready (mission_id : string) (proof : ReadyProof) (actor_id reason_hash : string)
    (at_millis : N) : result MissionStoreError PersistableMissionEvent :=
  let '(proof_mission_id, receipt) := ready_into_receipt proof in
  _ ← reject_if (negb (bool_decide (proof_mission_id = mission_id)))
        MissionStoreError.ProofMissionMismatch;
  validated (Event.MissionReady mission_id receipt actor_id reason_hash at_millis).

(** [PersistableMissionEvent::mission_archived] *)
Definition mission_archived (mission_id : string) (proof : ArchiveProof)
    (actor_id reason_hash : string) (at_millis : N) :
    result MissionStoreError PersistableMissionEvent :=
  let '(proof_mission_id, ready_seal_digest, receipt) := archive_into_receipt proof in
  _ ← reject_if (negb (bool_decide (proof_mission_id = mission_id)))
        MissionStoreError.ProofMissionMismatch;
  validated (Event.MissionArchived mission_id receipt ready_seal_digest actor_id reason_hash
               at_millis).
End events.

(** ** Theorems *)

(** A valid identifier is visible text. *)
Lemma valid_id_not_blank label value : validate_id label value = Ok tt → trim_is_empty value = false.
Proof.
  unfold validate_id. intros [[Hne _]%orb_false_iff Hall]%reject_if_ok%orb_false_iff.
  apply negb_false_iff in Hall. destruct value as [|c value]; [done|].
  cbn [str_bytes String.list_ascii_of_string forallb] in Hall. apply andb_true_iff in Hall as [Hc _].
  apply trim_not_empty; destruct c as [[] [] [] [] [] [] [] []]; first [done|discriminate Hc].
Qed.

Lemma valid_text_not_blank label value hi :
  validate_text label value 1 hi = Ok tt → trim_is_empty value = false.
Proof.
  unfold validate_text. intros [[Hlen _]%orb_false_iff _]%reject_if_ok%orb_false_iff.
  apply N.ltb_ge in Hlen. apply bool_decide_eq_false. intros Ht%trim_len_zero. lia.
Qed.

Section theorems.
Context {HSha : Sha256}.

(** What [key_digest] hashes *)
Definition key_fields (key : ResponseAttemptKey) : list bytes :=
  [str_bytes (rak_attention_id key); be_bytes 8 (rak_request_generation key);
   be_bytes 8 (rak_attempt key)].
Definition key_text (key : ResponseAttemptKey) : bytes :=
  hasher_input (digest_fields (digest_new "persisted-response-attempt-v1") (key_fields key)).

(** A digest names one reply: two keys with one digest are the same
    attention item, request generation and attempt, or their texts have one
    SHA-256, so the map of replies by digest confuses no two of them. *)
Theorem key_digest_injective key key' :
  fits_u64 (str_bytes (rak_attention_id key)) → fits_u64 (str_bytes (rak_attention_id key')) →
  (rak_request_generation key < 2 ^ 64)%N → (rak_request_generation key' < 2 ^ 64)%N →
  (rak_attempt key < 2 ^ 64)%N → (rak_attempt key' < 2 ^ 64)%N →
  key_digest key = key_digest key' → key = key' ∨ clashes (key_text key) (key_text key').
Proof.
  intros Hf Hf' Hg Hg' Ha Ha' Heq.
  assert (Hfit : ∀ k, fits_u64 (str_bytes (rak_attention_id k)) → Forall fits_u64 (key_fields k)).
  { intros k Hk. repeat constructor; [done|..]; unfold fits_u64; by rewrite length_be_bytes. }
  destruct (digest_finish_fields_inj (digest_new "persisted-response-attempt-v1") (key_fields key)
              (key_fields key') (Hfit _ Hf) (Hfit _ Hf') Heq) as [Heq'|?]; [left|by right].
  pose proof (str_bytes_inj _ _ (f_equal (λ l, nth 0 l []) Heq')) as Hid.
  pose proof (be_bytes_inj 8 _ _ Hg Hg' (f_equal (λ l, nth 1 l []) Heq')) as Hgen.
  pose proof (be_bytes_inj 8 _ _ Ha Ha' (f_equal (λ l, nth 2 l []) Heq')) as Hatt.
  destruct key, key'. cbn in *. by subst.
Qed.

(** The journal accepts runs that can never be proved.  An accepted base
    revision has between 40 and 64 hexadecimal digits, but the proof's
    identity, made of the very mission and run recorded, exists only for 40 or
    64 of them. *)
Theorem recorded_run_identity id title repo hash objective criteria at_ run provider mode worktree
    base checks recipe at_' :
  event_validate (Event.MissionCreated id title repo hash objective criteria at_) = Ok tt →
  event_validate (Event.RunStarted id run provider mode worktree base checks recipe at_') = Ok tt →
  (40 ≤ str_len base ≤ 64)%N
  ∧ ProofIdentity_new id run repo worktree base
    = if bool_decide (str_len base = 40 ∨ str_len base = 64)%N
      then Ok (mkProofIdentity id run repo worktree base) else Err ProofError.InvalidBaseRevision.
Proof.
  unfold event_validate. cbn [event_mission_id]. intros Hc Hr.
  apply bind_ok in Hc as ([] & Hid & Hc). apply bind_ok in Hc as ([] & _ & Hc).
  apply bind_ok in Hc as ([] & Hrepo & _).
  apply bind_ok in Hr as ([] & _ & Hr). apply bind_ok in Hr as ([] & Hrun & Hr).
  apply bind_ok in Hr as ([] & Htree & Hr). apply bind_ok in Hr as ([] & _ & Hrev).
  apply reject_if_ok, orb_false_iff in Hrev as [Hlen%negb_false_iff Hhex].
  apply andb_true_iff in Hlen as [?%N.leb_le ?%N.leb_le]. split; [done|].
  unfold ProofIdentity_new. cbn [existsb].
  rewrite (valid_id_not_blank _ _ Hid), (valid_id_not_blank _ _ Hrun),
    (valid_text_not_blank _ _ _ Hrepo), (valid_text_not_blank _ _ _ Htree), Hhex.
  cbn [orb reject_if mbind result_bind]. rewrite orb_false_r.
  destruct (N.eqb_spec (str_len base) 40), (N.eqb_spec (str_len base) 64); cbn [orb negb];
    first [by rewrite bool_decide_true by tauto|by rewrite bool_decide_false by tauto].
Qed.
End theorems.

(** ** Witnesses *)

Lemma key_digest_injective_witness :
  mkResponseAttemptKey "a" 1 1 = mkResponseAttemptKey "a" 1 1
  ∨ @clashes demo_sha256 (key_text (mkResponseAttemptKey "a" 1 1))
      (key_text (mkResponseAttemptKey "a" 1 1)).
Proof.
  apply (@key_digest_injective demo_sha256 (mkResponseAttemptKey "a" 1 1)
           (mkResponseAttemptKey "a" 1 1)); reflexivity.
Defined.

Lemma recorded_run_identity_witness :
  ProofIdentity_new "m" "r" "/repo" "/tree" "01234567890123456789012345678901234567890123456789"
  = Err ProofError.InvalidBaseRevision.
Proof.
  rewrite (proj2 (@recorded_run_identity demo_sha256 "m" "T" "/repo"
    (@repository_path_hash demo_sha256 "/repo") "O" ["works"] 1 "r" ProviderKind.Codex
    ProviderMode.Managed "/tree" "01234567890123456789012345678901234567890123456789" true false 2
    ltac:(vm_compute; reflexivity) ltac:(vm_compute; reflexivity))).
  vm_compute. reflexivity.
Defined.
