(* ===== verification/Projection.v ===== *)
(** * The mission projection ([src/mission/store.rs], [MissionProjection])

    The state the journal's events add up to.  [apply] is one handler per
    event; a handler that refuses an event leaves no trace, because commit
    applies it to a copy and replay stops. *)

From S2P Require Export Events.

(** ** Data *)

Record PersistedAttention := mkPersistedAttention {
  pa_state : PersistedAttentionState;
  pa_risk : AttentionRisk;
  pa_updated_at_millis : N;
}.
#[export] Instance PersistedAttention_eq_dec : EqDecision PersistedAttention.
Proof. solve_decision. Defined.

Record PersistedEvidence := mkPersistedEvidence {
  pe_status : EvidenceStatus;
  pe_workspace_hash : string;
  pe_updated_at_millis : N;
}.
#[export] Instance PersistedEvidence_eq_dec : EqDecision PersistedEvidence.
Proof. solve_decision. Defined.

Record PersistedEvidencePack := mkPersistedEvidencePack {
  pep_run_id : string;
  pep_pack_digest : string;
  pep_workspace_hash : string;
  pep_recorded_at_millis : N;
}.
#[export] Instance PersistedEvidencePack_eq_dec : EqDecision PersistedEvidencePack.
Proof. solve_decision. Defined.

Module PersistedResponseState.
Inductive PersistedResponseState :=
| Requested
| Acknowledged (acknowledgement_hash : option string)
| Failed (code : ResponseFailureCode)
| ReconciliationRequired (code : ResponseFailureCode).
#[export] Instance eq_dec : EqDecision PersistedResponseState.
Proof. solve_decision. Defined.
End PersistedResponseState.
Export (hints) PersistedResponseState.
Abbreviation PersistedResponseState := PersistedResponseState.PersistedResponseState.

Record PersistedResponseAttempt := mkPersistedResponseAttempt {
  pra_key : ResponseAttemptKey;
  pra_route : PersistedResponseRoute;
  pra_response_decision : AttentionDecision;
  pra_actor_id : string;
  pra_state : PersistedResponseState;
  pra_updated_at_millis : N;
}.
#[export] Instance PersistedResponseAttempt_eq_dec : EqDecision PersistedResponseAttempt.
Proof. solve_decision. Defined.
#[export] Instance PersistedResponseAttempt_fields : Fields PersistedResponseAttempt := λ r,
  mkPersistedResponseAttempt (pra_key r) (pra_route r) (pra_response_decision r) (pra_actor_id r)
    (pra_state r) (pra_updated_at_millis r).

Record PersistedRun := mkPersistedRun {
  run_id : string;
  run_provider : ProviderKind;
  run_mode : ProviderMode;
  run_worktree_path : string;
  run_base_revision : string;
  run_execute_declared_checks : bool;
  run_execute_project_recipe : bool;
  run_handoff_from_run_id : option string;
  run_handoff_artifact_sha256 : option string;
  run_provider_session_id : option string;
}.
#[export] Instance PersistedRun_eq_dec : EqDecision PersistedRun.
Proof. solve_decision. Defined.
#[export] Instance PersistedRun_fields : Fields PersistedRun := λ r,
  mkPersistedRun (run_id r) (run_provider r) (run_mode r) (run_worktree_path r)
    (run_base_revision r) (run_execute_declared_checks r) (run_execute_project_recipe r)
    (run_handoff_from_run_id r) (run_handoff_artifact_sha256 r) (run_provider_session_id r).

Record PersistedMission := mkPersistedMission {
  pm_title : string;
  pm_repository_path : string;
  pm_repository_hash : string;
  pm_objective : string;
  pm_acceptance_criteria : list string;
  pm_check_declarations : list CheckDeclaration;
  pm_status : MissionStatus;
  pm_run : option PersistedRun;
  pm_run_history : list PersistedRun;
  pm_worktree_relative_path : option string;
  pm_attention : gmap string PersistedAttention;
  pm_evidence : gmap string PersistedEvidence;
  pm_latest_evidence_pack : option PersistedEvidencePack;
  pm_responses : gmap string PersistedResponseAttempt;
  pm_ready_receipt : option ProofReceipt;
  pm_archive_receipt : option ProofReceipt;
  pm_updated_at_millis : N;
}.
#[export] Instance PersistedMission_eq_dec : EqDecision PersistedMission.
Proof. solve_decision. Defined.
#[export] Instance PersistedMission_fields : Fields PersistedMission := λ m,
  mkPersistedMission (pm_title m) (pm_repository_path m) (pm_repository_hash m) (pm_objective m)
    (pm_acceptance_criteria m) (pm_check_declarations m) (pm_status m) (pm_run m)
    (pm_run_history m) (pm_worktree_relative_path m) (pm_attention m) (pm_evidence m)
    (pm_latest_evidence_pack m) (pm_responses m) (pm_ready_receipt m) (pm_archive_receipt m)
    (pm_updated_at_millis m).

Record MissionProjection := mkMissionProjection { missions : gmap string PersistedMission }.
#[export] Instance MissionProjection_eq_dec : EqDecision MissionProjection.
Proof. solve_decision. Defined.

(** [MissionProjection::default] *)
Definition MissionProjection_default : MissionProjection := mkMissionProjection ∅.

(** ** Handlers

    Each takes the mission the event names, after [mission_mut]. *)

(** [*at_millis.max(mission.updated_at_millis)] *)
Definition logical_at (m : PersistedMission) (at_millis : N) : N :=
  N.max at_millis (pm_updated_at_millis m).

(** [matches!(state, Open | PendingResponse | ReconciliationRequired)] *)
Definition attention_unresolved (s : PersistedAttentionState) : bool :=
  match s with
  | PersistedAttentionState.Open | PersistedAttentionState.PendingResponse
  | PersistedAttentionState.ReconciliationRequired => true
  | _ => false
  end.

(** [MissionCreated] *)
Definition new_mission (title repository_path repository_hash objective : string)
    (acceptance_criteria : list string) (at_millis : N) : PersistedMission :=
  {| pm_title := title;
     pm_repository_path := repository_path;
     pm_repository_hash := repository_hash;
     pm_objective := objective;
     pm_acceptance_criteria := acceptance_criteria;
     pm_check_declarations := [];
     pm_status := MissionStatus.Draft;
     pm_run := None;
     pm_run_history := [];
     pm_worktree_relative_path := None;
     pm_attention := ∅;
     pm_evidence := ∅;
     pm_latest_evidence_pack := None;
     pm_responses := ∅;
     pm_ready_receipt := None;
     pm_archive_receipt := None;
     pm_updated_at_millis := at_millis |}.

(** [RunStarted] *)
Definition apply_run_started (m : PersistedMission) (run : string) (provider : ProviderKind)
    (mode : ProviderMode) (worktree_path base_revision : string)
    (execute_declared_checks execute_project_recipe : bool) (at_millis : N) :
    result MissionStoreError PersistedMission :=
  let logical := logical_at m at_millis in
  _ ← reject_if (negb (bool_decide (pm_status m = MissionStatus.Draft))
                 || bool_decide (is_Some (pm_run m))) MissionStoreError.RunAlreadyStarted;
  _ ← reject_if (bool_decide (pm_check_declarations m = [])) MissionStoreError.ClosureMissing;
  Ok (m <| pm_run := Some {| run_id := run;
                             run_provider := provider;
                             run_mode := mode;
                             run_worktree_path := worktree_path;
                             run_base_revision := base_revision;
                             run_execute_declared_checks := execute_declared_checks;
                             run_execute_project_recipe := execute_project_recipe;
                             run_handoff_from_run_id := None;
                             run_handoff_artifact_sha256 := None;
                             run_provider_session_id := None |} |>
        <| pm_status := MissionStatus.Preparing |>
        <| pm_updated_at_millis := logical |>).

(** [RunContinued] *)
Definition apply_run_continued (m : PersistedMission) (source_run_id run : string)
    (provider : ProviderKind) (mode : ProviderMode) (worktree_path base_revision : string)
    (execute_declared_checks execute_project_recipe : bool) (handoff_artifact_sha256 : string)
    (at_millis : N) : result MissionStoreError PersistedMission :=
  let logical := logical_at m at_millis in
  _ ← reject_if (match pm_status m with
                 | MissionStatus.Blocked | MissionStatus.Failed | MissionStatus.ReviewRequired
                 | MissionStatus.ReadyToClose => false
                 | _ => true
                 end)
        (MissionStoreError.InvalidStatusTransition (pm_status m) MissionStatus.Preparing);
  _ ← reject_if (existsb (λ a, attention_unresolved (pa_state a)) (str_values (pm_attention m)))
        MissionStoreError.HandoffAttentionUnresolved;
  source ← ok_or (pm_run m) MissionStoreError.RunMissing;
  _ ← reject_if (negb (bool_decide (run_id source = source_run_id))
                 || negb (bool_decide (run_worktree_path source = worktree_path))
                 || negb (bool_decide (run_base_revision source = base_revision))
                 || negb (bool_decide (run_execute_declared_checks source = execute_declared_checks))
                 || negb (bool_decide (run_execute_project_recipe source = execute_project_recipe)))
        MissionStoreError.RunMismatch;
  _ ← reject_if (bool_decide (run_provider source = provider)) MissionStoreError.HandoffSameProvider;
  _ ← reject_if (bool_decide (run_id source = run)
                 || existsb (λ previous, bool_decide (run_id previous = run)) (pm_run_history m))
        MissionStoreError.RunAlreadyExists;
  Ok (m <| pm_run_history ::= λ h, h ++ [source] |>
        <| pm_run := Some {| run_id := run;
                             run_provider := provider;
                             run_mode := mode;
                             run_worktree_path := worktree_path;
                             run_base_revision := base_revision;
                             run_execute_declared_checks := execute_declared_checks;
                             run_execute_project_recipe := execute_project_recipe;
                             run_handoff_from_run_id := Some source_run_id;
                             run_handoff_artifact_sha256 := Some handoff_artifact_sha256;
                             run_provider_session_id := None |} |>
        <| pm_evidence ::= fmap (λ e, mkPersistedEvidence EvidenceStatus.Stale
                                        (pe_workspace_hash e) logical) |>
        <| pm_latest_evidence_pack := None |>
        <| pm_ready_receipt := None |>
        <| pm_archive_receipt := None |>
        <| pm_status := MissionStatus.Preparing |>
        <| pm_updated_at_millis := logical |>).

(** [ProviderSessionBound] *)
Definition apply_provider_session_bound (m : PersistedMission) (run provider_session_id : string)
    (at_millis : N) : result MissionStoreError PersistedMission :=
  let logical := logical_at m at_millis in
  _ ← reject_if (negb (bool_decide (pm_status m = MissionStatus.Preparing)))
        (MissionStoreError.InvalidStatusTransition (pm_status m) MissionStatus.Active);
  r ← ok_or (pm_run m) MissionStoreError.RunMissing;
  _ ← reject_if (negb (bool_decide (run_id r = run))) MissionStoreError.RunMismatch;
  Ok (m <| pm_run := Some (r <| run_provider_session_id := Some provider_session_id |>) |>
        <| pm_status := MissionStatus.Active |>
        <| pm_updated_at_millis := logical |>).

(** [StatusChanged] *)
Definition apply_status_changed (m : PersistedMission) (status : MissionStatus) (at_millis : N) :
    result MissionStoreError PersistedMission :=
  let logical := logical_at m at_millis in
  _ ← reject_if (bool_decide (status = MissionStatus.ReadyToClose)
                 || bool_decide (status = MissionStatus.Archived))
        MissionStoreError.SealedStatusRequiresProof;
  _ ← reject_if (negb (can_persist_from status (pm_status m)))
        (MissionStoreError.InvalidStatusTransition (pm_status m) status);
  Ok (m <| pm_status := status |> <| pm_updated_at_millis := logical |>).

(** [MissionReady] *)
Definition apply_mission_ready (m : PersistedMission) (receipt : ProofReceipt) (at_millis : N) :
    result MissionStoreError PersistedMission :=
  let logical := logical_at m at_millis in
  _ ← reject_if (negb (bool_decide (pm_status m = MissionStatus.ReviewRequired)))
        (MissionStoreError.InvalidStatusTransition (pm_status m) MissionStatus.ReadyToClose);
  _ ← reject_if (logical <? pr_verified_at_millis receipt)%N MissionStoreError.ProofFromFuture;
  Ok (m <| pm_status := MissionStatus.ReadyToClose |>
        <| pm_ready_receipt := Some receipt |>
        <| pm_archive_receipt := None |>
        <| pm_updated_at_millis := logical |>).

(** [MissionArchived] *)
Definition apply_mission_archived (m : PersistedMission) (receipt : ProofReceipt)
    (ready_seal_digest : string) (at_millis : N) : result MissionStoreError PersistedMission :=
  let logical := logical_at m at_millis in
  _ ← reject_if (negb (bool_decide (pm_status m = MissionStatus.ReadyToClose)))
        (MissionStoreError.InvalidStatusTransition (pm_status m) MissionStatus.Archived);
  ready ← ok_or (pm_ready_receipt m) MissionStoreError.ReadyReceiptMissing;
  _ ← reject_if (negb (bool_decide (pr_seal_digest ready = ready_seal_digest))
                 || negb (bool_decide (pr_subject_digest ready = pr_subject_digest receipt)))
        MissionStoreError.ProofBasisChanged;
  _ ← reject_if ((pr_authority_sequence receipt <=? pr_authority_sequence ready)
                 || (pr_verified_at_millis receipt <? pr_verified_at_millis ready)
                 || (logical <? pr_verified_at_millis receipt))%N
        MissionStoreError.FreshArchiveProofRequired;
  Ok (m <| pm_status := MissionStatus.Archived |>
        <| pm_archive_receipt := Some receipt |>
        <| pm_updated_at_millis := logical |>).

(** [WorktreeClaimed] *)
Definition apply_worktree_claimed (m : PersistedMission) (relative_path : string) (at_millis : N) :
    result MissionStoreError PersistedMission :=
  let logical := logical_at m at_millis in
  Ok (m <| pm_worktree_relative_path := Some relative_path |> <| pm_updated_at_millis := logical |>).

(** [AttentionChanged] *)
Definition apply_attention_changed (m : PersistedMission) (attention_id : string)
    (state : PersistedAttentionState) (risk : AttentionRisk) (at_millis : N) :
    result MissionStoreError PersistedMission :=
  let logical := logical_at m at_millis in
  attention ← match pm_attention m !! attention_id, state with
    | None, PersistedAttentionState.Open =>
        Ok (<[attention_id := mkPersistedAttention state risk logical]> (pm_attention m))
    | Some attention, PersistedAttentionState.Expired =>
        if bool_decide (pa_state attention = PersistedAttentionState.Open)
           && bool_decide (pa_risk attention = risk)
        then Ok (<[attention_id := mkPersistedAttention PersistedAttentionState.Expired
                                     (pa_risk attention) logical]> (pm_attention m))
        else Err MissionStoreError.SealedAttentionState
    | _, _ => Err MissionStoreError.SealedAttentionState
    end;
  Ok (m <| pm_attention := attention |> <| pm_updated_at_millis := logical |>).

(** [EvidenceChanged] *)
Definition apply_evidence_changed (m : PersistedMission) (check_id : string)
    (status : EvidenceStatus) (workspace_hash : string) (at_millis : N) :
    result MissionStoreError PersistedMission :=
  let logical := logical_at m at_millis in
  Ok (m <| pm_evidence ::= <[check_id := mkPersistedEvidence status workspace_hash logical]> |>
        <| pm_updated_at_millis := logical |>).

(** [EvidencePackRecorded] *)
Definition apply_evidence_pack_recorded (m : PersistedMission)
    (run pack_digest workspace_hash : string) (at_millis : N) :
    result MissionStoreError PersistedMission :=
  let logical := logical_at m at_millis in
  r ← ok_or (pm_run m) MissionStoreError.RunMissing;
  _ ← reject_if (negb (bool_decide (run_id r = run))) MissionStoreError.RunMismatch;
  _ ← reject_if (negb (bool_decide (pm_status m = MissionStatus.ReviewRequired)
                       || bool_decide (pm_status m = MissionStatus.ReadyToClose)))
        (MissionStoreError.InvalidStatusTransition (pm_status m) MissionStatus.ReviewRequired);
  Ok (m <| pm_latest_evidence_pack :=
             Some (mkPersistedEvidencePack run pack_digest workspace_hash logical) |>
        <| pm_updated_at_millis := logical |>).

(** [PersistedResponseRoute::validate_for_run] *)
Definition validate_for_run (route : PersistedResponseRoute) (r : PersistedRun) :
    result MissionStoreError unit :=
  let mode_matches_route :=
    match run_mode r with
    | ProviderMode.Managed => bool_decide (prt_pane_target route = None)
    | ProviderMode.Passthrough => bool_decide (is_Some (prt_pane_target route))
    end in
  reject_if (negb (bool_decide (prt_provider route = run_provider r))
             || negb (bool_decide (prt_mission_run_id route = run_id r))
             || negb (bool_decide (run_provider_session_id r = Some (prt_session_id route)))
             || negb mode_matches_route)
    MissionStoreError.ResponseRouteMismatch.

(** The attempt number the next reply to a request must have: the greatest so
    far, or zero, plus one, at 32 bits. *)
Definition expected_attempt (m : PersistedMission) (attention_id : string) (generation : N) :
    result MissionStoreError N :=
  let attempts :=
    (λ response, rak_attempt (pra_key response))
    <$> filter (λ response, rak_attention_id (pra_key response) = attention_id
                            ∧ rak_request_generation (pra_key response) = generation)
          (str_values (pm_responses m)) in
  ok_or (checked_add u32_max (default 0%N (max_option attempts)) 1)
    MissionStoreError.InvalidResponseAttempt.

Section handlers.
Context {HSha : Sha256}.

(** [ClosureConfigured] *)
Definition apply_closure_configured (m : PersistedMission) (mission_id : string)
    (declarations : list CheckDeclaration) (at_millis : N) :
    result MissionStoreError PersistedMission :=
  let logical := logical_at m at_millis in
  _ ← reject_if (negb (bool_decide (pm_status m = MissionStatus.Draft))
                 || bool_decide (is_Some (pm_run m))) MissionStoreError.ClosureCannotBeChanged;
  _ ← reject_if (negb (bool_decide (pm_check_declarations m = [])))
        MissionStoreError.ClosureAlreadyConfigured;
  definition ← map_err (λ _, MissionStoreError.InvalidClosurePlan)
    (MissionDefinition_new mission_id (pm_title m) (pm_repository_path m) (pm_objective m)
       (pm_acceptance_criteria m));
  _ ← map_err (λ _, MissionStoreError.InvalidClosurePlan)
    (ClosurePlan_new (criterion_ids (md_acceptance_criteria definition)) declarations);
  Ok (m <| pm_check_declarations := declarations |> <| pm_updated_at_millis := logical |>).

(** [ResponseRequested] *)
Definition apply_response_requested (m : PersistedMission) (key : ResponseAttemptKey)
    (route : PersistedResponseRoute) (decision : AttentionDecision) (actor_id : string)
    (at_millis : N) : result MissionStoreError PersistedMission :=
  let logical := logical_at m at_millis in
  r ← ok_or (pm_run m) MissionStoreError.RunMissing;
  _ ← validate_for_run route r;
  attention ← ok_or (pm_attention m !! rak_attention_id key)
    (MissionStoreError.AttentionNotFound (rak_attention_id key));
  _ ← reject_if (negb (bool_decide (pa_state attention = PersistedAttentionState.Open)))
        MissionStoreError.InvalidResponseState;
  let response_id := key_digest key in
  _ ← reject_if (bool_decide (is_Some (pm_responses m !! response_id)))
        MissionStoreError.ResponseAttemptAlreadyExists;
  expected ← expected_attempt m (rak_attention_id key) (rak_request_generation key);
  _ ← reject_if (negb (rak_attempt key =? expected)%N) MissionStoreError.InvalidResponseAttempt;
  Ok (m <| pm_attention ::= <[rak_attention_id key :=
              mkPersistedAttention PersistedAttentionState.PendingResponse (pa_risk attention)
                logical]> |>
        <| pm_responses ::= <[response_id :=
              {| pra_key := key;
                 pra_route := route;
                 pra_response_decision := decision;
                 pra_actor_id := actor_id;
                 pra_state := PersistedResponseState.Requested;
                 pra_updated_at_millis := logical |}]> |>
        <| pm_updated_at_millis := logical |>).

(** [responses.get_mut(&key.digest()).filter(|response| response.key == *key)] *)
Definition find_response (m : PersistedMission) (key : ResponseAttemptKey) :
    option PersistedResponseAttempt :=
  response ← pm_responses m !! key_digest key;
  if bool_decide (pra_key response = key) then Some response else None.

(** The common end of [ResponseAcknowledged] and [ResponseFailed]: the new
    states of the response and of its attention item *)
Definition settle_response (m : PersistedMission) (key : ResponseAttemptKey)
    (response : PersistedResponseAttempt) (response_state : PersistedResponseState)
    (attention_state : PersistedAttentionState) (logical : N) :
    result MissionStoreError PersistedMission :=
  attention ← ok_or (pm_attention m !! rak_attention_id key)
    (MissionStoreError.AttentionNotFound (rak_attention_id key));
  Ok (m <| pm_responses ::= <[key_digest key :=
              response <| pra_state := response_state |> <| pra_updated_at_millis := logical |>]> |>
        <| pm_attention ::= <[rak_attention_id key :=
              mkPersistedAttention attention_state (pa_risk attention) logical]> |>
        <| pm_updated_at_millis := logical |>).

(** [ResponseAcknowledged] *)
Definition apply_response_acknowledged (m : PersistedMission) (key : ResponseAttemptKey)
    (acknowledgement_hash : option string) (at_millis : N) :
    result MissionStoreError PersistedMission :=
  let logical := logical_at m at_millis in
  response ← ok_or (find_response m key) MissionStoreError.ResponseAttemptNotFound;
  _ ← reject_if (match pra_state response with
                 | PersistedResponseState.Requested
                 | PersistedResponseState.ReconciliationRequired _ => false
                 | _ => true
                 end) MissionStoreError.InvalidResponseState;
  settle_response m key response (PersistedResponseState.Acknowledged acknowledgement_hash)
    PersistedAttentionState.Resolved logical.

(** [ResponseFailed] *)
Definition apply_response_failed (m : PersistedMission) (key : ResponseAttemptKey)
    (disposition : ResponseFailureDisposition) (code : ResponseFailureCode) (at_millis : N) :
    result MissionStoreError PersistedMission :=
  let logical := logical_at m at_millis in
  response ← ok_or (find_response m key) MissionStoreError.ResponseAttemptNotFound;
  _ ← reject_if (negb (bool_decide (pra_state response = PersistedResponseState.Requested)))
        MissionStoreError.InvalidResponseState;
  let '(response_state, attention_state) :=
    match disposition with
    | ResponseFailureDisposition.DefinitelyNotApplied =>
        (PersistedResponseState.Failed code, PersistedAttentionState.Open)
    | ResponseFailureDisposition.DeliveryUnknown =>
        (PersistedResponseState.ReconciliationRequired code,
         PersistedAttentionState.ReconciliationRequired)
    end in
  settle_response m key response response_state attention_state logical.

(** The handler of an event on the mission it names *)
Definition apply_mission (m : PersistedMission) (e : PersistableMissionEvent) :
    result MissionStoreError PersistedMission :=
  match e with
  | Event.MissionCreated mission_id _ _ _ _ _ _ =>
      Err (MissionStoreError.MissionAlreadyExists mission_id)
  | Event.ClosureConfigured mission_id declarations at_ =>
      apply_closure_configured m mission_id declarations at_
  | Event.RunStarted _ run provider mode worktree base checks recipe at_ =>
      apply_run_started m run provider mode worktree base checks recipe at_
  | Event.RunContinued _ source run provider mode worktree base checks recipe artifact at_ =>
      apply_run_continued m source run provider mode worktree base checks recipe artifact at_
  | Event.ProviderSessionBound _ run session at_ => apply_provider_session_bound m run session at_
  | Event.StatusChanged _ status at_ => apply_status_changed m status at_
  | Event.MissionReady _ receipt _ _ at_ => apply_mission_ready m receipt at_
  | Event.MissionArchived _ receipt seal _ _ at_ => apply_mission_archived m receipt seal at_
  | Event.WorktreeClaimed _ path at_ => apply_worktree_claimed m path at_
  | Event.AttentionChanged _ attention_id state risk at_ =>
      apply_attention_changed m attention_id state risk at_
  | Event.EvidenceChanged _ check status hash at_ => apply_evidence_changed m check status hash at_
  | Event.EvidencePackRecorded _ run pack hash at_ => apply_evidence_pack_recorded m run pack hash at_
  | Event.ResponseRequested _ key route decision actor at_ =>
      apply_response_requested m key route decision actor at_
  | Event.ResponseAcknowledged _ key hash at_ => apply_response_acknowledged m key hash at_
  | Event.ResponseFailed _ key disposition code at_ =>
      apply_response_failed m key disposition code at_
  end.

(** [MissionProjection::mission_mut] *)
Definition mission_mut (p : MissionProjection) (mission_id : string) :
    result MissionStoreError PersistedMission :=
  ok_or (missions p !! mission_id) (MissionStoreError.MissionNotFound mission_id).

(** [MissionProjection::apply] *)
Definition apply (p : MissionProjection) (e : PersistableMissionEvent) :
    result MissionStoreError MissionProjection :=
  match e with
  | Event.MissionCreated mission_id title path hash objective criteria at_ =>
      _ ← reject_if (bool_decide (is_Some (missions p !! mission_id)))
            (MissionStoreError.MissionAlreadyExists mission_id);
      Ok (mkMissionProjection
            (<[mission_id := new_mission title path hash objective criteria at_]> (missions p)))
  | _ =>
      m ← mission_mut p (event_mission_id e);
      m ← apply_mission m e;
      Ok (mkMissionProjection (<[event_mission_id e := m]> (missions p)))
  end.
End handlers.

(** ** Queries *)

(** [MissionProjection::mission_status] *)
Definition mission_status (p : MissionProjection) (mission_id : string) : option MissionStatus :=
  pm_status <$> missions p !! mission_id.

(** [MissionProjection::response_state] *)
Definition response_state {HSha : Sha256} (p : MissionProjection) (mission_id : string)
    (key : ResponseAttemptKey) : option PersistedResponseState :=
  m ← missions p !! mission_id;
  pra_state <$> find_response m key.

(** [MissionProjection::next_response_attempt] *)
Definition next_response_attempt (p : MissionProjection) (mission_id attention_id : string)
    (request_generation : N) : result MissionStoreError N :=
  m ← ok_or (missions p !! mission_id) (MissionStoreError.MissionNotFound mission_id);
  attention ← ok_or (pm_attention m !! attention_id)
    (MissionStoreError.AttentionNotFound attention_id);
  _ ← reject_if (negb (bool_decide (pa_state attention = PersistedAttentionState.Open))
                 || (request_generation =? 0)%N) MissionStoreError.InvalidResponseState;
  expected_attempt m attention_id request_generation.

(** [MissionProjection::attention_state] *)
Definition attention_state (p : MissionProjection) (mission_id attention_id : string) :
    option PersistedAttentionState :=
  m ← missions p !! mission_id;
  pa_state <$> pm_attention m !! attention_id.

(** [MissionProjection::unresolved_attention_ids] *)
Definition unresolved_attention_ids (p : MissionProjection) (mission_id : string) :
    result MissionStoreError (gset string) :=
  m ← ok_or (missions p !! mission_id) (MissionStoreError.MissionNotFound mission_id);
  Ok (dom (filter (λ ia : string * PersistedAttention, attention_unresolved (pa_state ia.2) = true)
             (pm_attention m))).

Record MissionRunView := mkMissionRunView {
  mrv_run_id : string;
  mrv_provider : ProviderKind;
  mrv_mode : ProviderMode;
  mrv_worktree_path : string;
  mrv_base_revision : string;
  mrv_provider_session_id : option string;
  mrv_execute_declared_checks : bool;
  mrv_execute_project_recipe : bool;
  mrv_handoff_from_run_id : option string;
  mrv_handoff_artifact_sha256 : option string;
}.

Record MissionEvidenceView := mkMissionEvidenceView {
  mev_check_id : string;
  mev_status : EvidenceStatus;
  mev_workspace_hash : string;
  mev_updated_at_millis : N;
}.

Record MissionView := mkMissionView {
  mv_mission_id : string;
  mv_title : string;
  mv_repository_path : string;
  mv_repository_hash : string;
  mv_objective : string;
  mv_acceptance_criteria : list string;
  mv_check_declarations : list CheckDeclaration;
  mv_status : MissionStatus;
  mv_run : option MissionRunView;
  mv_run_history : list MissionRunView;
  mv_unresolved_attention_count : N;
  mv_latest_evidence_pack_digest : option string;
  mv_ready_receipt : option ProofReceipt;
  mv_archive_receipt : option ProofReceipt;
  mv_evidence : list MissionEvidenceView;
  mv_updated_at_millis : N;
}.

(** [mission_run_view] *)
Definition mission_run_view (run : PersistedRun) : MissionRunView :=
  {| mrv_run_id := run_id run;
     mrv_provider := run_provider run;
     mrv_mode := run_mode run;
     mrv_worktree_path := run_worktree_path run;
     mrv_base_revision := run_base_revision run;
     mrv_provider_session_id := run_provider_session_id run;
     mrv_execute_declared_checks := run_execute_declared_checks run;
     mrv_execute_project_recipe := run_execute_project_recipe run;
     mrv_handoff_from_run_id := run_handoff_from_run_id run;
     mrv_handoff_artifact_sha256 := run_handoff_artifact_sha256 run |}.

(** [MissionView::from_persisted] *)
Definition view_from_persisted (mission_id : string) (m : PersistedMission) : MissionView :=
  {| mv_mission_id := mission_id;
     mv_title := pm_title m;
     mv_repository_path := pm_repository_path m;
     mv_repository_hash := pm_repository_hash m;
     mv_objective := pm_objective m;
     mv_acceptance_criteria := pm_acceptance_criteria m;
     mv_check_declarations := pm_check_declarations m;
     mv_status := pm_status m;
     mv_run := mission_run_view <$> pm_run m;
     mv_run_history := mission_run_view <$> pm_run_history m;
     mv_unresolved_attention_count :=
       vec_len (filter (λ a, attention_unresolved (pa_state a) = true)
                  (str_values (pm_attention m)));
     mv_latest_evidence_pack_digest := pep_pack_digest <$> pm_latest_evidence_pack m;
     mv_ready_receipt := pm_ready_receipt m;
     mv_archive_receipt := pm_archive_receipt m;
     mv_evidence :=
       (λ ce, mkMissionEvidenceView ce.1 (pe_status ce.2) (pe_workspace_hash ce.2)
                (pe_updated_at_millis ce.2)) <$> str_entries (pm_evidence m);
     mv_updated_at_millis := pm_updated_at_millis m |}.

(** [MissionProjection::mission_view], [MissionProjection::mission_views] *)
Definition mission_view (p : MissionProjection) (mission_id : string) : option MissionView :=
  view_from_persisted mission_id <$> missions p !! mission_id.
Definition mission_views (p : MissionProjection) : list MissionView :=
  (λ im, view_from_persisted im.1 im.2) <$> str_entries (missions p).

Record DurableResponseView := mkDurableResponseView {
  drv_decision : AttentionDecision;
  drv_actor_id : string;
  drv_state : PersistedResponseState;
  drv_updated_at_millis : N;
  drv_attempt : N;
}.

Record DurableAttentionView := mkDurableAttentionView {
  dav_mission_id : string;
  dav_attention_id : string;
  dav_state : PersistedAttentionState;
  dav_risk : AttentionRisk;
  dav_updated_at_millis : N;
  dav_response : option DurableResponseView;
}.

(** The response shown with an attention item: the one with the greatest
    attempt number *)
Definition shown_response (m : PersistedMission) (attention_id : string) :
    option PersistedResponseAttempt :=
  max_by_key (λ response, rak_attempt (pra_key response))
    (filter (λ response, rak_attention_id (pra_key response) = attention_id)
       (str_values (pm_responses m))).

(** [MissionProjection::attention_views].  The missions and the items of each
    are visited in the order the code sorts by. *)
Definition attention_views (p : MissionProjection) : list DurableAttentionView :=
  im ← str_entries (missions p);
  (λ ia : string * PersistedAttention,
     {| dav_mission_id := im.1;
        dav_attention_id := ia.1;
        dav_state := pa_state ia.2;
        dav_risk := pa_risk ia.2;
        dav_updated_at_millis := pa_updated_at_millis ia.2;
        dav_response :=
          (λ response, {| drv_decision := pra_response_decision response;
                          drv_actor_id := pra_actor_id response;
                          drv_state := pra_state response;
                          drv_updated_at_millis := pra_updated_at_millis response;
                          drv_attempt := rak_attempt (pra_key response) |})
          <$> shown_response im.2 ia.1 |})
  <$> str_entries (pm_attention im.2).

(** ** The invariant of a mission *)

Section invariant.
Context {HSha : Sha256}.

Definition outstanding (s : PersistedResponseState) : bool :=
  match s with
  | PersistedResponseState.Requested | PersistedResponseState.ReconciliationRequired _ => true
  | _ => false
  end.

(** The attention state that goes with the outstanding reply, if any *)
Definition awaits (s : PersistedResponseState) : option PersistedAttentionState :=
  match s with
  | PersistedResponseState.Requested => Some PersistedAttentionState.PendingResponse
  | PersistedResponseState.ReconciliationRequired _ =>
      Some PersistedAttentionState.ReconciliationRequired
  | _ => None
  end.

(** A reply is filed under the digest of its key and belongs to an attention
    item of the mission. *)
Definition responses_filed (m : PersistedMission) : Prop :=
  map_Forall (λ digest r, digest = key_digest (pra_key r)
      ∧ is_Some (pm_attention m !! rak_attention_id (pra_key r))
      ∧ (1 ≤ rak_attempt (pra_key r))%N) (pm_responses m).

(** An item waits for a reply exactly when one of its replies is outstanding,
    and then it is the only one. *)
Definition responses_match (m : PersistedMission) : Prop :=
  (∀ d r, pm_responses m !! d = Some r → outstanding (pra_state r) = true →
     ∃ a, pm_attention m !! rak_attention_id (pra_key r) = Some a
          ∧ awaits (pra_state r) = Some (pa_state a))
  ∧ (∀ id a, pm_attention m !! id = Some a →
     pa_state a = PersistedAttentionState.PendingResponse
     ∨ pa_state a = PersistedAttentionState.ReconciliationRequired →
     ∃ d r, pm_responses m !! d = Some r ∧ rak_attention_id (pra_key r) = id
            ∧ awaits (pra_state r) = Some (pa_state a))
  ∧ (∀ d r d' r', pm_responses m !! d = Some r → pm_responses m !! d' = Some r' →
     outstanding (pra_state r) = true → outstanding (pra_state r') = true →
     rak_attention_id (pra_key r) = rak_attention_id (pra_key r') → d = d').

(** The attempts of a request are numbered 1, 2, ... without gaps. *)
Definition attempts_numbered (m : PersistedMission) : Prop :=
  ∀ d r n, pm_responses m !! d = Some r → (1 ≤ n)%N → (n ≤ rak_attempt (pra_key r))%N →
    ∃ r', pm_responses m !! key_digest (pra_key r') = Some r'
      ∧ pra_key r' = mkResponseAttemptKey (rak_attention_id (pra_key r))
                       (rak_request_generation (pra_key r)) n.

Definition archived_ok (m : PersistedMission) : Prop :=
  match pm_status m with
  | MissionStatus.Archived =>
      ∃ ready archive, pm_ready_receipt m = Some ready ∧ pm_archive_receipt m = Some archive
        ∧ pr_subject_digest archive = pr_subject_digest ready
        ∧ (pr_authority_sequence ready < pr_authority_sequence archive)%N
        ∧ (pr_verified_at_millis ready ≤ pr_verified_at_millis archive)%N
        ∧ (pr_verified_at_millis archive ≤ pm_updated_at_millis m)%N
  | MissionStatus.ReadyToClose =>
      pm_archive_receipt m = None
      ∧ ∃ ready, pm_ready_receipt m = Some ready
          ∧ (pr_verified_at_millis ready ≤ pm_updated_at_millis m)%N
  | _ => pm_archive_receipt m = None
  end.

(** Runs have distinct identifiers and a mission with a run has a closure
    plan that covers its criteria. *)
Definition runs_ok (mission_id : string) (m : PersistedMission) : Prop :=
  NoDup (run_id <$> option_list (pm_run m) ++ pm_run_history m)
  ∧ (pm_run_history m ≠ [] → is_Some (pm_run m))
  ∧ (is_Some (pm_run m) → pm_check_declarations m ≠ [])
  ∧ (pm_status m = MissionStatus.Draft → pm_run m = None)
  ∧ (pm_check_declarations m ≠ [] →
     ∃ definition plan,
       MissionDefinition_new mission_id (pm_title m) (pm_repository_path m) (pm_objective m)
         (pm_acceptance_criteria m) = Ok definition
       ∧ ClosurePlan_new (criterion_ids (md_acceptance_criteria definition))
           (pm_check_declarations m) = Ok plan).

Definition mission_ok (mission_id : string) (m : PersistedMission) : Prop :=
  responses_filed m ∧ responses_match m ∧ attempts_numbered m ∧ archived_ok m
  ∧ runs_ok mission_id m.

Definition projection_ok (p : MissionProjection) : Prop := map_Forall mission_ok (missions p).
End invariant.

(** ** The handlers keep the invariant *)

Section preservation.
Context {HSha : Sha256}.

Definition replies_ok (m : PersistedMission) : Prop :=
  responses_filed m ∧ responses_match m ∧ attempts_numbered m.

Lemma replies_ok_ext m m' :
  replies_ok m → pm_attention m' = pm_attention m → pm_responses m' = pm_responses m →
  replies_ok m'.
Proof.
  unfold replies_ok, responses_filed, responses_match, attempts_numbered. by intros H -> ->.
Qed.

Lemma archived_ok_ext m m' :
  archived_ok m → pm_status m' = pm_status m → pm_ready_receipt m' = pm_ready_receipt m →
  pm_archive_receipt m' = pm_archive_receipt m →
  (pm_updated_at_millis m ≤ pm_updated_at_millis m')%N → archived_ok m'.
Proof.
  unfold archived_ok. intros H -> -> -> Hle. destruct (pm_status m); try done.
  - destruct H as [? (r & ? & ?)]. split; [done|]. exists r. split; [done|lia].
  - destruct H as (r & a & ? & ? & ? & ? & ? & ?). exists r, a. split_and!; done || lia.
Qed.

Lemma runs_ok_ext id m m' :
  runs_ok id m → pm_run m' = pm_run m → pm_run_history m' = pm_run_history m →
  pm_check_declarations m' = pm_check_declarations m →
  (pm_status m' = MissionStatus.Draft → pm_status m = MissionStatus.Draft) →
  pm_title m' = pm_title m → pm_repository_path m' = pm_repository_path m →
  pm_objective m' = pm_objective m → pm_acceptance_criteria m' = pm_acceptance_criteria m →
  runs_ok id m'.
Proof.
  unfold runs_ok. intros (H1 & H2 & H3 & H4 & H5) -> -> -> Hst -> -> -> ->. split_and!; try done.
  intros Hd. by apply H4, Hst.
Qed.

Lemma mission_ok_alt id m : mission_ok id m ↔ replies_ok m ∧ archived_ok m ∧ runs_ok id m.
Proof. unfold mission_ok, replies_ok. tauto. Qed.

Lemma logical_at_ge m at_ : (pm_updated_at_millis m ≤ logical_at m at_)%N.
Proof. unfold logical_at. lia. Qed.

(** The common case: a handler that touches neither replies, receipts, status
    nor runs. *)
Ltac keep_replies := eapply replies_ok_ext; [eassumption|reflexivity|reflexivity].
Ltac keep_archived := eapply archived_ok_ext; [eassumption|reflexivity..|apply logical_at_ge].
Ltac keep_runs := eapply runs_ok_ext; first [eassumption|reflexivity|done].

Lemma closure_configured_ok id m ds at_ m' :
  mission_ok id m → apply_closure_configured m id ds at_ = Ok m' → mission_ok id m'.
Proof.
  rewrite !mission_ok_alt. intros (Hrep & Harch & Hruns) Hok. unfold apply_closure_configured in Hok.
  apply bind_ok in Hok as ([] & Hst & Hok). apply bind_ok in Hok as ([] & _ & Hok).
  apply bind_ok in Hok as (def & Hdef & Hok). apply bind_ok in Hok as (plan & Hplan & Hok). inv_ok.
  split_and!; [keep_replies|keep_archived|].
  destruct Hruns as (H1 & H2 & H3 & H4 & H5). unfold runs_ok. cbn. rewrite H4 in * by done.
  split_and!; try done. intros _. eauto.
Qed.

Lemma run_started_ok id m run provider mode worktree base checks recipe at_ m' :
  mission_ok id m → apply_run_started m run provider mode worktree base checks recipe at_ = Ok m' →
  mission_ok id m'.
Proof.
  rewrite !mission_ok_alt. intros (Hrep & Harch & Hruns) Hok. unfold apply_run_started in Hok.
  apply bind_ok in Hok as ([] & Hst & Hok). apply bind_ok in Hok as ([] & Hdecl & Hok).
  apply reject_if_ok, orb_false_iff in Hst as [Hst Hrun]. inv_ok.
  split_and!; [keep_replies| |].
  - unfold archived_ok in *. rewrite Hst in Harch. done.
  - destruct Hruns as (H1 & H2 & H3 & H4 & H5). unfold runs_ok. cbn. rewrite H4 in * by done.
    assert (Hhist : pm_run_history m = []).
    { destruct (pm_run_history m) eqn:Hh; [done|]. destruct H2 as [? ?]; [done|]. done. }
    rewrite Hhist. split_and!; try done. apply NoDup_singleton.
Qed.

Lemma run_continued_ok id m source run provider mode worktree base checks recipe artifact at_ m' :
  mission_ok id m →
  apply_run_continued m source run provider mode worktree base checks recipe artifact at_ = Ok m' →
  mission_ok id m'.
Proof.
  rewrite !mission_ok_alt. intros (Hrep & Harch & Hruns) Hok. unfold apply_run_continued in Hok.
  apply bind_ok in Hok as ([] & Hst & Hok). apply bind_ok in Hok as ([] & _ & Hok).
  apply bind_ok in Hok as (src & Hsrc & Hok). do 2 apply bind_ok in Hok as ([] & _ & Hok).
  apply bind_ok in Hok as ([] & Hfresh & Hok). inv_ok.
  split_and!; [keep_replies|done|].
  destruct Hruns as (H1 & H2 & H3 & H4 & H5). unfold runs_ok. cbn. rewrite Hsrc in *.
  split_and!; try done.
  - cbn in H1. apply NoDup_cons in H1 as [Hn1 Hn2]. apply NoDup_cons. rewrite fmap_app. cbn. split.
    + rewrite elem_of_app, list_elem_of_singleton. intros [(r & Hr & Hin)%list_elem_of_fmap|Heq].
      * apply not_true_iff_false in H0. apply H0. apply existsb_exists. exists r.
        split; [by apply list_elem_of_In|]. by apply bool_decide_eq_true.
      * by rewrite Heq in H.
    + apply NoDup_app. split_and!; [done|set_solver|apply NoDup_singleton].
  - intros _. apply H3. by eexists.
Qed.

Lemma provider_session_bound_ok id m run session at_ m' :
  mission_ok id m → apply_provider_session_bound m run session at_ = Ok m' → mission_ok id m'.
Proof.
  rewrite !mission_ok_alt. intros (Hrep & Harch & Hruns) Hok.
  unfold apply_provider_session_bound in Hok. apply bind_ok in Hok as ([] & Hst & Hok).
  apply bind_ok in Hok as (r & Hr & Hok). apply bind_ok in Hok as ([] & _ & Hok). inv_ok.
  split_and!; [keep_replies| |].
  - unfold archived_ok in *. rewrite Hst in Harch. done.
  - destruct Hruns as (H1 & H2 & H3 & H4 & H5). unfold runs_ok. cbn. rewrite Hr in *.
    split_and!; try done. intros _. apply H3. by eexists.
Qed.

Lemma status_changed_ok id m status at_ m' :
  mission_ok id m → apply_status_changed m status at_ = Ok m' → mission_ok id m'.
Proof.
  rewrite !mission_ok_alt. intros (Hrep & Harch & Hruns) Hok. unfold apply_status_changed in Hok.
  apply bind_ok in Hok as ([] & Hsealed & Hok). apply bind_ok in Hok as ([] & Hcan & Hok). inv_ok.
  split_and!; [keep_replies| |].
  - unfold archived_ok in *. cbn. destruct (pm_status m), status; try discriminate Hcan; naive_solver.
  - eapply runs_ok_ext; [exact Hruns|..]; try reflexivity. cbn. intros ->.
    by destruct (pm_status m).
Qed.

Lemma mission_ready_ok id m receipt at_ m' :
  mission_ok id m → apply_mission_ready m receipt at_ = Ok m' → mission_ok id m'.
Proof.
  rewrite !mission_ok_alt. intros (Hrep & Harch & Hruns) Hok. unfold apply_mission_ready in Hok.
  apply bind_ok in Hok as ([] & Hst & Hok). apply bind_ok in Hok as ([] & Ht & Hok). inv_ok.
  split_and!; [keep_replies| |].
  - split; [done|]. exists receipt. done.
  - keep_runs.
Qed.

Lemma mission_archived_ok id m receipt seal at_ m' :
  mission_ok id m → apply_mission_archived m receipt seal at_ = Ok m' → mission_ok id m'.
Proof.
  rewrite !mission_ok_alt. intros (Hrep & Harch & Hruns) Hok. unfold apply_mission_archived in Hok.
  apply bind_ok in Hok as ([] & Hst & Hok). apply bind_ok in Hok as (ready & Hready & Hok).
  apply bind_ok in Hok as ([] & Hbasis & Hok). apply bind_ok in Hok as ([] & Hfresh & Hok). inv_ok.
  split_and!; [keep_replies| |].
  - exists ready, receipt. cbn. split_and!; done.
  - keep_runs.
Qed.

Lemma worktree_claimed_ok id m path at_ m' :
  mission_ok id m → apply_worktree_claimed m path at_ = Ok m' → mission_ok id m'.
Proof.
  rewrite !mission_ok_alt. intros (Hrep & Harch & Hruns) Hok. unfold apply_worktree_claimed in Hok.
  inv_ok. split_and!; [keep_replies|keep_archived|keep_runs].
Qed.

Lemma evidence_changed_ok id m check status hash at_ m' :
  mission_ok id m → apply_evidence_changed m check status hash at_ = Ok m' → mission_ok id m'.
Proof.
  rewrite !mission_ok_alt. intros (Hrep & Harch & Hruns) Hok. unfold apply_evidence_changed in Hok.
  inv_ok. split_and!; [keep_replies|keep_archived|keep_runs].
Qed.

Lemma evidence_pack_recorded_ok id m run pack hash at_ m' :
  mission_ok id m → apply_evidence_pack_recorded m run pack hash at_ = Ok m' → mission_ok id m'.
Proof.
  rewrite !mission_ok_alt. intros (Hrep & Harch & Hruns) Hok.
  unfold apply_evidence_pack_recorded in Hok. apply bind_ok in Hok as (r & Hr & Hok).
  do 2 apply bind_ok in Hok as ([] & _ & Hok). inv_ok.
  split_and!; [keep_replies|keep_archived|keep_runs].
Qed.

(** An item changes state while none of its replies is outstanding. *)
Lemma attention_set_ok m id old a' logical :
  replies_ok m → pm_attention m !! id = old →
  (∀ a, old = Some a → pa_state a ≠ PersistedAttentionState.PendingResponse
                       ∧ pa_state a ≠ PersistedAttentionState.ReconciliationRequired) →
  pa_state a' ≠ PersistedAttentionState.PendingResponse →
  pa_state a' ≠ PersistedAttentionState.ReconciliationRequired →
  replies_ok (m <| pm_attention ::= <[id := a']> |> <| pm_updated_at_millis := logical |>).
Proof.
  intros (Hfiled & (Hout & Hwait & Huniq) & Hnum) Hold Hidle Hp Hr.
  split; [|split; [split; [|split; [|done]]|done]].
  - apply map_Forall_lookup_2. intros d r Hd. destruct (Hfiled _ _ Hd) as (-> & Hsome & ?).
    split_and!; [done| |done]. cbn. rewrite lookup_insert. by case_decide.
  - intros d r Hd Hor. cbn in *. destruct (Hout d r Hd Hor) as (a & Ha & Haw).
    rewrite lookup_insert. case_decide as Hid; [|eauto]. exfalso.
    rewrite <- Hid, Hold in Ha. destruct (Hidle a Ha) as [? ?].
    by destruct (pra_state r); try discriminate Hor; injection Haw.
  - intros id' a Ha Hst. cbn in *. rewrite lookup_insert in Ha. case_decide; [|eauto].
    injection Ha as <-. by destruct Hst.
Qed.

Lemma attention_changed_ok id m attention_id state risk at_ m' :
  mission_ok id m → apply_attention_changed m attention_id state risk at_ = Ok m' →
  mission_ok id m'.
Proof.
  rewrite !mission_ok_alt. intros (Hrep & Harch & Hruns) Hok.
  unfold apply_attention_changed in Hok. apply bind_ok in Hok as (att & Hatt & Hok). inv_ok.
  destruct (pm_attention m !! attention_id) as [a|] eqn:Ha; destruct state; try discriminate Hatt.
  - destruct (bool_decide _ && _) eqn:Hopen; [|done]. inv_ok.
    split_and!; [|keep_archived|keep_runs]. eapply attention_set_ok; [exact Hrep|exact Ha| |done|done]; intros b [= <-]; by rewrite H.
  - inv_ok. split_and!; [|keep_archived|keep_runs].
    eapply attention_set_ok; [exact Hrep|exact Ha|done|done|done].
Qed.

Lemma awaits_outstanding s a : awaits s = Some a → outstanding s = true.
Proof. by destruct s. Qed.

Lemma response_requested_ok id m key route decision actor at_ m' :
  mission_ok id m → apply_response_requested m key route decision actor at_ = Ok m' →
  mission_ok id m'.
Proof.
  rewrite !mission_ok_alt. intros (Hrep & Harch & Hruns) Hok.
  unfold apply_response_requested in Hok. apply bind_ok in Hok as (run & _ & Hok).
  apply bind_ok in Hok as ([] & _ & Hok). apply bind_ok in Hok as (a & Ha & Hok).
  apply bind_ok in Hok as ([] & Hopen & Hok). cbv zeta in Hok.
  apply bind_ok in Hok as ([] & Hfresh & Hok). apply bind_ok in Hok as (n & Hn & Hok).
  apply bind_ok in Hok as ([] & Hatt & Hok). inv_ok.
  split_and!; [|keep_archived|keep_runs].
  assert (Hnone : pm_responses m !! key_digest key = None)
    by (destruct (pm_responses m !! key_digest key); [exfalso; apply Hfresh; by eexists|done]).
  destruct Hrep as (Hfiled & (Hout & Hwait & Huniq) & Hnum).
  assert (Hidle : ∀ d r, pm_responses m !! d = Some r →
    rak_attention_id (pra_key r) = rak_attention_id key → outstanding (pra_state r) = false).
  { intros d r Hd Hid. destruct (outstanding (pra_state r)) eqn:Hor; [|done]. exfalso.
    destruct (Hout d r Hd Hor) as (b & Hb & Haw). rewrite Hid, Ha in Hb. injection Hb as <-.
    rewrite Hopen in Haw. by destruct (pra_state r). }
  unfold expected_attempt in Hn. apply ok_or_ok, checked_add_some in Hn as [Hn _].
  set (attempts := _ <$> _) in Hn.
  split; [|split; [split; [|split]|]].
  - apply map_Forall_lookup_2. intros d r Hd. cbn in *. rewrite lookup_insert in Hd.
    case_decide as Hkd.
    + injection Hd as <-. cbn. rewrite lookup_insert, decide_True by done. split_and!; [done..|lia].
    + destruct (Hfiled _ _ Hd) as (-> & Hsome & ?). split_and!; [done| |done].
      rewrite lookup_insert. by case_decide.
  - intros d r Hd Hor. cbn in *. rewrite lookup_insert in Hd. case_decide as Hkd.
    + injection Hd as <-. cbn. rewrite lookup_insert, decide_True by done. by eexists.
    + destruct (Hout d r Hd Hor) as (b & Hb & Haw). rewrite lookup_insert.
      case_decide as Hid; [|eauto]. rewrite (Hidle d r Hd) in Hor by done. done.
  - intros id' b Hb Hst. cbn in *. rewrite lookup_insert in Hb. case_decide as Hid.
    + injection Hb as <-. eexists (key_digest key), _. rewrite lookup_insert, decide_True by done.
      split_and!; [reflexivity|done|done].
    + destruct (Hwait id' b Hb Hst) as (d & r & Hd & Hrid & Haw). exists d, r. split; [|done].
      rewrite lookup_insert_ne; [done|]. intros Heq. congruence.
  - intros d r d' r' Hd Hd' Hor Hor' Hid. cbn in *. rewrite lookup_insert in Hd, Hd'.
    destruct (decide (key_digest key = d)) as [Hk|Hk], (decide (key_digest key = d')) as [Hk'|Hk'].
    + by rewrite <- Hk, <- Hk'.
    + injection Hd as <-. cbn in Hid. rewrite (Hidle d' r' Hd') in Hor' by done. done.
    + injection Hd' as <-. cbn in Hid. rewrite (Hidle d r Hd) in Hor by done. done.
    + by apply (Huniq d r d' r').
  - assert (Hkeep : ∀ r', pm_responses m !! key_digest (pra_key r') = Some r' →
      <[key_digest key := mkPersistedResponseAttempt key route decision actor
          PersistedResponseState.Requested (logical_at m at_)]> (pm_responses m)
        !! key_digest (pra_key r') = Some r').
    { intros r' Hr'. rewrite lookup_insert_ne; [done|]. intros Heq. congruence. }
    intros d r k Hd Hk1 Hk2. cbn in *. rewrite lookup_insert in Hd. case_decide as Hkd.
    + injection Hd as <-. cbn in *.
      destruct (decide (k = rak_attempt key)) as [->|Hne].
      * eexists (mkPersistedResponseAttempt key _ _ _ _ _). cbn.
        rewrite lookup_insert, decide_True by done. split; [reflexivity|]. by destruct key.
      * destruct (max_option attempts) as [mx|] eqn:Hmx; cbn in Hn; [|lia].
        apply max_option_spec in Hmx as [Hin _]. subst attempts.
        apply list_elem_of_fmap in Hin as (r0 & -> & Hr0).
        apply list_elem_of_filter in Hr0 as [[Hra Hrg] [d0 Hd0]%(elem_of_btree_values String.le)].
        destruct (Hnum d0 r0 k Hd0 Hk1 ltac:(lia)) as (r' & Hr' & Hkey).
        exists r'. split; [by apply Hkeep|]. by rewrite Hkey, Hra, Hrg.
    + destruct (Hnum d r k Hd Hk1 Hk2) as (r' & Hr' & Hkey). exists r'. split; [|done]. by apply Hkeep.
Qed.

(** A reply that was outstanding moves on, with its item. *)
Lemma settle_response_ok m key response rs st logical m' :
  replies_ok m → find_response m key = Some response → outstanding (pra_state response) = true →
  (awaits rs = Some st
   ∨ awaits rs = None ∧ st ≠ PersistedAttentionState.PendingResponse
     ∧ st ≠ PersistedAttentionState.ReconciliationRequired) →
  settle_response m key response rs st logical = Ok m' → replies_ok m'.
Proof.
  intros (Hfiled & (Hout & Hwait & Huniq) & Hnum) Hfind Hor Hnew Hok.
  unfold find_response in Hfind. apply bind_Some in Hfind as (r0 & Hr0 & Hfind).
  case_bool_decide as Hkey; [|done]. injection Hfind as ->.
  unfold settle_response in Hok. apply bind_ok in Hok as (a & Ha & Hok). inv_ok.
  assert (Hother : ∀ d r, pm_responses m !! d = Some r → outstanding (pra_state r) = true →
    rak_attention_id (pra_key r) = rak_attention_id key → d = key_digest key).
  { intros d r Hd Hor' Hid. eapply (Huniq d r); [exact Hd|exact Hr0|done|done|]. by rewrite Hid, Hkey. }
  split; [|split; [split; [|split]|]].
  - apply map_Forall_lookup_2. intros d r Hd. cbn in *. rewrite lookup_insert in Hd.
    assert (Hsome : ∀ i, is_Some (pm_attention m !! i) →
      is_Some (<[rak_attention_id key := mkPersistedAttention st (pa_risk a) logical]>
                 (pm_attention m) !! i)).
    { intros i Hi. rewrite lookup_insert. by destruct (decide (_ = i)). }
    case_decide as Hkd; [|destruct (Hfiled _ _ Hd) as (-> & ? & ?); split_and!; auto].
    injection Hd as <-. destruct (Hfiled _ _ Hr0) as (? & ? & ?). cbn. split_and!; auto.
    by rewrite Hkey.
  - intros d r Hd Hor'. cbn in *. rewrite lookup_insert in Hd. case_decide as Hkd.
    + injection Hd as <-. cbn in *. rewrite Hkey, lookup_insert, decide_True by done.
      eexists. split; [reflexivity|]. cbn. destruct Hnew as [?|[Hno _]]; [done|]. by destruct rs.
    + destruct (Hout d r Hd Hor') as (b & Hb & Haw). rewrite lookup_insert.
      case_decide as Hid; [|eauto]. exfalso. apply Hkd. symmetry. by apply (Hother d r).
  - intros i b Hb Hst. cbn in *. rewrite lookup_insert in Hb. case_decide as Hid.
    + injection Hb as <-. cbn in *. destruct Hnew as [Haw|(_ & ? & ?)]; [|by destruct Hst].
      eexists (key_digest key), _. rewrite lookup_insert, decide_True by done.
      split_and!; [reflexivity|by cbn; rewrite Hkey|done].
    + destruct (Hwait i b Hb Hst) as (d & r & Hd & Hrid & Haw). exists d, r. split; [|done].
      rewrite lookup_insert_ne; [done|]. intros Heq. rewrite <- Heq, Hr0 in Hd.
      injection Hd as <-. by rewrite Hkey in Hrid.
  - intros d r d' r' Hd Hd' Ho Ho' Hid. cbn in *. rewrite lookup_insert in Hd, Hd'.
    destruct (decide (key_digest key = d)) as [Hk|Hk], (decide (key_digest key = d')) as [Hk'|Hk'].
    + by rewrite <- Hk, <- Hk'.
    + injection Hd as <-. cbn in Hid. rewrite Hkey in Hid. rewrite <- Hk. symmetry.
      by apply (Hother d' r').
    + injection Hd' as <-. cbn in Hid. rewrite Hkey in Hid. rewrite <- Hk'. by apply (Hother d r).
    + by apply (Huniq d r d' r').
  - intros d r k Hd Hk1 Hk2. cbn in *.
    assert (Hlk : ∃ r1, pm_responses m !! d = Some r1 ∧ pra_key r1 = pra_key r).
    { rewrite lookup_insert in Hd. case_decide; [|eauto]. subst d. injection Hd as <-. eauto. }
    destruct Hlk as (r1 & Hr1 & Hk). rewrite <- Hk in *.
    destruct (Hnum d r1 k Hr1 Hk1 Hk2) as (r' & Hr' & Hkey').
    destruct (decide (key_digest key = key_digest (pra_key r'))) as [Heq|Hne].
    + rewrite <- Heq, Hr0 in Hr'. injection Hr' as <-.
      eexists (response <| pra_state := rs |> <| pra_updated_at_millis := logical |>). cbn.
      rewrite Heq, lookup_insert, decide_True by done. done.
    + exists r'. by rewrite lookup_insert_ne.
Qed.

Lemma settle_response_keeps m key response rs st at_ m' :
  settle_response m key response rs st (logical_at m at_) = Ok m' →
  archived_ok m → ∀ id, runs_ok id m → archived_ok m' ∧ runs_ok id m'.
Proof.
  intros Hok Harch id Hruns. unfold settle_response in Hok. apply bind_ok in Hok as (a & _ & Hok).
  inv_ok. split; [keep_archived|keep_runs].
Qed.

Lemma response_acknowledged_ok id m key hash at_ m' :
  mission_ok id m → apply_response_acknowledged m key hash at_ = Ok m' → mission_ok id m'.
Proof.
  rewrite !mission_ok_alt. intros (Hrep & Harch & Hruns) Hok.
  unfold apply_response_acknowledged in Hok. apply bind_ok in Hok as (r & Hr%ok_or_ok & Hok).
  apply bind_ok in Hok as ([] & Hst%reject_if_ok & Hok). split.
  - eapply settle_response_ok; [exact Hrep|exact Hr| | |exact Hok]; [by destruct (pra_state r)|].
    by right.
  - by eapply settle_response_keeps.
Qed.

Lemma response_failed_ok id m key disposition code at_ m' :
  mission_ok id m → apply_response_failed m key disposition code at_ = Ok m' → mission_ok id m'.
Proof.
  rewrite !mission_ok_alt. intros (Hrep & Harch & Hruns) Hok.
  unfold apply_response_failed in Hok. apply bind_ok in Hok as (r & Hr%ok_or_ok & Hok).
  apply bind_ok in Hok as ([] & Hst & Hok). cbv zeta in Hok. inv_ok.
  destruct disposition; (split; [|by eapply settle_response_keeps]);
    (eapply settle_response_ok; [exact Hrep|exact Hr|by rewrite Hst| |exact Hok]); auto.
Qed.

Lemma apply_mission_ok id m e m' :
  mission_ok id m → event_mission_id e = id → apply_mission m e = Ok m' → mission_ok id m'.
Proof.
  intros Hm Hid Hok. destruct e; cbn in Hok, Hid; subst id; try done.
  - by eapply closure_configured_ok.
  - by eapply run_started_ok.
  - by eapply run_continued_ok.
  - by eapply provider_session_bound_ok.
  - by eapply status_changed_ok.
  - by eapply mission_ready_ok.
  - by eapply mission_archived_ok.
  - by eapply worktree_claimed_ok.
  - by eapply attention_changed_ok.
  - by eapply evidence_changed_ok.
  - by eapply evidence_pack_recorded_ok.
  - by eapply response_requested_ok.
  - by eapply response_acknowledged_ok.
  - by eapply response_failed_ok.
Qed.

Lemma new_mission_ok id title path hash objective criteria at_ :
  mission_ok id (new_mission title path hash objective criteria at_).
Proof.
  rewrite mission_ok_alt. split; [|split; [done|]].
  - split; [apply map_Forall_empty|split; [split; [|split]|]];
      intros ??; cbn; rewrite lookup_empty; naive_solver.
  - unfold runs_ok. cbn. split; [constructor|]. split_and!; done.
Qed.

(** The two cases of [apply]: a new mission, or the handler on the one it
    names *)
Lemma apply_inv p e p' :
  apply p e = Ok p' →
  (∃ id title path hash objective criteria at_,
     e = Event.MissionCreated id title path hash objective criteria at_
     ∧ missions p !! id = None
     ∧ missions p' = <[id := new_mission title path hash objective criteria at_]> (missions p))
  ∨ ∃ m m', missions p !! event_mission_id e = Some m ∧ apply_mission m e = Ok m'
      ∧ missions p' = <[event_mission_id e := m']> (missions p).
Proof.
  intros Hok. destruct e as [id title path hash objective criteria at_| | | | | | | | | | | | | |];
    [left|right; cbn [apply] in Hok; apply bind_ok in Hok as (m & Hm & Hok);
     apply bind_ok in Hok as (m' & Hm' & Hok); unfold mission_mut in Hm; inv_ok; eauto..].
  cbn [apply] in Hok. apply bind_ok in Hok as ([] & Hnew & Hok). inv_ok.
  exists id, title, path, hash, objective, criteria, at_. split_and!; try done.
  destruct (missions p !! id); [exfalso; apply Hnew; by eexists|done].
Qed.

Lemma apply_ok p e p' : projection_ok p → apply p e = Ok p' → projection_ok p'.
Proof.
  intros Hp [(id & ? & ? & ? & ? & ? & ? & -> & Hnone & Hp')|(m & m' & Hm & Hok & Hp')]%apply_inv;
    unfold projection_ok; rewrite Hp'; apply map_Forall_insert_2; try done.
  - apply new_mission_ok.
  - eapply apply_mission_ok; [by apply Hp|done|done].
Qed.
End preservation.

(** ** What a step does to a mission *)

(** Unfold the handler and split its success into the branch conditions. *)
Ltac handler_inv Hok :=
  unfold apply_mission, apply_closure_configured, apply_run_started, apply_run_continued,
    apply_provider_session_bound, apply_status_changed, apply_mission_ready, apply_mission_archived,
    apply_worktree_claimed, apply_attention_changed, apply_evidence_changed,
    apply_evidence_pack_recorded, apply_response_requested, apply_response_acknowledged,
    apply_response_failed, settle_response in Hok; cbv zeta in Hok;
  repeat (let x := fresh in apply bind_ok in Hok as (x & ? & Hok)); inv_ok;
  try match goal with
      | d : ResponseFailureDisposition |- _ =>
          destruct d; apply bind_ok in Hok as (? & ? & Hok); inv_ok
      end.

Section steps.
Context {HSha : Sha256}.

Lemma apply_at p e p' id m :
  missions p !! id = Some m → apply p e = Ok p' →
  ∃ m', missions p' !! id = Some m'
    ∧ ((event_mission_id e ≠ id ∧ m' = m) ∨ (event_mission_id e = id ∧ apply_mission m e = Ok m')).
Proof.
  intros Hm [(i & ? & ? & ? & ? & ? & ? & -> & Hnone & ->)|(n & n' & Hn & Hok & ->)]%apply_inv; cbn.
  - exists m. split; [by rewrite lookup_insert_ne; [|intros ->; congruence]|]. left.
    split; [intros ->; congruence|done].
  - destruct (decide (event_mission_id e = id)) as [<-|Hne].
    + rewrite Hm in Hn. injection Hn as <-. exists n'. rewrite lookup_insert_eq. auto.
    + exists m. rewrite lookup_insert_ne by done. auto.
Qed.

Lemma apply_mission_ok_apply p e m m' :
  missions p !! event_mission_id e = Some m → apply_mission m e = Ok m' →
  apply p e = Ok (mkMissionProjection (<[event_mission_id e := m']> (missions p))).
Proof.
  intros Hm Hok. unfold apply. destruct e; try discriminate Hok;
    unfold mission_mut; cbn [event_mission_id] in *; rewrite Hm; cbn [ok_or mbind result_bind];
    by rewrite Hok.
Qed.

(** Every handler leaves the mission's clock at the maximum of the clock and
    of the event's time. *)
Definition event_at (e : PersistableMissionEvent) : N :=
  match e with
  | Event.MissionCreated _ _ _ _ _ _ at_ | Event.ClosureConfigured _ _ at_
  | Event.RunStarted _ _ _ _ _ _ _ _ at_ | Event.RunContinued _ _ _ _ _ _ _ _ _ _ at_
  | Event.ProviderSessionBound _ _ _ at_ | Event.StatusChanged _ _ at_
  | Event.MissionReady _ _ _ _ at_ | Event.MissionArchived _ _ _ _ _ at_
  | Event.WorktreeClaimed _ _ at_ | Event.AttentionChanged _ _ _ _ at_
  | Event.EvidenceChanged _ _ _ _ at_ | Event.EvidencePackRecorded _ _ _ _ at_
  | Event.ResponseRequested _ _ _ _ _ at_ | Event.ResponseAcknowledged _ _ _ at_
  | Event.ResponseFailed _ _ _ _ at_ => at_
  end.

Lemma apply_mission_clock m e m' :
  apply_mission m e = Ok m' → pm_updated_at_millis m' = logical_at m (event_at e).
Proof.
  intros Hok. by destruct e; try discriminate Hok; handler_inv Hok.
Qed.

(** What no event changes *)
Lemma apply_mission_keeps m e m' :
  apply_mission m e = Ok m' →
  pm_title m' = pm_title m ∧ pm_objective m' = pm_objective m
  ∧ pm_repository_path m' = pm_repository_path m
  ∧ pm_acceptance_criteria m' = pm_acceptance_criteria m
  ∧ (pm_check_declarations m ≠ [] → pm_check_declarations m' = pm_check_declarations m)
  ∧ (pm_run_history m `prefix_of` pm_run_history m')
  ∧ (is_Some (pm_run m) → is_Some (pm_run m')).
Proof.
  assert (Hrefl : ∀ l : list PersistedRun, l `prefix_of` l) by done.
  intros Hok. destruct e; try discriminate Hok; handler_inv Hok; cbn; try (split_and!; done).
  - do 5 (split; [done|]). split; [by apply prefix_app_r|by eexists].
Qed.
End steps.

(** ** Theorems *)

Section theorems.
Context {HSha : Sha256}.

(** The projection of a list of events, from the empty one *)
Definition project (es : list PersistableMissionEvent) : result MissionStoreError MissionProjection :=
  try_fold apply MissionProjection_default es.

Lemma project_ok es p : project es = Ok p → projection_ok p.
Proof.
  intros Hp. eapply (try_fold_ind projection_ok); [| |exact Hp].
  - apply map_Forall_empty.
  - intros t e t' Ht Hok. by eapply apply_ok.
Qed.

(** C6: Whatever events a journal records, the projection they add up to has
    consistent missions: replies are filed under their digests and numbered
    from one without gaps, an attention item waits exactly when one reply to
    it is outstanding and never for two, receipts go with the status, run
    identifiers are distinct, and a run implies a closure plan that covers the
    acceptance criteria. *)
Theorem projection_invariant es p : project es = Ok p → projection_ok p.
Proof. apply project_ok. Qed.

(** An event changes only the mission it names, and leaves that mission's
    clock at the later of the old clock and the event's time: a journal whose
    events are out of order by wall clock still has a clock that never goes
    back. *)
Theorem apply_touches_one_mission p e p' id m :
  apply p e = Ok p' → missions p !! id = Some m →
  ∃ m', missions p' !! id = Some m'
    ∧ (event_mission_id e ≠ id → m' = m)
    ∧ (event_mission_id e = id →
       pm_updated_at_millis m' = N.max (event_at e) (pm_updated_at_millis m)).
Proof.
  intros Hok Hm. destruct (apply_at p e p' id m Hm Hok) as (m' & Hm' & [[Hne ->]|[Heq Hh]]).
  - by exists m.
  - exists m'. split_and!; [done|done|]. intros _. by rewrite (apply_mission_clock _ _ _ Hh).
Qed.

Lemma archived_handler m e m' :
  pm_status m = MissionStatus.Archived → apply_mission m e = Ok m' →
  pm_status m' = MissionStatus.Archived ∧ pm_run m' = pm_run m
  ∧ pm_run_history m' = pm_run_history m ∧ pm_ready_receipt m' = pm_ready_receipt m
  ∧ pm_archive_receipt m' = pm_archive_receipt m
  ∧ pm_latest_evidence_pack m' = pm_latest_evidence_pack m
  ∧ pm_check_declarations m' = pm_check_declarations m.
Proof.
  intros Hst Hok.
  by destruct e; try discriminate Hok; handler_inv Hok; rewrite ?Hst in *.
Qed.

(** An archived mission is closed for good: whatever events follow, it
    stays archived, with the receipts, runs, closure plan and evidence pack it
    was archived with. *)
Theorem archived_forever p es p' id m :
  missions p !! id = Some m → pm_status m = MissionStatus.Archived →
  try_fold apply p es = Ok p' →
  ∃ m', missions p' !! id = Some m' ∧ pm_status m' = MissionStatus.Archived
    ∧ pm_run m' = pm_run m ∧ pm_run_history m' = pm_run_history m
    ∧ pm_ready_receipt m' = pm_ready_receipt m ∧ pm_archive_receipt m' = pm_archive_receipt m
    ∧ pm_latest_evidence_pack m' = pm_latest_evidence_pack m
    ∧ pm_check_declarations m' = pm_check_declarations m.
Proof.
  intros Hm Hst. apply (try_fold_ind (λ q, ∃ m', missions q !! id = Some m' ∧ _)).
  { exists m. by split_and!. }
  intros t e t' (n & Hn & Hnst & Heqs) Hok.
  destruct (apply_at t e t' id n Hn Hok) as (m' & Hm' & [[_ ->]|[_ Hh]]); [by exists n|].
  exists m'. destruct (archived_handler _ _ _ Hnst Hh) as (-> & -> & -> & -> & -> & -> & ->).
  exact (conj Hm' (conj eq_refl Heqs)).
Qed.

(** A mission becomes ready to close or archived by no other event than
    the one that carries its proof receipt.  To become archived it must have
    been ready to close, and the receipt must be a fresh proof of the very
    subject the ready receipt sealed: a later authority sequence, verified no
    earlier, and not in the future of the mission's clock. *)
Theorem sealed_status_needs_proof p e p' id m m' :
  apply p e = Ok p' → missions p !! id = Some m → missions p' !! id = Some m' →
  pm_status m' ≠ pm_status m →
  (pm_status m' = MissionStatus.ReadyToClose →
   ∃ receipt actor reason at_,
     e = Event.MissionReady id receipt actor reason at_
     ∧ pm_status m = MissionStatus.ReviewRequired ∧ pm_ready_receipt m' = Some receipt
     ∧ (pr_verified_at_millis receipt ≤ pm_updated_at_millis m')%N)
  ∧ (pm_status m' = MissionStatus.Archived →
   ∃ ready receipt actor reason at_,
     e = Event.MissionArchived id receipt (pr_seal_digest ready) actor reason at_
     ∧ pm_status m = MissionStatus.ReadyToClose ∧ pm_ready_receipt m = Some ready
     ∧ pm_archive_receipt m' = Some receipt
     ∧ pr_subject_digest receipt = pr_subject_digest ready
     ∧ (pr_authority_sequence ready < pr_authority_sequence receipt)%N
     ∧ (pr_verified_at_millis ready ≤ pr_verified_at_millis receipt)%N
     ∧ (pr_verified_at_millis receipt ≤ pm_updated_at_millis m')%N).
Proof.
  intros Hok Hm Hm' Hne. destruct (apply_at p e p' id m Hm Hok) as (n & Hn & Hcase).
  rewrite Hm' in Hn. injection Hn as <-. destruct Hcase as [[_ ->]|[<- Hh]]; [done|].
  destruct e; try discriminate Hh; handler_inv Hh; try done; cbn in *; try done.
  - split; [|done]. intros _. by eexists _, _, _, _.
  - split; [done|]. intros _.
    match goal with Hr : pm_ready_receipt m = Some ?r |- _ => exists r, receipt end.
    do 3 eexists. split; [by f_equal|]. by split_and!.
Qed.

(** Replies *)

Lemma find_response_filed m key r :
  find_response m key = Some r ↔ pm_responses m !! key_digest key = Some r ∧ pra_key r = key.
Proof.
  unfold find_response. destruct (pm_responses m !! key_digest key) as [r'|]; cbn; [|naive_solver].
  case_bool_decide; naive_solver.
Qed.

Lemma outstanding_item m key r :
  replies_ok m → find_response m key = Some r → outstanding (pra_state r) = true →
  ∃ a, pm_attention m !! rak_attention_id key = Some a ∧ awaits (pra_state r) = Some (pa_state a).
Proof. intros (_ & (Hout & _) & _) [Hr <-]%find_response_filed. by apply (Hout _ _ Hr). Qed.

(** C33: A reply that was sent out can always be settled.  In a projection made
    of recorded events, an acknowledgement of an outstanding reply and a
    failure report of a requested one are accepted; the acknowledgement
    resolves the attention item, a failure known not to have been applied
    opens it for the next attempt, and an unknown delivery leaves it waiting
    for a reconciliation, which an acknowledgement still settles. *)
Theorem outstanding_reply_settles es p id key r :
  project es = Ok p → (m ← missions p !! id; find_response m key) = Some r →
  (outstanding (pra_state r) = true → ∀ hash at_,
     ∃ p', apply p (Event.ResponseAcknowledged id key hash at_) = Ok p'
       ∧ attention_state p' id (rak_attention_id key) = Some PersistedAttentionState.Resolved
       ∧ response_state p' id key = Some (PersistedResponseState.Acknowledged hash))
  ∧ (pra_state r = PersistedResponseState.Requested → ∀ disposition code at_,
     ∃ p', apply p (Event.ResponseFailed id key disposition code at_) = Ok p'
       ∧ attention_state p' id (rak_attention_id key)
         = Some match disposition with
                | ResponseFailureDisposition.DefinitelyNotApplied => PersistedAttentionState.Open
                | ResponseFailureDisposition.DeliveryUnknown =>
                    PersistedAttentionState.ReconciliationRequired
                end).
Proof.
  intros Hp (m & Hm & Hfind)%bind_Some.
  assert (Hok : mission_ok id m) by (by apply (project_ok es p Hp)).
  apply mission_ok_alt in Hok as [Hrep _].
  pose proof (outstanding_item m key r Hrep Hfind) as Hitem.
  pose proof (proj2 (proj1 (find_response_filed m key r) Hfind)) as Hkey. split.
  - intros Hor hash at_. destruct (Hitem Hor) as (a & Ha & _).
    eexists. split; [apply apply_mission_ok_apply with m; [exact Hm|]|].
    + cbn [apply_mission]. unfold apply_response_acknowledged. cbv zeta.
      rewrite Hfind. cbn [ok_or mbind result_bind].
      replace (match pra_state r with _ => _ end) with false by (by destruct (pra_state r)).
      unfold settle_response. cbn [reject_if mbind result_bind]. by rewrite Ha.
    + unfold attention_state, response_state, find_response. cbn. rewrite lookup_insert_eq. cbn.
      rewrite !lookup_insert_eq. cbn. by rewrite bool_decide_true.
  - intros Hreq disposition code at_. destruct (Hitem ltac:(by rewrite Hreq)) as (a & Ha & _).
    destruct disposition; (eexists; split; [apply apply_mission_ok_apply with m; [exact Hm|];
      cbn [apply_mission]; unfold apply_response_failed; cbv zeta;
      rewrite Hfind; cbn [ok_or mbind result_bind]; rewrite bool_decide_true by done;
      unfold settle_response; cbn [negb reject_if mbind result_bind]; by rewrite Ha
      |unfold attention_state; cbn; rewrite lookup_insert_eq; cbn; by rewrite lookup_insert_eq]).
Qed.

Lemma attempts_bound m aid gen n d r :
  expected_attempt m aid gen = Ok n → pm_responses m !! d = Some r →
  rak_attention_id (pra_key r) = aid → rak_request_generation (pra_key r) = gen →
  (rak_attempt (pra_key r) < n)%N.
Proof.
  intros Hn Hr Haid Hgen. unfold expected_attempt in Hn.
  apply ok_or_ok, checked_add_some in Hn as [-> _].
  set (attempts := _ <$> _) in *.
  assert (Hin : rak_attempt (pra_key r) ∈ attempts).
  { subst attempts. apply list_elem_of_fmap. exists r. split; [done|].
    apply list_elem_of_filter. split; [done|]. apply elem_of_btree_values. by exists d. }
  destruct (max_option attempts) as [mx|] eqn:Hmx; cbn.
  - apply max_option_spec in Hmx as [_ Hle]. specialize (Hle _ Hin). lia.
  - destruct attempts; [by apply not_elem_of_nil in Hin|done].
Qed.

(** The attempt number the store hands out for a reply is the one it
    accepts.  For an open item and a route that matches the current run, the
    request with that number is recorded and the item then waits for it, unless
    a different request has the same digest; a request with any other number
    is refused. *)
Theorem next_attempt_is_accepted es p id m run aid gen n route :
  project es = Ok p → missions p !! id = Some m → pm_run m = Some run →
  validate_for_run route run = Ok tt → next_response_attempt p id aid gen = Ok n →
  (∀ decision actor at_,
     (∃ p', apply p (Event.ResponseRequested id (mkResponseAttemptKey aid gen n) route decision
                       actor at_) = Ok p'
        ∧ attention_state p' id aid = Some PersistedAttentionState.PendingResponse
        ∧ response_state p' id (mkResponseAttemptKey aid gen n)
          = Some PersistedResponseState.Requested)
     ∨ ∃ key, key ≠ mkResponseAttemptKey aid gen n
         ∧ key_digest key = key_digest (mkResponseAttemptKey aid gen n))
  ∧ (∀ k decision actor at_, k ≠ n →
     ∃ e, apply p (Event.ResponseRequested id (mkResponseAttemptKey aid gen k) route decision
                     actor at_) = Err e).
Proof.
  intros Hp Hm Hrun Hroute Hnext.
  assert (Hok : mission_ok id m) by (by apply (project_ok es p Hp)).
  unfold next_response_attempt in Hnext. rewrite Hm in Hnext. cbn [ok_or mbind result_bind] in Hnext.
  apply bind_ok in Hnext as (a & Ha%ok_or_ok & Hnext).
  apply bind_ok in Hnext as ([] & Hopen & Hexp).
  apply reject_if_ok, orb_false_iff in Hopen as [Hopen%negb_false_iff%bool_decide_eq_true _].
  split.
  - intros decision actor at_.
    destruct (pm_responses m !! key_digest (mkResponseAttemptKey aid gen n)) as [r|] eqn:Hr.
    + right. exists (pra_key r). destruct Hok as (Hfiled & _).
      destruct (Hfiled _ _ Hr) as (Hd & _). split; [|done]. intros Hkey.
      pose proof (attempts_bound m aid gen n _ r Hexp Hr) as Hlt. rewrite Hkey in Hlt.
      specialize (Hlt eq_refl eq_refl). cbn in Hlt. lia.
    + left. eexists. split; [apply apply_mission_ok_apply with m; [exact Hm|]|].
      * cbn [apply_mission]. unfold apply_response_requested. cbv zeta. rewrite Hrun.
        cbn [ok_or mbind result_bind]. rewrite Hroute. cbn [mbind result_bind rak_attention_id].
        rewrite Ha. cbn [ok_or mbind result_bind].
        rewrite (bool_decide_true (pa_state a = PersistedAttentionState.Open)) by done.
        cbn [negb reject_if mbind result_bind]. rewrite Hr.
        cbn [rak_request_generation rak_attempt]. rewrite Hexp. cbn [mbind result_bind].
        by rewrite N.eqb_refl.
      * unfold attention_state, response_state, find_response. cbn. rewrite lookup_insert_eq. cbn.
        rewrite !lookup_insert_eq. cbn. by rewrite bool_decide_true.
  - intros k decision actor at_ Hk. unfold apply, mission_mut. cbn [event_mission_id]. rewrite Hm.
    cbn [ok_or mbind result_bind apply_mission]. unfold apply_response_requested. cbv zeta.
    rewrite Hrun. cbn [ok_or mbind result_bind]. rewrite Hroute.
    cbn [mbind result_bind rak_attention_id]. rewrite Ha. cbn [ok_or mbind result_bind].
    rewrite (bool_decide_true (pa_state a = PersistedAttentionState.Open)) by done. cbn [negb reject_if mbind result_bind].
    case_bool_decide; cbn [reject_if mbind result_bind]; [by eexists|].
    cbn [rak_request_generation rak_attempt]. rewrite Hexp. cbn [mbind result_bind].
    apply N.eqb_neq in Hk. rewrite Hk. by eexists.
Qed.

(** A handoff to another provider starts from nothing that was proved
    before.  When a continued run is recorded, the mission had no unresolved
    attention and its run had the same worktree, base and permissions but
    another provider; after it no receipt and no evidence pack remain, every
    check is stale, and until a session is bound no reply can be sent. *)
Theorem handoff_invalidates_proof p p' id m source run provider mode worktree base checks recipe
    artifact at_ :
  apply p (Event.RunContinued id source run provider mode worktree base checks recipe artifact at_)
    = Ok p' → missions p !! id = Some m →
  unresolved_attention_ids p id = Ok ∅
  ∧ ∃ old m', missions p' !! id = Some m'
    ∧ pm_run m = Some old ∧ run_id old = source ∧ run_provider old ≠ provider
    ∧ run_worktree_path old = worktree ∧ run_base_revision old = base
    ∧ pm_run_history m' = pm_run_history m ++ [old]
    ∧ pm_status m' = MissionStatus.Preparing
    ∧ pm_ready_receipt m' = None ∧ pm_archive_receipt m' = None
    ∧ pm_latest_evidence_pack m' = None
    ∧ dom (pm_evidence m') = dom (pm_evidence m)
    ∧ map_Forall (λ _ e, pe_status e = EvidenceStatus.Stale) (pm_evidence m')
    ∧ ∀ key route decision actor at_',
        ∃ e, apply p' (Event.ResponseRequested id key route decision actor at_') = Err e.
Proof.
  intros Hok Hm. destruct (apply_at _ _ _ id m Hm Hok) as (m' & Hm' & [[? _]|[_ Hh]]); [done|].
  cbn [apply_mission] in Hh. unfold apply_run_continued in Hh.
  apply bind_ok in Hh as ([] & Hst & Hh). apply bind_ok in Hh as ([] & Hidle%reject_if_ok & Hh).
  apply bind_ok in Hh as (old & Hold & Hh). apply bind_ok in Hh as ([] & Hsame & Hh).
  apply bind_ok in Hh as ([] & Hprov & Hh). apply bind_ok in Hh as ([] & Hnew & Hh).
  cbv zeta in Hh. apply Ok_inj in Hh. subst m'. split.
  - unfold unresolved_attention_ids. rewrite Hm. cbn [ok_or mbind result_bind]. f_equal.
    apply dom_empty_iff_L, map_empty. intros i.
    apply map_lookup_filter_None_2. right. intros a Ha Hun. cbn in Hun.
    assert (Hex : existsb (λ a, attention_unresolved (pa_state a)) (str_values (pm_attention m))
                  = true); [|congruence].
    apply existsb_exists. exists a. split; [|done].
    apply list_elem_of_In, elem_of_btree_values. by exists i.
  - inv_ok. exists old. eexists. split; [exact Hm'|]. cbn. split_and!; try done.
    + apply set_eq. intros i. rewrite !elem_of_dom, lookup_fmap. by rewrite fmap_is_Some.
    + intros i e He. rewrite lookup_fmap_Some in He. by destruct He as (? & <- & _).
    + intros key route decision actor at_'. unfold apply, mission_mut. cbn [event_mission_id].
      rewrite Hm'. cbn. unfold validate_for_run. cbn. rewrite orb_true_r. by eexists.
Qed.

(** A mission that left the draft state without a run *)
Lemma runless_handler m e m' :
  pm_run m = None → pm_status m ≠ MissionStatus.Draft → apply_mission m e = Ok m' →
  pm_run m' = None ∧ pm_status m' ≠ MissionStatus.Draft.
Proof.
  intros Hrun Hst Hok.
  destruct e; try discriminate Hok; handler_inv Hok; try congruence; try done.
  split; [done|]. cbn. intros ->. by destruct (pm_status m).
Qed.

(** The store accepts a status change of a draft mission to preparing,
    although only a started run should prepare one; from then on the mission
    is stuck: whatever events follow, it never gets a run. *)
Theorem prepared_draft_is_stuck p id m at_ :
  missions p !! id = Some m → pm_status m = MissionStatus.Draft → pm_run m = None →
  ∃ p1, apply p (Event.StatusChanged id MissionStatus.Preparing at_) = Ok p1
    ∧ ∀ es p2, try_fold apply p1 es = Ok p2 →
       ∃ m2, missions p2 !! id = Some m2 ∧ pm_run m2 = None
         ∧ (∀ run provider mode worktree base checks recipe at_',
              apply p2 (Event.RunStarted id run provider mode worktree base checks recipe at_')
              = Err MissionStoreError.RunAlreadyStarted).
Proof.
  intros Hm Hst Hrun. eexists. split.
  { apply apply_mission_ok_apply with m; [exact Hm|]. cbn [apply_mission].
    unfold apply_status_changed. rewrite Hst. reflexivity. }
  intros es p2 Hes.
  assert (H2 : ∃ m2, missions p2 !! id = Some m2 ∧ pm_run m2 = None
                     ∧ pm_status m2 ≠ MissionStatus.Draft).
  { revert Hes. apply (try_fold_ind (λ q, ∃ m2, missions q !! id = Some m2 ∧ _)).
    - eexists. cbn. rewrite lookup_insert_eq. by split_and!.
    - intros t e t' (n & Hn & Hnr & Hns) Hok.
      destruct (apply_at t e t' id n Hn Hok) as (m' & Hm' & [[_ ->]|[_ Hh]]); [by exists n|].
      exists m'. split; [done|]. by apply (runless_handler n e). }
  destruct H2 as (m2 & Hm2 & Hr2 & Hs2). exists m2. split; [done|]. split; [done|].
  intros. unfold apply, mission_mut. cbn [event_mission_id]. rewrite Hm2.
  cbn [ok_or mbind result_bind apply_mission]. unfold apply_run_started. cbv zeta.
  by rewrite (bool_decide_false (pm_status m2 = MissionStatus.Draft)) by done.
Qed.

(** What the views show agrees with the projection: the unresolved count
    of a mission's view is the number of items that hold a handoff back, the
    views list every mission once, in ascending order of identifier, and an
    attention view is shown for every item of every mission. *)
Theorem views_agree p :
  (∀ id v, mission_view p id = Some v →
     ∃ ids, unresolved_attention_ids p id = Ok ids
       ∧ mv_unresolved_attention_count v = N.of_nat (size ids))
  ∧ StronglySorted String.le (mv_mission_id <$> mission_views p)
  ∧ (∀ v, v ∈ mission_views p ↔ mission_view p (mv_mission_id v) = Some v)
  ∧ (∀ id aid, (∃ v, v ∈ attention_views p ∧ dav_mission_id v = id ∧ dav_attention_id v = aid)
       ↔ is_Some (attention_state p id aid)).
Proof.
  split_and!.
  - intros id v (m & Hm & ->)%fmap_Some. eexists. unfold unresolved_attention_ids. rewrite Hm.
    split; [reflexivity|]. cbn. unfold vec_len. by rewrite btree_values_filter, size_dom.
  - unfold mission_views. rewrite <- list_fmap_compose. apply (btree_keys_sorted String.le).
  - intros v. unfold mission_views. rewrite list_elem_of_fmap. split.
    + intros ([i m] & -> & Him%elem_of_btree_entries). cbn. unfold mission_view. by rewrite Him.
    + intros (m & Hm & Hv)%fmap_Some. exists (mv_mission_id v, m).
      split; [done|]. by apply elem_of_btree_entries.
  - intros id aid. unfold attention_views, attention_state. split.
    + intros (v & Hv & <- & <-). apply list_elem_of_bind in Hv as ([i m] & Hv & Him).
      apply elem_of_btree_entries in Him. apply list_elem_of_fmap in Hv as ([j a] & -> & Hj).
      apply elem_of_btree_entries in Hj. cbn in *. rewrite Him. cbn. rewrite Hj. by eexists.
    + intros [st (m & Hm & (a & Ha & _)%fmap_Some)%bind_Some]. eexists. split.
      { apply list_elem_of_bind. exists (id, m). split; [|by apply elem_of_btree_entries].
        apply list_elem_of_fmap. exists (aid, a). split; [reflexivity|].
        by apply elem_of_btree_entries. }
      done.
Qed.

(** The reply shown with an attention item is chosen by its attempt number
    alone, although numbers start over with every request generation: a reply
    is not shown while an older generation got further, even when it is the
    one the item is waiting for. *)
Theorem shown_reply_ignores_generation m r r' d d' :
  pm_responses m !! d = Some r → pm_responses m !! d' = Some r' →
  rak_attention_id (pra_key r') = rak_attention_id (pra_key r) →
  (rak_attempt (pra_key r) < rak_attempt (pra_key r'))%N →
  shown_response m (rak_attention_id (pra_key r)) ≠ Some r.
Proof.
  intros Hr Hr' Hid Hlt [_ Hmax]%max_by_key_spec. specialize (Hmax r').
  assert (rak_attempt (pra_key r') ≤ rak_attempt (pra_key r))%N; [|lia].
  apply Hmax, list_elem_of_filter. split; [done|]. apply elem_of_btree_values. by exists d'.
Qed.
End theorems.

(** ** Witnesses *)

Module ProjectionDemo.
#[local] Existing Instance mixing_sha256.

Definition base : string := "0123456789012345678901234567890123456789".
Definition checks : list CheckDeclaration :=
  [covers EvidenceDemo.review (criterion_ids ["works"])].
Definition route : PersistedResponseRoute :=
  PersistedResponseRoute_managed ProviderKind.Codex "r1" "s1" "q".
Definition key (generation attempt : N) := mkResponseAttemptKey "a1" generation attempt.
Definition request (generation attempt at_ : N) : PersistableMissionEvent :=
  Event.ResponseRequested "m" (key generation attempt) route AttentionDecision.ApproveOnce "ana" at_.
Definition failed (generation attempt at_ : N) : PersistableMissionEvent :=
  Event.ResponseFailed "m" (key generation attempt) ResponseFailureDisposition.DefinitelyNotApplied
    ResponseFailureCode.Rejected at_.
Definition receipt (sequence at_ : N) : ProofReceipt :=
  mkProofReceipt "subject" "seal" "head" "lease" sequence at_.

Definition drafted : list PersistableMissionEvent :=
  [Event.MissionCreated "m" "Title" "/repo" (repository_path_hash "/repo") "Objective" ["works"] 1;
   Event.ClosureConfigured "m" checks 2].
Definition started : list PersistableMissionEvent :=
  drafted ++
  [Event.RunStarted "m" "r1" ProviderKind.Codex ProviderMode.Managed "/tree" base true false 3;
   Event.ProviderSessionBound "m" "r1" "s1" 4;
   Event.AttentionChanged "m" "a1" PersistedAttentionState.Open AttentionRisk.Low 5].
Definition requested : list PersistableMissionEvent := started ++ [request 1 1 6].
Definition regenerated : list PersistableMissionEvent :=
  requested ++ [failed 1 1 7; request 1 2 8; failed 1 2 9; request 2 1 10].
Definition reviewed : list PersistableMissionEvent :=
  requested ++
  [Event.ResponseAcknowledged "m" (key 1 1) None 7;
   Event.StatusChanged "m" MissionStatus.ReviewRequired 8;
   Event.EvidenceChanged "m" "review" EvidenceStatus.Passed "hash" 8;
   Event.MissionReady "m" (receipt 5 8) "verifier" "why" 9].
Definition archive : PersistableMissionEvent :=
  Event.MissionArchived "m" (receipt 7 9) "seal" "verifier" "why" 10.
Definition continue : PersistableMissionEvent :=
  Event.RunContinued "m" "r1" "r2" ProviderKind.ClaudeCode ProviderMode.Managed "/tree" base true
    false "artifact" 10.

Definition get (r : result MissionStoreError MissionProjection) : MissionProjection :=
  match r with Ok p => p | Err _ => MissionProjection_default end.
Definition mission_of (p : MissionProjection) : PersistedMission :=
  default (new_mission "" "" "" "" [] 0) (missions p !! "m").

(** Projections along the way *)
Definition after (es : list PersistableMissionEvent) : MissionProjection :=
  get (@project mixing_sha256 es).
Definition next (p : MissionProjection) (e : PersistableMissionEvent) : MissionProjection :=
  get (@apply mixing_sha256 p e).

Lemma get_ok r : is_ok r = true → r = Ok (get r).
Proof. by destruct r. Qed.
Lemma mission_of_some p : bool_decide (is_Some (missions p !! "m")) = true →
  missions p !! "m" = Some (mission_of p).
Proof. intros [m Hm]%bool_decide_eq_true. unfold mission_of. by rewrite Hm. Qed.
End ProjectionDemo.

Lemma projection_invariant_witness :
  @projection_ok mixing_sha256 (ProjectionDemo.after ProjectionDemo.regenerated).
Proof.
  apply (@projection_invariant mixing_sha256 ProjectionDemo.regenerated).
  apply ProjectionDemo.get_ok. vm_compute. reflexivity.
Defined.

Lemma apply_touches_one_mission_witness :
  ∃ m', missions (ProjectionDemo.next (ProjectionDemo.after ProjectionDemo.reviewed)
                    ProjectionDemo.archive) !! "m" = Some m' ∧ pm_updated_at_millis m' = 10%N.
Proof.
  destruct (@apply_touches_one_mission mixing_sha256
              (ProjectionDemo.after ProjectionDemo.reviewed) ProjectionDemo.archive
              (ProjectionDemo.next (ProjectionDemo.after ProjectionDemo.reviewed)
                 ProjectionDemo.archive) "m"
              (ProjectionDemo.mission_of (ProjectionDemo.after ProjectionDemo.reviewed)))
    as (m' & Hm' & _ & Hclock).
  - apply ProjectionDemo.get_ok. vm_compute. reflexivity.
  - apply ProjectionDemo.mission_of_some. vm_compute. reflexivity.
  - exists m'. split; [exact Hm'|]. rewrite (Hclock eq_refl). vm_compute. reflexivity.
Defined.

Lemma archived_forever_witness :
  let p := ProjectionDemo.after (ProjectionDemo.reviewed ++ [ProjectionDemo.archive]) in
  let later := [Event.WorktreeClaimed "m" "elsewhere" 11;
                Event.EvidenceChanged "m" "review" EvidenceStatus.Failed "hash" 12] in
  ∃ m', missions (ProjectionDemo.get (try_fold (@apply mixing_sha256) p later)) !! "m" = Some m'
    ∧ pm_status m' = MissionStatus.Archived.
Proof.
  intros p later.
  destruct (@archived_forever mixing_sha256 p later
              (ProjectionDemo.get (try_fold (@apply mixing_sha256) p later)) "m"
              (ProjectionDemo.mission_of p)) as (m' & Hm' & Hst & _).
  - apply ProjectionDemo.mission_of_some. vm_compute. reflexivity.
  - vm_compute. reflexivity.
  - apply ProjectionDemo.get_ok. vm_compute. reflexivity.
  - exists m'. split; [exact Hm'|exact Hst].
Defined.

Lemma sealed_status_needs_proof_witness :
  ∃ ready, pm_ready_receipt (ProjectionDemo.mission_of
             (ProjectionDemo.after ProjectionDemo.reviewed)) = Some ready
    ∧ (pr_authority_sequence ready < 7)%N.
Proof.
  destruct (@sealed_status_needs_proof mixing_sha256
              (ProjectionDemo.after ProjectionDemo.reviewed) ProjectionDemo.archive
              (ProjectionDemo.next (ProjectionDemo.after ProjectionDemo.reviewed)
                 ProjectionDemo.archive) "m"
              (ProjectionDemo.mission_of (ProjectionDemo.after ProjectionDemo.reviewed))
              (ProjectionDemo.mission_of (ProjectionDemo.next
                 (ProjectionDemo.after ProjectionDemo.reviewed) ProjectionDemo.archive)))
    as [_ Harchived].
  - apply ProjectionDemo.get_ok. vm_compute. reflexivity.
  - apply ProjectionDemo.mission_of_some. vm_compute. reflexivity.
  - apply ProjectionDemo.mission_of_some. vm_compute. reflexivity.
  - vm_compute. intros Heq. discriminate Heq.
  - destruct (Harchived ltac:(vm_compute; reflexivity))
      as (ready & receipt & actor & reason & at_ & He & _ & Hready & _ & _ & Hseq & _).
    exists ready. split; [exact Hready|]. injection He as <- _ _ _ _. exact Hseq.
Defined.

Lemma outstanding_reply_settles_witness :
  ∃ p', @apply mixing_sha256 (ProjectionDemo.after ProjectionDemo.regenerated)
          (Event.ResponseAcknowledged "m" (ProjectionDemo.key 2 1) None 11) = Ok p'
    ∧ attention_state p' "m" "a1" = Some PersistedAttentionState.Resolved.
Proof.
  set (p := ProjectionDemo.after ProjectionDemo.regenerated).
  assert (Hp : @project mixing_sha256 ProjectionDemo.regenerated = Ok p)
    by (apply ProjectionDemo.get_ok; vm_compute; reflexivity).
  assert (Hor : (r ← (m ← missions p !! "m"; @find_response mixing_sha256 m (ProjectionDemo.key 2 1));
                 Some (outstanding (pra_state r))) = Some true) by (vm_compute; reflexivity).
  destruct (m ← missions p !! "m"; @find_response mixing_sha256 m (ProjectionDemo.key 2 1))
    as [r|] eqn:Hr; [|discriminate Hor]. injection Hor as Hor.
  destruct (proj1 (@outstanding_reply_settles mixing_sha256 ProjectionDemo.regenerated p "m"
              (ProjectionDemo.key 2 1) r Hp Hr) Hor None 11%N) as (p' & Hp' & Hst & _).
  exists p'. split; [exact Hp'|exact Hst].
Defined.

Lemma next_attempt_is_accepted_witness :
  ∃ e, @apply mixing_sha256 (ProjectionDemo.after ProjectionDemo.started)
         (ProjectionDemo.request 1 2 6) = Err e.
Proof.
  set (p := ProjectionDemo.after ProjectionDemo.started).
  assert (Hp : @project mixing_sha256 ProjectionDemo.started = Ok p)
    by (apply ProjectionDemo.get_ok; vm_compute; reflexivity).
  assert (Hroute : (run ← pm_run (ProjectionDemo.mission_of p);
                    Some (validate_for_run ProjectionDemo.route run)) = Some (Ok tt))
    by (vm_compute; reflexivity).
  destruct (pm_run (ProjectionDemo.mission_of p)) as [run|] eqn:Hrun; [|discriminate Hroute].
  injection Hroute as Hroute.
  assert (Hm : missions p !! "m" = Some (ProjectionDemo.mission_of p))
    by (apply ProjectionDemo.mission_of_some; vm_compute; reflexivity).
  exact (proj2 (@next_attempt_is_accepted mixing_sha256 ProjectionDemo.started p "m"
    (ProjectionDemo.mission_of p) run "a1" 1 1 ProjectionDemo.route Hp Hm Hrun
    Hroute
    ltac:(vm_compute; reflexivity)) 2%N AttentionDecision.ApproveOnce "ana" 6%N
    ltac:(intros Heq; discriminate Heq)).
Defined.

Lemma handoff_invalidates_proof_witness :
  let p := ProjectionDemo.after ProjectionDemo.reviewed in
  unresolved_attention_ids p "m" = Ok ∅
  ∧ pm_ready_receipt (ProjectionDemo.mission_of (ProjectionDemo.next p ProjectionDemo.continue))
    = None.
Proof.
  intros p.
  destruct (@handoff_invalidates_proof mixing_sha256 p
              (ProjectionDemo.next p ProjectionDemo.continue) "m" (ProjectionDemo.mission_of p)
              "r1" "r2" ProviderKind.ClaudeCode ProviderMode.Managed "/tree" ProjectionDemo.base
              true false "artifact" 10%N) as (Hidle & _).
  - apply ProjectionDemo.get_ok. vm_compute. reflexivity.
  - apply ProjectionDemo.mission_of_some. vm_compute. reflexivity.
  - split; [exact Hidle|]. vm_compute. reflexivity.
Defined.

Lemma prepared_draft_is_stuck_witness :
  ∃ p1, @apply mixing_sha256 (ProjectionDemo.after ProjectionDemo.drafted)
          (Event.StatusChanged "m" MissionStatus.Preparing 3) = Ok p1.
Proof.
  set (p := ProjectionDemo.after ProjectionDemo.drafted).
  destruct (@prepared_draft_is_stuck mixing_sha256 p "m" (ProjectionDemo.mission_of p) 3%N)
    as (p1 & Hp1 & _).
  - apply ProjectionDemo.mission_of_some. vm_compute. reflexivity.
  - vm_compute. reflexivity.
  - vm_compute. reflexivity.
  - exists p1. exact Hp1.
Defined.

Lemma shown_reply_ignores_generation_witness :
  let m := ProjectionDemo.mission_of (ProjectionDemo.after ProjectionDemo.regenerated) in
  ∃ r, pm_responses m !! @key_digest mixing_sha256 (ProjectionDemo.key 2 1) = Some r
    ∧ pra_state r = PersistedResponseState.Requested ∧ shown_response m "a1" ≠ Some r.
Proof.
  intros m.
  assert (Hboth : (r ← pm_responses m !! @key_digest mixing_sha256 (ProjectionDemo.key 2 1);
                   r' ← pm_responses m !! @key_digest mixing_sha256 (ProjectionDemo.key 1 2);
                   Some (pra_state r, pra_key r, pra_key r'))
                  = Some (PersistedResponseState.Requested, ProjectionDemo.key 2 1,
                          ProjectionDemo.key 1 2)) by (vm_compute; reflexivity).
  destruct (pm_responses m !! @key_digest mixing_sha256 (ProjectionDemo.key 2 1)) as [r|] eqn:Hr;
    [|discriminate Hboth].
  destruct (pm_responses m !! @key_digest mixing_sha256 (ProjectionDemo.key 1 2)) as [r'|] eqn:Hr';
    [|discriminate Hboth].
  injection Hboth as Hst Hk Hk'. exists r. split; [reflexivity|]. split; [exact Hst|].
  pose proof (shown_reply_ignores_generation m r r' _ _ Hr Hr') as Hstale.
  rewrite Hk, Hk' in Hstale. apply Hstale; reflexivity.
Defined.
