(* ===== verification/Store.v ===== *)
(** * The mission store ([src/mission/store.rs], [MissionStore])

    The single writer of a session's journal: the commit protocol (journal
    first, then the head, then memory), recovery when it opens, the snapshot
    that speeds recovery up, and the fence that hands the journal over to
    another process.

    The files of the store's directory are a [Disk].  Whether a write, a
    rename or a sync fails, and how much of it took effect, are arguments; a
    read fails only where a file is missing or too large.  Symbolic links,
    owners and permissions are not modelled: every file is a private regular
    file.  [serde_json] is a class: the encoders and decoders the code calls,
    and the laws of a serialiser that the proofs use. *)

From S2P Require Export Projection.

(** ** Constants and data *)

Definition STORE_VERSION : N := 2.
Definition MAX_HEAD_BYTES : N := 64 * 1024.
Definition MAX_SNAPSHOT_BYTES : N := 16 * 1024 * 1024.

Record SequencedMissionEvent := mkSequencedMissionEvent {
  sme_version : N;
  sme_sequence : N;
  sme_event_id : string;
  sme_previous_hash : RecordHash;
  sme_projection_digest_after : StateHash;
  sme_event : PersistableMissionEvent;
}.
#[export] Instance SequencedMissionEvent_eq_dec : EqDecision SequencedMissionEvent.
Proof. solve_decision. Defined.

Record EventIndexEntry := mkEventIndexEntry {
  eie_sequence : N;
  eie_event_fingerprint : string;
}.
#[export] Instance EventIndexEntry_eq_dec : EqDecision EventIndexEntry.
Proof. solve_decision. Defined.

Abbreviation EventIndex := (gmap string EventIndexEntry).

Record JournalHead := mkJournalHead {
  jh_version : N;
  jh_sequence : N;
  jh_record_hash : RecordHash;
}.
#[export] Instance JournalHead_eq_dec : EqDecision JournalHead.
Proof. solve_decision. Defined.

(** [JournalHead::EMPTY] *)
Definition JournalHead_EMPTY : JournalHead := mkJournalHead STORE_VERSION 0 RecordHash_ZERO.

Record MissionSnapshot := mkMissionSnapshot {
  sn_version : N;
  sn_last_sequence : N;
  sn_last_record_hash : RecordHash;
  sn_journal_offset : N;
  sn_projection : MissionProjection;
  sn_event_index : EventIndex;
  sn_state_digest : StateHash;
}.
#[export] Instance MissionSnapshot_eq_dec : EqDecision MissionSnapshot.
Proof. solve_decision. Defined.

Record SnapshotAnchor := mkSnapshotAnchor {
  an_version : N;
  an_last_sequence : N;
  an_last_record_hash : RecordHash;
  an_journal_offset : N;
  an_state_digest : StateHash;
}.

(** The fields of a snapshot that [SnapshotAnchor] reads *)
Definition anchor_of (snapshot : MissionSnapshot) : SnapshotAnchor :=
  mkSnapshotAnchor (sn_version snapshot) (sn_last_sequence snapshot) (sn_last_record_hash snapshot)
    (sn_journal_offset snapshot) (sn_state_digest snapshot).

Record CommitOutcome := mkCommitOutcome { co_sequence : N; co_was_duplicate : bool }.

Record HandoffFence := mkHandoffFence {
  hf_journal_format : N;
  hf_store_version : N;
  hf_sequence : N;
  hf_record_hash : RecordHash;
}.
#[export] Instance HandoffFence_eq_dec : EqDecision HandoffFence.
Proof. solve_decision. Defined.

(** [HandoffFence::from_head] *)
Definition fence_from_head (head : JournalHead) : HandoffFence :=
  mkHandoffFence FRAME_VERSION STORE_VERSION (jh_sequence head) (jh_record_hash head).

Record VerifiedSnapshot := mkVerifiedSnapshot {
  vs_checkpoint : ReplayCheckpoint;
  vs_projection : MissionProjection;
  vs_event_index : EventIndex;
}.

Module SnapshotLoad.
Inductive SnapshotLoad :=
| Missing
| Corrupt
| Untrusted (anchor : SnapshotAnchor) (contents : bytes).
End SnapshotLoad.
Abbreviation SnapshotLoad := SnapshotLoad.SnapshotLoad.

(** [SnapshotLoad::sequence] *)
Definition snapshot_sequence (load : SnapshotLoad) : option N :=
  match load with
  | SnapshotLoad.Untrusted anchor _ => Some (an_last_sequence anchor)
  | _ => None
  end.

Record ReplayState := mkReplayState {
  rp_actual_head : JournalHead;
  rp_persisted_head_hash : option RecordHash;
  rp_event_index : EventIndex;
  rp_projection : MissionProjection;
}.

(** The writer.  The paths and the file handles are the [Disk]'s. *)
Record MissionStore := mkMissionStore {
  ms_journal_head : JournalHead;
  ms_event_index : EventIndex;
  ms_projection : MissionProjection;
  ms_poisoned : bool;
}.
#[export] Instance MissionStore_fields : Fields MissionStore := λ s,
  mkMissionStore (ms_journal_head s) (ms_event_index s) (ms_projection s) (ms_poisoned s).

(** The directory of the store; [dk_writer_lock] is the advisory lock *)
Record Disk := mkDisk {
  dk_journal : option bytes;
  dk_head : option bytes;
  dk_snapshot : option bytes;
  dk_quarantine : option bytes;
  dk_writer_lock : bool;
}.
#[export] Instance Disk_fields : Fields Disk := λ d,
  mkDisk (dk_journal d) (dk_head d) (dk_snapshot d) (dk_quarantine d) (dk_writer_lock d).

(** ** [serde_json] *)

Class SerdeJson := {
  event_to_vec : PersistableMissionEvent → option bytes;
  record_to_vec : SequencedMissionEvent → option bytes;
  record_from_slice : bytes → option SequencedMissionEvent;
  state_to_vec : MissionProjection → EventIndex → option bytes;
  head_to_vec_pretty : JournalHead → option bytes;
  head_from_slice : bytes → option JournalHead;
  snapshot_to_vec_pretty : MissionSnapshot → option bytes;
  snapshot_from_slice : bytes → option MissionSnapshot;
  anchor_from_slice : bytes → option SnapshotAnchor;
}.

Definition newline : ascii := "010"%char.

(** A head as the code makes it: integers of their width, a hash of 32 bytes *)
Definition head_wf (head : JournalHead) : Prop :=
  (jh_version head ≤ u32_max)%N ∧ (jh_sequence head ≤ u64_max)%N
  ∧ length (jh_record_hash head) = 32.

(** What was written is read back, with or without a newline at the end;
    different values have different texts; a reader of some of the fields of
    a struct reads those; and a head, which is three short fields, can be
    written and is short. *)
Class SerdeJsonSpec `{SerdeJson} : Prop := {
  event_to_vec_inj e e' b : event_to_vec e = Some b → event_to_vec e' = Some b → e = e';
  record_roundtrip r b : record_to_vec r = Some b → record_from_slice b = Some r;
  state_to_vec_inj p ix p' ix' b :
    state_to_vec p ix = Some b → state_to_vec p' ix' = Some b → p = p' ∧ ix = ix';
  head_roundtrip h b : head_to_vec_pretty h = Some b → head_from_slice (b ++ [newline]) = Some h;
  snapshot_roundtrip s b :
    snapshot_to_vec_pretty s = Some b → snapshot_from_slice (b ++ [newline]) = Some s;
  anchor_roundtrip s b :
    snapshot_to_vec_pretty s = Some b → anchor_from_slice (b ++ [newline]) = Some (anchor_of s);
  head_fits h : head_wf h → ∃ b, head_to_vec_pretty h = Some b ∧ (byte_len b < MAX_HEAD_BYTES)%N;
}.

(** ** Files *)

Module FileLimitKind.
Inductive FileLimitKind := Head | Snapshot.
End FileLimitKind.
Abbreviation FileLimitKind := FileLimitKind.FileLimitKind.

(** [FileLimitKind::error] *)
Definition limit_error (kind : FileLimitKind) (length limit : N) : MissionStoreError :=
  match kind with
  | FileLimitKind.Head => MissionStoreError.HeadTooLarge length limit
  | FileLimitKind.Snapshot => MissionStoreError.SnapshotTooLarge length limit
  end.

(** [read_limited_private_file] on the contents of the file *)
Definition read_limited_private_file (contents : bytes) (limit : N) (kind : FileLimitKind) :
    result MissionStoreError bytes :=
  _ ← reject_if (limit <? byte_len contents)%N (limit_error kind (byte_len contents) limit);
  Ok contents.

(** [atomic_write_json_limited] of a value whose pretty text is [json], over
    the contents [old] of the destination *)
Definition atomic_write_json_limited (old json : option bytes) (limit : N) (kind : FileLimitKind)
    (outcome : WriteOutcome) : option bytes * result MissionStoreError unit :=
  match json with
  | None => (old, Err MissionStoreError.Json)
  | Some json =>
      let contents := json ++ [newline] in
      if (limit <? byte_len contents)%N then (old, Err (limit_error kind (byte_len contents) limit))
      else
        match outcome with
        | WriteOutcome.Written => (Some contents, Ok tt)
        | WriteOutcome.Failed => (old, Err MissionStoreError.Io)
        | WriteOutcome.Unsynced => (Some contents, Err MissionStoreError.Io)
        end
  end.

(** ** A disk monad: the directory is threaded through, errors included *)

Definition DiskM (A : Type) : Type := Disk → Disk * result MissionStoreError A.

#[export] Instance DiskM_ret : MRet DiskM := λ A a d, (d, Ok a).
#[export] Instance DiskM_bind : MBind DiskM := λ A B f m d,
  match m d with
  | (d, Ok a) => f a d
  | (d, Err e) => (d, Err e)
  end.

Definition lift {A} (r : result MissionStoreError A) : DiskM A := λ d, (d, r).
Definition get_disk : DiskM Disk := λ d, (d, Ok d).
Definition set_disk (f : Disk → Disk) : DiskM unit := λ d, (f d, Ok tt).

Lemma bind_disk {A B} (m : DiskM A) (f : A → DiskM B) d :
  (m ≫= f) d = match m d with (d, Ok a) => f a d | (d, Err e) => (d, Err e) end.
Proof. reflexivity. Qed.

Lemma bind_lift {A B} (r : result MissionStoreError A) (f : A → DiskM B) d :
  (lift r ≫= f) d = match r with Ok a => f a d | Err e => (d, Err e) end.
Proof. by destruct r. Qed.

(** ** Replay *)

Section store.
Context {HSha : Sha256} `{HJson : SerdeJson}.

(** [HandoffFence::authority_digest] *)
Definition authority_digest (fence : HandoffFence) : string :=
  digest_new "mission-journal-authority-head-v1"
  |>> digest_u64 (hf_journal_format fence)
  |>> digest_u64 (hf_store_version fence)
  |>> digest_u64 (hf_sequence fence)
  |>> digest_bytes (hf_record_hash fence)
  |>> digest_finish.

(** [event_fingerprint] *)
Definition event_fingerprint (event : PersistableMissionEvent) : result MissionStoreError string :=
  payload ← ok_or (event_to_vec event) MissionStoreError.Json;
  Ok (digest_new "mission-event-idempotence-v1" |>> digest_bytes payload |>> digest_finish).

(** [store_state_digest], with its [ProjectionDigestWriter] *)
Definition store_state_digest (projection : MissionProjection) (event_index : EventIndex) :
    result MissionStoreError StateHash :=
  contents ← ok_or (state_to_vec projection event_index) MissionStoreError.Json;
  _ ← reject_if (MAX_SNAPSHOT_BYTES <? byte_len contents)%N
        (MissionStoreError.SnapshotTooLarge (saturating_add u64_max MAX_SNAPSHOT_BYTES 1)
           MAX_SNAPSHOT_BYTES);
  Ok (sha256 (nul_terminated "mission-projection-state-v1" ++ contents)).

(** The visitor of [load_journal_tail] *)
Definition tail_visitor (state : MissionProjection * EventIndex) (frame : VerifiedFrame) :
    result MissionStoreError (MissionProjection * EventIndex) :=
  let '(projection, event_index) := state in
  record ← ok_or (record_from_slice (vf_payload frame))
    (MissionStoreError.CorruptJournalPayload (vf_sequence frame));
  _ ← reject_if (negb (sme_version record =? STORE_VERSION)%N)
        (MissionStoreError.UnsupportedVersion (sme_version record));
  _ ← reject_if (negb (sme_sequence record =? vf_sequence frame)%N)
        (MissionStoreError.NonContiguousSequence (vf_sequence frame) (sme_sequence record));
  _ ← reject_if (negb (bool_decide (sme_previous_hash record = vf_previous_hash frame)))
        (MissionStoreError.BrokenHashChain (sme_sequence record));
  _ ← reject_if (negb (bool_decide (sme_projection_digest_after record = vf_state_hash frame)))
        (MissionStoreError.JournalProjectionMismatch (sme_sequence record));
  _ ← validate_id "event id" (sme_event_id record);
  _ ← event_validate (sme_event record);
  fingerprint ← event_fingerprint (sme_event record);
  _ ← reject_if (bool_decide (is_Some (event_index !! sme_event_id record)))
        (MissionStoreError.DuplicateJournalEventId (sme_event_id record));
  let event_index := <[sme_event_id record := mkEventIndexEntry (sme_sequence record) fingerprint]>
                       event_index in
  projection ← apply projection (sme_event record);
  digest ← store_state_digest projection event_index;
  _ ← reject_if (negb (bool_decide (digest = vf_state_hash frame)))
        (MissionStoreError.JournalProjectionMismatch (sme_sequence record));
  Ok (projection, event_index).

(** [load_journal_tail] *)
Definition load_journal_tail (journal : bytes) (scan : ScanSummary)
    (snapshot : option VerifiedSnapshot) : result MissionStoreError ReplayState :=
  let '(checkpoint, state) :=
    match snapshot with
    | Some snapshot => (vs_checkpoint snapshot, (vs_projection snapshot, vs_event_index snapshot))
    | None => (ReplayCheckpoint_ZERO, (MissionProjection_default, ∅))
    end in
  match (replay_from checkpoint tail_visitor state journal).2 with
  | Err (ReplayError.Journal e) => Err (MissionStoreError.Journal e)
  | Err (ReplayError.Visitor e) => Err e
  | Ok (summary, (projection, event_index)) =>
      _ ← reject_if (negb (rs_final_sequence summary =? sc_frame_count scan)%N
                     || negb (rs_bytes_consumed summary =? sc_bytes_consumed scan)%N
                     || negb (bool_decide (rs_last_hash summary = sc_last_hash scan)))
            MissionStoreError.JournalChangedDuringReplay;
      Ok {| rp_actual_head := mkJournalHead STORE_VERSION (sc_frame_count scan) (sc_last_hash scan);
            rp_persisted_head_hash := rc_record_hash <$> (sc_checkpoints scan).1;
            rp_event_index := event_index;
            rp_projection := projection |}
  end.

(** [load_head] *)
Definition load_head (file : option bytes) : result MissionStoreError (option JournalHead) :=
  match file with
  | None => Ok None
  | Some contents =>
      contents ← read_limited_private_file contents MAX_HEAD_BYTES FileLimitKind.Head;
      head ← ok_or (head_from_slice contents) MissionStoreError.Json;
      _ ← reject_if (negb (jh_version head =? STORE_VERSION)%N)
            (MissionStoreError.UnsupportedVersion (jh_version head));
      Ok (Some head)
  end.

(** [validate_persisted_head] *)
Definition validate_persisted_head (persisted actual : JournalHead) (replay : ReplayState) :
    result MissionStoreError unit :=
  _ ← reject_if (jh_sequence actual <? jh_sequence persisted)%N
        (MissionStoreError.HeadAheadOfJournal (jh_sequence persisted) (jh_sequence actual));
  hash ← ok_or (rp_persisted_head_hash replay) MissionStoreError.EventIndexCorrupt;
  reject_if (negb (bool_decide (jh_record_hash persisted = hash))) MissionStoreError.HeadHashMismatch.

(** ** Snapshots *)

(** [load_untrusted_snapshot] *)
Definition load_untrusted_snapshot (file : option bytes) : result MissionStoreError SnapshotLoad :=
  match file with
  | None => Ok SnapshotLoad.Missing
  | Some contents =>
      contents ← read_limited_private_file contents MAX_SNAPSHOT_BYTES FileLimitKind.Snapshot;
      match anchor_from_slice contents with
      | None => Ok SnapshotLoad.Corrupt
      | Some anchor =>
          if negb (an_version anchor =? STORE_VERSION)%N then Ok SnapshotLoad.Corrupt
          else Ok (SnapshotLoad.Untrusted anchor contents)
      end
  end.

(** [validate_snapshot_index] *)
Definition validate_snapshot_index (snapshot : MissionSnapshot) : result MissionStoreError unit :=
  _ ← reject_if (negb (map_len (sn_event_index snapshot) =? sn_last_sequence snapshot)%N)
        MissionStoreError.SnapshotEventIndexMismatch;
  _ ← try_fold (λ (sequences : gset N) (entry : string * EventIndexEntry),
        _ ← validate_id "event id" entry.1;
        _ ← validate_hash "event fingerprint" (eie_event_fingerprint entry.2);
        _ ← reject_if ((eie_sequence entry.2 =? 0)%N
                       || (sn_last_sequence snapshot <? eie_sequence entry.2)%N
                       || bool_decide (eie_sequence entry.2 ∈ sequences))
              MissionStoreError.SnapshotEventIndexMismatch;
        Ok ({[eie_sequence entry.2]} ∪ sequences)) ∅ (str_entries (sn_event_index snapshot));
  Ok tt.

(** The part of [authenticate_snapshot] that binds the anchor to the journal *)
Definition bind_anchor (anchor : SnapshotAnchor) (scan : ScanSummary) :
    result MissionStoreError ReplayCheckpoint :=
  _ ← reject_if (sc_frame_count scan <? an_last_sequence anchor)%N
        (MissionStoreError.SnapshotAheadOfJournal (an_last_sequence anchor) (sc_frame_count scan));
  if (an_last_sequence anchor =? 0)%N then
    _ ← reject_if (negb (bool_decide (an_last_record_hash anchor = RecordHash_ZERO))
                   || negb (an_journal_offset anchor =? 0)%N)
          MissionStoreError.SnapshotHeadMismatch;
    Ok (mkReplayCheckpoint 0 0 RecordHash_ZERO (an_state_digest anchor))
  else
    checkpoint ← ok_or (sc_checkpoints scan).2 MissionStoreError.SnapshotHeadMismatch;
    _ ← reject_if (negb (bool_decide (rc_record_hash checkpoint = an_last_record_hash anchor)))
          MissionStoreError.SnapshotHeadMismatch;
    _ ← reject_if (negb (rc_end_offset checkpoint =? an_journal_offset anchor)%N)
          MissionStoreError.SnapshotOffsetMismatch;
    _ ← reject_if (negb (bool_decide (rc_state_hash checkpoint = an_state_digest anchor)))
          MissionStoreError.SnapshotProjectionMismatch;
    Ok checkpoint.

(** [authenticate_snapshot] *)
Definition authenticate_snapshot (anchor : SnapshotAnchor) (contents : bytes) (scan : ScanSummary) :
    result MissionStoreError VerifiedSnapshot :=
  checkpoint ← bind_anchor anchor scan;
  snapshot ← ok_or (snapshot_from_slice contents) MissionStoreError.Json;
  _ ← reject_if (negb (sn_version snapshot =? an_version anchor)%N
                 || negb (sn_last_sequence snapshot =? an_last_sequence anchor)%N
                 || negb (bool_decide (sn_last_record_hash snapshot = an_last_record_hash anchor))
                 || negb (sn_journal_offset snapshot =? an_journal_offset anchor)%N
                 || negb (bool_decide (sn_state_digest snapshot = an_state_digest anchor)))
        MissionStoreError.SnapshotHeadMismatch;
  _ ← validate_snapshot_index snapshot;
  digest ← store_state_digest (sn_projection snapshot) (sn_event_index snapshot);
  _ ← reject_if (negb (bool_decide (digest = sn_state_digest snapshot)))
        MissionStoreError.SnapshotProjectionMismatch;
  _ ← reject_if ((sn_last_sequence snapshot =? 0)%N
                 && (negb (bool_decide (sn_projection snapshot = MissionProjection_default))
                     || negb (bool_decide (sn_event_index snapshot = ∅))))
        MissionStoreError.SnapshotProjectionMismatch;
  Ok (mkVerifiedSnapshot checkpoint (sn_projection snapshot) (sn_event_index snapshot)).

(** [is_snapshot_content_corruption] *)
Definition is_snapshot_content_corruption (e : MissionStoreError) : bool :=
  match e with
  | MissionStoreError.Json | MissionStoreError.UnsupportedVersion _
  | MissionStoreError.InvalidIdentifier _ | MissionStoreError.InvalidHash _
  | MissionStoreError.SnapshotAheadOfJournal _ _ | MissionStoreError.SnapshotProjectionMismatch
  | MissionStoreError.SnapshotHeadMismatch | MissionStoreError.SnapshotOffsetMismatch
  | MissionStoreError.SnapshotEventIndexMismatch => true
  | _ => false
  end.

(** [resolve_snapshot_cache] *)
Definition resolve_snapshot_cache (load : SnapshotLoad) (scan : ScanSummary) :
    result MissionStoreError (option VerifiedSnapshot * bool) :=
  match load with
  | SnapshotLoad.Missing => Ok (None, false)
  | SnapshotLoad.Corrupt => Ok (None, true)
  | SnapshotLoad.Untrusted anchor contents =>
      match authenticate_snapshot anchor contents scan with
      | Ok snapshot => Ok (Some snapshot, false)
      | Err e => if is_snapshot_content_corruption e then Ok (None, true) else Err e
      end
  end.

(** ** The writer *)

(** [MissionStore::handoff_fence], [MissionStore::last_sequence] *)
Definition handoff_fence (s : MissionStore) : HandoffFence := fence_from_head (ms_journal_head s).
Definition last_sequence (s : MissionStore) : N := jh_sequence (ms_journal_head s).

(** [reconcile_head] *)
Definition reconcile_head (outcome : WriteOutcome) (persisted : JournalHead) (replay : ReplayState) :
    DiskM JournalHead :=
  let actual := rp_actual_head replay in
  _ ← lift (validate_persisted_head persisted actual replay);
  if bool_decide (persisted = actual) then mret actual
  else
    d ← get_disk;
    let '(head, r) := atomic_write_json_limited (dk_head d) (head_to_vec_pretty actual)
                        MAX_HEAD_BYTES FileLimitKind.Head outcome in
    _ ← set_disk (λ d, d <| dk_head := head |>);
    _ ← lift r;
    mret actual.

(** [MissionStore::checkpoint] *)
Definition checkpoint (outcome : WriteOutcome) (s : MissionStore) : DiskM unit :=
  d ← get_disk;
  digest ← lift (store_state_digest (ms_projection s) (ms_event_index s));
  let snapshot := {| sn_version := STORE_VERSION;
                     sn_last_sequence := jh_sequence (ms_journal_head s);
                     sn_last_record_hash := jh_record_hash (ms_journal_head s);
                     sn_journal_offset := current_len (default [] (dk_journal d));
                     sn_projection := ms_projection s;
                     sn_event_index := ms_event_index s;
                     sn_state_digest := digest |} in
  let '(contents, r) := atomic_write_json_limited (dk_snapshot d) (snapshot_to_vec_pretty snapshot)
                          MAX_SNAPSHOT_BYTES FileLimitKind.Snapshot outcome in
  _ ← set_disk (λ d, d <| dk_snapshot := contents |>);
  lift r.

(** [quarantine_and_rebuild_snapshot]: the rename replaces an older
    quarantined file. *)
Definition quarantine_and_rebuild_snapshot (rename write : WriteOutcome) (s : MissionStore) :
    DiskM unit :=
  d ← get_disk;
  _ ← match rename, dk_snapshot d with
      | WriteOutcome.Failed, _ | _, None => lift (Err MissionStoreError.Io)
      | WriteOutcome.Written, Some contents =>
          set_disk (λ d, d <| dk_quarantine := Some contents |> <| dk_snapshot := None |>)
      | WriteOutcome.Unsynced, Some contents =>
          _ ← set_disk (λ d, d <| dk_quarantine := Some contents |> <| dk_snapshot := None |>);
          lift (Err MissionStoreError.Io)
      end;
  checkpoint write s.

(** The outcomes of the writes [open] may make *)
Record OpenIo := mkOpenIo {
  oi_head : WriteOutcome;
  oi_quarantine : WriteOutcome;
  oi_snapshot : WriteOutcome;
}.

(** What [open] does once it holds the lock *)
Definition open_locked (io : OpenIo) : DiskM MissionStore :=
  d ← get_disk;
  let journal := default [] (dk_journal d) in
  persisted ← lift (load_head (dk_head d));
  let persisted_head := default JournalHead_EMPTY persisted in
  load ← lift (load_untrusted_snapshot (dk_snapshot d));
  let '(journal, scanned) := scan ReplayMode.RepairFinalPartial
                               (Some (jh_sequence persisted_head), snapshot_sequence load) journal in
  _ ← set_disk (λ d, d <| dk_journal := Some journal |>);
  scanned ← lift (map_err MissionStoreError.Journal scanned);
  resolved ← lift (resolve_snapshot_cache load scanned);
  let '(snapshot, snapshot_corrupt) := resolved in
  replay ← lift (load_journal_tail journal scanned snapshot);
  journal_head ← reconcile_head (oi_head io) persisted_head replay;
  let store := {| ms_journal_head := journal_head;
                  ms_event_index := rp_event_index replay;
                  ms_projection := rp_projection replay;
                  ms_poisoned := false |} in
  if (snapshot_corrupt : bool) then
    _ ← quarantine_and_rebuild_snapshot (oi_quarantine io) (oi_snapshot io) store;
    mret store
  else mret store.

(** [drop(store)] releases the lock. *)
Definition release (d : Disk) : Disk := d <| dk_writer_lock := false |>.

(** [MissionStore::open]: the journal is created when it is missing, before
    the lock is tried; a failure after that drops the lock again. *)
Definition open (io : OpenIo) (d : Disk) : Disk * result MissionStoreError MissionStore :=
  let d := d <| dk_journal := Some (default [] (dk_journal d)) |> in
  if dk_writer_lock d then (d, Err MissionStoreError.WriterAlreadyActive)
  else
    match open_locked io (d <| dk_writer_lock := true |>) with
    | (d, Ok store) => (d, Ok store)
    | (d, Err e) => (release d, Err e)
    end.

(** [MissionStore::duplicate_outcome] *)
Definition duplicate_outcome (s : MissionStore) (event_id fingerprint : string) :
    result MissionStoreError (option CommitOutcome) :=
  match ms_event_index s !! event_id with
  | None => Ok None
  | Some existing =>
      _ ← reject_if (negb (bool_decide (eie_event_fingerprint existing = fingerprint)))
            (MissionStoreError.EventIdConflict event_id);
      Ok (Some (mkCommitOutcome (eie_sequence existing) true))
  end.

(** [MissionStore::preflight_duplicate] *)
Definition preflight_duplicate (s : MissionStore) (event_id : string)
    (event : PersistableMissionEvent) : result MissionStoreError (option CommitOutcome) :=
  _ ← validate_id "event id" event_id;
  _ ← event_validate event;
  fingerprint ← event_fingerprint event;
  duplicate_outcome s event_id fingerprint.

(** [MissionStore::validate_current_proof_authority] *)
Definition validate_current_proof_authority (s : MissionStore) (event : PersistableMissionEvent) :
    result MissionStoreError unit :=
  match event with
  | Event.MissionReady _ receipt _ _ _ | Event.MissionArchived _ receipt _ _ _ _ =>
      reject_if (negb (pr_authority_sequence receipt =? jh_sequence (ms_journal_head s))%N
                 || negb (bool_decide (pr_authority_head_digest receipt
                                       = authority_digest (handoff_fence s))))
        MissionStoreError.StaleProofAuthority
  | _ => Ok tt
  end.

(** What [commit] is about to write *)
Record PlannedCommit := mkPlannedCommit {
  pc_sequence : N;
  pc_payload : bytes;
  pc_state_digest : StateHash;
  pc_projection : MissionProjection;
  pc_event_index : EventIndex;
}.

(** The part of [MissionStore::commit] after the duplicate check and before
    the journal is written *)
Definition plan_commit (s : MissionStore) (event_id fingerprint : string)
    (event : PersistableMissionEvent) : result MissionStoreError PlannedCommit :=
  _ ← validate_current_proof_authority s event;
  next_projection ← apply (ms_projection s) event;
  sequence ← ok_or (checked_add u64_max (jh_sequence (ms_journal_head s)) 1)
    MissionStoreError.SequenceOverflow;
  _ ← reject_if (MAX_JOURNAL_FRAMES <? sequence)%N
        (MissionStoreError.Journal (JournalError.FrameLimitExceeded MAX_JOURNAL_FRAMES));
  let next_event_index := <[event_id := mkEventIndexEntry sequence fingerprint]> (ms_event_index s) in
  state_digest ← store_state_digest next_projection next_event_index;
  let record := {| sme_version := STORE_VERSION;
                   sme_sequence := sequence;
                   sme_event_id := event_id;
                   sme_previous_hash := jh_record_hash (ms_journal_head s);
                   sme_projection_digest_after := state_digest;
                   sme_event := event |} in
  payload ← ok_or (record_to_vec record) MissionStoreError.Json;
  _ ← reject_if (MAX_PAYLOAD_BYTES <? byte_len payload)%N
        (MissionStoreError.Journal (JournalError.PayloadTooLarge (byte_len payload)));
  Ok (mkPlannedCommit sequence payload state_digest next_projection next_event_index).

(** The outcomes of the writes [commit] makes: the journal's frame, then the
    head *)
Record CommitIo := mkCommitIo { ci_append : option nat; ci_head : WriteOutcome }.

(** The part of [MissionStore::commit] that writes, then mutates memory *)
Definition write_commit (io : CommitIo) (d : Disk) (s : MissionStore) (plan : PlannedCommit) :
    Disk * MissionStore * result MissionStoreError CommitOutcome :=
  let poisoned := s <| ms_poisoned := true |> in
  let '(journal, appended) := append (default [] (dk_journal d)) (pc_payload plan)
    (jh_record_hash (ms_journal_head s)) (pc_state_digest plan) (ci_append io) in
  let d := d <| dk_journal := Some journal |> in
  match appended with
  | Err e => (d, poisoned, Err (MissionStoreError.Journal e))
  | Ok record_hash =>
      let next_head := mkJournalHead STORE_VERSION (pc_sequence plan) record_hash in
      let '(head, written) := atomic_write_json_limited (dk_head d) (head_to_vec_pretty next_head)
                                MAX_HEAD_BYTES FileLimitKind.Head (ci_head io) in
      let d := d <| dk_head := head |> in
      match written with
      | Err e => (d, poisoned, Err e)
      | Ok _ => (d, {| ms_journal_head := next_head;
                       ms_event_index := pc_event_index plan;
                       ms_projection := pc_projection plan;
                       ms_poisoned := ms_poisoned s |},
                 Ok (mkCommitOutcome (pc_sequence plan) false))
      end
  end.

(** [MissionStore::commit] *)
Definition commit (io : CommitIo) (d : Disk) (s : MissionStore) (event_id : string)
    (event : PersistableMissionEvent) : Disk * MissionStore * result MissionStoreError CommitOutcome :=
  match (_ ← reject_if (ms_poisoned s) MissionStoreError.WriterPoisoned;
         _ ← validate_id "event id" event_id;
         _ ← event_validate event;
         fingerprint ← event_fingerprint event;
         duplicate ← duplicate_outcome s event_id fingerprint;
         Ok (fingerprint, duplicate)) with
  | Err e => (d, s, Err e)
  | Ok (_, Some outcome) => (d, s, Ok outcome)
  | Ok (fingerprint, None) =>
      match plan_commit s event_id fingerprint event with
      | Err e => (d, s, Err e)
      | Ok plan => write_commit io d s plan
      end
  end.

(** ** Handoff *)

(** [validate_fence_format] *)
Definition validate_fence_format (fence : HandoffFence) : result MissionStoreError unit :=
  reject_if (negb (hf_journal_format fence =? FRAME_VERSION)%N
             || negb (hf_store_version fence =? STORE_VERSION)%N)
    MissionStoreError.UnsupportedHandoffFence.

(** [PreparedMissionStore] is the store and its fence, [ReleasedMissionStore]
    and [MissionStoreReader] are the fence. *)
Record PreparedMissionStore := mkPreparedMissionStore {
  pms_store : MissionStore;
  pms_fence : HandoffFence;
}.

(** [MissionStore::prepare_handoff] *)
Definition prepare_handoff (outcome : WriteOutcome) (s : MissionStore) : DiskM PreparedMissionStore :=
  _ ← checkpoint outcome s;
  mret (mkPreparedMissionStore s (handoff_fence s)).

(** [PreparedMissionStore::relinquish] *)
Definition relinquish (prepared : PreparedMissionStore) : DiskM HandoffFence :=
  _ ← set_disk release;
  mret (pms_fence prepared).

(** [ReleasedMissionStore::reacquire]: a store that is not returned is
    dropped. *)
Definition reacquire (io : OpenIo) (fence : HandoffFence) (d : Disk) :
    Disk * result MissionStoreError MissionStore :=
  match open io d with
  | (d, Err e) => (d, Err e)
  | (d, Ok store) =>
      if negb (bool_decide (handoff_fence store = fence))
      then (release d, Err MissionStoreError.HandoffHeadChanged)
      else (d, Ok store)
  end.

(** [MissionStoreReader::open_existing]: nothing is written. *)
Definition open_existing (d : Disk) : result MissionStoreError HandoffFence :=
  journal ← ok_or (dk_journal d) MissionStoreError.Io;
  persisted ← load_head (dk_head d);
  let persisted := default JournalHead_EMPTY persisted in
  load ← load_untrusted_snapshot (dk_snapshot d);
  scanned ← map_err MissionStoreError.Journal
    (scan ReplayMode.Inspect (Some (jh_sequence persisted), snapshot_sequence load) journal).2;
  resolved ← resolve_snapshot_cache load scanned;
  replay ← load_journal_tail journal scanned resolved.1;
  let actual := rp_actual_head replay in
  _ ← validate_persisted_head persisted actual replay;
  _ ← reject_if (negb (bool_decide (persisted = actual)))
        MissionStoreError.HandoffObservationUnstable;
  Ok (fence_from_head actual).

(** [MissionStoreReader::acquire_writer] *)
Definition acquire_writer (io : OpenIo) (expected : HandoffFence) (d : Disk) :
    Disk * result MissionStoreError MissionStore :=
  match validate_fence_format expected with
  | Err e => (d, Err e)
  | Ok _ => reacquire io expected d
  end.
End store.

(** ** What a directory holds *)

Section recovery.
Context {HSha : Sha256} {HShaSpec : Sha256Spec} `{HJsonSpec : SerdeJsonSpec}.

(** The frames of a journal add up to a projection and an index. *)
Definition replays (frs : list VerifiedFrame) (p : MissionProjection) (ix : EventIndex) : Prop :=
  try_fold tail_visitor (MissionProjection_default, ∅) frs = Ok (p, ix).

(** The head after the first [n] frames *)
Definition head_at (frs : list VerifiedFrame) (n : N) : JournalHead :=
  mkJournalHead STORE_VERSION n (chain_hash RecordHash_ZERO (take (N.to_nat n) frs)).
Definition actual_head (frs : list VerifiedFrame) : JournalHead := head_at frs (vec_len frs).

(** The head file names some frame of the journal. *)
Definition head_file_ok (frs : list VerifiedFrame) (file : option bytes) : Prop :=
  ∃ head n, load_head file = Ok head ∧ default JournalHead_EMPTY head = head_at frs n
    ∧ (n ≤ vec_len frs)%N.

(** The directory recovers to the frames [frs]: a scan that repairs the tail
    leaves a journal of these frames. *)
Definition disk_recovers (d : Disk) (frs : list VerifiedFrame) (p : MissionProjection)
    (ix : EventIndex) : Prop :=
  head_file_ok frs (dk_head d) ∧ replays frs p ix
  ∧ ∃ file, journal_of file frs
     ∧ ∀ t1 t2, scan ReplayMode.RepairFinalPartial (t1, t2) (default [] (dk_journal d))
                = (file, Ok (scan_summary file frs t1 t2)).

(** The store's memory agrees with its directory. *)
Definition store_ok (d : Disk) (s : MissionStore) (frs : list VerifiedFrame) : Prop :=
  ms_poisoned s = false ∧ dk_writer_lock d = true
  ∧ ms_journal_head s = actual_head frs
  ∧ replays frs (ms_projection s) (ms_event_index s)
  ∧ head_file_ok frs (dk_head d)
  ∧ ∃ file, dk_journal d = Some file ∧ journal_of file frs.

Lemma journal_frames_bound file frs : journal_of file frs → (vec_len frs ≤ MAX_JOURNAL_FRAMES)%N.
Proof.
  intros (_ & Hc & _). destruct frs as [|fr frs _] using rev_ind; [done|].
  apply chain_ok_app in Hc as [Hc [Hfr _]]. destruct Hfr as (_ & _ & _ & _ & _ & _ & _ & Hmax & _).
  rewrite (chain_seq_spec _ _ _ _ _ _ Hc), N.add_0_l in Hmax. unfold vec_len in *.
  rewrite length_app. cbn in *. lia.
Qed.

Lemma head_at_wf file frs n : journal_of file frs → (n ≤ vec_len frs)%N → head_wf (head_at frs n).
Proof.
  intros Hj Hn. pose proof (journal_frames_bound _ _ Hj) as Hlen. destruct Hj as (_ & Hc & _).
  rewrite <- (take_drop (N.to_nat n) frs), chain_ok_app in Hc. destruct Hc as [Hc1 _].
  split; [done|]. split; [|by eapply chain_hash_length].
  cbn [head_at jh_sequence]. unfold MAX_JOURNAL_FRAMES, u64_max in *. lia.
Qed.

(** ** Writing and reading back *)

Lemma head_written head b :
  head_wf head → jh_version head = STORE_VERSION → head_to_vec_pretty head = Some b →
  (byte_len b < MAX_HEAD_BYTES)%N → load_head (Some (b ++ [newline])) = Ok (Some head).
Proof.
  intros Hwf Hv Hb Hlen. unfold load_head, read_limited_private_file.
  rewrite (proj2 (N.ltb_ge _ _)) by (unfold byte_len in *; rewrite length_app; cbn; lia).
  cbn [reject_if mbind result_bind]. rewrite (head_roundtrip _ _ Hb).
  cbn [ok_or mbind result_bind]. by rewrite Hv.
Qed.

(** The three ends of a write of a head: nothing changed, or the new head is
    there *)
Lemma write_head old head outcome :
  head_wf head → jh_version head = STORE_VERSION →
  let '(file, r) := atomic_write_json_limited old (head_to_vec_pretty head) MAX_HEAD_BYTES
                      FileLimitKind.Head outcome in
  match outcome with
  | WriteOutcome.Written => r = Ok tt ∧ load_head file = Ok (Some head)
  | WriteOutcome.Failed => r = Err MissionStoreError.Io ∧ file = old
  | WriteOutcome.Unsynced => r = Err MissionStoreError.Io ∧ load_head file = Ok (Some head)
  end.
Proof.
  intros Hwf Hv. destruct (head_fits head Hwf) as (b & Hb & Hlen).
  unfold atomic_write_json_limited. rewrite Hb. cbv zeta.
  rewrite (proj2 (N.ltb_ge _ _)) by (unfold byte_len in *; rewrite length_app; cbn; lia).
  pose proof (head_written _ _ Hwf Hv Hb Hlen). by destruct outcome.
Qed.

Lemma checkpoint_at_some frs n :
  (n ≤ vec_len frs)%N → ∃ cp, checkpoint_at frs n = Some cp.
Proof.
  intros Hn. unfold checkpoint_at. destruct (N.eqb_spec n 0) as [->|Hn0]; [by eexists|].
  destruct (lookup_lt_is_Some_2 frs (N.to_nat (n - 1))) as [fr Hfr]; [unfold vec_len in *; lia|].
  rewrite Hfr. by eexists.
Qed.

(** ** Replay *)

Lemma load_tail_spec file frs p ix t1 t2 :
  journal_of file frs → replays frs p ix →
  load_journal_tail file (scan_summary file frs t1 t2) None
  = Ok (mkReplayState (actual_head frs) (rc_record_hash <$> (t1 ≫= checkpoint_at frs)) ix p).
Proof.
  intros Hj Hr. unfold load_journal_tail.
  rewrite (replay_from_suffix file frs 0 _ tail_visitor _ Hj eq_refl). cbn [snd].
  change (drop (N.to_nat 0) frs) with frs. unfold replays in Hr. rewrite Hr.
  cbn [scan_summary sc_frame_count sc_bytes_consumed sc_last_hash sc_checkpoints fst
       rs_final_sequence rs_bytes_consumed rs_last_hash].
  rewrite !N.eqb_refl, bool_decide_eq_true_2 by done. cbn [negb orb reject_if mbind result_bind].
  unfold actual_head, head_at, vec_len. by rewrite Nat2N.id, firstn_all.
Qed.

Lemma validate_head_ok file frs n ix p :
  journal_of file frs → (n ≤ vec_len frs)%N →
  validate_persisted_head (head_at frs n) (actual_head frs)
    (mkReplayState (actual_head frs) (rc_record_hash <$> checkpoint_at frs n) ix p) = Ok tt.
Proof.
  intros Hj Hn. unfold validate_persisted_head.
  cbn [head_at actual_head jh_sequence rp_persisted_head_hash jh_record_hash].
  rewrite (proj2 (N.ltb_ge _ _)) by done. cbn [reject_if mbind result_bind].
  destruct (checkpoint_at_some frs n Hn) as [cp Hcp]. rewrite Hcp.
  destruct (checkpoint_at_spec _ _ _ _ Hj Hcp) as (_ & _ & Hhash & _).
  cbn [fmap option_fmap option_map ok_or mbind result_bind]. by rewrite Hhash, bool_decide_eq_true_2.
Qed.

(** What the visitor accepts *)
Lemma tail_visitor_ok p ix fr p' ix' :
  tail_visitor (p, ix) fr = Ok (p', ix') →
  ∃ record fingerprint contents,
    record_from_slice (vf_payload fr) = Some record
    ∧ sme_sequence record = vf_sequence fr
    ∧ validate_id "event id" (sme_event_id record) = Ok tt
    ∧ event_validate (sme_event record) = Ok tt
    ∧ event_fingerprint (sme_event record) = Ok fingerprint
    ∧ ix !! sme_event_id record = None
    ∧ ix' = <[sme_event_id record := mkEventIndexEntry (vf_sequence fr) fingerprint]> ix
    ∧ apply p (sme_event record) = Ok p'
    ∧ state_to_vec p' ix' = Some contents
    ∧ (byte_len contents ≤ MAX_SNAPSHOT_BYTES)%N
    ∧ vf_state_hash fr = sha256 (nul_terminated "mission-projection-state-v1" ++ contents).
Proof.
  unfold tail_visitor. intros Hok.
  apply bind_ok in Hok as (record & Hrec%ok_or_ok & Hok).
  apply bind_ok in Hok as ([] & _ & Hok).
  apply bind_ok in Hok as ([] & Hseq%reject_if_ok%negb_false_iff%N.eqb_eq & Hok).
  do 2 apply bind_ok in Hok as ([] & _ & Hok).
  apply bind_ok in Hok as ([] & Hid & Hok). apply bind_ok in Hok as ([] & Hval & Hok).
  apply bind_ok in Hok as (fp & Hfp & Hok). apply bind_ok in Hok as ([] & Hnew & Hok).
  cbv zeta in Hok. apply bind_ok in Hok as (q & Happ & Hok).
  apply bind_ok in Hok as (digest & Hdig & Hok). apply bind_ok in Hok as ([] & Hst & Hok).
  apply Ok_inj in Hok. injection Hok as <- <-. unfold store_state_digest in Hdig.
  apply bind_ok in Hdig as (contents & Hcont%ok_or_ok & Hdig).
  apply bind_ok in Hdig as ([] & Hlen%reject_if_ok%N.ltb_ge & Hdig). apply Ok_inj in Hdig.
  apply reject_if_ok, negb_false_iff, bool_decide_eq_true in Hst.
  apply reject_if_ok, bool_decide_eq_false in Hnew.
  exists record, fp, contents. rewrite <- Hseq. split_and!; try done.
  - destruct (ix !! sme_event_id record); [by destruct Hnew|done].
  - by rewrite <- Hst, Hdig.
Qed.

(** ** Commit *)

Lemma store_ok_recovers d s frs :
  store_ok d s frs → disk_recovers d frs (ms_projection s) (ms_event_index s).
Proof.
  intros (_ & _ & _ & Hr & Hh & file & Hd & Hj). split; [done|]. split; [done|].
  exists file. split; [done|]. intros t1 t2. rewrite Hd. by apply scan_journal.
Qed.

Lemma plan_commit_inv s id fp e plan :
  plan_commit s id fp e = Ok plan →
  validate_current_proof_authority s e = Ok tt
  ∧ apply (ms_projection s) e = Ok (pc_projection plan)
  ∧ pc_sequence plan = (jh_sequence (ms_journal_head s) + 1)%N
  ∧ (pc_sequence plan ≤ MAX_JOURNAL_FRAMES)%N
  ∧ pc_event_index plan = <[id := mkEventIndexEntry (pc_sequence plan) fp]> (ms_event_index s)
  ∧ store_state_digest (pc_projection plan) (pc_event_index plan) = Ok (pc_state_digest plan)
  ∧ record_to_vec (mkSequencedMissionEvent STORE_VERSION (pc_sequence plan) id
      (jh_record_hash (ms_journal_head s)) (pc_state_digest plan) e) = Some (pc_payload plan)
  ∧ (byte_len (pc_payload plan) ≤ MAX_PAYLOAD_BYTES)%N.
Proof.
  unfold plan_commit. intros Hok.
  apply bind_ok in Hok as ([] & Hauth & Hok). apply bind_ok in Hok as (p & Hp & Hok).
  apply bind_ok in Hok as (seq & Hseq%ok_or_ok & Hok).
  apply checked_add_some in Hseq as [-> _].
  apply bind_ok in Hok as ([] & Hmax%reject_if_ok%N.ltb_ge & Hok). cbv zeta in Hok.
  apply bind_ok in Hok as (digest & Hdig & Hok).
  apply bind_ok in Hok as (payload & Hpay%ok_or_ok & Hok).
  apply bind_ok in Hok as ([] & Hlen%reject_if_ok%N.ltb_ge & Hok).
  apply Ok_inj in Hok. subst plan. by split_and!.
Qed.

Lemma store_state_digest_length p ix digest :
  store_state_digest p ix = Ok digest → length digest = 32.
Proof.
  unfold store_state_digest. intros Hok. apply bind_ok in Hok as (c & _ & Hok).
  apply bind_ok in Hok as ([] & _ & Hok). apply Ok_inj in Hok. subst. apply sha256_length.
Qed.

(** The frame a commit writes, and that replay accepts it *)
Definition planned_frame (file : bytes) (frs : list VerifiedFrame) (plan : PlannedCommit) :
    VerifiedFrame := next_frame file frs (pc_payload plan) (pc_state_digest plan).

Lemma plan_visited s id fp e plan file frs :
  plan_commit s id fp e = Ok plan → ms_journal_head s = actual_head frs →
  replays frs (ms_projection s) (ms_event_index s) →
  validate_id "event id" id = Ok tt → event_validate e = Ok tt → event_fingerprint e = Ok fp →
  ms_event_index s !! id = None →
  replays (frs ++ [planned_frame file frs plan]) (pc_projection plan) (pc_event_index plan).
Proof.
  intros (_ & Happ & Hseq & _ & Hix & Hdig & Hrec & _)%plan_commit_inv Hhead Hr Hid Hval Hfp Hnew.
  apply try_fold_snoc_ok. eexists. split; [exact Hr|]. unfold tail_visitor, planned_frame.
  cbn [vf_payload vf_sequence vf_previous_hash vf_state_hash next_frame].
  rewrite (record_roundtrip _ _ Hrec). cbn [ok_or mbind result_bind].
  cbn [sme_version sme_sequence sme_event_id sme_previous_hash sme_projection_digest_after sme_event].
  rewrite Hseq, Hhead. cbn [actual_head head_at jh_sequence jh_record_hash].
  rewrite !N.eqb_refl. cbn [negb reject_if mbind result_bind].
  assert (Htake : take (N.to_nat (vec_len frs)) frs = frs)
    by (unfold vec_len; by rewrite Nat2N.id, firstn_all).
  rewrite Htake.
  rewrite (bool_decide_eq_true_2 (chain_hash _ _ = _)) by done.
  rewrite (bool_decide_eq_true_2 (pc_state_digest plan = _)) by done.
  cbn [negb reject_if mbind result_bind].
  rewrite Hid, Hval, Hfp. cbn [mbind result_bind]. rewrite Hnew.
  rewrite (bool_decide_eq_false_2 (is_Some _)) by (by intros [? ?]).
  cbn [reject_if mbind result_bind]. rewrite Happ. cbn [mbind result_bind].
  replace (<[id := _]> (ms_event_index s)) with (pc_event_index plan)
    by (rewrite Hix, Hseq, Hhead; done).
  rewrite Hdig. cbn [mbind result_bind]. by rewrite bool_decide_eq_true_2.
Qed.

(** A head file that names a frame of a journal names it in a longer one. *)
Lemma head_file_ok_app frs frs' file : head_file_ok frs file → head_file_ok (frs ++ frs') file.
Proof.
  intros (head & n & Hload & Hhead & Hn). exists head, n. split; [done|].
  unfold head_at, vec_len in *. rewrite length_app. split; [|lia].
  rewrite Hhead. by rewrite take_app_le by lia.
Qed.

Lemma head_file_ok_actual frs file :
  load_head file = Ok (Some (actual_head frs)) → head_file_ok frs file.
Proof. intros Hload. by exists (Some (actual_head frs)), (vec_len frs). Qed.

(** The ends of the writes of a commit: the frame did not make it, it did but
    the head is old or the caller was told of a failure, or all went well *)
Lemma write_commit_spec io d s frs file plan d' s' r :
  store_ok d s frs → dk_journal d = Some file → journal_of file frs →
  (vec_len frs < MAX_JOURNAL_FRAMES)%N → pc_sequence plan = (vec_len frs + 1)%N →
  (byte_len (pc_payload plan) ≤ MAX_PAYLOAD_BYTES)%N → length (pc_state_digest plan) = 32 →
  let frs' := frs ++ [planned_frame file frs plan] in
  replays frs' (pc_projection plan) (pc_event_index plan) →
  write_commit io d s plan = (d', s', r) →
  dk_writer_lock d' = true ∧ dk_snapshot d' = dk_snapshot d ∧ dk_quarantine d' = dk_quarantine d
  ∧ match r with
    | Err _ => s' = s <| ms_poisoned := true |>
        ∧ (disk_recovers d' frs (ms_projection s) (ms_event_index s)
           ∨ disk_recovers d' frs' (pc_projection plan) (pc_event_index plan))
    | Ok outcome => outcome = mkCommitOutcome (vec_len frs + 1) false
        ∧ store_ok d' s' frs'
        ∧ ms_projection s' = pc_projection plan ∧ ms_event_index s' = pc_event_index plan
    end.
Proof.
  intros (Hpois & Hlock & Hhead & Hr & Hhf & _) Hd Hj Hroom Hseq Hpay Hdig frs' Hr' Hw.
  unfold write_commit in Hw. cbv zeta in Hw.
  rewrite Hd, Hhead in Hw. cbn [default from_option id actual_head head_at jh_record_hash] in Hw.
  assert (Htake : take (N.to_nat (vec_len frs)) frs = frs)
    by (unfold vec_len; by rewrite Nat2N.id, firstn_all).
  rewrite Htake in Hw.
  destruct (append file (pc_payload plan) (chain_hash RecordHash_ZERO frs) (pc_state_digest plan)
              (ci_append io)) as [journal appended] eqn:Happ.
  apply append_inv in Happ as [(e & -> & -> & _)|(_ & Hfit & Happ)].
  { injection Hw as <- <- <-. do 4 (split; [done|]). left. split; [done|]. split; [done|].
    exists file. split; [done|]. intros. by apply scan_journal. }
  pose proof (journal_of_snoc file frs _ _ Hj Hpay Hdig Hroom Hfit) as Hj'. cbv zeta in Hj'.
  fold (planned_frame file frs plan) in Hj'. fold frs' in Hj'.
  change (frame_bytes (pc_payload plan) (chain_hash RecordHash_ZERO frs) (pc_state_digest plan))
    with (bytes_of (planned_frame file frs plan)) in Happ.
  destruct (ci_append io) as [n|].
  { destruct Happ as [-> ->]. injection Hw as <- <- <-. do 4 (split; [done|]).
    destruct (decide (n < frame_len (pc_payload plan))) as [Hn|Hn].
    - left. split; [done|]. split; [done|]. exists file. split; [done|].
      intros t1 t2. exact (scan_torn file frs _ _ n t1 t2 Hj Hpay Hdig Hroom Hfit Hn).
    - right. split; [by apply head_file_ok_app|]. split; [done|]. eexists. split; [exact Hj'|].
      intros. cbn [dk_journal update default from_option id]. rewrite take_ge; [by apply scan_journal|].
      pose proof (next_frame_ok _ _ _ _ Hj Hpay Hdig Hroom) as Hfr.
      fold (planned_frame file frs plan) in Hfr. rewrite (length_bytes_of _ _ _ _ _ _ Hfr) by done.
      change (vf_payload (planned_frame file frs plan)) with (pc_payload plan). lia. }
  destruct Happ as [-> ->].
  assert (Hnew : mkJournalHead STORE_VERSION (pc_sequence plan) (hash_record (frame_header (pc_payload
    plan) (chain_hash RecordHash_ZERO frs) (pc_state_digest plan)) (pc_payload plan))
    = actual_head frs').
  { unfold actual_head, head_at. unfold vec_len at 2. rewrite Nat2N.id, firstn_all.
    unfold chain_hash at 2. unfold frs'. rewrite last_snoc. cbn [fmap option_fmap option_map].
    rewrite Hseq. unfold vec_len. rewrite length_app. cbn [length].
    f_equal. lia. }
  rewrite Hnew in Hw.
  pose proof (write_head (dk_head d) (actual_head frs') (ci_head io)
    (head_at_wf _ _ _ Hj' (N.le_refl _)) eq_refl) as Hwh.
  destruct (atomic_write_json_limited _ _ _ _ _) as [head written].
  assert (Hrec : head_file_ok frs' head →
    disk_recovers (d <| dk_journal := Some (file ++ bytes_of (planned_frame file frs plan)) |>
                     <| dk_head := head |>) frs' (pc_projection plan) (pc_event_index plan)).
  { intros Hho. split; [done|]. split; [done|]. eexists. split; [exact Hj'|].
    intros. by apply scan_journal. }
  destruct (ci_head io).
  - destruct Hwh as [-> Hload]. injection Hw as <- <- <-. do 3 (split; [done|]).
    split; [by rewrite Hseq|]. split; [|done].
    do 4 (split; [done|]). split; [by apply head_file_ok_actual|]. eexists. split; [reflexivity|exact Hj'].
  - destruct Hwh as [-> ->]. injection Hw as <- <- <-. do 4 (split; [done|]).
    right. apply Hrec. by apply head_file_ok_app.
  - destruct Hwh as [-> Hload]. injection Hw as <- <- <-. do 4 (split; [done|]).
    right. apply Hrec. by apply head_file_ok_actual.
Qed.

(** ** Snapshots *)

(** Every prefix of a journal that replays, replays. *)
Lemma replays_app frs frs' p ix :
  replays (frs ++ frs') p ix →
  ∃ q jx, replays frs q jx ∧ try_fold tail_visitor (q, jx) frs' = Ok (p, ix).
Proof.
  unfold replays. rewrite try_fold_app. intros ([q jx] & Hq & Hp)%bind_ok. eauto.
Qed.

(** The state hash of the last frame is the digest of the state. *)
Lemma replays_last frs fr p ix :
  replays (frs ++ [fr]) p ix →
  ∃ contents, state_to_vec p ix = Some contents
    ∧ (byte_len contents ≤ MAX_SNAPSHOT_BYTES)%N
    ∧ vf_state_hash fr = sha256 (nul_terminated "mission-projection-state-v1" ++ contents).
Proof.
  intros ([q jx] & _ & Hfr)%try_fold_snoc_ok.
  apply tail_visitor_ok in Hfr as (? & ? & c & _ & _ & _ & _ & _ & _ & _ & _ & ? & ? & ?). eauto.
Qed.

Lemma store_state_digest_inv p ix digest :
  store_state_digest p ix = Ok digest →
  ∃ contents, state_to_vec p ix = Some contents
    ∧ digest = sha256 (nul_terminated "mission-projection-state-v1" ++ contents).
Proof.
  unfold store_state_digest. intros (c & Hc%ok_or_ok & Hok)%bind_ok.
  apply bind_ok in Hok as ([] & _ & Hok). apply Ok_inj in Hok. eauto.
Qed.

(** What [store_state_digest] hashes for two states differs, the hashes do
    not. *)
Definition state_clash (p : MissionProjection) (ix : EventIndex) (p' : MissionProjection)
    (ix' : EventIndex) : Prop :=
  ∃ c c', state_to_vec p ix = Some c ∧ state_to_vec p' ix' = Some c'
    ∧ clashes (nul_terminated "mission-projection-state-v1" ++ c)
              (nul_terminated "mission-projection-state-v1" ++ c').

Lemma state_digest_pins frs fr p ix p' ix' :
  replays (frs ++ [fr]) p ix → store_state_digest p' ix' = Ok (vf_state_hash fr) →
  (p' = p ∧ ix' = ix) ∨ state_clash p ix p' ix'.
Proof.
  intros (c & Hc & _ & Hst)%replays_last (c' & Hc' & Hst')%store_state_digest_inv.
  rewrite Hst in Hst'. apply sha256_inj_or in Hst' as [Heq%app_inv_head|?]; [left|right].
  - subst c'. by apply (state_to_vec_inj _ _ _ _ c).
  - by exists c, c'.
Qed.

(** The snapshot names a state with the hash of the one that the journal has
    after the frames it names, but another text. *)
Definition snapshot_clash (frs : list VerifiedFrame) (file : option bytes) : Prop :=
  ∃ contents snap p ix, file = Some contents ∧ snapshot_from_slice contents = Some snap
    ∧ replays (take (N.to_nat (sn_last_sequence snap)) frs) p ix
    ∧ state_clash p ix (sn_projection snap) (sn_event_index snap).

(** The snapshot is the state after the frames it names. *)
Definition snapshot_sound (frs : list VerifiedFrame) (file : option bytes) : Prop :=
  ∀ contents snap, file = Some contents → snapshot_from_slice contents = Some snap →
    (sn_last_sequence snap ≤ vec_len frs)%N
    ∧ replays (take (N.to_nat (sn_last_sequence snap)) frs) (sn_projection snap) (sn_event_index snap).

Lemma sound_no_clash frs file : snapshot_sound frs file → ¬ snapshot_clash frs file.
Proof.
  intros Hs (contents & snap & p & ix & Hf & Hsnap & Hr & c & c' & Hc & Hc' & Hne & _).
  destruct (Hs _ _ Hf Hsnap) as [_ Hr']. unfold replays in *. congruence.
Qed.

Lemma sound_none frs : snapshot_sound frs None.
Proof. done. Qed.

(** The journal only grows. *)
Lemma sound_app frs frs' file : snapshot_sound frs file → snapshot_sound (frs ++ frs') file.
Proof.
  intros Hs contents snap Hf Hsnap. destruct (Hs _ _ Hf Hsnap) as [Hn Hr].
  unfold vec_len in *. split; [rewrite length_app; lia|]. rewrite take_app_le by lia. done.
Qed.

(** An authenticated snapshot is the state after its frames. *)
Lemma authentic_snapshot file frs p ix t1 anchor contents vs :
  journal_of file frs → replays frs p ix →
  authenticate_snapshot anchor contents (scan_summary file frs t1 (Some (an_last_sequence anchor)))
    = Ok vs →
  (replays (take (N.to_nat (an_last_sequence anchor)) frs) (vs_projection vs) (vs_event_index vs)
   ∨ snapshot_clash frs (Some contents))
  ∧ ∃ cp, checkpoint_at frs (an_last_sequence anchor) = Some cp
      ∧ rc_sequence (vs_checkpoint vs) = rc_sequence cp
      ∧ rc_end_offset (vs_checkpoint vs) = rc_end_offset cp
      ∧ rc_record_hash (vs_checkpoint vs) = rc_record_hash cp.
Proof.
  intros Hj Hr Hok. unfold authenticate_snapshot in Hok.
  apply bind_ok in Hok as (cp & Hcp & Hok). apply bind_ok in Hok as (snap & Hsnap%ok_or_ok & Hok).
  apply bind_ok in Hok as ([] & Hsame & Hok). apply bind_ok in Hok as ([] & _ & Hok).
  apply bind_ok in Hok as (digest & Hdig & Hok). apply bind_ok in Hok as ([] & Hst & Hok).
  apply bind_ok in Hok as ([] & Hzero & Hok). apply Ok_inj in Hok. subst vs.
  cbn [vs_projection vs_event_index vs_checkpoint].
  apply reject_if_ok in Hsame. rewrite !orb_false_iff, !negb_false_iff in Hsame.
  destruct Hsame as ((((_ & Hseq%N.eqb_eq) & _) & _) & Hsd%bool_decide_eq_true).
  apply reject_if_ok, negb_false_iff, bool_decide_eq_true in Hst. subst digest.
  unfold bind_anchor in Hcp. apply bind_ok in Hcp as ([] & Hn%reject_if_ok%N.ltb_ge & Hcp).
  cbn [scan_summary sc_frame_count sc_checkpoints snd mbind option_bind] in Hn, Hcp.
  destruct (N.eqb_spec (an_last_sequence anchor) 0) as [Hz|Hnz].
  - apply bind_ok in Hcp as ([] & _ & Hcp). apply Ok_inj in Hcp. subst cp. rewrite Hz in *.
    apply reject_if_ok in Hzero. rewrite Hseq, N.eqb_refl in Hzero. cbn [andb] in Hzero.
    rewrite orb_false_iff, !negb_false_iff, !bool_decide_eq_true in Hzero.
    destruct Hzero as [-> ->]. split; [by left|]. by exists ReplayCheckpoint_ZERO.
  - apply bind_ok in Hcp as (c & Hc%ok_or_ok & Hcp).
    apply bind_ok in Hcp as ([] & _ & Hcp). apply bind_ok in Hcp as ([] & _ & Hcp).
    apply bind_ok in Hcp as ([] & Hstate & Hcp). apply Ok_inj in Hcp. subst cp.
    apply reject_if_ok, negb_false_iff, bool_decide_eq_true in Hstate.
    split; [|by exists c]. unfold checkpoint_at in Hc.
    rewrite (proj2 (N.eqb_neq _ _)) in Hc by done. apply fmap_Some in Hc as (fr & Hfr & ->).
    assert (Htake : take (N.to_nat (an_last_sequence anchor)) frs
                    = take (N.to_nat (an_last_sequence anchor - 1)) frs ++ [fr]).
    { replace (N.to_nat (an_last_sequence anchor)) with (S (N.to_nat (an_last_sequence anchor - 1)))
        by lia. by apply take_S_r. }
    rewrite <- (take_drop (N.to_nat (an_last_sequence anchor)) frs) in Hr.
    apply replays_app in Hr as (q & jx & Hq & _). rewrite Htake in *.
    cbn [checkpoint_of rc_state_hash] in Hstate. rewrite Hsd, <- Hstate in Hdig.
    destruct (state_digest_pins _ _ _ _ _ _ Hq Hdig) as [[-> ->]|?]; [by left|right].
    exists contents, snap, q, jx. split_and!; [done..| |done]. by rewrite Hseq, Htake.
Qed.

(** Reading on from the state after the first [n] frames gives the same as
    reading from the start. *)
Lemma load_tail_from file frs p ix n vs cp t1 t2 :
  journal_of file frs → replays frs p ix → checkpoint_at frs n = Some cp →
  rc_sequence (vs_checkpoint vs) = rc_sequence cp →
  rc_end_offset (vs_checkpoint vs) = rc_end_offset cp →
  rc_record_hash (vs_checkpoint vs) = rc_record_hash cp →
  replays (take (N.to_nat n) frs) (vs_projection vs) (vs_event_index vs) →
  load_journal_tail file (scan_summary file frs t1 t2) (Some vs)
  = Ok (mkReplayState (actual_head frs) (rc_record_hash <$> (t1 ≫= checkpoint_at frs)) ix p).
Proof.
  intros Hj Hr Hcp Hs Ho Hh Hq.
  assert (Hsame : replay_from (vs_checkpoint vs) tail_visitor (vs_projection vs, vs_event_index vs) file
    = replay_from cp tail_visitor (vs_projection vs, vs_event_index vs) file).
  { unfold replay_from, replay_range. by rewrite Hs, Ho, Hh. }
  unfold load_journal_tail. rewrite Hsame, (replay_from_suffix file frs _ _ _ _ Hj Hcp). cbn [snd].
  rewrite <- (take_drop (N.to_nat n) frs) in Hr. unfold replays in Hr, Hq.
  rewrite try_fold_app, Hq in Hr. cbn [mbind result_bind] in Hr. rewrite Hr.
  cbn [scan_summary sc_frame_count sc_bytes_consumed sc_last_hash sc_checkpoints fst
       rs_final_sequence rs_bytes_consumed rs_last_hash].
  rewrite !N.eqb_refl, bool_decide_eq_true_2 by done. cbn [negb orb reject_if mbind result_bind].
  unfold actual_head, head_at, vec_len. by rewrite Nat2N.id, firstn_all.
Qed.

(** A snapshot that is accepted changes nothing of what is read. *)
Lemma load_tail_snapshot file frs p ix t1 anchor contents vs :
  journal_of file frs → replays frs p ix →
  let scanned := scan_summary file frs t1 (Some (an_last_sequence anchor)) in
  authenticate_snapshot anchor contents scanned = Ok vs →
  load_journal_tail file scanned (Some vs)
  = Ok (mkReplayState (actual_head frs) (rc_record_hash <$> (t1 ≫= checkpoint_at frs)) ix p)
  ∨ snapshot_clash frs (Some contents).
Proof.
  intros Hj Hr scanned Hok.
  destruct (authentic_snapshot _ _ _ _ _ _ _ _ Hj Hr Hok) as ([Hq|?] & cp & Hcp & Hs & Ho & Hh);
    [left|by right]. by eapply load_tail_from.
Qed.

(** ** Opening *)

(** The errors a snapshot alone can cause *)
Definition snapshot_error (e : MissionStoreError) : Prop :=
  e = MissionStoreError.Json ∨ ∃ n, e = MissionStoreError.SnapshotTooLarge n MAX_SNAPSHOT_BYTES.

Lemma store_state_digest_err p ix e : store_state_digest p ix = Err e → snapshot_error e.
Proof.
  unfold store_state_digest, snapshot_error.
  intros [[_ ->]%ok_or_err|(c & _ & [[_ <-]%reject_if_err|(? & _ & ?)]%bind_err)]%bind_err;
    [by left|right; by eexists|done].
Qed.

Lemma validate_index_err snapshot e :
  validate_snapshot_index snapshot = Err e → is_snapshot_content_corruption e = true.
Proof.
  unfold validate_snapshot_index.
  intros [[_ <-]%reject_if_err|([] & _ & [Hfold|(? & _ & ?)]%bind_err)]%bind_err; [done| |done].
  revert Hfold. generalize (∅ : gset N).
  induction (str_entries (sn_event_index snapshot)) as [|x l IH]; intros seen; [done|].
  cbn [try_fold]. intros [Hx|(seen' & _ & Hl)]%bind_err; [|by eapply IH].
  apply bind_err in Hx as [[_ <-]%reject_if_err|([] & _ & Hx)]; [done|].
  apply bind_err in Hx as [[_ <-]%reject_if_err|([] & _ & Hx)]; [done|].
  by apply bind_err in Hx as [[_ <-]%reject_if_err|([] & _ & Hx)].
Qed.

Lemma authenticate_err anchor contents scanned e :
  authenticate_snapshot anchor contents scanned = Err e →
  is_snapshot_content_corruption e = true ∨ snapshot_error e.
Proof.
  unfold authenticate_snapshot.
  intros [Hcp|(cp & _ & [[_ <-]%ok_or_err|(snap & _ & [[_ <-]%reject_if_err|
    ([] & _ & [Hix%validate_index_err|([] & _ & [Hdig%store_state_digest_err|(dig & _ &
    [[_ <-]%reject_if_err|([] & _ & [[_ <-]%reject_if_err|([] & _ & ?)]%bind_err)]%bind_err)]
    %bind_err)]%bind_err)]%bind_err)]%bind_err)]%bind_err; auto; [|done].
  left. unfold bind_anchor in Hcp.
  apply bind_err in Hcp as [[_ <-]%reject_if_err|([] & _ & Hcp)]; [done|].
  destruct (an_last_sequence anchor =? 0)%N.
  - by apply bind_err in Hcp as [[_ <-]%reject_if_err|([] & _ & Hcp)].
  - apply bind_err in Hcp as [[_ <-]%ok_or_err|(c & _ & Hcp)]; [done|].
    do 2 (apply bind_err in Hcp as [[_ <-]%reject_if_err|([] & _ & Hcp)]; [done|]).
    by apply bind_err in Hcp as [[_ <-]%reject_if_err|([] & _ & Hcp)].
Qed.

(** The state a snapshot and the journal give *)
Lemma resolve_and_load file frs p ix t1 snapshot load scanned :
  journal_of file frs → replays frs p ix → load_untrusted_snapshot snapshot = Ok load →
  scanned = scan_summary file frs t1 (snapshot_sequence load) →
  match resolve_snapshot_cache load scanned with
  | Ok (vs, corrupt) =>
      (snapshot = None → vs = None ∧ corrupt = false)
      ∧ (load_journal_tail file scanned vs
         = Ok (mkReplayState (actual_head frs) (rc_record_hash <$> (t1 ≫= checkpoint_at frs)) ix p)
         ∨ snapshot_clash frs snapshot)
  | Err e => snapshot ≠ None ∧ snapshot_error e
  end.
Proof.
  intros Hj Hr Hload ->. unfold resolve_snapshot_cache.
  assert (Hmissing : ∀ t2, load_journal_tail file (scan_summary file frs t1 t2) None
    = Ok (mkReplayState (actual_head frs) (rc_record_hash <$> (t1 ≫= checkpoint_at frs)) ix p))
    by (intros; by apply load_tail_spec).
  destruct snapshot as [contents|]; [|injection Hload as <-; by auto].
  destruct load as [| |anchor contents']; [split; [done|left; apply Hmissing]..|].
  assert (contents' = contents) as ->.
  { cbn in Hload. apply bind_ok in Hload as (c & Hc & Hload). unfold read_limited_private_file in Hc.
    inv_ok. by repeat case_match; simplify_eq. }
  cbn [snapshot_sequence].
  destruct (authenticate_snapshot anchor contents _) as [vs|e] eqn:Hauth.
  - split; [done|]. destruct (load_tail_snapshot _ _ _ _ _ _ _ _ Hj Hr Hauth); auto.
  - apply authenticate_err in Hauth. destruct (is_snapshot_content_corruption e);
      [split; [done|left; apply Hmissing]|]. by destruct Hauth.
Qed.

Lemma reconcile_ok d file frs p ix n :
  journal_of file frs → (n ≤ vec_len frs)%N → head_file_ok frs (dk_head d) →
  ∃ head, reconcile_head WriteOutcome.Written (head_at frs n)
            (mkReplayState (actual_head frs) (rc_record_hash <$> checkpoint_at frs n) ix p) d
          = (d <| dk_head := head |>, Ok (actual_head frs)) ∧ head_file_ok frs head.
Proof.
  intros Hj Hn Hho. unfold reconcile_head. cbv zeta.
  rewrite bind_lift. cbn [rp_actual_head]. rewrite (validate_head_ok file) by done.
  case_bool_decide.
  - exists (dk_head d). split; [by destruct d|done].
  - rewrite bind_disk. unfold get_disk at 1.
    pose proof (write_head (dk_head d) (actual_head frs) WriteOutcome.Written
                  (head_at_wf _ _ _ Hj (N.le_refl _)) eq_refl) as Hw.
    destruct (atomic_write_json_limited _ _ _ _ _) as [head r]. destruct Hw as [-> Hload].
    exists head. split; [done|]. by apply head_file_ok_actual.
Qed.

Lemma atomic_write_err old json limit kind e :
  (atomic_write_json_limited old json limit kind WriteOutcome.Written).2 = Err e →
  e = MissionStoreError.Json ∨ ∃ n, e = limit_error kind n limit.
Proof.
  unfold atomic_write_json_limited. destruct json as [b|]; [|intros [= <-]; by left].
  cbv zeta. destruct (limit <? _)%N; [intros [= <-]; right; by eexists|done].
Qed.

Lemma checkpoint_spec s d :
  ∃ snapshot r, checkpoint WriteOutcome.Written s d = (d <| dk_snapshot := snapshot |>, r)
    ∧ (∀ e, r = Err e → snapshot_error e).
Proof.
  unfold checkpoint. rewrite bind_disk. unfold get_disk. rewrite bind_lift.
  destruct (store_state_digest _ _) as [digest|e] eqn:Hdig.
  - cbv zeta. set (snap := mkMissionSnapshot _ _ _ _ _ _ _).
    pose proof (atomic_write_err (dk_snapshot d) (snapshot_to_vec_pretty snap) MAX_SNAPSHOT_BYTES
                  FileLimitKind.Snapshot) as Herr.
    destruct (atomic_write_json_limited _ _ _ _ _) as [contents r].
    exists contents, r. split; [done|]. intros e ->. by apply (Herr e).
  - exists (dk_snapshot d), (Err e). split; [by destruct d|]. intros ? [= <-].
    by eapply store_state_digest_err.
Qed.

Lemma quarantine_spec s d :
  dk_snapshot d ≠ None →
  ∃ snapshot quarantine r,
    quarantine_and_rebuild_snapshot WriteOutcome.Written WriteOutcome.Written s d
    = (d <| dk_quarantine := quarantine |> <| dk_snapshot := snapshot |>, r)
    ∧ (∀ e, r = Err e → snapshot_error e).
Proof.
  intros Hsnap. unfold quarantine_and_rebuild_snapshot. rewrite bind_disk. unfold get_disk.
  destruct (dk_snapshot d) as [contents|]; [|done]. rewrite bind_disk. unfold set_disk.
  destruct (checkpoint_spec s (d <| dk_quarantine := Some contents |> <| dk_snapshot := None |>))
    as (snapshot & r & Hcp & Herr). rewrite Hcp. by exists snapshot, (Some contents), r.
Qed.

Definition all_written : OpenIo :=
  mkOpenIo WriteOutcome.Written WriteOutcome.Written WriteOutcome.Written.

Lemma open_locked_spec d frs p ix :
  disk_recovers d frs p ix → dk_writer_lock d = true →
  match open_locked all_written d with
  | (d', Ok s) => (ms_projection s = p ∧ ms_event_index s = ix ∧ store_ok d' s frs
                   ∧ (dk_snapshot d = None → dk_snapshot d' = None))
                  ∨ snapshot_clash frs (dk_snapshot d)
  | (_, Err e) => dk_snapshot d ≠ None ∧ snapshot_error e ∨ snapshot_clash frs (dk_snapshot d)
  end.
Proof.
  intros (Hho & Hr & file & Hj & Hscan) Hlock. pose proof Hho as (head & n & Hhead & Hat & Hn).
  unfold open_locked. rewrite bind_disk. unfold get_disk. cbv zeta.
  rewrite bind_lift, Hhead, bind_lift.
  destruct (load_untrusted_snapshot (dk_snapshot d)) as [load|e] eqn:Hload.
  2:{ destruct (dk_snapshot d) as [c|]; [|done]. left. split; [done|]. cbn in Hload.
      apply bind_err in Hload as [Hload|(c' & _ & Hload)]; [|by repeat case_match].
      apply bind_err in Hload as [[_ <-]%reject_if_err|(? & _ & ?)]; [right; by eexists|done]. }
  rewrite Hscan. cbn [fst snd]. rewrite bind_disk. unfold set_disk. rewrite bind_lift.
  cbn [map_err]. rewrite bind_lift, Hat. cbn [head_at jh_sequence].
  pose proof (resolve_and_load file frs p ix (Some n) _ _ _ Hj Hr Hload eq_refl) as Hres.
  destruct (resolve_snapshot_cache _ _) as [[vs corrupt]|e];
    [|left; exact Hres].
  destruct Hres as [Hnone [Htail|Hcoll]].
  2:{ rewrite bind_lift. destruct (load_journal_tail _ _ _); [|by auto].
      destruct ((_ : DiskM MissionStore) _) as [d' [s|e]]; auto. }
  rewrite bind_lift, Htail. cbn [mbind option_bind]. rewrite bind_disk.
  set (d1 := d <| dk_journal := Some file |>).
  destruct (reconcile_ok d1 file frs p ix n Hj Hn Hho) as (hd & Hrec & Hho').
  cbn [all_written oi_head oi_quarantine oi_snapshot]. rewrite Hrec. cbn [rp_event_index rp_projection].
  set (s := mkMissionStore _ _ _ _). set (d2 := d1 <| dk_head := hd |>).
  assert (Hok : ∀ sn q, store_ok (d2 <| dk_quarantine := q |> <| dk_snapshot := sn |>) s frs).
  { intros sn q. do 5 (split; [done|]). by exists file. }
  destruct corrupt.
  - destruct (quarantine_spec s d2) as (sn & q & r & Hq & Herr).
    { intros Hsn. by destruct (Hnone Hsn). }
    rewrite bind_disk, Hq. destruct r as [|e].
    + left. do 2 (split; [done|]). split; [by apply Hok|]. intros Hsn. by destruct (Hnone Hsn).
    + left. split; [intros Hsn; by destruct (Hnone Hsn)|]. by apply Herr.
  - left. do 2 (split; [done|]). split; [|done]. by apply (Hok (dk_snapshot d2) (dk_quarantine d2)).
Qed.
(** A whole opening *)
Lemma open_recovers d frs p ix :
  disk_recovers d frs p ix → dk_writer_lock d = false →
  (∃ d' s, open all_written d = (d', Ok s) ∧ ms_projection s = p ∧ ms_event_index s = ix
     ∧ ms_journal_head s = actual_head frs ∧ store_ok d' s frs)
  ∨ (dk_snapshot d ≠ None ∧ ∃ d' e, open all_written d = (d', Err e) ∧ snapshot_error e)
  ∨ snapshot_clash frs (dk_snapshot d).
Proof.
  intros Hd Hlock. unfold open. cbv zeta.
  set (d0 := d <| dk_journal := _ |>). change (dk_writer_lock d0) with (dk_writer_lock d).
  rewrite Hlock.
  assert (Hd0 : disk_recovers (d0 <| dk_writer_lock := true |>) frs p ix) by exact Hd.
  pose proof (open_locked_spec _ _ _ _ Hd0 eq_refl) as Hopen.
  change (dk_snapshot (d0 <| dk_writer_lock := true |>)) with (dk_snapshot d) in Hopen.
  destruct (open_locked _ _) as [d' [s|e]].
  - destruct Hopen as [(Hp & Hix & Hok & _)|?]; [left|by auto].
    exists d', s. do 3 (split; [done|]). split; [by apply Hok|done].
  - destruct Hopen as [[Hsnap Herr]|?]; right; [left|by right]. split; [done|]. by exists (release d'), e.
Qed.

(** ** Checkpoints that are accepted *)

Lemma validate_index_ok n ix snapshot :
  map_len ix = n →
  map_Forall (λ id entry, validate_id "event id" id = Ok tt
      ∧ validate_hash "event fingerprint" (eie_event_fingerprint entry) = Ok tt
      ∧ (1 ≤ eie_sequence entry ≤ n)%N) ix →
  (∀ id id' entry entry', ix !! id = Some entry → ix !! id' = Some entry' →
      eie_sequence entry = eie_sequence entry' → id = id') →
  sn_event_index snapshot = ix → sn_last_sequence snapshot = n →
  validate_snapshot_index snapshot = Ok tt.
Proof.
  intros Hlen Hall Hinj Hix Hn. unfold validate_snapshot_index. rewrite Hix, Hn, Hlen, N.eqb_refl.
  cbn [negb reject_if mbind result_bind].
  assert (Hgen : ∀ l (seen : gset N), NoDup (l.*1) →
    (∀ x, x ∈ l → ix !! x.1 = Some x.2 ∧ eie_sequence x.2 ∉ seen) →
    ∃ seen', try_fold (λ (sequences : gset N) (entry : string * EventIndexEntry),
        _ ← validate_id "event id" entry.1;
        _ ← validate_hash "event fingerprint" (eie_event_fingerprint entry.2);
        _ ← reject_if ((eie_sequence entry.2 =? 0)%N
                       || (n <? eie_sequence entry.2)%N
                       || bool_decide (eie_sequence entry.2 ∈ sequences))
              MissionStoreError.SnapshotEventIndexMismatch;
        Ok ({[eie_sequence entry.2]} ∪ sequences)) seen l = Ok seen').
  { induction l as [|x l IH]; intros seen Hnd Hl; [by eexists|].
    cbn [fmap list_fmap] in Hnd. apply NoDup_cons in Hnd as [Hx Hnd].
    destruct (Hl x ltac:(by left)) as [Hxl Hseen]. destruct (Hall _ _ Hxl) as (Hid & Hfp & Hb).
    cbn [try_fold]. rewrite Hid, Hfp. cbn [mbind result_bind].
    rewrite (proj2 (N.eqb_neq _ _)), (proj2 (N.ltb_ge _ _)) by lia.
    rewrite bool_decide_eq_false_2 by done. cbn [orb reject_if mbind result_bind].
    apply IH; [done|]. intros y Hy. destruct (Hl y ltac:(by right)) as [Hyl Hys]. split; [done|].
    intros [Heq%elem_of_singleton|?]%elem_of_union; [|done]. apply Hx.
    rewrite <- (Hinj _ _ _ _ Hyl Hxl Heq). by apply list_elem_of_fmap_2. }
  destruct (Hgen (str_entries ix) ∅) as [seen' ->]; [apply NoDup_btree_keys| |done].
  intros [id x] Hx%elem_of_btree_entries. split; [done|set_solver].
Qed.

(** The anchor of a snapshot of the whole journal is bound to it. *)
Lemma bind_anchor_ok file frs p ix t1 digest :
  journal_of file frs → replays frs p ix → store_state_digest p ix = Ok digest →
  ∃ cp cp', bind_anchor (mkSnapshotAnchor STORE_VERSION (vec_len frs) (chain_hash RecordHash_ZERO frs)
              (byte_len file) digest) (scan_summary file frs t1 (Some (vec_len frs))) = Ok cp
    ∧ checkpoint_at frs (vec_len frs) = Some cp' ∧ rc_sequence cp = rc_sequence cp'
    ∧ rc_end_offset cp = rc_end_offset cp' ∧ rc_record_hash cp = rc_record_hash cp'.
Proof.
  intros Hj Hr Hdig. unfold bind_anchor.
  cbn [scan_summary sc_frame_count sc_checkpoints snd an_last_sequence an_last_record_hash
       an_journal_offset an_state_digest mbind option_bind].
  rewrite (proj2 (N.ltb_ge _ _)) by done. cbn [reject_if mbind result_bind].
  destruct frs as [|fr frs _] using rev_ind.
  { destruct Hj as (-> & _). eexists _, _. by split_and!. }
  assert (Hne : (vec_len (frs ++ [fr]) ≠ 0)%N) by (unfold vec_len; rewrite length_app; cbn; lia).
  rewrite (proj2 (N.eqb_neq _ _)) by done.
  assert (Hcp : checkpoint_at (frs ++ [fr]) (vec_len (frs ++ [fr])) = Some (checkpoint_of fr)).
  { unfold checkpoint_at. rewrite (proj2 (N.eqb_neq _ _)) by done. unfold vec_len.
    rewrite length_app. cbn [length].
    replace (N.to_nat (N.of_nat (length frs + 1) - 1)) with (length frs) by lia.
    by rewrite list_lookup_middle. }
  destruct (checkpoint_at_spec _ _ _ _ Hj Hcp) as (_ & Hpos & Hhash & _).
  rewrite Hcp. cbn [ok_or mbind result_bind].
  assert (Htake : take (N.to_nat (vec_len (frs ++ [fr]))) (frs ++ [fr]) = frs ++ [fr])
    by (unfold vec_len; by rewrite Nat2N.id, firstn_all).
  rewrite Htake in *. exists (checkpoint_of fr), (checkpoint_of fr). split; [|done].
  rewrite Hhash, (bool_decide_eq_true_2 (chain_hash _ _ = _)) by done.
  cbn [negb reject_if mbind result_bind].
  destruct Hj as (Hfile & Hc & _). rewrite Hpos, (chain_pos_spec _ _ _ _ _ _ Hc), <- Hfile.
  rewrite N.add_0_l. unfold byte_len at 1. rewrite N.eqb_refl. cbn [negb reject_if mbind result_bind].
  assert (Hst : vf_state_hash fr = digest).
  { apply replays_last in Hr as (c & Hc1 & _ & ->).
    apply store_state_digest_inv in Hdig as (c' & Hc2 & ->). congruence. }
  cbn [checkpoint_of rc_state_hash]. by rewrite bool_decide_eq_true_2.
Qed.

(** ** Histories *)

(** What a store's state is made of: its events in order, and the index that
    maps each event's identifier to its position and fingerprint *)
Definition index_ok (n : N) (ix : EventIndex) : Prop :=
  map_len ix = n
  ∧ map_Forall (λ id entry, validate_id "event id" id = Ok tt
      ∧ validate_hash "event fingerprint" (eie_event_fingerprint entry) = Ok tt
      ∧ (1 ≤ eie_sequence entry ≤ n)%N) ix
  ∧ ∀ id id' entry entry', ix !! id = Some entry → ix !! id' = Some entry' →
      eie_sequence entry = eie_sequence entry' → id = id'.

Lemma fingerprint_valid e fp :
  event_fingerprint e = Ok fp → validate_hash "event fingerprint" fp = Ok tt.
Proof.
  unfold event_fingerprint. intros (b & _ & Hfp)%bind_ok. apply Ok_inj in Hfp. subst fp.
  unfold validate_hash. cbv beta.
  by rewrite length_digest_finish, digest_finish_hex.
Qed.

Lemma index_ok_insert n ix id fp :
  index_ok n ix → ix !! id = None → validate_id "event id" id = Ok tt →
  validate_hash "event fingerprint" fp = Ok tt →
  index_ok (n + 1) (<[id := mkEventIndexEntry (n + 1) fp]> ix).
Proof.
  intros (Hlen & Hall & Hinj) Hnew Hid Hfp. split; [|split].
  - unfold map_len in *. rewrite map_size_insert_None by done. lia.
  - apply map_Forall_insert_2; [cbn; split_and!; done || lia|].
    intros i x Hi. destruct (Hall i x Hi) as (? & ? & ?). split_and!; done || lia.
  - intros i j x y Hx Hy Hxy. rewrite lookup_insert in Hx, Hy.
    destruct (decide (id = i)) as [Hi|Hi], (decide (id = j)) as [Hj|Hj].
    + by subst.
    + injection Hx as <-. destruct (Hall _ _ Hy) as (_ & _ & ?). cbn in Hxy. lia.
    + injection Hy as <-. destruct (Hall _ _ Hx) as (_ & _ & ?). cbn in Hxy. lia.
    + by apply (Hinj i j x y).
Qed.

Lemma replays_history file frs p ix :
  journal_of file frs → replays frs p ix →
  index_ok (vec_len frs) ix
  ∧ ∃ es, project es = Ok p ∧ length es = length frs ∧ Forall (λ e, event_validate e = Ok tt) es.
Proof.
  intros (_ & Hc & _). revert p ix. induction frs as [|fr frs IH] using rev_ind; intros p ix.
  { intros [= <- <-]. split; [|by exists []]. split; [done|]. split; [apply map_Forall_empty|].
    intros ????. by rewrite lookup_empty. }
  apply chain_ok_app in Hc as [Hc [Hfr _]].
  destruct Hfr as (_ & _ & _ & _ & _ & _ & Hseq & _).
  rewrite (chain_seq_spec _ _ _ _ _ _ Hc), N.add_0_l in Hseq.
  intros ([q jx] & Hq & Hv)%try_fold_snoc_ok. destruct (IH Hc q jx Hq) as (Hix & es & Hes & Hlen & Hval).
  apply tail_visitor_ok in Hv as (r & fp & _ & _ & _ & Hid & Hv & Hfp & Hnew & -> & Happ & _).
  unfold vec_len in *. rewrite length_app, Nat2N.inj_add, Hseq. split.
  - apply index_ok_insert; [done..|]. by eapply fingerprint_valid.
  - exists (es ++ [sme_event r]). rewrite !length_app, Hlen. split; [|split; [done|]].
    + apply try_fold_snoc_ok. eauto.
    + apply Forall_app. split; [done|]. by constructor.
Qed.

(** A journal has one list of frames. *)
Lemma journal_of_unique file frs frs' : journal_of file frs → journal_of file frs' → frs = frs'.
Proof.
  set (collect := λ (acc : list VerifiedFrame) fr, @Ok Empty_set _ (acc ++ [fr])).
  assert (Hcol : ∀ l acc, try_fold collect acc l = Ok (acc ++ l)).
  { induction l as [|fr l IH]; intros acc; cbn; [by rewrite app_nil_r|].
    rewrite IH. by rewrite <- app_assoc. }
  assert (Hrep : ∀ l, journal_of file l → ∃ s, replay_with ReplayMode.Inspect collect [] file
    = (file, Ok (s, l))).
  { intros l (Hfile & Hc & Hlen).
    rewrite (replay_with_reads _ _ _ _ l FrameRead.Eof Hlen), Hcol.
    - cbn [replay_stop app]. eauto.
    - rewrite Hfile, <- (app_nil_r (chain_bytes _)). by apply chain_reads. }
  intros (s & Hs)%Hrep (s' & Hs')%Hrep. rewrite Hs in Hs'. by injection Hs'.
Qed.

(** The cases of [commit] *)
Lemma commit_inv io d s id e d' s' r :
  commit io d s id e = (d', s', r) →
  (d' = d ∧ s' = s ∧ (∀ o, r = Ok o → o = mkCommitOutcome (co_sequence o) true
     ∧ ∃ fp, ms_event_index s !! id = Some (mkEventIndexEntry (co_sequence o) fp)
         ∧ event_fingerprint e = Ok fp))
  ∨ ∃ fp plan, ms_poisoned s = false ∧ validate_id "event id" id = Ok tt ∧ event_validate e = Ok tt
      ∧ event_fingerprint e = Ok fp ∧ ms_event_index s !! id = None
      ∧ plan_commit s id fp e = Ok plan ∧ write_commit io d s plan = (d', s', r).
Proof.
  unfold commit. destruct (_ ← reject_if (ms_poisoned s) _; _) as [[fp dup]|err] eqn:Hpre.
  2:{ intros [= <- <- <-]. by left. }
  apply bind_ok in Hpre as ([] & Hp%reject_if_ok & Hpre).
  apply bind_ok in Hpre as ([] & Hid & Hpre). apply bind_ok in Hpre as ([] & Hv & Hpre).
  apply bind_ok in Hpre as (fp' & Hfp & Hpre). apply bind_ok in Hpre as (dup' & Hdup & Hpre).
  apply Ok_inj in Hpre. injection Hpre as -> ->. unfold duplicate_outcome in Hdup.
  destruct (ms_event_index s !! id) as [entry|] eqn:Hix.
  - apply bind_ok in Hdup as ([] & Heq%reject_if_ok%negb_false_iff%bool_decide_eq_true & Hdup).
    apply Ok_inj in Hdup. subst dup. intros [= <- <- <-]. left. do 2 (split; [done|]).
    intros o [= <-]. split; [done|]. exists fp. split; [|done]. destruct entry. cbn in *. by subst.
  - apply Ok_inj in Hdup. subst dup.
    destruct (plan_commit s id fp e) as [plan|err] eqn:Hplan; [|intros [= <- <- <-]; by left].
    intros Hw. right. by exists fp, plan.
Qed.

(** A commit that was written, in terms of the journal's frames *)
Lemma commit_written io d s frs file id e d' s' r fp plan :
  store_ok d s frs → dk_journal d = Some file → journal_of file frs →
  validate_id "event id" id = Ok tt → event_validate e = Ok tt → event_fingerprint e = Ok fp →
  ms_event_index s !! id = None → plan_commit s id fp e = Ok plan →
  write_commit io d s plan = (d', s', r) →
  let frs' := frs ++ [planned_frame file frs plan] in
  replays frs' (pc_projection plan) (pc_event_index plan)
  ∧ dk_writer_lock d' = true ∧ dk_snapshot d' = dk_snapshot d ∧ dk_quarantine d' = dk_quarantine d
  ∧ match r with
    | Err _ => s' = s <| ms_poisoned := true |>
        ∧ (disk_recovers d' frs (ms_projection s) (ms_event_index s)
           ∨ disk_recovers d' frs' (pc_projection plan) (pc_event_index plan))
    | Ok outcome => outcome = mkCommitOutcome (vec_len frs + 1) false
        ∧ store_ok d' s' frs'
        ∧ ms_projection s' = pc_projection plan ∧ ms_event_index s' = pc_event_index plan
    end.
Proof.
  intros Hs Hd Hj Hid Hv Hfp Hnew Hplan Hw frs'. pose proof Hs as (_ & _ & Hhead & Hr & _).
  pose proof (plan_visited _ _ _ _ _ file _ Hplan Hhead Hr Hid Hv Hfp Hnew) as Hr'.
  apply plan_commit_inv in Hplan as (_ & _ & Hseq & Hmax & _ & Hdig & _ & Hpay).
  rewrite Hhead in Hseq. cbn [actual_head head_at jh_sequence] in Hseq.
  split; [exact Hr'|]. eapply write_commit_spec; try done; [lia|].
  by eapply store_state_digest_length.
Qed.
(** A checkpoint writes the snapshot and nothing else. *)
Lemma checkpoint_writes outcome s d d' r :
  checkpoint outcome s d = (d', r) → ∃ snapshot, d' = d <| dk_snapshot := snapshot |>.
Proof.
  unfold checkpoint. rewrite bind_disk. unfold get_disk. rewrite bind_lift.
  destruct (store_state_digest _ _) as [digest|e].
  - cbv zeta. destruct (atomic_write_json_limited _ _ _ _ _) as [contents r'].
    intros [= <- _]. by eexists.
  - intros [= <- _]. exists (dk_snapshot d). by destruct d.
Qed.

(** The snapshot of a checkpoint that succeeded resolves to the store's state. *)
Lemma checkpoint_resolves d s frs d' t1 :
  store_ok d s frs → checkpoint WriteOutcome.Written s d = (d', Ok tt) →
  ∃ load vs file, dk_journal d = Some file ∧ journal_of file frs
    ∧ load_untrusted_snapshot (dk_snapshot d') = Ok load
    ∧ resolve_snapshot_cache load (scan_summary file frs t1 (snapshot_sequence load))
      = Ok (Some vs, false)
    ∧ load_journal_tail file (scan_summary file frs t1 (snapshot_sequence load)) (Some vs)
      = Ok (mkReplayState (actual_head frs) (rc_record_hash <$> (t1 ≫= checkpoint_at frs))
              (ms_event_index s) (ms_projection s)).
Proof.
  intros (_ & _ & Hhead & Hr & _ & file & Hd & Hj).
  unfold checkpoint. rewrite bind_disk. unfold get_disk. rewrite bind_lift.
  destruct (store_state_digest _ _) as [digest|e] eqn:Hdig; [|done].
  cbv zeta. rewrite Hhead, Hd. cbn [actual_head head_at jh_sequence jh_record_hash default from_option id].
  assert (Htake : take (N.to_nat (vec_len frs)) frs = frs)
    by (unfold vec_len; by rewrite Nat2N.id, firstn_all).
  rewrite Htake. set (snap := mkMissionSnapshot _ _ _ _ _ _ _).
  destruct (snapshot_to_vec_pretty snap) as [b|] eqn:Hb; [|by intros [= _ [=]]].
  unfold atomic_write_json_limited. cbv zeta.
  destruct (MAX_SNAPSHOT_BYTES <? byte_len (b ++ [newline]))%N eqn:Hlen; [by intros [= _ [=]]|].
  intros Hw. injection Hw as <-. destruct (bind_anchor_ok file frs _ _ t1 digest Hj Hr Hdig)
    as (cp & cp' & Hcp & Hat & Hs & Ho & Hh).
  exists (SnapshotLoad.Untrusted (anchor_of snap) (b ++ [newline])),
    (mkVerifiedSnapshot cp (ms_projection s) (ms_event_index s)), file.
  do 2 (split; [done|]). destruct (replays_history _ _ _ _ Hj Hr) as [(Hix1 & Hix2 & Hix3) _].
  split; [|split].
  - cbn [dk_snapshot update load_untrusted_snapshot]. unfold read_limited_private_file.
    rewrite Hlen. cbn [reject_if mbind result_bind]. by rewrite (anchor_roundtrip _ _ Hb).
  - cbn [resolve_snapshot_cache snapshot_sequence anchor_of an_last_sequence snap sn_last_sequence].
    unfold authenticate_snapshot. unfold anchor_of, snap.
    cbn [sn_version sn_last_sequence sn_last_record_hash sn_journal_offset sn_state_digest].
    unfold current_len. rewrite Hcp. cbn [mbind result_bind]. fold snap.
    rewrite (snapshot_roundtrip _ _ Hb).
    cbn [ok_or mbind result_bind an_version an_last_sequence an_last_record_hash an_journal_offset
         an_state_digest].
    match goal with |- context [reject_if ?c MissionStoreError.SnapshotHeadMismatch] =>
      replace c with false
        by (change (sn_version snap) with STORE_VERSION; unfold snap;
            cbn [sn_last_sequence sn_last_record_hash sn_journal_offset sn_state_digest];
            unfold current_len; by rewrite !N.eqb_refl, !bool_decide_eq_true_2) end.
    cbn [reject_if mbind result_bind].
    rewrite (validate_index_ok (vec_len frs) (ms_event_index s) snap) by done.
    cbn [mbind result_bind]. change (sn_projection snap) with (ms_projection s).
    change (sn_event_index snap) with (ms_event_index s). rewrite Hdig. cbn [mbind result_bind].
    rewrite (bool_decide_eq_true_2 (digest = _)) by done. cbn [negb reject_if mbind result_bind].
    change (sn_last_sequence snap) with (vec_len frs).
    destruct (N.eqb_spec (vec_len frs) 0) as [Hz|]; [|done].
    assert (frs = []) as -> by (apply nil_length_inv; unfold vec_len in Hz; lia).
    injection Hr as <- <-. by rewrite !bool_decide_eq_true_2.
  - cbn [snapshot_sequence anchor_of an_last_sequence snap sn_last_sequence].
    eapply (load_tail_from file frs _ _ (vec_len frs)); try done. by rewrite Htake.
Qed.

(** Opening after a checkpoint *)
Lemma checkpoint_reopens d s frs d1 :
  store_ok d s frs → checkpoint WriteOutcome.Written s d = (d1, Ok tt) →
  ∃ d2 s2, open all_written (release d1) = (d2, Ok s2)
    ∧ ms_projection s2 = ms_projection s ∧ ms_event_index s2 = ms_event_index s
    ∧ ms_journal_head s2 = ms_journal_head s ∧ store_ok d2 s2 frs
    ∧ dk_snapshot d2 = dk_snapshot d1 ∧ dk_quarantine d2 = dk_quarantine d
    ∧ dk_journal d2 = dk_journal d.
Proof.
  intros Hs Hcp. pose proof Hs as (_ & _ & Hhead & Hr & Hho & _).
  destruct (checkpoint_writes _ _ _ _ _ Hcp) as [sn Hd1].
  destruct Hho as (head & n & Hload & Hat & Hn).
  destruct (checkpoint_resolves d s frs d1 (Some n) Hs Hcp)
    as (load & vs & file & Hd & Hj & Hsnap & Hres & Htail).
  unfold open, release. cbv zeta. rewrite Hd1 in *. cbn [dk_writer_lock dk_journal update].
  rewrite Hd. cbn [default from_option id]. unfold open_locked. rewrite bind_disk. unfold get_disk.
  cbv zeta. rewrite bind_lift. cbn [dk_head dk_snapshot dk_journal update default from_option id].
  cbn [dk_snapshot update] in Hsnap. rewrite Hload, bind_lift, Hsnap, Hat. cbn [head_at jh_sequence].
  rewrite (scan_journal _ _ _ _ _ Hj), bind_disk. unfold set_disk. rewrite bind_lift. cbn [map_err].
  rewrite bind_lift, Hres, bind_lift, Htail, bind_disk. cbn [mbind option_bind all_written oi_head].
  match goal with |- context [reconcile_head _ _ _ ?dd] =>
    destruct (reconcile_ok dd file frs (ms_projection s) (ms_event_index s) n Hj Hn) as (hd & Hrec & Hho')
  end.
  { by exists head, n. }
  rewrite Hrec. cbn [rp_event_index rp_projection]. eexists _, _. split; [reflexivity|].
  cbn [ms_projection ms_event_index ms_journal_head]. do 2 (split; [done|]). split; [done|].
  split; [|done]. do 5 (split; [done|]). by exists file.
Qed.

(** ** Runs of a store

    The life of one writer after another on one directory: it opens, commits
    with whatever outcome of its writes, writes checkpoints, and stops or
    crashes at any point, after which it opens again. *)

Definition empty_disk : Disk := mkDisk None None None None false.

Inductive store_run : Disk → MissionStore → Prop :=
| run_open io d s : open io empty_disk = (d, Ok s) → store_run d s
| run_commit io d s id e d' s' r :
    store_run d s → commit io d s id e = (d', s', r) → store_run d' s'
| run_checkpoint outcome d s d' r :
    store_run d s → checkpoint outcome s d = (d', r) → store_run d' s
| run_reopen io d s d' s' :
    store_run d s → open io (release d) = (d', Ok s') → store_run d' s'.

(** The directory recovers to a journal, its snapshot is the state after a
    prefix of it, and so is the memory of the writer; that prefix is the whole
    unless the writer is poisoned. *)
Definition disk_ok (d : Disk) (frs : list VerifiedFrame) : Prop :=
  (∃ p ix, disk_recovers d frs p ix) ∧ snapshot_sound frs (dk_snapshot d).
Definition run_ok (d : Disk) (s : MissionStore) : Prop :=
  ∃ frs, disk_ok d frs
    ∧ (∃ file frs0, frs0 `prefix_of` frs ∧ journal_of file frs0
         ∧ replays frs0 (ms_projection s) (ms_event_index s)
         ∧ ms_journal_head s = actual_head frs0)
    ∧ (ms_poisoned s = false → store_ok d s frs).

Lemma store_ok_run_ok d s frs : store_ok d s frs → snapshot_sound frs (dk_snapshot d) → run_ok d s.
Proof.
  intros Hs Hsound. pose proof (store_ok_recovers _ _ _ Hs) as Hrec.
  pose proof Hs as (_ & _ & Hh & Hr & _ & file & _ & Hj). exists frs. split; [|split].
  - split; [by eexists _, _|done].
  - by exists file, frs.
  - done.
Qed.

(** A writer whose memory is the state after a prefix of the journal writes
    a snapshot of that prefix. *)
Lemma checkpoint_sound outcome s d d' r frs frs0 :
  checkpoint outcome s d = (d', r) →
  frs0 `prefix_of` frs → replays frs0 (ms_projection s) (ms_event_index s) →
  ms_journal_head s = actual_head frs0 →
  snapshot_sound frs (dk_snapshot d) → snapshot_sound frs (dk_snapshot d').
Proof.
  unfold checkpoint. rewrite bind_disk. unfold get_disk. rewrite bind_lift.
  destruct (store_state_digest _ _) as [digest|e]; [|by intros [= <- _]].
  cbv zeta. set (snap := mkMissionSnapshot _ _ _ _ _ _ _).
  intros Hw [rest ->] Hr Hh Hs.
  destruct (snapshot_to_vec_pretty snap) as [b|] eqn:Hb; [|by injection Hw as <- _].
  assert (Hnew : snapshot_sound (frs0 ++ rest) (Some (b ++ [newline]))).
  { intros contents snap' [= <-]. rewrite (snapshot_roundtrip _ _ Hb). intros [= <-].
    cbn [snap sn_last_sequence sn_projection sn_event_index]. rewrite Hh.
    cbn [actual_head head_at jh_sequence]. unfold vec_len. rewrite length_app, Nat2N.id.
    split; [lia|]. by rewrite take_app_length. }
  unfold atomic_write_json_limited in Hw. cbv zeta in Hw.
  destruct (_ <? _)%N; [by injection Hw as <- _|]. by destruct outcome; injection Hw as <- _.
Qed.

Lemma empty_recovers : disk_recovers empty_disk [] MissionProjection_default ∅.
Proof.
  assert (Hj : journal_of [] []) by (split_and!; done).
  split; [|split; [done|]].
  - by exists None, 0%N.
  - exists []. split; [exact Hj|]. intros t1 t2. by apply scan_journal.
Qed.

Lemma commit_keeps_ok io d s frs id e d' s' o :
  store_ok d s frs → commit io d s id e = (d', s', Ok o) → ∃ frs', store_ok d' s' frs'.
Proof.
  intros Hs Hcommit. destruct (commit_inv _ _ _ _ _ _ _ _ Hcommit) as [(-> & -> & _)|
    (fp & plan & _ & Hid & Hv & Hfp & Hnew & Hplan & Hw)]; [by exists frs|].
  pose proof Hs as (_ & _ & _ & _ & _ & file & Hd & Hj).
  destruct (commit_written _ _ _ _ _ _ _ _ _ _ _ _ Hs Hd Hj Hid Hv Hfp Hnew Hplan Hw)
    as (_ & _ & _ & _ & _ & Hok & _). by eexists.
Qed.

Lemma commit_run_ok io d s id e d' s' r :
  run_ok d s → commit io d s id e = (d', s', r) → run_ok d' s'.
Proof.
  intros Hok Hcommit. destruct (commit_inv _ _ _ _ _ _ _ _ Hcommit) as [(-> & -> & _)|
    (fp & plan & Hpois & Hid & Hv & Hfp & Hnew & Hplan & Hw)]; [done|].
  destruct Hok as (frs & [_ Hsound] & _ & Hs). specialize (Hs Hpois).
  pose proof Hs as (_ & _ & Hhead & Hr & _ & file & Hd & Hj).
  destruct (commit_written _ _ _ _ _ _ _ _ _ _ _ _ Hs Hd Hj Hid Hv Hfp Hnew Hplan Hw)
    as (_ & _ & Hsn & _ & Hcase). rewrite <- Hsn in Hsound. destruct r as [o|err].
  - destruct Hcase as (_ & Hok & _). eapply store_ok_run_ok; [exact Hok|by apply sound_app].
  - destruct Hcase as (-> & [Hrec|Hrec]).
    + exists frs. split; [by split; [eexists _, _|]|]. split; [by exists file, frs|done].
    + eexists. split; [split; [by eexists _, _|by apply sound_app]|].
      split; [|done]. exists file, frs. split; [by apply prefix_app_r|done].
Qed.

Lemma checkpoint_run_ok outcome d s d' r :
  run_ok d s → checkpoint outcome s d = (d', r) → run_ok d' s.
Proof.
  intros (frs & [Hrec Hsound] & Hmem & Hs) Hcp.
  pose proof Hmem as (file & frs0 & Hpre & _ & Hr & Hh).
  pose proof (checkpoint_sound _ _ _ _ _ _ _ Hcp Hpre Hr Hh Hsound) as Hsound'.
  apply checkpoint_writes in Hcp as [sn ->]. exists frs. by split_and!.
Qed.

Lemma reconcile_any outcome d file frs p ix n :
  journal_of file frs → (n ≤ vec_len frs)%N → head_file_ok frs (dk_head d) →
  ∃ head r, reconcile_head outcome (head_at frs n)
      (mkReplayState (actual_head frs) (rc_record_hash <$> checkpoint_at frs n) ix p) d
    = (d <| dk_head := head |>, r) ∧ head_file_ok frs head ∧ (∀ h, r = Ok h → h = actual_head frs).
Proof.
  intros Hj Hn Hho. unfold reconcile_head. cbv zeta.
  rewrite bind_lift. cbn [rp_actual_head]. rewrite (validate_head_ok file) by done.
  case_bool_decide.
  - exists (dk_head d), (Ok (actual_head frs)). split; [by destruct d|]. split; [done|]. by intros h [= <-].
  - rewrite bind_disk. unfold get_disk at 1.
    pose proof (write_head (dk_head d) (actual_head frs) outcome
                  (head_at_wf _ _ _ Hj (N.le_refl _)) eq_refl) as Hw.
    destruct (atomic_write_json_limited _ _ _ _ _) as [head r].
    exists head. destruct outcome; destruct Hw as [-> Hload].
    + exists (Ok (actual_head frs)). split; [done|]. split; [by apply head_file_ok_actual|]. by intros h [= <-].
    + subst head. exists (Err MissionStoreError.Io). by split_and!.
    + exists (Err MissionStoreError.Io). split; [done|]. split; [by apply head_file_ok_actual|done].
Qed.

Lemma quarantine_any rename write s d frs :
  replays frs (ms_projection s) (ms_event_index s) → ms_journal_head s = actual_head frs →
  snapshot_sound frs (dk_snapshot d) →
  ∃ snapshot quarantine r, quarantine_and_rebuild_snapshot rename write s d
    = (d <| dk_quarantine := quarantine |> <| dk_snapshot := snapshot |>, r)
    ∧ snapshot_sound frs snapshot.
Proof.
  intros Hr Hh Hs. unfold quarantine_and_rebuild_snapshot. rewrite bind_disk. unfold get_disk.
  assert (Hio : ∃ snapshot quarantine r,
    (d, Err MissionStoreError.Io)
    = (d <| dk_quarantine := quarantine |> <| dk_snapshot := snapshot |>, r : result MissionStoreError unit)
    ∧ snapshot_sound frs snapshot).
  { exists (dk_snapshot d), (dk_quarantine d), (Err MissionStoreError.Io). split; [by destruct d|done]. }
  destruct rename, (dk_snapshot d) as [contents|] eqn:Hsn; rewrite !bind_disk; unfold set_disk, lift;
    try exact Hio.
  - destruct (checkpoint write s (d <| dk_quarantine := Some contents |> <| dk_snapshot := None |>))
      as [d'' r] eqn:Hc.
    pose proof (checkpoint_sound _ _ _ _ _ frs frs Hc ltac:(done) Hr Hh (sound_none _)) as Hsound.
    apply checkpoint_writes in Hc as [sn ->]. by exists sn, (Some contents), r.
  - by exists None, (Some contents), (Err MissionStoreError.Io).
Qed.

Lemma open_locked_any io d frs p ix :
  disk_recovers d frs p ix → snapshot_sound frs (dk_snapshot d) → dk_writer_lock d = true →
  let '(d', r) := open_locked io d in
  disk_recovers d' frs p ix ∧ snapshot_sound frs (dk_snapshot d') ∧ dk_writer_lock d' = true
  ∧ ∀ s, r = Ok s → store_ok d' s frs.
Proof.
  intros Hd Hsound Hlock. pose proof Hd as (Hho & Hr & file & Hj & Hscan).
  pose proof Hho as (head & n & Hhead & Hat & Hn).
  unfold open_locked. rewrite bind_disk. unfold get_disk. cbv zeta.
  rewrite bind_lift, Hhead, bind_lift.
  destruct (load_untrusted_snapshot (dk_snapshot d)) as [load|e] eqn:Hload; [|done].
  rewrite Hscan. cbn [fst snd]. rewrite bind_disk. unfold set_disk. rewrite bind_lift.
  cbn [map_err]. rewrite bind_lift, Hat. cbn [head_at jh_sequence].
  set (d1 := d <| dk_journal := Some file |>).
  assert (Hd1 : ∀ hd sn q, head_file_ok frs hd →
    disk_recovers (d1 <| dk_head := hd |> <| dk_quarantine := q |> <| dk_snapshot := sn |>) frs p ix).
  { intros hd sn q Hhd. split; [exact Hhd|]. split; [exact Hr|]. exists file. split; [exact Hj|].
    intros t1 t2. by apply scan_journal. }
  pose proof (resolve_and_load file frs p ix (Some n) _ _ _ Hj Hr Hload eq_refl) as Hres.
  destruct (resolve_snapshot_cache _ _) as [[vs corrupt]|e].
  2:{ split; [|done]. exact (Hd1 (dk_head d) (dk_snapshot d) (dk_quarantine d) Hho). }
  destruct Hres as [_ [Htail|Hcl]]; [|by destruct (sound_no_clash _ _ Hsound)].
  rewrite bind_lift, Htail. cbn [mbind option_bind]. rewrite bind_disk.
  destruct (reconcile_any (oi_head io) d1 file frs p ix n Hj Hn Hho) as (hd & r & Hrec & Hho' & Hok).
  rewrite Hrec. destruct r as [h|e].
  2:{ split; [|done]. exact (Hd1 hd (dk_snapshot d) (dk_quarantine d) Hho'). }
  rewrite (Hok h eq_refl). cbn [rp_event_index rp_projection].
  set (s := mkMissionStore _ _ _ _). set (d2 := d1 <| dk_head := hd |>).
  assert (Hs : ∀ sn q, store_ok (d2 <| dk_quarantine := q |> <| dk_snapshot := sn |>) s frs).
  { intros sn q. do 5 (split; [done|]). by exists file. }
  destruct corrupt.
  - rewrite bind_disk.
    destruct (quarantine_any (oi_quarantine io) (oi_snapshot io) s d2 frs) as (sn & q & r & -> & Hsn); [done..|].
    destruct r as [[]|e]; (split; [by apply Hd1|]); do 2 (split; [done|]); [|done].
    intros s' [= <-]. apply Hs.
  - split; [exact (Hd1 hd (dk_snapshot d) (dk_quarantine d) Hho')|]. do 2 (split; [done|]).
    intros s' [= <-]. exact (Hs (dk_snapshot d2) (dk_quarantine d2)).
Qed.

(** Opening a free directory, whatever its writes do: the journal is as it
    was, and the store has its state. *)
Lemma open_free io d frs :
  disk_ok d frs → dk_writer_lock d = false →
  let '(d', r) := open io d in
  disk_ok d' frs
  ∧ match r with
    | Ok s => dk_writer_lock d' = true ∧ store_ok d' s frs
    | Err _ => dk_writer_lock d' = false
    end.
Proof.
  intros [(p & ix & Hd) Hsound] Hlock. unfold open. cbv zeta.
  set (d0 := d <| dk_journal := _ |>). change (dk_writer_lock d0) with (dk_writer_lock d).
  rewrite Hlock.
  assert (Hd0 : disk_recovers (d0 <| dk_writer_lock := true |>) frs p ix) by exact Hd.
  pose proof (open_locked_any io _ frs p ix Hd0 Hsound eq_refl) as Hopen.
  destruct (open_locked _ _) as [d' [s|e]]; destruct Hopen as (Hd' & Hs' & Hl' & Hok).
  - split; [by split; [eexists _, _|]|]. split; [done|]. by apply Hok.
  - split; [|done]. split; [by eexists _, _|done].
Qed.

Lemma store_run_ok d s : store_run d s → run_ok d s.
Proof.
  assert (Hopened : ∀ io d d' s' frs, disk_ok d frs → dk_writer_lock d = false →
    open io d = (d', Ok s') → run_ok d' s').
  { intros io d0 d' s' frs Hd Hl Ho. pose proof (open_free io d0 frs Hd Hl) as Hf. rewrite Ho in Hf.
    destruct Hf as ([_ Hsound] & _ & Hs). by eapply store_ok_run_ok. }
  induction 1 as [io d s Hopen|io d s id e d' s' r _ IH Hc|o d s d' r _ IH Hc|io d s d' s' _ IH Hopen].
  - eapply (Hopened io empty_disk _ _ []); [|done|exact Hopen].
    split; [eexists _, _; apply empty_recovers|by apply sound_none].
  - by eapply commit_run_ok.
  - by eapply checkpoint_run_ok.
  - destruct IH as (frs & Hd & _). by eapply (Hopened io (release d) _ _ frs).
Qed.
End recovery.

(** ** Theorems *)

Section promises.
Context {HSha : Sha256} {HShaSpec : Sha256Spec} `{HJsonSpec : SerdeJsonSpec}.

(** C11: The journal is canonical.  Opening a directory whose journal recovers
    to some frames gives the projection, the event index and the head of
    exactly these frames, whatever bytes the snapshot file holds; a snapshot
    can at most stop the store from opening, with an error about its text or
    its size, or hold a state whose text has the SHA-256 of the text of the
    journal's state at the record the snapshot names, but is another. *)
Theorem open_reads_the_journal d frs p ix :
  disk_recovers d frs p ix → dk_writer_lock d = false →
  (∃ d' s, open all_written d = (d', Ok s) ∧ ms_projection s = p ∧ ms_event_index s = ix
     ∧ ms_journal_head s = actual_head frs ∧ store_ok d' s frs)
  ∨ (dk_snapshot d ≠ None ∧ ∃ d' e, open all_written d = (d', Err e) ∧ snapshot_error e)
  ∨ snapshot_clash frs (dk_snapshot d).
Proof. apply open_recovers. Qed.

(** C3: A commit is atomic and durable whatever happens to its writes.  After
    any attempt, with the journal cut short at any byte or the head not
    written, the directory recovers to the state before the event or to the
    one after it and to nothing else; when the caller was told that the event
    is recorded, it is the state after it.  With no snapshot in the way, the
    next open succeeds and has that state in memory. *)
Theorem commit_survives_crash io d s frs id e d' s' r :
  store_ok d s frs → commit io d s id e = (d', s', r) →
  ∃ frs' p' ix', disk_recovers (release d') frs' p' ix'
    ∧ ((frs' = frs ∧ p' = ms_projection s ∧ ix' = ms_event_index s)
       ∨ (length frs' = S (length frs) ∧ apply (ms_projection s) e = Ok p'
          ∧ ∃ fp, ix' = <[id := mkEventIndexEntry (last_sequence s + 1) fp]> (ms_event_index s)))
    ∧ (∀ o, r = Ok o → p' = ms_projection s' ∧ ix' = ms_event_index s'
                       ∧ actual_head frs' = ms_journal_head s'
                       ∧ is_Some (ms_event_index s' !! id))
    ∧ (dk_snapshot d = None →
       ∃ d'' s'', open all_written (release d') = (d'', Ok s'') ∧ ms_projection s'' = p'
         ∧ ms_event_index s'' = ix' ∧ ms_journal_head s'' = actual_head frs'
         ∧ store_ok d'' s'' frs').
Proof.
  intros Hs Hcommit. pose proof Hs as (Hpois & Hlock & Hhead & Hr & _ & file & Hd & Hj).
  assert (Hseq : last_sequence s = vec_len frs) by (unfold last_sequence; by rewrite Hhead).
  assert (Hopen : ∀ frs' p' ix', dk_snapshot d' = dk_snapshot d →
    disk_recovers (release d') frs' p' ix' → dk_snapshot d = None →
    ∃ d'' s'', open all_written (release d') = (d'', Ok s'') ∧ ms_projection s'' = p'
         ∧ ms_event_index s'' = ix' ∧ ms_journal_head s'' = actual_head frs'
         ∧ store_ok d'' s'' frs').
  { intros frs' p' ix' Hsn Hrec Hnone.
    destruct (open_recovers _ _ _ _ Hrec eq_refl) as [?|[[Hsome _]|Hcl]]; [done|exfalso..].
    - apply Hsome. by rewrite <- Hnone, <- Hsn.
    - destruct Hcl as (? & ? & ? & ? & Hsome & _). cbn [release dk_snapshot update] in Hsome. congruence. }
  destruct (commit_inv _ _ _ _ _ _ _ _ Hcommit) as [(-> & -> & Hdup)|
    (fp & plan & _ & Hid & Hv & Hfp & Hnew & Hplan & Hw)].
  - exists frs, (ms_projection s), (ms_event_index s).
    pose proof (store_ok_recovers d s frs Hs) as Hrec. split; [exact Hrec|].
    split; [by left|]. split; [|intros; by apply Hopen].
    intros o Ho. destruct (Hdup o Ho) as (_ & fp & Hix & _). by rewrite Hhead, Hix.
  - destruct (commit_written _ _ _ _ _ _ _ _ _ _ _ _ Hs Hd Hj Hid Hv Hfp Hnew Hplan Hw)
      as (Hr' & _ & Hsn & _ & Hcase).
    apply plan_commit_inv in Hplan as (_ & Happ & Hps & _ & Hix & _).
    assert (Hafter : length (frs ++ [planned_frame file frs plan]) = S (length frs)
      ∧ apply (ms_projection s) e = Ok (pc_projection plan)
      ∧ ∃ fp, pc_event_index plan = <[id := mkEventIndexEntry (last_sequence s + 1) fp]>
                                      (ms_event_index s)).
    { split; [rewrite length_app; cbn; lia|]. split; [done|]. exists fp. by rewrite Hix, Hps. }
    destruct r as [o|err].
    + destruct Hcase as (-> & Hok & Hp & Hi). eexists _, _, _.
      pose proof (store_ok_recovers _ _ _ Hok) as Hrec. split; [exact Hrec|].
      split; [right; by rewrite Hp, Hi|]. split; [|intros; by apply Hopen].
      intros o _. destruct Hok as (_ & _ & Hh & _). rewrite Hh, Hi, Hix, lookup_insert_eq.
      split_and!; done.
    + destruct Hcase as (-> & [Hrec|Hrec]); eexists _, _, _; (split; [exact Hrec|]).
      * split; [by left|]. split; [done|]. intros; by apply Hopen.
      * split; [by right|]. split; [done|]. intros; by apply Hopen.
Qed.

(** What an event's fingerprint is the hash of *)
Definition fingerprint_text (payload : bytes) : bytes :=
  hasher_input (digest_bytes payload (digest_new "mission-event-idempotence-v1")).

(** Recording is idempotent.  Once a commit returned, committing the same
    event under the same identifier changes nothing and returns the original
    sequence, now or at any later time the index still holds the entry, and
    another event under that identifier is refused, unless the texts of the two
    events' fingerprints have one SHA-256. *)
Theorem commit_is_idempotent io d s frs id e d' s' o :
  store_ok d s frs → commit io d s id e = (d', s', Ok o) →
  ∀ io2 d2 s2, ms_poisoned s2 = false → ms_event_index s2 !! id = ms_event_index s' !! id →
    commit io2 d2 s2 id e = (d2, s2, Ok (mkCommitOutcome (co_sequence o) true))
    ∧ ∀ e', e' ≠ e → event_validate e' = Ok tt → is_Some (event_to_vec e') →
        commit io2 d2 s2 id e' = (d2, s2, Err (MissionStoreError.EventIdConflict id))
        ∨ ∃ b b', event_to_vec e = Some b ∧ event_to_vec e' = Some b'
            ∧ clashes (fingerprint_text b) (fingerprint_text b').
Proof.
  intros Hs Hcommit io2 d2 s2 Hp2 Hsame.
  assert (Hentry : ∃ fp, ms_event_index s' !! id = Some (mkEventIndexEntry (co_sequence o) fp)
    ∧ event_fingerprint e = Ok fp ∧ validate_id "event id" id = Ok tt ∧ event_validate e = Ok tt).
  { assert (Hval : validate_id "event id" id = Ok tt ∧ event_validate e = Ok tt).
    { unfold commit in Hcommit. destruct (_ ← reject_if (ms_poisoned s) _; _) as [[fp dup]|] eqn:Hpre;
        [|done]. do 2 apply bind_ok in Hpre as ([] & ? & Hpre).
      by apply bind_ok in Hpre as ([] & ? & Hpre). }
    destruct (commit_inv _ _ _ _ _ _ _ _ Hcommit) as [(-> & -> & Hdup)|
      (fp & plan & _ & Hid & Hv & Hfp & Hnew & Hplan & Hw)].
    - destruct (Hdup o eq_refl) as (_ & fp & Hix & Hfp). exists fp. destruct Hval. by split_and!.
    - pose proof Hs as (_ & _ & Hhead & _ & _ & file & Hd & Hj).
      destruct (commit_written _ _ _ _ _ _ _ _ _ _ _ _ Hs Hd Hj Hid Hv Hfp Hnew Hplan Hw)
        as (_ & _ & _ & _ & -> & _ & _ & Hi).
      apply plan_commit_inv in Hplan as (_ & _ & Hps & _ & Hix & _).
      exists fp. rewrite Hi, Hix, lookup_insert_eq, Hps, Hhead. by split_and!. }
  destruct Hentry as (fp & Hix & Hfp & Hid & Hv). rewrite <- Hsame in Hix. split.
  - unfold commit. rewrite Hp2, Hid, Hv, Hfp. cbn [reject_if mbind result_bind].
    unfold duplicate_outcome. rewrite Hix. cbn [eie_event_fingerprint eie_sequence].
    by rewrite bool_decide_eq_true_2.
  - intros e' Hne Hv' [b' Hb']. unfold commit. rewrite Hp2, Hid, Hv'.
    unfold event_fingerprint in *. rewrite Hb'. cbn [reject_if ok_or mbind result_bind].
    unfold duplicate_outcome. rewrite Hix. cbn [eie_event_fingerprint eie_sequence].
    apply bind_ok in Hfp as (b & Hb%ok_or_ok & Hfp). apply Ok_inj in Hfp. subst fp.
    case_bool_decide as Heq; [right|by left].
    apply digest_finish_inj in Heq as [Heq|?]; [exfalso|by exists b, b'].
    cbn [digest_bytes hasher_input] in Heq. apply app_inv_head in Heq.
    apply app_inj_1 in Heq as [_ ->]; [|by rewrite !length_be_bytes].
    by apply Hne, (event_to_vec_inj _ _ b').
Qed.

(** C13: Sealed events are bound to the head of the journal.  An event that
    closes or archives a mission is newly recorded only if its receipt names
    the last sequence of the journal and the digest of its head: nothing was
    recorded since the proof was evaluated. *)
Theorem sealed_event_names_the_head io d s id e d' s' n receipt :
  commit io d s id e = (d', s', Ok (mkCommitOutcome n false)) →
  (∃ mid actor reason at_, e = Event.MissionReady mid receipt actor reason at_)
  ∨ (∃ mid seal actor reason at_, e = Event.MissionArchived mid receipt seal actor reason at_) →
  pr_authority_sequence receipt = last_sequence s ∧ n = (last_sequence s + 1)%N
  ∧ pr_authority_head_digest receipt = authority_digest (handoff_fence s).
Proof.
  intros Hcommit He. destruct (commit_inv _ _ _ _ _ _ _ _ Hcommit) as [(_ & _ & Hdup)|
    (fp & plan & _ & _ & _ & _ & _ & Hplan & Hw)].
  { destruct (Hdup _ eq_refl) as [[=] _]. }
  apply plan_commit_inv in Hplan as (Hauth & _ & Hps & _).
  assert (Hn : n = pc_sequence plan).
  { unfold write_commit in Hw. destruct (append _ _ _ _ _) as [j [h|?]]; [|done].
    cbv zeta in Hw. destruct (atomic_write_json_limited _ _ _ _ _) as [hd [u|?]]; [|done].
    by injection Hw. }
  unfold validate_current_proof_authority in Hauth.
  destruct He as [(? & ? & ? & ? & ->)|(? & ? & ? & ? & ? & ->)]; inv_ok; by rewrite Hn, Hps.
Qed.

(** C15: A checkpoint is read back.  Opening after a checkpoint of a healthy
    store gives the store's state again, from the snapshot: it is neither
    quarantined nor rebuilt. *)
Theorem checkpoint_round_trip d s frs d1 :
  store_ok d s frs → checkpoint WriteOutcome.Written s d = (d1, Ok tt) →
  ∃ d2 s2, open all_written (release d1) = (d2, Ok s2)
    ∧ ms_projection s2 = ms_projection s ∧ ms_event_index s2 = ms_event_index s
    ∧ ms_journal_head s2 = ms_journal_head s ∧ store_ok d2 s2 frs
    ∧ dk_snapshot d2 = dk_snapshot d1 ∧ dk_quarantine d2 = dk_quarantine d
    ∧ dk_journal d2 = dk_journal d.
Proof. apply checkpoint_reopens. Qed.

(** C14: The fence hands over exactly one history.  A store prepared for
    handoff and relinquished is acquired with the same state, and while it is
    held nobody else opens it.  At any later time a fence is accepted only if
    the journal still is, byte for byte, the one it was taken of, with the
    same projection and index; or the texts of two records of the two journals
    at one place have one SHA-256, or the text of the state in the snapshot and
    that of the journal's state at the record it names do. *)
Theorem handoff_transfers_the_history d s frs d1 prepared :
  store_ok d s frs → prepare_handoff WriteOutcome.Written s d = (d1, Ok prepared) →
  (∀ io, (open io d1).2 = Err MissionStoreError.WriterAlreadyActive)
  ∧ (∃ d2 d3 s3, relinquish prepared d1 = (d2, Ok (handoff_fence s))
       ∧ acquire_writer all_written (handoff_fence s) d2 = (d3, Ok s3)
       ∧ ms_projection s3 = ms_projection s ∧ ms_event_index s3 = ms_event_index s
       ∧ store_ok d3 s3 frs)
  ∧ ∀ d2 frs2 p2 ix2 d3 s3, disk_recovers d2 frs2 p2 ix2 → dk_writer_lock d2 = false →
      acquire_writer all_written (handoff_fence s) d2 = (d3, Ok s3) →
      (dk_journal d3 = dk_journal d ∧ ms_projection s3 = ms_projection s
       ∧ ms_event_index s3 = ms_event_index s)
      ∨ record_clash frs2 frs ∨ snapshot_clash frs2 (dk_snapshot d2).
Proof.
  intros Hs Hprep. pose proof Hs as (_ & Hlock & Hhead & Hr & _ & file & Hd & Hj).
  unfold prepare_handoff in Hprep. rewrite bind_disk in Hprep.
  destruct (checkpoint _ _ _) as [d1' [[]|e]] eqn:Hcp; [|done]. injection Hprep as <- <-.
  destruct (checkpoint_writes _ _ _ _ _ Hcp) as [sn Hd1]. split; [|split].
  - intros io. unfold open. cbv zeta. rewrite Hd1. cbn [dk_writer_lock update]. by rewrite Hlock.
  - destruct (checkpoint_reopens _ _ _ _ Hs Hcp) as (d3 & s3 & Hopen & Hp & Hix & Hh & Hok & _).
    exists (release d1'), d3, s3. split; [done|]. split; [|by split_and!].
    unfold acquire_writer, validate_fence_format, reacquire. cbn [handoff_fence fence_from_head
      hf_journal_format hf_store_version]. rewrite !N.eqb_refl. cbn [negb orb reject_if].
    rewrite Hopen. unfold handoff_fence. rewrite Hh. by rewrite bool_decide_eq_true_2.
  - intros d2 frs2 p2 ix2 d3 s3 Hrec Hfree Hacq. unfold acquire_writer, reacquire in Hacq.
    destruct (validate_fence_format _); [|done].
    destruct (open_recovers _ _ _ _ Hrec Hfree)
      as [(d4 & s4 & Hopen & Hp4 & Hix4 & Hh4 & Hok4)|[[_ (d4 & e & Hopen & _)]|?]];
      [|by rewrite Hopen in Hacq|by right; right].
    rewrite Hopen in Hacq.
    destruct (bool_decide (handoff_fence s4 = handoff_fence s)) eqn:Hf; [|done].
    apply bool_decide_eq_true in Hf. cbn [negb] in Hacq. injection Hacq as <- <-.
    unfold handoff_fence, fence_from_head in Hf. rewrite Hh4, Hhead in Hf.
    cbn [actual_head head_at jh_sequence jh_record_hash] in Hf. injection Hf as Hlen Hhash.
    unfold vec_len in *. rewrite !Nat2N.id, !firstn_all in Hhash. apply Nat2N.inj in Hlen.
    destruct Hok4 as (_ & _ & _ & Hr4 & _ & file4 & Hd4 & Hj4).
    pose proof Hj as (Hfile & Hc & _). pose proof Hj4 as (Hfile4 & Hc4 & _).
    destruct (chain_authenticated _ _ _ _ Hc4 Hc Hlen Hhash) as [Hbytes|?]; [left|by right; left].
    assert (Hsame : file4 = file) by congruence. rewrite Hsame in Hj4, Hd4.
    rewrite (journal_of_unique _ _ _ Hj4 Hj) in Hr4. unfold replays in *. rewrite Hr in Hr4.
    injection Hr4 as -> ->. by rewrite Hd4, Hd.
Qed.

(** C1: The store is its history.  At every moment of a store's life, through
    failing writes, crashes, recoveries and snapshots, the projection in
    memory is what a list of valid events adds up to, one per sequence number
    of the head, with consistent missions, and the index holds one entry per
    event, with distinct identifiers, distinct sequences from one to the
    head's and well-formed fingerprints.  The directory recovers to a journal
    of which the snapshot, if there is one, is the state after a prefix, and
    unless the store is poisoned the memory is the replay of that journal.
    Nothing is supposed of SHA-256 but its length: the snapshots such a store
    reads are those it wrote. *)
Theorem store_is_its_history d s :
  store_run d s →
  (∃ es, project es = Ok (ms_projection s) ∧ N.of_nat (length es) = last_sequence s
     ∧ Forall (λ e, event_validate e = Ok tt) es)
  ∧ projection_ok (ms_projection s) ∧ index_ok (last_sequence s) (ms_event_index s)
  ∧ ∃ frs, disk_ok d frs ∧ (ms_poisoned s = false → store_ok d s frs).
Proof.
  intros (frs0 & Hdisk & (file & frs & _ & Hj & Hr & Hh) & Hstore)%store_run_ok.
  destruct (replays_history _ _ _ _ Hj Hr) as (Hix & es & Hes & Hlen & Hval).
  unfold last_sequence. rewrite Hh. cbn [actual_head head_at jh_sequence]. unfold vec_len in *.
  split; [|split_and!; [by eapply project_ok|exact Hix|by exists frs0]]. exists es. by rewrite Hlen.
Qed.

(** A writer that may have lied stops.  A commit that fails after it began
    to write poisons the store; a poisoned store refuses every commit and
    changes nothing; and a commit that fails without poisoning has changed
    neither the directory nor memory. *)
Theorem failed_writes_poison io d s id e d' s' err :
  commit io d s id e = (d', s', Err err) →
  ((d' = d ∧ s' = s) ∨ (ms_poisoned s = false ∧ s' = s <| ms_poisoned := true |>))
  ∧ ∀ io2 d2 id2 e2, ms_poisoned s' = true →
      commit io2 d2 s' id2 e2 = (d2, s', Err MissionStoreError.WriterPoisoned).
Proof.
  intros Hcommit. split.
  - destruct (commit_inv _ _ _ _ _ _ _ _ Hcommit) as [(-> & -> & _)|
      (fp & plan & Hpois & _ & _ & _ & _ & _ & Hw)]; [by left|right]. split; [done|].
    unfold write_commit in Hw. cbv zeta in Hw. destruct (append _ _ _ _ _) as [j [h|?]];
      [|by injection Hw].
    destruct (atomic_write_json_limited _ _ _ _ _) as [hd [u|?]]; [done|by injection Hw].
  - intros io2 d2 id2 e2 Hp. unfold commit. by rewrite Hp.
Qed.
End promises.

(** ** Witnesses

    A serialiser for a table of values: a value's text is as long as its
    position in the table; heads are written in binary. *)

Section table.
Context {A : Type} `{EqDecision A}.

Definition table_encode (l : list A) (x : A) : option bytes :=
  (λ ix : nat * A, replicate ix.1 "x"%char) <$> list_find (λ y, y = x) l.
Definition table_decode (l : list A) (b : bytes) : option A := l !! length b.
Definition table_decode_line (l : list A) (b : bytes) : option A := l !! pred (length b).

Lemma table_roundtrip l x b : table_encode l x = Some b → table_decode l b = Some x.
Proof.
  intros ([i y] & Hf & ->)%fmap_Some. apply list_find_Some in Hf as (Hi & -> & _).
  unfold table_decode. by rewrite length_replicate.
Qed.

Lemma table_roundtrip_line l x b :
  table_encode l x = Some b → table_decode_line l (b ++ [newline]) = Some x.
Proof.
  intros Hb%table_roundtrip. unfold table_decode_line. rewrite length_app. cbn [length].
  by rewrite Nat.add_1_r.
Qed.

Lemma table_inj l x y b : table_encode l x = Some b → table_encode l y = Some b → x = y.
Proof. intros Hx%table_roundtrip Hy%table_roundtrip. rewrite Hx in Hy. by injection Hy. Qed.
End table.

Section head_codec.
Definition head_wfb (h : JournalHead) : bool :=
  ((jh_version h <=? u32_max) && (jh_sequence h <=? u64_max))%N
  && (length (jh_record_hash h) =? 32).
Definition head_encode (h : JournalHead) : option bytes :=
  if head_wfb h then Some (be_bytes 4 (jh_version h) ++ be_bytes 8 (jh_sequence h) ++ jh_record_hash h)
  else None.
Definition head_decode (b : bytes) : option JournalHead :=
  Some (mkJournalHead (be_value (take 4 b)) (be_value (take 8 (drop 4 b))) (take 32 (drop 12 b))).

Lemma head_wfb_spec h : head_wfb h = true ↔ head_wf h.
Proof.
  unfold head_wfb, head_wf. rewrite !andb_true_iff, !N.leb_le, Nat.eqb_eq. tauto.
Qed.

Lemma head_encode_decode h b : head_encode h = Some b → head_decode (b ++ [newline]) = Some h.
Proof.
  unfold head_encode. destruct (head_wfb h) eqn:Hw; [|done]. intros Hb%(inj Some). subst b.
  apply head_wfb_spec in Hw as (Hv & Hs & Hh). unfold head_decode. rewrite <- !app_assoc.
  rewrite take_app_length' by (by rewrite length_be_bytes).
  rewrite drop_app_length' by (by rewrite length_be_bytes).
  rewrite take_app_length' by (by rewrite length_be_bytes).
  replace (drop 12 _) with (jh_record_hash h ++ [newline]).
  - rewrite take_app_length' by done. rewrite !be_bytes_roundtrip; [by destruct h|..];
      unfold u32_max, u64_max in *; cbn; lia.
  - change 12 with (4 + 8). rewrite <- drop_drop.
    rewrite drop_app_length' by (by rewrite length_be_bytes).
    by rewrite drop_app_length' by (by rewrite length_be_bytes).
Qed.
End head_codec.

Module StoreDemo.
Import ProjectionDemo.
#[local] Existing Instance mixing_sha256.
#[local] Existing Instance mixing_sha256_spec.

Definition xs (n : nat) : bytes := replicate n "x"%char.
Definition fingerprint (n : nat) : string :=
  digest_new "mission-event-idempotence-v1" |>> digest_bytes (xs n) |>> digest_finish.
Definition state_hash (n : nat) : StateHash :=
  sha256 (nul_terminated "mission-projection-state-v1" ++ xs n).
Definition index (n : nat) : EventIndex :=
  list_to_map (imap (λ i id, (id, mkEventIndexEntry (N.of_nat (S i)) (fingerprint i)))
                 (take n ["e1"; "e2"])).
Definition first : PersistableMissionEvent :=
  Event.MissionCreated "m" "Title" "/repo" (repository_path_hash "/repo") "Objective" ["works"] 1.
Definition second : PersistableMissionEvent := Event.ClosureConfigured "m" checks 2.
Definition other : PersistableMissionEvent := Event.StatusChanged "m" MissionStatus.Preparing 2.
Definition state (n : nat) : MissionProjection := after (take n [first; second]).
Definition frame (n : nat) (previous : RecordHash) : bytes := frame_bytes (xs n) previous (state_hash (S n)).
Definition hash_of (n : nat) (previous : RecordHash) : RecordHash :=
  hash_record (frame_header (xs n) previous (state_hash (S n))) (xs n).
Definition hash1 : RecordHash := hash_of 0 RecordHash_ZERO.
Definition hash2 : RecordHash := hash_of 1 hash1.
Definition records : list SequencedMissionEvent :=
  [mkSequencedMissionEvent STORE_VERSION 1 "e1" RecordHash_ZERO (state_hash 1) first;
   mkSequencedMissionEvent STORE_VERSION 2 "e2" hash1 (state_hash 2) second].
Definition snapshots : list MissionSnapshot :=
  [mkMissionSnapshot STORE_VERSION 2 hash2 285 (state 2) (index 2) (state_hash 2)].
Definition states : list (MissionProjection * EventIndex) :=
  [(state 0, index 0); (state 1, index 1); (state 2, index 2)].

#[local] Instance json : SerdeJson := {|
  event_to_vec := table_encode [first; second; other];
  record_to_vec := table_encode records;
  record_from_slice := table_decode records;
  state_to_vec p ix := table_encode states (p, ix);
  head_to_vec_pretty := head_encode;
  head_from_slice := head_decode;
  snapshot_to_vec_pretty := table_encode snapshots;
  snapshot_from_slice := table_decode_line snapshots;
  anchor_from_slice b := anchor_of <$> table_decode_line snapshots b |}.

#[local] Instance json_spec : SerdeJsonSpec.
Proof.
  split.
  - intros e e' b. apply table_inj.
  - intros r b. apply table_roundtrip.
  - intros p ix p' ix' b Hp Hp'. pose proof (table_inj _ _ _ _ Hp Hp') as Heq. by injection Heq.
  - apply head_encode_decode.
  - intros s b. apply table_roundtrip_line.
  - intros s b Hb. cbn. by rewrite (table_roundtrip_line _ _ _ Hb).
  - intros h Hw. pose proof Hw as (_ & _ & Hh). apply head_wfb_spec in Hw. eexists. cbn.
    unfold head_encode. rewrite Hw. split; [reflexivity|]. unfold byte_len.
    rewrite !length_app, !length_be_bytes, Hh. done.
Qed.

Definition written : CommitIo := mkCommitIo None WriteOutcome.Written.
(** The frame is cut after 50 bytes; the head is not written *)
Definition torn : CommitIo := mkCommitIo (Some 50) WriteOutcome.Failed.
Definition no_head : CommitIo := mkCommitIo None WriteOutcome.Failed.

(** [two_commits k]: opening an empty disk and committing the two events both succeed, and the
    stores and disks between them satisfy [k]. *)
Definition two_commits
    (k : Disk → MissionStore → Disk → MissionStore → Disk → MissionStore → bool) : bool :=
  match open all_written empty_disk with
  | (d0, Ok s0) =>
      match commit written d0 s0 "e1" first with
      | (d1, s1, Ok (mkCommitOutcome 1 false)) =>
          match commit written d1 s1 "e2" second with
          | (d2, s2, Ok (mkCommitOutcome 2 false)) => k d0 s0 d1 s1 d2 s2
          | _ => false
          end
      | _ => false
      end
  | _ => false
  end.

Lemma two_commits_elim k :
  two_commits k = true →
  ∃ d0 s0 d1 s1 d2 s2 frs1 frs2,
    open all_written empty_disk = (d0, Ok s0)
    ∧ commit written d0 s0 "e1" first = (d1, s1, Ok (mkCommitOutcome 1 false))
    ∧ commit written d1 s1 "e2" second = (d2, s2, Ok (mkCommitOutcome 2 false))
    ∧ store_ok d0 s0 [] ∧ store_ok d1 s1 frs1 ∧ store_ok d2 s2 frs2
    ∧ k d0 s0 d1 s1 d2 s2 = true.
Proof.
  unfold two_commits.
  destruct (open all_written empty_disk) as [d0 [s0|?]] eqn:Ho; [|done].
  destruct (commit written d0 s0 "e1" first) as [[d1 s1] [[[|[]] []]|?]] eqn:H1; try done.
  destruct (commit written d1 s1 "e2" second) as [[d2 s2] [[[|[[]|[]|]] []]|?]] eqn:H2; try done.
  intros Hk.
  assert (H0 : store_ok d0 s0 []).
  { destruct (open_recovers _ _ _ _ empty_recovers eq_refl)
      as [(d & s & Ho' & _ & _ & _ & Hs)|[[Hn _]|(? & ? & ? & ? & [=] & _)]]; [|by exfalso; apply Hn].
    rewrite Ho in Ho'. injection Ho' as -> ->. exact Hs. }
  destruct (commit_keeps_ok _ _ _ _ _ _ _ _ _ H0 H1) as [frs1 Hs1].
  destruct (commit_keeps_ok _ _ _ _ _ _ _ _ _ Hs1 H2) as [frs2 Hs2].
  exists d0, s0, d1, s1, d2, s2, frs1, frs2. by split_and!.
Qed.

(** A store whose mission is in review, and a proof of its head *)
Definition hex64 : string := "0123456789abcdef0123456789abcdef0123456789abcdef0123456789abcdef".
Definition in_review : MissionProjection :=
  after (requested ++ [Event.ResponseAcknowledged "m" (key 1 1) None 7;
                       Event.StatusChanged "m" MissionStatus.ReviewRequired 8]).
Definition reviewing : MissionStore :=
  mkMissionStore (mkJournalHead STORE_VERSION 8 RecordHash_ZERO) ∅ in_review false.
Definition sealed_receipt : ProofReceipt :=
  mkProofReceipt hex64 hex64 (authority_digest (handoff_fence reviewing)) hex64 8 8.
Definition sealed : PersistableMissionEvent := Event.MissionReady "m" sealed_receipt "verifier" hex64 9.
Definition sealed_index : EventIndex := {["ready" := mkEventIndexEntry 9 (fingerprint 0)]}.
Definition sealed_json : SerdeJson := {|
  event_to_vec := table_encode [sealed];
  record_to_vec := table_encode
    [mkSequencedMissionEvent STORE_VERSION 9 "ready" RecordHash_ZERO (state_hash 0) sealed];
  record_from_slice _ := None;
  state_to_vec p ix := table_encode [(next in_review sealed, sealed_index)] (p, ix);
  head_to_vec_pretty := head_encode;
  head_from_slice := head_decode;
  snapshot_to_vec_pretty _ := None;
  snapshot_from_slice _ := None;
  anchor_from_slice _ := None |}.
Definition held_disk : Disk := mkDisk (Some []) None None None true.
End StoreDemo.

Section Witnesses.
#[local] Existing Instances mixing_sha256 mixing_sha256_spec StoreDemo.json StoreDemo.json_spec.
Import StoreDemo.

Lemma open_reads_the_journal_witness :
  ∃ d s, open all_written empty_disk = (d, Ok s)
    ∧ ms_projection s = MissionProjection_default.
Proof.
  destruct (open_reads_the_journal empty_disk [] MissionProjection_default ∅)
    as [(d & s & Ho & Hp & _)|[[Hnone _]|(contents & _ & _ & _ & Hsome & _)]].
  - apply empty_recovers.
  - reflexivity.
  - exists d, s. split; [exact Ho|exact Hp].
  - exfalso. apply Hnone. reflexivity.
  - discriminate Hsome.
Defined.

(** The second commit's frame is cut: the store opens with the first event. *)
Lemma commit_survives_crash_witness :
  ∃ d1 s1 d2 s2 d3 s3,
    commit torn d1 s1 "e2" second = (d2, s2, Err (MissionStoreError.Journal JournalError.Io))
    ∧ last_sequence s1 = 1%N ∧ open all_written (release d2) = (d3, Ok s3).
Proof.
  destruct (two_commits_elim (λ _ _ d1 s1 _ _,
      bool_decide (last_sequence s1 = 1%N) &&
      match commit torn d1 s1 "e2" second with
      | (_, _, Err (MissionStoreError.Journal JournalError.Io)) =>
          bool_decide (dk_snapshot d1 = None)
      | _ => false
      end)) as (d0 & s0 & d1 & s1 & d2 & s2 & frs1 & frs2 & _ & _ & _ & _ & Hs1 & _ & Hk).
  { vm_compute. reflexivity. }
  apply andb_true_iff in Hk as [Hseq%bool_decide_eq_true Hk].
  destruct (commit torn d1 s1 "e2" second) as [[d s] [?|[]]] eqn:Hc; try discriminate Hk.
  destruct e; try discriminate Hk. apply bool_decide_eq_true in Hk.
  destruct (commit_survives_crash _ _ _ _ _ _ _ _ _ Hs1 Hc)
    as (frs' & p & ix & _ & _ & _ & Hopen).
  destruct (Hopen Hk) as (d3 & s3 & Ho & _).
  exists d1, s1, d, s, d3, s3. split; [exact Hc|split; [exact Hseq|exact Ho]].
Defined.

Lemma commit_is_idempotent_witness :
  ∃ d s, last_sequence s = 2%N
    ∧ commit torn d s "e1" first = (d, s, Ok (mkCommitOutcome 1 true)).
Proof.
  destruct (two_commits_elim (λ _ _ d1 s1 d2 s2,
      bool_decide (last_sequence s2 = 2%N) && negb (ms_poisoned s2)
      && bool_decide (ms_event_index s2 !! "e1" = ms_event_index s1 !! "e1")))
    as (d0 & s0 & d1 & s1 & d2 & s2 & frs1 & frs2 & _ & H1 & _ & Hs0 & _ & _ & Hk).
  { vm_compute. reflexivity. }
  apply andb_true_iff in Hk as [[Hseq%bool_decide_eq_true Hp%negb_true_iff]%andb_true_iff
                                  Hix%bool_decide_eq_true].
  exists d2, s2. split; [exact Hseq|].
  exact (proj1 (commit_is_idempotent _ _ _ _ _ _ _ _ _ Hs0 H1 torn d2 s2 Hp Hix)).
Defined.

Lemma checkpoint_round_trip_witness :
  ∃ d s d' d2 s2, checkpoint WriteOutcome.Written s d = (d', Ok tt)
    ∧ open all_written (release d') = (d2, Ok s2)
    ∧ is_Some (dk_snapshot d') ∧ dk_snapshot d2 = dk_snapshot d'.
Proof.
  destruct (two_commits_elim (λ _ _ _ _ d2 s2,
      match checkpoint WriteOutcome.Written s2 d2 with
      | (d, Ok _) => bool_decide (is_Some (dk_snapshot d))
      | _ => false
      end))
    as (d0 & s0 & d1 & s1 & d2 & s2 & frs1 & frs2 & _ & _ & _ & _ & _ & Hs2 & Hk).
  { vm_compute. reflexivity. }
  destruct (checkpoint WriteOutcome.Written s2 d2) as [d' [[]|]] eqn:Hcp; [|discriminate Hk].
  apply bool_decide_eq_true in Hk.
  destruct (checkpoint_round_trip _ _ _ _ Hs2 Hcp) as (d3 & s3 & Ho & _ & _ & _ & _ & Hsn & _).
  exists d2, s2, d', d3, s3. split_and!; [exact Hcp|exact Ho|exact Hk|exact Hsn].
Defined.

Lemma handoff_transfers_the_history_witness :
  ∃ d s d1 prepared, prepare_handoff WriteOutcome.Written s d = (d1, Ok prepared)
    ∧ last_sequence s = 2%N
    ∧ (open all_written d1).2 = Err MissionStoreError.WriterAlreadyActive.
Proof.
  destruct (two_commits_elim (λ _ _ _ _ d2 s2,
      bool_decide (last_sequence s2 = 2%N)
      && is_ok (prepare_handoff WriteOutcome.Written s2 d2).2))
    as (d0 & s0 & d1 & s1 & d2 & s2 & frs1 & frs2 & _ & _ & _ & _ & _ & Hs2 & Hk).
  { vm_compute. reflexivity. }
  apply andb_true_iff in Hk as [Hseq%bool_decide_eq_true Hk].
  destruct (prepare_handoff WriteOutcome.Written s2 d2) as [d' [prepared|e]] eqn:Hprep;
    [|discriminate Hk].
  exists d2, s2, d', prepared. split; [exact Hprep|split; [exact Hseq|]].
  exact (proj1 (handoff_transfers_the_history _ _ _ _ _ Hs2 Hprep) all_written).
Defined.

Lemma store_is_its_history_witness :
  ∃ es p, project es = Ok p ∧ length es = 2.
Proof.
  destruct (two_commits_elim (λ _ _ _ _ _ s2, bool_decide (last_sequence s2 = 2%N)))
    as (d0 & s0 & d1 & s1 & d2 & s2 & frs1 & frs2 & Ho & H1 & H2 & _ & _ & _ & Hk).
  { vm_compute. reflexivity. }
  apply bool_decide_eq_true in Hk.
  destruct (store_is_its_history d2 s2) as [(es & Hes & Hlen & _) _].
  - eapply run_commit; [|exact H2]. eapply run_commit; [|exact H1]. eapply run_open. exact Ho.
  - exists es, (ms_projection s2). split; [exact Hes|]. rewrite Hk in Hlen. lia.
Defined.

(** The frame is durable but the head is not written: no later commit is taken. *)
Lemma failed_writes_poison_witness :
  ∃ d s d' s', commit no_head d s "e1" first = (d', s', Err MissionStoreError.Io)
    ∧ commit written d' s' "e2" second = (d', s', Err MissionStoreError.WriterPoisoned).
Proof.
  destruct (two_commits_elim (λ d0 s0 _ _ _ _,
      match commit no_head d0 s0 "e1" first with
      | (_, s, Err MissionStoreError.Io) => ms_poisoned s
      | _ => false
      end))
    as (d0 & s0 & d1 & s1 & d2 & s2 & frs1 & frs2 & _ & _ & _ & _ & _ & _ & Hk).
  { vm_compute. reflexivity. }
  destruct (commit no_head d0 s0 "e1" first) as [[d s] [?|[]]] eqn:Hc; try discriminate Hk.
  exists d0, s0, d, s. split; [exact Hc|].
  exact (proj2 (failed_writes_poison _ _ _ _ _ _ _ _ Hc) written d "e2" second Hk).
Defined.


Lemma sealed_event_names_the_head_witness :
  ∃ d' s', commit (HJson := sealed_json) written held_disk reviewing "ready" sealed
             = (d', s', Ok (mkCommitOutcome 9 false))
    ∧ pr_authority_sequence sealed_receipt = last_sequence reviewing.
Proof.
  assert (Hx : (commit (HJson := sealed_json) written held_disk reviewing "ready" sealed).2
               = Ok (mkCommitOutcome 9 false)) by (vm_compute; reflexivity).
  destruct (commit (HJson := sealed_json) written held_disk reviewing "ready" sealed)
    as [[d' s'] r] eqn:Hc. cbn [snd] in Hx. subst r.
  exists d', s'. split; [reflexivity|].
  assert (Hev : (∃ mid actor reason at_, sealed = Event.MissionReady mid sealed_receipt actor reason at_)
    ∨ (∃ mid seal actor reason at_,
         sealed = Event.MissionArchived mid sealed_receipt seal actor reason at_))
    by (left; eexists _, _, _, _; reflexivity).
  exact (proj1 (sealed_event_names_the_head _ _ _ _ _ _ _ _ sealed_receipt Hc Hev)).
Defined.
End Witnesses.
