(* ===== verification/Runtime.v ===== *)
(** * The mission runtime ([src/mission/runtime.rs])

    [MissionRuntime] is what the server holds: the writer of the mission
    store, or a stage of handing it over, with the registry of worktree
    claims and the store of evidence packs.  Its operations compose those of
    [Store.v], [Claims.v], [EvidencePack.v], [Evaluator.v] and [Lifecycle.v].
    They run in a monad that threads the runtime and the [World]: the
    directory, the packs and the lock files, with the outcomes of the writes
    and the random bytes still to come. *)

From S2P Require Export Claims EvidencePack Store.

(** ** Data *)

(** The errors of Git and of the serialiser are kept without their payload. *)
Module MissionHandoffError.
Inductive MissionHandoffError :=
| SourceRunMissing
| InvalidSourceState
| SameProvider
| UnresolvedAttention
| Git
| Serialize.
#[export] Instance eq_dec : EqDecision MissionHandoffError.
Proof. solve_decision. Defined.
End MissionHandoffError.
Export (hints) MissionHandoffError.
Abbreviation MissionHandoffError := MissionHandoffError.MissionHandoffError.

Module MissionRuntimeError.
Inductive MissionRuntimeError :=
| FeatureUnavailable
| Store (e : MissionStoreError)
| WorktreeClaim (e : WorktreeClaimError)
| EvidencePack (e : EvidencePackError)
| Evaluation (e : ProofError)
| Handoff (e : MissionHandoffError)
| FenceMismatch
| InvalidOwnership
| LeaseNotCurrent
| LeaseScopeMismatch
| EmptyAuthority
| EvidenceScopeMismatch
| EvidenceNotReviewable
| MissionMissing
| MissionConflict
| ClosureConflict
| InvalidClosurePlan
| ClosureMissing
| RepositoryUnavailable
| RepositoryNotGit
| RepositoryMustBeRoot
| RunAlreadyStarted
| RevisionUnavailable
| RecoveryNotSafe
| ProofUnavailable
| ProofBindingMismatch.
End MissionRuntimeError.
Abbreviation MissionRuntimeError := MissionRuntimeError.MissionRuntimeError.

(** A released store and a reader are the fence they hold. *)
Module Ownership.
Inductive Ownership :=
| Owned (store : MissionStore)
| Prepared (prepared : PreparedMissionStore)
| Released (fence : HandoffFence)
| Observing (fence : HandoffFence)
| Disabled
| Vacant.
End Ownership.
Abbreviation Ownership := Ownership.Ownership.

(** [rt_evidence_packs]: whether the runtime has its pack store *)
Record MissionRuntime := mkMissionRuntime {
  rt_ownership : Ownership;
  rt_claims : option WorktreeClaimRegistry;
  rt_evidence_packs : bool;
}.
#[export] Instance MissionRuntime_fields : Fields MissionRuntime := λ r,
  mkMissionRuntime (rt_ownership r) (rt_claims r) (rt_evidence_packs r).

Record World := mkWorld {
  w_disk : Disk;
  w_packs : EvidencePackStore;
  w_locks : gset string;
  w_commits : list CommitIo;
  w_pack_write : WriteOutcome;
  w_nonces : list bytes;
}.
#[export] Instance World_fields : Fields World := λ w,
  mkWorld (w_disk w) (w_packs w) (w_locks w) (w_commits w) (w_pack_write w) (w_nonces w).

Record CreateMission := mkCreateMission {
  cm_mission_id : string;
  cm_title : string;
  cm_repository_path : string;
  cm_objective : string;
  cm_acceptance_criteria : list string;
  cm_at_millis : N;
}.
Record CreateMissionOutcome := mkCreateMissionOutcome { cmo_mission : MissionView; cmo_created : bool }.

Record ConfigureMission := mkConfigureMission {
  cf_mission_id : string;
  cf_declarations : list CheckDeclaration;
  cf_at_millis : N;
}.
Record ConfigureMissionOutcome := mkConfigureMissionOutcome {
  cfo_mission : MissionView;
  cfo_configured : bool;
}.

Record StartRun := mkStartRun {
  sr_mission_id : string;
  sr_run_id : string;
  sr_provider : ProviderKind;
  sr_mode : ProviderMode;
  sr_worktree_path : string;
  sr_request_id : ClaimRequestId;
  sr_execute_declared_checks : bool;
  sr_execute_project_recipe : bool;
  sr_at_millis : N;
}.
Record ContinueRun := mkContinueRun {
  cr_mission_id : string;
  cr_source_run_id : string;
  cr_run_id : string;
  cr_provider : ProviderKind;
  cr_mode : ProviderMode;
  cr_request_id : ClaimRequestId;
  cr_handoff_artifact_sha256 : string;
  cr_at_millis : N;
}.
Record StartRunOutcome := mkStartRunOutcome { sro_mission : MissionView; sro_lease : WorktreeLease }.

Record FinalizeEvidenceOutcome := mkFinalizeEvidenceOutcome {
  feo_mission : MissionView;
  feo_pack_digest : string;
  feo_verified : bool;
}.

(** ** The monad *)

Abbreviation St := (MissionRuntime * World)%type.
Definition RtM (A : Type) : Type := St → St * result MissionRuntimeError A.

#[export] Instance RtM_ret : MRet RtM := λ A a s, (s, Ok a).
#[export] Instance RtM_bind : MBind RtM := λ A B f m s,
  match m s with (s, Ok a) => f a s | (s, Err e) => (s, Err e) end.

Definition rt_lift {A} (r : result MissionRuntimeError A) : RtM A := λ s, (s, r).
Definition rt_gets {A} (f : MissionRuntime → A) : RtM A := λ s, (s, Ok (f s.1)).
(** [if let Err(error) = m { cleanup; return Err(error); }] *)
Definition rt_cleanup {A} (m : RtM A) (cleanup : RtM unit) : RtM A := λ s,
  match m s with
  | (s, Ok a) => (s, Ok a)
  | (s, Err e) => ((cleanup s).1, Err e)
  end.
(** [let _ = m;] *)
Definition rt_ignore {A} (m : RtM A) : RtM unit := λ s, ((m s).1, Ok tt).

(** ** Operations *)

Definition written : CommitIo := mkCommitIo None WriteOutcome.Written.

Section runtime.
Context {HSha : Sha256} `{HJson : SerdeJson} `{HBase64 : Base64} `{HPack : PackJson} `{HHost : GitHost}.

(** [MissionRuntime::open_owned].  [packs] and [registry] are what preparing
    the two directories gives; a store that is not returned is dropped. *)
Definition open_owned (io : OpenIo) (packs : result EvidencePackError unit)
    (registry : result WorktreeClaimError unit) (d : Disk) :
    Disk * result MissionRuntimeError MissionRuntime :=
  match open io d with
  | (d, Err e) => (d, Err (MissionRuntimeError.Store e))
  | (d, Ok store) =>
      match (_ ← map_err MissionRuntimeError.EvidencePack packs;
             map_err MissionRuntimeError.WorktreeClaim registry) with
      | Err e => (release d, Err e)
      | Ok _ => (d, Ok (mkMissionRuntime (Ownership.Owned store) (Some ∅) true))
      end
  end.

(** [MissionRuntime::disabled] *)
Definition rt_disabled : MissionRuntime := mkMissionRuntime Ownership.Disabled None false.

(** [MissionRuntime::is_available], [MissionRuntime::ensure_available] *)
Definition is_available (rt : MissionRuntime) : bool :=
  match rt_ownership rt with Ownership.Disabled => false | _ => true end.
Definition ensure_available (rt : MissionRuntime) : result MissionRuntimeError unit :=
  reject_if (negb (is_available rt)) MissionRuntimeError.FeatureUnavailable.

(** [MissionRuntime::claims] *)
Definition the_claims (rt : MissionRuntime) : result MissionRuntimeError WorktreeClaimRegistry :=
  ok_or (rt_claims rt) MissionRuntimeError.FeatureUnavailable.

(** [let Ownership::Owned(store) = &self.ownership else { .. }] *)
Definition owned_store (rt : MissionRuntime) : option MissionStore :=
  match rt_ownership rt with Ownership.Owned store => Some store | _ => None end.

(** [MissionRuntime::observe_handoff] *)
Definition observe_handoff (registry : result WorktreeClaimError unit)
    (packs : result EvidencePackError unit) (d : Disk) (expected : HandoffFence) :
    result MissionRuntimeError MissionRuntime :=
  observed ← map_err MissionRuntimeError.Store (open_existing d);
  _ ← reject_if (negb (bool_decide (observed = expected))) MissionRuntimeError.FenceMismatch;
  _ ← map_err MissionRuntimeError.WorktreeClaim registry;
  _ ← map_err MissionRuntimeError.EvidencePack packs;
  Ok (mkMissionRuntime (Ownership.Observing observed) (Some ∅) true).

(** [MissionRuntime::mission], [missions], [attention_items] *)
Definition rt_mission (rt : MissionRuntime) (mission_id : string) : option MissionView :=
  store ← owned_store rt;
  mission_view (ms_projection store) mission_id.
Definition rt_missions (rt : MissionRuntime) : list MissionView :=
  match owned_store rt with Some store => mission_views (ms_projection store) | None => [] end.
Definition rt_attention_items (rt : MissionRuntime) : list DurableAttentionView :=
  match owned_store rt with Some store => attention_views (ms_projection store) | None => [] end.

(** [MissionRuntime::unresolved_attention_ids] *)
Definition rt_unresolved_attention_ids (rt : MissionRuntime) (mission_id : string) :
    result MissionRuntimeError (gset string) :=
  store ← ok_or (owned_store rt) MissionRuntimeError.InvalidOwnership;
  map_err MissionRuntimeError.Store (unresolved_attention_ids (ms_projection store) mission_id).

(** [MissionRuntime::next_response_attempt] *)
Definition rt_next_response_attempt (rt : MissionRuntime) (mission_id attention_id : string)
    (request_generation : N) : result MissionRuntimeError N :=
  store ← ok_or (owned_store rt) MissionRuntimeError.InvalidOwnership;
  map_err MissionRuntimeError.Store
    (next_response_attempt (ms_projection store) mission_id attention_id request_generation).

(** The scope of a lease, checked by [capture_authority] and
    [finalize_evidence_pack] *)
Definition check_lease (rt : MissionRuntime) (lease : WorktreeLease) (mission_id run_id worktree : string) :
    result MissionRuntimeError unit :=
  claims ← the_claims rt;
  _ ← reject_if (negb (is_current claims lease)) MissionRuntimeError.LeaseNotCurrent;
  checkout_root ← ok_or (canonicalize worktree) MissionRuntimeError.LeaseScopeMismatch;
  reject_if (negb (matches_scope lease mission_id run_id checkout_root))
    MissionRuntimeError.LeaseScopeMismatch.

(** [MissionRuntime::capture_authority] *)
Definition capture_authority (rt : MissionRuntime) (lease : WorktreeLease) (identity : ProofIdentity)
    (current : WorkspaceSnapshot) (records : gmap string EvidenceRecord)
    (unresolved_attention_ids : gset string) (captured_at_millis : N) :
    result MissionRuntimeError AuthoritySnapshot :=
  store ← ok_or (owned_store rt) MissionRuntimeError.InvalidOwnership;
  _ ← check_lease rt lease (pi_mission_id identity) (pi_run_id identity) (pi_worktree_identity identity);
  let sequence := last_sequence store in
  _ ← reject_if (sequence =? 0)%N MissionRuntimeError.EmptyAuthority;
  Ok {| as_identity_digest := identity_digest identity;
        as_workspace_digest := workspace_digest current;
        as_attention_digest := digest_attention unresolved_attention_ids;
        as_evidence_digest := digest_evidence records;
        as_head_digest := authority_digest (handoff_fence store);
        as_lease_digest := lease_authority_digest lease;
        as_sequence := sequence;
        as_captured_at_millis := captured_at_millis |}.

(** [MissionRuntime::commit]; the outcomes of its writes are the next ones of
    the world. *)
Definition rt_commit (event_id : string) (event : PersistableMissionEvent) : RtM CommitOutcome := λ s,
  let '(rt, w) := s in
  match (_ ← ensure_available rt;
         _ ← match proof_lease_digest event with
             | Some lease_digest =>
                 claims ← the_claims rt;
                 reject_if (negb (has_current_authority_digest claims lease_digest))
                   MissionRuntimeError.LeaseNotCurrent
             | None => Ok tt
             end;
         ok_or (owned_store rt) MissionRuntimeError.InvalidOwnership) with
  | Err e => (s, Err e)
  | Ok store =>
      let io := default written (head (w_commits w)) in
      let '(d, store, r) := commit io (w_disk w) store event_id event in
      ((rt <| rt_ownership := Ownership.Owned store |>,
        w <| w_disk := d |> <| w_commits ::= tail |>),
       map_err MissionRuntimeError.Store r)
  end.

(** [MissionRuntime::claim_worktree], [MissionRuntime::release_worktree] *)
Definition claim_worktree (owner : LeaseOwner) (mission_repository requested_checkout : string)
    (request_id : ClaimRequestId) : RtM WorktreeLease := λ s,
  let '(rt, w) := s in
  match the_claims rt with
  | Err e => (s, Err e)
  | Ok claims =>
      let '(locks, claims, r) := claim (head (w_nonces w)) (w_locks w) claims owner
                                   mission_repository requested_checkout request_id in
      ((rt <| rt_claims := Some claims |>, w <| w_locks := locks |> <| w_nonces ::= tail |>),
       map_err MissionRuntimeError.WorktreeClaim r)
  end.
Definition release_worktree (lease : WorktreeLease) : RtM ReleaseOutcome := λ s,
  let '(rt, w) := s in
  match the_claims rt with
  | Err e => (s, Err e)
  | Ok claims =>
      let '(locks, claims, r) := release_claim (w_locks w) claims lease in
      ((rt <| rt_claims := Some claims |>, w <| w_locks := locks |>),
       map_err MissionRuntimeError.WorktreeClaim r)
  end.

(** [format!("{prefix}:{}", digest.finish())] of a digest of strings *)
Definition event_id (prefix domain : string) (fields : list string) : string :=
  prefix +:+ ":" +:+ digest_finish (digest_fields (digest_new domain) (str_bytes <$> fields)).

(** [declaration_set_digest] *)
Definition declaration_set_digest (declarations : list CheckDeclaration) : string :=
  digest_new "mission-check-declaration-set-v1"
  |>> digest_u64 (vec_len declarations)
  |>> digest_each digest_string (sort_strings (declaration_digest <$> declarations))
  |>> digest_finish.

(** [git_head_revision] *)
Definition git_head_revision (worktree : string) : result MissionRuntimeError string :=
  ok_or (git_head worktree) MissionRuntimeError.RevisionUnavailable.

(** The mission after a commit *)
Definition committed_mission (mission_id : string) : RtM MissionView :=
  mission ← rt_gets (λ rt, rt_mission rt mission_id);
  rt_lift (ok_or mission MissionRuntimeError.MissionMissing).

(** [MissionRuntime::create_mission] *)
Definition create_mission (request : CreateMission) : RtM CreateMissionOutcome :=
  repository ← rt_lift (ok_or (canonicalize (cm_repository_path request))
                          MissionRuntimeError.RepositoryUnavailable);
  info ← rt_lift (ok_or (git_worktree_info repository) MissionRuntimeError.RepositoryNotGit);
  root ← rt_lift (ok_or (canonicalize (gw_repo_root info)) MissionRuntimeError.RepositoryUnavailable);
  _ ← rt_lift (reject_if (negb (bool_decide (repository = root)))
                 MissionRuntimeError.RepositoryMustBeRoot);
  let repository_path := to_string_lossy repository in
  existing ← rt_gets (λ rt, rt_mission rt (cm_mission_id request));
  match existing with
  | Some existing =>
      if bool_decide (mv_title existing = cm_title request)
         && bool_decide (mv_repository_path existing = repository_path)
         && bool_decide (mv_objective existing = cm_objective request)
         && bool_decide (mv_acceptance_criteria existing = cm_acceptance_criteria request)
      then mret (mkCreateMissionOutcome existing false)
      else rt_lift (Err MissionRuntimeError.MissionConflict)
  | None =>
      event ← rt_lift (map_err MissionRuntimeError.Store
        (mission_created (cm_mission_id request) (cm_title request) repository_path
           (cm_objective request) (cm_acceptance_criteria request) (cm_at_millis request)));
      _ ← rt_commit (event_id "mission-create" "mission-create-event-id-v1" [cm_mission_id request])
            event;
      mission ← committed_mission (cm_mission_id request);
      mret (mkCreateMissionOutcome mission true)
  end.

(** The plan the declarations of a mission make *)
Definition closure_plan_of (mission : MissionView) (declarations : list CheckDeclaration) :
    result MissionRuntimeError ClosurePlan :=
  definition ← map_err (λ _, MissionRuntimeError.InvalidClosurePlan)
    (MissionDefinition_new (mv_mission_id mission) (mv_title mission) (mv_repository_path mission)
       (mv_objective mission) (mv_acceptance_criteria mission));
  map_err (λ _, MissionRuntimeError.InvalidClosurePlan)
    (ClosurePlan_new (criterion_ids (md_acceptance_criteria definition)) declarations).

(** [MissionRuntime::configure_mission] *)
Definition configure_mission (request : ConfigureMission) : RtM ConfigureMissionOutcome :=
  mission ← committed_mission (cf_mission_id request);
  let requested_digest := declaration_set_digest (cf_declarations request) in
  if negb (bool_decide (mv_check_declarations mission = [])) then
    if bool_decide (declaration_set_digest (mv_check_declarations mission) = requested_digest)
    then mret (mkConfigureMissionOutcome mission false)
    else rt_lift (Err MissionRuntimeError.ClosureConflict)
  else
    _ ← rt_lift (closure_plan_of mission (cf_declarations request));
    event ← rt_lift (map_err MissionRuntimeError.Store
      (closure_configured (cf_mission_id request) (cf_declarations request) (cf_at_millis request)));
    _ ← rt_commit (event_id "closure-config" "mission-closure-config-event-id-v1"
                     [cf_mission_id request; requested_digest]) event;
    mission ← committed_mission (cf_mission_id request);
    mret (mkConfigureMissionOutcome mission true).

(** The release of a lease whose run was not recorded *)
Definition or_release {A} (lease : WorktreeLease) (m : RtM A) : RtM A :=
  rt_cleanup m (rt_ignore (release_worktree lease)).

(** [MissionRuntime::start_run] *)
Definition start_run (request : StartRun) : RtM StartRunOutcome :=
  let mission_id := sr_mission_id request in
  mission ← committed_mission mission_id;
  _ ← rt_lift (reject_if (negb (bool_decide (mv_status mission = MissionStatus.Draft))
                          || bool_decide (is_Some (mv_run mission)))
                 MissionRuntimeError.RunAlreadyStarted);
  _ ← rt_lift (reject_if (bool_decide (mv_check_declarations mission = []))
                 MissionRuntimeError.ClosureMissing);
  repository ← rt_lift (ok_or (canonicalize (mv_repository_path mission))
                          MissionRuntimeError.RepositoryUnavailable);
  worktree ← rt_lift (ok_or (canonicalize (sr_worktree_path request))
                        MissionRuntimeError.RepositoryUnavailable);
  owner ← rt_lift (map_err MissionRuntimeError.WorktreeClaim
                     (LeaseOwner_new mission_id (sr_run_id request)));
  lease ← claim_worktree owner repository worktree (sr_request_id request);
  base_revision ← or_release lease (rt_lift (git_head_revision worktree));
  event ← or_release lease (rt_lift (map_err MissionRuntimeError.Store
    (run_started_with_check_execution mission_id (sr_run_id request) (sr_provider request)
       (sr_mode request) (to_string_lossy worktree) base_revision (sr_execute_declared_checks request)
       (sr_execute_project_recipe request) (sr_at_millis request))));
  _ ← or_release lease
        (rt_commit (event_id "run-start" "mission-run-start-event-id-v1"
                      [mission_id; sr_run_id request]) event);
  mission ← committed_mission mission_id;
  mret (mkStartRunOutcome mission lease).

Definition continuable (status : MissionStatus) : bool :=
  match status with
  | MissionStatus.Blocked | MissionStatus.Failed | MissionStatus.ReviewRequired
  | MissionStatus.ReadyToClose => true
  | _ => false
  end.

(** [MissionRuntime::continue_run] *)
Definition continue_run (request : ContinueRun) : RtM StartRunOutcome :=
  let mission_id := cr_mission_id request in
  mission ← committed_mission mission_id;
  _ ← rt_lift (reject_if (negb (continuable (mv_status mission)))
                 (MissionRuntimeError.Handoff MissionHandoffError.InvalidSourceState));
  _ ← rt_lift (reject_if (negb (mv_unresolved_attention_count mission =? 0)%N)
                 (MissionRuntimeError.Handoff MissionHandoffError.UnresolvedAttention));
  source ← rt_lift (ok_or (mv_run mission)
                      (MissionRuntimeError.Handoff MissionHandoffError.SourceRunMissing));
  _ ← rt_lift (reject_if (negb (bool_decide (mrv_run_id source = cr_source_run_id request)))
                 (MissionRuntimeError.Store MissionStoreError.RunMismatch));
  _ ← rt_lift (reject_if (bool_decide (mrv_provider source = cr_provider request))
                 (MissionRuntimeError.Handoff MissionHandoffError.SameProvider));
  repository ← rt_lift (ok_or (canonicalize (mv_repository_path mission))
                          MissionRuntimeError.RepositoryUnavailable);
  worktree ← rt_lift (ok_or (canonicalize (mrv_worktree_path source))
                        MissionRuntimeError.RepositoryUnavailable);
  owner ← rt_lift (map_err MissionRuntimeError.WorktreeClaim
                     (LeaseOwner_new mission_id (cr_run_id request)));
  lease ← claim_worktree owner repository worktree (cr_request_id request);
  event ← or_release lease (rt_lift (map_err MissionRuntimeError.Store
    (run_continued mission_id (cr_source_run_id request) (cr_run_id request) (cr_provider request)
       (cr_mode request) (to_string_lossy worktree) (mrv_base_revision source)
       (mrv_execute_declared_checks source)
       (mrv_execute_project_recipe source) (cr_handoff_artifact_sha256 request)
       (cr_at_millis request))));
  _ ← or_release lease
        (rt_commit (event_id "run-continue" "mission-run-continue-event-id-v1"
                      [mission_id; cr_source_run_id request; cr_run_id request;
                       cr_handoff_artifact_sha256 request]) event);
  mission ← committed_mission mission_id;
  mret (mkStartRunOutcome mission lease).

(** [MissionRuntime::recover_managed_run] *)
Definition recover_managed_run (mission_id : string) (request_id : ClaimRequestId) :
    RtM StartRunOutcome :=
  mission ← committed_mission mission_id;
  run ← rt_lift (ok_or (mv_run mission) MissionRuntimeError.RecoveryNotSafe);
  _ ← rt_lift (reject_if (negb (bool_decide (mv_status mission = MissionStatus.Active))
                          || negb (mv_unresolved_attention_count mission =? 0)%N
                          || negb (bool_decide (mrv_mode run = ProviderMode.Managed))
                          || bool_decide (mrv_provider_session_id run = None))
                 MissionRuntimeError.RecoveryNotSafe);
  repository ← rt_lift (ok_or (canonicalize (mv_repository_path mission))
                          MissionRuntimeError.RepositoryUnavailable);
  worktree ← rt_lift (ok_or (canonicalize (mrv_worktree_path run))
                        MissionRuntimeError.RepositoryUnavailable);
  owner ← rt_lift (map_err MissionRuntimeError.WorktreeClaim
                     (LeaseOwner_new mission_id (mrv_run_id run)));
  lease ← claim_worktree owner repository worktree request_id;
  mret (mkStartRunOutcome mission lease).

(** [MissionRuntime::bind_provider_session] *)
Definition bind_provider_session (mission_id run_id provider_session_id : string) (at_millis : N) :
    RtM MissionView :=
  event ← rt_lift (map_err MissionRuntimeError.Store
    (provider_session_bound mission_id run_id provider_session_id at_millis));
  _ ← rt_commit (event_id "provider-session" "mission-provider-session-event-id-v1"
                   [mission_id; run_id; provider_session_id]) event;
  committed_mission mission_id.

(** [MissionRuntime::transition_run] *)
Definition transition_run (mission_id : string) (status : MissionStatus) (at_millis : N) :
    RtM MissionView :=
  let id := digest_new "mission-run-status-event-id-v1"
            |>> digest_string mission_id
            |>> digest_string (status_as_str status)
            |>> digest_u64 at_millis
            |>> digest_finish in
  _ ← rt_commit ("run-status:" +:+ id) (Event.StatusChanged mission_id status at_millis);
  committed_mission mission_id.

(** [for x in xs { m(x)?; }] *)
Fixpoint rt_iter {A} (m : A → RtM CommitOutcome) (l : list A) : RtM unit :=
  match l with
  | [] => mret tt
  | x :: l => _ ← m x; rt_iter m l
  end.

(** [pack_store.persist(&pack)?] *)
Definition persist_pack (pack : EvidencePack) : RtM string := λ s,
  let '(rt, w) := s in
  if rt_evidence_packs rt then
    let '(packs, r) := pack_persist (w_pack_write w) (w_packs w) pack in
    ((rt, w <| w_packs := packs |>), map_err MissionRuntimeError.EvidencePack r)
  else (s, Err MissionRuntimeError.FeatureUnavailable).

(** The guards of [MissionRuntime::finalize_evidence_pack]: the mission, its
    run and the identity a proof of the run has *)
Definition reviewable (rt : MissionRuntime) (pack : EvidencePack) (lease : WorktreeLease)
    (at_millis : N) : result MissionRuntimeError (MissionView * MissionRunView * ProofIdentity) :=
  _ ← ensure_available rt;
  mission ← ok_or (rt_mission rt (ep_mission_id pack)) MissionRuntimeError.MissionMissing;
  _ ← reject_if (negb (bool_decide (mv_status mission = MissionStatus.ReviewRequired)
                       || bool_decide (mv_status mission = MissionStatus.ReadyToClose)))
        MissionRuntimeError.EvidenceNotReviewable;
  run ← ok_or (mv_run mission) MissionRuntimeError.EvidenceScopeMismatch;
  expected_identity ← map_err (λ _, MissionRuntimeError.EvidenceScopeMismatch)
    (ProofIdentity_new (mv_mission_id mission) (mrv_run_id run) (mv_repository_path mission)
       (mrv_worktree_path run) (mrv_base_revision run));
  _ ← reject_if (negb (bool_decide (ep_run_id pack = mrv_run_id run))
                 || negb (bool_decide (ep_identity pack = expected_identity))
                 || (at_millis <? ep_created_at_millis pack)%N)
        MissionRuntimeError.EvidenceScopeMismatch;
  _ ← check_lease rt lease (mv_mission_id mission) (mrv_run_id run) (mrv_worktree_path run);
  Ok (mission, run, expected_identity).

(** The events that say which pack is the latest and what it says *)
Definition record_pack (mission_id run_id pack_digest : string) (pack : EvidencePack)
    (at_millis : N) : RtM unit :=
  let workspace_hash := workspace_digest (ep_current_workspace pack) in
  _ ← rt_commit (event_id "evidence-pack" "mission-evidence-pack-event-id-v1"
                   [mission_id; run_id; pack_digest])
        (Event.EvidencePackRecorded mission_id run_id pack_digest workspace_hash at_millis);
  rt_iter (λ cs, rt_commit (event_id "evidence-summary" "mission-evidence-summary-event-id-v1"
                              [mission_id; pack_digest; cs.1])
                   (Event.EvidenceChanged mission_id cs.1 cs.2 workspace_hash at_millis))
    (str_entries (ep_summaries pack)).

(** The report on the pack, at the head of the journal *)
Definition evaluate_pack (rt : MissionRuntime) (mission : MissionView) (pack : EvidencePack)
    (expected_identity : ProofIdentity) (lease : WorktreeLease) (at_millis : N) :
    result MissionRuntimeError ProofReport :=
  closure_plan ← closure_plan_of mission (mv_check_declarations mission);
  unresolved_attention_ids ← rt_unresolved_attention_ids rt (mv_mission_id mission);
  authority ← capture_authority rt lease expected_identity (ep_current_workspace pack)
                (ep_records pack) unresolved_attention_ids at_millis;
  map_err MissionRuntimeError.Evaluation
    (evaluate expected_identity closure_plan (mv_check_declarations mission) (ep_records pack)
       (ep_current_workspace pack) unresolved_attention_ids authority).

(** The seal of a verified pack on a mission under review *)
Definition commit_ready (mission : MissionView) (pack_digest : string) (verified : VerifiedProof)
    (at_millis : N) : RtM unit :=
  let mission_id := mv_mission_id mission in
  event ← rt_lift (map_err MissionRuntimeError.Store
    (mission_ready mission_id (mkReadyProof mission_id verified) "nagi-verifier"
       (digest_finish (digest_fields (digest_new "mission-ready-reason-v1") [str_bytes pack_digest]))
       at_millis));
  _ ← rt_commit (event_id "mission-ready" "mission-ready-event-id-v1" [mission_id; pack_digest])
        event;
  mret tt.

(** The archive of a verified pack on a mission that is ready to close *)
Definition commit_archive (mission : MissionView) (pack_digest : string) (verified : VerifiedProof)
    (at_millis : N) : RtM unit :=
  let mission_id := mv_mission_id mission in
  ready_receipt ← rt_lift (ok_or (mv_ready_receipt mission) MissionRuntimeError.ProofUnavailable);
  if negb (bool_decide (subject_digest verified = pr_subject_digest ready_receipt))
     || (vp_authority_sequence verified <=? pr_authority_sequence ready_receipt)%N
     || (vp_verified_at_millis verified <? pr_verified_at_millis ready_receipt)%N
  then
    _ ← transition_run mission_id MissionStatus.Blocked at_millis;
    rt_lift (Err MissionRuntimeError.ProofBindingMismatch)
  else
    event ← rt_lift (map_err MissionRuntimeError.Store
      (mission_archived mission_id
         (mkArchiveProof mission_id verified (pr_seal_digest ready_receipt)) "nagi-verifier"
         (digest_finish (digest_fields (digest_new "mission-archive-reason-v1")
                           [str_bytes pack_digest]))
         at_millis));
    _ ← rt_commit (event_id "mission-archive" "mission-archive-event-id-v1"
                     [mission_id; pack_digest]) event;
    mret tt.

(** [MissionRuntime::finalize_evidence_pack] *)
Definition finalize_evidence_pack (pack : EvidencePack) (lease : WorktreeLease) (at_millis : N) :
    RtM FinalizeEvidenceOutcome :=
  scope ← rt_gets (λ rt, reviewable rt pack lease at_millis);
  scope ← rt_lift scope;
  let '(mission, run, expected_identity) := scope in
  let archive_requested := bool_decide (mv_status mission = MissionStatus.ReadyToClose) in
  pack_digest ← persist_pack pack;
  _ ← record_pack (mv_mission_id mission) (mrv_run_id run) pack_digest pack at_millis;
  report ← rt_gets (λ rt, evaluate_pack rt mission pack expected_identity lease at_millis);
  report ← rt_lift report;
  _ ← match into_verified report with
      | Ok verified =>
          if archive_requested then commit_archive mission pack_digest verified at_millis
          else commit_ready mission pack_digest verified at_millis
      | Err ProofError.ReportNotVerified =>
          if archive_requested then
            _ ← transition_run (mv_mission_id mission) MissionStatus.Blocked at_millis;
            mret tt
          else mret tt
      | Err e => rt_lift (Err (MissionRuntimeError.Evaluation e))
      end;
  mission ← committed_mission (mv_mission_id mission);
  mret {| feo_mission := mission;
          feo_pack_digest := pack_digest;
          feo_verified :=
            bool_decide (mv_status mission = if archive_requested then MissionStatus.Archived
                                             else MissionStatus.ReadyToClose) |}.

(** [MissionRuntime::load_evidence_pack] *)
Definition load_evidence_pack (rt : MissionRuntime) (w : World) (digest : string) :
    result MissionRuntimeError EvidencePack :=
  if rt_evidence_packs rt
  then map_err MissionRuntimeError.EvidencePack (pack_load (w_packs w) digest)
  else Err MissionRuntimeError.FeatureUnavailable.

(** [MissionRuntime::prepare_handoff] *)
Definition rt_prepare_handoff (outcome : WriteOutcome) : RtM HandoffFence := λ s,
  let '(rt, w) := s in
  match rt_ownership rt with
  | Ownership.Owned store =>
      match prepare_handoff outcome store (w_disk w) with
      | (d, Ok prepared) =>
          ((rt <| rt_ownership := Ownership.Prepared prepared |>, w <| w_disk := d |>),
           Ok (pms_fence prepared))
      | (d, Err e) => ((rt, w <| w_disk := d |>), Err (MissionRuntimeError.Store e))
      end
  | Ownership.Prepared prepared => (s, Ok (pms_fence prepared))
  | _ => (s, Err MissionRuntimeError.InvalidOwnership)
  end.

(** [MissionRuntime::relinquish_handoff] *)
Definition relinquish_handoff : RtM unit := λ s,
  let '(rt, w) := s in
  match rt_ownership rt with
  | Ownership.Prepared prepared =>
      match relinquish prepared (w_disk w) with
      | (d, Ok fence) =>
          ((rt <| rt_ownership := Ownership.Released fence |>, w <| w_disk := d |>), Ok tt)
      | (d, Err e) => ((rt, w <| w_disk := d |>), Err (MissionRuntimeError.Store e))
      end
  | _ => (s, Err MissionRuntimeError.InvalidOwnership)
  end.

(** What [acquire_handoff] and [abort_handoff] make of an opened store: the
    ownership was taken out of the runtime before, and a failure leaves it
    vacant. *)
Definition adopt (rt : MissionRuntime) (w : World)
    (opened : Disk * result MissionStoreError MissionStore) : St * result MissionRuntimeError unit :=
  match opened with
  | (d, Ok store) =>
      ((rt <| rt_ownership := Ownership.Owned store |>, w <| w_disk := d |>), Ok tt)
  | (d, Err e) =>
      ((rt <| rt_ownership := Ownership.Vacant |>, w <| w_disk := d |>),
       Err (MissionRuntimeError.Store e))
  end.

(** [MissionRuntime::acquire_handoff] *)
Definition acquire_handoff (io : OpenIo) (expected : HandoffFence) : RtM unit := λ s,
  let '(rt, w) := s in
  match rt_ownership rt with
  | Ownership.Observing _ => adopt rt w (acquire_writer io expected (w_disk w))
  | _ => (s, Err MissionRuntimeError.InvalidOwnership)
  end.

(** [MissionRuntime::abort_handoff] *)
Definition abort_handoff (io : OpenIo) : RtM unit := λ s,
  let '(rt, w) := s in
  match rt_ownership rt with
  | Ownership.Owned _ => (s, Ok tt)
  | Ownership.Prepared prepared =>
      ((rt <| rt_ownership := Ownership.Owned (pms_store prepared) |>, w), Ok tt)
  | Ownership.Released fence => adopt rt w (reacquire io fence (w_disk w))
  | _ => (s, Err MissionRuntimeError.InvalidOwnership)
  end.
End runtime.

(** ** Running the monad *)

Lemma rt_bind_ok {A B} (m : RtM A) (f : A → RtM B) s s' b :
  (m ≫= f) s = (s', Ok b) ↔ ∃ t a, m s = (t, Ok a) ∧ f a t = (s', Ok b).
Proof.
  unfold mbind, RtM_bind. destruct (m s) as [t [a|e]]; split.
  - intros Hf. by exists t, a.
  - by intros (? & ? & [= <- <-] & Hf).
  - done.
  - by intros (? & ? & ? & _).
Qed.

Lemma rt_bind_err {A B} (m : RtM A) (f : A → RtM B) s s' e :
  (m ≫= f) s = (s', Err e) ↔
  m s = (s', Err e) ∨ ∃ t a, m s = (t, Ok a) ∧ f a t = (s', Err e).
Proof.
  unfold mbind, RtM_bind. destruct (m s) as [t [a|err]]; split.
  - intros Hf. right. by exists t, a.
  - by intros [?|(? & ? & [= <- <-] & Hf)].
  - intros [= -> ->]. by left.
  - by intros [[= -> ->]|(? & ? & ? & _)].
Qed.

Lemma rt_lift_inv {A} (r : result MissionRuntimeError A) s s' r' :
  rt_lift r s = (s', r') ↔ s' = s ∧ r' = r.
Proof. unfold rt_lift. naive_solver. Qed.

Lemma rt_gets_inv {A} (f : MissionRuntime → A) s s' r :
  rt_gets f s = (s', r) ↔ s' = s ∧ r = Ok (f s.1).
Proof. unfold rt_gets. naive_solver. Qed.

Lemma rt_cleanup_ok {A} (m : RtM A) c s s' a :
  rt_cleanup m c s = (s', Ok a) ↔ m s = (s', Ok a).
Proof. unfold rt_cleanup. destruct (m s) as [t [?|?]]; naive_solver. Qed.

Lemma rt_cleanup_err {A} (m : RtM A) c s s' e :
  rt_cleanup m c s = (s', Err e) ↔ ∃ t, m s = (t, Err e) ∧ s' = (c t).1.
Proof. unfold rt_cleanup. destruct (m s) as [t [?|?]]; naive_solver. Qed.

Section facts.
Context {HSha : Sha256} `{HJson : SerdeJson} `{HBase64 : Base64} `{HPack : PackJson} `{HHost : GitHost}.

Lemma committed_mission_inv mission_id s s' r :
  committed_mission mission_id s = (s', r) →
  s' = s ∧ r = ok_or (rt_mission s.1 mission_id) MissionRuntimeError.MissionMissing.
Proof.
  unfold committed_mission, mbind, RtM_bind, rt_gets, rt_lift. by intros [= <- <-].
Qed.
End facts.

(** [inv_rt] follows a handler that returned a value. *)
Ltac inv_rt_step :=
  match goal with
  | H : (_ ≫= _) _ = (_, Ok _) |- _ => apply rt_bind_ok in H as (? & ? & ? & H)
  | H : rt_lift _ _ = (_, Ok _) |- _ =>
      let E := fresh in apply rt_lift_inv in H as [-> E]; symmetry in E
  | H : rt_gets _ _ = (_, Ok _) |- _ =>
      let E := fresh in apply rt_gets_inv in H as [-> E]; apply Ok_inj in E
  | H : committed_mission _ _ = (_, Ok _) |- _ =>
      let E := fresh in apply committed_mission_inv in H as [-> E]; symmetry in E;
      apply ok_or_ok in E
  | H : or_release _ _ _ = (_, Ok _) |- _ => apply rt_cleanup_ok in H
  | H : mret _ _ = (_, Ok _) |- _ => unfold mret, RtM_ret in H; first [injection H as ? ?|injection H as ?]
  | H : map_err _ _ = Ok _ |- _ => apply map_err_ok in H
  | H : validated _ = Ok _ |- _ => apply bind_ok in H as (? & ? & H); apply Ok_inj in H
  | x : unit |- _ => destruct x
  end.
Ltac inv_rt := repeat inv_rt_step.

Section facts.
Context {HSha : Sha256} `{HJson : SerdeJson} `{HBase64 : Base64} `{HPack : PackJson} `{HHost : GitHost}.

(** A view is the state of the mission. *)
Lemma rt_mission_some rt mission_id v :
  rt_mission rt mission_id = Some v ↔
  ∃ store m, owned_store rt = Some store ∧ missions (ms_projection store) !! mission_id = Some m
    ∧ v = view_from_persisted mission_id m.
Proof.
  unfold rt_mission, mission_view. destruct (owned_store rt) as [store|]; cbn.
  - rewrite fmap_Some. naive_solver.
  - naive_solver.
Qed.

(** A commit that succeeds applies its event, or finds it recorded. *)
Lemma commit_projection io d s id e d' s' o :
  commit io d s id e = (d', s', Ok o) →
  (d' = d ∧ s' = s ∧ is_Some (ms_event_index s !! id))
  ∨ (ms_event_index s !! id = None ∧ event_validate e = Ok tt
     ∧ validate_current_proof_authority s e = Ok tt
     ∧ apply (ms_projection s) e = Ok (ms_projection s')
     ∧ is_Some (ms_event_index s' !! id)).
Proof.
  intros Hc. apply commit_inv in Hc as [(-> & -> & Ho)|(fp & plan & _ & _ & Hv & _ & Hnew & Hplan & Hw)].
  - left. destruct (Ho o eq_refl) as (_ & fp & Hix & _). by rewrite Hix.
  - right. apply plan_commit_inv in Hplan as (Hauth & Happ & _ & _ & Hindex & _).
    unfold write_commit in Hw. destruct (append _ _ _ _ _) as [journal [hash|err]]; [|done].
    destruct (atomic_write_json_limited _ _ _ _ _) as [head [?|?]]; [|done].
    injection Hw as _ <- _. split_and!; try done. cbn. rewrite Hindex, lookup_insert_eq. by eexists.
Qed.

(** The parts of the state a commit leaves alone *)
Definition same_leases (s s' : St) : Prop :=
  rt_claims s'.1 = rt_claims s.1 ∧ w_locks s'.2 = w_locks s.2.
Definition same_packs (s s' : St) : Prop :=
  rt_evidence_packs s'.1 = rt_evidence_packs s.1 ∧ w_packs s'.2 = w_packs s.2.

#[export] Instance same_leases_preorder : PreOrder same_leases.
Proof. split; [done|]. intros s t u [? ?] [? ?]. split; congruence. Qed.
#[export] Instance same_packs_preorder : PreOrder same_packs.
Proof. split; [done|]. intros s t u [? ?] [? ?]. split; congruence. Qed.

Lemma rt_commit_frame id e s s' r :
  rt_commit id e s = (s', r) → same_leases s s' ∧ same_packs s s'.
Proof.
  unfold rt_commit. destruct s as [rt w].
  destruct (_ ← ensure_available rt; _) as [store|err]; [|by intros [= <- <-]].
  destruct (commit _ _ _ _ _) as [[d store'] r']. by intros [= <- <-].
Qed.

Lemma rt_commit_ok id e s s' o :
  rt_commit id e s = (s', Ok o) →
  ∃ store store' d', owned_store s.1 = Some store ∧ owned_store s'.1 = Some store'
    ∧ commit (default written (head (w_commits s.2))) (w_disk s.2) store id e = (d', store', Ok o)
    ∧ (∀ lease_digest, proof_lease_digest e = Some lease_digest →
         ∃ claims, rt_claims s.1 = Some claims
           ∧ has_current_authority_digest claims lease_digest = true).
Proof.
  unfold rt_commit. destruct s as [rt w]. cbn [fst snd].
  destruct (_ ← ensure_available rt; _) as [store|err] eqn:Hpre; [|done].
  apply bind_ok in Hpre as ([] & _ & Hpre). apply bind_ok in Hpre as ([] & Hlease & Hpre).
  apply ok_or_ok in Hpre.
  destruct (commit _ _ _ _ _) as [[d store'] r'] eqn:Hc. intros Heq.
  injection Heq as <- Hr. apply map_err_ok in Hr. subst r'.
  exists store, store', d. do 3 (split; [done|]).
  intros digest Hd. rewrite Hd in Hlease. apply bind_ok in Hlease as (claims & Hcl & Hcur).
  unfold the_claims in Hcl. apply ok_or_ok in Hcl. exists claims. inv_ok. done.
Qed.

(** What a commit that succeeds makes of a mission *)
Lemma rt_commit_mission id e s s' o mission_id store m :
  rt_commit id e s = (s', Ok o) →
  owned_store s.1 = Some store → missions (ms_projection store) !! mission_id = Some m →
  ∃ store' m', owned_store s'.1 = Some store'
    ∧ missions (ms_projection store') !! mission_id = Some m'
    ∧ (m' = m ∧ (ms_event_index store !! id = None → event_mission_id e ≠ mission_id)
       ∨ (ms_event_index store !! id = None ∧ event_mission_id e = mission_id
          ∧ event_validate e = Ok tt ∧ apply_mission m e = Ok m')).
Proof.
  intros (st & st' & d' & Hst & Hst' & Hc & _)%rt_commit_ok Hown Hm.
  rewrite Hown in Hst. injection Hst as <-. exists st'.
  apply commit_projection in Hc as [(_ & -> & [? Hix])|(Hnew & Hv & _ & Happ & _)].
  { exists m. split_and!; try done. left. split; [done|]. intros Hno. congruence. }
  destruct (apply_at _ _ _ _ _ Hm Happ) as (m' & Hm' & [[Hne ->]|[He Hok]]).
  { exists m. by split_and!; auto. }
  exists m'. split_and!; try done. right. by rewrite He in *.
Qed.

Lemma rt_commit_keeps_mission id e s s' o mission_id :
  rt_commit id e s = (s', Ok o) → is_Some (rt_mission s.1 mission_id) →
  is_Some (rt_mission s'.1 mission_id).
Proof.
  intros Hc [v (store & m & Hown & Hm & ->)%rt_mission_some].
  destruct (rt_commit_mission _ _ _ _ _ _ _ _ Hc Hown Hm) as (store' & m' & Hown' & Hm' & _).
  exists (view_from_persisted mission_id m'). apply rt_mission_some. eauto.
Qed.

Lemma commit_stores_mission id e s s' o mission_id :
  rt_commit id e s = (s', Ok o) → rt_mission s.1 mission_id = None →
  is_Some (rt_mission s'.1 mission_id) →
  ∃ title path hash objective criteria at_ store,
    e = Event.MissionCreated mission_id title path hash objective criteria at_
    ∧ owned_store s'.1 = Some store
    ∧ missions (ms_projection store) !! mission_id
      = Some (new_mission title path hash objective criteria at_).
Proof.
  intros (st & st' & d' & Hst & Hst' & Hc & _)%rt_commit_ok Hnone Hsome.
  unfold rt_mission, mission_view in Hnone, Hsome. rewrite Hst in Hnone. rewrite Hst' in Hsome.
  cbn in Hnone, Hsome. apply fmap_None in Hnone. apply fmap_is_Some in Hsome as [m Hm].
  apply commit_projection in Hc as [(_ & -> & _)|(_ & _ & _ & Happ & _)]; [congruence|].
  apply apply_inv in Happ
    as [(i & title & path & hash & objective & criteria & at_ & -> & Hi & Hp)|(n & n' & Hn & _ & Hp)].
  - destruct (decide (i = mission_id)) as [->|Hne].
    + exists title, path, hash, objective, criteria, at_, st'. split_and!; try done.
      by rewrite Hp, lookup_insert_eq.
    + rewrite Hp, lookup_insert_ne in Hm by done. congruence.
  - destruct (decide (event_mission_id e = mission_id)) as [Heq|Hne]; [by rewrite Heq in *; congruence|].
    rewrite Hp, lookup_insert_ne in Hm by done. congruence.
Qed.

(** What [create_mission] does before it looks at the store: the path that is
    recorded *)
Definition mission_root (path : string) : result MissionRuntimeError string :=
  repository ← ok_or (canonicalize path) MissionRuntimeError.RepositoryUnavailable;
  info ← ok_or (git_worktree_info repository) MissionRuntimeError.RepositoryNotGit;
  root ← ok_or (canonicalize (gw_repo_root info)) MissionRuntimeError.RepositoryUnavailable;
  _ ← reject_if (negb (bool_decide (repository = root))) MissionRuntimeError.RepositoryMustBeRoot;
  Ok (to_string_lossy repository).

Definition specified_as (request : CreateMission) (repository : string) (v : MissionView) : Prop :=
  mv_title v = cm_title request ∧ mv_repository_path v = repository
  ∧ mv_objective v = cm_objective request
  ∧ mv_acceptance_criteria v = cm_acceptance_criteria request.

Lemma create_mission_root request repository s :
  mission_root (cm_repository_path request) = Ok repository →
  create_mission request s
  = match rt_mission s.1 (cm_mission_id request) with
    | Some existing =>
        (s, if bool_decide (mv_title existing = cm_title request)
               && bool_decide (mv_repository_path existing = repository)
               && bool_decide (mv_objective existing = cm_objective request)
               && bool_decide (mv_acceptance_criteria existing = cm_acceptance_criteria request)
            then Ok (mkCreateMissionOutcome existing false)
            else Err MissionRuntimeError.MissionConflict)
    | None =>
        (event ← rt_lift (map_err MissionRuntimeError.Store
           (mission_created (cm_mission_id request) (cm_title request) repository
              (cm_objective request) (cm_acceptance_criteria request) (cm_at_millis request)));
         _ ← rt_commit (event_id "mission-create" "mission-create-event-id-v1"
                          [cm_mission_id request]) event;
         mission ← committed_mission (cm_mission_id request);
         mret (mkCreateMissionOutcome mission true)) s
    end.
Proof.
  intros Hroot. unfold mission_root in Hroot.
  apply bind_ok in Hroot as (repo & Hrepo & Hroot). apply bind_ok in Hroot as (info & Hinfo & Hroot).
  apply bind_ok in Hroot as (root & Hr & Hroot). apply bind_ok in Hroot as ([] & Heq & Hroot).
  apply Ok_inj in Hroot. subst repository. unfold create_mission.
  unfold mbind at 1, RtM_bind at 1, rt_lift at 1. rewrite Hrepo.
  unfold mbind at 1, RtM_bind at 1, rt_lift at 1. rewrite Hinfo.
  unfold mbind at 1, RtM_bind at 1, rt_lift at 1. rewrite Hr.
  unfold mbind at 1, RtM_bind at 1, rt_lift at 1. rewrite Heq.
  unfold mbind at 1, RtM_bind at 1, rt_gets at 1.
  destruct (rt_mission s.1 (cm_mission_id request)) as [existing|]; [|done].
  by destruct (bool_decide _ && _ && _ && _).
Qed.

Lemma create_mission_ok request s s' o :
  create_mission request s = (s', Ok o) →
  ∃ repository, mission_root (cm_repository_path request) = Ok repository
    ∧ rt_mission s'.1 (cm_mission_id request) = Some (cmo_mission o)
    ∧ specified_as request repository (cmo_mission o)
    ∧ (cmo_created o = false → s' = s)
    ∧ (cmo_created o = true →
         rt_mission s.1 (cm_mission_id request) = None
         ∧ mv_status (cmo_mission o) = MissionStatus.Draft ∧ mv_run (cmo_mission o) = None).
Proof.
  intros Hc.
  assert (∃ repository, mission_root (cm_repository_path request) = Ok repository) as [repository Hroot].
  { unfold create_mission in Hc. inv_rt. unfold mission_root.
    repeat match goal with H : ok_or _ _ = _ |- _ => rewrite H; clear H; cbn [mbind result_bind] end.
    match goal with H : reject_if _ _ = _ |- _ => rewrite H end. by eexists. }
  exists repository. split; [done|]. rewrite (create_mission_root _ _ _ Hroot) in Hc.
  destruct (rt_mission s.1 (cm_mission_id request)) as [existing|] eqn:Hex.
  - destruct (bool_decide _ && _ && _ && _) eqn:Hb; [|done].
    injection Hc as <- <-. cbn. inv_ok. by split_and!.
  - unfold mission_created in Hc. inv_rt. subst.
    match goal with H : rt_commit _ _ _ = _, Hnew : rt_mission _ _ = Some _ |- _ =>
      destruct (commit_stores_mission _ _ _ _ _ _ H Hex (mk_is_Some _ _ Hnew))
        as (title & path & hash & objective & criteria & at_ & store & He & Hown & Hm);
      rename Hnew into Hview end.
    injection He as <- <- _ <- <- _. cbn [cmo_mission cmo_created].
    unfold rt_mission, mission_view in Hview. rewrite Hown in Hview. cbn in Hview.
    rewrite Hm in Hview. injection Hview as <-. split_and!; try done.
    unfold rt_mission, mission_view. rewrite Hown. cbn. by rewrite Hm.
Qed.

(** Creating a mission is idempotent.  A request that succeeded leaves a draft
    without a run, or the mission it found, under the canonical root of the
    repository; the same request then answers with the same mission and
    writes nothing, and any other request for the same id is a conflict. *)
Theorem create_mission_once request s s' o :
  create_mission request s = (s', Ok o) →
  create_mission request s' = (s', Ok (mkCreateMissionOutcome (cmo_mission o) false))
  ∧ (cmo_created o = true →
       rt_mission s.1 (cm_mission_id request) = None
       ∧ mv_status (cmo_mission o) = MissionStatus.Draft ∧ mv_run (cmo_mission o) = None)
  ∧ ∀ other repository,
      cm_mission_id other = cm_mission_id request →
      mission_root (cm_repository_path other) = Ok repository →
      ¬ specified_as other repository (cmo_mission o) →
      create_mission other s' = (s', Err MissionRuntimeError.MissionConflict).
Proof.
  intros (repository & Hroot & Hmission & Hspec & _ & Hcreated)%create_mission_ok.
  split; [|split; [exact Hcreated|]].
  - rewrite (create_mission_root _ _ _ Hroot), Hmission. destruct Hspec as (-> & -> & -> & ->).
    by rewrite !bool_decide_eq_true_2.
  - intros other root Hid Hroot' Hno. rewrite (create_mission_root _ _ _ Hroot'), Hid, Hmission.
    destruct (bool_decide _ && _ && _ && _) eqn:Hb; [|done]. exfalso. apply Hno. inv_ok. done.
Qed.

Lemma sort_strings_perm l l' : l ≡ₚ l' → sort_strings l = sort_strings l'.
Proof.
  intros Hp. apply (StronglySorted_unique String.le); [apply StronglySorted_merge_sort; apply _..|].
  unfold sort_strings. by rewrite !merge_sort_Permutation.
Qed.

(** The digest of a set of declarations does not depend on their order. *)
Lemma declaration_set_digest_perm ds ds' :
  ds ≡ₚ ds' → declaration_set_digest ds = declaration_set_digest ds'.
Proof.
  intros Hp. unfold declaration_set_digest, vec_len.
  by rewrite (Permutation_length Hp), (sort_strings_perm _ _ (fmap_Permutation _ _ _ Hp)).
Qed.

(** [configure_mission] on a mission that has declarations *)
Lemma configure_again request s v :
  rt_mission s.1 (cf_mission_id request) = Some v → mv_check_declarations v ≠ [] →
  configure_mission request s
  = (s, if bool_decide (declaration_set_digest (mv_check_declarations v)
                        = declaration_set_digest (cf_declarations request))
        then Ok (mkConfigureMissionOutcome v false)
        else Err MissionRuntimeError.ClosureConflict).
Proof.
  intros Hv Hne. unfold configure_mission, committed_mission, mbind, RtM_bind, rt_gets, rt_lift.
  rewrite Hv. cbn [ok_or]. rewrite bool_decide_eq_false_2 by done. cbn [negb]. by case_bool_decide.
Qed.

(** What the commit of a configuration leaves in the mission *)
Lemma configure_mission_ok request s s' o :
  configure_mission request s = (s', Ok o) →
  rt_mission s'.1 (cf_mission_id request) = Some (cfo_mission o)
  ∧ (mv_check_declarations (cfo_mission o) ≠ [] →
     declaration_set_digest (mv_check_declarations (cfo_mission o))
     = declaration_set_digest (cf_declarations request))
  ∧ (cfo_configured o = false → s' = s)
  ∧ (∀ store, cfo_configured o = true → owned_store s.1 = Some store →
     ms_event_index store !! event_id "closure-config" "mission-closure-config-event-id-v1"
       [cf_mission_id request; declaration_set_digest (cf_declarations request)] = None →
     mv_check_declarations (cfo_mission o) = cf_declarations request).
Proof.
  intros Hc. unfold configure_mission, closure_configured in Hc. inv_rt.
  destruct (bool_decide_reflect (mv_check_declarations x0 = [])) as [Hnil|Hsome]; cbn [negb] in Hc.
  - inv_rt. subst. cbn [cfo_mission cfo_configured].
    match goal with H : rt_mission s.1 _ = Some ?v |- _ =>
      apply rt_mission_some in H as (store & m & Hown & Hm & ->) end.
    match goal with H : rt_commit _ _ _ = _ |- _ =>
      destruct (rt_commit_mission _ _ _ _ _ _ _ _ H Hown Hm) as (store' & m' & Hown' & Hm' & Hcase)
    end.
    match goal with H : rt_mission s'.1 _ = Some ?v |- _ =>
      pose proof H as Hview; unfold rt_mission, mission_view in H; rewrite Hown' in H; cbn in H;
      rewrite Hm' in H; injection H as <- end.
    split_and!; [exact Hview| |done|].
    + cbn. destruct Hcase as [[-> _]|(_ & _ & _ & Happ)]; [done|]. cbn in Happ. by handler_inv Happ.
    + intros st _ Hst Hnew. rewrite Hown in Hst. injection Hst as <-. cbn.
      destruct Hcase as [[_ Hno]|(_ & _ & _ & Happ)]; [by destruct (Hno Hnew)|].
      cbn in Happ. by handler_inv Happ.
  - case_bool_decide as Heq; inv_rt; [|discriminate]. subst. cbn. by split_and!.
Qed.

(** The plan of a mission is configured once.  After a request that
    succeeded, a request with the same declarations in any order answers with
    the same mission and writes nothing, and one whose declarations have
    another digest is a conflict; a configuration whose event is new makes
    the request's declarations the mission's. *)
Theorem configure_mission_once request s s' o :
  configure_mission request s = (s', Ok o) → mv_check_declarations (cfo_mission o) ≠ [] →
  (∀ other, cf_mission_id other = cf_mission_id request →
     cf_declarations other ≡ₚ cf_declarations request →
     configure_mission other s' = (s', Ok (mkConfigureMissionOutcome (cfo_mission o) false)))
  ∧ (∀ other, cf_mission_id other = cf_mission_id request →
     declaration_set_digest (cf_declarations other) ≠ declaration_set_digest (cf_declarations request) →
     configure_mission other s' = (s', Err MissionRuntimeError.ClosureConflict))
  ∧ ∀ store, cfo_configured o = true → owned_store s.1 = Some store →
      ms_event_index store !! event_id "closure-config" "mission-closure-config-event-id-v1"
        [cf_mission_id request; declaration_set_digest (cf_declarations request)] = None →
      mv_check_declarations (cfo_mission o) = cf_declarations request.
Proof.
  intros (Hv & Hdigest & _ & Hnew)%configure_mission_ok Hne. specialize (Hdigest Hne).
  split; [|split; [|exact Hnew]]; intros other Hid Hds;
    rewrite (configure_again other s' _ ltac:(by rewrite Hid) Hne), Hdigest.
  - by rewrite bool_decide_eq_true_2 by (by apply declaration_set_digest_perm).
  - by rewrite bool_decide_eq_false_2 by done.
Qed.

(** ** Leases *)

(** A registry files every lease under its key. *)
Definition claims_filed (claims : WorktreeClaimRegistry) : Prop :=
  map_Forall (λ key record, wl_key (cl_lease record) = key) claims.
Definition leases_filed (s : St) : Prop :=
  match rt_claims s.1 with Some claims => claims_filed claims | None => True end.

(** Whether the runtime holds a lease *)
Definition holds_lease (s : St) (lease : WorktreeLease) : Prop :=
  ∃ claims, rt_claims s.1 = Some claims ∧ is_current claims lease = true.

(** The leases are as before, or the one that this very request had been
    granted earlier was given back. *)
Definition no_new_lease (owner : LeaseOwner) (request_id : ClaimRequestId) (s s' : St) : Prop :=
  same_leases s s'
  ∨ ∃ claims key record, rt_claims s.1 = Some claims ∧ claims !! key = Some record
      ∧ wl_owner (cl_lease record) = owner ∧ wl_request_id (cl_lease record) = request_id
      ∧ rt_claims s'.1 = Some (delete key claims)
      ∧ w_locks s'.2 = w_locks s.2 ∖ {[cl_process_lock record]}.

Lemma claim_worktree_inv owner repository checkout request_id s s' r :
  claim_worktree owner repository checkout request_id s = (s', r) →
  rt_ownership s'.1 = rt_ownership s.1
  ∧ match r with
    | Err _ => same_leases s s'
    | Ok lease => ∃ claims claims', rt_claims s.1 = Some claims ∧ rt_claims s'.1 = Some claims'
        ∧ claim (head (w_nonces s.2)) (w_locks s.2) claims owner repository checkout request_id
          = (w_locks s'.2, claims', Ok lease)
    end.
Proof.
  unfold claim_worktree, the_claims. destruct s as [rt w]. cbn [fst snd].
  destruct (rt_claims rt) as [claims|] eqn:Hcl; cbn [ok_or]; [|by intros [= <- <-]].
  destruct (claim _ _ _ _ _ _ _) as [[locks claims'] r'] eqn:Hclaim. intros [= <- <-].
  split; [done|]. destruct r' as [lease|e]; cbn [map_err].
  - exists claims, claims'. by split_and!.
  - destruct (claim_spec _ _ _ _ _ _ _ _ _ _ Hclaim) as [(-> & -> & _)|(? & ? & _ & _ & _ & _ & ? & _)];
      [|done]. by split; cbn; rewrite ?Hcl.
Qed.

(** A granted lease is current and is the request's. *)
Lemma claim_worktree_granted owner repository checkout request_id s s' lease :
  leases_filed s → claim_worktree owner repository checkout request_id s = (s', Ok lease) →
  holds_lease s' lease ∧ wl_owner lease = owner ∧ wl_request_id lease = request_id
  ∧ resolve_worktree_key repository checkout = Ok (wl_key lease).
Proof.
  intros Hs (_ & claims & claims' & Hcl & Hcl' & Hclaim)%claim_worktree_inv.
  unfold leases_filed in Hs. rewrite Hcl in Hs.
  destruct (claim_spec _ _ _ _ _ _ _ _ _ _ Hclaim)
    as [(_ & -> & Hok)|(key & n & Hkey & _ & _ & _ & Heq & _ & ->)].
  - destruct (Hok lease eq_refl) as (k & rec & Hkey & Hrec & <- & Ho & Hr).
    pose proof (Hs k rec Hrec) as Hk. cbn in Hk. split_and!; try done; [|by rewrite Hk].
    exists claims. split; [done|]. apply is_current_spec. exists (cl_process_lock rec).
    rewrite Hk, Hrec. by destruct rec.
  - injection Heq as ->. split_and!; try done. eexists. split; [done|].
    apply is_current_spec. exists (lock_filename key). apply lookup_insert_eq.
Qed.

(** The leases are as before, the lease being one of them, or it is new, with
    its lock file, and the others are as before. *)
Definition only_granted (lease : WorktreeLease) (s s' : St) : Prop :=
  same_leases s s'
  ∨ ∃ claims, rt_claims s.1 = Some claims ∧ claims !! wl_key lease = None
      ∧ rt_claims s'.1 = Some (<[wl_key lease := mkClaimRecord lease (lock_filename (wl_key lease))]> claims)
      ∧ lock_filename (wl_key lease) ∉ w_locks s.2
      ∧ w_locks s'.2 = {[lock_filename (wl_key lease)]} ∪ w_locks s.2.

Lemma claim_worktree_only owner repository checkout request_id s s' lease :
  claim_worktree owner repository checkout request_id s = (s', Ok lease) → only_granted lease s s'.
Proof.
  intros (_ & claims & claims' & Hcl & Hcl' & Hclaim)%claim_worktree_inv.
  destruct (claim_spec _ _ _ _ _ _ _ _ _ _ Hclaim)
    as [(Hl & -> & _)|(key & n & _ & _ & Hnone & Hfree & Heq & Hl & ->)].
  - left. split; [congruence|done].
  - injection Heq as ->. right. exists claims. by split_and!.
Qed.

Lemma only_granted_same lease s t u : only_granted lease s t → same_leases t u → only_granted lease s u.
Proof.
  intros [Hs|(claims & ? & ? & Hc & ? & Hl)] Hu; [left; by etrans|right].
  destruct Hu as [Hu1 Hu2]. exists claims. rewrite Hu1, Hu2. by split_and!.
Qed.

(** The lease of a checkout that was resolved *)
Lemma resolved_checkout repository checkout key :
  resolve_worktree_key repository checkout = Ok key → canonicalize checkout = Some (wk_checkout_root key).
Proof.
  unfold resolve_worktree_key. intros Hk. inv_ok. subst. cbn [wk_checkout_root]. congruence.
Qed.

(** Giving back a lease that was just granted *)
Lemma claim_then_release owner repository checkout request_id s t u lease :
  leases_filed s → claim_worktree owner repository checkout request_id s = (t, Ok lease) →
  same_leases t u → no_new_lease owner request_id s (release_worktree lease u).1.
Proof.
  intros Hs (_ & claims & claims' & Hcl & Hcl' & Hclaim)%claim_worktree_inv [Hu Hlocks].
  unfold leases_filed in Hs. rewrite Hcl in Hs. unfold release_worktree, the_claims.
  destruct u as [rt w]. cbn [fst snd] in *. rewrite Hu, Hcl'. cbn [ok_or].
  destruct (release_claim _ _ _) as [[locks claims''] r] eqn:Hrel. cbn [fst].
  unfold release_claim in Hrel.
  destruct (claim_spec _ _ _ _ _ _ _ _ _ _ Hclaim)
    as [(Hl & Hc & Hok)|(key & n & _ & _ & Hnone & Hfree & Heq & Hl & Hc)]; subst claims'.
  - destruct (Hok lease eq_refl) as (k & rec & _ & Hrec & <- & Ho & Hr).
    pose proof (Hs k rec Hrec) as Hk. cbn in Hk. rewrite Hk, Hrec in Hrel.
    rewrite bool_decide_eq_true_2 in Hrel by done. injection Hrel as <- <- _.
    right. exists claims, k, rec. split_and!; try done. cbn. by rewrite Hlocks, Hl.
  - injection Heq as ->. cbn [wl_key] in Hrel. rewrite lookup_insert_eq in Hrel.
    cbn [cl_lease cl_process_lock] in Hrel. rewrite bool_decide_eq_true_2 in Hrel by done.
    injection Hrel as <- <- _. left. split; cbn.
    + rewrite Hcl. f_equal. by apply delete_insert_id.
    + rewrite Hlocks, Hl. set_solver.
Qed.

(** A step that gives the lease back when it fails *)
Lemma or_release_err {A} lease (m : RtM A) s s' e :
  (∀ t r, m s = (t, r) → same_leases s t) → or_release lease m s = (s', Err e) →
  ∃ u, same_leases s u ∧ s' = (release_worktree lease u).1.
Proof.
  intros Hm (t & Ht & ->)%rt_cleanup_err. exists t. split; [by eapply Hm|].
  by unfold rt_ignore.
Qed.

Lemma rt_lift_frame {A} (r : result MissionRuntimeError A) s t r' :
  rt_lift r s = (t, r') → same_leases s t.
Proof. intros [= <- _]. reflexivity. Qed.
Lemma rt_commit_leases id e s t r : rt_commit id e s = (t, r) → same_leases s t.
Proof. by intros [? _]%rt_commit_frame. Qed.

Lemma rt_mission_ownership rt rt' mission_id :
  rt_ownership rt' = rt_ownership rt → rt_mission rt' mission_id = rt_mission rt mission_id.
Proof. unfold rt_mission, owned_store. by intros ->. Qed.

Lemma rt_commit_err id e s s' err :
  rt_commit id e s = (s', Err err) → ∀ mission_id, rt_mission s'.1 mission_id = rt_mission s.1 mission_id.
Proof.
  unfold rt_commit. destruct s as [rt w].
  destruct (_ ← ensure_available rt; _) as [store|?] eqn:Hpre; [|by intros [= <- _]].
  apply bind_ok in Hpre as ([] & _ & Hpre). apply bind_ok in Hpre as ([] & _ & Hpre).
  apply ok_or_ok in Hpre.
  destruct (commit _ _ _ _ _) as [[d store'] r] eqn:Hc. intros [= <- Hr] mission_id.
  destruct r as [?|?]; [done|].
  assert (Hp : ms_projection store' = ms_projection store).
  { apply commit_inv in Hc as [(_ & -> & _)|(? & ? & _ & _ & _ & _ & _ & _ & Hw)]; [done|].
    unfold write_commit in Hw. destruct (append _ _ _ _ _) as [journal [hash|?]];
      [|by injection Hw as _ <- _].
    destruct (atomic_write_json_limited _ _ _ _ _) as [? [?|?]]; [done|by injection Hw as _ <- _]. }
  unfold rt_mission. cbn [fst rt_ownership]. rewrite Hpre. cbn. by rewrite Hp.
Qed.

Lemma release_worktree_missions lease s mission_id :
  rt_mission (release_worktree lease s).1.1 mission_id = rt_mission s.1 mission_id.
Proof.
  unfold release_worktree. destruct s as [rt w]. cbn [fst].
  destruct (the_claims rt) as [claims|e]; [|done].
  by destruct (release_claim _ _ _) as [[? ?] ?].
Qed.

(** What a failed start of a run leaves *)
Definition nothing_started (owner : LeaseOwner) (request_id : ClaimRequestId) (s s' : St) : Prop :=
  no_new_lease owner request_id s s'
  ∧ ∀ mission_id, rt_mission s'.1 mission_id = rt_mission s.1 mission_id.

Lemma nothing_started_refl owner request_id s : nothing_started owner request_id s s.
Proof. split; [by left|done]. Qed.

(** The second half of [start_run] and [continue_run]: a checked event is
    recorded under the lease, which a failure gives back. *)
Definition record_run (mission_id : string) (lease : WorktreeLease)
    (event : RtM PersistableMissionEvent) (id : string) : RtM StartRunOutcome :=
  event ← or_release lease event;
  _ ← or_release lease (rt_commit id event);
  mission ← committed_mission mission_id;
  mret (mkStartRunOutcome mission lease).

Lemma record_run_err mission_id lease r id owner repository checkout request_id s t s' e :
  leases_filed s → claim_worktree owner repository checkout request_id s = (t, Ok lease) →
  is_Some (rt_mission s.1 mission_id) →
  record_run mission_id lease (rt_lift r) id t = (s', Err e) →
  nothing_started owner request_id s s'.
Proof.
  intros Hs Hclaim Hsome Hrec. pose proof (claim_worktree_inv _ _ _ _ _ _ _ Hclaim) as [Hown _].
  assert (Hback : ∀ u, same_leases t u →
    (∀ mission_id, rt_mission u.1 mission_id = rt_mission s.1 mission_id) →
    nothing_started owner request_id s (release_worktree lease u).1).
  { intros u Hu Hm. split; [by eapply claim_then_release|]. intros i.
    by rewrite release_worktree_missions, Hm. }
  unfold record_run in Hrec. apply rt_bind_err in Hrec as [Hrec|(t1 & event & H1 & Hrec)].
  { apply rt_cleanup_err in Hrec as (u & Hu & ->). apply rt_lift_inv in Hu as [-> _].
    unfold rt_ignore. cbn [fst]. apply Hback; [done|]. intros i. by apply rt_mission_ownership. }
  apply rt_cleanup_ok, rt_lift_inv in H1 as [-> _].
  apply rt_bind_err in Hrec as [Hrec|(t2 & o & H2 & Hrec)].
  { apply rt_cleanup_err in Hrec as (u & Hu & ->). unfold rt_ignore. cbn [fst].
    apply Hback; [by eapply rt_commit_leases|]. intros i.
    rewrite (rt_commit_err _ _ _ _ _ Hu). by apply rt_mission_ownership. }
  apply rt_cleanup_ok in H2. exfalso.
  assert (is_Some (rt_mission t2.1 mission_id)) as [v Hv].
  { eapply rt_commit_keeps_mission; [done|]. by rewrite (rt_mission_ownership s.1 t.1). }
  apply rt_bind_err in Hrec as [Hrec|(? & ? & _ & ?)]; [|done].
  apply committed_mission_inv in Hrec as [-> Hrec]. by rewrite Hv in Hrec.
Qed.

Lemma start_run_record request s :
  start_run request s
  = (mission ← committed_mission (sr_mission_id request);
     _ ← rt_lift (reject_if (negb (bool_decide (mv_status mission = MissionStatus.Draft))
                             || bool_decide (is_Some (mv_run mission)))
                    MissionRuntimeError.RunAlreadyStarted);
     _ ← rt_lift (reject_if (bool_decide (mv_check_declarations mission = []))
                    MissionRuntimeError.ClosureMissing);
     repository ← rt_lift (ok_or (canonicalize (mv_repository_path mission))
                             MissionRuntimeError.RepositoryUnavailable);
     worktree ← rt_lift (ok_or (canonicalize (sr_worktree_path request))
                           MissionRuntimeError.RepositoryUnavailable);
     owner ← rt_lift (map_err MissionRuntimeError.WorktreeClaim
                        (LeaseOwner_new (sr_mission_id request) (sr_run_id request)));
     lease ← claim_worktree owner repository worktree (sr_request_id request);
     record_run (sr_mission_id request) lease
       (rt_lift (base_revision ← git_head_revision worktree;
                 map_err MissionRuntimeError.Store
                   (run_started_with_check_execution (sr_mission_id request) (sr_run_id request)
                      (sr_provider request) (sr_mode request) (to_string_lossy worktree) base_revision
                      (sr_execute_declared_checks request) (sr_execute_project_recipe request)
                      (sr_at_millis request))))
       (event_id "run-start" "mission-run-start-event-id-v1"
          [sr_mission_id request; sr_run_id request])) s.
Proof.
  unfold start_run, record_run, mbind, RtM_bind. cbv beta zeta.
  repeat match goal with
  | |- context [match ?m with (_, _) => _ end] =>
      lazymatch m with
      | context [match _ with _ => _ end] => fail
      | or_release _ _ _ => fail
      | _ => destruct m as [? [?|?]]; [|done]
      end
  end.
  match goal with |- context [git_head_revision ?w] => destruct (git_head_revision w) as [rev|err] end;
    [|done].
  done.
Qed.

Lemma continue_run_record request s :
  continue_run request s
  = (mission ← committed_mission (cr_mission_id request);
     _ ← rt_lift (reject_if (negb (continuable (mv_status mission)))
                    (MissionRuntimeError.Handoff MissionHandoffError.InvalidSourceState));
     _ ← rt_lift (reject_if (negb (mv_unresolved_attention_count mission =? 0)%N)
                    (MissionRuntimeError.Handoff MissionHandoffError.UnresolvedAttention));
     source ← rt_lift (ok_or (mv_run mission)
                         (MissionRuntimeError.Handoff MissionHandoffError.SourceRunMissing));
     _ ← rt_lift (reject_if (negb (bool_decide (mrv_run_id source = cr_source_run_id request)))
                    (MissionRuntimeError.Store MissionStoreError.RunMismatch));
     _ ← rt_lift (reject_if (bool_decide (mrv_provider source = cr_provider request))
                    (MissionRuntimeError.Handoff MissionHandoffError.SameProvider));
     repository ← rt_lift (ok_or (canonicalize (mv_repository_path mission))
                             MissionRuntimeError.RepositoryUnavailable);
     worktree ← rt_lift (ok_or (canonicalize (mrv_worktree_path source))
                           MissionRuntimeError.RepositoryUnavailable);
     owner ← rt_lift (map_err MissionRuntimeError.WorktreeClaim
                        (LeaseOwner_new (cr_mission_id request) (cr_run_id request)));
     lease ← claim_worktree owner repository worktree (cr_request_id request);
     record_run (cr_mission_id request) lease
       (rt_lift (map_err MissionRuntimeError.Store
          (run_continued (cr_mission_id request) (cr_source_run_id request) (cr_run_id request)
             (cr_provider request) (cr_mode request) (to_string_lossy worktree) (mrv_base_revision source)
             (mrv_execute_declared_checks source) (mrv_execute_project_recipe source)
             (cr_handoff_artifact_sha256 request) (cr_at_millis request))))
       (event_id "run-continue" "mission-run-continue-event-id-v1"
          [cr_mission_id request; cr_source_run_id request; cr_run_id request;
           cr_handoff_artifact_sha256 request])) s.
Proof. reflexivity. Qed.

Lemma LeaseOwner_new_ok mission_id run_id owner :
  map_err MissionRuntimeError.WorktreeClaim (LeaseOwner_new mission_id run_id) = Ok owner →
  owner = mkLeaseOwner mission_id run_id.
Proof. unfold LeaseOwner_new. by destruct (_ || _); intros [= <-]. Qed.

(** The guards before the claim change nothing. *)
Ltac guards H :=
  repeat match type of H with
  | (committed_mission _ ≫= _) _ = _ =>
      let E := fresh in apply rt_bind_err in H as [H|(? & ? & E & H)];
      [apply committed_mission_inv in H as [-> _]; apply nothing_started_refl|inv_rt]
  | (rt_lift _ ≫= _) _ = _ =>
      let E := fresh in apply rt_bind_err in H as [H|(? & ? & E & H)];
      [apply rt_lift_inv in H as [-> _]; apply nothing_started_refl|inv_rt]
  end.

Lemma start_run_err request s s' e :
  leases_filed s → start_run request s = (s', Err e) →
  nothing_started (mkLeaseOwner (sr_mission_id request) (sr_run_id request))
    (sr_request_id request) s s'.
Proof.
  intros Hs Hstart. rewrite start_run_record in Hstart. guards Hstart.
  match goal with H : LeaseOwner_new _ _ = Ok _ |- _ =>
    apply (map_err_ok MissionRuntimeError.WorktreeClaim), LeaseOwner_new_ok in H; subst end.
  apply rt_bind_err in Hstart as [Hstart|(t & lease & Hclaim & Hstart)].
  - apply claim_worktree_inv in Hstart as [Hown Hsame]. split; [by left|].
    intros i. by apply rt_mission_ownership.
  - eapply record_run_err; [done|done| |done]. by eexists.
Qed.

Lemma continue_run_err request s s' e :
  leases_filed s → continue_run request s = (s', Err e) →
  nothing_started (mkLeaseOwner (cr_mission_id request) (cr_run_id request))
    (cr_request_id request) s s'.
Proof.
  intros Hs Hstart. rewrite continue_run_record in Hstart. guards Hstart.
  match goal with H : LeaseOwner_new _ _ = Ok _ |- _ =>
    apply (map_err_ok MissionRuntimeError.WorktreeClaim), LeaseOwner_new_ok in H; subst end.
  apply rt_bind_err in Hstart as [Hstart|(t & lease & Hclaim & Hstart)].
  - apply claim_worktree_inv in Hstart as [Hown Hsame]. split; [by left|].
    intros i. by apply rt_mission_ownership.
  - eapply record_run_err; [done|done| |done]. by eexists.
Qed.

(** What a run that was recorded leaves: the mission the caller gets is the
    one of the store, with the event applied when it is new. *)
Lemma record_run_ok mission_id lease r id s s' o :
  record_run mission_id lease (rt_lift r) id s = (s', Ok o) →
  ∃ e, r = Ok e ∧ sro_lease o = lease ∧ same_leases s s'
    ∧ rt_mission s'.1 mission_id = Some (sro_mission o)
    ∧ ∀ store m, owned_store s.1 = Some store → missions (ms_projection store) !! mission_id = Some m →
        event_mission_id e = mission_id → ms_event_index store !! id = None →
        ∃ m', apply_mission m e = Ok m' ∧ sro_mission o = view_from_persisted mission_id m'.
Proof.
  intros Hrec. unfold record_run in Hrec. inv_rt. subst o.
  match goal with H : rt_commit _ _ _ = _ |- _ => rename H into Hc end.
  match goal with H : r = Ok ?e |- _ => exists e; split; [done|] end. cbn [sro_lease sro_mission].
  match goal with H : _ = s' |- _ => subst s' end.
  split; [done|]. split; [by eapply rt_commit_leases|]. split; [done|].
  intros store m Hown Hm He Hnew.
  destruct (rt_commit_mission _ _ _ _ _ _ _ _ Hc Hown Hm) as (store' & m' & Hown' & Hm' & Hcase).
  destruct Hcase as [[_ Hno]|(_ & _ & _ & Happ)]; [by destruct (Hno Hnew)|].
  exists m'. split; [done|].
  match goal with H : rt_mission _ _ = Some _ |- _ =>
    unfold rt_mission, mission_view in H; rewrite Hown' in H; cbn in H; rewrite Hm' in H;
    by injection H as <- end.
Qed.

(** C12: A run starts with its lease or not at all.  A failure at any point leaves
    every mission and the leases as they were, or gives back the lease that
    this very request had been granted before.  A success leaves the runtime
    holding a lease for exactly this mission and run, of the checkout that the
    canonical path of the request names, which it had already or which is new
    with its lock file, and every other lease as it was; when the event is
    new, the mission is being prepared by a run at the text of that path,
    which is the path itself when it is UTF-8, based on the revision Git gave
    for it. *)
Theorem start_run_all_or_nothing request s s' r
    (id := event_id "run-start" "mission-run-start-event-id-v1"
             [sr_mission_id request; sr_run_id request])
    (owner := mkLeaseOwner (sr_mission_id request) (sr_run_id request)) :
  leases_filed s → start_run request s = (s', r) →
  match r with
  | Err _ => nothing_started owner (sr_request_id request) s s'
  | Ok o =>
      holds_lease s' (sro_lease o) ∧ wl_owner (sro_lease o) = owner
      ∧ wl_request_id (sro_lease o) = sr_request_id request
      ∧ only_granted (sro_lease o) s s'
      ∧ rt_mission s'.1 (sr_mission_id request) = Some (sro_mission o)
      ∧ ∃ worktree, canonicalize (sr_worktree_path request) = Some worktree
          ∧ canonicalize worktree = Some (wk_checkout_root (wl_key (sro_lease o)))
          ∧ ∀ store, owned_store s.1 = Some store → ms_event_index store !! id = None →
              mv_status (sro_mission o) = MissionStatus.Preparing
              ∧ ∃ run, mv_run (sro_mission o) = Some run
                  ∧ mrv_run_id run = sr_run_id request
                  ∧ mrv_worktree_path run = to_string_lossy worktree
                  ∧ git_head worktree = Some (mrv_base_revision run)
  end.
Proof.
  intros Hs Hstart. destruct r as [o|e]; [|by eapply start_run_err].
  rewrite start_run_record in Hstart. inv_rt.
  match goal with H : LeaseOwner_new _ _ = Ok _ |- _ =>
    apply (map_err_ok MissionRuntimeError.WorktreeClaim), LeaseOwner_new_ok in H; subst end.
  match goal with H : claim_worktree _ _ _ _ _ = _ |- _ =>
    pose proof (claim_worktree_inv _ _ _ _ _ _ _ H) as [Hown _];
    pose proof (claim_worktree_only _ _ _ _ _ _ _ H) as Honly;
    destruct (claim_worktree_granted _ _ _ _ _ _ _ Hs H) as ((claims & Hcl & Hcur) & Ho & Hr & Hkey) end.
  apply record_run_ok in Hstart as (e & He & Hlease & Hsame & Hview & Hrun). subst.
  split_and!; try done; [exists claims; by rewrite (proj1 Hsame)|by eapply only_granted_same|].
  match goal with H : ok_or (canonicalize (sr_worktree_path _)) _ = Ok ?w |- _ =>
    apply ok_or_ok in H; exists w; split; [exact H|split; [by eapply resolved_checkout|]] end.
  intros store Hst Hnew.
  match goal with H : rt_mission s.1 _ = Some _ |- _ =>
    apply rt_mission_some in H as (store' & m & Hst' & Hm & ->) end.
  rewrite Hst in Hst'. injection Hst' as <-.
  apply bind_ok in He as (revision & Hrev & He). unfold git_head_revision in Hrev.
  apply ok_or_ok in Hrev. apply map_err_ok in He.
  unfold run_started_with_check_execution, validated in He.
  apply bind_ok in He as ([] & _ & He). apply Ok_inj in He. subst e.
  destruct (Hrun store m) as (m' & Happ & ->); try done; [unfold owned_store; by rewrite Hown|].
  cbn in Happ. handler_inv Happ. cbn. split; [done|].
  eexists. by split_and!.
Qed.

(** The same for a run that continues another one: the new run takes over
    the checkout, the revision and the checks of its source, which must be
    stopped, have no open attention and belong to another provider; the
    proofs and the evidence of the source are void. *)
Theorem continue_run_all_or_nothing request s s' r
    (id := event_id "run-continue" "mission-run-continue-event-id-v1"
             [cr_mission_id request; cr_source_run_id request; cr_run_id request;
              cr_handoff_artifact_sha256 request])
    (owner := mkLeaseOwner (cr_mission_id request) (cr_run_id request)) :
  leases_filed s → continue_run request s = (s', r) →
  match r with
  | Err _ => nothing_started owner (cr_request_id request) s s'
  | Ok o =>
      holds_lease s' (sro_lease o) ∧ wl_owner (sro_lease o) = owner
      ∧ rt_mission s'.1 (cr_mission_id request) = Some (sro_mission o)
      ∧ ∀ store, owned_store s.1 = Some store → ms_event_index store !! id = None →
          ∃ before source run,
            rt_mission s.1 (cr_mission_id request) = Some before
            ∧ continuable (mv_status before) = true ∧ mv_unresolved_attention_count before = 0%N
            ∧ mv_run before = Some source ∧ mrv_run_id source = cr_source_run_id request
            ∧ mrv_provider source ≠ cr_provider request
            ∧ mv_run (sro_mission o) = Some run ∧ mrv_run_id run = cr_run_id request
            ∧ mrv_worktree_path run = mrv_worktree_path source
            ∧ mrv_base_revision run = mrv_base_revision source
            ∧ mv_run_history (sro_mission o) = mv_run_history before ++ [source]
            ∧ mv_status (sro_mission o) = MissionStatus.Preparing
            ∧ mv_ready_receipt (sro_mission o) = None
            ∧ mv_latest_evidence_pack_digest (sro_mission o) = None
  end.
Proof.
  intros Hs Hstart. destruct r as [o|e]; [|by eapply continue_run_err].
  rewrite continue_run_record in Hstart. inv_rt.
  match goal with H : LeaseOwner_new _ _ = Ok _ |- _ =>
    apply (map_err_ok MissionRuntimeError.WorktreeClaim), LeaseOwner_new_ok in H; subst end.
  match goal with H : claim_worktree _ _ _ _ _ = _ |- _ =>
    pose proof (claim_worktree_inv _ _ _ _ _ _ _ H) as [Hown _];
    destruct (claim_worktree_granted _ _ _ _ _ _ _ Hs H) as ((claims & Hcl & Hcur) & Ho & Hr & _) end.
  apply record_run_ok in Hstart as (e & He & Hlease & [Hsame _] & Hview & Hrun). subst.
  split_and!; try done; [exists claims; by rewrite Hsame|].
  intros store Hst Hnew.
  match goal with H : rt_mission s.1 _ = Some ?v |- _ => pose proof H as Hbefore;
    apply rt_mission_some in H as (store' & m & Hst' & Hm & Hv) end.
  rewrite Hst in Hst'. injection Hst' as <-. apply map_err_ok in He.
  unfold run_continued, validated in He. apply bind_ok in He as ([] & _ & He). apply Ok_inj in He.
  subst e. destruct (Hrun store m) as (m' & Happ & ->); try done; [unfold owned_store; by rewrite Hown|].
  inv_ok. subst. cbn in Happ. handler_inv Happ.
  match goal with Hv : mv_run _ = Some _, Hrn : pm_run m = Some _ |- _ =>
    pose proof Hv as Hsource; cbn in Hsource; rewrite Hrn in Hsource; injection Hsource as <- end.
  eexists _, _, _. split; [exact Hbefore|]. split_and!; try done. cbn. by rewrite fmap_app.
Qed.

(** ** Finalising a pack *)

(** The mission after a step that did not seal it *)
Definition still (f : PersistedMission → Prop) (s : St) (mission_id : string) : Prop :=
  ∃ store m, owned_store s.1 = Some store ∧ missions (ms_projection store) !! mission_id = Some m ∧ f m.

(** Committing an event whose handler keeps a property of the mission *)
Lemma commit_still f id e s s' o mission_id :
  rt_commit id e s = (s', Ok o) → still f s mission_id →
  (∀ m m', f m → apply_mission m e = Ok m' → f m') → still f s' mission_id.
Proof.
  intros Hc (store & m & Hown & Hm & Hf) Hkeep.
  destruct (rt_commit_mission _ _ _ _ _ _ _ _ Hc Hown Hm) as (store' & m' & Hown' & Hm' & Hcase).
  exists store', m'. split_and!; try done. destruct Hcase as [[-> _]|(_ & _ & _ & Happ)]; eauto.
Qed.

(** A status and the receipts that go with it *)
Definition in_status (status : MissionStatus) (ready archived : option ProofReceipt)
    (m : PersistedMission) : Prop :=
  pm_status m = status ∧ pm_ready_receipt m = ready ∧ pm_archive_receipt m = archived.

Lemma rt_iter_still {A} f (g : A → RtM CommitOutcome) l s s' mission_id :
  (∀ x t t' o, g x t = (t', Ok o) → still f t mission_id → still f t' mission_id) →
  rt_iter g l s = (s', Ok tt) → still f s mission_id → still f s' mission_id.
Proof.
  intros Hg. revert s. induction l as [|x l IH]; intros s Hi Hs; cbn in Hi.
  - unfold mret, RtM_ret in Hi. by injection Hi as <-.
  - apply rt_bind_ok in Hi as (t & o & Hx & Hi). eauto.
Qed.

(** Evidence does not move the status. *)
Lemma evidence_keeps_status status ready archived m e m' :
  match e with Event.EvidencePackRecorded _ _ _ _ _ | Event.EvidenceChanged _ _ _ _ _ => True
             | _ => False end →
  in_status status ready archived m → apply_mission m e = Ok m' → in_status status ready archived m'.
Proof.
  unfold in_status. intros He (<- & <- & <-) Happ. destruct e; try (by destruct He);
    handler_inv Happ; done.
Qed.

Lemma record_pack_still status ready archived mission_id run_id digest pack at_millis s s' :
  record_pack mission_id run_id digest pack at_millis s = (s', Ok tt) →
  still (in_status status ready archived) s mission_id →
  still (in_status status ready archived) s' mission_id.
Proof.
  intros Hr Hs. unfold record_pack in Hr. apply rt_bind_ok in Hr as (t & o & Hc & Hi).
  eapply rt_iter_still; [|exact Hi|].
  - intros cs u u' o' Hu Hstill. eapply commit_still; [exact Hu|exact Hstill|].
    intros m m'. by apply evidence_keeps_status.
  - eapply commit_still; [exact Hc|exact Hs|]. intros m m'. by apply evidence_keeps_status.
Qed.

(** The frame of the steps of [finalize_evidence_pack] *)
Definition same_frame (s s' : St) : Prop := same_leases s s' ∧ same_packs s s'.
#[export] Instance same_frame_preorder : PreOrder same_frame.
Proof. split; [done|]. intros s t u [? ?] [? ?]. split; etransitivity; eassumption. Qed.

Lemma rt_commit_same_frame id e s s' r : rt_commit id e s = (s', r) → same_frame s s'.
Proof. apply rt_commit_frame. Qed.

Lemma rt_iter_frame {A} (g : A → RtM CommitOutcome) l s s' r :
  (∀ x t t' r, g x t = (t', r) → same_frame t t') → rt_iter g l s = (s', r) → same_frame s s'.
Proof.
  intros Hg. revert s. induction l as [|x l IH]; intros s Hi; cbn in Hi.
  - unfold mret, RtM_ret in Hi. by injection Hi as <-.
  - unfold mbind, RtM_bind in Hi. destruct (g x s) as [t [o|e]] eqn:Hx.
    + etransitivity; [by eapply Hg|by apply IH].
    + injection Hi as <- _. by eapply Hg.
Qed.

Lemma record_pack_frame mission_id run_id digest pack at_millis s s' r :
  record_pack mission_id run_id digest pack at_millis s = (s', r) → same_frame s s'.
Proof.
  intros Hr. unfold record_pack, mbind, RtM_bind in Hr. destruct (rt_commit _ _ s) as [t [o|e]] eqn:Hc.
  - etransitivity; [by eapply rt_commit_same_frame|]. eapply rt_iter_frame; [|exact Hr].
    intros x u u' r' Hu. exact (rt_commit_same_frame _ _ _ _ _ Hu).
  - injection Hr as <- _. by eapply rt_commit_same_frame.
Qed.

Lemma transition_run_inv mission_id status at_millis s s' v :
  transition_run mission_id status at_millis s = (s', Ok v) →
  ∃ id o, rt_commit id (Event.StatusChanged mission_id status at_millis) s = (s', Ok o).
Proof. intros Ht. unfold transition_run in Ht. inv_rt. eauto. Qed.

(** What sealed the mission: its receipt and, for an archive, the receipt of
    the earlier proof it agrees with *)
Definition sealed_with (before : MissionView) (proof : VerifiedProof) (m : PersistedMission) : Prop :=
  if bool_decide (mv_status before = MissionStatus.ReadyToClose) then
    pm_status m = MissionStatus.Archived
    ∧ pm_archive_receipt m = Some (receipt_from_verified proof)
    ∧ ∃ ready, mv_ready_receipt before = Some ready
        ∧ subject_digest proof = pr_subject_digest ready
        ∧ (pr_authority_sequence ready < vp_authority_sequence proof)%N
  else
    pm_status m = MissionStatus.ReadyToClose
    ∧ pm_ready_receipt m = Some (receipt_from_verified proof).

Definition final_status (before : MissionView) : MissionStatus :=
  if bool_decide (mv_status before = MissionStatus.ReadyToClose)
  then MissionStatus.Archived else MissionStatus.ReadyToClose.

(** The mission after the last step is sealed by this proof, or is not in the
    final status. *)
Definition sealed_or_not (before : MissionView) (proof : option VerifiedProof)
    (m : PersistedMission) : Prop :=
  pm_status m = final_status before → ∃ p, proof = Some p ∧ sealed_with before p m.

Lemma commit_ready_seals before digest proof at_millis ready archived s s' :
  mv_status before = MissionStatus.ReviewRequired →
  commit_ready before digest proof at_millis s = (s', Ok tt) →
  still (in_status (mv_status before) ready archived) s (mv_mission_id before) →
  still (sealed_or_not before (Some proof)) s' (mv_mission_id before).
Proof.
  intros Hst Hc (store & m & Hown & Hm & Hin). unfold commit_ready, mission_ready in Hc. cbn in Hc.
  rewrite bool_decide_eq_true_2 in Hc by done. cbn in Hc. inv_rt.
  match goal with H : rt_commit _ _ _ = _ |- _ =>
    destruct (rt_commit_mission _ _ _ _ _ _ _ _ H Hown Hm) as (store' & m' & Hown' & Hm' & Hcase) end.
  subst. exists store', m'. split_and!; try done. unfold sealed_or_not, final_status, sealed_with.
  rewrite Hst in *. rewrite !bool_decide_eq_false_2 by done. intros Hready.
  destruct Hcase as [[-> _]|(_ & _ & _ & Happ)].
  - destruct Hin as (Hs & _). congruence.
  - exists proof. split; [done|]. cbn in Happ. by handler_inv Happ.
Qed.

Lemma commit_archive_seals before digest proof at_millis ready archived s s' :
  mv_status before = MissionStatus.ReadyToClose →
  commit_archive before digest proof at_millis s = (s', Ok tt) →
  still (in_status (mv_status before) ready archived) s (mv_mission_id before) →
  still (sealed_or_not before (Some proof)) s' (mv_mission_id before).
Proof.
  intros Hst Hc (store & m & Hown & Hm & Hin). unfold commit_archive, mission_archived in Hc. cbn in Hc.
  rewrite bool_decide_eq_true_2 in Hc by done. cbn in Hc. inv_rt_step. inv_rt_step.
  destruct (_ || _ || _) eqn:Hcheck in Hc; [inv_rt; discriminate|]. inv_rt.
  match goal with H : rt_commit _ _ _ = _ |- _ =>
    destruct (rt_commit_mission _ _ _ _ _ _ _ _ H Hown Hm) as (store' & m' & Hown' & Hm' & Hcase) end.
  subst. exists store', m'. split_and!; try done. unfold sealed_or_not, final_status, sealed_with.
  rewrite Hst in *. rewrite !bool_decide_eq_true_2 by done. intros Harch.
  destruct Hcase as [[-> _]|(_ & _ & _ & Happ)].
  - destruct Hin as (Hs & _). congruence.
  - exists proof. split; [done|]. cbn in Happ. inv_ok.
    match goal with H : mv_ready_receipt before = Some ?rr |- _ => rename H into Hrr end.
    handler_inv Happ. cbn. split_and!; try done. eexists. split_and!; [exact Hrr|done|done].
Qed.

(** [evaluate_pack] at a state whose lease is current *)
Lemma evaluate_pack_ok rt mission pack identity lease at_millis report :
  evaluate_pack rt mission pack identity lease at_millis = Ok report →
  ∃ plan ids authority,
    closure_plan_of mission (mv_check_declarations mission) = Ok plan
    ∧ rt_unresolved_attention_ids rt (mv_mission_id mission) = Ok ids
    ∧ as_lease_digest authority = lease_authority_digest lease
    ∧ evaluate identity plan (mv_check_declarations mission) (ep_records pack)
        (ep_current_workspace pack) ids authority = Ok report.
Proof.
  intros Hev. unfold evaluate_pack in Hev.
  apply bind_ok in Hev as (plan & Hplan & Hev). apply bind_ok in Hev as (ids & Hids & Hev).
  apply bind_ok in Hev as (authority & Hauth & Hev). apply map_err_ok in Hev.
  exists plan, ids, authority. split_and!; try done.
  unfold capture_authority in Hauth. apply bind_ok in Hauth as (st & _ & Hauth).
  apply bind_ok in Hauth as ([] & _ & Hauth). apply bind_ok in Hauth as ([] & _ & Hauth).
  by injection Hauth as <-.
Qed.

Lemma verified_lease identity plan ds records current ids authority report proof :
  evaluate identity plan ds records current ids authority = Ok report →
  rep_verified report = Some proof → vp_lease_digest proof = as_lease_digest authority.
Proof.
  intros Hev Hp. unfold evaluate in Hev. cbv zeta in Hev.
  apply bind_ok in Hev as ([] & _ & Hev). apply bind_ok in Hev as ([] & _ & Hev).
  apply Ok_inj in Hev. subst report. cbn in Hp. destruct (_ && _) in Hp; [|done]. by injection Hp as <-.
Qed.

Lemma commit_ready_frame before digest proof at_millis s s' r :
  commit_ready before digest proof at_millis s = (s', r) → same_frame s s'.
Proof.
  unfold commit_ready, mbind, RtM_bind, rt_lift. destruct (map_err _ _) as [e|err]; [|by intros [= <- _]].
  destruct (rt_commit _ _ s) as [t [o|err]] eqn:Hc; intros [= <- _]; by eapply rt_commit_same_frame.
Qed.

Lemma transition_run_frame mission_id status at_millis s s' r :
  transition_run mission_id status at_millis s = (s', r) → same_frame s s'.
Proof.
  unfold transition_run, mbind, RtM_bind. destruct (rt_commit _ _ s) as [t [o|err]] eqn:Hc.
  - intros [-> _]%committed_mission_inv. by eapply rt_commit_same_frame.
  - intros [= <- _]. by eapply rt_commit_same_frame.
Qed.

Lemma commit_archive_frame before digest proof at_millis s s' r :
  commit_archive before digest proof at_millis s = (s', r) → same_frame s s'.
Proof.
  unfold commit_archive. intros Hc. unfold mbind at 1, RtM_bind at 1, rt_lift at 1 in Hc.
  destruct (ok_or _ _) as [ready|e]; [|by injection Hc as <- _].
  destruct (_ || _ || _) in Hc; unfold mbind, RtM_bind, rt_lift in Hc.
  - destruct (transition_run _ _ _ s) as [t [v|e]] eqn:Ht; injection Hc as <- _;
      by eapply transition_run_frame.
  - destruct (map_err _ _) as [e|err]; [|by injection Hc as <- _].
    destruct (rt_commit _ _ s) as [t [o|err]] eqn:Ht; injection Hc as <- _;
      by eapply rt_commit_same_frame.
Qed.

Lemma persist_pack_ok pack s s' digest :
  persist_pack pack s = (s', Ok digest) →
  s'.1 = s.1 ∧ w_disk s'.2 = w_disk s.2 ∧ w_locks s'.2 = w_locks s.2 ∧ rt_evidence_packs s.1 = true
  ∧ pack_persist (w_pack_write s.2) (w_packs s.2) pack = (w_packs s'.2, Ok digest).
Proof.
  unfold persist_pack. destruct s as [rt w]. cbn. destruct (rt_evidence_packs rt); [|done].
  destruct (pack_persist _ _ _) as [packs r]. intros Heq. injection Heq as <- Hr.
  apply map_err_ok in Hr. by subst.
Qed.

(** The guards of [finalize_evidence_pack] *)
Lemma reviewable_ok rt pack lease at_millis before run identity :
  reviewable rt pack lease at_millis = Ok (before, run, identity) →
  rt_mission rt (ep_mission_id pack) = Some before ∧ mv_run before = Some run
  ∧ (mv_status before = MissionStatus.ReviewRequired ∨ mv_status before = MissionStatus.ReadyToClose)
  ∧ ProofIdentity_new (mv_mission_id before) (mrv_run_id run) (mv_repository_path before)
      (mrv_worktree_path run) (mrv_base_revision run) = Ok identity
  ∧ ep_identity pack = identity ∧ ep_run_id pack = mrv_run_id run
  ∧ (ep_created_at_millis pack ≤ at_millis)%N
  ∧ ∃ claims root, rt_claims rt = Some claims ∧ is_current claims lease = true
      ∧ canonicalize (mrv_worktree_path run) = Some root
      ∧ matches_scope lease (mv_mission_id before) (mrv_run_id run) root = true.
Proof.
  intros Hr. unfold reviewable in Hr.
  apply bind_ok in Hr as ([] & _ & Hr). apply bind_ok in Hr as (b & Hb & Hr).
  apply bind_ok in Hr as ([] & Hst & Hr). apply bind_ok in Hr as (rn & Hrun & Hr).
  apply bind_ok in Hr as (idn & Hid & Hr). apply bind_ok in Hr as ([] & Hscope & Hr).
  apply bind_ok in Hr as ([] & Hlease & Hr). injection Hr as -> -> ->.
  apply ok_or_ok in Hb, Hrun. apply map_err_ok in Hid.
  unfold check_lease in Hlease. apply bind_ok in Hlease as (claims & Hcl & Hlease).
  apply ok_or_ok in Hcl. apply bind_ok in Hlease as ([] & Hcur & Hlease).
  apply bind_ok in Hlease as (root & Hroot & Hlease). apply ok_or_ok in Hroot.
  apply reject_if_ok, negb_false_iff in Hcur, Hlease. apply reject_if_ok in Hst, Hscope.
  apply orb_false_iff in Hscope as [[Hrid Hident]%orb_false_iff Hat].
  apply negb_false_iff, orb_true_iff in Hst. apply N.ltb_ge in Hat.
  apply negb_false_iff, bool_decide_eq_true in Hrid, Hident.
  split_and!; try done; [|by exists claims, root].
  by destruct Hst as [?%bool_decide_eq_true|?%bool_decide_eq_true]; [left|right].
Qed.

(** The steps of [finalize_evidence_pack] after its guards *)
Lemma finalize_inv pack lease at_millis s s' o :
  finalize_evidence_pack pack lease at_millis s = (s', Ok o) →
  ∃ before run identity t1 t2 report,
    reviewable s.1 pack lease at_millis = Ok (before, run, identity)
    ∧ persist_pack pack s = (t1, Ok (feo_pack_digest o))
    ∧ record_pack (mv_mission_id before) (mrv_run_id run) (feo_pack_digest o) pack at_millis t1
      = (t2, Ok tt)
    ∧ evaluate_pack t2.1 before pack identity lease at_millis = Ok report
    ∧ rt_mission s'.1 (mv_mission_id before) = Some (feo_mission o)
    ∧ feo_verified o = bool_decide (mv_status (feo_mission o) = final_status before)
    ∧ match rep_verified report with
      | Some verified =>
          if bool_decide (mv_status before = MissionStatus.ReadyToClose)
          then commit_archive before (feo_pack_digest o) verified at_millis t2 = (s', Ok tt)
          else commit_ready before (feo_pack_digest o) verified at_millis t2 = (s', Ok tt)
      | None =>
          if bool_decide (mv_status before = MissionStatus.ReadyToClose)
          then ∃ v, transition_run (mv_mission_id before) MissionStatus.Blocked at_millis t2 = (s', Ok v)
          else s' = t2
      end.
Proof.
  intros Hf. unfold finalize_evidence_pack in Hf.
  inv_rt_step. apply rt_gets_inv in H as [-> Hscope]. apply Ok_inj in Hscope. subst x0.
  inv_rt_step. apply rt_lift_inv in H as [-> Hscope]. symmetry in Hscope.
  destruct x0 as [[before run] identity]. cbv beta iota zeta in Hf.
  apply rt_bind_ok in Hf as (t1 & digest & Hp & Hf). apply rt_bind_ok in Hf as (t2 & [] & Hr & Hf).
  inv_rt_step. apply rt_gets_inv in H as [-> Hrep]. apply Ok_inj in Hrep. subst x0.
  inv_rt_step. apply rt_lift_inv in H as [-> Hrep]. symmetry in Hrep.
  apply rt_bind_ok in Hf as (t3 & [] & Hseal & Hf).
  apply rt_bind_ok in Hf as (t4 & after & Hafter & Hf).
  apply committed_mission_inv in Hafter as [-> Hafter]. symmetry in Hafter. apply ok_or_ok in Hafter.
  unfold mret, RtM_ret in Hf. injection Hf as -> <-. cbn [feo_mission feo_pack_digest feo_verified].
  exists before, run, identity, t1, t2, x0. split_and!; try done.
  unfold into_verified in Hseal. destruct (rep_verified x0) as [proof|]; cbn [ok_or] in Hseal.
  - by destruct (bool_decide _).
  - destruct (bool_decide _); [|by injection Hseal as <-].
    apply rt_bind_ok in Hseal as (t & v & Ht & Hm). injection Hm as <-. by exists v.
Qed.

(** The seal of a mission, whatever the last step of [finalize_evidence_pack] was *)
Lemma finalize_seals before digest report at_millis s s' ready archived :
  (mv_status before = MissionStatus.ReviewRequired ∨ mv_status before = MissionStatus.ReadyToClose) →
  still (in_status (mv_status before) ready archived) s (mv_mission_id before) →
  match rep_verified report with
  | Some verified =>
      if bool_decide (mv_status before = MissionStatus.ReadyToClose)
      then commit_archive before digest verified at_millis s = (s', Ok tt)
      else commit_ready before digest verified at_millis s = (s', Ok tt)
  | None =>
      if bool_decide (mv_status before = MissionStatus.ReadyToClose)
      then ∃ v, transition_run (mv_mission_id before) MissionStatus.Blocked at_millis s = (s', Ok v)
      else s' = s
  end →
  same_frame s s' ∧ still (sealed_or_not before (rep_verified report)) s' (mv_mission_id before).
Proof.
  intros Hst Hstill Hstep.
  destruct (rep_verified report) as [proof|], (bool_decide_reflect (mv_status before = MissionStatus.ReadyToClose))
    as [Hready|Hno].
  - split; [by eapply commit_archive_frame|by eapply commit_archive_seals].
  - split; [by eapply commit_ready_frame|]. eapply commit_ready_seals; [by destruct Hst|done..].
  - destruct Hstep as [v Ht]. split; [by eapply transition_run_frame|].
    apply transition_run_inv in Ht as (id & o & Hc). destruct Hstill as (store & m & Hown & Hm & Hin).
    destruct (rt_commit_mission _ _ _ _ _ _ _ _ Hc Hown Hm) as (store' & m' & Hown' & Hm' & Hcase).
    exists store', m'. split_and!; try done. intros Harch. unfold final_status in Harch.
    rewrite bool_decide_eq_true_2 in Harch by done. exfalso.
    destruct Hcase as [[-> _]|(_ & _ & _ & Happ)].
    + destruct Hin as [Hs _]. congruence.
    + cbn in Happ. handler_inv Happ. done.
  - subst s'. split; [done|]. destruct Hstill as (store & m & Hown & Hm & Hin).
    exists store, m. split_and!; try done. unfold sealed_or_not, final_status.
    rewrite bool_decide_eq_false_2 by done. destruct Hin as [-> _]. done.
Qed.

(** C4: What finalising a pack guarantees.  Whenever it succeeds, the pack can be
    loaded by the digest it returns and the runtime still holds the lease on
    the checkout of the run.  When it reports a verified mission, the pack is
    of the mission's run and the evaluator's conditions held for it: every
    criterion is covered by required checks, each with evidence assessed as
    passed in the pack's workspace, and no attention item was unresolved.
    The mission is sealed with the receipt of that very proof, made under
    this lease; an archive also agrees with the subject of the receipt that
    made the mission ready, at a later point of the journal. *)
Theorem finalize_seals_verified `{!Sha256Spec} `{!PackJsonSpec} pack lease at_millis s s' o :
  finalize_evidence_pack pack lease at_millis s = (s', Ok o) →
  load_evidence_pack s'.1 s'.2 (feo_pack_digest o) = Ok pack
  ∧ holds_lease s' lease
  ∧ (feo_verified o = true →
     ∃ before run plan proof m root,
       rt_mission s.1 (ep_mission_id pack) = Some before ∧ mv_run before = Some run
       ∧ ProofIdentity_new (mv_mission_id before) (mrv_run_id run) (mv_repository_path before)
           (mrv_worktree_path run) (mrv_base_revision run) = Ok (ep_identity pack)
       ∧ canonicalize (mrv_worktree_path run) = Some root
       ∧ matches_scope lease (mv_mission_id before) (mrv_run_id run) root = true
       ∧ closure_plan_of before (mv_check_declarations before) = Ok plan
       ∧ closable (ep_identity pack) (ep_records pack) (ep_current_workspace pack) plan
           (mv_check_declarations before) ∅
       ∧ vp_lease_digest proof = lease_authority_digest lease
       ∧ matches_identity proof (ep_identity pack) = true
       ∧ subject_digest proof = proof_subject_digest (ep_identity pack) (ep_current_workspace pack) plan
       ∧ feo_mission o = view_from_persisted (ep_mission_id pack) m
       ∧ sealed_with before proof m).
Proof.
  intros (before & run & identity & t1 & t2 & report & Hrev & Hpersist & Hrecord & Heval & Hafter
    & Hver & Hseal)%finalize_inv.
  apply reviewable_ok in Hrev as (Hbefore & Hrun & Hst & Hid & Hident & _ & _ & claims & root & Hcl
    & Hcur & Hroot & Hscope). subst identity.
  apply persist_pack_ok in Hpersist as (Hrt & _ & _ & Hpacks & Hpersist).
  apply rt_mission_some in Hbefore as (store & m & Hown & Hm & Hview). pose proof Hview as Hb.
  assert (Hmid : mv_mission_id before = ep_mission_id pack) by (by rewrite Hb).
  assert (Hstill : still (in_status (mv_status before) (pm_ready_receipt m) (pm_archive_receipt m))
                     t1 (mv_mission_id before)).
  { exists store, m. rewrite Hrt, Hmid. split_and!; try done. by rewrite Hb. }
  pose proof (record_pack_still _ _ _ _ _ _ _ _ _ _ Hrecord Hstill) as Hstill2.
  destruct (finalize_seals _ _ _ _ _ _ _ _ Hst Hstill2 Hseal) as [Hframe Hsealed].
  pose proof (record_pack_frame _ _ _ _ _ _ _ _ Hrecord) as Hframe1.
  destruct (transitivity Hframe1 Hframe) as [[Hclaims _] [Hep Hpk]]. rewrite Hrt in *.
  split; [|split].
  - unfold load_evidence_pack. rewrite Hep, Hpacks, Hpk.
    by rewrite (pack_load_persisted _ _ _ _ _ _ Hpersist (reflexivity _)).
  - exists claims. by rewrite Hclaims.
  - intros Hverified. rewrite Hver in Hverified. apply bool_decide_eq_true in Hverified.
    destruct Hsealed as (store' & m' & Hown' & Hm' & Hsealed).
    assert (Hm'' : feo_mission o = view_from_persisted (ep_mission_id pack) m').
    { rewrite <- Hmid. unfold rt_mission, mission_view in Hafter. rewrite Hown' in Hafter.
      cbn in Hafter. rewrite Hm' in Hafter. by injection Hafter. }
    rewrite Hm'' in Hverified. destruct (Hsealed Hverified) as (proof & Hproof & Hseal').
    apply evaluate_pack_ok in Heval as (plan & ids & authority & Hplan & Hids & Hlease & Hevaluate).
    destruct (evaluate_verified _ _ _ _ _ _ _ _ Hevaluate) as (Hclosable & _ & Hproofs).
    destruct (Hproofs proof Hproof) as (_ & Hsubject & Hmatch & _ & _).
    assert (Hclos : closable (ep_identity pack) (ep_records pack) (ep_current_workspace pack) plan
                      (mv_check_declarations before) ids) by (apply Hclosable; by eexists).
    assert (ids = ∅) as -> by apply Hclos.
    exists before, run, plan, proof, m', root. split_and!; try done.
    + apply rt_mission_some. eauto.
    + rewrite <- Hlease. by eapply verified_lease.
Qed.
End facts.

(** ** A concrete runtime *)

Module RuntimeDemo.
#[local] Existing Instances mixing_sha256 mixing_sha256_spec ClaimsDemo.host PackDemo.base64.
Import ProjectionDemo StoreDemo.

(** Texts of the right length; the theorems about the runtime do not read
    them back. *)
#[local] Instance texts : SerdeJson := {|
  event_to_vec _ := Some (xs 1);
  record_to_vec _ := Some (xs 1);
  record_from_slice _ := None;
  state_to_vec _ _ := Some (xs 1);
  head_to_vec_pretty _ := Some (xs 1);
  head_from_slice _ := None;
  snapshot_to_vec_pretty _ := None;
  snapshot_from_slice _ := None;
  anchor_from_slice _ := None |}.

Definition identity : ProofIdentity := mkProofIdentity "m" "r1" "/repo" "/tree" base.
Definition review : CheckDeclaration := covers EvidenceDemo.review (criterion_ids ["works"]).
Definition reviewed_evidence : ManualEvidence :=
  match ManualEvidence_new review identity EvidenceDemo.after "ana" 9 "works" false with
  | Ok e => e
  | Err _ => mkManualEvidence "" "" "" "" "" 0 "" false
  end.
Definition pack : EvidencePack :=
  mkEvidencePack PACK_VERSION "m" "r1" identity EvidenceDemo.after
    {["review" := EvidenceRecord.Manual reviewed_evidence]}
    {["review" := EvidenceStatus.Passed]} ∅ 10.

#[local] Instance pack_json : PackJson := {|
  pack_to_vec p := if decide (p = pack) then Some (str_bytes "{pack}") else None;
  pack_from_slice b := if decide (b = str_bytes "{pack}") then Some pack else None |}.
#[local] Instance pack_json_spec : PackJsonSpec.
Proof.
  intros p b Hb. cbn in *. destruct (decide (p = pack)) as [->|]; [|discriminate Hb].
  injection Hb as <-. by rewrite decide_True.
Defined.

Definition key := mkWorktreeKey "/repo/.git" "/tree".
Definition request := mkClaimRequestId "q".
Definition lease := mkWorktreeLease key (mkLeaseOwner "m" "r1") request (ClaimsDemo.nonce "a").
Definition claims : WorktreeClaimRegistry := {[key := mkClaimRecord lease (lock_filename key)]}.

Definition runtime (store : MissionStore) (claims : WorktreeClaimRegistry) : MissionRuntime :=
  mkMissionRuntime (Ownership.Owned store) (Some claims) true.
Definition world : World :=
  mkWorld held_disk ∅ ∅ [] WriteOutcome.Written [ClaimsDemo.nonce "b"].
Definition store_of (p : MissionProjection) : MissionStore :=
  mkMissionStore (mkJournalHead STORE_VERSION 3 RecordHash_ZERO) ∅ p false.

Definition create : CreateMission := mkCreateMission "m" "Title" "/repo" "Objective" ["works"] 1.
Definition configure : ConfigureMission := mkConfigureMission "m" checks 2.
Definition start : StartRun :=
  mkStartRun "m" "r1" ProviderKind.Codex ProviderMode.Managed "/tree" request true false 3.
Definition continued : ContinueRun :=
  mkContinueRun "m" "r1" "r2" ProviderKind.ClaudeCode ProviderMode.Managed
    (mkClaimRequestId "q2") hex64 20.
End RuntimeDemo.

Section RuntimeWitnesses.
#[local] Existing Instances mixing_sha256 mixing_sha256_spec ClaimsDemo.host PackDemo.base64
  RuntimeDemo.texts RuntimeDemo.pack_json RuntimeDemo.pack_json_spec.
Import RuntimeDemo.

(** Evaluate a handler and keep what a test of its result says. *)
Lemma rt_run {A} (m : RtM A) s (test : A → bool) :
  match (m s).2 with Ok a => test a | Err _ => false end = true →
  ∃ s' a, m s = (s', Ok a) ∧ test a = true.
Proof. destruct (m s) as [s' [a|e]]; [|done]. cbn. by exists s', a. Qed.

Lemma create_mission_once_witness :
  ∃ s s' o, create_mission create s = (s', Ok o) ∧ cmo_created o = true
    ∧ create_mission create s' = (s', Ok (mkCreateMissionOutcome (cmo_mission o) false)).
Proof.
  destruct (rt_run (create_mission create)
              (runtime (store_of (ProjectionDemo.after [])) ∅, world) cmo_created)
    as (s' & o & Hc & Hcreated); [vm_compute; reflexivity|].
  eexists _, s', o. split; [exact Hc|split; [exact Hcreated|]].
  exact (proj1 (create_mission_once _ _ _ _ Hc)).
Defined.

Lemma configure_mission_once_witness :
  ∃ s s' o, configure_mission configure s = (s', Ok o) ∧ cfo_configured o = true
    ∧ configure_mission configure s' = (s', Ok (mkConfigureMissionOutcome (cfo_mission o) false)).
Proof.
  destruct (rt_run (configure_mission configure)
              (runtime (store_of (ProjectionDemo.after (take 1 ProjectionDemo.drafted))) ∅, world)
              (λ o, cfo_configured o && negb (bool_decide (mv_check_declarations (cfo_mission o) = []))))
    as (s' & o & Hc & Hk); [vm_compute; reflexivity|].
  apply andb_true_iff in Hk as [Hconf Hne%negb_true_iff%bool_decide_eq_false].
  eexists _, s', o. split; [exact Hc|split; [exact Hconf|]].
  exact (proj1 (configure_mission_once _ _ _ _ Hc Hne) configure eq_refl (reflexivity _)).
Defined.

Lemma start_run_all_or_nothing_witness :
  ∃ s s' o run, start_run start s = (s', Ok o) ∧ holds_lease s' (sro_lease o)
    ∧ mv_run (sro_mission o) = Some run ∧ mrv_worktree_path run = "/tree".
Proof.
  set (store := store_of (ProjectionDemo.after ProjectionDemo.drafted)).
  destruct (rt_run (start_run start) (runtime store ∅, world) (λ _, true)) as (s' & o & Hs & _);
    [vm_compute; reflexivity|].
  assert (Hf : leases_filed (runtime store ∅, world)) by (intros k r Hk; discriminate Hk).
  destruct (start_run_all_or_nothing start _ s' (Ok o) Hf Hs)
    as (Hheld & _ & _ & _ & _ & worktree & Hcan & _ & Hnew).
  destruct (Hnew store eq_refl eq_refl) as (_ & run & Hrun & _ & Hpath & _).
  injection Hcan as <-. eexists _, s', o, run. split; [exact Hs|].
  split; [exact Hheld|]. split; [exact Hrun|exact Hpath].
Defined.

Lemma continue_run_all_or_nothing_witness :
  ∃ s s' o run, continue_run continued s = (s', Ok o) ∧ holds_lease s' (sro_lease o)
    ∧ mv_run (sro_mission o) = Some run ∧ mrv_run_id run = "r2".
Proof.
  destruct (rt_run (continue_run continued) (runtime StoreDemo.reviewing ∅, world) (λ _, true))
    as (s' & o & Hs & _); [vm_compute; reflexivity|].
  assert (Hf : leases_filed (runtime StoreDemo.reviewing ∅, world)) by (intros k r Hk; discriminate Hk).
  destruct (continue_run_all_or_nothing continued _ s' (Ok o) Hf Hs) as (Hheld & _ & _ & Hnew).
  destruct (Hnew StoreDemo.reviewing eq_refl eq_refl)
    as (_ & _ & run & _ & _ & _ & _ & _ & _ & Hrun & Hid & _).
  eexists _, s', o, run. split; [exact Hs|]. split; [exact Hheld|]. split; [exact Hrun|exact Hid].
Defined.

Lemma finalize_seals_verified_witness :
  ∃ s s' o before proof m, finalize_evidence_pack pack lease 20 s = (s', Ok o)
    ∧ holds_lease s' lease ∧ sealed_with before proof m
    ∧ vp_lease_digest proof = lease_authority_digest lease.
Proof.
  destruct (rt_run (finalize_evidence_pack pack lease 20)
              (runtime StoreDemo.reviewing claims, world) feo_verified)
    as (s' & o & Hf & Hv); [vm_compute; reflexivity|].
  destruct (finalize_seals_verified _ _ _ _ _ _ Hf) as (_ & Hheld & Hsealed).
  destruct (Hsealed Hv) as (before & run & plan & proof & m & root & _ & _ & _ & _ & _ & _ & _ & Hl
    & _ & _ & _ & Hs).
  eexists _, s', o, before, proof, m. split; [exact Hf|]. split; [exact Hheld|].
  split; [exact Hs|exact Hl].
Defined.
End RuntimeWitnesses.
