(* ===== verification/Processes.v ===== *)
(** * The processes that share a session directory

    Several servers may run against one session directory during a live
    handoff: one owns the mission store, another observes it and takes it
    over.  They also share the lock files of the worktree claims.  Every
    handler of [Runtime.v] is a sequence of a few effects on the runtime and
    the world; a system of processes takes steps by these handlers, by the
    start of a process and by its end.  The system never has two writers, the
    directory always recovers, the writer's memory is the history of its
    journal, and the claims behave as those of [Claims.v]. *)

From S2P Require Export Runtime.

(** ** Opening a directory whatever its writes do *)

Section opening.
Context {HSha : Sha256} {HShaSpec : Sha256Spec} `{HJsonSpec : SerdeJsonSpec}.

(** What a directory looks like to its processes: the store of the writer, or
    the lock is free and the directory recovers *)
Definition disk_inv (d : Disk) (writer : option MissionStore) : Prop :=
  match writer with
  | Some s => dk_writer_lock d = true ∧ run_ok d s
  | None => dk_writer_lock d = false ∧ ∃ frs, disk_ok d frs
  end.

(** A process opens the store: it gets it if no other process has it. *)
Lemma open_any io d writer d' r :
  disk_inv d writer → open io d = (d', r) →
  match writer, r with
  | Some s, Err _ => disk_inv d' (Some s)
  | Some _, Ok _ => False
  | None, Ok s => disk_inv d' (Some s)
  | None, Err _ => disk_inv d' None
  end.
Proof.
  intros Hd Hopen. destruct writer as [s|].
  - destruct Hd as (Hlock & frs & Hok & Hmem & Hs). unfold open in Hopen. cbv zeta in Hopen.
    set (d0 := d <| dk_journal := _ |>) in *. change (dk_writer_lock d0) with (dk_writer_lock d) in Hopen.
    rewrite Hlock in Hopen. injection Hopen as <- <-.
    split; [done|]. exists frs. split; [exact Hok|]. split; [exact Hmem|]. intros Hp.
    destruct (Hs Hp) as (H1 & H2 & H3 & H4 & H5 & file & Hf & Hj).
    do 5 (split; [done|]). exists file. cbn. by rewrite Hf.
  - destruct Hd as (Hlock & frs & Hok). pose proof (open_free io d frs Hok Hlock) as Hfree.
    rewrite Hopen in Hfree. destruct r as [s|e]; destruct Hfree as [Hok' Hr].
    + destruct Hr as [Hlock' Hs]. split; [done|]. eapply store_ok_run_ok; [exact Hs|apply Hok'].
    + split; [done|]. by exists frs.
Qed.

Lemma reacquire_any io fence d writer d' r :
  disk_inv d writer → reacquire io fence d = (d', r) →
  match writer, r with
  | Some s, Err _ => disk_inv d' (Some s)
  | Some _, Ok _ => False
  | None, Ok s => disk_inv d' (Some s) ∧ handoff_fence s = fence
  | None, Err _ => disk_inv d' None
  end.
Proof.
  intros Hd Hre. unfold reacquire in Hre. destruct (open io d) as [d1 [s|e]] eqn:Ho;
    pose proof (open_any io d writer _ _ Hd Ho) as Hany.
  - destruct writer as [?|]; [done|]. destruct (bool_decide_reflect (handoff_fence s = fence));
      cbn in Hre; injection Hre as <- <-; [by split|].
    destruct Hany as (_ & frs & Hok & _). split; [done|]. by exists frs.
  - injection Hre as <- <-. by destruct writer.
Qed.

Lemma commit_lock io d s id e d' s' r :
  commit io d s id e = (d', s', r) → dk_writer_lock d' = dk_writer_lock d.
Proof.
  intros Hc. apply commit_inv in Hc as [(-> & _)|(? & plan & _ & _ & _ & _ & _ & _ & Hw)]; [done|].
  unfold write_commit in Hw. destruct (append _ _ _ _ _) as [journal [hash|err]];
    [|by injection Hw as <- _ _].
  destruct (atomic_write_json_limited _ _ _ _ _) as [head [?|?]]; by injection Hw as <- _ _.
Qed.
End opening.

(** ** Effects *)

Section effects.
Context {HSha : Sha256} `{HJson : SerdeJson} `{HBase64 : Base64} `{HPack : PackJson} `{HHost : GitHost}.

(** What a handler of the runtime is made of *)
Inductive effect : St → St → Prop :=
| effect_commit id e s : effect s (rt_commit id e s).1
| effect_claim owner repository checkout request_id s :
    effect s (claim_worktree owner repository checkout request_id s).1
| effect_release lease s : effect s (release_worktree lease s).1
| effect_persist pack s : effect s (persist_pack pack s).1
| effect_prepare outcome s : effect s (rt_prepare_handoff outcome s).1
| effect_relinquish s : effect s (relinquish_handoff s).1
| effect_acquire io fence s : effect s (acquire_handoff io fence s).1
| effect_abort io s : effect s (abort_handoff io s).1.

Definition performs {A} (m : RtM A) : Prop := ∀ s, rtc effect s (m s).1.

Lemma performs_ret {A} (a : A) : performs (mret a).
Proof. intros s. apply rtc_refl. Qed.
Lemma performs_lift {A} (r : result MissionRuntimeError A) : performs (rt_lift r).
Proof. intros s. apply rtc_refl. Qed.
Lemma performs_gets {A} (f : MissionRuntime → A) : performs (rt_gets f).
Proof. intros s. apply rtc_refl. Qed.
Lemma performs_bind {A B} (m : RtM A) (f : A → RtM B) :
  performs m → (∀ a, performs (f a)) → performs (m ≫= f).
Proof.
  intros Hm Hf s. specialize (Hm s). unfold mbind, RtM_bind.
  destruct (m s) as [t [a|e]]; [|done]. etrans; [exact Hm|apply Hf].
Qed.
Lemma performs_cleanup {A} (m : RtM A) c : performs m → performs c → performs (rt_cleanup m c).
Proof.
  intros Hm Hc s. specialize (Hm s). unfold rt_cleanup.
  destruct (m s) as [t [a|e]]; [done|]. etrans; [exact Hm|apply Hc].
Qed.
Lemma performs_ignore {A} (m : RtM A) : performs m → performs (rt_ignore m).
Proof. intros Hm s. apply Hm. Qed.
Lemma performs_iter {A} (g : A → RtM CommitOutcome) l :
  (∀ x, performs (g x)) → performs (rt_iter g l).
Proof.
  intros Hg. induction l as [|x l IH]; cbn; [apply performs_ret|].
  apply performs_bind; [apply Hg|done].
Qed.
Lemma performs_effect {A} (m : RtM A) : (∀ s, effect s (m s).1) → performs m.
Proof. intros Hm s. apply rtc_once, Hm. Qed.
Lemma performs_committed id : performs (committed_mission id).
Proof. intros s. apply rtc_refl. Qed.
End effects.

Create HintDb performs discriminated.
#[export] Hint Constructors effect : performs.
#[export] Hint Resolve performs_ret performs_lift performs_gets performs_committed performs_ignore
  performs_cleanup performs_effect : performs.

(** [performs] decomposes a handler into its effects. *)
Ltac performs :=
  repeat first
    [ progress intros
    | apply performs_bind
    | apply performs_iter
    | match goal with |- performs (if ?b then _ else _) => destruct b end
    | match goal with |- performs (match ?x with _ => _ end) => destruct x end
    | solve [eauto with performs] ].

(** ** Handlers *)

Section handlers.
Context {HSha : Sha256} `{HJson : SerdeJson} `{HBase64 : Base64} `{HPack : PackJson}.

(** The methods of [MissionRuntime] that change it or the world *)
Inductive handler `{HHost : GitHost} : RtM unit → Prop :=
| on_create request : handler (rt_ignore (create_mission request))
| on_configure request : handler (rt_ignore (configure_mission request))
| on_start request : handler (rt_ignore (start_run request))
| on_continue request : handler (rt_ignore (continue_run request))
| on_recover mission_id request_id : handler (rt_ignore (recover_managed_run mission_id request_id))
| on_bind mission_id run_id session at_millis :
    handler (rt_ignore (bind_provider_session mission_id run_id session at_millis))
| on_transition mission_id status at_millis :
    handler (rt_ignore (transition_run mission_id status at_millis))
| on_finalize pack lease at_millis : handler (rt_ignore (finalize_evidence_pack pack lease at_millis))
| on_commit id event : handler (rt_ignore (rt_commit id event))
| on_claim owner repository checkout request_id :
    handler (rt_ignore (claim_worktree owner repository checkout request_id))
| on_release lease : handler (rt_ignore (release_worktree lease))
| on_prepare outcome : handler (rt_ignore (rt_prepare_handoff outcome))
| on_relinquish : handler relinquish_handoff
| on_acquire io fence : handler (acquire_handoff io fence)
| on_abort io : handler (abort_handoff io).

Lemma handler_performs `{HHost : GitHost} m : handler m → performs m.
Proof.
  destruct 1; [..|apply performs_effect; constructor|apply performs_effect; constructor
    |apply performs_effect; constructor]; apply performs_ignore;
    unfold create_mission, configure_mission, start_run, continue_run, recover_managed_run,
      bind_provider_session, transition_run, finalize_evidence_pack, or_release, record_pack,
      commit_ready, commit_archive, transition_run; performs.
Qed.
End handlers.

(** ** The system *)

Record System := mkSystem {
  ss_disk : Disk;
  ss_packs : EvidencePackStore;
  ss_locks : gset string;
  ss_runtimes : gmap N MissionRuntime;
}.

(** The store a runtime keeps other processes out with *)
Definition writer_store (rt : MissionRuntime) : option MissionStore :=
  match rt_ownership rt with
  | Ownership.Owned store => Some store
  | Ownership.Prepared prepared => Some (pms_store prepared)
  | _ => None
  end.

Section system.
Context {HSha : Sha256} `{HJson : SerdeJson} `{HBase64 : Base64} `{HPack : PackJson}.

(** A process starts as the owner or as the observer of a handoff, handles a
    request, or ends at any point, which drops its locks.  The outcomes of
    its writes, the random bytes and what the host answers are those of the
    step. *)
Inductive system_step : System → System → Prop :=
| process_opens sy pid io packs registry d r :
    ss_runtimes sy !! pid = None → open_owned io packs registry (ss_disk sy) = (d, r) →
    system_step sy (mkSystem d (ss_packs sy) (ss_locks sy)
      (match r with Ok rt => <[pid := rt]> (ss_runtimes sy) | Err _ => ss_runtimes sy end))
| process_observes sy pid registry packs fence rt :
    ss_runtimes sy !! pid = None → observe_handoff registry packs (ss_disk sy) fence = Ok rt →
    system_step sy (mkSystem (ss_disk sy) (ss_packs sy) (ss_locks sy)
      (<[pid := rt]> (ss_runtimes sy)))
| process_handles sy pid rt (host : GitHost) m commits pack_write nonces rt' w' r :
    ss_runtimes sy !! pid = Some rt → handler m →
    m (rt, mkWorld (ss_disk sy) (ss_packs sy) (ss_locks sy) commits pack_write nonces)
    = ((rt', w'), r) →
    system_step sy (mkSystem (w_disk w') (w_packs w') (w_locks w') (<[pid := rt']> (ss_runtimes sy)))
| process_ends sy pid rt :
    ss_runtimes sy !! pid = Some rt →
    system_step sy (mkSystem
      (match writer_store rt with Some _ => release (ss_disk sy) | None => ss_disk sy end)
      (ss_packs sy) (ss_locks sy ∖ locks_of (default ∅ (rt_claims rt)))
      (delete pid (ss_runtimes sy))).

Definition empty_system : System := mkSystem empty_disk ∅ ∅ ∅.
Definition system_reachable := rtc system_step empty_system.
End system.

(** ** One writer *)

Section writer.
Context {HSha : Sha256} {HShaSpec : Sha256Spec} `{HJsonSpec : SerdeJsonSpec}
        `{HBase64 : Base64} `{HPack : PackJson}.

Lemma relock d s : disk_inv d (Some s) → disk_inv (release d) None.
Proof.
  intros (_ & frs & Hok & _). split; [done|]. by exists frs.
Qed.

(** The state of the directory and of the runtime of the process that is, or
    may become, the writer *)
Lemma effect_writer `{HHost : GitHost} s s' :
  effect s s' → disk_inv (w_disk s.2) (writer_store s.1) →
  disk_inv (w_disk s'.2) (writer_store s'.1).
Proof.
  intros He Hd. destruct He as [id e s|owner repo co req s|lease s|pack s|outcome s|s|io fence s|io s];
    destruct s as [rt w]; cbn [fst snd] in *.
  - unfold rt_commit. destruct (_ ← ensure_available rt; _) as [store|] eqn:Hpre; [|done].
    apply bind_ok in Hpre as ([] & _ & Hpre). apply bind_ok in Hpre as ([] & _ & Hpre).
    apply ok_or_ok in Hpre. unfold owned_store in Hpre.
    destruct (rt_ownership rt) as [store'| | | | |] eqn:Hown; try done. injection Hpre as ->.
    unfold writer_store in Hd. rewrite Hown in Hd. destruct Hd as [Hlock Hok].
    destruct (commit _ _ _ _ _) as [[d store'] r] eqn:Hc. cbn. split; [|by eapply commit_run_ok].
    by apply commit_lock in Hc as ->.
  - unfold claim_worktree. destruct (the_claims rt); [|done].
    by destruct (claim _ _ _ _ _ _ _) as [[? ?] ?].
  - unfold release_worktree. destruct (the_claims rt); [|done].
    by destruct (release_claim _ _ _) as [[? ?] ?].
  - unfold persist_pack. destruct (rt_evidence_packs rt); [|done].
    by destruct (pack_persist _ _ _).
  - unfold rt_prepare_handoff. unfold writer_store in *.
    destruct (rt_ownership rt) as [store|pr| | | |] eqn:Hown; try (by rewrite <- Hown in Hd);
      try (cbn [fst snd]; by rewrite Hown).
    unfold prepare_handoff. rewrite bind_disk. destruct (checkpoint _ _ _) as [d [[]|e]] eqn:Hcp;
      cbn; rewrite ?Hown; destruct Hd as [Hlock Hok]; (split; [|by eapply checkpoint_run_ok]);
      by apply checkpoint_writes in Hcp as [sn ->].
  - unfold relinquish_handoff. unfold writer_store in *.
    destruct (rt_ownership rt) as [store|pr| | | |] eqn:Hown; try (cbn [fst snd]; by rewrite Hown).
    cbn. by eapply relock.
  - unfold acquire_handoff. unfold writer_store in Hd.
    destruct (rt_ownership rt) as [| | |fence'| |] eqn:Hown;
      try (cbn [fst snd]; unfold writer_store; by rewrite Hown).
    unfold acquire_writer. destruct (validate_fence_format fence); [|cbn; done].
    destruct (reacquire io fence (w_disk w)) as [d [store|e]] eqn:Hre; cbn;
      pose proof (reacquire_any _ _ _ None _ _ Hd Hre); naive_solver.
  - unfold abort_handoff. unfold writer_store in Hd.
    destruct (rt_ownership rt) as [|pr|fence| | |] eqn:Hown;
      try (cbn [fst snd]; unfold writer_store; by rewrite Hown); [done|].
    destruct (reacquire io fence (w_disk w)) as [d [store|e]] eqn:Hre; cbn;
      pose proof (reacquire_any _ _ _ None _ _ Hd Hre); naive_solver.
Qed.

(** While another process is the writer *)
Lemma effect_other `{HHost : GitHost} s s' writer :
  effect s s' → disk_inv (w_disk s.2) (Some writer) → writer_store s.1 = None →
  disk_inv (w_disk s'.2) (Some writer) ∧ writer_store s'.1 = None.
Proof.
  intros He Hd Hno. destruct He as [id e s|owner repo co req s|lease s|pack s|outcome s|s|io fence s|io s];
    destruct s as [rt w]; cbn [fst snd] in *; unfold writer_store in Hno.
  - unfold rt_commit, owned_store.
    destruct (rt_ownership rt) eqn:Hown; try done;
      (destruct (_ ← ensure_available rt; _) as [store|] eqn:Hpre;
       [|cbn [fst snd]; unfold writer_store; by rewrite Hown]);
      apply bind_ok in Hpre as ([] & _ & Hpre); by apply bind_ok in Hpre as ([] & _ & Hpre).
  - unfold claim_worktree. destruct (the_claims rt); [|done].
    by destruct (claim _ _ _ _ _ _ _) as [[? ?] ?].
  - unfold release_worktree. destruct (the_claims rt); [|done].
    by destruct (release_claim _ _ _) as [[? ?] ?].
  - unfold persist_pack. destruct (rt_evidence_packs rt); [|done].
    by destruct (pack_persist _ _ _).
  - unfold rt_prepare_handoff, writer_store.
    destruct (rt_ownership rt) eqn:Hown; try done; cbn [fst snd]; by rewrite Hown.
  - unfold relinquish_handoff, writer_store.
    destruct (rt_ownership rt) eqn:Hown; try done; cbn [fst snd]; by rewrite Hown.
  - unfold acquire_handoff.
    destruct (rt_ownership rt) eqn:Hown; try done;
      try (cbn [fst snd]; unfold writer_store; by rewrite Hown).
    unfold acquire_writer. destruct (validate_fence_format fence); [|by cbn].
    destruct (reacquire io fence (w_disk w)) as [d [store|e]] eqn:Hre; cbn;
      pose proof (reacquire_any _ _ _ (Some writer) _ _ Hd Hre); naive_solver.
  - unfold abort_handoff.
    destruct (rt_ownership rt) eqn:Hown; try done;
      try (cbn [fst snd]; unfold writer_store; by rewrite Hown).
    destruct (reacquire io _ (w_disk w)) as [d [store|e]] eqn:Hre; cbn;
      pose proof (reacquire_any _ _ _ (Some writer) _ _ Hd Hre); naive_solver.
Qed.

Lemma effects_writer `{HHost : GitHost} s s' :
  rtc effect s s' → disk_inv (w_disk s.2) (writer_store s.1) →
  disk_inv (w_disk s'.2) (writer_store s'.1).
Proof.
  induction 1 as [s|s t u Hst _ IH]; intros Hd; [done|].
  apply IH. by eapply effect_writer.
Qed.

Lemma effects_other `{HHost : GitHost} s s' writer :
  rtc effect s s' → disk_inv (w_disk s.2) (Some writer) → writer_store s.1 = None →
  disk_inv (w_disk s'.2) (Some writer) ∧ writer_store s'.1 = None.
Proof.
  induction 1 as [s|s t u Hst _ IH]; intros Hd Hno; [done|].
  destruct (effect_other _ _ _ Hst Hd Hno) as [Hd' Hno']. by apply IH.
Qed.

Lemma handler_effects `{HHost : GitHost} m s s' r : handler m → m s = (s', r) → rtc effect s s'.
Proof. intros Hm Hs. pose proof (handler_performs m Hm s) as Hp. by rewrite Hs in Hp. Qed.

(** No process but [except] is a writer. *)
Definition idle_but (sy : System) (except : option N) : Prop :=
  ∀ pid rt, ss_runtimes sy !! pid = Some rt → except ≠ Some pid → writer_store rt = None.

(** Either one process writes, and the directory is its own, or none does. *)
Definition system_inv (sy : System) : Prop :=
  (∃ pid rt s, ss_runtimes sy !! pid = Some rt ∧ writer_store rt = Some s
     ∧ disk_inv (ss_disk sy) (Some s) ∧ idle_but sy (Some pid))
  ∨ (disk_inv (ss_disk sy) None ∧ idle_but sy None).

(** The runtime of a process was replaced, or the process is new. *)
Lemma system_inv_insert d packs locks runtimes pid rt :
  disk_inv d (writer_store rt) →
  (∀ pid' rt', pid' ≠ pid → runtimes !! pid' = Some rt' → writer_store rt' = None) →
  system_inv (mkSystem d packs locks (<[pid := rt]> runtimes)).
Proof.
  intros Hd Hidle.
  assert (Hrest : idle_but (mkSystem d packs locks (<[pid := rt]> runtimes)) (Some pid)).
  { intros pid' rt' Hl Hex. cbn in Hl.
    apply lookup_insert_Some in Hl as [[-> _]|[Hne Hl]]; [done|by eapply Hidle]. }
  destruct (writer_store rt) as [s|] eqn:Hw.
  - left. exists pid, rt, s. split; [apply lookup_insert_eq|done].
  - right. split; [done|]. intros pid' rt' Hl _. destruct (decide (pid' = pid)) as [->|Hne].
    + cbn in Hl. rewrite lookup_insert_eq in Hl. by injection Hl as <-.
    + apply (Hrest pid' rt' Hl). congruence.
Qed.

Lemma system_inv_other d packs locks runtimes pid rt pid0 rt0 s :
  runtimes !! pid0 = Some rt0 → writer_store rt0 = Some s → disk_inv d (Some s) →
  (∀ pid' rt', pid' ≠ pid0 → runtimes !! pid' = Some rt' → writer_store rt' = None) →
  pid ≠ pid0 → writer_store rt = None →
  system_inv (mkSystem d packs locks (<[pid := rt]> runtimes)).
Proof.
  intros H0 Hw Hd Hidle Hne Hno. left. exists pid0, rt0, s. split; [cbn; by rewrite lookup_insert_ne|].
  split_and!; [done|done|]. intros pid' rt' Hl Hex. cbn in Hl.
  apply lookup_insert_Some in Hl as [[-> <-]|[_ Hl]]; [done|]. eapply Hidle; [|done]. congruence.
Qed.

Lemma idle_others sy pid : idle_but sy (Some pid) →
  ∀ pid' rt', pid' ≠ pid → ss_runtimes sy !! pid' = Some rt' → writer_store rt' = None.
Proof. intros Hidle pid' rt' Hne Hl. apply (Hidle pid' rt' Hl). congruence. Qed.
Lemma idle_all sy pid : idle_but sy None →
  ∀ pid' rt', pid' ≠ pid → ss_runtimes sy !! pid' = Some rt' → writer_store rt' = None.
Proof. intros Hidle pid' rt' _ Hl. by apply (Hidle pid' rt' Hl). Qed.

Lemma system_step_inv sy sy' : system_inv sy → system_step sy sy' → system_inv sy'.
Proof.
  intros Hinv Hstep.
  destruct Hstep as [sy pid io packs registry d r Hnew Hopen|sy pid registry packs fence rt Hnew Hobs
    |sy pid rt host m commits pack_write nonces rt' w' r Hpid Hm Hrun|sy pid rt Hpid].
  - unfold open_owned in Hopen.
    destruct (open io (ss_disk sy)) as [d1 [store|e]] eqn:Ho.
    + destruct Hinv as [(pid0 & rt0 & s & H0 & Hw & Hd & Hidle)|[Hd Hidle]];
        pose proof (open_any _ _ _ _ _ Hd Ho) as Hany; [done|].
      destruct (_ ← map_err _ packs; _) as [?|e]; injection Hopen as <- <-.
      * apply system_inv_insert; [done|by apply idle_all].
      * right. split; [exact (relock _ _ Hany)|]. exact Hidle.
    + injection Hopen as <- <-.
      destruct Hinv as [(pid0 & rt0 & s & H0 & Hw & Hd & Hidle)|[Hd Hidle]];
        pose proof (open_any _ _ _ _ _ Hd Ho) as Hany.
      * left. by exists pid0, rt0, s.
      * by right.
  - assert (Hno : writer_store rt = None).
    { unfold observe_handoff in Hobs. apply bind_ok in Hobs as (? & _ & Hobs).
      do 3 apply bind_ok in Hobs as ([] & _ & Hobs). by injection Hobs as <-. }
    destruct Hinv as [(pid0 & rt0 & s & H0 & Hw & Hd & Hidle)|[Hd Hidle]].
    + eapply (system_inv_other _ _ _ _ _ _ pid0); try done; [by apply idle_others|].
      intros ->. congruence.
    + apply system_inv_insert; [by rewrite Hno|by apply idle_all].
  - pose proof (handler_effects _ _ _ _ Hm Hrun) as Heff.
    destruct Hinv as [(pid0 & rt0 & s & H0 & Hw & Hd & Hidle)|[Hd Hidle]].
    + destruct (decide (pid = pid0)) as [->|Hne].
      * rewrite H0 in Hpid. injection Hpid as <-.
        pose proof (effects_writer _ _ Heff) as Hd'. cbn [fst snd w_disk] in Hd'.
        rewrite Hw in Hd'. specialize (Hd' Hd).
        apply system_inv_insert; [exact Hd'|by apply idle_others].
      * destruct (effects_other _ _ s Heff Hd) as [Hd' Hno];
          [apply (Hidle pid rt Hpid); congruence|].
        by eapply (system_inv_other _ _ _ _ _ _ pid0); try done; apply idle_others.
    + pose proof (effects_writer _ _ Heff) as Hd'. cbn [fst snd w_disk] in Hd'.
      rewrite (Hidle pid rt Hpid) in Hd' by done. specialize (Hd' Hd).
      apply system_inv_insert; [exact Hd'|by apply idle_all].
  - destruct Hinv as [(pid0 & rt0 & s & H0 & Hw & Hd & Hidle)|[Hd Hidle]].
    + destruct (decide (pid = pid0)) as [->|Hne].
      * rewrite H0 in Hpid. injection Hpid as <-. rewrite Hw. right. split; [by eapply relock|].
        intros pid' rt' Hl _. cbn in Hl. apply lookup_delete_Some in Hl as [Hn Hl].
        by eapply idle_others.
      * rewrite (Hidle pid rt Hpid) by congruence. left. exists pid0, rt0, s.
        split; [cbn; by rewrite lookup_delete_ne|]. split_and!; [done|done|].
        intros pid' rt' Hl Hex. cbn in Hl. apply lookup_delete_Some in Hl as [Hn Hl].
        by apply (Hidle pid' rt' Hl).
    + rewrite (Hidle pid rt Hpid) by done. right. split; [done|].
      intros pid' rt' Hl _. cbn in Hl. apply lookup_delete_Some in Hl as [Hn Hl].
      by apply (Hidle pid' rt' Hl).
Qed.

Lemma system_reachable_inv sy : system_reachable sy → system_inv sy.
Proof.
  intros Hr.
  assert (Hgen : ∀ sy0 sy, rtc system_step sy0 sy → system_inv sy0 → system_inv sy).
  { induction 1 as [sy1|sy1 sy2 sy3 Hs _ IH]; intros Hinv; [done|].
    apply IH. by eapply system_step_inv. }
  apply (Hgen _ _ Hr). right. split.
  - split; [done|]. exists []. split; [|done]. eexists _, _. apply empty_recovers.
  - intros pid rt Hl _. cbn in Hl. by rewrite lookup_empty in Hl.
Qed.

(** C2: One writer, one history.  In every state that servers reach on a session
    directory, however they start, hand the store over, fail their writes or
    die, at most one of them holds the store; the lock of the directory is
    held exactly when one does; the directory recovers to a journal of which
    the snapshot, if there is one, is the state after a prefix; and the memory
    of the writer is the replay of a prefix of that journal, of the whole as
    long as the writer is not poisoned. *)
Theorem one_writer_one_history sy :
  system_reachable sy →
  (∀ pid pid' rt rt', ss_runtimes sy !! pid = Some rt → ss_runtimes sy !! pid' = Some rt' →
        is_Some (writer_store rt) → is_Some (writer_store rt') → pid = pid')
  ∧ (dk_writer_lock (ss_disk sy) = true ↔
     ∃ pid rt, ss_runtimes sy !! pid = Some rt ∧ is_Some (writer_store rt))
  ∧ ∃ frs, disk_ok (ss_disk sy) frs
    ∧ ∀ pid rt s, ss_runtimes sy !! pid = Some rt → writer_store rt = Some s →
        (∃ file frs0, frs0 `prefix_of` frs ∧ journal_of file frs0
           ∧ replays frs0 (ms_projection s) (ms_event_index s)
           ∧ ms_journal_head s = actual_head frs0)
        ∧ (ms_poisoned s = false → store_ok (ss_disk sy) s frs).
Proof.
  intros [(pid & rt & s & Hl & Hw & (Hlock & frs & Hd & Hmem & Hs) & Hidle)|[(Hlock & frs & Hd) Hidle]]
    %system_reachable_inv.
  - assert (Hpid : ∀ pid' rt', ss_runtimes sy !! pid' = Some rt' → is_Some (writer_store rt') → pid' = pid).
    { intros pid' rt' Hl' [s' Hs']. destruct (decide (pid' = pid)) as [->|Hne]; [done|].
      rewrite (idle_others _ _ Hidle pid' rt' Hne Hl') in Hs'. done. }
    split_and!.
    + intros pid1 pid2 rt1 rt2 H1 H2 Hs1 Hs2. by rewrite (Hpid _ _ H1 Hs1), (Hpid _ _ H2 Hs2).
    + split; [|done]. intros _. exists pid, rt. split; [done|]. by eexists.
    + exists frs. split; [done|]. intros pid' rt' s' Hl' Hs'.
      assert (pid' = pid) as -> by (eapply Hpid; [done|by eexists]).
      rewrite Hl in Hl'. injection Hl' as <-. rewrite Hw in Hs'. by injection Hs' as <-.
  - assert (Hno : ∀ pid rt, ss_runtimes sy !! pid = Some rt → writer_store rt = None)
      by (intros pid rt Hl; by apply (Hidle pid rt Hl)).
    split_and!.
    + intros pid pid' rt rt' Hl _ [s Hs] _. by rewrite (Hno _ _ Hl) in Hs.
    + split; [by rewrite Hlock|]. intros (pid & rt & Hl & s & Hs). by rewrite (Hno _ _ Hl) in Hs.
    + exists frs. split; [done|]. intros pid rt s Hl Hs. by rewrite (Hno _ _ Hl) in Hs.
Qed.
End writer.

(** ** Refinement of the claims *)

Section refinement.
Context {HSha : Sha256} `{HJson : SerdeJson} `{HBase64 : Base64} `{HPack : PackJson}.

(** What the claims see of a system *)
Definition leases_of (rt : MissionRuntime) : WorktreeClaimRegistry := default ∅ (rt_claims rt).
Definition claims_of (sy : System) : ClaimSystem :=
  mkClaimSystem (ss_locks sy) (leases_of <$> ss_runtimes sy).

Lemma effect_claims `{HHost : GitHost} s s' regs pid :
  effect s s' → regs !! pid = Some (leases_of s.1) →
  rtc claim_step (mkClaimSystem (w_locks s.2) regs)
    (mkClaimSystem (w_locks s'.2) (<[pid := leases_of s'.1]> regs)).
Proof.
  intros He Hpid.
  assert (Hsame : same_leases s s' → rtc claim_step (mkClaimSystem (w_locks s.2) regs)
    (mkClaimSystem (w_locks s'.2) (<[pid := leases_of s'.1]> regs))).
  { intros [Hc Hl]. unfold leases_of. rewrite Hc, Hl.
    rewrite (insert_id regs pid) by exact Hpid. apply rtc_refl. }
  destruct He as [id e s|owner repo co req s|lease s|pack s|outcome s|s|io fence s|io s].
  - apply Hsame. destruct (rt_commit id e s) as [s' r] eqn:Hc. cbn. by eapply rt_commit_leases.
  - unfold claim_worktree in *. destruct s as [rt w]. unfold leases_of, the_claims in *. cbn [fst snd] in *.
    destruct (rt_claims rt) as [claims|] eqn:Hcl; cbn [ok_or default] in *; [|by apply Hsame].
    destruct (claim _ _ _ _ _ _ _) as [[locks claims'] r] eqn:Hc. cbn.
    apply rtc_once. eapply (step_claim (mkClaimSystem (w_locks w) regs)); [exact Hpid|exact Hc].
  - unfold release_worktree in *. destruct s as [rt w]. unfold leases_of, the_claims in *. cbn [fst snd] in *.
    destruct (rt_claims rt) as [claims|] eqn:Hcl; cbn [ok_or default] in *; [|by apply Hsame].
    destruct (release_claim _ _ _) as [[locks claims'] r] eqn:Hc. cbn.
    apply rtc_once. eapply (step_release (mkClaimSystem (w_locks w) regs)); [exact Hpid|exact Hc].
  - apply Hsame. unfold persist_pack. destruct s as [rt w]. destruct (rt_evidence_packs rt); [|done].
    by destruct (pack_persist _ _ _).
  - apply Hsame. unfold rt_prepare_handoff. destruct s as [rt w]. destruct (rt_ownership rt); try done.
    by destruct (prepare_handoff _ _ _) as [d [?|?]].
  - apply Hsame. unfold relinquish_handoff. destruct s as [rt w]. by destruct (rt_ownership rt).
  - apply Hsame. unfold acquire_handoff, adopt. destruct s as [rt w]. destruct (rt_ownership rt); try done.
    by destruct (acquire_writer _ _ _) as [d [?|?]].
  - apply Hsame. unfold abort_handoff, adopt. destruct s as [rt w]. destruct (rt_ownership rt); try done.
    by destruct (reacquire _ _ _) as [d [?|?]].
Qed.

Lemma effects_claims `{HHost : GitHost} s s' regs pid :
  rtc effect s s' → regs !! pid = Some (leases_of s.1) →
  rtc claim_step (mkClaimSystem (w_locks s.2) regs)
    (mkClaimSystem (w_locks s'.2) (<[pid := leases_of s'.1]> regs)).
Proof.
  intros Hs. revert regs. induction Hs as [s|s t u Hst _ IH]; intros regs Hpid.
  - rewrite insert_id by exact Hpid. apply rtc_refl.
  - etrans; [by apply effect_claims|]. rewrite <- (insert_insert_eq regs pid (leases_of u.1) (leases_of t.1)).
    apply IH. apply lookup_insert_eq.
Qed.

(** A step of the system is a sequence of steps of the claims. *)
Lemma system_step_claims sy sy' :
  system_step sy sy' → rtc claim_step (claims_of sy) (claims_of sy').
Proof.
  assert (Hstart : ∀ sy d packs pid rt, ss_runtimes sy !! pid = None → leases_of rt = ∅ →
    rtc claim_step (claims_of sy) (claims_of (mkSystem d packs (ss_locks sy) (<[pid := rt]> (ss_runtimes sy))))).
  { intros sy0 d packs pid rt Hnew Hrt. unfold claims_of. cbn [ss_locks ss_runtimes].
    rewrite fmap_insert, Hrt. apply rtc_once, (step_start (claims_of sy0)).
    cbn. by rewrite lookup_fmap, Hnew. }
  destruct 1 as [sy pid io packs registry d r Hnew Hopen|sy pid registry packs fence rt Hnew Hobs
    |sy pid rt host m commits pack_write nonces rt' w' r Hpid Hm Hrun|sy pid rt Hpid].
  - unfold open_owned in Hopen. destruct (open io (ss_disk sy)) as [d1 [store|e]].
    + destruct (_ ← map_err _ packs; _) as [?|e]; injection Hopen as <- <-.
      * by apply Hstart.
      * apply rtc_refl.
    + injection Hopen as <- <-. apply rtc_refl.
  - apply Hstart; [done|]. unfold observe_handoff in Hobs. apply bind_ok in Hobs as (? & _ & Hobs).
    do 3 apply bind_ok in Hobs as ([] & _ & Hobs). by injection Hobs as <-.
  - pose proof (handler_performs m Hm (rt, mkWorld (ss_disk sy) (ss_packs sy) (ss_locks sy) commits
                                        pack_write nonces)) as Heff.
    rewrite Hrun in Heff. unfold claims_of. cbn [ss_locks ss_runtimes]. rewrite fmap_insert.
    apply (effects_claims _ _ (leases_of <$> ss_runtimes sy) pid Heff).
    by rewrite lookup_fmap, Hpid.
  - unfold claims_of. cbn [ss_locks ss_runtimes]. rewrite fmap_delete. apply rtc_once.
    apply (step_exit (claims_of sy) pid). cbn. by rewrite lookup_fmap, Hpid.
Qed.

Lemma system_reachable_claims sy : system_reachable sy → claims_reachable (claims_of sy).
Proof.
  intros Hr. unfold system_reachable in Hr. unfold claims_reachable.
  assert (Hgen : ∀ a b, rtc system_step a b → rtc claim_step (claims_of a) (claims_of b)).
  { induction 1 as [a|a b c Hab _ IH]; [apply rtc_refl|]. etrans; [by apply system_step_claims|exact IH]. }
  apply Hgen in Hr. assert (Hempty : claims_of empty_system = mkClaimSystem ∅ ∅)
    by (unfold claims_of; cbn; by rewrite fmap_empty). by rewrite Hempty in Hr.
Qed.

(** C10: The runtimes refine the system of claims: whatever their handlers do, the
    lock files and the registries take only the steps of claiming, releasing,
    starting and ending, so no two runtimes hold a lease on one checkout, and
    every lease that is held has its lock file. *)
Theorem runtimes_refine_claims sy :
  system_reachable sy →
  claims_reachable (claims_of sy)
  ∧ ∀ pid pid' rt rt' k r r',
      ss_runtimes sy !! pid = Some rt → leases_of rt !! k = Some r →
      ss_runtimes sy !! pid' = Some rt' → leases_of rt' !! k = Some r' →
      pid = pid' ∧ r = r' ∧ wl_key (cl_lease r) = k ∧ lock_filename k ∈ ss_locks sy.
Proof.
  intros Hr. pose proof (system_reachable_claims _ Hr) as Hc. split; [exact Hc|].
  destruct (reachable_ok _ Hc) as [Hrec Hinj]. intros pid pid' rt rt' k r r' Hl Hk Hl' Hk'.
  assert (Hh : holds (claims_of sy) pid k r)
    by (exists (leases_of rt); split; [cbn; by rewrite lookup_fmap, Hl|done]).
  assert (Hh' : holds (claims_of sy) pid' k r')
    by (exists (leases_of rt'); split; [cbn; by rewrite lookup_fmap, Hl'|done]).
  destruct (Hrec _ _ _ Hh) as (Hkey & Hlock & Hin). destruct (Hrec _ _ _ Hh') as (_ & Hlock' & _).
  destruct (Hinj _ _ _ _ _ _ Hh Hh') as [-> _]; [congruence|].
  rewrite Hl in Hl'. injection Hl' as <-. rewrite Hk in Hk'. injection Hk' as <-.
  split_and!; try done. by rewrite <- Hlock.
Qed.
End refinement.

(** ** A concrete system *)

Section ProcessWitnesses.
#[local] Existing Instances mixing_sha256 mixing_sha256_spec StoreDemo.json StoreDemo.json_spec
  PackDemo.base64 PackDemo.json.

(** Process 1 has opened an empty directory. *)
Lemma demo_opened : ∃ d rt s,
  open_owned all_written (Ok tt) (Ok tt) empty_disk = (d, Ok rt)
  ∧ writer_store rt = Some s ∧ rt_claims rt = Some ∅
  ∧ system_reachable (mkSystem d ∅ ∅ {[1%N := rt]}).
Proof.
  assert (Hok : match (open all_written empty_disk).2 with Ok _ => true | Err _ => false end = true)
    by (vm_compute; reflexivity).
  destruct (open all_written empty_disk) as [d [s|e]] eqn:Ho; [|discriminate Hok].
  assert (Hopen : open_owned all_written (Ok tt) (Ok tt) empty_disk
                  = (d, Ok (mkMissionRuntime (Ownership.Owned s) (Some ∅) true)))
    by (unfold open_owned; by rewrite Ho).
  exists d, (mkMissionRuntime (Ownership.Owned s) (Some ∅) true), s.
  split; [exact Hopen|]. do 2 (split; [done|]). apply rtc_once.
  exact (process_opens empty_system 1 all_written (Ok tt) (Ok tt) d _ eq_refl Hopen).
Qed.

Lemma one_writer_one_history_witness :
  ∃ sy pid rt s, ss_runtimes sy !! pid = Some rt ∧ writer_store rt = Some s
    ∧ dk_writer_lock (ss_disk sy) = true
    ∧ ∃ frs, disk_ok (ss_disk sy) frs ∧ (ms_poisoned s = false → store_ok (ss_disk sy) s frs).
Proof.
  destruct demo_opened as (d & rt & s & _ & Hw & _ & Hr).
  exists (mkSystem d ∅ ∅ {[1%N := rt]}), 1%N, rt, s. split; [reflexivity|]. split; [exact Hw|].
  destruct (one_writer_one_history _ Hr) as (_ & Hlock & frs & Hd & Hok).
  split; [|exists frs; split; [exact Hd|exact (proj2 (Hok 1%N rt s eq_refl Hw))]].
  apply (proj2 Hlock). exists 1%N, rt. split; [reflexivity|exists s; exact Hw].
Defined.

(** It takes a lease. *)
Lemma runtimes_refine_claims_witness :
  ∃ sy rt k r, ss_runtimes sy !! 1%N = Some rt ∧ leases_of rt !! k = Some r
    ∧ lock_filename k ∈ ss_locks sy ∧ claims_reachable (claims_of sy).
Proof.
  destruct demo_opened as (d & rt & s & _ & _ & Hcl & Hr).
  set (w := mkWorld d ∅ ∅ [] WriteOutcome.Written [ClaimsDemo.nonce "a"]).
  set (key := ClaimsDemo.key).
  set (lease := mkWorktreeLease key ClaimsDemo.owner ClaimsDemo.request (ClaimsDemo.nonce "a")).
  set (claims' := <[key := mkClaimRecord lease (lock_filename key)]> (∅ : WorktreeClaimRegistry)).
  set (rt' := rt <| rt_claims := Some claims' |>).
  set (w' := w <| w_locks := {[lock_filename key]} ∪ ∅ |> <| w_nonces := [] |>).
  assert (Hrun : rt_ignore (claim_worktree (HHost := ClaimsDemo.host) ClaimsDemo.owner "/repo" "/tree"
                   ClaimsDemo.request) (rt, w) = ((rt', w'), Ok tt)).
  { unfold rt_ignore, claim_worktree, the_claims. rewrite Hcl. cbn [ok_or w_nonces w_locks w head].
    assert (Hc : claim (H := ClaimsDemo.host) (Some (ClaimsDemo.nonce "a")) ∅ ∅ ClaimsDemo.owner
                   "/repo" "/tree" ClaimsDemo.request
                 = ({[lock_filename key]} ∪ ∅, claims', Ok lease)).
    { assert (Hk : resolve_worktree_key (H := ClaimsDemo.host) "/repo" "/tree" = Ok key) by reflexivity.
      unfold claim. rewrite Hk, lookup_empty. cbn [lock_file_opens ClaimsDemo.host negb].
      by rewrite bool_decide_eq_false_2 by set_solver. }
    rewrite Hc. reflexivity. }
  assert (Hstep : system_step (mkSystem d ∅ ∅ {[1%N := rt]})
                    (mkSystem (w_disk w') (w_packs w') (w_locks w') (<[1%N := rt']> {[1%N := rt]}))).
  { exact (process_handles (mkSystem d ∅ ∅ {[1%N := rt]}) 1%N rt ClaimsDemo.host _ []
             WriteOutcome.Written [ClaimsDemo.nonce "a"] rt' w' (Ok tt) eq_refl
             (on_claim (HHost := ClaimsDemo.host) _ _ _ _) Hrun). }
  pose proof (rtc_r _ _ _ Hr Hstep) as Hr'.
  destruct (runtimes_refine_claims _ Hr') as [Hreach Hheld].
  exists (mkSystem (w_disk w') (w_packs w') (w_locks w') (<[1%N := rt']> {[1%N := rt]})), rt', key,
    (mkClaimRecord lease (lock_filename key)).
  assert (Hk : leases_of rt' !! key = Some (mkClaimRecord lease (lock_filename key)))
    by apply lookup_insert_eq.
  assert (Hl : (<[1%N := rt']> {[1%N := rt]} : gmap N MissionRuntime) !! 1%N = Some rt')
    by apply lookup_insert_eq.
  split; [exact Hl|]. split; [exact Hk|]. split; [|exact Hreach].
  apply (Hheld 1%N 1%N rt' rt' key _ _ Hl Hk Hl Hk).
Defined.
End ProcessWitnesses.
