(* ===== verification/Popups.v ===== *)
(** * Popups and selected text ([src/src/popup_size.rs], [src/src/selection.rs])

    How large a popup is and where it lies in the area of the application, and
    which cells of a pane a drag of the mouse selects. *)

From stdpp Require Import pretty.
From S2P Require Export Recipes Panes.

(** ** Popup sizes *)

Module PopupSize.
Inductive PopupSize := Cells (cells : N) | Percent (percent : N).
#[export] Instance eq_dec : EqDecision PopupSize.
Proof. solve_decision. Defined.
End PopupSize.
Export (hints) PopupSize.
Abbreviation PopupSize := PopupSize.PopupSize.

(** [resolve]: the conversion to 16 bits drops what is above them. *)
Definition resolve_size (s : PopupSize) (available : N) : N :=
  match s with
  | PopupSize.Cells cells => cells
  | PopupSize.Percent percent => (available * percent / 100) mod 2 ^ 16
  end%N.

Definition size_message : string := "must be a number of cells or a percentage like 80%".

Definition parse_cli (value : string) : result string PopupSize :=
  match strip_last "%" value with
  | Some percent =>
      percent ← ok_or (parse_unsigned 255 percent) size_message;
      _ ← reject_if (negb ((1 <=? percent) && (percent <=? 100))%N) "percentage must be between 1% and 100%";
      Ok (PopupSize.Percent percent)
  | None => PopupSize.Cells <$> ok_or (parse_unsigned 65535 value) size_message
  end.

Definition parse_percent_string (value : string) : result string PopupSize :=
  if bool_decide (is_Some (strip_last "%" value)) then parse_cli value
  else Err "string sizes must be percentages like 80%; use a number for cells".

(** What a configuration or a request says of a size: a number or a string *)
Module SizeValue.
Inductive SizeValue := Number (n : Z) | Text (s : string).
End SizeValue.
Abbreviation SizeValue := SizeValue.SizeValue.

Definition serialize_size (s : PopupSize) : SizeValue :=
  match s with
  | PopupSize.Cells cells => SizeValue.Number (Z.of_N cells)
  | PopupSize.Percent percent => SizeValue.Text (pretty percent +:+ "%")
  end.

(** JSON gives a negative number to [visit_i64] and another to [visit_u64]; TOML
    gives both to [visit_i64], which then has one message for both. *)
Definition deserialize_size (v : SizeValue) : result string PopupSize :=
  match v with
  | SizeValue.Number n =>
      if (65535 <? n)%Z then Err "cell count must fit in u16"
      else if (n <? 0)%Z then Err "cell count must be between 0 and 65535"
      else Ok (PopupSize.Cells (Z.to_N n))
  | SizeValue.Text s => parse_percent_string s
  end.

(** ** Popup geometry *)

Record PopupResolvedGeometry := mkPopupResolvedGeometry { pg_outer : Rect; pg_inner : Rect }.

Definition resolve_popup_geometry `{RectNew} (width height : option PopupSize) (area : Rect) :
    option PopupResolvedGeometry :=
  let default_width := N.max (r_width area / 2) 6 in
  let default_height := N.max (r_height area / 2) 4 in
  let outer_width :=
    N.min (N.max (default default_width ((λ w, resolve_size w (r_width area)) <$> width)) 6) (r_width area) in
  let outer_height :=
    N.min (N.max (default default_height ((λ h, resolve_size h (r_height area)) <$> height)) 4) (r_height area) in
  if (outer_width <? 6)%N || (outer_height <? 4)%N then None
  else
    let outer_x := u16_add (r_x area) ((r_width area - outer_width) / 2) in
    let outer_y := u16_add (r_y area) ((r_height area - outer_height) / 2) in
    let pane_inner_width := (outer_width - 2)%N in
    let pane_inner_height := (outer_height - 2)%N in
    let terminal_cols := if (pane_inner_width <=? 4)%N then pane_inner_width else (pane_inner_width - 1)%N in
    let inner :=
      rect_new (saturating_add u16_max outer_x 1) (saturating_add u16_max outer_y 1) terminal_cols pane_inner_height in
    Some (mkPopupResolvedGeometry (rect_new outer_x outer_y outer_width outer_height) inner).

(** ** Selections *)

Module Phase.
Inductive Phase := Anchored | Dragging | Done.
#[export] Instance eq_dec : EqDecision Phase.
Proof. solve_decision. Defined.
End Phase.
Export (hints) Phase.
Abbreviation Phase := Phase.Phase.

(** A cell by its row in the buffer and its column *)
Abbreviation cell := (N * N)%type.

Record Selection := mkSelection { sl_pane_id : PaneId; sl_anchor : cell; sl_cursor : cell; sl_phase : Phase }.
#[export] Instance Selection_fields : Fields Selection := λ s,
  mkSelection (sl_pane_id s) (sl_anchor s) (sl_cursor s) (sl_phase s).

Record ScrollMetrics := mkScrollMetrics { sm_offset_from_bottom : N; sm_max_offset_from_bottom : N; sm_viewport_rows : N }.

(** [as u32], and additions of 32 bits *)
Definition viewport_top_row (metrics : option ScrollMetrics) : N :=
  match metrics with Some m => sm_max_offset_from_bottom m - sm_offset_from_bottom m | None => 0 end mod 2 ^ 32.

Definition absolute_row_for_viewport_row (viewport_row : N) (metrics : option ScrollMetrics) : N :=
  ((viewport_top_row metrics + viewport_row) mod 2 ^ 32)%N.

Definition viewport_row_for_absolute_row (absolute_row : N) (metrics : option ScrollMetrics) : N :=
  let row := (absolute_row - viewport_top_row metrics)%N in if (row <? 2 ^ 16)%N then row else 0%N.

(** [v.clamp(low, low + len.saturating_sub(1))] *)
Definition clamp_from (v low len : N) : N := N.min (N.max v low) (u16_add low (len - 1)).

Definition clamp_to_pane (screen_col screen_row : N) (pane_inner : Rect) : cell :=
  (clamp_from screen_row (r_y pane_inner) (r_height pane_inner) - r_y pane_inner,
   clamp_from screen_col (r_x pane_inner) (r_width pane_inner) - r_x pane_inner)%N.

Definition selection_anchor (pane_id : PaneId) (viewport_row col : N) (metrics : option ScrollMetrics) : Selection :=
  let anchor := (absolute_row_for_viewport_row viewport_row metrics, col) in
  mkSelection pane_id anchor anchor Phase.Anchored.

Definition selection_range (pane_id : PaneId) (viewport_row start_col end_col : N) (metrics : option ScrollMetrics) :
    Selection :=
  let row := absolute_row_for_viewport_row viewport_row metrics in
  mkSelection pane_id (row, start_col) (row, end_col) Phase.Dragging.

Definition line_range (pane_id : PaneId) (anchor_row cursor_row end_col : N) : Selection :=
  let '(anchor_col, cursor_col) := if (anchor_row <=? cursor_row)%N then (0%N, end_col) else (end_col, 0%N) in
  mkSelection pane_id (anchor_row, anchor_col) (cursor_row, cursor_col) Phase.Dragging.

Definition anchor_screen_pos (s : Selection) (pane_inner : Rect) (metrics : option ScrollMetrics) : cell :=
  let viewport_row := viewport_row_for_absolute_row (sl_anchor s).1 metrics in
  (clamp_from (saturating_add u16_max viewport_row (r_y pane_inner)) (r_y pane_inner) (r_height pane_inner),
   clamp_from (saturating_add u16_max (sl_anchor s).2 (r_x pane_inner)) (r_x pane_inner) (r_width pane_inner)).

Definition drag (s : Selection) (screen_col screen_row : N) (pane_inner : Rect) (metrics : option ScrollMetrics) : Selection :=
  let '(viewport_row, col) := clamp_to_pane screen_col screen_row pane_inner in
  let s := s <| sl_cursor := (absolute_row_for_viewport_row viewport_row metrics, col) |> in
  if negb (bool_decide (sl_cursor s = sl_anchor s)) then s <| sl_phase := Phase.Dragging |> else s.

Definition finish (s : Selection) : Selection * bool :=
  if bool_decide (sl_phase s = Phase.Dragging) then (s <| sl_phase := Phase.Done |>, true) else (s, false).

Definition is_visible (s : Selection) : bool :=
  bool_decide (sl_phase s = Phase.Dragging) || bool_decide (sl_phase s = Phase.Done).
Definition is_done (s : Selection) : bool := bool_decide (sl_phase s = Phase.Done).
Definition was_just_click (s : Selection) : bool := bool_decide (sl_phase s = Phase.Anchored).
Definition is_just_click (s : Selection) : bool := bool_decide (sl_phase s = Phase.Anchored).
Definition force_dragging (s : Selection) : Selection :=
  if bool_decide (sl_phase s = Phase.Anchored) then s <| sl_phase := Phase.Dragging |> else s.
Definition is_in_progress (s : Selection) : bool := bool_decide (sl_phase s ∈ [Phase.Anchored; Phase.Dragging]).
Definition is_dragging (s : Selection) : bool := bool_decide (sl_phase s = Phase.Dragging).

Definition ordered (s : Selection) : cell * cell :=
  let '(ar, ac) := sl_anchor s in
  let '(cr, cc) := sl_cursor s in
  if (ar <? cr)%N || (ar =? cr)%N && (ac <=? cc)%N then ((ar, ac), (cr, cc)) else ((cr, cc), (ar, ac)).
Definition ordered_cells (s : Selection) : cell * cell := ordered s.

Definition selection_contains (s : Selection) (viewport_row col : N) (metrics : option ScrollMetrics) : bool :=
  if negb (is_visible s) then false
  else
    let row := absolute_row_for_viewport_row viewport_row metrics in
    let '((sr, sc), (er, ec)) := ordered s in
    if (row <? sr)%N || (er <? row)%N then false
    else if (sr =? er)%N then (sc <=? col)%N && (col <=? ec)%N
    else if (row =? sr)%N then (sc <=? col)%N
    else if (row =? er)%N then (col <=? ec)%N
    else true.

(** ** Popups fit *)

(** [inner] lies in [outer] with a margin of [border] cells on every side. *)
Definition bordered (border : N) (inner outer : Rect) : Prop :=
  (r_x outer + border ≤ r_x inner ∧ r_x inner + r_width inner + border ≤ r_x outer + r_width outer
   ∧ r_y outer + border ≤ r_y inner ∧ r_y inner + r_height inner + border ≤ r_y outer + r_height outer)%N.

(** a popup fits.  For every requested size and every area of the
    application, a popup is refused exactly when the area has less than 6 columns
    or 4 rows; otherwise the popup lies inside the area, in its middle (the
    margins on opposite sides differ by at most one), has at least 6 columns and 4
    rows, and the terminal in it lies inside its border with at least 4 columns
    and 2 rows. *)
Theorem popups_fit `{RectNew} `{!RectNewSpec} width height area :
  fits area →
  (resolve_popup_geometry width height area = None ↔ (r_width area < 6 ∨ r_height area < 4)%N)
  ∧ ∀ g, resolve_popup_geometry width height area = Some g →
      bordered 0 (pg_outer g) area ∧ bordered 1 (pg_inner g) (pg_outer g)
      ∧ (6 ≤ r_width (pg_outer g) ∧ 4 ≤ r_height (pg_outer g) ∧ 4 ≤ r_width (pg_inner g) ∧ 2 ≤ r_height (pg_inner g))%N
      ∧ (let left := r_x (pg_outer g) - r_x area in
         let right := r_x area + r_width area - (r_x (pg_outer g) + r_width (pg_outer g)) in left ≤ right ≤ left + 1)%N
      ∧ (let top := r_y (pg_outer g) - r_y area in
         let bottom := r_y area + r_height area - (r_y (pg_outer g) + r_height (pg_outer g)) in top ≤ bottom ≤ top + 1)%N.
Proof.
  intros [Hx Hy]. unfold resolve_popup_geometry. unfold u16_max in *. cbv zeta.
  set (w := default _ (_ <$> width)). set (h := default _ (_ <$> height)).
  set (ow := N.min (N.max w 6) (r_width area)). set (oh := N.min (N.max h 4) (r_height area)).
  assert (Hw : (ow = r_width area ∧ r_width area < 6 ∨ 6 ≤ ow ≤ r_width area)%N) by (unfold ow; lia).
  assert (Hh : (oh = r_height area ∧ r_height area < 4 ∨ 4 ≤ oh ≤ r_height area)%N) by (unfold oh; lia).
  clearbody ow oh. clear w h.
  destruct (N.ltb_spec ow 6); [split; [split; [lia|done]|done]|].
  destruct (N.ltb_spec oh 4); [split; [split; [lia|done]|done]|]. cbn [orb].
  split; [split; [done|lia]|]. intros g [= <-]. cbn [pg_outer pg_inner].
  assert (Hdw : (2 * ((r_width area - ow) / 2) ≤ r_width area - ow < 2 * ((r_width area - ow) / 2) + 2)%N) by euclid.
  assert (Hdh : (2 * ((r_height area - oh) / 2) ≤ r_height area - oh < 2 * ((r_height area - oh) / 2) + 2)%N) by euclid.
  set (dw := ((r_width area - ow) / 2)%N) in *. set (dh := ((r_height area - oh) / 2)%N) in *. clearbody dw dh.
  rewrite !u16_add_fits by (unfold u16_max; lia). unfold saturating_add.
  rewrite !N.min_r by (unfold u16_max; lia).
  destruct (N.leb_spec (ow - 2) 4); rewrite !rect_new_fits by (unfold u16_max; lia);
    unfold bordered; cbn [r_x r_y r_width r_height]; lia.
Qed.

(** ** What a drag selects *)

(** Reading order *)
Definition cell_le (a b : cell) : Prop := (a.1 < b.1 ∨ a.1 = b.1 ∧ a.2 ≤ b.2)%N.

Lemma ordered_spec s :
  cell_le (ordered s).1 (ordered s).2
  ∧ (ordered s = (sl_anchor s, sl_cursor s) ∧ cell_le (sl_anchor s) (sl_cursor s)
     ∨ ordered s = (sl_cursor s, sl_anchor s) ∧ ¬ cell_le (sl_anchor s) (sl_cursor s)).
Proof.
  unfold ordered, cell_le. destruct (sl_anchor s) as [ar ac], (sl_cursor s) as [cr cc]. cbn.
  destruct (N.ltb_spec ar cr); cbn; [split; [lia|left; split; [done|lia]]|].
  destruct (N.eqb_spec ar cr); cbn; [|split; [lia|right; split; [done|lia]]].
  destruct (N.leb_spec ac cc); cbn; (split; [lia|]); [left|right]; (split; [done|lia]).
Qed.

Lemma selection_contains_ordered s viewport_row col metrics :
  selection_contains s viewport_row col metrics = true ↔
  is_visible s = true ∧ cell_le (ordered s).1 (absolute_row_for_viewport_row viewport_row metrics, col)
  ∧ cell_le (absolute_row_for_viewport_row viewport_row metrics, col) (ordered s).2.
Proof.
  unfold selection_contains. destruct (is_visible s); cbn [negb]; [|naive_solver]. cbv zeta.
  pose proof (proj1 (ordered_spec s)) as Hle. destruct (ordered s) as [[sr sc] [er ec]].
  set (row := absolute_row_for_viewport_row viewport_row metrics). unfold cell_le in *. cbn [fst snd] in *.
  destruct (N.ltb_spec row sr); cbn [orb]; [split; [done|lia]|].
  destruct (N.ltb_spec er row); [split; [done|lia]|].
  destruct (N.eqb_spec sr er); [rewrite andb_true_iff, !N.leb_le; lia|].
  destruct (N.eqb_spec row sr); [rewrite N.leb_le; lia|].
  destruct (N.eqb_spec row er); [rewrite N.leb_le; lia|]. split; [lia|done].
Qed.

(** What the mouse does to a selection *)
Inductive selection_step : Selection → Selection → Prop :=
  | step_drag s screen_col screen_row pane_inner metrics :
      selection_step s (drag s screen_col screen_row pane_inner metrics)
  | step_finish s : selection_step s (finish s).1
  | step_force s : selection_step s (force_dragging s).

(** a drag selects the text between its ends.  Whatever the mouse does after
    it is pressed, the selection keeps its pane and its anchor, and is shown
    unless nothing but clicks happened, when the cursor is where the anchor is; a
    cell of the pane is selected exactly when the selection is shown and the cell
    lies between anchor and cursor in reading order, whichever comes first; and a
    drag to any place of the screen puts the cursor into the pane. *)
Theorem selections_are_reading_order pane_id viewport_row col metrics s :
  rtc selection_step (selection_anchor pane_id viewport_row col metrics) s →
  sl_pane_id s = pane_id ∧ sl_anchor s = (absolute_row_for_viewport_row viewport_row metrics, col)
  ∧ (is_visible s = false → sl_cursor s = sl_anchor s)
  ∧ (∀ row col' metrics',
       selection_contains s row col' metrics' = true ↔
       is_visible s = true
       ∧ let c := (absolute_row_for_viewport_row row metrics', col') in
         cell_le (sl_anchor s) c ∧ cell_le c (sl_cursor s) ∨ cell_le (sl_cursor s) c ∧ cell_le c (sl_anchor s))
  ∧ (∀ screen_col screen_row pane_inner metrics',
       fits pane_inner → (0 < r_width pane_inner)%N → (0 < r_height pane_inner)%N →
       ∃ row' col', sl_cursor (drag s screen_col screen_row pane_inner metrics') = (absolute_row_for_viewport_row row' metrics', col')
         ∧ (row' < r_height pane_inner)%N ∧ (col' < r_width pane_inner)%N).
Proof.
  intros Hsteps.
  assert (Hinv : sl_pane_id s = pane_id ∧ sl_anchor s = (absolute_row_for_viewport_row viewport_row metrics, col)
                 ∧ (is_visible s = false → sl_cursor s = sl_anchor s)).
  { revert s Hsteps. apply rtc_ind_r; [done|]. intros s1 s2 _ Hstep (Hp & Ha & Hc).
    destruct Hstep as [s1 sc sr r m|s1|s1].
    - unfold drag. destruct (clamp_to_pane sc sr r) as [vr c]. case_bool_decide as Heq; cbn [negb]; [|done].
      split_and!; done.
    - unfold finish. by case_bool_decide.
    - unfold force_dragging. by case_bool_decide. }
  destruct Hinv as (Hp & Ha & Hc). split_and!; [done..| |].
  - intros row col' metrics'. rewrite selection_contains_ordered. destruct (ordered_spec s) as [_ Hord].
    unfold cell_le in *. cbn zeta. destruct Hord as [[-> Hle]|[-> Hle]]; cbn [fst snd];
      destruct (sl_anchor s) as [ar ac], (sl_cursor s) as [cr cc]; cbn [fst snd] in *; split; intros [? ?]; (split; [done|lia]).
  - intros sc sr r m [Hx Hy] Hw Hh. unfold u16_max in *.
    exists (clamp_to_pane sc sr r).1, (clamp_to_pane sc sr r).2. split.
    + unfold drag. destruct (clamp_to_pane sc sr r) as [vr c]. by case_bool_decide.
    + unfold clamp_to_pane, clamp_from. cbn [fst snd]. rewrite !u16_add_fits by (unfold u16_max; lia). lia.
Qed.

(** ** Sizes are read back *)

Definition valid_size (s : PopupSize) : Prop :=
  match s with PopupSize.Cells cells => (cells ≤ 65535)%N | PopupSize.Percent percent => (1 ≤ percent ≤ 100)%N end.

Definition percent_reads_back (percent : N) : bool :=
  bool_decide (deserialize_size (serialize_size (PopupSize.Percent percent)) = Ok (PopupSize.Percent percent)).

Lemma percents_read_back : forallb (λ n, percent_reads_back (N.of_nat n)) (seq 1 100) = true.
Proof. vm_compute. reflexivity. Qed.

Lemma sizes_read_back s : valid_size s → deserialize_size (serialize_size s) = Ok s.
Proof.
  destruct s as [cells|percent]; cbn [valid_size]; intros Hs.
  - unfold serialize_size, deserialize_size. rewrite (proj2 (Z.ltb_ge _ _)), (proj2 (Z.ltb_ge _ _)) by lia.
    by rewrite N2Z.id.
  - pose proof (proj1 (forallb_forall _ _) percents_read_back (N.to_nat percent)) as Hp.
    cbv beta in Hp. rewrite N2Nat.id in Hp. apply (bool_decide_eq_true_1 _), Hp, in_seq. lia.
Qed.

(** A sign and leading zeros are read too. *)
Example percent_with_sign : parse_cli "+080%" = Ok (PopupSize.Percent 80).
Proof. vm_compute. reflexivity. Qed.

Module PopupsDemo.
#[local] Existing Instances LayoutDemo.cutting_rect LayoutDemo.cutting_rect_spec.

Definition area : Rect := mkRect 4 2 100 30.
Definition popup : PopupResolvedGeometry := mkPopupResolvedGeometry (mkRect 14 11 80 12) (mkRect 15 12 77 10).

Lemma popups_fit_witness :
  resolve_popup_geometry (Some (PopupSize.Percent 80)) (Some (PopupSize.Cells 12)) area = Some popup
  ∧ bordered 0 (pg_outer popup) area ∧ bordered 1 (pg_inner popup) (pg_outer popup).
Proof.
  assert (Hpopup : resolve_popup_geometry (Some (PopupSize.Percent 80)) (Some (PopupSize.Cells 12)) area = Some popup)
    by (vm_compute; reflexivity).
  destruct (popups_fit (Some (PopupSize.Percent 80)) (Some (PopupSize.Cells 12)) area) as [_ Hfit];
    [split; vm_compute; discriminate|].
  destruct (Hfit popup Hpopup) as (Hout & Hin & _). split; [done|by split].
Defined.

(** Pressed in the third row of the viewport and dragged to the row above *)
Definition pressed : Selection := selection_anchor 1 2 5 None.
Definition dragged : Selection := drag pressed 12 3 (mkRect 2 2 40 10) None.

Lemma selections_are_reading_order_witness :
  selection_contains dragged 1 39 None = true ∧ selection_contains dragged 2 6 None = false
  ∧ sl_anchor dragged = (2%N, 5%N).
Proof.
  assert (Hsteps : rtc selection_step (selection_anchor 1 2 5 None) dragged) by (apply rtc_once, step_drag).
  destruct (selections_are_reading_order 1 2 5 None dragged Hsteps) as (_ & Hanchor & _ & Hcells & _).
  split; [|split; [vm_compute; reflexivity|exact Hanchor]].
  apply Hcells. split; [vm_compute; reflexivity|right]. vm_compute. split; [right; split; [reflexivity|discriminate]|left; reflexivity].
Defined.
End PopupsDemo.
