(* ===== verification/Keys.v ===== *)
(** * Keys and mouse events ([src/src/input])

    Escape sequences: what the terminal sends for a key is parsed into a key, and
    a key or a mouse event is encoded for the program in a pane, in the legacy
    way or in the protocol of kitty, as the program asked. *)

From stdpp Require Import pretty.
From S2P Require Export Chars Panes.

(** ** Keys ([model.rs], and [KeyCode] and [KeyModifiers] of crossterm) *)

Module MediaKeyCode.
Inductive MediaKeyCode :=
  | Play | Pause | PlayPause | Reverse | Stop | FastForward | Rewind | TrackNext | TrackPrevious | Record_
  | LowerVolume | RaiseVolume | MuteVolume.
#[export] Instance eq_dec : EqDecision MediaKeyCode.
Proof. solve_decision. Defined.
End MediaKeyCode.
Export (hints) MediaKeyCode.
Abbreviation MediaKeyCode := MediaKeyCode.MediaKeyCode.

Module ModifierKeyCode.
Inductive ModifierKeyCode :=
  | LeftShift | LeftControl | LeftAlt | LeftSuper | LeftHyper | LeftMeta
  | RightShift | RightControl | RightAlt | RightSuper | RightHyper | RightMeta | IsoLevel3Shift | IsoLevel5Shift.
#[export] Instance eq_dec : EqDecision ModifierKeyCode.
Proof. solve_decision. Defined.
End ModifierKeyCode.
Export (hints) ModifierKeyCode.
Abbreviation ModifierKeyCode := ModifierKeyCode.ModifierKeyCode.

Module KeyCode.
Inductive KeyCode :=
  | Backspace | Enter | Left | Right | Up | Down | Home | End_ | PageUp | PageDown | Tab | BackTab | Delete | Insert
  | F (n : N) | Char (c : N) | Null | Esc | CapsLock | ScrollLock | NumLock | PrintScreen | Pause | Menu | KeypadBegin
  | Media (code : MediaKeyCode) | Modifier (code : ModifierKeyCode).
#[export] Instance eq_dec : EqDecision KeyCode.
Proof. solve_decision. Defined.
End KeyCode.
Export (hints) KeyCode.
Abbreviation KeyCode := KeyCode.KeyCode.

Record KeyModifiers := mkKeyModifiers {
  km_shift : bool;
  km_alt : bool;
  km_control : bool;
  km_super : bool;
  km_hyper : bool;
  km_meta : bool;
}.
#[export] Instance KeyModifiers_eq_dec : EqDecision KeyModifiers.
Proof. solve_decision. Defined.
#[export] Instance KeyModifiers_fields : Fields KeyModifiers := λ m,
  mkKeyModifiers (km_shift m) (km_alt m) (km_control m) (km_super m) (km_hyper m) (km_meta m).

Definition no_modifiers : KeyModifiers := mkKeyModifiers false false false false false false.
Definition SHIFT : KeyModifiers := mkKeyModifiers true false false false false false.
Definition ALT : KeyModifiers := mkKeyModifiers false true false false false false.
Definition CONTROL : KeyModifiers := mkKeyModifiers false false true false false false.
Definition modifiers_empty (m : KeyModifiers) : bool := bool_decide (m = no_modifiers).

Module KeyEventKind.
Inductive KeyEventKind := Press | Repeat | Release.
#[export] Instance eq_dec : EqDecision KeyEventKind.
Proof. solve_decision. Defined.
End KeyEventKind.
Export (hints) KeyEventKind.
Abbreviation KeyEventKind := KeyEventKind.KeyEventKind.

Record TerminalKey := mkTerminalKey {
  tk_code : KeyCode;
  tk_modifiers : KeyModifiers;
  tk_kind : KeyEventKind;
  tk_shifted_codepoint : option N;
}.
#[export] Instance TerminalKey_eq_dec : EqDecision TerminalKey.
Proof. solve_decision. Defined.
#[export] Instance TerminalKey_fields : Fields TerminalKey := λ k,
  mkTerminalKey (tk_code k) (tk_modifiers k) (tk_kind k) (tk_shifted_codepoint k).

Definition TerminalKey_new (code : KeyCode) (modifiers : KeyModifiers) : TerminalKey :=
  mkTerminalKey code modifiers KeyEventKind.Press None.
Definition with_kind (k : TerminalKey) (kind : KeyEventKind) : TerminalKey := k <| tk_kind := kind |>.
Definition with_shifted_codepoint (k : TerminalKey) (c : N) : TerminalKey := k <| tk_shifted_codepoint := Some c |>.

Module ModifyOtherKeysMode.
Inductive ModifyOtherKeysMode := Mode1 | Mode2.
End ModifyOtherKeysMode.
Abbreviation ModifyOtherKeysMode := ModifyOtherKeysMode.ModifyOtherKeysMode.

Definition esc (s : string) : string := String "027" s.

Definition set_sequence (m : ModifyOtherKeysMode) : bytes :=
  str_bytes (esc match m with ModifyOtherKeysMode.Mode1 => "[>4;1m" | ModifyOtherKeysMode.Mode2 => "[>4;2m" end).

Definition eq_ignore_ascii_case (s t : string) : bool :=
  bool_decide ((λ c, to_lower (N_of_ascii c)) <$> str_bytes s = (λ c, to_lower (N_of_ascii c)) <$> str_bytes t).

Definition host_modify_other_keys_mode_for_env (in_tmux : bool) (term_program : option string)
    (wezterm_pane alacritty_window_id : bool) : option ModifyOtherKeysMode :=
  if in_tmux then Some ModifyOtherKeysMode.Mode2
  else if wezterm_pane || alacritty_window_id
          || match term_program with Some p => eq_ignore_ascii_case p "wezterm" | None => false end
  then Some ModifyOtherKeysMode.Mode1
  else None.

Module KeyboardProtocol.
Inductive KeyboardProtocol := Legacy | Kitty (flags : N).
End KeyboardProtocol.
Abbreviation KeyboardProtocol := KeyboardProtocol.KeyboardProtocol.

Definition from_kitty_flags (flags : N) : KeyboardProtocol :=
  if (flags =? 0)%N then KeyboardProtocol.Legacy else KeyboardProtocol.Kitty flags.

(** [flags & bit != 0] *)
Definition has_flag (flags bit : N) : bool := negb (N.land flags bit =? 0)%N.

Definition reports_event_types (p : KeyboardProtocol) : bool :=
  match p with KeyboardProtocol.Kitty flags => has_flag flags 2 | KeyboardProtocol.Legacy => false end.

Module MouseProtocolMode.
Inductive MouseProtocolMode := None_ | Press | PressRelease | ButtonMotion | AnyMotion.
End MouseProtocolMode.
Abbreviation MouseProtocolMode := MouseProtocolMode.MouseProtocolMode.
Definition reporting_enabled (m : MouseProtocolMode) : bool :=
  match m with MouseProtocolMode.None_ => false | _ => true end.

Module MouseProtocolEncoding.
Inductive MouseProtocolEncoding := Default | Utf8 | Sgr.
End MouseProtocolEncoding.
Abbreviation MouseProtocolEncoding := MouseProtocolEncoding.MouseProtocolEncoding.

(** ** Encoding ([encode.rs]) *)

Definition KITTY_FLAG_REPORT_EVENT_TYPES : N := 2.
Definition KITTY_FLAG_REPORT_ALTERNATE_KEYS : N := 4.
Definition KITTY_FLAG_REPORT_ALL_KEYS : N := 8.

(** [matches!(c, '!' | '@' | ...)] of an ASCII literal *)
Definition char_in (cs : string) (c : N) : bool := existsb (λ a, (N_of_ascii a =? c)%N) (str_bytes cs).

Definition quotation_mark : string := String "034" "".
Definition is_shifted_ascii_punctuation (c : N) : bool :=
  char_in ("!@#$%^&*()_+{}|:" +:+ quotation_mark +:+ "<>?~") c.

Definition shifted_text_char (key : TerminalKey) (c : N) : option N :=
  match (shifted ← tk_shifted_codepoint key; if is_char shifted then Some shifted else None) with
  | Some shifted => Some shifted
  | None =>
      if is_upper c then Some c
      else if is_lower c then Some (to_upper c)
      else if is_shifted_ascii_punctuation c then Some c
      else None
  end.

Definition encode_text_input (key : TerminalKey) : option bytes :=
  match tk_code key with
  | KeyCode.Char c =>
      if modifiers_empty (tk_modifiers key) then
        Some (if bool_decide (tk_kind key = KeyEventKind.Release) then [] else encode_utf8 c)
      else if negb (bool_decide (tk_modifiers key = SHIFT)) then None
      else
        shifted ← shifted_text_char key c;
        Some (if bool_decide (tk_kind key = KeyEventKind.Release) then [] else encode_utf8 shifted)
  | _ => None
  end.

Definition xterm_modifier (m : KeyModifiers) : N :=
  (1 + (if km_shift m then 1 else 0) + (if km_alt m then 2 else 0) + (if km_control m then 4 else 0))%N.
Definition kitty_modifier (m : KeyModifiers) : N :=
  (xterm_modifier m + (if km_super m then 8 else 0) + (if km_hyper m then 16 else 0) + (if km_meta m then 32 else 0))%N.

Definition canonical_kitty_char (c : N) (m : KeyModifiers) : N := if km_shift m && is_upper c then to_lower c else c.

Definition alternate_shifted_codepoint (key : TerminalKey) (flags : N) : option N :=
  if negb (has_flag flags KITTY_FLAG_REPORT_ALTERNATE_KEYS) then None
  else
    match tk_shifted_codepoint key with
    | Some shifted => Some shifted
    | None =>
        match tk_code key with
        | KeyCode.Char c => if km_shift (tk_modifiers key) && is_upper c then Some c else None
        | _ => None
        end
    end.

Definition kitty_event_suffix (key : TerminalKey) (flags : N) : option N :=
  if negb (has_flag flags KITTY_FLAG_REPORT_EVENT_TYPES) then None
  else Some match tk_kind key with KeyEventKind.Press => 1 | KeyEventKind.Repeat => 2 | KeyEventKind.Release => 3 end%N.

(** The keys that stay legacy sequences unless everything is reported *)
Definition established_key (code : KeyCode) : bool :=
  match code with
  | KeyCode.Up | KeyCode.Down | KeyCode.Left | KeyCode.Right | KeyCode.Home | KeyCode.End_ | KeyCode.PageUp
  | KeyCode.PageDown | KeyCode.Insert | KeyCode.Delete | KeyCode.F _ => true
  | _ => false
  end.

Definition kitty_codepoint (key : TerminalKey) (flags : N) : option (N * option N) :=
  match tk_code key with
  | KeyCode.Char c => Some (canonical_kitty_char c (tk_modifiers key), alternate_shifted_codepoint key flags)
  | KeyCode.Enter => Some (13, None)
  | KeyCode.Tab => Some (9, None)
  | KeyCode.Backspace => Some (127, None)
  | KeyCode.Esc => Some (27, None)
  | KeyCode.Left => Some (57417, None)
  | KeyCode.Right => Some (57418, None)
  | KeyCode.Up => Some (57419, None)
  | KeyCode.Down => Some (57420, None)
  | KeyCode.PageUp => Some (57421, None)
  | KeyCode.PageDown => Some (57422, None)
  | KeyCode.Home => Some (57423, None)
  | KeyCode.End_ => Some (57424, None)
  | KeyCode.Insert => Some (57425, None)
  | KeyCode.Delete => Some (57426, None)
  | _ => None
  end%N.

Definition csi_u (codepoint : N) (shifted : option N) (modifier : N) (event : option N) : string :=
  esc ("[" +:+ pretty codepoint +:+ match shifted with Some s => ":" +:+ pretty s | None => "" end
       +:+ ";" +:+ pretty modifier +:+ match event with Some e => ":" +:+ pretty e | None => "" end +:+ "u").

Definition try_encode_csi_u (key : TerminalKey) (flags : N) : option bytes :=
  let m := tk_modifiers key in
  let event_suffix := kitty_event_suffix key flags in
  let report_all_keys := has_flag flags KITTY_FLAG_REPORT_ALL_KEYS in
  if negb report_all_keys && modifiers_empty m
     && bool_decide (tk_code key ∈ [KeyCode.Enter; KeyCode.Tab; KeyCode.Backspace])
  then None
  else if modifiers_empty m && bool_decide (event_suffix = None) && negb report_all_keys then None
  else if established_key (tk_code key) && (bool_decide (event_suffix = None) && negb report_all_keys) then None
  else
    '(codepoint, alternate_shifted) ← kitty_codepoint key flags;
    Some (str_bytes (csi_u codepoint alternate_shifted (kitty_modifier m) event_suffix)).

(** The sequences of modified special keys: [1;m] and a letter, or a number, [;m] and a tilde *)
Definition encode_modified_special (code : KeyCode) (m : KeyModifiers) : option bytes :=
  let modifier := xterm_modifier m in
  if (modifier <=? 1)%N then None
  else
    let letter (l : string) := Some (str_bytes (esc ("[1;" +:+ pretty modifier +:+ l))) in
    let tilde (n : string) := Some (str_bytes (esc ("[" +:+ n +:+ ";" +:+ pretty modifier +:+ "~"))) in
    match code with
    | KeyCode.Up => letter "A"
    | KeyCode.Down => letter "B"
    | KeyCode.Right => letter "C"
    | KeyCode.Left => letter "D"
    | KeyCode.Home => letter "H"
    | KeyCode.End_ => letter "F"
    | KeyCode.Insert => tilde "2"
    | KeyCode.Delete => tilde "3"
    | KeyCode.PageUp => tilde "5"
    | KeyCode.PageDown => tilde "6"
    | KeyCode.F 1 => letter "P"
    | KeyCode.F 2 => letter "Q"
    | KeyCode.F 3 => letter "R"
    | KeyCode.F 4 => letter "S"
    | KeyCode.F 5 => tilde "15"
    | KeyCode.F 6 => tilde "17"
    | KeyCode.F 7 => tilde "18"
    | KeyCode.F 8 => tilde "19"
    | KeyCode.F 9 => tilde "20"
    | KeyCode.F 10 => tilde "21"
    | KeyCode.F 11 => tilde "23"
    | KeyCode.F 12 => tilde "24"
    | _ => None
    end.

Definition encode_f_key (n : N) : bytes :=
  str_bytes
    match n with
    | 1 => esc "OP" | 2 => esc "OQ" | 3 => esc "OR" | 4 => esc "OS"
    | 5 => esc "[15~" | 6 => esc "[17~" | 7 => esc "[18~" | 8 => esc "[19~"
    | 9 => esc "[20~" | 10 => esc "[21~" | 11 => esc "[23~" | 12 => esc "[24~"
    | _ => ""
    end%N.

(** [_ => vec![ch as u8]]: the low byte *)
Definition control_byte (c : N) : N :=
  let upper := to_upper c in
  (if is_upper upper then upper - 64
   else if char_in " @2" upper then 0
   else if char_in "[3" upper then 27
   else if char_in "\4" upper then 28
   else if char_in "]5" upper then 29
   else if char_in "^6" upper then 30
   else if char_in "_/7-" upper then 31
   else c mod 256)%N.

Definition encode_legacy_inner (key : TerminalKey) : bytes :=
  match tk_code key with
  | KeyCode.Char c =>
      if km_control (tk_modifiers key) then [ascii_of_N (control_byte c)]
      else encode_utf8 (if bool_decide (tk_modifiers key = SHIFT) then default c (shifted_text_char key c) else c)
  | KeyCode.Enter => ["013"%char]
  | KeyCode.Backspace => ["127"%char]
  | KeyCode.Tab => ["009"%char]
  | KeyCode.BackTab => str_bytes (esc "[Z")
  | KeyCode.Esc => ["027"%char]
  | KeyCode.Left => str_bytes (esc "[D")
  | KeyCode.Right => str_bytes (esc "[C")
  | KeyCode.Up => str_bytes (esc "[A")
  | KeyCode.Down => str_bytes (esc "[B")
  | KeyCode.Home => str_bytes (esc "[H")
  | KeyCode.End_ => str_bytes (esc "[F")
  | KeyCode.PageUp => str_bytes (esc "[5~")
  | KeyCode.PageDown => str_bytes (esc "[6~")
  | KeyCode.Delete => str_bytes (esc "[3~")
  | KeyCode.Insert => str_bytes (esc "[2~")
  | KeyCode.F n => encode_f_key n
  | _ => []
  end.

Definition encode_legacy (key : TerminalKey) : bytes :=
  let m := tk_modifiers key in
  match (if modifiers_empty m then None else encode_modified_special (tk_code key) m) with
  | Some b => b
  | None =>
      if km_alt m then "027"%char :: encode_legacy_inner (key <| tk_modifiers := m <| km_alt := false |> |>)
      else encode_legacy_inner key
  end.

Definition encode_terminal_key (key : TerminalKey) (protocol : KeyboardProtocol) : bytes :=
  let released := bool_decide (tk_kind key = KeyEventKind.Release) in
  if released && negb (reports_event_types protocol) then []
  else
    match encode_text_input key with
    | Some b => b
    | None =>
        match (match protocol with KeyboardProtocol.Kitty flags => try_encode_csi_u key flags | KeyboardProtocol.Legacy => None end) with
        | Some b => b
        | None => if released && reports_event_types protocol then [] else encode_legacy key
        end
    end.

Definition encode_cursor_key (code : KeyCode) (application_cursor : bool) : bytes :=
  match code, application_cursor with
  | KeyCode.Up, true => str_bytes (esc "OA")
  | KeyCode.Down, true => str_bytes (esc "OB")
  | KeyCode.Right, true => str_bytes (esc "OC")
  | KeyCode.Left, true => str_bytes (esc "OD")
  | KeyCode.Up, false => str_bytes (esc "[A")
  | KeyCode.Down, false => str_bytes (esc "[B")
  | KeyCode.Right, false => str_bytes (esc "[C")
  | KeyCode.Left, false => str_bytes (esc "[D")
  | _, _ => encode_legacy (TerminalKey_new code no_modifiers)
  end.

(** *** Mouse events *)

Module MouseButton.
Inductive MouseButton := Left | Right | Middle.
End MouseButton.
Abbreviation MouseButton := MouseButton.MouseButton.

Module MouseEventKind.
Inductive MouseEventKind :=
  | Down (b : MouseButton) | Up (b : MouseButton) | Drag (b : MouseButton) | Moved
  | ScrollDown | ScrollUp | ScrollLeft | ScrollRight.
End MouseEventKind.
Abbreviation MouseEventKind := MouseEventKind.MouseEventKind.

Definition push_mouse_codepoint (value : N) : option bytes := if is_char value then Some (encode_utf8 value) else None.

(** [u8::try_from(v)] *)
Definition byte_of (v : N) : option ascii := if (v <? 256)%N then Some (ascii_of_N v) else None.

Definition encode_mouse_cb (base_button : N) (release : bool) (column row : N) (m : KeyModifiers)
    (encoding : MouseProtocolEncoding) : option bytes :=
  let cb :=
    match encoding, release with
    | MouseProtocolEncoding.Sgr, true => base_button
    | _, true => 3
    | _, false => base_button
    end%N in
  let cb := (cb + (if km_shift m then 4 else 0) + (if km_alt m then 8 else 0) + (if km_control m then 16 else 0))%N in
  let column := (column + 1)%N in
  let row := (row + 1)%N in
  match encoding with
  | MouseProtocolEncoding.Sgr =>
      Some (str_bytes (esc ("[<" +:+ pretty cb +:+ ";" +:+ pretty column +:+ ";" +:+ pretty row
                            +:+ if release then "m" else "M")))
  | MouseProtocolEncoding.Default =>
      cb ← byte_of (cb + 32);
      column ← byte_of (column + 32);
      row ← byte_of (row + 32);
      Some (str_bytes (esc "[M") ++ [cb; column; row])
  | MouseProtocolEncoding.Utf8 =>
      cb ← push_mouse_codepoint (cb + 32);
      column ← push_mouse_codepoint (column + 32);
      row ← push_mouse_codepoint (row + 32);
      Some (str_bytes (esc "[M") ++ cb ++ column ++ row)
  end.

Definition encode_mouse_scroll (kind : MouseEventKind) (column row : N) (m : KeyModifiers)
    (encoding : MouseProtocolEncoding) : option bytes :=
  button ← match kind with
           | MouseEventKind.ScrollUp => Some 64
           | MouseEventKind.ScrollDown => Some 65
           | MouseEventKind.ScrollLeft => Some 66
           | MouseEventKind.ScrollRight => Some 67
           | _ => None
           end%N;
  encode_mouse_cb button false column row m encoding.

Definition encode_mouse_button (kind : MouseEventKind) (column row : N) (m : KeyModifiers)
    (encoding : MouseProtocolEncoding) : option bytes :=
  '(button, release) ← match kind with
                       | MouseEventKind.Down MouseButton.Left => Some (0, false)
                       | MouseEventKind.Down MouseButton.Middle => Some (1, false)
                       | MouseEventKind.Down MouseButton.Right => Some (2, false)
                       | MouseEventKind.Up MouseButton.Left => Some (0, true)
                       | MouseEventKind.Up MouseButton.Middle => Some (1, true)
                       | MouseEventKind.Up MouseButton.Right => Some (2, true)
                       | MouseEventKind.Drag MouseButton.Left => Some (32, false)
                       | MouseEventKind.Drag MouseButton.Middle => Some (33, false)
                       | MouseEventKind.Drag MouseButton.Right => Some (34, false)
                       | _ => None
                       end%N;
  encode_mouse_cb button release column row m encoding.

(** ** Parsing ([parse.rs]) *)

Definition split_modifier_and_event (input : string) : string * option string :=
  match str_split_once ":" input with
  | Some (modifier, event) => if str_is_empty modifier then (input, None) else (modifier, Some event)
  | None => (input, None)
  end.

Definition parse_kitty_event_type (value : option string) : option KeyEventKind :=
  match default "1" value with
  | "1" => Some KeyEventKind.Press
  | "2" => Some KeyEventKind.Repeat
  | "3" => Some KeyEventKind.Release
  | _ => None
  end.

Definition key_modifiers_from_u8 (modifier : N) : KeyModifiers :=
  mkKeyModifiers (has_flag modifier 1) (has_flag modifier 2) (has_flag modifier 4) (has_flag modifier 8)
    (has_flag modifier 16) (has_flag modifier 32).

(** The codes from 57399 on, of the keypad, the cursor, the media and the modifier keys *)
Definition keypad_codes : list KeyCode :=
  KeyCode.Char <$> (N_of_ascii <$> str_bytes "0123456789./*-+").
Definition after_keypad_enter : list KeyCode :=
  [KeyCode.Char 61; KeyCode.Char 44; KeyCode.Left; KeyCode.Right; KeyCode.Up; KeyCode.Down; KeyCode.PageUp;
   KeyCode.PageDown; KeyCode.Home; KeyCode.End_; KeyCode.Insert; KeyCode.Delete; KeyCode.KeypadBegin]
  ++ (KeyCode.Media <$> [MediaKeyCode.Play; MediaKeyCode.Pause; MediaKeyCode.PlayPause; MediaKeyCode.Reverse;
        MediaKeyCode.Stop; MediaKeyCode.FastForward; MediaKeyCode.Rewind; MediaKeyCode.TrackNext;
        MediaKeyCode.TrackPrevious; MediaKeyCode.Record_; MediaKeyCode.LowerVolume; MediaKeyCode.RaiseVolume;
        MediaKeyCode.MuteVolume])
  ++ (KeyCode.Modifier <$> [ModifierKeyCode.LeftShift; ModifierKeyCode.LeftControl; ModifierKeyCode.LeftAlt;
        ModifierKeyCode.LeftSuper; ModifierKeyCode.LeftHyper; ModifierKeyCode.LeftMeta; ModifierKeyCode.RightShift;
        ModifierKeyCode.RightControl; ModifierKeyCode.RightAlt; ModifierKeyCode.RightSuper; ModifierKeyCode.RightHyper;
        ModifierKeyCode.RightMeta; ModifierKeyCode.IsoLevel3Shift; ModifierKeyCode.IsoLevel5Shift]).
Definition lock_codes : list KeyCode :=
  [KeyCode.CapsLock; KeyCode.ScrollLock; KeyCode.NumLock; KeyCode.PrintScreen; KeyCode.Pause; KeyCode.Menu].

Definition is_kitty_functional_codepoint (c : N) : bool := ((57358 <=? c) && (c <=? 57454))%N.

Definition kitty_codepoint_to_keycode (c : N) : option KeyCode :=
  (if (c =? 8) || (c =? 127) then Some KeyCode.Backspace
   else if c =? 9 then Some KeyCode.Tab
   else if (c =? 13) || (c =? 57414) then Some KeyCode.Enter
   else if c =? 27 then Some KeyCode.Esc
   else if (57358 <=? c) && (c <=? 57363) then lock_codes !! N.to_nat (c - 57358)
   else if (57376 <=? c) && (c <=? 57398) then Some (KeyCode.F (c - 57376 + 13))
   else if (57399 <=? c) && (c <=? 57413) then keypad_codes !! N.to_nat (c - 57399)
   else if (57415 <=? c) && (c <=? 57454) then after_keypad_enter !! N.to_nat (c - 57415)
   else if is_kitty_functional_codepoint c then None
   else if is_char c then Some (KeyCode.Char c) else None)%N.

(** [text.parse::<u8>().ok()?.checked_sub(1)?] *)
Definition parse_modifier (text : string) : option N :=
  m ← parse_unsigned 255 text; if (m =? 0)%N then None else Some (m - 1)%N.

Definition parse_kitty_key_sequence (data : string) : option TerminalKey :=
  body ← (rest ← strip_prefix (esc "[") data; strip_last "u" rest);
  '(key_part, modifier_part, associated_text) ←
    match str_split ";" body with
    | [key] => Some (key, "1", None)
    | [key; modifier] => Some (key, modifier, None)
    | [key; modifier; text] => Some (key, modifier, Some text)
    | _ => None
    end;
  let '(modifier_text, event_type) := split_modifier_and_event modifier_part in
  modifier ← parse_modifier modifier_text;
  let key_fields := str_split ":" key_part in
  codepoint ← (field ← head key_fields; parse_unsigned u32_max field);
  let shifted_codepoint :=
    match key_fields with
    | _ :: field :: _ => if str_is_empty field then None else parse_unsigned u32_max field
    | _ => None
    end in
  _ ← match associated_text with
      | Some text => c ← parse_unsigned u32_max text; if (c =? codepoint)%N then Some tt else None
      | None => Some tt
      end;
  code ← kitty_codepoint_to_keycode codepoint;
  kind ← parse_kitty_event_type event_type;
  Some (mkTerminalKey code (key_modifiers_from_u8 modifier) kind shifted_codepoint).

Definition parse_modify_other_keys_sequence (data : string) : option TerminalKey :=
  body ← (rest ← strip_prefix (esc "[27;") data; strip_last "~" rest);
  '(modifier_part, codepoint_part) ← str_split_once ";" body;
  modifier ← parse_modifier modifier_part;
  codepoint ← parse_unsigned u32_max codepoint_part;
  code ← kitty_codepoint_to_keycode codepoint;
  Some (TerminalKey_new code (key_modifiers_from_u8 modifier)).

Definition letter_codes : list (string * KeyCode) :=
  [("A", KeyCode.Up); ("B", KeyCode.Down); ("C", KeyCode.Right); ("D", KeyCode.Left); ("H", KeyCode.Home);
   ("F", KeyCode.End_); ("P", KeyCode.F 1); ("Q", KeyCode.F 2); ("R", KeyCode.F 3); ("S", KeyCode.F 4)].
Definition tilde_codes : list (string * KeyCode) :=
  [("2", KeyCode.Insert); ("3", KeyCode.Delete); ("5", KeyCode.PageUp); ("6", KeyCode.PageDown); ("15", KeyCode.F 5);
   ("17", KeyCode.F 6); ("18", KeyCode.F 7); ("19", KeyCode.F 8); ("20", KeyCode.F 9); ("21", KeyCode.F 10);
   ("23", KeyCode.F 11); ("24", KeyCode.F 12)].
Definition code_in {A} (codes : list (string * A)) (text : string) : option A :=
  snd <$> find_first (λ c, bool_decide (c.1 = text)) codes.

Definition modified_key (code : KeyCode) (modifier_and_event : string) : option TerminalKey :=
  let '(modifier_text, event_type) := split_modifier_and_event modifier_and_event in
  modifier ← parse_modifier modifier_text;
  kind ← parse_kitty_event_type event_type;
  Some (with_kind (TerminalKey_new code (key_modifiers_from_u8 modifier)) kind).

(** A body that starts with [1;] and ends with a letter is decided there. *)
Definition parse_xterm_modified_special_sequence (data : string) : option TerminalKey :=
  body ← strip_prefix (esc "[") data;
  let tilde :=
    tilde_body ← strip_last "~" body;
    '(code_part, modifier_part) ← str_split_once ";" tilde_body;
    code ← code_in tilde_codes code_part;
    modified_key code modifier_part in
  match strip_prefix "1;" body with
  | None => tilde
  | Some body =>
      suffix_char ← last (chars body);
      if is_upper suffix_char || is_lower suffix_char then
        let letter := ascii_of_N suffix_char in
        modifier_and_event ← strip_last letter body;
        code ← code_in letter_codes (String letter "");
        modified_key code modifier_and_event
      else tilde
  end.

(** [parse_legacy_special_sequence]: every sequence that stands for one key *)
Definition plain (code : KeyCode) : TerminalKey := TerminalKey_new code no_modifiers.
Definition legacy_special : list (list string * TerminalKey) :=
  [([esc (esc "[A")], TerminalKey_new KeyCode.Up ALT); ([esc (esc "[B")], TerminalKey_new KeyCode.Down ALT);
   ([esc (esc "[C")], TerminalKey_new KeyCode.Right ALT); ([esc (esc "[D")], TerminalKey_new KeyCode.Left ALT);
   ([esc "[A"; esc "OA"], plain KeyCode.Up); ([esc "[B"; esc "OB"], plain KeyCode.Down);
   ([esc "[C"; esc "OC"], plain KeyCode.Right); ([esc "[D"; esc "OD"], plain KeyCode.Left);
   ([esc "[H"; esc "OH"; esc "[1~"; esc "[7~"], plain KeyCode.Home);
   ([esc "[F"; esc "OF"; esc "[4~"; esc "[8~"], plain KeyCode.End_);
   ([esc "[5~"], plain KeyCode.PageUp); ([esc "[6~"], plain KeyCode.PageDown);
   ([esc "[2~"], plain KeyCode.Insert); ([esc "[3~"], plain KeyCode.Delete);
   ([esc "Op"], plain (KeyCode.Char 48)); ([esc "Oq"], plain (KeyCode.Char 49)); ([esc "Or"], plain (KeyCode.Char 50));
   ([esc "Os"], plain (KeyCode.Char 51)); ([esc "Ot"], plain (KeyCode.Char 52)); ([esc "Ou"], plain (KeyCode.Char 53));
   ([esc "Ov"], plain (KeyCode.Char 54)); ([esc "Ow"], plain (KeyCode.Char 55)); ([esc "Ox"], plain (KeyCode.Char 56));
   ([esc "Oy"], plain (KeyCode.Char 57)); ([esc "On"], plain (KeyCode.Char 46)); ([esc "Ol"], plain (KeyCode.Char 44));
   ([esc "Om"], plain (KeyCode.Char 45)); ([esc "Ok"], plain (KeyCode.Char 43)); ([esc "Oj"], plain (KeyCode.Char 42));
   ([esc "Oo"], plain (KeyCode.Char 47)); ([esc "OM"], plain KeyCode.Enter);
   ([esc "OP"; esc "[11~"], plain (KeyCode.F 1)); ([esc "OQ"; esc "[12~"], plain (KeyCode.F 2));
   ([esc "OR"; esc "[13~"], plain (KeyCode.F 3)); ([esc "OS"; esc "[14~"], plain (KeyCode.F 4));
   ([esc "[15~"], plain (KeyCode.F 5)); ([esc "[17~"], plain (KeyCode.F 6)); ([esc "[18~"], plain (KeyCode.F 7));
   ([esc "[19~"], plain (KeyCode.F 8)); ([esc "[20~"], plain (KeyCode.F 9)); ([esc "[21~"], plain (KeyCode.F 10));
   ([esc "[23~"], plain (KeyCode.F 11)); ([esc "[24~"], plain (KeyCode.F 12));
   ([esc "[Z"], TerminalKey_new KeyCode.BackTab SHIFT)].

Definition parse_legacy_special_sequence (data : string) : option TerminalKey :=
  match find_first (λ e, bool_decide (data ∈ e.1)) legacy_special with
  | Some (_, key) => Some key
  | None => parse_xterm_modified_special_sequence data
  end.

Definition parse_legacy_ctrl_char (c : N) : option TerminalKey :=
  (if c =? 0 then Some (TerminalKey_new (KeyCode.Char 32) CONTROL)
   else if c <=? 26 then Some (TerminalKey_new (KeyCode.Char (c + 96)) CONTROL)
   else if c =? 27 then Some (TerminalKey_new (KeyCode.Char 91) CONTROL)
   else if c =? 28 then Some (TerminalKey_new (KeyCode.Char 92) CONTROL)
   else if c =? 29 then Some (TerminalKey_new (KeyCode.Char 93) CONTROL)
   else if c =? 30 then Some (TerminalKey_new (KeyCode.Char 94) CONTROL)
   else if c =? 31 then Some (TerminalKey_new (KeyCode.Char 45) CONTROL)
   else None)%N.

Definition parse_legacy_key_sequence (data : string) : option TerminalKey :=
  match parse_legacy_special_sequence data with
  | Some key => Some key
  | None =>
      if bool_decide (data = String "013" "") then Some (plain KeyCode.Enter)
      else if bool_decide (data = String "009" "") then Some (plain KeyCode.Tab)
      else if bool_decide (data = esc "") then Some (plain KeyCode.Esc)
      else if bool_decide (data = esc (String "127" "")) then Some (TerminalKey_new KeyCode.Backspace ALT)
      else if bool_decide (data = String "127" "") then Some (plain KeyCode.Backspace)
      else
        match strip_prefix (esc "") data with
        | Some rest =>
            match chars rest with
            | [c] => Some (TerminalKey_new (KeyCode.Char c) (if is_upper c then ALT <| km_shift := true |> else ALT))
            | _ => None
            end
        | None =>
            match chars data with
            | [c] =>
                match parse_legacy_ctrl_char c with
                | Some ctrl_key => Some ctrl_key
                | None => Some (TerminalKey_new (KeyCode.Char c) (if is_upper c then SHIFT else no_modifiers))
                end
            | _ => None
            end
        end
  end.

Definition parse_terminal_key_sequence (data : string) : option TerminalKey :=
  match parse_kitty_key_sequence data with
  | Some key => Some key
  | None =>
      match parse_modify_other_keys_sequence data with
      | Some key => Some key
      | None => parse_legacy_key_sequence data
      end
  end.

(** ** Numbers are read back *)

Lemma parse_pretty_go top x s :
  (x ≤ top)%N → parse_digits top 0 (str_bytes (pretty_N_go x s)) = parse_digits top x (str_bytes s).
Proof.
  revert s. induction (N.lt_wf_0 x) as [x _ IH]. intros s Hx.
  destruct (decide (0 < x)%N) as [Hpos|Hpos]; [|replace x with 0%N by lia; by rewrite pretty_N_go_0].
  rewrite pretty_N_go_step by done. rewrite IH; [|apply N.div_lt; lia|euclid].
  change (str_bytes (String (pretty_N_char (x mod 10)) s)) with (pretty_N_char (x mod 10) :: str_bytes s).
  cbn [parse_digits]. assert (digit_value (pretty_N_char (x mod 10)) = Some (x mod 10)%N) as ->.
  { assert (Hd : (x mod 10 < 10)%N) by (apply N.mod_lt; lia). revert Hd. generalize (x mod 10)%N. intros d Hd.
    destruct d as [|p]; [done|]. do 4 (destruct p as [p|p|]; try done; try lia). }
  cbn [mbind option_bind]. replace (x / 10 * 10 + x mod 10)%N with x by euclid. by rewrite (proj2 (N.leb_le x top)).
Qed.

Lemma pretty_nonempty n : pretty (n : N) ≠ "".
Proof.
  unfold pretty, pretty_N. case_decide; [done|]. rewrite pretty_N_go_step by lia. intros Heq.
  assert (Hlen : ∀ x s, s ≠ "" → pretty_N_go x s ≠ "").
  { intros x. induction (N.lt_wf_0 x) as [x _ IH]. intros s Hs. destruct (decide (0 < x)%N).
    - rewrite pretty_N_go_step by done. apply IH; [apply N.div_lt; lia|done].
    - replace x with 0%N by lia. by rewrite pretty_N_go_0. }
  by apply Hlen in Heq.
Qed.

Lemma pretty_without c n : is_digit c = false → c ∉ str_bytes (pretty (n : N)).
Proof.
  intros Hc Hin. pose proof (proj1 (Forall_forall _ _) (pretty_digits n) c Hin) as Hd. cbn in Hd. congruence.
Qed.

Lemma parse_unsigned_pretty top n : (n ≤ top)%N → parse_unsigned top (pretty n) = Some n.
Proof.
  intros Hn. unfold parse_unsigned.
  assert (Hdigits : parse_digits top 0 (str_bytes (pretty n)) = Some n).
  { unfold pretty, pretty_N. case_decide as Hz; [|by rewrite parse_pretty_go].
    subst n. cbn. by destruct top. }
  pose proof (pretty_without "+" n eq_refl) as Hplus. pose proof (pretty_nonempty n) as Hne.
  destruct (str_bytes (pretty n)) as [|c l] eqn:Hl in Hplus |- *.
  { exfalso. apply Hne, str_bytes_inj. by rewrite Hl. }
  rewrite Hl in Hdigits. destruct (ascii_dec c "+") as [->|]; [|done]. exfalso. apply Hplus. by left.
Qed.

Lemma str_split_single c s : c ∉ str_bytes s → str_split c s = [s].
Proof.
  intros Hc. pose proof (str_split_app c s "" Hc) as Hs. cbn [str_split] in Hs. by rewrite !str_app_nil_r in Hs.
Qed.

(** ** Keys in the protocol of kitty *)

(** What a program that reads the protocol is told of a key *)
Definition told (flags : N) (key : TerminalKey) : TerminalKey :=
  mkTerminalKey
    match tk_code key with KeyCode.Char c => KeyCode.Char (canonical_kitty_char c (tk_modifiers key)) | code => code end
    (tk_modifiers key)
    (if has_flag flags KITTY_FLAG_REPORT_EVENT_TYPES then tk_kind key else KeyEventKind.Press)
    match tk_code key with KeyCode.Char _ => alternate_shifted_codepoint key flags | _ => None end.

(** Characters that the protocol does not use for other keys *)
Definition own_char (c : N) : Prop :=
  is_char c = true ∧ c ∉ [8; 9; 13; 27; 127]%N ∧ is_kitty_functional_codepoint c = false.

Definition key_fits (key : TerminalKey) : Prop :=
  (∀ c, tk_code key = KeyCode.Char c → own_char c) ∧ ∀ s, tk_shifted_codepoint key = Some s → (s ≤ u32_max)%N.

Lemma modifiers_read_back m : key_modifiers_from_u8 (kitty_modifier m - 1) = m.
Proof. destruct m as [[] [] [] [] [] []]; reflexivity. Qed.

Lemma kitty_modifier_bounds m : (1 ≤ kitty_modifier m ≤ 64)%N.
Proof. destruct m as [[] [] [] [] [] []]; cbv; split; discriminate. Qed.

Lemma parse_modifier_pretty m : parse_modifier (pretty (kitty_modifier m)) = Some (kitty_modifier m - 1)%N.
Proof.
  pose proof (kitty_modifier_bounds m). unfold parse_modifier. rewrite parse_unsigned_pretty by lia.
  cbn [mbind option_bind]. rewrite (proj2 (N.eqb_neq _ _)); [done|lia].
Qed.

Lemma keycode_of_own_char c : own_char c → kitty_codepoint_to_keycode c = Some (KeyCode.Char c).
Proof.
  intros (Hc & Hcontrol & Hfun). rewrite !not_elem_of_cons in Hcontrol. destruct Hcontrol as (H8 & H9 & H13 & H27 & H127 & _).
  unfold is_kitty_functional_codepoint in Hfun. apply andb_false_iff in Hfun. rewrite !N.leb_gt in Hfun.
  unfold kitty_codepoint_to_keycode, is_kitty_functional_codepoint.
  rewrite !(proj2 (N.eqb_neq c _)) by (done || (intros ->; destruct Hfun as [Hf|Hf]; revert Hf; by vm_compute)). cbn [orb].
  assert (Hrange : ∀ a b, (57358 ≤ a)%N → (b ≤ 57454)%N → (a <=? c)%N && (c <=? b)%N = false).
  { intros a b Ha Hb. apply andb_false_iff. rewrite !N.leb_gt. lia. }
  rewrite !Hrange by lia. by rewrite Hc.
Qed.

Lemma canonical_own c m : own_char c → own_char (canonical_kitty_char c m).
Proof.
  unfold canonical_kitty_char. destruct (km_shift m); [|done]. destruct (is_upper c) eqn:Hu; [|done]. intros _.
  unfold is_upper in Hu. apply andb_true_iff in Hu as [Hl%N.leb_le Hh%N.leb_le]. unfold to_lower, is_upper.
  rewrite (proj2 (N.leb_le _ _) Hl), (proj2 (N.leb_le _ _) Hh). cbn [andb]. unfold own_char, is_char, is_kitty_functional_codepoint.
  split_and!.
  - apply orb_true_iff. left. apply N.ltb_lt. lia.
  - rewrite !not_elem_of_cons. split_and!; [lia..|]. apply not_elem_of_nil.
  - apply andb_false_iff. left. apply N.leb_gt. lia.
Qed.

Definition event_of (flags : N) (key : TerminalKey) : option string := (λ e : N, pretty e) <$> kitty_event_suffix key flags.

Lemma event_read_back flags key :
  parse_kitty_event_type (event_of flags key)
  = Some (if has_flag flags KITTY_FLAG_REPORT_EVENT_TYPES then tk_kind key else KeyEventKind.Press).
Proof.
  unfold event_of, kitty_event_suffix. destruct (has_flag flags _); [|done]. cbn [negb]. by destruct (tk_kind key).
Qed.

Lemma split_csi_modifier m flags key :
  split_modifier_and_event (pretty (m : N) +:+ match kitty_event_suffix key flags with Some e => ":" +:+ pretty e | None => "" end)
  = (pretty m, event_of flags key).
Proof.
  unfold split_modifier_and_event, event_of. destruct (kitty_event_suffix key flags) as [e|].
  - change (":" +:+ pretty e) with (String ":" (pretty e)). rewrite str_split_once_first by (by apply pretty_without).
    unfold str_is_empty. by rewrite bool_decide_eq_false_2 by apply pretty_nonempty.
  - rewrite str_app_nil_r. by rewrite str_split_once_none by (by apply pretty_without).
Qed.

Lemma split_csi_key c shifted :
  str_split ":" (pretty (c : N) +:+ match shifted : option N with Some s => ":" +:+ pretty s | None => "" end)
  = pretty c :: match shifted with Some s => [pretty s] | None => [] end.
Proof.
  destruct shifted as [s|].
  - change (":" +:+ pretty s) with (String ":" (pretty s)).
    by rewrite str_split_app_sep, !str_split_single by (by apply pretty_without).
  - by rewrite str_app_nil_r, str_split_single by (by apply pretty_without).
Qed.

(** The sequence that [csi_u] writes is parsed into its fields. *)
Lemma csi_u_read_back flags key c shifted code :
  kitty_codepoint_to_keycode c = Some code → (c ≤ u32_max)%N → (∀ s, shifted = Some s → (s ≤ u32_max)%N) →
  parse_kitty_key_sequence (csi_u c shifted (kitty_modifier (tk_modifiers key)) (kitty_event_suffix key flags))
  = Some (mkTerminalKey code (tk_modifiers key)
            (if has_flag flags KITTY_FLAG_REPORT_EVENT_TYPES then tk_kind key else KeyEventKind.Press) shifted).
Proof.
  intros Hcode Hc Hs. unfold parse_kitty_key_sequence, csi_u.
  set (sh := match shifted with Some s => ":" +:+ pretty s | None => "" end).
  set (m := kitty_modifier (tk_modifiers key)).
  set (ev := match kitty_event_suffix key flags with Some e => ":" +:+ pretty e | None => "" end).
  set (body := (pretty c +:+ sh) +:+ String ";" (pretty m +:+ ev)).
  assert (esc ("[" +:+ pretty c +:+ sh +:+ ";" +:+ pretty m +:+ ev +:+ "u") = esc "[" +:+ (body +:+ String "u" "")) as ->.
  { unfold body. change (String ";" (pretty m +:+ ev)) with (";" +:+ (pretty m +:+ ev)).
    change (String "u" "") with "u". rewrite !str_app_assoc. reflexivity. }
  rewrite (proj2 (strip_prefix_spec (esc "[") _ (body +:+ String "u" "")) eq_refl). cbn [mbind option_bind].
  rewrite strip_last_app. cbn [mbind option_bind].
  assert (Hsemi : ∀ s : string, ";"%char ∉ str_bytes s → str_split ";" s = [s]) by (apply str_split_single).
  assert (str_split ";" body = [pretty c +:+ sh; pretty m +:+ ev]) as ->.
  { unfold body. rewrite str_split_app_sep, !Hsemi; [done| |].
    - rewrite str_bytes_app, elem_of_app. intros [Hin|Hin]; [by apply pretty_without in Hin|].
      unfold ev in Hin. destruct (kitty_event_suffix key flags); [|by apply not_elem_of_nil in Hin].
      rewrite str_bytes_app, elem_of_app in Hin. destruct Hin as [Hin|Hin]; [set_solver|by apply pretty_without in Hin].
    - rewrite str_bytes_app, elem_of_app. intros [Hin|Hin]; [by apply pretty_without in Hin|].
      unfold sh in Hin. destruct shifted; [|by apply not_elem_of_nil in Hin].
      rewrite str_bytes_app, elem_of_app in Hin. destruct Hin as [Hin|Hin]; [set_solver|by apply pretty_without in Hin]. }
  cbn [mbind option_bind]. unfold ev, sh. rewrite split_csi_modifier, split_csi_key. unfold m.
  rewrite parse_modifier_pretty. cbn [mbind option_bind head]. rewrite parse_unsigned_pretty by done.
  cbn [mbind option_bind]. rewrite Hcode. cbn [mbind option_bind]. rewrite event_read_back. cbn [mbind option_bind].
  rewrite modifiers_read_back. f_equal. f_equal. destruct shifted as [s|]; [|done].
  unfold str_is_empty. rewrite bool_decide_eq_false_2 by apply pretty_nonempty. apply parse_unsigned_pretty. by apply Hs.
Qed.

Lemma own_char_bound c : own_char c → (c ≤ u32_max)%N.
Proof.
  intros [Hc _]. unfold is_char in Hc. unfold u32_max. apply orb_true_iff in Hc as [Hc|[_ Hc]%andb_true_iff];
    apply N.ltb_lt in Hc; lia.
Qed.

Lemma alternate_shifted_bound flags key s :
  key_fits key → alternate_shifted_codepoint key flags = Some s → (s ≤ u32_max)%N.
Proof.
  intros [Hchar Hshift]. unfold alternate_shifted_codepoint. destruct (negb _); [done|].
  destruct (tk_shifted_codepoint key) as [s'|] eqn:Hs; [intros [= <-]; by apply Hshift|].
  destruct (tk_code key) as [| | | | | | | | | | | | | | |c| | | | | | | | | | |] eqn:Hcode; try done.
  destruct (_ && _); [|done]. intros [= <-]. by apply own_char_bound, Hchar.
Qed.

(** The code that [kitty_codepoint] writes stands for the key. *)
Lemma codepoint_of_key flags key c shifted :
  key_fits key → kitty_codepoint key flags = Some (c, shifted) →
  (c ≤ u32_max)%N ∧ (∀ s, shifted = Some s → (s ≤ u32_max)%N) ∧ kitty_codepoint_to_keycode c = Some (tk_code (told flags key)) ∧
  shifted = tk_shifted_codepoint (told flags key).
Proof.
  intros Hfits Hcp. pose proof Hfits as [Hchar _].
  assert (Hfixed : ∀ n code, Some (n, None) = Some (c, shifted) → ((n <=? u32_max)%N = true ∧ kitty_codepoint_to_keycode n = Some code) →
            (c ≤ u32_max)%N ∧ (∀ s, shifted = Some s → (s ≤ u32_max)%N) ∧ kitty_codepoint_to_keycode c = Some code ∧ shifted = None).
  { intros n code [= <- <-] [Hn Hk]. split; [by apply N.leb_le|]. by split. }
  unfold kitty_codepoint in Hcp. unfold told. cbn [tk_code tk_shifted_codepoint].
  destruct (tk_code key) as [| | | | | | | | | | | | | | |ch| | | | | | | | | | |] eqn:Hcode;
    try discriminate Hcp; try (apply (Hfixed _ _ Hcp); split; reflexivity).
  injection Hcp as <- <-.
  assert (Hown : own_char (canonical_kitty_char ch (tk_modifiers key))) by (by apply canonical_own, Hchar).
  split_and!; [by apply own_char_bound| |by apply keycode_of_own_char|done].
  intros s. by apply alternate_shifted_bound.
Qed.

Lemma str_of_str_bytes (s : string) : str_of_bytes (str_bytes s) = s.
Proof. apply str_bytes_inj, str_of_to_bytes. Qed.

Lemma kitty_keys_are_read flags key b :
  key_fits key → try_encode_csi_u key flags = Some b → parse_terminal_key_sequence (str_of_bytes b) = Some (told flags key).
Proof.
  intros Hfits. unfold try_encode_csi_u. do 3 (destruct (_ && _); [done|]).
  destruct (kitty_codepoint key flags) as [[c shifted]|] eqn:Hcode; [|done]. cbn [mbind option_bind]. intros <-%(inj Some).
  destruct (codepoint_of_key flags key c shifted Hfits Hcode) as (Hc & Hs & Hkey & Hshifted).
  rewrite str_of_str_bytes. unfold parse_terminal_key_sequence. rewrite (csi_u_read_back _ _ _ _ _ Hkey Hc Hs).
  f_equal. unfold told in *. cbn in *. by rewrite <- Hshifted.
Qed.

(** *** Special keys *)

Definition editing_keys : list KeyCode :=
  [KeyCode.Up; KeyCode.Down; KeyCode.Left; KeyCode.Right; KeyCode.Home; KeyCode.End_; KeyCode.PageUp; KeyCode.PageDown;
   KeyCode.Insert; KeyCode.Delete] ++ (KeyCode.F <$> [1; 2; 3; 4; 5; 6; 7; 8; 9; 10; 11; 12]%N).
Definition xterm_modifiers : list KeyModifiers :=
  shift ← [false; true]; alt ← [false; true]; control ← [false; true];
  [mkKeyModifiers shift alt control false false false].

Lemma legacy_specials_read_back :
  Forall (λ code, Forall (λ m,
    parse_terminal_key_sequence (str_of_bytes (encode_legacy (TerminalKey_new code m))) = Some (TerminalKey_new code m))
    xterm_modifiers) editing_keys.
Proof. apply (bool_decide_unpack _). vm_compute. exact I. Qed.

Lemma editing_key_cases code :
  code ∈ editing_keys → (∀ c, code ≠ KeyCode.Char c) ∧ established_key code = true.
Proof.
  assert (Hall : Forall (λ code, (match code with KeyCode.Char _ => false | _ => true end) && established_key code = true)
                   editing_keys) by (apply (bool_decide_unpack _); vm_compute; exact I).
  intros Hin. pose proof (proj1 (Forall_forall _ _) Hall code Hin) as Hc. cbn in Hc.
  apply andb_true_iff in Hc as [Hc Hest]. split; [|done]. by intros c ->.
Qed.

Lemma specials_read_back code m protocol :
  code ∈ editing_keys → m ∈ xterm_modifiers →
  parse_terminal_key_sequence (str_of_bytes (encode_terminal_key (TerminalKey_new code m) protocol))
  = Some (TerminalKey_new code m).
Proof.
  intros Hcode Hm. destruct (editing_key_cases code Hcode) as [Hchar _].
  assert (Hlegacy : parse_terminal_key_sequence (str_of_bytes (encode_legacy (TerminalKey_new code m)))
                    = Some (TerminalKey_new code m)).
  { pose proof (proj1 (Forall_forall _ _) legacy_specials_read_back code Hcode) as Hl.
    by apply (proj1 (Forall_forall _ _) Hl m Hm). }
  unfold encode_terminal_key. change (tk_kind _) with KeyEventKind.Press. cbn [bool_decide andb decide_rel].
  rewrite bool_decide_eq_false_2 by done. cbn [andb].
  assert (encode_text_input (TerminalKey_new code m) = None) as ->.
  { unfold encode_text_input. cbn. destruct code; try done. by destruct (Hchar c). }
  destruct protocol as [|flags]; [done|].
  destruct (try_encode_csi_u _ flags) as [b|] eqn:Hb; [|done].
  rewrite (kitty_keys_are_read flags (TerminalKey_new code m) b); [| |done].
  - f_equal. unfold told, TerminalKey_new. cbn. destruct code; try (by destruct (has_flag _ _)). by destruct (Hchar c).
  - split; [|done]. intros c Hc. by destruct (Hchar c).
Qed.

(** *** Text *)

Definition printable (c : N) : Prop := is_char c = true ∧ (32 ≤ c)%N ∧ c ≠ 127%N.
Definition text_key (c : N) : TerminalKey := TerminalKey_new (KeyCode.Char c) (if is_upper c then SHIFT else no_modifiers).

Lemma text_head a s c :
  is_char c = true → string_of_chars [c] = String a s → (N_of_ascii a < 128)%N → N_of_ascii a = c.
Proof.
  intros Hc Heq Ha. assert (Hchars : chars (string_of_chars [c]) = [c]) by (by apply chars_string_of_chars; repeat constructor).
  rewrite Heq in Hchars. unfold chars in Hchars. cbn in Hchars. rewrite (proj2 (N.ltb_lt _ 128)) in Hchars by done. by injection Hchars.
Qed.

(** What a control character begins is not a character of a text. *)
Lemma text_not_control c (a : ascii) s :
  printable c → string_of_chars [c] = String a s → (N_of_ascii a < 32)%N ∨ N_of_ascii a = 127%N → False.
Proof. intros (Hc & Hlow & H127) Heq Ha. assert (N_of_ascii a = c) by (apply (text_head a s); [done|done|lia]). lia. Qed.

Lemma text_no_prefix c p : printable c → strip_prefix (esc p) (string_of_chars [c]) = None.
Proof.
  intros Hc. destruct (strip_prefix _ _) as [rest|] eqn:Hp; [|done]. apply strip_prefix_spec in Hp.
  exfalso. apply (text_not_control c "027" (p +:+ rest)); [done| |by left].
  rewrite Hp. apply str_app_cons.
Qed.

Lemma legacy_special_escaped data e :
  e ∈ legacy_special → data ∈ e.1 → ∃ rest, data = esc rest.
Proof.
  assert (Hall : Forall (λ e : list string * TerminalKey, Forall (λ d, head (str_bytes d) = Some "027"%char) e.1) legacy_special)
    by (apply (bool_decide_unpack _); vm_compute; exact I).
  intros He Hd. pose proof (proj1 (Forall_forall _ _) Hall e He) as Hds.
  pose proof (proj1 (Forall_forall _ _) Hds data Hd) as Hh. cbn in Hh. destruct data as [|a rest]; [done|].
  cbn in Hh. injection Hh as ->. by exists rest.
Qed.

Lemma text_is_read c : printable c → parse_terminal_key_sequence (string_of_chars [c]) = Some (text_key c).
Proof.
  intros Hp. pose proof Hp as (Hc & Hlow & H127).
  unfold parse_terminal_key_sequence, parse_kitty_key_sequence, parse_modify_other_keys_sequence.
  rewrite !text_no_prefix by done. cbn [mbind option_bind].
  assert (Hspecial : parse_legacy_special_sequence (string_of_chars [c]) = None).
  { unfold parse_legacy_special_sequence. destruct (find_first _ _) as [[ds key]|] eqn:Hf.
    - apply find_some in Hf as [Hi%list_elem_of_In Hd%bool_decide_eq_true].
      destruct (legacy_special_escaped _ (ds, key) Hi Hd) as [rest Heq].
      exfalso. apply (text_not_control c "027" rest); [done|done|by left].
    - unfold parse_xterm_modified_special_sequence. by rewrite text_no_prefix. }
  unfold parse_legacy_key_sequence. rewrite Hspecial, text_no_prefix by done.
  assert (Hother : ∀ a s, (N_of_ascii a < 32)%N ∨ N_of_ascii a = 127%N → bool_decide (string_of_chars [c] = String a s) = false).
  { intros a s Ha. apply bool_decide_eq_false_2. intros Heq. by apply (text_not_control c a s). }
  unfold esc. rewrite !Hother by (by vm_compute; auto). rewrite chars_string_of_chars by (by repeat constructor).
  assert (parse_legacy_ctrl_char c = None) as ->; [|done].
  unfold parse_legacy_ctrl_char. rewrite !(proj2 (N.eqb_neq c _)) by lia. by rewrite (proj2 (N.leb_gt _ _)) by lia.
Qed.

Lemma text_is_sent c protocol : encode_terminal_key (text_key c) protocol = encode_utf8 c.
Proof.
  assert (Htext : encode_text_input (text_key c) = Some (encode_utf8 c)).
  { unfold encode_text_input, text_key, TerminalKey_new. cbn [tk_code tk_modifiers tk_kind].
    destruct (is_upper c) eqn:Hu; [|reflexivity].
    change (modifiers_empty SHIFT) with false. change (negb (bool_decide (SHIFT = SHIFT))) with false.
    unfold shifted_text_char. cbn [tk_shifted_codepoint mbind option_bind]. by rewrite Hu. }
  unfold encode_terminal_key. by rewrite Htext.
Qed.

(** C40: a key that is encoded for a program is the key the program reads with
    the same rules. In the protocol of kitty a program is told the code of every
    key that has one (a shifted letter as the small one), its modifiers, whether it was pressed, repeated or released
    when it asked for that, and the shifted character when it asked for that.
    The cursor, editing and function keys are read back with Shift, Alt and
    Control whatever protocol the program chose. A printable character that the
    terminal sends is one key, and that key sends the character on, in every
    protocol. *)
Theorem keys_pass_through (protocol : KeyboardProtocol) (flags : N) (key : TerminalKey) (b : bytes) (code : KeyCode)
    (m : KeyModifiers) (c : N) :
  key_fits key → try_encode_csi_u key flags = Some b →
  code ∈ editing_keys → m ∈ xterm_modifiers →
  printable c →
  parse_terminal_key_sequence (str_of_bytes b) = Some (told flags key) ∧
  parse_terminal_key_sequence (str_of_bytes (encode_terminal_key (TerminalKey_new code m) protocol))
    = Some (TerminalKey_new code m) ∧
  ∃ typed, parse_terminal_key_sequence (string_of_chars [c]) = Some typed ∧
    str_of_bytes (encode_terminal_key typed protocol) = string_of_chars [c].
Proof.
  intros Hfits Hb Hcode Hm Hc. split; [by apply kitty_keys_are_read|]. split; [by apply specials_read_back|].
  exists (text_key c). split; [by apply text_is_read|]. rewrite text_is_sent. unfold string_of_chars. by rewrite bind_singleton.
Qed.

(** ** Examples *)

Module KeysDemo.
(** Ctrl-Shift-A, released, for a program that asked for everything *)
Definition everything : N := 15.
Definition chord : TerminalKey :=
  mkTerminalKey (KeyCode.Char 65) (CONTROL <| km_shift := true |>) KeyEventKind.Release (Some 65%N).
Definition chord_bytes : bytes := str_bytes (esc "[97:65;6:3u").

Example chord_is_encoded : try_encode_csi_u chord everything = Some chord_bytes.
Proof. reflexivity. Qed.

Example shifted_F5 :
  str_of_bytes (encode_terminal_key (TerminalKey_new (KeyCode.F 5) SHIFT) KeyboardProtocol.Legacy) = esc "[15;2~".
Proof. reflexivity. Qed.

(** Control with a character outside ASCII sends the low byte of its code:
    U+0123 is sent as [#], U+010D as a carriage return. *)
Example control_low_byte :
  encode_terminal_key (TerminalKey_new (KeyCode.Char 291) CONTROL) KeyboardProtocol.Legacy = ["#"%char] ∧
  encode_terminal_key (TerminalKey_new (KeyCode.Char 269) CONTROL) KeyboardProtocol.Legacy = ["013"%char].
Proof. by split. Qed.

Lemma keys_pass_through_witness :
  parse_terminal_key_sequence (esc "[97:65;6:3u")
    = Some (mkTerminalKey (KeyCode.Char 97) (CONTROL <| km_shift := true |>) KeyEventKind.Release (Some 65%N)) ∧
  (∃ typed, parse_terminal_key_sequence (string_of_chars [8364%N]) = Some typed).
Proof.
  destruct (keys_pass_through (KeyboardProtocol.Kitty 1) everything chord chord_bytes (KeyCode.F 5) SHIFT 8364)
    as (Hchord & _ & typed & Htyped & _).
  - split.
    + intros c [= <-]. split_and!; [reflexivity| |reflexivity]. apply (bool_decide_unpack _). vm_compute. exact I.
    + intros s [= <-]. apply N.leb_le. reflexivity.
  - reflexivity.
  - apply (bool_decide_unpack _). vm_compute. exact I.
  - apply (bool_decide_unpack _). vm_compute. exact I.
  - split_and!; [reflexivity|apply N.leb_le; reflexivity|lia].
  - split; [exact Hchord|]. exists typed. exact Htyped.
Defined.
End KeysDemo.
